(* ===== verification/_CoqProject ===== *)
-Q . S2P
Prelude.v
Effects.v
Float64.v
Net.v
ZapretProfile.v
Config.v
Tspu.v
Override.v
Json.v
NetProofs.v
Validation.v
ValidationProofs.v
ValidationStable.v
Artifact.v
ArtifactProofs.v
ArtifactExamples.v
JsonText.v
JsonTextProofs.v
Helper.v
Rendered.v
Dataplane.v
DataplaneProofs.v
DataplaneSteps.v
DataplaneRollback.v
DataplaneActive.v
DataplaneKernel.v
DataplaneExamples.v
JsonProofs.v
Health.v
Evidence.v
ProbeTypes.v
ProbePath.v
OpenWrtPath.v
ProbeDNS.v
Probe.v
DNSValidation.v
PathProofs.v
ProbeEffects.v
ProbeProofs.v
Interfaces.v
HealthService.v
Collector.v
Subscription.v
SubscriptionProofs.v
Pool.v
PoolProofs.v
Auth.v
AuthHistory.v
AuthBounds.v
RouteAssignment.v
DomainCache.v
Planner.v
PlannerProofs.v
PlannerPlan.v
ProbeSafety.v
PlannerExamples.v
RouteAssignmentProofs.v
ProbeExamples.v
Store.v
StoreProofs.v
Compaction.v
Candidate.v
CandidateProofs.v
Adapter.v
OpenWrt.v
HelperProofs.v
Transaction.v
TransactionProofs.v
Requests.v
RequestsProofs.v
TransactionSafety.v
TransactionRecovery.v
TransactionExamples.v
ZapretCatalog.v
ZapretRanking.v
ZapretRankingProofs.v
ZapretSwitching.v
ZapretSwitchingProofs.v
ZapretScheduler.v
ZapretExamples.v
