(* ===== verification/Prelude.v ===== *)
(** * FlintRoute: a verification of its control plane

    FlintRoute is a policy router for a home gateway: for each domain it
    decides which route carries the traffic (direct, a Zapret profile, a VLESS
    proxy, or no route at all), proves by probing that the route works, and
    deploys the decision as a configuration of the router in transactions that
    can be confirmed or rolled back.  The sources are Go, under [src/internal];
    this library translates their control logic into executable definitions and
    proves what makes it correct.

    ** How the parts of the program interact

    An administrator edits the configuration through change sets.  A change set
    is drafted and validated ([Requests], [Validation]), which builds a candidate
    document from the active one ([Candidate], [Json]) and the plan of the data
    plane from the candidate ([Artifact]); it is then applied, confirmed or rolled
    back by the transaction engine ([Transaction]), which drives an adapter to
    the operating system ([Adapter]) and keeps its progress in the state store
    ([Store]), whose file is compacted from time to time ([Compaction]).

    The adapter of a router ([OpenWrt]) asks a privileged helper for each step
    ([Helper]), as JSON on a socket ([JsonText]); the helper starts the adapter
    script, which installs the plan's routing tables and rules and takes them back
    ([Dataplane]).

    For a domain, the route planner ([Planner]) reads the configuration
    ([Config]), the manual overrides ([Override]), the TSPU list ([Tspu]), the
    health of the routes ([Health], updated by the cycles of [HealthService]) and
    the cached decisions ([DomainCache]), probes its candidates in order and
    persists what it selected.  A probe ([Probe], with [ProbeDNS] for names and
    [DNSValidation] for a proposed resolver) is believed when the kernel's own
    counters show that it took the path of the plan ([ProbePath], [OpenWrtPath],
    [Evidence]); before a deployment is confirmed every route of its plan is probed
    that way and the proofs are stored ([Collector]).

    VLESS servers come from subscriptions ([Subscription]); the pool ([Pool])
    starts a candidate Xray, verifies a server through it and stores the bundle
    that a deployment installs.

    For a service behind Zapret, the profiles and bundles ([ZapretCatalog]) say
    what may be tried, the ranker ([ZapretRanking]) scores the observed probes,
    the controller ([ZapretSwitching]) decides when to change the profile and the
    scheduler ([ZapretScheduler]) when to probe again; profiles of single devices
    are [ZapretProfile].

    Requests pass through the authentication of [Auth], and the assignments of
    domains to routes reach the packet filter through [RouteAssignment].

    ** The files

    - [Prelude]: results of fallible Go code ([Ok], [Err]), 64-bit integers with
      wrap-around and Go's [time.Time] and [time.Duration] on them, the byte
      functions of [strings], Go's sorting as stable insertion with the laws of
      comparison functions ([StrictWeak]), record updates, shared tactics and
      hints.  [Effects]: computations on a world and the invariants they keep
      ([keeps]).  [Float64]: binary64 arithmetic.  [Net], [NetProofs]: the standard
      library's addresses and base64, decimal numbers, and [netpolicy/resolver.go].
      [JsonText], [JsonTextProofs]: reading and writing JSON text.
    - [Config], [Validation], [Tspu], [Override], [Health], [HealthService],
      [DomainCache], [Planner]: the routing decisions, after [config/config.go],
      [tspu/tspu.go], [policy/policy.go], [probe/health.go], [health/service.go],
      [domaincache/cache.go] and [planner/planner.go].  [Interfaces] has the store
      interface of the decision cache as a class; [Store] implements it.
    - [Evidence], [ProbeTypes], [ProbePath], [OpenWrtPath], [ProbeDNS], [Probe],
      [DNSValidation]: [evidence/evidence.go] and the package [probe].
    - [Artifact], [Rendered], [Dataplane], [Collector]: [artifact/artifact.go] with
      the plan it makes and the texts of the firewall and the resolver,
      [dataplane/ipplan.go] and [dataplane/ipstate.go], and
      [dataplaneproof/collector.go].  [DataplaneProofs] has the
      promises of the command [ip] as the class [Iproute], which [DataplaneKernel]
      implements.
    - [Store], [Compaction]: [state/state.go].
    - [Json], [Candidate]: JSON pointers, the edits of a change set, the
      candidate and its difference, after [api/server.go] and
      [api/transaction.go].
    - [Adapter], [Transaction], [Requests]: [adapter/adapter.go],
      [api/transaction.go], [api/recovery.go] and the dispatch in
      [api/server.go].
    - [Helper], [OpenWrt]: [helper/protocol.go], [helper/adapter_executor.go],
      [helper/client.go]; [adapter/openwrt.go] and [adapter/route_assignment.go].
    - [Subscription], [Pool]: [vpnsub/vpnsub.go], [pool.go], [manager.go],
      [subscription.go], [xraybundle/bundle.go] and [writebudget/writebudget.go].
    - [ZapretProfile], [ZapretCatalog], [ZapretRanking], [ZapretSwitching],
      [ZapretScheduler]: [zapretprofile/profile.go], [zapret/catalog.go],
      [bundle.go], [ranking.go], [switching.go], [scheduler.go].
    - [Auth]: [auth/auth.go].  [RouteAssignment]:
      [routeassignment/runtime.go].

    A file [XProofs] holds the theorems on the component [X], and a file
    [XExamples] the concrete inputs at which they are applied and the runs that
    exhibit a departure of the code from its intent.  Further theorems are in
    [ValidationStable], [DataplaneSteps], [DataplaneRollback], [DataplaneActive],
    [PathProofs] (verifiers and DNS answers), [ProbeEffects], [ProbeSafety],
    [AuthHistory], [AuthBounds], [PlannerPlan], [TransactionSafety] and
    [TransactionRecovery]; small components have them in their own file.

    ** What the theorems show

    - The transaction engine: what is active changes only by the confirmation of
      a verified deployment; an apply never leaves the router half configured;
      memory follows the disk or the engine refuses mutations, in every history
      without three kinds of failed requests ([RequestsProofs.reachable] says which);
      a start settles every interrupted change and never undoes a committed one.
    - The helper: it starts only owned commands with safe words, for one user;
      what a client sends is what it executes; a step the adapter reports as done
      was proved by the router for this very transaction.
    - Configurations and change sets: what the validation accepts is well formed
      and accepted again unchanged; editing the shared candidate computes the edit
      of trees, a candidate without complaints is what the validation accepted and
      differs at open paths only, and the difference shown to the administrator
      replays to it where no name has a percent sign.
    - The plan of the data plane: it loads again (unless a table is shared or tags
      collide, which the validation allows), holds a rule for every proof of a marked
      network route it requires, can be rendered as texts that give each policy its
      treatment and each domain its resolver, is found active after it was applied if
      its marks are written as the kernel lists them, and is rolled back to what
      the kernel had before, wherever it stopped; the evidence stored for it was
      proved by probes, route by route.
    - The planner and its probes: what is selected, DROP excepted, was verified on the
      candidate's own path, is permitted by the service and is the best scored; a probe
      that reports success was proved by the kernel's counters, which moved between
      the start of this very probe and its verification; probes dial public addresses
      only; without an override, [NO_SAFE_ROUTE] is reported after all candidates
      failed.
    - Subscriptions and the pool: a generated configuration has only canonical
      members and public servers, and what was checked is what is written; a
      prepared bundle holds a verified server and no candidate process outlives
      its use; files are replaced whole.
    - Health and caches: recovery takes a quorum of the control services; a cycle
      keeps within the shared budget of probes, waits for nothing but it, and checks
      every route over each of its controls unless it is cancelled; one member of the pool is selected, the decision
      cache survives restarts and evicts the least recently used entries.
    - The store: its operations are those of maps, batches are atomic,
      migrations terminate, compaction survives a crash at any point.
    - Zapret: every domain belongs to one bundle, eligibility is earned by recent
      proofs, switches go to eligible profiles and commit or are undone, persisted
      observations restore the ranking, and the probe budget bounds the probes.
    - Authentication: a request that is admitted is in a session opened with its
      user's password and not closed since; sessions and failures are bounded.

    ** State, failure and time

    A Go method that runs under a lock is one step: a function from the state to
    a state and a result.  The transaction engine reads and writes much state and
    returns early at many points; its handlers are computations of a state monad
    ([Transaction.Run]) over the server's memory, the stored documents, the
    capability files and a log of outside calls.  Components that run commands,
    probe the network or keep files are computations on a state [K] that the
    theorems leave open ([Effects]).  Whatever the program does not determine
    (answers of the adapter, of commands and of the network, failing store calls,
    the clock, cancellation, digests, the orders in which Go visits a map) is an
    argument.  Histories are inductive ([RequestsProofs.reachable],
    [DomainCache.reachable], [Health.reachable], [ZapretRankingProofs.reachable],
    [AuthHistory.history]), so their invariants hold after any sequence of
    operations; the goroutines of a health cycle, with its cancellation and the other
    users of the probe budget, and the workers of a collection interleave as
    transition systems.

    ** Fuel and its bounds

    Loops that are not structural take fuel: the schema migration runs with
    fuel 3, one per version, and [initSchema_migrates] proves that it ends at the
    current version; the reconciliation of the committed data plane at a start
    has at most 31 attempts, the source's own bound; [Json.diffJSON] runs with the
    depth of the documents plus one, and reading a tree from the store of nodes
    ([Candidate.read]) with one more than the number of nodes, which
    [CandidateProofs] proves sufficient for what the builder allocates.  The reader
    of JSON text runs with twice the length of the text plus one
    ([JsonTextProofs.readValue_enough]: more changes nothing).

    ** Not modelled

    The HTTP layer and its wording, the web interface, the commands and the shell
    scripts: what is decided there reaches the modelled handlers as arguments.
    The discovery of domains from the log of dnsmasq, the import of share links and
    archives, external SOCKS endpoints, the installation of components, the proofs
    of the management path, the rendered configuration of Xray, GeoIP files, notifications and the watchdog: each is
    mostly parsing or system commands around the components above.  Of the helper's
    server the accept loop and the preparation of the socket file.  Locks and goroutines,
    beyond their effect that methods are steps, but for the cycles and collections
    named above; other contexts and deadlines; TLS and SOCKS.  SHA-256, [idna], the public suffix list, parsed URLs and bbolt are
    parameters with their documented laws.  Errors keep their kind; the texts
    around it are shortened. *)
From Stdlib Require Import ZArith Lia.
From stdpp Require Import base list strings gmap sorting.

Open Scope Z_scope.

(** ** Notation *)

Declare Scope go_scope.
Delimit Scope go_scope with go.

(** String comparison of Go ([==], [!=] on strings). *)
Notation "a =s b" := (String.eqb a b) (at level 70, no associativity) : go_scope.
Notation "a <>s b" := (negb (String.eqb a b)) (at level 70, no associativity) : go_scope.
(** Left-to-right application, for chains of field assignments. *)
Notation "x |> f" := (f x) (at level 50, left associativity, only parsing) : go_scope.
Open Scope go_scope.

(** A Go function that returns [(T, error)] and never both. *)
Inductive result (A : Type) : Type :=
| Ok (a : A)
| Err (e : string).
Arguments Ok {A} a.
Arguments Err {A} e.

#[export] Instance result_ret : MRet result := fun A a => Ok a.
#[export] Instance result_bind : MBind result := fun A B f m =>
  match m with Ok a => f a | Err e => Err e end.

(** A pair from its second component, and the value of a successful run. *)
Lemma pair_snd {A B} (p : A * B) y : p.2 = y -> p = (p.1, y).
Proof. destruct p. by intros <-. Qed.
Lemma Ok_default {A B} (p : A * result B) (d : B) :
  (if p.2 then true else false) = true -> p = (p.1, Ok (match p.2 with Ok b => b | Err _ => d end)).
Proof. by destruct p as [a [b|e]]. Qed.

Lemma bind_Ok {A B} (m : result A) (f : A -> result B) y : (m ≫= f) = Ok y <-> exists x, m = Ok x /\ f x = Ok y.
Proof.
  unfold mbind, result_bind. destruct m as [x|e].
  - split; [intros H; by exists x|by intros (x' & [= ->] & H)].
  - split; [done|by intros (x' & H & _)].
Qed.

Definition is_ok {A} (r : result A) : bool := match r with Ok _ => true | Err _ => false end.

(** ** Field assignment on records

    [Eta R] rebuilds a record from its projections; [assign r p v] is the record
    in which the field read by the projection [p] holds [v]. *)

Class Eta (R : Type) := eta : R -> R.

Ltac assign r p v :=
  let e := eval hnf in (eta r) in
  match eval pattern (p r) in e with
  | ?g _ => let t := eval cbv beta in (g v) in exact t
  end.

(** ** Tactics *)

Ltac destr_if :=
  match goal with
  | |- context [if ?b then _ else _] => destruct b eqn:?
  | H : context [if ?b then _ else _] |- _ => destruct b eqn:?
  end.

Ltac bool_split :=
  repeat match goal with
  | H : (_ && _)%bool = true |- _ => apply andb_true_iff in H; destruct H
  | H : (_ || _)%bool = false |- _ => apply orb_false_iff in H; destruct H
  | H : negb _ = true |- _ => apply negb_true_iff in H
  | H : negb _ = false |- _ => apply negb_false_iff in H
  end.

Ltac str_eq :=
  repeat match goal with
  | H : (String.eqb _ _) = true |- _ => apply String.eqb_eq in H
  | H : (String.eqb _ _) = false |- _ => apply String.eqb_neq in H
  end.

(** Membership of an element listed by the goal. *)
Ltac in_list := first [assumption | apply list_elem_of_here | apply list_elem_of_further; in_list].

Create HintDb flint discriminated.

(** ** Integers and time

    Go's [int] and [int64] are 64-bit; [wrap64] is two's-complement reduction.
    A [time.Time] is its distance in nanoseconds from the zero time
    (January 1, year 1, 00:00:00 UTC); a [time.Duration] is an [int64] number of
    nanoseconds. *)

Definition int64_min : Z := - 2 ^ 63.
Definition int64_max : Z := 2 ^ 63 - 1.
Definition wrap64 (x : Z) : Z := (x + 2 ^ 63) mod 2 ^ 64 - 2 ^ 63.
Definition clamp64 (x : Z) : Z := Z.max int64_min (Z.min int64_max x).

Abbreviation time := Z (only parsing).
Abbreviation duration := Z (only parsing).

Definition nanosecond : duration := 1.
Definition millisecond : duration := 1000000.
Definition second : duration := 1000000000.
Definition minute : duration := 60 * second.
Definition hour : duration := 60 * minute.

Module T.
(** [time.Time{}] and the methods of [time.Time] the program uses. *)
Definition zero : time := 0.
Definition IsZero (t : time) : bool := t =? 0.
Definition Before (t u : time) : bool := t <? u.
Definition After (t u : time) : bool := u <? t.
Definition Equal (t u : time) : bool := t =? u.
Definition Add (t : time) (d : duration) : time := t + d.
(** [Sub] saturates at the limits of [Duration]. *)
Definition Sub (t u : time) : duration := clamp64 (t - u).
(** [Truncate] rounds down to a multiple of [d] since the zero time. *)
Definition Truncate (t : time) (d : duration) : time :=
  if d <=? 0 then t else t - t mod d.
(** [time.Date(t.Year(), t.Month(), t.Day(), 0, 0, 0, 0, time.UTC)]. *)
Definition Day (t : time) : time := Truncate t (24 * hour).
End T.

Lemma wrap64_range x : int64_min <= wrap64 x <= int64_max.
Proof. unfold wrap64, int64_min, int64_max. pose proof (Z.mod_pos_bound (x + 2 ^ 63) (2 ^ 64)). lia. Qed.

Lemma wrap64_id x : int64_min <= x <= int64_max -> wrap64 x = x.
Proof. unfold wrap64, int64_min, int64_max. intros. rewrite Z.mod_small; lia. Qed.

Lemma clamp64_range x : int64_min <= clamp64 x <= int64_max.
Proof. unfold clamp64, int64_min, int64_max. lia. Qed.

Lemma T_Day_le t : T.Day t <= t < T.Day t + 24 * hour.
Proof.
  unfold T.Day, T.Truncate, hour, minute, second. simpl.
  pose proof (Z.mod_pos_bound t (24 * (60 * (60 * 1000000000)))). lia.
Qed.

(** ** Strings

    The [strings] package on ASCII text, where its Unicode functions take their
    ASCII fast paths. *)
Module S.
Definition upper_byte (c : Ascii.ascii) : Ascii.ascii :=
  let n := Ascii.N_of_ascii c in
  if ((97 <=? n) && (n <=? 122))%N then Ascii.ascii_of_N (n - 32) else c.
Definition lower_byte (c : Ascii.ascii) : Ascii.ascii :=
  let n := Ascii.N_of_ascii c in
  if ((65 <=? n) && (n <=? 90))%N then Ascii.ascii_of_N (n + 32) else c.
(** tab, newline, vertical tab, form feed, carriage return, space *)
Definition space_byte (c : Ascii.ascii) : bool :=
  let n := Ascii.N_of_ascii c in ((9 <=? n) && (n <=? 13) || (n =? 32))%N.

Fixpoint map_bytes (f : Ascii.ascii -> Ascii.ascii) (s : string) : string :=
  match s with
  | EmptyString => EmptyString
  | String c rest => String (f c) (map_bytes f rest)
  end.
Fixpoint rev_app (s acc : string) : string :=
  match s with EmptyString => acc | String c rest => rev_app rest (String c acc) end.
Definition rev (s : string) : string := rev_app s EmptyString.
Fixpoint trim_left (s : string) : string :=
  match s with
  | String c rest => if space_byte c then trim_left rest else s
  | EmptyString => EmptyString
  end.

Definition ToUpper : string -> string := map_bytes upper_byte.
Definition ToLower : string -> string := map_bytes lower_byte.
Definition TrimSpace (s : string) : string := rev (trim_left (rev (trim_left s))).
Definition EqualFold (a b : string) : bool := ToLower a =s ToLower b.
Definition HasPrefix (s p : string) : bool := String.prefix p s.
Definition HasSuffix (s p : string) : bool := String.prefix (rev p) (rev s).
Definition TrimSuffix (s p : string) : string :=
  if HasSuffix s p then String.substring 0 (String.length s - String.length p) s else s.
Fixpoint Contains (s p : string) : bool :=
  String.prefix p s || match s with EmptyString => false | String _ rest => Contains rest p end.
Fixpoint all_bytes (p : Ascii.ascii -> bool) (s : string) : bool :=
  match s with EmptyString => true | String c rest => p c && all_bytes p rest end.
Definition in_range (lo hi : N) (c : Ascii.ascii) : bool :=
  ((lo <=? Ascii.N_of_ascii c) && (Ascii.N_of_ascii c <=? hi))%N.
Definition dot : Ascii.ascii := Ascii.ascii_of_N 46.
Definition lower_letter : Ascii.ascii -> bool := in_range 97 122.
Definition upper_letter : Ascii.ascii -> bool := in_range 65 90.
Definition digit : Ascii.ascii -> bool := in_range 48 57.
Definition is_byte (n : N) : Ascii.ascii -> bool := in_range n n.
(** [strings.Split(s, sep)] for a one-byte separator. *)
Fixpoint split_go (sep : Ascii.ascii) (cur s : string) : list string :=
  match s with
  | EmptyString => [rev cur]
  | String c rest =>
      if Ascii.eqb c sep then rev cur :: split_go sep EmptyString rest
      else split_go sep (String c cur) rest
  end.
Definition Split (s : string) (sep : Ascii.ascii) : list string := split_go sep EmptyString s.
Definition first_byte (s : string) : option Ascii.ascii :=
  match s with EmptyString => None | String c _ => Some c end.
Definition last_byte (s : string) : option Ascii.ascii := first_byte (rev s).
Definition byte_is (o : option Ascii.ascii) (n : N) : bool :=
  match o with Some c => is_byte n c | None => false end.
(** [strings.Join(values, sep)]. *)
Definition Join (values : list string) (sep : string) : string := String.concat sep values.
Definition is_empty (s : string) : bool := s =s EmptyString.
Definition len (s : string) : Z := Z.of_nat (String.length s).
(** Byte-wise order, Go's [<] on strings. *)
Definition ltb : string -> string -> bool := String.ltb.
End S.

(** ** Sorting

    [sort.SliceStable] with a comparator [less]: the insertion sort Go runs on a
    block (each element moves left past the elements it is less than).  Go uses
    it directly on slices of up to 20 elements ([sort.Slice]: up to 12); for a
    strict weak order every stable sort returns the same list, and for a strict
    total order every sort does ([gosort_unique]). *)
Section Sort.
Context {A : Type} (less : A -> A -> bool).

(** [acc] holds the sorted block, last element first. *)
Fixpoint insert_back (x : A) (acc : list A) : list A :=
  match acc with
  | [] => [x]
  | y :: rest => if less x y then y :: insert_back x rest else x :: y :: rest
  end.
Definition gosort (l : list A) : list A := reverse (foldl (fun acc x => insert_back x acc) [] l).

Lemma insert_back_perm x acc : insert_back x acc ≡ₚ x :: acc.
Proof.
  induction acc as [|y rest IH]; simpl; [done|].
  destruct (less x y); [|done]. rewrite IH. apply Permutation_swap.
Qed.

Lemma foldl_insert_perm l acc : foldl (fun a x => insert_back x a) acc l ≡ₚ l ++ acc.
Proof.
  revert acc; induction l as [|x l IH]; intros acc; simpl; [done|].
  rewrite IH, insert_back_perm. symmetry. apply Permutation_middle.
Qed.

Lemma gosort_perm l : gosort l ≡ₚ l.
Proof. unfold gosort. rewrite reverse_Permutation, foldl_insert_perm, app_nil_r. done. Qed.

(** A comparator accepted by [sort]: a strict weak order. *)
Class StrictWeak : Prop := {
  sw_asym : forall x y, less x y = true -> less y x = false;
  sw_negtrans : forall x y z, less x z = true -> less x y = true \/ less y z = true
}.

Definition le_of (x y : A) : Prop := less y x = false.

Context `{SW : StrictWeak}.

Lemma sw_irrefl x : less x x = false.
Proof. destruct (less x x) eqn:E; [|done]. by rewrite (sw_asym _ _ E) in E. Qed.

Lemma sw_trans x y z : less x y = true -> less y z = true -> less x z = true.
Proof.
  intros Hxy Hyz. destruct (sw_negtrans _ z _ Hxy) as [H|H]; [done|].
  rewrite (sw_asym _ _ Hyz) in H. done.
Qed.

Lemma le_of_trans x y z : le_of x y -> le_of y z -> le_of x z.
Proof.
  unfold le_of. intros Hxy Hyz. destruct (less z x) eqn:E; [|done].
  destruct (sw_negtrans _ y _ E); congruence.
Qed.

Lemma insert_back_sorted x acc :
  StronglySorted (flip le_of) acc -> StronglySorted (flip le_of) (insert_back x acc).
Proof.
  induction 1 as [|y rest Hs IH Hall]; simpl; [repeat constructor|].
  destruct (less x y) eqn:E.
  - constructor; [done|]. rewrite insert_back_perm. constructor; [|done].
    unfold flip, le_of. by apply sw_asym.
  - assert (le_of y x) by done. constructor; [by constructor|]. constructor; [done|].
    eapply Forall_impl; [exact Hall|]. intros z Hz. unfold flip in *. eauto using le_of_trans.
Qed.

Lemma foldl_insert_sorted l acc :
  StronglySorted (flip le_of) acc ->
  StronglySorted (flip le_of) (foldl (fun a x => insert_back x a) acc l).
Proof. revert acc; induction l; intros acc ?; simpl; auto using insert_back_sorted. Qed.

Lemma StronglySorted_reverse (R : relation A) l :
  StronglySorted (flip R) l -> StronglySorted R (reverse l).
Proof.
  induction 1 as [|x l Hs IH Hall]; [constructor|]. rewrite reverse_cons.
  apply StronglySorted_app_2; [|done|repeat constructor].
  intros x1 x2 H1 ->%list_elem_of_singleton. rewrite elem_of_reverse in H1.
  rewrite Forall_forall in Hall. by apply Hall.
Qed.

Lemma gosort_sorted l : StronglySorted le_of (gosort l).
Proof. apply StronglySorted_reverse, foldl_insert_sorted. constructor. Qed.

(** The first element after sorting is preceded by no element of the input. *)
Lemma gosort_head_min l x rest y : gosort l = x :: rest -> y ∈ l -> less y x = false.
Proof.
  intros E Hy. pose proof (gosort_sorted l) as Hs. rewrite E in Hs.
  assert (Hy' : y ∈ x :: rest) by (rewrite <- E; by rewrite gosort_perm).
  inversion Hs as [|? ? Hs' Hall]; subst. apply elem_of_cons in Hy' as [->|Hy'].
  - apply sw_irrefl.
  - rewrite Forall_forall in Hall. by apply Hall.
Qed.

(** When distinct elements are comparable, sorting forgets the input order:
    this is what makes a slice filled from a map deterministic. *)
Lemma sorted_perm_unique l1 l2 :
  (forall x y, x ∈ l1 -> y ∈ l1 -> less x y = false -> less y x = false -> x = y) ->
  StronglySorted le_of l1 -> StronglySorted le_of l2 -> l1 ≡ₚ l2 -> l1 = l2.
Proof.
  revert l2; induction l1 as [|x l1 IH]; intros l2 Htot H1 H2 HP.
  { apply Permutation_nil in HP. by subst. }
  destruct l2 as [|y l2]; [by apply Permutation_sym, Permutation_nil in HP|].
  inversion H1 as [|? ? H1' A1]; inversion H2 as [|? ? H2' A2]; subst.
  rewrite Forall_forall in A1, A2.
  assert (x = y) as <-.
  { assert (Hx : x ∈ y :: l2) by (rewrite <- HP; left).
    assert (Hy : y ∈ x :: l1) by (rewrite HP; left).
    apply elem_of_cons in Hx as [?|Hx]; [done|].
    apply elem_of_cons in Hy as [?|Hy]; [done|].
    apply Htot; [left| by right|by apply A2|by apply A1]. }
  f_equal. apply Permutation_cons_inv in HP. apply IH; [|done|done|done].
  intros; apply Htot; try (by right); done.
Qed.

Lemma gosort_unique l1 l2 :
  (forall x y, x ∈ l1 -> y ∈ l1 -> less x y = false -> less y x = false -> x = y) ->
  l1 ≡ₚ l2 -> gosort l1 = gosort l2.
Proof.
  intros Htot HP. apply sorted_perm_unique; auto using gosort_sorted.
  - intros x y. rewrite !gosort_perm. auto.
  - by rewrite !gosort_perm.
Qed.
End Sort.
Arguments StrictWeak {A} less.

(** Sorting depends on the comparator only through the elements sorted. *)
Lemma insert_back_ext {A} (less less' : A -> A -> bool) x acc :
  (forall y, y ∈ acc -> less x y = less' x y) -> insert_back less x acc = insert_back less' x acc.
Proof.
  induction acc as [|y rest IH]; intros H; simpl; [done|].
  rewrite (H y) by left. destruct (less' x y); [|done]. f_equal. apply IH. intros z Hz. apply H. by right.
Qed.

Lemma gosort_ext {A} (less less' : A -> A -> bool) l :
  (forall x y, x ∈ l -> y ∈ l -> less x y = less' x y) -> gosort less l = gosort less' l.
Proof.
  intros H. unfold gosort. f_equal.
  assert (Hacc : forall l' acc, (forall x, x ∈ l' -> x ∈ l) -> (forall x, x ∈ acc -> x ∈ l) ->
            foldl (fun a x => insert_back less x a) acc l' = foldl (fun a x => insert_back less' x a) acc l').
  { induction l' as [|x l' IH]; intros acc Hl Ha; simpl; [done|].
    rewrite (insert_back_ext less less') by (intros y Hy; apply H; [apply Hl; left|by apply Ha]).
    apply IH; [intros y Hy; apply Hl; by right|].
    intros y. rewrite insert_back_perm, elem_of_cons. intros [->|Hy]; [apply Hl; left|by apply Ha]. }
  apply Hacc; [done|]. intros x Hx. by apply elem_of_nil in Hx.
Qed.

(** Comparators are chains of keys, [if k x != k y { return k x < k y }]. *)
Section Comparators.
Context {A : Type}.

Definition key_lt (k : A -> Z) (x y : A) : bool := k x <? k y.
Definition key_slt (k : A -> string) (x y : A) : bool := S.ltb (k x) (k y).
(** [first] decides unless [same] holds. *)
Definition then_by (same first next : A -> A -> bool) (x y : A) : bool :=
  if same x y then next x y else first x y.

Lemma StrictWeak_then_by (same first next : A -> A -> bool) :
  StrictWeak first -> StrictWeak next ->
  (forall x y, same x y = true <-> first x y = false /\ first y x = false) ->
  StrictWeak (then_by same first next).
Proof.
  intros F N Hs.
  assert (Hsym : forall x y, same x y = same y x).
  { intros x y. apply eq_true_iff_eq. rewrite !Hs. tauto. }
  split; unfold then_by.
  - intros x y. rewrite (Hsym y x). destruct (same x y); apply sw_asym; done.
  - intros x y z H. destruct (same x z) eqn:Exz.
    + destruct (same x y) eqn:Exy, (same y z) eqn:Eyz.
      * by apply sw_negtrans.
      * exfalso. apply Hs in Exz as [? ?], Exy as [Hxy Hyx].
        apply not_true_iff_false in Eyz. apply Eyz, Hs. split.
        -- destruct (first y z) eqn:E; [|done]. destruct (sw_negtrans _ _ x _ E); congruence.
        -- destruct (first z y) eqn:E; [|done]. destruct (sw_negtrans _ _ x _ E); congruence.
      * exfalso. apply Hs in Exz as [? ?], Eyz as [Hyz Hzy].
        apply not_true_iff_false in Exy. apply Exy, Hs. split.
        -- destruct (first x y) eqn:E; [|done]. destruct (sw_negtrans _ _ z _ E); congruence.
        -- destruct (first y x) eqn:E; [|done]. destruct (sw_negtrans _ _ z _ E); congruence.
      * apply Hs in Exz as [Hxz Hzx]. apply not_true_iff_false in Exy. rewrite Hs in Exy.
        destruct (first x y) eqn:E; [by left|]. right.
        destruct (first y x) eqn:E'; [|tauto].
        destruct (sw_negtrans _ _ z _ E'); congruence.
    + destruct (same x y) eqn:Exy, (same y z) eqn:Eyz.
      * exfalso. apply Hs in Exy as [? ?], Eyz as [? ?].
        destruct (sw_negtrans _ _ y _ H); congruence.
      * right. apply Hs in Exy as [? ?]. destruct (sw_negtrans _ _ y _ H); congruence.
      * left. apply Hs in Eyz as [? ?]. destruct (sw_negtrans _ _ y _ H); congruence.
      * by apply sw_negtrans.
Qed.

#[export] Instance StrictWeak_key_lt (k : A -> Z) : StrictWeak (key_lt k).
Proof. split; unfold key_lt; intros; lia. Qed.
End Comparators.

(** ** The byte-wise order of strings *)

Lemma str_compare_refl s : String.compare s s = Eq.
Proof.
  induction s as [|c s IH]; simpl; [done|].
  unfold Ascii.compare. by rewrite N.compare_refl.
Qed.

Lemma str_compare_trans a b c :
  String.compare a b = Lt -> String.compare b c = Lt -> String.compare a c = Lt.
Proof.
  revert b c; induction a as [|x a IH]; intros [|y b] [|z c]; simpl; try done.
  unfold Ascii.compare.
  destruct (N.compare_spec (Ascii.N_of_ascii x) (Ascii.N_of_ascii y)) as [E1|L1|G1]; [|intros _|done];
  destruct (N.compare_spec (Ascii.N_of_ascii y) (Ascii.N_of_ascii z)) as [E2|L2|G2]; try done; intros.
  - rewrite E1, E2, N.compare_refl. eauto.
  - rewrite E1. apply N.compare_lt_iff in L2. by rewrite L2.
  - rewrite <- E2. apply N.compare_lt_iff in L1. by rewrite L1.
  - assert (Ascii.N_of_ascii x < Ascii.N_of_ascii z)%N as L by lia.
    apply N.compare_lt_iff in L. by rewrite L.
Qed.

Lemma ltb_Lt a b : S.ltb a b = true <-> String.compare a b = Lt.
Proof. unfold S.ltb, String.ltb. destruct (String.compare a b); split; congruence. Qed.

Lemma ltb_irrefl a : S.ltb a a = false.
Proof. unfold S.ltb, String.ltb. by rewrite str_compare_refl. Qed.

Lemma ltb_total a b : S.ltb a b = false -> S.ltb b a = false -> a = b.
Proof.
  unfold S.ltb, String.ltb. intros H1 H2. apply String.compare_eq_iff.
  rewrite String.compare_antisym in H2. destruct (String.compare a b); done.
Qed.

#[export] Instance StrictWeak_key_slt {A} (k : A -> string) : StrictWeak (key_slt k).
Proof.
  split; unfold key_slt; intros.
  - apply ltb_Lt in H. destruct (S.ltb (k y) (k x)) eqn:E; [|done]. apply ltb_Lt in E.
    pose proof (str_compare_trans _ _ _ H E) as C. by rewrite str_compare_refl in C.
  - apply ltb_Lt in H. destruct (S.ltb (k x) (k y)) eqn:E1; [by left|].
    destruct (S.ltb (k y) (k z)) eqn:E2; [by right|]. exfalso.
    destruct (S.ltb (k y) (k x)) eqn:E3.
    + apply ltb_Lt in E3. pose proof (str_compare_trans _ _ _ E3 H) as C.
      apply ltb_Lt in C. congruence.
    + pose proof (ltb_total _ _ E1 E3) as Exy. rewrite Exy in H. apply ltb_Lt in H. congruence.
Qed.

(** Keys compared in decreasing order, and booleans ([true] first). *)
(** A comparator written another way. *)
Lemma StrictWeak_ext {A} (less less' : A -> A -> bool) : (forall x y, less x y = less' x y) -> StrictWeak less -> StrictWeak less'.
Proof. intros H [S1 S2]. split; intros; rewrite <- !H in *; eauto. Qed.
Definition key_gt {A} (k : A -> Z) (x y : A) : bool := k y <? k x.
Definition key_true {A} (k : A -> bool) (x y : A) : bool := k x && negb (k y).

#[export] Instance StrictWeak_key_gt {A} (k : A -> Z) : StrictWeak (key_gt k).
Proof. split; unfold key_gt; intros; lia. Qed.
#[export] Instance StrictWeak_key_true {A} (k : A -> bool) : StrictWeak (key_true k).
Proof.
  split; unfold key_true.
  - intros x y. by destruct (k x), (k y).
  - intros x y z. destruct (k x), (k y), (k z); simpl; auto.
Qed.

Definition same_z {A} (k : A -> Z) (x y : A) : bool := k x =? k y.
Definition same_s {A} (k : A -> string) (x y : A) : bool := k x =s k y.
Definition same_b {A} (k : A -> bool) (x y : A) : bool := Bool.eqb (k x) (k y).

Lemma same_z_lt {A} (k : A -> Z) x y :
  same_z k x y = true <-> key_lt k x y = false /\ key_lt k y x = false.
Proof. unfold same_z, key_lt. lia. Qed.
Lemma same_z_gt {A} (k : A -> Z) x y :
  same_z k x y = true <-> key_gt k x y = false /\ key_gt k y x = false.
Proof. unfold same_z, key_gt. lia. Qed.
Lemma same_b_true {A} (k : A -> bool) x y :
  same_b k x y = true <-> key_true k x y = false /\ key_true k y x = false.
Proof. unfold same_b, key_true. destruct (k x), (k y); simpl; intuition done. Qed.
Lemma same_s_slt {A} (k : A -> string) x y :
  same_s k x y = true <-> key_slt k x y = false /\ key_slt k y x = false.
Proof.
  unfold same_s, key_slt. rewrite String.eqb_eq. split.
  - intros ->. by rewrite ltb_irrefl.
  - intros [? ?]. by apply ltb_total.
Qed.

#[export] Hint Resolve StrictWeak_then_by same_z_lt same_z_gt same_b_true same_s_slt : flint.
#[export] Hint Extern 1 (StrictWeak (key_lt _)) => apply StrictWeak_key_lt : flint.
#[export] Hint Extern 1 (StrictWeak (key_gt _)) => apply StrictWeak_key_gt : flint.
#[export] Hint Extern 1 (StrictWeak (key_slt _)) => apply StrictWeak_key_slt : flint.
#[export] Hint Extern 1 (StrictWeak (key_true _)) => apply StrictWeak_key_true : flint.

(** ** Lists *)

(** [for _, x := range l { if p(x) { return x, true } }]. *)
Definition first {A} (p : A -> bool) (l : list A) : option A := List.find p l.
Definition any {A} (p : A -> bool) (l : list A) : bool := existsb p l.
Definition containsString (values : list string) (want : string) : bool :=
  any (fun v => v =s want) values.

Lemma first_Some {A} (p : A -> bool) l x : first p l = Some x -> x ∈ l /\ p x = true.
Proof. intros H. apply List.find_some in H as [? ?]. by rewrite list_elem_of_In. Qed.
Lemma first_None {A} (p : A -> bool) l x : first p l = None -> x ∈ l -> p x = false.
Proof. intros H Hx. rewrite list_elem_of_In in Hx. by eapply List.find_none. Qed.
Lemma any_true {A} (p : A -> bool) l : any p l = true <-> exists x, x ∈ l /\ p x = true.
Proof. unfold any. rewrite existsb_exists. setoid_rewrite list_elem_of_In. done. Qed.
Lemma elem_of_filter_b {A} (p : A -> bool) l x : x ∈ List.filter p l <-> x ∈ l /\ p x = true.
Proof. by rewrite !list_elem_of_In, filter_In. Qed.
Lemma elem_of_map {A B} (f : A -> B) l y : y ∈ map f l <-> exists x, y = f x /\ x ∈ l.
Proof. apply list_elem_of_fmap. Qed.
Lemma NoDup_filter_b {A} (p : A -> bool) (l : list A) : NoDup l -> NoDup (List.filter p l).
Proof. intros Hn. apply NoDup_ListNoDup, List.NoDup_filter. by apply NoDup_ListNoDup. Qed.
Lemma filter_perm {A} (p : A -> bool) l l' : l ≡ₚ l' -> List.filter p l ≡ₚ List.filter p l'.
Proof. induction 1; cbn; repeat case_match; eauto using Permutation. Qed.
Lemma any_false {A} (p : A -> bool) l : any p l = false <-> forall x, x ∈ l -> p x = false.
Proof.
  rewrite <- not_true_iff_false, any_true. split.
  - intros H x Hx. destruct (p x) eqn:E; [|done]. exfalso; eauto.
  - intros H (x & Hx & E). rewrite (H _ Hx) in E. done.
Qed.
Lemma containsString_true l s : containsString l s = true <-> s ∈ l.
Proof.
  unfold containsString. rewrite any_true. split.
  - intros (x & Hx & E). apply String.eqb_eq in E. by subst.
  - intros H. exists s. by rewrite String.eqb_refl.
Qed.

(** ** Split and Join *)

#[global] Arguments String.append !_ _ / : simpl nomatch.

Lemma str_app_assoc a b c : (a +:+ b) +:+ c = a +:+ (b +:+ c).
Proof. induction a as [|x a IH]; simpl; [done|]. by rewrite IH. Qed.
Lemma str_app_empty_r a : a +:+ "" = a.
Proof. induction a as [|x a IH]; simpl; [done|]. by rewrite IH. Qed.
Lemma str_app_inj_l a b c : a +:+ b = a +:+ c -> b = c.
Proof. induction a as [|x a IH]; simpl; [done|]. intros [=]. auto. Qed.
Lemma str_length_app a b : String.length (a +:+ b) = (String.length a + String.length b)%nat.
Proof. induction a as [|x a IH]; simpl; [done|]. by rewrite IH. Qed.
Lemma len_app a b : S.len (a +:+ b) = S.len a + S.len b.
Proof. unfold S.len. rewrite str_length_app. lia. Qed.
Lemma rev_app_spec a acc : S.rev_app a acc = S.rev a +:+ acc.
Proof.
  unfold S.rev. revert acc; induction a as [|x a IH]; intros acc; simpl; [done|].
  rewrite IH, (IH (String x EmptyString)), str_app_assoc. done.
Qed.
Lemma rev_cons c s : S.rev (String c s) = S.rev s +:+ String c EmptyString.
Proof. unfold S.rev at 1. simpl. by rewrite rev_app_spec. Qed.

Section SplitJoin.
Context (sep : Ascii.ascii).

Definition glue (cur : string) (l : list string) : list string :=
  match l with [] => [cur] | h :: t => (cur +:+ h) :: t end.

Lemma split_go_spec cur s : S.split_go sep cur s = glue (S.rev cur) (S.Split s sep).
Proof.
  unfold S.Split. revert cur; induction s as [|c s IH]; intros cur; simpl.
  - by rewrite str_app_empty_r.
  - destruct (Ascii.eqb c sep); simpl; [by rewrite str_app_empty_r|].
    rewrite (IH (String c cur)), (IH (String c EmptyString)), rev_cons.
    destruct (S.split_go sep "" s); simpl; [done|]. by rewrite str_app_assoc.
Qed.

Lemma Split_nonempty s : S.Split s sep <> [].
Proof.
  induction s as [|c s IH]; simpl; [done|]. unfold S.Split in *. simpl.
  destruct (Ascii.eqb c sep); [done|]. rewrite split_go_spec.
  unfold S.Split. destruct (S.split_go sep "" s); done.
Qed.

Lemma Split_cons c s : Ascii.eqb c sep = false ->
  S.Split (String c s) sep = glue (String c EmptyString) (S.Split s sep).
Proof. intros E. unfold S.Split at 1. simpl. rewrite E. by rewrite split_go_spec. Qed.
Lemma Split_sep s : S.Split (String sep s) sep = EmptyString :: S.Split s sep.
Proof. unfold S.Split at 1. simpl. by rewrite Ascii.eqb_refl. Qed.

Lemma Split_app a b : S.Split (a +:+ String sep b) sep = S.Split a sep ++ S.Split b sep.
Proof.
  induction a as [|c a IH]; simpl; [apply Split_sep|].
  destruct (Ascii.eqb c sep) eqn:E.
  - apply Ascii.eqb_eq in E as ->. by rewrite !Split_sep, IH.
  - rewrite !Split_cons, IH by done. pose proof (Split_nonempty a).
    by destruct (S.Split a sep).
Qed.

Lemma Join_cons h l : l <> [] -> S.Join (h :: l) (String sep EmptyString) =
  h +:+ String sep (S.Join l (String sep EmptyString)).
Proof. by destruct l. Qed.

Lemma Join_Split s : S.Join (S.Split s sep) (String sep EmptyString) = s.
Proof.
  induction s as [|c s IH]; [done|]. pose proof (Split_nonempty s) as Hne.
  destruct (Ascii.eqb c sep) eqn:E.
  - apply Ascii.eqb_eq in E as ->. rewrite Split_sep, Join_cons, IH by done. done.
  - rewrite Split_cons by done. destruct (S.Split s sep) as [|h t] eqn:Es; [done|]. simpl glue.
    rewrite <- IH. destruct t; done.
Qed.

Lemma Join_app l1 l2 : l1 <> [] -> l2 <> [] ->
  S.Join (l1 ++ l2) (String sep EmptyString) =
  S.Join l1 (String sep EmptyString) +:+ String sep (S.Join l2 (String sep EmptyString)).
Proof.
  intros H1 H2. induction l1 as [|h l1 IH]; [done|]. destruct l1 as [|h' l1].
  - simpl app. by rewrite Join_cons.
  - rewrite <- app_comm_cons, !Join_cons, IH by done. by rewrite str_app_assoc.
Qed.
End SplitJoin.

(** A search whose predicate holds of at most one element ignores the order. *)
Lemma first_perm {A} (p : A -> bool) (l l' : list A) :
  (forall x y, x ∈ l -> y ∈ l -> p x = true -> p y = true -> x = y) ->
  l ≡ₚ l' -> first p l = first p l'.
Proof.
  intros Huniq HP. destruct (first p l) as [x|] eqn:E, (first p l') as [y|] eqn:E'; [|exfalso..|done].
  - apply first_Some in E as [? ?], E' as [Hy ?]. f_equal. apply Huniq; try done. by rewrite HP.
  - apply first_Some in E as [Hx Hp]. rewrite HP in Hx. by rewrite (first_None _ _ _ E' Hx) in Hp.
  - apply first_Some in E' as [Hx Hp]. rewrite <- HP in Hx. by rewrite (first_None _ _ _ E Hx) in Hp.
Qed.

(** Trimming and folding commute: the folded bytes keep their class. *)
Lemma space_lower c : S.space_byte (S.lower_byte c) = S.space_byte c.
Proof. by destruct c as [[] [] [] [] [] [] [] []]. Qed.

Lemma map_bytes_app f a b : S.map_bytes f (a +:+ b) = S.map_bytes f a +:+ S.map_bytes f b.
Proof. induction a as [|c a IH]; simpl; [done|]. by rewrite IH. Qed.
Lemma map_bytes_rev f a : S.map_bytes f (S.rev a) = S.rev (S.map_bytes f a).
Proof. induction a as [|c a IH]; [done|]. rewrite rev_cons, map_bytes_app, IH. simpl. by rewrite rev_cons. Qed.
Lemma trim_left_lower s : S.trim_left (S.ToLower s) = S.ToLower (S.trim_left s).
Proof.
  induction s as [|c s IH]; [done|]. unfold S.ToLower in *. simpl. rewrite space_lower.
  destruct (S.space_byte c); [exact IH|done].
Qed.
Lemma TrimSpace_ToLower s : S.TrimSpace (S.ToLower s) = S.ToLower (S.TrimSpace s).
Proof.
  unfold S.TrimSpace. rewrite trim_left_lower. unfold S.ToLower at 1. rewrite <- map_bytes_rev.
  fold (S.ToLower (S.rev (S.trim_left s))). rewrite trim_left_lower. unfold S.ToLower. by rewrite map_bytes_rev.
Qed.
Lemma EqualFold_trim s t : S.TrimSpace (S.ToLower t) = S.ToLower t ->
  S.EqualFold s t = true -> S.EqualFold (S.TrimSpace s) t = true.
Proof.
  unfold S.EqualFold. rewrite !String.eqb_eq, <- TrimSpace_ToLower. by intros Ht ->.
Qed.

(** Elements of a list with distinct keys are determined by their key. *)
Lemma unique_key {A B} (f : A -> B) l x y : NoDup (f <$> l) -> x ∈ l -> y ∈ l -> f x = f y -> x = y.
Proof.
  intros Hnd Hx Hy E. apply list_elem_of_lookup in Hx as [i Hi], Hy as [j Hj].
  assert (i = j) as <-; [|congruence].
  apply (NoDup_lookup (f <$> l) i j (f x)); [done|..]; rewrite list_lookup_fmap, ?Hi, ?Hj; simpl; congruence.
Qed.
