(* ===== verification/Effects.v ===== *)
(** * Computations on a world

    A computation takes a state to a state and a result or an error.  The
    components that run commands, probe the network or keep files are written in
    this monad, over a state [K] that the theorems leave open or make concrete. *)
From stdpp Require Import base list strings.
From S2P Require Import Prelude.

Definition io (K A : Type) : Type := K -> K * result A.
#[export] Instance io_ret K : MRet (io K) := fun A a k => (k, Ok a).
#[export] Instance io_bind K : MBind (io K) := fun A B f m k =>
  match m k with (k, Ok a) => f a k | (k, Err e) => (k, Err e) end.
Definition lift {K A} (r : result A) : io K A := fun k => (k, r).
Definition fail {K A} (e : string) : io K A := lift (Err e).
(** What an error is reported as. *)
Definition wrap {K A} (prefix : string) (m : io K A) : io K A := fun k =>
  match m k with (k, Err e) => (k, Err (prefix +:+ e)) | r => r end.
(** The error is dropped. *)
Definition ignore {K} (m : io K unit) : io K unit := fun k => ((m k).1, Ok ()).
Fixpoint forEach {K A} (f : A -> io K unit) (l : list A) : io K unit :=
  match l with [] => mret () | x :: l => _ ← f x; forEach f l end.

(** ** Reasoning *)

(** A step of a run that succeeds. *)
Lemma bind_ran {K A B} (m : io K A) (f : A -> io K B) k k' y :
  (m ≫= f) k = (k', Ok y) <-> exists k1 x, m k = (k1, Ok x) /\ f x k1 = (k', Ok y).
Proof.
  unfold mbind, io_bind. destruct (m k) as [k1 [x|e]]; split.
  - intros H. by exists k1, x.
  - by intros (k2 & x' & [= -> ->] & H).
  - done.
  - by intros (k2 & x' & H & _).
Qed.
Lemma ret_ran {K A} (a : A) (k k' : K) y : (mret a : io K A) k = (k', Ok y) <-> k' = k /\ y = a.
Proof. unfold mret, io_ret. split; [intros [= <- <-]|intros [-> ->]]; done. Qed.
Lemma lift_ran {K A} (r : result A) (k k' : K) y : lift r k = (k', Ok y) <-> k' = k /\ r = Ok y.
Proof. unfold lift. split; [intros [= <- ->]|intros [-> ->]]; done. Qed.
Lemma wrap_ran {K A} p (m : io K A) k k' y : wrap p m k = (k', Ok y) <-> m k = (k', Ok y).
Proof. unfold wrap. by destruct (m k) as [k1 [x|e]]. Qed.
Lemma fail_ran {K A} e (k k' : K) (y : A) : fail e k = (k', Ok y) <-> False.
Proof. unfold fail, lift. by split. Qed.

(** Computations that never fail. *)
Definition total {K A} (m : io K A) : Prop := forall k, exists k' a, m k = (k', Ok a).
Lemma total_ret {K A} (a : A) : total (mret a : io K A).
Proof. intros k. by exists k, a. Qed.
Lemma total_bind {K A B} (m : io K A) (f : A -> io K B) : total m -> (forall a, total (f a)) -> total (m ≫= f).
Proof.
  intros Hm Hf k. destruct (Hm k) as (k1 & a & E). destruct (Hf a k1) as (k2 & b & E2). exists k2, b.
  unfold mbind, io_bind. by rewrite E.
Qed.

(** Computations that keep a property of the state. *)
Definition stays {K A} (I : K -> Prop) (m : io K A) : Prop := forall k, I k -> I (m k).1.
Lemma stays_ret {K A} I (a : A) : stays I (mret a : io K A).
Proof. by intros k Hk. Qed.
Lemma stays_lift {K A} I (r : result A) : stays I (lift r : io K A).
Proof. by intros k Hk. Qed.
Lemma stays_fail {K A} I e : stays I (fail e : io K A).
Proof. by intros k Hk. Qed.
Lemma stays_bind {K A B} I (m : io K A) (f : A -> io K B) : stays I m -> (forall a, stays I (f a)) -> stays I (m ≫= f).
Proof.
  intros Hm Hf k Hk. unfold mbind, io_bind. specialize (Hm k Hk). destruct (m k) as [k1 [a|e]]; [by apply Hf|exact Hm].
Qed.
Lemma stays_wrap {K A} I p (m : io K A) : stays I m -> stays I (wrap p m).
Proof. intros Hm k Hk. specialize (Hm k Hk). unfold wrap. by destruct (m k) as [k1 [a|e]]. Qed.
Lemma stays_if {K A} I (b : bool) (m n : io K A) : stays I m -> stays I n -> stays I (if b then m else n).
Proof. by destruct b. Qed.

Create HintDb effects discriminated.
#[export] Hint Resolve total_ret total_bind stays_ret stays_lift stays_fail stays_bind stays_wrap stays_if : effects.
(** Splits a run that succeeded into its steps. *)
Ltac run_steps H :=
  repeat match type of H with
  | (_ ≫= _) _ = (_, Ok _) =>
      let k := fresh "k" in let x := fresh "x" in let G := fresh "G" in apply bind_ran in H as (k & x & G & H)
  end.

(** Steps that keep a property of the state, whatever they give. *)
Definition keeps {K A} (I : K -> Prop) (m : K -> K * A) : Prop := forall k, I k -> I (m k).1.
Section Keeps.
Context {K : Type} (I : K -> Prop).
Lemma keeps_pure {A} (a : A) : keeps I (fun k => (k, a)).
Proof. by intros k Hk. Qed.
Lemma keeps_let {A B} (m : K -> K * A) (g : A -> K -> K * B) : keeps I m -> (forall a, keeps I (g a)) -> keeps I (fun k => let '(k, a) := m k in g a k).
Proof. intros Hm Hg k Hk. specialize (Hm k Hk). destruct (m k) as [k' a]. by apply Hg. Qed.
Lemma keeps_match {A B} (m : io K A) (g : A -> K -> K * B) (h : string -> K -> K * B) : keeps I m -> (forall a, keeps I (g a)) -> (forall e, keeps I (h e)) ->
  keeps I (fun k => match m k with (k, Ok a) => g a k | (k, Err e) => h e k end).
Proof. intros Hm Hg Hh k Hk. specialize (Hm k Hk). destruct (m k) as [k' [a|e]]; [by apply Hg|by apply Hh]. Qed.
Lemma keeps_case {A B} (m : K -> K * option A) (g : A -> K -> K * B) (h : K -> K * B) : keeps I m -> (forall a, keeps I (g a)) -> keeps I h ->
  keeps I (fun k => match m k with (k, Some a) => g a k | (k, None) => h k end).
Proof. intros Hm Hg Hh k Hk. specialize (Hm k Hk). destruct (m k) as [k' [a|]]; [by apply Hg|by apply Hh]. Qed.
Lemma keeps_after {A B} (m : K -> K * A) (g : K -> K) (h : A -> B) : keeps I m -> (forall k, I k -> I (g k)) -> keeps I (fun k => let '(k, a) := m k in (g k, h a)).
Proof. intros Hm Hg k Hk. specialize (Hm k Hk). destruct (m k) as [k' a]. by apply Hg. Qed.
Lemma keeps_ignore (m : io K unit) : keeps I m -> keeps I (ignore m).
Proof. intros Hm k Hk. by apply Hm. Qed.
Lemma kept_bind {A B} (m : io K A) (g : A -> io K B) : keeps I m -> (forall a, keeps I (g a)) -> keeps I (m ≫= g).
Proof. intros Hm Hg. by apply (stays_bind I m g). Qed.
Lemma keeps_wrap {A} p (m : io K A) : keeps I m -> keeps I (wrap p m).
Proof. apply stays_wrap. Qed.
Lemma keeps_fail {A} e : keeps I (fail e : io K A).
Proof. by intros k Hk. Qed.
Lemma keeps_lift {A} (r : result A) : keeps I (lift r : io K A).
Proof. by intros k Hk. Qed.
Lemma kept_ret {A} (a : A) : keeps I (mret a : io K A).
Proof. by intros k Hk. Qed.
End Keeps.
Create HintDb keeps discriminated.
#[export] Hint Resolve keeps_pure keeps_ignore kept_bind keeps_wrap keeps_fail keeps_lift kept_ret : keeps.
(** Splits a computation into its steps. *)
Ltac keeping :=
  repeat first
    [ progress cbv zeta | progress (auto 6 with keeps)
    | apply kept_bind; [|intros] | apply keeps_match; [|intros|intros] | apply keeps_case; [|intros|] | apply keeps_let; [|intros]
    | match goal with |- keeps _ (match ?x with _ => _ end) => destruct x end
    | match goal with |- keeps _ (fun k => match ?x with _ => _ end) => destruct x end ].
