(* ===== verification/Float64.v ===== *)
(** * Go's [float64]

    IEEE 754 binary64 with round-to-nearest-even, as the standard library's
    executable [SpecFloat] (no fused multiply-add: the Go specification allows
    but does not require fusing [x*y + z]).  A decimal constant of the source
    is the quotient of two integers, correctly rounded, as the Go compiler
    rounds it. *)
From Stdlib Require Import ZArith Lia SpecFloat.
From stdpp Require Import base list.
From S2P Require Import Prelude.

Open Scope Z_scope.

Abbreviation float64 := spec_float (only parsing).

Module F.
Definition prec : Z := 53.
Definition emax : Z := 1024.

Definition add : spec_float -> spec_float -> spec_float := SFadd prec emax.
Definition sub : spec_float -> spec_float -> spec_float := SFsub prec emax.
Definition mul : spec_float -> spec_float -> spec_float := SFmul prec emax.
Definition div : spec_float -> spec_float -> spec_float := SFdiv prec emax.
Definition sqrt : spec_float -> spec_float := SFsqrt prec emax.
(** [float64(n)] for an integer [n]. *)
Definition of_Z (n : Z) : spec_float := binary_normalize prec emax n 0 false.
(** The constant [n/d]. *)
Definition ratio (n d : Z) : spec_float := div (of_Z n) (of_Z d).

Definition ltb : spec_float -> spec_float -> bool := SFltb.
Definition leb : spec_float -> spec_float -> bool := SFleb.
Definition eqb : spec_float -> spec_float -> bool := SFeqb.
Definition zero : spec_float := S754_zero false.
Definition one : spec_float := of_Z 1.
Definition is_nan (x : spec_float) : bool := match x with S754_nan => true | _ => false end.
Definition MaxFloat64 : spec_float := SFmax_float prec emax.

(** [math.Max] and [math.Min]. *)
Definition max (x y : spec_float) : spec_float :=
  match x, y with
  | S754_infinity false, _ | _, S754_infinity false => S754_infinity false
  | S754_nan, _ | _, S754_nan => S754_nan
  | S754_zero s, S754_zero _ => if s then y else x
  | _, _ => if ltb y x then x else y
  end.
Definition min (x y : spec_float) : spec_float :=
  match x, y with
  | S754_infinity true, _ | _, S754_infinity true => S754_infinity true
  | S754_nan, _ | _, S754_nan => S754_nan
  | S754_zero s, S754_zero _ => if s then x else y
  | _, _ => if ltb x y then x else y
  end.

(** [math.Ceil] followed by a conversion to [int], for finite arguments. *)
Definition ceil_to_Z (x : spec_float) : Z :=
  match x with
  | S754_finite s m e =>
      let v := if s then Z.neg m else Z.pos m in
      if 0 <=? e then Z.shiftl v e else - (- v / 2 ^ (- e))
  | _ => 0
  end.
(** The conversion to an integer: truncation towards zero. *)
Definition trunc_to_Z (x : spec_float) : Z :=
  match x with
  | S754_finite s m e =>
      let a := if 0 <=? e then Z.shiftl (Z.pos m) e else Z.pos m / 2 ^ (- e) in
      if s then - a else a
  | _ => 0
  end.
End F.

(** ** The order of float64 values

    Each value has a class, an exponent and a mantissa such that [<] is the
    lexicographic order of these keys (a NaN, incomparable in Go, is put below
    everything to make the key order total). *)
Definition f_class (x : spec_float) : Z :=
  match x with
  | S754_nan => -3
  | S754_infinity true => -2
  | S754_finite true _ _ => -1
  | S754_zero _ => 0
  | S754_finite false _ _ => 1
  | S754_infinity false => 2
  end.
Definition f_exp (x : spec_float) : Z :=
  match x with S754_finite s _ e => if s then - e else e | _ => 0 end.
Definition f_man (x : spec_float) : Z :=
  match x with S754_finite s m _ => if s then Z.neg m else Z.pos m | _ => 0 end.

Section Keys.
Context {A : Type} (k : A -> spec_float).

(** Comparators on a float64 key as the code writes them. *)
Definition key_flt (x y : A) : bool := F.ltb (k x) (k y).
Definition key_fgt (x y : A) : bool := F.ltb (k y) (k x).
Definition same_f (x y : A) : bool := F.eqb (k x) (k y).

(** Their total versions. *)
Definition total_flt : A -> A -> bool :=
  then_by (same_z (f_class ∘ k)) (key_lt (f_class ∘ k))
    (then_by (same_z (f_exp ∘ k)) (key_lt (f_exp ∘ k)) (key_lt (f_man ∘ k))).
Definition total_same (x y : A) : bool :=
  same_z (f_class ∘ k) x y && same_z (f_exp ∘ k) x y && same_z (f_man ∘ k) x y.

#[export] Instance StrictWeak_total_flt : StrictWeak total_flt.
Proof. apply StrictWeak_then_by; auto with flint. Qed.

Lemma total_same_flt x y :
  total_same x y = true <-> total_flt x y = false /\ total_flt y x = false.
Proof.
  unfold total_same, total_flt, then_by, same_z, key_lt.
  repeat case_match; lia.
Qed.
End Keys.

Lemma F_compare_keys x y :
  F.is_nan x = false -> F.is_nan y = false ->
  SFcompare x y =
    Some match f_class x ?= f_class y with
         | Eq => match f_exp x ?= f_exp y with Eq => f_man x ?= f_man y | c => c end
         | c => c
         end.
Proof.
  destruct x as [[]|[]| |[] mx ex], y as [[]|[]| |[] my ey]; try done; simpl; intros _ _.
  rewrite Z.compare_opp, (Z.compare_antisym ex ey).
  destruct (ex ?= ey); reflexivity.
Qed.

Section KeyLemmas.
Context {A : Type} (k : A -> spec_float).

Lemma flt_total x y :
  F.is_nan (k x) = false -> F.is_nan (k y) = false -> key_flt k x y = total_flt k x y.
Proof.
  intros Hx Hy. unfold key_flt, F.ltb, SFltb. rewrite F_compare_keys by done.
  unfold total_flt, then_by, same_z, key_lt, compose.
  destruct (Z.compare_spec (f_class (k x)) (f_class (k y))) as [E1|L1|G1];
    [rewrite E1, Z.eqb_refl|case_match; lia|case_match; lia].
  destruct (Z.compare_spec (f_exp (k x)) (f_exp (k y))) as [E2|L2|G2];
    [rewrite E2, Z.eqb_refl|case_match; lia|case_match; lia].
  unfold Z.ltb. by case_match.
Qed.

Lemma feq_total x y :
  F.is_nan (k x) = false -> F.is_nan (k y) = false -> same_f k x y = total_same k x y.
Proof.
  intros Hx Hy. unfold same_f, F.eqb, SFeqb. rewrite F_compare_keys by done.
  unfold total_same, same_z, compose. rewrite !Z.eqb_compare.
  repeat case_match; done.
Qed.
End KeyLemmas.

Lemma F_ltb_irrefl x : F.ltb x x = false.
Proof.
  destruct (F.is_nan x) eqn:E; [by destruct x|].
  pose proof (flt_total id x x E E) as H. unfold key_flt in H. simpl in H. rewrite H.
  apply (sw_irrefl (total_flt id)).
Qed.

#[export] Hint Resolve StrictWeak_total_flt total_same_flt : flint.

(** ** Non-negative values

    The non-negative values (a NaN is not one) are closed under addition and
    under multiplication by a finite non-negative constant. *)
Definition f_nonneg (x : spec_float) : Prop :=
  match x with
  | S754_zero s | S754_infinity s | S754_finite s _ _ => s = false
  | S754_nan => False
  end.
Definition f_finite (x : spec_float) : bool :=
  match x with S754_zero _ | S754_finite _ _ _ => true | _ => false end.

Lemma f_nonneg_not_nan x : f_nonneg x -> F.is_nan x = false.
Proof. by destruct x. Qed.

Lemma shr_1_nonneg mrs : 0 <= shr_m mrs -> 0 <= shr_m (shr_1 mrs).
Proof. destruct mrs as [[|[p|p|]|p] r s]; simpl; lia. Qed.
Lemma iter_shr_nonneg n mrs : 0 <= shr_m mrs -> 0 <= shr_m (SpecFloat.iter_pos shr_1 n mrs).
Proof. revert mrs; induction n; intros mrs H; simpl; auto using shr_1_nonneg. Qed.
Lemma shr_fexp_nonneg m e l : 0 <= m -> 0 <= shr_m (shr_fexp F.prec F.emax m e l).1.
Proof.
  intros H. unfold shr_fexp, shr.
  assert (0 <= shr_m (shr_record_of_loc m l)) by (by destruct l as [|[]]).
  destruct (Z.sub _ _); simpl; auto using iter_shr_nonneg.
Qed.

Lemma round_aux_nonneg m e l : 0 <= m -> f_nonneg (binary_round_aux F.prec F.emax false m e l).
Proof.
  intros H. unfold binary_round_aux.
  pose proof (shr_fexp_nonneg m e l H) as H1. destruct (shr_fexp F.prec F.emax m e l) as [mrs e'].
  simpl in H1.
  assert (H2 : 0 <= round_nearest_even (shr_m mrs) (loc_of_shr_record mrs)).
  { unfold round_nearest_even. destruct (loc_of_shr_record mrs) as [|[]]; [lia|destr_if; lia|lia|lia]. }
  pose proof (shr_fexp_nonneg _ e' loc_Exact H2) as H3.
  destruct (shr_fexp F.prec F.emax _ e' loc_Exact) as [mrs2 e2]. simpl in H3.
  destruct (shr_m mrs2) eqn:E; simpl; [done| |lia]. by destruct (e2 <=? F.emax - F.prec).
Qed.

Lemma normalize_nonneg m e : 0 <= m -> f_nonneg (binary_normalize F.prec F.emax m e false).
Proof.
  intros H. unfold binary_normalize. destruct m as [|p|p]; [done| |lia].
  unfold binary_round. destruct (shl_align _ _ _) as [mz ez]. by apply round_aux_nonneg.
Qed.

Lemma of_Z_nonneg n : 0 <= n -> f_nonneg (F.of_Z n).
Proof. apply normalize_nonneg. Qed.

Lemma add_nonneg x y : f_nonneg x -> f_nonneg y -> f_nonneg (F.add x y).
Proof.
  destruct x as [s|s| |s m e], y as [s'|s'| |s' m' e']; simpl; intros; subst; try done.
  apply normalize_nonneg. simpl. lia.
Qed.

Lemma mul_finite_nonneg x y : f_nonneg x -> f_nonneg y -> f_finite y = true ->
  (f_finite x = true \/ y <> S754_zero false) -> f_nonneg (F.mul x y).
Proof.
  destruct x as [s|s| |s m e], y as [s'|s'| |s' m' e']; simpl; intros; subst; try done.
  - destruct H2; done.
  - by apply round_aux_nonneg.
Qed.
