(* ===== verification/Net.v ===== *)
(** * The standard library's [net] and [encoding/base64], and the policy on addresses

    [net.SplitHostPort], addresses ([net/netip] and [net.ParseIP]) with their
    classes, and the unpadded base64 of [base64.RawStdEncoding], as far as the
    modelled components use them; and [internal/netpolicy/resolver.go]: which
    addresses a resolver may have. *)
From Stdlib Require Import ZArith Lia.
From stdpp Require Import base list strings pretty.
From S2P Require Import Prelude.
Open Scope Z_scope.

(** The value of decimal digits after those of [acc]. *)
Fixpoint dec_value (acc : Z) (s : string) : Z :=
  match s with
  | EmptyString => acc
  | String c rest => dec_value (acc * 10 + (Z.of_N (Ascii.N_of_ascii c) - 48)) rest
  end.
Definition hexdigit (c : Ascii.ascii) : bool := S.digit c || S.in_range 97 102 c || S.in_range 65 70 c.

Module Net.
Definition colon : Ascii.ascii := Ascii.ascii_of_N 58.
Definition bracket_open : Ascii.ascii := Ascii.ascii_of_N 91.
Definition bracket_close : Ascii.ascii := Ascii.ascii_of_N 93.

(** [strings.IndexByte] and [strings.LastIndexByte], split into what is before
    and behind the byte. *)
Fixpoint cutFirst (c : Ascii.ascii) (s : string) : option (string * string) :=
  match s with
  | EmptyString => None
  | String x rest =>
      if Ascii.eqb x c then Some (EmptyString, rest)
      else match cutFirst c rest with Some (a, b) => Some (String x a, b) | None => None end
  end.
Fixpoint cutLast (c : Ascii.ascii) (s : string) : option (string * string) :=
  match s with
  | EmptyString => None
  | String x rest =>
      match cutLast c rest with
      | Some (a, b) => Some (String x a, b)
      | None => if Ascii.eqb x c then Some (EmptyString, rest) else None
      end
  end.
Definition has (c : Ascii.ascii) (s : string) : bool := negb (S.all_bytes (fun x => negb (Ascii.eqb x c)) s).

(** The host and the port; [None] for an [AddrError].  A bracket is refused
    except around the whole host. *)
Definition SplitHostPort (hostport : string) : option (string * string) :=
  match cutLast colon hostport with
  | None => None
  | Some (before, port) =>
      if S.byte_is (S.first_byte hostport) 91 then
        match cutFirst bracket_close hostport with
        | None => None
        | Some (opened, behind) =>
            (* the closing bracket must stand right before the last colon *)
            if behind =s String colon port then
              let host := match opened with String _ h => h | EmptyString => EmptyString end in
              if has bracket_open host || has bracket_open port || has bracket_close port then None else Some (host, port)
            else None
        end
      else if has colon before || has bracket_open hostport || has bracket_close hostport then None
      else Some (before, port)
  end.
End Net.

(** [net.JoinHostPort]. *)
Definition JoinHostPort (host port : string) : string :=
  if S.Contains host ":" || S.Contains host "%" then "[" +:+ host +:+ "]:" +:+ port else host +:+ ":" +:+ port.

(** ** Addresses *)
Module IP.

(** [netip.Addr]: 32 bits, or 128 bits with a zone. *)
Inductive Addr : Type := V4 (n : Z) | V6 (n : Z) (zone : string).

(** A dotted-quad field: 1 to 3 digits, no leading zero, at most 255. *)
Definition ipv4Field (f : string) : bool :=
  S.all_bytes S.digit f && (1 <=? S.len f) && (S.len f <=? 3) &&
  negb ((1 <? S.len f) && S.byte_is (S.first_byte f) 48) && (dec_value 0 f <=? 255).
Definition parseIPv4 (s : string) : option Z :=
  match S.Split s S.dot with
  | [a; b; c; d] =>
      if forallb ipv4Field [a; b; c; d]
      then Some (((dec_value 0 a * 256 + dec_value 0 b) * 256 + dec_value 0 c) * 256 + dec_value 0 d)
      else None
  | _ => None
  end.

Definition unhex (c : Ascii.ascii) : Z :=
  let n := Z.of_N (Ascii.N_of_ascii c) in if S.digit c then n - 48 else if S.in_range 97 102 c then n - 87 else n - 55.
(** The leading hexadecimal digits: their number, their value, what follows. *)
Fixpoint hexRun (acc : Z) (s : string) : Z * Z * string :=
  match s with
  | String c rest =>
      if hexdigit c then let '(n, v, tail) := hexRun (acc * 16 + unhex c) rest in (n + 1, v, tail) else (0, acc, s)
  | EmptyString => (0, acc, EmptyString)
  end.
Definition packed (fields : list Z) : Z := fold_left (fun acc f => acc * 65536 + f) fields 0.
(** The 16-bit fields read, with zeros where the ellipsis stood. *)
Definition ends6 (read : list Z) (ellipsis : option nat) : option Z :=
  match ellipsis with
  | None => if (length read =? 8)%nat then Some (packed read) else None
  | Some i =>
      if (length read <? 8)%nat
      then Some (packed (firstn i read ++ repeat 0 (8 - length read) ++ skipn i read))
      else None
  end.
(** The fields of an IPv6 address; [fuel] bounds how many may still follow. *)
Fixpoint fields6 (fuel : nat) (read : list Z) (ellipsis : option nat) (s : string) : option Z :=
  match fuel with
  | O => if S.is_empty s then ends6 read ellipsis else None
  | S fuel =>
      let '(n, v, rest) := hexRun 0 s in
      if (n =? 0) || (4 <? n) then None
      else match rest with
      | EmptyString => ends6 (read ++ [v]) ellipsis
      | String c rest =>
          if S.is_byte 46 c then
            if (bool_decide (ellipsis = None) && negb (length read =? 6)%nat) || (6 <? length read)%nat then None
            else q ← parseIPv4 s; ends6 (read ++ [q / 65536; q mod 65536]) ellipsis
          else if negb (S.is_byte 58 c) then None
          else match rest with
          | EmptyString => None
          | String c' rest' =>
              if S.is_byte 58 c' then
                if bool_decide (ellipsis <> None) then None
                else let ellipsis := Some (S (length read)) in
                     if S.is_empty rest' then ends6 (read ++ [v]) ellipsis else fields6 fuel (read ++ [v]) ellipsis rest'
              else fields6 fuel (read ++ [v]) ellipsis rest
          end
      end
  end.
Definition parseIPv6 (text : string) : option Addr :=
  '(s, zone) ← match Net.cutFirst (Ascii.ascii_of_N 37) text with
               | Some (s, zone) => if S.is_empty zone then None else Some (s, zone)
               | None => Some (text, "")
               end;
  n ← (if S.HasPrefix s "::" then
         let s := String.substring 2 (String.length s - 2) s in
         if S.is_empty s then Some 0 else fields6 8 [] (Some O) s
       else fields6 8 [] None s);
  Some (V6 n zone).

(** The first dot, colon or percent sign decides. *)
Fixpoint ParseAddr_go (s rest : string) : option Addr :=
  match rest with
  | EmptyString => None
  | String c rest =>
      if S.is_byte 46 c then V4 <$> parseIPv4 s else if S.is_byte 58 c then parseIPv6 s
      else if S.is_byte 37 c then None else ParseAddr_go s rest
  end.
Definition ParseAddr (s : string) : option Addr := ParseAddr_go s s.

(** [Addr.Unmap]; a [net.IP] does not tell an IPv4 address from its mapping. *)
Definition Unmap (a : Addr) : Addr :=
  match a with
  | V6 n _ => if n / 2 ^ 32 =? 65535 then V4 (n mod 2 ^ 32) else a
  | V4 _ => a
  end.
(** [net.ParseIP]: no zone. *)
Definition ParseIP (s : string) : option Addr :=
  match ParseAddr s with
  | Some (V6 n zone) => if S.is_empty zone then Some (Unmap (V6 n zone)) else None
  | other => other
  end.

(** [Prefix.Contains]: [V4] and [V6] prefixes of the given length. *)
Definition inPrefix (prefix : Addr) (bits : Z) (a : Addr) : bool :=
  match prefix, a with
  | V4 p, V4 n => p / 2 ^ (32 - bits) =? n / 2 ^ (32 - bits)
  | V6 p _, V6 n zone => S.is_empty zone && (p / 2 ^ (128 - bits) =? n / 2 ^ (128 - bits))
  | _, _ => false
  end.
Definition quad (a b c d : Z) : Addr := V4 (((a * 256 + b) * 256 + c) * 256 + d).
(** An IPv6 address by its first two fields and its last. *)
Definition wide (first second last : Z) : Addr := V6 (packed [first; second; 0; 0; 0; 0; 0; last]) "".
Definition noZone (a : Addr) : Addr := match a with V6 n _ => V6 n "" | _ => a end.

(** The classes; the methods of [netip.Addr] ignore the zone. *)
Definition IsUnspecified (a : Addr) : bool := match a with V4 n => n =? 0 | V6 n zone => (n =? 0) && S.is_empty zone end.
Definition IsLoopback (a : Addr) : bool := match Unmap a with V4 n => n / 2 ^ 24 =? 127 | V6 n _ => n =? 1 end.
Definition IsPrivate (a : Addr) : bool :=
  let a := noZone (Unmap a) in
  inPrefix (quad 10 0 0 0) 8 a || inPrefix (quad 172 16 0 0) 12 a || inPrefix (quad 192 168 0 0) 16 a
  || inPrefix (wide 64512 0 0) 7 a.
Definition IsLinkLocalUnicast (a : Addr) : bool :=
  let a := noZone (Unmap a) in inPrefix (quad 169 254 0 0) 16 a || inPrefix (wide 65152 0 0) 10 a.
Definition IsMulticast (a : Addr) : bool :=
  let a := noZone (Unmap a) in inPrefix (quad 224 0 0 0) 4 a || inPrefix (wide 65280 0 0) 8 a.
Definition IsLinkLocalMulticast (a : Addr) : bool :=
  match Unmap a with V4 n => n / 256 =? 14680064 | V6 n _ => Z.land (n / 2 ^ 112) 65295 =? 65282 end.
Definition IsGlobalUnicast (a : Addr) : bool :=
  let a := Unmap a in
  match a with
  | V4 n => negb ((n =? 0) || (n =? 4294967295)) && negb (IsLoopback a || IsMulticast a || IsLinkLocalUnicast a)
  | V6 _ _ => negb (IsUnspecified a || IsLoopback a || IsMulticast a || IsLinkLocalUnicast a)
  end.

(** [net.IP.String]: dotted, or the 16-bit fields in hexadecimal with the longest
    run of two or more zeros (the first of them) left out. *)
Definition hexChar (n : Z) : Ascii.ascii := Ascii.ascii_of_N (Z.to_N (if n <? 10 then 48 + n else 87 + n)).
Fixpoint hexText (fuel : nat) (n : Z) (acc : string) : string :=
  match fuel with
  | O => acc
  | S fuel => let acc := String (hexChar (n mod 16)) acc in if n <? 16 then acc else hexText fuel (n / 16) acc
  end.
Definition fieldsOf (n : Z) : list Z := map (fun i => n / 2 ^ (16 * (7 - Z.of_nat i)) mod 65536) (seq 0 8).
Fixpoint zeroRun (l : list Z) : nat := match l with 0 :: rest => S (zeroRun rest) | _ => O end.
(** The start and length of the longest run so far, then of the whole list. *)
Fixpoint longestRun (i : nat) (best : nat * nat) (l : list Z) : nat * nat :=
  match l with
  | [] => best
  | _ :: rest => longestRun (S i) (if (best.2 <? zeroRun l)%nat then (i, zeroRun l) else best) rest
  end.
Definition Text (a : Addr) : string :=
  match Unmap a with
  | V4 n => S.Join (map (fun k => pretty (n / 2 ^ k mod 256)) [24; 16; 8; 0]) "."
  | V6 n _ =>
      let fields := map (fun f => hexText 4 f EmptyString) (fieldsOf n) in
      let '(start, len) := longestRun 0 (0, 1)%nat (fieldsOf n) in
      if (len <? 2)%nat then S.Join fields ":"
      else S.Join (firstn start fields) ":" +:+ "::" +:+ S.Join (skipn (start + len) fields) ":"
  end.
End IP.

Example parse_v6 : IP.ParseAddr "2001:db8::1" = Some (IP.V6 42540766411282592856903984951653826561 "").
Proof. reflexivity. Qed.
Example parse_mapped : IP.ParseIP "::ffff:10.0.0.1" = IP.ParseIP "10.0.0.1".
Proof. reflexivity. Qed.
Example parse_zone : IP.ParseAddr "fe80::1%eth0" = Some (IP.V6 338288524927261089654018896841347694593 "eth0").
Proof. reflexivity. Qed.
Example text_of : map (fun s => default "" (IP.Text <$> IP.ParseIP s)) ["9.9.9.9"; "2606:4700:0:0:0:0:0:1111"; "::1"; "1:0:0:2:0:0:0:3"; "::ffff:1.2.3.4"; "1:0:2:3:4:5:6:7"]
  = ["9.9.9.9"; "2606:4700::1111"; "::1"; "1:0:0:2::3"; "1.2.3.4"; "1:0:2:3:4:5:6:7"].
Proof. vm_compute. reflexivity. Qed.
Example parse_refused : map IP.ParseAddr ["1.2.3"; "01.2.3.4"; "1:2:3:4:5:6:7"; "::1::2"; "1:2:3:4:5:6:7:8:9"; "12345::"; "1.2.3.4%x"] = repeat None 7.
Proof. reflexivity. Qed.

(** ** Hardware addresses *)

(** [net.ParseMAC] for a 6-byte address, printed back in lower case with colons
    ([strings.ToLower(hardware.String())]); [None] when parsing fails or the
    address is not 6 bytes long. *)
Fixpoint chars (s : string) : list Ascii.ascii :=
  match s with EmptyString => [] | String c rest => c :: chars rest end.
Definition parseMAC6 (s : string) : option string :=
  let render (l : list Ascii.ascii) : option string :=
    match l with
    | [a1; a2; b1; b2; c1; c2; d1; d2; e1; e2; f1; f2] =>
        if forallb hexdigit l then
          let pair x y := String x (String y EmptyString) in
          Some (S.ToLower (S.Join [pair a1 a2; pair b1 b2; pair c1 c2; pair d1 d2; pair e1 e2; pair f1 f2] ":"))
        else None
    | _ => None
    end in
  match chars s with
  | [a1; a2; x1; b1; b2; x2; c1; c2; x3; d1; d2; x4; e1; e2; x5; f1; f2] =>
      if (S.is_byte 58 x1 || S.is_byte 45 x1) && forallb (Ascii.eqb x1) [x2; x3; x4; x5]
      then render [a1; a2; b1; b2; c1; c2; d1; d2; e1; e2; f1; f2]
      else None
  | [a1; a2; b1; b2; x1; c1; c2; d1; d2; x2; e1; e2; f1; f2] =>
      if S.is_byte 46 x1 && S.is_byte 46 x2
      then render [a1; a2; b1; b2; c1; c2; d1; d2; e1; e2; f1; f2]
      else None
  | _ => None
  end.

Example parseMAC6_dots : parseMAC6 "0000.5E00.53aF" = Some "00:00:5e:00:53:af".
Proof. reflexivity. Qed.
Example parseMAC6_hyphens : parseMAC6 "00-00-5E-00-53-aF" = Some "00:00:5e:00:53:af".
Proof. reflexivity. Qed.

(** ** Unpadded base64 *)
Module Base64.
Definition alphabet : string := "ABCDEFGHIJKLMNOPQRSTUVWXYZabcdefghijklmnopqrstuvwxyz0123456789+/".
Definition byte (n : Z) : Ascii.ascii := Ascii.ascii_of_N (Z.to_N n).
Definition code (c : Ascii.ascii) : Z := Z.of_N (Ascii.N_of_ascii c).
Definition symbol (n : Z) : Ascii.ascii := default Ascii.zero (String.get (Z.to_nat n) alphabet).
(** The value of a symbol. *)
Fixpoint indexIn (c : Ascii.ascii) (s : string) (n : Z) : option Z :=
  match s with
  | EmptyString => None
  | String x rest => if Ascii.eqb x c then Some n else indexIn c rest (n + 1)
  end.
Definition value (c : Ascii.ascii) : option Z := indexIn c alphabet 0.

Fixpoint EncodeToString (s : string) : string :=
  match s with
  | EmptyString => EmptyString
  | String a EmptyString =>
      let n := code a * 2 ^ 4 in
      String (symbol (n / 2 ^ 6)) (String (symbol (n mod 2 ^ 6)) EmptyString)
  | String a (String b EmptyString) =>
      let n := (code a * 2 ^ 8 + code b) * 2 ^ 2 in
      String (symbol (n / 2 ^ 12)) (String (symbol (n / 2 ^ 6 mod 2 ^ 6)) (String (symbol (n mod 2 ^ 6)) EmptyString))
  | String a (String b (String c rest)) =>
      let n := (code a * 2 ^ 8 + code b) * 2 ^ 8 + code c in
      String (symbol (n / 2 ^ 18)) (String (symbol (n / 2 ^ 12 mod 2 ^ 6))
        (String (symbol (n / 2 ^ 6 mod 2 ^ 6)) (String (symbol (n mod 2 ^ 6)) (EncodeToString rest))))
  end.

(** The decoder skips line breaks, and ignores the bits of the last symbol that
    belong to no byte. *)
Fixpoint values (s : string) : option (list Z) :=
  match s with
  | EmptyString => Some []
  | String c rest =>
      if S.is_byte 10 c || S.is_byte 13 c then values rest
      else match value c, values rest with Some v, Some l => Some (v :: l) | _, _ => None end
  end.
Fixpoint bytesOf (l : list Z) : option string :=
  match l with
  | [] => Some EmptyString
  | [_] => None
  | [x; y] => Some (String (byte ((x * 2 ^ 6 + y) / 2 ^ 4)) EmptyString)
  | [x; y; z] => let n := (x * 2 ^ 6 + y) * 2 ^ 6 + z in
      Some (String (byte (n / 2 ^ 10)) (String (byte (n / 2 ^ 2 mod 2 ^ 8)) EmptyString))
  | x :: y :: z :: w :: rest =>
      let n := ((x * 2 ^ 6 + y) * 2 ^ 6 + z) * 2 ^ 6 + w in
      match bytesOf rest with
      | Some s => Some (String (byte (n / 2 ^ 16)) (String (byte (n / 2 ^ 8 mod 2 ^ 8)) (String (byte (n mod 2 ^ 8)) s)))
      | None => None
      end
  end.
Definition DecodeString (s : string) : option string := l ← values s; bytesOf l.

Lemma code_range c : 0 <= code c < 256.
Proof.
  unfold code. pose proof (Ascii.N_ascii_bounded c). lia.
Qed.
Lemma byte_code c : byte (code c) = c.
Proof. unfold byte, code. rewrite N2Z.id. apply Ascii.ascii_N_embedding. Qed.

(** Every six-bit value has its symbol, which is no line break. *)
Lemma value_symbol n : 0 <= n < 64 -> value (symbol n) = Some n /\ S.is_byte 10 (symbol n) || S.is_byte 13 (symbol n) = false.
Proof.
  intros Hn.
  assert (HA : forallb (fun k => let n := Z.of_nat k in
    match value (symbol n) with Some v => v =? n | None => false end && negb (S.is_byte 10 (symbol n) || S.is_byte 13 (symbol n)))
    (seq 0 64) = true) by (vm_compute; reflexivity).
  rewrite forallb_forall in HA. specialize (HA (Z.to_nat n)). rewrite in_seq, Z2Nat.id in HA by lia. cbv zeta in HA.
  specialize (HA ltac:(lia)). apply andb_true_iff in HA as [H1 H2]. apply negb_true_iff in H2. split; [|done].
  destruct (value (symbol n)); [|done]. f_equal. lia.
Qed.

Lemma values_symbol n s : 0 <= n < 64 -> values (String (symbol n) s) = l ← values s; Some (n :: l).
Proof. intros Hn. apply value_symbol in Hn as [Hv Hb]. simpl. rewrite Hb, Hv. by destruct (values s). Qed.

Lemma string_ind3 (P : string -> Prop) :
  P EmptyString -> (forall a, P (String a EmptyString)) -> (forall a b, P (String a (String b EmptyString))) ->
  (forall a b c s, P s -> P (String a (String b (String c s)))) -> forall s, P s.
Proof.
  intros H0 H1 H2 H3 s. assert (P s /\ (forall a, P (String a s)) /\ (forall a b, P (String a (String b s)))) as [HP _]; [|done].
  induction s as [|c s (IH0 & IH1 & IH2)]; [done|]. split; [done|]. split; [done|]. intros a b. by apply H3.
Qed.

Lemma decode_one x : 0 <= x < 256 -> ((x * 2 ^ 4 / 2 ^ 6) * 2 ^ 6 + x * 2 ^ 4 mod 2 ^ 6) / 2 ^ 4 = x.
Proof. intros. rewrite (Z.mul_comm (_ / _)), <- Z.div_mod by lia. by rewrite Z.div_mul. Qed.

(** The digits of a number to the base 64. *)
Lemma digits2 n : (n / 2 ^ 6) * 2 ^ 6 + n mod 2 ^ 6 = n.
Proof. rewrite Z.mul_comm, <- Z.div_mod; lia. Qed.
Lemma digits3 n : ((n / 2 ^ 12) * 2 ^ 6 + n / 2 ^ 6 mod 2 ^ 6) * 2 ^ 6 + n mod 2 ^ 6 = n.
Proof.
  replace (n / 2 ^ 12) with (n / 2 ^ 6 / 2 ^ 6) by (rewrite Z.div_div by lia; done). by rewrite !digits2.
Qed.
Lemma digits4 n : (((n / 2 ^ 18) * 2 ^ 6 + n / 2 ^ 12 mod 2 ^ 6) * 2 ^ 6 + n / 2 ^ 6 mod 2 ^ 6) * 2 ^ 6 + n mod 2 ^ 6 = n.
Proof.
  replace (n / 2 ^ 18) with (n / 2 ^ 6 / 2 ^ 12) by (rewrite Z.div_div by lia; done).
  replace (n / 2 ^ 12) with (n / 2 ^ 6 / 2 ^ 6) by (rewrite Z.div_div by lia; done). by rewrite digits3, digits2.
Qed.

(** What is encoded decodes to itself. *)
Lemma Decode_Encode s : DecodeString (EncodeToString s) = Some s.
Proof.
  unfold DecodeString. induction s as [|a|a b|a b c s IH] using string_ind3; [done|..];
    pose proof (code_range a); try pose proof (code_range b); try pose proof (code_range c); cbn [EncodeToString]; cbv zeta.
  - rewrite !values_symbol by (first [apply Z.mod_pos_bound; lia | split; [apply Z.div_pos|apply Z.div_lt_upper_bound]; lia]).
    cbn [values mbind option_bind bytesOf]. by rewrite digits2, Z.div_mul, byte_code.
  - set (n := (code a * 2 ^ 8 + code b) * 2 ^ 2).
    rewrite !values_symbol by (unfold n; first [apply Z.mod_pos_bound; lia | split; [apply Z.div_pos|apply Z.div_lt_upper_bound]; lia]).
    cbn [values mbind option_bind bytesOf]. cbv zeta. rewrite digits3.
    assert (n / 2 ^ 10 = code a) as -> by (unfold n; symmetry; apply (Z.div_unique _ _ _ (code b * 2 ^ 2)); lia).
    assert (n / 2 ^ 2 mod 2 ^ 8 = code b) as -> by (unfold n; rewrite Z.div_mul by lia; symmetry; apply (Z.mod_unique _ _ (code a)); lia).
    by rewrite !byte_code.
  - set (n := (code a * 2 ^ 8 + code b) * 2 ^ 8 + code c).
    rewrite !values_symbol by (unfold n; first [apply Z.mod_pos_bound; lia | split; [apply Z.div_pos|apply Z.div_lt_upper_bound]; lia]).
    destruct (values (EncodeToString s)) as [l|]; [|done]. cbn [mbind option_bind] in IH |- *. cbn [bytesOf]. cbv zeta.
    rewrite IH, digits4.
    assert (n / 2 ^ 16 = code a) as -> by (unfold n; symmetry; apply (Z.div_unique _ _ _ (code b * 2 ^ 8 + code c)); lia).
    assert (n / 2 ^ 8 = code a * 2 ^ 8 + code b) as -> by (unfold n; symmetry; apply (Z.div_unique _ _ _ (code c)); lia).
    assert ((code a * 2 ^ 8 + code b) mod 2 ^ 8 = code b) as -> by (symmetry; apply (Z.mod_unique _ _ (code a)); lia).
    assert (n mod 2 ^ 8 = code c) as -> by (unfold n; symmetry; apply (Z.mod_unique _ _ (code a * 2 ^ 8 + code b)); lia).
    by rewrite !byte_code.
Qed.
End Base64.

Example base64_example :
  Base64.EncodeToString "salt" = "c2FsdA" /\ Base64.DecodeString "c2FsdA" = Some "salt" /\ Base64.DecodeString "c2Fsd" = None.
Proof. vm_compute. done. Qed.
Example hosts_example :
  map Net.SplitHostPort ["192.168.1.2:4000"; "[fe80::1]:80"; "fe80::1:80"; "host"; "[::1]"] =
    [Some ("192.168.1.2", "4000"); Some ("fe80::1", "80"); None; None; None].
Proof. vm_compute. done. Qed.

Definition resolverBogons : list (IP.Addr * Z) :=
  [ (IP.quad 0 0 0 0, 8); (IP.quad 10 0 0 0, 8); (IP.quad 100 64 0 0, 10); (IP.quad 127 0 0 0, 8);
    (IP.quad 169 254 0 0, 16); (IP.quad 172 16 0 0, 12); (IP.quad 192 0 0 0, 24); (IP.quad 192 0 2 0, 24);
    (IP.quad 192 168 0 0, 16); (IP.quad 198 18 0 0, 15); (IP.quad 198 51 100 0, 24); (IP.quad 203 0 113 0, 24);
    (IP.quad 224 0 0 0, 4); (IP.quad 240 0 0 0, 4);
    (IP.wide 0 0 0, 128); (IP.wide 0 0 1, 128); (IP.wide 256 0 0, 64); (IP.wide 8193 3512 0, 32);
    (IP.wide 64512 0 0, 7); (IP.wide 65152 0 0, 10); (IP.wide 65280 0 0, 8) ].

Definition PublicResolverAddr (addr : IP.Addr) : bool :=
  let addr := IP.Unmap addr in
  if negb (IP.IsGlobalUnicast addr) || IP.IsPrivate addr || IP.IsLoopback addr || IP.IsMulticast addr
     || IP.IsUnspecified addr || IP.IsLinkLocalUnicast addr || IP.IsLinkLocalMulticast addr
  then false
  else negb (any (fun prefix => IP.inPrefix prefix.1 prefix.2 addr) resolverBogons).

Example public_resolvers :
  map (fun s => default false (PublicResolverAddr <$> IP.ParseAddr s))
    ["1.1.1.1"; "2606:4700:4700::1111"; "::ffff:9.9.9.9"; "10.0.0.1"; "::ffff:10.0.0.1"; "100.64.1.1"; "2001:db8::1"; "fd00::1"; "255.255.255.255"]
  = [true; true; true; false; false; false; false; false; false].
Proof. reflexivity. Qed.
