(* ===== verification/ZapretProfile.v ===== *)
(** * Device-scoped Zapret profiles

    [internal/zapretprofile/profile.go]: the typed profiles that send the traffic
    of one device through its own nfqws queue, the checks they pass, and the
    nftables rules, arguments and service script made from them. *)
From Stdlib Require Import ZArith Lia.
From stdpp Require Import base list strings gmap pretty.
From S2P Require Import Prelude Net.

Open Scope Z_scope.

Definition StrategyTLSFakeTTL3 : string := "tls-fake-ttl3-v1".
Definition StrategyTVFakeMultidisorder : string := "tv-fake-multidisorder-v1".

Record Scope := mkScope { sc_IPv4 : string; sc_MAC : string }.
Record PortRange := mkPortRange { pr_Start : Z; pr_End : Z }.
Record Rule := mkRule {
  ru_Protocol : string;
  ru_Ports : list PortRange;
  ru_Verdict : string;
  ru_ConntrackFirstPack : Z
}.
Record DeviceProfile := mkDevice {
  dv_ID : string;
  dv_Scope : Scope;
  dv_QueueNum : Z;
  dv_Strategy : string;
  dv_Binary : string;
  dv_ActiveConfig : string;
  dv_InitScript : string;
  dv_Rules : list Rule
}.

(** [^[a-z][a-z0-9-]{0,31}$] *)
Definition idPattern (s : string) : bool :=
  match s with
  | EmptyString => false
  | String c rest =>
      S.lower_letter c && (S.len rest <=? 31) && S.all_bytes (fun c => S.lower_letter c || S.digit c || S.is_byte 45 c) rest
  end.
(** [^[a-zA-Z][a-zA-Z0-9_-]{0,63}$] *)
Definition nftTokenPattern (s : string) : bool :=
  match s with
  | EmptyString => false
  | String c rest =>
      (S.lower_letter c || S.upper_letter c) && (S.len rest <=? 63)
      && S.all_bytes (fun c => S.lower_letter c || S.upper_letter c || S.digit c || S.is_byte 95 c || S.is_byte 45 c) rest
  end.

(** ** Checks; [None] for no error *)

Definition ipv4Selector (s : string) : bool :=
  match IP.ParseAddr s with
  | Some (IP.V4 n as a) => negb (IP.IsUnspecified a || IP.IsMulticast a || IP.IsLoopback a)
  | _ => false
  end.
(** A unicast address: the lowest bit of the first byte is clear. *)
Definition macSelector (s : string) : bool :=
  match parseMAC6 s with
  | Some (String _ (String c _)) => IP.unhex c mod 2 =? 0
  | _ => false
  end.

Definition Scope_Validate (s : Scope) : option string :=
  if Bool.eqb (S.is_empty (sc_IPv4 s)) (S.is_empty (sc_MAC s)) then Some "scope must contain exactly one IPv4 or MAC selector"
  else if negb (S.is_empty (sc_IPv4 s)) && negb (ipv4Selector (sc_IPv4 s)) then Some "scope IPv4 selector is invalid"
  else if negb (S.is_empty (sc_MAC s)) && negb (macSelector (sc_MAC s)) then Some "scope MAC selector is invalid"
  else None.

Definition PortRange_Validate (p : PortRange) : option string :=
  if (pr_Start p <? 1) || (65535 <? pr_Start p) || (pr_End p <? pr_Start p) || (65535 <? pr_End p)
  then Some "port range is invalid" else None.

(** The error of the first element that has one. *)
Fixpoint firstOf {A} (check : A -> option string) (l : list A) : option string :=
  match l with
  | [] => None
  | x :: rest => match check x with Some e => Some e | None => firstOf check rest end
  end.

Definition Rule_Validate (r : Rule) : option string :=
  if negb (containsString ["tcp"; "udp"] (ru_Protocol r)) then Some "rule protocol must be tcp or udp"
  else if negb (containsString ["queue"; "drop"] (ru_Verdict r)) then Some "rule verdict must be queue or drop"
  else if (length (ru_Ports r) =? 0)%nat || (32 <? Z.of_nat (length (ru_Ports r))) then Some "rule port count is out of bounds"
  else if (ru_ConntrackFirstPack r <? 0) || (64 <? ru_ConntrackFirstPack r) then Some "rule conntrack bound is out of bounds"
  else firstOf PortRange_Validate (ru_Ports r).

Definition renderPort (p : PortRange) : string :=
  if pr_Start p =? pr_End p then pretty (pr_Start p) else pretty (pr_Start p) +:+ "-" +:+ pretty (pr_End p).
Definition renderPorts (ports : list PortRange) : string :=
  match gosort S.ltb (map renderPort ports) with
  | [value] => value
  | values => "{" +:+ S.Join values ", " +:+ "}"
  end.
Definition ruleKey (r : Rule) : string :=
  ru_Protocol r +:+ ":" +:+ ru_Verdict r +:+ ":" +:+ renderPorts (ru_Ports r) +:+ ":" +:+ pretty (ru_ConntrackFirstPack r).

(** The loop over the rules of the profile [id]. *)
Fixpoint validateRules (id : string) (seen : gset string) (l : list Rule) : option string :=
  match l with
  | [] => None
  | rule :: rest =>
      match Rule_Validate rule with
      | Some e => Some ("profile " +:+ id +:+ " rule: " +:+ e)
      | None =>
          if bool_decide (ruleKey rule ∈ seen) then Some ("profile " +:+ id +:+ " has duplicate rule")
          else if (ru_Verdict rule =s "queue") && (ru_Protocol rule <>s "tcp")
          then Some ("profile " +:+ id +:+ " may queue only TCP in the typed model")
          else if (ru_Verdict rule =s "drop") && (ru_Protocol rule <>s "udp")
          then Some ("profile " +:+ id +:+ " may drop only UDP in the typed model")
          else validateRules id ({[ruleKey rule]} ∪ seen) rest
      end
  end.

Definition Profile_Validate (p : DeviceProfile) : option string :=
  let id := dv_ID p in
  if negb (idPattern id) then Some "profile id is invalid"
  else match Scope_Validate (dv_Scope p) with
  | Some e => Some ("profile " +:+ id +:+ " scope: " +:+ e)
  | None =>
      if (dv_QueueNum p <? 2) || (65535 <? dv_QueueNum p) then Some ("profile " +:+ id +:+ " queue must be in 2..65535")
      else if dv_Binary p <>s "/usr/bin/nfqws" then Some ("profile " +:+ id +:+ " binary is not project-owned")
      else if dv_ActiveConfig p <>s "/etc/router-policy/zapret/profiles/" +:+ id +:+ ".conf"
      then Some ("profile " +:+ id +:+ " config path is not allowlisted")
      else if dv_InitScript p <>s "/etc/init.d/router-policy-zapret-" +:+ id
      then Some ("profile " +:+ id +:+ " init path is not allowlisted")
      else if negb (containsString [StrategyTLSFakeTTL3; StrategyTVFakeMultidisorder] (dv_Strategy p))
      then Some ("profile " +:+ id +:+ " strategy is unsupported")
      else if (length (dv_Rules p) =? 0)%nat || (16 <? Z.of_nat (length (dv_Rules p)))
      then Some ("profile " +:+ id +:+ " rule count is out of bounds")
      else validateRules id ∅ (dv_Rules p)
  end.

Definition selectorKey (p : DeviceProfile) : string := sc_IPv4 (dv_Scope p) +:+ "|" +:+ S.ToLower (sc_MAC (dv_Scope p)).

(** The loop of [ValidateProfiles]; the maps from queues and selectors give the
    profile that has them. *)
Fixpoint validateEach (ids : gset string) (queues : gmap Z string) (scopes : gmap string string) (l : list DeviceProfile) : option string :=
  match l with
  | [] => None
  | p :: rest =>
      match Profile_Validate p with
      | Some e => Some e
      | None =>
          if bool_decide (dv_ID p ∈ ids) then Some ("duplicate profile id " +:+ dv_ID p)
          else
            let previous := default "" (queues !! dv_QueueNum p) in
            if negb (S.is_empty previous)
            then Some ("queue " +:+ pretty (dv_QueueNum p) +:+ " is shared by " +:+ previous +:+ " and " +:+ dv_ID p)
            else
              let previous := default "" (scopes !! selectorKey p) in
              if negb (S.is_empty previous) then Some ("device selector is shared by " +:+ previous +:+ " and " +:+ dv_ID p)
              else validateEach ({[dv_ID p]} ∪ ids) (<[dv_QueueNum p := dv_ID p]> queues) (<[selectorKey p := dv_ID p]> scopes) rest
      end
  end.
Definition ValidateProfiles (l : list DeviceProfile) : option string :=
  if (length l =? 0)%nat then Some "at least one profile is required"
  else if 16 <? Z.of_nat (length l) then Some "profile count exceeds 16"
  else validateEach ∅ ∅ ∅ l.

(** ** Rendering *)

Definition nl : string := String (Ascii.ascii_of_N 10) EmptyString.
Definition quote : string := String (Ascii.ascii_of_N 34) EmptyString.
Definition quoted (s : string) : string := quote +:+ s +:+ quote.

Definition renderSelector (s : Scope) : string :=
  if negb (S.is_empty (sc_IPv4 s)) then "ip saddr " +:+ sc_IPv4 s else "ether saddr " +:+ S.ToLower (sc_MAC s).
Definition renderRule (p : DeviceProfile) (r : Rule) : string :=
  let ct := if 0 <? ru_ConntrackFirstPack r then " ct original packets 1-" +:+ pretty (ru_ConntrackFirstPack r) else "" in
  "    " +:+ renderSelector (dv_Scope p) +:+ " " +:+ ru_Protocol r +:+ " dport " +:+ renderPorts (ru_Ports r) +:+ ct +:+
  (if ru_Verdict r =s "drop"
   then " counter drop comment " +:+ quoted ("router-policy profile=" +:+ dv_ID p +:+ " action=drop")
   else " counter queue flags bypass to " +:+ pretty (dv_QueueNum p) +:+ " comment " +:+
        quoted ("router-policy profile=" +:+ dv_ID p +:+ " action=queue")) +:+ nl.
Definition RenderRules (l : list DeviceProfile) : result string :=
  match ValidateProfiles l with
  | Some e => Err e
  | None =>
      Ok ("  chain rp_zapret_device {" +:+ nl +:+ "    type filter hook postrouting priority mangle; policy accept;" +:+ nl +:+
          S.Join (flat_map (fun p => map (renderRule p) (dv_Rules p)) l) "" +:+ "  }" +:+ nl)
  end.
Definition RenderNft (family table generation : string) (l : list DeviceProfile) : result string :=
  if (family <>s "inet") || negb (nftTokenPattern table) || negb (nftTokenPattern generation) then Err "nft identity is invalid"
  else
    rules ← RenderRules l;
    Ok ("table " +:+ family +:+ " " +:+ table +:+ " {" +:+ nl +:+
        "  comment " +:+ quoted ("router-policy owner=flintroute generation=" +:+ generation) +:+ nl +:+ rules +:+ "}" +:+ nl).

Definition queuePorts (p : DeviceProfile) : list PortRange :=
  flat_map (fun r => if (ru_Verdict r =s "queue") && (ru_Protocol r =s "tcp") then ru_Ports r else []) (dv_Rules p).
Definition RenderNFQWS (p : DeviceProfile) : result (list string) :=
  match Profile_Validate p with
  | Some e => Err e
  | None =>
      Ok (("--qnum=" +:+ pretty (dv_QueueNum p)) ::
          (if dv_Strategy p =s StrategyTLSFakeTTL3 then
             ["--filter-tcp=80,443"; "--dpi-desync=fake,fakedsplit"; "--dpi-desync-split-pos=method+2"; "--dpi-desync-fooling=md5sig"]
           else if dv_Strategy p =s StrategyTVFakeMultidisorder then
             ["--filter-tcp=" +:+ renderPorts (queuePorts p); "--dpi-desync=fake,multidisorder"; "--dpi-desync-split-pos=1,midsld";
              "--dpi-desync-fooling=badseq,md5sig"]
           else []))
  end.
Definition RenderConfig (p : DeviceProfile) : result string :=
  args ← RenderNFQWS p; Ok (S.Join args nl +:+ nl).

Definition RenderInitScript (p : DeviceProfile) : result string :=
  match Profile_Validate p with
  | Some e => Err e
  | None =>
      let tab s := String (Ascii.ascii_of_N 9) s in
      let prog := quoted "$PROG" in
      let config := quoted "$CONFIG" in
      Ok (S.Join
        [ "#!/bin/sh /etc/rc.common"; ""; "USE_PROCD=1"; "START=95"; "STOP=11"; "";
          "PROG=" +:+ quoted "/usr/bin/nfqws"; "CONFIG=" +:+ quoted ("/etc/router-policy/zapret/profiles/" +:+ dv_ID p +:+ ".conf"); "";
          "start_service() {"; tab ("[ -x " +:+ prog +:+ " ] || return 1"); tab ("[ -s " +:+ config +:+ " ] || return 1");
          tab ("procd_open_instance router-policy-zapret-" +:+ dv_ID p);
          tab ("procd_set_param command " +:+ prog +:+ " " +:+ quoted "@$CONFIG"); tab ("procd_set_param file " +:+ config);
          tab "procd_set_param stdout 1"; tab "procd_set_param stderr 1"; tab "procd_set_param respawn 3600 5 5";
          tab "procd_close_instance"; "}"; ""; "reload_service() {"; tab "stop"; tab "start"; "}"; "" ] nl)
  end.
