(* ===== verification/Config.v ===== *)
(** * Configuration: routes, services, overrides

    [internal/config/config.go]: the configuration, the lookups over it, the route eligibility rule
    [PathAllowed] and the validation of manual overrides.  [Validation] has the
    validation of the whole. *)
From Stdlib Require Import ZArith Lia SpecFloat.
From stdpp Require Import base list strings gmap.
From S2P Require Import Prelude Float64 Net ZapretProfile.

Open Scope Z_scope.

Record RouteSelectionWeights := mkWeights {
  EndToEndLatency : spec_float;
  Availability : spec_float;
  ErrorRate : spec_float;
  Privacy : spec_float
}.

Record Platform := mkPlatform {
  pl_Target : string;
  pl_IPv6Enabled : bool;
  pl_RequireConfirmedDiagnostics : bool;
  pl_UnsupportedApplyPolicy : string
}.

Record Storage := mkStorage {
  st_StateDir : string;
  st_RuntimeDir : string;
  st_Database : string;
  st_EventRetentionDays : Z;
  st_ChangeSetRetentionDays : Z;
  st_TransactionRetentionDays : Z;
  st_MaxProbeResults : Z;
  st_BackupIntervalHours : Z;
  st_CompactIntervalDays : Z;
  st_MaxStateBackups : Z;
  st_MaxDatabaseBytes : Z;
  st_MaxAutoDomains : Z;
  st_SnapshotIntervalSeconds : Z
}.

Record Policy := Build_Policy {
  UnknownDomainFirstPath : string;
  RouteSelectionStrategy : string;
  RouteSelectionHysteresisPercent : Z;
  RouteSelectionCooldownSeconds : Z;
  RouteSelectionWeightsOf : RouteSelectionWeights;
  UnknownDomainBackgroundCheck : bool;
  RouteHoldSeconds : Z;
  FailAfterConsecutiveErrors : Z;
  RecoverAfterConsecutiveSuccess : Z;
  HealthCheckIntervalSeconds : Z;
  InventoryHealthIntervalSeconds : Z;
  ProbeBudget : Z;
  DiscoveryQueueLimit : Z;
  DomainDecisionTTLSeconds : Z;
  SubscriptionUpdateIntervalSecs : Z;
  TSPUListUpdateIntervalSeconds : Z;
  TSPUStalePolicy : string;
  MaxSubscriptionBytes : Z;
  MaxTSPUListBytes : Z;
  MaxProbeSeconds : Z;
  ParallelServerChecks : Z;
  GeoLockedUnknownCountryIsSafe : bool;
  GeoLockedAllowDirect : bool;
  GeoLockedAllowZapret : bool;
  DirectOnlyAllowForeignProxy : bool;
  DiscoveryMode : string;
  DiscoveryMaxNewRulesPerHour : Z;
  DiscoveryMaxConsecutiveRollbacks : Z
}.

Record Xray := mkXray {
  xr_Binary : string;
  xr_InitScript : string;
  xr_ActivationMode : string;
  xr_ConfigDir : string;
  xr_ActiveConfig : string;
  xr_LastGoodConfig : string;
  xr_GeneratedDir : string;
  xr_ProbeSocksBasePort : Z;
  xr_ProbeDNSResolver : string;
  xr_DNSProxyBasePort : Z;
  xr_TransparentPort : Z;
  xr_SubscriptionSecretFile : string;
  xr_OutboundBundleSHA256 : string
}.

Record ZapretProfileAssignment := mkZapretAssignment { za_BundleID : string; za_ProfileID : string }.
Record Zapret := mkZapret {
  z_Binary : string;
  z_ProviderSource : string;
  z_ProviderVersion : string;
  z_BinarySHA256 : string;
  z_InitScript : string;
  z_ActiveConfig : string;
  z_ActivationMode : string;
  z_Strategy : string;
  z_QueueNum : Z;
  z_AdaptiveEnabled : bool;
  z_AdaptiveCatalogFile : string;
  z_AdaptiveAssignments : list ZapretProfileAssignment;
  z_DeviceProfiles : list DeviceProfile
}.

Record GeoIPEndpoint := mkEndpoint { ge_Name : string; ge_Provider : string; ge_URL : string }.
Record GeoIP := mkGeoIP {
  g_Mode : string;
  g_Database : string;
  g_SourceURL : string;
  g_MaxDatabaseBytes : Z;
  g_MaxAgeHours : Z;
  g_FailCountry : string;
  g_Endpoints : list GeoIPEndpoint
}.

Record OpenWrt := Build_OpenWrt {
  OpenWrtAdapter : string;
  NFTTable : string;
  NFTFamily : string;
  FirewallInclude : string;
  DNSMasqInclude : string;
  WANRouteTable : Z;
  ZapretRouteTable : Z;
  XrayRouteTable : Z;
  DirectMark : string;
  ZapretMark : string;
  XrayMark : string;
  XrayTProxyMark : string;
  XrayBypassMark : string;
  DropMark : string;
  FlowOffloadingPolicy : string;
  ProbeTimeoutSeconds : Z;
  RollbackTimeoutSeconds : Z
}.

Record Route := Build_Route {
  r_Type : string;
  r_Tag : string;
  r_Priority : Z;
  r_Disabled : bool;
  r_Status : string;
  r_DNSServer : string;
  r_ConnectToResolvedIP : bool;
  r_SOCKS5 : string;
  r_HTTPProxy : string;
  r_DNSMode : string;
  r_ExternalIPProbe : bool;
  r_RequiresAdapter : bool;
  r_AdapterMode : string;
  r_Mark : string;
  r_ForbidProxy : bool
}.

Record ProbeCheck := Build_ProbeCheck {
  pc_Name : string;
  pc_URL : string;
  pc_Required : bool;
  pc_ExpectedCodes : list Z;
  pc_BodyMode : string;
  pc_SuccessMarkers : list string;
  pc_RegionalBlockMarkers : list string;
  pc_BlockMarkers : list string;
  pc_AllowUnauthenticated : bool
}.

Record Service := mkService {
  s_Category : string;
  s_ClassificationSeed : string;
  s_Domains : list string;
  s_AllowedPaths : list string;
  s_ForbiddenPaths : list string;
  s_SelectedRouteTag : string;
  s_RequireNonRUEgress : bool;
  s_ProbeURLs : list ProbeCheck
}.

Record PolicyOverride := mkOverride {
  o_ID : string;
  o_Scope : string;
  o_DeviceMAC : string;
  o_Domain : string;
  o_Service : string;
  o_Category : string;
  o_RouteType : string;
  o_RouteTag : string
}.

Record NotificationConfig := mkNotifications {
  n_TelegramSecretFile : string;
  n_HTTPSWebhookSecretFile : string;
  n_DedupeSeconds : Z
}.
Record TSPUSource := mkTSPUSource {
  ts_Name : string;
  ts_Type : string;
  ts_URL : string;
  ts_MinEntries : Z;
  ts_MaxDropRatio : spec_float
}.

Record Config := Build_Config {
  c_Version : Z;
  c_Platform : Platform;
  c_Storage : Storage;
  c_Policy : Policy;
  c_Xray : Xray;
  c_Zapret : Zapret;
  c_GeoIP : GeoIP;
  c_OpenWrt : OpenWrt;
  c_Routes : list Route;
  c_Services : gmap string Service;
  c_Overrides : list PolicyOverride;
  c_Notifications : NotificationConfig;
  c_TSPUSources : list TSPUSource
}.

(** Records with the fields named, the others zero. *)
Definition mkRoute (type tag : string) (priority : Z) (disabled : bool) (status dnsServer : string)
    (requiresAdapter : bool) (adapterMode : string) (forbidProxy : bool) : Route :=
  Build_Route type tag priority disabled status dnsServer false "" "" "" false requiresAdapter adapterMode "" forbidProxy.
Definition mkProbeCheck (name url : string) (required : bool) (codes : list Z) (bodyMode : string) : ProbeCheck :=
  Build_ProbeCheck name url required codes bodyMode [] [] [] false.
Definition mkPolicy (unknownFirst strategy : string) (hysteresis cooldown : Z) (weights : RouteSelectionWeights)
    (hold failAfter recoverAfter decisionTTL : Z) (stale : string) (geoDirect geoZapret : bool) (mode : string)
    (newRules rollbacks : Z) : Policy :=
  Build_Policy unknownFirst strategy hysteresis cooldown weights false hold failAfter recoverAfter 0 0 0 0 decisionTTL 0 0
    stale 0 0 0 0 false geoDirect geoZapret false mode newRules rollbacks.
Definition mkOpenWrt (direct zapret xray drop : string) (wanTable zapretTable xrayTable : Z) : OpenWrt :=
  Build_OpenWrt "" "" "" "" "" wanTable zapretTable xrayTable direct zapret xray "" "" drop "" 0 0.
Definition zero_Platform : Platform := mkPlatform "" false false "".
Definition zero_Storage : Storage := mkStorage "" "" "" 0 0 0 0 0 0 0 0 0 0.
Definition zero_Xray : Xray := mkXray "" "" "" "" "" "" "" 0 "" 0 0 "" "".
Definition zero_Zapret : Zapret := mkZapret "" "" "" "" "" "" "" "" 0 false "" [] [].
Definition zero_GeoIP : GeoIP := mkGeoIP "" "" "" 0 0 "" [].
Definition zero_Notifications : NotificationConfig := mkNotifications "" "" 0.
Definition mkConfig (policy : Policy) (openwrt : OpenWrt) (routes : list Route) (services : gmap string Service)
    (overrides : list PolicyOverride) : Config :=
  Build_Config 2 zero_Platform zero_Storage policy zero_Xray zero_Zapret zero_GeoIP openwrt routes services overrides
    zero_Notifications [].

(** [config.Route{}]. *)
Definition zero_Route : Route := mkRoute "" "" 0 false "" "" false "" false.

#[export] Instance eta_Config : Eta Config := fun c =>
  Build_Config (c_Version c) (c_Platform c) (c_Storage c) (c_Policy c) (c_Xray c) (c_Zapret c) (c_GeoIP c) (c_OpenWrt c)
    (c_Routes c) (c_Services c) (c_Overrides c) (c_Notifications c) (c_TSPUSources c).
Definition set_c_Services (v : gmap string Service) (c : Config) : Config := ltac:(assign c c_Services v).
Definition set_c_Overrides (v : list PolicyOverride) (c : Config) : Config := ltac:(assign c c_Overrides v).

#[export] Instance eta_Service : Eta Service := fun s =>
  mkService (s_Category s) (s_ClassificationSeed s) (s_Domains s) (s_AllowedPaths s)
    (s_ForbiddenPaths s) (s_SelectedRouteTag s) (s_RequireNonRUEgress s) (s_ProbeURLs s).
Definition set_s_Domains (v : list string) (s : Service) : Service := ltac:(assign s s_Domains v).
Definition set_s_Category (v : string) (s : Service) : Service := ltac:(assign s s_Category v).
Definition set_s_AllowedPaths (v : list string) (s : Service) : Service := ltac:(assign s s_AllowedPaths v).
Definition set_s_ForbiddenPaths (v : list string) (s : Service) : Service := ltac:(assign s s_ForbiddenPaths v).
Definition set_s_RequireNonRUEgress (v : bool) (s : Service) : Service :=
  ltac:(assign s s_RequireNonRUEgress v).

#[export] Instance eta_Override : Eta PolicyOverride := fun o =>
  mkOverride (o_ID o) (o_Scope o) (o_DeviceMAC o) (o_Domain o) (o_Service o) (o_Category o)
    (o_RouteType o) (o_RouteTag o).
Definition set_o_DeviceMAC (v : string) (o : PolicyOverride) : PolicyOverride := ltac:(assign o o_DeviceMAC v).
Definition set_o_Domain (v : string) (o : PolicyOverride) : PolicyOverride := ltac:(assign o o_Domain v).

(** ** Effective policy values *)

Definition EffectiveDiscoveryMode (p : Policy) : string :=
  if DiscoveryMode p =s "" then "observe_only" else DiscoveryMode p.
Definition EffectiveDiscoveryMaxNewRulesPerHour (p : Policy) : Z :=
  if DiscoveryMaxNewRulesPerHour p <=? 0 then 4 else DiscoveryMaxNewRulesPerHour p.
Definition EffectiveDiscoveryMaxConsecutiveRollbacks (p : Policy) : Z :=
  if DiscoveryMaxConsecutiveRollbacks p <=? 0 then 3 else DiscoveryMaxConsecutiveRollbacks p.

(** ** Routes *)

Definition Enabled (r : Route) : bool :=
  if r_Disabled r || (r_Status r =s "NOT_CONFIGURED") then false
  else if (r_Type r =s "smart_dns") && ((r_DNSServer r =s "") || S.Contains (r_DNSServer r) "PLACEHOLDER")
  then false
  else true.

(** [RouteByTag] returns [(Route, bool)]: [None] for [(Route{}, false)]. *)
Definition RouteByTag (c : Config) (tag : string) : option Route :=
  first (fun r => r_Tag r =s tag) (c_Routes c).

Definition RoutesByType (c : Config) (routeType : string) : list Route :=
  List.filter (fun r => (r_Type r =s routeType) && Enabled r) (c_Routes c).

Definition validRouteType (routeType : string) : bool :=
  containsString ["direct"; "zapret"; "smart_dns"; "external_socks"; "tg_ws_proxy"; "vless"; "drop"] routeType.

Definition validServiceCategory (category : string) : bool :=
  containsString ["GEO_LOCKED"; "TSPU_RESTRICTED"; "TELEGRAM"; "DIRECT_ONLY"; "DIRECT_PREFERRED"; "BLOCKED"] category.

Definition markForRouteType (c : Config) (routeType : string) : string :=
  if containsString ["direct"; "smart_dns"] routeType then DirectMark (c_OpenWrt c)
  else if routeType =s "zapret" then ZapretMark (c_OpenWrt c)
  else if containsString ["vless"; "external_socks"; "tg_ws_proxy"] routeType then XrayMark (c_OpenWrt c)
  else if routeType =s "drop" then DropMark (c_OpenWrt c)
  else "".

Definition tableForRouteType (c : Config) (routeType : string) : Z :=
  if containsString ["direct"; "smart_dns"] routeType then WANRouteTable (c_OpenWrt c)
  else if routeType =s "zapret" then ZapretRouteTable (c_OpenWrt c)
  else if containsString ["vless"; "external_socks"; "tg_ws_proxy"] routeType then XrayRouteTable (c_OpenWrt c)
  else 0.

(** ** Route eligibility *)

Definition PathAllowed (svc : Service) (route : Route) (policy : Policy) : bool :=
  if (s_Category svc =s "TSPU_RESTRICTED") && (r_Type route =s "direct") then false
  else if (s_Category svc =s "GEO_LOCKED") && (r_Type route =s "direct") && negb (GeoLockedAllowDirect policy)
  then false
  else if (s_Category svc =s "GEO_LOCKED") && (r_Type route =s "zapret") && negb (GeoLockedAllowZapret policy)
  then false
  else if (s_Category svc =s "DIRECT_ONLY") && (r_Type route <>s "direct") then false
  else if any (fun f => f =s r_Type route) (s_ForbiddenPaths svc) then false
  else any (fun a => a =s r_Type route) (s_AllowedPaths svc).

(** ** Services by domain

    Go iterates over the [Services] map in an unspecified order: the functions
    take the order of this iteration, a permutation of the map's entries. *)

Definition domainMatches (domain : string) (svc : Service) : bool :=
  any (fun d => let d := S.TrimSuffix (S.ToLower d) "." in
                (domain =s d) || S.HasSuffix domain ("." +:+ d)) (s_Domains svc).

Definition ServiceForDomain (order : list (string * Service)) (domain : string) : string :=
  let domain := S.TrimSuffix (S.ToLower domain) "." in
  match first (fun entry => domainMatches domain entry.2) order with
  | Some entry => entry.1
  | None => ""
  end.

(** ** Domain names and hardware addresses *)

(** [^[A-Za-z0-9][A-Za-z0-9._-]{0,95}$] *)
Definition routeTagPattern (s : string) : bool :=
  let alnum c := S.lower_letter c || S.upper_letter c || S.digit c in
  match s with
  | EmptyString => false
  | String c rest =>
      alnum c && (S.len rest <=? 95) &&
      S.all_bytes (fun c => alnum c || S.is_byte 46 c || S.is_byte 95 c || S.is_byte 45 c) rest
  end.

Definition parseIPv4 (s : string) : bool := match IP.parseIPv4 s with Some _ => true | None => false end.

Definition domainLabel (label : string) : bool :=
  negb ((label =s "") || (63 <? S.len label) || S.byte_is (S.first_byte label) 45
        || S.byte_is (S.last_byte label) 45) &&
  S.all_bytes (fun c => S.lower_letter c || S.digit c || S.is_byte 45 c) label.

(** [normalizeDomain]: [None] for any error.  [toASCII] is
    [idna.Lookup.ToASCII].  [net.ParseIP] also accepts IPv6 literals, which
    hold a colon and fail the character check below in any case. *)
Definition normalizeDomain (toASCII : string -> option string) (domain : string) : option string :=
  let domain := S.TrimSpace (S.TrimSuffix domain ".") in
  ascii ← toASCII domain;
  let ascii := S.ToLower (S.TrimSuffix ascii ".") in
  if S.is_empty ascii || (253 <? S.len ascii) || parseIPv4 ascii || S.Contains ascii "*" then None
  else
    let labels := S.Split ascii S.dot in
    if Nat.ltb (length labels) 2 then None
    else if forallb domainLabel labels then Some ascii
    else None.

(** ** Manual overrides *)

(** The selector an override claims; [None] when its fields do not fit its
    scope. *)
Definition validateOverrideSelector (o : PolicyOverride) (services : gmap string Service) : option string :=
  let blank s := S.is_empty s in
  if o_Scope o =s "exact_domain" then
    if blank (o_Domain o) || negb (blank (o_DeviceMAC o)) || negb (blank (o_Service o)) || negb (blank (o_Category o)) then None
    else Some (o_Scope o +:+ ":" +:+ o_Domain o)
  else if o_Scope o =s "device_domain" then
    if blank (o_DeviceMAC o) || blank (o_Domain o) || negb (blank (o_Service o)) || negb (blank (o_Category o)) then None
    else Some (o_Scope o +:+ ":" +:+ o_DeviceMAC o +:+ ":" +:+ o_Domain o)
  else if o_Scope o =s "device_service" then
    if blank (o_DeviceMAC o) || blank (o_Service o) || negb (blank (o_Domain o)) || negb (blank (o_Category o)) then None
    else match services !! o_Service o with
         | None => None
         | Some _ => Some (o_Scope o +:+ ":" +:+ o_DeviceMAC o +:+ ":" +:+ o_Service o)
         end
  else if o_Scope o =s "service" then
    if blank (o_Service o) || negb (blank (o_DeviceMAC o)) || negb (blank (o_Domain o)) || negb (blank (o_Category o)) then None
    else match services !! o_Service o with
         | None => None
         | Some _ => Some (o_Scope o +:+ ":" +:+ o_Service o)
         end
  else if o_Scope o =s "category" then
    if negb (validServiceCategory (o_Category o)) || negb (blank (o_DeviceMAC o)) || negb (blank (o_Domain o))
       || negb (blank (o_Service o)) then None
    else Some (o_Scope o +:+ ":" +:+ o_Category o)
  else None.

Definition zero_Service : Service := mkService "" "" [] [] [] "" false [].

(** [c.Services[name]]. *)
Definition serviceAt (services : gmap string Service) (name : string) : Service :=
  default zero_Service (services !! name).

Definition overrideViolates (policy : Policy) (targetType : string) (service : Service) : bool :=
  (s_Category service =s "DIRECT_ONLY") && (targetType <>s "direct")
  || (s_Category service =s "BLOCKED") && (targetType <>s "drop")
  || (s_Category service =s "GEO_LOCKED") &&
     ((targetType =s "direct") && negb (GeoLockedAllowDirect policy)
      || (targetType =s "zapret") && negb (GeoLockedAllowZapret policy)).

Definition validateOverrideSafety (order : list (string * Service)) (c : Config)
    (o : PolicyOverride) (targetType : string) : bool :=
  let affected :=
    if containsString ["exact_domain"; "device_domain"] (o_Scope o) then
      let name := ServiceForDomain order (o_Domain o) in
      if S.is_empty name then [] else [serviceAt (c_Services c) name]
    else if containsString ["device_service"; "service"] (o_Scope o) then
      [serviceAt (c_Services c) (o_Service o)]
    else if o_Scope o =s "category" then
      List.filter (fun s => s_Category s =s o_Category o) (map snd order)
    else [] in
  negb (any (overrideViolates (c_Policy c) targetType) affected).

(** One iteration of [validateOverrides] on the sets of seen ids and selectors:
    the normalised override, or [None] for the error return. *)
Section Overrides.
Context (toASCII : string -> option string) (order : list (string * Service)).

Definition normalizeOverride (o : PolicyOverride) : option PolicyOverride :=
  o ← (if S.is_empty (o_Domain o) then Some o
       else n ← normalizeDomain toASCII (o_Domain o); Some (set_o_Domain n o));
  if S.is_empty (o_DeviceMAC o) then Some o
  else n ← parseMAC6 (o_DeviceMAC o); Some (set_o_DeviceMAC n o).

Definition overrideTarget (c : Config) (o : PolicyOverride) : option string :=
  if S.is_empty (o_RouteTag o) then Some (o_RouteType o)
  else
    route ← RouteByTag c (o_RouteTag o);
    if negb (Enabled route) then None
    else if negb (S.is_empty (o_RouteType o)) && (o_RouteType o <>s r_Type route) then None
    else Some (r_Type route).

Definition validateOverride (c : Config) (seenIDs seenSelectors : gset string) (o : PolicyOverride)
    : option (PolicyOverride * gset string * gset string) :=
  if negb (routeTagPattern (o_ID o)) || bool_decide (o_ID o ∈ seenIDs) then None
  else
    let seenIDs := {[o_ID o]} ∪ seenIDs in
    o ← normalizeOverride o;
    selector ← validateOverrideSelector o (c_Services c);
    if bool_decide (selector ∈ seenSelectors) then None
    else
      let seenSelectors := {[selector]} ∪ seenSelectors in
      targetType ← overrideTarget c o;
      if negb (validRouteType targetType) then None
      else if S.is_empty (o_RouteTag o)
              && negb (any (fun r => Enabled r && (r_Type r =s targetType)) (c_Routes c)) then None
      else if negb (validateOverrideSafety order c o targetType) then None
      else Some (o, seenIDs, seenSelectors).

Fixpoint validateOverrides_go (c : Config) (seenIDs seenSelectors : gset string)
    (l : list PolicyOverride) : option (list PolicyOverride) :=
  match l with
  | [] => Some []
  | o :: rest =>
      '(o', ids, sels) ← validateOverride c seenIDs seenSelectors o;
      rest' ← validateOverrides_go c ids sels rest;
      Some (o' :: rest')
  end.

(** [validateOverrides]: the overrides it writes back, or [None] for an error. *)
Definition validateOverrides (c : Config) : option (list PolicyOverride) :=
  validateOverrides_go c ∅ ∅ (c_Overrides c).
End Overrides.
