(* ===== verification/Tspu.v ===== *)
(** * The TSPU domain list

    [internal/tspu/tspu.go]: normalisation of domain names and patterns, the
    registrable base of a domain, the merge of the sources into a cache and the
    lookup of a domain in it.  Fetching, file formats and the cache digest are
    not modelled. *)
From Stdlib Require Import ZArith Lia SpecFloat.
From stdpp Require Import base list strings gmap.
From S2P Require Import Prelude Float64 Net Config.

Open Scope Z_scope.

Record Entry := mkEntry {
  e_Domain : string;
  e_MatchType : string;
  e_Source : string;
  e_Provenance : list string;
  e_Confidence : spec_float;
  e_FirstSeen : time;
  e_LastSeen : time;
  e_ExpiresAt : time
}.
Definition zero_Entry : Entry := mkEntry "" "" "" [] F.zero T.zero T.zero T.zero.

Record SourceReport := mkReport {
  sr_Name : string;
  sr_Accepted : bool;
  sr_Fresh : bool;
  sr_RetainedPrevious : bool;
  sr_Confidence : spec_float
}.

Record Cache := mkCache {
  ca_GeneratedAt : time;
  ca_ExpiresAt : time;
  ca_FreshSources : Z;
  ca_Sources : list SourceReport;
  ca_Entries : gmap string Entry
}.

Record Match := mkMatch {
  m_Domain : string;
  m_Matched : string;
  m_MatchType : string;
  m_Source : string;
  m_Provenance : list string;
  m_Confidence : spec_float;
  m_Expired : bool;
  m_Status : string;
  m_Evidence : string
}.
Definition zero_Match : Match := mkMatch "" "" "" "" [] F.zero false "" "".

#[export] Instance eta_Entry : Eta Entry := fun e =>
  mkEntry (e_Domain e) (e_MatchType e) (e_Source e) (e_Provenance e) (e_Confidence e)
    (e_FirstSeen e) (e_LastSeen e) (e_ExpiresAt e).
Definition set_e_Source v (e : Entry) : Entry := ltac:(assign e e_Source v).
Definition set_e_Provenance v (e : Entry) : Entry := ltac:(assign e e_Provenance v).
Definition set_e_Confidence v (e : Entry) : Entry := ltac:(assign e e_Confidence v).
#[export] Instance eta_Cache : Eta Cache := fun c =>
  mkCache (ca_GeneratedAt c) (ca_ExpiresAt c) (ca_FreshSources c) (ca_Sources c) (ca_Entries c).
Definition set_ca_FreshSources v (c : Cache) : Cache := ltac:(assign c ca_FreshSources v).
Definition set_ca_Entries v (c : Cache) : Cache := ltac:(assign c ca_Entries v).
#[export] Instance eta_Report : Eta SourceReport := fun r =>
  mkReport (sr_Name r) (sr_Accepted r) (sr_Fresh r) (sr_RetainedPrevious r) (sr_Confidence r).
Definition set_sr_Fresh v (r : SourceReport) : SourceReport := ltac:(assign r sr_Fresh v).
Definition set_sr_RetainedPrevious v (r : SourceReport) : SourceReport := ltac:(assign r sr_RetainedPrevious v).

(** [sort.Strings]. *)
Definition sortStrings : list string -> list string := gosort (key_slt id).

(** [uniqueStrings]: the non-empty values, each at its first position. *)
Definition uniqueStrings (values : list string) : list string :=
  (foldl (fun '(seen, result) value =>
            if negb (value =s "") && negb (bool_decide (value ∈ seen))
            then ({[value]} ∪ seen, result ++ [value]) else (seen, result))
     ((∅ : gset string), []) values).2.

Definition appendUnique (values : list string) (value : string) : list string :=
  if containsString values value then values else values ++ [value].

Definition retainPrevious (report : SourceReport) (domains : list string)
    (bySource : gmap string (list string)) : SourceReport * gmap string (list string) :=
  match domains with
  | [] => (report, bySource)
  | _ => (set_sr_Fresh false (set_sr_RetainedPrevious true report), <[sr_Name report := domains]> bySource)
  end.

Definition domainsForSource (previous : option Cache) (source : string) : list string :=
  match previous with
  | None => []
  | Some c =>
      if source =s "" then []
      else sortStrings (map fst (List.filter (fun kv =>
             containsString (e_Provenance kv.2) source || (e_Source kv.2 =s source))
             (map_to_list (ca_Entries c))))
  end.

(** [entry] is the same in both caches up to its timestamps. *)
Definition sameEntry (a b : Entry) : bool :=
  (e_Domain a =s e_Domain b) && (e_MatchType a =s e_MatchType b) && (e_Source a =s e_Source b)
  && F.eqb (e_Confidence a) (e_Confidence b) && bool_decide (e_Provenance a = e_Provenance b).
Definition equivalentEntrySet (current candidate : Cache) : bool :=
  Nat.eqb (size (ca_Entries current)) (size (ca_Entries candidate)) &&
  forallb (fun kv => match ca_Entries candidate !! kv.1 with
                     | Some e => sameEntry kv.2 e
                     | None => false
                     end) (map_to_list (ca_Entries current)).

Definition validSourceName (value : string) : bool :=
  negb (S.is_empty value || (64 <? S.len value)) &&
  S.all_bytes (fun c => S.lower_letter c || S.upper_letter c || S.digit c || S.is_byte 45 c || S.is_byte 95 c) value.

Section Tspu.
(** [idna.Lookup.ToASCII] and [publicsuffix.EffectiveTLDPlusOne] of
    [golang.org/x/net]; [None] for an error. *)
Context (toASCII : string -> option string) (effectiveTLDPlusOne : string -> option string).

(** [NormalizeDomain]: [None] for any error. *)
Definition NormalizeDomain (domain : string) : option string :=
  let domain := S.TrimSpace (S.TrimSuffix domain ".") in
  if S.is_empty domain || S.Contains domain "*" then None
  else
    ascii ← toASCII domain;
    let ascii := S.ToLower (S.TrimSuffix ascii ".") in
    if S.is_empty ascii || (253 <? S.len ascii) || parseIPv4 ascii then None
    else
      let labels := S.Split ascii S.dot in
      if Nat.ltb (length labels) 2 then None
      else if forallb domainLabel labels then Some ascii
      else None.

Definition ETLDPlusOne (domain : string) : string :=
  match NormalizeDomain domain with
  | None => ""
  | Some domain => default domain (effectiveTLDPlusOne domain)
  end.

(** [normalizePattern]: the pattern and its match type. *)
Definition normalizePattern (value : string) : option (string * string) :=
  let value := S.TrimSpace value in
  let wildcard := S.HasPrefix value "*." in
  let value := if wildcard then String.substring 2 (String.length value - 2) value else value in
  if S.Contains value "*" then None
  else
    domain ← NormalizeDomain value;
    Some (if wildcard then ("*." +:+ domain, "wildcard") else (domain, "suffix")).

(** The body of the loop over the patterns of one accepted report. *)
Definition addPattern (now : time) (report : SourceReport) (cache : Cache) (pattern : string) : Cache :=
  match normalizePattern pattern with
  | None => cache
  | Some (domain, matchType) =>
      let entry := default zero_Entry (ca_Entries cache !! domain) in
      let entry := if e_Domain entry =s ""
                   then mkEntry domain matchType "" [] (sr_Confidence report) now now (ca_ExpiresAt cache)
                   else entry in
      let entry := set_e_Provenance (sortStrings (appendUnique (e_Provenance entry) (sr_Name report))) entry in
      let entry := set_e_Source (default "" (hd_error (e_Provenance entry))) entry in
      let entry := if F.ltb (e_Confidence entry) (sr_Confidence report)
                   then set_e_Confidence (sr_Confidence report) entry else entry in
      set_ca_Entries (<[domain := entry]> (ca_Entries cache)) cache
  end.

Definition addReport (now : time) (bySource : gmap string (list string)) (cache : Cache)
    (report : SourceReport) : Cache :=
  if negb (sr_Accepted report) && negb (sr_RetainedPrevious report) then cache
  else
    let cache := if sr_Fresh report then set_ca_FreshSources (ca_FreshSources cache + 1) cache else cache in
    foldl (addPattern now report) cache (default [] (bySource !! sr_Name report)).

(** [finalizeCache], without the digest. *)
Definition finalizeEntry (entry : Entry) : Entry :=
  let entry := set_e_Provenance (sortStrings (uniqueStrings (e_Provenance entry))) entry in
  match e_Provenance entry with
  | p :: _ => if e_Source entry =s "" then set_e_Source p entry else entry
  | [] => entry
  end.
Definition finalizeCache (cache : Cache) : Cache :=
  set_ca_Entries (finalizeEntry <$> ca_Entries cache) cache.

Definition BuildCache (now : time) (ttl : duration) (reports : list SourceReport)
    (bySource : gmap string (list string)) : Cache :=
  let ttl := if ttl <=? 0 then 6 * hour else ttl in
  finalizeCache (foldl (addReport now bySource) (mkCache now (T.Add now ttl) 0 reports ∅) reports).

Definition matchForEntry (cache : Cache) (domain matched : string) (entry : Entry) (now : time) : Match :=
  let expires := if T.IsZero (e_ExpiresAt entry) then ca_ExpiresAt cache else e_ExpiresAt entry in
  let expired := negb (T.IsZero expires) && negb (T.Before now expires) in
  mkMatch domain matched (e_MatchType entry) (e_Source entry) (e_Provenance entry) (e_Confidence entry)
    expired (if expired then "STALE_MATCH" else "MATCH")
    (if expired then "tspu_cache_stale_match" else "tspu_cache_match").

(** The loop of [Find] over the suffixes [parts[i:]]; [i > 0] is [strict]. *)
Fixpoint findIn (cache : Cache) (domain : string) (now : time) (strict : bool) (parts : list string)
    : option Match :=
  match parts with
  | [] | [_] => None
  | _ :: rest =>
      let candidate := S.Join parts "." in
      let next := findIn cache domain now true rest in
      let wildcard :=
        if strict then
          match ca_Entries cache !! ("*." +:+ candidate) with
          | Some entry =>
              if e_MatchType entry =s "wildcard"
              then Some (matchForEntry cache domain ("*." +:+ candidate) entry now) else next
          | None => next
          end
        else next in
      match ca_Entries cache !! candidate with
      | Some entry =>
          if e_MatchType entry <>s "wildcard"
          then Some (matchForEntry cache domain candidate entry now) else wildcard
      | None => wildcard
      end
  end.

Definition Find (cache : Cache) (domain : string) (now : time) : option Match :=
  domain ← NormalizeDomain domain;
  findIn cache domain now false (S.Split domain S.dot).
End Tspu.

(** ** Lookup: which patterns cover a domain *)

(** A suffix pattern with base [b] covers [b] and its subdomains, a wildcard
    pattern [*.b] the strict subdomains of [b]. *)
Definition covers_base (pattern : string) (e : Entry) (base : string) (strict : bool) : Prop :=
  if e_MatchType e =s "wildcard" then pattern = "*." +:+ base /\ strict = true
  else pattern = base.
Definition covers (pattern : string) (e : Entry) (base domain : string) : Prop :=
  (covers_base pattern e base false /\ domain = base) \/
  (covers_base pattern e base true /\ exists x, domain = x +:+ "." +:+ base).

Section FindCorrect.
Context (toASCII : string -> option string).

Lemma NormalizeDomain_labels d d' :
  NormalizeDomain toASCII d = Some d' -> (2 <= length (S.Split d' S.dot))%nat.
Proof.
  unfold NormalizeDomain. repeat case_match; try done.
  destruct (toASCII _) as [a|]; simpl; [|done]. repeat case_match; try done.
  intros [= <-]. apply Nat.ltb_ge. done.
Qed.

(** What [decodeCache] checks of every entry. *)
Definition wf_entries (entries : gmap string Entry) : Prop :=
  forall p e, entries !! p = Some e -> normalizePattern toASCII p = Some (p, e_MatchType e).

Lemma wf_base entries p e base strict :
  wf_entries entries -> entries !! p = Some e -> covers_base p e base strict ->
  (2 <= length (S.Split base S.dot))%nat.
Proof.
  intros Hwf Hp Hb. apply Hwf in Hp. unfold normalizePattern in Hp.
  destruct (S.Contains _ "*"); [done|].
  destruct (NormalizeDomain toASCII _) as [d|] eqn:Ed; [|done]. simpl in Hp.
  apply NormalizeDomain_labels in Ed. unfold covers_base in Hb.
  destruct (S.HasPrefix _ "*."); injection Hp as Hp1 Hp2.
  - rewrite <- Hp2, String.eqb_refl in Hb. destruct Hb as [Hb _]. rewrite Hb in Hp1.
    apply (str_app_inj_l "*.") in Hp1. by subst.
  - rewrite <- Hp2 in Hb. simpl in Hb. by subst.
Qed.

Section Hit.
Context (cache : Cache) (domain : string) (now : time).

Definition covered (strict : bool) (base p : string) : Prop :=
  exists e, ca_Entries cache !! p = Some e /\ covers_base p e base strict.

(** [m] is the entry of a pattern covering the suffix [parts[i:]], and no
    pattern covers a longer one. *)
Definition hit (strict : bool) (parts : list string) (m : Match) : Prop :=
  exists p e i, ca_Entries cache !! p = Some e /\ m = matchForEntry cache domain p e now /\
    (i < length parts)%nat /\
    covers_base p e (S.Join (drop i parts) ".") (strict || negb (Nat.eqb i 0)) /\
    forall p' j, (j < i)%nat -> ~ covered (strict || negb (Nat.eqb j 0)) (S.Join (drop j parts) ".") p'.

Lemma hit_here strict h rest p e :
  ca_Entries cache !! p = Some e -> covers_base p e (S.Join (h :: rest) ".") strict ->
  hit strict (h :: rest) (matchForEntry cache domain p e now).
Proof.
  intros Hp Hc. exists p, e, 0%nat. rewrite orb_false_r. repeat split; try done; simpl; [lia|].
  intros; lia.
Qed.

Lemma hit_next strict h rest m :
  (forall p, ~ covered strict (S.Join (h :: rest) ".") p) ->
  hit true rest m -> hit strict (h :: rest) m.
Proof.
  intros Hno (p & e & i & Hp & -> & Hi & Hc & Hmin). exists p, e, (S i).
  rewrite orb_true_r. repeat split; try done; simpl in *; [lia|].
  intros p' [|j] Hj; simpl; [rewrite orb_false_r; apply Hno|].
  rewrite orb_true_r. apply (Hmin p' j). lia.
Qed.

(** The two lookups [findIn] makes for a candidate suffix. *)
Definition lookupSuffix (cand : string) : option Entry :=
  e ← ca_Entries cache !! cand; if e_MatchType e <>s "wildcard" then Some e else None.
Definition lookupWildcard (strict : bool) (cand : string) : option Entry :=
  if strict then
    e ← ca_Entries cache !! ("*." +:+ cand); if e_MatchType e =s "wildcard" then Some e else None
  else None.

Lemma findIn_step strict h h' t :
  findIn cache domain now strict (h :: h' :: t) =
  let cand := S.Join (h :: h' :: t) "." in
  match lookupSuffix cand with
  | Some e => Some (matchForEntry cache domain cand e now)
  | None => match lookupWildcard strict cand with
            | Some e => Some (matchForEntry cache domain ("*." +:+ cand) e now)
            | None => findIn cache domain now true (h' :: t)
            end
  end.
Proof.
  unfold lookupSuffix, lookupWildcard. cbv zeta.
  change (findIn cache domain now strict (h :: h' :: t)) with
    (let cand := S.Join (h :: h' :: t) "." in
     let next := findIn cache domain now true (h' :: t) in
     let wildcard := if strict then
         match ca_Entries cache !! ("*." +:+ cand) with
         | Some e => if e_MatchType e =s "wildcard"
             then Some (matchForEntry cache domain ("*." +:+ cand) e now) else next
         | None => next end else next in
     match ca_Entries cache !! cand with
     | Some e => if e_MatchType e <>s "wildcard"
         then Some (matchForEntry cache domain cand e now) else wildcard
     | None => wildcard end).
  cbv zeta. generalize (S.Join (h :: h' :: t) "."). intros cand.
  generalize (findIn cache domain now true (h' :: t)). intros next.
  destruct (ca_Entries cache !! cand) as [e|]; simpl; [destruct (e_MatchType e <>s _); [done|]|];
    (destruct strict; [|done]);
    (destruct (ca_Entries cache !! _) as [e'|]; simpl; [destruct (e_MatchType e' =s _); done|done]).
Qed.

Lemma lookups_covered strict cand p :
  covered strict cand p ->
  (exists e, lookupSuffix cand = Some e) \/ (exists e, lookupWildcard strict cand = Some e).
Proof.
  intros (e & Hp & Hc). unfold covers_base in Hc. unfold lookupSuffix, lookupWildcard.
  destruct (e_MatchType e =s "wildcard") eqn:Et.
  - destruct Hc as [-> ->]. right. exists e. rewrite Hp. simpl. by rewrite Et.
  - subst p. left. exists e. rewrite Hp. simpl. by rewrite Et.
Qed.

Lemma lookupSuffix_Some cand e strict : lookupSuffix cand = Some e ->
  ca_Entries cache !! cand = Some e /\ covers_base cand e cand strict.
Proof.
  unfold lookupSuffix, covers_base. destruct (ca_Entries cache !! cand) as [e'|]; simpl; [|done].
  destruct (e_MatchType e' =s "wildcard") eqn:Et; simpl; [done|]. intros [= <-]. by rewrite Et.
Qed.
Lemma lookupWildcard_Some cand e strict : lookupWildcard strict cand = Some e ->
  ca_Entries cache !! ("*." +:+ cand) = Some e /\ covers_base ("*." +:+ cand) e cand strict.
Proof.
  unfold lookupWildcard, covers_base. destruct strict; [|done].
  destruct (ca_Entries cache !! _) as [e'|]; simpl; [|done].
  destruct (e_MatchType e' =s "wildcard") eqn:Et; simpl; [|done]. intros [= <-]. by rewrite Et.
Qed.

Lemma findIn_sound strict parts m : findIn cache domain now strict parts = Some m -> hit strict parts m.
Proof.
  revert strict; induction parts as [|h [|h' t] IH]; intros strict; [done|done|].
  rewrite findIn_step. cbv zeta.
  destruct (lookupSuffix _) as [e|] eqn:E1.
  { intros [= <-]. destruct (lookupSuffix_Some _ _ strict E1). by apply hit_here. }
  destruct (lookupWildcard _ _) as [e|] eqn:E2.
  { intros [= <-]. destruct (lookupWildcard_Some _ _ _ E2). by apply hit_here. }
  intros Hf. apply hit_next; [|by apply IH].
  intros p Hc%lookups_covered. rewrite E1, E2 in Hc. by destruct Hc as [[? ?]|[? ?]].
Qed.

Lemma findIn_complete strict parts i p :
  (S i < length parts)%nat ->
  covered (strict || negb (Nat.eqb i 0)) (S.Join (drop i parts) ".") p ->
  is_Some (findIn cache domain now strict parts).
Proof.
  revert strict i; induction parts as [|h [|h' t] IH]; intros strict i Hi Hc; simpl in Hi; [lia..|].
  rewrite findIn_step. cbv zeta.
  destruct (lookupSuffix _) as [e|] eqn:E1; [done|].
  destruct (lookupWildcard _ _) as [e|] eqn:E2; [done|].
  destruct i as [|i].
  - rewrite orb_false_r in Hc. apply lookups_covered in Hc. simpl drop in Hc.
    rewrite E1, E2 in Hc. by destruct Hc as [[? ?]|[? ?]].
  - apply (IH true i); [simpl; lia|]. rewrite orb_true_r in Hc. done.
Qed.

Lemma covers_index p e base d :
  covers p e base d <-> exists i, (i < length (S.Split d S.dot))%nat /\
    base = S.Join (drop i (S.Split d S.dot)) "." /\ covers_base p e base (negb (Nat.eqb i 0)).
Proof.
  split.
  - intros [[Hc ->]|[Hc (x & ->)]].
    + exists 0%nat. rewrite drop_0. split; [|by rewrite (Join_Split S.dot)].
      pose proof (Split_nonempty S.dot base). destruct (S.Split base S.dot); simpl; [done|lia].
    + change ("." +:+ base) with (String S.dot base). rewrite Split_app.
      exists (length (S.Split x S.dot)). rewrite drop_app_length, length_app, (Join_Split S.dot).
      pose proof (Split_nonempty S.dot base). pose proof (Split_nonempty S.dot x).
      destruct (S.Split base S.dot), (S.Split x S.dot); simpl; done || (split; [lia|done]).
  - intros (i & Hi & -> & Hc). destruct i as [|i].
    + left. split; [done|]. rewrite drop_0. by rewrite (Join_Split S.dot).
    + right. split; [done|]. exists (S.Join (take (S i) (S.Split d S.dot)) ".").
      change ("." +:+ ?b) with (String S.dot b).
      rewrite <- (Join_app S.dot), take_drop.
      * by rewrite (Join_Split S.dot).
      * destruct (S.Split d S.dot); simpl in *; [lia|done].
      * intros Hd. apply (f_equal length) in Hd. rewrite length_drop in Hd. simpl in Hd. lia.
Qed.

(** The last label holds no dot. *)
Lemma Split_no_sep h s : h ∈ S.Split s S.dot -> S.Split h S.dot = [h].
Proof.
  revert h; induction s as [|c s IH]; intros h.
  - unfold S.Split. simpl. intros ->%list_elem_of_singleton. done.
  - destruct (Ascii.eqb c S.dot) eqn:E.
    + apply Ascii.eqb_eq in E as ->. rewrite Split_sep. intros [->|?]%elem_of_cons; [done|auto].
    + rewrite Split_cons by done. pose proof (Split_nonempty S.dot s) as Hne.
      destruct (S.Split s S.dot) as [|h' t] eqn:Es; [done|]. simpl.
      intros [->|?]%elem_of_cons; [|apply IH; by right].
      rewrite Split_cons by done. rewrite (IH h') by left. done.
Qed.

Lemma Join_drop_length (l : list string) i j : (i <= j)%nat -> (j < length l)%nat ->
  (String.length (S.Join (drop j l) ".") <= String.length (S.Join (drop i l) "."))%nat.
Proof.
  intros Hij Hj. replace (drop j l) with (drop (j - i) (drop i l)) by (rewrite drop_drop; f_equal; lia).
  assert (Hlen : (j - i < length (drop i l))%nat) by (rewrite length_drop; lia).
  revert Hlen. generalize (drop i l), (j - i)%nat. clear. intros l.
  induction l as [|h l IH]; intros [|n] Hn; simpl in Hn; [lia|lia|done|]. simpl drop.
  etransitivity; [apply IH; lia|]. destruct l as [|h' l]; [simpl in Hn; lia|].
  change (S.Join (h :: h' :: l) ".") with (h +:+ (String S.dot (S.Join (h' :: l) "."))).
  rewrite str_length_app. simpl. lia.
Qed.
End Hit.

(** C40: [Find] implements the matching rule of the list.  On a cache whose
    entries passed the load-time check, it returns a match exactly when some
    pattern covers the normalised domain, and the pattern it reports is one of
    those with the longest base (the most specific). *)
Theorem Find_most_specific cache domain d now :
  wf_entries (ca_Entries cache) ->
  NormalizeDomain toASCII domain = Some d ->
  match Find toASCII cache domain now with
  | Some m => exists p e base,
      ca_Entries cache !! p = Some e /\ m = matchForEntry cache d p e now /\ covers p e base d /\
      forall p' e' base', ca_Entries cache !! p' = Some e' -> covers p' e' base' d ->
        (String.length base' <= String.length base)%nat
  | None => forall p e base, ca_Entries cache !! p = Some e -> ~ covers p e base d
  end.
Proof.
  intros Hwf Hd. unfold Find. rewrite Hd. simpl.
  destruct (findIn cache d now false (S.Split d S.dot)) as [m|] eqn:Ef.
  - destruct (findIn_sound _ _ _ _ _ _ Ef) as (p & e & i & Hp & -> & Hi & Hc & Hmin).
    exists p, e, (S.Join (drop i (S.Split d S.dot)) "."). repeat split; try done.
    + apply covers_index. eauto.
    + intros p' e' base' Hp' (j & Hj & -> & Hc')%covers_index.
      destruct (decide (j < i)%nat) as [Hlt|Hge].
      * exfalso. apply (Hmin p' j Hlt). by exists e'.
      * apply Join_drop_length; lia.
  - intros p e base Hp Hcov. pose proof Hcov as Hb. apply covers_index in Hcov as (i & Hi & -> & Hc).
    assert (H2 : (2 <= length (S.Split (S.Join (drop i (S.Split d S.dot)) ".") S.dot))%nat)
      by (eapply wf_base; eauto).
    destruct (decide (S i < length (S.Split d S.dot))%nat) as [Hlt|Hge].
    + destruct (findIn_complete cache d now false _ i p Hlt) as [m Hm]; [by exists e|congruence].
    + assert (Hl : length (drop i (S.Split d S.dot)) = 1%nat) by (rewrite length_drop; lia).
      destruct (drop i (S.Split d S.dot)) as [|h [|]] eqn:Ed; simpl in Hl; try lia.
      simpl in H2. rewrite (Split_no_sep h d) in H2; [simpl in H2; lia|].
      rewrite <- (take_drop i (S.Split d S.dot)), Ed, elem_of_app. right. left.
Qed.
End FindCorrect.

(** ** A cache *)

Definition ex_entry (matchType : string) : Entry :=
  mkEntry "" matchType "list" ["list"] (F.of_Z 1) T.zero T.zero T.zero.
Definition ex_entries : gmap string Entry :=
  {["blocked.test" := ex_entry "suffix"; "*.cdn.blocked.test" := ex_entry "wildcard"]}.
Definition ex_list : Cache := mkCache T.zero T.zero 1 [] ex_entries.

Lemma ex_entries_wf : wf_entries (fun d => Some d) ex_entries.
Proof.
  intros p e. unfold ex_entries. rewrite lookup_insert_Some. intros [[<- <-]|[_ Hp]]; [done|].
  apply lookup_singleton_Some in Hp as [<- <-]. done.
Qed.

(** The wildcard of the longer base answers, and not for its own base. *)
Lemma Find_most_specific_witness :
  m_Matched <$> Find (fun d => Some d) ex_list "cdn.blocked.test" 0 = Some "blocked.test" /\
  m_Matched <$> Find (fun d => Some d) ex_list "A.cdn.blocked.test." 0 = Some "*.cdn.blocked.test" /\
  match Find (fun d => Some d) ex_list "A.cdn.blocked.test." 0 with
  | Some m => exists p e base,
      ex_entries !! p = Some e /\ m = matchForEntry ex_list "a.cdn.blocked.test" p e 0 /\
      covers p e base "a.cdn.blocked.test" /\
      forall p' e' base', ex_entries !! p' = Some e' -> covers p' e' base' "a.cdn.blocked.test" ->
        (String.length base' <= String.length base)%nat
  | None => forall p e base, ex_entries !! p = Some e -> ~ covers p e base "a.cdn.blocked.test"
  end.
Proof.
  split; [vm_compute; reflexivity|split; [vm_compute; reflexivity|]].
  refine (Find_most_specific (fun d => Some d) ex_list "A.cdn.blocked.test." "a.cdn.blocked.test" 0 ex_entries_wf _).
  vm_compute. reflexivity.
Defined.
