(* ===== verification/Override.v ===== *)
(** * Manual overrides

    [internal/policy/policy.go]: which override applies to a domain, and the
    route it selects; and the safety of overrides that [validateOverrides] of
    [internal/config/config.go] accepts. *)
From Stdlib Require Import ZArith Lia.
From stdpp Require Import base list strings gmap.
From S2P Require Import Prelude Float64 Net Config Tspu.

Open Scope Z_scope.

Record MatchResult := mkMatchResult {
  mr_Override : PolicyOverride;
  mr_Source : string
}.

Definition scopes : list string :=
  ["exact_domain"; "device_domain"; "device_service"; "service"; "category"].

(** The [switch scope] of [Match]. *)
Definition scopeMatches (scope normalized device serviceName category : string) (o : PolicyOverride) : bool :=
  if scope =s "exact_domain" then o_Domain o =s normalized
  else if scope =s "device_domain" then
    (device <>s "") && (o_DeviceMAC o =s device) && (o_Domain o =s normalized)
  else if scope =s "device_service" then
    (device <>s "") && (o_DeviceMAC o =s device) && (o_Service o =s serviceName)
  else if scope =s "service" then (serviceName <>s "") && (o_Service o =s serviceName)
  else if scope =s "category" then (category <>s "") && (o_Category o =s category)
  else false.

(** The two nested loops: the first scope, in order, with a matching override. *)
Fixpoint matchScopes (overrides : list PolicyOverride) (normalized device serviceName category : string)
    (l : list string) : option MatchResult :=
  match l with
  | [] => None
  | scope :: rest =>
      match first (fun o => (o_Scope o =s scope)
                            && scopeMatches scope normalized device serviceName category o) overrides with
      | Some o => Some (mkMatchResult o ("manual_override:" +:+ scope))
      | None => matchScopes overrides normalized device serviceName category rest
      end
  end.

(** [normalizeDevice]: [Ok ""] for a blank address. *)
Definition normalizeDevice (value : string) : result string :=
  let value := S.TrimSpace value in
  if value =s "" then Ok ""
  else match parseMAC6 value with
       | Some mac => Ok mac
       | None => Err "invalid device MAC"
       end.

(** [Match]: [Ok None] for [(MatchResult{}, false, nil)]. *)
Definition Match (toASCII : string -> option string) (cfg : option Config)
    (domain deviceMAC serviceName category : string) : result (option MatchResult) :=
  match cfg with
  | None => Err "config is required"
  | Some cfg =>
      match NormalizeDomain toASCII domain with
      | None => Err "invalid domain"
      | Some normalized =>
          device ← normalizeDevice deviceMAC;
          Ok (matchScopes (c_Overrides cfg) normalized device serviceName category scopes)
      end
  end.

(** [sort.SliceStable] by priority, then tag. *)
Definition routeOrder : Route -> Route -> bool :=
  then_by (same_z r_Priority) (key_lt r_Priority) (key_slt r_Tag).

Definition SelectRoute (m : MatchResult) (routes : list Route) : option Route :=
  if o_RouteTag (mr_Override m) <>s "" then
    first (fun route => (r_Tag route =s o_RouteTag (mr_Override m)) && Enabled route) routes
  else
    first (fun route => (r_Type route =s o_RouteType (mr_Override m)) && Enabled route)
      (gosort routeOrder routes).

Definition HasDeviceOverrides (cfg : option Config) : bool :=
  match cfg with
  | None => false
  | Some cfg => any (fun o => (o_Scope o =s "device_domain") || (o_Scope o =s "device_service"))
                    (c_Overrides cfg)
  end.

(** ** Selectors are unambiguous

    The selector strings of two overrides are equal only if the overrides claim
    the same objects, so rejecting duplicate selectors leaves at most one
    override per scope that can match a request. *)

Lemma normalizeOverride_scope toASCII o o' :
  normalizeOverride toASCII o = Some o' ->
  o_Scope o' = o_Scope o /\ o_ID o' = o_ID o /\ o_Service o' = o_Service o /\ o_Category o' = o_Category o /\
  o_RouteType o' = o_RouteType o /\ o_RouteTag o' = o_RouteTag o.
Proof.
  unfold normalizeOverride. intros H. apply bind_Some in H as (o1 & H1 & H2).
  assert (E1 : o1 = o \/ exists n, o1 = set_o_Domain n o).
  { destruct (S.is_empty (o_Domain o)); [injection H1 as <-; by left|].
    apply bind_Some in H1 as (n & _ & [= <-]). right; eauto. }
  assert (E2 : o' = o1 \/ exists n, o' = set_o_DeviceMAC n o1).
  { destruct (S.is_empty (o_DeviceMAC o1)); [injection H2 as <-; by left|].
    apply bind_Some in H2 as (n & _ & [= <-]). right; eauto. }
  destruct E1 as [->|[? ->]], E2 as [->|[? ->]]; repeat split.
Qed.

Section Validated.
Context (toASCII : string -> option string) (order : list (string * Service)) (c : Config).

Definition selectorOf (o : PolicyOverride) : option string :=
  validateOverrideSelector o (c_Services c).

(** What the checks of one override establish about the override written back. *)
Definition override_ok (o : PolicyOverride) : Prop :=
  routeTagPattern (o_ID o) = true /\ is_Some (selectorOf o) /\
  exists target, overrideTarget c o = Some target /\ validRouteType target = true /\
    validateOverrideSafety order c o target = true.

Lemma validateOverride_Some ids sels o o' ids' sels' :
  validateOverride toASCII order c ids sels o = Some (o', ids', sels') ->
  override_ok o' /\ (o_ID o' ∉ ids) /\ ids' = {[o_ID o']} ∪ ids /\
  exists sel, selectorOf o' = Some sel /\ sel ∉ sels /\ sels' = {[sel]} ∪ sels.
Proof.
  unfold validateOverride. intros H.
  destruct (negb (routeTagPattern (o_ID o)) || bool_decide (o_ID o ∈ ids)) eqn:E1; [done|].
  apply orb_false_iff in E1 as [E1 E2]. apply bool_decide_eq_false in E2.
  apply bind_Some in H as (o1 & Hn & H). apply bind_Some in H as (sel & Hsel & H).
  destruct (bool_decide (sel ∈ sels)) eqn:E3; [done|]. apply bool_decide_eq_false in E3.
  apply bind_Some in H as (target & Ht & H).
  destruct (negb (validRouteType target)) eqn:E4; [done|].
  destruct (_ && negb (any _ _)) eqn:E5; [done|].
  destruct (negb (validateOverrideSafety order c o1 target)) eqn:E6; [done|].
  injection H as <- <- <-. apply normalizeOverride_scope in Hn as (_ & Hid & _).
  apply negb_false_iff in E1, E4, E6. rewrite Hid. split; [|split; [done|split; [done|eauto]]].
  split; [by rewrite Hid|]. split; [by eexists|]. eauto.
Qed.

Lemma validateOverrides_go_Some l : forall ids sels l',
  validateOverrides_go toASCII order c ids sels l = Some l' ->
  Forall override_ok l' /\
  (NoDup (o_ID <$> l') /\ forall o, o ∈ l' -> o_ID o ∉ ids) /\
  (NoDup (selectorOf <$> l') /\ forall o sel, o ∈ l' -> selectorOf o = Some sel -> sel ∉ sels).
Proof.
  induction l as [|o l IH]; intros ids sels l'; cbn [validateOverrides_go].
  { intros [= <-]. repeat split; try constructor; intros *; by rewrite elem_of_nil. }
  intros H. apply bind_Some in H as ([[o' ids'] sels'] & H1 & H).
  apply bind_Some in H as (rest & H2 & [= <-]).
  apply validateOverride_Some in H1 as (Hok & Hid & -> & sel & Hsel & Hs & ->).
  apply IH in H2 as (Hall & (Hn1 & Hi1) & (Hn2 & Hi2)).
  split; [by constructor|]. split; split.
  - cbn. constructor; [|done]. intros (x & Hx & Hin)%list_elem_of_fmap. apply (Hi1 x Hin). set_solver.
  - intros x [->|Hx]%elem_of_cons; [done|]. specialize (Hi1 x Hx). set_solver.
  - cbn. constructor; [|done]. intros (x & Hx & Hin)%list_elem_of_fmap.
    rewrite Hsel in Hx. apply (Hi2 x sel Hin); [done|set_solver].
  - intros x s [->|Hx]%elem_of_cons Hs'; [congruence|]. specialize (Hi2 x s Hx Hs'). set_solver.
Qed.

Ltac split_scope o :=
  match goal with
  | H : context [o_Scope o =s ?s] |- _ => destruct (o_Scope o =s s) eqn:?; str_eq
  end.

(** Two valid overrides of one scope that match the same request claim the
    same selector. *)
Lemma same_request_same_selector scope normalized device serviceName category o1 o2 :
  is_Some (selectorOf o1) -> is_Some (selectorOf o2) ->
  (o_Scope o1 =s scope) && scopeMatches scope normalized device serviceName category o1 = true ->
  (o_Scope o2 =s scope) && scopeMatches scope normalized device serviceName category o2 = true ->
  selectorOf o1 = selectorOf o2.
Proof.
  intros [s1 H1] [s2 H2] M1 M2. bool_split. str_eq. subst scope.
  match goal with H : o_Scope _ = o_Scope _ |- _ => rename H into Hs end.
  unfold scopeMatches in *. unfold selectorOf, validateOverrideSelector in *. rewrite Hs in *.
  destruct (o_Scope o1 =s "exact_domain"); [|destruct (o_Scope o1 =s "device_domain");
    [|destruct (o_Scope o1 =s "device_service"); [|destruct (o_Scope o1 =s "service");
      [|destruct (o_Scope o1 =s "category"); [|done]]]]]; bool_split; str_eq;
    repeat match goal with
    | H : (if ?b then None else _) = Some _ |- _ => destruct b; [done|]
    | H : match ?x with _ => _ end = Some _ |- _ => destruct x eqn:?; [|done]
    end; congruence.
Qed.

Lemma matchScopes_perm l l' normalized device serviceName category ss :
  NoDup (selectorOf <$> l) -> Forall override_ok l -> l ≡ₚ l' ->
  matchScopes l normalized device serviceName category ss =
  matchScopes l' normalized device serviceName category ss.
Proof.
  intros Hnd Hok HP. induction ss as [|scope ss IH]; [done|]. simpl.
  rewrite (first_perm _ l l'); [by rewrite IH| |done].
  intros x y Hx Hy Mx My. rewrite Forall_forall in Hok.
  assert (E : selectorOf x = selectorOf y).
  { eapply same_request_same_selector; [apply Hok|apply Hok| |]; eauto. }
  apply list_elem_of_lookup in Hx as [i Hi], Hy as [j Hj].
  assert (i = j) as <-; [|congruence].
  apply (NoDup_lookup (selectorOf <$> l) i j (selectorOf x)); [done| |].
  - by rewrite list_lookup_fmap, Hi.
  - by rewrite list_lookup_fmap, Hj, E.
Qed.
End Validated.

(** ** Safety of accepted overrides *)

Definition with_overrides (c : Config) (l : list PolicyOverride) : Config := set_c_Overrides l c.

(** Which override applies is a function of the set of overrides.  Once
    [validateOverrides] has accepted (and normalised) the overrides of a
    configuration, every permutation of them gives the same answer to every
    [Match] request: no two accepted overrides of one scope can claim the same
    request, so their position in the file never decides. *)
Theorem Match_order_independent toASCII order c l l' domain deviceMAC serviceName category :
  validateOverrides toASCII order c = Some l -> l ≡ₚ l' ->
  Match toASCII (Some (with_overrides c l)) domain deviceMAC serviceName category =
  Match toASCII (Some (with_overrides c l')) domain deviceMAC serviceName category.
Proof.
  intros H HP. apply validateOverrides_go_Some in H as (Hok & _ & (Hnd & _)).
  unfold Match. destruct (NormalizeDomain toASCII domain) as [normalized|]; [|done].
  destruct (normalizeDevice deviceMAC) as [device|]; [|done]. cbn -[matchScopes].
  by rewrite (matchScopes_perm order c l l').
Qed.

Definition ex_policy : Policy :=
  mkPolicy "" "" 0 0 (mkWeights F.zero F.zero F.zero F.zero) 60 3 3 3600 "" false false "" 0 0.
Definition ex_openwrt : OpenWrt := mkOpenWrt "0x10" "0x20" "0x30" "0x40" 100 101 102.
Definition ex_routes : list Route :=
  [ mkRoute "direct" "direct" 10 false "" "" true "" true;
    mkRoute "vless" "vless-1" 20 false "" "1.1.1.1:53" true "" false;
    mkRoute "drop" "drop" 1000 false "" "" true "" false ].
Definition ex_overrides : list PolicyOverride :=
  [ mkOverride "o1" "exact_domain" "" "Example.org" "" "" "drop" "";
    mkOverride "o2" "device_domain" "00-00-5E-00-53-AF" "example.org" "" "" "" "vless-1" ].
Definition ex_config : Config := mkConfig ex_policy ex_openwrt ex_routes ∅ ex_overrides.

Definition ex_accepted : list PolicyOverride :=
  [ mkOverride "o1" "exact_domain" "" "example.org" "" "" "drop" "";
    mkOverride "o2" "device_domain" "00:00:5e:00:53:af" "example.org" "" "" "" "vless-1" ].

Lemma Match_order_independent_witness :
  validateOverrides Some [] ex_config = Some ex_accepted /\
  Match Some (Some (with_overrides ex_config ex_accepted)) "example.org" "00:00:5e:00:53:af" "" "" =
  Match Some (Some (with_overrides ex_config (reverse ex_accepted))) "example.org" "00:00:5e:00:53:af" "" "".
Proof.
  split; [vm_compute; reflexivity|].
  apply (Match_order_independent Some [] ex_config); [vm_compute; reflexivity|].
  apply Permutation_swap.
Defined.
