(* ===== verification/Json.v ===== *)
(** * JSON documents and the edits of a change set

    The values [encoding/json] decodes into [any], JSON pointers, one edit of a
    document ([applyConfigOperation]) and the difference of two documents
    ([diffJSON]): [internal/api/server.go] and [internal/api/transaction.go].
    The object a pointer leads to is shared with whatever else refers to it:
    edits of the shared store are in [Candidate]; here they act on trees. *)
From Stdlib Require Import ZArith Lia SpecFloat.
From stdpp Require Import base list strings sorting.
From S2P Require Import Prelude Float64 Net Config.

Open Scope Z_scope.

(** ** Values

    An object is the list of its members in increasing order of their names. *)
Inductive json : Type :=
| JNull
| JBool (b : bool)
| JNum (n : spec_float)
| JStr (s : string)
| JArr (items : list json)
| JObj (members : list (string * json)).

Section JsonInd.
Context (P : json -> Prop).
Hypothesis Hnull : P JNull.
Hypothesis Hbool : forall b, P (JBool b).
Hypothesis Hnum : forall n, P (JNum n).
Hypothesis Hstr : forall s, P (JStr s).
Hypothesis Harr : forall items, Forall P items -> P (JArr items).
Hypothesis Hobj : forall members, Forall (fun m => P m.2) members -> P (JObj members).
Fixpoint json_nested_ind (j : json) : P j :=
  match j with
  | JNull => Hnull
  | JBool b => Hbool b
  | JNum n => Hnum n
  | JStr s => Hstr s
  | JArr items => Harr items ((fix go l : Forall P l :=
      match l with [] => @List.Forall_nil _ _ | x :: l => @List.Forall_cons _ _ x l (json_nested_ind x) (go l) end) items)
  | JObj members => Hobj members ((fix go l : Forall (fun m => P m.2) l :=
      match l with [] => @List.Forall_nil _ _ | x :: l => @List.Forall_cons _ _ x l (json_nested_ind x.2) (go l) end) members)
  end.
End JsonInd.

(** *** Members of an object: a Go map, kept in the order of its keys *)
Section Members.
Context {A : Type}.

Fixpoint member (key : string) (members : list (string * A)) : option A :=
  match members with
  | [] => None
  | (k, v) :: rest => if key =s k then Some v else member key rest
  end.
Fixpoint setMember (key : string) (v : A) (members : list (string * A)) : list (string * A) :=
  match members with
  | [] => [(key, v)]
  | (k, v') :: rest =>
      if key =s k then (key, v) :: rest
      else if S.ltb key k then (key, v) :: members else (k, v') :: setMember key v rest
  end.
Definition deleteMember (key : string) (members : list (string * A)) : list (string * A) :=
  List.filter (fun m => negb (m.1 =s key)) members.

(** The keys of a Go map: each once, here in order. *)
Fixpoint increasing (keys : list string) : bool :=
  match keys with
  | [] => true
  | k :: rest => match rest with [] => true | k' :: _ => S.ltb k k' end && increasing rest
  end.
Definition ordered (members : list (string * A)) : Prop := increasing (map fst members) = true.
End Members.

(** [reflect.DeepEqual]. *)
Fixpoint deepEqual (a b : json) : bool :=
  match a, b with
  | JNull, JNull => true
  | JBool x, JBool y => Bool.eqb x y
  | JNum x, JNum y => F.eqb x y
  | JStr x, JStr y => x =s y
  | JArr xs, JArr ys =>
      (fix go xs ys := match xs, ys with
       | [], [] => true
       | x :: xs, y :: ys => deepEqual x y && go xs ys
       | _, _ => false
       end) xs ys
  | JObj xs, JObj ys =>
      (fix go xs ys := match xs, ys with
       | [], [] => true
       | (k, x) :: xs, (k', y) :: ys => (k =s k') && deepEqual x y && go xs ys
       | _, _ => false
       end) xs ys
  | _, _ => false
  end.

(** ** Pointers *)

(** [strings.ReplaceAll(s, old, new)] for a pattern of one and of two bytes. *)
Fixpoint replaceByte (old : Ascii.ascii) (new s : string) : string :=
  match s with
  | EmptyString => EmptyString
  | String c rest => if Ascii.eqb c old then new +:+ replaceByte old new rest else String c (replaceByte old new rest)
  end.
Fixpoint replacePair (a b : Ascii.ascii) (new s : string) : string :=
  match s with
  | String x (String y rest as tail) =>
      if Ascii.eqb x a && Ascii.eqb y b then new +:+ replacePair a b new rest else String x (replacePair a b new tail)
  | _ => s
  end.

Definition slash : Ascii.ascii := Ascii.ascii_of_N 47.
Definition tilde : Ascii.ascii := Ascii.ascii_of_N 126.
Definition percent : Ascii.ascii := Ascii.ascii_of_N 37.
Definition zero_digit : Ascii.ascii := Ascii.ascii_of_N 48.
Definition one_digit : Ascii.ascii := Ascii.ascii_of_N 49.

Definition escapeJSONPointer (value : string) : string :=
  replaceByte slash "~1" (replaceByte tilde "~0" value).

(** The value of a hexadecimal digit. *)
Definition unhex (c : Ascii.ascii) : N :=
  let n := Ascii.N_of_ascii c in
  if S.digit c then (n - 48)%N else if S.in_range 97 102 c then (n - 87)%N else (n - 55)%N.

(** [url.PathUnescape]. *)
Fixpoint PathUnescape (s : string) : result string :=
  match s with
  | EmptyString => Ok EmptyString
  | String c rest =>
      if Ascii.eqb c percent then
        match rest with
        | String h (String l rest) =>
            if hexdigit h && hexdigit l then
              tail ← PathUnescape rest; Ok (String (Ascii.ascii_of_N (unhex h * 16 + unhex l)) tail)
            else Err "invalid URL escape"
        | _ => Err "invalid URL escape"
        end
      else tail ← PathUnescape rest; Ok (String c tail)
  end.

Definition unescapePart (part : string) : result string :=
  PathUnescape (replacePair tilde zero_digit "~" (replacePair tilde one_digit "/" part)).

Fixpoint unescapeAll (parts : list string) : result (list string) :=
  match parts with
  | [] => Ok []
  | part :: rest => p ← unescapePart part; ps ← unescapeAll rest; Ok (p :: ps)
  end.

Definition splitJSONPointer (path : string) : result (list string) :=
  match path with
  | String c rest => if Ascii.eqb c slash then unescapeAll (S.Split rest slash) else Err "path must start with /"
  | EmptyString => Err "path must start with /"
  end.

(** [strconv.Atoi]: an optional sign and decimal digits, in the range of [int]. *)
Definition Atoi (s : string) : option Z :=
  let '(negative, digits) :=
    match s with
    | String c rest => if S.is_byte 45 c then (true, rest) else if S.is_byte 43 c then (false, rest) else (false, s)
    | EmptyString => (false, s)
    end in
  if S.is_empty digits || negb (S.all_bytes S.digit digits) then None
  else
    let n := if negative : bool then - dec_value 0 digits else dec_value 0 digits in
    if (int64_min <=? n) && (n <=? int64_max) then Some n else None.

(** The index of an array a path segment names. *)
Definition arrayIndex (key : string) (len : nat) : result nat :=
  match Atoi key with
  | None => Err "array index required"
  | Some idx => if (idx <? 0) || (Z.of_nat len <=? idx) then Err "array index out of range" else Ok (Z.to_nat idx)
  end.

(** ** One edit *)

Record ChangeOp := mkOp { op_Type : string; op_Path : string; op_Value : json; op_Before : json }.

(** [p[key] = v] and its guards, on the members of an object and on an array. *)
Definition editMembers {A} (type key : string) (v : A) (members : list (string * A)) : result (list (string * A)) :=
  let present := match member key members with Some _ => true | None => false end in
  if type =s "delete" then
    if present then Ok (deleteMember key members) else Err "delete target does not exist"
  else if (type =s "update") && negb present then Err "update target does not exist"
  else if (type =s "add") && present then Err "add target already exists"
  else Ok (setMember key v members).
Definition editItems {A} (type key : string) (v : A) (items : list A) : result (list A) :=
  if (type =s "add") || (type =s "delete") then Err "array add/delete is not supported"
  else idx ← arrayIndex key (length items); Ok (<[idx := v]> items).

(** An edit at a pointer, on trees. *)
Fixpoint editAt (parts : list string) (type : string) (v : json) (j : json) : result json :=
  match parts with
  | [] => Err "empty path"
  | [key] =>
      match j with
      | JObj members => members ← editMembers type key v members; Ok (JObj members)
      | JArr items => items ← editItems type key v items; Ok (JArr items)
      | _ => Err "parent is not editable"
      end
  | part :: rest =>
      match j with
      | JObj members =>
          match member part members with
          | None => Err "path segment does not exist"
          | Some c => c ← editAt rest type v c; Ok (JObj (setMember part c members))
          end
      | JArr items =>
          idx ← arrayIndex part (length items);
          match items !! idx with
          | None => Err "array index out of range"
          | Some c => c ← editAt rest type v c; Ok (JArr (<[idx := c]> items))
          end
      | _ => Err "path segment is not a container"
      end
  end.

(** [applyConfigOperation] on trees; the first segment must name a member of the
    document. *)
Definition applyTree (op : ChangeOp) (candidate : json) : result json :=
  parts ← splitJSONPointer (op_Path op);
  match parts, candidate with
  | [], _ => Err "empty path"
  | root :: _, JObj members =>
      match member root members with
      | None => Err "path is outside typed config model"
      | Some _ => editAt parts (op_Type op) (op_Value op) candidate
      end
  | _, _ => Err "path is outside typed config model"
  end.

(** ** The difference of two documents *)

(** The keys of both maps, each once, sorted. *)
Definition allKeys (bm am : list (string * json)) : list string :=
  gosort S.ltb (map fst bm ++
    List.filter (fun key => match member key bm with Some _ => false | None => true end) (map fst am)).

Definition depthOf (j : json) : nat :=
  (fix depth (j : json) : nat :=
     match j with
     | JArr items => S (fold_right (fun x n => Nat.max (depth x) n) O items)
     | JObj members => S (fold_right (fun m n => Nat.max (depth m.2) n) O members)
     | _ => O
     end) j.

(** [fuel] bounds the depth of [before]: [diff] below starts with enough. *)
Fixpoint diffJSON (fuel : nat) (before after : json) (path : string) : list ChangeOp :=
  if deepEqual before after then []
  else match before, after with
  | JObj bm, JObj am =>
      match fuel with
      | O => []
      | S fuel =>
          flat_map (fun key =>
            let child := path +:+ "/" +:+ escapeJSONPointer key in
            match member key bm, member key am with
            | Some bv, None => [mkOp "delete" child JNull bv]
            | None, Some av => [mkOp "add" child av JNull]
            | Some bv, Some av => diffJSON fuel bv av child
            | None, None => []
            end) (allKeys bm am)
      end
  | _, _ => [mkOp "update" path after before]
  end.
Definition diff (before after : json) : list ChangeOp := diffJSON (S (depthOf before)) before after "".
