(* ===== verification/NetProofs.v ===== *)
(** * Decimal numbers and addresses as text

    The digits [pretty] writes are read back by [dec_value] and [Atoi]; the text of
    an address ([IP.Text]) is read back by [IP.ParseIP]; a host and port joined by
    [JoinHostPort] are split again. *)
From Stdlib Require Import ZArith Lia.
From stdpp Require Import base list strings pretty.
From S2P Require Import Prelude Net Json.

Open Scope Z_scope.

(** ** Digits *)

Lemma all_bytes_app p a b : S.all_bytes p (a +:+ b) = S.all_bytes p a && S.all_bytes p b.
Proof. induction a as [|c a IH]; simpl; [done|]. by rewrite IH, andb_assoc. Qed.
Lemma all_bytes_impl (p q : Ascii.ascii -> bool) s : (forall c, p c = true -> q c = true) -> S.all_bytes p s = true -> S.all_bytes q s = true.
Proof. intros H. induction s as [|c s IH]; simpl; [done|]. intros [Hc Hs]%andb_true_iff. by rewrite (H _ Hc), IH. Qed.
Lemma dec_value_app acc a b : dec_value acc (a +:+ b) = dec_value (dec_value acc a) b.
Proof. revert acc. induction a as [|c a IH]; intros acc; simpl; [done|]. apply IH. Qed.

Lemma pretty_char n : (n < 10)%N -> S.digit (pretty_N_char n) = true /\ Z.of_N (Ascii.N_of_ascii (pretty_N_char n)) - 48 = Z.of_N n.
Proof.
  intros H. destruct n as [|p]; [done|]. repeat (destruct p as [p|p|]; try lia; try done).
Qed.

(** The number before the digits already written, which have value [v]. *)
Lemma pretty_go_spec n s : S.all_bytes S.digit s = true ->
  S.all_bytes S.digit (pretty_N_go n s) = true /\
  forall m, dec_value 0 (pretty_N_go n m) = dec_value (Z.of_N n) m.
Proof.
  intros Hs. revert s Hs. induction (N.lt_wf_0 n) as [n _ IH]; intros s Hs.
  assert (n = 0 \/ 0 < n)%N as [-> |Hn] by lia; [by rewrite pretty_N_go_0|].
  assert (Hlt : (n / 10 < n)%N) by (apply N.div_lt; lia). destruct (pretty_char (n `mod` 10)) as [Hd Hv]; [by apply N.mod_lt|].
  split.
  - rewrite pretty_N_go_step by done. apply (IH _ Hlt). simpl. by rewrite Hd.
  - intros m. rewrite pretty_N_go_step by done. rewrite (proj2 (IH _ Hlt "" eq_refl)). simpl. rewrite Hv. f_equal.
    rewrite (N.div_mod n 10) at 3 by lia. lia.
Qed.

Lemma pretty_N_digits (n : N) : S.all_bytes S.digit (pretty n) = true /\ dec_value 0 (pretty n) = Z.of_N n /\ (pretty n : string) <> "".
Proof.
  unfold pretty, pretty_N. case_decide as H; [by subst|].
  destruct (pretty_go_spec n "" eq_refl) as [H1 H2]. split; [done|]. rewrite H2. split; [done|].
  intros E. specialize (H2 ""). rewrite E in H2. simpl in H2. lia.
Qed.
Lemma pretty_Z_N (n : Z) : 0 <= n -> (pretty n : string) = pretty (Z.to_N n).
Proof. intros H. destruct n; [done|done|lia]. Qed.
Lemma pretty_digits (n : Z) : 0 <= n -> S.all_bytes S.digit (pretty n) = true.
Proof. intros H. rewrite pretty_Z_N by done. apply pretty_N_digits. Qed.
Lemma dec_value_pretty (n : Z) : 0 <= n -> dec_value 0 (pretty n) = n.
Proof. intros H. rewrite pretty_Z_N by done. destruct (pretty_N_digits (Z.to_N n)) as (_ & -> & _). lia. Qed.
Lemma pretty_nonempty (n : Z) : (pretty n : string) <> "".
Proof.
  destruct (decide (0 <= n)) as [H|H]; [rewrite pretty_Z_N by done; apply pretty_N_digits|]. destruct n; [lia|lia|done].
Qed.
(** Digits and the minus sign only. *)
Definition decimal (c : Ascii.ascii) : bool := S.digit c || S.is_byte 45 c.
Lemma pretty_decimal (n : Z) : S.all_bytes decimal (pretty n) = true.
Proof.
  destruct (decide (0 <= n)) as [H|H].
  - eapply all_bytes_impl; [|by apply pretty_digits]. intros c Hc. unfold decimal. by rewrite Hc.
  - destruct n as [|p|p]; try lia. change (pretty (Z.neg p) : string) with ("-" +:+ pretty (N.pos p) : string).
    rewrite all_bytes_app. simpl. eapply all_bytes_impl; [|apply pretty_N_digits]. intros c Hc. unfold decimal. by rewrite Hc.
Qed.

Lemma Atoi_pretty n : 0 <= n <= int64_max -> Atoi (pretty n) = Some n.
Proof.
  intros H. unfold Atoi. pose proof (pretty_digits n ltac:(lia)) as Hd. pose proof (dec_value_pretty n ltac:(lia)) as Hv.
  destruct (pretty n) as [|c s] eqn:E; [by apply pretty_nonempty in E|]. simpl in Hd. apply andb_true_iff in Hd as [Hc Hs].
  assert (Hm : S.is_byte 45 c = false /\ S.is_byte 43 c = false).
  { clear -Hc. destruct c as [[] [] [] [] [] [] [] []]; try discriminate Hc; split; reflexivity. }
  destruct Hm as [-> ->]. simpl S.is_empty. simpl S.all_bytes. rewrite Hc, Hs. cbn [andb negb orb]. rewrite Hv.
  assert (H1 : (int64_min <=? n) && (n <=? int64_max) = true) by (unfold int64_min, int64_max in *; lia). by rewrite H1.
Qed.

(** Numbers behind a colon end where the digits end. *)
Lemma decimal_prefix (a b c d : string) x :
  S.all_bytes decimal a = true -> S.all_bytes decimal b = true -> decimal x = false ->
  a +:+ String x c = b +:+ String x d -> a = b /\ c = d.
Proof.
  intros Ha Hb Hx. revert b Hb. induction a as [|y a IH]; intros [|z b] Hb H; simpl in *.
  - by injection H.
  - injection H as -> _. by rewrite Hx in Hb.
  - injection H as <- _. by rewrite Hx in Ha.
  - injection H as <- H. apply andb_true_iff in Ha as [_ Ha], Hb as [_ Hb]. destruct (IH Ha b Hb H) as [-> ->]. done.
Qed.

(** ** Splitting hosts and ports *)

Lemma cutLast_none s : Net.has Net.colon s = false -> Net.cutLast Net.colon s = None.
Proof.
  unfold Net.has. rewrite negb_false_iff. induction s as [|c s IH]; simpl; [done|]. intros [Hc Hs]%andb_true_iff.
  rewrite IH by done. apply negb_true_iff in Hc. by rewrite Hc.
Qed.
Lemma cutLast_app a b : Net.has Net.colon b = false -> Net.cutLast Net.colon (a +:+ String Net.colon b) = Some (a, b).
Proof.
  intros Hb. induction a as [|c a IH]; simpl.
  - by rewrite cutLast_none.
  - by rewrite IH.
Qed.
Lemma cutFirst_app x a b : Net.has x a = false -> Net.cutFirst x (a +:+ String x b) = Some (a, b).
Proof.
  unfold Net.has. rewrite negb_false_iff. induction a as [|c a IH]; simpl.
  - by rewrite Ascii.eqb_refl.
  - intros [Hc Ha]%andb_true_iff. apply negb_true_iff in Hc. by rewrite Hc, IH.
Qed.
Lemma has_app x a b : Net.has x (a +:+ b) = Net.has x a || Net.has x b.
Proof. unfold Net.has. by rewrite all_bytes_app, negb_andb. Qed.
Lemma has_false x p s : S.all_bytes p s = true -> p x = false -> Net.has x s = false.
Proof.
  intros H Hx. unfold Net.has. apply negb_false_iff. eapply all_bytes_impl; [|exact H]. intros c Hc.
  destruct (Ascii.eqb_spec c x) as [-> |]; [congruence|done].
Qed.

Lemma Contains_byte x s : S.Contains s (String x EmptyString) = Net.has x s.
Proof.
  unfold Net.has. induction s as [|c s IH]; [done|].
  change (S.Contains (String c s) (String x EmptyString)) with (String.prefix (String x EmptyString) (String c s) || S.Contains s (String x EmptyString)).
  rewrite IH. simpl. rewrite negb_andb, negb_involutive. f_equal. destruct (Ascii.ascii_dec x c) as [<- |n].
  - rewrite Ascii.eqb_refl. by destruct s.
  - symmetry. apply Ascii.eqb_neq. congruence.
Qed.

Lemma Split_bracketed host port :
  Net.has Net.bracket_open host = false -> Net.has Net.bracket_close host = false -> S.all_bytes S.digit port = true ->
  Net.SplitHostPort ("[" +:+ host +:+ "]:" +:+ port) = Some (host, port).
Proof.
  intros Ho Hc Hp. unfold Net.SplitHostPort.
  assert (E : "[" +:+ host +:+ "]:" +:+ port = ("[" +:+ host +:+ "]") +:+ String Net.colon port) by (rewrite !str_app_assoc; done).
  rewrite E, cutLast_app by by eapply has_false. rewrite <- E. simpl S.byte_is. cbv iota.
  assert (E2 : "[" +:+ host +:+ "]:" +:+ port = ("[" +:+ host) +:+ String Net.bracket_close (String Net.colon port)) by (rewrite !str_app_assoc; done).
  rewrite E2, cutFirst_app by (rewrite has_app, Hc; done). rewrite String.eqb_refl. simpl.
  rewrite Ho, (has_false Net.bracket_open S.digit port), (has_false Net.bracket_close S.digit port) by done. done.
Qed.
(** A host without brackets and a port in decimal. *)
Lemma SplitHostPort_Join host port :
  Net.has Net.bracket_open host = false -> Net.has Net.bracket_close host = false -> S.all_bytes S.digit port = true ->
  Net.SplitHostPort (JoinHostPort host port) = Some (host, port).
Proof.
  intros Ho Hc Hp. unfold JoinHostPort. rewrite (Contains_byte Net.colon), (Contains_byte (Ascii.ascii_of_N 37)).
  destruct (Net.has Net.colon host || Net.has (Ascii.ascii_of_N 37) host) eqn:EC; [by apply Split_bracketed|].
  apply orb_false_iff in EC as [EC _]. unfold Net.SplitHostPort.
  assert (E : host +:+ ":" +:+ port = host +:+ String Net.colon port) by done. rewrite E, cutLast_app by by eapply has_false.
  assert (EF : S.byte_is (S.first_byte (host +:+ String Net.colon port)) 91 = false).
  { destruct host as [|c host]; [done|]. simpl. unfold Net.has in Ho. apply negb_false_iff in Ho. simpl in Ho.
    apply andb_true_iff in Ho as [Ho _]. apply negb_true_iff in Ho. clear -Ho. destruct c as [[] [] [] [] [] [] [] []]; done. }
  rewrite EF, EC, !has_app, Ho, Hc. simpl.
  change (Net.has Net.bracket_open (String Net.colon port)) with (Net.has Net.bracket_open port).
  change (Net.has Net.bracket_close (String Net.colon port)) with (Net.has Net.bracket_close port).
  rewrite (has_false Net.bracket_open S.digit port), (has_false Net.bracket_close S.digit port) by done. done.
Qed.

(** ** The text of an address *)

Module IPText.
Import IP.

Lemma packed_snoc l v : packed (l ++ [v]) = packed l * 65536 + v.
Proof. unfold packed. by rewrite fold_left_app. Qed.
Definition field (v : Z) : Prop := 0 <= v < 65536.
Lemma packed_range l : Forall field l -> 0 <= packed l < 65536 ^ Z.of_nat (length l).
Proof.
  induction l as [|v l IH] using rev_ind; intros H; [done|].
  apply Forall_app in H as [Hl Hv]. inversion Hv as [|? ? Hf _]; subst. unfold field in Hf. rewrite packed_snoc, length_app. simpl length.
  rewrite Nat2Z.inj_add, Z.pow_add_r by lia. change (65536 ^ Z.of_nat 1) with 65536. specialize (IH Hl). nia.
Qed.

Lemma unhex_range c : hexdigit c = true -> 0 <= unhex c < 16.
Proof. destruct c as [[] [] [] [] [] [] [] []]; try discriminate; intros _; vm_compute; done. Qed.
Lemma hexRun_range s : forall acc n v r, 0 <= acc -> hexRun acc s = (n, v, r) -> 0 <= n /\ acc * 16 ^ n <= v < (acc + 1) * 16 ^ n.
Proof.
  induction s as [|c s IH]; intros acc n v r Ha H; simpl in H.
  - injection H as <- <- <-. split; [lia|]. simpl. lia.
  - destruct (hexdigit c) eqn:Ec; [|injection H as <- <- <-; split; [lia|]; simpl; lia].
    pose proof (unhex_range c Ec) as Hu. destruct (hexRun (acc * 16 + unhex c) s) as [[m w] t] eqn:E. injection H as <- <- <-.
    apply IH in E as [Hm Hw]; [|lia]. split; [lia|]. rewrite Z.pow_add_r by lia. change (16 ^ 1) with 16.
    pose proof (Z.pow_pos_nonneg 16 m ltac:(lia) Hm). nia.
Qed.
Lemma dec_value_range s : forall acc, 0 <= acc -> S.all_bytes S.digit s = true -> 0 <= dec_value acc s.
Proof.
  induction s as [|c s IH]; intros acc Ha H; simpl in *; [done|]. apply andb_true_iff in H as [Hc Hs]. apply IH; [|done].
  assert (48 <= Z.of_N (Ascii.N_of_ascii c)) by (clear -Hc; destruct c as [[] [] [] [] [] [] [] []]; try discriminate Hc; vm_compute; done). lia.
Qed.
Lemma ipv4Field_range f : ipv4Field f = true -> 0 <= dec_value 0 f < 256.
Proof.
  unfold ipv4Field. intros H. repeat (apply andb_true_iff in H as [H ?]). split; [|lia]. by apply dec_value_range.
Qed.
Lemma parseIPv4_range s n : parseIPv4 s = Some n -> 0 <= n < 2 ^ 32.
Proof.
  unfold parseIPv4. destruct (S.Split s S.dot) as [|a [|b [|c [|d [|]]]]]; try done.
  destruct (forallb ipv4Field _) eqn:E; [|done]. simpl in E. repeat (apply andb_true_iff in E as [? E]). intros [= <-].
  repeat match goal with H : ipv4Field _ = true |- _ => apply ipv4Field_range in H end. lia.
Qed.

Definition wide_range (n : Z) : Prop := 0 <= n < 2 ^ 128.
Lemma ends6_range read e n : Forall field read -> ends6 read e = Some n -> wide_range n.
Proof.
  intros HF. unfold ends6. destruct e as [i|].
  - destruct (length read <? 8)%nat eqn:E; [|done]. apply Nat.ltb_lt in E. intros [= <-].
    assert (HL : length (firstn i read ++ repeat 0 (8 - length read) ++ skipn i read) = 8%nat)
      by (rewrite !length_app, repeat_length, length_take, length_drop; lia).
    pose proof (packed_range (firstn i read ++ repeat 0 (8 - length read) ++ skipn i read)) as HP. rewrite HL in HP. apply HP.
    apply Forall_app. split; [by apply Forall_take|]. apply Forall_app. split; [|by apply Forall_drop].
    apply Forall_forall. intros x Hx. apply list_elem_of_In, repeat_spec in Hx. subst. done.
  - destruct (length read =? 8)%nat eqn:E; [|done]. apply Nat.eqb_eq in E. intros [= <-].
    pose proof (packed_range read HF) as HP. by rewrite E in HP.
Qed.
Lemma fields6_range fuel : forall read e s n, Forall field read -> fields6 fuel read e s = Some n -> wide_range n.
Proof.
  induction fuel as [|fuel IH]; intros read e s n HF H; cbn [fields6] in H.
  - destruct (S.is_empty s); [|done]. by eapply ends6_range.
  - destruct (hexRun 0 s) as [[k v] rest] eqn:E. apply hexRun_range in E as [Hk Hv]; [|done].
    destruct ((k =? 0) || (4 <? k)) eqn:Ek; [done|]. apply orb_false_iff in Ek as [_ Ek].
    assert (Hf : Forall field (read ++ [v])).
    { apply Forall_app. split; [done|]. constructor; [|constructor]. unfold field.
      assert (16 ^ k <= 16 ^ 4) by (apply Z.pow_le_mono_r; lia). lia. }
    destruct rest as [|c rest]; [exact (ends6_range _ _ _ Hf H)|]. destruct (S.is_byte 46 c).
    + destruct (_ || _) in H; [done|]. destruct (parseIPv4 s) as [q|] eqn:Eq; [|done]. apply parseIPv4_range in Eq. simpl in H.
      eapply ends6_range; [|exact H]. apply Forall_app. split; [done|]. repeat constructor; unfold field.
      * apply Z.div_pos; lia.
      * apply Z.div_lt_upper_bound; lia.
      * apply Z.mod_pos_bound. lia.
      * apply Z.mod_pos_bound. lia.
    + destruct (S.is_byte 58 c); [|done]. destruct rest as [|c' rest']; [done|]. destruct (S.is_byte 58 c').
      * destruct (bool_decide _); [done|]. cbv zeta in H. destruct (S.is_empty rest'); [exact (ends6_range _ _ _ Hf H)|exact (IH _ _ _ _ Hf H)].
      * exact (IH _ _ _ _ Hf H).
Qed.

(** What [ParseIP] returns: 32 bits, or 128 bits that are no IPv4 address. *)
Definition valid (a : Addr) : Prop :=
  match a with
  | V4 n => 0 <= n < 2 ^ 32
  | V6 n zone => wide_range n /\ zone = "" /\ n / 2 ^ 32 <> 65535
  end.
Lemma parseIPv6_valid s n z : parseIPv6 s = Some (V6 n z) -> wide_range n.
Proof.
  unfold parseIPv6. destruct (match Net.cutFirst _ s with Some _ => _ | None => _ end) as [[t zone]|]; [|done].
  cbn [mbind option_bind]. pose proof (fields6_range 8 [] (Some 0%nat) (String.substring 2 (String.length t - 2) t)) as H1.
  pose proof (fields6_range 8 [] None t) as H2.
  destruct (fields6 8 [] (Some 0%nat) _) as [m1|]; destruct (fields6 8 [] None t) as [m2|]; cbv zeta;
    destruct (S.HasPrefix t "::"); try destruct (S.is_empty _); cbn [mbind option_bind]; intros H; try discriminate H;
    injection H as <- <-; try done; first [exact (H1 _ (Forall_nil_2 _) eq_refl)|exact (H2 _ (Forall_nil_2 _) eq_refl)].
Qed.
Lemma ParseAddr_valid s : forall rest a, ParseAddr_go s rest = Some a -> match a with V4 n => 0 <= n < 2 ^ 32 | V6 n _ => wide_range n end.
Proof.
  induction rest as [|c rest IH]; intros a H; [done|]. cbn [ParseAddr_go] in H. destruct (S.is_byte 46 c).
  { destruct (parseIPv4 s) as [n|] eqn:E; [|done]. injection H as <-. by eapply parseIPv4_range. }
  destruct (S.is_byte 58 c).
  { destruct a as [n|n z]; [|by apply parseIPv6_valid in H]. exfalso. unfold parseIPv6 in H.
    destruct (match Net.cutFirst _ s with Some _ => _ | None => _ end) as [[t zone]|]; [|done]. cbn [mbind option_bind] in H. cbv zeta in H.
    destruct (if S.HasPrefix t "::" then _ else _) as [m|]; done. }
  destruct (S.is_byte 37 c); [done|]. by apply IH.
Qed.
Lemma ParseIP_valid s a : ParseIP s = Some a -> valid a.
Proof.
  unfold ParseIP. destruct (ParseAddr s) as [[n|n z]|] eqn:E; [..|done]; apply ParseAddr_valid in E.
  - intros [= <-]. done.
  - destruct (S.is_empty z) eqn:Ez; [|done]. unfold S.is_empty in Ez. str_eq. subst z. unfold Unmap. intros [= <-].
    destruct (n / 2 ^ 32 =? 65535) eqn:Em; simpl.
    + apply Z.mod_pos_bound. lia.
    + split; [done|]. split; [done|lia].
Qed.

(** *** Dotted addresses *)

Lemma byte_fields :
  forallb (fun k => let t := pretty (Z.of_nat k) in ipv4Field t && (dec_value 0 t =? Z.of_nat k) && negb (Net.has S.dot t)) (seq 0 256) = true.
Proof. vm_compute. reflexivity. Qed.
Lemma byte_field k : 0 <= k < 256 -> ipv4Field (pretty k) = true /\ dec_value 0 (pretty k) = k /\ Net.has S.dot (pretty k) = false.
Proof.
  intros Hk. pose proof byte_fields as H. rewrite forallb_forall in H. specialize (H (Z.to_nat k)).
  rewrite Z2Nat.id in H by lia. cbv zeta in H. rewrite !andb_true_iff, negb_true_iff in H.
  destruct H as [[H1 H2] H3]; [apply in_seq; lia|]. split; [done|]. split; [lia|done].
Qed.
Lemma Split_none s : Net.has S.dot s = false -> S.Split s S.dot = [s].
Proof.
  unfold Net.has. rewrite negb_false_iff. induction s as [|c s IH]; simpl; [done|]. intros [Hc Hs]%andb_true_iff.
  apply negb_true_iff in Hc. rewrite Split_cons by done. by rewrite IH.
Qed.
Lemma ParseAddr_dotted a b : S.all_bytes S.digit a = true -> ParseAddr (a +:+ String S.dot b) = V4 <$> parseIPv4 (a +:+ String S.dot b).
Proof.
  intros Ha. unfold ParseAddr. generalize (a +:+ String S.dot b) at 1 3 as whole. intros whole.
  induction a as [|c a IH]; [done|]. simpl in Ha. apply andb_true_iff in Ha as [Hc Ha]. simpl.
  assert (E : S.is_byte 46 c = false /\ S.is_byte 58 c = false /\ S.is_byte 37 c = false)
    by (clear -Hc; destruct c as [[] [] [] [] [] [] [] []]; try discriminate Hc; done).
  destruct E as (-> & -> & ->). by apply IH.
Qed.
Lemma V4_text n : 0 <= n < 2 ^ 32 -> ParseIP (Text (V4 n)) = Some (V4 n).
Proof.
  intros Hn. unfold Text, Unmap. cbn [map].
  set (a := n / 2 ^ 24 mod 256). set (b := n / 2 ^ 16 mod 256). set (c := n / 2 ^ 8 mod 256). set (d := n / 2 ^ 0 mod 256).
  assert (Hr : 0 <= a < 256 /\ 0 <= b < 256 /\ 0 <= c < 256 /\ 0 <= d < 256) by (split_and!; by apply Z.mod_pos_bound).
  assert (E : ((a * 256 + b) * 256 + c) * 256 + d = n).
  { unfold a, b, c, d. change (2 ^ 24) with 16777216 in *. change (2 ^ 16) with 65536. change (2 ^ 8) with 256. change (2 ^ 0) with 1.
    change (2 ^ 32) with 4294967296 in Hn. Z.to_euclidean_division_equations. lia. }
  clearbody a b c d. destruct Hr as (Ha & Hb & Hc & Hd).
  destruct (byte_field a Ha) as (Fa & Va & Da), (byte_field b Hb) as (Fb & Vb & Db), (byte_field c Hc) as (Fc & Vc & Dc), (byte_field d Hd) as (Fd & Vd & Dd).
  assert (ES : S.Join [pretty a; pretty b; pretty c; pretty d] "." =
    pretty a +:+ String S.dot (pretty b +:+ String S.dot (pretty c +:+ String S.dot (pretty d)))) by done.
  rewrite ES. unfold ParseIP. rewrite ParseAddr_dotted by (apply pretty_digits; lia).
  assert (EP : parseIPv4 (pretty a +:+ String S.dot (pretty b +:+ String S.dot (pretty c +:+ String S.dot (pretty d)))) = Some n).
  { unfold parseIPv4. rewrite !Split_app, !Split_none by done. cbn [app]. unfold forallb. rewrite Fa, Fb, Fc, Fd. cbn [andb].
    by rewrite Va, Vb, Vc, Vd, E. }
  by rewrite EP.
Qed.

(** *** Colon-separated addresses *)

Definition txt (v : Z) : string := hexText 4 v EmptyString.
Definition noHex (s : string) : Prop := match s with EmptyString => True | String c _ => hexdigit c = false end.

Lemma hexChar_spec k : 0 <= k < 16 -> hexdigit (hexChar k) = true /\ unhex (hexChar k) = k.
Proof.
  intros H. assert (H' : forallb (fun k => hexdigit (hexChar (Z.of_nat k)) && (unhex (hexChar (Z.of_nat k)) =? Z.of_nat k)) (seq 0 16) = true) by done.
  rewrite forallb_forall in H'. specialize (H' (Z.to_nat k)). rewrite Z2Nat.id in H' by lia. apply andb_true_iff in H' as [? ?]; [|apply in_seq; lia].
  split; [done|lia].
Qed.
Lemma hexRun_stop acc s : noHex s -> hexRun acc s = (0, acc, s).
Proof. destruct s as [|c s]; simpl; [done|]. by intros ->. Qed.
(** Reading what [hexText] wrote in front of [s]. *)
Lemma hexRun_text fuel : forall n s, 0 <= n < 16 ^ Z.of_nat fuel -> (0 < fuel)%nat ->
  exists k, 1 <= k <= Z.of_nat fuel /\ forall m v r, hexRun n s = (m, v, r) -> hexRun 0 (hexText fuel n s) = (k + m, v, r).
Proof.
  induction fuel as [|fuel IH]; intros n s Hn Hf; [lia|]. cbn [hexText]. cbv zeta.
  destruct (hexChar_spec (n mod 16)) as [Hd Hu]; [by apply Z.mod_pos_bound|].
  destruct (n <? 16) eqn:E.
  - exists 1. split; [lia|]. intros m v r H. cbn [hexRun]. rewrite Hd, Hu, Z.mod_small by lia. replace (0 * 16 + n) with n by lia. rewrite H. by rewrite Z.add_comm.
  - rewrite Nat2Z.inj_succ, Z.pow_succ_r in Hn by lia.
    destruct fuel as [|fuel']; [change (16 ^ Z.of_nat 0) with 1 in Hn; lia|].
    destruct (IH (n / 16) (String (hexChar (n mod 16)) s)) as (k & Hk & HI); [|lia|].
    { split; [apply Z.div_pos; lia|apply Z.div_lt_upper_bound; lia]. }
    exists (k + 1). split; [lia|]. intros m v r H. rewrite (HI (m + 1) v r); [by rewrite (Z.add_comm m), Z.add_assoc|].
    cbn [hexRun]. rewrite Hd, Hu. replace (n / 16 * 16 + n mod 16) with n by (pose proof (Z.div_mod n 16); lia). by rewrite H.
Qed.
Lemma hexText_app fuel : forall n a b, hexText fuel n (a +:+ b) = hexText fuel n a +:+ b.
Proof. induction fuel as [|fuel IH]; intros n a b; simpl; [done|]. destruct (n <? 16); [done|]. apply (IH _ (String _ a) b). Qed.
Lemma hexText_digits fuel : forall n s, S.all_bytes hexdigit s = true -> S.all_bytes hexdigit (hexText fuel n s) = true.
Proof.
  induction fuel as [|fuel IH]; intros n s Hs; cbn [hexText]; [done|]. cbv zeta.
  assert (Hd : hexdigit (hexChar (n mod 16)) = true) by (apply hexChar_spec; by apply Z.mod_pos_bound).
  destruct (n <? 16); [|apply IH]; cbn [S.all_bytes]; by rewrite Hd.
Qed.
Lemma txt_digits v : S.all_bytes hexdigit (txt v) = true.
Proof. by apply hexText_digits. Qed.
Lemma txt_read v rest : field v -> noHex rest -> exists k, 1 <= k <= 4 /\ hexRun 0 (txt v +:+ rest) = (k, v, rest).
Proof.
  intros Hv Hr. destruct (hexRun_text 4 v rest) as (k & Hk & H); [exact Hv|lia|]. exists k. split; [done|].
  unfold txt. rewrite <- hexText_app. simpl ("" +:+ rest). rewrite (H 0 v rest); [f_equal; f_equal; lia|by apply hexRun_stop].
Qed.
(** A text of fields starts with a digit. *)
Lemma txt_head v : exists c s, txt v = String c s /\ hexdigit c = true.
Proof.
  pose proof (txt_digits v) as H. destruct (txt v) as [|c s] eqn:E; [|exists c, s; simpl in H; by apply andb_true_iff in H as [? _]].
  exfalso. unfold txt in E. assert (HL : forall f n s, (String.length s <= String.length (hexText f n s))%nat).
  { induction f as [|f IH]; intros n s; cbn [hexText]; [done|]. cbv zeta. destruct (n <? 16); [simpl; lia|]. etrans; [|apply IH]. simpl. lia. }
  cbn [hexText] in E. cbv zeta in E. destruct (v <? 16); [done|].
  pose proof (HL 3%nat (v / 16) (String (hexChar (v mod 16)) "")) as HL'. cbn [hexText] in HL'. cbv zeta in HL'. rewrite E in HL'. simpl in HL'. lia.
Qed.

Definition joined (vs : list Z) : string := S.Join (map txt vs) ":".
Lemma joined_cons v w vs : joined (v :: w :: vs) = txt v +:+ ":" +:+ joined (w :: vs).
Proof. done. Qed.
Lemma joined_head v vs : exists c s, joined (v :: vs) = String c s /\ hexdigit c = true.
Proof.
  destruct (txt_head v) as (c & s & E & H). destruct vs as [|w vs]; [by exists c, s|]. rewrite joined_cons, E. simpl. eauto.
Qed.
Lemma hexdigit_not c : hexdigit c = true -> S.is_byte 46 c = false /\ S.is_byte 58 c = false /\ S.is_byte 37 c = false.
Proof. destruct c as [[] [] [] [] [] [] [] []]; try discriminate; done. Qed.

(** The colon, as a literal holds it. *)
Local Notation colon' := (Ascii.Ascii false true false true true true false false).

Lemma fields6_joined vs : forall fuel read e, Forall field vs -> vs <> [] -> (length vs <= fuel)%nat ->
  fields6 fuel read e (joined vs) = ends6 (read ++ vs) e.
Proof.
  induction vs as [|v vs IH]; intros fuel read e HF Hne HL; [done|]. inversion HF as [|? ? Hv HF']; subst.
  destruct fuel as [|fuel]; [simpl in HL; lia|]. cbn [fields6]. destruct vs as [|w vs].
  - change (joined [v]) with (txt v). rewrite <- (str_app_empty_r (txt v)). destruct (txt_read v "" Hv I) as (k & Hk & ->).
    assert (Ek : (k =? 0) || (4 <? k) = false) by lia. by rewrite Ek.
  - rewrite joined_cons. destruct (txt_read v (":" +:+ joined (w :: vs)) Hv eq_refl) as (k & Hk & ->).
    assert (Ek : (k =? 0) || (4 <? k) = false) by lia. rewrite Ek. cbn [String.append].
    destruct (joined_head w vs) as (c & s & E & Hc). rewrite E. destruct (hexdigit_not c Hc) as (_ & -> & _). rewrite <- E.
    change (S.is_byte 46 colon') with false. change (S.is_byte 58 colon') with true. cbn [negb]. cbv iota.
    rewrite IH; [|done|done|simpl in *; lia]. by rewrite <- app_assoc.
Qed.
(** Fields, the ellipsis, fields. *)
Lemma fields6_elided a : forall b fuel read, Forall field a -> Forall field b -> a <> [] -> (length a + length b <= fuel)%nat ->
  fields6 fuel read None (joined a +:+ "::" +:+ joined b) = ends6 (read ++ a ++ b) (Some (length read + length a)%nat).
Proof.
  induction a as [|v a IH]; intros b fuel read HF HB Hne HL; [done|]. inversion HF as [|? ? Hv HF']; subst.
  destruct fuel as [|fuel]; [simpl in HL; lia|]. cbn [fields6]. destruct a as [|w a].
  - change (joined [v]) with (txt v). destruct (txt_read v ("::" +:+ joined b) Hv eq_refl) as (k & Hk & ->).
    assert (Ek : (k =? 0) || (4 <? k) = false) by lia. rewrite Ek. cbn [String.append].
    change (S.is_byte 46 colon') with false. change (S.is_byte 58 colon') with true. cbn [negb]. cbv iota.
    rewrite bool_decide_eq_false_2 by (by intros H). cbv zeta iota. simpl length.
    replace (length read + 1)%nat with (S (length read)) by lia. destruct b as [|w b]; [done|].
    assert (EE : S.is_empty (joined (w :: b)) = false) by (destruct (joined_head w b) as (c & s & -> & _); done). rewrite EE.
    rewrite fields6_joined; [|done|done|simpl in *; lia]. by rewrite <- app_assoc.
  - rewrite joined_cons, !str_app_assoc. destruct (txt_read v (":" +:+ joined (w :: a) +:+ "::" +:+ joined b) Hv eq_refl) as (k & Hk & ->).
    assert (Ek : (k =? 0) || (4 <? k) = false) by lia. rewrite Ek. cbn [String.append].
    destruct (joined_head w a) as (c & s & E & Hc). rewrite E. cbn [String.append]. destruct (hexdigit_not c Hc) as (_ & -> & _).
    change (S.is_byte 46 colon') with false. change (S.is_byte 58 colon') with true. cbn [negb]. cbv iota.
    change (String c (s +:+ String colon' (String colon' (joined b)))) with (String c s +:+ "::" +:+ joined b). rewrite <- E.
    rewrite IH; [|done|done|done|simpl in *; lia]. rewrite <- app_assoc, length_app. cbn [length]. replace (length read + 1 + S (length a))%nat with (length read + S (S (length a)))%nat by lia. done.
Qed.

Lemma fieldsOf_spec n : 0 <= n < 2 ^ 128 -> packed (fieldsOf n) = n /\ Forall field (fieldsOf n) /\ length (fieldsOf n) = 8%nat.
Proof.
  intros Hn. split_and!; [|unfold fieldsOf; apply Forall_map, Forall_forall; intros i _; by apply Z.mod_pos_bound|done].
  assert (Hs : forall k, 0 <= k -> n / 2 ^ (k + 16) * 65536 + n / 2 ^ k mod 65536 = n / 2 ^ k).
  { intros k Hk. rewrite Z.pow_add_r, <- Z.div_div by lia. change (2 ^ 16) with 65536. pose proof (Z.div_mod (n / 2 ^ k) 65536). lia. }
  assert (H0 : n / 2 ^ 112 mod 65536 = n / 2 ^ 112).
  { apply Z.mod_small. split; [apply Z.div_pos; lia|]. apply Z.div_lt_upper_bound; [lia|]. change (2 ^ 112 * 65536) with (2 ^ 128). lia. }
  unfold fieldsOf, packed. cbn [map seq fold_left].
  change (16 * (7 - Z.of_nat 0)) with 112. change (16 * (7 - Z.of_nat 1)) with 96. change (16 * (7 - Z.of_nat 2)) with 80.
  change (16 * (7 - Z.of_nat 3)) with 64. change (16 * (7 - Z.of_nat 4)) with 48. change (16 * (7 - Z.of_nat 5)) with 32.
  change (16 * (7 - Z.of_nat 6)) with 16. change (16 * (7 - Z.of_nat 7)) with 0.
  rewrite H0. change (0 * 65536 + n / 2 ^ 112) with (n / 2 ^ 112).
  rewrite (Hs 96 ltac:(done) : n / 2 ^ 112 * 65536 + _ = _), (Hs 80 ltac:(done) : n / 2 ^ 96 * 65536 + _ = _),
    (Hs 64 ltac:(done) : n / 2 ^ 80 * 65536 + _ = _), (Hs 48 ltac:(done) : n / 2 ^ 64 * 65536 + _ = _),
    (Hs 32 ltac:(done) : n / 2 ^ 48 * 65536 + _ = _), (Hs 16 ltac:(done) : n / 2 ^ 32 * 65536 + _ = _),
    (Hs 0 ltac:(done) : n / 2 ^ 16 * 65536 + _ = _). by rewrite Z.pow_0_r, Z.div_1_r.
Qed.

Lemma zeroRun_spec l : l = repeat 0 (zeroRun l) ++ skipn (zeroRun l) l.
Proof. induction l as [|[] l IH]; simpl; [done| |done|done]. by rewrite <- IH. Qed.
Lemma longestRun_spec l : forall i best, longestRun i best l = best \/
  exists j, longestRun i best l = ((i + j)%nat, zeroRun (skipn j l)) /\ (j < length l)%nat /\ (best.2 < zeroRun (skipn j l))%nat.
Proof.
  induction l as [|v l IH]; intros i best; [by left|]. cbn [longestRun].
  set (here := if (best.2 <? zeroRun (v :: l))%nat then (i, zeroRun (v :: l)) else best).
  assert (Hh : here = best \/ (here = (i, zeroRun (v :: l)) /\ (best.2 < zeroRun (v :: l))%nat))
    by (unfold here; destruct (best.2 <? zeroRun (v :: l))%nat eqn:E; [right|left]; [|done]; apply Nat.ltb_lt in E; done).
  clearbody here. destruct (IH (S i) here) as [E|(j & E & Hj & Hb)].
  - rewrite E. destruct Hh as [-> |[-> H]]; [by left|]. right. exists 0%nat. split; [by rewrite Nat.add_0_r|]. split; [simpl; lia|done].
  - right. exists (S j). rewrite E. split; [f_equal; lia|]. split; [simpl; lia|]. cbn [skipn].
    destruct Hh as [-> |[-> H]]; [done|]. cbn [snd] in Hb. lia.
Qed.

Definition address (c : Ascii.ascii) : bool := hexdigit c || Ascii.eqb c Net.colon.
Lemma joined_address vs : S.all_bytes address (joined vs) = true.
Proof.
  assert (Hd : forall v, S.all_bytes address (txt v) = true)
    by (intros v; eapply all_bytes_impl; [|apply txt_digits]; intros c Hc; unfold address; by rewrite Hc).
  induction vs as [|v [|w vs] IH]; [done|apply Hd|]. by rewrite joined_cons, !all_bytes_app, Hd, IH.
Qed.
Lemma ParseAddr_colons d rest : S.all_bytes hexdigit d = true -> ParseAddr (d +:+ String Net.colon rest) = parseIPv6 (d +:+ String Net.colon rest).
Proof.
  intros Hd. unfold ParseAddr. generalize (d +:+ String Net.colon rest) at 1 3 as whole. intros whole.
  induction d as [|c d IH]; [done|]. cbn [S.all_bytes] in Hd. apply andb_true_iff in Hd as [Hc Hd]. cbn [String.append ParseAddr_go].
  destruct (hexdigit_not c Hc) as (-> & -> & ->). by apply IH.
Qed.
Lemma parseIPv6_fields s : S.all_bytes address s = true -> parseIPv6 s =
  n ← (if S.HasPrefix s "::" then
         let t := String.substring 2 (String.length s - 2) s in if S.is_empty t then Some 0 else fields6 8 [] (Some 0%nat) t
       else fields6 8 [] None s); Some (V6 n "").
Proof.
  intros H. unfold parseIPv6. assert (E : Net.cutFirst (Ascii.ascii_of_N 37) s = None).
  { clear -H. induction s as [|c s IH]; [done|]. cbn [S.all_bytes] in H. apply andb_true_iff in H as [Hc Hs]. cbn [Net.cutFirst]. rewrite IH by done.
    destruct (Ascii.eqb_spec c (Ascii.ascii_of_N 37)) as [-> |]; [by vm_compute in Hc|done]. }
  by rewrite E.
Qed.
Lemma substring_whole s : String.substring 0 (String.length s) s = s.
Proof. induction s as [|c s IH]; simpl; [done|]. by rewrite IH. Qed.
Lemma prefix_digit c s : hexdigit c = true -> S.HasPrefix (String c s) "::" = false.
Proof. destruct c as [[] [] [] [] [] [] [] []]; intros H; first [discriminate H|by destruct s]. Qed.

(** The text reads back in all three shapes. *)
Lemma read_whole vs : Forall field vs -> length vs = 8%nat -> ParseAddr (joined vs) = Some (V6 (packed vs) "").
Proof.
  intros HF HL. destruct vs as [|v [|w vs]]; [done|done|]. rewrite joined_cons.
  change (":" +:+ joined (w :: vs)) with (String Net.colon (joined (w :: vs))). rewrite ParseAddr_colons by apply txt_digits.
  change (txt v +:+ String Net.colon (joined (w :: vs))) with (joined (v :: w :: vs)). rewrite parseIPv6_fields by apply joined_address.
  destruct (joined_head v (w :: vs)) as (c & s & E & Hc). rewrite E at 1. rewrite prefix_digit by done.
  rewrite fields6_joined by (done || (rewrite HL; done)). cbn [app ends6]. by rewrite HL.
Qed.
Lemma read_elided a b : Forall field a -> Forall field b -> (length a + length b < 8)%nat ->
  ParseAddr (joined a +:+ "::" +:+ joined b) = Some (V6 (packed (a ++ repeat 0 (8 - (length a + length b)) ++ b)) "").
Proof.
  intros HA HB HL. set (z := repeat 0 (8 - (length a + length b))).
  assert (HS : S.all_bytes address (joined a +:+ "::" +:+ joined b) = true) by (by rewrite !all_bytes_app, !joined_address).
  assert (HP : ParseAddr (joined a +:+ "::" +:+ joined b) = parseIPv6 (joined a +:+ "::" +:+ joined b)).
  { destruct a as [|v a]; [done|]. destruct a as [|w a].
    - apply (ParseAddr_colons (txt v) (":" +:+ joined b)), txt_digits.
    - rewrite joined_cons, !str_app_assoc. apply (ParseAddr_colons (txt v) (joined (w :: a) +:+ "::" +:+ joined b)), txt_digits. }
  rewrite HP, parseIPv6_fields by done. destruct a as [|v a].
  - change (joined []) with "". cbn [String.append]. change (S.HasPrefix (String colon' (String colon' (joined b))) "::") with (S.HasPrefix (joined b) "").
    assert (E0 : S.HasPrefix (joined b) "" = true) by (by destruct (joined b)). rewrite E0. cbv zeta.
    cbn [String.length String.substring Nat.sub]. rewrite Nat.sub_0_r, substring_whole. destruct b as [|w b]; [done|].
    destruct (joined_head w b) as (c & s & E & _). assert (EE : S.is_empty (joined (w :: b)) = false) by by rewrite E. rewrite EE.
    rewrite fields6_joined by (done || lia || (simpl in *; lia)). cbn [ends6 app]. assert (Hl : (length (w :: b) <? 8)%nat = true) by (apply Nat.ltb_lt; simpl in *; lia).
    rewrite Hl. done.
  - assert (HN : S.HasPrefix (joined (v :: a) +:+ "::" +:+ joined b) "::" = false)
      by (destruct (joined_head v a) as (c & s & -> & Hc); by apply prefix_digit).
    rewrite HN, fields6_elided by (done || lia). cbn [ends6]. rewrite app_nil_l, length_app.
    assert (Hl : (length (v :: a) + length b <? 8)%nat = true) by (apply Nat.ltb_lt; lia). rewrite Hl.
    change (length [] + length (v :: a))%nat with (length (v :: a)). by rewrite take_app_length, drop_app_length.
Qed.

(** What [ParseIP] returned prints as a text that parses to the same address. *)
Lemma ParseIP_Text a : valid a -> ParseIP (Text a) = Some a.
Proof.
  destruct a as [n|n z]; [apply V4_text|]. intros (Hn & -> & Hm). assert (EU : Unmap (V6 n "") = V6 n "").
  { unfold Unmap. by destruct (n / 2 ^ 32 =? 65535) eqn:E; [lia|]. }
  destruct (fieldsOf_spec n Hn) as (HP & HF & HL). unfold Text. rewrite EU.
  assert (G : forall s, ParseAddr s = Some (V6 n "") -> ParseIP s = Some (V6 n "")) by (intros s E; unfold ParseIP; rewrite E; by rewrite EU).
  change (map (fun f => hexText 4 f "") (fieldsOf n)) with (map txt (fieldsOf n)).
  destruct (longestRun 0 (0, 1)%nat (fieldsOf n)) as [start len] eqn:ER. apply G. destruct (len <? 2)%nat eqn:E2.
  { change (S.Join (map txt (fieldsOf n)) ":") with (joined (fieldsOf n)). by rewrite read_whole, HP. }
  apply Nat.ltb_ge in E2. destruct (longestRun_spec (fieldsOf n) 0 (0, 1)%nat) as [E|(j & E & Hj & _)]; rewrite ER in E; injection E as -> ->; [lia|].
  rewrite !firstn_map, !skipn_map. cbn [Nat.add].
  change (S.Join (map txt ?l) ":") with (joined l). set (l := fieldsOf n) in *. pose proof (zeroRun_spec (skipn j l)) as HZ.
  set (k := zeroRun (skipn j l)) in *. assert (Hk : (j + k <= 8)%nat).
  { assert (HK : (k <= length (skipn j l))%nat) by (rewrite HZ, length_app, repeat_length; lia). rewrite length_skipn in HK. lia. }
  rewrite skipn_skipn in HZ. rewrite read_elided; [|by apply Forall_take|by apply Forall_drop|rewrite length_firstn, length_skipn; lia].
  rewrite length_firstn, length_skipn. replace (8 - _)%nat with k by lia. rewrite (Nat.add_comm j k), <- HZ, firstn_skipn. by rewrite HP.
Qed.

(** Only digits, letters of hexadecimal, colons and dots. *)
Definition plain (c : Ascii.ascii) : bool := address c || S.is_byte 46 c.
Lemma Text_plain a : valid a -> S.all_bytes plain (Text a) = true.
Proof.
  intros Hv. assert (HA : forall s, S.all_bytes address s = true -> S.all_bytes plain s = true)
    by (intros s; apply all_bytes_impl; intros c Hc; unfold plain; by rewrite Hc).
  unfold Text. destruct (Unmap a) as [n|n z].
  - assert (HD : forall k, 0 <= k -> S.all_bytes plain (pretty k) = true).
    { intros k Hk. apply HA. eapply all_bytes_impl; [|by apply pretty_digits]. intros c Hc. unfold address, hexdigit. by rewrite Hc. }
    assert (HB : forall k, S.all_bytes plain (pretty (n / 2 ^ k mod 256)) = true) by (intros k; apply HD, Z.mod_pos_bound; lia).
    assert (HJ : forall a b c d : string, S.Join [a; b; c; d] "." = a +:+ "." +:+ b +:+ "." +:+ c +:+ "." +:+ d) by done.
    cbn [map]. rewrite HJ, !all_bytes_app, !HB. done.
  - destruct (longestRun 0 (0, 1)%nat (fieldsOf n)) as [start len]. destruct (len <? 2)%nat; [apply HA, joined_address|].
    change (map (fun f => hexText 4 f "") (fieldsOf n)) with (map txt (fieldsOf n)). rewrite !firstn_map, !skipn_map, !all_bytes_app. rewrite (HA (S.Join (map txt (firstn start (fieldsOf n))) ":") (joined_address _)).
    by rewrite (HA (S.Join (map txt (skipn (start + len) (fieldsOf n))) ":") (joined_address _)).
Qed.
Lemma Text_split a port : valid a -> S.all_bytes S.digit port = true -> Net.SplitHostPort (JoinHostPort (Text a) port) = Some (Text a, port).
Proof.
  intros Hv Hp. apply SplitHostPort_Join; [| |done]; by eapply has_false; [by apply Text_plain|].
Qed.
End IPText.
