(* ===== verification/Validation.v ===== *)
(** * Validation of a configuration

    [Config.Validate] of [internal/config/config.go], in the order of the code.  It
    normalises the domains of the services and the overrides; [Ok] holds the
    configuration it leaves behind.  (After an error the configuration may be
    partly normalised; its callers drop it.)

    Parsed URLs ([url.Parse], [url.ParseRequestURI]), [idna.Lookup.ToASCII], the
    resolution of the legacy state directory and the orders in which Go walks the
    services are parameters. *)
From Stdlib Require Import ZArith Lia SpecFloat.
From stdpp Require Import base list strings gmap pretty.
From S2P Require Import Prelude Float64 Net ZapretProfile Config Json.

Open Scope Z_scope.

Definition MaxProbeURLsPerService : Z := 4.
Definition MaxGeoIPEndpoints : Z := 2.

(** What the code reads of a [url.URL]; whether it holds a user. *)
Record URL := mkURL {
  u_Scheme : string;
  u_User : bool;
  u_Host : string;
  u_Path : string;
  u_RawQuery : string;
  u_Fragment : string
}.

(** ** Patterns *)

Definition lowerHex (c : Ascii.ascii) : bool := S.digit c || S.in_range 97 102 c.
(** The text behind a prefix. *)
Definition behind (prefix s : string) : string := String.substring (String.length prefix) (String.length s - String.length prefix) s.

(** [^sha256:[0-9a-f]{64}$] *)
Definition sha256ReferencePattern (s : string) : bool :=
  S.HasPrefix s "sha256:" && (S.len s =? 71) && S.all_bytes lowerHex (behind "sha256:" s).
(** [^[0-9]+(?:\.[0-9]+){1,2}$] *)
Definition providerVersionPattern (s : string) : bool :=
  let fields := S.Split s S.dot in
  ((length fields =? 2) || (length fields =? 3))%nat && forallb (fun f => negb (S.is_empty f) && S.all_bytes S.digit f) fields.
(** [^0x[0-9a-fA-F]{1,8}$] *)
Definition firewallMarkPattern (s : string) : bool :=
  S.HasPrefix s "0x" && (3 <=? S.len s) && (S.len s <=? 10) && S.all_bytes hexdigit (behind "0x" s).
(** [^[A-Za-z_][A-Za-z0-9_]{0,31}$] *)
Definition nftTablePattern (s : string) : bool :=
  let letter c := S.lower_letter c || S.upper_letter c || S.is_byte 95 c in
  match s with
  | EmptyString => false
  | String c rest => letter c && (S.len rest <=? 31) && S.all_bytes (fun c => letter c || S.digit c) rest
  end.

(** The value of hexadecimal digits, as [strconv.ParseUint(s, 16, _)] reads them. *)
Definition hexValue (s : string) : Z := (IP.hexRun 0 s).1.2.
Definition parseFirewallMark (value : string) : result Z :=
  if negb (firewallMarkPattern value) then Err "firewall mark must be 0x followed by 1..8 hex digits"
  else
    let parsed := hexValue (behind "0x" value) in
    if parsed =? 0 then Err "firewall mark must be a non-zero 32-bit value" else Ok parsed.

(** [if bad { return error }] *)
Definition reject (bad : bool) (message : string) : result unit := if bad then Err message else Ok ().

Definition productionOpenWrtTarget (target : string) : bool := (target =s "openwrt") || (target =s "glinet-flint2").
Definition portableAbsolutePath (value : string) : bool := S.HasPrefix value "/".

Definition validateProduction (legacyStateAlias : bool) (c : Config) : result unit :=
  if negb (productionOpenWrtTarget (pl_Target (c_Platform c))) then Ok ()
  else
    let s := c_Storage c in
    let persistentStorage := (st_StateDir s =s "/etc/router-policy/state") && (st_RuntimeDir s =s "/tmp/router-policy")
                             && (st_Database s =s "/etc/router-policy/state/router-policy.bbolt") in
    let legacyStorage := (st_StateDir s =s "/var/lib/router-policy") && (st_RuntimeDir s =s "/tmp/router-policy")
                         && (st_Database s =s "/var/lib/router-policy/router-policy.bbolt") && legacyStateAlias in
    _ ← reject (negb persistentStorage && negb legacyStorage)
          "production storage must use persistent /etc/router-policy/state and volatile /tmp/router-policy runtime";
    let persistentData := (xr_LastGoodConfig (c_Xray c) =s "/etc/router-policy/state/last-good/xray.json")
                          && (g_Database (c_GeoIP c) =s "/etc/router-policy/state/geoip/user-country.mmdb") in
    let legacyData := (xr_LastGoodConfig (c_Xray c) =s "/var/lib/router-policy/last-good/xray.json")
                      && (g_Database (c_GeoIP c) =s "/var/lib/router-policy/geoip/user-country.mmdb") && legacyStorage in
    reject (negb persistentData && negb legacyData) "production durable data paths must stay under /etc/router-policy/state".

(** ** Routes *)

Definition statusAllowed (status : string) : bool :=
  containsString [""; "NOT_CONFIGURED"; "CONFIGURED"; "ACTIVE"; "DEGRADED"; "SELECTED"; "STANDBY"; "QUARANTINED"; "UNSUPPORTED"] status.
Definition transparentType (t : string) : bool := containsString ["vless"; "external_socks"; "tg_ws_proxy"] t.

(** A host and a port in 1..65535, by [net.SplitHostPort] and [strconv.Atoi]. *)
Definition endpointOf (hostport : string) : option (string * Z) :=
  '(host, portText) ← Net.SplitHostPort hostport;
  port ← Atoi portText;
  if (port <? 1) || (65535 <? port) then None else Some (host, port).

Definition publicSmartDNS (r : Route) : bool :=
  match endpointOf (r_DNSServer r) with
  | Some (host, _) =>
      bool_decide (is_Some (IP.ParseIP host)) && r_ConnectToResolvedIP r
      && match IP.ParseAddr host with Some addr => PublicResolverAddr addr | None => false end
  | None => false
  end.
(** The port of a loopback endpoint. *)
Definition loopbackPort (endpoint : string) : option Z :=
  '(host, port) ← endpointOf endpoint;
  ip ← IP.ParseIP host;
  if IP.IsLoopback ip then Some port else None.

(** What the loop over the routes has seen. *)
Record Seen := mkSeen {
  sn_tags : gset string;
  sn_drop : bool;
  sn_VLESS : Z;
  sn_zapret : bool;
  sn_transparent : bool;
  sn_ports : gmap Z string
}.
Definition nothing_seen : Seen := mkSeen ∅ false 0 false false ∅.

Definition validateTransparent (c : Config) (r : Route) (ports : gmap Z string) : result (gmap Z string) :=
  _ ← reject ((r_DNSMode r <>s "socks_remote") || S.is_empty (r_DNSServer r) || (r_DNSServer r <>s xr_ProbeDNSResolver (c_Xray c)))
        ("transparent route " +:+ r_Tag r +:+ " must use the configured SOCKS DNS resolver");
  match loopbackPort (r_SOCKS5 r) with
  | None => Err ("transparent route " +:+ r_Tag r +:+ " must use a valid loopback SOCKS endpoint")
  | Some port =>
      let previous := default "" (ports !! port) in
      _ ← reject (negb (S.is_empty previous))
            ("transparent routes " +:+ previous +:+ " and " +:+ r_Tag r +:+ " reuse SOCKS port " +:+ pretty port);
      Ok (<[port := r_Tag r]> ports)
  end.

Definition validateRoute (c : Config) (seen : Seen) (r : Route) : result Seen :=
  let on t := Enabled r && (r_Type r =s t) in
  _ ← reject (negb (routeTagPattern (r_Tag r)) || negb (validRouteType (r_Type r))) "route with empty tag/type";
  _ ← reject (bool_decide (r_Tag r ∈ sn_tags seen)) ("duplicate route tag: " +:+ r_Tag r);
  _ ← reject (negb (r_Disabled r) && (r_Status r =s "NOT_CONFIGURED")) ("route " +:+ r_Tag r +:+ " is NOT_CONFIGURED but not disabled");
  _ ← reject (negb (statusAllowed (r_Status r))) ("route " +:+ r_Tag r +:+ " has invalid status");
  _ ← reject (negb (r_Disabled r) && (r_Type r =s "smart_dns")
              && (S.is_empty (r_DNSServer r) || S.Contains (r_DNSServer r) "PLACEHOLDER"))
        ("smart_dns route " +:+ r_Tag r +:+ " has no real dns_server");
  _ ← reject (on "smart_dns" && negb (publicSmartDNS r))
        ("smart_dns route " +:+ r_Tag r +:+ " requires a public resolver endpoint and connect_to_resolved_ip");
  _ ← reject (on "vless" && negb (S.HasPrefix (r_SOCKS5 r) "127.0.0.1:"))
        ("vless route " +:+ r_Tag r +:+ " must use a loopback SOCKS endpoint");
  let transparent := Enabled r && transparentType (r_Type r) in
  ports ← (if transparent then validateTransparent c r (sn_ports seen) else Ok (sn_ports seen));
  Ok (mkSeen ({[r_Tag r]} ∪ sn_tags seen) (sn_drop seen || on "drop") (sn_VLESS seen + (if on "vless" then 1 else 0))
        (sn_zapret seen || on "zapret") (sn_transparent seen || transparent) ports).
Fixpoint validateRoutes (c : Config) (seen : Seen) (l : list Route) : result Seen :=
  match l with
  | [] => Ok seen
  | r :: rest => seen ← validateRoute c seen r; validateRoutes c seen rest
  end.

(** ** Marks and tables *)

Definition markOf (c : Config) (r : Route) : string := if S.is_empty (r_Mark r) then markForRouteType c (r_Type r) else r_Mark r.
Fixpoint validateMarks (c : Config) (tables : gmap Z Z) (l : list Route) : result unit :=
  match l with
  | [] => Ok ()
  | r :: rest =>
      if negb (Enabled r) then validateMarks c tables rest
      else
        match parseFirewallMark (markOf c r) with
        | Err e => Err ("route " +:+ r_Tag r +:+ " mark: " +:+ e)
        | Ok value =>
            let table := tableForRouteType c (r_Type r) in
            _ ← reject ((r_Type r <>s "drop") && (table <? 1)) ("route " +:+ r_Tag r +:+ " has no route table");
            _ ← reject (match tables !! value with Some previous => negb (previous =? table) | None => false end)
                  ("route " +:+ r_Tag r +:+ " mark maps to conflicting route tables");
            validateMarks c (<[value := table]> tables) rest
        end
  end.

(** ** Xray and Zapret *)

Definition validateXray (c : Config) (seen : Seen) : result unit :=
  let x := c_Xray c in
  _ ← reject ((0 <? sn_VLESS seen) && negb (sha256ReferencePattern (xr_OutboundBundleSHA256 x)))
        "enabled vless routes require a bound Xray outbound bundle";
  _ ← reject (negb (containsString [""; "candidate_only"; "managed"] (xr_ActivationMode x)))
        "xray.activation_mode must be candidate_only or managed";
  reject ((xr_ActivationMode x =s "managed") && (xr_InitScript x <>s "/etc/init.d/router-policy-xray"))
    "managed xray requires the project-owned init script".

Section Validate.
Context (toASCII : string -> option string) (parseURL parseRequestURI : string -> option URL)
  (legacyStateAlias : bool) (walk order : gmap string Service -> list (string * Service)).

(** HTTPS with a host, without credentials or a fragment. *)
Definition plainHTTPS (parsed : option URL) : bool :=
  match parsed with
  | Some u => (u_Scheme u =s "https") && negb (S.is_empty (u_Host u)) && negb (u_User u) && S.is_empty (u_Fragment u)
  | None => false
  end.
Definition immutablePins (z : Zapret) : bool :=
  plainHTTPS (parseRequestURI (z_ProviderSource z))
  && match parseRequestURI (z_ProviderSource z) with
     | Some u => S.is_empty (u_RawQuery u) && S.Contains (u_Path u) (z_ProviderVersion z)
     | None => false
     end
  && negb (S.Contains (S.ToLower (z_ProviderSource z)) "latest") && providerVersionPattern (z_ProviderVersion z)
  && sha256ReferencePattern (z_BinarySHA256 z).
Fixpoint validateAssignments (seen : gset string) (l : list ZapretProfileAssignment) : result unit :=
  match l with
  | [] => Ok ()
  | a :: rest =>
      _ ← reject (negb (routeTagPattern (za_BundleID a)) || negb (routeTagPattern (za_ProfileID a)) || bool_decide (za_BundleID a ∈ seen))
            "adaptive Zapret assignment is invalid or duplicated";
      validateAssignments ({[za_BundleID a]} ∪ seen) rest
  end.
Definition validateAdaptive (c : Config) : result unit :=
  let z := c_Zapret c in
  let assignments := Z.of_nat (length (z_AdaptiveAssignments z)) in
  if z_AdaptiveEnabled z then
    _ ← reject (negb (S.HasPrefix (z_AdaptiveCatalogFile z) "/") || (assignments =? 0) || (64 <? assignments))
          "adaptive Zapret requires a catalog and bounded assignments";
    _ ← reject (productionOpenWrtTarget (pl_Target (c_Platform c))
                && (z_AdaptiveCatalogFile z <>s "/etc/router-policy/zapret/catalog.json"))
          "production adaptive Zapret catalog must use the project-owned path";
    validateAssignments ∅ (z_AdaptiveAssignments z)
  else reject (negb (S.is_empty (z_AdaptiveCatalogFile z)) || negb (assignments =? 0))
         "adaptive Zapret catalog and assignments require adaptive_enabled".

Definition validateZapret (c : Config) (hasZapret : bool) : result unit :=
  let z := c_Zapret c in
  if hasZapret then
    let pinsConfigured := negb (S.is_empty (z_ProviderSource z) && S.is_empty (z_ProviderVersion z) && S.is_empty (z_BinarySHA256 z)) in
    _ ← reject (pinsConfigured && negb (immutablePins z))
          "managed zapret provider pins must use immutable HTTPS source, version and SHA-256";
    _ ← reject (z_ActivationMode z <>s "managed") "enabled zapret route requires managed zapret activation";
    _ ← reject ((z_Binary z <>s "/usr/bin/nfqws") || (z_InitScript z <>s "/etc/init.d/router-policy-zapret")
                || (z_ActiveConfig z <>s "/etc/router-policy/zapret/nfqws.conf"))
          "managed zapret paths must use project-owned fixed locations";
    _ ← reject ((z_QueueNum z <? 1) || (65535 <? z_QueueNum z)) "zapret.queue_num must be in 1..65535";
    _ ← reject (z_Strategy z <>s "tls-fake-ttl3-v1") "unsupported zapret strategy";
    validateAdaptive c
  else
    reject (z_AdaptiveEnabled z || negb (S.is_empty (z_AdaptiveCatalogFile z)) || negb (length (z_AdaptiveAssignments z) =? 0)%nat)
      "adaptive Zapret requires an enabled zapret route".

Definition validateDeviceProfiles (c : Config) (hasZapret : bool) : result unit :=
  let z := c_Zapret c in
  if (length (z_DeviceProfiles z) =? 0)%nat then Ok ()
  else
    _ ← reject (negb hasZapret) "device-scoped Zapret profiles require an enabled zapret route";
    _ ← reject (z_ActivationMode z <>s "managed") "device-scoped Zapret profiles require managed zapret activation";
    match ValidateProfiles (z_DeviceProfiles z) with
    | Some e => Err ("device-scoped Zapret profiles are invalid: " +:+ e)
    | None =>
        match first (fun p => dv_QueueNum p =? z_QueueNum z) (z_DeviceProfiles z) with
        | Some p => Err ("device-scoped Zapret profile " +:+ dv_ID p +:+ " collides with base queue " +:+ pretty (z_QueueNum z))
        | None => Ok ()
        end
    end.

(** ** Listeners *)

(** An address a resolver may have, on port 53. *)
Definition publicResolver (endpoint : string) : bool :=
  match Net.SplitHostPort endpoint with
  | Some (host, portText) =>
      match IP.ParseIP host, Atoi portText with
      | Some ip, Some port =>
          (port =? 53) && negb (IP.IsUnspecified ip || IP.IsLoopback ip || IP.IsPrivate ip || IP.IsLinkLocalUnicast ip || IP.IsMulticast ip)
      | _, _ => false
      end
  | None => false
  end.
(** The marks of the map literal; Go walks them in any order, and one order finds
    an error exactly when the others do. *)
Definition openwrtMarks (w : OpenWrt) : list (string * string) :=
  [ ("openwrt.direct_mark", DirectMark w); ("openwrt.zapret_mark", ZapretMark w); ("openwrt.xray_mark", XrayMark w);
    ("openwrt.xray_tproxy_mark", XrayTProxyMark w); ("openwrt.xray_bypass_mark", XrayBypassMark w); ("openwrt.drop_mark", DropMark w) ].
Fixpoint distinctMarks (seen : gmap Z string) (l : list (string * string)) : result unit :=
  match l with
  | [] => Ok ()
  | (name, mark) :: rest =>
      match parseFirewallMark mark with
      | Err e => Err (name +:+ ": " +:+ e)
      | Ok value =>
          let previous := default "" (seen !! value) in
          _ ← reject (negb (S.is_empty previous)) (name +:+ " collides with " +:+ previous);
          distinctMarks (<[value := name]> seen) rest
      end
  end.
Definition validateTransparentProxy (c : Config) (seen : Seen) : result unit :=
  if negb (sn_transparent seen) then Ok ()
  else
    let port := xr_TransparentPort (c_Xray c) in
    _ ← reject ((port <? 1024) || (65535 <? port)) "enabled transparent routes require xray.transparent_port in 1024..65535";
    let route := default "" (sn_ports seen !! port) in
    _ ← reject (negb (S.is_empty route)) ("xray.transparent_port collides with route " +:+ route +:+ " SOCKS endpoint");
    _ ← reject (negb (publicResolver (xr_ProbeDNSResolver (c_Xray c))))
          "enabled transparent routes require a public xray.probe_dns_resolver on port 53";
    distinctMarks ∅ (openwrtMarks (c_OpenWrt c)).

Definition dnsProxyBasePort (c : Config) : Z := if xr_DNSProxyBasePort (c_Xray c) =? 0 then 14000 else xr_DNSProxyBasePort (c_Xray c).
Definition dnsProxyPorts (c : Config) (count : Z) : list Z := map (fun k => dnsProxyBasePort c + Z.of_nat k) (seq 0 (Z.to_nat count)).
Definition validateDNSProxyPorts (c : Config) (seen : Seen) : result unit :=
  if sn_VLESS seen <=? 0 then Ok ()
  else
    let base := dnsProxyBasePort c in
    _ ← reject ((base <? 1024) || (65535 <? base) || (65535 - base <? sn_VLESS seen - 1))
          "enabled vless routes exhaust xray DNS proxy ports";
    match first (fun port => (port =? xr_TransparentPort (c_Xray c)) || negb (S.is_empty (default "" (sn_ports seen !! port))))
            (dnsProxyPorts c (sn_VLESS seen)) with
    | Some port => Err ("xray DNS proxy port " +:+ pretty port +:+ " collides with another listener")
    | None => Ok ()
    end.

(** ** GeoIP *)

Fixpoint validateEndpoints (seen : gset string) (l : list GeoIPEndpoint) : result unit :=
  match l with
  | [] => Ok ()
  | e :: rest =>
      _ ← reject (S.is_empty (ge_Name e) || (64 <? S.len (ge_Name e)) || S.is_empty (ge_URL e) || bool_decide (ge_Provider e ∈ seen))
            "invalid or duplicate GeoIP endpoint";
      _ ← reject (negb (containsString ["country_is"; "ipwho_is"] (ge_Provider e)))
            ("unsupported GeoIP endpoint provider: " +:+ ge_Provider e);
      _ ← reject (negb (plainHTTPS (parseURL (ge_URL e))))
            ("GeoIP endpoint " +:+ ge_Name e +:+ " must be HTTPS without credentials or fragment");
      validateEndpoints ({[ge_Provider e]} ∪ seen) rest
  end.
Definition validateGeoIP (g : GeoIP) : result unit :=
  _ ← reject (MaxGeoIPEndpoints <? Z.of_nat (length (g_Endpoints g))) "too many GeoIP endpoints (maximum 2)";
  _ ← (if S.is_empty (g_SourceURL g) then Ok ()
       else
         _ ← reject (negb (plainHTTPS (parseURL (g_SourceURL g)))) "GeoIP source must be HTTPS without credentials or fragment";
         reject (S.is_empty (g_Database g) || (g_MaxDatabaseBytes g <=? 0) || (16 * 1024 * 1024 <? g_MaxDatabaseBytes g)
                 || (g_MaxAgeHours g <=? 0))
           "GeoIP source requires database, bounded size and max age");
  validateEndpoints ∅ (g_Endpoints g).

(** ** Services *)

Fixpoint validateAllowed (name : string) (seen : gset string) (l : list string) : result (gset string) :=
  match l with
  | [] => Ok seen
  | path :: rest =>
      _ ← reject (negb (validRouteType path) || bool_decide (path ∈ seen))
            ("service " +:+ name +:+ " has invalid or duplicate allowed path");
      validateAllowed name ({[path]} ∪ seen) rest
  end.
Fixpoint validateForbidden (name : string) (seen : gset string) (l : list string) : result unit :=
  match l with
  | [] => Ok ()
  | path :: rest =>
      _ ← reject (negb (validRouteType path) || bool_decide ("forbidden:" +:+ path ∈ seen))
            ("service " +:+ name +:+ " has invalid or duplicate forbidden path");
      _ ← reject (bool_decide (path ∈ seen)) ("service " +:+ name +:+ " path " +:+ path +:+ " is both allowed and forbidden");
      validateForbidden name ({["forbidden:" +:+ path]} ∪ seen) rest
  end.
(** The normalised domains, and their owners. *)
Fixpoint validateDomains (name : string) (owners : gmap string string) (l : list string) : result (list string * gmap string string) :=
  match l with
  | [] => Ok ([], owners)
  | domain :: rest =>
      match normalizeDomain toASCII domain with
      | None => Err ("service " +:+ name +:+ " has invalid domain " +:+ quoted domain)
      | Some normalized =>
          let owner := default "" (owners !! normalized) in
          _ ← reject (negb (S.is_empty owner) && (owner <>s name))
                ("domain " +:+ normalized +:+ " belongs to both " +:+ owner +:+ " and " +:+ name);
          '(more, owners) ← validateDomains name (<[normalized := name]> owners) rest;
          Ok (normalized :: more, owners)
      end
  end.
Definition bodyModes : list string := ["required"; "optional"; "empty"; "ignored"].
Fixpoint validateProbes (name : string) (l : list ProbeCheck) : result unit :=
  match l with
  | [] => Ok ()
  | p :: rest =>
      _ ← reject (S.is_empty (pc_Name p) || S.is_empty (pc_URL p)) ("service " +:+ name +:+ " has invalid probe");
      _ ← reject (bool_decide (parseRequestURI (pc_URL p) = None)) ("service " +:+ name +:+ " probe " +:+ pc_Name p +:+ " invalid url");
      _ ← reject (length (pc_ExpectedCodes p) =? 0)%nat ("service " +:+ name +:+ " probe " +:+ pc_Name p +:+ " has no expected_codes");
      _ ← reject (negb (containsString bodyModes (pc_BodyMode p)))
            ("service " +:+ name +:+ " probe " +:+ pc_Name p +:+ " invalid body_mode: " +:+ pc_BodyMode p);
      validateProbes name rest
  end.

Definition validateSelected (c : Config) (name : string) (svc : Service) : result unit :=
  reject (negb (S.is_empty (s_SelectedRouteTag svc))
          && match RouteByTag c (s_SelectedRouteTag svc) with
             | Some route => negb (Enabled route) || negb (PathAllowed svc route (c_Policy c))
             | None => true
             end)
    ("service " +:+ name +:+ " selects an unavailable or forbidden route").
Definition validateCategory (c : Config) (name : string) (svc : Service) : result unit :=
  _ ← reject ((s_Category svc =s "DIRECT_ONLY")
              && negb (match s_AllowedPaths svc with [path] => path =s "direct" | _ => false end))
        ("DIRECT_ONLY service " +:+ name +:+ " must allow only direct");
  if s_Category svc =s "GEO_LOCKED" then
    _ ← reject (negb (s_RequireNonRUEgress svc)) ("GEO_LOCKED service " +:+ name +:+ " must require non-RU egress");
    reject (containsString (s_AllowedPaths svc) "direct" && negb (GeoLockedAllowDirect (c_Policy c))
            || containsString (s_AllowedPaths svc) "zapret" && negb (GeoLockedAllowZapret (c_Policy c)))
      ("GEO_LOCKED service " +:+ name +:+ " allows a route forbidden by policy")
  else Ok ().

Definition validateService (c : Config) (owners : gmap string string) (name : string) (svc : Service)
    : result (Service * gmap string string) :=
  _ ← reject (negb (validServiceCategory (s_Category svc))) ("service " +:+ name +:+ " has empty category");
  _ ← reject (length (s_Domains svc) =? 0)%nat ("service " +:+ name +:+ " has no domains");
  _ ← reject (length (s_AllowedPaths svc) =? 0)%nat ("service " +:+ name +:+ " has no allowed_paths");
  seenPaths ← validateAllowed name ∅ (s_AllowedPaths svc);
  _ ← validateForbidden name seenPaths (s_ForbiddenPaths svc);
  _ ← validateSelected c name svc;
  _ ← validateCategory c name svc;
  '(domains, owners) ← validateDomains name owners (s_Domains svc);
  _ ← validateProbes name (s_ProbeURLs svc);
  _ ← reject (MaxProbeURLsPerService <? Z.of_nat (length (s_ProbeURLs svc)))
        ("service " +:+ name +:+ " has too many probe urls (maximum 4)");
  Ok (set_s_Domains domains svc, owners).
Fixpoint validateServices (c : Config) (owners : gmap string string) (l : list (string * Service)) (done : gmap string Service)
    : result (gmap string Service) :=
  match l with
  | [] => Ok done
  | (name, svc) :: rest =>
      '(svc, owners) ← validateService c owners name svc;
      validateServices c owners rest (<[name := svc]> done)
  end.

(** ** The rest *)

Fixpoint validateSources (seen : gset string) (l : list TSPUSource) : result unit :=
  match l with
  | [] => Ok ()
  | s :: rest =>
      _ ← reject (S.is_empty (ts_Name s) || (64 <? S.len (ts_Name s)) || bool_decide (ts_Name s ∈ seen) || (ts_Type s <>s "domains")
                  || (ts_MinEntries s <? 1) || F.ltb (ts_MaxDropRatio s) F.zero || F.ltb F.one (ts_MaxDropRatio s))
            ("invalid or duplicate TSPU source: " +:+ ts_Name s);
      _ ← reject (negb (plainHTTPS (parseURL (ts_URL s))))
            ("TSPU source " +:+ ts_Name s +:+ " must use HTTPS without credentials or fragment");
      validateSources ({[ts_Name s]} ∪ seen) rest
  end.

Definition weightOK (value : spec_float) : bool :=
  negb (F.is_nan value || match value with S754_infinity _ => true | _ => false end || F.ltb value F.zero || F.ltb (F.of_Z 100) value).
Definition outside (lo hi n : Z) : bool := (n <? lo) || (hi <? n).
Definition validatePolicy (c : Config) : result unit :=
  let p := c_Policy c in
  let w := RouteSelectionWeightsOf p in
  let n := c_Notifications c in
  _ ← reject (DomainDecisionTTLSeconds p <? 0) "domain_decision_ttl_seconds cannot be negative";
  _ ← reject (negb (containsString [""; "direct"; "balanced"; "vless"; "privacy_first"; "drop"; "fail_closed"]
                     (S.ToLower (S.TrimSpace (UnknownDomainFirstPath p))))) "invalid unknown_domain_first_path";
  _ ← reject (outside 0 100000 (st_MaxAutoDomains (c_Storage c))) "max_auto_domains must be between 0 and 100000";
  _ ← reject (negb (containsString [""; "fail_open"; "zapret_first"; "fail_closed"] (TSPUStalePolicy p))) "invalid tspu_stale_policy";
  _ ← reject (negb (containsString ["observe_only"; "suggest"; "auto_apply_verified"; "locked"] (EffectiveDiscoveryMode p)))
        "invalid discovery_mode";
  _ ← reject (negb (containsString [""; "balanced"; "fastest"; "privacy_first"; "fail_closed"]
                     (S.ToLower (S.TrimSpace (RouteSelectionStrategy p))))) "invalid route_selection_strategy";
  _ ← reject (outside 0 90 (RouteSelectionHysteresisPercent p)) "route_selection_hysteresis_percent must be between 0 and 90";
  _ ← reject (outside 0 86400 (RouteSelectionCooldownSeconds p)) "route_selection_cooldown_seconds must be between 0 and 86400";
  _ ← match first (fun nw => negb (weightOK nw.2))
              [ ("end_to_end_latency", EndToEndLatency w); ("availability", Availability w); ("error_rate", ErrorRate w); ("privacy", Privacy w) ] with
      | Some (name, _) => Err ("route_selection_weights." +:+ name +:+ " must be between 0 and 100")
      | None => Ok ()
      end;
  _ ← reject (outside 0 1000 (DiscoveryMaxNewRulesPerHour p)) "discovery_max_new_rules_per_hour must be between 0 and 1000";
  _ ← reject (outside 0 100 (DiscoveryMaxConsecutiveRollbacks p)) "discovery_max_consecutive_rollbacks must be between 0 and 100";
  _ ← reject (InventoryHealthIntervalSeconds p <? 0) "inventory_health_interval_seconds cannot be negative";
  _ ← reject (outside 0 4 (ProbeBudget p)) "probe_budget must be between 0 and 4";
  _ ← reject (outside 0 32 (DiscoveryQueueLimit p)) "discovery_queue_limit must be between 0 and 32";
  _ ← reject (negb (S.is_empty (n_TelegramSecretFile n)) && negb (portableAbsolutePath (n_TelegramSecretFile n)))
        "notifications.telegram_secret_file must be absolute";
  reject (outside 0 86400 (n_DedupeSeconds n)) "notifications.dedupe_seconds must be between 0 and 86400".

Definition validateOpenWrt (w : OpenWrt) : result unit :=
  _ ← reject (negb (containsString [""; "inet"] (NFTFamily w))) "openwrt.nft_family must be inet";
  _ ← reject (negb (S.is_empty (NFTTable w)) && negb (nftTablePattern (NFTTable w))) "openwrt.nft_table is invalid";
  reject (negb (containsString [""; "preserve"; "disable"] (FlowOffloadingPolicy w)))
    "openwrt.flow_offloading_policy must be preserve or disable".

(** ** The whole *)

Definition Validate (c : Config) : result Config :=
  _ ← reject (c_Version c <? 2) "config version must be >=2";
  _ ← validateProduction legacyStateAlias c;
  _ ← reject (length (c_Routes c) =? 0)%nat "routes are empty";
  _ ← reject (64 <? Z.of_nat (length (c_Routes c))) "routes exceed the maximum of 64";
  seen ← validateRoutes c nothing_seen (c_Routes c);
  _ ← reject (negb (sn_drop seen)) "an enabled drop route is required for fail-closed policy";
  _ ← validateOpenWrt (c_OpenWrt c);
  _ ← validateMarks c ∅ (c_Routes c);
  _ ← validateXray c seen;
  _ ← validateZapret c (sn_zapret seen);
  _ ← validateDeviceProfiles c (sn_zapret seen);
  _ ← reject ((sn_VLESS seen <=? 0) && negb (S.is_empty (xr_OutboundBundleSHA256 (c_Xray c))))
        "Xray outbound bundle is set without enabled vless routes";
  _ ← validateTransparentProxy c seen;
  _ ← validateDNSProxyPorts c seen;
  _ ← validateGeoIP (c_GeoIP c);
  services ← validateServices c ∅ (walk (c_Services c)) (c_Services c);
  let c := set_c_Services services c in
  overrides ← match validateOverrides toASCII (order services) c with Some l => Ok l | None => Err "invalid policy override" end;
  let c := set_c_Overrides overrides c in
  _ ← validateSources ∅ (c_TSPUSources c);
  _ ← validatePolicy c;
  Ok c.
End Validate.
