(* ===== verification/ValidationProofs.v ===== *)
(** * What a validated configuration satisfies

    [Validate] of [Validation] as a type system for configurations: whatever it
    accepts is well formed ([wf]), in the form it leaves it in. *)
From Stdlib Require Import ZArith Lia SpecFloat.
From stdpp Require Import base list strings gmap.
From S2P Require Import Prelude Float64 Net ZapretProfile Config Json Override Validation.

Open Scope Z_scope.

Lemma reject_Ok b m u : reject b m = Ok u <-> b = false.
Proof. destruct b; [done|]. by destruct u. Qed.

(** Splits [H : (_ ← m; k) = Ok _] into the results of its steps. *)
Ltac ok_steps H :=
  repeat match type of H with
  | (_ ≫= _) = Ok _ =>
      let x := fresh "x" in let G := fresh "G" in
      apply bind_Ok in H; destruct H as (x & G & H);
      lazymatch type of G with reject _ _ = _ => apply reject_Ok in G | _ => idtac end
  end.

(** Nothing is in the empty list. *)
Ltac nothing_in := intros; match goal with H : _ ∈ [] |- _ => apply elem_of_nil in H end.

(** ** Routes *)

(** The port of an enabled route that Xray forwards to. *)
Definition socksPort (r : Route) (port : Z) : Prop :=
  Enabled r = true /\ transparentType (r_Type r) = true /\ loopbackPort (r_SOCKS5 r) = Some port.
Definition enabledType (t : string) (l : list Route) : Prop := exists r, r ∈ l /\ Enabled r = true /\ r_Type r = t.
Definition vlessCount (l : list Route) : Z := Z.of_nat (length (List.filter (fun r => Enabled r && (r_Type r =s "vless")) l)).

(** What [Seen] records of the routes gone through. *)
Record seenOf (l : list Route) (seen : Seen) : Prop := {
  so_tags : forall t, t ∈ sn_tags seen <-> exists r, r ∈ l /\ r_Tag r = t;
  so_distinct : NoDup (map r_Tag l);
  so_drop : sn_drop seen = true <-> enabledType "drop" l;
  so_VLESS : sn_VLESS seen = vlessCount l;
  so_zapret : sn_zapret seen = true <-> enabledType "zapret" l;
  so_transparent : sn_transparent seen = true <-> exists r, r ∈ l /\ Enabled r = true /\ transparentType (r_Type r) = true;
  so_ports : forall port t, sn_ports seen !! port = Some t <-> exists r, r ∈ l /\ socksPort r port /\ r_Tag r = t;
  so_apart : forall r r' port, r ∈ l -> r' ∈ l -> socksPort r port -> socksPort r' port -> r_Tag r = r_Tag r'
}.

(** What the loop body checks of one route. *)
Record routeOK (c : Config) (r : Route) : Prop := {
  ro_tag : routeTagPattern (r_Tag r) = true;
  ro_type : validRouteType (r_Type r) = true;
  ro_smart : Enabled r = true -> r_Type r = "smart_dns" -> publicSmartDNS r = true;
  ro_vless : Enabled r = true -> r_Type r = "vless" -> S.HasPrefix (r_SOCKS5 r) "127.0.0.1:" = true;
  ro_socks : Enabled r = true -> transparentType (r_Type r) = true ->
    r_DNSServer r = xr_ProbeDNSResolver (c_Xray c) /\ r_DNSMode r = "socks_remote" /\ exists port, loopbackPort (r_SOCKS5 r) = Some port
}.

Lemma routeTag_nonempty t : routeTagPattern t = true -> S.is_empty t = false.
Proof. by destruct t. Qed.

Lemma enabledType_snoc t l r :
  enabledType t (l ++ [r]) <-> enabledType t l \/ (Enabled r && (r_Type r =s t)) = true.
Proof.
  unfold enabledType. rewrite andb_true_iff, String.eqb_eq. split.
  - intros (x & [Hx| ->%list_elem_of_singleton]%elem_of_app & HE & Ht); [left; eauto|by right].
  - intros [(x & Hx & H)|H]; [exists x; split; [apply elem_of_app; by left|done]|].
    exists r. split; [apply elem_of_app; right; by apply list_elem_of_singleton|done].
Qed.

Lemma vlessCount_snoc l r :
  vlessCount (l ++ [r]) = vlessCount l + (if Enabled r && (r_Type r =s "vless") then 1 else 0).
Proof.
  unfold vlessCount. rewrite List.filter_app, length_app. simpl.
  destruct (Enabled r && (r_Type r =s "vless")); simpl; lia.
Qed.

Lemma validateTransparent_Ok c r ports ports' :
  validateTransparent c r ports = Ok ports' ->
  r_DNSServer r = xr_ProbeDNSResolver (c_Xray c) /\ r_DNSMode r = "socks_remote" /\
  exists port, loopbackPort (r_SOCKS5 r) = Some port /\ default "" (ports !! port) = "" /\ ports' = <[port := r_Tag r]> ports.
Proof.
  unfold validateTransparent. intros H. ok_steps H. bool_split. str_eq. split; [done|]. split; [done|].
  destruct (loopbackPort (r_SOCKS5 r)) as [port|]; [|done]. ok_steps H. bool_split. unfold S.is_empty in *. str_eq.
  injection H as <-. eauto.
Qed.

(** One iteration: the route is in order, and what was seen stays an account of
    the routes gone through. *)
Lemma validateRoute_Ok c l seen r seen' :
  seenOf l seen -> Forall (routeOK c) l -> validateRoute c seen r = Ok seen' ->
  seenOf (l ++ [r]) seen' /\ routeOK c r.
Proof.
  intros HS Hl H. unfold validateRoute in H. ok_steps H. injection H as <-.
  apply orb_false_iff in G as [Htag Htype]. apply negb_false_iff in Htag, Htype. apply bool_decide_eq_false in G0.
  set (transparent := Enabled r && transparentType (r_Type r)) in *.
  assert (HP : (forall port t, x6 !! port = Some t <-> exists r', r' ∈ l ++ [r] /\ socksPort r' port /\ r_Tag r' = t) /\
    (forall r0 r' port, r0 ∈ l ++ [r] -> r' ∈ l ++ [r] -> socksPort r0 port -> socksPort r' port -> r_Tag r0 = r_Tag r') /\
    (transparent = true -> r_DNSServer r = xr_ProbeDNSResolver (c_Xray c) /\ r_DNSMode r = "socks_remote" /\
       exists port, loopbackPort (r_SOCKS5 r) = Some port)).
  { destruct transparent eqn:ET; subst transparent.
    - apply validateTransparent_Ok in G6 as (E1 & E2 & port & Hport & Hfree & ->).
      apply andb_true_iff in ET as [HE Ht].
      assert (Hnew : socksPort r port) by done.
      assert (Hold : forall r' , r' ∈ l -> ~ socksPort r' port).
      { intros r' Hr' Hp. assert (Hm : sn_ports seen !! port = Some (r_Tag r')) by (apply (so_ports _ _ HS); eauto).
        rewrite Hm in Hfree. simpl in Hfree. rewrite Forall_forall in Hl.
        pose proof (routeTag_nonempty _ (ro_tag _ _ (Hl r' Hr'))) as Hn. unfold S.is_empty in Hn. str_eq. congruence. }
      split; [|split; [|eauto]].
      + intros p t. destruct (decide (p = port)) as [->|Hne].
        * rewrite lookup_insert_eq. split.
          -- intros [= <-]. exists r. split; [apply elem_of_app; right; by apply list_elem_of_singleton|done].
          -- intros (r' & [Hr'| ->%list_elem_of_singleton]%elem_of_app & Hp & <-); [|done]. by apply Hold in Hr'.
        * rewrite lookup_insert_ne by done. rewrite (so_ports _ _ HS). split.
          -- intros (r' & Hr' & Hp & Et). exists r'. split; [apply elem_of_app; by left|done].
          -- intros (r' & [Hr'| ->%list_elem_of_singleton]%elem_of_app & Hp & Et); [eauto|].
             destruct Hp as (_ & _ & Hp). congruence.
      + intros a b p [Ha| ->%list_elem_of_singleton]%elem_of_app [Hb| ->%list_elem_of_singleton]%elem_of_app HA HB.
        * by eapply (so_apart _ _ HS).
        * destruct HB as (_ & _ & HB). assert (p = port) as -> by congruence. by apply Hold in Ha.
        * destruct HA as (_ & _ & HA). assert (p = port) as -> by congruence. by apply Hold in Hb.
        * done.
    - injection G6 as <-. apply andb_false_iff in ET.
      assert (Hno : forall port, ~ socksPort r port) by (intros port (HE & Ht & _); destruct ET; congruence).
      split; [|split; [|done]].
      + intros p t. rewrite (so_ports _ _ HS). split.
        * intros (r' & Hr' & Hp & Et). exists r'. split; [apply elem_of_app; by left|done].
        * intros (r' & [Hr'| ->%list_elem_of_singleton]%elem_of_app & Hp & Et); [eauto|]. by apply Hno in Hp.
      + intros a b p [Ha| ->%list_elem_of_singleton]%elem_of_app [Hb| ->%list_elem_of_singleton]%elem_of_app HA HB;
          try (by apply Hno in HA); try (by apply Hno in HB). by eapply (so_apart _ _ HS). }
  destruct HP as (HP1 & HP2 & HP3). split.
  - constructor; simpl; try done.
    + intros t. rewrite elem_of_union, elem_of_singleton, (so_tags _ _ HS). split.
      * intros [->|(r' & Hr' & Et)]; [exists r|exists r']; rewrite elem_of_app, list_elem_of_singleton; auto.
      * intros (r' & [Hr'| ->%list_elem_of_singleton]%elem_of_app & Et); [right; eauto|by left].
    + rewrite map_app. apply NoDup_app. split; [apply (so_distinct _ _ HS)|]. split; [|apply NoDup_singleton].
      intros t (r' & Et & Hr')%elem_of_map ->%list_elem_of_singleton. apply G0. apply (so_tags _ _ HS). eauto.
    + rewrite orb_true_iff, (so_drop _ _ HS). by rewrite enabledType_snoc.
    + rewrite vlessCount_snoc. by rewrite (so_VLESS _ _ HS).
    + rewrite orb_true_iff, (so_zapret _ _ HS). by rewrite enabledType_snoc.
    + rewrite orb_true_iff, (so_transparent _ _ HS). split.
      * intros [(r' & Hr' & HE)|HE]; [exists r'; rewrite elem_of_app; auto|].
        apply andb_true_iff in HE. exists r. rewrite elem_of_app, list_elem_of_singleton. auto.
      * intros (r' & [Hr'| ->%list_elem_of_singleton]%elem_of_app & HE & Ht); [left; eauto|right].
        unfold transparent. by rewrite HE, Ht.
  - constructor; try done.
    + intros HE Et. rewrite HE, Et in G4. simpl in G4. by apply negb_false_iff in G4.
    + intros HE Et. rewrite HE, Et in G5. simpl in G5. by apply negb_false_iff in G5.
    + intros HE Ht. apply HP3. unfold transparent. by rewrite HE, Ht.
Qed.

Lemma nothing_seen_of : seenOf [] nothing_seen.
Proof.
  constructor; simpl; try done.
  - intros t. rewrite elem_of_empty. split; [done|]. intros (r & H & _). by apply elem_of_nil in H.
  - constructor.
  - split; [done|]. intros (r & H & _). by apply elem_of_nil in H.
  - split; [done|]. intros (r & H & _). by apply elem_of_nil in H.
  - split; [done|]. intros (r & H & _). by apply elem_of_nil in H.
  - intros port t. rewrite lookup_empty. split; [done|]. intros (r & H & _). by apply elem_of_nil in H.
  - intros r r' port H. by apply elem_of_nil in H.
Qed.

Lemma validateRoutes_Ok c l : forall before seen seen',
  seenOf before seen -> Forall (routeOK c) before -> validateRoutes c seen l = Ok seen' ->
  seenOf (before ++ l) seen' /\ Forall (routeOK c) (before ++ l).
Proof.
  induction l as [|r l IH]; intros before seen seen' HS HF H; simpl in H.
  - injection H as <-. by rewrite app_nil_r.
  - ok_steps H. eapply validateRoute_Ok in G as [HS' HR]; [|done..].
    specialize (IH (before ++ [r]) x seen' HS'). rewrite <- app_assoc in IH. apply IH; [|done].
    apply Forall_app. split; [done|]. by constructor.
Qed.

(** ** Marks *)

Lemma hexValue_digit c : hexdigit c = true -> 0 <= IP.unhex c < 16.
Proof.
  destruct c as [b0 b1 b2 b3 b4 b5 b6 b7]. destruct b0, b1, b2, b3, b4, b5, b6, b7; vm_compute; intros H; try done; by split.
Qed.
Lemma hexValue_run s acc n v rest :
  IP.hexRun acc s = (n, v, rest) -> 0 <= acc -> S.all_bytes hexdigit s = true ->
  n = S.len s /\ 0 <= v < (acc + 1) * 16 ^ n.
Proof.
  revert acc n v rest. induction s as [|c s IH]; intros acc n v rest H Hacc Hs; simpl in *.
  - injection H as <- <- <-. split; [done|]. rewrite Z.pow_0_r. lia.
  - apply andb_true_iff in Hs as [Hc Hs]. rewrite Hc in H.
    assert (Hx : 0 <= IP.unhex c < 16).
    { by apply hexValue_digit. }
    destruct (IP.hexRun (acc * 16 + IP.unhex c) s) as [[n' v'] rest'] eqn:E. injection H as <- <- <-.
    apply IH in E as [-> Hv]; [|lia|done].
    assert (HP : 0 < 16 ^ S.len s) by (apply Z.pow_pos_nonneg; [|unfold S.len]; lia).
    replace (S.len s + 1) with (Z.succ (S.len s)) by lia. split; [unfold S.len; simpl; lia|].
    rewrite Z.pow_succ_r by (unfold S.len; lia). split; [lia|].
    eapply Z.lt_le_trans; [apply Hv|]. replace ((acc + 1) * (16 * 16 ^ S.len s)) with ((acc * 16 + 16) * 16 ^ S.len s) by ring.
    apply Z.mul_le_mono_nonneg_r; lia.
Qed.

Lemma substring_or_short s n : String.substring 0 n s = s \/ (n < String.length s)%nat.
Proof.
  revert n. induction s as [|c s IH]; intros [|n]; simpl; auto; [right; lia|].
  destruct (IH n) as [-> |H]; [by left|right; lia].
Qed.
(** Behind a prefix stands the rest. *)
Lemma behind_prefix p s : S.HasPrefix s p = true -> s = p +:+ behind p s.
Proof.
  unfold S.HasPrefix, behind. revert s. induction p as [|c p IH]; intros s H; simpl.
  - destruct (substring_or_short s (String.length s - 0)) as [E|E]; [done|lia].
  - destruct s as [|c' s]; [done|]. simpl in H. destruct (Ascii.ascii_dec c c') as [->|]; [|done]. simpl. f_equal. by apply IH.
Qed.

(** A mark in order is a non-zero 32-bit number. *)
Lemma parseFirewallMark_range s v : parseFirewallMark s = Ok v -> 1 <= v < 2 ^ 32.
Proof.
  unfold parseFirewallMark. destruct (firewallMarkPattern s) eqn:E; [|done]. simpl. unfold hexValue.
  destruct (IP.hexRun 0 (behind "0x" s)) as [[n v'] rest] eqn:EH. simpl. destruct (v' =? 0) eqn:E0; [done|]. intros [= <-].
  apply Z.eqb_neq in E0. unfold firewallMarkPattern in E. bool_split.
  match goal with H : S.HasPrefix s _ = true |- _ => apply behind_prefix, (f_equal S.len) in H; rewrite len_app in H; change (S.len "0x") with 2 in H end.
  apply hexValue_run in EH as [-> Hv]; [|done|].
  - assert (HP : 16 ^ S.len (behind "0x" s) <= 16 ^ 8)
      by (apply Z.pow_le_mono_r; lia). change (16 ^ 8) with (2 ^ 32) in HP. lia.
  - done.
Qed.

Record marksOK (c : Config) (l : list Route) : Prop := {
  mk_mark : forall r, r ∈ l -> Enabled r = true -> exists v, parseFirewallMark (markOf c r) = Ok v /\ 1 <= v < 2 ^ 32;
  mk_table : forall r, r ∈ l -> Enabled r = true -> r_Type r <> "drop" -> 1 <= tableForRouteType c (r_Type r);
  mk_agree : forall r r' v, r ∈ l -> r' ∈ l -> Enabled r = true -> Enabled r' = true ->
    parseFirewallMark (markOf c r) = Ok v -> parseFirewallMark (markOf c r') = Ok v ->
    tableForRouteType c (r_Type r) = tableForRouteType c (r_Type r')
}.

(** The loop from a map of the marks seen so far. *)
Lemma validateMarks_go c l : forall tables u,
  validateMarks c tables l = Ok u ->
  marksOK c l /\
  forall r v t, r ∈ l -> Enabled r = true -> parseFirewallMark (markOf c r) = Ok v -> tables !! v = Some t ->
    tableForRouteType c (r_Type r) = t.
Proof.
  induction l as [|r l IH]; intros tables u H; simpl in H.
  { split; [constructor|]; by nothing_in. }
  destruct (Enabled r) eqn:HE; simpl in H.
  - destruct (parseFirewallMark (markOf c r)) as [value|] eqn:Em; [|done]. ok_steps H.
    apply IH in H as [[M1 M2 M3] HT].
    assert (Hsame : forall r', r' ∈ l -> Enabled r' = true -> parseFirewallMark (markOf c r') = Ok value ->
              tableForRouteType c (r_Type r') = tableForRouteType c (r_Type r))
      by (intros r' Hr' HE' Em'; eapply HT; [done..|]; apply lookup_insert_eq).
    split; [constructor|].
    + intros r' [->|Hr']%elem_of_cons HE'; [|by apply M1]. exists value. split; [done|]. by eapply parseFirewallMark_range.
    + intros r' [->|Hr']%elem_of_cons HE' Hd; [|by apply M2]. apply andb_false_iff in G as [G|G]; [|lia].
      apply negb_false_iff in G. by str_eq.
    + intros a b v [->|Ha]%elem_of_cons [->|Hb]%elem_of_cons HEa HEb Ea Eb; [done| | |by eapply M3].
      * symmetry. apply Hsame; [done..|]. congruence.
      * apply Hsame; [done..|]. congruence.
    + intros a v t [->|Ha]%elem_of_cons HEa Ea Et.
      * assert (v = value) as -> by congruence. rewrite Et in G0. apply negb_false_iff, Z.eqb_eq in G0. done.
      * destruct (decide (v = value)) as [->|Hne].
        -- rewrite Et in G0. apply negb_false_iff, Z.eqb_eq in G0. subst t. by apply Hsame.
        -- eapply HT; [done..|]. by rewrite lookup_insert_ne.
  - apply IH in H as [[M1 M2 M3] HT]. split; [constructor|].
    + intros r' [->|Hr']%elem_of_cons HE'; [congruence|by apply M1].
    + intros r' [->|Hr']%elem_of_cons HE' Hd; [congruence|by apply M2].
    + intros a b v [->|Ha]%elem_of_cons [->|Hb]%elem_of_cons HEa HEb; try congruence. by apply M3.
    + intros a v t [->|Ha]%elem_of_cons HEa; [congruence|by apply HT].
Qed.

(** ** Services *)

Section Services.
Context (toASCII : string -> option string) (parseRequestURI : string -> option URL).

Definition normal (d : string) : Prop := exists raw, normalizeDomain toASCII raw = Some d.

Record probeOK (p : ProbeCheck) : Prop := {
  po_named : pc_Name p <> "" /\ pc_URL p <> "";
  po_url : parseRequestURI (pc_URL p) <> None;
  po_codes : pc_ExpectedCodes p <> [];
  po_body : containsString bodyModes (pc_BodyMode p) = true
}.

Record serviceOK (c : Config) (svc : Service) : Prop := {
  sv_category : validServiceCategory (s_Category svc) = true;
  sv_domains : s_Domains svc <> [] /\ Forall normal (s_Domains svc);
  sv_allowed : s_AllowedPaths svc <> [] /\ NoDup (s_AllowedPaths svc);
  sv_forbidden : NoDup (s_ForbiddenPaths svc);
  sv_types : forall p, p ∈ s_AllowedPaths svc \/ p ∈ s_ForbiddenPaths svc -> validRouteType p = true;
  sv_apart : forall p, p ∈ s_AllowedPaths svc -> p ∈ s_ForbiddenPaths svc -> False;
  sv_selected : s_SelectedRouteTag svc <> "" -> exists route,
    RouteByTag c (s_SelectedRouteTag svc) = Some route /\ Enabled route = true /\ PathAllowed svc route (c_Policy c) = true;
  sv_direct : s_Category svc = "DIRECT_ONLY" -> s_AllowedPaths svc = ["direct"];
  sv_geo : s_Category svc = "GEO_LOCKED" -> s_RequireNonRUEgress svc = true /\
    ("direct" ∈ s_AllowedPaths svc -> GeoLockedAllowDirect (c_Policy c) = true) /\
    ("zapret" ∈ s_AllowedPaths svc -> GeoLockedAllowZapret (c_Policy c) = true);
  sv_probes : Forall probeOK (s_ProbeURLs svc) /\ Z.of_nat (length (s_ProbeURLs svc)) <= MaxProbeURLsPerService
}.

Lemma validateAllowed_Ok name l : forall seen seen',
  validateAllowed name seen l = Ok seen' <->
  (forall p, p ∈ l -> validRouteType p = true /\ p ∉ seen) /\ NoDup l /\ seen' = list_to_set l ∪ seen.
Proof.
  induction l as [|p l IH]; intros seen seen'; simpl.
  - split; [intros [= <-]; split; [by nothing_in|]; split; [constructor|set_solver]|intros (_ & _ & ->); f_equal; set_solver].
  - rewrite bind_Ok. setoid_rewrite reject_Ok. setoid_rewrite orb_false_iff. setoid_rewrite negb_false_iff.
    setoid_rewrite bool_decide_eq_false. setoid_rewrite IH. rewrite NoDup_cons. setoid_rewrite elem_of_cons. split.
    + intros (u & [Hv Hp] & Hl & HN & ->). split; [|split; [|set_solver]].
      * intros q [->|Hq]; [done|]. specialize (Hl q Hq). set_solver.
      * split; [|done]. intros Hin. specialize (Hl p Hin). set_solver.
    + intros (Hl & [Hp HN] & ->). exists (). split; [apply Hl; by left|]. split; [|split; [done|set_solver]].
      intros q Hq. destruct (Hl q (or_intror Hq)) as [Hv Hs]. split; [done|]. set_solver.
Qed.

Lemma forbidden_not_type p : validRouteType ("forbidden:" +:+ p) = false.
Proof. done. Qed.
Lemma forbidden_inj p q : "forbidden:" +:+ p = "forbidden:" +:+ q -> p = q.
Proof. by intros [= ->]. Qed.

(** [seen] holds the allowed paths and the marked forbidden ones [before]. *)
Lemma validateForbidden_Ok name (allowed l : list string) : forall (before : list string) (seen : gset string) u,
  (forall p, p ∈ allowed -> validRouteType p = true) ->
  (forall t, t ∈ seen <-> t ∈ allowed \/ exists p, p ∈ before /\ t = "forbidden:" +:+ p) ->
  validateForbidden name seen l = Ok u <->
  (forall p, p ∈ l -> validRouteType p = true /\ p ∉ before /\ p ∉ allowed) /\ NoDup l.
Proof.
  induction l as [|p l IH]; intros before seen u Ha Hs; cbn [validateForbidden].
  { split; [intros _; split; [by nothing_in|constructor]|]. by destruct u. }
  rewrite bind_Ok. setoid_rewrite bind_Ok. setoid_rewrite reject_Ok. setoid_rewrite orb_false_iff.
  setoid_rewrite negb_false_iff. setoid_rewrite bool_decide_eq_false.
  rewrite (NoDup_cons p l).
  assert (HI := fun x => IH (p :: before) ({["forbidden:" +:+ p]} ∪ seen) x Ha). setoid_rewrite (HI u); clear HI.
  2: { intros t. rewrite elem_of_union, elem_of_singleton, Hs. split.
    - intros [->|[H|(q & Hq & ->)]]; [right; exists p; split; [left|done]|by left|right; exists q; split; [by right|done]].
    - intros [H|(q & [->|Hq]%elem_of_cons & ->)]; [by right; left|by left|right; right; by exists q]. }
  assert (Hmark : "forbidden:" +:+ p ∈ seen <-> p ∈ before).
  { rewrite Hs. split.
    - intros [H|(q & Hq & E)]; [apply Ha in H; by rewrite forbidden_not_type in H|by apply forbidden_inj in E as ->].
    - intros H. right. eauto. }
  assert (Hplain : validRouteType p = true -> p ∈ seen <-> p ∈ allowed).
  { intros Hv. rewrite Hs. split; [|by left]. intros [H|(q & _ & ->)]; [done|]. by rewrite forbidden_not_type in Hv. }
  setoid_rewrite elem_of_cons. split.
  - intros (_ & [Hv Hm] & _ & Hp & Hl & HN). rewrite Hmark in Hm. rewrite (Hplain Hv) in Hp.
    split; [|split; [|done]].
    + intros q [->|Hq]; [done|]. destruct (Hl q Hq) as (? & Hn & ?). split; [done|]. split; [|done]. intros Hb. apply Hn. by right.
    + intros Hin. destruct (Hl p Hin) as (_ & Hn & _). apply Hn. by left.
  - intros (Hl & Hp & HN). destruct (Hl p (or_introl eq_refl)) as (Hv & Hb & Hna). exists (). split; [by rewrite Hmark|].
    exists (). split; [by rewrite (Hplain Hv)|]. split; [|done]. intros q Hq. destruct (Hl q (or_intror Hq)) as (Hv' & Hb' & Ha').
    split; [done|]. split; [|done]. intros [->|?]; done.
Qed.

Lemma validateDomains_Ok name l : forall owners ds owners',
  validateDomains toASCII name owners l = Ok (ds, owners') <->
  Forall2 (fun raw d => normalizeDomain toASCII raw = Some d) l ds /\
  (forall d, d ∈ ds -> default "" (owners !! d) = "" \/ default "" (owners !! d) = name) /\
  owners' = foldl (fun m d => <[d := name]> m) owners ds.
Proof.
  induction l as [|raw l IH]; intros owners ds owners'; simpl.
  { split; [intros [= <- <-]; split; [constructor|]; split; [by nothing_in|done]|].
    intros (H & _ & ->). by inversion H. }
  destruct (normalizeDomain toASCII raw) as [d|] eqn:En.
  2: { split; [done|]. intros (H & _). inversion H. congruence. }
  rewrite bind_Ok. setoid_rewrite reject_Ok. setoid_rewrite bind_Ok.
  assert (Hown : negb (S.is_empty (default "" (owners !! d))) && (default "" (owners !! d) <>s name) = false <->
            default "" (owners !! d) = "" \/ default "" (owners !! d) = name).
  { unfold S.is_empty. rewrite andb_false_iff, !negb_false_iff, !String.eqb_eq. done. }
  split.
  - intros (u & Ho & [more o'] & HM & [= <- <-]). apply IH in HM as (HF & Hds & ->). apply Hown in Ho.
    split; [by constructor|]. split; [|done]. intros x [->|Hx]%elem_of_cons; [done|].
    specialize (Hds x Hx). destruct (decide (x = d)) as [->|Hne]; [done|]. by rewrite lookup_insert_ne in Hds.
  - intros (HF & Hds & ->). inversion HF as [|? d' ? ds' Hd HF']; subst. assert (d' = d) as -> by congruence.
    exists (). split; [apply Hown, Hds; left|]. exists (ds', foldl (fun m x => <[x := name]> m) (<[d := name]> owners) ds').
    split; [|done]. apply IH. split; [done|]. split; [|done]. intros x Hx. destruct (decide (x = d)) as [->|Hne].
    + rewrite lookup_insert_eq. by right.
    + rewrite lookup_insert_ne by done. apply Hds. by right.
Qed.

Lemma validateProbes_Ok name l u : validateProbes parseRequestURI name l = Ok u <-> Forall probeOK l.
Proof.
  induction l as [|p l IH]; simpl; [destruct u; split; [constructor|done]|].
  rewrite Forall_cons, <- IH. repeat setoid_rewrite bind_Ok. setoid_rewrite reject_Ok.
  unfold S.is_empty. setoid_rewrite orb_false_iff. setoid_rewrite String.eqb_neq. setoid_rewrite bool_decide_eq_false.
  setoid_rewrite Nat.eqb_neq. setoid_rewrite negb_false_iff. split.
  - intros (_ & Hn & _ & Hu & _ & Hc & _ & Hb & Hl). split; [|done]. constructor; try done. intros E. by rewrite E in Hc.
  - intros [[Hn Hu Hc Hb] Hl]. exists (). split; [done|]. exists (). split; [done|]. exists (). split; [by destruct (pc_ExpectedCodes p)|].
    by exists ().
Qed.

(** The domains [ds] of [name] have no other owner. *)
Definition unclaimed (owners : gmap string string) (name : string) (ds : list string) : Prop :=
  forall d, d ∈ ds -> default "" (owners !! d) = "" \/ default "" (owners !! d) = name.
Definition claim (owners : gmap string string) (name : string) (ds : list string) : gmap string string :=
  foldl (fun m d => <[d := name]> m) owners ds.
(** [svc'] is [svc] with its domains normalised. *)
Definition normalized (svc svc' : Service) : Prop :=
  Forall2 (fun raw d => normalizeDomain toASCII raw = Some d) (s_Domains svc) (s_Domains svc') /\
  svc' = set_s_Domains (s_Domains svc') svc.

Lemma validateSelected_Ok c name svc u :
  validateSelected c name svc = Ok u <->
  (s_SelectedRouteTag svc <> "" -> exists route,
    RouteByTag c (s_SelectedRouteTag svc) = Some route /\ Enabled route = true /\ PathAllowed svc route (c_Policy c) = true).
Proof.
  unfold validateSelected. rewrite reject_Ok. unfold S.is_empty. rewrite andb_false_iff, negb_false_iff, String.eqb_eq. split.
  - intros [E|E] Hne; [done|]. destruct (RouteByTag c (s_SelectedRouteTag svc)) as [r|]; [|done]. bool_split. eauto.
  - intros H. destruct (decide (s_SelectedRouteTag svc = "")) as [E|Hne]; [by left|right].
    destruct (H Hne) as (r & -> & -> & ->). done.
Qed.

Lemma validateCategory_Ok c name svc u :
  validateCategory c name svc = Ok u <->
  (s_Category svc = "DIRECT_ONLY" -> s_AllowedPaths svc = ["direct"]) /\
  (s_Category svc = "GEO_LOCKED" -> s_RequireNonRUEgress svc = true /\
    ("direct" ∈ s_AllowedPaths svc -> GeoLockedAllowDirect (c_Policy c) = true) /\
    ("zapret" ∈ s_AllowedPaths svc -> GeoLockedAllowZapret (c_Policy c) = true)).
Proof.
  unfold validateCategory. rewrite bind_Ok. setoid_rewrite reject_Ok.
  assert (HD : (s_Category svc =s "DIRECT_ONLY") && negb match s_AllowedPaths svc with [path] => path =s "direct" | _ => false end = false <->
    (s_Category svc = "DIRECT_ONLY" -> s_AllowedPaths svc = ["direct"])).
  { rewrite andb_false_iff, negb_false_iff. split.
    - intros [E|E] Ec; [str_eq; done|]. destruct (s_AllowedPaths svc) as [|p [|]]; try done. str_eq. by subst.
    - intros H. destruct (s_Category svc =s "DIRECT_ONLY") eqn:E; [right; str_eq; by rewrite (H E)|by left]. }
  setoid_rewrite HD. clear HD. destruct (s_Category svc =s "GEO_LOCKED") eqn:E; str_eq.
  - setoid_rewrite bind_Ok. setoid_rewrite reject_Ok. setoid_rewrite orb_false_iff.
    assert (HG : forall t b, containsString (s_AllowedPaths svc) t && negb b = false <-> (t ∈ s_AllowedPaths svc -> b = true)).
    { intros t b. rewrite andb_false_iff, negb_false_iff, <- containsString_true. destruct (containsString _ t), b; naive_solver. }
    setoid_rewrite HG. split.
    + intros (_ & HD & _ & HR & Hd & Hz). split; [done|]. intros _. apply negb_false_iff in HR. done.
    + intros (HD & HG'). destruct (HG' E) as (HR & Hd & Hz). exists (). split; [done|]. exists (). by rewrite HR.
  - split; [intros (_ & HD & _); split; [done|congruence]|intros (HD & _); exists (); split; [done|by destruct u]].
Qed.

(** The check of a service, with the domains claimed so far. *)
Lemma validateService_Ok c owners name svc svc' owners' :
  validateService toASCII parseRequestURI c owners name svc = Ok (svc', owners') <->
  serviceOK c svc' /\ normalized svc svc' /\ unclaimed owners name (s_Domains svc') /\ owners' = claim owners name (s_Domains svc').
Proof.
  unfold validateService, normalized. split.
  - intros H. ok_steps H. destruct x6 as [ds o]. ok_steps H. injection H as <- <-.
    apply validateAllowed_Ok in G2 as (Ha & HNa & ->). pose proof (proj1 (validateSelected_Ok _ _ _ _) G4) as HSel.
    apply validateCategory_Ok in G5 as [HD HG]. apply validateDomains_Ok in G6 as (HF & Hun & ->). apply validateProbes_Ok in G7.
    apply (validateForbidden_Ok name (s_AllowedPaths svc) _ []) in G3 as [Hf HNf]; [|intros p Hp; by apply Ha|].
    2: { intros t. rewrite elem_of_union, elem_of_list_to_set, elem_of_empty. split; [intros [?|[]]; by left|].
         intros [?|(p & Hp & _)]; [by left|]. by apply elem_of_nil in Hp. }
    split; [|done]. constructor; simpl; try done.
    + by apply negb_false_iff in G.
    + split; [intros ->; inversion HF as [E|]; subst; by rewrite <- E in G0|].
      clear -HF. induction HF; constructor; [by eexists|done].
    + split; [|done]. intros E. by rewrite E in G1.
    + intros p [Hp|Hp]; [by apply Ha|by apply Hf].
    + intros p Hp Hq. by apply (Hf p Hq).
    + split; [done|]. unfold MaxProbeURLsPerService in *. lia.
  - intros (HOK & [HF E] & Hun & ->). set (ds := s_Domains svc') in *. clearbody ds. subst svc'.
    destruct HOK as [H1 [H2 _] [H3 H4] H5 H6 H7 H8 H9 H10 [H11 H12]]. simpl in *. rewrite H1. simpl.
    assert (E0 : (length (s_Domains svc) =? 0)%nat = false) by (apply Nat.eqb_neq; intros E; apply H2; destruct (s_Domains svc); [by inversion HF|done]).
    rewrite E0. assert (E1 : (length (s_AllowedPaths svc) =? 0)%nat = false) by (by destruct (s_AllowedPaths svc)). rewrite E1. simpl.
    assert (EA : validateAllowed name ∅ (s_AllowedPaths svc) = Ok (list_to_set (s_AllowedPaths svc) ∪ ∅)).
    { apply validateAllowed_Ok. split; [|done]. intros p Hp. split; [apply H6; by left|apply not_elem_of_empty]. }
    rewrite EA. simpl.
    assert (EF : validateForbidden name (list_to_set (s_AllowedPaths svc) ∪ ∅) (s_ForbiddenPaths svc) = Ok ()).
    { apply (validateForbidden_Ok name (s_AllowedPaths svc) _ []); [intros p Hp; apply H6; by left| |].
      - intros t. rewrite elem_of_union, elem_of_list_to_set, elem_of_empty. split; [intros [?|[]]; by left|].
        intros [?|(p & Hp & _)]; [by left|]. by apply elem_of_nil in Hp.
      - split; [|done]. intros p Hp. split; [apply H6; by right|]. split; [apply not_elem_of_nil|]. intros Hq. by apply (H7 p). }
    rewrite EF. simpl. assert (ES : validateSelected c name svc = Ok ()) by (by apply validateSelected_Ok). rewrite ES. simpl.
    assert (EC : validateCategory c name svc = Ok ()) by (by apply validateCategory_Ok). rewrite EC. simpl.
    assert (ED : validateDomains toASCII name owners (s_Domains svc) = Ok (ds, claim owners name ds))
      by (by apply validateDomains_Ok).
    rewrite ED. simpl. assert (EP : validateProbes parseRequestURI name (s_ProbeURLs svc) = Ok ()) by (by apply validateProbes_Ok). rewrite EP. simpl.
    assert (EL : (MaxProbeURLsPerService <? Z.of_nat (length (s_ProbeURLs svc))) = false) by lia. by rewrite EL.
Qed.

(** ** All services *)

Definition shares (a b : Service) : Prop := exists d, d ∈ s_Domains a /\ d ∈ s_Domains b.
(** Every claim stands for a service of the list, and every service that has a
    name holds its domains. *)
Record ownership (owners : gmap string string) (l : list (string * Service)) : Prop := {
  ow_claim : forall d n, owners !! d = Some n -> exists svc, (n, svc) ∈ l /\ d ∈ s_Domains svc;
  ow_holds : forall n svc d, (n, svc) ∈ l -> d ∈ s_Domains svc -> n <> "" -> owners !! d = Some n
}.

Lemma claim_lookup owners name ds d :
  claim owners name ds !! d = if decide (d ∈ ds) then Some name else owners !! d.
Proof.
  unfold claim. revert owners. induction ds as [|x ds IH]; intros owners.
  - rewrite decide_False by apply not_elem_of_nil. done.
  - cbn [foldl]. rewrite IH. destruct (decide (d ∈ ds)) as [Hd|Hd]; [by rewrite decide_True by (by right)|].
    destruct (decide (d = x)) as [->|Hne]; [by rewrite lookup_insert_eq, decide_True by left|].
    rewrite lookup_insert_ne by done. by rewrite decide_False by (by intros [?|?]%elem_of_cons).
Qed.

(** The claims of the services [l], one after the other. *)
Fixpoint claims (owners : gmap string string) (l : list (string * Service)) : Prop :=
  match l with
  | [] => True
  | (name, svc) :: rest => unclaimed owners name (s_Domains svc) /\ claims (claim owners name (s_Domains svc)) rest
  end.
Definition checked (c : Config) (x y : string * Service) : Prop := x.1 = y.1 /\ normalized x.2 y.2 /\ serviceOK c y.2.
Definition enter (m : gmap string Service) (l : list (string * Service)) : gmap string Service :=
  foldl (fun m x => <[x.1 := x.2]> m) m l.

Lemma validateServices_Ok c l : forall owners done out,
  validateServices toASCII parseRequestURI c owners l done = Ok out <->
  exists l', Forall2 (checked c) l l' /\ claims owners l' /\ out = enter done l'.
Proof.
  induction l as [|[name svc] l IH]; intros owners done out; simpl.
  { split; [intros [= <-]; exists []; by split_and!|]. intros (l' & HF & _ & ->). by inversion HF. }
  rewrite bind_Ok. split.
  - intros ([svc' o'] & HS & HR). apply validateService_Ok in HS as (HOK & HN & HU & ->). apply IH in HR as (l' & HF & HC & ->).
    exists ((name, svc') :: l'). split; [by constructor|done].
  - intros (l' & HF & HC & ->). inversion HF as [|? [n' svc'] ? l'' (E & HN & HOK) HF']; subst. simpl in *. subst n'. destruct HC as [HU HC].
    exists (svc', claim owners name (s_Domains svc')). split; [by apply validateService_Ok|]. apply IH. by exists l''.
Qed.

Lemma ownership_nil : ownership ∅ [].
Proof. constructor; [intros d n; by rewrite lookup_empty|by nothing_in]. Qed.

Lemma ownership_step owners l name svc :
  ownership owners l -> unclaimed owners name (s_Domains svc) -> ownership (claim owners name (s_Domains svc)) (l ++ [(name, svc)]).
Proof.
  intros [H1 H2] HU. constructor.
  - intros d n. rewrite claim_lookup. case_decide as Hd.
    + intros [= <-]. exists svc. split; [apply elem_of_app; right; by apply list_elem_of_singleton|done].
    + intros (s & Hs & Hin)%H1. exists s. split; [apply elem_of_app; by left|done].
  - intros n s d [Hs|[= -> ->]%list_elem_of_singleton]%elem_of_app Hin Hne; rewrite claim_lookup; [|by rewrite decide_True].
    pose proof (H2 n s d Hs Hin Hne) as Ho. case_decide as Hd; [|done]. destruct (HU d Hd) as [E|E]; rewrite Ho in E; simpl in E; congruence.
Qed.

(** No domain has two owners that have a name. *)
Definition apart (l : list (string * Service)) : Prop :=
  forall n svc m svc', (n, svc) ∈ l -> (m, svc') ∈ l -> shares svc svc' -> n <> "" -> m <> "" -> n = m.

Lemma claims_apart l : forall owners before, ownership owners before -> claims owners l -> apart (before ++ l).
Proof.
  induction l as [|[name svc] l IH]; intros owners before HO HC.
  - intros n s m s' Hn Hm (d & Hd & Hd') Hne Hme. rewrite app_nil_r in Hn, Hm. destruct HO as [_ HO].
    pose proof (HO n s d Hn Hd Hne). pose proof (HO m s' d Hm Hd' Hme). congruence.
  - destruct HC as [HU HC]. specialize (IH _ _ (ownership_step _ _ _ _ HO HU) HC). by rewrite <- app_assoc in IH.
Qed.

(** Services that share no domain can be claimed in any order. *)
Lemma apart_claims l : forall owners before,
  (forall d n, owners !! d = Some n -> exists svc, (n, svc) ∈ before /\ d ∈ s_Domains svc) ->
  (forall n svc m svc', (n, svc) ∈ before ++ l -> (m, svc') ∈ before ++ l -> shares svc svc' -> n = m) -> claims owners l.
Proof.
  induction l as [|[name svc] l IH]; intros owners before HO HA; simpl; [done|]. split.
  - intros d Hd. destruct (owners !! d) as [n|] eqn:E; [|by left]. right. simpl. apply HO in E as (s & Hs & Hin).
    eapply HA; [apply elem_of_app; left; exact Hs|apply elem_of_app; right; left|by exists d].
  - apply (IH _ (before ++ [(name, svc)])); [|by rewrite <- app_assoc].
    intros d n. rewrite claim_lookup. case_decide as Hd.
    + intros [= <-]. exists svc. split; [apply elem_of_app; right; by apply list_elem_of_singleton|done].
    + intros (s & Hs & Hin)%HO. exists s. split; [apply elem_of_app; by left|done].
Qed.

Lemma enter_lookup l : forall m name,
  NoDup (map fst l) -> enter m l !! name = match first (fun x => x.1 =s name) l with Some x => Some x.2 | None => m !! name end.
Proof.
  unfold enter. induction l as [|[n svc] l IH]; intros m name HN; simpl; [done|]. inversion HN as [|? ? Hn HN']; subst.
  rewrite IH by done. destruct (n =s name) eqn:E; str_eq.
  - subst n. destruct (first _ l) as [[k s]|] eqn:Ef; [|by rewrite lookup_insert_eq].
    apply first_Some in Ef as [Hin Ek]. simpl in Ek. str_eq. subst k. exfalso. apply Hn. apply elem_of_map. by exists (name, s).
  - destruct (first _ l); [done|]. by rewrite lookup_insert_ne.
Qed.

(** A walk through a map: all its entries, each once. *)
Definition walks (walk : gmap string Service -> list (string * Service)) : Prop := forall m, walk m ≡ₚ map_to_list m.

Lemma walk_NoDup walk m : walks walk -> NoDup (map fst (walk m)).
Proof.
  intros HW. rewrite (Permutation_map fst (HW m)). apply (NoDup_fst_map_to_list m).
Qed.
Lemma elem_of_walk walk m name svc : walks walk -> (name, svc) ∈ walk m <-> m !! name = Some svc.
Proof. intros HW. by rewrite (HW m), elem_of_map_to_list. Qed.

Lemma checked_names c l l' : Forall2 (checked c) l l' -> map fst l' = map fst l.
Proof. induction 1 as [|x y l l' (E & _) _ IH]; simpl; [done|]. by rewrite E, IH. Qed.

Lemma first_unique (l : list (string * Service)) name svc :
  NoDup (map fst l) -> (name, svc) ∈ l <-> exists x, first (fun x => x.1 =s name) l = Some x /\ x.2 = svc.
Proof.
  induction l as [|[n s] l IH]; intros HN; simpl.
  - split; [by nothing_in|by intros (x & H & _)].
  - inversion HN as [|? ? Hn HN']; subst. rewrite elem_of_cons. destruct (n =s name) eqn:E; str_eq.
    + subst n. split; [|intros (x & [= <-] & <-); by left]. intros [[= ->]|Hin]; [by eexists|].
      exfalso. apply Hn. apply elem_of_map. by exists (name, svc).
    + rewrite <- IH by done. split; [intros [[= -> ->]|?]; done|by right].
Qed.

(** The result of the walk: the entries checked, each under its name. *)
Lemma enter_walk walk c services l' name svc :
  walks walk -> Forall2 (checked c) (walk services) l' -> enter services l' !! name = Some svc <-> (name, svc) ∈ l'.
Proof.
  intros HW HF. pose proof (checked_names _ _ _ HF) as EN.
  assert (HN : NoDup (map fst l')) by (rewrite EN; by apply walk_NoDup).
  rewrite enter_lookup by done. rewrite first_unique by done. destruct (first _ l') as [x|] eqn:E.
  - split; [intros [= <-]; by exists x|by intros (y & [= ->] & <-)].
  - split; [|by intros (y & H & _)]. intros Hs. exfalso.
    assert (Hin : name ∈ map fst l') by (rewrite EN; apply elem_of_map; exists (name, svc); split; [done|by apply elem_of_walk]).
    apply elem_of_map in Hin as ([n s] & -> & Hin). pose proof (first_None _ _ _ E Hin) as HF'. simpl in HF'. by rewrite String.eqb_refl in HF'.
Qed.

(** Every service of the result is in order, and no two with a name share a
    domain. *)
Lemma validateServices_wf walk c services out :
  walks walk -> validateServices toASCII parseRequestURI c ∅ (walk services) services = Ok out ->
  (forall name svc, out !! name = Some svc -> serviceOK c svc) /\
  (forall n svc m svc', out !! n = Some svc -> out !! m = Some svc' -> shares svc svc' -> n <> "" -> m <> "" -> n = m).
Proof.
  intros HW (l' & HF & HC & ->)%validateServices_Ok. split.
  - intros name svc Hs. apply (enter_walk walk c) in Hs; [|done..]. rewrite list_elem_of_lookup in Hs. destruct Hs as [i Hi].
    pose proof (Forall2_lookup_r _ _ _ _ _ HF Hi) as (x & _ & _ & _ & HOK). exact HOK.
  - intros n svc m svc' Hn Hm. apply (enter_walk walk c) in Hn, Hm; try done. by apply (claims_apart l' ∅ [] ownership_nil HC).
Qed.
End Services.

(** ** Well-formed configurations *)

Record managedZapret (z : Zapret) : Prop := {
  mz_mode : z_ActivationMode z = "managed";
  mz_paths : z_Binary z = "/usr/bin/nfqws" /\ z_InitScript z = "/etc/init.d/router-policy-zapret" /\
    z_ActiveConfig z = "/etc/router-policy/zapret/nfqws.conf";
  mz_queue : 1 <= z_QueueNum z <= 65535;
  mz_strategy : z_Strategy z = "tls-fake-ttl3-v1"
}.

(** The port is no route's loopback endpoint. *)
Definition noListener (c : Config) (port : Z) : Prop := forall r, r ∈ c_Routes c -> ~ socksPort r port.

Record transparentOK (c : Config) : Prop := {
  tr_port : 1024 <= xr_TransparentPort (c_Xray c) <= 65535;
  tr_free : noListener c (xr_TransparentPort (c_Xray c));
  tr_resolver : publicResolver (xr_ProbeDNSResolver (c_Xray c)) = true;
  tr_marks : exists values, Forall2 (fun nm v => parseFirewallMark nm.2 = Ok v) (openwrtMarks (c_OpenWrt c)) values /\ NoDup values
}.
Record dnsProxyOK (c : Config) : Prop := {
  dx_range : 1024 <= dnsProxyBasePort c /\ dnsProxyBasePort c + vlessCount (c_Routes c) - 1 <= 65535;
  dx_free : forall port, dnsProxyBasePort c <= port < dnsProxyBasePort c + vlessCount (c_Routes c) ->
    port <> xr_TransparentPort (c_Xray c) /\ noListener c port
}.

Record wf toASCII parseRequestURI (order : list (string * Service)) (c : Config) : Prop := {
  wf_version : 2 <= c_Version c;
  wf_count : 1 <= Z.of_nat (length (c_Routes c)) <= 64;
  wf_routes : Forall (routeOK c) (c_Routes c);
  wf_tags : NoDup (map r_Tag (c_Routes c));
  wf_drop : enabledType "drop" (c_Routes c);
  wf_socks : forall r r' port, r ∈ c_Routes c -> r' ∈ c_Routes c -> socksPort r port -> socksPort r' port -> r_Tag r = r_Tag r';
  wf_nft : containsString [""; "inet"] (NFTFamily (c_OpenWrt c)) = true /\
    (NFTTable (c_OpenWrt c) <> "" -> nftTablePattern (NFTTable (c_OpenWrt c)) = true);
  wf_flow : containsString [""; "preserve"; "disable"] (FlowOffloadingPolicy (c_OpenWrt c)) = true;
  wf_marks : marksOK c (c_Routes c);
  wf_bundle : enabledType "vless" (c_Routes c) -> sha256ReferencePattern (xr_OutboundBundleSHA256 (c_Xray c)) = true;
  wf_no_bundle : ~ enabledType "vless" (c_Routes c) -> xr_OutboundBundleSHA256 (c_Xray c) = "";
  wf_zapret : enabledType "zapret" (c_Routes c) -> managedZapret (c_Zapret c);
  wf_devices : z_DeviceProfiles (c_Zapret c) <> [] ->
    enabledType "zapret" (c_Routes c) /\ ValidateProfiles (z_DeviceProfiles (c_Zapret c)) = None /\
    forall p, p ∈ z_DeviceProfiles (c_Zapret c) -> dv_QueueNum p <> z_QueueNum (c_Zapret c);
  wf_transparent : (exists r, r ∈ c_Routes c /\ Enabled r = true /\ transparentType (r_Type r) = true) -> transparentOK c;
  wf_dns : 0 < vlessCount (c_Routes c) -> dnsProxyOK c;
  wf_services : forall name svc, c_Services c !! name = Some svc -> serviceOK toASCII parseRequestURI c svc;
  wf_domains : forall n svc m svc', c_Services c !! n = Some svc -> c_Services c !! m = Some svc' ->
    shares svc svc' -> n <> "" -> m <> "" -> n = m;
  wf_overrides : Forall (override_ok order c) (c_Overrides c) /\ NoDup (map o_ID (c_Overrides c));
  wf_override_domains : Forall (fun o => o_Domain o <> "" -> normal toASCII (o_Domain o)) (c_Overrides c);
  wf_weights : Forall (fun w => weightOK w = true) (let w := RouteSelectionWeightsOf (c_Policy c) in
    [EndToEndLatency w; Availability w; ErrorRate w; Privacy w])
}.

(** What is checked of a route, a mark or a service does not depend on the
    services and overrides. *)
Definition withParts (services : gmap string Service) (overrides : list PolicyOverride) (c : Config) : Config :=
  set_c_Overrides overrides (set_c_Services services c).
Lemma routeOK_parts s o c r : routeOK c r -> routeOK (withParts s o c) r.
Proof. intros []. by constructor. Qed.
Lemma marksOK_parts s o c l : marksOK c l -> marksOK (withParts s o c) l.
Proof. intros []. by constructor. Qed.
Lemma serviceOK_parts toASCII parseRequestURI s o c svc :
  serviceOK toASCII parseRequestURI c svc -> serviceOK toASCII parseRequestURI (withParts s o c) svc.
Proof. intros []. by constructor. Qed.

(** The domains of overrides are written back in normal form. *)
Lemma validateOverrides_domains toASCII order c l : forall ids sels l',
  validateOverrides_go toASCII order c ids sels l = Some l' -> Forall (fun o => o_Domain o <> "" -> normal toASCII (o_Domain o)) l'.
Proof.
  induction l as [|o l IH]; intros ids sels l' H; cbn [validateOverrides_go] in H; [injection H as <-; constructor|].
  apply bind_Some in H as ([[o' ids'] sels'] & H1 & H). apply bind_Some in H as (rest & H2 & [= <-]). constructor; [|by eapply IH].
  unfold validateOverride in H1. destruct (_ || _) in H1; [done|]. cbv zeta in H1.
  apply bind_Some in H1 as (o1 & Hn & H1). apply bind_Some in H1 as (sel & _ & H1). destruct (bool_decide _) in H1; [done|].
  apply bind_Some in H1 as (target & _ & H1). destruct (negb _) in H1; [done|]. destruct (_ && _) in H1; [done|]. destruct (negb _) in H1; [done|].
  injection H1 as <- _ _. unfold normalizeOverride in Hn. apply bind_Some in Hn as (o2 & Hd & Hm).
  assert (E : o_Domain o1 = o_Domain o2) by (destruct (S.is_empty (o_DeviceMAC o2)); [by injection Hm as <-|]; by apply bind_Some in Hm as (m & _ & [= <-])).
  rewrite E. destruct (S.is_empty (o_Domain o)) eqn:ED; [injection Hd as <-; intros Hne; by apply String.eqb_eq in ED|].
  apply bind_Some in Hd as (n & Hn & [= <-]). intros _. by exists (o_Domain o).
Qed.

Lemma distinctMarks_Ok l : forall seen u,
  (forall v n, seen !! v = Some n -> n <> "") -> Forall (fun nm => nm.1 <> "") l -> distinctMarks seen l = Ok u ->
  exists values, Forall2 (fun nm v => parseFirewallMark nm.2 = Ok v) l values /\ NoDup values /\ forall v, v ∈ values -> seen !! v = None.
Proof.
  induction l as [|[name mark] l IH]; intros seen u Hs HF H; simpl in H.
  - exists []. split; [constructor|]. split; [constructor|by nothing_in].
  - inversion HF as [|? ? Hne HF']; subst. simpl in Hne. destruct (parseFirewallMark mark) as [v|] eqn:Em; [|done]. ok_steps H.
    apply negb_false_iff in G. unfold S.is_empty in G. str_eq.
    assert (Hv : seen !! v = None) by (destruct (seen !! v) as [n|] eqn:E; [|done]; apply Hs in E; by simpl in G).
    apply IH in H as (values & HV & HN & Hno); [|intros w n [[<- <-]|[_ Hw]]%lookup_insert_Some; [done|by eapply Hs]|done].
    exists (v :: values). split; [by constructor|]. split.
    + constructor; [|done]. intros Hin. apply Hno in Hin. by rewrite lookup_insert_eq in Hin.
    + intros w [->|Hw]%elem_of_cons; [done|]. apply Hno in Hw. by apply lookup_insert_None in Hw as [? _].
Qed.

(** The listeners seen are those of the routes, so a port without a tag is free. *)
Lemma free_port c seen port :
  seenOf (c_Routes c) seen -> Forall (routeOK c) (c_Routes c) -> default "" (sn_ports seen !! port) = "" -> noListener c port.
Proof.
  intros HS HF E r Hr Hp. assert (Hm : sn_ports seen !! port = Some (r_Tag r)) by (apply (so_ports _ _ HS); eauto).
  rewrite Hm in E. simpl in E. rewrite Forall_forall in HF. pose proof (routeTag_nonempty _ (ro_tag _ _ (HF r Hr))) as Hn.
  by rewrite E in Hn.
Qed.

Lemma vlessCount_pos l : 0 < vlessCount l <-> enabledType "vless" l.
Proof.
  unfold vlessCount, enabledType. split.
  - intros H. destruct (List.filter _ l) as [|r rest] eqn:E; [done|]. exists r.
    assert (Hr : r ∈ List.filter (fun r => Enabled r && (r_Type r =s "vless")) l) by (rewrite E; left).
    apply elem_of_filter_b in Hr as [Hr Hp]. bool_split. by str_eq.
  - intros (r & Hr & HE & Ht). destruct (List.filter _ l) as [|x rest] eqn:E; [|simpl; lia]. exfalso.
    assert (H : r ∈ List.filter (fun r => Enabled r && (r_Type r =s "vless")) l) by (apply elem_of_filter_b; by rewrite HE, Ht).
    rewrite E in H. by apply elem_of_nil in H.
Qed.

Lemma validateTransparentProxy_Ok c seen u :
  seenOf (c_Routes c) seen -> Forall (routeOK c) (c_Routes c) -> validateTransparentProxy c seen = Ok u ->
  (exists r, r ∈ c_Routes c /\ Enabled r = true /\ transparentType (r_Type r) = true) -> transparentOK c.
Proof.
  intros HS HF H Hex. apply (so_transparent _ _ HS) in Hex. unfold validateTransparentProxy in H. rewrite Hex in H.
  simpl negb in H. cbv iota zeta in H. ok_steps H. apply orb_false_iff in G as [Glo Ghi]. apply negb_false_iff in G0, G1.
  unfold S.is_empty in G0. str_eq. constructor; [lia|by eapply free_port|done|].
  apply distinctMarks_Ok in H as (values & HV & HN & _); [eauto|by intros v n; rewrite lookup_empty|by repeat constructor].
Qed.

Lemma validateDNSProxyPorts_Ok c seen u :
  seenOf (c_Routes c) seen -> Forall (routeOK c) (c_Routes c) -> validateDNSProxyPorts c seen = Ok u ->
  0 < vlessCount (c_Routes c) -> dnsProxyOK c.
Proof.
  intros HS HF H Hpos. unfold validateDNSProxyPorts in H. rewrite (so_VLESS _ _ HS) in H.
  assert (E : (vlessCount (c_Routes c) <=? 0) = false) by lia. rewrite E in H. cbv zeta in H. ok_steps H.
  apply orb_false_iff in G as [G G2]. apply orb_false_iff in G as [G0 G1]. constructor; [lia|]. intros port Hport.
  destruct (first _ _) as [p|] eqn:Ef; [done|].
  assert (Hin : port ∈ dnsProxyPorts c (vlessCount (c_Routes c))).
  { unfold dnsProxyPorts. apply elem_of_map. exists (Z.to_nat (port - dnsProxyBasePort c)). split; [lia|].
    apply elem_of_seq. lia. }
  pose proof (first_None _ _ _ Ef Hin) as Hp. simpl in Hp. apply orb_false_iff in Hp as [Hp Hq]. apply negb_false_iff in Hq.
  unfold S.is_empty in Hq. str_eq. split; [lia|by eapply free_port].
Qed.

Lemma validateZapret_Ok parseRequestURI c hasZapret u :
  validateZapret parseRequestURI c hasZapret = Ok u -> hasZapret = true -> managedZapret (c_Zapret c).
Proof.
  intros H ->. unfold validateZapret in H. cbv zeta in H. ok_steps H. bool_split. str_eq. constructor; try done. lia.
Qed.

Lemma validateDeviceProfiles_Ok c hasZapret u :
  validateDeviceProfiles c hasZapret = Ok u -> z_DeviceProfiles (c_Zapret c) <> [] ->
  hasZapret = true /\ ValidateProfiles (z_DeviceProfiles (c_Zapret c)) = None /\
  forall p, p ∈ z_DeviceProfiles (c_Zapret c) -> dv_QueueNum p <> z_QueueNum (c_Zapret c).
Proof.
  unfold validateDeviceProfiles. cbv zeta. intros H Hne. destruct (z_DeviceProfiles (c_Zapret c)) as [|p0 ps] eqn:E; [done|].
  simpl Nat.eqb in H. cbv iota in H. ok_steps H. apply negb_false_iff in G. split; [done|].
  destruct (ValidateProfiles _) as [|]; [done|]. split; [done|].
  destruct (first _ _) as [q|] eqn:Ef in H; [done|]. intros p Hp. pose proof (first_None _ _ _ Ef Hp) as Hq. simpl in Hq. lia.
Qed.

Lemma validatePolicy_weights c u :
  validatePolicy c = Ok u -> let w := RouteSelectionWeightsOf (c_Policy c) in
  Forall (fun w => weightOK w = true) [EndToEndLatency w; Availability w; ErrorRate w; Privacy w].
Proof.
  unfold validatePolicy. cbv zeta. intros H. ok_steps H. clear -G7.
  destruct (first _ _) as [[n w]|] eqn:E; [done|].
  assert (HW : forall n w, (n, w) ∈ [("end_to_end_latency", EndToEndLatency (RouteSelectionWeightsOf (c_Policy c)));
     ("availability", Availability (RouteSelectionWeightsOf (c_Policy c))); ("error_rate", ErrorRate (RouteSelectionWeightsOf (c_Policy c)));
     ("privacy", Privacy (RouteSelectionWeightsOf (c_Policy c)))] -> weightOK w = true).
  { intros n w Hin. pose proof (first_None _ _ _ E Hin) as Hp. by apply negb_false_iff in Hp. }
  repeat constructor; eapply HW; in_list.
Qed.

Section Whole.
Context (toASCII : string -> option string) (parseURL parseRequestURI : string -> option URL)
  (legacyStateAlias : bool) (walk order : gmap string Service -> list (string * Service)).

(** The steps of [Validate], in declarative form. *)
Record accepts (c c' : Config) : Prop := {
  ac_parts : c' = withParts (c_Services c') (c_Overrides c') c;
  ac_version : (c_Version c <? 2) = false;
  ac_production : validateProduction legacyStateAlias c = Ok ();
  ac_count : 1 <= Z.of_nat (length (c_Routes c)) <= 64;
  ac_seen : exists seen, validateRoutes c nothing_seen (c_Routes c) = Ok seen /\ sn_drop seen = true /\
    validateXray c seen = Ok () /\ validateZapret parseRequestURI c (sn_zapret seen) = Ok () /\
    validateDeviceProfiles c (sn_zapret seen) = Ok () /\
    ((sn_VLESS seen <=? 0) && negb (S.is_empty (xr_OutboundBundleSHA256 (c_Xray c)))) = false /\
    validateTransparentProxy c seen = Ok () /\ validateDNSProxyPorts c seen = Ok ();
  ac_openwrt : validateOpenWrt (c_OpenWrt c) = Ok ();
  ac_marks : validateMarks c ∅ (c_Routes c) = Ok ();
  ac_geoip : validateGeoIP parseURL (c_GeoIP c) = Ok ();
  ac_services : validateServices toASCII parseRequestURI c ∅ (walk (c_Services c)) (c_Services c) = Ok (c_Services c');
  ac_overrides : validateOverrides toASCII (order (c_Services c')) (set_c_Services (c_Services c') c) = Some (c_Overrides c');
  ac_sources : validateSources parseURL ∅ (c_TSPUSources c) = Ok ();
  ac_policy : validatePolicy c' = Ok ()
}.

Lemma Validate_accepts c c' :
  Validate toASCII parseURL parseRequestURI legacyStateAlias walk order c = Ok c' <-> accepts c c'.
Proof.
  unfold Validate. split.
  - intros H. ok_steps H. destruct (validateOverrides _ _ _) as [l|] eqn:EO; [|done].
    ok_steps H. injection H as <-. repeat match goal with u : () |- _ => destruct u end.
    injection G15 as <-. apply negb_false_iff in G4. apply Nat.eqb_neq in G1.
    constructor; try done; [lia|]. by exists x3.
  - intros [E H1 H2 H3 (seen & S1 & S2 & S3 & S4 & S5 & S6 & S7 & S8) H4 H5 H6 H7 H8 H9 H10].
    rewrite H1, H2. simpl. assert (EL : (length (c_Routes c) =? 0)%nat = false) by (apply Nat.eqb_neq; lia).
    assert (EM : (64 <? Z.of_nat (length (c_Routes c))) = false) by lia. rewrite EL, EM. simpl.
    rewrite S1. simpl. rewrite S2. simpl. rewrite H4. simpl. rewrite H5. simpl. rewrite S3. simpl. rewrite S4. simpl. rewrite S5. simpl.
    rewrite S6. simpl. rewrite S7. simpl. rewrite S8. simpl. rewrite H6. simpl. rewrite H7. simpl. rewrite H8. simpl. rewrite H9. simpl.
    change (set_c_Overrides (c_Overrides c') (set_c_Services (c_Services c') c)) with (withParts (c_Services c') (c_Overrides c') c).
    rewrite <- E, H10. done.
Qed.

(** The proof of [Validate_wf]. *)
Lemma validated_wf c c' :
  walks walk -> Validate toASCII parseURL parseRequestURI legacyStateAlias walk order c = Ok c' ->
  wf toASCII parseRequestURI (order (c_Services c')) c'.
Proof.
  intros HW [E H1 H2 H3 (seen & S1 & S2 & S3 & S4 & S5 & S6 & S7 & S8) H4 H5 H6 H7 H8 H9 H10]%Validate_accepts.
  apply (validateRoutes_Ok c _ [] nothing_seen seen nothing_seen_of (Forall_nil_2 _)) in S1 as [HS HF]. simpl in HS, HF.
  apply validateMarks_go in H5 as [HM _]. apply validateServices_wf in H7 as [HV HD]; [|done].
  apply validatePolicy_weights in H10. pose proof (validateOverrides_go_Some _ _ _ _ _ _ _ H8) as (HO & (HN & _) & _).
  pose proof (validateOverrides_domains _ _ _ _ _ _ _ H8) as HOD.
  assert (HX : enabledType "vless" (c_Routes c) -> sha256ReferencePattern (xr_OutboundBundleSHA256 (c_Xray c)) = true).
  { intros Hv. unfold validateXray in S3. ok_steps S3. rewrite (so_VLESS _ _ HS) in G. apply vlessCount_pos in Hv.
    apply andb_false_iff in G as [G|G]; [lia|]. by apply negb_false_iff in G. }
  assert (HB : ~ enabledType "vless" (c_Routes c) -> xr_OutboundBundleSHA256 (c_Xray c) = "").
  { intros Hv. rewrite (so_VLESS _ _ HS) in S6. rewrite <- vlessCount_pos in Hv. apply andb_false_iff in S6 as [S6|S6]; [lia|].
    apply negb_false_iff in S6. unfold S.is_empty in S6. by str_eq. }
  unfold validateOpenWrt in H4. ok_steps H4. apply negb_false_iff in G. apply reject_Ok, negb_false_iff in H4.
  rewrite E in H10 |- *. constructor; simpl in *; try done.
  - lia.
  - eapply Forall_impl; [exact HF|]. intros r. apply routeOK_parts.
  - apply HS.
  - by apply HS.
  - apply HS.
  - split; [done|]. intros Hne. apply andb_false_iff in G0 as [G0|G0]; apply negb_false_iff in G0; [|done]. unfold S.is_empty in G0. by str_eq.
  - by apply marksOK_parts.
  - intros Hz. eapply validateZapret_Ok; [exact S4|]. by apply HS.
  - intros Hd. apply validateDeviceProfiles_Ok in S5 as (Hz & ? & ?); [|done]. apply HS in Hz. done.
  - intros Ht. eapply validateTransparentProxy_Ok in S7 as []; [|done..]. by constructor.
  - intros Hp. eapply validateDNSProxyPorts_Ok in S8 as []; [|done..]. by constructor.
  - intros name svc Hs. by eapply serviceOK_parts, HV.
Qed.

End Whole.
