(* ===== verification/ValidationStable.v ===== *)
(** * Validation is stable

    What [Validate] leaves behind it accepts again and leaves alone, whichever way
    Go walks the services then, provided no two services cover a common host; an
    example shows what happens when two do.  The program relies on this when it
    loads a committed configuration and compares its canonical hash.  The
    configurations at which the theorems on validation are applied are here too. *)
From Stdlib Require Import ZArith Lia SpecFloat.
From stdpp Require Import base list strings gmap.
From S2P Require Import Prelude Float64 Net ZapretProfile Config Json NetProofs Override Validation ValidationProofs.
Open Scope Z_scope.

(** ** Normalised names are fixed points *)

Lemma rev_app_distr a b : S.rev (a +:+ b) = S.rev b +:+ S.rev a.
Proof.
  induction a as [|c a IH]; simpl; [by rewrite str_app_empty_r|]. by rewrite !rev_cons, IH, str_app_assoc.
Qed.
Lemma rev_rev s : S.rev (S.rev s) = s.
Proof. induction s as [|c s IH]; [done|]. by rewrite rev_cons, rev_app_distr, IH. Qed.
Lemma all_bytes_rev p s : S.all_bytes p (S.rev s) = S.all_bytes p s.
Proof. induction s as [|c s IH]; [done|]. rewrite rev_cons, all_bytes_app, IH. simpl. by rewrite andb_true_r, andb_comm. Qed.
Definition noSpace (c : Ascii.ascii) : bool := negb (S.space_byte c).
Lemma trim_left_id s : S.all_bytes noSpace s = true -> S.trim_left s = s.
Proof. destruct s as [|c s]; [done|]. simpl. unfold noSpace at 1. by destruct (S.space_byte c). Qed.
Lemma TrimSpace_id s : S.all_bytes noSpace s = true -> S.TrimSpace s = s.
Proof. intros H. unfold S.TrimSpace. rewrite (trim_left_id s H), trim_left_id; [apply rev_rev|by rewrite all_bytes_rev]. Qed.

(** What every field satisfies the text satisfies, up to the separators. *)
Lemma Split_all p sep s :
  Forall (fun f => S.all_bytes p f = true) (S.Split s sep) -> S.all_bytes (fun c => p c || Ascii.eqb c sep) s = true.
Proof.
  induction s as [|c s IH]; [done|]. simpl. destruct (Ascii.eqb c sep) eqn:E.
  - apply Ascii.eqb_eq in E as ->. rewrite Split_sep, orb_true_r. intros H. inversion H. by apply IH.
  - rewrite Split_cons by done. destruct (S.Split s sep) as [|h t] eqn:Es; [by apply Split_nonempty in Es|]. simpl.
    intros H. inversion H as [|? ? Hc Ht]; subst. simpl in Hc. apply andb_true_iff in Hc as [-> Hh]. simpl. apply IH. by constructor.
Qed.

Lemma lower_lower c : S.lower_byte (S.lower_byte c) = S.lower_byte c.
Proof. by destruct c as [[] [] [] [] [] [] [] []]. Qed.
Lemma ToLower_ToLower s : S.ToLower (S.ToLower s) = S.ToLower s.
Proof. unfold S.ToLower. induction s as [|c s IH]; simpl; [done|]. by rewrite lower_lower, IH. Qed.
Lemma label_byte_noSpace c : S.lower_letter c || S.digit c || S.is_byte 45 c || Ascii.eqb c S.dot = true -> noSpace c = true.
Proof. destruct c as [[] [] [] [] [] [] [] []]; vm_compute; by intros. Qed.

(** A name whose last label is not empty has no trailing dot. *)
Lemma no_trailing_dot s : Forall (fun f => f <> "") (S.Split s S.dot) -> S.HasSuffix s "." = false.
Proof.
  intros H. unfold S.HasSuffix. destruct (S.rev s) as [|c t] eqn:E; [done|]. change (S.rev ".") with (String S.dot EmptyString).
  cbn [String.prefix]. destruct (Ascii.ascii_dec S.dot c) as [<-|]; [|done]. exfalso.
  assert (Es : s = S.rev t +:+ String S.dot EmptyString) by (by rewrite <- (rev_rev s), E, rev_cons).
  rewrite Es, Split_app in H. apply Forall_app in H as [_ H]. by inversion H.
Qed.

Lemma normalizeDomain_form toASCII raw d :
  normalizeDomain toASCII raw = Some d ->
  S.ToLower d = d /\ S.HasSuffix d "." = false /\ S.all_bytes noSpace d = true /\
  (forall toASCII', toASCII' d = Some d -> normalizeDomain toASCII' d = Some d).
Proof.
  unfold normalizeDomain. intros H. apply bind_Some in H as (a & _ & H). cbv zeta in H.
  set (x := S.ToLower (S.TrimSuffix a ".")) in *.
  destruct (S.is_empty x || (253 <? S.len x) || parseIPv4 x || S.Contains x "*") eqn:E1; [done|].
  destruct (Nat.ltb (length (S.Split x S.dot)) 2) eqn:E2; [done|].
  destruct (forallb domainLabel (S.Split x S.dot)) eqn:E3; [|done]. injection H as <-.
  assert (HL : S.ToLower x = x) by apply ToLower_ToLower.
  assert (HF : Forall (fun f => domainLabel f = true) (S.Split x S.dot)) by (by apply Forall_forall; intros f Hf; rewrite forallb_forall in E3; apply E3, list_elem_of_In).
  assert (HS : S.HasSuffix x "." = false).
  { apply no_trailing_dot. eapply Forall_impl; [exact HF|]. intros f Hf ->. done. }
  assert (HN : S.all_bytes noSpace x = true).
  { eapply all_bytes_impl; [apply label_byte_noSpace|]. apply Split_all. eapply Forall_impl; [exact HF|].
    intros f Hf. unfold domainLabel in Hf. by apply andb_true_iff in Hf as [_ Hf]. }
  split_and!; try done. intros toASCII' Ht. clearbody x.
  assert (HT : S.TrimSuffix x "." = x) by (unfold S.TrimSuffix; by rewrite HS).
  rewrite HT, (TrimSpace_id x HN), Ht. cbn [mbind option_bind]. by rewrite HT, HL, E1, E2, E3.
Qed.

(** ** Hardware addresses *)

Lemma hexdigit_lower c : hexdigit (S.lower_byte c) = hexdigit c.
Proof. by destruct c as [[] [] [] [] [] [] [] []]. Qed.

Lemma parseMAC6_again s m : parseMAC6 s = Some m -> parseMAC6 m = Some m.
Proof.
  assert (HR : forall a1 a2 b1 b2 c1 c2 d1 d2 e1 e2 f1 f2,
    forallb hexdigit [a1; a2; b1; b2; c1; c2; d1; d2; e1; e2; f1; f2] = true ->
    let pair x y := String x (String y EmptyString) in
    let m := S.ToLower (S.Join [pair a1 a2; pair b1 b2; pair c1 c2; pair d1 d2; pair e1 e2; pair f1 f2] ":") in
    parseMAC6 m = Some m).
  { intros * H. unfold parseMAC6. simpl. simpl in H. rewrite !hexdigit_lower, H. unfold S.ToLower. simpl. by rewrite !lower_lower. }
  unfold parseMAC6 at 1. destruct (chars s) as [|a1 [|a2 [|a3 [|a4 [|a5 [|a6 [|a7 [|a8 [|a9 [|a10 [|a11 [|a12 [|a13 [|a14 [|a15 [|a16 [|a17 [|]]]]]]]]]]]]]]]]]];
    try done; (destruct (_ && _); [|done]); (destruct (forallb _ _) eqn:E; [|done]); intros [= <-]; by apply HR.
Qed.

(** [toASCII] leaves a normalised name alone. *)
Definition ascii_stable (toASCII : string -> option string) : Prop :=
  forall raw d, normalizeDomain toASCII raw = Some d -> toASCII d = Some d.

Lemma normalizeDomain_again toASCII raw d :
  ascii_stable toASCII -> normalizeDomain toASCII raw = Some d -> normalizeDomain toASCII d = Some d.
Proof. intros HA H. apply (normalizeDomain_form _ _ _ H). by eapply HA. Qed.

Lemma normalizeOverride_again toASCII o o' :
  ascii_stable toASCII -> normalizeOverride toASCII o = Some o' -> normalizeOverride toASCII o' = Some o'.
Proof.
  intros HA H. unfold normalizeOverride in *. apply bind_Some in H as (o1 & H1 & H2).
  assert (HD : (if S.is_empty (o_Domain o1) then Some o1 else n ← normalizeDomain toASCII (o_Domain o1); Some (set_o_Domain n o1)) = Some o1).
  { destruct (S.is_empty (o_Domain o)) eqn:E; [injection H1 as <-; by rewrite E|].
    apply bind_Some in H1 as (n & Hn & [= <-]). simpl. destruct (S.is_empty n); [done|].
    rewrite (normalizeDomain_again _ _ _ HA Hn). done. }
  assert (ED : o_Domain o' = o_Domain o1).
  { destruct (S.is_empty (o_DeviceMAC o1)); [by injection H2 as <-|]. by apply bind_Some in H2 as (n & _ & [= <-]). }
  assert (HM : (if S.is_empty (o_DeviceMAC o') then Some o' else n ← parseMAC6 (o_DeviceMAC o'); Some (set_o_DeviceMAC n o')) = Some o').
  { destruct (S.is_empty (o_DeviceMAC o1)) eqn:E; [injection H2 as <-; by rewrite E|].
    apply bind_Some in H2 as (n & Hn & [= <-]). simpl. destruct (S.is_empty n); [done|]. rewrite (parseMAC6_again _ _ Hn). done. }
  rewrite ED. destruct (S.is_empty (o_Domain o1)); [exact HM|].
  apply bind_Some in HD as (n & Hn & E). rewrite Hn. cbn [mbind option_bind]. 
  assert (En : set_o_Domain n o' = o').
  { apply (inj Some), (f_equal o_Domain) in E. simpl in E. rewrite <- ED in E. destruct o'; simpl in *. by rewrite E. }
  by rewrite En.
Qed.

(** ** Overrides *)

(** No host is covered by two services. *)
Definition separate (services : gmap string Service) : Prop :=
  forall n svc m svc' host, services !! n = Some svc -> services !! m = Some svc' ->
    domainMatches host svc = true -> domainMatches host svc' = true -> n = m.

Lemma any_perm {A} (p : A -> bool) l l' : l ≡ₚ l' -> any p l = any p l'.
Proof.
  intros HP. destruct (any p l) eqn:E; symmetry.
  - apply any_true in E as (x & Hx & Hp). apply any_true. exists x. by rewrite <- HP.
  - rewrite any_false in *. intros x Hx. apply E. by rewrite HP.
Qed.

Lemma ServiceForDomain_any services order order' domain :
  separate services -> order ≡ₚ map_to_list services -> order' ≡ₚ map_to_list services ->
  ServiceForDomain order domain = ServiceForDomain order' domain.
Proof.
  intros HS HO HO'. unfold ServiceForDomain. cbv zeta. rewrite (first_perm _ order order'); [done| |by rewrite HO, HO'].
  intros [n s] [m s'] Hx Hy Mx My. rewrite HO, elem_of_map_to_list in Hx. rewrite HO, elem_of_map_to_list in Hy.
  assert (n = m) as <- by (by eapply HS). congruence.
Qed.

Lemma validateOverrideSafety_any c order order' o target :
  separate (c_Services c) -> order ≡ₚ map_to_list (c_Services c) -> order' ≡ₚ map_to_list (c_Services c) ->
  validateOverrideSafety order c o target = validateOverrideSafety order' c o target.
Proof.
  intros HS HO HO'. unfold validateOverrideSafety. f_equal. destruct (containsString _ (o_Scope o)) eqn:E1; [|destruct (containsString _ (o_Scope o)) eqn:E2 in |- *].
  - by rewrite (ServiceForDomain_any _ _ order' _ HS HO HO').
  - done.
  - destruct (o_Scope o =s "category"); [|done]. apply any_perm, filter_perm, Permutation_map. by rewrite HO, HO'.
Qed.

Section Again.
Context (toASCII : string -> option string) (stable : ascii_stable toASCII).
Context (c : Config) (order order' : list (string * Service)).
Context (same : forall o target, validateOverrideSafety order c o target = validateOverrideSafety order' c o target).

Lemma validateOverride_again ids sels o r :
  validateOverride toASCII order c ids sels o = Some r -> validateOverride toASCII order' c ids sels r.1.1 = Some r.
Proof.
  unfold validateOverride. intros H. destruct (negb (routeTagPattern (o_ID o)) || _) eqn:E; [done|]. cbv zeta in H.
  apply bind_Some in H as (o' & Hn & H). apply bind_Some in H as (sel & Hsel & H). destruct (bool_decide (sel ∈ sels)) eqn:Es; [done|].
  apply bind_Some in H as (t & Ht & H). destruct (negb (validRouteType t)) eqn:Ev; [done|]. destruct (_ && negb _) eqn:Ea; [done|].
  destruct (negb (validateOverrideSafety order c o' t)) eqn:Ef; [done|]. injection H as <-.
  pose proof (normalizeOverride_scope _ _ _ Hn) as (_ & Hid & _). simpl fst. rewrite Hid, E. cbv zeta.
  rewrite (normalizeOverride_again _ _ _ stable Hn). cbn [mbind option_bind]. rewrite Hsel. cbn [mbind option_bind]. rewrite Es.
  rewrite Ht. cbn [mbind option_bind]. by rewrite Ev, Ea, <- same, Ef.
Qed.

Lemma validateOverrides_again l : forall ids sels l',
  validateOverrides_go toASCII order c ids sels l = Some l' -> validateOverrides_go toASCII order' c ids sels l' = Some l'.
Proof.
  induction l as [|o l IH]; intros ids sels l' H; simpl in H; [by injection H as <-|].
  apply bind_Some in H as ([[o' ids'] sels'] & H1 & H). apply bind_Some in H as (rest & H2 & [= <-]).
  apply validateOverride_again in H1. simpl in H1 |- *. rewrite H1. cbn [mbind option_bind]. rewrite (IH _ _ _ H2). done.
Qed.
End Again.

(** ** The whole *)

Section Stable.
Context (toASCII : string -> option string) (parseURL parseRequestURI : string -> option URL) (legacyStateAlias : bool).
Context (stable : ascii_stable toASCII).

Lemma normalized_again svc : Forall (normal toASCII) (s_Domains svc) -> normalized toASCII svc svc.
Proof.
  intros HF. split; [|by destruct svc]. induction HF as [|d ds [raw Hd] _ IH]; constructor; [|done]. by eapply normalizeDomain_again.
Qed.

(** A shared domain is a host both cover. *)
Lemma domain_matches svc d : d ∈ s_Domains svc -> domainMatches (S.TrimSuffix (S.ToLower d) ".") svc = true.
Proof. intros Hd. apply any_true. exists d. split; [done|]. cbv zeta. by rewrite String.eqb_refl. Qed.

Lemma validateServices_again walk c :
  walks walk -> separate (c_Services c) ->
  (forall name svc, c_Services c !! name = Some svc -> serviceOK toASCII parseRequestURI c svc) ->
  validateServices toASCII parseRequestURI c ∅ (walk (c_Services c)) (c_Services c) = Ok (c_Services c).
Proof.
  intros HW HS HV. apply validateServices_Ok.
  assert (HF : Forall2 (checked toASCII parseRequestURI c) (walk (c_Services c)) (walk (c_Services c))).
  { apply Forall_Forall2_diag, Forall_forall. intros [n svc] Hn. apply elem_of_walk in Hn; [|done].
    pose proof (HV _ _ Hn) as HOK. split; [done|]. split; [|done]. by apply normalized_again, HOK. }
  exists (walk (c_Services c)). split; [exact HF|]. split.
  - apply (apart_claims _ ∅ []); [intros d n; by rewrite lookup_empty|]. intros n s m s' Hn Hm (d & Hd & Hd').
    apply elem_of_walk in Hn, Hm; try done. eapply HS; [done..|by apply domain_matches|by apply domain_matches].
  - apply map_eq. intros name. symmetry. apply option_eq. intros svc.
    rewrite (enter_walk _ _ walk c _ _ _ _ HW HF). by apply elem_of_walk.
Qed.

Lemma validateRoutes_parts s o c l : forall seen, validateRoutes (withParts s o c) seen l = validateRoutes c seen l.
Proof.
  induction l as [|r l IH]; intros seen; [done|]. cbn [validateRoutes].
  change (validateRoute (withParts s o c) seen r) with (validateRoute c seen r). destruct (validateRoute c seen r); [apply IH|done].
Qed.
Lemma validateMarks_parts s o c l : forall tables, validateMarks (withParts s o c) tables l = validateMarks c tables l.
Proof.
  induction l as [|r l IH]; intros tables; [done|]. cbn [validateMarks]. rewrite IH.
  change (markOf (withParts s o c) r) with (markOf c r). change (tableForRouteType (withParts s o c)) with (tableForRouteType c).
  destruct (negb (Enabled r)); [done|]. destruct (parseFirewallMark (markOf c r)); [|done]. cbv zeta.
  destruct (reject _ _); [|done]. destruct (reject _ _); [|done]. apply IH.
Qed.

Lemma validateOverrides_parts order overrides c l : forall ids sels,
  validateOverrides_go toASCII order (set_c_Overrides overrides c) ids sels l = validateOverrides_go toASCII order c ids sels l.
Proof.
  induction l as [|o l IH]; intros ids sels; [done|]. cbn [validateOverrides_go].
  change (validateOverride toASCII order (set_c_Overrides overrides c)) with (validateOverride toASCII order c).
  destruct (validateOverride toASCII order c ids sels o) as [[[o' ids'] sels']|]; [|done]. cbn [mbind option_bind]. by rewrite IH.
Qed.

(** C17: Validation is stable.  A configuration that [Validate] has accepted and
    normalised is accepted again and left unchanged, so that its canonical form
    and hash stay the same, in whatever orders Go walks the services the second
    time, provided no host is covered by two services. *)
Theorem Validate_again walk order walk' order' c c' :
  walks walk -> walks order -> walks walk' -> walks order' -> separate (c_Services c') ->
  Validate toASCII parseURL parseRequestURI legacyStateAlias walk order c = Ok c' ->
  Validate toASCII parseURL parseRequestURI legacyStateAlias walk' order' c' = Ok c'.
Proof.
  intros HW HO HW' HO' HS HV. apply Validate_accepts in HV as [E H1 H2 H3 H4 H5 H6 H7 H8 H9 H10 H11].
  apply Validate_accepts. constructor; try (rewrite E; assumption); try done;
    [by destruct c'|rewrite E, validateRoutes_parts; exact H4|rewrite E, validateMarks_parts; exact H6| |].
  - apply validateServices_again; [done..|]. intros name svc Hs. rewrite E. apply serviceOK_parts.
    apply validateServices_wf in H8 as [H8 _]; [|done]. by eapply H8.
  - set (cs := set_c_Services (c_Services c') c) in *.
    assert (EC : set_c_Services (c_Services c') c' = set_c_Overrides (c_Overrides c') cs).
    { transitivity c'; [by destruct c'|exact E]. }
    rewrite EC.
    unfold validateOverrides in *. rewrite validateOverrides_parts.
    eapply (validateOverrides_again _ stable cs (order (c_Services c'))); [|exact H9].
    intros o t. apply validateOverrideSafety_any; [exact HS|apply HO|apply HO'].
Qed.
End Stable.

(** A stand-in for the URL parser: [https://host/path]. *)
Definition ex_parse (s : string) : option URL :=
  if S.HasPrefix s "https://" then
    match Net.cutFirst (Ascii.ascii_of_N 47) (behind "https://" s) with
    | Some (host, path) => Some (mkURL "https" false host ("/" +:+ path) "" "")
    | None => Some (mkURL "https" false (behind "https://" s) "" "" "")
    end
  else None.
Definition ex_walk (m : gmap string Service) : list (string * Service) := map_to_list m.
Definition ex_backward (m : gmap string Service) : list (string * Service) := reverse (map_to_list m).
Definition ex_sha : string := "sha256:00112233445566778899aabbccddeeff00112233445566778899aabbccddeeff".

Definition ex_weights : RouteSelectionWeights := mkWeights F.one F.one F.one F.one.
Definition ex_policy_full : Policy :=
  mkPolicy "balanced" "balanced" 10 60 ex_weights 60 3 3 3600 "fail_closed" false false "suggest" 4 3.
Definition ex_openwrt_full : OpenWrt :=
  Build_OpenWrt "openwrt" "router_policy" "inet" "/etc/nftables.d/router-policy.nft" "/tmp/dnsmasq.d/router-policy.conf"
    100 101 102 "0x10" "0x20" "0x30" "0x31" "0x32" "0x40" "disable" 10 120.
Definition ex_route (type tag : string) (priority : Z) (dns socks dnsMode mark : string) : Route :=
  Build_Route type tag priority false "CONFIGURED" dns false socks "" dnsMode false false "" mark false.
Definition ex_routes_full : list Route :=
  [ ex_route "direct" "direct" 10 "" "" "" ""; ex_route "zapret" "zapret-1" 15 "" "" "" "";
    ex_route "vless" "vless-a" 20 "1.1.1.1:53" "127.0.0.1:11080" "socks_remote" "";
    ex_route "vless" "vless-b" 21 "1.1.1.1:53" "127.0.0.1:11081" "socks_remote" "";
    ex_route "drop" "drop" 1000 "" "" "" "" ].
Definition ex_video : Service :=
  mkService "GEO_LOCKED" "" ["Video.Example."] ["vless"; "drop"] ["direct"] "vless-b" true
    [mkProbeCheck "front" "https://video.example/" true [200] "required"].
Definition ex_xray : Xray :=
  mkXray "/usr/bin/xray" "/etc/init.d/router-policy-xray" "managed" "" "/etc/router-policy/xray.json" "" "" 0 "1.1.1.1:53" 0 12345 "" ex_sha.
Definition ex_zapret : Zapret :=
  mkZapret "/usr/bin/nfqws" "" "" "" "/etc/init.d/router-policy-zapret" "/etc/router-policy/zapret/nfqws.conf" "managed"
    "tls-fake-ttl3-v1" 200 false "" [] [].
Definition ex_storage : Storage := mkStorage "/var/lib/rp" "/tmp/rp" "/var/lib/rp/db" 7 7 7 100 24 7 3 0 100 30.
Definition ex_build (openwrt : OpenWrt) (routes : list Route) (services : gmap string Service) (overrides : list PolicyOverride) : Config :=
  Build_Config 2 (mkPlatform "linux" true true "") ex_storage ex_policy_full ex_xray ex_zapret zero_GeoIP openwrt routes services
    overrides zero_Notifications [].
Definition ex_chosen : list PolicyOverride :=
  [ mkOverride "o1" "device_domain" "00-00-5E-00-53-AF" "Chat.Example" "" "" "" "vless-a" ].
Definition ex_full : Config := ex_build ex_openwrt_full ex_routes_full {["video" := ex_video]} ex_chosen.

Definition ex_validate (walk : gmap string Service -> list (string * Service)) (c : Config) : result Config :=
  Validate Some ex_parse ex_parse false walk walk c.
(** As it is left behind: the domains and the address in normal form. *)
Definition ex_valid : Config :=
  ex_build ex_openwrt_full ex_routes_full {["video" := set_s_Domains ["video.example"] ex_video]}
    [ mkOverride "o1" "device_domain" "00:00:5e:00:53:af" "chat.example" "" "" "" "vless-a" ].
Lemma ex_accepts : ex_validate ex_walk ex_full = Ok ex_valid.
Proof. vm_compute. reflexivity. Qed.

Lemma ex_walks : walks ex_walk.
Proof. intros m. done. Qed.
Lemma ex_backward_walks : walks ex_backward.
Proof. intros m. apply reverse_Permutation. Qed.
Lemma ex_stable : ascii_stable Some.
Proof. intros raw d _. done. Qed.
Lemma ex_separate : separate (c_Services ex_valid).
Proof.
  intros n svc m svc' host Hn Hm _ _. simpl in Hn, Hm. apply lookup_singleton_Some in Hn as [<- _], Hm as [<- _]. done.
Qed.


Lemma Validate_again_witness : ex_validate ex_backward ex_valid = Ok ex_valid.
Proof.
  exact (Validate_again Some ex_parse ex_parse false ex_stable ex_walk ex_walk ex_backward ex_backward ex_full ex_valid
    ex_walks ex_walks ex_backward_walks ex_backward_walks ex_separate ex_accepts).
Defined.

(** ** Configurations that are refused, and why *)

Definition ex_error (r : result Config) : string := match r with Ok _ => "" | Err e => e end.
Example refusals :
  ex_error (ex_validate ex_walk (ex_build ex_openwrt_full (ex_route "direct" "drop" 1 "" "" "" "" :: ex_routes_full) ∅ [])) = "duplicate route tag: drop" /\
  ex_error (ex_validate ex_walk (ex_build ex_openwrt_full (ex_route "direct" "d2" 1 "" "" "" "0x40" :: ex_routes_full) ∅ []))
    = "route drop mark maps to conflicting route tables" /\
  ex_error (ex_validate ex_walk (ex_build ex_openwrt_full (ex_route "external_socks" "s" 1 "1.1.1.1:53" "127.0.0.1:14001" "socks_remote" "" :: ex_routes_full) ∅ []))
    = "xray DNS proxy port 14001 collides with another listener".
Proof. split_and!; vm_compute; reflexivity. Qed.

(** ** Overlapping services *)

Definition ex_outer : Service := mkService "DIRECT_ONLY" "" ["example.com"] ["direct"] [] "" false [].
Definition ex_inner : Service := mkService "TSPU_RESTRICTED" "" ["news.example.com"] ["vless"; "drop"] [] "" false [].
Definition ex_overlap : Config :=
  ex_build ex_openwrt_full ex_routes_full {["outer" := ex_outer; "inner" := ex_inner]}
    [ mkOverride "o1" "exact_domain" "" "news.example.com" "" "" "vless" "" ].

(** Two services cover the host of an override.  Whether the configuration is
    accepted depends on which of them Go meets first, so that one that was
    committed may fail to load. *)
Theorem validation_depends_on_map_order :
  walks ex_walk /\ walks ex_backward /\ is_ok (ex_validate ex_walk ex_overlap) <> is_ok (ex_validate ex_backward ex_overlap).
Proof. split; [apply ex_walks|]. split; [apply ex_backward_walks|]. vm_compute. done. Qed.

(** ** Marks of single routes *)

(** The marks of the data plane must differ, but the mark a route sets for itself
    is compared only with those of other routes: it may be the mark that exempts
    Xray's own traffic from the policy. *)
Theorem route_mark_may_be_bypass_mark :
  is_ok (ex_validate ex_walk (ex_build ex_openwrt_full (ex_route "zapret" "zapret-2" 16 "" "" "" "0x32" :: ex_routes_full) ∅ [])) = true.
Proof. vm_compute. reflexivity. Qed.

(** ** A service without a name *)

(** Its domains have no owner for the check: it may share them with another
    service, when Go meets it first. *)
Theorem nameless_service_shares_domains :
  let c := ex_build ex_openwrt_full ex_routes_full {["" := ex_outer; "b" := set_s_Domains ["example.com"] ex_inner]} [] in
  is_ok (ex_validate ex_walk c) = true \/ is_ok (ex_validate ex_backward c) = true.
Proof. vm_compute. by (left + right). Qed.
