(* ===== verification/Artifact.v ===== *)
(** * The data-plane plan

    [internal/artifact/artifact.go], the part that decides: which routes a
    deployment enables, which domain goes where, the proofs each route needs, the
    policy rules and routing tables ([IPPlan]), the loopback DNS proxies, and the
    checks a plan has to pass when it is loaded again.  The texts of the firewall and
    of the resolver made from it are in [Rendered].

    SHA-256 (its hexadecimal text) and the diagnostics file are parameters. *)
From Stdlib Require Import ZArith Lia.
From stdpp Require Import base list strings gmap pretty.
From S2P Require Import Prelude Net ZapretProfile Config Json Override Validation.

Open Scope Z_scope.

Record Binding := mkBinding { b_TransactionID : string; b_RevisionID : string; b_CandidateHash : string }.
#[export] Instance Binding_eq : EqDecision Binding.
Proof. solve_decision. Defined.

Record RouteProof := mkProof {
  rp_Tag : string;
  rp_Type : string;
  rp_Mark : string;
  rp_Table : Z;
  rp_RulePriority : Z;
  rp_RequiresDNS : bool;
  rp_RequiresIPv4 : bool;
  rp_RequiresIPv6 : bool;
  rp_RequiresEgress : bool;
  rp_RequiresXrayOutbound : bool;
  rp_RequiresZapretFlow : bool;
  rp_RequiresDropProof : bool;
  rp_RequiresAdapter : bool;
  rp_Status : string
}.
Record IPRule := mkIPRule {
  ir_Family : string;
  ir_Priority : Z;
  ir_Mark : string;
  ir_Mask : string;
  ir_Table : Z;
  ir_Purpose : string
}.
Record IPRoute := mkIPRoute {
  ip_Family : string;
  ip_Table : Z;
  ip_Destination : string;
  ip_Type : string;
  ip_Via : string;
  ip_Device : string
}.
Record DNSProxyPlan := mkDNSProxy {
  dn_RouteTag : string;
  dn_InboundTag : string;
  dn_Listen : string;
  dn_Port : Z;
  dn_Upstream : string;
  dn_UpstreamPort : Z;
  dn_XrayOutboundTag : string
}.
Record FlowOffloadingPlan := mkFlow {
  fl_PolicyTraffic : bool;
  fl_Required : bool;
  fl_DiagnosticsStatus : string;
  fl_SoftwareEnabled : bool;
  fl_HardwareEnabled : bool;
  fl_RequestedPolicy : string;
  fl_Action : string;
  fl_Status : string
}.
Record TransparentProxyPlan := mkTransparent {
  tp_Enabled : bool;
  tp_CapabilityVerified : bool;
  tp_CandidateOnly : bool;
  tp_Status : string;
  tp_Mode : string;
  tp_IPv4InboundTag : string;
  tp_IPv6InboundTag : string;
  tp_IPv4Listen : string;
  tp_IPv6Listen : string;
  tp_Port : Z;
  tp_TProxyMark : string;
  tp_BypassMark : string;
  tp_RouteTable : Z
}.
Record ZapretPlan := mkZapretPlan {
  zp_Enabled : bool;
  zp_CandidateOnly : bool;
  zp_Status : string;
  zp_QueueNum : Z;
  zp_Strategy : string;
  zp_Binary : string;
  zp_ActiveConfig : string;
  zp_InitScript : string;
  zp_DeviceProfiles : list DeviceProfile
}.
Record IPPlan := mkIPPlan {
  pn_Binding : Binding;
  pn_DeploymentReady : bool;
  pn_BlockReason : string;
  pn_DiagnosticsHash : string;
  pn_DiagnosticsSource : string;
  pn_Simulation : bool;
  pn_Routes : list IPRoute;
  pn_PlannedRoutes : list IPRoute;
  pn_Rules : list RouteProof;
  pn_IPRules : list IPRule;
  pn_TransparentProxy : TransparentProxyPlan;
  pn_Zapret : ZapretPlan;
  pn_FlowOffloading : FlowOffloadingPlan;
  pn_DNSProxies : list DNSProxyPlan;
  pn_WANInterface : string;
  pn_LANInterfaces : list string
}.
(** [platform.NetworkDiagnostics]: the fields read here. *)
Record NetworkDiagnostics := mkDiagnostics {
  nd_Status : string;
  nd_Source : string;
  nd_Simulation : bool;
  nd_WANInterface : string;
  nd_LANInterfaces : list string;
  nd_IPv4Gateway : string;
  nd_IPv6Gateway : string;
  nd_IPv6Available : bool;
  nd_TransparentProxyMode : string;
  nd_FlowOffloadingStatus : string;
  nd_SoftwareFlowOffload : bool;
  nd_HardwareFlowOffload : bool;
  nd_CollectedAt : time;
  nd_ExpiresAt : time
}.

#[export] Instance eta_IPPlan : Eta IPPlan := fun p =>
  mkIPPlan (pn_Binding p) (pn_DeploymentReady p) (pn_BlockReason p) (pn_DiagnosticsHash p) (pn_DiagnosticsSource p) (pn_Simulation p)
    (pn_Routes p) (pn_PlannedRoutes p) (pn_Rules p) (pn_IPRules p) (pn_TransparentProxy p) (pn_Zapret p) (pn_FlowOffloading p)
    (pn_DNSProxies p) (pn_WANInterface p) (pn_LANInterfaces p).
Definition set_Ready (v : bool) (p : IPPlan) : IPPlan := ltac:(assign p pn_DeploymentReady v).
Definition set_BlockReason (v : string) (p : IPPlan) : IPPlan := ltac:(assign p pn_BlockReason v).
Definition set_DiagnosticsHash (v : string) (p : IPPlan) : IPPlan := ltac:(assign p pn_DiagnosticsHash v).
Definition set_DiagnosticsSource (v : string) (p : IPPlan) : IPPlan := ltac:(assign p pn_DiagnosticsSource v).
Definition set_Simulation (v : bool) (p : IPPlan) : IPPlan := ltac:(assign p pn_Simulation v).
Definition set_Routes (v : list IPRoute) (p : IPPlan) : IPPlan := ltac:(assign p pn_Routes v).
Definition set_PlannedRoutes (v : list IPRoute) (p : IPPlan) : IPPlan := ltac:(assign p pn_PlannedRoutes v).
Definition set_TransparentProxy (v : TransparentProxyPlan) (p : IPPlan) : IPPlan := ltac:(assign p pn_TransparentProxy v).
Definition set_Zapret (v : ZapretPlan) (p : IPPlan) : IPPlan := ltac:(assign p pn_Zapret v).
Definition set_FlowOffloading (v : FlowOffloadingPlan) (p : IPPlan) : IPPlan := ltac:(assign p pn_FlowOffloading v).
Definition set_DNSProxies (v : list DNSProxyPlan) (p : IPPlan) : IPPlan := ltac:(assign p pn_DNSProxies v).
Definition set_WANInterface (v : string) (p : IPPlan) : IPPlan := ltac:(assign p pn_WANInterface v).
Definition set_LANInterfaces (v : list string) (p : IPPlan) : IPPlan := ltac:(assign p pn_LANInterfaces v).

Definition zero_Transparent : TransparentProxyPlan := mkTransparent false false false "" "" "" "" "" "" 0 "" "" 0.
Definition zero_ZapretPlan : ZapretPlan := mkZapretPlan false false "" 0 "" "" "" "" [].
Definition zero_Diagnostics : NetworkDiagnostics := mkDiagnostics "" "" false "" [] "" "" false "" "" false false T.zero T.zero.

(** ** Helpers *)

Definition firstNonEmpty (a b : string) : string := if S.is_empty a then b else a.

(** [markForType], [tableForType]: like those of the configuration, without
    [tg_ws_proxy]. *)
Definition markForType (c : Config) (t : string) : string :=
  let w := c_OpenWrt c in
  if containsString ["direct"; "smart_dns"] t then DirectMark w
  else if t =s "zapret" then ZapretMark w
  else if containsString ["vless"; "external_socks"] t then XrayMark w
  else if t =s "drop" then DropMark w
  else "".
Definition tableForType (c : Config) (t : string) : Z :=
  let w := c_OpenWrt c in
  if containsString ["direct"; "smart_dns"] t then WANRouteTable w
  else if t =s "zapret" then ZapretRouteTable w
  else if containsString ["vless"; "external_socks"] t then XrayRouteTable w
  else 0.

Definition markNumber (value : string) : result Z :=
  if negb (S.HasPrefix value "0x") || (S.len value <? 3) || (10 <? S.len value) then Err "mark must be a 32-bit hexadecimal value"
  else
    let digits := behind "0x" value in
    if negb (S.all_bytes hexdigit digits) || (hexValue digits =? 0) then Err "mark must be a non-zero 32-bit hexadecimal value"
    else Ok (hexValue digits).
Definition validMark (value : string) : bool := is_ok (markNumber value).

(** [^[A-Za-z0-9_.:-]{1,32}$] *)
Definition interfaceNamePattern (s : string) : bool :=
  (1 <=? S.len s) && (S.len s <=? 32)
  && S.all_bytes (fun c => S.lower_letter c || S.upper_letter c || S.digit c || S.is_byte 95 c || S.is_byte 46 c || S.is_byte 58 c
                           || S.is_byte 45 c) s.

Definition splitProxy (value : string) : result (string * Z) :=
  match Net.SplitHostPort value with
  | None => Err "invalid loopback proxy"
  | Some (host, portText) =>
      match IP.ParseIP host with
      | Some ip =>
          if negb (IP.IsLoopback ip) then Err "proxy must listen on loopback"
          else match Atoi portText with
               | Some port => if (port <? 1) || (65535 <? port) then Err "invalid proxy port" else Ok (host, port)
               | None => Err "invalid proxy port"
               end
      | None => Err "proxy must listen on loopback"
      end
  end.

Definition parsePublicDNSResolver (value : string) : result (string * Z) :=
  match Net.SplitHostPort value with
  | None => Err "invalid Xray DNS proxy upstream"
  | Some (host, portText) =>
      match Atoi portText, IP.ParseIP host with
      | Some port, Some ip =>
          if negb (port =? 53) || IP.IsUnspecified ip || IP.IsLoopback ip || IP.IsPrivate ip || IP.IsLinkLocalUnicast ip || IP.IsMulticast ip
          then Err "invalid Xray DNS proxy upstream" else Ok (IP.Text ip, port)
      | _, _ => Err "invalid Xray DNS proxy upstream"
      end
  end.

(** By priority, then tag: distinct, as tags are. *)
Definition routeLess : Route -> Route -> bool := then_by (same_z r_Priority) (key_lt r_Priority) (key_slt r_Tag).
Definition enabledRoutes (c : Config) : list Route := gosort routeLess (List.filter Enabled (c_Routes c)).

(** ** Policies: which domain goes where *)

Record domainPolicy := mkDomainPolicy {
  po_Domain : string;
  po_ServiceName : string;
  po_Route : Route;
  po_Exact : bool;
  po_OverrideID : string
}.

Definition selectRoute (c : Config) (svc : Service) (routes : list Route) : Route :=
  let allowed r := PathAllowed svc r (c_Policy c) in
  match (if S.is_empty (s_SelectedRouteTag svc) then None
         else first (fun r => (r_Tag r =s s_SelectedRouteTag svc) && allowed r) routes) with
  | Some r => r
  | None =>
      match first (fun path => any (fun r => (r_Type r =s path) && allowed r) routes) (s_AllowedPaths svc) with
      | Some path => default zero_Route (first (fun r => (r_Type r =s path) && allowed r) routes)
      | None =>
          match first (fun r => r_Type r =s "drop") routes with
          | Some r => r
          | None => Build_Route "drop" "drop" 1000 false "" "" false "" "" "" false false "" (DropMark (c_OpenWrt c)) false
          end
      end
  end.

Definition sortedServiceNames (c : Config) : list string := gosort S.ltb (map fst (map_to_list (c_Services c))).
(** [strings.Count(domain, ".")]. *)
Definition depth (domain : string) : Z := Z.of_nat (length (S.Split domain S.dot)) - 1.
(** Exact ones first, then the deeper names, then by name. *)
Definition policyLess (x y : domainPolicy) : bool :=
  if negb (Bool.eqb (po_Exact x) (po_Exact y)) then po_Exact x
  else if negb (depth (po_Domain x) =? depth (po_Domain y)) then depth (po_Domain y) <? depth (po_Domain x)
  else S.ltb (po_Domain x) (po_Domain y).

Section Artifact.
Context (sha256 : string -> string) (toASCII : string -> option string) (order : list (string * Service)).

Definition routeID (tag : string) : string := String.substring 0 12 (sha256 ("route:" +:+ S.ToLower tag)).

(** The policy of one domain: the override that applies, or the choice of its
    service. *)
Definition policyFor (c : Config) (routes : list Route) (domain serviceName : string) (exact : bool) : result domainPolicy :=
  let service := serviceAt (c_Services c) serviceName in
  overridden ← Match toASCII (Some c) domain "" serviceName (s_Category service);
  match overridden with
  | Some m =>
      match SelectRoute m routes with
      | Some route => Ok (mkDomainPolicy domain serviceName route (o_Scope (mr_Override m) =s "exact_domain") (o_ID (mr_Override m)))
      | None => Err ("override " +:+ o_ID (mr_Override m) +:+ " targets an unavailable route")
      end
  | None => Ok (mkDomainPolicy domain serviceName (selectRoute c service routes) exact "")
  end.
Fixpoint addPolicies (c : Config) (routes : list Route) (seen : gset string) (l : list (string * string * bool))
    : result (list domainPolicy * gset string) :=
  match l with
  | [] => Ok ([], seen)
  | (domain, serviceName, exact) :: rest =>
      if bool_decide (domain ∈ seen) then addPolicies c routes seen rest
      else
        policy ← policyFor c routes domain serviceName exact;
        '(policies, seen) ← addPolicies c routes ({[domain]} ∪ seen) rest;
        Ok (policy :: policies, seen)
  end.
(** The domains of the services by name, then those only an exact override
    names. *)
Definition serviceDomains (c : Config) : list (string * string * bool) :=
  flat_map (fun name => map (fun d => (d, name, false)) (gosort S.ltb (s_Domains (serviceAt (c_Services c) name)))) (sortedServiceNames c).
Definition overrideDomains (c : Config) : list (string * string * bool) :=
  flat_map (fun o => if o_Scope o =s "exact_domain" then [(o_Domain o, ServiceForDomain order (o_Domain o), true)] else []) (c_Overrides c).
Definition buildDomainPolicies (c : Config) (routes : list Route) : result (list domainPolicy) :=
  '(policies, _) ← addPolicies c routes ∅ (serviceDomains c ++ overrideDomains c);
  Ok (gosort policyLess policies).

Definition hasPolicyTraffic (policies : list domainPolicy) : bool := any (fun p => r_Type (po_Route p) <>s "direct") policies.

(** ** Proofs and rules *)

(** The rule priorities given out so far, by mark and table; [i] counts the
    routes. *)
Fixpoint proofPlan (c : Config) (i : Z) (priorities : gmap (string * Z) Z) (routes : list Route) : list RouteProof :=
  match routes with
  | [] => []
  | route :: rest =>
      let type := r_Type route in
      let mark := firstNonEmpty (r_Mark route) (markForType c type) in
      let table := tableForType c type in
      let keyed := negb (S.is_empty mark) && (0 <? table) in
      let fresh := 10010 + i * 10 in
      let '(priority, priorities) :=
        if negb keyed then (fresh, priorities)
        else match priorities !! (mark, table) with
             | Some existing => (existing, priorities)
             | None => (fresh, <[(mark, table) := fresh]> priorities)
             end in
      mkProof (r_Tag route) type mark table priority (type <>s "drop") (type <>s "drop")
        (pl_IPv6Enabled (c_Platform c) && (type <>s "drop")) (containsString ["direct"; "zapret"; "vless"; "external_socks"] type)
        (type =s "vless") (type =s "zapret") (type =s "drop") (r_RequiresAdapter route) (firstNonEmpty (r_Status route) "CONFIGURED")
      :: proofPlan c (i + 1) priorities rest
  end.
Definition buildProofPlan (c : Config) (routes : list Route) : list RouteProof := proofPlan c 0 ∅ routes.

Definition throughXray (t : string) : bool := containsString ["vless"; "external_socks"] t.

(** The rules of [add], one for each family, unless the mark and table have some. *)
Definition addRule (c : Config) (st : gset (string * Z) * list IPRule) (mark : string) (table priority : Z) (purpose : string)
    : gset (string * Z) * list IPRule :=
  let '(seen, rules) := st in
  if S.is_empty mark || (table <=? 0) || (priority <=? 0) || bool_decide ((mark, table) ∈ seen) then st
  else ({[(mark, table)]} ∪ seen,
        rules ++ map (fun family => mkIPRule family priority mark "0xffffffff" table purpose)
                   ("ipv4" :: if pl_IPv6Enabled (c_Platform c) then ["ipv6"] else [])).
Definition ruleLess : IPRule -> IPRule -> bool :=
  then_by (same_z ir_Priority) (key_lt ir_Priority) (then_by (same_s ir_Family) (key_slt ir_Family) (key_slt ir_Mark)).
Definition proofRules (c : Config) (proofs : list RouteProof) (st : gset (string * Z) * list IPRule) : gset (string * Z) * list IPRule :=
  fold_left (fun st p => if rp_Type p =s "drop" then st else addRule c st (rp_Mark p) (rp_Table p) (rp_RulePriority p) ("route:" +:+ rp_Tag p))
    proofs st.
Definition buildIPRules (c : Config) (proofs : list RouteProof) : list IPRule :=
  let w := c_OpenWrt c in
  let transparent := any (fun p => throughXray (rp_Type p)) proofs && negb (S.is_empty (XrayTProxyMark w)) in
  let st := if transparent then addRule c (∅, []) (XrayTProxyMark w) (XrayRouteTable w) 10000 "xray_tproxy" else (∅, []) in
  gosort ruleLess (proofRules c proofs st).2.

(** ** The plan *)

(** What [diagnostics/network.json] holds; the hash of its text. *)
Inductive diagnosticsFile : Type :=
| NoDiagnostics
| UnreadableDiagnostics
| BadDiagnostics (hash : string)
| DiagnosticsRead (d : NetworkDiagnostics) (hash : string).

(** The diagnostics, their hash and the reason not to use them. *)
Definition loadNetworkDiagnostics (c : Config) (file : diagnosticsFile) (generatedAt : time) : NetworkDiagnostics * string * string :=
  if S.is_empty (st_StateDir (c_Storage c)) then (zero_Diagnostics, "", "network_diagnostics_missing")
  else match file with
  | NoDiagnostics => (zero_Diagnostics, "", "network_diagnostics_missing")
  | UnreadableDiagnostics => (zero_Diagnostics, "", "network_diagnostics_invalid")
  | BadDiagnostics hash => (zero_Diagnostics, hash, "network_diagnostics_invalid")
  | DiagnosticsRead d hash =>
      if (nd_Status d <>s "VERIFIED") || S.is_empty (S.TrimSpace (nd_Source d)) || T.IsZero (nd_CollectedAt d) || T.IsZero (nd_ExpiresAt d)
         || negb (T.Before generatedAt (nd_ExpiresAt d)) || T.After (nd_CollectedAt d) (T.Add generatedAt minute)
      then (zero_Diagnostics, hash, "network_diagnostics_stale_or_unverified")
      else (d, hash, "")
  end.

Definition transparentIPv4InboundTag : string := "router-policy-tproxy-v4".
Definition transparentIPv6InboundTag : string := "router-policy-tproxy-v6".

Definition flowPlan (c : Config) (policyTraffic : bool) : FlowOffloadingPlan :=
  let policy := firstNonEmpty (FlowOffloadingPolicy (c_OpenWrt c)) "preserve" in
  if policy =s "disable" then mkFlow policyTraffic true "" false false policy "disable" "DISABLE_PLANNED"
  else if policyTraffic then mkFlow policyTraffic true "" false false policy "none" "UNVERIFIED"
  else mkFlow policyTraffic false "" false false policy "none" "NOT_APPLICABLE".
Definition transparentPlan (c : Config) (proofs : list RouteProof) : TransparentProxyPlan :=
  if any (fun p => throughXray (rp_Type p)) proofs then
    mkTransparent true false (xr_ActivationMode (c_Xray c) <>s "managed") "UNVERIFIED" "tproxy" transparentIPv4InboundTag
      transparentIPv6InboundTag "127.0.0.1" "::1" (xr_TransparentPort (c_Xray c)) (XrayTProxyMark (c_OpenWrt c))
      (XrayBypassMark (c_OpenWrt c)) (XrayRouteTable (c_OpenWrt c))
  else zero_Transparent.
Definition zapretPlan (c : Config) (proofs : list RouteProof) : ZapretPlan :=
  let z := c_Zapret c in
  if any (fun p => rp_Type p =s "zapret") proofs then
    mkZapretPlan true (z_ActivationMode z <>s "managed") "UNVERIFIED" (z_QueueNum z) (z_Strategy z) (z_Binary z) (z_ActiveConfig z)
      (z_InitScript z) (z_DeviceProfiles z)
  else zero_ZapretPlan.
Definition emptyPlan (c : Config) (binding : Binding) (proofs : list RouteProof) (policyTraffic : bool) : IPPlan :=
  mkIPPlan binding false "" "" "" false [] [] proofs (buildIPRules c proofs) (transparentPlan c proofs) (zapretPlan c proofs)
    (flowPlan c policyTraffic) [] "" [].

Definition routeText (r : IPRoute) : string :=
  ip_Family r +:+ ":" +:+ pretty (ip_Table r) +:+ ":" +:+ ip_Destination r +:+ ":" +:+ ip_Type r +:+ ":" +:+ ip_Via r +:+ ":" +:+ ip_Device r.
(** The routes so far and the texts seen. *)
Definition addRoute (st : gset string * list IPRoute) (r : IPRoute) : gset string * list IPRoute :=
  let '(seen, routes) := st in
  if bool_decide (routeText r ∈ seen) then st else ({[routeText r]} ∪ seen, routes ++ [r]).

(** The routes of one proof. *)
Definition routesFor (d : NetworkDiagnostics) (p : RouteProof) : result (list IPRoute) :=
  let table := rp_Table p in
  if table <? 1 then Err "route_table_not_configured"
  else if containsString ["direct"; "zapret"; "smart_dns"] (rp_Type p) then
    let wan := nd_WANInterface d in
    _ ← reject (negb (interfaceNamePattern wan)) "wan_interface_unverified";
    v4 ← (if negb (rp_RequiresIPv4 p) then Ok []
          else match IP.ParseIP (nd_IPv4Gateway d) with
               | Some (IP.V4 _) => Ok [mkIPRoute "ipv4" table "default" "unicast" (nd_IPv4Gateway d) wan]
               | _ => Err "ipv4_gateway_unverified"
               end);
    v6 ← (if negb (rp_RequiresIPv6 p) then Ok []
          else if negb (nd_IPv6Available d) then Ok [mkIPRoute "ipv6" table "::/0" "unreachable" "" ""]
          else match IP.ParseIP (nd_IPv6Gateway d) with
               | Some (IP.V6 _ _) => Ok [mkIPRoute "ipv6" table "default" "unicast" (nd_IPv6Gateway d) wan]
               | _ => Err "ipv6_gateway_unverified"
               end);
    Ok (v4 ++ v6)
  else if throughXray (rp_Type p) then
    Ok ((if rp_RequiresIPv4 p then [mkIPRoute "ipv4" table "0.0.0.0/0" "local" "" "lo"] else [])
        ++ (if rp_RequiresIPv6 p then [mkIPRoute "ipv6" table "::/0" "local" "" "lo"] else []))
  else Err "route_type_unsupported".
(** The loop over the proofs; [Err reason] blocks the plan. *)
Fixpoint buildRoutes (d : NetworkDiagnostics) (st : gset string * list IPRoute) (proofs : list RouteProof) : result (list IPRoute) :=
  match proofs with
  | [] => Ok st.2
  | p :: rest =>
      if rp_Type p =s "drop" then buildRoutes d st rest
      else routes ← routesFor d p; buildRoutes d (fold_left addRoute routes st) rest
  end.

Definition verifiedTransparent (t : TransparentProxyPlan) : TransparentProxyPlan :=
  mkTransparent (tp_Enabled t) true (tp_CandidateOnly t) (if tp_CandidateOnly t then "CANDIDATE_ONLY" else "READY") (tp_Mode t)
    (tp_IPv4InboundTag t) (tp_IPv6InboundTag t) (tp_IPv4Listen t) (tp_IPv6Listen t) (tp_Port t) (tp_TProxyMark t) (tp_BypassMark t) (tp_RouteTable t).
Definition verifiedZapret (z : ZapretPlan) : ZapretPlan :=
  mkZapretPlan (zp_Enabled z) (zp_CandidateOnly z) (if zp_CandidateOnly z then "CANDIDATE_ONLY" else "READY") (zp_QueueNum z) (zp_Strategy z)
    (zp_Binary z) (zp_ActiveConfig z) (zp_InitScript z) (zp_DeviceProfiles z).
(** The plan for flow offloading after the diagnostics, and the reason it blocks. *)
Definition inspectedFlow (f : FlowOffloadingPlan) (d : NetworkDiagnostics) : FlowOffloadingPlan * string :=
  let with_status s := mkFlow (fl_PolicyTraffic f) (fl_Required f) (nd_FlowOffloadingStatus d) (nd_SoftwareFlowOffload d)
                         (nd_HardwareFlowOffload d) (fl_RequestedPolicy f) (fl_Action f) s in
  if fl_PolicyTraffic f && (fl_RequestedPolicy f =s "preserve") then
    if nd_FlowOffloadingStatus d <>s "VERIFIED" then (with_status "UNVERIFIED", "flow_offloading_unverified")
    else if nd_SoftwareFlowOffload d || nd_HardwareFlowOffload d then (with_status "INCOMPATIBLE", "flow_offloading_incompatible")
    else (with_status "VERIFIED_DISABLED", "")
  else (with_status (fl_Status f), "").

(** Everything is planned, and nothing installed. *)
Definition plannedOnly (reason : string) (p : IPPlan) : IPPlan := set_BlockReason reason (set_Routes [] (set_PlannedRoutes (pn_Routes p) p)).

(** Flow offloading, the tables, and what still stands in the way. *)
Definition withTables (c : Config) (d : NetworkDiagnostics) (proofs : list RouteProof) (plan : IPPlan) : IPPlan :=
  let '(flow, flowBlockReason) := inspectedFlow (pn_FlowOffloading plan) d in
  let plan := set_FlowOffloading flow plan in
  match buildRoutes d (∅, []) proofs with
  | Err reason => set_BlockReason reason (set_Routes [] plan)
  | Ok routes =>
      let plan := set_Routes routes plan in
      if HasDeviceOverrides (Some c) then plannedOnly "device_policy_data_plane_unverified" plan
      else if tp_Enabled (pn_TransparentProxy plan) && tp_CandidateOnly (pn_TransparentProxy plan)
      then plannedOnly "transparent_activation_unverified" plan
      else if zp_Enabled (pn_Zapret plan) && zp_CandidateOnly (pn_Zapret plan) then plannedOnly "zapret_activation_unverified" plan
      else if negb (S.is_empty flowBlockReason) then plannedOnly flowBlockReason plan
      else set_Ready true plan
  end.
(** From the point where the diagnostics are usable. *)
Definition planWith (c : Config) (d : NetworkDiagnostics) (proofs : list RouteProof) (plan : IPPlan) : IPPlan :=
  let lan := nd_LANInterfaces d in
  if tp_Enabled (pn_TransparentProxy plan) && (nd_TransparentProxyMode d <>s "tproxy")
  then set_BlockReason "transparent_proxy_mode_unverified" plan
  else
    let plan := if tp_Enabled (pn_TransparentProxy plan) then set_TransparentProxy (verifiedTransparent (pn_TransparentProxy plan)) plan else plan in
    let plan := if zp_Enabled (pn_Zapret plan) then set_Zapret (verifiedZapret (pn_Zapret plan)) plan else plan in
    let plan := set_LANInterfaces lan (set_WANInterface (nd_WANInterface d) plan) in
    if (length lan =? 0)%nat then set_BlockReason "lan_interfaces_unverified" plan
    else if any (fun l => negb (interfaceNamePattern l) || (l =s nd_WANInterface d)) lan then set_BlockReason "lan_interfaces_invalid" plan
    else withTables c d proofs plan.

Definition buildIPPlan (c : Config) (binding : Binding) (proofs : list RouteProof) (policyTraffic : bool) (file : diagnosticsFile)
    (generatedAt : time) : IPPlan :=
  let plan := emptyPlan c binding proofs policyTraffic in
  if negb (any (fun p => rp_Type p <>s "drop") proofs) && negb (fl_Required (pn_FlowOffloading plan)) then
    if HasDeviceOverrides (Some c) then set_BlockReason "device_policy_data_plane_unverified" plan else set_Ready true plan
  else
    let '(d, hash, reason) := loadNetworkDiagnostics c file generatedAt in
    let plan := set_Simulation (nd_Simulation d) (set_DiagnosticsSource (nd_Source d) (set_DiagnosticsHash hash plan)) in
    if negb (S.is_empty reason) then set_BlockReason reason plan else planWith c d proofs plan.

(** ** DNS proxies *)

Definition usedVLESSRoutes (policies : list domainPolicy) : gset string :=
  list_to_set (map (fun p => r_Tag (po_Route p)) (List.filter (fun p => r_Type (po_Route p) =s "vless") policies)).
Fixpoint usedSOCKSPorts (used : gset Z) (routes : list Route) : result (gset Z) :=
  match routes with
  | [] => Ok used
  | r :: rest =>
      if S.is_empty (r_SOCKS5 r) then usedSOCKSPorts used rest
      else match splitProxy (r_SOCKS5 r) with
           | Err e => Err ("route " +:+ r_Tag r +:+ " SOCKS endpoint: " +:+ e)
           | Ok (_, port) => usedSOCKSPorts ({[port]} ∪ used) rest
           end
  end.
Fixpoint dnsProxies (used : gset string) (ports : gset Z) (base : Z) (upstream : string * Z) (index : Z) (routes : list Route)
    : result (list DNSProxyPlan) :=
  match routes with
  | [] => Ok []
  | route :: rest =>
      if negb (bool_decide (r_Tag route ∈ used)) then dnsProxies used ports base upstream (index + 1) rest
      else
        let port := base + index in
        _ ← reject ((65535 <? port) || bool_decide (port ∈ ports)) ("Xray DNS proxy port " +:+ pretty port +:+ " is unavailable");
        more ← dnsProxies used ({[port]} ∪ ports) base upstream (index + 1) rest;
        Ok (mkDNSProxy (r_Tag route) ("router-policy-dns-" +:+ routeID (r_Tag route)) "127.0.0.1" port upstream.1 upstream.2 (r_Tag route) :: more)
  end.
Definition buildDNSProxyPlans (c : Config) (routes : list Route) (policies : list domainPolicy) : result (list DNSProxyPlan) :=
  let used := usedVLESSRoutes policies in
  if bool_decide (used = ∅) then Ok []
  else
    ports ← usedSOCKSPorts {[xr_TransparentPort (c_Xray c)]} routes;
    upstream ← parsePublicDNSResolver (xr_ProbeDNSResolver (c_Xray c));
    let vless := gosort (key_slt r_Tag) (List.filter (fun r => r_Type r =s "vless") routes) in
    plans ← dnsProxies used ports (dnsProxyBasePort c) upstream 0 vless;
    _ ← reject (negb (length plans =? size used)%nat) "domain policy selects an unavailable VLESS DNS route";
    Ok plans.

(** ** Loading a plan *)

Definition familyTable (family : string) (table : Z) : string := family +:+ ":" +:+ pretty table.

Definition validRoute (r : IPRoute) : bool :=
  if ip_Family r =s "ipv4" then
    if ip_Type r =s "local" then (ip_Destination r =s "0.0.0.0/0") && S.is_empty (ip_Via r) && (ip_Device r =s "lo")
    else (ip_Type r =s "unicast") && (ip_Destination r =s "default")
         && match IP.ParseIP (ip_Via r) with Some (IP.V4 _) => true | _ => false end
  else if ip_Family r =s "ipv6" then
    if ip_Type r =s "local" then (ip_Destination r =s "::/0") && S.is_empty (ip_Via r) && (ip_Device r =s "lo")
    else if ip_Type r =s "unreachable" then (ip_Destination r =s "::/0") && S.is_empty (ip_Via r) && S.is_empty (ip_Device r)
    else (ip_Type r =s "unicast") && (ip_Destination r =s "default")
         && match IP.ParseIP (ip_Via r) with Some (IP.V6 _ _) => true | _ => false end
  else false.
Fixpoint validateIPRoutes (families : gset string) (routes : list IPRoute) : result (gset string) :=
  match routes with
  | [] => Ok families
  | r :: rest =>
      _ ← reject (ip_Table r <? 1) "invalid ip route table";
      _ ← reject ((ip_Type r <>s "unreachable") && negb (interfaceNamePattern (ip_Device r))) "invalid ip route device";
      let key := familyTable (ip_Family r) (ip_Table r) in
      _ ← reject (bool_decide (key ∈ families)) "duplicate ip route family/table";
      _ ← reject (negb (validRoute r)) "invalid ip route";
      validateIPRoutes ({[key]} ∪ families) rest
  end.
Fixpoint validateIPRules (families : gset string) (priorities : gmap Z (string * Z)) (tags : gset string) (rules : list RouteProof) : result unit :=
  match rules with
  | [] => Ok ()
  | r :: rest =>
      let binding := (rp_Mark r, rp_Table r) in
      _ ← reject (S.is_empty (rp_Tag r) || S.is_empty (rp_Type r) || (rp_RulePriority r <? 1) || bool_decide (rp_Tag r ∈ tags))
            "invalid or duplicate ip rule";
      _ ← reject (match priorities !! rp_RulePriority r with Some previous => negb (bool_decide (previous = binding)) | None => false end)
            ("ip rule priority " +:+ pretty (rp_RulePriority r) +:+ " has conflicting mark/table bindings");
      let network := rp_Type r <>s "drop" in
      _ ← reject (network && ((rp_Table r <? 1) || negb (validMark (rp_Mark r)))) ("route " +:+ rp_Tag r +:+ " has invalid mark/table");
      _ ← reject (network && rp_RequiresIPv4 r && negb (bool_decide (familyTable "ipv4" (rp_Table r) ∈ families)))
            ("route " +:+ rp_Tag r +:+ " has no IPv4 table plan");
      _ ← reject (network && rp_RequiresIPv6 r && negb (bool_decide (familyTable "ipv6" (rp_Table r) ∈ families)))
            ("route " +:+ rp_Tag r +:+ " has no IPv6 table plan");
      validateIPRules families (<[rp_RulePriority r := binding]> priorities) ({[rp_Tag r]} ∪ tags) rest
  end.
Fixpoint validateEachRule (families : gset string) (seen : gset string) (rules : list IPRule) : result unit :=
  match rules with
  | [] => Ok ()
  | r :: rest =>
      _ ← reject (negb (containsString ["ipv4"; "ipv6"] (ir_Family r))) "invalid explicit ip rule family";
      let key := familyTable (ir_Family r) (ir_Priority r) in
      _ ← reject (bool_decide (key ∈ seen) || (ir_Priority r <? 1) || (ir_Table r <? 1) || S.is_empty (ir_Purpose r) || negb (validMark (ir_Mark r)))
            "invalid or duplicate explicit ip rule";
      _ ← reject (negb (S.is_empty (ir_Mask r)) && (ir_Mask r <>s "0xffffffff")) "unsupported explicit ip rule mask";
      _ ← reject (negb (bool_decide (familyTable (ir_Family r) (ir_Table r) ∈ families)))
            ("explicit ip rule " +:+ ir_Purpose r +:+ " has no route table plan");
      validateEachRule families ({[key]} ∪ seen) rest
  end.
Definition validateExplicitIPRules (families : gset string) (required : bool) (rules : list IPRule) : result unit :=
  _ ← reject (required && (length rules =? 0)%nat) "explicit ip rules are missing";
  validateEachRule families ∅ rules.

Definition validateTransparentProxyPlan (t : TransparentProxyPlan) : result unit :=
  if negb (tp_Enabled t) then Ok ()
  else
    _ ← reject ((tp_Mode t <>s "tproxy") || (tp_IPv4InboundTag t <>s transparentIPv4InboundTag) || (tp_IPv6InboundTag t <>s transparentIPv6InboundTag)
                || (tp_IPv4Listen t <>s "127.0.0.1") || (tp_IPv6Listen t <>s "::1") || (tp_Port t <? 1024) || (65535 <? tp_Port t)
                || (tp_RouteTable t <? 1)) "invalid transparent proxy candidate metadata";
    _ ← markNumber (tp_TProxyMark t);
    _ ← markNumber (tp_BypassMark t);
    _ ← reject (tp_TProxyMark t =s tp_BypassMark t) "transparent proxy and bypass marks collide";
    if tp_Status t =s "UNVERIFIED" then Ok ()
    else if tp_Status t =s "CANDIDATE_ONLY" then reject (negb (tp_CandidateOnly t)) "transparent proxy candidate status mismatch"
    else if tp_Status t =s "READY" then
      reject (tp_CandidateOnly t || negb (tp_CapabilityVerified t)) "transparent proxy ready status mismatch"
    else Err "invalid transparent proxy candidate status".
Definition validateZapretPlan (z : ZapretPlan) : result unit :=
  if negb (zp_Enabled z) then Ok ()
  else
    _ ← reject ((zp_QueueNum z <? 1) || (65535 <? zp_QueueNum z) || (zp_Strategy z <>s "tls-fake-ttl3-v1") || (zp_Binary z <>s "/usr/bin/nfqws")
                || (zp_ActiveConfig z <>s "/etc/router-policy/zapret/nfqws.conf") || (zp_InitScript z <>s "/etc/init.d/router-policy-zapret"))
          "invalid managed Zapret plan";
    _ ← (if (length (zp_DeviceProfiles z) =? 0)%nat then Ok ()
         else match ValidateProfiles (zp_DeviceProfiles z) with
              | Some e => Err ("invalid device-scoped Zapret plan: " +:+ e)
              | None =>
                  reject (any (fun p => dv_QueueNum p =? zp_QueueNum z) (zp_DeviceProfiles z)) "device-scoped Zapret profile collides with base queue"
              end);
    if zp_Status z =s "UNVERIFIED" then Ok ()
    else if zp_Status z =s "CANDIDATE_ONLY" then reject (negb (zp_CandidateOnly z)) "zapret candidate status mismatch"
    else if zp_Status z =s "READY" then reject (zp_CandidateOnly z) "zapret ready status mismatch"
    else Err "invalid Zapret status".
Definition validateFlowOffloadingPlan (f : FlowOffloadingPlan) : result unit :=
  _ ← reject (negb (containsString ["preserve"; "disable"] (fl_RequestedPolicy f))) "invalid flow offloading policy";
  if negb (fl_Required f) then
    reject (fl_PolicyTraffic f || (fl_Action f <>s "none") || (fl_Status f <>s "NOT_APPLICABLE")) "invalid non-applicable flow offloading plan"
  else if fl_RequestedPolicy f =s "disable" then
    reject ((fl_Action f <>s "disable") || (fl_Status f <>s "DISABLE_PLANNED")) "invalid flow offloading disable plan"
  else
    _ ← reject (negb (fl_PolicyTraffic f) || (fl_Action f <>s "none")) "invalid policy flow offloading plan";
    if fl_Status f =s "UNVERIFIED" then Ok ()
    else if fl_Status f =s "INCOMPATIBLE" then
      reject ((fl_DiagnosticsStatus f <>s "VERIFIED") || negb (fl_SoftwareEnabled f) && negb (fl_HardwareEnabled f))
        "incompatible flow offloading plan lacks evidence"
    else if fl_Status f =s "VERIFIED_DISABLED" then
      reject ((fl_DiagnosticsStatus f <>s "VERIFIED") || fl_SoftwareEnabled f || fl_HardwareEnabled f)
        "disabled flow offloading plan lacks evidence"
    else Err "invalid flow offloading status".

Fixpoint validateProxies (vless routes inbounds listeners : gset string) (l : list DNSProxyPlan) : result unit :=
  match l with
  | [] => Ok ()
  | p :: rest =>
      _ ← reject (S.is_empty (dn_RouteTag p) || negb (bool_decide (dn_RouteTag p ∈ vless)) || (dn_XrayOutboundTag p <>s dn_RouteTag p))
            "invalid Xray DNS proxy route binding";
      _ ← reject ((dn_InboundTag p <>s "router-policy-dns-" +:+ routeID (dn_RouteTag p)) || bool_decide (dn_InboundTag p ∈ inbounds)
                  || bool_decide (dn_RouteTag p ∈ routes)) "duplicate or invalid Xray DNS proxy identity";
      _ ← reject ((dn_Listen p <>s "127.0.0.1") || (dn_Port p <? 1024) || (65535 <? dn_Port p)) "Xray DNS proxy listener is not loopback-bound";
      let listener := JoinHostPort (dn_Listen p) (pretty (dn_Port p)) in
      _ ← reject (bool_decide (listener ∈ listeners)) "duplicate Xray DNS proxy listener";
      _ ← parsePublicDNSResolver (JoinHostPort (dn_Upstream p) (pretty (dn_UpstreamPort p)));
      validateProxies vless ({[dn_RouteTag p]} ∪ routes) ({[dn_InboundTag p]} ∪ inbounds) ({[listener]} ∪ listeners) rest
  end.
Definition validateDNSProxyPlans (plans : list DNSProxyPlan) (rules : list RouteProof) : result unit :=
  validateProxies (list_to_set (map rp_Tag (List.filter (fun r => rp_Type r =s "vless") rules))) ∅ ∅ ∅ plans.

(** The checks on a plan once it is read. *)
Definition checkIPPlan (plan : IPPlan) (expected : Binding) : result IPPlan :=
  _ ← reject (negb (bool_decide (pn_Binding plan = expected))) "ip plan binding mismatch";
  _ ← validateTransparentProxyPlan (pn_TransparentProxy plan);
  _ ← validateZapretPlan (pn_Zapret plan);
  _ ← validateFlowOffloadingPlan (pn_FlowOffloading plan);
  _ ← validateDNSProxyPlans (pn_DNSProxies plan) (pn_Rules plan);
  let planned := negb (length (pn_PlannedRoutes plan) =? 0)%nat in
  if negb (pn_DeploymentReady plan) then
    _ ← reject (S.is_empty (pn_BlockReason plan) || negb (length (pn_Routes plan) =? 0)%nat) "blocked ip plan has invalid readiness metadata";
    _ ← (if planned then
           families ← validateIPRoutes ∅ (pn_PlannedRoutes plan);
           _ ← validateIPRules families ∅ ∅ (pn_Rules plan);
           validateExplicitIPRules families true (pn_IPRules plan)
         else Ok ());
    let t := pn_TransparentProxy plan in
    _ ← reject ((pn_BlockReason plan =s "transparent_activation_unverified")
                && (negb (tp_Enabled t) || negb (tp_CapabilityVerified t) || negb (tp_CandidateOnly t) || negb planned))
          "transparent candidate plan lacks verified preview metadata";
    _ ← reject ((pn_BlockReason plan =s "zapret_activation_unverified")
                && (negb (zp_Enabled (pn_Zapret plan)) || negb (zp_CandidateOnly (pn_Zapret plan)) || negb planned))
          "zapret candidate plan lacks preview metadata";
    Ok plan
  else
    _ ← reject (negb (S.is_empty (pn_BlockReason plan))) "ready ip plan contains a block reason";
    _ ← reject (planned || tp_CandidateOnly (pn_TransparentProxy plan) || zp_CandidateOnly (pn_Zapret plan))
          "ready ip plan contains candidate-only routes";
    let networkRequired := any (fun r => rp_Type r <>s "drop") (pn_Rules plan) in
    _ ← reject (networkRequired && (S.is_empty (pn_DiagnosticsHash plan) || S.is_empty (S.TrimSpace (pn_DiagnosticsSource plan))))
          "ready ip plan lacks diagnostics provenance";
    families ← validateIPRoutes ∅ (pn_Routes plan);
    _ ← validateIPRules families ∅ ∅ (pn_Rules plan);
    _ ← validateExplicitIPRules families networkRequired (pn_IPRules plan);
    Ok plan.

(** The decisions of [Generate]: the policies, the proofs the manifest asks for,
    and the plan. *)
Definition routesUsedByPolicies (routes : list Route) (policies : list domainPolicy) : list Route :=
  List.filter (fun r => any (fun p => r_Tag (po_Route p) =s r_Tag r) policies) routes.
Definition selectProofs (all : list RouteProof) (routes : list Route) : list RouteProof :=
  List.filter (fun p => any (fun r => r_Tag r =s rp_Tag p) routes) all.

Definition generatePlan (c : Config) (binding : Binding) (file : diagnosticsFile) (generatedAt : time)
    : result (list domainPolicy * list RouteProof * IPPlan) :=
  let routes := enabledRoutes c in
  policies ← buildDomainPolicies c routes;
  let all := buildProofPlan c routes in
  let proofs := selectProofs all (routesUsedByPolicies routes policies) in
  let plan := buildIPPlan c binding all (hasPolicyTraffic policies) file generatedAt in
  proxies ← buildDNSProxyPlans c routes policies;
  Ok (policies, proofs, set_DNSProxies proxies plan).
End Artifact.
