(* ===== verification/ArtifactProofs.v ===== *)
(** * A generated plan passes its own checks

    [Artifact.generatePlan] writes the plan that the adapter later reads back
    through [Artifact.checkIPPlan]: the two are written apart, so a plan of a valid
    configuration could be refused when it is to be installed.  It is not.  Also,
    the policies of a plan respect the services, and every required proof has its
    rules and its table. *)
From Stdlib Require Import ZArith Lia.
From stdpp Require Import base list strings gmap pretty.
From S2P Require Import Prelude Net Json NetProofs ZapretProfile Config Tspu Override Validation ValidationProofs ValidationStable Artifact.

Open Scope Z_scope.

(** ** Proofs of routes and their priorities *)

Definition keyOf (p : RouteProof) : string * Z := (rp_Mark p, rp_Table p).
Definition keyed (p : RouteProof) : bool := negb (S.is_empty (rp_Mark p)) && (0 <? rp_Table p).

(** What a proof says of its route. *)
Record describes (c : Config) (r : Route) (p : RouteProof) : Prop := {
  ds_tag : rp_Tag p = r_Tag r;
  ds_type : rp_Type p = r_Type r;
  ds_mark : rp_Mark p = firstNonEmpty (r_Mark r) (markForType c (r_Type r));
  ds_table : rp_Table p = tableForType c (r_Type r);
  ds_v4 : rp_RequiresIPv4 p = (r_Type r <>s "drop");
  ds_v6 : rp_RequiresIPv6 p = pl_IPv6Enabled (c_Platform c) && (r_Type r <>s "drop")
}.

(** The priorities given so far lie below those of the routes to come. *)
Definition below (i : Z) (m : gmap (string * Z) Z) : Prop := forall k v, m !! k = Some v -> 10010 <= v < 10010 + i * 10.
Definition apartBy (m : gmap (string * Z) Z) : Prop := forall k k' v, m !! k = Some v -> m !! k' = Some v -> k = k'.

Record prioritized (i : Z) (m : gmap (string * Z) Z) (ps : list RouteProof) : Prop := {
  pz_range : forall p, p ∈ ps -> keyed p = true /\ m !! keyOf p = Some (rp_RulePriority p) \/ 10010 + i * 10 <= rp_RulePriority p;
  pz_known : forall p v, p ∈ ps -> keyed p = true -> m !! keyOf p = Some v -> rp_RulePriority p = v;
  pz_apart : forall p q, p ∈ ps -> q ∈ ps -> rp_RulePriority p = rp_RulePriority q -> keyOf p = keyOf q;
  pz_shared : forall p q, p ∈ ps -> q ∈ ps -> keyed p = true -> keyOf p = keyOf q -> rp_RulePriority p = rp_RulePriority q
}.

(** A proof in front whose priority is new. *)
Lemma prioritized_fresh i m p ps :
  prioritized (i + 1) m ps -> below i m -> keyed p = false -> rp_RulePriority p = 10010 + i * 10 -> prioritized i m (p :: ps).
Proof.
  intros [H1 H2 H3 H4] HB Hk Hp. assert (Hnew : forall q, q ∈ ps -> rp_RulePriority q <> 10010 + i * 10).
  { intros q Hq. destruct (H1 q Hq) as [[_ Hm]|]; [apply HB in Hm; lia|lia]. }
  constructor.
  - intros q [->|Hq]%elem_of_cons; [right; lia|]. destruct (H1 q Hq); [by left|right; lia].
  - intros q v [->|Hq]%elem_of_cons Hkq; [congruence|by apply H2].
  - intros q q' [->|Hq]%elem_of_cons [->|Hq']%elem_of_cons E; [done|exfalso; eapply Hnew; [exact Hq'|congruence]|exfalso; eapply Hnew; [exact Hq|congruence]|by apply H3].
  - intros q q' [->|Hq]%elem_of_cons [->|Hq']%elem_of_cons Hkq E; [done|congruence| |by apply H4].
    unfold keyed in *. injection E as E1 E2. rewrite <- E1, <- E2 in Hk. congruence.
Qed.
(** One whose mark and table have a priority. *)
Lemma prioritized_known i m p ps :
  prioritized (i + 1) m ps -> keyed p = true -> m !! keyOf p = Some (rp_RulePriority p) -> apartBy m -> below i m -> prioritized i m (p :: ps).
Proof.
  intros [H1 H2 H3 H4] Hk Hm HA HB. assert (Hout : forall q, q ∈ ps -> rp_RulePriority q = rp_RulePriority p -> keyOf q = keyOf p).
  { intros q Hq E. destruct (H1 q Hq) as [[_ Hmq]|Hlo]; [|apply HB in Hm; lia]. rewrite E in Hmq. by eapply HA. }
  constructor.
  - intros q [->|Hq]%elem_of_cons; [by left|]. destruct (H1 q Hq); [by left|right; lia].
  - intros q v [->|Hq]%elem_of_cons Hkq Hv; [congruence|by apply H2].
  - intros q q' [->|Hq]%elem_of_cons [->|Hq']%elem_of_cons E; [done|symmetry; by apply Hout|by apply Hout|by apply H3].
  - intros q q' [->|Hq]%elem_of_cons [->|Hq']%elem_of_cons Hkq E; [done| | |by apply H4].
    + symmetry. apply H2; [done| |by rewrite <- E]. unfold keyed in *. injection E as E1 E2. by rewrite <- E1, <- E2.
    + apply H2; [done..|by rewrite E].
Qed.
(** One that gives its mark and table a priority. *)
Lemma prioritized_insert i m p ps :
  prioritized (i + 1) (<[keyOf p := rp_RulePriority p]> m) ps -> keyed p = true -> m !! keyOf p = None -> below i m ->
  rp_RulePriority p = 10010 + i * 10 -> prioritized i m (p :: ps).
Proof.
  intros [H1 H2 H3 H4] Hk Hm HB Hp.
  assert (Hold : forall q, q ∈ ps -> keyOf q <> keyOf p -> rp_RulePriority q <> rp_RulePriority p).
  { intros q Hq Hne E. destruct (H1 q Hq) as [[_ Hq']|]; [|lia]. rewrite lookup_insert_ne in Hq' by done. apply HB in Hq'. lia. }
  assert (Hsame : forall q, q ∈ ps -> keyOf q = keyOf p -> rp_RulePriority q = rp_RulePriority p).
  { intros q Hq E. apply H2; [done| |rewrite E; apply lookup_insert_eq]. unfold keyed in *. injection E as -> ->. done. }
  constructor.
  - intros q [->|Hq]%elem_of_cons; [right; lia|]. destruct (decide (keyOf q = keyOf p)) as [E|Hne]; [right; rewrite (Hsame q) by done; lia|].
    destruct (H1 q Hq) as [[Hkq Hq']|]; [left; by rewrite lookup_insert_ne in Hq'|right; lia].
  - intros q v [->|Hq]%elem_of_cons Hkq Hv; [congruence|]. apply H2; [done..|]. rewrite lookup_insert_ne; [done|]. intros E. congruence.
  - intros q q' [->|Hq]%elem_of_cons [->|Hq']%elem_of_cons E; [done| | |by apply H3].
    + destruct (decide (keyOf q' = keyOf p)); [done|]. by apply Hold in Hq'.
    + destruct (decide (keyOf q = keyOf p)); [done|]. by apply Hold in Hq.
  - intros q q' [->|Hq]%elem_of_cons [->|Hq']%elem_of_cons Hkq E; [done|symmetry; by apply Hsame|by apply Hsame|by apply H4].
Qed.

Lemma proofPlan_spec c routes : forall i m, 0 <= i -> below i m -> apartBy m ->
  Forall2 (describes c) routes (proofPlan c i m routes) /\ prioritized i m (proofPlan c i m routes).
Proof.
  induction routes as [|r routes IH]; intros i m Hi HB HA.
  { cbn [proofPlan]. split; [constructor|]. constructor; by nothing_in. }
  cbn [proofPlan]. cbv zeta. set (mark := firstNonEmpty (r_Mark r) (markForType c (r_Type r))). set (table := tableForType c (r_Type r)).
  assert (HB1 : below (i + 1) m) by (intros k v Hk; apply HB in Hk; lia).
  destruct (negb (S.is_empty mark) && (0 <? table)) eqn:EK; cbn [negb].
  - destruct (m !! (mark, table)) as [v|] eqn:EM.
    + destruct (IH (i + 1) m) as [HF HP]; [lia|done..|]. split; [constructor; [by constructor|done]|]. by apply prioritized_known.
    + destruct (IH (i + 1) (<[(mark, table) := 10010 + i * 10]> m)) as [HF HP]; [lia| | |].
      * intros k v [[<- <-]|[_ Hk]]%lookup_insert_Some; [lia|]. apply HB in Hk. lia.
      * intros k k' v [[<- <-]|[Hn Hk]]%lookup_insert_Some [[<- E]|[Hn' Hk']]%lookup_insert_Some; [done| | |by eapply HA].
        -- apply HB in Hk'. lia.
        -- subst. apply HB in Hk. lia.
      * split; [constructor; [by constructor|done]|]. by apply prioritized_insert.
  - destruct (IH (i + 1) m) as [HF HP]; [lia|done..|]. split; [constructor; [by constructor|done]|]. by apply prioritized_fresh.
Qed.
Lemma buildProofPlan_spec c routes :
  Forall2 (describes c) routes (buildProofPlan c routes) /\ prioritized 0 ∅ (buildProofPlan c routes).
Proof. apply proofPlan_spec; [done|by intros ? ? ?%lookup_empty_Some|by intros ? ? ? ?%lookup_empty_Some]. Qed.

(** ** Routing tables *)

Definition throughWAN (t : string) : bool := containsString ["direct"; "zapret"; "smart_dns"] t.
(** No table serves both kinds of routes: the kind of route decides what the table
    holds. *)
Definition separated (c : Config) : Prop := forall r r', r ∈ enabledRoutes c -> r' ∈ enabledRoutes c ->
  throughXray (r_Type r) = true -> throughWAN (r_Type r') = true -> tableForType c (r_Type r) <> tableForType c (r_Type r').

Lemma routesFor_cases d p rs : routesFor d p = Ok rs -> 1 <= rp_Table p /\
  (throughWAN (rp_Type p) = true /\ interfaceNamePattern (nd_WANInterface d) = true \/ throughWAN (rp_Type p) = false /\ throughXray (rp_Type p) = true).
Proof.
  unfold routesFor. destruct (rp_Table p <? 1) eqn:ET; [done|]. fold (throughWAN (rp_Type p)). destruct (throughWAN (rp_Type p)).
  - intros H. ok_steps H. apply negb_false_iff in G. split; [lia|by left].
  - destruct (throughXray (rp_Type p)); [|done]. intros _. split; [lia|by right].
Qed.

(** Each route of a proof, with what decides it. *)
Lemma routesFor_route d p rs r : routesFor d p = Ok rs -> r ∈ rs ->
  ip_Table r = rp_Table p /\ validRoute r = true /\ (ip_Type r <>s "unreachable") && negb (interfaceNamePattern (ip_Device r)) = false /\
  (ip_Family r = "ipv4" \/ ip_Family r = "ipv6").
Proof.
  intros H Hr. destruct (routesFor_cases _ _ _ H) as (HT & HC). unfold routesFor in H. cbv zeta in H.
  destruct (rp_Table p <? 1); [done|]. fold (throughWAN (rp_Type p)) in H. destruct HC as [[EW EN]|[EW EX]].
  - rewrite EW in H. ok_steps H. injection H as <-. apply elem_of_app in Hr as [Hr|Hr].
    + destruct (negb (rp_RequiresIPv4 p)); [injection G0 as <-; by apply elem_of_nil in Hr|].
      destruct (IP.ParseIP (nd_IPv4Gateway d)) as [[n|n z]|] eqn:EG; try done. injection G0 as <-. apply list_elem_of_singleton in Hr as ->.
      cbn. rewrite EN. unfold validRoute. cbn. rewrite EG. auto.
    + destruct (negb (rp_RequiresIPv6 p)); [injection G1 as <-; by apply elem_of_nil in Hr|].
      destruct (negb (nd_IPv6Available d)); [injection G1 as <-; apply list_elem_of_singleton in Hr as ->; cbn; auto|].
      destruct (IP.ParseIP (nd_IPv6Gateway d)) as [[n|n z]|] eqn:EG; try done. injection G1 as <-. apply list_elem_of_singleton in Hr as ->.
      cbn. rewrite EN. unfold validRoute. cbn. rewrite EG. auto.
  - rewrite EW, EX in H. injection H as <-. apply elem_of_app in Hr as [Hr|Hr].
    + destruct (rp_RequiresIPv4 p); [|by apply elem_of_nil in Hr]. apply list_elem_of_singleton in Hr as ->. cbn. auto.
    + destruct (rp_RequiresIPv6 p); [|by apply elem_of_nil in Hr]. apply list_elem_of_singleton in Hr as ->. cbn. auto.
Qed.
(** A proof has a route for each family it requires. *)
Lemma routesFor_complete d p rs : routesFor d p = Ok rs ->
  (rp_RequiresIPv4 p = true -> exists r, r ∈ rs /\ ip_Family r = "ipv4") /\ (rp_RequiresIPv6 p = true -> exists r, r ∈ rs /\ ip_Family r = "ipv6").
Proof.
  intros H. destruct (routesFor_cases _ _ _ H) as (HT & HC). unfold routesFor in H. cbv zeta in H.
  destruct (rp_Table p <? 1); [done|]. fold (throughWAN (rp_Type p)) in H. destruct HC as [[EW EN]|[EW EX]].
  - rewrite EW in H. ok_steps H. injection H as <-. split; intros E; rewrite E in *; cbn [negb] in *.
    + destruct (IP.ParseIP (nd_IPv4Gateway d)) as [[n|n z]|] eqn:EG; try done. injection G0 as <-. eexists. split; [left|done].
    + setoid_rewrite elem_of_app. destruct (nd_IPv6Available d); cbn [negb] in G1.
      * destruct (IP.ParseIP (nd_IPv6Gateway d)) as [[n|n z]|] eqn:EG; try done. injection G1 as <-. eexists. split; [right; left|done].
      * injection G1 as <-. eexists. split; [right; left|done].
  - rewrite EW, EX in H. injection H as <-. split; intros E; rewrite E.
    + eexists. split; [left|done].
    + setoid_rewrite elem_of_app. eexists. split; [right; left|done].
Qed.
(** The family, the table and the kind decide the route. *)
Lemma routesFor_same d p q rs rs' r r' :
  routesFor d p = Ok rs -> routesFor d q = Ok rs' -> r ∈ rs -> r' ∈ rs' ->
  throughWAN (rp_Type p) = throughWAN (rp_Type q) -> ip_Table r = ip_Table r' -> ip_Family r = ip_Family r' -> r = r'.
Proof.
  intros H H' Hr Hr' EK ET EF.
  destruct (routesFor_route _ _ _ _ H Hr) as (Er & _). destruct (routesFor_route _ _ _ _ H' Hr') as (Er' & _).
  assert (ETT : rp_Table p = rp_Table q) by congruence. clear Er Er' ET.
  destruct (routesFor_cases _ _ _ H) as (_ & HC), (routesFor_cases _ _ _ H') as (_ & HC'). unfold routesFor in H, H'. cbv zeta in H, H'.
  destruct (rp_Table p <? 1); [done|]. destruct (rp_Table q <? 1); [done|]. fold (throughWAN (rp_Type p)) in H. fold (throughWAN (rp_Type q)) in H'.
  destruct HC as [[EW EN]|[EW EX]], HC' as [[EW' EN']|[EW' EX']]; try congruence; rewrite EW in H; rewrite EW' in H'.
  - ok_steps H. ok_steps H'. injection H as <-. injection H' as <-. rewrite ETT in *.
    apply elem_of_app in Hr as [Hr|Hr], Hr' as [Hr'|Hr'];
      repeat match goal with
      | G : (if negb ?b then _ else _) = Ok _ |- _ => destruct b; cbn [negb] in G
      | G : match IP.ParseIP ?s with _ => _ end = Ok _ |- _ => destruct (IP.ParseIP s) as [[]|]; try discriminate G
      | G : Ok _ = Ok _ |- _ => injection G as <-
      | G : _ ∈ [] |- _ => by apply elem_of_nil in G
      | G : _ ∈ [_] |- _ => apply list_elem_of_singleton in G as ->
      end; first [reflexivity|discriminate EF].
  - rewrite EX in H. rewrite EX' in H'. injection H as <-. injection H' as <-. rewrite ETT in *.
    apply elem_of_app in Hr as [Hr|Hr], Hr' as [Hr'|Hr'];
      repeat match goal with
      | G : _ ∈ (if ?b then _ else _) |- _ => destruct b
      | G : _ ∈ [] |- _ => by apply elem_of_nil in G
      | G : _ ∈ [_] |- _ => apply list_elem_of_singleton in G as ->
      end; first [reflexivity|discriminate EF].
Qed.

(** The texts [add] compares differ when the family or the table does. *)
Lemma familyTable_inj (f g : string) (t u : Z) :
  (f = "ipv4" \/ f = "ipv6") -> (g = "ipv4" \/ g = "ipv6") -> familyTable f t = familyTable g u -> f = g /\ t = u.
Proof.
  unfold familyTable. intros [-> | ->] [-> | ->] H; try discriminate H; do 2 apply str_app_inj_l in H; (split; [done|]); by apply (inj pretty) in H.
Qed.
Lemma routeText_inj r r' :
  (ip_Family r = "ipv4" \/ ip_Family r = "ipv6") -> (ip_Family r' = "ipv4" \/ ip_Family r' = "ipv6") -> routeText r = routeText r' ->
  ip_Family r = ip_Family r' /\ ip_Table r = ip_Table r'.
Proof.
  unfold routeText. intros F F' H.
  assert (HT : forall a b x y : string, forall t u : Z, (a = "ipv4" \/ a = "ipv6") -> (b = "ipv4" \/ b = "ipv6") ->
    a +:+ ":" +:+ pretty t +:+ ":" +:+ x = b +:+ ":" +:+ pretty u +:+ ":" +:+ y -> a = b /\ t = u).
  { intros a b x y t u [-> | ->] [-> | ->] E; try discriminate E; injection E as E; (split; [done|]);
      apply (decimal_prefix _ _ _ _ Net.colon) in E as [E _]; try apply pretty_decimal; try done; by apply (inj pretty) in E. }
  by eapply HT.
Qed.

(** *** The loop over the proofs *)

Definition fromProof (d : NetworkDiagnostics) (p : RouteProof) (r : IPRoute) : Prop := exists rs, routesFor d p = Ok rs /\ r ∈ rs.
Definition network (p : RouteProof) : bool := rp_Type p <>s "drop".

(** What the routes and the texts seen amount to after the proofs [done]. *)
Record planned (d : NetworkDiagnostics) (done : list RouteProof) (st : gset string * list IPRoute) : Prop := {
  pl_seen : forall t, t ∈ st.1 <-> exists r, r ∈ st.2 /\ routeText r = t;
  pl_from : forall r, r ∈ st.2 -> exists p, p ∈ done /\ network p = true /\ fromProof d p r;
  pl_apart : NoDup (map (fun r => (ip_Family r, ip_Table r)) st.2);
  pl_all : forall p r, p ∈ done -> network p = true -> fromProof d p r -> r ∈ st.2
}.
(** Routes of the proofs with one family and table are equal. *)
Definition determined (d : NetworkDiagnostics) (ps : list RouteProof) : Prop := forall p q r r', p ∈ ps -> q ∈ ps ->
  network p = true -> network q = true -> fromProof d p r -> fromProof d q r' -> ip_Family r = ip_Family r' -> ip_Table r = ip_Table r' -> r = r'.

Lemma fromProof_family d p r : fromProof d p r -> ip_Family r = "ipv4" \/ ip_Family r = "ipv6".
Proof. intros (rs & H & Hr). by destruct (routesFor_route _ _ _ _ H Hr) as (_ & _ & _ & ?). Qed.

(** What [addRoute] keeps, whatever proofs there are. *)
Lemma addRoute_spec d all st r :
  determined d all ->
  (forall t, t ∈ st.1 <-> exists r, r ∈ st.2 /\ routeText r = t) -> (forall r, r ∈ st.2 -> exists p, p ∈ all /\ network p = true /\ fromProof d p r) ->
  NoDup (map (fun r => (ip_Family r, ip_Table r)) st.2) -> (exists p, p ∈ all /\ network p = true /\ fromProof d p r) ->
  let st' := addRoute st r in
  (forall t, t ∈ st'.1 <-> exists r, r ∈ st'.2 /\ routeText r = t) /\ (forall x, x ∈ st'.2 <-> x ∈ st.2 \/ x = r) /\
  NoDup (map (fun r => (ip_Family r, ip_Table r)) st'.2).
Proof.
  intros HD H1 H2 H3 (p & Hp & Hn & Hr). destruct st as [seen routes]. cbn [fst snd] in *. unfold addRoute.
  destruct (bool_decide (routeText r ∈ seen)) eqn:E; cbv zeta; cbn [fst snd].
  - apply bool_decide_eq_true in E. apply H1 in E as (x & Hx & ET). destruct (H2 x Hx) as (q & Hq & Hnq & Hfq).
    apply routeText_inj in ET as [EF ET]; [|by eapply fromProof_family..].
    assert (x = r) as -> by by eapply (HD q p). split; [done|]. split; [|done]. intros y. split; [by left|by intros [?| ->]].
  - apply bool_decide_eq_false in E. split_and!.
    + intros t. rewrite elem_of_union, elem_of_singleton, H1. split.
      * intros [->|(x & Hx & Et)]; [exists r; split; [apply elem_of_app; right; left|done]|exists x; split; [apply elem_of_app; by left|done]].
      * intros (x & [Hx| ->%list_elem_of_singleton]%elem_of_app & Et); [right; by exists x|by left].
    + intros x. rewrite elem_of_app, list_elem_of_singleton. done.
    + rewrite map_app. apply NoDup_app. split; [done|]. split; [|apply NoDup_singleton].
      intros k (x & -> & Hx)%elem_of_map EK%list_elem_of_singleton. injection EK as EF ET. destruct (H2 x Hx) as (q & Hq & Hnq & Hfq).
      assert (x = r) as -> by by eapply (HD q p). apply E, H1. by exists r.
Qed.

Lemma addRoutes_spec d done p rest rs : forall st,
  determined d (done ++ p :: rest) -> network p = true -> (forall r, r ∈ rs -> fromProof d p r) ->
  (forall t, t ∈ st.1 <-> exists r, r ∈ st.2 /\ routeText r = t) ->
  (forall r, r ∈ st.2 -> exists q, q ∈ done ++ p :: rest /\ network q = true /\ fromProof d q r) ->
  NoDup (map (fun r => (ip_Family r, ip_Table r)) st.2) ->
  let st' := fold_left addRoute rs st in
  (forall t, t ∈ st'.1 <-> exists r, r ∈ st'.2 /\ routeText r = t) /\ (forall x, x ∈ st'.2 <-> x ∈ st.2 \/ x ∈ rs) /\
  NoDup (map (fun r => (ip_Family r, ip_Table r)) st'.2).
Proof.
  induction rs as [|r rs IH]; intros st HD Hn Hrs H1 H2 H3; cbn [fold_left]; cbv zeta.
  { split; [done|]. split; [|done]. intros x. split; [by left|intros [?|H]; [done|by apply elem_of_nil in H]]. }
  assert (Hr : exists q, q ∈ done ++ p :: rest /\ network q = true /\ fromProof d q r).
  { exists p. split; [apply elem_of_app; right; left|]. split; [done|]. apply Hrs. left. }
  destruct (addRoute_spec d _ st r HD H1 H2 H3 Hr) as (A1 & A2 & A3).
  destruct (IH (addRoute st r)) as (B1 & B2 & B3); [done|done|intros x Hx; apply Hrs; by right|done| |done|].
  { intros x [Hx| ->]%A2; [by apply H2|done]. }
  split; [done|]. split; [|done]. intros x. rewrite B2, A2, elem_of_cons. tauto.
Qed.

Lemma buildRoutes_spec d ps : forall done st routes,
  determined d (done ++ ps) -> planned d done st -> buildRoutes d st ps = Ok routes -> exists seen, planned d (done ++ ps) (seen, routes).
Proof.
  induction ps as [|p ps IH]; intros fin st routes HD HP H; cbn [buildRoutes] in H.
  { injection H as <-. rewrite app_nil_r. exists st.1. by destruct st. }
  replace (fin ++ p :: ps) with ((fin ++ [p]) ++ ps) in * by by rewrite <- app_assoc. destruct HP as [P1 P2 P3 P4].
  destruct (rp_Type p =s "drop") eqn:ED.
  - eapply IH in H; [done|done|]. constructor; [done| |done|].
    + intros r Hr. destruct (P2 r Hr) as (q & Hq & Hnq). exists q. rewrite elem_of_app. auto.
    + intros q r [Hq| ->%list_elem_of_singleton]%elem_of_app Hnq; [by apply P4|]. unfold network in Hnq. by rewrite ED in Hnq.
  - ok_steps H. rename x into rs. assert (Hnp : network p = true) by (unfold network; by rewrite ED).
    assert (HF : forall r, r ∈ rs -> fromProof d p r) by (intros r Hr; by exists rs).
    pose proof HD as HD0. rewrite <- app_assoc in HD0.
    destruct (addRoutes_spec d fin p ps rs st HD0 Hnp HF) as (A1 & A2 & A3); [done| |done|].
    { intros r Hr. destruct (P2 r Hr) as (q & Hq & Hnq). exists q. rewrite elem_of_app. auto. }
    eapply IH in H; [done|done|]. constructor; [done| |done|].
    + intros r [Hr|Hr]%A2; [destruct (P2 r Hr) as (q & Hq & Hnq); exists q; rewrite elem_of_app; auto|].
      exists p. rewrite elem_of_app, list_elem_of_singleton. auto.
    + intros q r [Hq| ->%list_elem_of_singleton]%elem_of_app Hnq Hqr; apply A2; [left; by eapply P4|].
      destruct Hqr as (rs' & Hrs' & Hr). rewrite G in Hrs'. injection Hrs' as <-. by right.
Qed.

Lemma buildRoutes_each d ps : forall st routes, buildRoutes d st ps = Ok routes -> forall p, p ∈ ps -> network p = true -> exists rs, routesFor d p = Ok rs.
Proof.
  induction ps as [|q ps IH]; intros st routes H p Hp Hn; [by apply elem_of_nil in Hp|]. cbn [buildRoutes] in H. unfold network in *.
  destruct (rp_Type q =s "drop") eqn:ED.
  - apply elem_of_cons in Hp as [->|Hp]; [by rewrite ED in Hn|by eapply IH].
  - ok_steps H. apply elem_of_cons in Hp as [->|Hp]; [eauto|by eapply IH].
Qed.

Lemma Forall2_elem_r {A B} (R : A -> B -> Prop) l l' y : Forall2 R l l' -> y ∈ l' -> exists x, x ∈ l /\ R x y.
Proof.
  induction 1 as [|a b l l' H HF IH]; [by nothing_in|]. intros [->|Hy]%elem_of_cons; [exists a; split; [left|done]|].
  destruct (IH Hy) as (x & Hx & HR). exists x. split; [by right|done].
Qed.
Lemma Forall2_elem_l {A B} (R : A -> B -> Prop) l l' x : Forall2 R l l' -> x ∈ l -> exists y, y ∈ l' /\ R x y.
Proof. intros HF Hx. apply (Forall2_elem_r (flip R) l' l x); [by apply Forall2_flip|done]. Qed.

Lemma separated_determined c d ps : separated c -> Forall2 (describes c) (enabledRoutes c) ps -> determined d ps.
Proof.
  intros HS HF p q r r' Hp Hq Hnp Hnq (rs & Hrs & Hr) (rs' & Hrs' & Hr') EF ET.
  apply (routesFor_same d p q rs rs'); [done..| |done|done].
  destruct (Forall2_elem_r _ _ _ _ HF Hp) as (x & Hx & Dx), (Forall2_elem_r _ _ _ _ HF Hq) as (y & Hy & Dy).
  destruct (routesFor_route _ _ _ _ Hrs Hr) as (E1 & _), (routesFor_route _ _ _ _ Hrs' Hr') as (E2 & _).
  destruct (routesFor_cases _ _ _ Hrs) as (_ & C1), (routesFor_cases _ _ _ Hrs') as (_ & C2).
  rewrite (ds_type _ _ _ Dx), (ds_type _ _ _ Dy) in *. pose proof (ds_table _ _ _ Dx). pose proof (ds_table _ _ _ Dy).
  destruct C1 as [[W1 _]|[W1 X1]], C2 as [[W2 _]|[W2 X2]]; rewrite W1, W2; try done; exfalso.
  - apply (HS y x Hy Hx X2 W1). congruence.
  - apply (HS x y Hx Hy X1 W2). congruence.
Qed.

(** ** The checks on tables and rules *)

Definition routeKey (r : IPRoute) : string := familyTable (ip_Family r) (ip_Table r).

Lemma validateIPRoutes_Ok routes : forall families,
  (forall r, r ∈ routes -> 1 <= ip_Table r /\ (ip_Type r <>s "unreachable") && negb (interfaceNamePattern (ip_Device r)) = false /\ validRoute r = true) ->
  NoDup (map routeKey routes) -> (forall r, r ∈ routes -> routeKey r ∉ families) ->
  exists out, validateIPRoutes families routes = Ok out /\ forall k, k ∈ out <-> k ∈ families \/ exists r, r ∈ routes /\ routeKey r = k.
Proof.
  induction routes as [|r routes IH]; intros families HV HN Hout.
  { exists families. split; [done|]. intros k. split; [by left|intros [?|(r & Hr & _)]; [done|by apply elem_of_nil in Hr]]. }
  inversion HN as [|? ? Hn HN']; subst. destruct (HV r) as (T & D & V); [left|]. cbn [validateIPRoutes].
  assert (ET : (ip_Table r <? 1) = false) by lia. assert (HK : bool_decide (routeKey r ∈ families) = false) by (apply bool_decide_eq_false; apply Hout; left).
  cbv zeta. fold (routeKey r). rewrite ET, D, HK, V. cbn.
  destruct (IH ({[routeKey r]} ∪ families)) as (out & E & HO); [intros x Hx; apply HV; by right|done| |].
  { intros x Hx. rewrite elem_of_union, elem_of_singleton. intros [E|Hin]; [|by apply (Hout x); [right|]].
    apply Hn. apply elem_of_map. by exists x. }
  exists out. split; [done|]. intros k. rewrite HO, elem_of_union, elem_of_singleton. split.
  - intros [[->|?]|(x & Hx & <-)]; [right; exists r; split; [left|done]|by left|right; exists x; split; [by right|done]].
  - intros [?|(x & [->|Hx]%elem_of_cons & <-)]; [left; by right|left; by left|right; by exists x].
Qed.

Lemma markNumber_parse m v : parseFirewallMark m = Ok v -> validMark m = true.
Proof.
  unfold parseFirewallMark, firewallMarkPattern, validMark, markNumber. destruct (negb _) eqn:E; [done|]. apply negb_false_iff in E.
  repeat (apply andb_true_iff in E as [E ?]). cbv zeta. destruct (hexValue _ =? 0) eqn:EV; [done|]. intros _.
  rewrite E. assert (E1 : (S.len m <? 3) = false) by lia. assert (E2 : (10 <? S.len m) = false) by lia. rewrite E1, E2. cbn [negb orb].
  by match goal with H : S.all_bytes hexdigit _ = true |- _ => rewrite H end.
Qed.

(** A check that does not refuse. *)
Lemma pass {A} b m (k : unit -> result A) : b = false -> (reject b m ≫= k) = k ().
Proof. by intros ->. Qed.

(** What [validateIPRules] asks of a proof, given the tables. *)
Definition proofOK (families : gset string) (p : RouteProof) : Prop :=
  rp_Tag p <> "" /\ rp_Type p <> "" /\ 1 <= rp_RulePriority p /\
  (network p = true -> 1 <= rp_Table p /\ validMark (rp_Mark p) = true /\
     (rp_RequiresIPv4 p = true -> familyTable "ipv4" (rp_Table p) ∈ families) /\
     (rp_RequiresIPv6 p = true -> familyTable "ipv6" (rp_Table p) ∈ families)).

Lemma validateIPRules_Ok families ps : forall (priorities : gmap Z (string * Z)) tags,
  (forall p, p ∈ ps -> proofOK families p) -> NoDup (map rp_Tag ps) -> (forall p, p ∈ ps -> rp_Tag p ∉ tags) ->
  (forall p q, p ∈ ps -> q ∈ ps -> rp_RulePriority p = rp_RulePriority q -> keyOf p = keyOf q) ->
  (forall p k, p ∈ ps -> priorities !! rp_RulePriority p = Some k -> k = keyOf p) ->
  validateIPRules families priorities tags ps = Ok ().
Proof.
  induction ps as [|p ps IH]; intros priorities tags HO HN HT HA HP; [done|]. inversion HN as [|? ? Hn HN']; subst.
  destruct (HO p) as (H1 & H2 & H3 & H4); [left|]. cbn [validateIPRules]. cbv zeta. fold (keyOf p).
  assert (E1 : S.is_empty (rp_Tag p) = false) by (by apply String.eqb_neq). assert (E2 : S.is_empty (rp_Type p) = false) by (by apply String.eqb_neq).
  assert (E3 : (rp_RulePriority p <? 1) = false) by lia.
  assert (E4 : bool_decide (rp_Tag p ∈ tags) = false) by (apply bool_decide_eq_false; apply HT; left). rewrite pass by by rewrite E1, E2, E3, E4.
  assert (E5 : match priorities !! rp_RulePriority p with Some previous => negb (bool_decide (previous = keyOf p)) | None => false end = false).
  { destruct (priorities !! rp_RulePriority p) as [k|] eqn:E; [|done]. apply HP in E; [|left]. by rewrite bool_decide_eq_true_2. }
  fold (network p).
  assert (E6 : network p && ((rp_Table p <? 1) || negb (validMark (rp_Mark p))) = false).
  { destruct (network p); [|done]. destruct H4 as (? & -> & _); [done|]. cbn [andb orb]. lia. }
  assert (E7 : network p && rp_RequiresIPv4 p && negb (bool_decide (familyTable "ipv4" (rp_Table p) ∈ families)) = false).
  { destruct (network p); [|done]. destruct H4 as (_ & _ & H4 & _); [done|]. destruct (rp_RequiresIPv4 p); [|done]. by rewrite bool_decide_eq_true_2 by auto. }
  assert (E8 : network p && rp_RequiresIPv6 p && negb (bool_decide (familyTable "ipv6" (rp_Table p) ∈ families)) = false).
  { destruct (network p); [|done]. destruct H4 as (_ & _ & _ & H4); [done|]. destruct (rp_RequiresIPv6 p); [|done]. by rewrite bool_decide_eq_true_2 by auto. }
  rewrite (pass _ _ _ E5), (pass _ _ _ E6), (pass _ _ _ E7), (pass _ _ _ E8).
  apply IH; [intros q Hq; apply HO; by right|done| | |].
  - intros q Hq. rewrite elem_of_union, elem_of_singleton. intros [E|Hin]; [|by apply (HT q); [right|]]. apply Hn, elem_of_map. by exists q.
  - intros q q' Hq Hq'. apply HA; by right.
  - intros q k Hq [[E <-]|[_ Hk]]%lookup_insert_Some; [symmetry; apply HA; [by right|left|done]|]. apply HP; [by right|done].
Qed.

(** ** Policy rules *)

(** The arguments of a call of [add]: mark, table, priority and purpose. *)
Definition call : Type := string * Z * Z * string.
Definition callKey (x : call) : string * Z := x.1.1.
Definition callPriority (x : call) : Z := x.1.2.
Definition usable (x : call) : bool := negb (S.is_empty x.1.1.1) && (0 <? x.1.1.2) && (0 <? x.1.2).
Definition perform (c : Config) (st : gset (string * Z) * list IPRule) (x : call) : gset (string * Z) * list IPRule :=
  addRule c st x.1.1.1 x.1.1.2 x.1.2 x.2.
Definition callOf (p : RouteProof) : call := (rp_Mark p, rp_Table p, rp_RulePriority p, "route:" +:+ rp_Tag p).
Definition transparentCall (c : Config) : call := (XrayTProxyMark (c_OpenWrt c), XrayRouteTable (c_OpenWrt c), 10000, "xray_tproxy").
Definition transparentRules (c : Config) (ps : list RouteProof) : bool :=
  any (fun p => throughXray (rp_Type p)) ps && negb (S.is_empty (XrayTProxyMark (c_OpenWrt c))).
Definition callsOf (c : Config) (ps : list RouteProof) : list call :=
  (if transparentRules c ps then [transparentCall c] else []) ++ map callOf (List.filter network ps).

Lemma proofRules_calls c ps : forall st, proofRules c ps st = fold_left (perform c) (map callOf (List.filter network ps)) st.
Proof.
  unfold proofRules. induction ps as [|p ps IH]; intros st; [done|]. cbn [fold_left List.filter]. rewrite IH. unfold network at 2.
  by destruct (rp_Type p =s "drop").
Qed.
Lemma buildIPRules_calls c ps : buildIPRules c ps = gosort ruleLess (fold_left (perform c) (callsOf c ps) (∅, [])).2.
Proof.
  unfold buildIPRules, callsOf. cbv zeta. fold (transparentRules c ps). rewrite proofRules_calls, fold_left_app. by destruct (transparentRules c ps).
Qed.

(** The rule a call makes for a family. *)
Definition ruleOf (x : call) (family : string) : IPRule := mkIPRule family x.1.2 x.1.1.1 "0xffffffff" x.1.1.2 x.2.
Definition familiesOf (c : Config) : list string := "ipv4" :: if pl_IPv6Enabled (c_Platform c) then ["ipv6"] else [].
Definition ruleMark (r : IPRule) : string * Z := (ir_Mark r, ir_Table r).

Record ruled (c : Config) (calls : list call) (st : gset (string * Z) * list IPRule) : Prop := {
  ru_from : forall r, r ∈ st.2 -> exists x f, x ∈ calls /\ usable x = true /\ f ∈ familiesOf c /\ r = ruleOf x f;
  ru_seen : forall k, k ∈ st.1 -> forall f, f ∈ familiesOf c -> exists r, r ∈ st.2 /\ ruleMark r = k /\ ir_Family r = f;
  ru_known : forall r, r ∈ st.2 -> ruleMark r ∈ st.1;
  ru_apart : NoDup (map (fun r => (ir_Family r, ruleMark r)) st.2);
  ru_done : forall x, x ∈ calls -> usable x = true -> callKey x ∈ st.1
}.

Lemma familiesOf_NoDup c : NoDup (familiesOf c).
Proof. unfold familiesOf. destruct (pl_IPv6Enabled _); [|apply NoDup_singleton]. apply NoDup_cons. split; [by intros ?%list_elem_of_singleton|apply NoDup_singleton]. Qed.

Lemma perform_ruled c calls st x : ruled c calls st -> ruled c (calls ++ [x]) (perform c st x).
Proof.
  intros [H1 H2 H3 H4 H5]. destruct st as [seen rules], x as [[[mark table] priority] purpose].
  unfold perform, addRule. cbn [fst snd] in *. set (x := (mark, table, priority, purpose)).
  assert (HF : forall r, r ∈ rules -> exists y f, y ∈ calls ++ [x] /\ usable y = true /\ f ∈ familiesOf c /\ r = ruleOf y f).
  { intros r Hr. destruct (H1 r Hr) as (y & f & Hy & Hu). exists y, f. rewrite elem_of_app. auto. }
  destruct (S.is_empty mark || (table <=? 0) || (priority <=? 0) || bool_decide ((mark, table) ∈ seen)) eqn:E; cbn [fst snd].
  - constructor; cbn [fst snd]; [exact HF|exact H2|exact H3|exact H4|]. intros y [Hy| ->%list_elem_of_singleton]%elem_of_app Hu; [by apply H5|]. unfold usable in Hu. cbn in Hu.
    apply andb_true_iff in Hu as [[Hu1 Hu2]%andb_true_iff Hu3]. apply negb_true_iff in Hu1. change (S.is_empty mark = false) in Hu1. rewrite Hu1 in E. cbn [orb] in E.
    assert (E2 : (table <=? 0) = false) by lia. assert (E3 : (priority <=? 0) = false) by lia. rewrite E2, E3 in E. cbn [orb] in E.
    by apply bool_decide_eq_true in E.
  - apply orb_false_iff in E as [[[E1 E2]%orb_false_iff E3]%orb_false_iff E4]. apply bool_decide_eq_false in E4.
    assert (Hu : usable x = true) by (unfold usable; cbn [fst snd x]; rewrite E1; cbn [negb andb]; lia).
    assert (HM : forall r, r ∈ map (fun family => ruleOf x family) (familiesOf c) <-> exists f, r = ruleOf x f /\ f ∈ familiesOf c) by (intros r; apply elem_of_map).
    change (map (fun family => mkIPRule family priority mark "0xffffffff" table purpose) ("ipv4" :: (if pl_IPv6Enabled (c_Platform c) then ["ipv6"] else [])))
      with (map (fun family => ruleOf x family) (familiesOf c)).
    constructor; cbn [fst snd].
    + intros r [Hr|Hr]%elem_of_app; [by apply HF|]. apply HM in Hr as (f & -> & Hf). exists x, f. rewrite elem_of_app, list_elem_of_singleton. auto.
    + intros k [->%elem_of_singleton|Hk]%elem_of_union f Hf.
      * exists (ruleOf x f). split; [|done]. apply elem_of_app. right. apply HM. eauto.
      * destruct (H2 k Hk f Hf) as (r & Hr & Hk'). exists r. rewrite elem_of_app. auto.
    + intros r [Hr|Hr]%elem_of_app; [apply elem_of_union; right; by apply H3|]. apply HM in Hr as (f & -> & _). set_solver.
    + rewrite map_app. apply NoDup_app. split; [done|]. split.
      * intros k (r & -> & Hr)%elem_of_map Hk. apply elem_of_map in Hk as (r' & E & Hr'). apply HM in Hr' as (f & -> & _).
        injection E as _ E5 E6. apply E4. replace (mark, table) with (ruleMark r) by (unfold ruleMark; by rewrite E5, E6). by apply H3.
      * rewrite map_map. exact (NoDup_fmap_2 (fun f : string => (f, (mark, table))) _ (familiesOf_NoDup c)).
    + intros y [Hy| ->%list_elem_of_singleton]%elem_of_app Hy'; [|set_solver]. apply elem_of_union. right. by apply H5.
Qed.
Lemma calls_ruled c calls : forall fin st, ruled c fin st -> ruled c (fin ++ calls) (fold_left (perform c) calls st).
Proof.
  induction calls as [|x calls IH]; intros fin st H; [by rewrite app_nil_r|]. cbn [fold_left].
  replace (fin ++ x :: calls) with ((fin ++ [x]) ++ calls) by by rewrite <- app_assoc. by apply IH, perform_ruled.
Qed.
Lemma buildIPRules_ruled c ps : exists seen rules, ruled c (callsOf c ps) (seen, rules) /\ buildIPRules c ps ≡ₚ rules.
Proof.
  assert (H0 : ruled c [] (∅, [])) by (constructor; cbn; first [by nothing_in|set_solver|constructor]).
  apply (calls_ruled c (callsOf c ps)) in H0. cbn [app] in H0. destruct (fold_left (perform c) (callsOf c ps) (∅, [])) as [seen rules] eqn:E.
  exists seen, rules. split; [done|]. rewrite buildIPRules_calls, E. apply gosort_perm.
Qed.

(** What [validateExplicitIPRules] asks of a rule. *)
Definition ruleOK (families : gset string) (r : IPRule) : Prop :=
  (ir_Family r = "ipv4" \/ ir_Family r = "ipv6") /\ 1 <= ir_Priority r /\ 1 <= ir_Table r /\ ir_Purpose r <> "" /\ validMark (ir_Mark r) = true /\
  ir_Mask r = "0xffffffff" /\ familyTable (ir_Family r) (ir_Table r) ∈ families.
Lemma validateEachRule_Ok families rules : forall seen, (forall r, r ∈ rules -> ruleOK families r) ->
  NoDup (map (fun r => (ir_Family r, ir_Priority r)) rules) -> (forall r, r ∈ rules -> familyTable (ir_Family r) (ir_Priority r) ∉ seen) ->
  validateEachRule families seen rules = Ok ().
Proof.
  induction rules as [|r rules IH]; intros seen HO HN HS; [done|]. inversion HN as [|? ? Hn HN']; subst.
  destruct (HO r) as (H1 & H2 & H3 & H4 & H5 & H6 & H7); [left|]. cbn [validateEachRule]. cbv zeta.
  rewrite pass by by destruct H1 as [-> | ->]. rewrite pass.
  2:{ rewrite H5, (bool_decide_eq_false_2 (_ ∈ seen)) by (apply HS; left). apply String.eqb_neq in H4. unfold S.is_empty. rewrite H4. cbn. lia. }
  rewrite pass by by rewrite H6. rewrite pass by by rewrite bool_decide_eq_true_2.
  apply IH; [intros x Hx; apply HO; by right|done|]. intros x Hx. rewrite elem_of_union, elem_of_singleton.
  intros [E|Hin]; [|by apply (HS x); [right|]]. apply familyTable_inj in E as [E1 E2]; [|apply HO; by right|done].
  apply Hn, elem_of_map. exists x. by rewrite E1, E2.
Qed.

(** ** DNS proxies *)

(** A resolver that was read is written as a text that reads the same. *)
Lemma parsePublicDNSResolver_again value up port :
  parsePublicDNSResolver value = Ok (up, port) -> parsePublicDNSResolver (JoinHostPort up (pretty port)) = Ok (up, port).
Proof.
  unfold parsePublicDNSResolver. destruct (Net.SplitHostPort value) as [[host portText]|]; [|done].
  destruct (Atoi portText) as [n|]; [|done]. destruct (IP.ParseIP host) as [ip|] eqn:EI; [|done].
  destruct (_ || _ || _ || _ || _ || _) eqn:EB; [done|]. intros [= <- <-]. apply IPText.ParseIP_valid in EI.
  assert (En : n = 53) by (repeat apply orb_false_iff in EB as [EB _]; apply negb_false_iff in EB; lia). subst n.
  rewrite IPText.Text_split by (done || by apply pretty_digits). rewrite Atoi_pretty by (unfold int64_max; lia).
  rewrite IPText.ParseIP_Text by done. by rewrite EB.
Qed.

Section Proxies.
Context (sha256 : string -> string) (upstream : string * Z) (value : string) (HU : parsePublicDNSResolver value = Ok upstream).
Definition inboundOf (tag : string) : string := "router-policy-dns-" +:+ routeID sha256 tag.
Definition listenerOf (port : Z) : string := JoinHostPort "127.0.0.1" (pretty port).
Lemma listener_inj p q : listenerOf p = listenerOf q -> p = q.
Proof. unfold listenerOf, JoinHostPort. cbn. intros H. repeat (injection H as H). by apply (inj pretty) in H. Qed.

Lemma dnsProxies_pass used base l : forall ports index plans vless tags inbounds listeners,
  dnsProxies sha256 used ports base upstream index l = Ok plans -> 1024 <= base + index -> NoDup (map r_Tag l) ->
  (forall r, r ∈ l -> r_Tag r <> "" /\ r_Tag r ∈ vless /\ r_Tag r ∉ tags /\ inboundOf (r_Tag r) ∉ inbounds) ->
  (forall r r', r ∈ l -> r' ∈ l -> inboundOf (r_Tag r) = inboundOf (r_Tag r') -> r_Tag r = r_Tag r') ->
  (forall port, base + index <= port -> listenerOf port ∉ listeners) ->
  validateProxies sha256 vless tags inbounds listeners plans = Ok ().
Proof.
  induction l as [|r l IH]; intros ports index plans vless tags inbounds listeners H HB HN HR HI HL; cbn [dnsProxies] in H; [by injection H as <-|].
  inversion HN as [|? ? Hn HN']; subst. assert (HI' : forall x y, x ∈ l -> y ∈ l -> inboundOf (r_Tag x) = inboundOf (r_Tag y) -> r_Tag x = r_Tag y)
    by (intros x y Hx Hy; apply HI; by right).
  destruct (negb (bool_decide (r_Tag r ∈ used))).
  - eapply IH; [exact H|lia|done| |done|]; [intros x Hx; apply HR; by right|intros port Hp; apply HL; lia].
  - cbv zeta in H. ok_steps H. injection H as <-. apply orb_false_iff in G as [G _]. destruct (HR r) as (H1 & H2 & H3 & H4); [left|].
    cbn [validateProxies dn_RouteTag dn_XrayOutboundTag dn_InboundTag dn_Listen dn_Port dn_Upstream dn_UpstreamPort]. fold (inboundOf (r_Tag r)).
    rewrite pass. 2:{ unfold S.is_empty. apply String.eqb_neq in H1. rewrite H1, bool_decide_eq_true_2 by done. by rewrite String.eqb_refl. }
    rewrite pass. 2:{ by rewrite String.eqb_refl, !bool_decide_eq_false_2 by done. }
    rewrite pass. 2:{ cbn. lia. }
    cbv zeta. fold (listenerOf (base + index)). rewrite pass. 2:{ apply bool_decide_eq_false, HL. lia. }
    destruct upstream as [up upPort]. cbn [fst snd]. rewrite (parsePublicDNSResolver_again _ _ _ HU). cbn [mbind result_bind].
    eapply IH; [exact G0|lia|done| |done|].
    + intros y Hy. destruct (HR y) as (X1 & X2 & X3 & X4); [by right|]. split_and!; [done..| |].
      * intros [E%elem_of_singleton|?]%elem_of_union; [|done]. apply Hn, elem_of_map. by exists y.
      * intros [E%elem_of_singleton|?]%elem_of_union; [|done]. apply HI in E; [|by right|left]. apply Hn, elem_of_map. by exists y.
    + intros port Hp [E%elem_of_singleton|E]%elem_of_union; [apply listener_inj in E; lia|]. revert E. apply HL. lia.
Qed.
End Proxies.

(** ** The plan of a well-formed configuration *)

Section Loads.
Context (toASCII : string -> option string) (parseRequestURI : string -> option URL) (order : list (string * Service)).
Context (c : Config) (HW : wf toASCII parseRequestURI order c) (HS : separated c).
Notation routes := (enabledRoutes c).
Notation proofs := (buildProofPlan c (enabledRoutes c)).

Lemma elem_of_enabled r : r ∈ routes <-> r ∈ c_Routes c /\ Enabled r = true.
Proof. unfold enabledRoutes. by rewrite gosort_perm, elem_of_filter_b. Qed.
Lemma enabled_tags : NoDup (map r_Tag routes).
Proof.
  unfold enabledRoutes. rewrite (Permutation_map _ (gosort_perm _ _)). pose proof (wf_tags _ _ _ _ HW) as H.
  induction (c_Routes c) as [|r l IH]; [done|]. inversion H as [|? ? Hn H']; subst. cbn [List.filter]. destruct (Enabled r); [|by apply IH].
  constructor; [|by apply IH]. intros (x & E & [Hx _]%elem_of_filter_b)%elem_of_map. apply Hn, elem_of_map. by exists x.
Qed.
Lemma proofs_describe : Forall2 (describes c) routes proofs.
Proof. apply buildProofPlan_spec. Qed.
Lemma proof_tags : NoDup (map rp_Tag proofs).
Proof.
  assert (E : map rp_Tag proofs = map r_Tag routes).
  { induction proofs_describe as [|r p l l' D _ IH]; [done|]. cbn [map]. by rewrite (ds_tag _ _ _ D), IH. }
  rewrite E. apply enabled_tags.
Qed.
Lemma proof_route p : p ∈ proofs -> exists r, r ∈ c_Routes c /\ Enabled r = true /\ describes c r p.
Proof.
  intros Hp. destruct (Forall2_elem_r _ _ _ _ proofs_describe Hp) as (r & [Hr HE]%elem_of_enabled & D). by exists r.
Qed.

(** The routes the plan knows have the marks and tables that were validated. *)
Lemma known_mark r p : r ∈ c_Routes c -> Enabled r = true -> describes c r p -> throughWAN (r_Type r) || throughXray (r_Type r) = true ->
  validMark (rp_Mark p) = true /\ 1 <= rp_Table p.
Proof.
  intros Hr HE D HK. destruct (mk_mark _ _ (wf_marks _ _ _ _ HW) r Hr HE) as (v & Hv & _).
  assert (Hnd : r_Type r <> "drop") by (intros E; by rewrite E in HK).
  pose proof (mk_table _ _ (wf_marks _ _ _ _ HW) r Hr HE Hnd) as HT.
  assert (E : markForType c (r_Type r) = markForRouteType c (r_Type r) /\ tableForType c (r_Type r) = tableForRouteType c (r_Type r)).
  { unfold throughWAN, throughXray in HK. apply orb_true_iff in HK. rewrite !containsString_true in HK.
    destruct HK as [HK|HK]; repeat (apply elem_of_cons in HK as [->|HK]; [done|]); by apply elem_of_nil in HK. }
  destruct E as [EM ET]. rewrite (ds_table _ _ _ D), ET. split; [|done]. apply (markNumber_parse _ v).
  rewrite (ds_mark _ _ _ D), EM. exact Hv.
Qed.
Lemma markOf_valid name mark : (exists r, r ∈ c_Routes c /\ Enabled r = true /\ transparentType (r_Type r) = true) ->
  (name, mark) ∈ openwrtMarks (c_OpenWrt c) -> validMark mark = true.
Proof.
  intros HT Hin. destruct (tr_marks _ (wf_transparent _ _ _ _ HW HT)) as (values & HF & _).
  destruct (Forall2_elem_l _ _ _ _ HF Hin) as (v & _ & Hv). by eapply markNumber_parse.
Qed.
Lemma xray_transparent p : p ∈ proofs -> throughXray (rp_Type p) = true ->
  exists r, r ∈ c_Routes c /\ Enabled r = true /\ transparentType (r_Type r) = true /\ describes c r p.
Proof.
  intros Hp HX. destruct (proof_route p Hp) as (r & Hr & HE & D). exists r. split_and!; try done. rewrite (ds_type _ _ _ D) in HX.
  unfold throughXray in HX. rewrite containsString_true in HX. unfold transparentType. apply containsString_true.
  repeat (apply elem_of_cons in HX as [->|HX]; [set_solver|]). by apply elem_of_nil in HX.
Qed.

(** What the successful loop gives the checks. *)
Section Tables.
Context (d : NetworkDiagnostics) (tables : list IPRoute) (HB : buildRoutes d (∅, []) proofs = Ok tables).

Lemma tables_planned : exists seen, planned d proofs (seen, tables).
Proof.
  apply (buildRoutes_spec d proofs [] (∅, [])); [by apply (separated_determined c); [|apply proofs_describe]| |done].
  constructor; cbn; [|by nothing_in|constructor|by nothing_in]. intros t. split; [set_solver|]. intros (r & Hr & _). by apply elem_of_nil in Hr.
Qed.
Lemma tables_valid : exists families, validateIPRoutes ∅ tables = Ok families /\ forall r, r ∈ tables -> routeKey r ∈ families.
Proof.
  destruct tables_planned as (seen & [P1 P2 P3 P4]). cbn [fst snd] in *.
  destruct (validateIPRoutes_Ok tables ∅) as (families & E & HK).
  - intros r Hr. destruct (P2 r Hr) as (p & _ & _ & rs & Hrs & Hin). destruct (routesFor_route _ _ _ _ Hrs Hin) as (ET & HV & HD & _).
    destruct (routesFor_cases _ _ _ Hrs) as [HT _]. split_and!; [lia|done|done].
  - assert (HI : forall r r', r ∈ tables -> r' ∈ tables -> routeKey r = routeKey r' -> (ip_Family r, ip_Table r) = (ip_Family r', ip_Table r')).
    { intros r r' Hr Hr' EK. destruct (P2 r Hr) as (p & _ & _ & Hp%fromProof_family), (P2 r' Hr') as (q & _ & _ & Hq%fromProof_family).
      unfold routeKey in EK. apply familyTable_inj in EK as [-> ->]; done. }
    clear -P3 HI. induction tables as [|r l IH]; [constructor|]. inversion P3 as [|? ? Hn P3']; subst. cbn [map]. constructor.
    + intros (x & EK & Hx)%elem_of_map. apply Hn, elem_of_map. exists x. split; [apply HI; [left|by right|done]|done].
    + apply IH; [done|]. intros x y Hx Hy. apply HI; by right.
  - set_solver.
  - exists families. split; [done|]. intros r Hr. apply HK. right. by exists r.
Qed.

Lemma tables_complete (families : gset string) p : (forall r, r ∈ tables -> routeKey r ∈ families) -> p ∈ proofs -> network p = true ->
  (rp_RequiresIPv4 p = true -> familyTable "ipv4" (rp_Table p) ∈ families) /\ (rp_RequiresIPv6 p = true -> familyTable "ipv6" (rp_Table p) ∈ families).
Proof.
  intros HF Hp Hn. destruct tables_planned as (seen & [P1 P2 P3 P4]). cbn [fst snd] in *.
  destruct (buildRoutes_each _ _ _ _ HB p Hp Hn) as (rs & Hrs). destruct (routesFor_complete _ _ _ Hrs) as [H4 H6].
  split; intros HR; [destruct (H4 HR) as (r & Hr & <-)|destruct (H6 HR) as (r & Hr & <-)];
    (destruct (routesFor_route _ _ _ _ Hrs Hr) as (<- & _); apply HF, (P4 p); [done|done|by exists rs]).
Qed.
Lemma network_known p : p ∈ proofs -> network p = true -> throughWAN (rp_Type p) || throughXray (rp_Type p) = true.
Proof.
  intros Hp Hn. destruct (buildRoutes_each _ _ _ _ HB p Hp Hn) as (rs & Hrs).
  destruct (routesFor_cases _ _ _ Hrs) as (_ & [[-> _]|[-> ->]]); done.
Qed.

Lemma families_of_call x f : x ∈ callsOf c proofs -> usable x = true -> f ∈ familiesOf c ->
  forall families : gset string, (forall r, r ∈ tables -> routeKey r ∈ families) ->
  familyTable f (callKey x).2 ∈ families /\ validMark (callKey x).1 = true.
Proof.
  intros Hx Hu Hf families HF.
  assert (HP : forall p, p ∈ proofs -> network p = true -> familyTable f (rp_Table p) ∈ families).
  { intros p Hp Hn. destruct (tables_complete families p HF Hp Hn) as [H4 H6]. destruct (proof_route p Hp) as (r & _ & _ & D).
    assert (Hnd : (r_Type r <>s "drop") = true) by (rewrite <- (ds_type _ _ _ D); exact Hn).
    pose proof (ds_v4 _ _ _ D) as V4. pose proof (ds_v6 _ _ _ D) as V6. rewrite Hnd in V4, V6. unfold familiesOf in Hf.
    destruct (pl_IPv6Enabled (c_Platform c)); apply elem_of_cons in Hf as [->|Hf]; [by apply H4| |by apply H4|by apply elem_of_nil in Hf].
    apply list_elem_of_singleton in Hf as ->. by apply H6. }
  apply elem_of_app in Hx as [Hx|Hx].
  - destruct (transparentRules c proofs) eqn:ET; [|by apply elem_of_nil in Hx]. apply list_elem_of_singleton in Hx as ->. cbn.
    apply andb_true_iff in ET as [(p & Hp & HX)%any_true _]. destruct (xray_transparent p Hp HX) as (r & Hr & HE & Ht & D).
    assert (Hn : network p = true) by (unfold network; clear -HX; destruct (rp_Type p =s "drop") eqn:E; [|done]; apply String.eqb_eq in E; by rewrite E in HX).
    split; [|eapply (markOf_valid "openwrt.xray_tproxy_mark"); [by exists r|unfold openwrtMarks; set_solver]].
    replace (XrayRouteTable (c_OpenWrt c)) with (rp_Table p); [by apply HP|]. rewrite (ds_table _ _ _ D). rewrite (ds_type _ _ _ D) in HX.
    unfold throughXray in HX. apply containsString_true in HX. repeat (apply elem_of_cons in HX as [->|HX]; [done|]). by apply elem_of_nil in HX.
  - apply elem_of_map in Hx as (p & -> & [Hp Hn]%elem_of_filter_b). cbn. split; [by apply HP|].
    destruct (proof_route p Hp) as (r & Hr & HE & D). eapply known_mark; [done..|]. rewrite <- (ds_type _ _ _ D). by apply network_known.
Qed.

(** Two calls with one priority have one mark and table. *)
Lemma calls_apart x y : x ∈ callsOf c proofs -> y ∈ callsOf c proofs -> callPriority x = callPriority y -> callKey x = callKey y.
Proof.
  destruct (buildProofPlan_spec c routes) as [_ [Z1 _ Z3 _]].
  assert (Hlo : forall p, p ∈ proofs -> 10010 <= rp_RulePriority p) by (intros p Hp; destruct (Z1 p Hp) as [[_ Hm]|]; [by apply lookup_empty_Some in Hm|lia]).
  assert (HT : forall x, x ∈ callsOf c proofs -> x = transparentCall c \/ exists p, p ∈ proofs /\ x = callOf p).
  { intros z [Hz|Hz]%elem_of_app.
    - destruct (transparentRules c proofs); [|by apply elem_of_nil in Hz]. apply list_elem_of_singleton in Hz as ->. by left.
    - apply elem_of_map in Hz as (p & -> & [Hp _]%elem_of_filter_b). right. by exists p. }
  intros [->|(p & Hp & ->)]%HT [->|(q & Hq & ->)]%HT E; cbn in *; [done| | |by apply Z3].
  - apply Hlo in Hq. lia.
  - apply Hlo in Hp. lia.
Qed.

Lemma plan_tables_pass (required : bool) : (required = true -> any network proofs = true) ->
  exists families, validateIPRoutes ∅ tables = Ok families /\ validateIPRules families ∅ ∅ proofs = Ok () /\
    validateExplicitIPRules families required (buildIPRules c proofs) = Ok ().
Proof.
  intros HR. destruct tables_valid as (families & EV & HF). exists families. split; [done|]. destruct (buildProofPlan_spec c routes) as [_ HZ]. split.
  - apply validateIPRules_Ok; [|apply proof_tags|set_solver|apply HZ|by intros p k _ ?%lookup_empty_Some].
    intros p Hp. destruct (proof_route p Hp) as (r & Hr & HE & D). pose proof (wf_routes _ _ _ _ HW) as HO. rewrite Forall_forall in HO.
    specialize (HO r Hr). split; [|split; [|split]].
    + rewrite (ds_tag _ _ _ D). intros E. pose proof (routeTag_nonempty _ (ro_tag _ _ HO)) as Ht. by rewrite E in Ht.
    + rewrite (ds_type _ _ _ D). intros E. pose proof (ro_type _ _ HO) as Ht. by rewrite E in Ht.
    + destruct (pz_range _ _ _ HZ p Hp) as [[_ Hm]|]; [by apply lookup_empty_Some in Hm|lia].
    + intros Hn. destruct (known_mark r p Hr HE D) as [HM HT]; [rewrite <- (ds_type _ _ _ D); by apply network_known|].
      split; [done|]. split; [done|]. by apply tables_complete.
  - unfold validateExplicitIPRules. destruct (buildIPRules_ruled c proofs) as (seen & rules & HU & EP).
    rewrite pass.
    2:{ destruct required; [|done]. destruct (any_true network proofs) as [HA _]. destruct (HA (HR eq_refl)) as (p & Hp & Hn).
      assert (Hu : usable (callOf p) = true).
      { destruct (proof_route p Hp) as (r & Hr & HE & D).
        destruct (known_mark r p Hr HE D) as [HM HT]; [rewrite <- (ds_type _ _ _ D); by apply network_known|].
        unfold usable. cbn [fst snd callOf]. destruct (S.is_empty (rp_Mark p)) eqn:EE; [apply String.eqb_eq in EE; by rewrite EE in HM|].
        destruct (pz_range _ _ _ HZ p Hp) as [[_ Hm]|]; [by apply lookup_empty_Some in Hm|]. cbn [negb andb]. lia. }
      assert (Hin : callOf p ∈ callsOf c proofs) by (apply elem_of_app; right; apply elem_of_map; exists p; split; [done|by apply elem_of_filter_b]).
      apply (ru_done _ _ _ HU) in Hin; [|done]. destruct (ru_seen _ _ _ HU _ Hin "ipv4") as (r & Hr & _); [left|]. cbn [snd] in Hr.
      rewrite <- EP in Hr. destruct (buildIPRules c proofs); [by apply elem_of_nil in Hr|done]. }
    apply validateEachRule_Ok; [| |set_solver].
    + intros r Hr. rewrite EP in Hr. destruct (ru_from _ _ _ HU r Hr) as (x & f & Hx & Hu & Hf & ->).
      destruct (families_of_call x f Hx Hu Hf families HF) as [HT HM]. unfold ruleOK. cbn. unfold usable in Hu.
      apply andb_true_iff in Hu as [[Hu1 Hu2]%andb_true_iff Hu3]. split; [|split_and!; try done; try lia].
      * unfold familiesOf in Hf. destruct (pl_IPv6Enabled _); set_solver.
      * apply elem_of_app in Hx as [Hx|(p & -> & _)%elem_of_map]; [|done]. destruct (transparentRules _ _); [|by apply elem_of_nil in Hx].
        by apply list_elem_of_singleton in Hx as ->.
    + rewrite (Permutation_map _ EP). pose proof (ru_from _ _ _ HU) as HO. pose proof (ru_apart _ _ _ HU) as HA. cbn [snd] in HO, HA. clear -HO HA HW HB.
      induction rules as [|r l IH]; [constructor|]. inversion HA as [|? ? Hn HA']; subst. cbn [map]. constructor.
      * intros (x & E & Hx)%elem_of_map. injection E as E1 E2. apply Hn, elem_of_map. exists x. split; [|done]. rewrite E1. f_equal.
        destruct (HO r) as (a & f & Ha & _ & _ & ->); [left|]. destruct (HO x) as (b & g & Hb & _ & _ & ->); [by right|].
        pose proof (calls_apart a b Ha Hb E2) as EK. unfold callKey in EK. unfold ruleMark. cbn. by rewrite EK.
      * apply IH; [|done]. intros x Hx. apply HO. by right.
Qed.
End Tables.

(** *** The parts of the plan *)

Lemma xray_type t : throughXray t = true -> (t <>s "drop") = true.
Proof. destruct (t =s "drop") eqn:E; [|done]. apply String.eqb_eq in E as ->. done. Qed.
Lemma any_xray : any (fun p => throughXray (rp_Type p)) proofs = true -> exists p, p ∈ proofs /\ network p = true /\ throughXray (rp_Type p) = true.
Proof. intros (p & Hp & HX)%any_true. exists p. split; [done|]. split; [by apply xray_type|done]. Qed.

Lemma transparent_pass verified : let t := transparentPlan c proofs in
  validateTransparentProxyPlan (if verified && tp_Enabled t then verifiedTransparent t else t) = Ok ().
Proof.
  unfold transparentPlan. destruct (any (fun p => throughXray (rp_Type p)) proofs) eqn:EA; cbv zeta.
  2:{ cbn [tp_Enabled zero_Transparent]. by rewrite andb_false_r. }
  apply any_xray in EA as (p & Hp & _ & HX). destruct (xray_transparent p Hp HX) as (r & Hr & HE & Ht & D).
  assert (HT : exists r, r ∈ c_Routes c /\ Enabled r = true /\ transparentType (r_Type r) = true) by by exists r.
  pose proof (wf_transparent _ _ _ _ HW HT) as HO. destruct (tr_marks _ HO) as (values & HF & HN).
  unfold openwrtMarks in HF. repeat match goal with H : Forall2 _ (_ :: _) _ |- _ => inversion H; clear H; subst end. cbn [snd] in *.
  pose proof (known_mark r p Hr HE D) as HK. rewrite <- (ds_type _ _ _ D), HX, orb_true_r in HK. destruct (HK eq_refl) as [_ HTab].
  assert (ETab : rp_Table p = XrayRouteTable (c_OpenWrt c)).
  { rewrite (ds_table _ _ _ D). rewrite (ds_type _ _ _ D) in HX. unfold throughXray in HX. apply containsString_true in HX.
    repeat (apply elem_of_cons in HX as [->|HX]; [done|]). by apply elem_of_nil in HX. }
  assert (HM : forall m v, parseFirewallMark m = Ok v -> exists w, markNumber m = Ok w).
  { intros m v Hm. apply markNumber_parse in Hm. unfold validMark in Hm. destruct (markNumber m); [eauto|done]. }
  pose proof (tr_port _ HO) as HP.
  set (T := XrayTProxyMark (c_OpenWrt c)) in *. set (B := XrayBypassMark (c_OpenWrt c)) in *.
  assert (ENE : (T =s B) = false).
  { destruct (T =s B) eqn:E; [|done]. apply String.eqb_eq in E. exfalso. rewrite E in *.
    repeat match goal with H : parseFirewallMark ?m = Ok ?v, H' : parseFirewallMark ?m = Ok ?w |- _ => lazymatch v with w => fail | _ => rewrite H in H'; injection H' as -> end end.
    repeat match goal with H : NoDup (_ :: _) |- _ => inversion H; clear H; subst end. set_solver. }
  match goal with H : parseFirewallMark T = Ok ?v |- _ => destruct (HM T v H) as (tw & ETW) end.
  match goal with H : parseFirewallMark B = Ok ?v |- _ => destruct (HM B v H) as (bw & EBW) end.
  destruct verified; cbn [andb tp_Enabled]; unfold verifiedTransparent, validateTransparentProxyPlan; cbn [tp_Enabled tp_Mode tp_IPv4InboundTag
    tp_IPv6InboundTag tp_IPv4Listen tp_IPv6Listen tp_Port tp_RouteTable tp_TProxyMark tp_BypassMark tp_Status tp_CandidateOnly tp_CapabilityVerified negb];
    rewrite ETW, EBW; (rewrite pass; [|cbn; lia]); cbn [mbind result_bind]; (rewrite pass by exact ENE).
  - destruct (xr_ActivationMode (c_Xray c) <>s "managed"); done.
  - done.
Qed.

Lemma zapret_pass verified : let z := zapretPlan c proofs in
  validateZapretPlan (if verified && zp_Enabled z then verifiedZapret z else z) = Ok () /\ zp_CandidateOnly z = false.
Proof.
  unfold zapretPlan. destruct (any (fun p => rp_Type p =s "zapret") proofs) eqn:EA; cbv zeta.
  2:{ cbn [zp_Enabled zero_ZapretPlan]. by rewrite andb_false_r. }
  apply any_true in EA as (p & Hp & HZ). apply String.eqb_eq in HZ. destruct (proof_route p Hp) as (r & Hr & HE & D).
  assert (HT : enabledType "zapret" (c_Routes c)) by (exists r; split_and!; [done..|by rewrite <- (ds_type _ _ _ D)]).
  destruct (wf_zapret _ _ _ _ HW HT) as [M1 (M2 & M3 & M4) M5 M6].
  set (z := mkZapretPlan _ _ _ _ _ _ _ _ _). assert (EC : zp_CandidateOnly z = false) by (unfold z; cbn; by rewrite M1). split; [|done].
  assert (HD : (if (length (zp_DeviceProfiles z) =? 0)%nat then Ok ()
         else match ValidateProfiles (zp_DeviceProfiles z) with
              | Some e => Err ("invalid device-scoped Zapret plan: " +:+ e)
              | None => reject (any (fun p => dv_QueueNum p =? zp_QueueNum z) (zp_DeviceProfiles z)) "device-scoped Zapret profile collides with base queue"
              end) = Ok ()).
  { unfold z. cbn [zp_DeviceProfiles zp_QueueNum]. destruct (z_DeviceProfiles (c_Zapret c)) as [|q l] eqn:EL; [done|].
    destruct (wf_devices _ _ _ _ HW) as (_ & EV & HQ); [by rewrite EL|]. rewrite EL in EV, HQ. cbn [length Nat.eqb]. rewrite EV.
    assert (EA : any (fun p => dv_QueueNum p =? z_QueueNum (c_Zapret c)) (q :: l) = false) by (apply any_false; intros y Hy; apply HQ in Hy; lia).
    by rewrite EA. }
  assert (HF : (zp_QueueNum z <? 1) || (65535 <? zp_QueueNum z) || (zp_Strategy z <>s "tls-fake-ttl3-v1") || (zp_Binary z <>s "/usr/bin/nfqws")
                || (zp_ActiveConfig z <>s "/etc/router-policy/zapret/nfqws.conf") || (zp_InitScript z <>s "/etc/init.d/router-policy-zapret") = false).
  { unfold z. cbn [zp_QueueNum zp_Strategy zp_Binary zp_ActiveConfig zp_InitScript]. rewrite M2, M3, M4, M6. cbn. lia. }
  assert (EE : zp_Enabled z = true) by done. assert (ES : zp_Status z = "UNVERIFIED") by done. clearbody z.
  destruct verified; cbn [andb]; rewrite ?EE; unfold validateZapretPlan, verifiedZapret; cbn [zp_Enabled zp_QueueNum zp_Strategy zp_Binary zp_ActiveConfig
    zp_InitScript zp_DeviceProfiles zp_Status zp_CandidateOnly]; rewrite EE; cbn [negb]; (rewrite pass by exact HF); rewrite HD, EC; cbn [mbind result_bind].
  - done.
  - by rewrite ES.
Qed.

Lemma flow_pass policyTraffic : validateFlowOffloadingPlan (flowPlan c policyTraffic) = Ok ().
Proof.
  pose proof (wf_flow _ _ _ _ HW) as HF. rewrite containsString_true in HF. unfold flowPlan, firstNonEmpty.
  repeat (apply elem_of_cons in HF as [->|HF]; [by destruct policyTraffic|]). by apply elem_of_nil in HF.
Qed.
Lemma inspected_pass policyTraffic d : validateFlowOffloadingPlan (inspectedFlow (flowPlan c policyTraffic) d).1 = Ok ().
Proof.
  pose proof (wf_flow _ _ _ _ HW) as HF. rewrite containsString_true in HF. unfold inspectedFlow, flowPlan, firstNonEmpty.
  repeat (apply elem_of_cons in HF as [->|HF]; [destruct policyTraffic; cbn; try done|]); [..|by apply elem_of_nil in HF].
  all: destruct (nd_FlowOffloadingStatus d =s "VERIFIED") eqn:E; cbn; [|done].
  all: destruct (nd_SoftwareFlowOffload d), (nd_HardwareFlowOffload d); cbn; unfold validateFlowOffloadingPlan; cbn; by rewrite E.
Qed.

(** The identifiers made of the tags of VLESS routes differ. *)
Definition distinctIDs (sha256 : string -> string) : Prop := forall r r', r ∈ routes -> r' ∈ routes ->
  r_Type r = "vless" -> r_Type r' = "vless" -> routeID sha256 (r_Tag r) = routeID sha256 (r_Tag r') -> r_Tag r = r_Tag r'.

Lemma proxies_pass sha256 policies plans : distinctIDs sha256 -> buildDNSProxyPlans sha256 c routes policies = Ok plans ->
  validateDNSProxyPlans sha256 plans proofs = Ok ().
Proof.
  intros HI. unfold buildDNSProxyPlans. cbv zeta. destruct (bool_decide (usedVLESSRoutes policies = ∅)); [by intros [= <-]|].
  intros H. ok_steps H. injection H as <-. unfold validateDNSProxyPlans.
  set (l := gosort (key_slt r_Tag) (List.filter (fun r => r_Type r =s "vless") routes)) in *.
  assert (HL : forall r, r ∈ l <-> r ∈ routes /\ r_Type r = "vless").
  { intros r. unfold l. rewrite gosort_perm, elem_of_filter_b. by rewrite String.eqb_eq. }
  assert (HD : NoDup (map r_Tag l)).
  { unfold l. rewrite (Permutation_map _ (gosort_perm _ _)). pose proof enabled_tags as HN. revert HN. generalize routes. clear. intros l.
    induction l as [|r l IH]; intros HN; [constructor|]. inversion HN as [|? ? Hn HN']; subst. cbn [List.filter]. destruct (r_Type r =s "vless"); [|by apply IH].
    constructor; [|by apply IH]. intros (x & E & [Hx _]%elem_of_filter_b)%elem_of_map. apply Hn, elem_of_map. by exists x. }
  clearbody l. destruct (decide (length l = 0%nat)) as [E|Hne].
  { apply nil_length_inv in E. rewrite E in G1. by injection G1 as <-. }
  assert (HB : 1024 <= dnsProxyBasePort c).
  { destruct l as [|r l0]; [done|]. destruct (HL r) as [HL1 _]. destruct HL1 as [Hr Ht]; [left|].
    apply elem_of_enabled in Hr as [Hr HE]. apply (wf_dns _ _ _ _ HW). apply vlessCount_pos. by exists r. }
  eapply dnsProxies_pass; [exact G0|exact G1|lia| | | |].
  - done.
  - intros r [Hr Ht]%HL. split_and!; [|apply elem_of_list_to_set|set_solver|set_solver].
    + apply elem_of_enabled in Hr as [Hr _]. pose proof (wf_routes _ _ _ _ HW) as HO. rewrite Forall_forall in HO.
      pose proof (routeTag_nonempty _ (ro_tag _ _ (HO r Hr))) as Hn. intros E. by rewrite E in Hn.
    + destruct (Forall2_elem_l _ _ _ _ proofs_describe Hr) as (p & Hp & D). apply elem_of_map. exists p. split; [by rewrite (ds_tag _ _ _ D)|].
      apply elem_of_filter_b. split; [done|]. by rewrite (ds_type _ _ _ D), Ht.
  - intros r r' [Hr Ht]%HL [Hr' Ht']%HL E. unfold inboundOf in E. apply str_app_inj_l in E. by apply HI.
  - set_solver.
Qed.
(** *** Every shape the plan can take *)

(** A plan whose parts pass, and that installs nothing. *)
Lemma check_blocked sha256 plan binding :
  pn_Binding plan = binding -> validateTransparentProxyPlan (pn_TransparentProxy plan) = Ok () -> validateZapretPlan (pn_Zapret plan) = Ok () ->
  validateFlowOffloadingPlan (pn_FlowOffloading plan) = Ok () -> validateDNSProxyPlans sha256 (pn_DNSProxies plan) (pn_Rules plan) = Ok () ->
  pn_DeploymentReady plan = false -> pn_BlockReason plan <> "" -> pn_Routes plan = [] ->
  (pn_PlannedRoutes plan = [] \/ exists families, validateIPRoutes ∅ (pn_PlannedRoutes plan) = Ok families /\
     validateIPRules families ∅ ∅ (pn_Rules plan) = Ok () /\ validateExplicitIPRules families true (pn_IPRules plan) = Ok ()) ->
  (pn_BlockReason plan = "transparent_activation_unverified" -> pn_PlannedRoutes plan <> [] /\ tp_Enabled (pn_TransparentProxy plan) = true /\
     tp_CapabilityVerified (pn_TransparentProxy plan) = true /\ tp_CandidateOnly (pn_TransparentProxy plan) = true) ->
  pn_BlockReason plan <> "zapret_activation_unverified" ->
  checkIPPlan sha256 plan binding = Ok plan.
Proof.
  intros EB ET EZ EF ED ER HN EP HP HT HZ. unfold checkIPPlan. rewrite pass by by rewrite bool_decide_eq_true_2.
  rewrite ET, EZ, EF, ED. cbn [mbind result_bind]. cbv zeta. rewrite ER. cbn [negb].
  rewrite pass. 2:{ apply String.eqb_neq in HN. unfold S.is_empty. by rewrite HN, EP. }
  apply String.eqb_neq in HZ. rewrite HZ. cbn [andb].
  assert (E : (if negb (length (pn_PlannedRoutes plan) =? 0)%nat
     then families ← validateIPRoutes ∅ (pn_PlannedRoutes plan); _ ← validateIPRules families ∅ ∅ (pn_Rules plan); validateExplicitIPRules families true (pn_IPRules plan)
     else Ok ()) = Ok ()).
  { destruct HP as [->|(families & -> & E1 & E2)]; [done|]. cbn [mbind result_bind]. rewrite E1. cbn [mbind result_bind]. rewrite E2. by destruct (negb _). }
  rewrite E. cbn [mbind result_bind]. destruct (pn_BlockReason plan =s "transparent_activation_unverified") eqn:EQ; [|done].
  apply String.eqb_eq in EQ. destruct (HT EQ) as (H1 & -> & -> & ->). by destruct (pn_PlannedRoutes plan).
Qed.
(** One that is to be installed. *)
Lemma check_ready sha256 plan binding :
  pn_Binding plan = binding -> validateTransparentProxyPlan (pn_TransparentProxy plan) = Ok () -> validateZapretPlan (pn_Zapret plan) = Ok () ->
  validateFlowOffloadingPlan (pn_FlowOffloading plan) = Ok () -> validateDNSProxyPlans sha256 (pn_DNSProxies plan) (pn_Rules plan) = Ok () ->
  pn_DeploymentReady plan = true -> pn_BlockReason plan = "" -> pn_PlannedRoutes plan = [] ->
  tp_CandidateOnly (pn_TransparentProxy plan) = false -> zp_CandidateOnly (pn_Zapret plan) = false ->
  (any network (pn_Rules plan) = true -> pn_DiagnosticsHash plan <> "" /\ S.is_empty (S.TrimSpace (pn_DiagnosticsSource plan)) = false) ->
  (exists families, validateIPRoutes ∅ (pn_Routes plan) = Ok families /\ validateIPRules families ∅ ∅ (pn_Rules plan) = Ok () /\
     validateExplicitIPRules families (any network (pn_Rules plan)) (pn_IPRules plan) = Ok ()) ->
  checkIPPlan sha256 plan binding = Ok plan.
Proof.
  intros EB ET EZ EF ED ER HN EP HT HZ HD (families & E1 & E2 & E3). unfold checkIPPlan. rewrite pass by by rewrite bool_decide_eq_true_2.
  rewrite ET, EZ, EF, ED. cbn [mbind result_bind]. cbv zeta. rewrite ER, HN, EP, HT, HZ. cbn [negb].
  rewrite pass by done. rewrite pass by done. change (any (fun r => rp_Type r <>s "drop") (pn_Rules plan)) with (any network (pn_Rules plan)).
  rewrite pass.
  2:{ destruct (any network (pn_Rules plan)); [|done]. destruct (HD eq_refl) as [H1 ->]. apply String.eqb_neq in H1. unfold S.is_empty. by rewrite H1. }
  rewrite E1. cbn [mbind result_bind]. rewrite E2. cbn [mbind result_bind]. by rewrite E3.
Qed.

Lemma routesFor_Err d p reason : routesFor d p = Err reason ->
  reason ∈ ["route_table_not_configured"; "wan_interface_unverified"; "ipv4_gateway_unverified"; "ipv6_gateway_unverified"; "route_type_unsupported"].
Proof.
  unfold routesFor. cbv zeta. destruct (rp_Table p <? 1); [intros [= <-]; in_list|]. destruct (containsString _ _).
  - destruct (negb (interfaceNamePattern _)); cbn; [intros [= <-]; in_list|]. destruct (negb (rp_RequiresIPv4 p)).
    + cbn. destruct (negb (rp_RequiresIPv6 p)); [done|]. destruct (negb (nd_IPv6Available d)); [done|].
      destruct (IP.ParseIP (nd_IPv6Gateway d)) as [[]|]; cbn; try done; intros [= <-]; in_list.
    + destruct (IP.ParseIP (nd_IPv4Gateway d)) as [[]|]; cbn; try (intros [= <-]; in_list).
      destruct (negb (rp_RequiresIPv6 p)); [done|]. destruct (negb (nd_IPv6Available d)); [done|].
      destruct (IP.ParseIP (nd_IPv6Gateway d)) as [[]|]; cbn; try done; intros [= <-]; in_list.
  - destruct (throughXray _); [done|]. intros [= <-]. in_list.
Qed.
Lemma buildRoutes_Err d ps : forall st reason, buildRoutes d st ps = Err reason -> exists p, routesFor d p = Err reason.
Proof.
  induction ps as [|p ps IH]; intros st reason H; cbn [buildRoutes] in H; [done|]. destruct (rp_Type p =s "drop"); [by eapply IH|].
  destruct (routesFor d p) as [rs|e] eqn:E; [by eapply IH|]. cbn in H. injection H as ->. by exists p.
Qed.

Lemma zapret_direct : zp_CandidateOnly (zapretPlan c proofs) = false.
Proof. by destruct (zapret_pass false). Qed.

Lemma tables_nonempty d tables : buildRoutes d (∅, []) proofs = Ok tables -> any network proofs = true -> tables <> [].
Proof.
  intros HB (p & Hp & Hn)%any_true. destruct (tables_planned d tables HB) as (seen & [_ _ _ P4]). cbn in P4.
  destruct (buildRoutes_each _ _ _ _ HB p Hp Hn) as (rs & Hrs). destruct (routesFor_complete _ _ _ Hrs) as [H4 _].
  destruct (proof_route p Hp) as (r & _ & _ & D). destruct H4 as (x & Hx & _).
  { rewrite (ds_v4 _ _ _ D), <- (ds_type _ _ _ D). exact Hn. }
  intros ->. specialize (P4 p x Hp Hn). apply elem_of_nil in P4; [done|]. by exists rs.
Qed.
(** Without routes through the network there are no tables and rules to check. *)
Lemma tables_drop_only d tables : buildRoutes d (∅, []) proofs = Ok tables -> any network proofs = false -> tables = [].
Proof.
  intros HB HN. destruct (tables_planned d tables HB) as (seen & [_ P2 _ _]). cbn in P2. destruct tables as [|r l]; [done|].
  destruct (P2 r) as (p & Hp & Hn & _); [left|]. rewrite any_false in HN. by rewrite (HN p Hp) in Hn.
Qed.

Section Check.
Context (sha256 : string -> string) (binding : Binding) (policyTraffic : bool) (proxies : list DNSProxyPlan)
  (HD : validateDNSProxyPlans sha256 proxies proofs = Ok ()).
Notation start := (emptyPlan c binding proofs policyTraffic).

(** The plan when the diagnostics have been used, with its plan for flow
    offloading. *)
Definition inspectedPlan (d : NetworkDiagnostics) (hash : string) (flow : FlowOffloadingPlan) : IPPlan :=
  let t := transparentPlan c proofs in let z := zapretPlan c proofs in
  mkIPPlan binding false "" hash (nd_Source d) (nd_Simulation d) [] [] proofs (buildIPRules c proofs)
    (if tp_Enabled t then verifiedTransparent t else t) (if zp_Enabled z then verifiedZapret z else z) flow []
    (nd_WANInterface d) (nd_LANInterfaces d).

Lemma blocked_start reason hash source simulation : reason <> "" -> reason <> "transparent_activation_unverified" -> reason <> "zapret_activation_unverified" ->
  let plan := set_DNSProxies proxies (set_BlockReason reason (set_Simulation simulation (set_DiagnosticsSource source (set_DiagnosticsHash hash start)))) in
  checkIPPlan sha256 plan binding = Ok plan.
Proof.
  intros H1 H2 H3. cbv zeta. apply check_blocked; try done; [apply (transparent_pass false)|apply (zapret_pass false)|apply flow_pass|by left].
Qed.
Lemma inspected_parts d hash flow : let p := inspectedPlan d hash flow in
  validateTransparentProxyPlan (pn_TransparentProxy p) = Ok () /\ validateZapretPlan (pn_Zapret p) = Ok () /\ zp_CandidateOnly (pn_Zapret p) = false.
Proof.
  cbv zeta. unfold inspectedPlan. cbn [pn_TransparentProxy pn_Zapret]. split_and!.
  - apply (transparent_pass true).
  - apply (zapret_pass true).
  - destruct (zp_Enabled (zapretPlan c proofs)); [|apply zapret_direct]. unfold verifiedZapret. cbn [zp_CandidateOnly]. apply zapret_direct.
Qed.

(** Blocked after the diagnostics were used. *)
Lemma blocked_inspected d hash flow reason : validateFlowOffloadingPlan flow = Ok () ->
  reason <> "" -> reason <> "transparent_activation_unverified" -> reason <> "zapret_activation_unverified" ->
  let plan := set_DNSProxies proxies (set_BlockReason reason (inspectedPlan d hash flow)) in checkIPPlan sha256 plan binding = Ok plan.
Proof.
  intros HF H1 H2 H3; cbv zeta. destruct (inspected_parts d hash flow) as (P1 & P2 & _). apply check_blocked; try done. by left.
Qed.
Lemma previewed d hash flow tables reason : validateFlowOffloadingPlan flow = Ok () -> buildRoutes d (∅, []) proofs = Ok tables ->
  reason <> "" -> reason <> "zapret_activation_unverified" ->
  (reason = "transparent_activation_unverified" -> tp_Enabled (transparentPlan c proofs) = true /\ tp_CandidateOnly (transparentPlan c proofs) = true) ->
  let plan := set_DNSProxies proxies (plannedOnly reason (set_Routes tables (inspectedPlan d hash flow))) in checkIPPlan sha256 plan binding = Ok plan.
Proof.
  intros HF HB H1 H2 H3. cbv zeta. destruct (inspected_parts d hash flow) as (P1 & P2 & _). apply check_blocked; try done.
  - cbn. destruct (any network proofs) eqn:EN.
    + right. by apply plan_tables_pass with d.
    + left. by apply (tables_drop_only d).
  - cbn. intros E. destruct (H3 E) as [HE HC]. unfold verifiedTransparent. rewrite HE. cbn. split; [|done]. apply (tables_nonempty d); [done|].
    unfold transparentPlan in HE. destruct (any (fun p => throughXray (rp_Type p)) proofs) eqn:EA; [|done].
    apply any_xray in EA as (p & Hp & Hn & _). apply any_true. by exists p.
Qed.
Lemma ready_plan d hash flow tables : validateFlowOffloadingPlan flow = Ok () -> buildRoutes d (∅, []) proofs = Ok tables -> hash <> "" -> S.is_empty (S.TrimSpace (nd_Source d)) = false ->
  tp_Enabled (transparentPlan c proofs) && tp_CandidateOnly (transparentPlan c proofs) = false ->
  let plan := set_DNSProxies proxies (set_Ready true (set_Routes tables (inspectedPlan d hash flow))) in checkIPPlan sha256 plan binding = Ok plan.
Proof.
  intros HF HB H1 H2 H3. cbv zeta. destruct (inspected_parts d hash flow) as (P1 & P2 & P4). apply check_ready; try done.
  - cbn. unfold verifiedTransparent. destruct (tp_Enabled (transparentPlan c proofs)) eqn:E; [exact H3|].
    unfold transparentPlan in *. by destruct (any _ proofs).
  - cbn. apply (plan_tables_pass d tables HB). done.
Qed.

(** Whatever stands in the way once the tables are made. *)
Lemma withTables_pass d hash : hash <> "" -> S.is_empty (S.TrimSpace (nd_Source d)) = false ->
  let plan := set_DNSProxies proxies (withTables c d proofs (inspectedPlan d hash (flowPlan c policyTraffic))) in checkIPPlan sha256 plan binding = Ok plan.
Proof.
  intros H1 H2. cbv zeta. unfold withTables. cbn [pn_FlowOffloading inspectedPlan]. pose proof (inspected_pass policyTraffic d) as HF.
  destruct (inspectedFlow (flowPlan c policyTraffic) d) as [flow reason] eqn:EF. cbn [fst] in HF.
  change (set_FlowOffloading flow (inspectedPlan d hash (flowPlan c policyTraffic))) with (inspectedPlan d hash flow).
  destruct (buildRoutes d (∅, []) proofs) as [tables|r] eqn:EB.
  2:{ apply buildRoutes_Err in EB as (p & HR%routesFor_Err). change (set_Routes [] (inspectedPlan d hash flow)) with (inspectedPlan d hash flow).
    apply blocked_inspected; [done|..]; intros ->; set_solver. }
  cbv zeta. destruct (HasDeviceOverrides (Some c)); [by apply previewed|]. cbn [pn_TransparentProxy pn_Zapret inspectedPlan set_Routes].
  assert (ET : tp_Enabled (if tp_Enabled (transparentPlan c proofs) then verifiedTransparent (transparentPlan c proofs) else transparentPlan c proofs) &&
    tp_CandidateOnly (if tp_Enabled (transparentPlan c proofs) then verifiedTransparent (transparentPlan c proofs) else transparentPlan c proofs) =
    tp_Enabled (transparentPlan c proofs) && tp_CandidateOnly (transparentPlan c proofs)) by by destruct (tp_Enabled (transparentPlan c proofs)) eqn:E; cbn; rewrite ?E.
  rewrite ET. destruct (tp_Enabled (transparentPlan c proofs) && tp_CandidateOnly (transparentPlan c proofs)) eqn:EC; [apply previewed; try done; intros _; by apply andb_true_iff in EC|].
  assert (EZ : zp_CandidateOnly (if zp_Enabled (zapretPlan c proofs) then verifiedZapret (zapretPlan c proofs) else zapretPlan c proofs) = false)
    by (destruct (zp_Enabled (zapretPlan c proofs)); apply zapret_direct).
  rewrite EZ, andb_false_r. destruct (S.is_empty reason) eqn:ER; cbn [negb]; [by apply ready_plan|].
  assert (HR : reason ∈ [""; "flow_offloading_unverified"; "flow_offloading_incompatible"]).
  { unfold inspectedFlow in EF. destruct (_ && _) in EF; [|injection EF as _ <-; in_list].
    destruct (_ <>s _) in EF; [injection EF as _ <-; in_list|]. destruct (_ || _) in EF; injection EF as _ <-; in_list. }
  apply previewed; try done; intros ->; set_solver.
Qed.

Lemma buildIPPlan_pass (file : diagnosticsFile) generatedAt : (forall d h, file = DiagnosticsRead d h -> h <> "") ->
  let plan := set_DNSProxies proxies (buildIPPlan c binding proofs policyTraffic file generatedAt) in checkIPPlan sha256 plan binding = Ok plan.
Proof.
  intros HH. unfold buildIPPlan. cbv zeta. change (any (fun p => rp_Type p <>s "drop") proofs) with (any network proofs).
  destruct (negb (any network proofs) && negb (fl_Required (pn_FlowOffloading start))) eqn:E0.
  { apply andb_true_iff in E0 as [EN%negb_true_iff EF]. destruct (HasDeviceOverrides (Some c)).
    - by apply (blocked_start _ "" "" false).
    - apply check_ready; try done; [apply (transparent_pass false)|apply (zapret_pass false)|apply flow_pass| |apply zapret_direct|intros HN; change (any network proofs = true) in HN; congruence|].
      + cbn. unfold transparentPlan. destruct (any (fun p => throughXray (rp_Type p)) proofs) eqn:EA; [|done]. apply any_xray in EA as (p & Hp & Hn & _).
        rewrite any_false in EN. by rewrite (EN p Hp) in Hn.
      + assert (HB0 : forall d, exists tables, buildRoutes d (∅, []) proofs = Ok tables).
        { intros d. rewrite any_false in EN. clear -EN. generalize (∅ : gset string, [] : list IPRoute). revert EN. generalize proofs. intros l.
          induction l as [|p l IH]; intros EN st; cbn [buildRoutes]; [by eexists|]. pose proof (EN p ltac:(left)) as Hp. unfold network in Hp. apply negb_false_iff in Hp.
          rewrite Hp. apply IH. intros q Hq. apply EN. by right. }
        destruct (HB0 zero_Diagnostics) as (tables & HB). pose proof (tables_drop_only _ _ HB EN) as ->. cbn.
        apply (plan_tables_pass _ _ HB). done. }
  destruct (loadNetworkDiagnostics c file generatedAt) as [[d hash] reason] eqn:EL. destruct (S.is_empty reason) eqn:ER; cbn [negb].
  2:{ assert (HR : reason ∈ ["network_diagnostics_missing"; "network_diagnostics_invalid"; "network_diagnostics_stale_or_unverified"]).
      { unfold loadNetworkDiagnostics in EL. destruct (S.is_empty (st_StateDir _)); [injection EL as _ _ <-; in_list|].
        destruct file as [| |h|x h]; [..|destruct (_ || _)]; injection EL as _ _ <-; first [in_list|done]. }
      apply blocked_start; intros ->; [done|set_solver|set_solver]. }
  assert (HS2 : hash <> "" /\ S.is_empty (S.TrimSpace (nd_Source d)) = false).
  { unfold loadNetworkDiagnostics in EL. destruct (S.is_empty (st_StateDir _)); [by injection EL as _ _ <-|].
    destruct file as [| |h|x h]; [by injection EL as _ _ <-..|]. destruct (_ || _) eqn:EB in EL; [by injection EL as _ _ <-|].
    injection EL as <- <- _. split; [by eapply HH|]. by repeat (apply orb_false_iff in EB as [EB ?]). }
  destruct HS2 as [Hh Hsrc]. unfold planWith. cbn [pn_TransparentProxy emptyPlan set_Simulation set_DiagnosticsSource set_DiagnosticsHash].
  cbn [pn_Zapret pn_FlowOffloading].
  destruct (tp_Enabled (transparentPlan c proofs) && (nd_TransparentProxyMode d <>s "tproxy")) eqn:EM.
  { apply check_blocked; try done; [apply (transparent_pass false)|apply (zapret_pass false)|apply flow_pass|by left]. }
  cbv zeta. match goal with |- context [set_LANInterfaces ?l (set_WANInterface ?w ?p)] =>
    assert (EP : set_LANInterfaces l (set_WANInterface w p) = inspectedPlan d hash (flowPlan c policyTraffic)) end.
  { unfold inspectedPlan. cbv zeta. destruct (tp_Enabled (transparentPlan c proofs));
      (match goal with |- context [zp_Enabled (pn_Zapret ?q)] => change (pn_Zapret q) with (zapretPlan c proofs) end);
      by destruct (zp_Enabled (zapretPlan c proofs)). }
  rewrite EP. clear EP. destruct (length (nd_LANInterfaces d) =? 0)%nat; [by apply blocked_inspected; [apply flow_pass|..]|].
  destruct (any _ (nd_LANInterfaces d)); [by apply blocked_inspected; [apply flow_pass|..]|]. by apply withTables_pass.
Qed.
End Check.

(** C18: The plan written for a valid configuration is accepted when it is read
    back: whatever the diagnostics say, and whether the plan is ready, only previewed
    or blocked, every check of [LoadIPPlan] on its binding, tables, rules, priorities,
    DNS proxies and readiness passes, and the plan is used as it was written.  Two
    things the validation does not ensure are assumed: that no routing table serves
    both the WAN and Xray, and that the identifiers made of the tags of VLESS routes
    differ. *)
Theorem generated_plan_loads (sha256 : string -> string) binding (file : diagnosticsFile) generatedAt policies required plan :
  distinctIDs sha256 -> (forall d h, file = DiagnosticsRead d h -> h <> "") ->
  generatePlan sha256 toASCII order c binding file generatedAt = Ok (policies, required, plan) ->
  checkIPPlan sha256 plan binding = Ok plan.
Proof.
  intros HI HH H. unfold generatePlan in H. cbv zeta in H. ok_steps H. injection H as <- <- <-.
  apply buildIPPlan_pass; [|done]. by eapply proxies_pass.
Qed.

Lemma plan_rules binding policyTraffic proxies file generatedAt :
  pn_IPRules (set_DNSProxies proxies (buildIPPlan c binding proofs policyTraffic file generatedAt)) = buildIPRules c proofs.
Proof.
  unfold buildIPPlan. cbv zeta. destruct (_ && _); [by destruct (HasDeviceOverrides _)|].
  destruct (loadNetworkDiagnostics c file generatedAt) as [[d hash] reason]. destruct (negb (S.is_empty reason)); [done|].
  unfold planWith. cbv zeta. destruct (_ && _); [done|].
  assert (HT : forall p, pn_IPRules (withTables c d proofs p) = pn_IPRules p).
  { intros p. unfold withTables. destruct (inspectedFlow _ _) as [flow r]. destruct (buildRoutes _ _ _); [|done]. cbv zeta.
    destruct (HasDeviceOverrides _); [done|]. destruct (_ && _); [done|]. destruct (_ && _); [done|]. by destruct (negb _). }
  destruct (length _ =? 0)%nat; [|destruct (any _ (nd_LANInterfaces d))]; cbn [pn_IPRules set_DNSProxies set_BlockReason]; rewrite ?HT;
    by do 2 (match goal with |- context [if ?b then _ else _] => destruct b end).
Qed.

(** The policy rule that gives traffic with the mark of [p] its table. *)
Definition installs (plan : IPPlan) (p : RouteProof) (family : string) : Prop :=
  exists r, r ∈ pn_IPRules plan /\ ir_Family r = family /\ ir_Mark r = rp_Mark p /\ ir_Mask r = "0xffffffff" /\ ir_Table r = rp_Table p /\
    ir_Priority r = rp_RulePriority p.

(** C19: What the manifest asks to be proved is what the plan installs: every
    required proof of a network route (all but DROP) with a mark and a table has, for each address family in
    use, a rule with exactly its mark, table and priority among the rules of the plan,
    although the proofs are only those of the routes some policy uses and the rules
    are those of all routes.  (A route whose mark is the transparent proxy's own has
    no rule of its own.) *)
Theorem required_proofs_are_installed (sha256 : string -> string) binding (file : diagnosticsFile) generatedAt policies required plan p family :
  generatePlan sha256 toASCII order c binding file generatedAt = Ok (policies, required, plan) ->
  p ∈ required -> network p = true -> keyed p = true -> family ∈ familiesOf c ->
  rp_Mark p <> XrayTProxyMark (c_OpenWrt c) ->
  (exists r, r ∈ c_Routes c /\ Enabled r = true /\ r_Tag r = rp_Tag p) /\ installs plan p family.
Proof.
  intros H Hp Hn Hk Hf HM. unfold generatePlan in H. cbv zeta in H. ok_steps H. injection H as <- <- <-.
  unfold selectProofs in Hp. apply elem_of_filter_b in Hp as [Hp _]. split.
  { destruct (proof_route p Hp) as (r & Hr & HE & D). exists r. split_and!; [done..|]. by rewrite (ds_tag _ _ _ D). }
  unfold installs. rewrite plan_rules. destruct (buildIPRules_ruled c proofs) as (seen & rules & HU & EP).
  destruct (buildProofPlan_spec c routes) as [_ HZ].
  assert (Hlo : 10010 <= rp_RulePriority p) by (destruct (pz_range _ _ _ HZ p Hp) as [[_ Hm]|]; [by apply lookup_empty_Some in Hm|lia]).
  assert (Hu : usable (callOf p) = true) by (unfold usable; cbn [fst snd callOf]; unfold keyed in Hk; rewrite Hk; cbn; lia).
  assert (Hin : callOf p ∈ callsOf c proofs) by (apply elem_of_app; right; apply elem_of_map; exists p; split; [done|by apply elem_of_filter_b]).
  apply (ru_done _ _ _ HU) in Hin; [|done]. destruct (ru_seen _ _ _ HU _ Hin family Hf) as (r & Hr & EK & EF). cbn [snd] in Hr.
  exists r. rewrite EP. destruct (ru_from _ _ _ HU r Hr) as (x1 & f & Hx & Hux & Hfx & ->). cbn in EK, EF. injection EK as E1 E2.
  split_and!; try done. cbn. apply elem_of_app in Hx as [Hx|(q & -> & [Hq Hnq]%elem_of_filter_b)%elem_of_map].
  - exfalso. destruct (transparentRules c proofs); [|by apply elem_of_nil in Hx]. apply list_elem_of_singleton in Hx as ->. cbn in E1. congruence.
  - cbn in *. symmetry. apply (pz_shared _ _ _ HZ); [done..|]. unfold keyOf. by rewrite E1, E2.
Qed.
End Loads.

(** What the category of a service demands of the type of its route: for
    [DIRECT_ONLY] only direct, for [GEO_LOCKED] only what the policy allows. *)
Definition respects (policy : Policy) (svc : Service) (type : string) : Prop :=
  (s_Category svc = "DIRECT_ONLY" -> type = "direct") /\
  (s_Category svc = "GEO_LOCKED" -> (type = "direct" -> GeoLockedAllowDirect policy = true) /\ (type = "zapret" -> GeoLockedAllowZapret policy = true)).

Lemma PathAllowed_respects svc r policy : PathAllowed svc r policy = true -> respects policy svc (r_Type r).
Proof.
  unfold PathAllowed. intros H. split; [intros E|intros E; split; intros ET]; rewrite E in H; try rewrite ET in H; cbn in H.
  - destruct (r_Type r =s "direct") eqn:EQ; [by apply String.eqb_eq|]. done.
  - by destruct (GeoLockedAllowDirect policy).
  - by destruct (GeoLockedAllowZapret policy).
Qed.
Lemma violates_respects policy target svc : overrideViolates policy target svc = false -> respects policy svc target.
Proof.
  unfold overrideViolates. intros [[H1 _]%orb_false_iff H3]%orb_false_iff. split; [intros E|intros E; split; intros ET]; rewrite E in *; try rewrite ET in *; cbn in *.
  - apply negb_false_iff, String.eqb_eq in H1. done.
  - by destruct (GeoLockedAllowDirect policy).
  - by destruct (GeoLockedAllowDirect policy), (GeoLockedAllowZapret policy).
Qed.

(** A name in normal form passes the TSPU normalisation unchanged too. *)
Lemma NormalizeDomain_normal toASCII raw d :
  ascii_stable toASCII -> normalizeDomain toASCII raw = Some d -> NormalizeDomain toASCII d = Some d.
Proof.
  intros HA H. pose proof (normalizeDomain_again _ _ _ HA H) as HN. destruct (normalizeDomain_form _ _ _ H) as (HL & HS & HB & _).
  pose proof (HA _ _ H) as Ha. assert (HT : S.TrimSuffix d "." = d) by (unfold S.TrimSuffix; by rewrite HS).
  unfold normalizeDomain in HN. rewrite HT, (TrimSpace_id d HB), Ha in HN. cbn [mbind option_bind] in HN. rewrite HT, HL in HN.
  unfold NormalizeDomain. rewrite HT, (TrimSpace_id d HB), Ha. cbn [mbind option_bind]. rewrite HT, HL.
  destruct (S.is_empty d); [done|]. destruct (253 <? S.len d); [done|]. destruct (parseIPv4 d); [done|]. cbn [orb] in *.
  by destruct (S.Contains d "*").
Qed.

Section Policies.
Context (toASCII : string -> option string) (HA : ascii_stable toASCII) (parseRequestURI : string -> option URL) (order : list (string * Service)).
Context (c : Config) (HW : wf toASCII parseRequestURI order c) (HO : order ≡ₚ map_to_list (c_Services c)) (HS : separate (c_Services c))
  (HE : c_Services c !! "" = None).
Notation routes := (enabledRoutes c).

Lemma enabled_elem r : r ∈ routes <-> r ∈ c_Routes c /\ Enabled r = true.
Proof. unfold enabledRoutes. by rewrite gosort_perm, elem_of_filter_b. Qed.

(** The domain of a service finds the service, whatever the order. *)
Lemma ServiceForDomain_service name svc d : c_Services c !! name = Some svc -> d ∈ s_Domains svc -> ServiceForDomain order d = name.
Proof.
  intros Hn Hd. destruct (sv_domains _ _ _ _ (wf_services _ _ _ _ HW _ _ Hn)) as [_ HF]. rewrite Forall_forall in HF.
  destruct (HF d Hd) as (raw & Hraw). destruct (normalizeDomain_form _ _ _ Hraw) as (HL & HX & _).
  assert (HT : S.TrimSuffix (S.ToLower d) "." = d) by (rewrite HL; unfold S.TrimSuffix; by rewrite HX).
  assert (HM : domainMatches d svc = true) by (apply any_true; exists d; split; [done|]; cbv zeta; by rewrite HT, String.eqb_refl).
  unfold ServiceForDomain. rewrite HT. destruct (first _ order) as [[m svc']|] eqn:EF.
  - apply first_Some in EF as [Hin Hm]. rewrite HO, elem_of_map_to_list in Hin. by apply (HS m svc' name svc d).
  - assert (Hin : (name, svc) ∈ order) by (rewrite HO; by apply elem_of_map_to_list).
    pose proof (first_None _ _ _ EF Hin) as Hf. simpl in Hf. congruence.
Qed.

(** The domains the policies are made of, each with its service. *)
Definition source (d name : string) : Prop := normal toASCII d /\ ServiceForDomain order d = name.

Lemma service_source name svc d : c_Services c !! name = Some svc -> d ∈ s_Domains svc -> source d name.
Proof.
  intros Hn Hd. split; [|by eapply ServiceForDomain_service]. destruct (sv_domains _ _ _ _ (wf_services _ _ _ _ HW _ _ Hn)) as [_ HF].
  rewrite Forall_forall in HF. by apply HF.
Qed.
Lemma sources e : e ∈ serviceDomains c ++ overrideDomains order c -> source e.1.1 e.1.2.
Proof.
  intros [He|He]%elem_of_app.
  - unfold serviceDomains in He. apply list_elem_of_In, in_flat_map in He as (name & Hname & He). apply list_elem_of_In in He.
    apply elem_of_map in He as (d & -> & Hd). rewrite gosort_perm in Hd. cbn. unfold serviceAt in Hd.
    destruct (c_Services c !! name) as [svc|] eqn:E; [by eapply service_source|by apply elem_of_nil in Hd].
  - unfold overrideDomains in He. apply list_elem_of_In, in_flat_map in He as (o & Hov & He). apply list_elem_of_In in Hov.
    destruct (o_Scope o =s "exact_domain") eqn:ES; [|done]. destruct He as [<-|[]]. cbn. split; [|done].
    destruct (wf_overrides _ _ _ _ HW) as [HF _]. rewrite Forall_forall in HF. destruct (HF o Hov) as (_ & (sel & Hsel) & _).
    pose proof (wf_override_domains _ _ _ _ HW) as HD. rewrite Forall_forall in HD. apply (HD o Hov). intros Ed.
    unfold selectorOf, validateOverrideSelector in Hsel. rewrite ES, Ed in Hsel. done.
Qed.

Lemma matchScopes_Some overrides normalized device name category l : forall m, matchScopes overrides normalized device name category l = Some m ->
  exists scope, mr_Override m ∈ overrides /\ o_Scope (mr_Override m) = scope /\ scopeMatches scope normalized device name category (mr_Override m) = true.
Proof.
  induction l as [|scope l IH]; intros m; cbn [matchScopes]; [done|]. destruct (first _ overrides) as [o|] eqn:EF; [|apply IH].
  intros [= <-]. apply first_Some in EF as [Ho [E1 E2]%andb_true_iff]. exists scope. split; [done|]. split; [by apply String.eqb_eq|done].
Qed.

(** A matching override targets the route, and its target was checked against the
    service of the domain. *)
Lemma matched_safe d name m : source d name ->
  Match toASCII (Some c) d "" name (s_Category (serviceAt (c_Services c) name)) = Ok (Some m) ->
  mr_Override m ∈ c_Overrides c /\
  forall target, overrideTarget c (mr_Override m) = Some target -> respects (c_Policy c) (serviceAt (c_Services c) name) target.
Proof.
  intros [(raw & Hraw) HN] H. unfold Match in H. rewrite (NormalizeDomain_normal _ _ _ HA Hraw) in H. cbn [normalizeDevice S.TrimSpace mbind result_bind] in H.
  change (normalizeDevice "") with (Ok "") in H. cbn [mbind result_bind] in H. injection H as H.
  set (svc := serviceAt (c_Services c) name) in *.
  assert (HM : exists scope, mr_Override m ∈ c_Overrides c /\ o_Scope (mr_Override m) = scope /\
     scopeMatches scope d "" name (s_Category svc) (mr_Override m) = true).
  { by eapply (matchScopes_Some _ _ _ _ _ scopes). }
  destruct HM as (scope & Ho & ES & HM). split; [done|]. intros target HT. set (o := mr_Override m) in *.
  destruct (wf_overrides _ _ _ _ HW) as [HF _]. rewrite Forall_forall in HF. destruct (HF o Ho) as (_ & _ & t & Ht & _ & HV).
  assert (t = target) as -> by congruence. unfold validateOverrideSafety in HV. cbv zeta in HV. rewrite ES in HV. apply negb_true_iff in HV.
  unfold scopeMatches in HM.
  assert (HZ : s_Category svc = "" -> respects (c_Policy c) svc target) by (intros E; split; rewrite E; done).
  destruct (scope =s "exact_domain") eqn:E1.
  { apply String.eqb_eq in E1, HM. rewrite E1, HM, HN in HV. cbn in HV. destruct (S.is_empty name) eqn:EN.
    - apply String.eqb_eq in EN. apply HZ. unfold svc, serviceAt. by rewrite EN, HE.
    - apply violates_respects. rewrite any_false in HV. apply HV. left. }
  destruct (scope =s "device_domain") eqn:E2; [done|]. destruct (scope =s "device_service") eqn:E3; [done|].
  destruct (scope =s "service") eqn:E4.
  { apply String.eqb_eq in E4. apply andb_true_iff in HM as [_ HM]. apply String.eqb_eq in HM. rewrite E4, HM in HV. cbn in HV.
    apply violates_respects. cbn in HV. by rewrite orb_false_r in HV. }
  destruct (scope =s "category") eqn:E5; [|done]. apply String.eqb_eq in E5. apply andb_true_iff in HM as [HM1 HM]. apply String.eqb_eq in HM. rewrite E5 in HV. cbn in HV.
  unfold svc, serviceAt in *. destruct (c_Services c !! name) as [s|] eqn:En; [|done]. cbn in *. rewrite any_false in HV. apply violates_respects, HV.
  apply elem_of_filter_b. split; [|by rewrite HM, String.eqb_refl]. apply elem_of_map. exists (name, s). split; [done|]. rewrite HO. by apply elem_of_map_to_list.
Qed.

Lemma selected_target m r target : SelectRoute m routes = Some r -> overrideTarget c (mr_Override m) = Some target -> r ∈ routes /\ r_Type r = target.
Proof.
  unfold SelectRoute, overrideTarget, S.is_empty. destruct (o_RouteTag (mr_Override m) =s "") eqn:ET.
  - apply String.eqb_eq in ET. intros H [= <-]. apply first_Some in H as [Hr [H1 H2]%andb_true_iff]. rewrite gosort_perm in Hr.
    apply String.eqb_eq in H1. done.
  - intros H HT. apply first_Some in H as [Hr [H1 H2]%andb_true_iff]. split; [done|]. apply String.eqb_eq in H1. cbn [negb] in *.
    apply bind_Some in HT as (r' & HR & HT). destruct (negb (Enabled r')); [done|]. destruct (_ && _) in HT; [done|]. injection HT as <-.
    apply first_Some in HR as [Hr' E]. apply String.eqb_eq in E. apply enabled_elem in Hr as [Hr _].
    pose proof (unique_key r_Tag (c_Routes c) r r' (wf_tags _ _ _ _ HW) Hr Hr') as HU. f_equal. apply HU. congruence.
Qed.

Lemma selectRoute_spec svc : let r := selectRoute c svc routes in
  r ∈ routes /\ (PathAllowed svc r (c_Policy c) = true \/ r_Type r = "drop").
Proof.
  cbv zeta. unfold selectRoute. destruct (if S.is_empty _ then None else _) as [r|] eqn:E1.
  { destruct (S.is_empty _); [done|]. apply first_Some in E1 as [Hr [_ HP]%andb_true_iff]. auto. }
  destruct (first (fun path => any _ routes) _) as [path|] eqn:E2.
  { apply first_Some in E2 as [_ HP]. destruct (first (fun r => (r_Type r =s path) && PathAllowed svc r (c_Policy c)) routes) as [r|] eqn:E3; simpl.
    - apply first_Some in E3 as [Hr [_ H]%andb_true_iff]. auto.
    - exfalso. apply any_true in HP as (r & Hr & HP). pose proof (first_None _ _ _ E3 Hr). cbv beta in *. congruence. }
  destruct (first (fun r => r_Type r =s "drop") routes) as [r|] eqn:E3.
  - apply first_Some in E3 as [Hr H]. apply String.eqb_eq in H. auto.
  - exfalso. destruct (wf_drop _ _ _ _ HW) as (r & Hr & HEn & Ht). pose proof (first_None _ _ r E3) as H. cbv beta in H. rewrite Ht in H.
    rewrite String.eqb_refl in H. by specialize (H (proj2 (enabled_elem r) (conj Hr HEn))).
Qed.

(** A policy keeps the rules of the service its domain belongs to. *)
Record permitted (p : domainPolicy) : Prop := {
  pm_service : po_ServiceName p = ServiceForDomain order (po_Domain p);
  pm_route : po_Route p ∈ routes;
  pm_allowed : po_OverrideID p = "" ->
    PathAllowed (serviceAt (c_Services c) (po_ServiceName p)) (po_Route p) (c_Policy c) = true \/ r_Type (po_Route p) = "drop";
  pm_override : po_OverrideID p <> "" -> exists o, o ∈ c_Overrides c /\ o_ID o = po_OverrideID p /\ overrideTarget c o = Some (r_Type (po_Route p));
  pm_category : r_Type (po_Route p) <> "drop" ->
    respects (c_Policy c) (serviceAt (c_Services c) (po_ServiceName p)) (r_Type (po_Route p))
}.

Lemma policyFor_permitted d name exact p : source d name -> policyFor toASCII c routes d name exact = Ok p ->
  permitted p /\ po_Domain p = d /\ po_ServiceName p = name.
Proof.
  intros HSrc H. unfold policyFor in H. cbv zeta in H. ok_steps H. destruct x as [m|].
  - destruct (SelectRoute m routes) as [r|] eqn:ER; [|done]. injection H as <-. split; [|done].
    destruct (matched_safe d name m HSrc G) as [Ho HM]. destruct (wf_overrides _ _ _ _ HW) as [HF _]. rewrite Forall_forall in HF.
    destruct (HF _ Ho) as (HID & _ & target & HT & _). destruct (selected_target m r target ER HT) as [Hr <-].
    constructor; cbn; [by destruct HSrc as [_ ->]|done| | |intros _; by apply HM].
    + intros E. by rewrite E in HID.
    + intros _. by exists (mr_Override m).
  - injection H as <-. split; [|done]. destruct (selectRoute_spec (serviceAt (c_Services c) name)) as [Hr HP].
    constructor; cbn; [by destruct HSrc as [_ ->]|done|done|done|]. intros Hnd. destruct HP as [HP|HP]; [by apply PathAllowed_respects|done].
Qed.

Lemma addPolicies_spec l : forall seen policies seen', (forall e, e ∈ l -> source e.1.1 e.1.2) ->
  addPolicies toASCII c routes seen l = Ok (policies, seen') ->
  NoDup (map po_Domain policies) /\ (forall p, p ∈ policies -> permitted p /\ po_Domain p ∉ seen) /\
  (forall e, e ∈ l -> e.1.1 ∈ seen \/ exists p, p ∈ policies /\ po_Domain p = e.1.1).
Proof.
  induction l as [|[[d name] exact] l IH]; intros seen policies seen' HL H; cbn [addPolicies] in H.
  { injection H as <- <-. split; [constructor|]. split; by nothing_in. }
  assert (HL' : forall e, e ∈ l -> source e.1.1 e.1.2) by (intros e He; apply HL; by right).
  destruct (bool_decide (d ∈ seen)) eqn:ED.
  - apply bool_decide_eq_true in ED. destruct (IH _ _ _ HL' H) as (H1 & H2 & H3). split; [done|]. split; [done|].
    intros e [->|He]%elem_of_cons; [by left|by apply H3].
  - apply bool_decide_eq_false in ED. ok_steps H. destruct x0 as [more s']. injection H as <- <-.
    destruct (IH _ _ _ HL' G0) as (H1 & H2 & H3). destruct (policyFor_permitted d name exact x) as (HP & Hd & _); [apply (HL (d, name, exact)); left|done|].
    split; [|split].
    + cbn [map]. constructor; [|done]. rewrite Hd. intros (q & E & Hq)%elem_of_map. destruct (H2 q Hq) as [_ Hn]. rewrite <- E in Hn. set_solver.
    + intros q [->|Hq]%elem_of_cons; [by rewrite Hd|]. destruct (H2 q Hq) as [HPq Hn]. split; [done|set_solver].
    + intros e [->|He]%elem_of_cons; [right; exists x; split; [left|done]|]. destruct (H3 e He) as [Hin|(q & Hq & Eq)].
      * apply elem_of_union in Hin as [->%elem_of_singleton|?]; [right; exists x; split; [left|done]|by left].
      * right. exists q. split; [by right|done].
Qed.

(** The domains are routed as their services demand.  Every domain of a
    service and every domain with an override of its own gets exactly one policy,
    under the service it belongs to; the route of a policy is an enabled route of the
    configuration; without an override it is on a path the service allows, or DROP;
    with one it is the target of an override of the configuration; and in both cases
    a route other than DROP respects the category: direct only for a DIRECT_ONLY
    service, neither direct nor Zapret for a GEO_LOCKED one unless the policy says
    so. *)
Theorem policies_respect_services policies : buildDomainPolicies toASCII order c routes = Ok policies ->
  NoDup (map po_Domain policies) /\ Forall permitted policies /\
  (forall name svc d, c_Services c !! name = Some svc -> d ∈ s_Domains svc ->
     exists p, p ∈ policies /\ po_Domain p = d /\ po_ServiceName p = name) /\
  (forall o, o ∈ c_Overrides c -> o_Scope o = "exact_domain" -> exists p, p ∈ policies /\ po_Domain p = o_Domain o).
Proof.
  unfold buildDomainPolicies. intros H. ok_steps H. destruct x as [l seen']. injection H as <-.
  destruct (addPolicies_spec _ _ _ _ sources G) as (H1 & H2 & H3).
  assert (HF : forall e, e ∈ serviceDomains c ++ overrideDomains order c -> exists p, p ∈ gosort policyLess l /\ po_Domain p = e.1.1).
  { intros e He. destruct (H3 e He) as [Hs|(p & Hp & E)]; [set_solver|]. exists p. by rewrite gosort_perm. }
  split_and!.
  - by rewrite (Permutation_map _ (gosort_perm _ _)).
  - apply Forall_forall. intros p Hp. rewrite gosort_perm in Hp. by destruct (H2 p Hp).
  - intros name svc d Hn Hd. destruct (HF (d, name, false)) as (p & Hp & E).
    { apply elem_of_app. left. unfold serviceDomains. apply list_elem_of_In, in_flat_map. exists name. split.
      - apply list_elem_of_In. unfold sortedServiceNames. rewrite gosort_perm. apply elem_of_map. exists (name, svc). split; [done|]. by apply elem_of_map_to_list.
      - apply list_elem_of_In, elem_of_map. exists d. split; [done|]. rewrite gosort_perm. unfold serviceAt. by rewrite Hn. }
    exists p. split; [done|]. split; [done|]. cbn in E. rewrite gosort_perm in Hp. destruct (H2 p Hp) as [HP _]. rewrite (pm_service _ HP), E.
    by eapply ServiceForDomain_service.
  - intros o Ho ES. destruct (HF (o_Domain o, ServiceForDomain order (o_Domain o), true)) as (p & Hp & E); [|by exists p].
    apply elem_of_app. right. unfold overrideDomains. apply list_elem_of_In, in_flat_map. exists o. split; [by apply list_elem_of_In|].
    rewrite ES. by left.
Qed.
End Policies.
