(* ===== verification/ArtifactExamples.v ===== *)
(** * Plans of concrete configurations

    The theorems on plans and policies applied to a small installation, and
    configurations that are accepted but whose plan is not what they mean. *)
From Stdlib Require Import ZArith Lia.
From stdpp Require Import base list strings gmap.
From S2P Require Import Prelude Net Json ZapretProfile Config Override Validation ValidationProofs ValidationStable Artifact.
From S2P Require Import ArtifactProofs.

Open Scope Z_scope.

(** A stand-in for the hash: the text itself, read backwards. *)
Definition ex_hash (s : string) : string := S.rev s.

Definition ex_home (openwrt : OpenWrt) (routes : list Route) (services : gmap string Service) : Config :=
  ex_build openwrt routes services [ mkOverride "o1" "exact_domain" "" "chat.example" "" "" "" "vless-a" ].
Definition ex_services : gmap string Service :=
  {["video" := set_s_Domains ["video.example"; "cdn.video.example"] ex_video;
    "bank" := mkService "DIRECT_ONLY" "" ["bank.example"] ["direct"] [] "" false [] ]}.
Definition ex_site : Config := ex_home ex_openwrt_full ex_routes_full ex_services.
Definition ex_order (c : Config) : list (string * Service) := ex_walk (c_Services c).

Definition ex_binding : Binding := mkBinding "tx-1" "rev-1" "hash-1".
Definition ex_network : NetworkDiagnostics :=
  mkDiagnostics "VERIFIED" "openwrt-ubus" false "eth1" ["br-lan"] "192.0.2.1" "fe80::1" true "tproxy" "VERIFIED" false false (100 * second) (900 * second).
Definition ex_file : diagnosticsFile := DiagnosticsRead ex_network "d1".
Definition ex_generate (c : Config) : result (list domainPolicy * list RouteProof * IPPlan) :=
  generatePlan ex_hash Some (ex_order c) c ex_binding ex_file (200 * second).
Definition planOf (c : Config) : IPPlan :=
  match ex_generate c with Ok (_, _, plan) => plan | Err _ => emptyPlan c ex_binding [] false end.
Definition policiesOf (c : Config) : list domainPolicy := match ex_generate c with Ok (policies, _, _) => policies | Err _ => [] end.
Definition requiredOf (c : Config) : list RouteProof := match ex_generate c with Ok (_, required, _) => required | Err _ => [] end.
Definition ex_validates (c : Config) : bool := match ex_validate ex_walk c with Ok _ => true | Err _ => false end.

Example site_plan :
  pn_DeploymentReady (planOf ex_site) = true /\
  map (fun r => (ip_Family r, ip_Table r, ip_Type r, ip_Via r)) (pn_Routes (planOf ex_site))
    = [("ipv4", 100, "unicast", "192.0.2.1"); ("ipv6", 100, "unicast", "fe80::1"); ("ipv4", 101, "unicast", "192.0.2.1"); ("ipv6", 101, "unicast", "fe80::1");
       ("ipv4", 102, "local", ""); ("ipv6", 102, "local", "")] /\
  map (fun r => (ir_Family r, ir_Priority r, ir_Mark r, ir_Table r)) (pn_IPRules (planOf ex_site))
    = [("ipv4", 10000, "0x31", 102); ("ipv6", 10000, "0x31", 102); ("ipv4", 10010, "0x10", 100); ("ipv6", 10010, "0x10", 100);
       ("ipv4", 10020, "0x20", 101); ("ipv6", 10020, "0x20", 101); ("ipv4", 10030, "0x30", 102); ("ipv6", 10030, "0x30", 102)] /\
  map (fun p => (po_Domain p, r_Tag (po_Route p))) (policiesOf ex_site)
    = [("chat.example", "vless-a"); ("cdn.video.example", "vless-b"); ("bank.example", "direct"); ("video.example", "vless-b")] /\
  map (fun p => (rp_Tag p, rp_RulePriority p)) (requiredOf ex_site) = [("direct", 10010); ("vless-a", 10030); ("vless-b", 10030)].
Proof. split_and!; vm_compute; reflexivity. Qed.

Lemma ex_site_valid : ex_validate ex_walk ex_site = Ok ex_site.
Proof. vm_compute. reflexivity. Qed.
Lemma ex_site_wf : wf Some ex_parse (ex_order ex_site) ex_site.
Proof. exact (validated_wf _ _ _ _ _ _ _ _ ex_walks ex_site_valid). Qed.

(** The routes of the site, for the assumptions of the theorems. *)
Lemma ex_site_routes r : r ∈ enabledRoutes ex_site -> r ∈ ex_routes_full.
Proof. intros [Hr _]%(elem_of_enabled ex_site). exact Hr. Qed.
Ltac site_route H := apply ex_site_routes in H; repeat (apply elem_of_cons in H as [->|H]); [..|by apply elem_of_nil in H].
Lemma ex_site_separated : separated ex_site.
Proof. intros r r' Hr Hr'. site_route Hr; site_route Hr'; by vm_compute. Qed.
Lemma ex_site_distinctIDs : distinctIDs ex_site ex_hash.
Proof. intros r r' Hr Hr'. site_route Hr; site_route Hr'; by vm_compute. Qed.
Lemma ex_site_generated : ex_generate ex_site = Ok (policiesOf ex_site, requiredOf ex_site, planOf ex_site).
Proof. vm_compute. reflexivity. Qed.

Lemma generated_plan_loads_witness :
  pn_DeploymentReady (planOf ex_site) = true /\ checkIPPlan ex_hash (planOf ex_site) ex_binding = Ok (planOf ex_site).
Proof.
  split; [vm_compute; reflexivity|].
  apply (generated_plan_loads Some ex_parse (ex_order ex_site) ex_site ex_site_wf ex_site_separated ex_hash ex_binding ex_file (200 * second)
    (policiesOf ex_site) (requiredOf ex_site)); [exact ex_site_distinctIDs| |exact ex_site_generated].
  by intros d h [= <- <-].
Defined.

Lemma required_proofs_are_installed_witness :
  exists p, p ∈ requiredOf ex_site /\ rp_Tag p = "direct" /\ installs (planOf ex_site) p "ipv6".
Proof.
  pose proof ex_site_generated as HG.
  pose proof (fun p => required_proofs_are_installed Some (ex_order ex_site) ex_site ex_hash ex_binding ex_file
    (200 * second) (policiesOf ex_site) (requiredOf ex_site) (planOf ex_site) p "ipv6" HG) as HI. clear HG.
  destruct (head (requiredOf ex_site)) as [p|] eqn:E; [|by vm_compute in E].
  assert (Hp : p ∈ requiredOf ex_site) by (destruct (requiredOf ex_site); [done|injection E as ->; left]).
  vm_compute in E. injection E as <-. eexists. split; [exact Hp|]. split; [reflexivity|]. apply (HI _ Hp); [reflexivity..| |by vm_compute]. change ("ipv6" ∈ ["ipv4"; "ipv6"]). in_list.
Defined.

(** Hosts of two services end differently. *)
Lemma prefix_compare p q s : String.prefix p s = true -> String.prefix q s = true -> String.prefix p q = true \/ String.prefix q p = true.
Proof.
  revert q s. induction p as [|c p IH]; intros q s Hp Hq; [left; by destruct q|]. destruct q as [|d q]; [by right|]. destruct s as [|e s]; [done|].
  cbn [String.prefix] in *. destruct (Ascii.ascii_dec c e) as [->|]; [|done]. destruct (Ascii.ascii_dec d e) as [->|]; [|done].
  destruct (Ascii.ascii_dec e e); [|done]. by apply (IH q s).
Qed.
Lemma domainMatches_suffix host svc : domainMatches host svc = true ->
  exists d, d ∈ s_Domains svc /\ String.prefix (S.rev (S.TrimSuffix (S.ToLower d) ".")) (S.rev host) = true.
Proof.
  intros (d & Hd & H)%any_true. exists d. split; [done|]. cbv zeta in H. apply orb_true_iff in H as [H|H].
  - apply String.eqb_eq in H as ->. generalize (S.rev (S.TrimSuffix (S.ToLower d) ".")). intros t. induction t as [|c t IH]; [done|]. cbn.
    by destruct (Ascii.ascii_dec c c).
  - unfold S.HasSuffix in H. revert H. generalize (S.TrimSuffix (S.ToLower d) "."). intros t. change ("." +:+ t) with (String S.dot t).
    rewrite rev_cons. generalize (S.rev t) (S.rev host). clear. intros p s. revert s.
    induction p as [|c p IH]; intros s; [by destruct s|]. destruct s as [|e s]; [done|]. cbn. destruct (Ascii.ascii_dec c e); [apply IH|done].
Qed.
Lemma apart_separate (services : gmap string Service) :
  (forall n svc m svc' d d', services !! n = Some svc -> services !! m = Some svc' -> d ∈ s_Domains svc -> d' ∈ s_Domains svc' -> n <> m ->
     let p := S.rev (S.TrimSuffix (S.ToLower d) ".") in let q := S.rev (S.TrimSuffix (S.ToLower d') ".") in
     String.prefix p q || String.prefix q p = false) -> separate services.
Proof.
  intros HA n svc m svc' host Hn Hm H H'. destruct (decide (n = m)) as [|Hne]; [done|]. exfalso.
  apply domainMatches_suffix in H as (d & Hd & Hp), H' as (d' & Hd' & Hq). pose proof (HA _ _ _ _ d d' Hn Hm Hd Hd' Hne) as HF. cbv zeta in HF.
  apply orb_false_iff in HF as [H1 H2]. destruct (prefix_compare _ _ _ Hp Hq); congruence.
Qed.
Lemma ex_services_cases n svc : ex_services !! n = Some svc ->
  n = "video" /\ s_Domains svc = ["video.example"; "cdn.video.example"] \/ n = "bank" /\ s_Domains svc = ["bank.example"].
Proof.
  intros H. apply elem_of_map_to_list in H. vm_compute in H.
  repeat (apply elem_of_cons in H as [H|H]; [injection H as -> ->; auto|]). by apply elem_of_nil in H.
Qed.
Lemma ex_site_separate : separate (c_Services ex_site).
Proof.
  apply apart_separate. intros n svc m svc' d d' [[-> ES]|[-> ES]]%ex_services_cases [[-> ES']|[-> ES']]%ex_services_cases Hd Hd' Hne; try done;
    rewrite ES in Hd; rewrite ES' in Hd';
    repeat (apply elem_of_cons in Hd as [->|Hd]; [|]); try (by apply elem_of_nil in Hd);
    repeat (apply elem_of_cons in Hd' as [->|Hd']; [|]); try (by apply elem_of_nil in Hd'); vm_compute; reflexivity.
Qed.

Lemma policies_respect_services_witness :
  NoDup (map po_Domain (policiesOf ex_site)) /\ Forall (permitted (ex_order ex_site) ex_site) (policiesOf ex_site) /\
  exists p, p ∈ policiesOf ex_site /\ po_Domain p = "bank.example" /\ po_ServiceName p = "bank".
Proof.
  assert (HB : buildDomainPolicies Some (ex_order ex_site) ex_site (enabledRoutes ex_site) = Ok (policiesOf ex_site)) by (vm_compute; reflexivity).
  pose proof (policies_respect_services Some ex_stable ex_parse (ex_order ex_site) ex_site ex_site_wf (ex_walks _) ex_site_separate eq_refl
    (policiesOf ex_site) HB) as (H1 & H2 & H3 & _).
  split; [exact H1|]. split; [exact H2|].
  apply (H3 "bank" (mkService "DIRECT_ONLY" "" ["bank.example"] ["direct"] [] "" false []) "bank.example"); [reflexivity|left].
Defined.

(** ** Configurations whose plan is not what they mean *)

(** The validation compares marks with tables but not tables with each other: Xray
    may share its table with the WAN.  The plan is written as ready and refused when
    it is read back. *)
Definition ex_shared : Config :=
  ex_home (Build_OpenWrt "openwrt" "router_policy" "inet" "" "" 100 101 100 "0x10" "0x20" "0x30" "0x31" "0x32" "0x40" "disable" 10 120) ex_routes_full ex_services.
Theorem shared_table_is_refused :
  ex_validates ex_shared = true /\ pn_DeploymentReady (planOf ex_shared) = true /\
  checkIPPlan ex_hash (planOf ex_shared) ex_binding = Err "duplicate ip route family/table".
Proof. split_and!; vm_compute; reflexivity. Qed.

(** The identifiers of routes ignore the case of their tags, the check of duplicate
    tags does not: the plan of two routes [vless-a] and [VLESS-A], both in use, is
    refused when it is read back. *)
Definition ex_cases : Config :=
  ex_home ex_openwrt_full (ex_route "vless" "VLESS-A" 22 "1.1.1.1:53" "127.0.0.1:11082" "socks_remote" "" :: ex_routes_full)
    {["video" := mkService "GEO_LOCKED" "" ["video.example"] ["vless"; "drop"] ["direct"] "VLESS-A" true [] ]}.
Theorem tags_differing_in_case_collide :
  ex_validates ex_cases = true /\ pn_DeploymentReady (planOf ex_cases) = true /\
  checkIPPlan ex_hash (planOf ex_cases) ex_binding = Err "duplicate or invalid Xray DNS proxy identity".
Proof. split_and!; vm_compute; reflexivity. Qed.

(** A BLOCKED service is to be dropped whatever its paths say; the data plane sends
    its domains along the first allowed path. *)
Definition ex_blocked : Config :=
  ex_build ex_openwrt_full ex_routes_full {["ads" := mkService "BLOCKED" "" ["ads.example"] ["direct"] [] "" false [] ]} [].
Theorem blocked_service_goes_direct :
  ex_validates ex_blocked = true /\ pn_DeploymentReady (planOf ex_blocked) = true /\
  map (fun p => (po_Domain p, r_Type (po_Route p))) (policiesOf ex_blocked) = [("ads.example", "direct")].
Proof. split_and!; vm_compute; reflexivity. Qed.

(** A route of type [tg_ws_proxy] is valid, and its plan is blocked. *)
Definition ex_telegram : Config :=
  ex_build ex_openwrt_full (ex_route "tg_ws_proxy" "tg" 30 "1.1.1.1:53" "127.0.0.1:11090" "socks_remote" "" :: ex_routes_full) ex_services [].
Theorem telegram_proxy_blocks_the_plan :
  ex_validates ex_telegram = true /\ pn_BlockReason (planOf ex_telegram) = "route_table_not_configured".
Proof. split_and!; vm_compute; reflexivity. Qed.
