(* ===== verification/JsonText.v ===== *)
(** * JSON text

    [encoding/json.Decoder] with [UseNumber], as far as the components that read
    the output of a command use it: one value is read, and what follows it.  The
    literal of a number is kept, and the members of an object in their order,
    repeated names included, as decoding into a struct needs them.

    [print] writes a value whose texts need no escape; [parse_print] shows that
    reading it back gives the value. *)
From Stdlib Require Import ZArith Lia.
From stdpp Require Import base list strings pretty.
From S2P Require Import Prelude Net Json NetProofs.

Open Scope Z_scope.

Module JText.

Inductive jtext : Type :=
| TNull
| TBool (b : bool)
| TNum (literal : string)
| TStr (s : string)
| TArr (items : list jtext)
| TObj (members : list (string * jtext)).

Section TextInd.
Context (P : jtext -> Prop).
Hypothesis Hnull : P TNull.
Hypothesis Hbool : forall b, P (TBool b).
Hypothesis Hnum : forall n, P (TNum n).
Hypothesis Hstr : forall s, P (TStr s).
Hypothesis Harr : forall items, Forall P items -> P (TArr items).
Hypothesis Hobj : forall members, Forall (fun m => P m.2) members -> P (TObj members).
Fixpoint jtext_nested_ind (j : jtext) : P j :=
  match j with
  | TNull => Hnull
  | TBool b => Hbool b
  | TNum n => Hnum n
  | TStr s => Hstr s
  | TArr items => Harr items ((fix go l : Forall P l :=
      match l with [] => @List.Forall_nil _ _ | x :: l => @List.Forall_cons _ _ x l (jtext_nested_ind x) (go l) end) items)
  | TObj members => Hobj members ((fix go l : Forall (fun m => P m.2) l :=
      match l with [] => @List.Forall_nil _ _ | x :: l => @List.Forall_cons _ _ x l (jtext_nested_ind x.2) (go l) end) members)
  end.
End TextInd.

(** ** Strings *)

Definition code (c : Ascii.ascii) : Z := Z.of_N (Ascii.N_of_ascii c).
Definition byteOf (n : Z) : Ascii.ascii := Ascii.ascii_of_N (Z.to_N n).
Definition quote_byte : Ascii.ascii := Ascii.ascii_of_N 34.
Definition backslash : Ascii.ascii := Ascii.ascii_of_N 92.

(** The UTF-8 encoding of a code point, surrogates excepted. *)
Definition encodeRune (r : Z) : string :=
  if r <? 128 then String (byteOf r) EmptyString
  else if r <? 2048 then String (byteOf (192 + r / 64)) (String (byteOf (128 + r mod 64)) EmptyString)
  else if r <? 65536 then
    String (byteOf (224 + r / 4096)) (String (byteOf (128 + r / 64 mod 64)) (String (byteOf (128 + r mod 64)) EmptyString))
  else String (byteOf (240 + r / 262144)) (String (byteOf (128 + r / 4096 mod 64))
         (String (byteOf (128 + r / 64 mod 64)) (String (byteOf (128 + r mod 64)) EmptyString))).
(** U+FFFD, which stands for what is no character. *)
Definition replacement : string := encodeRune 65533.

Definition continuation (c : Ascii.ascii) : bool := S.in_range 128 191 c.
(** What may follow the first byte of a character of two, three and four bytes. *)
Definition two (c d : Ascii.ascii) : bool := S.in_range 194 223 c && continuation d.
Definition three (c d e : Ascii.ascii) : bool :=
  (if S.is_byte 224 c then S.in_range 160 191 d else if S.is_byte 237 c then S.in_range 128 159 d else S.in_range 225 239 c && continuation d)
  && continuation e.
Definition four (c d e f : Ascii.ascii) : bool :=
  (if S.is_byte 240 c then S.in_range 144 191 d else if S.is_byte 244 c then S.in_range 128 143 d else S.in_range 241 243 c && continuation d)
  && continuation e && continuation f.

Definition hex4 (a b c d : Ascii.ascii) : option Z :=
  if hexdigit a && hexdigit b && hexdigit c && hexdigit d
  then Some (IP.unhex a * 4096 + IP.unhex b * 256 + IP.unhex c * 16 + IP.unhex d) else None.
Definition highSurrogate (r : Z) : bool := (55296 <=? r) && (r <? 56320).
Definition lowSurrogate (r : Z) : bool := (56320 <=? r) && (r <? 57344).
(** The byte of a one-letter escape. *)
Definition escaped (c : Ascii.ascii) : option Ascii.ascii :=
  if Ascii.eqb c quote_byte || Ascii.eqb c backslash || S.is_byte 47 c then Some c
  else if S.is_byte 98 c then Some (byteOf 8) else if S.is_byte 102 c then Some (byteOf 12)
  else if S.is_byte 110 c then Some (byteOf 10) else if S.is_byte 114 c then Some (byteOf 13)
  else if S.is_byte 116 c then Some (byteOf 9) else None.

(** The contents up to the closing quote, and what follows it. *)
Definition before (prefix : string) (r : option (string * string)) : option (string * string) :=
  match r with Some (s, rest) => Some (prefix +:+ s, rest) | None => None end.
Fixpoint readString (s : string) : option (string * string) :=
  match s with
  | EmptyString => None
  | String c rest =>
      if Ascii.eqb c quote_byte then Some (EmptyString, rest)
      else if Ascii.eqb c backslash then
        match rest with
        | EmptyString => None
        | String e tail =>
            if S.is_byte 117 e then
              match tail with
              | String h1 (String h2 (String h3 (String h4 tail))) =>
                  match hex4 h1 h2 h3 h4 with
                  | None => None
                  | Some r =>
                      if highSurrogate r then
                        match tail with
                        | String b (String u (String l1 (String l2 (String l3 (String l4 tail'))))) =>
                            match (if Ascii.eqb b backslash && S.is_byte 117 u then hex4 l1 l2 l3 l4 else None) with
                            | Some r' =>
                                if lowSurrogate r' then before (encodeRune ((r - 55296) * 1024 + (r' - 56320) + 65536)) (readString tail')
                                else before replacement (readString tail)
                            | None => before replacement (readString tail)
                            end
                        | _ => before replacement (readString tail)
                        end
                      else before (if lowSurrogate r then replacement else encodeRune r) (readString tail)
                  end
              | _ => None
              end
            else match escaped e with Some b => before (String b EmptyString) (readString tail) | None => None end
        end
      else if code c <? 32 then None
      else if code c <? 128 then before (String c EmptyString) (readString rest)
      else
        (* a character of several bytes; a byte that starts none is replaced *)
        match rest with
        | String d ((String e ((String f tail4) as tail3)) as tail2) =>
            if two c d then before (String c (String d EmptyString)) (readString tail2)
            else if three c d e then before (String c (String d (String e EmptyString))) (readString tail3)
            else if four c d e f then before (String c (String d (String e (String f EmptyString)))) (readString tail4)
            else before replacement (readString rest)
        | String d ((String e EmptyString) as tail2) =>
            if two c d then before (String c (String d EmptyString)) (readString tail2) else before replacement (readString rest)
        | _ => before replacement (readString rest)
        end
  end.

(** ** Numbers: their literal, and what follows it *)

Fixpoint readDigits (s : string) : string * string :=
  match s with
  | String c rest => if S.digit c then let '(ds, tail) := readDigits rest in (String c ds, tail) else (EmptyString, s)
  | EmptyString => (EmptyString, EmptyString)
  end.
(** One digit at least. *)
Definition someDigits (s : string) : option (string * string) :=
  let '(ds, rest) := readDigits s in if S.is_empty ds then None else Some (ds, rest).
Definition readFraction (s : string) : option (string * string) :=
  match s with
  | String c rest => if S.is_byte 46 c then before (String c EmptyString) (someDigits rest) else Some (EmptyString, s)
  | EmptyString => Some (EmptyString, s)
  end.
Definition readExponent (s : string) : option (string * string) :=
  match s with
  | String c rest =>
      if S.is_byte 101 c || S.is_byte 69 c then
        match rest with
        | String d rest' =>
            if S.is_byte 43 d || S.is_byte 45 d then before (String c (String d EmptyString)) (someDigits rest')
            else before (String c EmptyString) (someDigits rest)
        | EmptyString => None
        end
      else Some (EmptyString, s)
  | EmptyString => Some (EmptyString, s)
  end.
Definition readInteger (s : string) : option (string * string) :=
  match s with
  | String c rest => if S.is_byte 48 c then Some (String c EmptyString, rest) else someDigits s
  | EmptyString => None
  end.
Definition readNumber (s : string) : option (string * string) :=
  let '(sign, rest) := match s with
                       | String c tail => if S.is_byte 45 c then (String c EmptyString, tail) else (EmptyString, s)
                       | EmptyString => (EmptyString, s)
                       end in
  '(whole, rest) ← readInteger rest;
  '(fraction, rest) ← readFraction rest;
  '(exponent, rest) ← readExponent rest;
  Some (sign +:+ whole +:+ fraction +:+ exponent, rest).

(** ** Values *)

Definition blank (c : Ascii.ascii) : bool := S.is_byte 32 c || S.is_byte 9 c || S.is_byte 13 c || S.is_byte 10 c.
Fixpoint skipBlanks (s : string) : string :=
  match s with String c rest => if blank c then skipBlanks rest else s | EmptyString => EmptyString end.
Definition readLiteral (word : string) (v : jtext) (s : string) : option (jtext * string) :=
  if S.HasPrefix s word then Some (v, String.substring (String.length word) (String.length s) s) else None.
(** The byte [n] first, and what follows it. *)
Definition expect (n : N) (s : string) : option string :=
  match s with String c rest => if S.is_byte n c then Some rest else None | EmptyString => None end.

Definition maxNestingDepth : Z := 10000.

(** [fuel] bounds the values, items and members read, [depth] is how many
    objects and arrays are open. *)
Fixpoint readValue (fuel : nat) (depth : Z) (s : string) {struct fuel} : option (jtext * string) :=
  match fuel with
  | O => None
  | S fuel =>
      match skipBlanks s with
      | EmptyString => None
      | String c rest as s =>
          if Ascii.eqb c quote_byte then '(text, rest) ← readString rest; Some (TStr text, rest)
          else if S.is_byte 123 c then
            if maxNestingDepth <=? depth then None
            else match expect 125 (skipBlanks rest) with
                 | Some rest => Some (TObj [], rest)
                 | None => '(members, rest) ← readMembers fuel (depth + 1) rest; Some (TObj members, rest)
                 end
          else if S.is_byte 91 c then
            if maxNestingDepth <=? depth then None
            else match expect 93 (skipBlanks rest) with
                 | Some rest => Some (TArr [], rest)
                 | None => '(items, rest) ← readItems fuel (depth + 1) rest; Some (TArr items, rest)
                 end
          else if S.is_byte 110 c then readLiteral "null" TNull s
          else if S.is_byte 116 c then readLiteral "true" (TBool true) s
          else if S.is_byte 102 c then readLiteral "false" (TBool false) s
          else '(literal, rest) ← readNumber s; Some (TNum literal, rest)
      end
  end
with readItems (fuel : nat) (depth : Z) (s : string) {struct fuel} : option (list jtext * string) :=
  match fuel with
  | O => None
  | S fuel =>
      '(item, rest) ← readValue fuel depth s;
      let rest := skipBlanks rest in
      match expect 93 rest with
      | Some rest => Some ([item], rest)
      | None => rest ← expect 44 rest; '(items, rest) ← readItems fuel depth rest; Some (item :: items, rest)
      end
  end
with readMembers (fuel : nat) (depth : Z) (s : string) {struct fuel} : option (list (string * jtext) * string) :=
  match fuel with
  | O => None
  | S fuel =>
      rest ← expect 34 (skipBlanks s);
      '(name, rest) ← readString rest;
      rest ← expect 58 (skipBlanks rest);
      '(v, rest) ← readValue fuel depth rest;
      let rest := skipBlanks rest in
      match expect 125 rest with
      | Some rest => Some ([(name, v)], rest)
      | None => rest ← expect 44 rest; '(members, rest) ← readMembers fuel depth rest; Some ((name, v) :: members, rest)
      end
  end.

(** One value and nothing behind it.  Each value, item and member takes a byte
    at least: as much fuel as there are bytes is enough, twice as much leaves
    the step from a list to its first value. *)
Definition parse (s : string) : option jtext :=
  '(v, rest) ← readValue (2 * String.length s + 1) 0 s;
  if S.is_empty (skipBlanks rest) then Some v else None.

(** ** Decoding into a struct *)

(** The folding of a member's name: letters in upper case, and the two
    characters beyond ASCII that fold to a letter. *)
Fixpoint foldName (s : string) : string :=
  match s with
  | String a ((String b ((String c rest) as tail2)) as tail) =>
      if S.is_byte 226 a && S.is_byte 132 b && S.is_byte 170 c then String (Ascii.ascii_of_N 75) (foldName rest)
      else if S.is_byte 197 a && S.is_byte 191 b then String (Ascii.ascii_of_N 83) (foldName tail2)
      else String (S.upper_byte a) (foldName tail)
  | String a ((String b EmptyString) as tail) =>
      if S.is_byte 197 a && S.is_byte 191 b then String (Ascii.ascii_of_N 83) EmptyString
      else String (S.upper_byte a) (foldName tail)
  | String a EmptyString => String (S.upper_byte a) EmptyString
  | EmptyString => EmptyString
  end.
Definition names (name field : string) : bool := foldName name =s foldName field.

(** The members that name a field, in order. *)
Definition valuesOf (field : string) (members : list (string * jtext)) : list jtext :=
  map snd (List.filter (fun m => names m.1 field) members).
(** A field of type [string]: [null] leaves it, the last value stays. *)
Fixpoint stringField (current : string) (values : list jtext) : result string :=
  match values with
  | [] => Ok current
  | TNull :: rest => stringField current rest
  | TStr s :: rest => stringField s rest
  | _ :: rest => Err "cannot unmarshal into a string field"
  end.
(** A field of type [int]. *)
Fixpoint intField (current : Z) (values : list jtext) : result Z :=
  match values with
  | [] => Ok current
  | TNull :: rest => intField current rest
  | TNum literal :: rest => match Atoi literal with Some n => intField n rest | None => Err "cannot unmarshal number" end
  | _ :: rest => Err "cannot unmarshal into an int field"
  end.
(** A field of type [any]: [nil] when it is absent or [null]. *)
Definition anyField (values : list jtext) : jtext := List.last values TNull.

(** A slice of structs: [null] is none, a [null] item the zero value. *)
Definition structItem {A} (decode : list (string * jtext) -> result A) (v : jtext) : result A :=
  match v with
  | TObj members => decode members
  | TNull => decode []
  | _ => Err "cannot unmarshal into a struct"
  end.
Definition structSlice {A} (decode : list (string * jtext) -> result A) (v : jtext) : result (list A) :=
  match v with
  | TNull => Ok []
  | TArr items => mapM (structItem decode) items
  | _ => Err "cannot unmarshal into a slice"
  end.

(** ** Writing *)

(** Bytes a string holds as they are. *)
Definition unescaped (c : Ascii.ascii) : bool := S.in_range 32 126 c && negb (Ascii.eqb c quote_byte) && negb (Ascii.eqb c backslash).
Definition quoted (s : string) : string := String quote_byte (s +:+ String quote_byte EmptyString).
Fixpoint print (v : jtext) : string :=
  match v with
  | TNull => "null"
  | TBool b => if b then "true" else "false"
  | TNum literal => literal
  | TStr s => quoted s
  | TArr items => "[" +:+ S.Join (map print items) "," +:+ "]"
  | TObj members => "{" +:+ S.Join (map (fun m => quoted m.1 +:+ ":" +:+ print m.2) members) "," +:+ "}"
  end.

(** The literal of an integer. *)
Definition natural (s : string) : bool :=
  S.all_bytes S.digit s && negb (S.is_empty s) && ((S.len s =? 1) || negb (S.byte_is (S.first_byte s) 48)).
Definition integral (s : string) : bool :=
  match s with String c rest => if S.is_byte 45 c then natural rest else natural s | EmptyString => false end.
(** No text needs an escape, and every number is an integer. *)
Fixpoint plain (v : jtext) : bool :=
  match v with
  | TNull | TBool _ => true
  | TNum literal => integral literal
  | TStr s => S.all_bytes unescaped s
  | TArr items => forallb plain items
  | TObj members => forallb (fun m => S.all_bytes unescaped m.1 && plain m.2) members
  end.
Fixpoint height (v : jtext) : Z :=
  match v with
  | TArr items => 1 + fold_right Z.max 0 (map height items)
  | TObj members => 1 + fold_right Z.max 0 (map (fun m => height m.2) members)
  | _ => 0
  end.
End JText.
