(* ===== verification/JsonTextProofs.v ===== *)
(** * JSON text: the fuel is enough, and what is printed reads back

    [readValue_enough]: above twice the length of the text, more fuel changes
    nothing.  [parse_print]: the printed form of a value without escapes parses
    to that value. *)
From Stdlib Require Import ZArith Lia.
From stdpp Require Import base list strings pretty.
From S2P Require Import Prelude Net Json NetProofs JsonText.

Open Scope Z_scope.

Module JTextProofs.
Import JText.

(** ** What a reader leaves is shorter *)

Notation size := String.length.

Lemma skipBlanks_size s : (size (skipBlanks s) <= size s)%nat.
Proof. induction s as [|c s IH]; cbn; [lia|]. destruct (blank c); cbn in *; lia. Qed.
Lemma expect_size n s rest : expect n s = Some rest -> size s = S (size rest).
Proof. destruct s as [|c s]; cbn; [done|]. case_match; [|done]. intros [= ->]. done. Qed.
Lemma before_Some p r s rest : before p r = Some (s, rest) -> exists t, r = Some (t, rest) /\ s = p +:+ t.
Proof. destruct r as [[t rest']|]; cbn; [|done]. intros [= <- ->]. eauto. Qed.

Lemma readString_size n : forall s text rest, (size s < n)%nat -> readString s = Some (text, rest) -> (size rest < size s)%nat.
Proof.
  induction n as [|n IH]; intros s text rest Hn H; [lia|].
  destruct s as [|c s]; [done|]. cbn [readString] in H. cbn [size] in *.
  assert (Hs : forall p t, (size t <= size s)%nat -> before p (readString t) = Some (text, rest) -> (size rest < S (size s))%nat).
  { intros p t Ht (x & E & _)%before_Some. apply IH in E; lia. }
  repeat match type of H with
  | Some _ = Some _ => injection H as <- <-; lia
  | None = Some _ => discriminate H
  | before _ (readString ?t) = Some _ => apply (Hs _ t) in H; [exact H|cbn [size]; lia]
  | context [match ?x with _ => _ end] => destruct x; cbn [size] in *
  end.
Qed.

Lemma readDigits_size s ds rest : readDigits s = (ds, rest) -> (size rest + size ds = size s)%nat.
Proof.
  revert ds rest. induction s as [|c s IH]; intros ds rest; cbn; [by intros [= <- <-]|].
  destruct (S.digit c); [|intros [= <- <-]; cbn; lia].
  destruct (readDigits s) as [ds' tail]. intros [= <- <-]. cbn. specialize (IH _ _ eq_refl). lia.
Qed.
Lemma someDigits_size s ds rest : someDigits s = Some (ds, rest) -> (size rest < size s)%nat.
Proof.
  unfold someDigits. destruct (readDigits s) as [ds' rest'] eqn:E. apply readDigits_size in E.
  destruct ds'; cbn; [done|]. intros [= <- <-]. cbn in E. lia.
Qed.
Lemma readFraction_size s t rest : readFraction s = Some (t, rest) -> (size rest <= size s)%nat.
Proof.
  destruct s as [|c s]; cbn; [by intros [= <- <-]|]. case_match; [|intros [= <- <-]; cbn; lia].
  intros (x & E%someDigits_size & _)%before_Some. lia.
Qed.
Lemma readExponent_size s t rest : readExponent s = Some (t, rest) -> (size rest <= size s)%nat.
Proof.
  destruct s as [|c [|d s]]; cbn [readExponent]; [by intros [= <- <-]| |]; (case_match; [|intros [= <- <-]; cbn; lia]); [done|].
  case_match; intros (x & E%someDigits_size & _)%before_Some; cbn in *; lia.
Qed.
Lemma readNumber_size s t rest : readNumber s = Some (t, rest) -> (size rest < size s)%nat.
Proof.
  unfold readNumber. intros H.
  assert (exists sign s', (size s' <= size s)%nat /\
    match s with String c tail => if S.is_byte 45 c then (String c EmptyString, tail) else (EmptyString, s) | EmptyString => (EmptyString, s) end
    = (sign, s')) as (sign & s' & Hs & E).
  { destruct s as [|c s0]; [by exists "", ""|].
    destruct (S.is_byte 45 c); [exists (String c ""), s0|exists "", (String c s0)]; (split; [cbn; lia|done]). }
  rewrite E in H. clear E.
  destruct (readInteger s') as [[whole r1]|] eqn:E1; [|done]. cbn [mbind option_bind] in H.
  destruct (readFraction r1) as [[fr r2]|] eqn:E2; [|done]. cbn [mbind option_bind] in H.
  destruct (readExponent r2) as [[ex r3]|] eqn:E3; [|done]. cbn [mbind option_bind] in H. injection H as <- <-.
  apply readFraction_size in E2. apply readExponent_size in E3.
  assert (size r1 < size s')%nat; [|lia].
  destruct s' as [|c s0]; cbn in E1; [done|]. case_match; [injection E1 as <- <-; cbn; lia|]. by apply someDigits_size in E1.
Qed.
Lemma substring_size n m s : (n + m <= size s)%nat -> size (String.substring n m s) = m.
Proof.
  revert n m. induction s as [|c s IH]; intros [|n] [|m] H; cbn in *; try lia.
  - f_equal. apply IH. lia.
  - apply IH. lia.
  - apply IH. lia.
Qed.
Lemma substring_short n s : forall m, (size (String.substring n m s) <= size s - n)%nat.
Proof. revert n. induction s as [|c s IH]; intros [|n] [|m]; cbn; try lia; [specialize (IH 0%nat m)|specialize (IH n 0%nat)|specialize (IH n (S m))]; lia. Qed.
Lemma readLiteral_size w v s v' rest : w <> "" -> readLiteral w v s = Some (v', rest) -> s <> "" -> (size rest < size s)%nat.
Proof.
  unfold readLiteral. intros Hw. case_match; [|done]. intros [= <- <-] Hs.
  pose proof (substring_short (size w) s (size s)). destruct w; [done|]. destruct s; [done|]. cbn in *. lia.
Qed.

Lemma reads_shorter fuel :
  (forall d s v rest, readValue fuel d s = Some (v, rest) -> (size rest < size s)%nat) /\
  (forall d s l rest, readItems fuel d s = Some (l, rest) -> (size rest < size s)%nat) /\
  (forall d s l rest, readMembers fuel d s = Some (l, rest) -> (size rest < size s)%nat).
Proof.
  induction fuel as [|fuel (IHv & IHi & IHm)]; [done|]. split; [|split]; intros d s v rest H; cbn [readValue readItems readMembers] in H.
  - pose proof (skipBlanks_size s) as Hb. destruct (skipBlanks s) as [|c tail]; [done|].
    assert (Hl : forall w v', w <> "" -> readLiteral w v' (String c tail) = Some (v, rest) -> (size rest < size s)%nat).
    { intros w v' Hw E. apply readLiteral_size in E; [lia|done|done]. }
    pose proof (skipBlanks_size tail) as Ht. cbn [size] in Hb.
    repeat case_match; try done; try (eapply Hl; [|exact H]; done).
    + destruct (readString tail) as [[t r]|] eqn:E; [|done]. injection H as <- <-. apply readString_size with (n := S (size tail)) in E; lia.
    + match goal with E : expect 125 _ = Some _ |- _ => apply expect_size in E end. injection H as <- <-. lia.
    + destruct (readMembers fuel (d + 1) tail) as [[l r]|] eqn:E; [|done]. injection H as <- <-. apply IHm in E. lia.
    + match goal with E : expect 93 _ = Some _ |- _ => apply expect_size in E end. injection H as <- <-. lia.
    + destruct (readItems fuel (d + 1) tail) as [[l r]|] eqn:E; [|done]. injection H as <- <-. apply IHi in E. lia.
    + destruct (readNumber (String c tail)) as [[l r]|] eqn:E; [|done]. injection H as <- <-. apply readNumber_size in E. cbn [size] in E. lia.
  - destruct (readValue fuel d s) as [[x r]|] eqn:E; [|done]. cbn [mbind option_bind] in H. apply IHv in E. pose proof (skipBlanks_size r) as Hr.
    destruct (expect 93 (skipBlanks r)) eqn:E1; [apply expect_size in E1; injection H as <- <-; lia|].
    destruct (expect 44 (skipBlanks r)) as [r2|] eqn:E2; [|done]. cbn [mbind option_bind] in H. apply expect_size in E2.
    destruct (readItems fuel d r2) as [[l r3]|] eqn:E3; [|done]. injection H as <- <-. apply IHi in E3. lia.
  - pose proof (skipBlanks_size s) as Hs.
    destruct (expect 34 (skipBlanks s)) as [r1|] eqn:E1; [|done]. cbn [mbind option_bind] in H. apply expect_size in E1.
    destruct (readString r1) as [[name r2]|] eqn:E2; [|done]. cbn [mbind option_bind] in H. apply readString_size with (n := S (size r1)) in E2; [|lia].
    pose proof (skipBlanks_size r2) as Hr2.
    destruct (expect 58 (skipBlanks r2)) as [r3|] eqn:E3; [|done]. cbn [mbind option_bind] in H. apply expect_size in E3.
    destruct (readValue fuel d r3) as [[x r4]|] eqn:E4; [|done]. cbn [mbind option_bind] in H. apply IHv in E4.
    pose proof (skipBlanks_size r4) as Hr4.
    destruct (expect 125 (skipBlanks r4)) eqn:E5; [apply expect_size in E5; injection H as <- <-; lia|].
    destruct (expect 44 (skipBlanks r4)) as [r5|] eqn:E6; [|done]. cbn [mbind option_bind] in H. apply expect_size in E6.
    destruct (readMembers fuel d r5) as [[l r6]|] eqn:E7; [|done]. injection H as <- <-. apply IHm in E7. lia.
Qed.

(** ** Enough fuel *)

Lemma bind_ext_Some {A B} (m : option A) (f g : A -> option B) : (forall x, m = Some x -> f x = g x) -> (m ≫= f) = (m ≫= g).
Proof. destruct m; cbn; auto. Qed.

(** Two and a byte to read a value, one more for a list of them. *)
Lemma reads_enough n :
  (forall f f' d s, (size s < n)%nat -> (2 * size s < f)%nat -> (2 * size s < f')%nat -> readValue f d s = readValue f' d s) /\
  (forall f f' d s, (size s < n)%nat -> (2 * size s + 1 < f)%nat -> (2 * size s + 1 < f')%nat -> readItems f d s = readItems f' d s) /\
  (forall f f' d s, (size s < n)%nat -> (2 * size s + 1 < f)%nat -> (2 * size s + 1 < f')%nat -> readMembers f d s = readMembers f' d s).
Proof.
  induction n as [|n (IHv & IHi & IHm)]; [split; [|split]; intros; lia|].
  assert (Hv : forall f f' d s, (size s < S n)%nat -> (2 * size s < f)%nat -> (2 * size s < f')%nat -> readValue f d s = readValue f' d s).
  { intros [|f] [|f'] d s Hs Hf Hf'; try lia. cbn [readValue].
    pose proof (skipBlanks_size s) as Hb. destruct (skipBlanks s) as [|c tail]; [done|]. cbn [size] in Hb.
    rewrite (IHm f f' (d + 1) tail), (IHi f f' (d + 1) tail) by lia. done. }
  split; [exact Hv|]. split; intros [|f] [|f'] d s Hs Hf Hf'; try lia; cbn [readItems readMembers].
  - rewrite (Hv f f' d s) by lia. apply bind_ext_Some. intros [x r] E. apply (proj1 (reads_shorter f')) in E. pose proof (skipBlanks_size r).
    destruct (expect 93 (skipBlanks r)); [done|]. apply bind_ext_Some. intros r2 E2%expect_size. by rewrite (IHi f f' d r2) by lia.
  - pose proof (skipBlanks_size s). apply bind_ext_Some. intros r1 E1%expect_size. apply bind_ext_Some. intros [name r2] E2.
    apply readString_size with (n := S (size r1)) in E2; [|lia]. pose proof (skipBlanks_size r2).
    apply bind_ext_Some. intros r3 E3%expect_size. rewrite (Hv f f' d r3) by lia. apply bind_ext_Some. intros [x r4] E4.
    apply (proj1 (reads_shorter f')) in E4. pose proof (skipBlanks_size r4). destruct (expect 125 (skipBlanks r4)); [done|].
    apply bind_ext_Some. intros r5 E5%expect_size. by rewrite (IHm f f' d r5) by lia.
Qed.

(** More fuel than [parse] gives reads the same. *)
Lemma readValue_enough s d fuel : (2 * size s < fuel)%nat -> readValue fuel d s = readValue (2 * size s + 1) d s.
Proof. intros H. apply (proj1 (reads_enough (S (size s)))); lia. Qed.

(** ** What is printed reads back *)

(** What may stand behind a value: nothing that would continue a number. *)
Definition stops (rest : string) : Prop :=
  match rest with String c _ => S.is_byte 44 c || S.is_byte 93 c || S.is_byte 125 c || S.is_byte 10 c = true | EmptyString => True end.
Lemma stops_bytes c : S.is_byte 44 c || S.is_byte 93 c || S.is_byte 125 c || S.is_byte 10 c = true ->
  S.digit c = false /\ S.is_byte 46 c = false /\ S.is_byte 101 c = false /\ S.is_byte 69 c = false.
Proof. unfold S.is_byte, S.digit, S.in_range. intros H.
  rewrite !orb_true_iff, !andb_true_iff, !N.leb_le in H. repeat split; rewrite andb_false_iff, !N.leb_gt; lia. Qed.

Lemma readString_quoted s rest : S.all_bytes unescaped s = true -> readString (s +:+ String quote_byte rest) = Some (s, rest).
Proof.
  induction s as [|c s IH]; [done|]. cbn [S.all_bytes]. rewrite andb_true_iff. intros [Hc Hs].
  change (String c s +:+ String quote_byte rest) with (String c (s +:+ String quote_byte rest)). cbn [readString].
  unfold unescaped in Hc. rewrite !andb_true_iff, !negb_true_iff in Hc. destruct Hc as [[Hr ->] ->].
  unfold S.in_range in Hr. rewrite andb_true_iff, !N.leb_le in Hr. unfold code.
  rewrite (proj2 (Z.ltb_ge _ 32)), (proj2 (Z.ltb_lt _ 128)) by lia. by rewrite (IH Hs).
Qed.
Lemma readDigits_app s rest : S.all_bytes S.digit s = true -> stops rest -> readDigits (s +:+ rest) = (s, rest).
Proof.
  intros Hs Hr. induction s as [|c s IH].
  - destruct rest as [|c rest]; [done|]. cbn in Hr |- *. apply stops_bytes in Hr as (-> & _). done.
  - cbn [S.all_bytes] in Hs. apply andb_true_iff in Hs as [Hc Hs].
    change (String c s +:+ rest) with (String c (s +:+ rest)). cbn [readDigits]. by rewrite Hc, (IH Hs).
Qed.
Lemma readInteger_app s rest : natural s = true -> stops rest -> readInteger (s +:+ rest) = Some (s, rest).
Proof.
  unfold natural. rewrite !andb_true_iff. intros [[Hd Hn] Hz] Hr. destruct s as [|c s]; [done|].
  change (String c s +:+ rest) with (String c (s +:+ rest)). cbn [readInteger].
  destruct (S.is_byte 48 c) eqn:E.
  - cbn [S.first_byte S.byte_is] in Hz. rewrite E, orb_false_r in Hz. destruct s; [done|]. apply Z.eqb_eq in Hz. unfold S.len in Hz. cbn [size] in Hz. lia.
  - unfold someDigits. change (String c (s +:+ rest)) with (String c s +:+ rest). by rewrite (readDigits_app _ _ Hd Hr).
Qed.
Lemma readNumber_app s rest : integral s = true -> stops rest -> readNumber (s +:+ rest) = Some (s, rest).
Proof.
  intros Hs Hr.
  assert (Hf : readFraction rest = Some ("", rest)).
  { destruct rest as [|c rest]; [done|]. cbn in Hr |- *. by apply stops_bytes in Hr as (_ & -> & _). }
  assert (He : readExponent rest = Some ("", rest)).
  { destruct rest as [|c rest]; [done|]. cbn [readExponent]. cbn in Hr. by apply stops_bytes in Hr as (_ & _ & -> & ->). }
  destruct s as [|c s]; [done|]. change (String c s +:+ rest) with (String c (s +:+ rest)). cbn [integral] in Hs.
  unfold readNumber. destruct (S.is_byte 45 c).
  - rewrite (readInteger_app _ _ Hs Hr). cbn [mbind option_bind]. rewrite Hf. cbn [mbind option_bind]. rewrite He. cbn [mbind option_bind].
    by rewrite !str_app_empty_r.
  - change (String c (s +:+ rest)) with (String c s +:+ rest). rewrite (readInteger_app _ _ Hs Hr).
    cbn [mbind option_bind]. rewrite Hf. cbn [mbind option_bind]. rewrite He. cbn [mbind option_bind]. by rewrite !str_app_empty_r.
Qed.

Lemma plain_height_max {A} (f : A -> Z) l x : x ∈ l -> f x <= fold_right Z.max 0 (map f l).
Proof. intros H. induction l as [|y l IH]; [by apply not_elem_of_nil in H|]. cbn. apply elem_of_cons in H as [->|H]; [|specialize (IH H)]; lia. Qed.
Lemma first_stop v rest : plain v = true -> exists c tail, print v +:+ rest = String c tail /\ blank c = false /\ S.is_byte 93 c = false /\ S.is_byte 125 c = false.
Proof.
  destruct v as [|[]|n|s|items|members]; try (cbn; eexists _, _; split_and!; [reflexivity|..]; done).
  cbn [plain print]. destruct n as [|c n]; [done|]. cbn [integral]. intros H. exists c, (n +:+ rest). split; [done|].
  assert (S.is_byte 45 c = true \/ S.digit c = true) as Hc.
  { destruct (S.is_byte 45 c); [by left|right]. unfold natural in H. rewrite !andb_true_iff in H. destruct H as [[H _] _]. cbn in H. by apply andb_true_iff in H as [-> _]. }
  clear H. unfold blank, S.digit, S.is_byte, S.in_range in *. rewrite !andb_true_iff, !N.leb_le in Hc.
  split_and!; rewrite ?orb_false_iff, ?andb_false_iff, ?N.leb_gt; lia.
Qed.

Lemma str_size_app a b : size (a +:+ b) = (size a + size b)%nat.
Proof. apply str_length_app. Qed.
Lemma print_first v rest : plain v = true -> skipBlanks (print v +:+ rest) = print v +:+ rest.
Proof. intros H. destruct (first_stop v rest H) as (c & tail & -> & Hb & _). cbn. by rewrite Hb. Qed.

(** [v] is read from its printed form, whatever may follow it. *)
Definition reads (v : jtext) : Prop := forall rest d fuel, stops rest -> d + height v <= maxNestingDepth ->
  (2 * size (print v) <= fuel)%nat -> readValue fuel d (print v +:+ rest) = Some (v, rest).

Definition itemsText (l : list jtext) : string := S.Join (map print l) ",".
Lemma readItems_print l : l <> [] -> Forall reads l -> forall rest d fuel, Forall (fun x => d + height x <= maxNestingDepth) l ->
  (2 * size (itemsText l) + 1 <= fuel)%nat -> readItems fuel d (itemsText l +:+ String (byteOf 93) rest) = Some (l, rest).
Proof.
  intros Hl HF. induction l as [|x l IH]; [done|]. inversion HF as [|? ? Hx HF']; subst. clear HF.
  intros rest d fuel Hd Hfuel. inversion Hd as [|? ? Hdx Hd']; subst. clear Hd. destruct fuel as [|fuel]; [lia|]. cbn [readItems].
  destruct l as [|y l].
  - change (itemsText [x]) with (print x) in *. rewrite (Hx _ d fuel) by (done || lia). done.
  - change (itemsText (x :: y :: l)) with (print x +:+ "," +:+ itemsText (y :: l)) in *. rewrite !str_size_app in Hfuel. cbn [size] in Hfuel.
    rewrite !str_app_assoc, (Hx _ d fuel) by (done || lia). cbn [mbind option_bind].
    change (skipBlanks ("," +:+ ?t)) with (String (byteOf 44) t).
    change (expect 93 (String (byteOf 44) ?t)) with (@None string). change (expect 44 (String (byteOf 44) ?t)) with (Some t). cbn [mbind option_bind].
    rewrite (IH ltac:(done) HF' rest d fuel Hd') by lia. done.
Qed.

Definition memberText (m : string * jtext) : string := quoted m.1 +:+ ":" +:+ print m.2.
Definition membersText (l : list (string * jtext)) : string := S.Join (map memberText l) ",".
Lemma readMembers_print l : l <> [] -> Forall (fun m => S.all_bytes unescaped m.1 = true /\ reads m.2) l ->
  forall rest d fuel, Forall (fun m => d + height m.2 <= maxNestingDepth) l ->
  (2 * size (membersText l) + 1 <= fuel)%nat -> readMembers fuel d (membersText l +:+ String (byteOf 125) rest) = Some (l, rest).
Proof.
  intros Hl HF. induction l as [|[name x] l IH]; [done|]. inversion HF as [|? ? [Hn Hx] HF']; subst. clear HF. cbn [fst snd] in *.
  intros rest d fuel Hd Hfuel. inversion Hd as [|? ? Hdx Hd']; subst. clear Hd. cbn [fst snd] in *. destruct fuel as [|fuel]; [lia|].
  assert (Hstart : forall tail, stops tail -> (2 * size (print x) <= fuel)%nat ->
    readMembers (S fuel) d (memberText (name, x) +:+ tail) =
    match expect 125 (skipBlanks tail) with
    | Some rest => Some ([(name, x)], rest)
    | None => rest ← expect 44 (skipBlanks tail); '(members, rest) ← readMembers fuel d rest; Some ((name, x) :: members, rest)
    end).
  { intros tail Ht Hf. unfold memberText, quoted. cbn [fst snd readMembers].
    rewrite !str_app_assoc. change (skipBlanks (String quote_byte ?a +:+ ?b)) with (String quote_byte (a +:+ b)).
    change (expect 34 (String quote_byte ?t)) with (Some t). cbn [mbind option_bind].
    rewrite !str_app_assoc. change (String quote_byte EmptyString +:+ ?t) with (String quote_byte t).
    rewrite (readString_quoted name _ Hn). cbn [mbind option_bind].
    change (skipBlanks (":" +:+ ?t)) with (String (byteOf 58) t). change (expect 58 (String (byteOf 58) ?t)) with (Some t). cbn [mbind option_bind].
    rewrite (Hx tail d fuel Ht Hdx Hf). done. }
  destruct l as [|y l].
  - change (membersText [(name, x)]) with (memberText (name, x)) in *. rewrite Hstart; [done|done|].
    unfold memberText in Hfuel. rewrite !str_size_app in Hfuel. cbn [fst snd] in Hfuel. lia.
  - change (membersText ((name, x) :: y :: l)) with (memberText (name, x) +:+ "," +:+ membersText (y :: l)) in *.
    unfold memberText at 1 in Hfuel. rewrite !str_size_app in Hfuel. cbn [size fst snd] in Hfuel.
    rewrite !str_app_assoc, Hstart by (done || lia). change (skipBlanks ("," +:+ ?t)) with (String (byteOf 44) t).
    change (expect 125 (String (byteOf 44) ?t)) with (@None string). change (expect 44 (String (byteOf 44) ?t)) with (Some t). cbn [mbind option_bind].
    rewrite (IH ltac:(done) HF' rest d fuel Hd') by lia. done.
Qed.

Lemma substring_beyond s : forall n, (size s <= n)%nat -> String.substring 0 n s = s.
Proof. induction s as [|c s IH]; intros [|n] H; cbn in *; try done; [lia|]. f_equal. apply IH. lia. Qed.
Lemma readLiteral_app w v rest : readLiteral w v (w +:+ rest) = Some (v, rest).
Proof.
  unfold readLiteral.
  assert (S.HasPrefix (w +:+ rest) w = true) as ->.
  { unfold S.HasPrefix. induction w as [|c w IH]; cbn; [by destruct rest|]. destruct (Ascii.ascii_dec c c); done. }
  assert (H : forall n, (size rest <= n)%nat -> String.substring (size w) n (w +:+ rest) = rest); [|rewrite H; [done|rewrite str_length_app; lia]].
  intros n Hn. induction w as [|c w IH]; cbn; [by apply substring_beyond|exact IH].
Qed.
Lemma heights_below {A} (f : A -> Z) l d : d + (1 + fold_right Z.max 0 (map f l)) <= maxNestingDepth ->
  Forall (fun x => d + 1 + f x <= maxNestingDepth) l.
Proof. intros H. apply Forall_forall. intros x Hx%(plain_height_max f). lia. Qed.
Lemma heights_nonneg {A} (f : A -> Z) l : 0 <= fold_right Z.max 0 (map f l).
Proof. induction l; cbn; lia. Qed.

Lemma number_first n : integral n = true -> exists c tail, n = String c tail /\ Ascii.eqb c quote_byte = false /\ S.is_byte 123 c = false /\
  S.is_byte 91 c = false /\ S.is_byte 110 c = false /\ S.is_byte 116 c = false /\ S.is_byte 102 c = false.
Proof.
  destruct n as [|c n]; [done|]. cbn [integral]. intros H. exists c, n. split; [done|].
  assert (S.is_byte 45 c = true \/ S.digit c = true) as Hc.
  { destruct (S.is_byte 45 c); [by left|right]. unfold natural in H. rewrite !andb_true_iff in H. destruct H as [[H _] _]. cbn in H. by apply andb_true_iff in H as [-> _]. }
  split; [destruct (Ascii.eqb_spec c quote_byte) as [->|]; [|done]; destruct Hc; discriminate|].
  clear H. unfold S.digit, S.is_byte, S.in_range in *. rewrite !andb_true_iff, !N.leb_le in Hc.
  split_and!; rewrite andb_false_iff, !N.leb_gt; lia.
Qed.
Lemma print_nonempty v : plain v = true -> (1 <= size (print v))%nat.
Proof. intros H. destruct (first_stop v "" H) as (c & tail & E & _). rewrite str_app_empty_r in E. rewrite E. cbn. lia. Qed.

Lemma reads_arr items : Forall reads items -> plain (TArr items) = true -> reads (TArr items).
Proof.
  intros IH Hp rest d fuel Hr Hd Hf. destruct fuel as [|fuel]; [cbn in Hf; lia|]. cbn [readValue height] in *. rewrite (print_first _ rest Hp).
  change (print (TArr items) +:+ rest) with (String (byteOf 91) ((itemsText items +:+ "]") +:+ rest)).
  change (print (TArr items)) with ("[" +:+ itemsText items +:+ "]") in Hf. rewrite !str_size_app in Hf. cbn [size] in Hf.
  change (Ascii.eqb (byteOf 91) quote_byte) with false. change (S.is_byte 123 (byteOf 91)) with false. change (S.is_byte 91 (byteOf 91)) with true. cbv iota.
  pose proof (heights_nonneg height items). rewrite (proj2 (Z.leb_gt _ _)) by lia. rewrite str_app_assoc.
  destruct items as [|x items]; [done|].
  change (String.append "]" rest) with (String (byteOf 93) rest).
  assert (expect 93 (skipBlanks (itemsText (x :: items) +:+ String (byteOf 93) rest)) = None) as ->.
  { cbn [plain forallb] in Hp. apply andb_true_iff in Hp as [Hx _].
    assert (exists t, itemsText (x :: items) +:+ String (byteOf 93) rest = print x +:+ t) as [t ->].
    { destruct items as [|y items]; [by eexists|]. change (itemsText (x :: y :: items)) with (print x +:+ "," +:+ itemsText (y :: items)).
      rewrite str_app_assoc. by eexists. }
    destruct (first_stop x t Hx) as (c & tail & -> & Hb & H93 & _). cbn. by rewrite Hb; cbn; rewrite H93. }
  rewrite (readItems_print (x :: items) ltac:(done) IH rest (d + 1) fuel); [done| |lia].
  apply heights_below. lia.
Qed.
Lemma reads_obj members : Forall (fun m => reads m.2) members -> plain (TObj members) = true -> reads (TObj members).
Proof.
  intros IH Hp rest d fuel Hr Hd Hf. destruct fuel as [|fuel]; [cbn in Hf; lia|]. cbn [readValue height] in *. rewrite (print_first _ rest Hp).
  change (print (TObj members) +:+ rest) with (String (byteOf 123) ((membersText members +:+ "}") +:+ rest)).
  change (print (TObj members)) with ("{" +:+ membersText members +:+ "}") in Hf. rewrite !str_size_app in Hf. cbn [size] in Hf.
  change (Ascii.eqb (byteOf 123) quote_byte) with false. change (S.is_byte 123 (byteOf 123)) with true. cbv iota.
  pose proof (heights_nonneg (fun m : string * jtext => height m.2) members). rewrite (proj2 (Z.leb_gt _ _)) by lia. rewrite str_app_assoc.
  destruct members as [|m members]; [done|].
  change (String.append "}" rest) with (String (byteOf 125) rest).
  assert (expect 125 (skipBlanks (membersText (m :: members) +:+ String (byteOf 125) rest)) = None) as ->.
  { assert (exists t, membersText (m :: members) +:+ String (byteOf 125) rest = String quote_byte t) as [t ->]; [|done].
    destruct members as [|y members]; by eexists. }
  rewrite (readMembers_print (m :: members)) with (fuel := fuel) (d := d + 1); [done|done| | |lia].
  - cbn [plain] in Hp. rewrite forallb_forall in Hp. apply Forall_forall. intros y Hy. rewrite Forall_forall in IH. split; [|by apply IH].
    apply list_elem_of_In in Hy. apply Hp in Hy. by apply andb_true_iff in Hy as [? _].
  - apply (heights_below (fun m : string * jtext => height m.2)). lia.
Qed.
Lemma all_reads v : plain v = true -> reads v.
Proof.
  induction v as [|b|n|s|items IH|members IH] using jtext_nested_ind; intros Hp.
  5: { apply reads_arr; [|done]. cbn [plain] in Hp. rewrite forallb_forall in Hp. rewrite Forall_forall in IH |- *.
    intros x Hx. apply IH, Hp; [done|by apply list_elem_of_In]. }
  5: { apply reads_obj; [|done]. cbn [plain] in Hp. rewrite forallb_forall in Hp. rewrite Forall_forall in IH |- *.
    intros x Hx. apply IH; [done|]. apply list_elem_of_In in Hx. apply Hp in Hx. by apply andb_true_iff in Hx as [_ ?]. }
  all: intros rest d fuel Hr Hd Hf; pose proof (print_nonempty _ Hp); destruct fuel as [|fuel]; [lia|]; cbn [readValue]; rewrite (print_first _ rest Hp).
  - exact (readLiteral_app "null" TNull rest).
  - destruct b; [exact (readLiteral_app "true" (TBool true) rest)|exact (readLiteral_app "false" (TBool false) rest)].
  - cbn [print plain] in *. pose proof (readNumber_app n rest Hp Hr) as E.
    destruct (number_first n Hp) as (c & tail & -> & H1 & H2 & H3 & H4 & H5 & H6).
    change (String c tail +:+ rest) with (String c (tail +:+ rest)) in *. cbv iota beta. rewrite H1, H2, H3, H4, H5, H6, E. done.
  - cbn [print plain] in *. unfold quoted. change (String quote_byte ?a +:+ rest) with (String quote_byte (a +:+ rest)).
    change (Ascii.eqb quote_byte quote_byte) with true. cbv iota. rewrite str_app_assoc.
    change (String quote_byte EmptyString +:+ rest) with (String quote_byte rest). by rewrite (readString_quoted _ rest Hp).
Qed.

(** What is printed reads back. *)
Lemma parse_print v : plain v = true -> height v <= maxNestingDepth -> parse (print v) = Some v.
Proof.
  intros Hp Hh. unfold parse. pose proof (all_reads v Hp "" 0 (2 * size (print v) + 1)%nat I ltac:(lia) ltac:(lia)) as E.
  rewrite str_app_empty_r in E. by rewrite E.
Qed.
End JTextProofs.
