(* ===== verification/Helper.v ===== *)
(** * The privileged helper

    [internal/helper/protocol.go], [adapter_executor.go] and [client.go]: the
    controller runs without privileges and asks a root service to run one of a few
    fixed commands.  A request is JSON on a Unix socket; it names a command and the
    transaction it is bound to, never a path or a program.  What the command prints
    is read as evidence, and an answer is accepted only if the evidence names the
    same transaction.

    Processes run on a state [K] through [run].  [encodeRequest] and [decodeRequest]
    are the values of the JSON text; on the client's side the text itself, the
    socket and its deadlines are a [conversation].  Where Go walks a map and several
    of its entries would be refused, the first in the order written here is. *)
From Stdlib Require Import ZArith Lia.
From stdpp Require Import base list strings gmap pretty.
From S2P Require Import Prelude Effects Net Json JsonText.

Open Scope Z_scope.
Import JText.

(** ** Paths

    [path/filepath] on Unix. *)
Module Filepath.
Definition slash : Ascii.ascii := Ascii.ascii_of_N 47.
Definition IsAbs (path : string) : bool := S.HasPrefix path "/".
(** The elements that stay, last first. *)
Fixpoint walk (rooted : bool) (out elements : list string) : list string :=
  match elements with
  | [] => out
  | e :: rest =>
      if (e =s "") || (e =s ".") then walk rooted out rest
      else if e =s ".." then
        match out with
        | last :: before => walk rooted (if last =s ".." then ".." :: out else before) rest
        | [] => walk rooted (if rooted then [] else [".."]) rest
        end
      else walk rooted (e :: out) rest
  end.
Definition Clean (path : string) : string :=
  let rooted := IsAbs path in
  let body := S.Join (reverse (walk rooted [] (S.Split path slash))) "/" in
  if rooted then "/" +:+ body else if body =s "" then "." else body.
Definition Join (elements : list string) : string :=
  match List.filter (fun e => e <>s "") elements with [] => "" | l => Clean (S.Join l "/") end.
Fixpoint trimSlashes (reversed : string) : string :=
  match reversed with String c rest => if Ascii.eqb c slash then trimSlashes rest else reversed | EmptyString => EmptyString end.
Definition Base (path : string) : string :=
  if path =s "" then "."
  else
    let path := S.rev (trimSlashes (S.rev path)) in
    if path =s "" then "/" else match Net.cutLast slash path with Some (_, name) => name | None => path end.
Definition Dir (path : string) : string :=
  Clean (match Net.cutLast slash path with Some (dir, _) => dir +:+ "/" | None => "" end).
End Filepath.

(** ** Requests and responses *)

Definition ProtocolVersion : Z := 1.
Inductive helperError := ErrUnknownCommand | ErrInvalidRequest | ErrPeerRejected.

Record TransactionRequest := mkTransactionRequest { tr_Operation : string }.
Record BaselineRequest := mkBaselineRequest { br_Operation : string }.
Record NFTRequest := mkNFTRequest { nr_Family : string; nr_Table : string; nr_Generation : string; nr_ArtifactHash : string }.
Record IPPlanRequest := mkIPPlanRequest { pr_Generation : string; pr_PlanHash : string; pr_Operation : string }.
Record ServiceRequest := mkServiceRequest { sq_Name : string; sq_Operation : string }.
Record ArtifactRequest := mkArtifactRequest { ar_Kind : string; ar_Hash : string; ar_Operation : string }.
Record GlobalRequest := mkGlobalRequest { gq_Operation : string }.
Record RouteAssignmentRequest := mkAssignmentRequest {
  ra_Operation : string;
  ra_Domain : string;
  ra_RouteTag : string;
  ra_RouteType : string;
  ra_RouteSetID : string;
  ra_AssignmentID : string;
  ra_MappingHash : string
}.
Record Request := mkRequest {
  rq_ProtocolVersion : Z;
  rq_RequestID : string;
  rq_Command : string;
  rq_Generation : string;
  rq_RevisionID : string;
  rq_TransactionID : string;
  rq_RollbackTokenHash : string;
  rq_CandidateHash : string;
  rq_ArtifactManifestHash : string;
  rq_Transaction : option TransactionRequest;
  rq_Baseline : option BaselineRequest;
  rq_NFT : option NFTRequest;
  rq_IPPlan : option IPPlanRequest;
  rq_Service : option ServiceRequest;
  rq_Artifact : option ArtifactRequest;
  rq_Global : option GlobalRequest;
  rq_RouteAssignment : option RouteAssignmentRequest
}.

Record RouteAssignmentResponse := mkAssignmentResponse {
  as_Domain : string;
  as_RouteTag : string;
  as_RouteType : string;
  as_RouteSetID : string;
  as_AssignmentID : string;
  as_MappingHash : string;
  as_Applied : bool;
  as_Verified : bool
}.
Record Response := mkResponse {
  rs_ProtocolVersion : Z;
  rs_RequestID : string;
  rs_Command : string;
  rs_Operation : string;
  rs_Accepted : bool;
  rs_Committed : bool;
  rs_RollbackCapable : bool;
  rs_State : string;
  rs_SemanticState : string;
  rs_Generation : string;
  rs_RevisionID : string;
  rs_TransactionID : string;
  rs_CandidateHash : string;
  rs_ArtifactManifestHash : string;
  rs_RollbackTokenHash : string;
  rs_ErrorCode : string;
  rs_Error : string;
  rs_Reason : string;
  rs_ManagementVerified : bool;
  rs_DataPlaneVerified : bool;
  rs_Evidence : gmap string string;
  rs_RouteAssignment : option RouteAssignmentResponse
}.
#[export] Instance eta_Response : Eta Response := fun r =>
  mkResponse (rs_ProtocolVersion r) (rs_RequestID r) (rs_Command r) (rs_Operation r) (rs_Accepted r) (rs_Committed r) (rs_RollbackCapable r)
    (rs_State r) (rs_SemanticState r) (rs_Generation r) (rs_RevisionID r) (rs_TransactionID r) (rs_CandidateHash r) (rs_ArtifactManifestHash r)
    (rs_RollbackTokenHash r) (rs_ErrorCode r) (rs_Error r) (rs_Reason r) (rs_ManagementVerified r) (rs_DataPlaneVerified r) (rs_Evidence r)
    (rs_RouteAssignment r).
Definition set_rs_ProtocolVersion (v : Z) (r : Response) : Response := ltac:(assign r rs_ProtocolVersion v).
Definition set_rs_Operation (v : string) (r : Response) : Response := ltac:(assign r rs_Operation v).
Definition set_rs_Accepted (v : bool) (r : Response) : Response := ltac:(assign r rs_Accepted v).
Definition set_rs_Committed (v : bool) (r : Response) : Response := ltac:(assign r rs_Committed v).
Definition set_rs_RollbackCapable (v : bool) (r : Response) : Response := ltac:(assign r rs_RollbackCapable v).
Definition set_rs_State (v : string) (r : Response) : Response := ltac:(assign r rs_State v).
Definition set_rs_SemanticState (v : string) (r : Response) : Response := ltac:(assign r rs_SemanticState v).
Definition set_rs_ErrorCode (v : string) (r : Response) : Response := ltac:(assign r rs_ErrorCode v).
Definition set_rs_Error (v : string) (r : Response) : Response := ltac:(assign r rs_Error v).
Definition set_rs_Reason (v : string) (r : Response) : Response := ltac:(assign r rs_Reason v).
Definition set_rs_ManagementVerified (v : bool) (r : Response) : Response := ltac:(assign r rs_ManagementVerified v).
Definition set_rs_DataPlaneVerified (v : bool) (r : Response) : Response := ltac:(assign r rs_DataPlaneVerified v).
Definition set_rs_Evidence (v : gmap string string) (r : Response) : Response := ltac:(assign r rs_Evidence v).
Definition set_rs_RouteAssignment (v : option RouteAssignmentResponse) (r : Response) : Response := ltac:(assign r rs_RouteAssignment v).

Definition ResponseFrom (q : Request) (accepted : bool) (code message : string) : Response :=
  mkResponse (rq_ProtocolVersion q) (rq_RequestID q) (rq_Command q) "" accepted false false (if accepted then "accepted" else "rejected") ""
    (rq_Generation q) (rq_RevisionID q) (rq_TransactionID q) (rq_CandidateHash q) (rq_ArtifactManifestHash q) (rq_RollbackTokenHash q)
    code message "" false false ∅ None.
Definition rejected (code message : string) (r : Response) : Response := r |> set_rs_ErrorCode code |> set_rs_Error message.
Definition accepted (r : Response) : Response := r |> set_rs_Accepted true |> set_rs_State "accepted".

(** ** What is safe *)

Definition tokenByte (c : Ascii.ascii) : bool :=
  negb (S.is_byte 13 c || S.is_byte 10 c || S.is_byte 0 c || S.is_byte 47 c || S.is_byte 92 c || S.is_byte 32 c).
Definition safeToken (value : string) : bool := (value <>s "") && (S.len value <=? 128) && S.all_bytes tokenByte value.
Definition objectByte (c : Ascii.ascii) : bool := S.is_byte 95 c || S.is_byte 45 c || S.lower_letter c || S.upper_letter c || S.digit c.
Definition safeObjectName (value : string) : bool := safeToken value && (S.len value <=? 64) && S.all_bytes objectByte value.
Definition lowerHexByte (c : Ascii.ascii) : bool := S.digit c || S.in_range 97 102 c.
Definition safeHash (value : string) : bool :=
  (S.len value =? 71) && S.HasPrefix value "sha256:" && S.all_bytes lowerHexByte (String.substring 7 64 value).
Definition domainByte (c : Ascii.ascii) : bool := tokenByte c && negb (S.is_byte 9 c).
Definition labelByte (c : Ascii.ascii) : bool := S.lower_letter c || S.digit c || S.is_byte 45 c.
Definition safeLabel (label : string) : bool :=
  (label <>s "") && (S.len label <=? 63) && negb (S.byte_is (S.first_byte label) 45) && negb (S.byte_is (S.last_byte label) 45) && S.all_bytes labelByte label.
(** [strings.ToLower] as far as it makes a byte below 128: besides the letters, the
    Kelvin sign becomes [k] and the dotted capital I becomes [i]. *)
Fixpoint lowerText (s : string) : string :=
  match s with
  | String a ((String b rest) as tail) =>
      if S.is_byte 196 a && S.is_byte 176 b then String (Ascii.ascii_of_N 105) (lowerText rest)
      else match rest with
      | String c rest => if S.is_byte 226 a && S.is_byte 132 b && S.is_byte 170 c then String (Ascii.ascii_of_N 107) (lowerText rest)
                         else String (S.lower_byte a) (lowerText tail)
      | EmptyString => String (S.lower_byte a) (lowerText tail)
      end
  | String a EmptyString => String (S.lower_byte a) EmptyString
  | EmptyString => EmptyString
  end.
Definition safeDomain (value : string) : bool :=
  (value <>s "") && (S.len value <=? 253) && S.all_bytes domainByte value && forallb safeLabel (S.Split (lowerText value) S.dot).
Definition safeRouteType (value : string) : bool := containsString ["direct"; "drop"; "zapret"; "smart_dns"; "vless"] value.
Definition fixedServices : list string := ["router-policy"; "router-policy-xray"; "router-policy-zapret"; "router-policy-boot-guard"].
Definition profilePrefix : string := "router-policy-zapret-".
(** [strings.TrimPrefix]. *)
Definition TrimPrefix (s p : string) : string := if S.HasPrefix s p then String.substring (String.length p) (String.length s - String.length p) s else s.
Definition allowlistedService (name : string) : bool :=
  containsString fixedServices name
  || (S.HasPrefix name profilePrefix
      && (let suffix := TrimPrefix name profilePrefix in (suffix <>s "") && (S.len suffix <=? 32) && S.all_bytes labelByte suffix)).
Definition allowlistedArtifact (kind : string) : bool :=
  containsString ["xray_config"; "zapret_config"; "zapret_profile_manifest"; "nft_table"; "dnsmasq_config"; "ip_plan"] kind.

(** ** Validation of a request *)

Definition namedIn (table : list (string * string)) (command : string) : option string :=
  match first (fun p => p.1 =s command) table with Some p => Some p.2 | None => None end.
Definition transactionOperations : list (string * string) := [
  ("transaction.prepare", "prepare");
  ("transaction.validate_candidate", "validate-candidate");
  ("transaction.snapshot_current", "snapshot-current");
  ("transaction.apply_candidate", "apply-candidate");
  ("transaction.verify_management", "verify-management");
  ("transaction.verify_data_plane", "verify-data-plane");
  ("transaction.commit_prepared", "commit-prepared");
  ("transaction.finalize_commit", "finalize-commit");
  ("transaction.rollback", "rollback");
  ("transaction.clear_boot_guard", "clear-boot-guard");
  ("transaction.reconcile", "reconcile")
].
Definition transactionOperation (command : string) : string := default "" (namedIn transactionOperations command).
Definition globalOperation (command : string) : string :=
  default "" (namedIn [("global.diagnose", "diagnose"); ("global.status", "status")] command).

Definition requestBound (q : Request) : bool := safeHash (rq_RollbackTokenHash q) && safeHash (rq_CandidateHash q) && safeHash (rq_ArtifactManifestHash q).
Definition recoveryRequestBound (q : Request) : bool := safeHash (rq_CandidateHash q) && safeHash (rq_ArtifactManifestHash q).
Definition globalRequestBound (q : Request) : bool :=
  (rq_Generation q =s "global") && (rq_RevisionID q =s "global") && (rq_TransactionID q =s "global") && (rq_RollbackTokenHash q =s "")
  && (rq_CandidateHash q =s "") && (rq_ArtifactManifestHash q =s "").
Definition present {A} (o : option A) : bool := match o with Some _ => true | None => false end.
Definition hasResourcePayload (q : Request) (allowed : string) : bool :=
  ((allowed <>s "transaction") && present (rq_Transaction q)) || ((allowed <>s "baseline") && present (rq_Baseline q))
  || ((allowed <>s "nft") && present (rq_NFT q)) || ((allowed <>s "ip_plan") && present (rq_IPPlan q))
  || ((allowed <>s "service") && present (rq_Service q)) || ((allowed <>s "artifact") && present (rq_Artifact q))
  || ((allowed <>s "global") && present (rq_Global q)) || ((allowed <>s "route_assignment") && present (rq_RouteAssignment q)).
Definition hasAnyResourcePayload (q : Request) : bool :=
  present (rq_Transaction q) || present (rq_Baseline q) || present (rq_NFT q) || present (rq_IPPlan q) || present (rq_Service q)
  || present (rq_Artifact q) || present (rq_Global q).
Definition routeAssignmentRequestValid (q : Request) : bool :=
  match rq_RouteAssignment q with
  | None => false
  | Some a =>
      safeHash (rq_CandidateHash q) && safeHash (rq_ArtifactManifestHash q) && (rq_RollbackTokenHash q =s "") && (rq_TransactionID q =s "route-assignment")
      && (ra_Operation a =s TrimPrefix (rq_Command q) "route_assignment.") && safeDomain (ra_Domain a) && safeObjectName (ra_RouteTag a)
      && safeRouteType (ra_RouteType a) && safeObjectName (ra_RouteSetID a) && safeObjectName (ra_AssignmentID a) && safeHash (ra_MappingHash a)
      && negb (hasResourcePayload q "route_assignment")
  end.
Definition on {A} (o : option A) (p : A -> bool) : bool := match o with Some a => p a | None => false end.
(** The cases of the switch: whether the request fits its command, [None] for a
    command that is not listed. *)
Definition commandValid (q : Request) : option bool :=
  let command := rq_Command q in
  if present (namedIn transactionOperations command) && (command <>s "transaction.reconcile") then
    Some (on (rq_Transaction q) (fun t => tr_Operation t =s transactionOperation command) && requestBound q)
  else if command =s "transaction.reconcile" then
    Some (on (rq_Transaction q) (fun t => tr_Operation t =s "reconcile") && recoveryRequestBound q)
  else if command =s "recovery.clear_boot_guard_baseline" then
    Some (on (rq_Baseline q) (fun b => br_Operation b =s "clear-boot-guard") && (rq_Generation q =s rq_RevisionID q) && (rq_TransactionID q =s "baseline")
          && (rq_RollbackTokenHash q =s "") && (rq_ArtifactManifestHash q =s "") && safeHash (rq_CandidateHash q) && negb (hasResourcePayload q "baseline"))
  else if command =s "nft.replace_owned_table" then
    Some (requestBound q && on (rq_NFT q) (fun n => (nr_Family n =s "inet") && safeObjectName (nr_Table n) && (nr_Generation n =s rq_Generation q)
          && (nr_ArtifactHash n =s rq_ArtifactManifestHash q)))
  else if containsString ["ip_plan.apply"; "ip_plan.rollback"] command then
    Some (requestBound q && on (rq_IPPlan q) (fun p => (pr_Generation p =s rq_Generation q) && (pr_Operation p =s TrimPrefix command "ip_plan.")
          && safeHash (pr_PlanHash p) && (pr_PlanHash p =s rq_ArtifactManifestHash q)))
  else if containsString ["service.start"; "service.stop"; "service.reload"] command then
    Some (requestBound q && on (rq_Service q) (fun s => allowlistedService (sq_Name s) && (sq_Operation s =s TrimPrefix command "service.")))
  else if containsString ["artifact.install"; "artifact.remove"] command then
    Some (requestBound q && on (rq_Artifact q) (fun a => allowlistedArtifact (ar_Kind a) && safeHash (ar_Hash a) && (ar_Hash a =s rq_ArtifactManifestHash q)
          && (ar_Operation a =s TrimPrefix command "artifact.")))
  else if containsString ["global.diagnose"; "global.status"] command then
    Some (on (rq_Global q) (fun g => gq_Operation g =s globalOperation command) && globalRequestBound q)
  else if containsString ["route_assignment.apply"; "route_assignment.rollback"] command then Some (routeAssignmentRequestValid q)
  else if command =s "route_assignment.reconcile" then
    Some (negb (present (rq_RouteAssignment q)) && (rq_RollbackTokenHash q =s "") && (rq_TransactionID q =s "route-assignment")
          && (rq_Generation q =s rq_RevisionID q) && safeHash (rq_CandidateHash q) && safeHash (rq_ArtifactManifestHash q) && negb (hasAnyResourcePayload q))
  else None.
(** [None] for a nil error. *)
Definition ValidateRequest (q : Request) : option helperError :=
  if negb (rq_ProtocolVersion q =? ProtocolVersion) || (S.TrimSpace (rq_RequestID q) =s "") || (96 <? S.len (rq_RequestID q)) then Some ErrInvalidRequest
  else if negb (safeToken (rq_RequestID q)) || negb (safeToken (rq_Generation q)) || negb (safeToken (rq_RevisionID q)) || negb (safeToken (rq_TransactionID q))
  then Some ErrInvalidRequest
  else if rq_Command q =s "" then Some ErrUnknownCommand
  else match commandValid q with
  | None => Some ErrUnknownCommand
  | Some true => None
  | Some false => Some ErrInvalidRequest
  end.
Definition errorCode (e : helperError) : string :=
  match e with ErrUnknownCommand => "unknown_command" | ErrPeerRejected => "peer_rejected" | ErrInvalidRequest => "invalid_request" end.
Definition ValidatePeerUID (uid expected : Z) : option helperError :=
  if (uid <=? 0) || (expected <=? 0) || negb (uid =? expected) then Some ErrPeerRejected else None.

(** ** The JSON of a request *)

Definition field (name : string) (v : jtext) : list (string * jtext) := [(name, v)].
Definition textField (name value : string) : list (string * jtext) := [(name, TStr value)].
(** [omitempty]. *)
Definition optionalText (name value : string) : list (string * jtext) := if value =s "" then [] else [(name, TStr value)].
Definition optionalField {A} (name : string) (encode : A -> list (string * jtext)) (o : option A) : list (string * jtext) :=
  match o with Some a => [(name, TObj (encode a))] | None => [] end.
Definition encodeAssignment (a : RouteAssignmentRequest) : list (string * jtext) :=
  textField "operation" (ra_Operation a) ++ textField "domain" (ra_Domain a) ++ textField "route_tag" (ra_RouteTag a)
  ++ textField "route_type" (ra_RouteType a) ++ textField "route_set_id" (ra_RouteSetID a) ++ textField "assignment_id" (ra_AssignmentID a)
  ++ textField "mapping_hash" (ra_MappingHash a).
Definition encodeRequest (q : Request) : jtext := TObj (
  field "protocol_version" (TNum (pretty (rq_ProtocolVersion q))) ++ textField "request_id" (rq_RequestID q) ++ textField "command" (rq_Command q)
  ++ textField "generation" (rq_Generation q) ++ textField "revision_id" (rq_RevisionID q) ++ textField "transaction_id" (rq_TransactionID q)
  ++ optionalText "rollback_token_hash" (rq_RollbackTokenHash q) ++ optionalText "candidate_hash" (rq_CandidateHash q)
  ++ optionalText "artifact_manifest_hash" (rq_ArtifactManifestHash q)
  ++ optionalField "transaction" (fun t => textField "operation" (tr_Operation t)) (rq_Transaction q)
  ++ optionalField "baseline" (fun b => textField "operation" (br_Operation b)) (rq_Baseline q)
  ++ optionalField "nft" (fun n => textField "family" (nr_Family n) ++ textField "table" (nr_Table n) ++ textField "generation" (nr_Generation n)
                                   ++ textField "artifact_hash" (nr_ArtifactHash n)) (rq_NFT q)
  ++ optionalField "ip_plan" (fun p => textField "generation" (pr_Generation p) ++ textField "plan_hash" (pr_PlanHash p)
                                       ++ textField "operation" (pr_Operation p)) (rq_IPPlan q)
  ++ optionalField "service" (fun s => textField "name" (sq_Name s) ++ textField "operation" (sq_Operation s)) (rq_Service q)
  ++ optionalField "artifact" (fun a => textField "kind" (ar_Kind a) ++ textField "hash" (ar_Hash a) ++ textField "operation" (ar_Operation a)) (rq_Artifact q)
  ++ optionalField "global" (fun g => textField "operation" (gq_Operation g)) (rq_Global q)
  ++ optionalField "route_assignment" encodeAssignment (rq_RouteAssignment q)).

(** [DisallowUnknownFields]: every member names one of the fields. *)
Definition onlyFields (fields : list string) (members : list (string * jtext)) : result unit :=
  match first (fun m => negb (any (names m.1) fields)) members with
  | Some m => Err ("json: unknown field " +:+ m.1)
  | None => Ok ()
  end.
(** A field that is a pointer to a struct: [null] clears it, an object is decoded into
    the struct it points to. *)
Fixpoint pointerField {A} (zero : A) (decode : A -> list (string * jtext) -> result A) (current : option A) (values : list jtext) : result (option A) :=
  match values with
  | [] => Ok current
  | TNull :: rest => pointerField zero decode None rest
  | TObj members :: rest => a ← decode (default zero current) members; pointerField zero decode (Some a) rest
  | _ :: _ => Err "cannot unmarshal into a struct"
  end.
Definition textAt (name current : string) (m : list (string * jtext)) : result string := stringField current (valuesOf name m).
Definition decodeTransaction (t : TransactionRequest) (m : list (string * jtext)) : result TransactionRequest :=
  _ ← onlyFields ["operation"] m; operation ← textAt "operation" (tr_Operation t) m; Ok (mkTransactionRequest operation).
Definition decodeBaseline (b : BaselineRequest) (m : list (string * jtext)) : result BaselineRequest :=
  _ ← onlyFields ["operation"] m; operation ← textAt "operation" (br_Operation b) m; Ok (mkBaselineRequest operation).
Definition decodeNFT (n : NFTRequest) (m : list (string * jtext)) : result NFTRequest :=
  _ ← onlyFields ["family"; "table"; "generation"; "artifact_hash"] m;
  family ← textAt "family" (nr_Family n) m; table ← textAt "table" (nr_Table n) m; generation ← textAt "generation" (nr_Generation n) m;
  hash ← textAt "artifact_hash" (nr_ArtifactHash n) m; Ok (mkNFTRequest family table generation hash).
Definition decodeIPPlan (p : IPPlanRequest) (m : list (string * jtext)) : result IPPlanRequest :=
  _ ← onlyFields ["generation"; "plan_hash"; "operation"] m;
  generation ← textAt "generation" (pr_Generation p) m; hash ← textAt "plan_hash" (pr_PlanHash p) m;
  operation ← textAt "operation" (pr_Operation p) m; Ok (mkIPPlanRequest generation hash operation).
Definition decodeService (s : ServiceRequest) (m : list (string * jtext)) : result ServiceRequest :=
  _ ← onlyFields ["name"; "operation"] m;
  name ← textAt "name" (sq_Name s) m; operation ← textAt "operation" (sq_Operation s) m; Ok (mkServiceRequest name operation).
Definition decodeArtifact (a : ArtifactRequest) (m : list (string * jtext)) : result ArtifactRequest :=
  _ ← onlyFields ["kind"; "hash"; "operation"] m;
  kind ← textAt "kind" (ar_Kind a) m; hash ← textAt "hash" (ar_Hash a) m; operation ← textAt "operation" (ar_Operation a) m;
  Ok (mkArtifactRequest kind hash operation).
Definition decodeGlobal (g : GlobalRequest) (m : list (string * jtext)) : result GlobalRequest :=
  _ ← onlyFields ["operation"] m; operation ← textAt "operation" (gq_Operation g) m; Ok (mkGlobalRequest operation).
Definition decodeAssignment (a : RouteAssignmentRequest) (m : list (string * jtext)) : result RouteAssignmentRequest :=
  _ ← onlyFields ["operation"; "domain"; "route_tag"; "route_type"; "route_set_id"; "assignment_id"; "mapping_hash"] m;
  operation ← textAt "operation" (ra_Operation a) m; domain ← textAt "domain" (ra_Domain a) m; tag ← textAt "route_tag" (ra_RouteTag a) m;
  type ← textAt "route_type" (ra_RouteType a) m; set ← textAt "route_set_id" (ra_RouteSetID a) m; id ← textAt "assignment_id" (ra_AssignmentID a) m;
  hash ← textAt "mapping_hash" (ra_MappingHash a) m; Ok (mkAssignmentRequest operation domain tag type set id hash).
Definition requestFields : list string := [
  "protocol_version"; "request_id"; "command"; "generation"; "revision_id"; "transaction_id"; "rollback_token_hash"; "candidate_hash";
  "artifact_manifest_hash"; "transaction"; "baseline"; "nft"; "ip_plan"; "service"; "artifact"; "global"; "route_assignment"
].
Definition decodeRequestFields (m : list (string * jtext)) : result Request :=
  _ ← onlyFields requestFields m;
  version ← intField 0 (valuesOf "protocol_version" m); id ← textAt "request_id" "" m; command ← textAt "command" "" m;
  generation ← textAt "generation" "" m; revision ← textAt "revision_id" "" m; tx ← textAt "transaction_id" "" m;
  token ← textAt "rollback_token_hash" "" m; candidate ← textAt "candidate_hash" "" m; manifest ← textAt "artifact_manifest_hash" "" m;
  transaction ← pointerField (mkTransactionRequest "") decodeTransaction None (valuesOf "transaction" m);
  baseline ← pointerField (mkBaselineRequest "") decodeBaseline None (valuesOf "baseline" m);
  nft ← pointerField (mkNFTRequest "" "" "" "") decodeNFT None (valuesOf "nft" m);
  plan ← pointerField (mkIPPlanRequest "" "" "") decodeIPPlan None (valuesOf "ip_plan" m);
  service ← pointerField (mkServiceRequest "" "") decodeService None (valuesOf "service" m);
  artifact ← pointerField (mkArtifactRequest "" "" "") decodeArtifact None (valuesOf "artifact" m);
  global ← pointerField (mkGlobalRequest "") decodeGlobal None (valuesOf "global" m);
  assignment ← pointerField (mkAssignmentRequest "" "" "" "" "" "" "") decodeAssignment None (valuesOf "route_assignment" m);
  Ok (mkRequest version id command generation revision tx token candidate manifest transaction baseline nft plan service artifact global assignment).
Definition decodeRequest (v : jtext) : result Request := structItem decodeRequestFields v.

(** ** Evidence *)

Definition equals_sign : Ascii.ascii := Ascii.ascii_of_N 61.
Definition linefeed : Ascii.ascii := Ascii.ascii_of_N 10.
Definition keyByte (c : Ascii.ascii) : bool := negb (S.is_byte 32 c || S.is_byte 9 c || S.is_byte 13 c || S.is_byte 10 c).
Definition evidenceLine (line : string) : option (string * string) :=
  match Net.cutFirst equals_sign (S.TrimSpace line) with
  | Some (key, value) => if (key =s "") || (64 <? S.len key) || negb (S.all_bytes keyByte key) then None else Some (key, value)
  | None => None
  end.
Definition parseEvidence (raw : string) : gmap string string :=
  fold_left (fun evidence line => match evidenceLine line with Some (key, value) => <[key := value]> evidence | None => evidence end)
    (S.Split raw linefeed) ∅.
(** [evidence[key]]. *)
Definition at_key (evidence : gmap string string) (key : string) : string := default "" (evidence !! key).
Definition yes (evidence : gmap string string) (key : string) : bool := at_key evidence key =s "true".
(** The loop over a map of expected values; [true] when all of them are there. *)
Definition matches (evidence : gmap string string) (expected : list (string * string)) : bool :=
  forallb (fun p => at_key evidence p.1 =s p.2) expected.

(** What a process left: its output, and whether it exited with an error (with the
    output of errors) or could not be run. *)
Inductive outcome := Succeeded | ExitError (stderr : string) | NotRun.
Record Output := mkOutput { op_Stdout : string; op_Outcome : outcome }.
Definition succeeded (o : Output) : bool := match op_Outcome o with Succeeded => true | _ => false end.
Definition outputLimit : nat := Z.to_nat (Z.shiftl 64 10).
Definition collected (o : Output) : string :=
  String.substring 0 outputLimit (match op_Outcome o with ExitError stderr => op_Stdout o +:+ stderr | _ => op_Stdout o end).

Definition bindingOf (q : Request) (operation : string) : list (string * string) :=
  [("operation", operation); ("generation", rq_Generation q); ("transaction_id", rq_TransactionID q); ("revision_id", rq_RevisionID q);
   ("candidate_hash", rq_CandidateHash q); ("artifact_manifest_hash", rq_ArtifactManifestHash q)]
  ++ (if rq_RollbackTokenHash q =s "" then [] else [("rollback_token_hash", rq_RollbackTokenHash q)]).
Fixpoint bindingError (evidence : gmap string string) (expected : list (string * string)) : option (string * string) :=
  match expected with
  | [] => None
  | (key, want) :: rest =>
      match evidence !! key with
      | Some got =>
          if S.TrimSpace got =s "" then Some ("adapter_response_binding_missing", "adapter response omitted required " +:+ key +:+ " binding")
          else if got <>s want then Some ("adapter_response_binding_mismatch", "adapter response " +:+ key +:+ " binding did not match the request")
          else bindingError evidence rest
      | None => Some ("adapter_response_binding_missing", "adapter response omitted required " +:+ key +:+ " binding")
      end
  end.
Definition evidenceBindingError (q : Request) (evidence : gmap string string) (operation : string) : option (string * string) :=
  bindingError evidence (bindingOf q operation).

(** ** The executor *)

Record AdapterExecutor := mkExecutor { ex_AdapterPath : string; ex_ConfigPath : string; ex_InitDir : string }.
Definition initDirOf (e : AdapterExecutor) : string := if ex_InitDir e =s "" then "/etc/init.d" else ex_InitDir e.
Definition validatePaths (e : AdapterExecutor) : result unit :=
  if negb (Filepath.IsAbs (ex_AdapterPath e)) || (Filepath.Base (ex_AdapterPath e) <>s "adapter.sh") then Err "adapter path is not allowlisted"
  else if negb (Filepath.IsAbs (ex_ConfigPath e)) || (Filepath.Base (ex_ConfigPath e) <>s "default.json") then Err "config path is not allowlisted"
  else if negb (Filepath.IsAbs (initDirOf e)) || (Filepath.Clean (initDirOf e) <>s initDirOf e) then Err "init directory is not allowlisted"
  else Ok ().
Definition transactionVerbs : list (string * string) := [
  ("transaction.prepare", "prepare");
  ("transaction.validate_candidate", "validate-candidate");
  ("transaction.snapshot_current", "snapshot-current");
  ("transaction.apply_candidate", "apply-candidate");
  ("transaction.verify_management", "verify-management");
  ("transaction.verify_data_plane", "verify-data-plane");
  ("transaction.commit_prepared", "commit-prepared");
  ("transaction.finalize_commit", "finalize-commit");
  ("transaction.rollback", "rollback");
  ("transaction.clear_boot_guard", "clear-boot-guard-bound");
  ("transaction.reconcile", "reconcile")
].
Definition transactionVerb : string -> option string := namedIn transactionVerbs.
Definition ownedVerb (q : Request) : option (string * string) :=
  let command := rq_Command q in
  if command =s "nft.replace_owned_table" then Some ("replace-owned-nft", "")
  else if command =s "ip_plan.apply" then Some ("apply-ip-plan", "")
  else if command =s "ip_plan.rollback" then Some ("rollback-ip-plan", "")
  else if containsString ["artifact.install"; "artifact.remove"] command then
    match rq_Artifact q with Some a => Some ("artifact-" +:+ ar_Operation a, ar_Kind a) | None => None end
  else if containsString ["route_assignment.apply"; "route_assignment.rollback"] command then
    match rq_RouteAssignment q with Some a => Some ("route-assignment-" +:+ ra_Operation a, "") | None => None end
  else None.

(** The fields every answer of the adapter fills. *)
Definition described (o : Output) (default_operation : string) (r : Response) : Response :=
  let evidence := parseEvidence (collected o) in
  let operation := at_key evidence "operation" in
  r |> set_rs_Evidence evidence |> set_rs_Operation (if operation =s "" then default_operation else operation)
    |> set_rs_SemanticState (at_key evidence "transaction_state") |> set_rs_Reason (at_key evidence "reason").
Definition withCommit (r : Response) : Response :=
  r |> set_rs_Committed (yes (rs_Evidence r) "committed") |> set_rs_RollbackCapable (yes (rs_Evidence r) "rollback_capable").
Definition judged (refusal : option (string * string)) (r : Response) : Response :=
  match refusal with Some (code, message) => rejected code message r | None => accepted r end.
Definition refuse_if (b : bool) (code message : string) : option (string * string) := if b then Some (code, message) else None.
(** The first of several checks that refuses. *)
Definition firstRefusal (checks : list (option (string * string))) : option (string * string) :=
  match first present checks with Some c => c | None => None end.

Definition activeBinding (q : Request) (operation : string) : list (string * string) :=
  [("operation", operation); ("generation", rq_Generation q); ("transaction_id", rq_TransactionID q); ("active_transaction", rq_TransactionID q);
   ("active_revision", rq_RevisionID q); ("active_candidate_hash", rq_CandidateHash q); ("active_artifact_manifest_hash", rq_ArtifactManifestHash q)].
Definition skippedReconcile (q : Request) (evidence : gmap string string) : bool :=
  (rq_Command q =s "transaction.reconcile") && (at_key evidence "reconcile" =s "skipped-no-last-good").
(** The checks of a transaction's evidence, in the order of the code. *)
Definition transactionRefusal (q : Request) (r : Response) : option (string * string) :=
  let evidence := rs_Evidence r in let command := rq_Command q in
  let when (c : string) (b : bool) := (command =s c) && b in
  let cleared := (at_key evidence "boot_guard" =s "cleared") && (rs_SemanticState r =s "committed") in
  let reconciled := containsString ["ok"; "noop"] (at_key evidence "reconcile") in
  let reconciling := (command =s "transaction.reconcile") && negb (skippedReconcile q evidence) in
  firstRefusal [
    (if skippedReconcile q evidence then None else evidenceBindingError q evidence (transactionOperation command));
    refuse_if (when "transaction.validate_candidate" (negb (yes evidence "candidate_valid"))) "candidate_not_verified"
      "adapter did not prove that the candidate is deployable";
    refuse_if (when "transaction.rollback" (negb (yes evidence "rollback"))) "rollback_not_semantically_confirmed"
      "adapter exited successfully without proving rollback";
    refuse_if (when "transaction.clear_boot_guard" (negb cleared)) "boot_guard_not_semantically_confirmed"
      "adapter did not prove generation-bound boot guard removal";
    refuse_if (when "transaction.clear_boot_guard" (negb (matches evidence (activeBinding q "clear-boot-guard")))) "boot_guard_binding_mismatch"
      "adapter boot guard evidence did not match the committed transaction";
    refuse_if (when "transaction.commit_prepared" ((rs_SemanticState r <>s "adapter_activated") || rs_Committed r || negb (rs_RollbackCapable r)))
      "commit_prepare_not_semantically_confirmed" "adapter did not prove activation with rollback retained";
    refuse_if (when "transaction.finalize_commit" ((rs_SemanticState r <>s "committed") || negb (rs_Committed r) || rs_RollbackCapable r))
      "commit_finalize_not_semantically_confirmed" "adapter did not prove finalized commit";
    refuse_if (reconciling && negb reconciled) "reconcile_not_semantically_confirmed" "adapter did not prove a bounded reconcile result";
    refuse_if (reconciling && negb (matches evidence (activeBinding q "reconcile"))) "reconcile_binding_mismatch"
      "adapter reconcile evidence did not match the requested target";
    refuse_if (reconciling && (rs_SemanticState r <>s "committed")) "reconcile_state_not_committed" "adapter reconcile did not prove committed state"
  ].
Definition judgeTransaction (q : Request) (verb : string) (o : Output) : Response :=
  let r := withCommit (described o verb (ResponseFrom q false "" "")) in
  let r := r |> set_rs_ManagementVerified (yes (rs_Evidence r) "management_ok") |> set_rs_DataPlaneVerified (yes (rs_Evidence r) "data_plane_ok") in
  if negb (succeeded o) then rejected "adapter_exit_nonzero" "owned adapter operation failed" r
  else
    let refusal := transactionRefusal q r in
    judged refusal (if skippedReconcile q (rs_Evidence r) && negb (present refusal) then set_rs_SemanticState "skipped" r else r).
Definition judgeBaseline (q : Request) (o : Output) : Response :=
  let r := ResponseFrom q false "" "" in
  let r := described o "" r in
  if negb (succeeded o) then rejected "adapter_exit_nonzero" "baseline boot guard clear failed" r
  else judged (firstRefusal [
    refuse_if (negb (matches (rs_Evidence r) [("operation", "clear-boot-guard-baseline"); ("generation", rq_Generation q); ("transaction_id", "baseline");
        ("revision_id", rq_RevisionID q); ("candidate_hash", rq_CandidateHash q); ("active_revision", rq_RevisionID q);
        ("active_candidate_hash", rq_CandidateHash q)]))
      "baseline_boot_guard_binding_mismatch" "adapter baseline clear evidence did not match the request";
    refuse_if ((at_key (rs_Evidence r) "boot_guard" <>s "cleared") || (rs_SemanticState r <>s "baseline_confirmed"))
      "boot_guard_not_semantically_confirmed" "adapter did not prove baseline-bound boot guard removal"]) r.
Definition judgeGlobal (q : Request) (verb : string) (o : Output) : Response :=
  let r := described o verb (ResponseFrom q false "" "") |> set_rs_SemanticState "" in
  if negb (succeeded o) then rejected "adapter_exit_nonzero" "owned global operation failed" r
  else judged (refuse_if ((verb =s "clear-boot-guard") && (at_key (rs_Evidence r) "boot_guard" <>s "cleared")) "boot_guard_not_semantically_confirmed"
                 "adapter did not prove boot guard removal") r.
Definition judgeOwned (q : Request) (o : Output) : Response :=
  let r := withCommit (described o (rq_Command q) (ResponseFrom q false "" "")) in
  if negb (succeeded o) then rejected "adapter_exit_nonzero" "owned adapter operation failed" r
  else judged (evidenceBindingError q (rs_Evidence r) (rq_Command q)) r.
Definition judgeAssignment (q : Request) (a : RouteAssignmentRequest) (o : Output) : Response :=
  let r := withCommit (described o ("route_assignment." +:+ ra_Operation a) (ResponseFrom q false "" "")) in
  let evidence := rs_Evidence r in
  if negb (succeeded o) then rejected "adapter_exit_nonzero" "owned route assignment operation failed" r
  else
    let refusal := firstRefusal [
      evidenceBindingError q evidence (rs_Operation r);
      refuse_if (negb (matches evidence [("domain", ra_Domain a); ("route_tag", ra_RouteTag a); ("route_type", ra_RouteType a);
          ("route_set_id", ra_RouteSetID a); ("assignment_id", ra_AssignmentID a); ("mapping_hash", ra_MappingHash a)]))
        "route_assignment_binding_mismatch" "adapter route assignment evidence did not match the request";
      refuse_if ((ra_Operation a =s "apply") && negb (yes evidence "applied" && yes evidence "verified")) "route_assignment_not_semantically_confirmed"
        "adapter did not prove route assignment apply and verification";
      refuse_if ((ra_Operation a =s "rollback") && negb (yes evidence "rollback" && yes evidence "verified"))
        "route_assignment_rollback_not_semantically_confirmed" "adapter did not prove route assignment rollback and verification"] in
    judged refusal (if present refusal then r else set_rs_RouteAssignment (Some (mkAssignmentResponse (ra_Domain a) (ra_RouteTag a) (ra_RouteType a)
      (ra_RouteSetID a) (ra_AssignmentID a) (ra_MappingHash a) (yes evidence "applied") (yes evidence "verified"))) r).
Definition judgeReconcile (q : Request) (o : Output) : Response :=
  let r := described o (rq_Command q) (ResponseFrom q false "" "") in
  if negb (succeeded o) then rejected "adapter_exit_nonzero" "owned route assignment reconcile failed" r
  else judged (firstRefusal [
    evidenceBindingError q (rs_Evidence r) (rs_Operation r);
    refuse_if (negb (yes (rs_Evidence r) "reconciled" && yes (rs_Evidence r) "verified")) "route_assignment_reconcile_not_semantically_confirmed"
      "adapter did not prove route assignment reconcile"]) r.

Section Executor.
Context (e : AdapterExecutor) {K : Type}.
(** A process with its arguments, the kind of a file ([os.Lstat]: regular, symbolic
    link) and the text of a file. *)
Context (run : string -> list string -> K -> K * Output) (lstat : string -> io K (bool * bool)) (readFile : string -> io K string).

Definition adapter (verb : string) (arguments : list string) : K -> K * Output := run (ex_AdapterPath e) (verb :: ex_ConfigPath e :: arguments).
Definition boundTo (q : Request) : list string := [rq_TransactionID q; rq_RevisionID q; rq_CandidateHash q; rq_ArtifactManifestHash q].
Definition refuse (q : Request) (code message : string) : K -> K * Response := fun k => (k, rejected code message (ResponseFrom q false "" "")).

Definition executeTransaction (q : Request) : K -> K * Response :=
  match transactionVerb (rq_Command q) with
  | None => refuse q "unknown_command" "transaction operation is not allowlisted"
  | Some verb => fun k => let '(k, o) := adapter verb (boundTo q) k in (k, judgeTransaction q verb o)
  end.
Definition executeBaselineBootGuardClear (q : Request) : K -> K * Response := fun k =>
  let '(k, o) := adapter "clear-boot-guard-baseline" ["baseline"; rq_RevisionID q; rq_CandidateHash q] k in (k, judgeBaseline q o).
Definition executeGlobal (q : Request) : K -> K * Response :=
  let verb := globalOperation (rq_Command q) in
  if verb =s "" then refuse q "unknown_command" "global operation is not allowlisted"
  else fun k => let '(k, o) := adapter verb [] k in (k, judgeGlobal q verb o).
Definition executeOwned (q : Request) : K -> K * Response :=
  match ownedVerb q with
  | None => refuse q "unknown_command" "owned operation is not allowlisted"
  | Some (verb, extra) => fun k => let '(k, o) := adapter verb (boundTo q ++ if extra =s "" then [] else [extra]) k in (k, judgeOwned q o)
  end.
Definition executeRouteAssignment (q : Request) : K -> K * Response :=
  match rq_RouteAssignment q, ownedVerb q with
  | None, _ => refuse q "route_assignment_request_missing" "route assignment payload is required"
  | _, None => refuse q "unknown_command" "route assignment operation is not allowlisted"
  | Some a, Some (verb, _) => fun k =>
      let '(k, o) := adapter verb (boundTo q ++ [ra_Domain a; ra_RouteTag a; ra_RouteType a; ra_RouteSetID a; ra_AssignmentID a; ra_MappingHash a; rq_RequestID q]) k in
      (k, judgeAssignment q a o)
  end.
Definition executeRouteAssignmentReconcile (q : Request) : K -> K * Response := fun k =>
  let '(k, o) := adapter "route-assignment-reconcile" (boundTo q ++ [rq_RequestID q]) k in (k, judgeReconcile q o).

Definition profilesManifest : string := "/etc/router-policy/zapret/profiles.manifest".
Definition ownedDeviceZapretService (name : string) : K -> K * bool := fun k =>
  match readFile profilesManifest k with
  | (k, Err _) => (k, false)
  | (k, Ok raw) =>
      (k, if Z.shiftl 64 10 <? S.len raw then false
          else any (fun line => S.Contains line ("|/etc/init.d/" +:+ name +:+ "|")) (S.Split raw linefeed))
  end.
(** The state after an operation, from whether the service is running. *)
Definition judgeService (operation : string) (running : bool) (r : Response) : Response :=
  let done := r |> accepted |> set_rs_Operation operation in
  if containsString ["start"; "reload"] operation then
    if running then set_rs_SemanticState "running" done
    else rejected "service_not_running" "managed service did not prove running after operation" r
  else if operation =s "stop" then
    if running then rejected "service_still_running" "managed service did not prove stopped after operation" r
    else set_rs_SemanticState "stopped" done
  else done.
Definition operateService (q : Request) (path operation : string) : K -> K * Response := fun k =>
  let refuse := refuse q in
  match lstat path k with
  | (k, Ok (true, false)) =>
      let '(k, o) := run path [operation] k in
      if negb (succeeded o) then refuse "service_operation_failed" ("managed service operation failed: " +:+ operation) k
      else let '(k, o) := run path ["running"] k in (k, judgeService operation (succeeded o) (ResponseFrom q false "" ""))
  | (k, _) => refuse "service_not_owned" "allowlisted service script is unavailable" k
  end.
Definition executeService (q : Request) : K -> K * Response :=
  match rq_Service q with
  | None => refuse q "panic" "nil service"
  | Some s =>
      let initDir := initDirOf e in
      let path := Filepath.Join [initDir; sq_Name s] in
      if (Filepath.Dir path <>s initDir) || (Filepath.Base path <>s sq_Name s) then refuse q "service_path_not_allowlisted" "service path is not owned"
      else if S.HasPrefix (sq_Name s) profilePrefix && (Filepath.Clean initDir =s "/etc/init.d") then fun k =>
        let '(k, owned) := ownedDeviceZapretService (sq_Name s) k in
        if owned : bool then operateService q path (sq_Operation s) k
        else refuse q "service_not_owned" "device-scoped Zapret service is not bound to the active profile manifest" k
      else operateService q path (sq_Operation s)
  end.

Definition Execute (q : Request) : K -> K * Response :=
  let command := rq_Command q in
  match ValidateRequest q, validatePaths e with
  | Some err, _ => refuse q (errorCode err) "helper request rejected"
  | None, Err message => refuse q "helper_configuration_invalid" message
  | None, Ok _ =>
      if S.HasPrefix command "transaction." then executeTransaction q
      else if command =s "recovery.clear_boot_guard_baseline" then executeBaselineBootGuardClear q
      else if S.HasPrefix command "service." then executeService q
      else if S.HasPrefix command "nft." || S.HasPrefix command "ip_plan." || S.HasPrefix command "artifact." then executeOwned q
      else if S.HasPrefix command "global." then executeGlobal q
      else if S.HasPrefix command "route_assignment." then
        if command =s "route_assignment.reconcile" then executeRouteAssignmentReconcile q else executeRouteAssignment q
      else refuse q "unknown_command" "helper command is not allowlisted"
  end.

(** *** The server *)

Definition requestLimit : nat := Z.to_nat (Z.shiftl 64 10).
(** The first value of the bytes a client sent. *)
Definition readRequest (input : string) : result Request :=
  let input := String.substring 0 requestLimit input in
  match readValue (2 * String.length input + 1) 0 input with
  | Some (v, _) => decodeRequest v
  | None => Err "invalid JSON"
  end.
Definition plainRejection (code message : string) : Response :=
  ResponseFrom (mkRequest ProtocolVersion "" "" "" "" "" "" "" "" None None None None None None None None) false code message.
Definition serveRequest (q : Request) : K -> K * Response := fun k =>
  match ValidateRequest q with
  | Some err => (k, ResponseFrom q false (errorCode err) "helper request rejected")
  | None =>
      let '(k, r) := Execute q k in
      (k, if rs_ProtocolVersion r =? 0 then set_rs_ProtocolVersion ProtocolVersion r else r)
  end.
(** One connection; [peer] is the user at its other end. *)
Definition serveConnection (peer : option Z) (expectedPeerUID : Z) (input : string) : K -> K * Response := fun k =>
  match peer with
  | Some uid =>
      match ValidatePeerUID uid expectedPeerUID with
      | Some _ => (k, plainRejection "peer_rejected" "helper peer credentials rejected")
      | None =>
          match readRequest input with
          | Err _ => (k, plainRejection "invalid_json" "invalid helper request")
          | Ok q => serveRequest q k
          end
      end
  | None => (k, plainRejection "peer_rejected" "helper peer credentials rejected")
  end.
End Executor.

(** *** The client *)

(** How a conversation on the socket ends: it cannot be opened or written, the answer
    cannot be read, or there is an answer, with what follows it. *)
Inductive conversation := NotConnected (e : string) | NotWritten (e : string) | NotRead (e : string) | Answered (r : Response) (trailing : option (option string)).
Definition zero_Response : Response := mkResponse 0 "" "" "" false false false "" "" "" "" "" "" "" "" "" "" "" false false ∅ None.
Definition sameEnvelope (q : Request) (r : Response) : bool :=
  (rs_ProtocolVersion r =? ProtocolVersion) && (rs_RequestID r =s rq_RequestID q) && (rs_Command r =s rq_Command q) && (rs_Generation r =s rq_Generation q)
  && (rs_RevisionID r =s rq_RevisionID q) && (rs_TransactionID r =s rq_TransactionID q) && (rs_CandidateHash r =s rq_CandidateHash q)
  && (rs_ArtifactManifestHash r =s rq_ArtifactManifestHash q) && (rs_RollbackTokenHash r =s rq_RollbackTokenHash q).
(** [trailing] is [None] at the end of the answer, else the error of reading on, if any. *)
Definition checkAnswer (q : Request) (r : Response) (trailing : option (option string)) : Response * option string :=
  match trailing with
  | Some None => (r, Some "helper response contains trailing JSON")
  | Some (Some e) => (r, Some ("read helper response trailing data: " +:+ e))
  | None =>
      if negb (sameEnvelope q r) then (r, Some "helper response binding mismatch")
      else if negb (rs_Accepted r) then (r, Some ("helper operation rejected: " +:+ rs_ErrorCode r))
      else (r, None)
  end.
Definition helperErrorText (e : helperError) : string :=
  match e with
  | ErrUnknownCommand => "helper command is not allowlisted"
  | ErrInvalidRequest => "helper request is invalid"
  | ErrPeerRejected => "helper peer credentials rejected"
  end.
Definition Call {K} (converse : Request -> K -> K * conversation) (socket : string) (q : Request) : K -> K * (Response * option string) := fun k =>
  if (socket =s "") || negb (Filepath.IsAbs socket) || (Filepath.Base socket <>s "helper.sock") then
    (k, (zero_Response, Some "helper socket path is not allowlisted"))
  else match ValidateRequest q with
  | Some e => (k, (zero_Response, Some (helperErrorText e)))
  | None =>
      match converse q k with
      | (k, NotConnected e) => (k, (zero_Response, Some ("connect helper: " +:+ e)))
      | (k, NotWritten e) => (k, (zero_Response, Some ("write helper request: " +:+ e)))
      | (k, NotRead e) => (k, (zero_Response, Some ("read helper response: " +:+ e)))
      | (k, Answered r trailing) => (k, checkAnswer q r trailing)
      end
  end.
