(* ===== verification/Rendered.v ===== *)
(** * The firewall and the resolver of a deployment

    [renderNFT] and [renderDNSMasq] of [internal/artifact/artifact.go]: the texts that
    put the policies of the domains into effect.  dnsmasq adds the addresses it
    answers for a domain to the sets of its route and service, and asks the resolver of
    the route; nftables gives the packets to the addresses of a route the treatment of
    the route.

    A text is the list of its lines.  SHA-256 (its hexadecimal text) is a parameter. *)
From Stdlib Require Import ZArith Lia.
From stdpp Require Import base list strings gmap pretty.
From S2P Require Import Prelude Net ZapretProfile Config Json Override Validation NetProofs ValidationProofs ValidationStable Artifact ArtifactProofs.
From S2P Require Import ArtifactExamples Helper.

Open Scope Z_scope.

Definition unlines (lines : list string) : string := String.concat "" (map (fun line => line +:+ nl) lines).
(** [safeComment]. *)
Fixpoint safeComment (value : string) : string :=
  match value with
  | String c rest => if S.is_byte 34 c then safeComment rest else String c (safeComment rest)
  | EmptyString => EmptyString
  end.
Definition commented (s : string) : string := " comment " +:+ quoted s.

(** [^[A-Za-z_][A-Za-z0-9_]{0,31}$] *)
Definition nftNamePattern (s : string) : bool :=
  match s with
  | String c rest =>
      (S.lower_letter c || S.upper_letter c || S.is_byte 95 c) && (S.len rest <=? 31)
      && S.all_bytes (fun c => S.lower_letter c || S.upper_letter c || S.is_byte 95 c || S.digit c) rest
  | EmptyString => false
  end.
Definition nftIdentity (c : Config) : result (string * string) :=
  let family := firstNonEmpty (NFTFamily (c_OpenWrt c)) "inet" in
  let table := firstNonEmpty (NFTTable (c_OpenWrt c)) "router_policy" in
  if (family <>s "inet") || negb (nftNamePattern table) then Err "generated policy requires nft family inet and a safe table name" else Ok (family, table).
Definition nftStringSet (values : list string) : string :=
  let unique := elements (list_to_set (List.filter interfaceNamePattern values) : gset string) in
  "{ " +:+ S.Join (gosort S.ltb (map quoted unique)) ", " +:+ " }".
Definition dnsmasqServer (endpoint : string) : result string :=
  match Net.SplitHostPort endpoint with
  | None => Err "invalid DNS endpoint"
  | Some (host, port) =>
      if bool_decide (IP.ParseIP host = None) then Err "invalid DNS endpoint"
      else match Atoi port with
      | Some portNumber =>
          if (portNumber <? 1) || (65535 <? portNumber) then Err "invalid DNS endpoint port"
          else Ok (if S.Contains host ":" then "[" +:+ host +:+ "]#" +:+ port else host +:+ "#" +:+ port)
      | None => Err "invalid DNS endpoint port"
      end
  end.
Definition dnsProxyForRoute (plans : list DNSProxyPlan) (routeTag : string) : option DNSProxyPlan := first (fun p => dn_RouteTag p =s routeTag) plans.
Definition nftAction (type : string) : string :=
  if type =s "direct" then "direct_bypass" else if type =s "smart_dns" then "smart_dns" else if type =s "zapret" then "zapret"
  else if type =s "vless" then "xray_tproxy" else if type =s "external_socks" then "external_socks_tproxy" else if type =s "drop" then "drop" else "unsupported".
Definition nftProbeAction (type : string) : string * string :=
  if type =s "direct" then ("direct_bypass", "") else if type =s "smart_dns" then ("smart_dns", "") else if type =s "drop" then ("drop_probe", "")
  else if type =s "zapret" then ("zapret", "forced_tcp") else if type =s "vless" then ("xray", "processed")
  else if type =s "external_socks" then ("external_socks", "processed") else ("unsupported", "").

(** [config.DNSObservationPath]. *)
Definition DNSObservationPath (runtimeDir : string) : string :=
  if Filepath.Clean runtimeDir =s "/tmp/router-policy" then "/var/run/dnsmasq/router-policy-observations.log"
  else Filepath.Join [runtimeDir; "dns-observations.log"].
Definition pathByte (c : Ascii.ascii) : bool := negb (S.is_byte 13 c || S.is_byte 10 c || S.is_byte 9 c || S.is_byte 32 c || S.is_byte 35 c).

Section Render.
Context (sha256 : string -> string).
Notation routeID := (routeID sha256).
Definition serviceID (name : string) : string := String.substring 0 12 (sha256 (S.ToLower name)).

(** ** The routes that have domains *)

Record routeAssignment := mkRouteAssignment { ra_Route : Route; ra_ID : string; ra_Services : list string }.
Definition withService (name : string) (services : list string) : list string :=
  if (name <>s "") && negb (containsString services name) then services ++ [name] else services.
Fixpoint addAssignment (p : domainPolicy) (l : list routeAssignment) : list routeAssignment :=
  match l with
  | [] => [mkRouteAssignment (po_Route p) (routeID (r_Tag (po_Route p))) (withService (po_ServiceName p) [])]
  | a :: l =>
      if r_Tag (ra_Route a) =s r_Tag (po_Route p) then mkRouteAssignment (ra_Route a) (ra_ID a) (withService (po_ServiceName p) (ra_Services a)) :: l
      else a :: addAssignment p l
  end.
Definition assignmentLess (x y : routeAssignment) : bool := routeLess (ra_Route x) (ra_Route y).
Definition buildRouteAssignments (policies : list domainPolicy) : list routeAssignment :=
  gosort assignmentLess (fold_left (fun l p => addAssignment p l) policies []).

(** ** nftables *)

Definition marking (mark meta : string) : string := "ct mark set " +:+ mark +:+ " meta mark set " +:+ meta +:+ " counter ".
Definition renderRouteAction (c : Config) (route : Route) (plan : IPPlan) : result (list string) :=
  let mark := firstNonEmpty (r_Mark route) (markForType c (r_Type route)) in
  let dropMark := markForType c "drop" in
  let comment suffix := commented ("rp route=" +:+ safeComment (r_Tag route) +:+ " action=" +:+ nftAction (r_Type route) +:+ suffix) in
  let type := r_Type route in
  match markNumber mark with
  | Err e => Err ("route " +:+ r_Tag route +:+ " has invalid classification mark: " +:+ e)
  | Ok _ =>
      if containsString ["direct"; "smart_dns"] type then Ok ["    " +:+ marking mark mark +:+ "return" +:+ comment " inherited_mark=cleared"]
      else if type =s "zapret" then
        let z := pn_Zapret plan in
        if negb (zp_Enabled z) || (zp_QueueNum z <? 1) then Err ("route " +:+ r_Tag route +:+ " requires a managed Zapret plan")
        else Ok [
          "    udp dport 443 " +:+ marking dropMark dropMark +:+ "drop" +:+ comment " quic=forced_tcp";
          "    tcp dport { 80, 443 } " +:+ marking mark mark +:+ "queue num " +:+ pretty (zp_QueueNum z) +:+ comment " nfqueue=required";
          "    " +:+ marking mark mark +:+ "return" +:+ comment " non_http=direct"]
      else if containsString ["vless"; "external_socks"] type then
        let t := pn_TransparentProxy plan in
        if negb (tp_Enabled t) || (tp_Port t <? 1) then Err ("route " +:+ r_Tag route +:+ " requires a transparent proxy plan")
        else match markNumber (tp_TProxyMark t) with
        | Err e => Err ("route " +:+ r_Tag route +:+ " has invalid TPROXY mark: " +:+ e)
        | Ok _ => Ok [
            "    meta nfproto ipv4 meta l4proto { tcp, udp } ct mark set " +:+ mark +:+ " tproxy ip to " +:+ tp_IPv4Listen t +:+ ":" +:+ pretty (tp_Port t)
              +:+ " meta mark set " +:+ tp_TProxyMark t +:+ " counter accept" +:+ comment " family=ipv4";
            "    meta nfproto ipv6 meta l4proto { tcp, udp } ct mark set " +:+ mark +:+ " tproxy ip6 to [" +:+ tp_IPv6Listen t +:+ "]:" +:+ pretty (tp_Port t)
              +:+ " meta mark set " +:+ tp_TProxyMark t +:+ " counter accept" +:+ comment " family=ipv6";
            "    " +:+ marking dropMark dropMark +:+ "drop" +:+ comment " unsupported_transport=drop"]
        end
      else if type =s "drop" then Ok ["    " +:+ marking mark mark +:+ "drop" +:+ comment ""]
      else Err ("unsupported route type in nft renderer: " +:+ type)
  end.

Definition setLine (name type : string) : string := "  set " +:+ name +:+ " { type " +:+ type +:+ "; flags interval,timeout; }".
Definition setLines (name : string) : list string := [setLine (name +:+ "_v4") "ipv4_addr"; setLine (name +:+ "_v6") "ipv6_addr"].
(** The pairs [i < j] of a list. *)
Fixpoint pairs {A} (l : list A) : list (A * A) := match l with [] => [] | x :: l => map (fun y => (x, y)) l ++ pairs l end.
Definition guardLines (dropMark : string) (pair : routeAssignment * routeAssignment) : list string :=
  let '(one, other) := pair in
  let rest := marking dropMark dropMark +:+ "drop" +:+ commented ("rp event=DOMAIN_IP_POLICY_COLLISION routes=" +:+ safeComment (r_Tag (ra_Route one)) +:+ ","
                                                                 +:+ safeComment (r_Tag (ra_Route other))) in
  ["    ip daddr @route_" +:+ ra_ID one +:+ "_v4 ip daddr @route_" +:+ ra_ID other +:+ "_v4 " +:+ rest;
   "    ip6 daddr @route_" +:+ ra_ID one +:+ "_v6 ip6 daddr @route_" +:+ ra_ID other +:+ "_v6 " +:+ rest].
Definition classifyLines (a : routeAssignment) : list string :=
  ["    ip daddr @route_" +:+ ra_ID a +:+ "_v4 jump rp_route_" +:+ ra_ID a; "    ip6 daddr @route_" +:+ ra_ID a +:+ "_v6 jump rp_route_" +:+ ra_ID a].
Definition chainLines (name : string) (body : list string) : list string := ("  chain " +:+ name +:+ " {") :: body ++ ["  }"].
Fixpoint routeChains (c : Config) (plan : IPPlan) (l : list routeAssignment) : result (list string) :=
  match l with
  | [] => Ok []
  | a :: l => body ← renderRouteAction c (ra_Route a) plan; rest ← routeChains c plan l; Ok (chainLines ("rp_route_" +:+ ra_ID a) body ++ rest)
  end.
Definition probeLines (c : Config) (plan : IPPlan) (route : Route) : list string :=
  let mark := firstNonEmpty (r_Mark route) (markForType c (r_Type route)) in
  if mark =s "" then []
  else
    let '(action, quic) := nftProbeAction (r_Type route) in
    let comment := "rp route=" +:+ safeComment (r_Tag route) +:+ " action=" +:+ action +:+ (if quic =s "" then "" else " quic=" +:+ quic) in
    let marked := "    meta mark " +:+ mark in
    if r_Type route =s "drop" then [marked +:+ " ct mark set " +:+ mark +:+ " counter drop" +:+ commented comment]
    else if r_Type route =s "zapret" then [
      marked +:+ " udp dport 443 " +:+ marking (markForType c "drop") (markForType c "drop") +:+ "drop" +:+ commented (comment +:+ " quic=forced_tcp");
      marked +:+ " tcp dport { 80, 443 } ct mark set " +:+ mark +:+ " counter queue num " +:+ pretty (zp_QueueNum (pn_Zapret plan))
        +:+ commented (comment +:+ " nfqueue=required")]
    else [marked +:+ " ct mark set " +:+ mark +:+ " counter" +:+ commented comment].
Definition bypassLines (c : Config) : list string :=
  let mark := XrayBypassMark (c_OpenWrt c) in
  if mark =s "" then [] else ["    meta mark " +:+ mark +:+ " counter return" +:+ commented "rp action=xray_recursion_bypass"].
Definition privateIPv4 : string :=
  "    ip daddr { 0.0.0.0/8, 10.0.0.0/8, 100.64.0.0/10, 127.0.0.0/8, 169.254.0.0/16, 172.16.0.0/12, 192.168.0.0/16, 224.0.0.0/4, 240.0.0.0/4 } return".
Definition privateIPv6 : string := "    ip6 daddr { ::/128, ::1/128, fc00::/7, fe80::/10, ff00::/8 } return".
Definition interceptLine (plan : IPPlan) (protocol : string) : string :=
  "    iifname " +:+ nftStringSet (pn_LANInterfaces plan) +:+ " " +:+ protocol +:+ " dport 53 counter redirect to :53"
  +:+ commented ("rp action=dns_intercept protocol=" +:+ protocol).
Definition dotLine (protocol : string) : string := "    " +:+ protocol +:+ " dport 853 counter drop" +:+ commented ("rp action=dot_block protocol=" +:+ protocol).
Definition bindingLine (binding : Binding) : string :=
  "# generated transaction=" +:+ b_TransactionID binding +:+ " revision=" +:+ b_RevisionID binding +:+ " candidate=" +:+ b_CandidateHash binding.

(** The lines of the table, up to the rules of the devices. *)
Definition nftLines (c : Config) (binding : Binding) (routes : list Route) (plan : IPPlan) (policies : list domainPolicy) : result (list string) :=
  '(family, table) ← nftIdentity c;
  let assignments := buildRouteAssignments policies in
  let dropMark := markForType c "drop" in
  let lan := negb (length (pn_LANInterfaces plan) =? 0)%nat in
  _ ← (match markNumber dropMark with Ok _ => Ok () | Err e => Err ("invalid drop mark: " +:+ e) end);
  chains ← routeChains c plan assignments;
  Ok ([bindingLine binding; "table " +:+ family +:+ " " +:+ table +:+ " {"; " " +:+ commented "router-policy owner=flintroute"]
      ++ flat_map (fun name => setLines ("svc_" +:+ serviceID name)) (sortedServiceNames c)
      ++ flat_map (fun a => setLines ("route_" +:+ ra_ID a)) assignments
      ++ chainLines "rp_prerouting" (
           ["    type filter hook prerouting priority mangle; policy accept;"] ++ bypassLines c
           ++ (if lan then ["    iifname " +:+ nftStringSet (pn_LANInterfaces plan) +:+ " jump rp_lan_ingress"]
               else ["    counter return" +:+ commented "rp status=UNVERIFIED reason=lan_interfaces_unavailable"]))
      ++ chainLines "rp_dns_redirect" (
           ["    type nat hook prerouting priority dstnat; policy accept;"] ++ (if lan then [interceptLine plan "udp"; interceptLine plan "tcp"] else []))
      ++ chainLines "rp_lan_ingress" [
           "    fib daddr type local counter return" +:+ commented "rp action=router_local_bypass"; dotLine "udp"; dotLine "tcp"; privateIPv4; privateIPv6;
           "    jump rp_collision_guard"; "    jump rp_classify"]
      ++ chainLines "rp_collision_guard" (flat_map (guardLines dropMark) (pairs assignments))
      ++ chainLines "rp_classify" (flat_map classifyLines assignments)
      ++ chains
      ++ chainLines "probe_output" (
           ["    type route hook output priority mangle; policy accept;"] ++ bypassLines c ++ flat_map (probeLines c plan) routes)
      ++ chainLines "rp_forward_guard" [
           "    type filter hook forward priority -5; policy accept;";
           "    meta mark " +:+ dropMark +:+ " counter drop" +:+ commented "rp action=drop_guard source=meta";
           "    ct mark " +:+ dropMark +:+ " counter drop" +:+ commented "rp action=drop_guard source=conntrack"]).
Definition renderNFT (c : Config) (binding : Binding) (routes : list Route) (plan : IPPlan) (policies : list domainPolicy) : result string :=
  lines ← nftLines c binding routes plan policies;
  let devices := z_DeviceProfiles (c_Zapret c) in
  profileRules ← (if (length devices =? 0)%nat then Ok ""
                  else match RenderRules devices with Ok s => Ok s | Err e => Err ("render device-scoped Zapret rules: " +:+ e) end);
  Ok (unlines lines +:+ profileRules +:+ unlines ["}"]).

(** ** dnsmasq *)

Definition setRef (version family table name : string) : string := version +:+ "#" +:+ family +:+ "#" +:+ table +:+ "#" +:+ name +:+ "_v" +:+ version.
Definition setRefs (family table name : string) : list string := [setRef "4" family table name; setRef "6" family table name].
(** The sets the addresses of a domain go to. *)
Definition setNames (p : domainPolicy) : list string :=
  (if po_ServiceName p =s "" then [] else ["svc_" +:+ serviceID (po_ServiceName p)]) ++ ["route_" +:+ routeID (r_Tag (po_Route p))].
Definition nftsetLine (family table : string) (p : domainPolicy) : string :=
  "nftset=/" +:+ po_Domain p +:+ "/" +:+ S.Join (flat_map (setRefs family table) (setNames p)) ",".
(** The resolver of a domain: [None] for the default one. *)
Definition serverOf (plan : IPPlan) (p : domainPolicy) : result (option string) :=
  let route := po_Route p in
  if r_Type route =s "smart_dns" then
    if r_DNSServer route =s "" then Err ("route " +:+ r_Tag route +:+ " has no Smart DNS endpoint")
    else match dnsmasqServer (r_DNSServer route) with Ok s => Ok (Some s) | Err e => Err ("route " +:+ r_Tag route +:+ ": " +:+ e) end
  else if r_Type route =s "vless" then
    match dnsProxyForRoute (pn_DNSProxies plan) (r_Tag route) with
    | None => Err ("route " +:+ r_Tag route +:+ " has no bound Xray DNS proxy")
    | Some proxy =>
        match dnsmasqServer (Net.JoinHostPort (dn_Listen proxy) (pretty (dn_Port proxy))) with
        | Ok s => Ok (Some s)
        | Err e => Err ("route " +:+ r_Tag route +:+ " DNS proxy: " +:+ e)
        end
    end
  else if r_Type route =s "drop" then Ok (Some "")
  else Ok None.
Definition serverLines (p : domainPolicy) (server : option string) : list string :=
  match server with Some s => ["server=/" +:+ po_Domain p +:+ "/" +:+ s] | None => [] end.
Fixpoint domainLines (family table : string) (plan : IPPlan) (policies : list domainPolicy) : result (list string) :=
  match policies with
  | [] => Ok []
  | p :: rest =>
      server ← serverOf plan p;
      more ← domainLines family table plan rest;
      Ok ((nftsetLine family table p :: serverLines p server) ++ more)
  end.
Definition renderDNSMasq (c : Config) (binding : Binding) (plan : IPPlan) (policies : list domainPolicy) : result (list string) :=
  '(family, table) ← nftIdentity c;
  logging ← (if UnknownDomainBackgroundCheck (c_Policy c) then
               let log := DNSObservationPath (st_RuntimeDir (c_Storage c)) in
               if negb (Filepath.IsAbs log) || negb (S.all_bytes pathByte log) then Err "DNS observation log path is unsafe"
               else Ok ["log-queries=extra"; "log-async=25"; "log-facility=" +:+ log]
             else Ok []);
  domains ← domainLines family table plan policies;
  Ok ([bindingLine binding; "# Domain answers populate timeout-bound service and route sets.";
       "# DROP domains use local NXDOMAIN and are never forwarded upstream."; "stop-dns-rebind"] ++ logging ++ domains).
End Render.

(** ** The domains in the text of dnsmasq *)

(** The lines that say something about domain [d]. *)
Definition names (d line : string) : bool := S.HasPrefix line ("nftset=/" +:+ d +:+ "/") || S.HasPrefix line ("server=/" +:+ d +:+ "/").

Lemma prefix_app a s t : String.prefix (a +:+ s) (a +:+ t) = String.prefix s t.
Proof. induction a as [|c a IH]; [done|]. cbn. destruct (Ascii.ascii_dec c c); [exact IH|done]. Qed.
Definition slashFree (s : string) : Prop := S.all_bytes (fun c => negb (Ascii.eqb c Filepath.slash)) s = true.
Lemma prefix_cons a b s t : String.prefix (String a s) (String b t) = if Ascii.ascii_dec a b then String.prefix s t else false.
Proof. done. Qed.
Lemma slash_prefix d : forall e rest, slashFree d -> slashFree e -> S.HasPrefix (e +:+ "/" +:+ rest) (d +:+ "/") = (e =s d).
Proof.
  unfold slashFree, S.HasPrefix.
  induction d as [|c d IH]; intros [|x e] rest Hd He; cbn [S.all_bytes] in *.
  - by destruct rest.
  - apply andb_true_iff in He as [Hx _]. apply negb_true_iff, Ascii.eqb_neq in Hx.
    change (String.prefix (String Filepath.slash EmptyString) (String x (e +:+ "/" +:+ rest)) = false). rewrite prefix_cons.
    by destruct (Ascii.ascii_dec _ x).
  - apply andb_true_iff in Hd as [Hc _]. apply negb_true_iff, Ascii.eqb_neq in Hc.
    change (String.prefix (String c (d +:+ "/")) (String Filepath.slash rest) = false). rewrite prefix_cons. by destruct (Ascii.ascii_dec c _).
  - apply andb_true_iff in Hd as [_ Hd], He as [_ He].
    change (String.prefix (String c (d +:+ "/")) (String x (e +:+ "/" +:+ rest)) = (if Ascii.eqb x c then e =s d else false)).
    rewrite prefix_cons. destruct (Ascii.ascii_dec c x) as [<-|Hne].
    + by rewrite Ascii.eqb_refl, IH.
    + apply not_eq_sym, Ascii.eqb_neq in Hne. by rewrite Hne.
Qed.
Lemma names_nftset d p rest : slashFree d -> slashFree p -> names d ("nftset=/" +:+ p +:+ "/" +:+ rest) = (p =s d).
Proof.
  intros Hd Hp. unfold names, S.HasPrefix. rewrite prefix_app. fold (S.HasPrefix (p +:+ "/" +:+ rest) (d +:+ "/")). rewrite slash_prefix by done.
  apply orb_false_r.
Qed.
Lemma names_server d p rest : slashFree d -> slashFree p -> names d ("server=/" +:+ p +:+ "/" +:+ rest) = (p =s d).
Proof. intros Hd Hp. unfold names, S.HasPrefix. rewrite prefix_app. fold (S.HasPrefix (p +:+ "/" +:+ rest) (d +:+ "/")). by rewrite slash_prefix. Qed.

(** Domain names have no slash. *)
Lemma normal_slashFree toASCII d : normal toASCII d -> slashFree d.
Proof.
  intros (raw & H). unfold normalizeDomain in H. apply bind_Some in H as (a & _ & H). cbv zeta in H.
  set (x := S.ToLower (S.TrimSuffix a ".")) in *. destruct (_ || _); [done|]. destruct (Nat.ltb _ 2); [done|].
  destruct (forallb domainLabel (S.Split x S.dot)) eqn:E; [|done]. injection H as <-. unfold slashFree.
  eapply all_bytes_impl; [|apply (Split_all (fun c => S.lower_letter c || S.digit c || S.is_byte 45 c) S.dot)].
  - intros [[] [] [] [] [] [] [] []]; vm_compute; by intros.
  - rewrite Forall_forall. intros f Hf. rewrite forallb_forall in E. apply list_elem_of_In, E in Hf. by apply andb_true_iff in Hf as [_ Hf].
Qed.

Section Lines.
Context (sha256 : string -> string) (family table : string) (plan : IPPlan).

Lemma lines_of_domain p server d : slashFree d -> slashFree (po_Domain p) ->
  List.filter (names d) (nftsetLine sha256 family table p :: serverLines p server)
  = if po_Domain p =s d then nftsetLine sha256 family table p :: serverLines p server else [].
Proof.
  intros Hd Hp. unfold nftsetLine. cbn [List.filter]. rewrite names_nftset by done. destruct server as [s|]; cbn [serverLines List.filter].
  - rewrite names_server by done. by destruct (po_Domain p =s d).
  - by destruct (po_Domain p =s d).
Qed.
Lemma domainLines_spec policies : forall lines p, domainLines sha256 family table plan policies = Ok lines ->
  NoDup (map po_Domain policies) -> (forall q, q ∈ policies -> slashFree (po_Domain q)) -> p ∈ policies ->
  exists server, serverOf plan p = Ok server /\ List.filter (names (po_Domain p)) lines = nftsetLine sha256 family table p :: serverLines p server.
Proof.
  induction policies as [|q policies IH]; intros lines p H HN HF Hp; [by apply elem_of_nil in Hp|]. cbn [domainLines] in H.
  ok_steps H. injection H as <-. inversion HN as [|? ? Hq HN']; subst. rewrite app_comm_cons, List.filter_app.
  rewrite lines_of_domain by (apply HF; first [done|left]).
  assert (HF' : forall q, q ∈ policies -> slashFree (po_Domain q)) by (intros r Hr; apply HF; by right).
  assert (HO : forall d, slashFree d -> d ∉ map po_Domain policies -> List.filter (names d) x0 = []).
  { clear - G0 HF'. revert x0 G0. induction policies as [|r policies IH]; intros more G d Hd Hn; cbn [domainLines] in G; [by injection G as <-|].
    ok_steps G. injection G as <-. rewrite app_comm_cons, List.filter_app. rewrite lines_of_domain by (try done; apply HF'; left).
    destruct (po_Domain r =s d) eqn:E; [apply String.eqb_eq in E; exfalso; apply Hn; rewrite <- E; left|].
    cbn [app]. apply IH; [intros y Hy; apply HF'; by right|done|done|]. intros Hin. apply Hn. by right. }
  apply elem_of_cons in Hp as [->|Hp].
  - exists x. split; [done|]. rewrite String.eqb_refl. rewrite HO; [by rewrite app_nil_r|apply HF; left|done].
  - destruct (IH x0 p G0 HN' HF' Hp) as (server & ES & EL). exists server. split; [done|]. rewrite EL.
    destruct (po_Domain q =s po_Domain p) eqn:E; [|done]. apply String.eqb_eq in E. exfalso. apply Hq. rewrite E. apply elem_of_map. by exists p.
Qed.
End Lines.

(** ** The assignments *)

(** What the loop over the policies has: each tag once, with the route of its
    first policy. *)
Record assigned (sha256 : string -> string) (policies : list domainPolicy) (l : list routeAssignment) : Prop := {
  as_once : NoDup (map (fun a => r_Tag (ra_Route a)) l);
  as_from : forall a, a ∈ l -> ra_ID a = routeID sha256 (r_Tag (ra_Route a)) /\ exists p, p ∈ policies /\ po_Route p = ra_Route a;
  as_done : forall p, p ∈ policies -> exists a, a ∈ l /\ r_Tag (ra_Route a) = r_Tag (po_Route p)
}.

Section Assignments.
Context (sha256 : string -> string).
Notation tagOf := (fun a => r_Tag (ra_Route a)).


Lemma addAssignment_tags p l :
  map tagOf (addAssignment sha256 p l) = if bool_decide (r_Tag (po_Route p) ∈ map tagOf l) then map tagOf l else map tagOf l ++ [r_Tag (po_Route p)].
Proof.
  induction l as [|a l IH]; [done|]. cbn [addAssignment map]. destruct (r_Tag (ra_Route a) =s _) eqn:E.
  - apply String.eqb_eq in E. cbn [map ra_Route]. rewrite bool_decide_eq_true_2; [done|]. rewrite E. left.
  - apply String.eqb_neq in E. cbn [map]. rewrite IH. destruct (decide (r_Tag (po_Route p) ∈ map tagOf l)) as [H|H].
    + rewrite !bool_decide_eq_true_2 by (try done; by right). done.
    + rewrite !bool_decide_eq_false_2; [done| |done]. intros [?|?]%elem_of_cons; [congruence|done].
Qed.
Lemma addAssignment_from p l a : a ∈ addAssignment sha256 p l ->
  (exists b, b ∈ l /\ ra_Route a = ra_Route b /\ ra_ID a = ra_ID b) \/ (ra_Route a = po_Route p /\ ra_ID a = routeID sha256 (r_Tag (po_Route p))).
Proof.
  induction l as [|b l IH]; cbn [addAssignment].
  - intros ->%list_elem_of_singleton. by right.
  - destruct (_ =s _).
    + intros [->|H]%elem_of_cons; left; [exists b|exists a]; split_and!; try done; [left|by right].
    + intros [->|H]%elem_of_cons; [left; exists b; split; [left|done]|]. destruct (IH H) as [(x & Hx & E)|?]; [left; exists x; split; [by right|done]|by right].
Qed.
Lemma assignments_assigned rest : forall policies l, assigned sha256 policies l ->
  assigned sha256 (policies ++ rest) (fold_left (fun l p => addAssignment sha256 p l) rest l).
Proof.
  induction rest as [|p rest IH]; intros policies l [H1 H2 H3]; cbn [fold_left]; [by rewrite app_nil_r|].
  replace (policies ++ p :: rest) with ((policies ++ [p]) ++ rest) by by rewrite <- app_assoc. apply IH. pose proof (addAssignment_tags p l) as HT.
  constructor.
  - rewrite HT. case_bool_decide as HB; [done|]. apply NoDup_app. split_and!; [done| |apply NoDup_singleton].
    intros t Ht ->%list_elem_of_singleton. done.
  - intros a [(b & Hb & E1 & E2)|[E1 E2]]%addAssignment_from.
    + destruct (H2 b Hb) as (E & q & Hq & Eq). rewrite E1, E2. split; [done|]. exists q. split; [|done]. apply elem_of_app. by left.
    + rewrite E1, E2. split; [done|]. exists p. split; [|done]. apply elem_of_app. right. left.
  - intros q Hq. assert (Hin : r_Tag (po_Route q) ∈ map tagOf (addAssignment sha256 p l)).
    { rewrite HT. apply elem_of_app in Hq as [Hq| ->%list_elem_of_singleton].
      - assert (r_Tag (po_Route q) ∈ map tagOf l) by (destruct (H3 q Hq) as (a & Ha & E); apply elem_of_map; by exists a).
        case_bool_decide; [done|]. apply elem_of_app. by left.
      - case_bool_decide; [done|]. apply elem_of_app. right. left. }
    apply elem_of_map in Hin as (a & -> & Ha). by exists a.
Qed.
Lemma buildRouteAssignments_assigned policies : assigned sha256 policies (buildRouteAssignments sha256 policies).
Proof.
  assert (H : assigned sha256 ([] ++ policies) (fold_left (fun l p => addAssignment sha256 p l) policies [])).
  { apply assignments_assigned. constructor; [constructor|by nothing_in..]. }
  destruct H as [H1 H2 H3]. unfold buildRouteAssignments. constructor.
  - by rewrite (Permutation_map _ (gosort_perm _ _)).
  - intros a Ha. rewrite gosort_perm in Ha. by apply H2.
  - intros p Hp. destruct (H3 p Hp) as (a & Ha & E). exists a. by rewrite gosort_perm.
Qed.
End Assignments.

(** Two members of a list are one of its pairs. *)
Lemma pairs_elem {A} (l : list A) x y : x ∈ l -> y ∈ l -> x <> y -> (x, y) ∈ pairs l \/ (y, x) ∈ pairs l.
Proof.
  induction l as [|z l IH]; intros Hx Hy Hne; [by apply elem_of_nil in Hx|]. cbn [pairs].
  destruct (proj1 (elem_of_cons _ _ _) Hx) as [->|Hx1], (proj1 (elem_of_cons _ _ _) Hy) as [->|Hy1].
  - done.
  - left. apply elem_of_app. left. apply elem_of_map. by exists y.
  - right. apply elem_of_app. left. apply elem_of_map. by exists x.
  - destruct (IH Hx1 Hy1 Hne); [left|right]; apply elem_of_app; by right.
Qed.

(** ** The table *)

Lemma routeChains_Ok c plan l chains a : routeChains c plan l = Ok chains -> a ∈ l ->
  exists body pre post, renderRouteAction c (ra_Route a) plan = Ok body /\ chains = pre ++ chainLines ("rp_route_" +:+ ra_ID a) body ++ post.
Proof.
  intros H Ha. revert chains H. induction l as [|b l IH]; intros chains H; [by apply elem_of_nil in Ha|]. cbn [routeChains] in H. ok_steps H. injection H as <-.
  apply elem_of_cons in Ha as [->|Ha].
  - by exists x, [], x0.
  - destruct (IH Ha x0 G0) as (body & pre & post & E1 & ->). exists body, (chainLines ("rp_route_" +:+ ra_ID b) x ++ pre), post. split; [done|]. exact (app_assoc (chainLines ("rp_route_" +:+ ra_ID b) x) pre _).
Qed.
Lemma flat_map_elem {A B} (f : A -> list B) l x y : x ∈ l -> y ∈ f x -> y ∈ flat_map f l.
Proof. intros Hx Hy. apply list_elem_of_In, in_flat_map. exists x. by rewrite <- !list_elem_of_In. Qed.

(** ** The deployment of a valid configuration *)

Lemma Ok_inj {A} (x y : A) : Ok x = Ok y -> x = y.
Proof. congruence. Qed.

Section Deployment.
Context (toASCII : string -> option string) (HA : ascii_stable toASCII) (parseRequestURI : string -> option URL) (order : list (string * Service)).
Context (c : Config) (HW : wf toASCII parseRequestURI order c) (HO : order ≡ₚ map_to_list (c_Services c)) (HS : separate (c_Services c))
  (HE : c_Services c !! "" = None) (sha256 : string -> string).
Notation routes := (enabledRoutes c).

Lemma policy_domains policies : buildDomainPolicies toASCII order c routes = Ok policies ->
  NoDup (map po_Domain policies) /\ (forall p, p ∈ policies -> permitted order c p /\ slashFree (po_Domain p)).
Proof.
  intros H. pose proof (policies_respect_services toASCII HA parseRequestURI order c HW HO HS HE policies H) as (HN & HP & _). split; [done|].
  intros p Hp. rewrite Forall_forall in HP. split; [by apply HP|]. unfold buildDomainPolicies in H. ok_steps H. destruct x as [l seen]. injection H as <-.
  rewrite gosort_perm in Hp. apply (normal_slashFree toASCII).
  revert G Hp. generalize (sources toASCII parseRequestURI order c HW HO HS). generalize (serviceDomains c ++ overrideDomains order c) (∅ : gset string). clear.
  intros l0. revert l p seen. induction l0 as [|[[d name] exact] l0 IH]; intros l p seen s HSrc H Hp; cbn [addPolicies] in H.
  { injection H as <- <-. by apply elem_of_nil in Hp. }
  destruct (bool_decide (d ∈ s)); [by eapply IH; [intros e He; apply HSrc; right|exact H|]|]. ok_steps H. destruct x0 as [more s']. injection H as <- <-.
  apply elem_of_cons in Hp as [->|Hp]; [|by eapply IH; [intros e He; apply HSrc; right|exact G0|]].
  assert (E : po_Domain x = d).
  { unfold policyFor in G. cbv zeta in G. ok_steps G. destruct x0 as [m|]; [destruct (SelectRoute m _); [|done]|]; by injection G as <-. }
  rewrite E. by destruct (HSrc (d, name, exact)) as [HN _]; [left|].
Qed.

(** The resolver sends each domain where its policy says.  In the text written
    for dnsmasq exactly the lines of a domain's own policy mention the domain: the one
    that adds its addresses to the sets of its service and its route, and the one
    that names its resolver; and the policy's route is one its service permits.  The
    resolver is the public one of a Smart DNS route, the loopback proxy bound to the
    route for VLESS, none (a local NXDOMAIN) for DROP, the default one for the
    rest. *)
Theorem domains_get_their_resolver binding plan policies lines p :
  buildDomainPolicies toASCII order c routes = Ok policies -> renderDNSMasq sha256 c binding plan policies = Ok lines -> p ∈ policies ->
  permitted order c p /\
  exists family table server, nftIdentity c = Ok (family, table) /\ serverOf plan p = Ok server /\
    List.filter (names (po_Domain p)) lines = nftsetLine sha256 family table p :: serverLines p server.
Proof.
  intros HP H Hp. destruct (policy_domains policies HP) as [HN HF]. split; [by apply HF|]. unfold renderDNSMasq in H. ok_steps H.
  destruct x as [family table]. ok_steps H.
  destruct (domainLines_spec sha256 family table plan policies x0 p G1 HN (fun q Hq => proj2 (HF q Hq)) Hp) as (server & ES & EL).
  exists family, table, server. split_and!; [done..|]. apply Ok_inj in H as <-. rewrite !List.filter_app, EL.
  assert (E : List.filter (names (po_Domain p)) x = []); [|by rewrite E].
  destruct (UnknownDomainBackgroundCheck (c_Policy c)); [|by apply Ok_inj in G0 as <-]. cbv zeta in G0. destruct (_ || _); [done|]. by apply Ok_inj in G0 as <-.
Qed.

Lemma policy_assignment policies p : buildDomainPolicies toASCII order c routes = Ok policies -> p ∈ policies ->
  exists a, a ∈ buildRouteAssignments sha256 policies /\ ra_Route a = po_Route p /\ ra_ID a = routeID sha256 (r_Tag (po_Route p)).
Proof.
  intros HP Hp. destruct (policy_domains policies HP) as [_ HF]. destruct (buildRouteAssignments_assigned sha256 policies) as [H1 H2 H3].
  destruct (H3 p Hp) as (a & Ha & Et). destruct (H2 a Ha) as (EI & q & Hq & Eq). exists a. split; [done|]. rewrite EI, Et. split; [|done].
  rewrite <- Eq in Et |- *. destruct (HF q Hq) as [PQ _], (HF p Hp) as [PP _].
  apply (unique_key r_Tag (c_Routes c)); [exact (wf_tags _ _ _ _ HW)|..|exact Et]; by apply (elem_of_enabled c); [apply PQ || apply PP].
Qed.
Lemma service_known p : permitted order c p -> po_ServiceName p <> "" -> po_ServiceName p ∈ sortedServiceNames c.
Proof.
  intros HP Hn. rewrite (pm_service _ _ _ HP) in *. unfold sortedServiceNames. rewrite gosort_perm, <- HO. revert Hn. unfold ServiceForDomain.
  destruct (first _ order) as [e|] eqn:E; [|done]. apply first_Some in E as [He _]. intros _. apply elem_of_map. by exists e.
Qed.

(** The table gives every policy its treatment.  When the nftables text is
    written, each set the resolver fills for a domain is declared in the table, for
    both address families; addresses in the route's set are sent to the chain of the
    route, and that chain is the treatment of the policy's own route; and addresses
    that two policies of different routes both claim are dropped by the collision
    guard, which stands before the classification. *)
Theorem policies_are_installed binding plan policies text :
  buildDomainPolicies toASCII order c routes = Ok policies -> renderNFT sha256 c binding routes plan policies = Ok text ->
  exists lines guards rest, text = unlines lines +:+ rest /\
    (exists before after, lines = before ++ chainLines "rp_collision_guard" guards
       ++ chainLines "rp_classify" (flat_map classifyLines (buildRouteAssignments sha256 policies)) ++ after) /\
    forall p, p ∈ policies ->
      let id := routeID sha256 (r_Tag (po_Route p)) in
      (forall name, name ∈ setNames sha256 p -> setLines name ⊆ lines) /\
      (exists body pre post, renderRouteAction c (po_Route p) plan = Ok body /\ lines = pre ++ chainLines ("rp_route_" +:+ id) body ++ post) /\
      classifyLines (mkRouteAssignment (po_Route p) id []) ⊆ lines /\
      forall q, q ∈ policies -> r_Tag (po_Route q) <> r_Tag (po_Route p) ->
        exists one other, guardLines (markForType c "drop") (one, other) ⊆ guards /\
          ((ra_Route one = po_Route p /\ ra_Route other = po_Route q) \/ (ra_Route one = po_Route q /\ ra_Route other = po_Route p)).
Proof.
  intros HP H. unfold renderNFT in H. ok_steps H. apply Ok_inj in H as <-. unfold nftLines in G. ok_steps G. destruct x1 as [family table]. ok_steps G.
  exists x, (flat_map (guardLines (markForType c "drop")) (pairs (buildRouteAssignments sha256 policies))).
  eexists. split; [done|]. apply Ok_inj in G as <-.
  set (assignments := buildRouteAssignments sha256 policies) in *.
  match goal with |- context [?h ++ ?svc ++ ?rts ++ ?pre ++ ?dns ++ ?lan ++ chainLines "rp_collision_guard" ?g ++ ?k ++ ?ch ++ ?z] =>
    remember h as H0 eqn:EH; remember svc as SVC eqn:ES; remember rts as RTS eqn:ER; remember pre as PRE eqn:EPre; remember dns as DNS eqn:ED;
    remember lan as LAN eqn:EL; remember (chainLines "rp_collision_guard" g) as GUARD eqn:EG; remember k as CLASS eqn:EC; set (CHAINS := ch) in *; remember z as REST eqn:EZ end.
  clearbody CHAINS. clear EH EPre ED EL EZ EG. split; [exists (H0 ++ SVC ++ RTS ++ PRE ++ DNS ++ LAN), (CHAINS ++ REST); by rewrite <- !app_assoc|].
  intros p Hp. cbv zeta. destruct (policy_domains policies HP) as [_ HF]. destruct (policy_assignment policies p HP Hp) as (a & Ha & ERt & EI).
  split_and!.
  - intros name Hn. assert (HIn : setLines name ⊆ SVC ++ RTS); [|intros l Hl; apply HIn in Hl; rewrite !elem_of_app in *; tauto].
    apply elem_of_app in Hn as [Hn| ->%list_elem_of_singleton].
    + destruct (po_ServiceName p =s "") eqn:EN; [by apply elem_of_nil in Hn|]. apply String.eqb_neq in EN. apply list_elem_of_singleton in Hn as ->.
      intros l Hl. apply elem_of_app. left. rewrite ES. apply (flat_map_elem _ _ (po_ServiceName p)); [|done]. by apply service_known; [apply HF|].
    + intros l Hl. apply elem_of_app. right. rewrite ER. apply (flat_map_elem _ _ a); [done|]. by rewrite EI.
  - destruct (routeChains_Ok _ _ _ _ _ G3 Ha) as (body & pre & post & EB & ->). rewrite ERt in EB. rewrite EI.
    exists body, (H0 ++ SVC ++ RTS ++ PRE ++ DNS ++ LAN ++ GUARD ++ CLASS ++ pre), (post ++ REST). split; [done|]. by rewrite <- !app_assoc.
  - assert (HIn : classifyLines (mkRouteAssignment (po_Route p) (routeID sha256 (r_Tag (po_Route p))) []) ⊆ CLASS); [|intros l Hl; apply HIn in Hl; rewrite !elem_of_app; tauto].
    intros l Hl. rewrite EC. right. apply elem_of_app. left. apply (flat_map_elem _ _ a); [done|]. unfold classifyLines in *. by rewrite EI.
  - intros q Hq Hne. destruct (policy_assignment policies q HP Hq) as (b & Hb & ERq & _).
    assert (Hab : a <> b) by congruence. destruct (pairs_elem assignments a b Ha Hb Hab) as [Hin|Hin]; [exists a, b|exists b, a];
      (split; [intros l Hl; by apply (flat_map_elem _ _ _ _ Hin)|]); rewrite ERt, ERq; auto.
Qed.

(** *** The texts can be written *)

(** The parts of the plan the texts are made from stay as they were planned. *)
Lemma plan_parts binding policyTraffic proxies file generatedAt :
  let plan := set_DNSProxies proxies (buildIPPlan c binding (buildProofPlan c routes) policyTraffic file generatedAt) in
  let t := transparentPlan c (buildProofPlan c routes) in let z := zapretPlan c (buildProofPlan c routes) in
  (pn_TransparentProxy plan = t \/ pn_TransparentProxy plan = verifiedTransparent t) /\ (pn_Zapret plan = z \/ pn_Zapret plan = verifiedZapret z) /\
  pn_DNSProxies plan = proxies.
Proof.
  cbv zeta. unfold buildIPPlan. cbv zeta. destruct (_ && _); [destruct (HasDeviceOverrides _); auto|].
  destruct (loadNetworkDiagnostics c file generatedAt) as [[d hash] reason]. destruct (negb (S.is_empty reason)); [auto|].
  unfold planWith. cbv zeta. destruct (_ && _); [auto|].
  assert (HT : forall p, pn_TransparentProxy (withTables c d (buildProofPlan c routes) p) = pn_TransparentProxy p /\
                         pn_Zapret (withTables c d (buildProofPlan c routes) p) = pn_Zapret p).
  { intros p. unfold withTables. destruct (inspectedFlow _ _) as [flow r]. destruct (buildRoutes _ _ _); [|done]. cbv zeta.
    destruct (HasDeviceOverrides _); [done|]. destruct (_ && _); [done|]. destruct (_ && _); [done|]. by destruct (negb _). }
  split_and!; [..|done].
  - destruct (length _ =? 0)%nat; [|destruct (any _ (nd_LANInterfaces d))];
      cbn [pn_TransparentProxy set_DNSProxies set_BlockReason]; rewrite ?(proj1 (HT _));
      by do 2 (match goal with |- context [if ?b then _ else _] => destruct b end); auto.
  - destruct (length _ =? 0)%nat; [|destruct (any _ (nd_LANInterfaces d))];
      cbn [pn_Zapret set_DNSProxies set_BlockReason]; rewrite ?(proj2 (HT _));
      by do 2 (match goal with |- context [if ?b then _ else _] => destruct b end); auto.
Qed.

Definition plannedFor (plan : IPPlan) : Prop :=
  let t := transparentPlan c (buildProofPlan c routes) in let z := zapretPlan c (buildProofPlan c routes) in
  (pn_TransparentProxy plan = t \/ pn_TransparentProxy plan = verifiedTransparent t) /\ (pn_Zapret plan = z \/ pn_Zapret plan = verifiedZapret z).

Lemma enabled_proof r : r ∈ routes -> exists p, p ∈ buildProofPlan c routes /\ rp_Type p = r_Type r.
Proof.
  intros Hr. destruct (Forall2_elem_l _ _ _ _ (proofs_describe c) Hr) as (p & Hp & D). exists p. split; [done|]. apply (ds_type _ _ _ D).
Qed.
Lemma zapret_planned plan r : plannedFor plan -> r ∈ routes -> r_Type r = "zapret" ->
  zp_Enabled (pn_Zapret plan) = true /\ 1 <= zp_QueueNum (pn_Zapret plan).
Proof.
  intros [_ HZ] Hr Ht. assert (EZ : any (fun p => rp_Type p =s "zapret") (buildProofPlan c routes) = true).
  { destruct (enabled_proof r Hr) as (p & Hp & E). apply any_true. exists p. split; [done|]. by rewrite E, Ht. }
  apply (elem_of_enabled c) in Hr as [Hr HEn]. assert (HM : enabledType "zapret" (c_Routes c)) by (by exists r).
  pose proof (mz_queue _ (wf_zapret _ _ _ _ HW HM)) as HQ. unfold zapretPlan in HZ. rewrite EZ in HZ.
  destruct HZ as [-> | ->]; cbn; lia.
Qed.
Lemma transparent_planned plan r : plannedFor plan -> r ∈ routes -> throughXray (r_Type r) = true ->
  let t := pn_TransparentProxy plan in tp_Enabled t = true /\ 1 <= tp_Port t /\ validMark (tp_TProxyMark t) = true.
Proof.
  intros [HT _] Hr Ht. assert (ET : any (fun p => throughXray (rp_Type p)) (buildProofPlan c routes) = true).
  { destruct (enabled_proof r Hr) as (p & Hp & E). apply any_true. exists p. split; [done|]. by rewrite E, Ht. }
  apply (elem_of_enabled c) in Hr as [Hr HEn].
  assert (HM : exists r, r ∈ c_Routes c /\ Enabled r = true /\ transparentType (r_Type r) = true).
  { exists r. split_and!; [done..|]. unfold throughXray, transparentType in *. rewrite containsString_true in *. set_solver. }
  pose proof (tr_port _ (wf_transparent _ _ _ _ HW HM)) as HP. unfold transparentPlan in HT. rewrite ET in HT.
  assert (HV : validMark (XrayTProxyMark (c_OpenWrt c)) = true).
  { eapply (markOf_valid toASCII parseRequestURI order c HW "openwrt.xray_tproxy_mark" _ HM). unfold openwrtMarks. in_list. }
  cbv zeta. destruct HT as [-> | ->]; cbn; (split; [done|]; split; [lia|done]).
Qed.
(** Conditions on literals. *)
Ltac decided := repeat match goal with |- context [if ?b then _ else _] => first [change b with true | change b with false]; cbv iota end.
Lemma action_rendered plan r : plannedFor plan -> r ∈ routes -> r_Type r <> "tg_ws_proxy" -> exists body, renderRouteAction c r plan = Ok body.
Proof.
  intros HP Hr Hn. pose proof (proj1 (elem_of_enabled c r) Hr) as [Hin HEn].
  destruct (mk_mark _ _ (wf_marks _ _ _ _ HW) r Hin HEn) as (v & Hv & _). apply markNumber_parse in Hv.
  pose proof (wf_routes _ _ _ _ HW) as HR. rewrite Forall_forall in HR. pose proof (ro_type _ _ (HR r Hin)) as HT.
  unfold validRouteType in HT. rewrite containsString_true in HT.
  assert (HM : exists w, markNumber (firstNonEmpty (r_Mark r) (markForType c (r_Type r))) = Ok w).
  { unfold validMark, markOf in Hv. unfold firstNonEmpty.
    assert (E : markForType c (r_Type r) = markForRouteType c (r_Type r)).
    { repeat (apply elem_of_cons in HT as [HT|HT]; [rewrite HT in *; done|]). by apply elem_of_nil in HT. }
    rewrite E. destruct (markNumber _); [eauto|done]. }
  destruct HM as (w & EM). unfold renderRouteAction. cbv zeta. rewrite EM.
  pose proof (zapret_planned plan r HP Hr) as HZ. pose proof (transparent_planned plan r HP Hr) as HX. cbv zeta in HX.
  repeat (apply elem_of_cons in HT as [HT|HT]; [rewrite HT in *; decided|]); [..|by apply elem_of_nil in HT]; try (eexists; reflexivity); try done.
  - destruct (HZ eq_refl) as [-> HQ]. destruct (zp_QueueNum _ <? 1) eqn:E; [lia|]. cbn [negb orb]. eexists; reflexivity.
  - destruct (HX eq_refl) as (-> & HQ & HV). unfold validMark in HV. destruct (tp_Port _ <? 1) eqn:E; [lia|]. cbn [negb orb]. destruct (markNumber (tp_TProxyMark _)); [eexists; reflexivity|done].
  - destruct (HX eq_refl) as (-> & HQ & HV). unfold validMark in HV. destruct (tp_Port _ <? 1) eqn:E; [lia|]. cbn [negb orb]. destruct (markNumber (tp_TProxyMark _)); [eexists; reflexivity|done].
Qed.

Lemma identity_rendered : exists family table, nftIdentity c = Ok (family, table).
Proof.
  destruct (wf_nft _ _ _ _ HW) as [HF HT]. unfold nftIdentity. rewrite containsString_true in HF.
  assert (E : (firstNonEmpty (NFTFamily (c_OpenWrt c)) "inet" <>s "inet") = false).
  { apply elem_of_cons in HF as [-> |HF]; [done|]. apply elem_of_cons in HF as [-> |HF]; [done|]. by apply elem_of_nil in HF. }
  cbv zeta. rewrite E. unfold firstNonEmpty. destruct (S.is_empty (NFTTable (c_OpenWrt c))) eqn:ET; cbn [orb].
  - by eexists _, _.
  - change nftNamePattern with nftTablePattern. rewrite HT; [by eexists _, _|]. intros EN. by rewrite EN in ET.
Qed.
Lemma rules_rendered : z_DeviceProfiles (c_Zapret c) <> [] -> exists rules, RenderRules (z_DeviceProfiles (c_Zapret c)) = Ok rules.
Proof. intros Hn. destruct (wf_devices _ _ _ _ HW Hn) as (_ & EV & _). unfold RenderRules. rewrite EV. by eexists. Qed.

Lemma dnsProxies_cover used base upstream l : forall ports index plans, dnsProxies sha256 used ports base upstream index l = Ok plans -> 1 <= base + index ->
  (forall p, p ∈ plans -> dn_Listen p = "127.0.0.1" /\ 1 <= dn_Port p <= 65535) /\
  (forall r, r ∈ l -> r_Tag r ∈ used -> exists p, p ∈ plans /\ dn_RouteTag p = r_Tag r).
Proof.
  induction l as [|r l IH]; intros ports index plans H HB; cbn [dnsProxies] in H; [injection H as <-; split; by nothing_in|].
  destruct (negb (bool_decide (r_Tag r ∈ used))) eqn:EU.
  - destruct (IH _ _ _ H ltac:(lia)) as [H1 H2]. split; [done|]. intros x [-> |Hx]%elem_of_cons Hu; [|by apply H2].
    apply negb_true_iff, bool_decide_eq_false in EU. done.
  - cbv zeta in H. ok_steps H. apply Ok_inj in H as <-. apply orb_false_iff in G as [G _]. destruct (IH _ _ _ G0 ltac:(lia)) as [H1 H2]. split.
    + intros p [-> |Hp]%elem_of_cons; [cbn; split; [done|lia]|by apply H1].
    + intros y [-> |Hy]%elem_of_cons Hu; [eexists; split; [left|done]|]. destruct (H2 y Hy Hu) as (p & Hp & E). exists p. split; [by right|done].
Qed.
Lemma proxies_cover policies proxies r : buildDNSProxyPlans sha256 c routes policies = Ok proxies ->
  (exists p, p ∈ policies /\ po_Route p = r) -> r ∈ routes -> r_Type r = "vless" ->
  exists p, dnsProxyForRoute proxies (r_Tag r) = Some p /\ dn_Listen p = "127.0.0.1" /\ 1 <= dn_Port p <= 65535.
Proof.
  intros H (p & Hp & EP) Hr Ht. unfold buildDNSProxyPlans in H. cbv zeta in H.
  assert (HU : r_Tag r ∈ usedVLESSRoutes policies).
  { unfold usedVLESSRoutes. apply elem_of_list_to_set, elem_of_map. exists p. rewrite EP. split; [done|]. apply elem_of_filter_b. by rewrite EP, Ht. }
  case_bool_decide as HB; [set_solver|]. ok_steps H. apply Ok_inj in H as <-.
  assert (HV : 0 < vlessCount (c_Routes c)).
  { apply vlessCount_pos. apply (elem_of_enabled c) in Hr as [Hr HEn]. by exists r. }
  pose proof (dx_range _ (wf_dns _ _ _ _ HW HV)) as [Hlo _].
  destruct (dnsProxies_cover _ _ _ _ _ _ _ G1 ltac:(lia)) as [H1 H2].
  destruct (H2 r) as (q & Hq & Eq); [|done|].
  { rewrite gosort_perm, elem_of_filter_b. by rewrite Ht. }
  unfold dnsProxyForRoute. destruct (first _ x1) as [q'|] eqn:EF.
  - apply first_Some in EF as [Hq' _]. exists q'. split; [done|]. by apply H1.
  - pose proof (first_None _ _ _ EF Hq) as HN. cbv beta in HN. by rewrite Eq, String.eqb_refl in HN.
Qed.

Lemma dnsmasqServer_endpoint endpoint host port : endpointOf endpoint = Some (host, port) -> is_Some (IP.ParseIP host) -> exists s, dnsmasqServer endpoint = Ok s.
Proof.
  unfold endpointOf, dnsmasqServer. intros H [ip Hip]. destruct (Net.SplitHostPort endpoint) as [[h portText]|]; [|done].
  cbn [mbind option_bind] in H. apply bind_Some in H as (n & EN & H). destruct ((n <? 1) || (65535 <? n)) eqn:ER; [done|]. injection H as -> ->.
  rewrite bool_decide_eq_false_2 by by rewrite Hip. rewrite EN, ER. by eexists.
Qed.
Lemma loopback_endpoint port : 1 <= port <= 65535 -> endpointOf (JoinHostPort "127.0.0.1" (pretty port)) = Some ("127.0.0.1", port).
Proof.
  intros HP. unfold endpointOf. change ("127.0.0.1" : string) with (IP.Text (IP.V4 2130706433)) at 1.
  rewrite IPText.Text_split by (done || (apply pretty_digits; lia)). cbn [mbind option_bind].
  rewrite Atoi_pretty by (unfold int64_max; lia). cbn [mbind option_bind]. destruct (_ || _) eqn:E; [lia|done].
Qed.
Lemma server_rendered policies proxies plan p : buildDomainPolicies toASCII order c routes = Ok policies ->
  buildDNSProxyPlans sha256 c routes policies = Ok proxies -> pn_DNSProxies plan = proxies -> p ∈ policies -> exists server, serverOf plan p = Ok server.
Proof.
  intros HP HD <- Hp. destruct (policy_domains policies HP) as [_ HF]. pose proof (pm_route _ _ _ (proj1 (HF p Hp))) as Hr.
  pose proof (proj1 (elem_of_enabled c _) Hr) as [Hin HEn]. pose proof (wf_routes _ _ _ _ HW) as HR. rewrite Forall_forall in HR.
  unfold serverOf. cbv zeta. destruct (r_Type (po_Route p) =s "smart_dns") eqn:E1.
  - apply String.eqb_eq in E1. pose proof (ro_smart _ _ (HR _ Hin) HEn E1) as HS1. unfold publicSmartDNS in HS1.
    destruct (endpointOf (r_DNSServer (po_Route p))) as [[host port]|] eqn:EE; [|done]. apply andb_true_iff in HS1 as [[HI _]%andb_true_iff _].
    apply bool_decide_eq_true in HI. destruct (dnsmasqServer_endpoint _ _ _ EE HI) as (s & ES). rewrite ES.
    destruct (r_DNSServer (po_Route p) =s "") eqn:EN; [|by eexists]. apply String.eqb_eq in EN. by rewrite EN in EE.
  - destruct (r_Type (po_Route p) =s "vless") eqn:E2.
    + apply String.eqb_eq in E2. destruct (proxies_cover policies _ (po_Route p) HD) as (q & Eq & EL & EP); [by exists p|done..|].
      rewrite Eq, EL. destruct (dnsmasqServer_endpoint _ _ _ (loopback_endpoint _ EP)) as (s & ES); [by eexists|]. rewrite ES. by eexists.
    + destruct (_ =s "drop"); by eexists.
Qed.
Lemma domains_rendered family table plan policies : (forall p, p ∈ policies -> exists server, serverOf plan p = Ok server) ->
  exists lines, domainLines sha256 family table plan policies = Ok lines.
Proof.
  induction policies as [|p policies IH]; intros HS1; [by eexists|]. destruct (HS1 p) as (s & ES); [left|].
  destruct IH as (more & EM); [intros q Hq; apply HS1; by right|]. cbn [domainLines]. rewrite ES. cbn [mbind result_bind]. rewrite EM. by eexists.
Qed.
Lemma chains_rendered plan l : plannedFor plan -> (forall a, a ∈ l -> ra_Route a ∈ routes /\ r_Type (ra_Route a) <> "tg_ws_proxy") ->
  exists chains, routeChains c plan l = Ok chains.
Proof.
  intros HP. induction l as [|a l IH]; intros HL; [by eexists|]. destruct (HL a) as [Hr Hn]; [left|]. destruct (action_rendered plan _ HP Hr Hn) as (body & EB).
  destruct IH as (more & EM); [intros b Hb; apply HL; by right|]. cbn [routeChains]. rewrite EB. cbn [mbind result_bind]. rewrite EM. by eexists.
Qed.

(** Where the resolver may write its queries. *)
Definition observable : Prop := UnknownDomainBackgroundCheck (c_Policy c) = true ->
  let log := DNSObservationPath (st_RuntimeDir (c_Storage c)) in Filepath.IsAbs log = true /\ S.all_bytes pathByte log = true.

(** A valid configuration that can be planned can be written: for every set of
    diagnostics, and whether the plan is ready, blocked or only a preview, the
    generator gets both texts and no check in the middle of rendering fails.  Each
    action finds the mark, the queue or the proxy it needs in the plan, each Smart DNS
    route has an endpoint dnsmasq accepts, and each VLESS route with a domain has its
    loopback DNS proxy.  Three things are assumed that the validation does not
    ensure: a valid [openwrt.drop_mark], an observation log with a plain path, and no
    domain on a [tg_ws_proxy] route. *)
Theorem deployment_is_rendered binding (file : diagnosticsFile) generatedAt policies required plan :
  validMark (DropMark (c_OpenWrt c)) = true -> observable -> (forall p, p ∈ policies -> r_Type (po_Route p) <> "tg_ws_proxy") ->
  generatePlan sha256 toASCII order c binding file generatedAt = Ok (policies, required, plan) ->
  (exists text, renderNFT sha256 c binding routes plan policies = Ok text) /\ exists lines, renderDNSMasq sha256 c binding plan policies = Ok lines.
Proof.
  intros HD HL HT H. unfold generatePlan in H. cbv zeta in H. ok_steps H. injection H as <- <- <-.
  destruct (plan_parts binding (hasPolicyTraffic x) x0 file generatedAt) as (P1 & P2 & P3). set (plan := set_DNSProxies x0 _) in *. clearbody plan.
  destruct (policy_domains x G) as [_ HF]. destruct identity_rendered as (family & table & EI). split.
  - unfold renderNFT, nftLines. rewrite EI. cbn [mbind result_bind]. unfold validMark in HD. change (markForType c "drop") with (DropMark (c_OpenWrt c)).
    destruct (markNumber (DropMark (c_OpenWrt c))); [|done]. cbn [mbind result_bind].
    destruct (chains_rendered plan (buildRouteAssignments sha256 x)) as (chains & EC); [by split| |].
    { intros b Hb. destruct (as_from _ _ _ (buildRouteAssignments_assigned sha256 x) b Hb) as (_ & p & Hp & <-).
      split; [apply (pm_route _ _ _ (proj1 (HF p Hp)))|by apply HT]. }
    rewrite EC. cbn [mbind result_bind]. destruct (z_DeviceProfiles (c_Zapret c)) as [|d l] eqn:EZ; [by eexists|]. cbn [length Nat.eqb].
    destruct rules_rendered as (rules & ER); [by rewrite EZ|]. rewrite EZ in ER. rewrite ER. by eexists.
  - unfold renderDNSMasq. rewrite EI. cbn [mbind result_bind]. destruct (domains_rendered family table plan x) as (lines & EL).
    { intros p Hp. by apply (server_rendered x x0). }
    rewrite EL. destruct (UnknownDomainBackgroundCheck (c_Policy c)) eqn:EU; [|by eexists]. cbv zeta. destruct (HL EU) as [-> ->]. by eexists.
Qed.
End Deployment.

(** ** Concrete deployments *)
Module RenderedExamples.

Definition renderedOf (c : Config) : result string := renderNFT ex_hash c ex_binding (enabledRoutes c) (planOf c) (policiesOf c).
Definition linesOf (c : Config) : list string :=
  match nftLines ex_hash c ex_binding (enabledRoutes c) (planOf c) (policiesOf c) with Ok lines => lines | Err _ => [] end.
Definition dnsOf (c : Config) : list string :=
  match renderDNSMasq ex_hash c ex_binding (planOf c) (policiesOf c) with Ok lines => lines | Err _ => [] end.

Lemma ex_site_policies : buildDomainPolicies Some (ex_order ex_site) ex_site (enabledRoutes ex_site) = Ok (policiesOf ex_site).
Proof. vm_compute. reflexivity. Qed.

Lemma domains_get_their_resolver_witness :
  List.filter (names "bank.example") (dnsOf ex_site)
    = ["nftset=/bank.example/4#inet#router_policy#svc_knab_v4,6#inet#router_policy#svc_knab_v6,4#inet#router_policy#route_tcerid:etuor_v4,6#inet#router_policy#route_tcerid:etuor_v6"] /\
  exists p family table server, p ∈ policiesOf ex_site /\ po_Domain p = "chat.example" /\ nftIdentity ex_site = Ok (family, table) /\
    serverOf (planOf ex_site) p = Ok server /\
    List.filter (names (po_Domain p)) (dnsOf ex_site) = nftsetLine ex_hash family table p :: serverLines p server.
Proof.
  split; [vm_compute; reflexivity|].
  pose proof (fun p => domains_get_their_resolver Some ex_stable ex_parse (ex_order ex_site) ex_site ex_site_wf (ex_walks _) ex_site_separate eq_refl
    ex_hash ex_binding (planOf ex_site) (policiesOf ex_site) (dnsOf ex_site) p ex_site_policies ltac:(vm_compute; reflexivity)) as HD.
  destruct (head (policiesOf ex_site)) as [p|] eqn:E; [|by vm_compute in E].
  assert (Hp : p ∈ policiesOf ex_site) by (destruct (policiesOf ex_site); [done|injection E as ->; left]).
  destruct (HD p Hp) as (_ & family & table & server & H). exists p, family, table, server. split; [exact Hp|].
  split; [vm_compute in E; by injection E as <-|exact H].
Defined.

Lemma policies_are_installed_witness :
  exists text lines rest, renderedOf ex_site = Ok text /\ text = unlines lines +:+ rest.
Proof.
  destruct (renderedOf ex_site) as [text|] eqn:E; [|by vm_compute in E].
  destruct (policies_are_installed Some ex_stable ex_parse (ex_order ex_site) ex_site ex_site_wf (ex_walks _) ex_site_separate eq_refl
    ex_hash ex_binding (planOf ex_site) (policiesOf ex_site) text ex_site_policies E) as (lines & guards & rest & H & _).
  exists text, lines, rest. split; [reflexivity|exact H].
Defined.

Lemma deployment_is_rendered_witness : is_ok (renderedOf ex_site) = true /\ length (dnsOf ex_site) = 11%nat.
Proof.
  split; [|vm_compute; reflexivity].
  destruct (deployment_is_rendered Some ex_stable ex_parse (ex_order ex_site) ex_site ex_site_wf (ex_walks _) ex_site_separate eq_refl
    ex_hash ex_binding ex_file (200 * second) (policiesOf ex_site) (requiredOf ex_site) (planOf ex_site)) as [(text & E) _].
  - reflexivity.
  - intros _. by vm_compute.
  - intros p Hp. vm_compute in Hp. repeat (apply elem_of_cons in Hp as [-> |Hp]; [by vm_compute|]). by apply elem_of_nil in Hp.
  - exact ex_site_generated.
  - unfold renderedOf. rewrite E. reflexivity.
Defined.

(** Two routes whose tags differ only in case share the set and the chain of their
    route: the configuration is accepted and the plan is ready, and the collision
    guard then drops all the traffic of both, since it compares the set with
    itself. *)
Definition ex_twins : Config :=
  ex_build ex_openwrt_full (ex_route "direct" "DIRECT" 11 "" "" "" "" :: ex_routes_full)
    {["bank" := mkService "DIRECT_ONLY" "" ["bank.example"] ["direct"] [] "" false [];
      "shop" := mkService "DIRECT_ONLY" "" ["shop.example"] ["direct"] [] "DIRECT" false [] ]} [].
Lemma twin_tags_drop_their_traffic :
  ex_validates ex_twins = true /\ checkIPPlan ex_hash (planOf ex_twins) ex_binding = Ok (planOf ex_twins) /\ pn_DeploymentReady (planOf ex_twins) = true /\
  List.filter (fun line => S.HasPrefix line "    ip daddr @route_tcerid:etuor_v4 ip daddr @route_tcerid:etuor_v4 ct mark set 0x40 meta mark set 0x40 counter drop")
    (linesOf ex_twins) <> [].
Proof. split_and!; [vm_compute; reflexivity..|vm_compute; discriminate]. Qed.

Definition ex_plain (openwrt : OpenWrt) (routes : list Route) (services : gmap string Service) : Config :=
  Build_Config 2 (mkPlatform "linux" true true "") ex_storage ex_policy_full zero_Xray ex_zapret zero_GeoIP openwrt routes services [] zero_Notifications [].
(** Without a transparent route nothing checks the bypass mark, and it goes into the
    text as it is: here as a rule that accepts every packet. *)
Definition ex_bypass : Config :=
  ex_plain (Build_OpenWrt "openwrt" "router_policy" "inet" "" "" 100 101 102 "0x10" "0x20" "0x30" "0x31" "0x0-0xffffffff counter accept #" "0x40" "disable" 10 120)
    [ex_route "direct" "direct" 10 "" "" "" ""; ex_route "drop" "drop" 1000 "" "" "" ""]
    {["bank" := mkService "DIRECT_ONLY" "" ["bank.example"] ["direct"] [] "" false [] ]}.
Lemma bypass_mark_is_unchecked :
  ex_validates ex_bypass = true /\ is_ok (renderedOf ex_bypass) = true /\
  ("    meta mark 0x0-0xffffffff counter accept # counter return" +:+ commented "rp action=xray_recursion_bypass") ∈ linesOf ex_bypass.
Proof. split_and!; [vm_compute; reflexivity..|]. apply (bool_decide_unpack _). vm_compute. exact I. Qed.

(** A drop route with a mark of its own lets [openwrt.drop_mark] be empty: accepted,
    planned, and refused only when the table is rendered. *)
Definition ex_unmarked : Config :=
  ex_plain (Build_OpenWrt "openwrt" "router_policy" "inet" "" "" 100 101 102 "0x10" "0x20" "0x30" "0x31" "0x32" "" "disable" 10 120)
    [ex_route "direct" "direct" 10 "" "" "" ""; ex_route "drop" "drop" 1000 "" "" "" "0x40"]
    {["bank" := mkService "DIRECT_ONLY" "" ["bank.example"] ["direct"] [] "" false [] ]}.
Lemma unmarked_drop_is_not_rendered :
  ex_validates ex_unmarked = true /\ pn_DeploymentReady (planOf ex_unmarked) = true /\
  renderedOf ex_unmarked = Err "invalid drop mark: mark must be a 32-bit hexadecimal value".
Proof. split_and!; vm_compute; reflexivity. Qed.
End RenderedExamples.
