(* ===== verification/Dataplane.v ===== *)
(** * The routing state of the kernel

    [internal/dataplane/ipplan.go] and [internal/dataplane/ipstate.go]: a plan is
    applied with [ip] and [uci], the tables and rules it touches are captured
    before, restored afterwards and compared, and an uninstallation checks that
    nothing owned is left.

    The commands run on a state [K] through [run], a parameter: a command gives
    the state after it, its output, and its error.  [mapOrder] and [tableOrder]
    are the orders in which Go visits the keys of a map.  Contexts are not
    modelled, and a runner is always there. *)
From Stdlib Require Import ZArith Lia.
From stdpp Require Import base list strings gmap pretty.
From S2P Require Import Prelude Effects Net Config Json NetProofs Validation Artifact JsonText.

Open Scope Z_scope.

(** ** State *)

Record IPStateRoute := mkStateRoute {
  sr_Family : string;
  sr_Table : Z;
  sr_Destination : string;
  sr_Type : string;
  sr_Via : string;
  sr_Device : string
}.
#[export] Instance IPStateRoute_eq : EqDecision IPStateRoute.
Proof. solve_decision. Defined.
Record IPStateRule := mkStateRule { su_Family : string; su_Priority : Z; su_Mark : string; su_Table : Z }.
#[export] Instance IPStateRule_eq : EqDecision IPStateRule.
Proof. solve_decision. Defined.
Record IPStateSnapshot := mkSnapshot { sn_Routes : list IPStateRoute; sn_Rules : list IPStateRule }.
Record OwnedIPStateSpec := mkOwned { ow_Marks : list string; ow_RouteTables : list Z; ow_MinRulePriority : Z; ow_MaxRulePriority : Z }.

(** ** Reading the output of [ip -j] *)

Record ipRouteRow := mkRouteRow { rr_Dst : string; rr_Gateway : string; rr_Dev : string; rr_Type : string }.
Record ipRuleRow := mkRuleRow { ur_Priority : Z; ur_Table : JText.jtext; ur_FwMark : JText.jtext }.

Definition typeKind (r : ipRouteRow) : string :=
  if (rr_Type r =s "local") || (rr_Type r =s "unreachable") then rr_Type r else "unicast".

Definition decodeRouteRow (m : list (string * JText.jtext)) : result ipRouteRow :=
  dst ← JText.stringField "" (JText.valuesOf "dst" m);
  gateway ← JText.stringField "" (JText.valuesOf "gateway" m);
  dev ← JText.stringField "" (JText.valuesOf "dev" m);
  type ← JText.stringField "" (JText.valuesOf "type" m);
  Ok (mkRouteRow dst gateway dev type).
Definition decodeRuleRow (m : list (string * JText.jtext)) : result ipRuleRow :=
  priority ← JText.intField 0 (JText.valuesOf "priority" m);
  Ok (mkRuleRow priority (JText.anyField (JText.valuesOf "table" m)) (JText.anyField (JText.valuesOf "fwmark" m))).

Definition maxIPStateJSONBytes : Z := 2 * 2 ^ 20.
Definition parseRouteRows (raw : string) : result (list ipRouteRow) :=
  if S.is_empty raw then Ok []
  else if maxIPStateJSONBytes <? S.len raw then Err "route json size invalid"
  else match JText.parse raw with Some v => JText.structSlice decodeRouteRow v | None => Err "invalid route json" end.
Definition parseRuleRows (raw : string) : result (list ipRuleRow) :=
  if S.is_empty raw then Ok []
  else if maxIPStateJSONBytes <? S.len raw then Err "rule json size invalid"
  else match JText.parse raw with Some v => JText.structSlice decodeRuleRow v | None => Err "invalid rule json" end.

(** [strings.SplitN(s, "/", 2)[0]]. *)
Definition beforeSlash (s : string) : string := match Net.cutFirst slash s with Some (a, _) => a | None => s end.
Definition ruleMarkValue (v : JText.jtext) : string :=
  match v with JText.TStr s => beforeSlash s | JText.TNum literal => literal | _ => "" end.
Definition ruleTableInt (v : JText.jtext) : Z :=
  match v with JText.TNum s | JText.TStr s => match Atoi s with Some n => n | None => 0 end | _ => 0 end.

(** ** Keys and commands *)

Definition familyFlag (family : string) : result string :=
  if family =s "ipv4" then Ok "-4" else if family =s "ipv6" then Ok "-6" else Err ("invalid ip family " +:+ family).

Definition canonicalRouteDestination (family dest : string) : string :=
  if (dest =s "default") || (family =s "ipv4") && (dest =s "0.0.0.0/0") || (family =s "ipv6") && (dest =s "::/0") then "default" else dest.
Definition routeKey (family : string) (table : Z) (dest : string) : string :=
  family +:+ ":" +:+ pretty table +:+ ":" +:+ canonicalRouteDestination family dest.
Definition ruleKey (family : string) (priority : Z) : string := family +:+ ":" +:+ pretty priority.
Definition keyOfRoute (r : IPStateRoute) : string := routeKey (sr_Family r) (sr_Table r) (sr_Destination r).
Definition keyOfRule (r : IPStateRule) : string := ruleKey (su_Family r) (su_Priority r).
Definition keyOfPlanned (r : IPRoute) : string := routeKey (ip_Family r) (ip_Table r) (ip_Destination r).

Definition routeDeleteArgs (flag : string) (r : IPRoute) : result (list string) :=
  let table := pretty (ip_Table r) in
  if ip_Type r =s "unicast" then Ok [flag; "route"; "del"; ip_Destination r; "via"; ip_Via r; "dev"; ip_Device r; "table"; table]
  else if ip_Type r =s "local" then Ok [flag; "route"; "del"; "local"; ip_Destination r; "dev"; ip_Device r; "table"; table]
  else if ip_Type r =s "unreachable" then Ok [flag; "route"; "del"; "unreachable"; ip_Destination r; "table"; table]
  else Err ("unsupported route type for delete: " +:+ ip_Type r).
Definition routeReplaceArgs (flag : string) (r : IPStateRoute) : result (list string) :=
  let table := pretty (sr_Table r) in
  if sr_Type r =s "unicast" then
    if S.is_empty (sr_Via r) || S.is_empty (sr_Device r) then Err "unicast pre-state lacks via/device"
    else Ok [flag; "route"; "replace"; sr_Destination r; "via"; sr_Via r; "dev"; sr_Device r; "table"; table]
  else if sr_Type r =s "local" then
    if S.is_empty (sr_Device r) then Err "local pre-state lacks device"
    else Ok [flag; "route"; "replace"; "local"; sr_Destination r; "dev"; sr_Device r; "table"; table]
  else if sr_Type r =s "unreachable" then Ok [flag; "route"; "replace"; "unreachable"; sr_Destination r; "table"; table]
  else Err ("unsupported pre-state route type: " +:+ sr_Type r).
Definition ruleDelArgs (flag : string) (priority : Z) : list string := [flag; "rule"; "del"; "priority"; pretty priority].
Definition ruleAddArgs (flag : string) (priority : Z) (mark : string) (table : Z) : list string :=
  [flag; "rule"; "add"; "priority"; pretty priority; "fwmark"; mark; "lookup"; pretty table].

(** The rules a plan creates: the explicit ones, or those of its proofs. *)
Definition touchedByProof (r : RouteProof) : list IPStateRule :=
  if (rp_Type r =s "drop") || (rp_Table r <=? 0) || S.is_empty (rp_Mark r) || (rp_RulePriority r <=? 0) then []
  else (if rp_RequiresIPv4 r then [mkStateRule "ipv4" (rp_RulePriority r) (rp_Mark r) (rp_Table r)] else [])
       ++ (if rp_RequiresIPv6 r then [mkStateRule "ipv6" (rp_RulePriority r) (rp_Mark r) (rp_Table r)] else []).
Definition touchedByRule (r : IPRule) : list IPStateRule :=
  if (ir_Priority r <=? 0) || (ir_Table r <=? 0) || S.is_empty (ir_Mark r) then []
  else [mkStateRule (ir_Family r) (ir_Priority r) (ir_Mark r) (ir_Table r)].
Definition touchedRules (plan : IPPlan) : list IPStateRule :=
  if (0 <? length (pn_IPRules plan))%nat then flat_map touchedByRule (pn_IPRules plan) else flat_map touchedByProof (pn_Rules plan).

(** ** Comparing *)

(** An unreachable route has no next hop, whatever device the kernel shows. *)
Definition shownRoute (r : IPStateRoute) : IPStateRoute :=
  let dest := canonicalRouteDestination (sr_Family r) (sr_Destination r) in
  if sr_Type r =s "unreachable" then mkStateRoute (sr_Family r) (sr_Table r) dest (sr_Type r) "" ""
  else mkStateRoute (sr_Family r) (sr_Table r) dest (sr_Type r) (sr_Via r) (sr_Device r).
Definition restrictRoutes (routes : list IPStateRoute) (plan : IPPlan) : list IPStateRoute :=
  let allowed : gset string := list_to_set (map keyOfPlanned (pn_Routes plan)) in
  gosort (key_slt keyOfRoute) (map shownRoute (List.filter (fun r => bool_decide (keyOfRoute r ∈ allowed)) routes)).
Definition restrictRules (rules : list IPStateRule) (plan : IPPlan) : list IPStateRule :=
  let allowed : gset string := list_to_set (map keyOfRule (touchedRules plan)) in
  gosort (key_slt keyOfRule) (List.filter (fun r => bool_decide (keyOfRule r ∈ allowed)) rules).
Definition routesEqual (a b : list IPStateRoute) : bool := bool_decide (a = b).
Definition rulesEqual (a b : list IPStateRule) : bool := bool_decide (a = b).

(** ** Operations *)

Section Operations.
Context {K : Type} (run : string -> list string -> K -> K * (string * option string)).
Context (mapOrder : list string -> list string) (tableOrder : list Z -> list Z).

(** A command of which only the error counts. *)
Definition exec (name : string) (args : list string) : io K unit := fun k =>
  let '(k, (_, err)) := run name args k in (k, match err with None => Ok () | Some e => Err e end).
Definition output (name : string) (args : list string) : io K string := fun k =>
  let '(k, (raw, err)) := run name args k in (k, match err with None => Ok raw | Some e => Err e end).

Definition showRules (ipBinary flag : string) : io K (list ipRuleRow) :=
  raw ← output ipBinary [flag; "-j"; "rule"; "show"]; lift (parseRuleRows raw).
Definition showRoutesArgs (flag : string) (table : Z) : list string := [flag; "-j"; "route"; "show"; "table"; pretty table].

Definition softwareFlowOffloadUCIKey : string := "firewall.@defaults[0].flow_offloading".
Definition hardwareFlowOffloadUCIKey : string := "firewall.@defaults[0].flow_offloading_hw".

(** *** Applying a plan *)

Definition applyFlowOffloading (uciBinary : string) (f : FlowOffloadingPlan) : io K unit :=
  if S.is_empty (fl_Action f) || (fl_Action f =s "none") then mret ()
  else if fl_Action f =s "disable" then
    if S.is_empty uciBinary then fail "uci binary is required by flow offloading plan"
    else forEach (fun args => wrap "apply flow offloading policy: " (exec uciBinary args))
           [["set"; softwareFlowOffloadUCIKey +:+ "=0"]; ["set"; hardwareFlowOffloadUCIKey +:+ "=0"]; ["commit"; "firewall"]]
  else fail "unsupported flow offloading action".
Definition flagOf (family : string) : string := if family =s "ipv6" then "-6" else "-4".
Definition routeArgs (r : IPRoute) : result (list string) :=
  let flag := flagOf (ip_Family r) in let table := pretty (ip_Table r) in
  if ip_Type r =s "local" then Ok [flag; "route"; "replace"; "local"; ip_Destination r; "dev"; ip_Device r; "table"; table]
  else if ip_Type r =s "unreachable" then Ok [flag; "route"; "replace"; "unreachable"; ip_Destination r; "table"; table]
  else if ip_Type r =s "unicast" then Ok [flag; "route"; "replace"; ip_Destination r; "via"; ip_Via r; "dev"; ip_Device r; "table"; table]
  else Err ("unsupported " +:+ ip_Family r +:+ " route type " +:+ ip_Type r).
Definition applyRoute (ipBinary : string) (r : IPRoute) : io K unit :=
  args ← lift (routeArgs r);
  wrap ("apply " +:+ ip_Family r +:+ " route table " +:+ pretty (ip_Table r) +:+ ": ") (exec ipBinary args).
Definition fullMark (r : IPRule) : string := if S.is_empty (ir_Mask r) then ir_Mark r else ir_Mark r +:+ "/" +:+ ir_Mask r.
Definition applyRule (ipBinary : string) (r : IPRule) : io K unit :=
  if negb (containsString ["ipv4"; "ipv6"] (ir_Family r)) then fail ("invalid ip rule family for " +:+ ir_Purpose r)
  else if S.is_empty (ir_Mark r) || (ir_Table r <=? 0) || (ir_Priority r <=? 0) then fail ("incomplete ip rule for " +:+ ir_Purpose r)
  else
    let flag := flagOf (ir_Family r) in
    _ ← ignore (exec ipBinary (ruleDelArgs flag (ir_Priority r)));
    wrap ("apply " +:+ ir_Family r +:+ " rule " +:+ ir_Purpose r +:+ ": ")
      (exec ipBinary (ruleAddArgs flag (ir_Priority r) (fullMark r) (ir_Table r))).
(** The rules of a plan that lists none: those of its proofs. *)
Definition applyProof (ipBinary : string) (r : RouteProof) : io K unit :=
  if (rp_Type r =s "drop") || (rp_Table r =? 0) || S.is_empty (rp_Mark r) then mret ()
  else
    let install flag name : io K unit :=
      _ ← ignore (exec ipBinary (ruleDelArgs flag (rp_RulePriority r)));
      wrap ("apply " +:+ name +:+ " rule for " +:+ rp_Tag r +:+ ": ")
        (exec ipBinary (ruleAddArgs flag (rp_RulePriority r) (rp_Mark r) (rp_Table r))) in
    _ ← (if rp_RequiresIPv4 r then install "-4" "IPv4" else mret ());
    if rp_RequiresIPv6 r then install "-6" "IPv6" else mret ().
Definition ApplyIPPlanWithUCI (ipBinary uciBinary : string) (plan : IPPlan) : io K unit :=
  if S.is_empty ipBinary then fail "runner and ip binary are required"
  else if negb (pn_DeploymentReady plan) then fail ("ip plan requires device diagnostics: " +:+ pn_BlockReason plan)
  else
    _ ← applyFlowOffloading uciBinary (pn_FlowOffloading plan);
    _ ← forEach (applyRoute ipBinary) (pn_Routes plan);
    if (0 <? length (pn_IPRules plan))%nat then forEach (applyRule ipBinary) (pn_IPRules plan)
    else forEach (applyProof ipBinary) (pn_Rules plan).
Definition ApplyIPPlan (ipBinary : string) (plan : IPPlan) : io K unit := ApplyIPPlanWithUCI ipBinary "uci" plan.

(** *** The state before *)

(** A table the kernel does not know is empty. *)
Definition showTable (ipBinary family flag : string) (table : Z) : io K (list ipRouteRow) := fun k =>
  let '(k, (raw, err)) := run ipBinary (showRoutesArgs flag table) k in
  match err with
  | Some e =>
      if S.Contains raw "Dump terminated" || S.Contains e "Dump terminated" then (k, Ok [])
      else (k, Err ("snapshot " +:+ family +:+ " route table " +:+ pretty table +:+ ": " +:+ e))
  | None => wrap ("parse " +:+ family +:+ " route table " +:+ pretty table +:+ ": ") (lift (parseRouteRows raw)) k
  end.
Definition routeOfRow (family : string) (table : Z) (row : ipRouteRow) : IPStateRoute :=
  mkStateRoute family table (rr_Dst row) (typeKind row) (rr_Gateway row) (rr_Dev row).
Fixpoint snapshotRoutes (ipBinary : string) (seenTables : gset string) (routes : list IPRoute) : io K (list IPStateRoute) :=
  match routes with
  | [] => mret []
  | r :: rest =>
      let key := familyTable (ip_Family r) (ip_Table r) in
      if bool_decide (key ∈ seenTables) then snapshotRoutes ipBinary seenTables rest
      else
        flag ← lift (familyFlag (ip_Family r));
        rows ← showTable ipBinary (ip_Family r) flag (ip_Table r);
        more ← snapshotRoutes ipBinary ({[key]} ∪ seenTables) rest;
        mret (map (routeOfRow (ip_Family r) (ip_Table r)) rows ++ more)
  end.
(** The rows of the touched priorities: one rule of a firewall mark each. *)
Fixpoint snapshotRows (family : string) (priorities seen : gset Z) (rows : list ipRuleRow) : result (list IPStateRule) :=
  match rows with
  | [] => Ok []
  | row :: rest =>
      if negb (bool_decide (ur_Priority row ∈ priorities)) then snapshotRows family priorities seen rest
      else
        _ ← reject (bool_decide (ur_Priority row ∈ seen))
              ("snapshot " +:+ family +:+ " rule priority " +:+ pretty (ur_Priority row) +:+ ": multiple rules are not safely restorable");
        let mark := ruleMarkValue (ur_FwMark row) in
        let table := ruleTableInt (ur_Table row) in
        _ ← reject (S.is_empty mark || (table <=? 0))
              ("snapshot " +:+ family +:+ " rule priority " +:+ pretty (ur_Priority row) +:+ ": unsupported non-fwmark rule");
        more ← snapshotRows family priorities ({[ur_Priority row]} ∪ seen) rest;
        Ok (mkStateRule family (ur_Priority row) mark table :: more)
  end.
Fixpoint snapshotRules (ipBinary : string) (rules : list IPStateRule) (families : list string) : io K (list IPStateRule) :=
  match families with
  | [] => mret []
  | family :: rest =>
      let priorities : gset Z := list_to_set (map su_Priority (List.filter (fun r => su_Family r =s family) rules)) in
      flag ← lift (familyFlag family);
      rows ← wrap ("snapshot " +:+ family +:+ " rules: ") (showRules ipBinary flag);
      found ← lift (snapshotRows family priorities ∅ rows);
      more ← snapshotRules ipBinary rules rest;
      mret (found ++ more)
  end.
Definition ruleFamilies (rules : list IPStateRule) : list string := mapOrder (remove_dups (map su_Family rules)).
Definition SnapshotIPState (ipBinary : string) (plan : IPPlan) : io K IPStateSnapshot :=
  if S.is_empty ipBinary then fail "runner and ip binary are required"
  else
    routes ← snapshotRoutes ipBinary ∅ (pn_Routes plan);
    let touched := touchedRules plan in
    rules ← snapshotRules ipBinary touched (ruleFamilies touched);
    mret (mkSnapshot routes rules).

(** *** Verification and rollback *)

Definition VerifyIPState (ipBinary : string) (plan : IPPlan) (pre : IPStateSnapshot) : io K unit :=
  cur ← wrap "verify resnapshot: " (SnapshotIPState ipBinary plan);
  if negb (routesEqual (restrictRoutes (sn_Routes cur) plan) (restrictRoutes (sn_Routes pre) plan))
  then fail "ip_state_rollback_incomplete: routes differ from pre-apply state"
  else if negb (rulesEqual (restrictRules (sn_Rules cur) plan) (restrictRules (sn_Rules pre) plan))
  then fail "ip_state_rollback_incomplete: rules differ from pre-apply state"
  else mret ().

(** What the plan installs, as a snapshot shows it. *)
Definition expectedRoute (r : IPRoute) : IPStateRoute :=
  mkStateRoute (ip_Family r) (ip_Table r) (canonicalRouteDestination (ip_Family r) (ip_Destination r)) (ip_Type r) (ip_Via r) (ip_Device r).
Definition VerifyAppliedIPPlan (ipBinary : string) (plan : IPPlan) : io K unit :=
  cur ← wrap "verify applied ip plan: " (SnapshotIPState ipBinary plan);
  if negb (routesEqual (restrictRoutes (sn_Routes cur) plan) (restrictRoutes (map expectedRoute (pn_Routes plan)) plan))
  then fail "ip_plan_not_active: routes differ from committed plan"
  else if negb (rulesEqual (restrictRules (sn_Rules cur) plan) (restrictRules (touchedRules plan) plan))
  then fail "ip_plan_not_active: rules differ from committed plan"
  else mret ().

Definition rollbackRoute (ipBinary : string) (pre : gmap string IPStateRoute) (r : IPRoute) : io K unit :=
  flag ← lift (familyFlag (ip_Family r));
  delArgs ← lift (routeDeleteArgs flag r);
  _ ← ignore (exec ipBinary delArgs);
  match pre !! keyOfPlanned r with
  | Some pr =>
      wrap ("restore " +:+ ip_Family r +:+ " route table " +:+ pretty (ip_Table r) +:+ ": ")
        (restoreArgs ← lift (routeReplaceArgs flag pr); exec ipBinary restoreArgs)
  | None => mret ()
  end.
Definition rollbackRule (ipBinary : string) (pre : gmap string IPStateRule) (r : IPStateRule) : io K unit :=
  flag ← lift (familyFlag (su_Family r));
  _ ← ignore (exec ipBinary (ruleDelArgs flag (su_Priority r)));
  match pre !! keyOfRule r with
  | Some pr =>
      let where_ := "restore " +:+ su_Family r +:+ " rule " +:+ pretty (su_Priority r) +:+ ": " in
      if S.is_empty (su_Mark pr) || (su_Table pr <=? 0) then fail (where_ +:+ "pre-state is not fwmark->lookup")
      else wrap where_ (exec ipBinary (ruleAddArgs flag (su_Priority pr) (su_Mark pr) (su_Table pr)))
  | None => mret ()
  end.
(** The last route of a key counts; two rules of one key are refused. *)
Definition preRoutes (routes : list IPStateRoute) : gmap string IPStateRoute :=
  fold_left (fun m r => <[keyOfRoute r := r]> m) routes ∅.
Fixpoint preRules (m : gmap string IPStateRule) (rules : list IPStateRule) : result (gmap string IPStateRule) :=
  match rules with
  | [] => Ok m
  | r :: rest =>
      _ ← reject (bool_decide (is_Some (m !! keyOfRule r)))
            ("restore " +:+ su_Family r +:+ " rule " +:+ pretty (su_Priority r) +:+ ": duplicate pre-state");
      preRules (<[keyOfRule r := r]> m) rest
  end.
Definition RollbackIPState (ipBinary : string) (plan : IPPlan) (pre : IPStateSnapshot) : io K unit :=
  if S.is_empty ipBinary then fail "runner and ip binary are required"
  else
    _ ← forEach (rollbackRoute ipBinary (preRoutes (sn_Routes pre))) (pn_Routes plan);
    m ← lift (preRules ∅ (sn_Rules pre));
    _ ← forEach (rollbackRule ipBinary m) (touchedRules plan);
    wrap "ip rollback verification failed: " (VerifyIPState ipBinary plan pre).

(** *** Nothing owned is left *)

Definition ownedMarks (spec : OwnedIPStateSpec) : gset string :=
  list_to_set (map (fun m => S.ToLower (beforeSlash m)) (List.filter (fun m => negb (S.is_empty m)) (map S.TrimSpace (ow_Marks spec)))).
Definition ownedTables (spec : OwnedIPStateSpec) : gset Z := list_to_set (List.filter (fun t => 0 <? t) (ow_RouteTables spec)).
Definition ownedRow (spec : OwnedIPStateSpec) (row : ipRuleRow) : bool :=
  (0 <? ow_MinRulePriority spec) && (ow_MinRulePriority spec <=? ur_Priority row)
    && ((ow_MaxRulePriority spec <=? 0) || (ur_Priority row <=? ow_MaxRulePriority spec))
  || bool_decide (S.ToLower (ruleMarkValue (ur_FwMark row)) ∈ ownedMarks spec)
  || bool_decide (ruleTableInt (ur_Table row) ∈ ownedTables spec).
Definition verifyEmptyTable (ipBinary family flag : string) (table : Z) : io K unit :=
  let where_ := "verify " +:+ family +:+ " route table " +:+ pretty table +:+ ": " in
  raw ← wrap where_ (output ipBinary (showRoutesArgs flag table));
  routes ← wrap where_ (lift (parseRouteRows raw));
  if (0 <? length routes)%nat then fail ("owned " +:+ family +:+ " route table " +:+ pretty table +:+ " is not empty") else mret ().
Definition verifyNoOwnedFamily (ipBinary : string) (spec : OwnedIPStateSpec) (family : string) : io K unit :=
  flag ← lift (familyFlag family);
  rows ← wrap ("verify " +:+ family +:+ " rules: ") (showRules ipBinary flag);
  _ ← lift (reject (any (ownedRow spec) rows) ("owned " +:+ family +:+ " rule remains"));
  forEach (verifyEmptyTable ipBinary family flag) (tableOrder (elements (ownedTables spec))).
Definition VerifyNoOwnedIPState (ipBinary : string) (spec : OwnedIPStateSpec) : io K unit :=
  if S.is_empty ipBinary then fail "runner and ip binary are required"
  else forEach (verifyNoOwnedFamily ipBinary spec) ["ipv4"; "ipv6"].

(** *** The commands of [router-policy] *)

(** What an absent or empty environment variable stands for. *)
Definition ipBinaryOf (env : string) : string := if S.is_empty env then "ip" else env.
Definition uciBinaryOf (env : string) : string := if S.is_empty env then "uci" else env.

(** [internal-apply-ip-plan], once the plan is loaded. *)
Definition applyCommand (simulatedAllowed : bool) (ipEnv uciEnv : string) (plan : IPPlan) : io K unit :=
  if pn_Simulation plan && negb simulatedAllowed then fail "simulated diagnostics are forbidden for production apply"
  else ApplyIPPlanWithUCI (ipBinaryOf ipEnv) (uciBinaryOf uciEnv) plan.
(** [internal-snapshot-ip-state]: what is written, and whether it was captured. *)
Definition snapshotCommand (ipEnv : string) (plan : IPPlan) : io K (IPStateSnapshot * bool) :=
  if negb (pn_DeploymentReady plan) then mret (mkSnapshot [] [], false)
  else snap ← SnapshotIPState (ipBinaryOf ipEnv) plan; mret (snap, true).
(** [internal-rollback-ip-state], once the snapshot is read. *)
Definition rollbackCommand (ipEnv : string) (plan : IPPlan) (pre : IPStateSnapshot) : io K unit :=
  if negb (pn_DeploymentReady plan) then mret ()
  else
    _ ← RollbackIPState (ipBinaryOf ipEnv) plan pre;
    VerifyIPState (ipBinaryOf ipEnv) plan pre.
(** [internal-verify-no-owned-ip-state]. *)
Definition ownedSpec (c : Config) : OwnedIPStateSpec :=
  let w := c_OpenWrt c in
  mkOwned [DirectMark w; ZapretMark w; XrayMark w; XrayTProxyMark w; XrayBypassMark w; DropMark w]
    [WANRouteTable w; ZapretRouteTable w; XrayRouteTable w] 10000 20099.
Definition verifyNoOwnedCommand (ipEnv : string) (c : Config) : io K unit := VerifyNoOwnedIPState (ipBinaryOf ipEnv) (ownedSpec c).
End Operations.
