(* ===== verification/DataplaneProofs.v ===== *)
(** * Routing state: what a plan touches, and what a snapshot reads

    Facts about a plan that was loaded ([checkIPPlan]), the snapshot of a state
    in terms of what the state lists, and the order in which snapshots are
    compared.  The class [Iproute] says what the commands [ip] and [uci] promise.
    [DataplaneRollback] and [DataplaneActive] have the theorems. *)
From Stdlib Require Import ZArith Lia.
From stdpp Require Import base list strings gmap pretty.
From S2P Require Import Prelude Effects Net Config Json NetProofs Validation ValidationProofs Artifact ArtifactProofs JsonText Dataplane.
Open Scope Z_scope.

(** ** The form in which the kernel lists things *)

Definition canonicalVia (via : string) : string := match IP.ParseIP via with Some a => IP.Text a | None => via end.
(** A mark in hexadecimal, without leading zeros. *)
Definition canonicalMark (mark : string) : string := match markNumber mark with Ok n => "0x" +:+ IP.hexText 8 n "" | Err _ => mark end.
Definition canonicalRoute (s : IPStateRoute) : IPStateRoute :=
  mkStateRoute (sr_Family s) (sr_Table s) (sr_Destination s) (sr_Type s) (canonicalVia (sr_Via s)) (sr_Device s).
(** A route as a snapshot compares it. *)
Definition shownAs (s : IPStateRoute) : IPStateRoute := shownRoute (canonicalRoute s).
Definition ruleOfRow (family : string) (row : ipRuleRow) : IPStateRule :=
  mkStateRule family (ur_Priority row) (ruleMarkValue (ur_FwMark row)) (ruleTableInt (ur_Table row)).
Definition plannedRoute (r : IPRoute) : IPStateRoute :=
  mkStateRoute (ip_Family r) (ip_Table r) (ip_Destination r) (ip_Type r) (ip_Via r) (ip_Device r).
(** Bytes of names and addresses. *)
Definition printable (c : Ascii.ascii) : bool := JText.unescaped c && negb (S.is_byte 32 c).
(** A route [ip] can be told: no gateway but that of a unicast route. *)
Definition writable (s : IPStateRoute) : bool :=
  S.all_bytes printable (sr_Via s) && S.all_bytes printable (sr_Device s) && ((sr_Type s <>s "local") || S.is_empty (sr_Via s)).
Definition isDefault (s : IPStateRoute) : bool := sr_Destination s =s "default".
Definition atPriority (p : Z) (r : IPStateRule) : bool := su_Priority r =? p.

(** ** What a state lists *)

Class Listing (K : Type) := {
  tableOf : K -> string -> Z -> list ipRouteRow;
  rulesOf : K -> string -> list ipRuleRow
}.

Section Listing.
Context {K : Type} `{Listing K}.

Definition shown (k : K) (family : string) (table : Z) : list IPStateRoute :=
  map (fun row => shownRoute (routeOfRow family table row)) (tableOf k family table).
Definition listed (k : K) (family : string) : list IPStateRule := map (ruleOfRow family) (rulesOf k family).
(** The default route of a table, and its other routes. *)
Definition own (k : K) (family : string) (table : Z) : list IPStateRoute := List.filter isDefault (shown k family table).
Definition others (k : K) (family : string) (table : Z) : list IPStateRoute :=
  List.filter (fun s => negb (isDefault s)) (shown k family table).
Definition rulesAt (k : K) (family : string) (p : Z) : list IPStateRule := List.filter (atPriority p) (listed k family).

(** Two states that list the same routes and rules, in whatever order. *)
Definition sameTables (k k' : K) : Prop := forall family table, shown k family table ≡ₚ shown k' family table.
Definition sameRules (k k' : K) : Prop := forall family, listed k family ≡ₚ listed k' family.
Definition sameState (k k' : K) : Prop := sameTables k k' /\ sameRules k k'.
(** Nothing changed but the default route of one table, or the rules of one
    family. *)
Definition otherTables (k k' : K) (family : string) (table : Z) : Prop :=
  others k' family table ≡ₚ others k family table /\
  forall family' table', (family', table') <> (family, table) -> shown k' family' table' ≡ₚ shown k family' table'.
Definition otherFamilies (k k' : K) (family : string) : Prop :=
  forall family', family' <> family -> listed k' family' ≡ₚ listed k family'.

#[export] Instance sameTables_equiv : Equivalence sameTables.
Proof. split; [by intros k f t|by intros k k' H1 f t|intros k k' k'' H1 H2 f t; by rewrite (H1 f t)]. Qed.
#[export] Instance sameRules_equiv : Equivalence sameRules.
Proof. split; [by intros k f|by intros k k' H1 f|intros k k' k'' H1 H2 f; by rewrite (H1 f)]. Qed.
#[export] Instance sameState_equiv : Equivalence sameState.
Proof. split; [intros k; by split|intros k k' []; by split|intros k k' k'' [] []; split; by etrans]. Qed.
End Listing.

Class Iproute (K : Type) (run : string -> list string -> K -> K * (string * option string)) (ip uci : string) := {
  listing :: Listing K;
  ok : K -> Prop;

  ip_named : ip <> "";
  one_route k family table : ok k -> NoDup (map sr_Destination (shown k family table));
  rows_listed k family table row : ok k -> row ∈ tableOf k family table ->
    canonicalVia (rr_Gateway row) = rr_Gateway row /\ writable (routeOfRow family table row) = true;
  marks_listed k family r : ok k -> r ∈ listed k family -> su_Mark r <> "" ->
    validMark (su_Mark r) = true /\ canonicalMark (su_Mark r) = su_Mark r;

  (** A table that was never used may be unknown; an output over the limit is
      not read. *)
  show_table k family flag table : ok k -> familyFlag family = Ok flag -> 1 <= table -> exists raw err,
    run ip (showRoutesArgs flag table) k = (k, (raw, err)) /\
    match err with
    | None => S.len raw <= maxIPStateJSONBytes -> parseRouteRows raw = Ok (tableOf k family table)
    | Some e => tableOf k family table = [] /\ S.Contains e "Dump terminated" = true
    end;
  show_rules k family flag : ok k -> familyFlag family = Ok flag -> exists raw,
    run ip [flag; "-j"; "rule"; "show"] k = (k, (raw, None)) /\
    (S.len raw <= maxIPStateJSONBytes -> parseRuleRows raw = Ok (rulesOf k family));

  route_replace k s flag args : ok k -> familyFlag (sr_Family s) = Ok flag -> routeReplaceArgs flag s = Ok args -> 1 <= sr_Table s ->
    canonicalRouteDestination (sr_Family s) (sr_Destination s) = "default" -> writable (canonicalRoute s) = true ->
    exists k' raw, run ip args k = (k', (raw, None)) /\ ok k' /\ own k' (sr_Family s) (sr_Table s) = [shownAs s] /\
      otherTables k k' (sr_Family s) (sr_Table s) /\ sameRules k k';
  (** A route is deleted when it is the one described. *)
  route_del k r flag args : ok k -> familyFlag (ip_Family r) = Ok flag -> routeDeleteArgs flag r = Ok args -> 1 <= ip_Table r ->
    canonicalRouteDestination (ip_Family r) (ip_Destination r) = "default" -> writable (canonicalRoute (plannedRoute r)) = true ->
    let k' := (run ip args k).1 in
    ok k' /\ own k' (ip_Family r) (ip_Table r) = List.filter (fun s => negb (bool_decide (s = shownAs (plannedRoute r)))) (own k (ip_Family r) (ip_Table r)) /\
    otherTables k k' (ip_Family r) (ip_Table r) /\ sameRules k k';
  (** The only rule of a priority is deleted. *)
  rule_del k family flag p : ok k -> familyFlag family = Ok flag -> 1 <= p <= int64_max -> (length (rulesAt k family p) <= 1)%nat ->
    let k' := (run ip (ruleDelArgs flag p) k).1 in
    ok k' /\ listed k' family ≡ₚ List.filter (fun r => negb (atPriority p r)) (listed k family) /\ otherFamilies k k' family /\ sameTables k k';
  (** A rule is added where its priority is free. *)
  rule_add k family flag p mark mask table : ok k -> familyFlag family = Ok flag -> 1 <= p <= int64_max -> 1 <= table <= int64_max -> validMark mark = true ->
    mask = "" \/ mask = "/0xffffffff" -> rulesAt k family p = [] ->
    exists k' raw, run ip (ruleAddArgs flag p (mark +:+ mask) table) k = (k', (raw, None)) /\ ok k' /\
      listed k' family ≡ₚ mkStateRule family p (canonicalMark mark) table :: listed k family /\ otherFamilies k k' family /\ sameTables k k';

  (** [uci] does not touch routing. *)
  uci_only k args : ok k -> ok (run uci args k).1 /\ sameState (run uci args k).1 k
}.

(** A listing fits when [ip] prints no more than is read. *)
Definition fits {K} (run : string -> list string -> K -> K * (string * option string)) (ip : string) (k : K) : Prop :=
  forall family flag, familyFlag family = Ok flag ->
    (forall table, S.len (run ip (showRoutesArgs flag table) k).2.1 <= maxIPStateJSONBytes) /\
    S.len (run ip [flag; "-j"; "rule"; "show"] k).2.1 <= maxIPStateJSONBytes.

(** ** A loaded plan *)

(** A default route as a plan may hold it. *)
Record cleanRoute (r : IPRoute) : Prop := {
  cr_family : ip_Family r = "ipv4" \/ ip_Family r = "ipv6";
  cr_table : 1 <= ip_Table r;
  cr_default : canonicalRouteDestination (ip_Family r) (ip_Destination r) = "default";
  cr_args : exists args, routeArgs r = Ok args /\ routeReplaceArgs (flagOf (ip_Family r)) (plannedRoute r) = Ok args;
  cr_del : exists args, routeDeleteArgs (flagOf (ip_Family r)) r = Ok args;
  cr_writable : writable (canonicalRoute (plannedRoute r)) = true
}.
Record cleanRule (r : IPStateRule) : Prop := {
  cu_family : su_Family r = "ipv4" \/ su_Family r = "ipv6";
  cu_priority : 1 <= su_Priority r <= int64_max;
  cu_table : 1 <= su_Table r <= int64_max;
  cu_mark : validMark (su_Mark r) = true
}.
(** The numbers of a plan are of type [int]. *)
Definition intPlan (plan : IPPlan) : Prop := forall r, r ∈ pn_IPRules plan -> ir_Priority r <= int64_max /\ ir_Table r <= int64_max.
(** What loading establishes for a plan that is ready. *)
Record cleanPlan (plan : IPPlan) : Prop := {
  cp_routes : Forall cleanRoute (pn_Routes plan);
  cp_tables : NoDup (map (fun r => (ip_Family r, ip_Table r)) (pn_Routes plan));
  cp_rules : forall r, r ∈ pn_IPRules plan -> cleanRule (mkStateRule (ir_Family r) (ir_Priority r) (ir_Mark r) (ir_Table r)) /\
               (ir_Mask r = "" \/ ir_Mask r = "0xffffffff");
  cp_proofs : pn_IPRules plan = [] -> forall r, r ∈ pn_Rules plan -> rp_Type r = "drop";
  cp_apart : NoDup (map (fun r => (ir_Family r, ir_Priority r)) (pn_IPRules plan));
  cp_flow : fl_Action (pn_FlowOffloading plan) = "none" \/ fl_Action (pn_FlowOffloading plan) = "disable"
}.

Lemma familyFlag_of family : family = "ipv4" \/ family = "ipv6" -> familyFlag family = Ok (flagOf family).
Proof. by intros [-> | ->]. Qed.

Lemma all_printable p s : (forall c, p c = true -> printable c = true) -> S.all_bytes p s = true -> S.all_bytes printable s = true.
Proof. apply all_bytes_impl. Qed.
(** Between 45 and 122 there is nothing to escape but the backslash. *)
Lemma printable_range c : (45 <= Ascii.N_of_ascii c <= 122)%N -> Ascii.N_of_ascii c <> 92%N -> printable c = true.
Proof.
  intros Hc Hb. unfold printable, JText.unescaped, S.is_byte, S.in_range. rewrite !andb_true_iff, !negb_true_iff, andb_false_iff, !N.leb_le, !N.leb_gt.
  assert (Hq : Ascii.eqb c JText.quote_byte = false) by (destruct (Ascii.eqb_spec c JText.quote_byte) as [->|]; [cbn in *; lia|done]).
  assert (Hs : Ascii.eqb c JText.backslash = false) by (destruct (Ascii.eqb_spec c JText.backslash) as [->|]; [cbn in *; lia|done]).
  split_and!; try lia; done.
Qed.
Lemma address_printable c : IPText.plain c = true -> printable c = true.
Proof.
  intros H. unfold IPText.plain, IPText.address in H. destruct (Ascii.eqb_spec c Net.colon) as [E|_]; [rewrite E; done|].
  unfold hexdigit, S.digit, S.is_byte, S.in_range in H. rewrite !orb_true_iff, !andb_true_iff, !N.leb_le in H.
  assert (HR : (45 <= Ascii.N_of_ascii c <= 57 \/ 65 <= Ascii.N_of_ascii c <= 70 \/ 97 <= Ascii.N_of_ascii c <= 102)%N); [|apply printable_range; lia].
  destruct H as [[[[H|H]|H]|H]|H]; try lia; done.
Qed.
Lemma interface_printable s : interfaceNamePattern s = true -> S.all_bytes printable s = true.
Proof.
  unfold interfaceNamePattern. rewrite !andb_true_iff. intros [_ H]. revert H. apply all_bytes_impl. intros c H.
  unfold S.lower_letter, S.upper_letter, S.digit, S.is_byte, S.in_range in H. rewrite !orb_true_iff, !andb_true_iff, !N.leb_le in H. apply printable_range; lia.
Qed.
Lemma canonicalVia_printable via a : IP.ParseIP via = Some a -> S.all_bytes printable (canonicalVia via) = true.
Proof.
  intros E. unfold canonicalVia. rewrite E. apply (all_bytes_impl IPText.plain); [apply address_printable|]. by apply IPText.Text_plain, (IPText.ParseIP_valid via).
Qed.

Lemma validRoute_clean r : 1 <= ip_Table r -> (ip_Type r <>s "unreachable") && negb (interfaceNamePattern (ip_Device r)) = false ->
  validRoute r = true -> cleanRoute r.
Proof.
  intros HT HD HV. destruct r as [family table dest type via device]; cbn [ip_Family ip_Table ip_Destination ip_Type ip_Via ip_Device] in *.
  assert (Hdev : type <> "unreachable" -> (device =s "") = false).
  { intros Ht. destruct (String.eqb_spec type "unreachable"); [done|]. cbn in HD. apply negb_false_iff in HD.
    destruct (String.eqb_spec device "") as [->|]; done. }
  unfold validRoute in HV. cbn [ip_Family ip_Table ip_Destination ip_Type ip_Via ip_Device] in HV.
  destruct (String.eqb_spec family "ipv4") as [->|_]; [|destruct (String.eqb_spec family "ipv6") as [->|_]; [|done]];
    (destruct (String.eqb_spec type "local") as [->|_]; [|try destruct (String.eqb_spec type "unreachable") as [->|_]]);
    rewrite ?andb_true_iff in HV; destruct_and? HV; unfold S.is_empty in *; str_eq; subst; try discriminate;
    constructor; cbn; auto; try (by eexists).
  all: try (unfold routeArgs, routeReplaceArgs, plannedRoute;
    cbn [ip_Family ip_Table ip_Destination ip_Type ip_Via ip_Device sr_Family sr_Table sr_Destination sr_Type sr_Via sr_Device];
    eexists; (split; [reflexivity|]); cbn; rewrite (Hdev ltac:(done)); destruct (String.eqb_spec via "") as [->|]; done).
  all: unfold writable, canonicalRoute, plannedRoute; cbn [ip_Family ip_Table ip_Destination ip_Type ip_Via ip_Device sr_Via sr_Device sr_Type].
  all: apply negb_false_iff, interface_printable in HD; rewrite HD.
  all: match goal with H : match IP.ParseIP ?v with _ => _ end = true |- _ => destruct (IP.ParseIP v) eqn:E; [|discriminate H] end.
  all: by rewrite (canonicalVia_printable _ _ E).
Qed.

Lemma validateIPRoutes_clean routes : forall families out, validateIPRoutes families routes = Ok out ->
  Forall cleanRoute routes /\ NoDup (map (fun r => (ip_Family r, ip_Table r)) routes) /\
  forall r, r ∈ routes -> familyTable (ip_Family r) (ip_Table r) ∉ families.
Proof.
  induction routes as [|r routes IH]; intros families out H; [split_and!; [done|constructor|by nothing_in]|].
  cbn [validateIPRoutes] in H. ok_steps H. apply IH in H as (HF & HN & HO). apply bool_decide_eq_false in G1. apply negb_false_iff in G2.
  assert (HC : cleanRoute r) by (apply validRoute_clean; [lia|done|done]).
  split_and!; [by constructor| |].
  - constructor; [|done]. intros (y & Ey & Hy)%elem_of_map. apply HO in Hy. injection Ey as E1 E2. rewrite <- E1, <- E2 in Hy. set_solver.
  - intros y [->|Hy]%elem_of_cons; [done|]. apply HO in Hy. set_solver.
Qed.

Lemma validateEachRule_clean families rules : (forall r, r ∈ rules -> ir_Priority r <= int64_max /\ ir_Table r <= int64_max) ->
  forall seen u, validateEachRule families seen rules = Ok u ->
  forall r, r ∈ rules -> cleanRule (mkStateRule (ir_Family r) (ir_Priority r) (ir_Mark r) (ir_Table r)) /\ (ir_Mask r = "" \/ ir_Mask r = "0xffffffff").
Proof.
  intros HI. induction rules as [|x rules IH]; intros seen u H; [by nothing_in|]. cbn [validateEachRule] in H. ok_steps H.
  intros r [->|Hr]%elem_of_cons; [|eapply IH; [intros; apply HI; by right|done|done]]. destruct (HI x) as [Hpm Htm]; [left|].
  apply negb_false_iff, containsString_true in G. rewrite !orb_false_iff in G0. destruct G0 as [[[[_ Hp] Ht] _] Hm]. apply negb_false_iff in Hm.
  split.
  - constructor; cbn; [|lia|lia|done]. apply elem_of_cons in G as [->|G]; [by left|]. apply list_elem_of_singleton in G as ->. by right.
  - apply andb_false_iff in G1 as [G1|G1]; apply negb_false_iff in G1; unfold S.is_empty in *; str_eq; auto.
Qed.

Lemma validateEachRule_apart families rules : forall seen u, validateEachRule families seen rules = Ok u ->
  NoDup (map (fun r => (ir_Family r, ir_Priority r)) rules) /\ forall r, r ∈ rules -> familyTable (ir_Family r) (ir_Priority r) ∉ seen.
Proof.
  induction rules as [|x rules IH]; intros seen u H; [split; [constructor|by nothing_in]|]. cbn [validateEachRule] in H. ok_steps H.
  apply IH in H as [HN HS]. rewrite !orb_false_iff in G0. destruct G0 as [[[[Hk _] _] _] _]. apply bool_decide_eq_false in Hk. split.
  - cbn [map]. constructor; [|done]. intros (y & Ey & Hy)%elem_of_map. apply HS in Hy. injection Ey as E1 E2. rewrite <- E1, <- E2 in Hy. set_solver.
  - intros y [->|Hy]%elem_of_cons; [done|]. apply HS in Hy. set_solver.
Qed.
Lemma validateFlow_action f u : validateFlowOffloadingPlan f = Ok u -> fl_Action f = "none" \/ fl_Action f = "disable".
Proof.
  unfold validateFlowOffloadingPlan. intros H. ok_steps H. destruct (negb (fl_Required f)).
  - apply reject_Ok in H. bool_split. str_eq. by left.
  - destruct (fl_RequestedPolicy f =s "disable"); [apply reject_Ok in H; bool_split; str_eq; by right|]. ok_steps H. bool_split. str_eq. by left.
Qed.

Lemma loaded_plan_clean sha256 plan binding plan' :
  intPlan plan -> checkIPPlan sha256 plan binding = Ok plan' -> pn_DeploymentReady plan = true -> cleanPlan plan.
Proof.
  intros HInt H HR. unfold checkIPPlan in H. ok_steps H. rewrite HR in H. cbn [negb] in H. ok_steps H.
  apply validateFlow_action in G2. apply validateIPRoutes_clean in G7 as (HF & HN & _). unfold validateExplicitIPRules in G9. ok_steps G9.
  split; [done|done|by eapply validateEachRule_clean| |by eapply validateEachRule_apart|done].
  intros E r Hr. rewrite E, andb_true_r, any_false in G7. apply G7 in Hr. by apply negb_false_iff, String.eqb_eq in Hr.
Qed.

Lemma touched_clean plan : cleanPlan plan -> Forall cleanRule (touchedRules plan).
Proof.
  intros HP. apply Forall_forall. intros r. unfold touchedRules. case_match eqn:E.
  - rewrite list_elem_of_In, in_flat_map. intros (x & Hx & Hr). apply list_elem_of_In in Hx, Hr. unfold touchedByRule in Hr.
    destruct (_ || _); [by apply elem_of_nil in Hr|]. apply list_elem_of_singleton in Hr as ->. by apply (cp_rules _ HP).
  - apply Nat.ltb_ge in E. assert (E' : pn_IPRules plan = []) by (destruct (pn_IPRules plan); [done|cbn in E; lia]).
    rewrite list_elem_of_In, in_flat_map. intros (x & Hx & Hr). apply list_elem_of_In in Hx, Hr.
    unfold touchedByProof in Hr. rewrite (cp_proofs _ HP E' x Hx) in Hr. by apply elem_of_nil in Hr.
Qed.

(** ** What a snapshot reads *)

Definition touchedIn (priorities : gset Z) (rules : list IPStateRule) : list IPStateRule :=
  List.filter (fun r => bool_decide (su_Priority r ∈ priorities)) rules.
(** Rules a snapshot accepts: one of each priority, of a firewall mark. *)
Definition readable (rules : list IPStateRule) : Prop :=
  NoDup (map su_Priority rules) /\ Forall (fun r => su_Mark r <> "" /\ 1 <= su_Table r) rules.

Lemma snapshotRows_spec family priorities rows : forall seen rules,
  snapshotRows family priorities seen rows = Ok rules <->
  rules = touchedIn priorities (map (ruleOfRow family) rows) /\ readable rules /\ forall r, r ∈ rules -> su_Priority r ∉ seen.
Proof.
  induction rows as [|row rows IH]; intros seen rules; cbn [snapshotRows map].
  { split; [intros [= <-]; split_and!; [done|split; constructor|by nothing_in]|by intros (-> & _)]. }
  unfold touchedIn. cbn [List.filter]. change (su_Priority (ruleOfRow family row)) with (ur_Priority row).
  destruct (bool_decide (ur_Priority row ∈ priorities)) eqn:E; cbn [negb]; [|apply IH].
  fold (touchedIn priorities (map (ruleOfRow family) rows)). split.
  - intros H. ok_steps H. injection H as <-. apply bool_decide_eq_false in G. apply orb_false_iff in G0 as [Hm Ht].
    apply IH in G1 as (-> & [HN HF] & HS). split_and!; [done| |].
    + split; cbn [map].
      * constructor; [|done]. intros (r & Er & Hr)%elem_of_map. apply HS in Hr. rewrite <- Er in Hr. set_solver.
      * constructor; [|done]. cbn. split; [by apply String.eqb_neq|lia].
    + intros r [->|Hr]%elem_of_cons; [done|]. apply HS in Hr. set_solver.
  - intros (-> & [HN HF] & HS). inversion HN as [|? ? Hn HN']; subst. inversion HF as [|? ? [Hm Ht] HF']; subst. cbn [ruleOfRow su_Mark su_Table su_Priority] in *.
    assert (bool_decide (ur_Priority row ∈ seen) = false) as ->.
    { apply bool_decide_eq_false. apply (HS (ruleOfRow family row)). left. }
    assert (S.is_empty (ruleMarkValue (ur_FwMark row)) || (ruleTableInt (ur_Table row) <=? 0) = false) as ->.
    { apply orb_false_iff. split; [exact (proj2 (String.eqb_neq _ _) Hm)|lia]. }
    cbn [reject mbind result_bind]. rewrite (proj2 (IH ({[ur_Priority row]} ∪ seen) (touchedIn priorities (map (ruleOfRow family) rows)))); [done|]. split_and!; [done|done|].
    intros r Hr. rewrite elem_of_union, elem_of_singleton. intros [Er|Hs]; [|apply (HS r); [by right|done]].
    apply Hn. rewrite <- Er. apply elem_of_map. by exists r.
Qed.

Section Snapshot.
Context {K : Type} {run : string -> list string -> K -> K * (string * option string)} {ip uci : string} `{!Iproute K run ip uci}.

Lemma ip_nonempty : S.is_empty ip = false.
Proof. exact (proj2 (String.eqb_neq ip "") ip_named). Qed.
Lemma showTable_spec k family flag table : ok k -> fits run ip k -> familyFlag family = Ok flag -> 1 <= table ->
  showTable run ip family flag table k = (k, Ok (tableOf k family table)).
Proof.
  intros Hok Hfit Hf Ht. destruct (show_table k family flag table Hok Hf Ht) as (raw & err & E & H).
  destruct (Hfit family flag Hf) as [Hlen _]. specialize (Hlen table). unfold showTable. rewrite E in *. cbn [fst snd] in *. destruct err as [e|].
  - destruct H as [-> ->]. by rewrite orb_true_r.
  - by rewrite (H Hlen).
Qed.
Lemma showRules_spec k family flag : ok k -> fits run ip k -> familyFlag family = Ok flag ->
  showRules run ip flag k = (k, Ok (rulesOf k family)).
Proof.
  intros Hok Hfit Hf. destruct (show_rules k family flag Hok Hf) as (raw & E & H).
  destruct (Hfit family flag Hf) as [_ Hlen]. rewrite E in Hlen. specialize (H Hlen).
  unfold showRules, mbind, io_bind, output. rewrite E. cbv iota beta. unfold lift. by rewrite H.
Qed.

(** The rows of the tables of a plan. *)
Definition rowsOf (k : K) (routes : list IPRoute) : list IPStateRoute :=
  flat_map (fun r => map (routeOfRow (ip_Family r) (ip_Table r)) (tableOf k (ip_Family r) (ip_Table r))) routes.
Lemma snapshotRoutes_spec k routes : ok k -> fits run ip k -> forall seen, Forall cleanRoute routes ->
  NoDup (map (fun r => (ip_Family r, ip_Table r)) routes) -> (forall r, r ∈ routes -> familyTable (ip_Family r) (ip_Table r) ∉ seen) ->
  snapshotRoutes run ip seen routes k = (k, Ok (rowsOf k routes)).
Proof.
  intros Hok Hfit. induction routes as [|r routes IH]; intros seen HF HN HS; [done|]. cbn [snapshotRoutes].
  inversion HF as [|? ? Hr HF']; subst. inversion HN as [|? ? Hn HN']; subst.
  rewrite bool_decide_eq_false_2 by (apply HS; left). unfold mbind at 1, io_bind at 1, lift at 1.
  rewrite (familyFlag_of _ (cr_family _ Hr)). cbv iota. unfold mbind at 1, io_bind at 1.
  rewrite (showTable_spec k _ _ _ Hok Hfit (familyFlag_of _ (cr_family _ Hr)) (cr_table _ Hr)). cbv iota.
  unfold mbind at 1, io_bind at 1. rewrite IH; [done|done|done|].
  intros x Hx. rewrite elem_of_union, elem_of_singleton. intros [E|Hs]; [|apply (HS x); [by right|done]].
  apply familyTable_inj in E as [E1 E2]; [|by eapply cr_family, Forall_forall|by apply cr_family].
  apply Hn. apply elem_of_map. exists x. by rewrite E1, E2.
Qed.

Definition prioritiesOf (rules : list IPStateRule) (family : string) : gset Z :=
  list_to_set (map su_Priority (List.filter (fun r => su_Family r =s family) rules)).
Definition rulesIn (k : K) (rules : list IPStateRule) (family : string) : list IPStateRule :=
  touchedIn (prioritiesOf rules family) (listed k family).
Lemma snapshotRules_spec k rules families : ok k -> fits run ip k -> (forall f, f ∈ families -> f = "ipv4" \/ f = "ipv6") ->
  (forall f, f ∈ families -> readable (rulesIn k rules f)) ->
  snapshotRules run ip rules families k = (k, Ok (flat_map (rulesIn k rules) families)).
Proof.
  intros Hok Hfit HF HR. induction families as [|f families IH]; [done|]. cbn [snapshotRules].
  assert (Hf : familyFlag f = Ok (flagOf f)) by (apply familyFlag_of, HF; left).
  unfold mbind at 1, io_bind at 1, lift at 1. rewrite Hf. cbv iota.
  unfold mbind at 1, io_bind at 1, wrap. rewrite (showRules_spec k f _ Hok Hfit Hf). cbv iota.
  unfold mbind at 1, io_bind at 1, lift. fold (prioritiesOf rules f).
  rewrite (proj2 (snapshotRows_spec f (prioritiesOf rules f) (rulesOf k f) ∅ (rulesIn k rules f))).
  - unfold mbind at 1, io_bind at 1. rewrite IH; [done|intros; apply HF; by right|intros; apply HR; by right].
  - split_and!; [done|apply HR; left|intros; set_solver].
Qed.
Lemma snapshotRules_inv k rules families rs k' : ok k -> fits run ip k -> (forall f, f ∈ families -> f = "ipv4" \/ f = "ipv6") ->
  snapshotRules run ip rules families k = (k', Ok rs) -> forall f, f ∈ families -> readable (rulesIn k rules f).
Proof.
  intros Hok Hfit HF. revert rs k'. induction families as [|f families IH]; intros rs k' H; [by nothing_in|]. cbn [snapshotRules] in H.
  assert (Hf : familyFlag f = Ok (flagOf f)) by (apply familyFlag_of, HF; left).
  unfold mbind at 1, io_bind at 1, lift at 1 in H. rewrite Hf in H. cbv iota in H.
  unfold mbind at 1, io_bind at 1, wrap in H. rewrite (showRules_spec k f _ Hok Hfit Hf) in H. cbv iota in H.
  unfold mbind at 1, io_bind at 1, lift in H. fold (prioritiesOf rules f) in H.
  destruct (snapshotRows f (prioritiesOf rules f) ∅ (rulesOf k f)) as [found|] eqn:E; [|done].
  apply snapshotRows_spec in E as (-> & HR & _).
  unfold mbind at 1, io_bind at 1 in H. destruct (snapshotRules run ip rules families k) as [k2 [more|]] eqn:E2; [|done].
  intros g [->|Hg]%elem_of_cons; [done|]. eapply IH; [intros; apply HF; by right|done|done].
Qed.

(** A snapshot of a state, and when there is one. *)
Definition snapshotOf (mapOrder : list string -> list string) (k : K) (plan : IPPlan) : IPStateSnapshot :=
  mkSnapshot (rowsOf k (pn_Routes plan)) (flat_map (rulesIn k (touchedRules plan)) (ruleFamilies mapOrder (touchedRules plan))).
Definition readablePlan (k : K) (plan : IPPlan) : Prop :=
  forall family, family ∈ map su_Family (touchedRules plan) -> readable (rulesIn k (touchedRules plan) family).

Lemma ruleFamilies_elem (mapOrder : list string -> list string) rules f : (forall l, mapOrder l ≡ₚ l) ->
  f ∈ ruleFamilies mapOrder rules <-> f ∈ map su_Family rules.
Proof. intros HO. unfold ruleFamilies. by rewrite HO, elem_of_remove_dups. Qed.
Lemma touched_family plan f : cleanPlan plan -> f ∈ map su_Family (touchedRules plan) -> f = "ipv4" \/ f = "ipv6".
Proof. intros HP (r & -> & Hr)%elem_of_map. apply (cu_family r). eapply Forall_forall; [by apply touched_clean|done]. Qed.

Lemma SnapshotIPState_spec mapOrder k plan : (forall l, mapOrder l ≡ₚ l) -> ok k -> fits run ip k -> cleanPlan plan ->
  readablePlan k plan -> SnapshotIPState run mapOrder ip plan k = (k, Ok (snapshotOf mapOrder k plan)).
Proof.
  intros HO Hok Hfit HP HR. unfold SnapshotIPState. rewrite ip_nonempty.
  unfold mbind at 1, io_bind at 1. rewrite (snapshotRoutes_spec k _ Hok Hfit); [|apply HP|apply HP|set_solver]. cbv iota zeta.
  unfold mbind at 1, io_bind at 1. rewrite snapshotRules_spec; [done|done|done| |].
  - intros f Hf%ruleFamilies_elem; [|done]. by eapply touched_family.
  - intros f Hf%ruleFamilies_elem; [|done]. by apply HR.
Qed.
Lemma SnapshotIPState_inv mapOrder k plan k' pre : (forall l, mapOrder l ≡ₚ l) -> ok k -> fits run ip k -> cleanPlan plan ->
  SnapshotIPState run mapOrder ip plan k = (k', Ok pre) -> k' = k /\ pre = snapshotOf mapOrder k plan /\ readablePlan k plan.
Proof.
  intros HO Hok Hfit HP H.
  assert (HR : readablePlan k plan).
  { unfold SnapshotIPState in H. rewrite ip_nonempty in H.
    unfold mbind at 1, io_bind at 1 in H. rewrite (snapshotRoutes_spec k _ Hok Hfit) in H; [|apply HP|apply HP|set_solver]. cbv iota zeta in H.
    unfold mbind at 1, io_bind at 1 in H. destruct (snapshotRules run ip _ _ k) as [k2 [rs|]] eqn:E; [|done].
    intros f Hf. eapply snapshotRules_inv; [done|done| |exact E|].
    - intros g Hg%ruleFamilies_elem; [|done]. by eapply touched_family.
    - by apply ruleFamilies_elem. }
  rewrite (SnapshotIPState_spec mapOrder k plan HO Hok Hfit HP HR) in H. by injection H as <- <-.
Qed.
End Snapshot.
