(* ===== verification/DataplaneSteps.v ===== *)
(** * Routing state: the steps of applying a plan

    What one command does to the default route of a table and to the rules of a
    priority, and what stays true while a plan is applied ([during]), whichever
    of its commands fail. *)
From Stdlib Require Import ZArith Lia.
From stdpp Require Import base list strings gmap pretty.
From S2P Require Import Prelude Effects Net Config Json NetProofs Validation ValidationProofs Artifact ArtifactProofs JsonText Dataplane DataplaneProofs.

Open Scope Z_scope.

(** ** Lists of one element at most *)

Lemma short_eq {A} (l l' : list A) : (length l <= 1)%nat -> l ≡ₚ l' -> l = l'.
Proof.
  destruct l as [|x [|y l]]; cbn; intros H HP; [by apply Permutation_nil_l in HP| |lia].
  by apply Permutation_length_1_inv in HP.
Qed.
Lemma short_elem {A} (l l' : list A) : (length l <= 1)%nat -> (length l' <= 1)%nat -> (forall x, x ∈ l <-> x ∈ l') -> l = l'.
Proof.
  intros H H' HE. destruct l as [|x [|]]; cbn in *; [..|lia].
  - destruct l' as [|x' l']; [done|]. by assert (Hx : x' ∈ @nil A) by (apply HE; left); apply elem_of_nil in Hx.
  - assert (Hx : x ∈ l') by (apply HE; left). destruct l' as [|x' [|]]; [by apply elem_of_nil in Hx| |cbn in *; lia].
    by apply list_elem_of_singleton in Hx as ->.
Qed.
Lemma short_key {A B} (f : A -> B) v (l : list A) : NoDup (map f l) -> (forall x, x ∈ l -> f x = v) -> (length l <= 1)%nat.
Proof.
  intros HN HE. destruct l as [|x [|y l]]; cbn; [lia|lia|]. exfalso. inversion HN as [|? ? Hn _]; subst. apply Hn. cbn.
  rewrite (HE x), (HE y) by set_solver. left.
Qed.
Lemma NoDup_map_filter {A B} (f : A -> B) (p : A -> bool) l : NoDup (map f l) -> NoDup (map f (List.filter p l)).
Proof.
  induction l as [|x l IH]; cbn; [done|]. inversion 1 as [|? ? Hn HN]; subst. destruct (p x); [|by apply IH]. cbn. constructor; [|by apply IH].
  intros (y & Ey & Hy)%elem_of_map. apply elem_of_filter_b in Hy as [Hy _]. apply Hn. rewrite Ey. apply elem_of_map. by exists y.
Qed.
#[export] Instance filter_Proper {A} (p : A -> bool) : Proper ((≡ₚ) ==> (≡ₚ)) (List.filter p).
Proof. intros l l'. apply filter_perm. Qed.
Lemma filter_split {A} (p : A -> bool) l : l ≡ₚ List.filter p l ++ List.filter (fun x => negb (p x)) l.
Proof. induction l as [|x l IH]; cbn; [done|]. destruct (p x); cbn; [by rewrite IH at 1|]. rewrite IH at 1. by rewrite Permutation_middle. Qed.
Lemma filter_filter_b {A} (p q : A -> bool) l : List.filter p (List.filter q l) = List.filter (fun x => q x && p x) l.
Proof. induction l as [|x l IH]; cbn; [done|]. destruct (q x); cbn; [destruct (p x)|]; by rewrite IH. Qed.
Lemma filter_ext_elem {A} (p q : A -> bool) l : (forall x, x ∈ l -> p x = q x) -> List.filter p l = List.filter q l.
Proof. intros H. induction l as [|x l IH]; cbn; [done|]. rewrite (H x) by left. rewrite IH; [done|]. intros y Hy. apply H. by right. Qed.
Lemma filter_void {A} (p : A -> bool) l : (forall x, x ∈ l -> p x = false) -> List.filter p l = [].
Proof. intros H. induction l as [|x l IH]; cbn; [done|]. rewrite (H x) by left. apply IH. intros y Hy. apply H. by right. Qed.
Lemma flat_map_eq {A B} (f g : A -> list B) l : (forall x, x ∈ l -> f x = g x) -> flat_map f l = flat_map g l.
Proof. intros H. induction l as [|x l IH]; cbn; [done|]. rewrite (H x) by left. rewrite IH; [done|]. intros y Hy. apply H. by right. Qed.
Lemma elem_of_flat_map {A B} (f : A -> list B) l y : y ∈ flat_map f l <-> exists x, x ∈ l /\ y ∈ f x.
Proof. rewrite list_elem_of_In, in_flat_map. split; intros (x & Hx & Hy); exists x; rewrite ?list_elem_of_In in *; done. Qed.

(** Lists agree when they do for each value of a key. *)
Lemma perm_by_key {A B} `{EqDecision A, EqDecision B} (f : A -> B) l l' :
  (forall x, x ∈ l \/ x ∈ l' -> List.filter (fun y => bool_decide (f y = f x)) l ≡ₚ List.filter (fun y => bool_decide (f y = f x)) l') -> l ≡ₚ l'.
Proof.
  intros H0. apply (Permutation_count_occ (fun x y : A => decide (x = y))). intros x.
  assert (HC : forall m, count_occ (fun x y : A => decide (x = y)) (List.filter (fun y => bool_decide (f y = f x)) m) x = count_occ (fun x y : A => decide (x = y)) m x).
  { induction m as [|y m IH]; cbn; [done|]. destruct (decide (y = x)) as [->|Hne].
    - rewrite bool_decide_eq_true_2 by done. cbn. rewrite decide_True by done. by rewrite IH.
    - destruct (bool_decide _); cbn; [rewrite decide_False by done|]; done. }
  rewrite <- (HC l), <- (HC l'). destruct (decide (x ∈ l \/ x ∈ l')) as [Hx|Hx].
  - by apply Permutation_count_occ, H0.
  - rewrite !HC. assert (x ∉ l /\ x ∉ l') as [Hl Hl'] by tauto.
    rewrite list_elem_of_In in Hl, Hl'. rewrite (proj1 (count_occ_not_In _ _ _) Hl), (proj1 (count_occ_not_In _ _ _) Hl'). done.
Qed.
Lemma flat_map_perm {A B} (f g : A -> list B) l l' : l ≡ₚ l' -> (forall x, x ∈ l -> f x ≡ₚ g x) -> flat_map f l ≡ₚ flat_map g l'.
Proof.
  intros HP HE. trans (flat_map g l).
  - clear HP. induction l as [|x l IH]; cbn; [done|]. rewrite (HE x) by left. rewrite IH; [done|]. intros y Hy. apply HE. by right.
  - clear HE. induction HP; cbn; [done|by rewrite IHHP| |by etrans].
    rewrite !app_assoc. by rewrite (Permutation_app_comm (g y) (g x)).
Qed.

(** ** Keys *)

Definition known (family : string) : Prop := family = "ipv4" \/ family = "ipv6".

Lemma ruleKey_inj f g p q : known f -> known g -> ruleKey f p = ruleKey g q -> f = g /\ p = q.
Proof. apply familyTable_inj. Qed.
Lemma routeKey_inj f g t u d e : known f -> known g -> routeKey f t d = routeKey g u e ->
  f = g /\ t = u /\ canonicalRouteDestination f d = canonicalRouteDestination g e.
Proof.
  unfold routeKey. intros [-> | ->] [-> | ->] H; try discriminate H; do 2 apply str_app_inj_l in H;
    (apply decimal_prefix in H as [H ->]; [|by apply pretty_decimal|by apply pretty_decimal|done]); by apply (inj pretty) in H.
Qed.
Lemma canonical_idempotent f d : canonicalRouteDestination f (canonicalRouteDestination f d) = canonicalRouteDestination f d.
Proof. 
  unfold canonicalRouteDestination.
  destruct ((d =s "default") || (f =s "ipv4") && (d =s "0.0.0.0/0") || (f =s "ipv6") && (d =s "::/0")) eqn:E; [done|]. by rewrite E.
Qed.
Lemma shownRoute_parts s : sr_Family (shownRoute s) = sr_Family s /\ sr_Table (shownRoute s) = sr_Table s /\
  sr_Destination (shownRoute s) = canonicalRouteDestination (sr_Family s) (sr_Destination s).
Proof. unfold shownRoute. by destruct (sr_Type s =s "unreachable"). Qed.

(** ** What a rollback looks up *)

Lemma preRoutes_lookup l key :
  match preRoutes l !! key with Some s => s ∈ l /\ keyOfRoute s = key | None => forall s, s ∈ l -> keyOfRoute s <> key end.
Proof.
  unfold preRoutes. induction l as [|x l IH] using rev_ind; [cbn; rewrite lookup_empty; by intros s Hs%elem_of_nil|]. rewrite fold_left_app. cbn [fold_left].
  destruct (decide (keyOfRoute x = key)) as [<-|Hne].
  - rewrite lookup_insert_eq. split; [set_solver|done].
  - rewrite lookup_insert_ne by done. case_match; [destruct IH; split; [set_solver|done]|].
    intros s [Hs|Hs%list_elem_of_singleton]%elem_of_app; [by apply IH|by subst].
Qed.
Lemma preRules_lookup l : forall m, NoDup (map keyOfRule l) -> (forall r, r ∈ l -> m !! keyOfRule r = None) ->
  exists m', preRules m l = Ok m' /\ forall key, m' !! key = match first (fun r => keyOfRule r =s key) l with Some r => Some r | None => m !! key end.
Proof.
  induction l as [|x l IH]; intros m HN HM; [by exists m|]. inversion HN as [|? ? Hn HN']; subst. cbn [preRules].
  rewrite (HM x) by left. rewrite bool_decide_eq_false_2 by (by intros []). cbn [reject mbind result_bind].
  destruct (IH (<[keyOfRule x := x]> m) HN') as (m' & E & HL).
  { intros r Hr. rewrite lookup_insert_ne; [apply HM; by right|]. intros E. apply Hn. rewrite E. apply elem_of_map. by exists r. }
  exists m'. split; [done|]. intros key. rewrite HL. unfold first. cbn [List.find]. destruct (String.eqb_spec (keyOfRule x) key) as [<-|Hne].
  - destruct (List.find _ l) as [r|] eqn:Ef.
    + apply find_some in Ef as [Hr Er]. apply String.eqb_eq in Er. exfalso. apply Hn. rewrite <- Er. apply elem_of_map. exists r. by rewrite list_elem_of_In.
    + by rewrite lookup_insert_eq.
  - destruct (List.find _ l); [done|]. by rewrite lookup_insert_ne.
Qed.

Lemma Atoi_range s n : Atoi s = Some n -> int64_min <= n <= int64_max.
Proof.
  unfold Atoi. destruct (match s with EmptyString => _ | String _ _ => _ end) as [neg digits]. destruct (_ || _); [done|].
  destruct (_ && _) eqn:E; [|done]. intros [= <-]. apply andb_true_iff in E. lia.
Qed.

Section Rollback.
Context {K : Type} {run : string -> list string -> K -> K * (string * option string)} {ip uci : string} `{!Iproute K run ip uci}.

(** ** The default route and the rules of a state *)

Lemma own_default k f t s : s ∈ own k f t -> sr_Destination s = "default".
Proof. unfold own. rewrite elem_of_filter_b. intros [_ H]. by apply String.eqb_eq. Qed.
Lemma own_short k f t : ok k -> (length (own k f t) <= 1)%nat.
Proof. intros Hok. apply (short_key sr_Destination "default"); [by apply NoDup_map_filter, one_route|]. by intros s Hs%own_default. Qed.
Lemma own_same k k' f t : ok k -> shown k' f t ≡ₚ shown k f t -> own k' f t = own k f t.
Proof. intros Hok HP. symmetry. apply short_eq; [by apply own_short|]. unfold own. by rewrite HP. Qed.
Lemma others_same (k k' : K) f t : shown k' f t ≡ₚ shown k f t -> others k' f t ≡ₚ others k f t.
Proof. intros HP. unfold others. by rewrite HP. Qed.
Lemma shown_split (k : K) f t : shown k f t ≡ₚ own k f t ++ others k f t.
Proof. apply filter_split. Qed.
Lemma shown_family k f t s : s ∈ shown k f t -> sr_Family s = f /\ sr_Table s = t.
Proof. intros (row & -> & _)%elem_of_map. pose proof (shownRoute_parts (routeOfRow f t row)) as (-> & -> & _). done. Qed.
Lemma listed_family (k : K) f r : r ∈ listed k f -> su_Family r = f.
Proof. by intros (row & -> & _)%elem_of_map. Qed.
Lemma ruleTableInt_max v : ruleTableInt v <= int64_max.
Proof. unfold ruleTableInt. assert (0 <= int64_max) by done. destruct v as [| |s|s| |]; try done; destruct (Atoi s) eqn:E; try done; by apply Atoi_range in E as [_ ?]. Qed.
Lemma listed_table (k : K) f r : r ∈ listed k f -> su_Table r <= int64_max.
Proof. intros (row & -> & _)%elem_of_map. apply ruleTableInt_max. Qed.
Lemma rulesAt_elem (k : K) f p r : r ∈ rulesAt k f p <-> r ∈ listed k f /\ su_Priority r = p.
Proof. unfold rulesAt. rewrite elem_of_filter_b. unfold atPriority. by rewrite Z.eqb_eq. Qed.
Lemma rulesAt_same (k k' : K) f p : listed k' f ≡ₚ listed k f -> rulesAt k' f p ≡ₚ rulesAt k f p.
Proof. intros HP. unfold rulesAt. by rewrite HP. Qed.

(** ** What is compared *)

Definition touches (plan : IPPlan) (f : string) (p : Z) : Prop := exists r, r ∈ touchedRules plan /\ su_Family r = f /\ su_Priority r = p.
Lemma prioritiesOf_elem plan f p : p ∈ prioritiesOf (touchedRules plan) f <-> touches plan f p.
Proof.
  unfold prioritiesOf, touches. rewrite elem_of_list_to_set, elem_of_map. split.
  - intros (r & -> & Hr). apply elem_of_filter_b in Hr as [Hr Hf]. apply String.eqb_eq in Hf. by exists r.
  - intros (r & Hr & <- & <-). exists r. split; [done|]. apply elem_of_filter_b. split; [done|by apply String.eqb_refl].
Qed.
Lemma rulesIn_elem k plan f r : r ∈ rulesIn k (touchedRules plan) f <-> r ∈ listed k f /\ touches plan f (su_Priority r).
Proof. unfold rulesIn, touchedIn. by rewrite elem_of_filter_b, bool_decide_eq_true, prioritiesOf_elem. Qed.
Lemma rulesAt_short k plan f p : cleanPlan plan -> readablePlan k plan -> touches plan f p -> (length (rulesAt k f p) <= 1)%nat.
Proof.
  intros HP HR (r & Hr & Hf & Hp). destruct (HR f) as [HN _]; [apply elem_of_map; by exists r|].
  apply (short_key su_Priority p); [|by intros x [_ Hx]%rulesAt_elem].
  assert (rulesAt k f p = List.filter (atPriority p) (rulesIn k (touchedRules plan) f)) as ->; [|by apply NoDup_map_filter].
  unfold rulesAt, rulesIn, touchedIn. rewrite filter_filter_b. apply filter_ext_elem. intros x _. unfold atPriority.
  destruct (Z.eqb_spec (su_Priority x) p) as [->|]; [|by rewrite andb_false_r].
  rewrite bool_decide_eq_true_2; [done|]. apply prioritiesOf_elem. by exists r.
Qed.

Lemma restrictRoutes_rows k plan : cleanPlan plan ->
  restrictRoutes (rowsOf k (pn_Routes plan)) plan = gosort (key_slt keyOfRoute) (flat_map (fun r => own k (ip_Family r) (ip_Table r)) (pn_Routes plan)).
Proof.
  intros HP. unfold restrictRoutes. f_equal. unfold rowsOf.
  set (allowed := list_to_set (map keyOfPlanned (pn_Routes plan)) : gset string).
  assert (HK : forall r row, r ∈ pn_Routes plan ->
    bool_decide (keyOfRoute (routeOfRow (ip_Family r) (ip_Table r) row) ∈ allowed) = isDefault (shownRoute (routeOfRow (ip_Family r) (ip_Table r) row))).
  { intros r row Hr. pose proof (proj1 (Forall_forall _ _) (cp_routes _ HP)) as HC. pose proof (shownRoute_parts (routeOfRow (ip_Family r) (ip_Table r) row)) as (_ & _ & HD).
    unfold isDefault. rewrite HD. cbn [routeOfRow sr_Family sr_Destination]. apply eq_bool_prop_intro. split; intros H.
    - apply bool_decide_unpack in H. unfold allowed in H. rewrite elem_of_list_to_set, elem_of_map in H. destruct H as (x & E & Hx).
      apply routeKey_inj in E as (_ & _ & E); [|by apply (cr_family _ (HC r Hr))|by apply (cr_family _ (HC x Hx))].
      cbn [routeOfRow sr_Family sr_Destination] in E. rewrite E, (cr_default _ (HC x Hx)). done.
    - apply Is_true_true, String.eqb_eq in H. apply bool_decide_pack. unfold allowed. rewrite elem_of_list_to_set, elem_of_map. exists r. split; [|done].
      unfold keyOfRoute, keyOfPlanned, routeKey. cbn [routeOfRow sr_Family sr_Table sr_Destination]. by rewrite H, (cr_default _ (HC r Hr)). }
  clearbody allowed. induction (pn_Routes plan) as [|r routes IH]; [done|]. cbn [flat_map]. rewrite List.filter_app, map_app.
  rewrite IH by (intros x row Hx; apply HK; by right). f_equal.
  unfold own, shown. specialize (HK r). induction (tableOf k (ip_Family r) (ip_Table r)) as [|row rows IH']; [done|]. cbn [map List.filter].
  rewrite HK by left. destruct (isDefault _); cbn [map]; by rewrite IH'.
Qed.
Lemma restrictRules_perm l l' plan : l ≡ₚ l' ->
  (forall r r', r ∈ l -> r' ∈ l -> keyOfRule r = keyOfRule r' -> r = r') -> restrictRules l plan = restrictRules l' plan.
Proof.
  intros HP HU. unfold restrictRules. apply gosort_unique; [apply _| |by apply filter_perm].
  intros r r' Hr Hr' H1 H2. apply elem_of_filter_b in Hr as [Hr _], Hr' as [Hr' _]. apply HU; [done|done|]. by apply ltb_total.
Qed.

Context (plan : IPPlan) (HP : cleanPlan plan).

Lemma touches_known f p : touches plan f p -> known f /\ 1 <= p <= int64_max.
Proof.
  intros (r & Hr & <- & <-). pose proof (proj1 (Forall_forall _ _) (touched_clean _ HP) r Hr) as HC. by destruct HC.
Qed.
Lemma rules_apart (mo : list string -> list string) k : (forall l, mo l ≡ₚ l) -> readablePlan k plan -> forall r r', r ∈ sn_Rules (snapshotOf mo k plan) ->
  r' ∈ sn_Rules (snapshotOf mo k plan) -> keyOfRule r = keyOfRule r' -> r = r'.
Proof.
  intros HO HR r r' Hr Hr' E. cbn [snapshotOf sn_Rules] in *. apply elem_of_flat_map in Hr as (f & Hf & Hr), Hr' as (f' & Hf' & Hr').
  apply rulesIn_elem in Hr as [Hr Ht], Hr' as [Hr' Ht']. pose proof (touches_known _ _ Ht) as [Kf _]. pose proof (touches_known _ _ Ht') as [Kf' _].
  pose proof (listed_family _ _ _ Hr) as Ef. pose proof (listed_family _ _ _ Hr') as Ef'.
  apply ruleKey_inj in E as [E1 E2]; [|by rewrite Ef|by rewrite Ef']. assert (f' = f) as -> by congruence.
  pose proof (rulesAt_short k plan f _ HP HR Ht) as Hs.
  assert (A : r ∈ rulesAt k f (su_Priority r)) by (by apply rulesAt_elem).
  assert (B : r' ∈ rulesAt k f (su_Priority r)) by (by apply rulesAt_elem).
  destruct (rulesAt k f (su_Priority r)) as [|x [|]]; [by apply elem_of_nil in A| |cbn in Hs; lia].
  apply list_elem_of_singleton in A as ->, B as ->. done.
Qed.

(** ** While a plan is applied *)

(** A default route only changes to that of the plan, other routes and the rules
    of other priorities stay, and a priority of the plan holds one rule at most. *)
Record during (k0 k : K) : Prop := {
  du_ok : ok k;
  du_others : forall f t, others k f t ≡ₚ others k0 f t;
  du_own : forall f t, own k f t = own k0 f t \/
             exists r, r ∈ pn_Routes plan /\ ip_Family r = f /\ ip_Table r = t /\ own k f t = [shownAs (plannedRoute r)];
  du_free : forall f, List.filter (fun r => negb (bool_decide (su_Priority r ∈ prioritiesOf (touchedRules plan) f))) (listed k f)
             ≡ₚ List.filter (fun r => negb (bool_decide (su_Priority r ∈ prioritiesOf (touchedRules plan) f))) (listed k0 f);
  du_at : forall f p, touches plan f p -> (length (rulesAt k f p) <= 1)%nat
}.

Lemma during_start k : ok k -> readablePlan k plan -> during k k.
Proof. intros Hok HR. split; [done|done|by left|done|]. intros f p Ht. by eapply rulesAt_short. Qed.

(** Nothing about rules changes. *)
Lemma sameRules_free k k' f (p : IPStateRule -> bool) : sameRules k k' -> List.filter p (listed k' f) ≡ₚ List.filter p (listed k f).
Proof. intros HS. by rewrite (HS f). Qed.
Lemma sameRules_at k k' f p : sameRules k k' -> length (rulesAt k' f p) = length (rulesAt k f p).
Proof. intros HS. apply Permutation_length, rulesAt_same. by rewrite (HS f). Qed.

Lemma during_same k0 k k' : during k0 k -> ok k' -> sameState k' k -> during k0 k'.
Proof.
  intros HD Hok [HT HRu]. split; [done| | | |].
  - intros f t. rewrite <- (du_others _ _ HD f t). by apply others_same.
  - intros f t. rewrite (own_same k k' f t (du_ok _ _ HD) (HT f t)). by apply HD.
  - intros f. rewrite <- (du_free _ _ HD f). apply sameRules_free. by symmetry.
  - intros f p Ht. rewrite <- (sameRules_at k' k f p) by done. by apply HD.
Qed.

(** The default route of one table becomes [l]. *)
Lemma during_table k0 k k' f t (l : list IPStateRoute) : during k0 k -> ok k' -> own k' f t = l -> otherTables k k' f t -> sameRules k k' ->
  (l = own k0 f t \/ exists r, r ∈ pn_Routes plan /\ ip_Family r = f /\ ip_Table r = t /\ l = [shownAs (plannedRoute r)]) -> during k0 k'.
Proof.
  intros HD Hok HO [HE HF] HRu Hl.
  assert (HX : forall f' t', (f', t') = (f, t) \/ shown k' f' t' ≡ₚ shown k f' t').
  { intros f' t'. destruct (decide ((f', t') = (f, t))); [by left|right; by apply HF]. }
  split; [done| | | |].
  - intros f' t'. rewrite <- (du_others _ _ HD f' t'). destruct (HX f' t') as [[= -> ->]|H]; [done|by apply others_same].
  - intros f' t'. destruct (HX f' t') as [[= -> ->]|H]; [by rewrite HO|]. rewrite (own_same k k' f' t' (du_ok _ _ HD) H). by apply HD.
  - intros f'. rewrite <- (du_free _ _ HD f'). by apply sameRules_free.
  - intros f' p Ht. rewrite (sameRules_at k k' f' p) by done. by apply HD.
Qed.

Lemma during_replace k0 k r args : during k0 k -> r ∈ pn_Routes plan -> routeArgs r = Ok args ->
  exists k' raw, run ip args k = (k', (raw, None)) /\ during k0 k' /\ own k' (ip_Family r) (ip_Table r) = [shownAs (plannedRoute r)] /\
    otherTables k k' (ip_Family r) (ip_Table r) /\ sameRules k k'.
Proof.
  intros HD Hr HA. pose proof (proj1 (Forall_forall _ _) (cp_routes _ HP) r Hr) as HC.
  destruct (cr_args _ HC) as (args' & HA' & HR). rewrite HA in HA'. injection HA' as <-.
  destruct (route_replace k (plannedRoute r) _ _ (du_ok _ _ HD) (familyFlag_of _ (cr_family _ HC)) HR (cr_table _ HC) (cr_default _ HC) (cr_writable _ HC))
    as (k' & raw & E & Hok & HO & HT & HS).
  exists k', raw. split_and!; try done. eapply during_table; try done. right. by exists r.
Qed.

(** The rules of one priority become [l]. *)
Lemma during_priority k0 k k' f p (l : list IPStateRule) : during k0 k -> touches plan f p -> ok k' ->
  listed k' f ≡ₚ l ++ List.filter (fun r => negb (atPriority p r)) (listed k f) -> Forall (fun r => su_Priority r = p) l -> (length l <= 1)%nat ->
  otherFamilies k k' f -> sameTables k k' ->
  during k0 k' /\ rulesAt k' f p ≡ₚ l /\ forall f' p', (f', p') <> (f, p) -> rulesAt k' f' p' ≡ₚ rulesAt k f' p'.
Proof.
  intros HD Ht Hok HL Hp Hl HF HT. rewrite Forall_forall in Hp.
  assert (Hat : rulesAt k' f p ≡ₚ l).
  { unfold rulesAt. rewrite HL, List.filter_app, (filter_void (atPriority p) (List.filter _ _)).
    - rewrite app_nil_r, (filter_ext_elem (atPriority p) (fun _ => true)) by (intros r Hr; apply Z.eqb_eq; by apply Hp).
      clear. by induction l as [|x l IH]; cbn; [|rewrite IH].
    - intros r Hr. apply elem_of_filter_b in Hr as [_ Hr]. by apply negb_true_iff. }
  assert (Hother : forall f' p', (f', p') <> (f, p) -> rulesAt k' f' p' ≡ₚ rulesAt k f' p').
  { intros f' p' Hne. destruct (decide (f' = f)) as [->|Hf]; [|by apply rulesAt_same, HF].
    unfold rulesAt. rewrite HL, List.filter_app, (filter_void (atPriority p') l).
    - cbn [app]. rewrite filter_filter_b. rewrite (filter_ext_elem _ (atPriority p')); [done|]. intros r _. unfold atPriority.
      destruct (Z.eqb_spec (su_Priority r) p) as [->|]; [|by rewrite andb_true_l]. symmetry. apply Z.eqb_neq. congruence.
    - intros r Hr. apply Z.eqb_neq. rewrite (Hp r Hr). congruence. }
  split; [|done]. split; [done| | | |].
  - intros f' t'. rewrite <- (du_others _ _ HD f' t'). apply others_same. by rewrite (HT f' t').
  - intros f' t'. rewrite (own_same k k' f' t' (du_ok _ _ HD)) by (by rewrite (HT f' t')). by apply HD.
  - intros f'. rewrite <- (du_free _ _ HD f'). destruct (decide (f' = f)) as [->|Hf]; [|by rewrite (HF f' Hf)].
    rewrite HL, List.filter_app, (filter_void _ l).
    + cbn [app]. rewrite filter_filter_b. rewrite (filter_ext_elem _ (fun r => negb (bool_decide (su_Priority r ∈ prioritiesOf (touchedRules plan) f)))); [done|].
      intros r _. unfold atPriority. destruct (Z.eqb_spec (su_Priority r) p) as [->|]; [|done].
      rewrite bool_decide_eq_true_2; [done|]. by apply prioritiesOf_elem.
    + intros r Hr. rewrite (Hp r Hr), bool_decide_eq_true_2; [done|]. by apply prioritiesOf_elem.
  - intros f' p' Ht'. destruct (decide ((f', p') = (f, p))) as [[= -> ->]|Hne]; [by rewrite Hat|]. rewrite (Hother _ _ Hne). by apply HD.
Qed.

Lemma during_del k0 k f flag p : during k0 k -> touches plan f p -> familyFlag f = Ok flag ->
  let k' := (run ip (ruleDelArgs flag p) k).1 in
  during k0 k' /\ rulesAt k' f p = [] /\ sameTables k k' /\ forall f' p', (f', p') <> (f, p) -> rulesAt k' f' p' ≡ₚ rulesAt k f' p'.
Proof.
  intros HD Ht Hf k'. destruct (touches_known _ _ Ht) as [_ Hp].
  destruct (rule_del k f flag p (du_ok _ _ HD) Hf Hp (du_at _ _ HD _ _ Ht)) as (Hok & HL & HF & HT). fold k' in Hok, HL, HF, HT.
  destruct (during_priority k0 k k' f p [] HD Ht Hok HL ltac:(done) ltac:(cbn; lia) HF HT) as (HD' & Hat & Ho).
  split_and!; try done. by apply Permutation_nil_r.
Qed.
Lemma during_add k0 k f flag p mark mask table : during k0 k -> touches plan f p -> familyFlag f = Ok flag -> 1 <= table <= int64_max -> validMark mark = true ->
  mask = "" \/ mask = "/0xffffffff" -> rulesAt k f p = [] ->
  exists k' raw, run ip (ruleAddArgs flag p (mark +:+ mask) table) k = (k', (raw, None)) /\ during k0 k' /\
    rulesAt k' f p = [mkStateRule f p (canonicalMark mark) table] /\ sameTables k k' /\
    forall f' p', (f', p') <> (f, p) -> rulesAt k' f' p' ≡ₚ rulesAt k f' p'.
Proof.
  intros HD Ht Hf Htab Hm Hmask Hno. destruct (touches_known _ _ Ht) as [_ Hp].
  destruct (rule_add k f flag p mark mask table (du_ok _ _ HD) Hf Hp Htab Hm Hmask Hno) as (k' & raw & E & Hok & HL & HF & HT).
  exists k', raw. split; [done|].
  assert (HL' : listed k' f ≡ₚ [mkStateRule f p (canonicalMark mark) table] ++ List.filter (fun r => negb (atPriority p r)) (listed k f)).
  { rewrite HL. cbn [app]. rewrite (filter_ext_elem _ (fun _ => true)).
    - assert (List.filter (fun _ => true) (listed k f) = listed k f) as ->; [|done]. clear. by induction (listed k f) as [|x l IH]; cbn; [|rewrite IH].
    - intros r Hr. destruct (atPriority p r) eqn:Er; [|done]. assert (Hin : r ∈ rulesAt k f p) by (by apply elem_of_filter_b).
      rewrite Hno in Hin. by apply elem_of_nil in Hin. }
  destruct (during_priority k0 k k' f p _ HD Ht Hok HL' ltac:(by repeat constructor) ltac:(cbn; lia) HF HT) as (HD' & Hat & Ho).
  split_and!; try done. by apply Permutation_singleton_r.
Qed.

(** *** Commands that may fail *)

(** A command does what it should or fails and does nothing; only the removal of
    a rule, whose error [ApplyIPPlanWithUCI] ignores, is not hindered. *)
Definition isRuleDel (args : list string) : bool :=
  match args with _ :: object :: command :: _ => (object =s "rule") && (command =s "del") | _ => false end.
Definition interrupted (run1 : string -> list string -> K -> K * (string * option string)) : Prop := forall name args k,
  run1 name args k = run name args k \/ isRuleDel args = false /\ exists raw e, run1 name args k = (k, (raw, Some e)).

Lemma bind_keeps {A B} (P : K -> Prop) (m : io K A) (f : A -> io K B) k : P (m k).1 -> (forall a k', m k = (k', Ok a) -> P k' -> P (f a k').1) -> P ((m ≫= f) k).1.
Proof. unfold mbind, io_bind. destruct (m k) as [k' [a|e]]; cbn; [|done]. intros H HF. by apply HF. Qed.
Lemma forEach_keeps {A} (P : K -> Prop) (f : A -> io K unit) l : (forall x k, x ∈ l -> P k -> P (f x k).1) -> forall k, P k -> P (forEach f l k).1.
Proof.
  induction l as [|x l IH]; intros HF k Hk; [done|]. cbn [forEach]. apply bind_keeps; [apply HF; [left|done]|].
  intros _ k' _ Hk'. apply IH; [|done]. intros y k'' Hy. apply HF. by right.
Qed.
Lemma wrap_keeps {A} (P : K -> Prop) prefix (m : io K A) k : P (m k).1 -> P (wrap prefix m k).1.
Proof. unfold wrap. by destruct (m k) as [k' []]. Qed.

Context (run1 : string -> list string -> K -> K * (string * option string)) (HI : interrupted run1).

Lemma exec_state name args k : (exec run1 name args k).1 = (run1 name args k).1.
Proof. unfold exec. by destruct (run1 name args k) as [k' [raw err]]. Qed.
Lemma exec_keeps (P : K -> Prop) name args k : P k -> P (run name args k).1 -> P (exec run1 name args k).1.
Proof. intros Hk Hr. rewrite exec_state. destruct (HI name args k) as [-> | (_ & raw & e & ->)]; done. Qed.
Lemma exec_del flag p k : (ignore (exec run1 ip (ruleDelArgs flag p)) k) = ((run ip (ruleDelArgs flag p) k).1, Ok ()).
Proof. unfold ignore. rewrite exec_state. by destruct (HI ip (ruleDelArgs flag p) k) as [-> | (H & _)]. Qed.

Lemma touches_rule r : r ∈ pn_IPRules plan -> touches plan (ir_Family r) (ir_Priority r).
Proof.
  intros Hr. pose proof (proj1 (cp_rules _ HP r Hr)) as [_ Hp Ht Hm]. cbn in *. unfold touches, touchedRules.
  assert ((0 <? length (pn_IPRules plan))%nat = true) as ->.
  { apply Nat.ltb_lt. destruct (pn_IPRules plan); [by apply elem_of_nil in Hr|cbn; lia]. }
  exists (mkStateRule (ir_Family r) (ir_Priority r) (ir_Mark r) (ir_Table r)). split; [|done].
  apply elem_of_flat_map. exists r. split; [done|]. unfold touchedByRule.
  assert ((ir_Priority r <=? 0) || (ir_Table r <=? 0) || S.is_empty (ir_Mark r) = false) as ->; [|left].
  rewrite !orb_false_iff. split_and!; [lia|lia|]. unfold S.is_empty. destruct (String.eqb_spec (ir_Mark r) "") as [E|]; [by rewrite E in Hm|done].
Qed.
Lemma fullMark_mask r : r ∈ pn_IPRules plan -> exists mask, fullMark r = ir_Mark r +:+ mask /\ (mask = "" \/ mask = "/0xffffffff").
Proof.
  intros Hr. unfold fullMark. destruct (proj2 (cp_rules _ HP r Hr)) as [-> | ->]; cbn.
  - exists "". split; [by rewrite str_app_empty_r|by left].
  - exists "/0xffffffff". split; [done|by right].
Qed.

Lemma applyRule_during k0 r k : r ∈ pn_IPRules plan -> during k0 k -> during k0 (applyRule run1 ip r k).1.
Proof.
  intros Hr HD. pose proof (proj1 (cp_rules _ HP r Hr)) as [Hf Hp Ht Hm]. cbn in Hf, Hp, Ht, Hm. pose proof (touches_rule r Hr) as HT.
  unfold applyRule. destruct (negb _); [done|]. destruct (_ || _); [done|].
  destruct (during_del k0 k (ir_Family r) (flagOf (ir_Family r)) _ HD HT (familyFlag_of _ Hf)) as (HD' & Hno & _ & _).
  apply bind_keeps; [by rewrite exec_del|]. intros a k1 E _. rewrite exec_del in E. injection E as <- <-. apply wrap_keeps, exec_keeps; [done|].
  destruct (fullMark_mask r Hr) as (mask & -> & Hmask).
  destruct (during_add k0 _ (ir_Family r) (flagOf (ir_Family r)) _ (ir_Mark r) mask (ir_Table r) HD' HT (familyFlag_of _ Hf) Ht Hm Hmask Hno)
    as (k' & raw & -> & HD2 & _). done.
Qed.
Lemma applyRoute_during k0 r k : r ∈ pn_Routes plan -> during k0 k -> during k0 (applyRoute run1 ip r k).1.
Proof.
  intros Hr HD. unfold applyRoute. pose proof (proj1 (Forall_forall _ _) (cp_routes _ HP) r Hr) as HC. destruct (cr_args _ HC) as (args & HA & _).
  rewrite HA. apply bind_keeps; [done|]. intros a k' [= <- <-] _. apply wrap_keeps, exec_keeps; [done|].
  destruct (during_replace k0 k r args HD Hr HA) as (k' & raw & -> & HD' & _). done.
Qed.
Lemma apply_during k0 k : during k0 k -> during k0 (ApplyIPPlanWithUCI run1 ip uci plan k).1.
Proof.
  intros HD. unfold ApplyIPPlanWithUCI. destruct (S.is_empty ip); [done|]. destruct (negb _); [done|].
  apply bind_keeps.
  { unfold applyFlowOffloading. destruct (_ || _); [done|]. destruct (_ =s _); [|done]. destruct (S.is_empty uci); [done|].
    apply forEach_keeps; [|done]. intros args k1 _ H1. apply wrap_keeps, exec_keeps; [done|].
    destruct (uci_only k1 args (du_ok _ _ H1)) as [Hok HS]. by eapply during_same. }
  intros _ k1 _ H1. apply bind_keeps; [apply forEach_keeps; [by intros; apply applyRoute_during|done]|].
  intros _ k2 _ H2. case_match eqn:E; [apply forEach_keeps; [by intros; apply applyRule_during|done]|].
  apply forEach_keeps; [|done]. intros r k3 Hr H3. unfold applyProof.
  assert (EN : pn_IPRules plan = []) by (destruct (pn_IPRules plan); [done|discriminate E]).
  by rewrite (cp_proofs _ HP EN r Hr).
Qed.
End Rollback.
