(* ===== verification/DataplaneRollback.v ===== *)
(** * Routing state: rolling back

    [rollback_restores]: however far a plan got, a rollback succeeds and brings
    back everything the kernel listed before.  [rollback_never_lies]: a rollback
    that reports success has restored every key of the plan, whatever the
    commands did. *)
From Stdlib Require Import ZArith Lia.
From stdpp Require Import base list strings gmap pretty.
From S2P Require Import Prelude Effects Net Config Json NetProofs Validation ValidationProofs Artifact ArtifactProofs JsonText Dataplane DataplaneProofs DataplaneSteps.

Open Scope Z_scope.

(** ** Rolling back *)

(** A snapshot whose default routes are of a kind that can be put back. *)
Definition restorable (pre : IPStateSnapshot) : bool :=
  forallb (fun s => negb (isDefault (shownRoute s)) || is_ok (routeReplaceArgs (flagOf (sr_Family s)) s)) (sn_Routes pre).

Section Restore.
Context {K : Type} {run : string -> list string -> K -> K * (string * option string)} {ip uci : string} `{!Iproute K run ip uci}.
Context (plan : IPPlan) (HP : cleanPlan plan) (k0 : K) (H0 : ok k0).

Lemma forEach_restores {A} (f : A -> io K unit) l (P : list A -> K -> Prop) :
  (forall x done k, x ∈ l -> P done k -> exists k', f x k = (k', Ok ()) /\ P (x :: done) k') ->
  forall done k, P done k -> exists k', forEach f l k = (k', Ok ()) /\ exists all, P all k' /\ forall x, x ∈ l \/ x ∈ done -> x ∈ all.
Proof.
  intros HF. assert (HS : forall l', (forall x, x ∈ l' -> x ∈ l) -> forall done k, P done k ->
    exists k', forEach f l' k = (k', Ok ()) /\ exists all, P all k' /\ forall x, x ∈ l' \/ x ∈ done -> x ∈ all); [|by apply HS].
  induction l' as [|x l' IH]; intros Hsub done k HPk.
  - exists k. split; [reflexivity|]. exists done. split; [exact HPk|]. intros x [Hx|Hx]; [by apply elem_of_nil in Hx|exact Hx].
  - destruct (HF x done k) as (k1 & E & HP1); [apply Hsub; left|exact HPk|].
    destruct (IH (fun y Hy => Hsub y (list_elem_of_further _ _ _ Hy)) (x :: done) k1 HP1) as (k2 & E2 & all & HA & Hall).
    exists k2. split; [cbn [forEach]; unfold mbind, io_bind; rewrite E; exact E2|]. exists all. split; [exact HA|].
    intros y [[->|Hy]%elem_of_cons|Hy]; apply Hall; [right; left|by left|right; by right].
Qed.

(** The row a snapshot holds for the default route of a table. *)
Lemma rowsOf_default r s : r ∈ pn_Routes plan -> s ∈ rowsOf k0 (pn_Routes plan) -> keyOfRoute s = keyOfPlanned r ->
  sr_Family s = ip_Family r /\ sr_Table s = ip_Table r /\ shownRoute s ∈ own k0 (ip_Family r) (ip_Table r) /\ canonicalRoute s = s /\
  writable s = true.
Proof.
  intros Hr Hs E. apply elem_of_flat_map in Hs as (x & Hx & Hs). apply elem_of_map in Hs as (row & -> & Hrow).
  pose proof (proj1 (Forall_forall _ _) (cp_routes _ HP)) as HC.
  apply routeKey_inj in E as (Ef & Et & Ed); [|by apply (cr_family _ (HC x Hx))|by apply (cr_family _ (HC r Hr))].
  cbn [routeOfRow sr_Family sr_Table sr_Destination] in *. rewrite (cr_default _ (HC r Hr)) in Ed. rewrite <- Ef, <- Et in *.
  set (s := routeOfRow (ip_Family x) (ip_Table x) row).
  assert (Hin : shownRoute s ∈ shown k0 (ip_Family x) (ip_Table x)) by (apply elem_of_map; by exists row).
  destruct (rows_listed k0 _ _ row H0 Hrow) as [HG HW].
  split_and!; [done|done| | |done].
  - apply elem_of_filter_b. split; [done|]. unfold isDefault. pose proof (shownRoute_parts s) as (_ & _ & ->). by apply String.eqb_eq.
  - unfold canonicalRoute, s, routeOfRow. cbn [sr_Family sr_Table sr_Destination sr_Type sr_Via sr_Device]. by rewrite HG.
Qed.
Lemma rowsOf_complete r : r ∈ pn_Routes plan -> own k0 (ip_Family r) (ip_Table r) <> [] ->
  exists s, s ∈ rowsOf k0 (pn_Routes plan) /\ keyOfRoute s = keyOfPlanned r.
Proof.
  intros Hr Hne. destruct (own k0 (ip_Family r) (ip_Table r)) as [|x l] eqn:E; [done|].
  assert (Hx : x ∈ own k0 (ip_Family r) (ip_Table r)) by (rewrite E; left). pose proof (own_default _ _ _ _ Hx) as Hd.
  apply elem_of_filter_b in Hx as [Hx _]. apply elem_of_map in Hx as (row & -> & Hrow).
  exists (routeOfRow (ip_Family r) (ip_Table r) row). split.
  - apply elem_of_flat_map. exists r. split; [done|]. apply elem_of_map. by exists row.
  - pose proof (shownRoute_parts (routeOfRow (ip_Family r) (ip_Table r) row)) as (_ & _ & Hs). rewrite Hs in Hd.
    unfold keyOfRoute, keyOfPlanned, routeKey. cbn [routeOfRow sr_Family sr_Table sr_Destination] in *. rewrite Hd.
    by rewrite (cr_default _ (proj1 (Forall_forall _ _) (cp_routes _ HP) r Hr)).
Qed.

Lemma exec_ok name args k k' raw : run name args k = (k', (raw, None)) -> exec run name args k = (k', Ok ()).
Proof. unfold exec. by intros ->. Qed.
Lemma ignore_exec name args k : ignore (exec run name args) k = ((run name args k).1, Ok ()).
Proof. unfold ignore, exec. by destruct (run name args k) as [k' [raw err]]. Qed.
Lemma otherTables_trans (a b c : K) f t : otherTables a b f t -> otherTables b c f t -> otherTables a c f t.
Proof. intros [HA HA'] [HB HB']. split; [by rewrite HB|]. intros f' t' Hne. by rewrite HB', HA'. Qed.

Lemma rollbackRoute_restores k r : restorable (mkSnapshot (rowsOf k0 (pn_Routes plan)) []) = true -> during plan k0 k -> r ∈ pn_Routes plan ->
  exists k', rollbackRoute run ip (preRoutes (rowsOf k0 (pn_Routes plan))) r k = (k', Ok ()) /\ during plan k0 k' /\
    own k' (ip_Family r) (ip_Table r) = own k0 (ip_Family r) (ip_Table r) /\ otherTables k k' (ip_Family r) (ip_Table r) /\ sameRules k k'.
Proof.
  intros HRe HD Hr. pose proof (proj1 (Forall_forall _ _) (cp_routes _ HP) r Hr) as HC. destruct (cr_del _ HC) as [del Hdel].
  pose proof (familyFlag_of _ (cr_family _ HC)) as Hflag.
  destruct (route_del k r _ del (du_ok _ _ _ HD) Hflag Hdel (cr_table _ HC) (cr_default _ HC) (cr_writable _ HC)) as (Hok1 & Hown1 & Ht1 & Hs1).
  unfold rollbackRoute. unfold mbind at 1, io_bind at 1, lift at 1. rewrite Hflag. cbv iota.
  unfold mbind at 1, io_bind at 1, lift at 1. rewrite Hdel. cbv iota.
  unfold mbind at 1, io_bind at 1. rewrite ignore_exec. cbv iota. set (k1 := (run ip del k).1) in *.
  pose proof (preRoutes_lookup (rowsOf k0 (pn_Routes plan)) (keyOfPlanned r)) as HL.
  destruct (preRoutes _ !! keyOfPlanned r) as [s|].
  - destruct HL as [Hs Ek]. destruct (rowsOf_default r s Hr Hs Ek) as (Ef & Et & Hin & Ecanon & HW).
    unfold restorable in HRe. rewrite forallb_forall in HRe. specialize (HRe s). cbn [sn_Routes] in HRe. rewrite <- list_elem_of_In in HRe. specialize (HRe Hs).
    assert (Hd : isDefault (shownRoute s) = true) by (apply elem_of_filter_b in Hin; tauto). rewrite Hd, Ef in HRe. cbn [negb orb] in HRe.
    destruct (routeReplaceArgs (flagOf (ip_Family r)) s) as [args|] eqn:Ea; [|done].
    pose proof (shownRoute_parts s) as (_ & _ & Hdest). unfold isDefault in Hd. apply String.eqb_eq in Hd. rewrite Hdest in Hd.
    rewrite <- Ef in Hflag, Ea. destruct (route_replace k1 s _ args Hok1 Hflag Ea) as (k2 & raw & E & Hok2 & Hown2 & Ht2 & Hs2).
    { rewrite Et. apply HC. } { done. } { by rewrite Ecanon. }
    unfold shownAs in Hown2. rewrite Ef, Et, Ecanon in *. exists k2. unfold wrap, mbind, io_bind, lift. rewrite (exec_ok _ _ _ _ _ E).
    assert (Hown : own k2 (ip_Family r) (ip_Table r) = own k0 (ip_Family r) (ip_Table r)).
    { rewrite Hown2. symmetry. pose proof (own_short k0 (ip_Family r) (ip_Table r) H0) as Hshort.
      destruct (own k0 (ip_Family r) (ip_Table r)) as [|x [|]]; [by apply elem_of_nil in Hin| |cbn in Hshort; lia].
      by apply list_elem_of_singleton in Hin as ->. }
    assert (Ht : otherTables k k2 (ip_Family r) (ip_Table r)) by (by eapply otherTables_trans).
    assert (Hs' : sameRules k k2) by (by etrans).
    split_and!; try done. apply (during_table plan k0 k k2 (ip_Family r) (ip_Table r) _ HD Hok2 Hown Ht Hs'). by left.
  - assert (Hnone : own k0 (ip_Family r) (ip_Table r) = []).
    { destruct (decide (own k0 (ip_Family r) (ip_Table r) = [])) as [|Hne]; [done|].
      destruct (rowsOf_complete r Hr Hne) as (s & Hs & Ek). by destruct (HL s Hs). }
    exists k1. assert (Hown : own k1 (ip_Family r) (ip_Table r) = own k0 (ip_Family r) (ip_Table r)).
    { rewrite Hown1, Hnone. destruct (du_own _ _ _ HD (ip_Family r) (ip_Table r)) as [-> | (x & Hx & Efx & Etx & ->)]; [by rewrite Hnone|].
      assert (x = r) as -> by (eapply unique_key; [apply (cp_tables _ HP)|done|done|cbn; by rewrite Efx, Etx]).
      cbn [List.filter]. by rewrite bool_decide_eq_true_2. }
    split_and!; try done. apply (during_table plan k0 k k1 (ip_Family r) (ip_Table r) _ HD Hok1 Hown Ht1 Hs1). by left.
Qed.

Context (mo : list string -> list string) (HO : forall l, mo l ≡ₚ l) (HR : readablePlan k0 plan).

Lemma ruleFamilies_NoDup : NoDup (ruleFamilies mo (touchedRules plan)).
Proof. unfold ruleFamilies. rewrite HO. apply NoDup_remove_dups. Qed.
Lemma snapshot_keys : NoDup (map keyOfRule (sn_Rules (snapshotOf mo k0 plan))).
Proof.
  cbn [snapshotOf sn_Rules]. pose proof ruleFamilies_NoDup as HN.
  assert (HF : forall f, f ∈ ruleFamilies mo (touchedRules plan) -> f ∈ map su_Family (touchedRules plan)) by (intros f; by apply ruleFamilies_elem).
  induction (ruleFamilies mo (touchedRules plan)) as [|f fs IH]; [constructor|]. inversion HN as [|? ? Hn HN']; subst. cbn [flat_map]. rewrite map_app.
  apply NoDup_app. split_and!.
  - destruct (HR f) as [HNf _]; [apply HF; left|]. assert (Hf : forall x, x ∈ rulesIn k0 (touchedRules plan) f -> su_Family x = f /\ known f).
    { intros x [Hx Ht]%rulesIn_elem. split; [by eapply listed_family|]. by destruct (touches_known plan HP _ _ Ht). }
    induction (rulesIn k0 (touchedRules plan) f) as [|x l IHl]; cbn; [constructor|]. inversion HNf as [|? ? Hnx HNl]; subst.
    constructor; [|apply IHl; [done|intros y Hy; apply Hf; by right]].
    intros (y & Ey & Hy)%elem_of_map. destruct (Hf x) as [Fx Kx]; [left|]. destruct (Hf y) as [Fy _]; [by right|].
    apply ruleKey_inj in Ey as [_ Ep]; [|by rewrite Fx|by rewrite Fy]. apply Hnx. rewrite Ep. apply elem_of_map. by exists y.
  - intros key (x & -> & Hx)%elem_of_map (y & Ey & Hy)%elem_of_map. apply elem_of_flat_map in Hy as (g & Hg & Hy).
    apply rulesIn_elem in Hx as [Hx Hxt], Hy as [Hy Hyt]. pose proof (listed_family _ _ _ Hx) as Fx. pose proof (listed_family _ _ _ Hy) as Fy.
    destruct (touches_known plan HP _ _ Hxt) as [Kx _]. destruct (touches_known plan HP _ _ Hyt) as [Ky _].
    apply ruleKey_inj in Ey as [Ef _]; [|by rewrite Fx|by rewrite Fy]. apply Hn. congruence.
  - apply IH; [done|intros g Hg; apply HF; by right].
Qed.

(** What the snapshot holds for a rule of the plan. *)
Lemma snapshot_rule m r : preRules ∅ (sn_Rules (snapshotOf mo k0 plan)) = Ok m -> r ∈ touchedRules plan ->
  match m !! keyOfRule r with
  | Some x => rulesAt k0 (su_Family r) (su_Priority r) = [x] /\ x = mkStateRule (su_Family r) (su_Priority r) (su_Mark x) (su_Table x) /\ su_Mark x <> "" /\
      1 <= su_Table x <= int64_max
  | None => rulesAt k0 (su_Family r) (su_Priority r) = []
  end.
Proof.
  intros Hm Hr. destruct (preRules_lookup (sn_Rules (snapshotOf mo k0 plan)) ∅ snapshot_keys) as (m' & E & HL); [intros; apply lookup_empty|].
  rewrite Hm in E. injection E as <-. rewrite HL, lookup_empty.
  assert (Ht : touches plan (su_Family r) (su_Priority r)) by (by exists r).
  pose proof (rulesAt_short k0 plan _ _ HP HR Ht) as Hshort. destruct (touches_known plan HP _ _ Ht) as [Kf _].
  destruct (first _ _) as [x|] eqn:Ex.
  - apply first_Some in Ex as [Hx Ek]. apply String.eqb_eq in Ek. cbn [snapshotOf sn_Rules] in Hx. apply elem_of_flat_map in Hx as (f & Hf & Hx).
    pose proof Hx as Hx'. apply rulesIn_elem in Hx as [Hx Hxt]. pose proof (listed_family _ _ _ Hx) as Fx. destruct (touches_known plan HP _ _ Hxt) as [Kx _].
    apply ruleKey_inj in Ek as [Ef Ep]; [|by rewrite Fx|done]. rewrite Fx in Ef. subst f.
    assert (Hin : x ∈ rulesAt k0 (su_Family r) (su_Priority r)) by (apply rulesAt_elem; split; congruence).
    destruct (HR (su_Family r)) as [_ HFm]; [apply elem_of_map; by exists r|]. rewrite Forall_forall in HFm. destruct (HFm x Hx') as [Hmark Htab].
    pose proof (listed_table _ _ _ Hx) as Hmax.
    destruct (rulesAt k0 (su_Family r) (su_Priority r)) as [|y [|]]; [by apply elem_of_nil in Hin| |cbn in Hshort; lia].
    apply list_elem_of_singleton in Hin as ->. split_and!; [done| |done|done|done]. destruct y; cbn in *; congruence.
  - destruct (rulesAt k0 (su_Family r) (su_Priority r)) as [|y l] eqn:Ey; [done|]. exfalso.
    assert (Hin : y ∈ rulesAt k0 (su_Family r) (su_Priority r)) by (rewrite Ey; left). apply rulesAt_elem in Hin as [Hin Hp].
    assert (Hy : y ∈ sn_Rules (snapshotOf mo k0 plan)).
    { cbn [snapshotOf sn_Rules]. apply elem_of_flat_map. exists (su_Family r). split; [|apply rulesIn_elem; by rewrite Hp].
      apply ruleFamilies_elem; [done|]. apply elem_of_map. by exists r. }
    pose proof (first_None _ _ y Ex Hy) as Hne. apply String.eqb_neq in Hne. apply Hne. unfold keyOfRule. by rewrite Hp, (listed_family _ _ _ Hin).
Qed.

Lemma rollbackRule_restores k r m : preRules ∅ (sn_Rules (snapshotOf mo k0 plan)) = Ok m -> during plan k0 k -> r ∈ touchedRules plan ->
  exists k', rollbackRule run ip m r k = (k', Ok ()) /\ during plan k0 k' /\
    rulesAt k' (su_Family r) (su_Priority r) = rulesAt k0 (su_Family r) (su_Priority r) /\ sameTables k k' /\
    forall f p, (f, p) <> (su_Family r, su_Priority r) -> rulesAt k' f p ≡ₚ rulesAt k f p.
Proof.
  intros Hm HD Hr. pose proof (snapshot_rule m r Hm Hr) as HL. assert (Ht : touches plan (su_Family r) (su_Priority r)) by (by exists r).
  destruct (touches_known plan HP _ _ Ht) as [Kf _]. pose proof (familyFlag_of _ Kf) as Hflag.
  destruct (during_del plan HP k0 k _ _ _ HD Ht Hflag) as (HD1 & Hno & HT1 & Ho1).
  unfold rollbackRule. unfold mbind at 1, io_bind at 1, lift at 1. rewrite Hflag. cbv iota.
  unfold mbind at 1, io_bind at 1. rewrite ignore_exec. cbv iota. set (k1 := (run ip (ruleDelArgs (flagOf (su_Family r)) (su_Priority r)) k).1) in *.
  destruct (m !! keyOfRule r) as [x|]; [|exists k1; rewrite HL, Hno; split_and!; done].
  destruct HL as (Hat & Ex & Hmark & Htab). assert (Hin : x ∈ listed k0 (su_Family r)) by (eapply (proj1 (rulesAt_elem _ _ _ _)); rewrite Hat; left).
  destruct (marks_listed k0 _ x H0 Hin Hmark) as [Hv Hc].
  assert (S.is_empty (su_Mark x) || (su_Table x <=? 0) = false) as ->.
  { apply orb_false_iff. split; [exact (proj2 (String.eqb_neq _ _) Hmark)|lia]. }
  destruct (during_add plan HP k0 k1 _ _ _ (su_Mark x) "" (su_Table x) HD1 Ht Hflag Htab Hv (or_introl eq_refl) Hno) as (k2 & raw & E & HD2 & Hat2 & HT2 & Ho2).
  rewrite str_app_empty_r in E. assert (su_Priority x = su_Priority r) as Ep by (by rewrite Ex).
  exists k2. cbv zeta. unfold wrap. rewrite Ep, (exec_ok _ _ _ _ _ E). rewrite Hat2, Hat, Hc, <- Ex.
  split_and!; try done; [by etrans|]. intros f p Hne. by rewrite (Ho2 f p Hne), (Ho1 f p Hne).
Qed.

(** *** The state after *)

(** The default route and the rules of every key of the plan are those of [k0]. *)
Definition restored (k : K) : Prop :=
  (forall r, r ∈ pn_Routes plan -> own k (ip_Family r) (ip_Table r) = own k0 (ip_Family r) (ip_Table r)) /\
  (forall r, r ∈ touchedRules plan -> rulesAt k (su_Family r) (su_Priority r) ≡ₚ rulesAt k0 (su_Family r) (su_Priority r)).

Lemma restored_touches k f p : restored k -> touches plan f p -> rulesAt k f p ≡ₚ rulesAt k0 f p.
Proof. intros [_ H] (r & Hr & <- & <-). by apply H. Qed.
Lemma rulesIn_at (k : K) f p : touches plan f p -> List.filter (atPriority p) (rulesIn k (touchedRules plan) f) = rulesAt k f p.
Proof.
  intros Ht. unfold rulesAt, rulesIn, touchedIn. rewrite filter_filter_b. apply filter_ext_elem. intros x _. unfold atPriority.
  destruct (Z.eqb_spec (su_Priority x) p) as [->|]; [|by rewrite andb_false_r].
  rewrite bool_decide_eq_true_2; [done|]. by apply prioritiesOf_elem.
Qed.
Lemma restored_rulesIn k f : restored k -> rulesIn k (touchedRules plan) f ≡ₚ rulesIn k0 (touchedRules plan) f.
Proof.
  intros HRe. apply (perm_by_key su_Priority). intros x Hx.
  assert (Ht : touches plan f (su_Priority x)) by (by destruct Hx as [Hx|Hx]; apply rulesIn_elem in Hx as [_ Hx]).
  assert (E : forall l : list IPStateRule, List.filter (fun y => bool_decide (su_Priority y = su_Priority x)) l = List.filter (atPriority (su_Priority x)) l).
  { intros l. apply filter_ext_elem. intros y _. unfold atPriority. destruct (Z.eqb_spec (su_Priority y) (su_Priority x));
      [by rewrite bool_decide_eq_true_2|by rewrite bool_decide_eq_false_2]. }
  rewrite !E, !(rulesIn_at _ _ _ Ht). by apply restored_touches.
Qed.
Lemma restored_readable k : restored k -> readablePlan k plan.
Proof.
  intros HRe f Hf. destruct (HR f Hf) as [HN HF]. unfold readable. by rewrite (restored_rulesIn k f HRe).
Qed.
Lemma restored_state k : during plan k0 k -> restored k -> (forall f t, own k f t = own k0 f t) -> sameState k k0.
Proof.
  intros HD HRe HOwn. split.
  - intros f t. by rewrite !(shown_split _ f t), (HOwn f t), (du_others _ _ _ HD f t).
  - intros f. rewrite (filter_split (fun r => bool_decide (su_Priority r ∈ prioritiesOf (touchedRules plan) f)) (listed k f)).
    rewrite (filter_split (fun r => bool_decide (su_Priority r ∈ prioritiesOf (touchedRules plan) f)) (listed k0 f)).
    rewrite (du_free _ _ _ HD f). by rewrite (restored_rulesIn k f HRe).
Qed.

Context (mo2 : list string -> list string) (HO2 : forall l, mo2 l ≡ₚ l).

Lemma restored_verifies k : ok k -> fits run ip k -> restored k -> VerifyIPState run mo2 ip plan (snapshotOf mo k0 plan) k = (k, Ok ()).
Proof.
  intros Hok Hfit HRe. unfold VerifyIPState. unfold mbind at 1, io_bind at 1, wrap at 1.
  rewrite (SnapshotIPState_spec mo2 k plan HO2 Hok Hfit HP (restored_readable k HRe)). cbv iota.
  assert (routesEqual (restrictRoutes (sn_Routes (snapshotOf mo2 k plan)) plan) (restrictRoutes (sn_Routes (snapshotOf mo k0 plan)) plan) = true) as ->.
  { apply bool_decide_eq_true. cbn [snapshotOf sn_Routes]. rewrite !restrictRoutes_rows by done. f_equal. apply flat_map_eq. by apply HRe. }
  assert (rulesEqual (restrictRules (sn_Rules (snapshotOf mo2 k plan)) plan) (restrictRules (sn_Rules (snapshotOf mo k0 plan)) plan) = true) as ->; [|done].
  apply bool_decide_eq_true. apply restrictRules_perm; [|by apply rules_apart; [done|done|apply restored_readable]].
  cbn [snapshotOf sn_Rules]. apply flat_map_perm; [unfold ruleFamilies; by rewrite HO, HO2|]. intros f _. by apply restored_rulesIn.
Qed.
Lemma own_family (k : K) f t s : s ∈ own k f t -> sr_Family s = f /\ sr_Table s = t.
Proof. unfold own. rewrite elem_of_filter_b. intros [Hs _]. by apply shown_family in Hs. Qed.
Lemma restricted_elem (order : list string -> list string) (k : K) x : (forall l, order l ≡ₚ l) ->
  x ∈ restrictRules (sn_Rules (snapshotOf order k plan)) plan <-> x ∈ listed k (su_Family x) /\ touches plan (su_Family x) (su_Priority x).
Proof.
  intros Ho. unfold restrictRules. rewrite gosort_perm, elem_of_filter_b. cbn [snapshotOf sn_Rules]. rewrite elem_of_flat_map. split.
  - intros [(f & _ & Hx) _]. apply rulesIn_elem in Hx as [Hx Ht]. by rewrite (listed_family _ _ _ Hx).
  - intros [Hx (r & Hr & Ef & Ep)]. split.
    + exists (su_Family x). split; [apply ruleFamilies_elem; [done|]; apply elem_of_map; by exists r|]. apply rulesIn_elem. split; [done|by exists r].
    + apply bool_decide_eq_true. rewrite elem_of_list_to_set, elem_of_map. exists r. split; [|done]. unfold keyOfRule. by rewrite Ef, Ep.
Qed.
Lemma verified_restored k k' : ok k -> fits run ip k -> VerifyIPState run mo2 ip plan (snapshotOf mo k0 plan) k = (k', Ok ()) -> k' = k /\ restored k.
Proof.
  intros Hok Hfit H. unfold VerifyIPState in H. unfold mbind at 1, io_bind at 1, wrap at 1 in H.
  destruct (SnapshotIPState run mo2 ip plan k) as [k1 [cur|]] eqn:E; [|done].
  apply SnapshotIPState_inv in E as (-> & -> & HRk); [|done|done|done|done].
  destruct (routesEqual _ _) eqn:ER; [|done]. destruct (rulesEqual _ _) eqn:EU; [|done]. injection H as <-. split; [done|].
  apply bool_decide_eq_true in ER, EU. cbn [snapshotOf sn_Routes sn_Rules] in ER, EU. split.
  - intros r Hr. rewrite !restrictRoutes_rows in ER by done.
    assert (HPm : forall s, s ∈ flat_map (fun r => own k (ip_Family r) (ip_Table r)) (pn_Routes plan) <-> s ∈ flat_map (fun r => own k0 (ip_Family r) (ip_Table r)) (pn_Routes plan)).
    { intros s. rewrite <- (gosort_perm (key_slt keyOfRoute)), ER. by rewrite gosort_perm. }
    assert (HX : forall a b : K, (forall s, s ∈ flat_map (fun r => own a (ip_Family r) (ip_Table r)) (pn_Routes plan) -> s ∈ flat_map (fun r => own b (ip_Family r) (ip_Table r)) (pn_Routes plan)) ->
      forall s, s ∈ own a (ip_Family r) (ip_Table r) -> s ∈ own b (ip_Family r) (ip_Table r)).
    { intros a b Hab s Hs. assert (Hin : s ∈ flat_map (fun r => own b (ip_Family r) (ip_Table r)) (pn_Routes plan)) by (apply Hab, elem_of_flat_map; by exists r).
      apply elem_of_flat_map in Hin as (y & Hy & Hin). destruct (own_family _ _ _ _ Hs) as [F1 T1], (own_family _ _ _ _ Hin) as [F2 T2].
      assert (y = r) as -> by (eapply unique_key; [apply (cp_tables _ HP)|done|done|cbn; congruence]). done. }
    apply short_elem; [by apply own_short|by apply own_short|]. intros s. split; apply HX; intros s'; apply HPm.
  - intros r Hr. assert (Ht : touches plan (su_Family r) (su_Priority r)) by (by exists r).
    assert (HE : forall x, x ∈ rulesAt k (su_Family r) (su_Priority r) <-> x ∈ rulesAt k0 (su_Family r) (su_Priority r)).
    { intros x. rewrite !rulesAt_elem. split; intros [Hx Hp]; (split; [|done]); pose proof (listed_family _ _ _ Hx) as Fx.
      - pose proof (proj2 (restricted_elem mo2 k x HO2)) as H1. rewrite Fx, Hp in H1. specialize (H1 (conj Hx Ht)). cbn [snapshotOf sn_Rules] in H1. rewrite EU in H1.
        apply (restricted_elem mo k0 x HO) in H1 as [H1 _]. by rewrite Fx in H1.
      - pose proof (proj2 (restricted_elem mo k0 x HO)) as H1. rewrite Fx, Hp in H1. specialize (H1 (conj Hx Ht)). cbn [snapshotOf sn_Rules] in H1. rewrite <- EU in H1.
        apply (restricted_elem mo2 k x HO2) in H1 as [H1 _]. by rewrite Fx in H1. }
    by rewrite (short_elem _ _ (rulesAt_short k plan _ _ HP HRk Ht) (rulesAt_short k0 plan _ _ HP HR Ht) HE).
Qed.

Lemma rollback_completes k : restorable (snapshotOf mo k0 plan) = true -> during plan k0 k -> (forall k', ok k' -> sameState k' k0 -> fits run ip k') ->
  exists k', RollbackIPState run mo2 ip plan (snapshotOf mo k0 plan) k = (k', Ok ()) /\ sameState k' k0.
Proof.
  intros HRe HD Hfit. unfold RollbackIPState. rewrite ip_nonempty.
  destruct (forEach_restores (rollbackRoute run ip (preRoutes (sn_Routes (snapshotOf mo k0 plan)))) (pn_Routes plan)
    (fun done k => during plan k0 k /\ forall r, r ∈ done -> own k (ip_Family r) (ip_Table r) = own k0 (ip_Family r) (ip_Table r))
    ) with (done := @nil IPRoute) (k := k) as (k1 & E1 & all & (HD1 & Hall) & Hin).
  { intros r done k2 Hr [HD2 Hdone]. destruct (rollbackRoute_restores k2 r HRe HD2 Hr) as (k3 & E & HD3 & Ho & [Ht Ht'] & Hs). exists k3. split; [exact E|].
    split; [exact HD3|]. intros x [->|Hx]%elem_of_cons; [exact Ho|].
    destruct (decide ((ip_Family x, ip_Table x) = (ip_Family r, ip_Table r))) as [Exy|Hne]; [injection Exy as -> ->; exact Ho|].
    rewrite (own_same k2 k3 _ _ (du_ok _ _ _ HD2) (Ht' _ _ Hne)). by apply Hdone. }
  { split; [done|by nothing_in]. }
  assert (HOwn : forall f t, own k1 f t = own k0 f t).
  { intros f t. destruct (du_own _ _ _ HD1 f t) as [|(r & Hr & <- & <- & _)]; [done|]. apply Hall, Hin. by left. }
  unfold mbind at 1, io_bind at 1. rewrite E1. cbv iota.
  destruct (preRules_lookup (sn_Rules (snapshotOf mo k0 plan)) ∅ snapshot_keys) as (m & Em & _); [intros; apply lookup_empty|].
  unfold mbind at 1, io_bind at 1, lift at 1. rewrite Em. cbv iota.
  destruct (forEach_restores (rollbackRule run ip m) (touchedRules plan)
    (fun done k => during plan k0 k /\ (forall f t, own k f t = own k0 f t) /\
       forall r, r ∈ done -> rulesAt k (su_Family r) (su_Priority r) ≡ₚ rulesAt k0 (su_Family r) (su_Priority r))
    ) with (done := @nil IPStateRule) (k := k1) as (k2 & E2 & all2 & (HD2 & HOwn2 & Hall2) & Hin2).
  { intros r done k2 Hr (HD2 & HO' & Hdone). destruct (rollbackRule_restores k2 r m Em HD2 Hr) as (k3 & E & HD3 & Hat & HT & Ho). exists k3. split; [exact E|].
    split; [exact HD3|]. split.
    - intros f t. rewrite (own_same k2 k3 f t (du_ok _ _ _ HD2)); [by apply HO'|by rewrite (HT f t)].
    - intros x [->|Hx]%elem_of_cons; [by rewrite Hat|].
      destruct (decide ((su_Family x, su_Priority x) = (su_Family r, su_Priority r))) as [Exy|Hne]; [injection Exy as -> ->; by rewrite Hat|].
      rewrite (Ho _ _ Hne). by apply Hdone. }
  { split_and!; [done|done|by nothing_in]. }
  assert (HRs : restored k2) by (split; [intros; apply HOwn2|intros; apply Hall2, Hin2; by left]).
  assert (HS : sameState k2 k0) by (by apply restored_state).
  exists k2. split; [|done]. unfold mbind at 1, io_bind at 1. rewrite E2. cbv iota. unfold wrap.
  rewrite restored_verifies; [done| |apply Hfit; [|done]|done]; by apply (du_ok _ _ _ HD2).
Qed.
End Restore.

(** ** The theorems *)

Section Theorems.
Context {K : Type} {run : string -> list string -> K -> K * (string * option string)} {ip uci : string} `{!Iproute K run ip uci}.
Context (sha256 : string -> string) (mo mo2 : list string -> list string) (HO : forall l, mo l ≡ₚ l) (HO2 : forall l, mo2 l ≡ₚ l).


(** Commands that only read answer truthfully; what the others do is open. *)
Definition reads (args : list string) : bool := match args with _ :: j :: _ => j =s "-j" | _ => false end.
Definition honest (run2 : string -> list string -> K -> K * (string * option string)) : Prop :=
  (forall args k, reads args = true -> run2 ip args k = run ip args k) /\ (forall name args k, ok k -> ok (run2 name args k).1).

Lemma snapshot_honest run2 plan k : honest run2 -> SnapshotIPState run2 mo2 ip plan k = SnapshotIPState run mo2 ip plan k.
Proof.
  intros [Hsame _]. unfold SnapshotIPState. destruct (S.is_empty ip); [done|].
  assert (HRo : forall routes seen k, snapshotRoutes run2 ip seen routes k = snapshotRoutes run ip seen routes k).
  { induction routes as [|r routes IH]; intros seen k'; [done|]. cbn [snapshotRoutes]. destruct (bool_decide _); [apply IH|].
    unfold mbind, io_bind, lift. destruct (familyFlag (ip_Family r)); [|done]. unfold showTable. rewrite Hsame by done.
    destruct (run ip _ k') as [k2 [raw [e|]]]; [destruct (_ || _); [|done]|unfold wrap, lift; destruct (parseRouteRows raw); [|done]]; by rewrite IH. }
  assert (HRu : forall rules families k, snapshotRules run2 ip rules families k = snapshotRules run ip rules families k).
  { intros rules. induction families as [|f families IH]; intros k'; [done|]. cbn [snapshotRules].
    unfold mbind, io_bind, lift. destruct (familyFlag f); [|done]. unfold wrap, showRules, output, mbind, io_bind, lift. rewrite Hsame by done.
    destruct (run ip _ k') as [k2 [raw [e|]]]; [done|]. destruct (parseRuleRows raw); [|done]. destruct (snapshotRows _ _ _ _); [|done]. by rewrite IH. }
  unfold mbind, io_bind. rewrite HRo. destruct (snapshotRoutes run ip ∅ (pn_Routes plan) k) as [k2 [rs|]]; [|done]. by rewrite HRu.
Qed.

Lemma bind_state {A B} (m : io K A) (f : A -> io K B) k : (m k).1 = k -> (forall a, (f a k).1 = k) -> ((m ≫= f) k).1 = k.
Proof. unfold mbind, io_bind. destruct (m k) as [k' [a|e]]; cbn; [|done]. intros -> HF. apply HF. Qed.
Lemma VerifyIPState_state plan pre k : cleanPlan plan -> ok k -> (VerifyIPState run mo2 ip plan pre k).1 = k.
Proof.
  intros HP Hok. unfold VerifyIPState. apply bind_state; [|intros cur; by repeat case_match].
  assert (HW : forall A prefix (m : io K A), (m k).1 = k -> (wrap prefix m k).1 = k).
  { intros A prefix m. unfold wrap. by destruct (m k) as [k' []]. }
  apply HW. unfold SnapshotIPState. destruct (S.is_empty ip); [done|]. apply bind_state.
  - generalize (∅ : gset string). induction (cp_routes _ HP) as [|r routes Hr _ IH]; intros seen; [done|]. cbn [snapshotRoutes].
    destruct (bool_decide _); [apply IH|]. unfold mbind at 1, io_bind at 1, lift at 1. destruct (familyFlag (ip_Family r)) as [flag|] eqn:Ef; [|done].
    apply bind_state; [|intros rows; apply bind_state; [apply IH|done]]. destruct (show_table k _ _ (ip_Table r) Hok Ef (cr_table _ Hr)) as (raw & err & E & _).
    unfold showTable. rewrite E. destruct err; [by destruct (_ || _)|]. unfold wrap, lift. by destruct (parseRouteRows raw).
  - intros routes. apply bind_state; [|done]. generalize (ruleFamilies mo2 (touchedRules plan)). intros families. induction families as [|f families IH]; [done|].
    cbn [snapshotRules]. unfold mbind at 1, io_bind at 1, lift at 1. destruct (familyFlag f) as [flag|] eqn:Ef; [|done].
    apply bind_state; [apply HW|intros rows; apply bind_state; [done|intros found; apply bind_state; [apply IH|done]]].
    destruct (show_rules k f flag Hok Ef) as (raw & E & _). apply bind_state; [|done]. unfold output. by rewrite E.
Qed.
Lemma honest_exec run2 name args k : honest run2 -> ok k -> ok (exec run2 name args k).1.
Proof. intros [_ H] Hok. unfold exec. specialize (H name args k Hok). by destruct (run2 name args k) as [k' [raw err]]. Qed.
Lemma rollbackRoute_ok run2 m r k : honest run2 -> ok k -> ok (rollbackRoute run2 ip m r k).1.
Proof.
  intros HH Hok. unfold rollbackRoute. apply bind_keeps; [done|]. intros flag k1 [= <- _] _. apply bind_keeps; [done|]. intros del k2 [= <- _] _.
  apply bind_keeps; [by apply honest_exec|]. intros _ k3 _ H3. case_match; [|done]. apply wrap_keeps, bind_keeps; [done|]. intros args k4 [= <- _] _. by apply honest_exec.
Qed.
Lemma rollbackRule_ok run2 m r k : honest run2 -> ok k -> ok (rollbackRule run2 ip m r k).1.
Proof.
  intros HH Hok. unfold rollbackRule. apply bind_keeps; [done|]. intros flag k1 [= <- _] _.
  apply bind_keeps; [by apply honest_exec|]. intros _ k3 _ H3. case_match; [|done]. cbv zeta. destruct (_ || _); [done|]. by apply wrap_keeps, honest_exec.
Qed.

(** A rollback that reports success has restored the keys of the plan.  The
    commands that change something may fail or do anything, from any state;
    only the listings are true. *)
Theorem rollback_never_lies run2 plan plan' binding k0 k1 pre k k3 :
  honest run2 -> intPlan plan -> checkIPPlan sha256 plan binding = Ok plan' -> pn_DeploymentReady plan = true ->
  ok k0 -> fits run ip k0 -> SnapshotIPState run mo ip plan k0 = (k1, Ok pre) ->
  ok k -> RollbackIPState run2 mo2 ip plan pre k = (k3, Ok ()) -> fits run ip k3 -> restored plan k0 k3.
Proof.
  intros HH HInt HC HReady Hok0 Hfit0 HS Hok HRb Hfit. assert (HP : cleanPlan plan) by (by eapply loaded_plan_clean).
  apply SnapshotIPState_inv in HS as (-> & -> & HR); [|done|done|done|done].
  unfold RollbackIPState in HRb. rewrite ip_nonempty in HRb.
  unfold mbind at 1, io_bind at 1 in HRb. pose proof (forEach_keeps ok (rollbackRoute run2 ip (preRoutes (sn_Routes (snapshotOf mo k0 plan)))) (pn_Routes plan)) as HF1.
  specialize (HF1 (fun r k _ => rollbackRoute_ok run2 _ r k HH) k Hok). destruct (forEach _ (pn_Routes plan) k) as [k1 [[]|]]; [|done]. cbn [fst] in HF1.
  unfold mbind at 1, io_bind at 1, lift in HRb. destruct (preRules ∅ _) as [m|]; [|done].
  unfold mbind at 1, io_bind at 1 in HRb. pose proof (forEach_keeps ok (rollbackRule run2 ip m) (touchedRules plan)) as HF2.
  specialize (HF2 (fun r k _ => rollbackRule_ok run2 m r k HH) k1 HF1). destruct (forEach _ (touchedRules plan) k1) as [k2 [[]|]]; [|done]. cbn [fst] in HF2.
  unfold wrap in HRb. destruct (VerifyIPState run2 mo2 ip plan (snapshotOf mo k0 plan) k2) as [k4 [[]|]] eqn:EV; [|done]. injection HRb as <-.
  assert (EV' : VerifyIPState run mo2 ip plan (snapshotOf mo k0 plan) k2 = (k4, Ok ())).
  { rewrite <- EV. unfold VerifyIPState, mbind, io_bind, wrap. by rewrite (snapshot_honest run2 plan k2 HH). }
  assert (k4 = k2) as ->.
  { pose proof (VerifyIPState_state plan (snapshotOf mo k0 plan) k2 HP HF2) as HV. by rewrite EV' in HV. }
  by apply verified_restored in EV' as [_ HV].
Qed.
End Theorems.
