(* ===== verification/DataplaneActive.v ===== *)
(** * Routing state: what is active, and that nothing is left

    [applied_plan_verifies]: what was applied is found active.
    [nothing_owned_left]: an uninstallation that found nothing leaves nothing. *)
From Stdlib Require Import ZArith Lia.
From stdpp Require Import base list strings gmap pretty.
From S2P Require Import Prelude Effects Net Config Json NetProofs Validation ValidationProofs Artifact ArtifactProofs JsonText Dataplane DataplaneProofs DataplaneSteps DataplaneRollback.

Open Scope Z_scope.

Section Theorems.
Context {K : Type} {run : string -> list string -> K -> K * (string * option string)} {ip uci : string} `{!Iproute K run ip uci}.
Context (sha256 : string -> string) (mo mo2 : list string -> list string) (HO : forall l, mo l ≡ₚ l) (HO2 : forall l, mo2 l ≡ₚ l).

(** *** An applied plan is found active *)

(** Gateways and marks are written as the kernel lists them. *)
Definition usualForm (plan : IPPlan) : Prop :=
  (forall r, r ∈ pn_Routes plan -> canonicalVia (ip_Via r) = ip_Via r) /\
  (forall r, r ∈ pn_IPRules plan -> canonicalMark (ir_Mark r) = ir_Mark r).
Definition uciWorks : Prop := uci <> "" /\ forall args k, ok k -> exists k' raw, run uci args k = (k', (raw, None)).

Lemma exec_uninterrupted : interrupted (run := run) run.
Proof. by left. Qed.
Lemma applyFlow_Ok f k0 plan k : uciWorks -> fl_Action f = "none" \/ fl_Action f = "disable" -> during plan k0 k ->
  exists k', applyFlowOffloading run uci f k = (k', Ok ()) /\ during plan k0 k'.
Proof.
  intros [Hne Hu] Hf HD. unfold applyFlowOffloading. destruct Hf as [-> | ->]; [by exists k|]. cbn [S.is_empty String.eqb Ascii.eqb Bool.eqb orb].
  assert (S.is_empty uci = false) as -> by exact (proj2 (String.eqb_neq _ _) Hne).
  destruct (forEach_restores (fun args => wrap "apply flow offloading policy: " (exec run uci args))
    [["set"; softwareFlowOffloadUCIKey +:+ "=0"]; ["set"; hardwareFlowOffloadUCIKey +:+ "=0"]; ["commit"; "firewall"]]
    (fun _ k => during plan k0 k)) with (done := @nil (list string)) (k := k) as (k' & E & all & HD' & _); [|done|].
  - intros args done k1 _ H1. destruct (Hu args k1 (du_ok _ _ _ H1)) as (k2 & raw & E). destruct (uci_only k1 args (du_ok _ _ _ H1)) as [Hok HS].
    rewrite E in Hok, HS. exists k2. unfold wrap. rewrite (exec_ok _ _ _ _ _ E). split; [done|]. by eapply during_same.
  - exists k'. by split.
Qed.
Lemma applyRoute_Ok plan k0 k r : cleanPlan plan -> during plan k0 k -> r ∈ pn_Routes plan ->
  exists k', applyRoute run ip r k = (k', Ok ()) /\ during plan k0 k' /\ own k' (ip_Family r) (ip_Table r) = [shownAs (plannedRoute r)] /\
    otherTables k k' (ip_Family r) (ip_Table r) /\ sameRules k k'.
Proof.
  intros HP HD Hr. pose proof (proj1 (Forall_forall _ _) (cp_routes _ HP) r Hr) as HC. destruct (cr_args _ HC) as (args & HA & _).
  destruct (during_replace plan HP k0 k r args HD Hr HA) as (k' & raw & E & HD' & Ho & Ht & Hs). exists k'. split_and!; try done.
  unfold applyRoute, mbind, io_bind, lift, wrap. by rewrite HA, (exec_ok _ _ _ _ _ E).
Qed.
Lemma applyRule_Ok plan k0 k r : cleanPlan plan -> during plan k0 k -> r ∈ pn_IPRules plan ->
  exists k', applyRule run ip r k = (k', Ok ()) /\ during plan k0 k' /\
    rulesAt k' (ir_Family r) (ir_Priority r) = [mkStateRule (ir_Family r) (ir_Priority r) (canonicalMark (ir_Mark r)) (ir_Table r)] /\ sameTables k k' /\
    forall f p, (f, p) <> (ir_Family r, ir_Priority r) -> rulesAt k' f p ≡ₚ rulesAt k f p.
Proof.
  intros HP HD Hr. pose proof (proj1 (cp_rules _ HP r Hr)) as [Hf Hp Ht Hm]. cbn in Hf, Hp, Ht, Hm. pose proof (touches_rule plan HP r Hr) as HT.
  destruct (during_del plan HP k0 k (ir_Family r) (flagOf (ir_Family r)) _ HD HT (familyFlag_of _ Hf)) as (HD1 & Hno & HT1 & Ho1).
  destruct (fullMark_mask plan HP r Hr) as (mask & Emask & Hmask).
  destruct (during_add plan HP k0 _ (ir_Family r) (flagOf (ir_Family r)) _ (ir_Mark r) mask (ir_Table r) HD1 HT (familyFlag_of _ Hf) Ht Hm Hmask Hno)
    as (k' & raw & E & HD2 & Hat & HT2 & Ho2).
  exists k'. split_and!; try done; [|by etrans|intros f p Hne; by rewrite (Ho2 f p Hne), (Ho1 f p Hne)].
  unfold applyRule. assert (containsString ["ipv4"; "ipv6"] (ir_Family r) = true) as -> by (by destruct Hf as [-> | ->]). cbn [negb].
  assert (S.is_empty (ir_Mark r) || (ir_Table r <=? 0) || (ir_Priority r <=? 0) = false) as ->.
  { rewrite !orb_false_iff. split_and!; [|lia|lia]. unfold S.is_empty. destruct (String.eqb_spec (ir_Mark r) "") as [Ee|]; [by rewrite Ee in Hm|done]. }
  unfold mbind, io_bind. rewrite ignore_exec. unfold wrap. by rewrite Emask, (exec_ok _ _ _ _ _ E).
Qed.

Lemma touchedRules_map plan : cleanPlan plan -> touchedRules plan = map (fun r => mkStateRule (ir_Family r) (ir_Priority r) (ir_Mark r) (ir_Table r)) (pn_IPRules plan).
Proof.
  intros HP. pose proof (cp_rules _ HP) as HR. pose proof (cp_proofs _ HP) as HN. unfold touchedRules. destruct (pn_IPRules plan) as [|x l].
  - specialize (HN eq_refl). cbn [length Nat.ltb Nat.leb]. induction (pn_Rules plan) as [|p ps IH]; [done|]. cbn [flat_map]. unfold touchedByProof at 1. rewrite (HN p) by left.
    cbn. apply IH. intros q Hq. apply HN. by right.
  - change (0 <? length (x :: l))%nat with true. cbv iota. revert HR. generalize (x :: l). intros rules HR. clear HN. induction rules as [|r rules IH]; [done|]. cbn [flat_map map].
    destruct (HR r) as [[_ Hp Ht Hm] _]; [left|]. cbn in Hp, Ht, Hm. unfold touchedByRule at 1.
    assert ((ir_Priority r <=? 0) || (ir_Table r <=? 0) || S.is_empty (ir_Mark r) = false) as ->; [|cbn [app]; f_equal; apply IH; intros y Hy; apply HR; by right].
    rewrite !orb_false_iff. split_and!; [lia|lia|]. unfold S.is_empty. destruct (String.eqb_spec (ir_Mark r) "") as [Ee|]; [by rewrite Ee in Hm|done].
Qed.

(** Every key of the plan holds what the plan says. *)
Definition installed (plan : IPPlan) (k : K) : Prop :=
  (forall r, r ∈ pn_Routes plan -> own k (ip_Family r) (ip_Table r) = [shownAs (plannedRoute r)]) /\
  (forall r, r ∈ touchedRules plan -> rulesAt k (su_Family r) (su_Priority r) = [r]).

Lemma touched_apart plan : cleanPlan plan -> NoDup (map (fun r => (su_Family r, su_Priority r)) (touchedRules plan)).
Proof. intros HP. rewrite (touchedRules_map plan HP), map_map. exact (cp_apart _ HP). Qed.
Lemma installed_elem plan k x : installed plan k -> x ∈ touchedRules plan <-> x ∈ listed k (su_Family x) /\ touches plan (su_Family x) (su_Priority x).
Proof.
  intros [_ HI]. split.
  - intros Hx. split; [|by exists x]. assert (Hin : x ∈ rulesAt k (su_Family x) (su_Priority x)) by (rewrite (HI x Hx); left).
    by apply rulesAt_elem in Hin as [Hin _].
  - intros [Hx (r & Hr & Ef & Ep)]. assert (Hin : x ∈ rulesAt k (su_Family r) (su_Priority r)) by (apply rulesAt_elem; by rewrite Ef).
    rewrite (HI r Hr) in Hin. by apply list_elem_of_singleton in Hin as ->.
Qed.
Lemma installed_readable plan k : cleanPlan plan -> installed plan k -> readablePlan k plan.
Proof.
  intros HP HI f Hf. pose proof (proj1 (Forall_forall _ _) (touched_clean _ HP)) as HC.
  assert (HE : forall x, x ∈ rulesIn k (touchedRules plan) f -> x ∈ touchedRules plan).
  { intros x Hx. apply rulesIn_elem in Hx as [Hx Ht]. apply (installed_elem plan k x HI). by rewrite (listed_family _ _ _ Hx). }
  split; [|apply Forall_forall; intros x Hx; specialize (HC x (HE x Hx)); split; [intros E; pose proof (cu_mark _ HC) as Hm; by rewrite E in Hm|apply HC]].
  assert (HAt : forall p, (length (List.filter (atPriority p) (rulesIn k (touchedRules plan) f)) <= 1)%nat).
  { intros p. destruct (List.filter (atPriority p) (rulesIn k (touchedRules plan) f)) as [|x l] eqn:E; [cbn; lia|].
    assert (Hx : x ∈ List.filter (atPriority p) (rulesIn k (touchedRules plan) f)) by (rewrite E; left). apply elem_of_filter_b in Hx as [Hx Hp].
    pose proof Hx as Hl. apply rulesIn_elem in Hl as [Hl Ht]. apply Z.eqb_eq in Hp. rewrite Hp in Ht. rewrite (rulesIn_at plan k f p Ht) in E.
    destruct Ht as (r & Hr & Er & Ep). destruct HI as [_ HI]. specialize (HI r Hr). rewrite Er, Ep, E in HI. rewrite HI. cbn. lia. }
  clear -HAt. induction (rulesIn k (touchedRules plan) f) as [|x l IH]; [constructor|]. cbn [map]. constructor.
  - intros (y & Ey & Hy)%elem_of_map. specialize (HAt (su_Priority x)). cbn [List.filter] in HAt. unfold atPriority at 1 in HAt. rewrite Z.eqb_refl in HAt. cbn [length] in HAt.
    assert (Hin : y ∈ List.filter (atPriority (su_Priority x)) l) by (apply elem_of_filter_b; split; [done|by apply Z.eqb_eq]).
    destruct (List.filter _ l); [by apply elem_of_nil in Hin|cbn in HAt; lia].
  - apply IH. intros p. specialize (HAt p). cbn [List.filter] in HAt. destruct (atPriority p x); cbn [length] in HAt; lia.
Qed.
Lemma installed_verifies plan k : cleanPlan plan -> usualForm plan -> ok k -> fits run ip k -> installed plan k ->
  VerifyAppliedIPPlan run mo2 ip plan k = (k, Ok ()).
Proof.
  intros HP [HVia _] Hok Hfit HI. pose proof (installed_readable plan k HP HI) as HR. unfold VerifyAppliedIPPlan. unfold mbind at 1, io_bind at 1, wrap at 1.
  rewrite (SnapshotIPState_spec mo2 k plan HO2 Hok Hfit HP HR). cbv iota.
  assert (routesEqual (restrictRoutes (sn_Routes (snapshotOf mo2 k plan)) plan) (restrictRoutes (map expectedRoute (pn_Routes plan)) plan) = true) as ->.
  { apply bool_decide_eq_true. cbn [snapshotOf sn_Routes]. rewrite restrictRoutes_rows by done. unfold restrictRoutes. f_equal.
    destruct HI as [HOwn _]. pose proof (proj1 (Forall_forall _ _) (cp_routes _ HP)) as HC.
    assert (HK : forall r, r ∈ pn_Routes plan -> keyOfRoute (expectedRoute r) ∈ (list_to_set (map keyOfPlanned (pn_Routes plan)) : gset string)).
    { intros r Hr. apply elem_of_list_to_set, elem_of_map. exists r. split; [|done]. unfold keyOfRoute, keyOfPlanned, routeKey, expectedRoute.
      cbn [sr_Family sr_Table sr_Destination]. by rewrite canonical_idempotent. }
    revert HK. generalize (list_to_set (map keyOfPlanned (pn_Routes plan)) : gset string). intros allowed HK.
    induction (pn_Routes plan) as [|r routes IH]; [done|]. cbn [flat_map map List.filter].
    rewrite bool_decide_eq_true_2 by (apply HK; left). cbn [map]. rewrite (HOwn r) by left. cbn [app]. f_equal.
    - unfold shownAs, shownRoute, canonicalRoute, plannedRoute, expectedRoute. cbn [sr_Family sr_Table sr_Destination sr_Type sr_Via sr_Device].
      rewrite canonical_idempotent, (HVia r) by left. done.
    - apply IH; intros y Hy; [apply HVia|apply HOwn|apply HC|apply HK]; by right. }
  assert (rulesEqual (restrictRules (sn_Rules (snapshotOf mo2 k plan)) plan) (restrictRules (touchedRules plan) plan) = true) as ->; [|done].
  apply bool_decide_eq_true. apply restrictRules_perm; [|by apply rules_apart].
  apply NoDup_Permutation.
  - eapply NoDup_fmap_1. exact (snapshot_keys plan HP k mo2 HO2 HR).
  - eapply NoDup_fmap_1. exact (touched_apart plan HP).
  - intros x. rewrite (installed_elem plan k x HI). rewrite <- (restricted_elem plan mo2 k x HO2). unfold restrictRules. rewrite gosort_perm, elem_of_filter_b.
    split; [|tauto]. intros Hx. split; [done|]. cbn [snapshotOf sn_Rules] in Hx. apply elem_of_flat_map in Hx as (f & _ & Hx). apply rulesIn_elem in Hx as [Hx (r & Hr & Ef & Ep)].
    apply bool_decide_eq_true, elem_of_list_to_set, elem_of_map. exists r. split; [|done]. unfold keyOfRule. by rewrite Ef, Ep, (listed_family _ _ _ Hx).
Qed.

(** C21: A loaded plan applies and is then found active, if its gateways and marks are
    written as the kernel lists them ([usualForm]; a mark with leading zeros never is
    found active).  When [uci] works and no command fails, [ApplyIPPlanWithUCI]
    succeeds, every key of the plan holds what the plan says, whatever rule of one
    mark or route was there before, and [VerifyAppliedIPPlan] accepts the result, so
    a restart of the control plane leaves the tables alone. *)
Theorem applied_plan_verifies plan plan' binding k0 k0' pre :
  intPlan plan -> checkIPPlan sha256 plan binding = Ok plan' -> pn_DeploymentReady plan = true -> uciWorks -> usualForm plan ->
  ok k0 -> fits run ip k0 -> SnapshotIPState run mo ip plan k0 = (k0', Ok pre) ->
  exists k1, ApplyIPPlanWithUCI run ip uci plan k0 = (k1, Ok ()) /\ installed plan k1 /\
    (fits run ip k1 -> VerifyAppliedIPPlan run mo2 ip plan k1 = (k1, Ok ())).
Proof.
  intros HInt HC HReady HU HF Hok Hfit HS. assert (HP : cleanPlan plan) by (by eapply loaded_plan_clean).
  apply SnapshotIPState_inv in HS as (-> & -> & HR); [|done|done|done|done].
  assert (HA : exists k1, ApplyIPPlanWithUCI run ip uci plan k0 = (k1, Ok ()) /\ ok k1 /\ installed plan k1).
  { unfold ApplyIPPlanWithUCI. rewrite ip_nonempty, HReady. cbn [negb].
    destruct (applyFlow_Ok (pn_FlowOffloading plan) k0 plan k0 HU (cp_flow _ HP) (during_start plan HP k0 Hok HR)) as (k1 & E1 & HD1).
    destruct (forEach_restores (applyRoute run ip) (pn_Routes plan)
      (fun done k => during plan k0 k /\ forall r, r ∈ done -> r ∈ pn_Routes plan /\ own k (ip_Family r) (ip_Table r) = [shownAs (plannedRoute r)]))
      with (done := @nil IPRoute) (k := k1) as (k2 & E2 & all & (HD2 & Hall) & Hin); [|split; [done|by nothing_in]|].
    { intros r done k2 Hr [HD2 Hdone]. destruct (applyRoute_Ok plan k0 k2 r HP HD2 Hr) as (k3 & E & HD3 & Ho & [Ht Ht'] & Hs). exists k3. split; [exact E|].
      split; [exact HD3|]. intros x [->|Hx]%elem_of_cons; [split; [exact Hr|exact Ho]|]. destruct (Hdone x Hx) as [Hxp Hxo]. split; [exact Hxp|].
      destruct (decide ((ip_Family x, ip_Table x) = (ip_Family r, ip_Table r))) as [Exy|Hne].
      - assert (x = r) as -> by (eapply unique_key; [apply (cp_tables _ HP)|exact Hxp|exact Hr|exact Exy]). exact Ho.
      - rewrite (own_same k2 k3 _ _ (du_ok _ _ _ HD2) (Ht' _ _ Hne)). exact Hxo. }
    unfold mbind at 1, io_bind at 1. rewrite E1. cbv iota. unfold mbind at 1, io_bind at 1. rewrite E2. cbv iota.
    assert (HOwn : forall r, r ∈ pn_Routes plan -> own k2 (ip_Family r) (ip_Table r) = [shownAs (plannedRoute r)]) by (intros r Hr; apply Hall, Hin; by left).
    destruct (0 <? length (pn_IPRules plan))%nat eqn:EN.
    - destruct (forEach_restores (applyRule run ip) (pn_IPRules plan)
        (fun done k => during plan k0 k /\ (forall f t, own k f t = own k2 f t) /\ forall r, r ∈ done -> r ∈ pn_IPRules plan /\
           rulesAt k (ir_Family r) (ir_Priority r) = [mkStateRule (ir_Family r) (ir_Priority r) (canonicalMark (ir_Mark r)) (ir_Table r)]))
        with (done := @nil IPRule) (k := k2) as (k3 & E3 & all3 & (HD3 & HO3 & Hall3) & Hin3); [|split_and!; [done|done|by nothing_in]|].
      { intros r done k3 Hr (HD3 & HO3 & Hdone). destruct (applyRule_Ok plan k0 k3 r HP HD3 Hr) as (k4 & E & HD4 & Hat & HT & Ho). exists k4. split; [exact E|].
        split; [exact HD4|]. split; [intros f t; rewrite (own_same k3 k4 f t (du_ok _ _ _ HD3)); [by apply HO3|by rewrite (HT f t)]|].
        intros x [->|Hx]%elem_of_cons; [split; [exact Hr|exact Hat]|]. destruct (Hdone x Hx) as [Hxp Hxo]. split; [exact Hxp|].
        destruct (decide ((ir_Family x, ir_Priority x) = (ir_Family r, ir_Priority r))) as [Exy|Hne].
        - assert (x = r) as -> by (eapply unique_key; [apply (cp_apart _ HP)|exact Hxp|exact Hr|exact Exy]). exact Hat.
        - pose proof (Ho _ _ Hne) as Hperm. rewrite Hxo in Hperm. by apply Permutation_singleton_r in Hperm. }
      exists k3. split; [exact E3|]. split; [by apply (du_ok _ _ _ HD3)|]. split; [intros r Hr; rewrite HO3; by apply HOwn|].
      intros r Hr. rewrite (touchedRules_map plan HP) in Hr. apply elem_of_map in Hr as (x & -> & Hx). cbn [su_Family su_Priority].
      destruct (Hall3 x) as [_ ->]; [apply Hin3; by left|]. destruct HF as [_ HM]. by rewrite (HM x Hx).
    - exists k2. assert (EE : pn_IPRules plan = []) by (destruct (pn_IPRules plan); [done|discriminate EN]). split.
      + pose proof (cp_proofs _ HP EE) as Hdrop. induction (pn_Rules plan) as [|p ps IH]; [done|]. cbn [forEach].
        assert (applyProof run ip p = mret ()) as -> by (unfold applyProof; by rewrite (Hdrop p) by left). unfold mbind, io_bind, mret, io_ret.
        apply IH. intros q Hq. apply Hdrop. by right.
      + split; [by apply (du_ok _ _ _ HD2)|]. split; [exact HOwn|]. intros r Hr. rewrite (touchedRules_map plan HP), EE in Hr. by apply elem_of_nil in Hr. }
  destruct HA as (k1 & E & Hok1 & HI). exists k1. split_and!; [done|done|]. intros Hfit1. by apply installed_verifies.
Qed.

(** *** Nothing owned is left *)

Context (tableOrder : list Z -> list Z) (HT : forall l, tableOrder l ≡ₚ l).

(** Forwards: what one step found, and the rest. *)
Lemma bind_io_Ok {A B} (m : io K A) (f : A -> io K B) k k' b : (m ≫= f) k = (k', Ok b) -> exists k1 a, m k = (k1, Ok a) /\ f a k1 = (k', Ok b).
Proof. unfold mbind, io_bind. destruct (m k) as [k1 [a|e]]; [|done]. intros H. by exists k1, a. Qed.
Lemma wrap_Ok {A} prefix (m : io K A) k k' a : wrap prefix m k = (k', Ok a) -> m k = (k', Ok a).
Proof. unfold wrap. by destruct (m k) as [k1 [x|e]]. Qed.

Lemma verifyEmptyTable_Ok k k' f flag t : ok k -> fits run ip k -> familyFlag f = Ok flag -> 1 <= t ->
  verifyEmptyTable run ip f flag t k = (k', Ok ()) -> k' = k /\ tableOf k f t = [].
Proof.
  intros Hok Hfit Hf Hpos H. unfold verifyEmptyTable in H. cbv zeta in H. apply bind_io_Ok in H as (k1 & raw & H1%wrap_Ok & H).
  destruct (show_table k f flag t Hok Hf Hpos) as (raw' & err & E & HL). destruct (Hfit f flag Hf) as [Hlen _]. specialize (Hlen t). rewrite E in Hlen. cbn [fst snd] in Hlen.
  unfold output in H1. rewrite E in H1. destruct err; [done|]. injection H1 as <- <-.
  apply bind_io_Ok in H as (k1 & rows & H1%wrap_Ok & H). unfold lift in H1. rewrite (HL Hlen) in H1. injection H1 as <- <-.
  destruct (tableOf k f t); [|done]. by injection H as <-.
Qed.
Lemma verifyNoOwnedFamily_Ok spec k k' f : ok k -> fits run ip k -> verifyNoOwnedFamily run tableOrder ip spec f k = (k', Ok ()) ->
  k' = k /\ any (ownedRow spec) (rulesOf k f) = false /\ forall t, t ∈ ownedTables spec -> tableOf k f t = [].
Proof.
  intros Hok Hfit H. unfold verifyNoOwnedFamily in H. apply bind_io_Ok in H as (k1 & flag & H1 & H). unfold lift in H1.
  destruct (familyFlag f) as [flag'|] eqn:Ef; [|done]. injection H1 as <- <-.
  apply bind_io_Ok in H as (k1 & rows & H1%wrap_Ok & H). rewrite (showRules_spec k f _ Hok Hfit Ef) in H1. injection H1 as <- <-.
  apply bind_io_Ok in H as (k1 & u & H1 & H). unfold lift in H1. destruct (any (ownedRow spec) (rulesOf k f)); [done|]. injection H1 as <- <-.
  assert (HS : forall t, t ∈ tableOrder (elements (ownedTables spec)) <-> t ∈ ownedTables spec) by (intros t; by rewrite HT, elem_of_elements).
  assert (HA : k' = k /\ forall t, t ∈ tableOrder (elements (ownedTables spec)) -> tableOf k f t = []).
  { assert (HPos : forall t, t ∈ tableOrder (elements (ownedTables spec)) -> 1 <= t).
    { intros t Hin%HS. unfold ownedTables in Hin. apply elem_of_list_to_set, elem_of_filter_b in Hin as [_ Hin]. lia. }
    clear HS. revert H HPos. induction (tableOrder (elements (ownedTables spec))) as [|t l IH]; intros H HPos; [injection H as <-; split; [done|by nothing_in]|].
    cbn [forEach] in H. apply bind_io_Ok in H as (k1 & [] & H1 & H). apply verifyEmptyTable_Ok in H1 as [-> Ht]; [|done|done|done|apply HPos; left].
    apply IH in H as [-> HL]; [|intros; apply HPos; by right]. split; [done|]. intros x [->|Hx]%elem_of_cons; [done|by apply HL]. }
  destruct HA as [-> HA]. split_and!; [done|done|]. intros t Hin. by apply HA, HS.
Qed.

(** C22: An uninstallation that reports an empty state leaves nothing behind: when
    [internal-verify-no-owned-ip-state] succeeds, no rule of either family has a
    priority from 10000 to 20099, a mark of the configuration or looks up one of
    its tables, and those tables are empty. *)
Theorem nothing_owned_left c k k' :
  ip = ipBinaryOf ip -> ok k -> fits run ip k -> verifyNoOwnedCommand run tableOrder ip c k = (k', Ok ()) ->
  let w := c_OpenWrt c in
  forall f, f = "ipv4" \/ f = "ipv6" ->
  (forall r, r ∈ listed k f -> ~ (10000 <= su_Priority r <= 20099) /\
     (forall m, m ∈ [DirectMark w; ZapretMark w; XrayMark w; XrayTProxyMark w; XrayBypassMark w; DropMark w] ->
        S.TrimSpace m <> "" -> S.ToLower (su_Mark r) <> S.ToLower (beforeSlash (S.TrimSpace m))) /\
     (0 < su_Table r -> su_Table r ∉ [WANRouteTable w; ZapretRouteTable w; XrayRouteTable w])) /\
  (forall t, 0 < t -> t ∈ [WANRouteTable w; ZapretRouteTable w; XrayRouteTable w] -> shown k f t = []).
Proof.
  intros Hip Hok Hfit H w f Hf. unfold verifyNoOwnedCommand in H. rewrite <- Hip in H. unfold VerifyNoOwnedIPState in H. rewrite ip_nonempty in H.
  assert (HF : any (ownedRow (ownedSpec c)) (rulesOf k f) = false /\ forall t, t ∈ ownedTables (ownedSpec c) -> tableOf k f t = []).
  { cbn [forEach] in H. apply bind_io_Ok in H as (k1 & [] & H1 & H). apply verifyNoOwnedFamily_Ok in H1 as (-> & H4); [|done|done].
    apply bind_io_Ok in H as (k2 & [] & H2 & _). apply verifyNoOwnedFamily_Ok in H2 as (-> & H6); [|done|done]. by destruct Hf as [-> | ->]. }
  destruct HF as [HR HE].
  assert (HTab : forall t, 0 < t -> t ∈ [WANRouteTable w; ZapretRouteTable w; XrayRouteTable w] -> t ∈ ownedTables (ownedSpec c)).
  { intros t Ht Hin. unfold ownedTables. apply elem_of_list_to_set, elem_of_filter_b. split; [done|lia]. }
  split; [|intros t Ht Hin; unfold shown; by rewrite (HE t (HTab t Ht Hin))].
  intros r (row & -> & Hrow)%elem_of_map. rewrite any_false in HR. apply HR in Hrow. unfold ownedRow in Hrow. rewrite !orb_false_iff in Hrow.
  destruct Hrow as [[Hp Hm] Ht]. apply bool_decide_eq_false in Hm, Ht. cbn [ruleOfRow su_Priority su_Mark su_Table].
  split_and!.
  - intros [Ha Hb]. revert Hp. cbn [ownedSpec ow_MinRulePriority ow_MaxRulePriority]. lia.
  - intros m Hin Hne E. apply Hm. unfold ownedMarks. apply elem_of_list_to_set, elem_of_map. exists (S.TrimSpace m). split; [done|].
    apply elem_of_filter_b. split; [apply elem_of_map; by exists m|]. unfold S.is_empty. by destruct (String.eqb_spec (S.TrimSpace m) "").
  - intros Hpos Hin. apply Ht, HTab; done.
Qed.
End Theorems.
