(* ===== verification/DataplaneKernel.v ===== *)
(** * A routing table that keeps the promises of [Iproute]

    A small kernel with [ip] and [uci] in front of it: tables by family and
    number, rules in the order they were added, listings printed as JSON.  It
    shows that the interface can be implemented; the examples run on it. *)
From Stdlib Require Import ZArith Lia.
From stdpp Require Import base list strings gmap pretty.
From S2P Require Import Prelude Effects Net Config Json NetProofs Validation ValidationProofs Artifact ArtifactProofs JsonText JsonTextProofs Dataplane DataplaneProofs DataplaneSteps.

Open Scope Z_scope.

Module Kernel.
Import JText.

(** Type, gateway and device of a route. *)
Record hop := mkHop { h_type : string; h_via : string; h_dev : string }.
(** A rule: its priority, the number of its mark, the table, and the mask of the
    mark where it is not the whole word. *)
Record krule := mkKRule { kr_priority : Z; kr_mark : Z; kr_table : Z; kr_mask : option Z }.
Notation table := (gmap string hop).
Record kernel := mkKernel { kn_tables : gmap (string * Z) table; kn_rules : gmap string (list krule) }.

Definition tableIn (k : kernel) (flag : string) (t : Z) : table := default ∅ (kn_tables k !! (flag, t)).
Definition rulesBy (k : kernel) (flag : string) : list krule := default [] (kn_rules k !! flag).
Definition set_table (flag : string) (t : Z) (m : table) (k : kernel) : kernel := mkKernel (<[(flag, t) := m]> (kn_tables k)) (kn_rules k).
Definition set_rules (flag : string) (l : list krule) (k : kernel) : kernel := mkKernel (kn_tables k) (<[flag := l]> (kn_rules k)).

(** *** Listings *)

Definition rowJSON (dest : string) (h : hop) : jtext :=
  TObj [("type", TStr (h_type h)); ("dst", TStr dest); ("gateway", TStr (h_via h)); ("dev", TStr (h_dev h))].
Definition markText (n : Z) : string := "0x" +:+ IP.hexText 8 n "".
Definition ruleJSON (r : krule) : jtext :=
  TObj ([("priority", TNum (pretty (kr_priority r))); ("src", TStr "all"); ("fwmark", TStr (markText (kr_mark r)))]
        ++ match kr_mask r with Some m => [("fwmask", TStr (markText m))] | None => [] end
        ++ [("table", TStr (pretty (kr_table r)))]).
Definition tableText (m : table) : string := print (TArr (map (fun x => rowJSON x.1 x.2) (map_to_list m))).
Definition rulesText (l : list krule) : string := print (TArr (map ruleJSON l)).

(** *** Commands *)

Definition num (s : string) : Z := dec_value 0 s.
Definition reply : Type := kernel * (string * option string).
Definition done (k : kernel) : reply := (k, ("", None)).
Definition failed (k : kernel) (e : string) : reply := (k, ("", Some e)).

(** The words behind [route replace] and [route del]. *)
Definition routeWords (words : list string) : option (string * hop * Z) :=
  match words with
  | [dest; _; via; _; dev; _; t] => Some (dest, mkHop "unicast" (canonicalVia via) dev, num t)
  | [type; dest; _; dev; _; t] => Some (dest, mkHop type "" dev, num t)
  | [type; dest; _; t] => Some (dest, mkHop type "" "", num t)
  | _ => None
  end.
Definition familyOf (flag : string) : string := if flag =s "-6" then "ipv6" else "ipv4".
Definition rowOf (x : string * hop) : ipRouteRow := mkRouteRow x.1 (h_via x.2) (h_dev x.2) (h_type x.2).
Definition entry (family : string) (t : Z) (x : string * hop) : IPStateRoute := shownRoute (routeOfRow family t (rowOf x)).
Definition routeAt (flag : string) (t : Z) (dest : string) (h : hop) : IPStateRoute := entry (familyOf flag) t (dest, h).
Definition replaceRoute (flag : string) (words : list string) (k : kernel) : reply :=
  match routeWords words with
  | Some (dest, h, t) => done (set_table flag t (<[canonicalRouteDestination (familyOf flag) dest := h]> (tableIn k flag t)) k)
  | None => failed k "usage"
  end.
Definition deleteRoute (flag : string) (words : list string) (k : kernel) : reply :=
  match routeWords words with
  | Some (dest, h, t) =>
      let key := canonicalRouteDestination (familyOf flag) dest in
      match tableIn k flag t !! key with
      | Some h' =>
          if bool_decide (routeAt flag t key h' = routeAt flag t key h) then done (set_table flag t (delete key (tableIn k flag t)) k)
          else failed k "RTNETLINK answers: No such process"
      | None => failed k "RTNETLINK answers: No such process"
      end
  | None => failed k "usage"
  end.
Fixpoint removeFirst (p : Z) (l : list krule) : list krule :=
  match l with [] => [] | r :: l => if kr_priority r =? p then l else r :: removeFirst p l end.
(** The mark and its mask; [0xffffffff] is the whole word. *)
Definition markWords (mark : string) : option (Z * option Z) :=
  let '(value, mask) := match Net.cutFirst slash mark with Some (v, m) => (v, m) | None => (mark, "0xffffffff") end in
  match markNumber value, markNumber mask with
  | Ok n, Ok m => Some (n, if m =? 4294967295 then None else Some m)
  | _, _ => None
  end.
Definition runRule (flag : string) (words : list string) (k : kernel) : reply :=
  match words with
  | [_; _; p] => done (set_rules flag (removeFirst (num p) (rulesBy k flag)) k)
  | [_; _; p; _; mark; _; t] =>
      match markWords mark with
      | Some (n, m) => done (set_rules flag (rulesBy k flag ++ [mkKRule (num p) n (num t) m]) k)
      | None => failed k "invalid fwmark"
      end
  | _ => failed k "usage"
  end.
Definition runShow (flag : string) (words : list string) (k : kernel) : reply :=
  match words with
  | [_; _; _; t] =>
      match kn_tables k !! (flag, num t) with
      | Some m => (k, (tableText m, None))
      | None => failed k "Error: FIB table does not exist. Dump terminated"
      end
  | _ => (k, (rulesText (rulesBy k flag), None))
  end.
Definition run (name : string) (args : list string) (k : kernel) : reply :=
  if name =s "ip" then
    match args with
    | flag :: object :: words =>
        if object =s "-j" then runShow flag words k
        else if object =s "rule" then runRule flag words k
        else match words with
             | command :: words => if command =s "replace" then replaceRoute flag words k else deleteRoute flag words k
             | [] => failed k "usage"
             end
    | _ => failed k "usage"
    end
  else done k.

(** *** The states the interface is about *)

Definition inRange (n : Z) : Prop := 0 <= n <= int64_max.
Definition okHop (h : hop) : Prop :=
  canonicalVia (h_via h) = h_via h /\ S.all_bytes printable (h_via h) = true /\ S.all_bytes printable (h_dev h) = true /\
  containsString ["unicast"; "local"; "unreachable"] (h_type h) = true /\ (h_type h = "local" -> h_via h = "") /\
  (h_type h = "unreachable" -> h_via h = "" /\ h_dev h = "").
Definition okTable (flag : string) (m : table) : Prop := forall dest h, m !! dest = Some h ->
  okHop h /\ S.all_bytes printable dest = true /\ canonicalRouteDestination (familyOf flag) dest = dest.
Definition okRule (r : krule) : Prop :=
  inRange (kr_priority r) /\ inRange (kr_table r) /\ 0 < kr_mark r < 2 ^ 32 /\ (forall m, kr_mask r = Some m -> 0 < m < 2 ^ 32).
Definition okKernel (k : kernel) : Prop :=
  (forall flag t, okTable flag (tableIn k flag t)) /\ (forall flag, Forall okRule (rulesBy k flag)).

Definition ruleRow (r : krule) : ipRuleRow := mkRuleRow (kr_priority r) (TStr (pretty (kr_table r))) (TStr (markText (kr_mark r))).
#[export] Instance kernel_listing : Listing kernel := {
  tableOf k family t := match familyFlag family with Ok flag => map rowOf (map_to_list (tableIn k flag t)) | Err _ => [] end;
  rulesOf k family := match familyFlag family with Ok flag => map ruleRow (rulesBy k flag) | Err _ => [] end
}.

(** ** Numbers and marks *)

Lemma num_pretty n : 0 <= n -> num (pretty n) = n.
Proof. apply dec_value_pretty. Qed.
Lemma hexText_value n : 0 < n < 2 ^ 32 -> hexValue (IP.hexText 8 n "") = n.
Proof.
  intros Hn. unfold hexValue. destruct (IPText.hexRun_text 8 n "") as (j & _ & H); [split; [lia|]; change (16 ^ Z.of_nat 8) with (2 ^ 32); lia|lia|].
  by rewrite (H 0 n "" eq_refl).
Qed.
Lemma hexRun_count s : forall acc n v r, IP.hexRun acc s = (n, v, r) -> 0 <= n <= S.len s.
Proof.
  unfold S.len. induction s as [|c s IH]; intros acc n v r H; cbn [IP.hexRun String.length] in *; [simplify_eq; lia|].
  destruct (hexdigit c); [|simplify_eq; lia]. destruct (IP.hexRun _ s) as [[n' v'] r'] eqn:E. apply IH in E. simplify_eq. lia.
Qed.
Lemma hexValue_range s : S.len s <= 8 -> 0 <= hexValue s < 2 ^ 32.
Proof.
  intros Hs. unfold hexValue. destruct (IP.hexRun 0 s) as [[n v] r] eqn:E. pose proof (hexRun_count _ _ _ _ _ E) as Hn.
  apply IPText.hexRun_range in E as [_ Hv]; [|lia]. cbn [fst snd]. pose proof (Z.pow_le_mono_r 16 n 8). change (16 ^ 8) with (2 ^ 32) in *. lia.
Qed.
Lemma markNumber_Ok m n : markNumber m = Ok n -> S.HasPrefix m "0x" = true /\ S.len m <= 10 /\ S.all_bytes hexdigit (behind "0x" m) = true /\
  n = hexValue (behind "0x" m) /\ n <> 0.
Proof.
  unfold markNumber. destruct (negb (S.HasPrefix m "0x") || (S.len m <? 3) || (10 <? S.len m)) eqn:E1; [discriminate|].
  destruct (negb (S.all_bytes hexdigit (behind "0x" m)) || (hexValue (behind "0x" m) =? 0)) eqn:E2; [discriminate|]. intros H. injection H as <-.
  apply orb_false_iff in E2 as [E2 E3]. apply Z.eqb_neq in E3. apply negb_false_iff in E2. rewrite !orb_false_iff in E1. destruct E1 as [[Ep _] Hl].
  apply negb_false_iff in Ep. split_and!; try assumption; [lia|reflexivity].
Qed.
Lemma markNumber_range m n : markNumber m = Ok n -> 0 < n < 2 ^ 32.
Proof.
  intros (_ & Hl & _ & -> & E2)%markNumber_Ok.
  assert (Hb : S.len (behind "0x" m) <= 8).
  { unfold behind, S.len in *. pose proof (JTextProofs.substring_short (String.length "0x") m (String.length m - String.length "0x")). cbn [String.length] in *. lia. }
  pose proof (hexValue_range _ Hb). lia.
Qed.
Lemma behind_app p s : behind p (p +:+ s) = s.
Proof.
  unfold behind. rewrite str_length_app. replace (String.length p + String.length s - String.length p)%nat with (String.length s) by lia.
  induction p as [|c p IH]; cbn; [by apply JTextProofs.substring_beyond|exact IH].
Qed.
Lemma hexText_len fuel : forall n acc, S.len acc < S.len (IP.hexText fuel n acc) + (if fuel then 1 else 0) /\
  S.len (IP.hexText fuel n acc) <= S.len acc + Z.of_nat fuel.
Proof.
  unfold S.len. induction fuel as [|fuel IH]; intros n acc; cbn [IP.hexText]; [lia|]. cbv zeta. destruct (n <? 16); [cbn [String.length]; lia|].
  specialize (IH (n / 16) (String (IP.hexChar (n mod 16)) acc)). cbn [String.length] in IH. destruct fuel; lia.
Qed.
Lemma markNumber_text n : 0 < n < 2 ^ 32 -> markNumber (markText n) = Ok n.
Proof.
  intros Hn. unfold markNumber, markText. rewrite behind_app, len_app. destruct (hexText_len 8 n "") as [H1 H2]. cbv iota in H1.
  change (S.len "0x") with 2. change (S.len "") with 0 in H1, H2. rewrite (hexText_value n Hn).
  assert (Hp : forall s, S.HasPrefix ("0x" +:+ s) "0x" = true) by (by intros []). rewrite Hp.
  rewrite (IPText.hexText_digits 8 n "" eq_refl). cbn [negb orb].
  assert ((2 + S.len (IP.hexText 8 n "") <? 3) || (10 <? 2 + S.len (IP.hexText 8 n "")) || (n =? 0) = false) as E.
  { change (Z.of_nat 8) with 8 in H2. rewrite !orb_false_iff. split_and!; lia. }
  rewrite !orb_false_iff in E. destruct E as [[-> ->] ->]. done.
Qed.
Lemma canonicalMark_text n : 0 < n < 2 ^ 32 -> validMark (markText n) = true /\ canonicalMark (markText n) = markText n.
Proof. intros Hn. unfold validMark, canonicalMark. by rewrite (markNumber_text n Hn). Qed.
Lemma validMark_number m : validMark m = true -> exists n, markNumber m = Ok n /\ canonicalMark m = markText n.
Proof. unfold validMark, canonicalMark. destruct (markNumber m) as [n|]; [|done]. intros _. by exists n. Qed.
Lemma mark_noslash m n : markNumber m = Ok n -> Net.has slash m = false.
Proof.
  intros (Ep & _ & E2 & _)%markNumber_Ok.
  assert (exists s, m = "0x" +:+ s) as [s ->].
  { unfold S.HasPrefix in Ep. destruct m as [|a [|b m]]; [done|cbn [String.prefix] in Ep; by destruct (Ascii.ascii_dec _ a)|]. cbn [String.prefix] in Ep.
    destruct (Ascii.ascii_dec _ a) as [<-|]; [|done]. destruct (Ascii.ascii_dec _ b) as [<-|]; [|done]. by exists m. }
  rewrite behind_app in E2. rewrite has_app. cbn [Net.has]. rewrite (has_false slash hexdigit s E2); done.
Qed.

(** A number does not start with a zero, unless it is zero. *)
Lemma pretty_go_first n : forall s, (0 < n)%N -> exists c t, pretty_N_go n s = String c t /\ S.is_byte 48 c = false.
Proof.
  induction (N.lt_wf_0 n) as [n _ IH]. intros s Hn. rewrite pretty_N_go_step by exact Hn.
  assert (Hlt : (n / 10 < n)%N) by (apply N.div_lt; lia). destruct (decide (n / 10 = 0)%N) as [E|E]; [|apply (IH _ Hlt); by apply N.neq_0_lt_0].
  rewrite E, pretty_N_go_0. exists (pretty_N_char (n mod 10)), s. split; [reflexivity|].
  assert (Hs : (n < 10)%N) by (apply N.div_small_iff in E; lia). rewrite N.mod_small by exact Hs.
  clear -Hn Hs. destruct n as [|p]; [lia|]. repeat (destruct p as [p|p|]; try lia; try done).
Qed.
Lemma pretty_natural (n : Z) : 0 <= n -> natural (pretty n) = true.
Proof.
  intros H. unfold natural. rewrite pretty_digits by exact H.
  assert (S.is_empty (pretty n) = false) as -> by exact (proj2 (String.eqb_neq _ _) (pretty_nonempty n)). cbn [andb negb].
  rewrite pretty_Z_N by exact H. destruct (decide (n = 0)) as [->|Hne]; [reflexivity|].
  unfold pretty, pretty_N. rewrite decide_False by lia. destruct (pretty_go_first (Z.to_N n) "") as (c & t & -> & Hc); [lia|].
  cbn [S.first_byte S.byte_is]. by rewrite Hc, orb_true_r.
Qed.
Lemma pretty_integral (n : Z) : 0 <= n -> integral (pretty n) = true.
Proof.
  intros H. pose proof (pretty_natural n H) as HN. destruct (pretty n : string) as [|c s] eqn:E; [by apply pretty_nonempty in E|]. cbn [integral].
  destruct (S.is_byte 45 c) eqn:Ec; [|exact HN]. exfalso. unfold natural in HN. rewrite !andb_true_iff in HN. destruct HN as [[HN _] _].
  cbn [S.all_bytes] in HN. apply andb_true_iff in HN as [HN _]. unfold S.is_byte, S.digit, S.in_range in *. rewrite andb_true_iff, !N.leb_le in *. lia.
Qed.

(** ** Listings read back *)

Lemma mapM_Ok {A B} (f : A -> result B) (g : A -> B) l : (forall x, x ∈ l -> f x = Ok (g x)) -> mapM f l = Ok (map g l).
Proof.
  intros H. induction l as [|x l IH]; [done|]. cbn [mapM map]. rewrite (H x) by left. cbn [mbind result_bind]. rewrite IH; [done|].
  intros y Hy. apply H. by right.
Qed.
Lemma mapM_map {A B C} (f : B -> result C) (h : A -> B) l : mapM f (map h l) = mapM (fun x => f (h x)) l.
Proof. induction l as [|x l IH]; [done|]. cbn [mapM map]. by rewrite IH. Qed.
Lemma height_list {A} (f : A -> Z) l c : 0 <= c -> (forall x, x ∈ l -> f x <= c) -> fold_right Z.max 0 (map f l) <= c.
Proof. intros Hc H. induction l as [|x l IH]; cbn; [done|]. pose proof (H x ltac:(left)). specialize (IH (fun y Hy => H y ltac:(by right))). lia. Qed.
Lemma printable_unescaped s : S.all_bytes printable s = true -> S.all_bytes unescaped s = true.
Proof. apply all_bytes_impl. intros c. unfold printable. by intros [H _]%andb_true_iff. Qed.
Lemma printable_unescaped_byte c : printable c = true -> unescaped c = true.
Proof. unfold printable. by intros [H _]%andb_true_iff. Qed.
Lemma print_arr_nonempty l : S.is_empty (print (TArr l)) = false.
Proof. done. Qed.

Lemma type_printable t : containsString ["unicast"; "local"; "unreachable"] t = true -> S.all_bytes printable t = true.
Proof. intros H%containsString_true. repeat (apply elem_of_cons in H as [->|H]; [done|]). by apply elem_of_nil in H. Qed.
Lemma tableText_rows flag m : okTable flag m -> S.len (tableText m) <= maxIPStateJSONBytes ->
  parseRouteRows (tableText m) = Ok (map rowOf (map_to_list m)).
Proof.
  intros Hok Hlen. unfold parseRouteRows. unfold tableText at 1. rewrite print_arr_nonempty. rewrite (proj2 (Z.ltb_ge _ _)) by exact Hlen. unfold tableText.
  rewrite JTextProofs.parse_print.
  - cbn [structSlice]. rewrite mapM_map. apply mapM_Ok. intros [dest h] _. reflexivity.
  - cbn [plain]. apply forallb_forall. intros x Hx. apply list_elem_of_In, elem_of_map in Hx as ([dest h] & -> & Hx). apply elem_of_map_to_list in Hx.
    destruct (Hok dest h Hx) as ((_ & Hv & Hd & Ht & _) & Hk & _). pose proof (type_printable _ Ht) as HT. clear Ht. rename HT into Ht. cbn [plain forallb rowJSON fst snd].
    rewrite (printable_unescaped _ Hv), (printable_unescaped _ Hd), (printable_unescaped _ Ht), (printable_unescaped _ Hk). done.
  - cbn [height]. rewrite map_map. assert (fold_right Z.max 0 (map (fun x => height (rowJSON x.1 x.2)) (map_to_list m)) <= 1) by (apply height_list; [done|by intros]).
    unfold maxNestingDepth. lia.
Qed.
Lemma rulesText_rows l : Forall okRule l -> S.len (rulesText l) <= maxIPStateJSONBytes -> parseRuleRows (rulesText l) = Ok (map ruleRow l).
Proof.
  intros Hok Hlen. rewrite Forall_forall in Hok. unfold parseRuleRows. unfold rulesText at 1. rewrite print_arr_nonempty. rewrite (proj2 (Z.ltb_ge _ _)) by exact Hlen.
  assert (Hmark : forall n, 0 < n < 2 ^ 32 -> S.all_bytes unescaped (markText n) = true).
  { intros n Hn. unfold markText. rewrite all_bytes_app. change (S.all_bytes unescaped "0x") with true. cbn [andb].
    eapply all_bytes_impl; [|exact (IPText.hexText_digits 8 n "" eq_refl)]. intros c Hc.
    apply printable_unescaped_byte, address_printable. unfold IPText.plain, IPText.address. by rewrite Hc. }
  unfold rulesText. rewrite JTextProofs.parse_print.
  - cbn [structSlice]. rewrite mapM_map. apply mapM_Ok. intros r Hr. destruct (Hok r Hr) as ([Hp Hp'] & _ & _ & _).
    assert (E : intField 0 [TNum (pretty (kr_priority r))] = Ok (kr_priority r)) by (cbn [intField]; by rewrite Atoi_pretty).
    unfold ruleJSON. destruct (kr_mask r); cbn [structItem app]; unfold decodeRuleRow;
      (match goal with |- (intField 0 (valuesOf ?f ?ms) ≫= _) = _ => change (valuesOf f ms) with [TNum (pretty (kr_priority r))] end; rewrite E; reflexivity).
  - cbn [plain]. apply forallb_forall. intros x Hx. apply list_elem_of_In, elem_of_map in Hx as (r & -> & Hr). destruct (Hok r Hr) as ([Hp _] & [Ht _] & Hm & Hk).
    assert (HT : S.all_bytes unescaped (pretty (kr_table r)) = true).
    { eapply all_bytes_impl; [|exact (pretty_digits _ Ht)]. intros c Hc. apply printable_unescaped_byte, address_printable. unfold IPText.plain, IPText.address, hexdigit. by rewrite Hc. }
    unfold ruleJSON. destruct (kr_mask r) as [m|]; cbn [plain forallb app fst snd]; rewrite ?(Hmark m (Hk m eq_refl)), (Hmark _ Hm), HT, (pretty_integral _ Hp); done.
  - cbn [height]. rewrite map_map. assert (fold_right Z.max 0 (map (fun x => height (ruleJSON x)) l) <= 1).
    { apply height_list; [done|]. intros r _. unfold ruleJSON. by destruct (kr_mask r). }
    unfold maxNestingDepth. lia.
Qed.

(** ** What the commands do to the listings *)

Lemma flag_cases f flag : familyFlag f = Ok flag -> (f = "ipv4" /\ flag = "-4") \/ (f = "ipv6" /\ flag = "-6").
Proof.
  unfold familyFlag. destruct (String.eqb_spec f "ipv4") as [->|_]; [intros [= <-]; by left|].
  destruct (String.eqb_spec f "ipv6") as [->|_]; [intros [= <-]; by right|done].
Qed.
Lemma familyOf_flag f flag : familyFlag f = Ok flag -> familyOf flag = f.
Proof. by intros [[-> ->]|[-> ->]]%flag_cases. Qed.
Lemma flag_inj f g flag : familyFlag f = Ok flag -> familyFlag g = Ok flag -> f = g.
Proof. intros [[-> ->]|[-> ->]]%flag_cases [[-> E]|[-> E]]%flag_cases; done. Qed.

Lemma tableIn_set flag t m k flag' t' : tableIn (set_table flag t m k) flag' t' = if decide ((flag', t') = (flag, t)) then m else tableIn k flag' t'.
Proof.
  unfold tableIn, set_table. cbn [kn_tables]. destruct (decide ((flag', t') = (flag, t))) as [[= -> ->]|Hne]; [by rewrite lookup_insert_eq|].
  by rewrite lookup_insert_ne by congruence.
Qed.
Lemma rulesBy_set flag l k flag' : rulesBy (set_rules flag l k) flag' = if decide (flag' = flag) then l else rulesBy k flag'.
Proof.
  unfold rulesBy, set_rules. cbn [kn_rules]. destruct (decide (flag' = flag)) as [->|Hne]; [by rewrite lookup_insert_eq|]. by rewrite lookup_insert_ne by congruence.
Qed.

Lemma shown_kernel k f flag t : familyFlag f = Ok flag -> shown k f t = map (entry f t) (map_to_list (tableIn k flag t)).
Proof. intros Hf. unfold shown. cbn [tableOf kernel_listing]. rewrite Hf. by rewrite map_map. Qed.
Lemma shown_unknown (k : kernel) f t e : familyFlag f = Err e -> shown k f t = [].
Proof. intros Hf. unfold shown. cbn [tableOf kernel_listing]. by rewrite Hf. Qed.
Lemma listed_kernel k f flag : familyFlag f = Ok flag -> listed k f = map (fun r => ruleOfRow f (ruleRow r)) (rulesBy k flag).
Proof. intros Hf. unfold listed. cbn [rulesOf kernel_listing]. rewrite Hf. by rewrite map_map. Qed.
Lemma listed_unknown (k : kernel) f e : familyFlag f = Err e -> listed k f = [].
Proof. intros Hf. unfold listed. cbn [rulesOf kernel_listing]. by rewrite Hf. Qed.

Lemma entry_destination f t x : canonicalRouteDestination f x.1 = x.1 -> sr_Destination (entry f t x) = x.1.
Proof. intros H. unfold entry. pose proof (shownRoute_parts (routeOfRow f t (rowOf x))) as (_ & _ & ->). exact H. Qed.
Lemma filter_map {A B} (p : B -> bool) (f : A -> B) l : List.filter p (map f l) = map f (List.filter (fun x => p (f x)) l).
Proof. induction l as [|x l IH]; cbn; [done|]. destruct (p (f x)); cbn; by rewrite IH. Qed.
Lemma split_key (m : table) key : map_to_list m ≡ₚ (match m !! key with Some h => [(key, h)] | None => [] end) ++ map_to_list (delete key m).
Proof. destruct (m !! key) as [h|] eqn:E; [by rewrite <- (map_to_list_delete m key h E)|]. by rewrite delete_id. Qed.
Lemma delete_key (m : table) key x : x ∈ map_to_list (delete key m) -> x.1 <> key.
Proof. destruct x as [k h]. intros H%elem_of_map_to_list E. cbn in E. rewrite E, lookup_delete_eq in H. done. Qed.

Lemma okTable_known k f flag t : okKernel k -> familyFlag f = Ok flag -> forall x, x ∈ map_to_list (tableIn k flag t) -> canonicalRouteDestination f x.1 = x.1.
Proof. intros [Hok _] Hf [d h] H%elem_of_map_to_list. destruct (Hok flag t d h H) as (_ & _ & HC). by rewrite (familyOf_flag _ _ Hf) in HC. Qed.
Lemma own_kernel k f flag t : okKernel k -> familyFlag f = Ok flag ->
  own k f t = match tableIn k flag t !! "default" with Some h => [entry f t ("default", h)] | None => [] end.
Proof.
  intros Hok Hf. pose proof (okTable_known k f flag t Hok Hf) as HC. unfold own. rewrite (shown_kernel k f flag t Hf), filter_map.
  rewrite (filter_ext_elem _ (fun x => x.1 =s "default")) by (intros x Hx; unfold isDefault; by rewrite entry_destination by (by apply HC)).
  assert (HPm : List.filter (fun x => x.1 =s "default") (map_to_list (tableIn k flag t)) ≡ₚ match tableIn k flag t !! "default" with Some h => [("default", h)] | None => [] end).
  { rewrite (split_key (tableIn k flag t) "default"), List.filter_app, (filter_void _ (map_to_list (delete _ _))), app_nil_r.
    - by destruct (tableIn k flag t !! "default").
    - intros x Hx%delete_key. by apply String.eqb_neq. }
  destruct (tableIn k flag t !! "default") as [h|]; [apply Permutation_singleton_r in HPm|apply Permutation_nil_r in HPm]; by rewrite HPm.
Qed.
Lemma others_kernel k f flag t : okKernel k -> familyFlag f = Ok flag ->
  others k f t ≡ₚ map (entry f t) (map_to_list (delete "default" (tableIn k flag t))).
Proof.
  intros Hok Hf. pose proof (okTable_known k f flag t Hok Hf) as HC. unfold others. rewrite (shown_kernel k f flag t Hf), filter_map.
  rewrite (filter_ext_elem _ (fun x => negb (x.1 =s "default"))) by (intros x Hx; unfold isDefault; by rewrite entry_destination by (by apply HC)).
  apply Permutation_map. rewrite (split_key (tableIn k flag t) "default"), List.filter_app.
  rewrite (filter_void _ (match _ with Some _ => _ | None => _ end)) by (intros x; destruct (_ !! _); [intros ->%list_elem_of_singleton; done|by nothing_in]).
  cbn [app]. rewrite (filter_ext_elem _ (fun _ => true)); [clear; by induction (map_to_list _) as [|x l IH]; cbn; [|rewrite IH]|].
  intros x Hx%delete_key. apply negb_true_iff. by apply String.eqb_neq.
Qed.

Lemma okKernel_table flag t m k : okKernel k -> okTable flag m -> okKernel (set_table flag t m k).
Proof. intros [HT HRu] Hm. split; [|done]. intros flag' t'. rewrite tableIn_set. destruct (decide _) as [[= -> ->]|]; [done|apply HT]. Qed.
Lemma okKernel_rules flag l k : okKernel k -> Forall okRule l -> okKernel (set_rules flag l k).
Proof. intros [HT HRu] Hl. split; [done|]. intros flag'. rewrite rulesBy_set. destruct (decide _) as [->|]; [done|apply HRu]. Qed.

(** One table has another default route. *)
Lemma set_table_listings k f flag t m : okKernel k -> okTable flag m -> familyFlag f = Ok flag -> delete "default" m = delete "default" (tableIn k flag t) ->
  otherTables k (set_table flag t m k) f t /\ sameRules k (set_table flag t m k).
Proof.
  intros Hok Hm Hf HD. pose proof (okKernel_table flag t m k Hok Hm) as Hok'. split; [split|].
  - rewrite (others_kernel _ f flag t Hok' Hf), (others_kernel _ f flag t Hok Hf), tableIn_set, decide_True by done. by rewrite HD.
  - intros f' t' Hne. destruct (familyFlag f') as [flag'|e] eqn:E; [|by rewrite !(shown_unknown _ _ _ e)].
    rewrite !(shown_kernel _ f' flag' t' E), tableIn_set, decide_False; [done|]. intros [= -> ->]. apply Hne. by rewrite (flag_inj _ _ _ E Hf).
  - intros f'. done.
Qed.
(** The rules of one family are others. *)
Lemma set_rules_listings k f flag l : familyFlag f = Ok flag -> otherFamilies k (set_rules flag l k) f /\ sameTables k (set_rules flag l k).
Proof.
  intros Hf. split; [|intros f' t'; reflexivity]. intros f' Hne. destruct (familyFlag f') as [flag'|e] eqn:E; [|by rewrite !(listed_unknown _ _ e)].
  rewrite !(listed_kernel _ f' flag' E), rulesBy_set, decide_False; [done|]. intros ->. apply Hne. by rewrite (flag_inj _ _ _ E Hf).
Qed.

(** ** The promises kept *)

Lemma canonicalVia_idempotent v : canonicalVia (canonicalVia v) = canonicalVia v.
Proof.
  unfold canonicalVia. destruct (IP.ParseIP v) as [a|] eqn:E; [|by rewrite E]. by rewrite (IPText.ParseIP_Text a (IPText.ParseIP_valid v a E)).
Qed.
Lemma default_canonical f : canonicalRouteDestination f "default" = "default".
Proof. done. Qed.

(** The words of a route say what the route is. *)
Definition says (f : string) (t : Z) (dest : string) (words : list string) (s : IPStateRoute) : Prop := exists h,
  routeWords words = Some (dest, h, t) /\ okHop h /\ entry f t ("default", h) = s.
Lemma words_said s (words : list string) : 1 <= sr_Table s -> canonicalRouteDestination (sr_Family s) (sr_Destination s) = "default" ->
  writable (canonicalRoute s) = true ->
  words = (if sr_Type s =s "unicast" then [sr_Destination s; "via"; sr_Via s; "dev"; sr_Device s; "table"; pretty (sr_Table s)]
           else if sr_Type s =s "local" then ["local"; sr_Destination s; "dev"; sr_Device s; "table"; pretty (sr_Table s)]
           else ["unreachable"; sr_Destination s; "table"; pretty (sr_Table s)]) ->
  (sr_Type s =s "unicast") || (sr_Type s =s "local") || (sr_Type s =s "unreachable") = true ->
  says (sr_Family s) (sr_Table s) (sr_Destination s) words (shownAs s).
Proof.
  intros Ht Hd HW -> HK. destruct s as [f t dest type via dev]. cbn [sr_Family sr_Table sr_Destination sr_Type sr_Via sr_Device] in *.
  unfold writable, canonicalRoute in HW. cbn [sr_Family sr_Table sr_Destination sr_Type sr_Via sr_Device] in HW. rewrite !andb_true_iff in HW. destruct HW as [[HV HD] HL].
  unfold says, shownAs, shownRoute, canonicalRoute. cbn [sr_Family sr_Table sr_Destination sr_Type sr_Via sr_Device]. rewrite Hd.
  destruct (String.eqb_spec type "unicast") as [->|]; [|destruct (String.eqb_spec type "local") as [->|]; [|destruct (String.eqb_spec type "unreachable") as [->|]; [|done]]];
    eexists; (split; [cbn [routeWords]; rewrite num_pretty by lia; reflexivity|split]).
  - unfold okHop. cbn [h_type h_via h_dev]. split_and!; try done. apply canonicalVia_idempotent.
  - reflexivity.
  - split_and!; done.
  - cbn in HL. unfold S.is_empty in HL. apply String.eqb_eq in HL. cbn. by rewrite HL.
  - split_and!; done.
  - reflexivity.
Qed.
Lemma said_table k flag f t dest words s : okKernel k -> familyFlag f = Ok flag -> canonicalRouteDestination f dest = "default" -> says f t dest words s ->
  exists k', replaceRoute flag words k = (k', ("", None)) /\ okKernel k' /\ own k' f t = [s] /\ otherTables k k' f t /\ sameRules k k'.
Proof.
  intros Hok Hf Hd (h & HW & Hh & <-). unfold replaceRoute. rewrite HW. rewrite (familyOf_flag _ _ Hf), Hd. unfold done. eexists. split; [reflexivity|].
  assert (Hm : okTable flag (<["default" := h]> (tableIn k flag t))).
  { intros d h' [[<- <-]|[_ H]]%lookup_insert_Some; [split; [exact Hh|split; [reflexivity|apply default_canonical]]|by apply (proj1 Hok flag t)]. }
  split; [by apply okKernel_table|]. split.
  - rewrite (own_kernel _ f flag t (okKernel_table _ _ _ _ Hok Hm) Hf), tableIn_set, decide_True, lookup_insert_eq by reflexivity. reflexivity.
  - apply set_table_listings; [done|done|done|]. apply delete_insert_eq.
Qed.
Lemma said_delete k flag f t dest words s : okKernel k -> familyFlag f = Ok flag -> canonicalRouteDestination f dest = "default" -> says f t dest words s ->
  let k' := (deleteRoute flag words k).1 in
  okKernel k' /\ own k' f t = List.filter (fun x => negb (bool_decide (x = s))) (own k f t) /\ otherTables k k' f t /\ sameRules k k'.
Proof.
  intros Hok Hf Hd (h & HW & Hh & <-). unfold deleteRoute. rewrite HW. cbv zeta. rewrite (familyOf_flag _ _ Hf), Hd. rewrite (own_kernel k f flag t Hok Hf).
  destruct (tableIn k flag t !! "default") as [h'|] eqn:E; cbn [List.filter].
  - unfold routeAt. rewrite (familyOf_flag _ _ Hf). destruct (bool_decide (entry f t ("default", h') = entry f t ("default", h))) eqn:EB; cbn [negb fst done failed].
    + assert (Hm : okTable flag (delete "default" (tableIn k flag t))).
      { intros d x H. apply lookup_delete_Some in H as [_ H]. by apply (proj1 Hok flag t). }
      split; [by apply okKernel_table|]. split.
      * rewrite (own_kernel _ f flag t (okKernel_table _ _ _ _ Hok Hm) Hf), tableIn_set, decide_True, lookup_delete_eq by reflexivity. reflexivity.
      * apply set_table_listings; [done|done|done|]. apply delete_delete_eq.
    + split; [done|]. split; [by rewrite (own_kernel k f flag t Hok Hf), E|]. split; [split|]; done.
  - cbn [fst failed]. split; [done|]. split; [by rewrite (own_kernel k f flag t Hok Hf), E|]. split; [split|]; done.
Qed.

Definition listedRule (f : string) (r : krule) : IPStateRule := mkStateRule f (kr_priority r) (markText (kr_mark r)) (kr_table r).
Lemma cutFirst_none c s : Net.has c s = false -> Net.cutFirst c s = None.
Proof.
  unfold Net.has. rewrite negb_false_iff. induction s as [|x s IH]; [done|]. cbn [S.all_bytes Net.cutFirst]. intros [H Hs]%andb_true_iff.
  apply negb_true_iff in H. rewrite H. by rewrite (IH Hs).
Qed.
Lemma ruleOfRow_ok f r : okRule r -> ruleOfRow f (ruleRow r) = listedRule f r.
Proof.
  intros (_ & [Ht Ht'] & Hm & _). unfold ruleOfRow, listedRule, ruleRow. cbn [ur_Priority ur_Table ur_FwMark ruleMarkValue ruleTableInt].
  rewrite Atoi_pretty by done. unfold beforeSlash. by rewrite (cutFirst_none _ _ (mark_noslash _ _ (markNumber_text _ Hm))).
Qed.
Lemma listed_ok k f flag : okKernel k -> familyFlag f = Ok flag -> listed k f = map (listedRule f) (rulesBy k flag).
Proof.
  intros [_ Hok] Hf. rewrite (listed_kernel k f flag Hf). specialize (Hok flag). induction Hok as [|r l Hr _ IH]; [done|]. cbn [map]. by rewrite (ruleOfRow_ok f r Hr), IH.
Qed.
Lemma removeFirst_filter p l : (length (List.filter (fun r => (kr_priority r =? p)%Z) l) <= 1)%nat -> removeFirst p l = List.filter (fun r => negb (kr_priority r =? p)) l.
Proof.
  induction l as [|r l IH]; cbn [removeFirst List.filter]; [done|]. destruct (kr_priority r =? p) eqn:E; cbn [negb length]; intros H; [|by rewrite IH].
  assert (HN : List.filter (fun r => kr_priority r =? p) l = []) by (destruct (List.filter _ l); [done|cbn in H; lia]).
  clear -HN. induction l as [|x l IH]; [done|]. cbn [List.filter] in *. destruct (kr_priority x =? p); [done|]. cbn [negb]. by rewrite <- IH.
Qed.
Lemma rulesAt_kernel k f flag p : okKernel k -> familyFlag f = Ok flag -> rulesAt k f p = map (listedRule f) (List.filter (fun r => kr_priority r =? p) (rulesBy k flag)).
Proof. intros Hok Hf. unfold rulesAt. by rewrite (listed_ok k f flag Hok Hf), filter_map. Qed.
Lemma markWords_mark mark mask : validMark mark = true -> mask = "" \/ mask = "/0xffffffff" ->
  exists n, markWords (mark +:+ mask) = Some (n, None) /\ 0 < n < 2 ^ 32 /\ markText n = canonicalMark mark.
Proof.
  intros Hv Hmask. destruct (validMark_number mark Hv) as (n & En & Ec). exists n. split; [|split; [by eapply markNumber_range|done]].
  pose proof (mark_noslash _ _ En) as Hs. unfold markWords. destruct Hmask as [-> | ->].
  - rewrite str_app_empty_r, (cutFirst_none _ _ Hs), En. reflexivity.
  - change "/0xffffffff" with (String slash "0xffffffff"). rewrite (cutFirst_app slash mark "0xffffffff" Hs), En. reflexivity.
Qed.
Lemma okKernel_filter k flag (p : krule -> bool) : okKernel k -> Forall okRule (List.filter p (rulesBy k flag)).
Proof. intros [_ Hok]. specialize (Hok flag). rewrite Forall_forall in *. intros r [Hr _]%elem_of_filter_b. by apply Hok. Qed.

Lemma kernel_rule_del k f flag p : okKernel k -> familyFlag f = Ok flag -> 1 <= p <= int64_max -> (length (rulesAt k f p) <= 1)%nat ->
  let k' := (run "ip" (ruleDelArgs flag p) k).1 in
  okKernel k' /\ listed k' f ≡ₚ List.filter (fun r => negb (atPriority p r)) (listed k f) /\ otherFamilies k k' f /\ sameTables k k'.
Proof.
  intros Hok Hf Hp Hs. rewrite (rulesAt_kernel k f flag p Hok Hf), length_map in Hs.
  change ((run "ip" (ruleDelArgs flag p) k).1) with (set_rules flag (removeFirst (num (pretty p)) (rulesBy k flag)) k).
  rewrite num_pretty, (removeFirst_filter p _ Hs) by lia. cbv zeta.
  assert (Hok' : okKernel (set_rules flag (List.filter (fun r => negb (kr_priority r =? p)) (rulesBy k flag)) k)) by (by apply okKernel_rules, okKernel_filter).
  split; [done|]. split; [|by apply set_rules_listings]. rewrite (listed_ok _ f flag Hok' Hf), (listed_ok k f flag Hok Hf), rulesBy_set, decide_True by done.
  by rewrite filter_map.
Qed.
Lemma kernel_rule_add k f flag p mark mask t : okKernel k -> familyFlag f = Ok flag -> 1 <= p <= int64_max -> 1 <= t <= int64_max -> validMark mark = true ->
  mask = "" \/ mask = "/0xffffffff" -> exists k' raw, run "ip" (ruleAddArgs flag p (mark +:+ mask) t) k = (k', (raw, None)) /\ okKernel k' /\
  listed k' f ≡ₚ mkStateRule f p (canonicalMark mark) t :: listed k f /\ otherFamilies k k' f /\ sameTables k k'.
Proof.
  intros Hok Hf Hp Ht Hv Hmask. destruct (markWords_mark mark mask Hv Hmask) as (n & EW & Hn & Et).
  set (rule := mkKRule p n t None).
  assert (E : run "ip" (ruleAddArgs flag p (mark +:+ mask) t) k = done (set_rules flag (rulesBy k flag ++ [rule]) k)).
  { change (run "ip" (ruleAddArgs flag p (mark +:+ mask) t) k) with
      (match markWords (mark +:+ mask) with
       | Some (n, m) => done (set_rules flag (rulesBy k flag ++ [mkKRule (num (pretty p)) n (num (pretty t)) m]) k)
       | None => failed k "invalid fwmark" end).
    rewrite EW, !num_pretty by lia. reflexivity. }
  assert (Hr : okRule rule) by (unfold okRule, inRange, rule; cbn; split_and!; try lia; done).
  assert (Hok' : okKernel (set_rules flag (rulesBy k flag ++ [rule]) k)).
  { apply okKernel_rules; [done|]. apply Forall_app. split; [apply Hok|by constructor]. }
  eexists _, _. split; [exact E|]. split; [exact Hok'|]. split; [|by apply set_rules_listings].
  rewrite (listed_ok _ f flag Hok' Hf), (listed_ok k f flag Hok Hf), rulesBy_set, decide_True by reflexivity. rewrite map_app. cbn [map].
  unfold listedRule at 2. cbn [rule kr_priority kr_mark kr_table]. rewrite Et. by rewrite <- Permutation_cons_append.
Qed.

#[export] Instance kernel_iproute : Iproute kernel run "ip" "uci".
Proof.
  refine {| listing := kernel_listing; ok := okKernel |}.
  - done.
  - intros k f t Hok. destruct (familyFlag f) as [flag|e] eqn:Hf; [|rewrite (shown_unknown _ _ _ e Hf); constructor].
    rewrite (shown_kernel k f flag t Hf), map_map.
    assert (E : map (fun x => sr_Destination (entry f t x)) (map_to_list (tableIn k flag t)) = (map_to_list (tableIn k flag t)).*1).
    { apply list_fmap_ext. intros i x Hx. apply entry_destination, (okTable_known k f flag t Hok Hf). by eapply list_elem_of_lookup_2. }
    rewrite E. apply NoDup_fst_map_to_list.
  - intros k f t row Hok Hrow. cbn [tableOf kernel_listing] in Hrow. destruct (familyFlag f) as [flag|] eqn:Hf; [|by apply elem_of_nil in Hrow].
    apply elem_of_map in Hrow as ([d h] & -> & Hx). apply elem_of_map_to_list in Hx. destruct (proj1 Hok flag t d h Hx) as ((HC & HV & HD & _ & HL & _) & _ & _).
    cbn [rowOf rr_Gateway fst snd]. split; [exact HC|]. unfold writable, routeOfRow, rowOf, typeKind. cbn [sr_Via sr_Device sr_Type rr_Gateway rr_Dev rr_Type fst snd].
    rewrite HV, HD. cbn [andb]. destruct (String.eqb_spec (h_type h) "local") as [El|Nl]; [rewrite (HL El), El; reflexivity|]. cbn [orb].
    destruct (String.eqb_spec (h_type h) "unreachable") as [->|]; reflexivity.
  - intros k f r Hok Hr _. destruct (familyFlag f) as [flag|e] eqn:Hf; [|rewrite (listed_unknown _ _ e Hf) in Hr; by apply elem_of_nil in Hr].
    rewrite (listed_ok k f flag Hok Hf) in Hr. apply elem_of_map in Hr as (x & -> & Hx). apply canonicalMark_text.
    pose proof (proj1 (Forall_forall _ _) (proj2 Hok flag) x Hx) as (_ & _ & Hm & _). exact Hm.
  - intros k f flag t Hok Hf Ht.
    assert (E : run "ip" (showRoutesArgs flag t) k = match kn_tables k !! (flag, t) with
      | Some m => (k, (tableText m, None)) | None => failed k "Error: FIB table does not exist. Dump terminated" end).
    { change (run "ip" (showRoutesArgs flag t) k) with (match kn_tables k !! (flag, num (pretty t)) with
      | Some m => (k, (tableText m, None)) | None => failed k "Error: FIB table does not exist. Dump terminated" end). by rewrite num_pretty by lia. }
    rewrite E. cbn [tableOf kernel_listing]. rewrite Hf. unfold tableIn. destruct (kn_tables k !! (flag, t)) as [m|] eqn:Em.
    + exists (tableText m), None. split; [reflexivity|]. intros Hlen. cbn [default]. apply (tableText_rows flag); [|exact Hlen].
      pose proof (proj1 Hok flag t) as HT. unfold tableIn in HT. by rewrite Em in HT.
    + eexists "", _. split; [reflexivity|]. split; reflexivity.
  - intros k f flag Hok Hf. exists (rulesText (rulesBy k flag)). split; [reflexivity|]. intros Hlen. cbn [rulesOf kernel_listing]. rewrite Hf.
    apply rulesText_rows; [apply Hok|exact Hlen].
  - intros k s flag args Hok Hf HA Ht Hd HW.
    assert (exists words, args = flag :: "route" :: "replace" :: words /\ says (sr_Family s) (sr_Table s) (sr_Destination s) words (shownAs s)) as (words & -> & HS).
    { unfold routeReplaceArgs in HA. cbv zeta in HA. pose proof (fun w => words_said s w Ht Hd HW) as HS.
      destruct (sr_Type s =s "unicast"); [|destruct (sr_Type s =s "local"); [|destruct (sr_Type s =s "unreachable"); [|done]]];
        repeat case_match; try done; injection HA as <-; eexists; (split; [reflexivity|]); by apply HS. }
    destruct (said_table k flag _ _ _ words _ Hok Hf Hd HS) as (k' & E & H). exists k', "". split; [exact E|]. tauto.
  - intros k r flag args Hok Hf HA Ht Hd HW.
    assert (exists words, args = flag :: "route" :: "del" :: words /\ says (ip_Family r) (ip_Table r) (ip_Destination r) words (shownAs (plannedRoute r))) as (words & -> & HS).
    { unfold routeDeleteArgs in HA. cbv zeta in HA. pose proof (fun w => words_said (plannedRoute r) w Ht Hd HW) as HS. cbn [plannedRoute sr_Family sr_Table sr_Destination sr_Type sr_Via sr_Device] in HS.
      destruct (ip_Type r =s "unicast"); [|destruct (ip_Type r =s "local"); [|destruct (ip_Type r =s "unreachable"); [|done]]];
        injection HA as <-; eexists; (split; [reflexivity|]); by apply HS. }
    exact (said_delete k flag _ _ _ words _ Hok Hf Hd HS).
  - exact kernel_rule_del.
  - intros k f flag p mark mask t Hok Hf Hp Ht Hv Hm _. by apply kernel_rule_add.
  - intros k args Hok. split; [exact Hok|]. reflexivity.
Defined.

(** ** The size of a listing *)

Definition sum (l : list Z) : Z := fold_right Z.add 0 l.
Lemma sum_perm l l' : l ≡ₚ l' -> sum l = sum l'.
Proof. unfold sum. induction 1; cbn [fold_right] in *; lia. Qed.
Lemma sum_le {A} (f g : A -> Z) l : (forall x, x ∈ l -> f x <= g x) -> sum (map f l) <= sum (map g l).
Proof.
  unfold sum. intros H. induction l as [|x l IH]; cbn [map fold_right]; [done|]. specialize (H x ltac:(left)) as Hx.
  specialize (IH (fun y Hy => H y ltac:(by right))). lia.
Qed.
(** The lengths of literal strings. *)
Ltac literal_lengths :=
  repeat match goal with |- context [S.len (String ?c ?s)] =>
    let n := eval vm_compute in (S.len (String c s)) in
    lazymatch n with Z0 => idtac | Zpos _ => idtac end; change (S.len (String c s)) with n end.
(** More than the row of a route, and of a rule, takes. *)
Definition routeWeight (s : IPStateRoute) : Z := 64 + S.len (sr_Type s) + S.len (sr_Destination s) + S.len (sr_Via s) + S.len (sr_Device s).
Definition ruleWeight (r : IPStateRule) : Z := 100 + S.len (pretty (su_Priority r)) + S.len (su_Mark r) + S.len (pretty (su_Table r)).

Lemma arr_len l w : (forall x, x ∈ l -> S.len (print x) + 1 <= w x) -> S.len (print (TArr l)) <= 2 + sum (map w l).
Proof.
  intros H. change (print (TArr l)) with ("[" +:+ S.Join (map print l) "," +:+ "]"). rewrite !len_app. change (S.len "[") with 1. change (S.len "]") with 1.
  assert (HJ : S.len (S.Join (map print l) ",") <= sum (map w l)); [|lia].
  clear -H. induction l as [|x [|y l] IH]; [done| |].
  - cbn [map sum fold_right]. change (S.Join [print x] ",") with (print x). specialize (H x ltac:(left)). lia.
  - cbn [map]. change (S.Join (print x :: print y :: map print l) ",") with (print x +:+ "," +:+ S.Join (map print (y :: l)) ","). rewrite !len_app. change (S.len ",") with 1.
    specialize (IH (fun z Hz => H z ltac:(by right))). specialize (H x ltac:(left)). cbn [map sum fold_right] in *. lia.
Qed.
Lemma rowJSON_len f t d h : okHop h -> canonicalRouteDestination f d = d -> S.len (print (rowJSON d h)) + 1 <= routeWeight (entry f t (d, h)).
Proof.
  intros (_ & _ & _ & Hty & _ & Hun) Hd.
  assert (E : routeWeight (entry f t (d, h)) = 64 + S.len (h_type h) + S.len d + S.len (h_via h) + S.len (h_dev h)).
  { unfold entry, shownRoute, routeOfRow, rowOf, typeKind, routeWeight. cbn [sr_Family sr_Table sr_Destination sr_Type sr_Via sr_Device rr_Dst rr_Gateway rr_Dev rr_Type fst snd].
    apply containsString_true in Hty. rewrite Hd.
    apply elem_of_cons in Hty as [E|[E|E%list_elem_of_singleton]%elem_of_cons]; rewrite E; try reflexivity. destruct (Hun E) as [-> ->]. reflexivity. }
  rewrite E. unfold rowJSON. cbn [print map fst snd]. unfold quoted. change (S.Join [?a; ?b; ?c; ?d] ",") with (a +:+ "," +:+ b +:+ "," +:+ c +:+ "," +:+ d).
  rewrite !len_app. assert (HQ : forall s : string, S.len (String quote_byte s) = 1 + S.len s) by (intros s; unfold S.len; cbn [String.length]; lia).
  rewrite !HQ, !len_app. change (S.len (String quote_byte "")) with 1. literal_lengths. lia.
Qed.
Lemma ruleJSON_len f r : okRule r -> S.len (print (ruleJSON r)) + 1 <= ruleWeight (listedRule f r).
Proof.
  intros (_ & _ & _ & Hmask). unfold ruleWeight, listedRule. cbn [su_Priority su_Mark su_Table].
  assert (HQ : forall s : string, S.len (String quote_byte s) = 1 + S.len s) by (intros s; unfold S.len; cbn [String.length]; lia).
  assert (HM : forall m, kr_mask r = Some m -> S.len (markText m) <= 10).
  { intros m _. unfold markText. rewrite len_app. destruct (hexText_len 8 m "") as [_ H]. change (S.len "") with 0 in H. change (Z.of_nat 8) with 8 in H.
    literal_lengths. lia. }
  unfold ruleJSON. destruct (kr_mask r) as [m|]; cbn [app print map fst snd]; unfold quoted; [specialize (HM m eq_refl)|].
  - change (S.Join [?a; ?b; ?c; ?d; ?e] ",") with (a +:+ "," +:+ b +:+ "," +:+ c +:+ "," +:+ d +:+ "," +:+ e).
    rewrite !len_app, !HQ, !len_app. change (S.len (String quote_byte "")) with 1. literal_lengths. lia.
  - change (S.Join [?a; ?b; ?c; ?d] ",") with (a +:+ "," +:+ b +:+ "," +:+ c +:+ "," +:+ d).
    rewrite !len_app, !HQ, !len_app. change (S.len (String quote_byte "")) with 1. literal_lengths. lia.
Qed.

Definition room : Z := maxIPStateJSONBytes - 2.
Lemma kernel_fits k : okKernel k -> (forall f t, sum (map routeWeight (shown k f t)) <= room) ->
  (forall f, sum (map ruleWeight (listed k f)) <= room) -> fits run "ip" k.
Proof.
  intros Hok HT HRu f flag Hf. split.
  - intros t. assert (E : (run "ip" (showRoutesArgs flag t) k).2.1 = match kn_tables k !! (flag, num (pretty t)) with Some m => tableText m | None => "" end).
    { change (run "ip" (showRoutesArgs flag t) k) with (match kn_tables k !! (flag, num (pretty t)) with
        | Some m => (k, (tableText m, None)) | None => failed k "Error: FIB table does not exist. Dump terminated" end). by destruct (kn_tables k !! _). }
    rewrite E. specialize (HT f (num (pretty t))). rewrite (shown_kernel k f flag _ Hf) in HT.
    pose proof (proj1 Hok flag (num (pretty t))) as HO. unfold tableIn in HT, HO. destruct (kn_tables k !! (flag, num (pretty t))) as [m|]; [|done]. change (default ∅ (Some m)) with m in HT, HO.
    assert (HL : S.len (tableText m) <= 2 + sum (map routeWeight (map (entry f (num (pretty t))) (map_to_list m)))); [|unfold room in HT; lia].
    unfold tableText. etrans.
    + apply (arr_len (map (fun x => rowJSON x.1 x.2) (map_to_list m)) (fun v => S.len (print v) + 1)). intros; apply Z.le_refl.
    + rewrite !map_map. apply Z.add_le_mono_l, sum_le. intros [d h] Hx%elem_of_map_to_list. destruct (HO d h Hx) as (Hh & _ & Hd).
      rewrite (familyOf_flag _ _ Hf) in Hd. by apply rowJSON_len.
  - change ((run "ip" [flag; "-j"; "rule"; "show"] k).2.1) with (rulesText (rulesBy k flag)). specialize (HRu f). rewrite (listed_ok k f flag Hok Hf) in HRu.
    assert (HL : S.len (rulesText (rulesBy k flag)) <= 2 + sum (map ruleWeight (map (listedRule f) (rulesBy k flag)))); [|unfold room in HRu; lia].
    unfold rulesText. etrans; [apply (arr_len (map ruleJSON (rulesBy k flag)) (fun v => S.len (print v) + 1)); intros; apply Z.le_refl|].
    rewrite !map_map. apply Z.add_le_mono_l, sum_le. intros r Hr. apply ruleJSON_len. exact (proj1 (Forall_forall _ _) (proj2 Hok flag) r Hr).
Qed.
(** So do the states that list the same. *)
Lemma same_fits k k' : okKernel k' -> sameState k' k -> (forall f t, sum (map routeWeight (shown k f t)) <= room) ->
  (forall f, sum (map ruleWeight (listed k f)) <= room) -> fits run "ip" k'.
Proof.
  intros Hok [HT HRu] H1 H2. apply kernel_fits; [done| |].
  - intros f t. rewrite (sum_perm _ _ (Permutation_map routeWeight (HT f t))). apply H1.
  - intros f. rewrite (sum_perm _ _ (Permutation_map ruleWeight (HRu f))). apply H2.
Qed.
End Kernel.
