(* ===== verification/DataplaneExamples.v ===== *)
(** * Routing state of concrete deployments

    The theorems on applying, verifying and rolling back applied to the plan of
    the small installation on the kernel of [DataplaneKernel], and states in which
    the code does not do what it means to. *)
From Stdlib Require Import ZArith Lia.
From stdpp Require Import base list strings gmap pretty.
From S2P Require Import Prelude Net Config Json NetProofs Validation ValidationProofs ValidationStable Artifact ArtifactProofs ArtifactExamples JsonText JsonTextProofs.
From S2P Require Import Effects Dataplane DataplaneProofs DataplaneSteps DataplaneRollback DataplaneActive DataplaneKernel.

Open Scope Z_scope.
Import Kernel.

(** Before the deployment: a default route and a rule of an earlier revision, and
    the tables and rules of the system. *)
Definition ex_kernel : kernel := mkKernel
  {[ ("-4", 100) := {[ "default" := mkHop "unicast" "192.0.2.9" "eth0" ]};
     ("-4", 254) := {[ "default" := mkHop "unicast" "192.0.2.254" "eth1"; "192.0.2.0/24" := mkHop "unicast" "" "eth1" ]};
     ("-6", 102) := {[ "default" := mkHop "local" "" "lo" ]} ]}
  {[ "-4" := [mkKRule 500 7 254 None; mkKRule 10010 65 100 None]; "-6" := [mkKRule 10000 49 102 None] ]}.
Definition ex_plan : IPPlan := planOf ex_site.
Definition ex_snapshot : IPStateSnapshot :=
  match (SnapshotIPState run id "ip" ex_plan ex_kernel).2 with Ok snap => snap | Err _ => mkSnapshot [] [] end.
(** From the first route of table 102 on, nothing works but the removal of rules. *)
Definition ex_failing (name : string) (args : list string) (k : kernel) : reply :=
  if negb (isRuleDel args) && containsString args "local" then failed k "RTNETLINK answers: Operation not permitted" else run name args k.

Lemma okTable_empty flag : okTable flag ∅.
Proof. intros d h H. by rewrite lookup_empty in H. Qed.
(** [ok] and the size of a listing, for the tables and rules there are. *)
Lemma tables_all (P : string -> Z -> table -> Prop) (k : kernel) : (forall flag t, P flag t ∅) ->
  Forall (fun x => P x.1.1 x.1.2 x.2) (map_to_list (kn_tables k)) -> forall flag t, P flag t (tableIn k flag t).
Proof.
  intros H0 HF flag t. unfold tableIn. destruct (kn_tables k !! (flag, t)) as [m|] eqn:E; [|apply H0]. apply elem_of_map_to_list in E.
  exact (proj1 (Forall_forall _ _) HF _ E).
Qed.
Lemma rules_all (P : string -> list krule -> Prop) (k : kernel) : (forall flag, P flag []) ->
  Forall (fun x => P x.1 x.2) (map_to_list (kn_rules k)) -> forall flag, P flag (rulesBy k flag).
Proof.
  intros H0 HF flag. unfold rulesBy. destruct (kn_rules k !! flag) as [l|] eqn:E; [|apply H0]. apply elem_of_map_to_list in E.
  exact (proj1 (Forall_forall _ _) HF _ E).
Qed.
(** The same, decided. *)
Definition okHopb (h : hop) : bool :=
  (canonicalVia (h_via h) =s h_via h) && S.all_bytes printable (h_via h) && S.all_bytes printable (h_dev h)
  && containsString ["unicast"; "local"; "unreachable"] (h_type h) && ((h_type h <>s "local") || S.is_empty (h_via h))
  && ((h_type h <>s "unreachable") || (S.is_empty (h_via h) && S.is_empty (h_dev h))).
Definition okTableb (flag : string) (m : table) : bool :=
  forallb (fun x => okHopb x.2 && S.all_bytes printable x.1 && (canonicalRouteDestination (familyOf flag) x.1 =s x.1)) (map_to_list m).
Definition okRuleb (r : krule) : bool :=
  (0 <=? kr_priority r) && (kr_priority r <=? int64_max) && (0 <=? kr_table r) && (kr_table r <=? int64_max)
  && (0 <? kr_mark r) && (kr_mark r <? 2 ^ 32) && match kr_mask r with Some m => (0 <? m) && (m <? 2 ^ 32) | None => true end.
Definition okKernelb (k : kernel) : bool :=
  forallb (fun x => okTableb x.1.1 x.2) (map_to_list (kn_tables k)) && forallb (fun x => forallb okRuleb x.2) (map_to_list (kn_rules k)).
Definition roomb (k : kernel) : bool :=
  forallb (fun x => forallb (fun f => sum (map routeWeight (map (entry f x.1.2) (map_to_list x.2))) <=? room) ["ipv4"; "ipv6"]) (map_to_list (kn_tables k))
  && forallb (fun f => sum (map ruleWeight (listed k f)) <=? room) ["ipv4"; "ipv6"].

Lemma forallb_Forall {A} (p : A -> bool) (P : A -> Prop) l : (forall x, p x = true -> P x) -> forallb p l = true -> Forall P l.
Proof. intros H HF. rewrite forallb_forall in HF. apply Forall_forall. intros x Hx. apply H, HF. by rewrite <- list_elem_of_In. Qed.
Lemma okHopb_ok h : okHopb h = true -> okHop h.
Proof.
  unfold okHopb, okHop. rewrite !andb_true_iff, !orb_true_iff, !negb_true_iff, !String.eqb_eq, !String.eqb_neq. unfold S.is_empty. rewrite !andb_true_iff, !String.eqb_eq.
  intros (((((H1 & H2) & H3) & H4) & H5) & H6). split_and!; try done; intros E; [destruct H5|destruct H6]; done.
Qed.
Lemma okTableb_ok flag m : okTableb flag m = true -> okTable flag m.
Proof.
  intros H. assert (HF : Forall (fun x => okHop x.2 /\ S.all_bytes printable x.1 = true /\ canonicalRouteDestination (familyOf flag) x.1 = x.1) (map_to_list m)).
  { revert H. apply forallb_Forall. intros x. rewrite !andb_true_iff, String.eqb_eq. intros [[Hh Hp] Hc]. split_and!; try done. by apply okHopb_ok. }
  intros d h Hd. apply elem_of_map_to_list in Hd. exact (proj1 (Forall_forall _ _) HF _ Hd).
Qed.
Lemma okRuleb_ok r : okRuleb r = true -> okRule r.
Proof.
  unfold okRuleb, okRule, inRange. rewrite !andb_true_iff, !Z.leb_le, !Z.ltb_lt. intros ((((((H1 & H2) & H3) & H4) & H5) & H6) & H7).
  split_and!; try done. intros m Em. rewrite Em, andb_true_iff, !Z.ltb_lt in H7. done.
Qed.
Lemma okKernelb_ok k : okKernelb k = true -> okKernel k.
Proof.
  unfold okKernelb. rewrite andb_true_iff. intros [HT HRu]. split.
  - apply (tables_all (fun flag _ => okTable flag)); [intros; apply okTable_empty|]. revert HT. apply forallb_Forall. intros x. apply okTableb_ok.
  - apply (rules_all (fun _ => Forall okRule)); [constructor|]. revert HRu. apply forallb_Forall. intros x. apply forallb_Forall. apply okRuleb_ok.
Qed.
Lemma roomb_ok k : roomb k = true -> (forall f t, sum (map routeWeight (shown k f t)) <= room) /\ (forall f, sum (map ruleWeight (listed k f)) <= room).
Proof.
  unfold roomb. rewrite andb_true_iff. intros [HT HRu].
  assert (HK : forall f flag, familyFlag f = Ok flag -> f ∈ ["ipv4"; "ipv6"]).
  { intros f flag [[-> _]|[-> _]]%flag_cases; [left|right; left]. }
  split; [intros f t|intros f]; (destruct (familyFlag f) as [flag|e] eqn:Hf; [|rewrite ?(shown_unknown _ _ _ e Hf), ?(listed_unknown _ _ e Hf); vm_compute; discriminate]).
  - rewrite (shown_kernel _ f flag t Hf).
    refine (tables_all (fun _ t' m => forall f', f' ∈ ["ipv4"; "ipv6"] -> sum (map routeWeight (map (entry f' t') (map_to_list m))) <= room) k _ _ flag t f (HK f flag Hf)).
    + intros _ t' f' _. vm_compute. discriminate.
    + revert HT. apply forallb_Forall. intros x Hx f' Hf'. rewrite forallb_forall in Hx. apply Z.leb_le, Hx. by rewrite <- list_elem_of_In.
  - rewrite forallb_forall in HRu. apply Z.leb_le, HRu. rewrite <- list_elem_of_In. by eapply HK.
Qed.
Lemma roomb_fits k : okKernelb k = true -> roomb k = true -> fits run "ip" k.
Proof. intros Hok [H1 H2]%roomb_ok. apply kernel_fits; [by apply okKernelb_ok|done|done]. Qed.

Lemma ex_kernel_ok : okKernel ex_kernel.
Proof. apply okKernelb_ok. vm_compute. reflexivity. Qed.
Lemma ex_kernel_room : (forall f t, sum (map routeWeight (shown ex_kernel f t)) <= room) /\ (forall f, sum (map ruleWeight (listed ex_kernel f)) <= room).
Proof. apply roomb_ok. vm_compute. reflexivity. Qed.
Lemma ex_kernel_fits k : ok k -> sameState k ex_kernel -> fits run "ip" k.
Proof. intros Hok HS. destruct ex_kernel_room as [H1 H2]. by apply (same_fits ex_kernel). Qed.

Lemma ex_plan_int : intPlan ex_plan.
Proof.
  intros r Hr. assert (E : forallb (fun r => (ir_Priority r <=? int64_max) && (ir_Table r <=? int64_max)) (pn_IPRules ex_plan) = true) by (vm_compute; reflexivity).
  rewrite forallb_forall in E. specialize (E r). rewrite <- list_elem_of_In in E. specialize (E Hr). apply andb_true_iff in E. lia.
Qed.
Lemma ex_plan_loaded : checkIPPlan ex_hash ex_plan ex_binding = Ok ex_plan.
Proof. vm_compute. reflexivity. Qed.
Lemma ex_plan_ready : pn_DeploymentReady ex_plan = true.
Proof. vm_compute. reflexivity. Qed.
Lemma ex_captured : SnapshotIPState run id "ip" ex_plan ex_kernel = (ex_kernel, Ok ex_snapshot).
Proof. vm_compute. reflexivity. Qed.
Lemma ex_restorable : restorable ex_snapshot = true.
Proof. vm_compute. reflexivity. Qed.
Lemma ex_interrupted : interrupted (run := run) ex_failing.
Proof.
  intros name args k. unfold ex_failing. destruct (isRuleDel args) eqn:E; [by left|]. destruct (containsString args "local"); [|by left].
  right. split; [done|]. by eexists _, _.
Qed.


(** Nothing but listings is allowed; where nothing was installed a rollback has
    nothing to do. *)
Definition ex_empty : kernel := mkKernel ∅ ∅.
Definition ex_readonly (name : string) (args : list string) (k : kernel) : reply :=
  if reads args then run name args k else failed k "Operation not permitted".
Lemma ex_empty_ok : okKernel ex_empty.
Proof. apply okKernelb_ok. reflexivity. Qed.
Lemma ex_empty_fits : fits run "ip" ex_empty.
Proof. apply roomb_fits; reflexivity. Qed.
Lemma ex_readonly_honest : honest (run := run) (ip := "ip") (uci := "uci") ex_readonly.
Proof.
  split; [intros args k E; unfold ex_readonly; by rewrite E|].
  intros name args k Hok. unfold ex_readonly. destruct (reads args) eqn:E; [|exact Hok].
  destruct args as [|flag [|j words]]; [done|done|]. cbn [reads] in E. unfold run. destruct (name =s "ip"); [|exact Hok]. rewrite E. unfold runShow.
  repeat case_match; exact Hok.
Qed.
Lemma rollback_never_lies_witness :
  RollbackIPState ex_readonly id "ip" ex_plan (mkSnapshot [] []) ex_empty = (ex_empty, Ok ()) /\ restored ex_plan ex_empty ex_empty.
Proof.
  assert (E : RollbackIPState ex_readonly id "ip" ex_plan (mkSnapshot [] []) ex_empty = (ex_empty, Ok ())) by (vm_compute; reflexivity).
  assert (ES : SnapshotIPState run id "ip" ex_plan ex_empty = (ex_empty, Ok (mkSnapshot [] []))) by (vm_compute; reflexivity).
  split; [exact E|].
  exact (rollback_never_lies ex_hash id id (fun l => reflexivity l) (fun l => reflexivity l) ex_readonly ex_plan ex_plan ex_binding ex_empty ex_empty
    (mkSnapshot [] []) ex_empty ex_empty ex_readonly_honest ex_plan_int ex_plan_loaded ex_plan_ready ex_empty_ok ex_empty_fits ES ex_empty_ok E ex_empty_fits).
Defined.

Lemma ex_uci : uciWorks (run := run) (ip := "ip") (uci := "uci").
Proof. split; [done|]. intros args k _. by eexists _, _. Qed.
Lemma ex_plan_usual : usualForm ex_plan.
Proof.
  split.
  - intros r Hr. assert (E : forallb (fun r => canonicalVia (ip_Via r) =s ip_Via r) (pn_Routes ex_plan) = true) by (vm_compute; reflexivity).
    rewrite forallb_forall in E. apply String.eqb_eq, E. by rewrite <- list_elem_of_In.
  - intros r Hr. assert (E : forallb (fun r => canonicalMark (ir_Mark r) =s ir_Mark r) (pn_IPRules ex_plan) = true) by (vm_compute; reflexivity).
    rewrite forallb_forall in E. apply String.eqb_eq, E. by rewrite <- list_elem_of_In.
Qed.
Lemma applied_plan_verifies_witness :
  exists k1, ApplyIPPlanWithUCI run "ip" "uci" ex_plan ex_kernel = (k1, Ok ()) /\ installed ex_plan k1 /\
    (VerifyAppliedIPPlan run id "ip" ex_plan k1).2 = Ok ().
Proof.
  destruct (applied_plan_verifies ex_hash id id (fun l => reflexivity l) (fun l => reflexivity l) ex_plan ex_plan ex_binding ex_kernel ex_kernel ex_snapshot
    ex_plan_int ex_plan_loaded ex_plan_ready ex_uci ex_plan_usual ex_kernel_ok (ex_kernel_fits _ ex_kernel_ok (reflexivity _)) ex_captured) as (k1 & E & HI & _).
  exists k1. split; [exact E|]. split; [exact HI|].
  assert (Ek : k1 = (ApplyIPPlanWithUCI run "ip" "uci" ex_plan ex_kernel).1) by (by rewrite E).
  rewrite Ek. vm_compute. reflexivity.
Defined.

(** The owned tables exist and are empty; a rule of the system is left alone. *)
Definition ex_removed : kernel := mkKernel
  {[ ("-4", 100) := ∅; ("-4", 101) := ∅; ("-4", 102) := ∅; ("-6", 100) := ∅; ("-6", 101) := ∅; ("-6", 102) := ∅ ]}
  {[ "-4" := [mkKRule 500 7 254 None] ]}.
Lemma ex_removed_ok : okKernel ex_removed.
Proof. apply okKernelb_ok. vm_compute. reflexivity. Qed.
Lemma ex_removed_fits : fits run "ip" ex_removed.
Proof. apply roomb_fits; vm_compute; reflexivity. Qed.
Lemma nothing_owned_left_witness :
  verifyNoOwnedCommand run id "ip" ex_site ex_removed = (ex_removed, Ok ()) /\ shown ex_removed "ipv4" 102 = [] /\
  Forall (fun r => ~ (10000 <= su_Priority r <= 20099)) (listed ex_removed "ipv4").
Proof.
  assert (E : verifyNoOwnedCommand run id "ip" ex_site ex_removed = (ex_removed, Ok ())) by (vm_compute; reflexivity).
  split; [exact E|].
  destruct (@nothing_owned_left kernel run "ip" "uci" kernel_iproute id (fun l => reflexivity l) ex_site ex_removed ex_removed eq_refl ex_removed_ok ex_removed_fits E "ipv4" (or_introl eq_refl)) as [HR HT].
  split; [apply (HT 102); [lia|right; right; left]|]. apply Forall_forall. intros r Hr. by destruct (HR r Hr).
Defined.

(** ** Where the code does not do what it means to *)

(** A snapshot takes a table the kernel does not know for an empty one, the check
    before an uninstallation fails on it: where nothing was ever installed, the
    uninstallation is refused as unverified. *)
Theorem unknown_tables_block_uninstall :
  SnapshotIPState run id "ip" ex_plan ex_empty = (ex_empty, Ok (mkSnapshot [] [])) /\
  verifyNoOwnedCommand run id "" ex_site ex_empty
    = (ex_empty, Err "verify ipv4 route table 101: Error: FIB table does not exist. Dump terminated").
Proof. split; vm_compute; reflexivity. Qed.

(** A snapshot does not keep the mask of a mark: a rule for [0x41/0xff00] that stood
    at a priority of the plan comes back for the whole mark, and the rollback is
    verified. *)
Definition ex_masked : kernel := mkKernel ∅ {[ "-4" := [mkKRule 10010 65 100 (Some 65280)] ]}.
Theorem rollback_loses_masks :
  let '(k1, pre) := SnapshotIPState run id "ip" ex_plan ex_masked in
  let '(k2, applied) := ApplyIPPlanWithUCI run "ip" "uci" ex_plan k1 in
  match pre with
  | Ok pre =>
      let '(k3, back) := RollbackIPState run id "ip" ex_plan pre k2 in
      applied = Ok () /\ back = Ok () /\ map kr_mask (rulesBy ex_masked "-4") = [Some 65280] /\ map kr_mask (rulesBy k3 "-4") = [None]
  | Err _ => False
  end.
Proof. vm_compute. done. Qed.

(** A mark may be written with leading zeros or in capitals; the kernel lists it
    without, and a plan with such a mark is never found active. *)
Definition ex_padded : Config :=
  ex_home (Build_OpenWrt "openwrt" "router_policy" "inet" "" "" 100 101 102 "0x010" "0x20" "0x30" "0x31" "0x32" "0x40" "disable" 10 120) ex_routes_full ex_services.
Theorem padded_mark_is_never_active :
  ex_validates ex_padded = true /\ checkIPPlan ex_hash (planOf ex_padded) ex_binding = Ok (planOf ex_padded) /\
  let '(k1, applied) := ApplyIPPlanWithUCI run "ip" "uci" (planOf ex_padded) ex_empty in
  applied = Ok () /\ (VerifyAppliedIPPlan run id "ip" (planOf ex_padded) k1).2 = Err "ip_plan_not_active: rules differ from committed plan".
Proof. split_and!; vm_compute; [reflexivity|reflexivity|done]. Qed.
