(* ===== verification/JsonProofs.v ===== *)
(** * Pointers, edits and differences agree

    The pointer of a path of segments leads back to the segments, the members of
    an object behave as a map, and the edits [diffJSON] lists turn the document
    before into the document after. *)
From Stdlib Require Import ZArith Lia SpecFloat.
From stdpp Require Import base list strings sorting.
From S2P Require Import Prelude Float64 Config Json.

Open Scope Z_scope.

(** ** Pointers *)

Definition noPercent (s : string) : bool := S.all_bytes (fun c => negb (Ascii.eqb c percent)) s.

(** The pointer [diffJSON] builds for a path. *)
Definition pointerOf (parts : list string) : string :=
  foldl (fun path part => path +:+ "/" +:+ escapeJSONPointer part) "" parts.

Lemma pointerOf_snoc parts part : pointerOf (parts ++ [part]) = pointerOf parts +:+ "/" +:+ escapeJSONPointer part.
Proof. unfold pointerOf. by rewrite foldl_app. Qed.

Lemma escape_no_slash s : S.Split (escapeJSONPointer s) slash = [escapeJSONPointer s].
Proof.
  unfold escapeJSONPointer. induction (replaceByte tilde "~0" s) as [|c t IH]; [done|]. simpl.
  destruct (Ascii.eqb c slash) eqn:E; simpl.
  - rewrite (Split_cons slash tilde), (Split_cons slash one_digit) by done. by rewrite IH.
  - rewrite Split_cons by done. by rewrite IH.
Qed.

Lemma replacePair_other a b new c s : Ascii.eqb c a = false -> replacePair a b new (String c s) = String c (replacePair a b new s).
Proof. intros E. destruct s as [|d s]; simpl; [done|]. by rewrite E. Qed.
Lemma replacePair_here a b new s : replacePair a b new (String a (String b s)) = new +:+ replacePair a b new s.
Proof. simpl. by rewrite !Ascii.eqb_refl. Qed.
Lemma replacePair_miss a b new c s :
  Ascii.eqb c b = false -> Ascii.eqb c a = false ->
  replacePair a b new (String a (String c s)) = String a (String c (replacePair a b new s)).
Proof.
  intros E1 E2. rewrite <- (replacePair_other a b new c s E2). cbn [replacePair]. by rewrite E1, andb_false_r.
Qed.

Lemma unescape_slash s : replacePair tilde one_digit "/" (escapeJSONPointer s) = replaceByte tilde "~0" s.
Proof.
  unfold escapeJSONPointer. induction s as [|c s IH]; [done|]. cbn [replaceByte].
  destruct (Ascii.eqb c tilde) eqn:E.
  - change (replaceByte slash "~1" ("~0" +:+ replaceByte tilde "~0" s))
      with (String tilde (String zero_digit (replaceByte slash "~1" (replaceByte tilde "~0" s)))).
    rewrite replacePair_miss by done. by rewrite IH.
  - cbn [replaceByte]. destruct (Ascii.eqb c slash) eqn:E'.
    + change ("~1" +:+ ?x) with (String tilde (String one_digit x)). rewrite replacePair_here, IH.
      apply Ascii.eqb_eq in E' as ->. done.
    + rewrite replacePair_other by done. by rewrite IH.
Qed.
Lemma unescape_tilde s : replacePair tilde zero_digit "~" (replaceByte tilde "~0" s) = s.
Proof.
  induction s as [|c s IH]; [done|]. cbn [replaceByte]. destruct (Ascii.eqb c tilde) eqn:E.
  - change ("~0" +:+ ?x) with (String tilde (String zero_digit x)). rewrite replacePair_here, IH.
    apply Ascii.eqb_eq in E as ->. done.
  - rewrite replacePair_other by done. by rewrite IH.
Qed.

Lemma PathUnescape_plain s : noPercent s = true -> PathUnescape s = Ok s.
Proof.
  unfold noPercent. induction s as [|c s IH]; [done|]. simpl. intros H. bool_split.
  rewrite H. by rewrite (IH H0).
Qed.

Lemma unescapePart_escape s : noPercent s = true -> unescapePart (escapeJSONPointer s) = Ok s.
Proof. intros H. unfold unescapePart. rewrite unescape_slash, unescape_tilde. by apply PathUnescape_plain. Qed.

Lemma unescapeAll_escape parts :
  Forall (fun p => noPercent p = true) parts -> unescapeAll (map escapeJSONPointer parts) = Ok parts.
Proof.
  induction 1 as [|p parts Hp _ IH]; [done|]. simpl. rewrite (unescapePart_escape p Hp). simpl. by rewrite IH.
Qed.

(** The text after the first slash, split. *)
Lemma pointerOf_split part parts :
  exists rest, pointerOf (part :: parts) = String slash rest /\ S.Split rest slash = map escapeJSONPointer (part :: parts).
Proof.
  induction parts as [|p parts IH] using rev_ind.
  - exists (escapeJSONPointer part). split; [done|]. apply escape_no_slash.
  - destruct IH as (rest & E & HS). rewrite app_comm_cons, pointerOf_snoc, E.
    exists (rest +:+ "/" +:+ escapeJSONPointer p). split; [done|].
    change ("/" +:+ escapeJSONPointer p) with (String slash (escapeJSONPointer p)).
    rewrite Split_app, HS, escape_no_slash, map_app. done.
Qed.

(** A JSON pointer leads back to its segments. *)
Lemma splitJSONPointer_pointerOf part parts :
  Forall (fun p => noPercent p = true) (part :: parts) ->
  splitJSONPointer (pointerOf (part :: parts)) = Ok (part :: parts).
Proof.
  intros HF. destruct (pointerOf_split part parts) as (rest & -> & HS). simpl. rewrite HS. by apply unescapeAll_escape.
Qed.

(** ** Members *)
Section MembersFacts.
Context {A : Type}.
Implicit Types (ms : list (string * A)) (k : string).

Lemma member_setMember k k' v ms :
  member k' (setMember k v ms) = if k' =s k then Some v else member k' ms.
Proof.
  induction ms as [|[k0 v0] ms IH]; simpl; [done|].
  destruct (String.eqb_spec k k0) as [->|N0]; simpl; [by destruct (k' =s k0)|].
  destruct (S.ltb k k0); simpl; [done|].
  destruct (String.eqb_spec k' k0) as [->|]; [|apply IH].
  destruct (String.eqb_spec k0 k) as [->|]; done.
Qed.

Lemma member_deleteMember k k' ms : member k' (deleteMember k ms) = if k' =s k then None else member k' ms.
Proof.
  unfold deleteMember. induction ms as [|[k0 v0] ms IH]; simpl; [by destruct (k' =s k)|].
  destruct (String.eqb_spec k0 k) as [->|N0]; simpl.
  - rewrite IH. destruct (String.eqb_spec k' k); done.
  - destruct (String.eqb_spec k' k0) as [->|]; [|apply IH]. destruct (String.eqb_spec k0 k); done.
Qed.

Lemma member_fst k ms : member k ms <> None <-> k ∈ map fst ms.
Proof.
  induction ms as [|[k0 v0] ms IH]; simpl; [split; [done|by intros ?%elem_of_nil]|].
  rewrite elem_of_cons. destruct (String.eqb_spec k k0) as [->|]; [by split; [left|]|]. rewrite IH. intuition done.
Qed.

Lemma setMember_same k v ms : member k ms = Some v -> ordered ms -> setMember k v ms = ms.
Proof.
  unfold ordered. induction ms as [|[k0 v0] ms IH]; simpl; [done|]. destruct (String.eqb_spec k k0) as [->|]; [by intros [= ->]|].
  intros Hm Ho. apply andb_true_iff in Ho as [Ho1 Ho]. destruct (S.ltb k k0) eqn:E; [|by rewrite IH].
  (* A smaller key is not further on. *)
  exfalso. assert (Hlt : forall ms, increasing (k0 :: map fst ms) = true -> member k ms = None); [|by rewrite Hlt in Hm; [|apply andb_true_iff]].
  clear -E. intros ms. revert k0 E. induction ms as [|[k1 v1] ms IH]; intros k0 E Ho; [done|]. simpl in Ho. bool_split. simpl.
  assert (E1 : S.ltb k k1 = true) by (apply ltb_Lt; eapply str_compare_trans; by apply ltb_Lt).
  destruct (String.eqb_spec k k1) as [->|]; [by rewrite ltb_irrefl in E1|]. apply (IH k1 E1). simpl. by apply andb_true_iff.
Qed.
End MembersFacts.

(** *** Order *)

Lemma ltb_trans a b c : S.ltb a b = true -> S.ltb b c = true -> S.ltb a c = true.
Proof. rewrite !ltb_Lt. apply str_compare_trans. Qed.

(** Every key is above [lo]. *)
Definition above (lo : string) (keys : list string) : Prop := Forall (fun k => S.ltb lo k = true) keys.

Lemma increasing_cons k keys : increasing (k :: keys) = true <-> above k keys /\ increasing keys = true.
Proof.
  revert k. induction keys as [|k' keys IH]; intros k; [by split; [split; [constructor|]|]|].
  split.
  - intros H. simpl in H. bool_split. split; [|by apply andb_true_iff].
    constructor; [done|]. assert (Hk' : increasing (k' :: keys) = true) by (by apply andb_true_iff).
    apply IH in Hk' as [Hk' _]. eapply Forall_impl; [exact Hk'|]. intros k2. by apply ltb_trans.
  - intros [Ha Hi]. inversion Ha; subst. cbn [increasing]. apply andb_true_iff. by split.
Qed.

Lemma above_trans a b keys : S.ltb a b = true -> above b keys -> above a keys.
Proof. intros E H. eapply Forall_impl; [exact H|]. intros k. by apply ltb_trans. Qed.

Lemma above_not_in k keys : above k keys -> k ∉ keys.
Proof. intros H Hin. unfold above in H. rewrite Forall_forall in H. specialize (H _ Hin). by rewrite ltb_irrefl in H. Qed.

Section OrderFacts.
Context {A : Type}.
Implicit Types (ms : list (string * A)) (k : string).

Lemma setMember_above lo k v ms : S.ltb lo k = true -> above lo (map fst ms) -> above lo (map fst (setMember k v ms)).
Proof.
  intros Hk. induction ms as [|[k0 v0] ms IH]; simpl; [by constructor|]. intros H. inversion H; subst.
  destruct (String.eqb_spec k k0) as [->|]; [by constructor|]. destruct (S.ltb k k0); constructor; try done. by apply IH.
Qed.
Lemma setMember_ordered k v ms : ordered ms -> ordered (setMember k v ms).
Proof.
  unfold ordered. induction ms as [|[k0 v0] ms IH]; [done|]. cbn [map fst setMember]. rewrite increasing_cons. intros [Ha Hi].
  destruct (String.eqb_spec k k0) as [->|N]; [by apply increasing_cons|]. destruct (S.ltb k k0) eqn:E.
  - cbn [map fst]. apply increasing_cons. split; [constructor; [done|by eapply above_trans]|by apply increasing_cons].
  - cbn [map fst]. apply increasing_cons. split; [|by apply IH]. apply setMember_above; [|done].
    destruct (S.ltb k0 k) eqn:E'; [done|]. destruct N. by apply ltb_total.
Qed.
Lemma deleteMember_ordered k ms : ordered ms -> ordered (deleteMember k ms).
Proof.
  unfold ordered, deleteMember. induction ms as [|[k0 v0] ms IH]; [done|]. cbn [map fst List.filter]. rewrite increasing_cons. intros [Ha Hi].
  destruct (negb _); [|by apply IH]. cbn [map fst]. apply increasing_cons. split; [|by apply IH].
  clear -Ha. induction ms as [|[k1 v1] ms IH]; [constructor|]. inversion Ha; subst. cbn [List.filter].
  destruct (negb _); [constructor; [done|]|]; by apply IH.
Qed.
Lemma member_below k ms : above k (map fst ms) -> member k ms = None.
Proof. intros H. destruct (member k ms) eqn:E; [|done]. destruct (above_not_in _ _ H). apply member_fst. by rewrite E. Qed.
End OrderFacts.

(** ** Equality of documents *)

(** Numbers are not NaN, and members are in order with names free of ['%'], at
    every depth. *)
Fixpoint regular (j : json) : bool :=
  match j with
  | JNum n => negb (F.is_nan n)
  | JArr items => forallb regular items
  | JObj members => increasing (map fst members) && forallb (fun m => noPercent m.1 && regular m.2) members
  | _ => true
  end.

Lemma eqb_refl_number n : F.is_nan n = false -> F.eqb n n = true.
Proof.
  unfold F.eqb, SFeqb. destruct n as [[]|[]| |[] m e]; try done; intros _; simpl; rewrite Z.compare_refl; simpl;
    by rewrite Pos.compare_cont_refl.
Qed.

Lemma deepEqual_refl j : regular j = true -> deepEqual j j = true.
Proof.
  induction j as [| b | n | s | items IH | members IH] using json_nested_ind; simpl; intros H; [done|by destruct b| | | |].
  - by apply eqb_refl_number, negb_true_iff.
  - by apply String.eqb_refl.
  - induction IH as [|x items Hx _ IHl]; simpl in *; [done|]. bool_split. by rewrite Hx, IHl.
  - apply andb_true_iff in H as [_ H]. induction IH as [|[k x] members Hx _ IHl]; simpl in *; [done|].
    bool_split. rewrite String.eqb_refl, Hx by done. by rewrite IHl.
Qed.

Definition sameMember (a b : option json) : Prop :=
  match a, b with Some x, Some y => deepEqual x y = true | None, None => True | _, _ => False end.

Lemma deepEqual_members xs : forall ys,
  ordered xs -> ordered ys -> (forall k, sameMember (member k xs) (member k ys)) -> deepEqual (JObj xs) (JObj ys) = true.
Proof.
  unfold ordered. induction xs as [|[k x] xs IH]; intros [|[k' y] ys] Hx Hy Hm; [done| | |].
  - specialize (Hm k'). simpl in Hm. by rewrite String.eqb_refl in Hm.
  - specialize (Hm k). simpl in Hm. by rewrite String.eqb_refl in Hm.
  - cbn [map fst] in Hx, Hy. apply increasing_cons in Hx as [Ax Ix], Hy as [Ay Iy].
    assert (Hk : k = k').
    { destruct (S.ltb k k') eqn:E1; [|destruct (S.ltb k' k) eqn:E2; [|by apply ltb_total]].
      - specialize (Hm k). simpl in Hm. rewrite String.eqb_refl in Hm.
        destruct (String.eqb_spec k k') as [->|]; [by rewrite ltb_irrefl in E1|].
        by rewrite (member_below k ys (above_trans _ _ _ E1 Ay)) in Hm.
      - specialize (Hm k'). simpl in Hm. rewrite String.eqb_refl in Hm.
        destruct (String.eqb_spec k' k) as [->|]; [by rewrite ltb_irrefl in E2|].
        by rewrite (member_below k' xs (above_trans _ _ _ E2 Ax)) in Hm. }
    subst k'. pose proof (Hm k) as Hk. simpl in Hk. rewrite String.eqb_refl in Hk.
    assert (IHs : deepEqual (JObj xs) (JObj ys) = true).
    { apply IH; [done..|]. intros k1. specialize (Hm k1). simpl in Hm. destruct (k1 =s k) eqn:E1; [|done].
      apply String.eqb_eq in E1 as ->. by rewrite (member_below k xs Ax), (member_below k ys Ay). }
    simpl in IHs |- *. by rewrite String.eqb_refl, Hk, IHs.
Qed.

(** ** Edits below a member *)

(** An edit relative to a subtree: the path of segments and the operation. *)
Abbreviation edit := (list string * ChangeOp)%type (only parsing).
Definition edit1 (e : list string * ChangeOp) (j : json) : result json :=
  match e.1 with [] => Ok (op_Value e.2) | parts => editAt parts (op_Type e.2) (op_Value e.2) j end.
Fixpoint edits (es : list (list string * ChangeOp)) (j : json) : result json :=
  match es with [] => Ok j | e :: es => j ← edit1 e j; edits es j end.
(** An edit of the subtree itself is an update. *)
Definition rooted (e : list string * ChangeOp) : Prop := e.1 = [] -> op_Type e.2 = "update".
Definition below (k : string) (e : list string * ChangeOp) : list string * ChangeOp := (k :: e.1, e.2).

Lemma edits_app es es' j : edits (es ++ es') j = (j ← edits es j; edits es' j).
Proof. revert j. induction es as [|e es IH]; intros j; [done|]. cbn [edits app]. destruct (edit1 e j); simpl; [apply IH|done]. Qed.

Lemma edit1_below k e members c c' :
  rooted e -> member k members = Some c -> edit1 e c = Ok c' -> edit1 (below k e) (JObj members) = Ok (JObj (setMember k c' members)).
Proof.
  intros Hr Hm He. destruct e as [[|p ps] op]; unfold edit1 in *; cbn [fst snd below] in *.
  - injection He as <-. specialize (Hr eq_refl). simpl in Hr. cbn [editAt]. unfold editMembers. rewrite Hm, Hr. done.
  - change (editAt (k :: p :: ps) (op_Type op) (op_Value op) (JObj members)) with
      (match member k members with
       | None => Err "path segment does not exist"
       | Some c => c ← editAt (p :: ps) (op_Type op) (op_Value op) c; Ok (JObj (setMember k c members))
       end).
    rewrite Hm. unfold mbind, result_bind. cbn [edit1 fst snd] in He. by rewrite He.
Qed.

Lemma setMember_twice {A} k (v v' : A) ms : setMember k v' (setMember k v ms) = setMember k v' ms.
Proof.
  induction ms as [|[k0 v0] ms IH]; simpl; [by rewrite String.eqb_refl|].
  destruct (String.eqb_spec k k0) as [->|N]; simpl; [by rewrite String.eqb_refl|].
  destruct (S.ltb k k0) eqn:E; simpl; [by rewrite String.eqb_refl|].
  destruct (String.eqb_spec k k0); [done|]. by rewrite E, IH.
Qed.

Lemma edits_below k es : forall members c c',
  Forall rooted es -> ordered members -> member k members = Some c -> edits es c = Ok c' ->
  edits (map (below k) es) (JObj members) = Ok (JObj (setMember k c' members)).
Proof.
  induction es as [|e es IH]; intros members c c' Hr Ho Hm HE.
  - injection HE as <-. cbn [map edits]. by rewrite (setMember_same k c).
  - inversion Hr; subst. cbn [map edits] in *. destruct (edit1 e c) as [c1|] eqn:E1; [|done]. cbn in HE.
    rewrite (edit1_below k e members c c1) by done. cbn.
    rewrite (IH (setMember k c1 members) c1 c'); [by rewrite setMember_twice|done|by apply setMember_ordered| |done].
    by rewrite member_setMember, String.eqb_refl.
Qed.

(** ** The difference, as edits *)

(** [diffJSON] with paths relative to the subtree. *)
Fixpoint changes (fuel : nat) (before after : json) : list (list string * ChangeOp) :=
  if deepEqual before after then []
  else match before, after with
  | JObj bm, JObj am =>
      match fuel with
      | O => []
      | S fuel =>
          flat_map (fun key =>
            match member key bm, member key am with
            | Some bv, None => [([key], mkOp "delete" "" JNull bv)]
            | None, Some av => [([key], mkOp "add" "" av JNull)]
            | Some bv, Some av => map (below key) (changes fuel bv av)
            | None, None => []
            end) (allKeys bm am)
      end
  | _, _ => [([], mkOp "update" "" after before)]
  end.

Definition placed (pre : list string) (e : list string * ChangeOp) : ChangeOp :=
  mkOp (op_Type e.2) (pointerOf (pre ++ e.1)) (op_Value e.2) (op_Before e.2).

Lemma map_flat_map {A B C} (g : B -> C) (f : A -> list B) l : map g (flat_map f l) = flat_map (fun x => map g (f x)) l.
Proof. induction l as [|x l IH]; [done|]. simpl. by rewrite map_app, IH. Qed.

Lemma diffJSON_changes fuel : forall before after pre,
  diffJSON fuel before after (pointerOf pre) = map (placed pre) (changes fuel before after).
Proof.
  assert (Hleaf : forall before after pre, [mkOp "update" (pointerOf pre) after before] = map (placed pre) [([], mkOp "update" "" after before)]).
  { intros. unfold placed. simpl. by rewrite app_nil_r. }
  induction fuel as [|fuel IH]; intros before after pre; cbn [diffJSON changes]; (destruct (deepEqual before after); [done|]);
    destruct before as [| | | | |bm]; try apply Hleaf; destruct after as [| | | | |am]; try apply Hleaf; [done|].
  rewrite map_flat_map. apply flat_map_ext. intros key. rewrite <- pointerOf_snoc.
  destruct (member key bm) as [bv|], (member key am) as [av|]; try done.
  rewrite IH, map_map. apply map_ext. intros e. unfold placed, below. simpl. by rewrite <- app_assoc.
Qed.

Lemma changes_rooted fuel : forall before after, Forall rooted (changes fuel before after).
Proof.
  assert (Hleaf : forall before after, Forall rooted [([], mkOp "update" "" after before)]) by (intros; by repeat constructor).
  induction fuel as [|fuel IH]; intros before after; cbn [changes]; (destruct (deepEqual before after); [constructor|]);
    destruct before as [| | | | |bm]; try apply Hleaf; destruct after as [| | | | |am]; try apply Hleaf; [constructor|].
  apply Forall_flat_map, Forall_forall. intros key _.
  destruct (member key bm), (member key am); repeat constructor; try (by intros ?).
  apply Forall_map, Forall_forall. by intros e _.
Qed.

Lemma allKeys_elem bm am k : k ∈ allKeys bm am <-> member k bm <> None \/ member k am <> None.
Proof.
  unfold allKeys. rewrite gosort_perm, elem_of_app, elem_of_filter_b, !member_fst. rewrite <- (member_fst k bm).
  destruct (member k bm); intuition done.
Qed.

Lemma increasing_NoDup keys : increasing keys = true -> NoDup keys.
Proof.
  induction keys as [|k keys IH]; [constructor|]. rewrite increasing_cons. intros [Ha Hi].
  constructor; [by apply above_not_in|by apply IH].
Qed.

Lemma allKeys_NoDup bm am : ordered bm -> ordered am -> NoDup (allKeys bm am).
Proof.
  intros Hb Ha. unfold allKeys. rewrite gosort_perm. apply NoDup_app. split_and!.
  - by apply increasing_NoDup.
  - intros k Hk Hk'. apply elem_of_filter_b in Hk' as [_ Hk']. apply member_fst in Hk. by destruct (member k bm).
  - by apply NoDup_filter_b, increasing_NoDup.
Qed.

Lemma depthOf_member k v members n : member k members = Some v -> (depthOf (JObj members) <= S n)%nat -> (depthOf v <= n)%nat.
Proof.
  intros Hm Hd. enough (H : (depthOf v <= fold_right (fun m n => Nat.max (depthOf m.2) n) O members)%nat).
  { change (depthOf (JObj members)) with (S (fold_right (fun m n => Nat.max (depthOf m.2) n) O members)) in Hd. lia. }
  clear Hd. induction members as [|[k0 v0] members IH]; [done|]. simpl in *. destruct (k =s k0); [injection Hm as ->; lia|].
  specialize (IH Hm). lia.
Qed.

Lemma regular_member k v members : regular (JObj members) = true -> member k members = Some v -> regular v = true /\ noPercent k = true.
Proof.
  cbn [regular]. intros H Hm. apply andb_true_iff in H as [_ H]. induction members as [|[k0 v0] members IH]; [done|]. simpl in *. bool_split.
  destruct (k =s k0) eqn:E; [|by apply IH]. apply String.eqb_eq in E as ->. by injection Hm as <-.
Qed.

(** ** Replaying a difference *)

Section Replay.
Context (fuel : nat) (bm am : list (string * json)).
Hypothesis Hchild : forall k bv av, member k bm = Some bv -> member k am = Some av ->
  exists j, edits (changes fuel bv av) bv = Ok j /\ deepEqual j av = true.
Hypothesis Hrefl : forall k av, member k am = Some av -> deepEqual av av = true.

Definition editsFor (key : string) : list (list string * ChangeOp) :=
  match member key bm, member key am with
  | Some bv, None => [([key], mkOp "delete" "" JNull bv)]
  | None, Some av => [([key], mkOp "add" "" av JNull)]
  | Some bv, Some av => map (below key) (changes fuel bv av)
  | None, None => []
  end.

(** The edits of one key change that member only, into what it is after. *)
Lemma editsFor_spec key cur :
  ordered cur -> member key cur = member key bm ->
  exists cur', edits (editsFor key) (JObj cur) = Ok (JObj cur') /\ ordered cur' /\
    sameMember (member key cur') (member key am) /\ forall k, k <> key -> member k cur' = member k cur.
Proof.
  intros Ho Hk. unfold editsFor.
  assert (Hother : forall k (v : json), k <> key -> member k (setMember key v cur) = member k cur).
  { intros k v Hne. rewrite member_setMember. by destruct (String.eqb_spec k key). }
  destruct (member key bm) as [bv|] eqn:Eb, (member key am) as [av|] eqn:Ea.
  - destruct (Hchild key bv av Eb Ea) as (j & Hj & Hd). exists (setMember key j cur). split_and!.
    + apply (edits_below key _ cur bv); [apply changes_rooted|done..].
    + by apply setMember_ordered.
    + rewrite member_setMember, String.eqb_refl. exact Hd.
    + auto.
  - exists (deleteMember key cur). split_and!.
    + cbn [edits edit1 fst snd editAt op_Type op_Value]. unfold editMembers. by rewrite Hk.
    + by apply deleteMember_ordered.
    + by rewrite member_deleteMember, String.eqb_refl.
    + intros k Hne. rewrite member_deleteMember. by destruct (String.eqb_spec k key).
  - exists (setMember key av cur). split_and!.
    + cbn [edits edit1 fst snd editAt op_Type op_Value]. unfold editMembers. by rewrite Hk.
    + by apply setMember_ordered.
    + rewrite member_setMember, String.eqb_refl. by eapply Hrefl.
    + auto.
  - exists cur. split_and!; try done. by rewrite Hk.
Qed.

Lemma editsFor_all keys : forall cur,
  NoDup keys -> ordered cur -> (forall k, k ∈ keys -> member k cur = member k bm) ->
  exists cur', edits (flat_map editsFor keys) (JObj cur) = Ok (JObj cur') /\ ordered cur' /\
    (forall k, k ∈ keys -> sameMember (member k cur') (member k am)) /\ forall k, k ∉ keys -> member k cur' = member k cur.
Proof.
  induction keys as [|key keys IH]; intros cur Hnd Ho Hk.
  { exists cur. split_and!; try done. by intros k ?%elem_of_nil. }
  inversion Hnd as [|? ? Hnot Hnd']; subst.
  destruct (editsFor_spec key cur Ho) as (cur1 & E1 & Ho1 & Hs1 & Hf1); [apply Hk; left|].
  destruct (IH cur1 Hnd' Ho1) as (cur2 & E2 & Ho2 & Hs2 & Hf2).
  { intros k Hin. rewrite Hf1; [apply Hk; by right|]. by intros ->. }
  exists cur2. split_and!; [|done| |].
  - cbn [flat_map]. by rewrite edits_app, E1.
  - intros k [->|Hin]%elem_of_cons; [|by apply Hs2]. by rewrite (Hf2 key Hnot).
  - intros k Hin. rewrite elem_of_cons in Hin. rewrite Hf2, Hf1; [done|naive_solver..].
Qed.
End Replay.

Lemma changes_edits fuel : forall before after,
  regular before = true -> regular after = true -> (depthOf before <= fuel)%nat ->
  exists j, edits (changes fuel before after) before = Ok j /\ deepEqual j after = true.
Proof.
  assert (Hleaf : forall before after, regular after = true ->
    exists j, edits [([], mkOp "update" "" after before)] before = Ok j /\ deepEqual j after = true).
  { intros before after Ha. exists after. split; [done|by apply deepEqual_refl]. }
  induction fuel as [|fuel IH]; intros before after Hb Ha Hd; cbn [changes];
    (destruct (deepEqual before after) eqn:E; [by exists before|]);
    destruct before as [| | | | |bm]; try (by apply Hleaf); destruct after as [| | | | |am]; try (by apply Hleaf).
  { simpl in Hd. lia. }
  assert (Hob : ordered bm) by (by apply andb_true_iff in Hb as [? _]).
  assert (Hoa : ordered am) by (by apply andb_true_iff in Ha as [? _]).
  destruct (editsFor_all fuel bm am) with (keys := allKeys bm am) (cur := bm) as (cur & E1 & Ho & Hs & Hf).
  - intros k bv av Ek Ek'. apply IH; [by apply (regular_member k bv bm)|by apply (regular_member k av am)|]. by eapply depthOf_member.
  - intros k av Ek. apply deepEqual_refl. by apply (regular_member k av am).
  - by apply allKeys_NoDup.
  - done.
  - done.
  - exists (JObj cur). split; [exact E1|]. apply deepEqual_members; [done..|]. intros k.
    destruct (decide (k ∈ allKeys bm am)) as [Hin|Hnot]; [by apply Hs|]. rewrite (Hf k Hnot).
    rewrite allKeys_elem in Hnot. destruct (member k bm), (member k am); simpl; naive_solver.
Qed.

(** ** The difference, as operations on the whole document *)

Fixpoint replay (ops : list ChangeOp) (candidate : json) : result json :=
  match ops with [] => Ok candidate | op :: ops => c ← applyTree op candidate; replay ops c end.

Definition plain (e : list string * ChangeOp) : Prop := Forall (fun k => noPercent k = true) e.1.

Lemma changes_plain fuel : forall before after,
  regular before = true -> regular after = true -> Forall plain (changes fuel before after).
Proof.
  assert (Hleaf : forall before after, Forall plain [([], mkOp "update" "" after before)]) by (intros; by repeat constructor).
  induction fuel as [|fuel IH]; intros before after Hb Ha; cbn [changes]; (destruct (deepEqual before after); [constructor|]);
    destruct before as [| | | | |bm]; try apply Hleaf; destruct after as [| | | | |am]; try apply Hleaf; [constructor|].
  apply Forall_flat_map, Forall_forall. intros key _.
  destruct (member key bm) as [bv|] eqn:Eb, (member key am) as [av|] eqn:Ea; [|repeat constructor; simpl..|constructor].
  - apply Forall_map. eapply Forall_impl; [apply IH; [by apply (regular_member key bv bm)|by apply (regular_member key av am)]|].
    intros e He. constructor; [by apply (regular_member key bv bm)|exact He].
  - by apply (regular_member key bv bm).
  - by apply (regular_member key av am).
Qed.

(** An edit whose first segment must name a member already there. *)
Definition anchored (e : list string * ChangeOp) : Prop :=
  match e.1 with [] => False | [_] => op_Type e.2 = "delete" \/ op_Type e.2 = "update" | _ => True end.

Lemma anchored_apply e members j :
  anchored e -> plain e -> edit1 e (JObj members) = Ok j ->
  applyTree (placed [] e) (JObj members) = Ok j /\ exists members', j = JObj members'.
Proof.
  destruct e as [[|k ps] op]; intros Hanch Hp HE; [done|]. unfold edit1 in HE. cbn [fst snd] in *.
  assert (HM : member k members <> None /\ exists members', j = JObj members').
  { destruct ps as [|p ps].
    - cbn [editAt] in HE. unfold editMembers in HE. destruct (member k members).
      + split; [done|]. destruct Hanch as [E|E]; simpl in E; rewrite E in HE; simpl in HE; injection HE as <-; by eexists.
      + destruct Hanch as [E|E]; simpl in E; rewrite E in HE; done.
    - cbn [editAt] in HE. destruct (member k members) as [c|]; [|done]. split; [done|].
      unfold mbind, result_bind in HE. destruct (match ps with [] => _ | _ => _ end); [|done]. injection HE as <-. by eexists. }
  destruct HM as [HM HO]. split; [|exact HO]. unfold applyTree, placed. cbn [op_Path op_Type op_Value fst snd app].
  rewrite splitJSONPointer_pointerOf by exact Hp. unfold mbind at 1, result_bind.
  destruct (member k members); [exact HE|done].
Qed.

Lemma replay_edits es : forall members j,
  Forall anchored es -> Forall plain es -> edits es (JObj members) = Ok j ->
  replay (map (placed []) es) (JObj members) = Ok j.
Proof.
  induction es as [|e es IH]; intros members j Ha Hp HE; [exact HE|]. inversion Ha; inversion Hp; subst. cbn [edits map replay] in *.
  destruct (edit1 e (JObj members)) as [j1|] eqn:E1; [|done]. cbn in HE.
  destruct (anchored_apply e members j1) as [-> [members' ->]]; [done..|]. cbn. by apply IH.
Qed.

(** No root member is added. *)
Lemma changes_anchored fuel bm am :
  (forall k, member k am <> None -> member k bm <> None) -> Forall anchored (changes fuel (JObj bm) (JObj am)).
Proof.
  intros Hroot. destruct fuel; cbn [changes]; (destruct (deepEqual _ _); [constructor|]); [constructor|].
  apply Forall_flat_map, Forall_forall. intros key _.
  destruct (member key bm) as [bv|] eqn:Eb, (member key am) as [av|] eqn:Ea.
  - apply Forall_map. eapply Forall_impl; [apply (changes_rooted fuel bv av)|]. intros [[|p ps] op] Hr; [|done].
    right. by apply Hr.
  - repeat constructor.
  - destruct (Hroot key); [by rewrite Ea|done].
  - constructor.
Qed.

(** C34: a difference can be replayed.  For two documents with the same root
    members (those of the typed configuration), the operations [diffJSON] lists
    are all accepted by [applyConfigOperation], in their order, and turn the
    document before into one equal to the document after.  The documents are
    [regular]: member names may hold slashes and tildes but no percent sign, and
    numbers are not NaN. *)
Theorem diff_replay bm am :
  regular (JObj bm) = true -> regular (JObj am) = true -> (forall k, member k am <> None -> member k bm <> None) ->
  exists j, replay (diff (JObj bm) (JObj am)) (JObj bm) = Ok j /\ deepEqual j (JObj am) = true.
Proof.
  intros Hb Ha Hroot. set (fuel := S (depthOf (JObj bm))).
  destruct (changes_edits fuel (JObj bm) (JObj am)) as (j & Hj & Hd); [done..|unfold fuel; lia|].
  exists j. split; [|exact Hd]. unfold diff. change "" with (pointerOf []). rewrite diffJSON_changes.
  apply replay_edits; [by apply changes_anchored|by apply changes_plain|exact Hj].
Qed.

(** *** At a concrete pair *)
Definition ex_before : json :=
  JObj [("policy", JObj [("a/b", JNum F.one); ("mode", JStr "x")]); ("routes", JArr [JStr "direct"]); ("services", JObj [("s", JNull)])].
Definition ex_after : json :=
  JObj [("policy", JObj [("a/b", JNum F.zero); ("new~", JBool true)]); ("routes", JArr [JStr "direct"; JStr "drop"]); ("services", JObj [("s", JNull)])].

Example ex_diff : map (fun op => (op_Type op, op_Path op)) (diff ex_before ex_after) =
  [("update", "/policy/a~1b"); ("delete", "/policy/mode"); ("add", "/policy/new~0"); ("update", "/routes")].
Proof. vm_compute. reflexivity. Qed.

Lemma diff_replay_witness :
  regular ex_before = true /\
  exists j, replay (diff ex_before ex_after) ex_before = Ok j /\ deepEqual j ex_after = true.
Proof.
  split; [vm_compute; reflexivity|].
  refine (diff_replay _ _ _ _ _); [vm_compute; reflexivity..|].
  intros k. simpl. by destruct (k =s "policy"), (k =s "routes"), (k =s "services").
Defined.

(** A name with a percent sign is not escaped by [diffJSON] but decoded by
    [splitJSONPointer]: its edit goes elsewhere, or nowhere. *)
Example percent_name_is_lost :
  escapeJSONPointer "100%25" = "100%25" /\ unescapePart "100%25" = Ok "100%" /\
  replay (diff (JObj [("services", JObj [("100%25", JNull)])]) (JObj [("services", JObj [])])) (JObj [("services", JObj [("100%25", JNull)])])
    = Err "delete target does not exist".
Proof. vm_compute. repeat split; reflexivity. Qed.
