(* ===== verification/Health.v ===== *)
(** * Route health

    [internal/probe/health.go]: the health record of each route, its update by
    one probe result, the roles of the VLESS pool and the orders derived from
    them.  [RouteResult] holds the fields of [internal/probe/probe.go] that the
    routing decisions read.

    A tracker is its map of records ([nil] trackers are a parameter of the
    callers); every method runs under the tracker's lock, so methods are steps.
    The counters that only ever grow by one ([Checks], [ConsecutiveErrors],
    [ConsecutiveSuccesses]) are unbounded here. *)
From Stdlib Require Import ZArith Lia SpecFloat.
From stdpp Require Import base list strings gmap.
From S2P Require Import Prelude Float64 Config.

Open Scope Z_scope.

(** ** Probe results *)

Record RouteResult := mkResult {
  rr_Domain : string;
  rr_Service : string;
  rr_Route : string;
  rr_RouteType : string;
  rr_Status : string;
  rr_ApplicationStatus : string;
  rr_PathVerified : bool;
  rr_AdapterRevision : string;
  rr_CandidateHash : string;
  rr_ArtifactManifestHash : string;
  rr_Simulation : bool;
  rr_ServiceOK : bool;
  rr_RegionalBlock : bool;
  rr_SuspectedTSPU : bool;
  rr_AuthenticationRequired : bool;
  rr_WAFOrRateLimit : bool;
  rr_ExternalCountry : string;
  rr_ExternalIPHash : string;
  rr_EgressConsensus : bool;
  rr_LatencyMS : Z;
  rr_EndToEndLatencyMS : Z;
  rr_EndToEndLatencyAvailable : bool;
  rr_SelectionScore : spec_float;
  rr_CheckReasons : list string;  (* Checks[i].Reason *)
  rr_FailureStage : string;
  rr_ReasonCode : string;
  rr_Reason : option string
}.

#[export] Instance eta_Result : Eta RouteResult := fun r =>
  mkResult (rr_Domain r) (rr_Service r) (rr_Route r) (rr_RouteType r) (rr_Status r) (rr_ApplicationStatus r)
    (rr_PathVerified r) (rr_AdapterRevision r) (rr_CandidateHash r) (rr_ArtifactManifestHash r)
    (rr_Simulation r) (rr_ServiceOK r) (rr_RegionalBlock r) (rr_SuspectedTSPU r)
    (rr_AuthenticationRequired r) (rr_WAFOrRateLimit r) (rr_ExternalCountry r) (rr_ExternalIPHash r)
    (rr_EgressConsensus r) (rr_LatencyMS r) (rr_EndToEndLatencyMS r) (rr_EndToEndLatencyAvailable r)
    (rr_SelectionScore r) (rr_CheckReasons r) (rr_FailureStage r) (rr_ReasonCode r) (rr_Reason r).
Definition set_rr_Status v (r : RouteResult) : RouteResult := ltac:(assign r rr_Status v).
Definition set_rr_PathVerified v (r : RouteResult) : RouteResult := ltac:(assign r rr_PathVerified v).
Definition set_rr_ServiceOK v (r : RouteResult) : RouteResult := ltac:(assign r rr_ServiceOK v).
Definition set_rr_FailureStage v (r : RouteResult) : RouteResult := ltac:(assign r rr_FailureStage v).
Definition set_rr_ReasonCode v (r : RouteResult) : RouteResult := ltac:(assign r rr_ReasonCode v).
Definition set_rr_Reason v (r : RouteResult) : RouteResult := ltac:(assign r rr_Reason v).
Definition set_rr_AdapterRevision v (r : RouteResult) : RouteResult := ltac:(assign r rr_AdapterRevision v).
Definition set_rr_SelectionScore v (r : RouteResult) : RouteResult := ltac:(assign r rr_SelectionScore v).

(** ** Health records *)

Record RouteHealth := mkHealth {
  h_RouteTag : string;
  h_RouteType : string;
  h_State : string;
  h_Role : string;
  h_Score : Z;
  h_ConsecutiveErrors : Z;
  h_ConsecutiveSuccesses : Z;
  h_Checks : Z;
  h_AvailabilityEWMA : spec_float;
  h_EWMALatencyMS : spec_float;
  h_LastSuccessAt : time;
  h_LastFailureAt : time;
  h_LastCheckedAt : time;
  h_HoldUntil : time;
  h_RoleHoldUntil : time;
  h_LastStatus : string;
  h_LastReason : string;
  h_AdapterRevision : string;
  h_CandidateHash : string;
  h_ArtifactManifestHash : string;
  h_ExternalIPHash : string;
  h_ExternalCountry : string;
  h_UpdatedAt : time
}.

Definition zero_Health : RouteHealth :=
  mkHealth "" "" "" "" 0 0 0 0 F.zero F.zero T.zero T.zero T.zero T.zero T.zero "" "" "" "" "" "" "" T.zero.

#[export] Instance eta_Health : Eta RouteHealth := fun h =>
  mkHealth (h_RouteTag h) (h_RouteType h) (h_State h) (h_Role h) (h_Score h) (h_ConsecutiveErrors h)
    (h_ConsecutiveSuccesses h) (h_Checks h) (h_AvailabilityEWMA h) (h_EWMALatencyMS h) (h_LastSuccessAt h)
    (h_LastFailureAt h) (h_LastCheckedAt h) (h_HoldUntil h) (h_RoleHoldUntil h) (h_LastStatus h)
    (h_LastReason h) (h_AdapterRevision h) (h_CandidateHash h) (h_ArtifactManifestHash h)
    (h_ExternalIPHash h) (h_ExternalCountry h) (h_UpdatedAt h).
Definition set_h_RouteTag v (h : RouteHealth) : RouteHealth := ltac:(assign h h_RouteTag v).
Definition set_h_RouteType v (h : RouteHealth) : RouteHealth := ltac:(assign h h_RouteType v).
Definition set_h_State v (h : RouteHealth) : RouteHealth := ltac:(assign h h_State v).
Definition set_h_Role v (h : RouteHealth) : RouteHealth := ltac:(assign h h_Role v).
Definition set_h_Score v (h : RouteHealth) : RouteHealth := ltac:(assign h h_Score v).
Definition set_h_ConsecutiveErrors v (h : RouteHealth) : RouteHealth := ltac:(assign h h_ConsecutiveErrors v).
Definition set_h_ConsecutiveSuccesses v (h : RouteHealth) : RouteHealth :=
  ltac:(assign h h_ConsecutiveSuccesses v).
Definition set_h_Checks v (h : RouteHealth) : RouteHealth := ltac:(assign h h_Checks v).
Definition set_h_AvailabilityEWMA v (h : RouteHealth) : RouteHealth := ltac:(assign h h_AvailabilityEWMA v).
Definition set_h_EWMALatencyMS v (h : RouteHealth) : RouteHealth := ltac:(assign h h_EWMALatencyMS v).
Definition set_h_LastSuccessAt v (h : RouteHealth) : RouteHealth := ltac:(assign h h_LastSuccessAt v).
Definition set_h_LastFailureAt v (h : RouteHealth) : RouteHealth := ltac:(assign h h_LastFailureAt v).
Definition set_h_LastCheckedAt v (h : RouteHealth) : RouteHealth := ltac:(assign h h_LastCheckedAt v).
Definition set_h_HoldUntil v (h : RouteHealth) : RouteHealth := ltac:(assign h h_HoldUntil v).
Definition set_h_RoleHoldUntil v (h : RouteHealth) : RouteHealth := ltac:(assign h h_RoleHoldUntil v).
Definition set_h_LastStatus v (h : RouteHealth) : RouteHealth := ltac:(assign h h_LastStatus v).
Definition set_h_LastReason v (h : RouteHealth) : RouteHealth := ltac:(assign h h_LastReason v).
Definition set_h_AdapterRevision v (h : RouteHealth) : RouteHealth := ltac:(assign h h_AdapterRevision v).
Definition set_h_CandidateHash v (h : RouteHealth) : RouteHealth := ltac:(assign h h_CandidateHash v).
Definition set_h_ArtifactManifestHash v (h : RouteHealth) : RouteHealth :=
  ltac:(assign h h_ArtifactManifestHash v).
Definition set_h_ExternalIPHash v (h : RouteHealth) : RouteHealth := ltac:(assign h h_ExternalIPHash v).
Definition set_h_ExternalCountry v (h : RouteHealth) : RouteHealth := ltac:(assign h h_ExternalCountry v).
Definition set_h_UpdatedAt v (h : RouteHealth) : RouteHealth := ltac:(assign h h_UpdatedAt v).

Abbreviation Tracker := (gmap string RouteHealth) (only parsing).

Definition NewHealthTracker (initial : list RouteHealth) : gmap string RouteHealth :=
  foldl (fun routes health =>
           if h_RouteTag health <>s "" then <[h_RouteTag health := health]> routes else routes)
    ∅ initial.

Definition minInt (a b : Z) : Z := if a <? b then a else b.
Definition maxInt (a b : Z) : Z := if b <? a then a else b.

(** [time.Duration(seconds) * time.Second], negative values replaced by 0. *)
Definition holdDuration (policy : Policy) : duration :=
  let hold := wrap64 (RouteHoldSeconds policy * second) in
  if hold <? 0 then 0 else hold.

(** ** [Observe] *)

(** The record as the map returns it, or the initial record of a new route. *)
Definition observedHealth (routes : gmap string RouteHealth) (tag routeType : string) : RouteHealth :=
  let health := default zero_Health (routes !! tag) in
  if h_RouteTag health =s ""
  then zero_Health |> set_h_RouteTag tag |> set_h_RouteType routeType |> set_h_State "unknown"
         |> set_h_Role "quarantined" |> set_h_Score 50
  else health.

Definition updateAvailability (success : bool) (health : RouteHealth) : RouteHealth :=
  if h_Checks health =? 1 then
    if success then set_h_AvailabilityEWMA F.one health else health
  else if success then
    set_h_AvailabilityEWMA (F.add (F.mul (h_AvailabilityEWMA health) (F.ratio 8 10)) (F.ratio 2 10)) health
  else set_h_AvailabilityEWMA (F.mul (h_AvailabilityEWMA health) (F.ratio 8 10)) health.

(** [if v != "" { field = v }]. *)
Definition keep (v : string) (set : string -> RouteHealth -> RouteHealth) (health : RouteHealth) : RouteHealth :=
  if v <>s "" then set v health else health.

Definition updateLatency (latencyMS : Z) (health : RouteHealth) : RouteHealth :=
  if 0 <? latencyMS then
    if F.eqb (h_EWMALatencyMS health) F.zero
    then set_h_EWMALatencyMS (F.of_Z latencyMS) health
    else set_h_EWMALatencyMS
           (F.add (F.mul (h_EWMALatencyMS health) (F.ratio 7 10)) (F.mul (F.of_Z latencyMS) (F.ratio 3 10))) health
  else health.

Definition observeSuccess (result : RouteResult) (recoverAfter : Z) (now : time) (health : RouteHealth)
    : RouteHealth :=
  let health := health
    |> set_h_ConsecutiveSuccesses (h_ConsecutiveSuccesses health + 1)
    |> set_h_ConsecutiveErrors 0
    |> set_h_LastSuccessAt now
    |> set_h_LastReason ""
    |> set_h_Score (minInt 100 (h_Score health + 10))
    |> updateLatency (rr_LatencyMS result) in
  if ((h_State health =s "unhealthy") || (h_State health =s "recovering"))
     && (T.Before now (h_HoldUntil health) || (h_ConsecutiveSuccesses health <? recoverAfter))
  then set_h_State "recovering" health
  else set_h_State "healthy" health.

Definition observeFailure (result : RouteResult) (failAfter : Z) (hold : duration) (now : time)
    (health : RouteHealth) : RouteHealth :=
  let reason := rr_ReasonCode result in
  let reason := if reason =s "" then default "" (rr_Reason result) else reason in
  let health := health
    |> set_h_ConsecutiveErrors (h_ConsecutiveErrors health + 1)
    |> set_h_ConsecutiveSuccesses 0
    |> set_h_LastFailureAt now
    |> set_h_LastReason reason
    |> set_h_Score (maxInt 0 (h_Score health - 20)) in
  if rr_Status result =s "NOT_CONFIGURED" then set_h_State "not_configured" health
  else if failAfter <=? h_ConsecutiveErrors health
  then health |> set_h_State "unhealthy" |> set_h_HoldUntil (T.Add now hold)
  else health.

Definition probeSuccess (result : RouteResult) : bool :=
  (rr_Status result =s "OK") && rr_PathVerified result && rr_ServiceOK result.

Definition failAfterOf (policy : Policy) : Z :=
  if FailAfterConsecutiveErrors policy <=? 0 then 3 else FailAfterConsecutiveErrors policy.
Definition recoverAfterOf (policy : Policy) : Z :=
  if RecoverAfterConsecutiveSuccess policy <=? 0 then 3 else RecoverAfterConsecutiveSuccess policy.

(** The record written back by [Observe]. *)
Definition nextHealth (result : RouteResult) (policy : Policy) (now : time) (health : RouteHealth) : RouteHealth :=
  let success := probeSuccess result in
  let health := health
    |> set_h_Checks (h_Checks health + 1)
    |> set_h_LastCheckedAt now
    |> set_h_LastStatus (rr_Status result)
    |> updateAvailability success
    |> keep (rr_AdapterRevision result) set_h_AdapterRevision
    |> keep (rr_CandidateHash result) set_h_CandidateHash
    |> keep (rr_ArtifactManifestHash result) set_h_ArtifactManifestHash
    |> keep (rr_ExternalIPHash result) set_h_ExternalIPHash
    |> keep (rr_ExternalCountry result) set_h_ExternalCountry in
  let health := if success then observeSuccess result (recoverAfterOf policy) now health
                else observeFailure result (failAfterOf policy) (holdDuration policy) now health in
  set_h_UpdatedAt now health.

Definition Observe (routes : gmap string RouteHealth) (result : RouteResult) (policy : Policy) (now : time)
    : gmap string RouteHealth * RouteHealth :=
  if rr_Route result =s "" then (routes, zero_Health)
  else
    let health := nextHealth result policy now
                    (observedHealth routes (rr_Route result) (rr_RouteType result)) in
    (<[rr_Route result := health]> routes, health).

(** ** The VLESS pool *)

(** [latency := h.EWMALatencyMS; if latency == 0 { latency = 1e12 }]. *)
Definition rankLatency (h : RouteHealth) : spec_float :=
  if F.eqb (h_EWMALatencyMS h) F.zero then F.of_Z (10 ^ 12) else h_EWMALatencyMS h.

Definition candidateHealthy (x : Route * RouteHealth) : bool := h_State x.2 =s "healthy".

(** The [less] function of the sort in [AssignVLESSRoles]. *)
Definition vlessCandidateOrder : Route * RouteHealth -> Route * RouteHealth -> bool :=
  then_by (same_b candidateHealthy) (key_true candidateHealthy)
    (then_by (same_z (h_Score ∘ snd)) (key_gt (h_Score ∘ snd))
      (then_by (same_f (rankLatency ∘ snd)) (key_flt (rankLatency ∘ snd))
        (then_by (same_z (r_Priority ∘ fst)) (key_lt (r_Priority ∘ fst))
          (key_slt (r_Tag ∘ fst))))).

(** The record of a pool member as the first loop reads it. *)
Definition poolHealth (routes : gmap string RouteHealth) (now : time) (route : Route) : RouteHealth :=
  let health := default zero_Health (routes !! r_Tag route) in
  if h_RouteTag health =s ""
  then zero_Health |> set_h_RouteTag (r_Tag route) |> set_h_RouteType (r_Type route)
         |> set_h_State "unknown" |> set_h_Role "quarantined" |> set_h_Score 50 |> set_h_UpdatedAt now
  else health.

Definition poolCandidates (routes : gmap string RouteHealth) (pool : list Route) (now : time)
    : list (Route * RouteHealth) :=
  map (fun route => (route, poolHealth routes now route))
    (List.filter (fun route => (r_Type route =s "vless") && Enabled route) pool).

(** A selected member within its role hold; the last one in the list wins. *)
Definition heldSelected (now : time) (candidates : list (Route * RouteHealth)) : string :=
  foldl (fun cur '(route, health) =>
           if (h_Role health =s "selected") && (h_State health =s "healthy")
              && T.Before now (h_RoleHoldUntil health)
           then r_Tag route else cur) "" candidates.

(** The candidates in the order of the second loop, and the selected tag. *)
Definition selectMember (now : time) (candidates : list (Route * RouteHealth))
    : list (Route * RouteHealth) * string :=
  let held := heldSelected now candidates in
  if held =s "" then
    let sorted := gosort vlessCandidateOrder candidates in
    (sorted, match sorted with
             | (route, health) :: _ => if h_State health =s "healthy" then r_Tag route else ""
             | [] => ""
             end)
  else (candidates, held).

Definition roleOf (selected : string) (route : Route) (health : RouteHealth) : string :=
  if h_State health =s "healthy" then
    if r_Tag route =s selected then "selected" else "standby"
  else "quarantined".

Definition assignRole (selected : string) (hold : duration) (now : time) (route : Route) (health : RouteHealth)
    : RouteHealth :=
  let role := roleOf selected route health in
  if h_Role health <>s role then
    health |> set_h_Role role |> set_h_UpdatedAt now
      |> set_h_RoleHoldUntil (if role =s "selected" then T.Add now hold else T.zero)
  else health.

(** [AssignVLESSRoles] on a non-nil tracker. *)
Definition AssignVLESSRoles (routes : gmap string RouteHealth) (pool : list Route) (policy : Policy) (now : time)
    : gmap string RouteHealth * list RouteHealth :=
  let hold := holdDuration policy in
  let '(candidates, selected) := selectMember now (poolCandidates routes pool now) in
  let '(routes, res) :=
    foldl (fun '(routes, res) '(route, health) =>
             let health := assignRole selected hold now route health in
             (<[r_Tag route := health]> routes, res ++ [health]))
      (routes, []) candidates in
  (routes, gosort (key_slt h_RouteTag) res).

(** ** Reads *)

(** [Snapshot]: a map iteration, sorted by tag. *)
Definition Snapshot (routes : gmap string RouteHealth) : list RouteHealth :=
  gosort (key_slt h_RouteTag) (map snd (map_to_list routes)).

(** [Get]: [None] for [(RouteHealth{}, false)]. *)
Definition Get (routes : option (gmap string RouteHealth)) (routeTag : string) : option RouteHealth :=
  match routes with
  | None => None
  | Some routes => if routeTag =s "" then None else routes !! routeTag
  end.

Definition healthRank (state : string) : Z :=
  if state =s "healthy" then 0
  else if containsString ["unknown"; ""] state then 1
  else if state =s "recovering" then 2
  else if state =s "unhealthy" then 3
  else if state =s "not_configured" then 4
  else 3.

Definition vlessRoleRank (health : RouteHealth) : Z :=
  if (h_State health =s "healthy") && (h_Role health =s "selected") then 0
  else if (h_State health =s "healthy") && (h_Role health =s "standby") then 1
  else healthRank (h_State health) + 2.

Section Orders.
Context (routes : gmap string RouteHealth).
Definition healthOf (route : Route) : RouteHealth := default zero_Health (routes !! r_Tag route).

Definition smartDNSOrder : Route -> Route -> bool :=
  then_by (same_z (healthRank ∘ h_State ∘ healthOf)) (key_lt (healthRank ∘ h_State ∘ healthOf))
    (then_by (same_z (h_Score ∘ healthOf)) (key_gt (h_Score ∘ healthOf))
      (then_by (same_z r_Priority) (key_lt r_Priority) (key_slt r_Tag))).

Definition vlessOrder : Route -> Route -> bool :=
  then_by (same_z (vlessRoleRank ∘ healthOf)) (key_lt (vlessRoleRank ∘ healthOf))
    (then_by (same_z (h_Score ∘ healthOf)) (key_gt (h_Score ∘ healthOf))
      (then_by (same_f (rankLatency ∘ healthOf)) (key_flt (rankLatency ∘ healthOf))
        (then_by (same_z r_Priority) (key_lt r_Priority) (key_slt r_Tag)))).
End Orders.

Definition OrderSmartDNS (routes : option (gmap string RouteHealth)) (ordered : list Route) : list Route :=
  match routes with None => ordered | Some routes => gosort (smartDNSOrder routes) ordered end.
Definition OrderVLESS (routes : option (gmap string RouteHealth)) (ordered : list Route) : list Route :=
  match routes with None => ordered | Some routes => gosort (vlessOrder routes) ordered end.

(** ** Invariant of the records *)

Definition health_states : list string := ["unknown"; "healthy"; "recovering"; "unhealthy"; "not_configured"].
Definition health_roles : list string := ["selected"; "standby"; "quarantined"].

Record wf_health (h : RouteHealth) : Prop := {
  wf_score : 0 <= h_Score h <= 100;
  wf_errors : 0 <= h_ConsecutiveErrors h;
  wf_successes : 0 <= h_ConsecutiveSuccesses h;
  wf_streak : h_ConsecutiveErrors h = 0 \/ h_ConsecutiveSuccesses h = 0;
  wf_state : h_State h ∈ health_states;
  wf_role : h_Role h ∈ health_roles;
  wf_unhealthy : h_State h = "unhealthy" -> h_ConsecutiveSuccesses h = 0;
  wf_latency : f_nonneg (h_EWMALatencyMS h)
}.

(** A tracker: each record is stored under its own tag. *)
Definition wf_tracker (routes : gmap string RouteHealth) : Prop :=
  forall tag h, routes !! tag = Some h -> h_RouteTag h = tag /\ tag <> "" /\ wf_health h.

Lemma keep_cases v set h (P : RouteHealth -> Prop) : P h -> P (set v h) -> P (keep v set h).
Proof. unfold keep. by destruct (v <>s ""). Qed.

(** The fields [Observe] changes before it branches on success. *)
Record same_streak (h h' : RouteHealth) : Prop := {
  ss_tag : h_RouteTag h' = h_RouteTag h;
  ss_state : h_State h' = h_State h;
  ss_role : h_Role h' = h_Role h;
  ss_score : h_Score h' = h_Score h;
  ss_errors : h_ConsecutiveErrors h' = h_ConsecutiveErrors h;
  ss_successes : h_ConsecutiveSuccesses h' = h_ConsecutiveSuccesses h;
  ss_hold : h_HoldUntil h' = h_HoldUntil h;
  ss_latency : h_EWMALatencyMS h' = h_EWMALatencyMS h
}.
Lemma same_streak_refl h : same_streak h h.
Proof. by constructor. Qed.
Lemma same_streak_trans h1 h2 h3 : same_streak h1 h2 -> same_streak h2 h3 -> same_streak h1 h3.
Proof. intros [] []. constructor; congruence. Qed.

Definition observedBase (result : RouteResult) (now : time) (health : RouteHealth) : RouteHealth :=
  health
    |> set_h_Checks (h_Checks health + 1)
    |> set_h_LastCheckedAt now
    |> set_h_LastStatus (rr_Status result)
    |> updateAvailability (probeSuccess result)
    |> keep (rr_AdapterRevision result) set_h_AdapterRevision
    |> keep (rr_CandidateHash result) set_h_CandidateHash
    |> keep (rr_ArtifactManifestHash result) set_h_ArtifactManifestHash
    |> keep (rr_ExternalIPHash result) set_h_ExternalIPHash
    |> keep (rr_ExternalCountry result) set_h_ExternalCountry.

Lemma observedBase_streak result now h : same_streak h (observedBase result now h).
Proof.
  unfold observedBase.
  repeat (apply keep_cases; [|eapply same_streak_trans; [|by constructor]]).
  all: unfold updateAvailability; repeat destr_if; by constructor.
Qed.

Lemma nextHealth_unfold result policy now h :
  nextHealth result policy now h =
  set_h_UpdatedAt now
    (if probeSuccess result
     then observeSuccess result (recoverAfterOf policy) now (observedBase result now h)
     else observeFailure result (failAfterOf policy) (holdDuration policy) now (observedBase result now h)).
Proof. done. Qed.

(** The state machine of a route, on the fields that drive it. *)
Lemma nextHealth_success result policy now h :
  probeSuccess result = true ->
  let h' := nextHealth result policy now h in
  h_RouteTag h' = h_RouteTag h /\ h_Role h' = h_Role h /\ h_Score h' = minInt 100 (h_Score h + 10) /\
  h_ConsecutiveErrors h' = 0 /\ h_ConsecutiveSuccesses h' = h_ConsecutiveSuccesses h + 1 /\
  h_HoldUntil h' = h_HoldUntil h /\
  h_State h' = if ((h_State h =s "unhealthy") || (h_State h =s "recovering"))
                  && (T.Before now (h_HoldUntil h)
                      || (h_ConsecutiveSuccesses h + 1 <? recoverAfterOf policy))
               then "recovering" else "healthy".
Proof.
  intros Hs. cbv zeta. rewrite nextHealth_unfold, Hs.
  destruct (observedBase_streak result now h) as [Ht Hst Hr Hsc He Hsu Hh Hl].
  unfold observeSuccess, updateLatency.
  set (b := observedBase result now h) in *.
  destruct (0 <? rr_LatencyMS result); [destruct (F.eqb _ _)|];
    simpl; rewrite <- ?Ht, <- ?Hst, <- ?Hr, <- ?Hsc, <- ?Hsu, <- ?Hh;
    destruct (_ && _); simpl; repeat split; try done.
Qed.

Lemma nextHealth_failure result policy now h :
  probeSuccess result = false ->
  let h' := nextHealth result policy now h in
  h_RouteTag h' = h_RouteTag h /\ h_Role h' = h_Role h /\ h_Score h' = maxInt 0 (h_Score h - 20) /\
  h_ConsecutiveErrors h' = h_ConsecutiveErrors h + 1 /\ h_ConsecutiveSuccesses h' = 0 /\
  h_State h' = (if rr_Status result =s "NOT_CONFIGURED" then "not_configured"
                else if failAfterOf policy <=? h_ConsecutiveErrors h + 1 then "unhealthy"
                else h_State h) /\
  h_HoldUntil h' = (if negb (rr_Status result =s "NOT_CONFIGURED")
                       && (failAfterOf policy <=? h_ConsecutiveErrors h + 1)
                    then T.Add now (holdDuration policy) else h_HoldUntil h).
Proof.
  intros Hs. cbv zeta. rewrite nextHealth_unfold, Hs.
  destruct (observedBase_streak result now h) as [Ht Hst Hr Hsc He Hsu Hh Hl].
  unfold observeFailure. set (b := observedBase result now h) in *.
  simpl. rewrite <- ?Ht, <- ?Hst, <- ?Hr, <- ?Hsc, <- ?He, <- ?Hh.
  destruct (rr_Status result =s "NOT_CONFIGURED"); simpl; [by repeat split|].
  destruct (failAfterOf policy <=? _); simpl; by repeat split.
Qed.

Lemma recoverAfterOf_pos policy : 1 <= recoverAfterOf policy.
Proof. unfold recoverAfterOf. destr_if; lia. Qed.
Lemma failAfterOf_pos policy : 1 <= failAfterOf policy.
Proof. unfold failAfterOf. destr_if; lia. Qed.

Lemma updateLatency_nonneg ms h :
  f_nonneg (h_EWMALatencyMS h) -> f_nonneg (h_EWMALatencyMS (updateLatency ms h)).
Proof.
  intros H. unfold updateLatency. destruct (0 <? ms) eqn:E; [|done].
  destruct (F.eqb _ _); simpl; [apply of_Z_nonneg; lia|].
  pose proof (of_Z_nonneg ms ltac:(lia)).
  apply add_nonneg; (apply mul_finite_nonneg; [assumption|..]); [..|by vm_compute|by vm_compute|];
    [by vm_compute|by vm_compute|..]; right; intros E'; vm_compute in E'; discriminate.
Qed.

Lemma nextHealth_latency result policy now h :
  f_nonneg (h_EWMALatencyMS h) -> f_nonneg (h_EWMALatencyMS (nextHealth result policy now h)).
Proof.
  intros H. rewrite nextHealth_unfold. pose proof (ss_latency _ _ (observedBase_streak result now h)) as Hl.
  rewrite <- Hl in H. clear Hl. destruct (probeSuccess result).
  - unfold observeSuccess. destr_if; simpl; by apply updateLatency_nonneg.
  - unfold observeFailure. repeat destr_if; done.
Qed.

Lemma nextHealth_wf result policy now h : wf_health h -> wf_health (nextHealth result policy now h).
Proof.
  intros [S1 E1 C1 K1 St1 R1 U1 L1]. pose proof (nextHealth_latency result policy now h L1). destruct (probeSuccess result) eqn:Hs.
  - destruct (nextHealth_success result policy now h Hs) as (Ht & Hr & Hsc & He & Hsu & Hh & Hst).
    constructor; rewrite ?Hsc, ?He, ?Hsu, ?Hr, ?Hst; try done; try lia.
    + unfold minInt. destr_if; lia.
    + destr_if; in_list.
    + destr_if; done.
  - destruct (nextHealth_failure result policy now h Hs) as (Ht & Hr & Hsc & He & Hsu & Hst & Hh).
    constructor; rewrite ?Hsc, ?He, ?Hsu, ?Hr, ?Hst; try done; try lia.
    + unfold maxInt. destr_if; lia.
    + repeat destr_if; in_list.
Qed.

Lemma fresh_wf tag routeType f :
  (forall h, h_Score (f h) = h_Score h /\ h_ConsecutiveErrors (f h) = h_ConsecutiveErrors h /\
     h_ConsecutiveSuccesses (f h) = h_ConsecutiveSuccesses h /\ h_State (f h) = h_State h /\
     h_Role (f h) = h_Role h /\ h_EWMALatencyMS (f h) = h_EWMALatencyMS h) ->
  wf_health (f (zero_Health |> set_h_RouteTag tag |> set_h_RouteType routeType |> set_h_State "unknown"
     |> set_h_Role "quarantined" |> set_h_Score 50)).
Proof.
  intros Hf. match goal with |- wf_health (f ?h) => destruct (Hf h) as (H1 & H2 & H3 & H4 & H5 & H6) end.
  constructor; rewrite ?H1, ?H2, ?H3, ?H4, ?H5, ?H6; simpl; try lia; try done; in_list.
Qed.

Lemma observedHealth_wf routes tag routeType :
  wf_tracker routes -> tag <> "" ->
  wf_health (observedHealth routes tag routeType) /\ h_RouteTag (observedHealth routes tag routeType) = tag.
Proof.
  intros Hwf Hne. unfold observedHealth. destruct (routes !! tag) as [h|] eqn:Eh; simpl.
  - apply Hwf in Eh as (E1 & E2 & E3). rewrite E1. rewrite (proj2 (String.eqb_neq tag "")) by done. done.
  - split; [apply (fresh_wf tag routeType id)|]; done.
Qed.

Lemma Observe_wf routes result policy now :
  wf_tracker routes -> wf_tracker (Observe routes result policy now).1.
Proof.
  intros Hwf. unfold Observe. destruct (rr_Route result =s "") eqn:E; [done|]. str_eq. simpl.
  intros tag h. rewrite lookup_insert. case_decide as Hd; [|apply Hwf]. intros [= <-]. subst tag.
  destruct (observedHealth_wf routes (rr_Route result) (rr_RouteType result) Hwf E) as [Hw Ht].
  split; [|split; [done|by apply nextHealth_wf]].
  destruct (probeSuccess result) eqn:Hs.
  - destruct (nextHealth_success result policy now (observedHealth routes (rr_Route result) (rr_RouteType result)) Hs)
      as (H1 & _). congruence.
  - destruct (nextHealth_failure result policy now (observedHealth routes (rr_Route result) (rr_RouteType result)) Hs)
      as (H1 & _). congruence.
Qed.

(** ** Recovery from quarantine *)

(** A sequence of observations of one route. *)
Definition observeAll (policy : Policy) (h : RouteHealth) (trace : list (RouteResult * time)) : RouteHealth :=
  foldl (fun h '(result, now) => nextHealth result policy now h) h trace.

Lemma observeAll_snoc policy h trace result now :
  observeAll policy h (trace ++ [(result, now)]) = nextHealth result policy now (observeAll policy h trace).
Proof. unfold observeAll. by rewrite foldl_snoc. Qed.

(** The successes counted in the record are the last observations of the trace. *)
Lemma successes_are_trailing policy h trace :
  wf_health h -> h_ConsecutiveSuccesses h = 0 ->
  exists pre tail, trace = pre ++ tail /\ Forall (fun x => probeSuccess x.1 = true) tail /\
    Z.of_nat (length tail) = h_ConsecutiveSuccesses (observeAll policy h trace).
Proof.
  intros Hwf H0. induction trace as [|[r now] trace IH] using rev_ind.
  { exists [], []. simpl. by rewrite H0. }
  rewrite observeAll_snoc. destruct (probeSuccess r) eqn:Hs.
  - destruct IH as (pre & tail & -> & Htail & Hlen).
    destruct (nextHealth_success r policy now (observeAll policy h (pre ++ tail)) Hs) as (_ & _ & _ & _ & -> & _).
    exists pre, (tail ++ [(r, now)]). rewrite app_assoc. split; [done|]. split.
    + apply Forall_app_2; [done|]. by constructor.
    + rewrite length_app. simpl. lia.
  - destruct (nextHealth_failure r policy now (observeAll policy h trace) Hs) as (_ & _ & _ & _ & -> & _).
    exists (trace ++ [(r, now)]), []. by rewrite app_nil_r.
Qed.

Definition quarantined_state (h : RouteHealth) : Prop := h_State h = "unhealthy" \/ h_State h = "recovering".

(** The only way out of quarantine without a NOT_CONFIGURED result. *)
Lemma leave_quarantine policy h result now :
  quarantined_state h -> rr_Status result <> "NOT_CONFIGURED" ->
  quarantined_state (nextHealth result policy now h) \/
  (h_State (nextHealth result policy now h) = "healthy" /\ probeSuccess result = true /\
   h_HoldUntil h <= now /\ recoverAfterOf policy <= h_ConsecutiveSuccesses (nextHealth result policy now h)).
Proof.
  intros Hq Hn. destruct (probeSuccess result) eqn:Hs.
  - destruct (nextHealth_success result policy now h Hs) as (_ & _ & _ & _ & Hsu & _ & Hst).
    rewrite Hsu, Hst. unfold quarantined_state. rewrite Hst.
    assert (Hb : (h_State h =s "unhealthy") || (h_State h =s "recovering") = true).
    { destruct Hq as [->| ->]; done. }
    rewrite Hb. unfold T.Before. cbn [andb]. destr_if; [by left; right|].
    right. bool_split. repeat split; lia.
  - destruct (nextHealth_failure result policy now h Hs) as (_ & _ & _ & _ & _ & Hst & _).
    left. unfold quarantined_state. rewrite Hst.
    rewrite (proj2 (String.eqb_neq _ _) Hn). destr_if; [by left|done].
Qed.

(** Somewhere in the trace a quorum of successes ends after the hold. *)
Definition quorum_reached (policy : Policy) (h : RouteHealth) (trace : list (RouteResult * time)) : Prop :=
  exists before quorum result now after,
    trace = before ++ quorum ++ (result, now) :: after /\
    Forall (fun x => probeSuccess x.1 = true) (quorum ++ [(result, now)]) /\
    recoverAfterOf policy <= Z.of_nat (length (quorum ++ [(result, now)])) /\
    h_HoldUntil (observeAll policy h (before ++ quorum)) <= now.

Lemma quorum_reached_snoc policy h trace x :
  quorum_reached policy h trace -> quorum_reached policy h (trace ++ [x]).
Proof.
  intros (b & q & r & n & a & -> & H). exists b, q, r, n, (a ++ [x]). split; [|done].
  by rewrite <- !app_assoc.
Qed.

Lemma quarantine_or_quorum policy h trace :
  wf_health h -> h_State h = "unhealthy" ->
  Forall (fun x => rr_Status x.1 <> "NOT_CONFIGURED") trace ->
  quarantined_state (observeAll policy h trace) \/ quorum_reached policy h trace.
Proof.
  intros Hwf Hu. induction trace as [|[r now] trace IH] using rev_ind; intros Hnc; [by left; left|].
  apply Forall_app in Hnc as [Hnc Hr]. apply Forall_cons_1 in Hr as [Hr _].
  destruct (IH Hnc) as [Hq|Hq]; [|right; by apply quorum_reached_snoc].
  rewrite observeAll_snoc.
  destruct (leave_quarantine policy _ r now Hq Hr) as [?|(_ & Hs & Hhold & Hcount)]; [by left|]. right.
  destruct (nextHealth_success r policy now (observeAll policy h trace) Hs) as (_ & _ & _ & _ & Hsu & _).
  rewrite Hsu in Hcount.
  destruct (successes_are_trailing policy h trace Hwf (wf_unhealthy h Hwf Hu)) as (pre & tail & E & Ht & Hlen).
  exists pre, tail, r, now, []. rewrite E, <- app_assoc. split; [done|]. split.
  - apply Forall_app_2; [done|]. by constructor.
  - rewrite length_app. simpl. rewrite E in Hhold, Hcount, Hlen. split; [lia|done].
Qed.

(** Recovery needs a quorum.  Take a route that is unhealthy and any sequence
    of observations without a NOT_CONFIGURED result.  If the route is healthy at
    the end, then at some point of the sequence the last
    [recover_after_consecutive_successes] observations were all successes and the
    last of them came no earlier than the hold set by the failures. *)
Theorem recovery_needs_quorum policy h trace :
  wf_health h -> h_State h = "unhealthy" ->
  Forall (fun x => rr_Status x.1 <> "NOT_CONFIGURED") trace ->
  h_State (observeAll policy h trace) = "healthy" ->
  exists before quorum result now after,
    trace = before ++ quorum ++ (result, now) :: after /\
    Forall (fun x => probeSuccess x.1 = true) (quorum ++ [(result, now)]) /\
    recoverAfterOf policy <= Z.of_nat (length (quorum ++ [(result, now)])) /\
    h_HoldUntil (observeAll policy h (before ++ quorum)) <= now.
Proof.
  intros Hwf Hu Hnc Hh. destruct (quarantine_or_quorum policy h trace Hwf Hu Hnc) as [[Hq|Hq]|Hq];
    [congruence|congruence|exact Hq].
Qed.

Definition ex_result (ok : bool) : RouteResult :=
  mkResult "example.org" "svc" "vless-1" "vless" (if ok then "OK" else "FAIL") (if ok then "OK" else "FAIL")
    ok "rev1" "" "" false ok false false false false "NL" "" true 40 40 true F.zero [] "" "" None.
Definition ex_health_policy : Policy :=
  mkPolicy "" "" 0 0 (mkWeights F.zero F.zero F.zero F.zero) 60 2 2 3600 "" false false "" 0 0.
(** Unhealthy after two failures at 1s and 2s; held until 62s. *)
Definition ex_unhealthy : RouteHealth :=
  observeAll ex_health_policy (observedHealth ∅ "vless-1" "vless")
    [(ex_result false, 1 * second); (ex_result false, 2 * second)].
Definition ex_trace : list (RouteResult * time) :=
  [(ex_result true, 30 * second); (ex_result true, 61 * second); (ex_result true, 62 * second)].

Lemma recovery_needs_quorum_witness :
  (h_State ex_unhealthy = "unhealthy" /\
   h_State (observeAll ex_health_policy ex_unhealthy (take 2 ex_trace)) = "recovering" /\
   h_State (observeAll ex_health_policy ex_unhealthy ex_trace) = "healthy") /\
  exists before quorum result now after,
    ex_trace = before ++ quorum ++ (result, now) :: after /\
    Forall (fun x => probeSuccess x.1 = true) (quorum ++ [(result, now)]) /\
    recoverAfterOf ex_health_policy <= Z.of_nat (length (quorum ++ [(result, now)])) /\
    h_HoldUntil (observeAll ex_health_policy ex_unhealthy (before ++ quorum)) <= now.
Proof.
  split; [vm_compute; done|]. apply recovery_needs_quorum.
  - apply (nextHealth_wf (ex_result false) ex_health_policy (2 * second)).
    apply nextHealth_wf, (fresh_wf "vless-1" "vless" id). done.
  - vm_compute. reflexivity.
  - repeat constructor; done.
  - vm_compute. reflexivity.
Defined.

(** ** The VLESS pool: one selected member *)

Section Pool.
Context (routes : gmap string RouteHealth) (pool : list Route) (policy : Policy) (now : time).
Context (Hwf : wf_tracker routes).

Definition candidates : list (Route * RouteHealth) := poolCandidates routes pool now.
Definition selectedTag : string := (selectMember now candidates).2.

(** Pool members carry distinct, non-empty tags ([Validate] rejects others). *)
Definition pool_tags_ok : Prop := NoDup (r_Tag <$> pool) /\ "" ∉ r_Tag <$> pool.

Lemma poolHealth_wf route : r_Tag route <> "" ->
  wf_health (poolHealth routes now route) /\ h_RouteTag (poolHealth routes now route) = r_Tag route.
Proof.
  intros Hne. unfold poolHealth. destruct (routes !! r_Tag route) as [h|] eqn:Eh; simpl.
  - apply Hwf in Eh as (E1 & _ & E3). by rewrite E1, (proj2 (String.eqb_neq _ _) Hne).
  - split; [apply (fresh_wf (r_Tag route) (r_Type route) (set_h_UpdatedAt now))|]; done.
Qed.

Lemma elem_of_candidates route h :
  (route, h) ∈ candidates <->
  route ∈ pool /\ r_Type route = "vless" /\ Enabled route = true /\ h = poolHealth routes now route.
Proof.
  unfold candidates, poolCandidates. rewrite list_elem_of_fmap. split.
  - intros (r & [= -> ->] & Hr). rewrite elem_of_filter_b in Hr.
    destruct Hr as [? ?]. bool_split. by str_eq.
  - intros (Hr & Ht & He & ->). exists route. split; [done|].
    rewrite elem_of_filter_b. by rewrite Ht, He.
Qed.

Lemma candidates_wf x : pool_tags_ok -> x ∈ candidates ->
  wf_health x.2 /\ h_RouteTag x.2 = r_Tag x.1 /\ r_Tag x.1 <> "".
Proof.
  intros [_ Hne] Hx. destruct x as [r h]. apply elem_of_candidates in Hx as (Hr & _ & _ & ->). simpl.
  assert (r_Tag r <> "") by (intros E; apply Hne; rewrite <- E; by apply list_elem_of_fmap_2).
  split_and!; [by apply poolHealth_wf..|done].
Qed.

(** With well-formed records no latency is NaN, and the sort's comparator
    agrees with a strict weak order. *)
Definition vlessCandidateTotal : Route * RouteHealth -> Route * RouteHealth -> bool :=
  then_by (same_b candidateHealthy) (key_true candidateHealthy)
    (then_by (same_z (h_Score ∘ snd)) (key_gt (h_Score ∘ snd))
      (then_by (total_same (rankLatency ∘ snd)) (total_flt (rankLatency ∘ snd))
        (then_by (same_z (r_Priority ∘ fst)) (key_lt (r_Priority ∘ fst))
          (key_slt (r_Tag ∘ fst))))).

#[local] Instance StrictWeak_vless : StrictWeak vlessCandidateTotal.
Proof. repeat (apply StrictWeak_then_by; [auto with flint| |auto with flint]). auto with flint. Qed.

Lemma rankLatency_not_nan h : wf_health h -> F.is_nan (rankLatency h) = false.
Proof.
  intros H. unfold rankLatency. destr_if; [by vm_compute|]. apply f_nonneg_not_nan, H.
Qed.

Lemma vless_agree x y : pool_tags_ok -> x ∈ candidates -> y ∈ candidates ->
  vlessCandidateOrder x y = vlessCandidateTotal x y.
Proof.
  intros Hok Hx Hy. apply candidates_wf in Hx as (Hx & _), Hy as (Hy & _); try done.
  unfold vlessCandidateOrder, vlessCandidateTotal, then_by.
  rewrite (feq_total (rankLatency ∘ snd)), (flt_total (rankLatency ∘ snd)) by (simpl; by apply rankLatency_not_nan).
  done.
Qed.

Lemma selectMember_perm : (selectMember now candidates).1 ≡ₚ candidates.
Proof. unfold selectMember. destr_if; [apply gosort_perm|done]. Qed.

Lemma heldSelected_Some cands : heldSelected now cands <> "" ->
  exists x, x ∈ cands /\ r_Tag x.1 = heldSelected now cands /\ h_State x.2 = "healthy".
Proof.
  induction cands as [|[r h] cands IH] using rev_ind; [done|].
  unfold heldSelected in *. rewrite foldl_snoc. destr_if.
  - intros _. bool_split. str_eq. exists (r, h). split; [apply elem_of_app; right; left|done].
  - intros (x & Hx & ?)%IH. exists x. split; [apply elem_of_app; by left|done].
Qed.

Lemma selected_spec : pool_tags_ok ->
  (selectedTag = "" /\ forall x, x ∈ candidates -> h_State x.2 <> "healthy") \/
  (exists x, x ∈ candidates /\ r_Tag x.1 = selectedTag /\ h_State x.2 = "healthy").
Proof.
  intros Hok. unfold selectedTag, selectMember.
  destruct (heldSelected now candidates =s "") eqn:E; str_eq; [|right; by apply heldSelected_Some].
  rewrite (gosort_ext vlessCandidateOrder vlessCandidateTotal candidates)
    by (intros; by apply vless_agree).
  destruct (gosort vlessCandidateTotal candidates) as [|[r h] rest] eqn:Es; simpl.
  { left. split; [done|]. intros x Hx.
    rewrite <- (gosort_perm vlessCandidateTotal), Es in Hx. by apply elem_of_nil in Hx. }
  assert (Hin : (r, h) ∈ candidates) by (rewrite <- (gosort_perm vlessCandidateTotal), Es; left).
  destruct (h_State h =s "healthy") eqn:Eh; str_eq; [right; by exists (r, h)|].
  left. split; [done|]. intros x Hx Hh.
  pose proof (gosort_head_min vlessCandidateTotal _ _ _ x Es Hx) as Hmin.
  unfold vlessCandidateTotal, then_by, same_b, key_true, candidateHealthy in Hmin. simpl in Hmin.
  rewrite Hh in Hmin. rewrite (proj2 (String.eqb_neq _ _) Eh) in Hmin. done.
Qed.
End Pool.

(** The second loop: every candidate gets its role, nothing else changes. *)
Lemma assign_loop selected hold now (cs : list (Route * RouteHealth))
    (routes : gmap string RouteHealth) (res : list RouteHealth) :
  NoDup ((r_Tag ∘ fst) <$> cs) ->
  let out := foldl (fun '(routes, res) '(route, health) =>
               let health := assignRole selected hold now route health in
               (<[r_Tag route := health]> routes, res ++ [health])) (routes, res) cs in
  (forall r h, (r, h) ∈ cs -> out.1 !! r_Tag r = Some (assignRole selected hold now r h)) /\
  (forall tag, (forall r h, (r, h) ∈ cs -> r_Tag r <> tag) -> out.1 !! tag = routes !! tag) /\
  out.2 = res ++ map (fun '(r, h) => assignRole selected hold now r h) cs.
Proof.
  cbv zeta. revert routes res; induction cs as [|[r h] cs IH]; intros routes res Hnd; simpl.
  { split; [|split; [done|by rewrite app_nil_r]]. intros ? ? Hx. by apply elem_of_nil in Hx. }
  apply NoDup_cons in Hnd as [Hr Hnd].
  destruct (IH (<[r_Tag r := assignRole selected hold now r h]> routes)
              (res ++ [assignRole selected hold now r h]) Hnd) as (H1 & H2 & H3).
  assert (Hfresh : forall r' h', (r', h') ∈ cs -> r_Tag r' <> r_Tag r).
  { intros r' h' Hin E. apply Hr. apply list_elem_of_fmap. by exists (r', h'). }
  split; [|split].
  - intros r' h' [[= -> ->]|Hin]%elem_of_cons; [|by apply H1].
    rewrite H2 by done. apply lookup_insert_eq.
  - intros tag Hne. rewrite H2 by (intros; eapply Hne; right; eauto).
    apply lookup_insert_ne. apply (Hne r h). left.
  - by rewrite H3, <- app_assoc.
Qed.

Lemma assignRole_fields selected hold now r h :
  let h' := assignRole selected hold now r h in
  h_Role h' = roleOf selected r h /\ h_State h' = h_State h /\ h_RouteTag h' = h_RouteTag h /\
  (wf_health h -> wf_health h').
Proof.
  cbv zeta. unfold assignRole. destruct (h_Role h <>s roleOf selected r h) eqn:E; simpl.
  - split_and!; try done. intros []. constructor; simpl; try done. unfold roleOf. repeat destr_if; in_list.
  - bool_split. str_eq. by split_and!.
Qed.

(** Sorting a well-formed result by tag does not depend on its order. *)
Definition member (pool : list Route) (r : Route) : Prop :=
  r ∈ pool /\ r_Type r = "vless" /\ Enabled r = true.

Lemma candidates_nodup routes pool now :
  NoDup (r_Tag <$> pool) -> NoDup ((r_Tag ∘ fst) <$> candidates routes pool now).
Proof.
  intros Hnd. unfold candidates, poolCandidates. rewrite <- list_fmap_compose.
  change (NoDup (r_Tag <$> List.filter (fun route => (r_Type route =s "vless") && Enabled route) pool)).
  induction pool as [|r pool IH]; simpl; [constructor|]. apply NoDup_cons in Hnd as [Hr Hnd].
  destr_if; [|by apply IH]. cbn. constructor; [|by apply IH].
  intros (x & E & Hx)%list_elem_of_fmap. apply Hr. rewrite E. apply list_elem_of_fmap_2.
  rewrite elem_of_filter_b in Hx. tauto.
Qed.

(** What a call of [AssignVLESSRoles] leaves in the tracker. *)
Lemma AssignVLESSRoles_lookup routes pool policy now :
  wf_tracker routes -> pool_tags_ok pool ->
  let routes' := (AssignVLESSRoles routes pool policy now).1 in
  let sel := selectedTag routes pool now in
  (forall r, member pool r -> routes' !! r_Tag r =
     Some (assignRole sel (holdDuration policy) now r (poolHealth routes now r))) /\
  (forall tag, (forall r, member pool r -> r_Tag r <> tag) -> routes' !! tag = routes !! tag).
Proof.
  intros Hwf Hok. cbv zeta. unfold AssignVLESSRoles, selectedTag.
  fold (candidates routes pool now).
  pose proof (selectMember_perm routes pool now) as HP.
  destruct (selectMember now (candidates routes pool now)) as [cs sel] eqn:Es. simpl in HP |- *.
  destruct (assign_loop sel (holdDuration policy) now cs routes []) as (H1 & H2 & _).
  { rewrite HP. apply candidates_nodup, Hok. }
  destruct (foldl _ (routes, []) cs) as [routes' res]. simpl in *. split.
  - intros r (Hr & Ht & He). apply H1. rewrite HP. apply elem_of_candidates. done.
  - intros tag Hne. apply H2. intros r h. rewrite HP. intros (Hr & Ht & He & _)%elem_of_candidates.
    apply Hne. done.
Qed.

Lemma AssignVLESSRoles_wf routes pool policy now :
  wf_tracker routes -> pool_tags_ok pool -> wf_tracker (AssignVLESSRoles routes pool policy now).1.
Proof.
  intros Hwf Hok. destruct (AssignVLESSRoles_lookup routes pool policy now Hwf Hok) as [H1 H2].
  intros tag h Hh.
  destruct (decide (tag ∈ r_Tag <$> List.filter (fun r => (r_Type r =s "vless") && Enabled r) pool)) as [Hin|Hout].
  - apply list_elem_of_fmap in Hin as (r & -> & Hr).
    rewrite elem_of_filter_b in Hr. destruct Hr as [Hr Hb]. bool_split. str_eq.
    rewrite H1 in Hh by done. injection Hh as <-.
    assert (Hne : r_Tag r <> "") by (intros E; apply Hok; rewrite <- E; by apply list_elem_of_fmap_2).
    destruct (poolHealth_wf routes now Hwf r Hne) as [Hw Htag].
    destruct (assignRole_fields (selectedTag routes pool now) (holdDuration policy) now r (poolHealth routes now r))
      as (_ & _ & E & Hwf'). rewrite E. split; [done|]. split; [done|]. by apply Hwf'.
  - rewrite H2 in Hh; [by apply Hwf|]. intros r (Hr & Ht & He) E. apply Hout. rewrite <- E.
    apply list_elem_of_fmap_2. rewrite elem_of_filter_b. by rewrite Ht, He.
Qed.

(** The VLESS pool has exactly one selected member while any member is
    healthy.  After [AssignVLESSRoles] on a well-formed tracker every enabled
    VLESS route of the pool is in the tracker with its state unchanged; healthy
    members are selected or standby and all others quarantined; no two members
    are selected; and if some member is healthy then one is selected.  Routes
    outside the pool keep their records, and the tracker stays well formed. *)
Theorem AssignVLESSRoles_one_selected routes pool policy now :
  wf_tracker routes -> pool_tags_ok pool ->
  let routes' := (AssignVLESSRoles routes pool policy now).1 in
  let role r := default "" (h_Role <$> routes' !! r_Tag r) in
  let healthy r := h_State (poolHealth routes now r) = "healthy" in
  wf_tracker routes' /\
  (forall r, member pool r ->
     h_State <$> routes' !! r_Tag r = Some (h_State (poolHealth routes now r)) /\
     (healthy r -> role r = "selected" \/ role r = "standby") /\
     (~ healthy r -> role r = "quarantined")) /\
  (forall r1 r2, member pool r1 -> member pool r2 -> role r1 = "selected" -> role r2 = "selected" -> r1 = r2) /\
  ((exists r, member pool r /\ healthy r) -> exists r, member pool r /\ role r = "selected") /\
  (forall tag, (forall r, member pool r -> r_Tag r <> tag) -> routes' !! tag = routes !! tag).
Proof.
  intros Hwf Hok. cbv zeta. destruct (AssignVLESSRoles_lookup routes pool policy now Hwf Hok) as [H1 H2].
  set (sel := selectedTag routes pool now) in *. set (hold := holdDuration policy) in *.
  set (routes' := (AssignVLESSRoles routes pool policy now).1) in *.
  assert (Hrole : forall r, member pool r ->
            default "" (h_Role <$> routes' !! r_Tag r) = roleOf sel r (poolHealth routes now r)).
  { intros r Hr. rewrite H1 by done. simpl. apply assignRole_fields. }
  split; [by apply AssignVLESSRoles_wf|]. split; [|split; [|split; [|done]]].
  - intros r Hr. rewrite Hrole, H1 by done. simpl. split; [f_equal; apply assignRole_fields|].
    unfold roleOf. split; intros Hh.
    + rewrite Hh. simpl. destr_if; auto.
    + by rewrite (proj2 (String.eqb_neq _ _) Hh).
  - intros r1 r2 Hr1 Hr2. rewrite !Hrole by done. unfold roleOf.
    repeat (destr_if; try done). str_eq. intros _ _.
    destruct Hr1 as [I1 _], Hr2 as [I2 _]. destruct Hok as [Hnd _].
    apply (unique_key r_Tag pool); [done..|congruence].
  - intros (r & Hr & Hh). destruct (selected_spec routes pool now Hwf Hok) as [[_ Hno]|([r' h'] & Hx & Ht & Hs)].
    + exfalso. apply (Hno (r, poolHealth routes now r)); [|done]. apply elem_of_candidates. by destruct Hr as (? & ? & ?).
    + apply elem_of_candidates in Hx as (? & ? & ? & ->). exists r'. split; [done|].
      rewrite Hrole by done. unfold roleOf. simpl in Hs, Ht. rewrite Hs, Ht. simpl. by rewrite String.eqb_refl.
Qed.

Definition ex_member (tag : string) (priority : Z) : Route :=
  mkRoute "vless" tag priority false "" "1.1.1.1:53" true "" false.
Definition ex_pool : list Route := [ex_member "vless-a" 10; ex_member "vless-b" 20].
(** [vless-b] has been probed successfully, [vless-a] never. *)
Definition ex_tracker : gmap string RouteHealth :=
  (Observe ∅ (ex_result true |> (fun r => mkResult "example.org" "svc" "vless-b" "vless" "OK" "OK" true "rev1" "" ""
     false true false false false false "NL" "" true 40 40 true F.zero [] "" "" None))
     ex_health_policy second).1.

Lemma wf_empty : wf_tracker ∅.
Proof. intros tag h H. by rewrite lookup_empty in H. Qed.

Lemma AssignVLESSRoles_one_selected_witness :
  h_Role <$> (AssignVLESSRoles ex_tracker ex_pool ex_health_policy second).1 !! "vless-b" = Some "selected" /\
  let routes' := (AssignVLESSRoles ex_tracker ex_pool ex_health_policy second).1 in
  let role r := default "" (h_Role <$> routes' !! r_Tag r) in
  let healthy r := h_State (poolHealth ex_tracker second r) = "healthy" in
  wf_tracker routes' /\
  (forall r, member ex_pool r ->
     h_State <$> routes' !! r_Tag r = Some (h_State (poolHealth ex_tracker second r)) /\
     (healthy r -> role r = "selected" \/ role r = "standby") /\
     (~ healthy r -> role r = "quarantined")) /\
  (forall r1 r2, member ex_pool r1 -> member ex_pool r2 -> role r1 = "selected" -> role r2 = "selected" -> r1 = r2) /\
  ((exists r, member ex_pool r /\ healthy r) -> exists r, member ex_pool r /\ role r = "selected") /\
  (forall tag, (forall r, member ex_pool r -> r_Tag r <> tag) -> routes' !! tag = ex_tracker !! tag).
Proof.
  split; [vm_compute; reflexivity|]. apply AssignVLESSRoles_one_selected.
  - apply Observe_wf, wf_empty.
  - split; vm_compute; [repeat constructor|].
    + intros H. apply list_elem_of_singleton in H. discriminate.
    + intros H. by apply elem_of_nil in H.
    + intros H. repeat (apply elem_of_cons in H as [H|H]; [discriminate|]). by apply elem_of_nil in H.
Defined.

(** ** Reachable trackers *)

(** A tracker built from persisted records and updated by any sequence of probe
    results and role assignments. *)
Inductive reachable : gmap string RouteHealth -> Prop :=
| reach_init initial : Forall (fun h => h_RouteTag h <> "" -> wf_health h) initial ->
    reachable (NewHealthTracker initial)
| reach_observe routes result policy now : reachable routes -> reachable (Observe routes result policy now).1
| reach_assign routes pool policy now : reachable routes -> pool_tags_ok pool ->
    reachable (AssignVLESSRoles routes pool policy now).1.

Lemma NewHealthTracker_wf initial :
  Forall (fun h => h_RouteTag h <> "" -> wf_health h) initial -> wf_tracker (NewHealthTracker initial).
Proof.
  unfold NewHealthTracker. induction initial as [|h initial IH] using rev_ind; intros Hall; [apply wf_empty|].
  apply Forall_app in Hall as [Hall Hh]. apply Forall_cons_1 in Hh as [Hh _]. rewrite foldl_snoc.
  destr_if; [|by apply IH]. bool_split. str_eq. intros tag h'. rewrite lookup_insert.
  case_decide as E; [|by apply IH]. intros [= <-]. subst. split_and!; auto.
Qed.

Lemma reachable_wf routes : reachable routes -> wf_tracker routes.
Proof. induction 1; auto using NewHealthTracker_wf, Observe_wf, AssignVLESSRoles_wf. Qed.

Lemma elem_of_Snapshot routes h : h ∈ Snapshot routes <-> exists tag, routes !! tag = Some h.
Proof.
  unfold Snapshot. rewrite gosort_perm. rewrite list_elem_of_fmap. split.
  - intros ([tag h'] & -> & Hx). exists tag. by apply elem_of_map_to_list.
  - intros (tag & Hx). exists (tag, h). split; [done|]. by apply elem_of_map_to_list.
Qed.
