(* ===== verification/Evidence.v ===== *)
(** * Evidence that traffic takes its route

    [internal/evidence/evidence.go]: what the data plane reports of a route, and the
    checks that make it a proof of what the verification plan requires. *)
From Stdlib Require Import ZArith Lia.
From stdpp Require Import base list strings gmap.
From S2P Require Import Prelude Net Config Validation Artifact.

Open Scope Z_scope.

(** [evidence.RouteResult]. *)
Record evidenceResult := mkEvidence {
  ev_Domain : string;
  ev_RouteTag : string;
  ev_RouteType : string;
  ev_AdapterRevision : string;
  ev_CandidateHash : string;
  ev_ArtifactManifestHash : string;
  ev_NFTMark : string;
  ev_ConntrackMark : string;
  ev_IPRulePriority : Z;
  ev_RouteTable : Z;
  ev_Interface : string;
  ev_DNSResolver : string;
  ev_DNSProtocol : string;
  ev_DNSResponseSafe : bool;
  ev_ResolvedIP : string;
  ev_ConnectedIP : string;
  ev_ConnectedPort : Z;
  ev_LocalIP : string;
  ev_AddressFamily : string;
  ev_Transport : string;
  ev_SocketMark : string;
  ev_HostPreserved : bool;
  ev_SNIPreserved : bool;
  ev_XrayOutboundTag : string;
  ev_SOCKS5Endpoint : string;
  ev_SOCKS5Loopback : bool;
  ev_DirectBypassXray : bool;
  ev_DirectBypassZapret : bool;
  ev_InheritedMarkCleared : bool;
  ev_ZapretInstalled : bool;
  ev_ZapretFlowProcessed : bool;
  ev_TCP443Verified : bool;
  ev_QUICPolicy : string;
  ev_ProxyFlowProcessed : bool;
  ev_IPv4Verified : bool;
  ev_IPv6Verified : bool;
  ev_DropIPv4Enforced : bool;
  ev_DropIPv6Enforced : bool;
  ev_DropDNSEnforced : bool;
  ev_ExternalIPHash : string;
  ev_ExternalCountry : string;
  ev_LatencyMS : Z;
  ev_RouteLatencyMS : Z;
  ev_RouteLatencyAvailable : bool;
  ev_VerificationDurationMS : Z;
  ev_TLSResult : string;
  ev_HTTPResult : string;
  ev_ContentResult : string;
  ev_FailureStage : string;
  ev_ReasonCode : string;
  ev_Status : string;
  ev_EvidenceSource : string;
  ev_Simulation : bool;
  ev_CheckedAt : time
}.
#[export] Instance eta_evidenceResult : Eta evidenceResult := fun r =>
  mkEvidence (ev_Domain r) (ev_RouteTag r) (ev_RouteType r) (ev_AdapterRevision r) (ev_CandidateHash r) (ev_ArtifactManifestHash r)
    (ev_NFTMark r) (ev_ConntrackMark r) (ev_IPRulePriority r) (ev_RouteTable r) (ev_Interface r) (ev_DNSResolver r) (ev_DNSProtocol r)
    (ev_DNSResponseSafe r) (ev_ResolvedIP r) (ev_ConnectedIP r) (ev_ConnectedPort r) (ev_LocalIP r) (ev_AddressFamily r) (ev_Transport
    r) (ev_SocketMark r) (ev_HostPreserved r) (ev_SNIPreserved r) (ev_XrayOutboundTag r) (ev_SOCKS5Endpoint r) (ev_SOCKS5Loopback r)
    (ev_DirectBypassXray r) (ev_DirectBypassZapret r) (ev_InheritedMarkCleared r) (ev_ZapretInstalled r) (ev_ZapretFlowProcessed r)
    (ev_TCP443Verified r) (ev_QUICPolicy r) (ev_ProxyFlowProcessed r) (ev_IPv4Verified r) (ev_IPv6Verified r) (ev_DropIPv4Enforced r)
    (ev_DropIPv6Enforced r) (ev_DropDNSEnforced r) (ev_ExternalIPHash r) (ev_ExternalCountry r) (ev_LatencyMS r) (ev_RouteLatencyMS r)
    (ev_RouteLatencyAvailable r) (ev_VerificationDurationMS r) (ev_TLSResult r) (ev_HTTPResult r) (ev_ContentResult r)
    (ev_FailureStage r) (ev_ReasonCode r) (ev_Status r) (ev_EvidenceSource r) (ev_Simulation r) (ev_CheckedAt r).
Definition zero_evidenceResult : evidenceResult :=
  mkEvidence "" "" "" "" "" "" "" "" 0 0 "" "" "" false "" "" 0 "" "" "" "" false false "" "" false false false false false false
    false "" false false false false false false "" "" 0 0 false 0 "" "" "" "" "" "" "" false T.zero.
Definition set_ev_Domain (v : string) (r : evidenceResult) : evidenceResult := ltac:(assign r ev_Domain v).
Definition set_ev_RouteTag (v : string) (r : evidenceResult) : evidenceResult := ltac:(assign r ev_RouteTag v).
Definition set_ev_RouteType (v : string) (r : evidenceResult) : evidenceResult := ltac:(assign r ev_RouteType v).
Definition set_ev_AdapterRevision (v : string) (r : evidenceResult) : evidenceResult := ltac:(assign r ev_AdapterRevision v).
Definition set_ev_CandidateHash (v : string) (r : evidenceResult) : evidenceResult := ltac:(assign r ev_CandidateHash v).
Definition set_ev_ArtifactManifestHash (v : string) (r : evidenceResult) : evidenceResult := ltac:(assign r ev_ArtifactManifestHash v).
Definition set_ev_NFTMark (v : string) (r : evidenceResult) : evidenceResult := ltac:(assign r ev_NFTMark v).
Definition set_ev_ConntrackMark (v : string) (r : evidenceResult) : evidenceResult := ltac:(assign r ev_ConntrackMark v).
Definition set_ev_IPRulePriority (v : Z) (r : evidenceResult) : evidenceResult := ltac:(assign r ev_IPRulePriority v).
Definition set_ev_RouteTable (v : Z) (r : evidenceResult) : evidenceResult := ltac:(assign r ev_RouteTable v).
Definition set_ev_Interface (v : string) (r : evidenceResult) : evidenceResult := ltac:(assign r ev_Interface v).
Definition set_ev_DNSResolver (v : string) (r : evidenceResult) : evidenceResult := ltac:(assign r ev_DNSResolver v).
Definition set_ev_DNSProtocol (v : string) (r : evidenceResult) : evidenceResult := ltac:(assign r ev_DNSProtocol v).
Definition set_ev_DNSResponseSafe (v : bool) (r : evidenceResult) : evidenceResult := ltac:(assign r ev_DNSResponseSafe v).
Definition set_ev_ResolvedIP (v : string) (r : evidenceResult) : evidenceResult := ltac:(assign r ev_ResolvedIP v).
Definition set_ev_ConnectedIP (v : string) (r : evidenceResult) : evidenceResult := ltac:(assign r ev_ConnectedIP v).
Definition set_ev_ConnectedPort (v : Z) (r : evidenceResult) : evidenceResult := ltac:(assign r ev_ConnectedPort v).
Definition set_ev_LocalIP (v : string) (r : evidenceResult) : evidenceResult := ltac:(assign r ev_LocalIP v).
Definition set_ev_AddressFamily (v : string) (r : evidenceResult) : evidenceResult := ltac:(assign r ev_AddressFamily v).
Definition set_ev_Transport (v : string) (r : evidenceResult) : evidenceResult := ltac:(assign r ev_Transport v).
Definition set_ev_SocketMark (v : string) (r : evidenceResult) : evidenceResult := ltac:(assign r ev_SocketMark v).
Definition set_ev_HostPreserved (v : bool) (r : evidenceResult) : evidenceResult := ltac:(assign r ev_HostPreserved v).
Definition set_ev_SNIPreserved (v : bool) (r : evidenceResult) : evidenceResult := ltac:(assign r ev_SNIPreserved v).
Definition set_ev_XrayOutboundTag (v : string) (r : evidenceResult) : evidenceResult := ltac:(assign r ev_XrayOutboundTag v).
Definition set_ev_SOCKS5Endpoint (v : string) (r : evidenceResult) : evidenceResult := ltac:(assign r ev_SOCKS5Endpoint v).
Definition set_ev_SOCKS5Loopback (v : bool) (r : evidenceResult) : evidenceResult := ltac:(assign r ev_SOCKS5Loopback v).
Definition set_ev_DirectBypassXray (v : bool) (r : evidenceResult) : evidenceResult := ltac:(assign r ev_DirectBypassXray v).
Definition set_ev_DirectBypassZapret (v : bool) (r : evidenceResult) : evidenceResult := ltac:(assign r ev_DirectBypassZapret v).
Definition set_ev_InheritedMarkCleared (v : bool) (r : evidenceResult) : evidenceResult := ltac:(assign r ev_InheritedMarkCleared v).
Definition set_ev_ZapretInstalled (v : bool) (r : evidenceResult) : evidenceResult := ltac:(assign r ev_ZapretInstalled v).
Definition set_ev_ZapretFlowProcessed (v : bool) (r : evidenceResult) : evidenceResult := ltac:(assign r ev_ZapretFlowProcessed v).
Definition set_ev_TCP443Verified (v : bool) (r : evidenceResult) : evidenceResult := ltac:(assign r ev_TCP443Verified v).
Definition set_ev_QUICPolicy (v : string) (r : evidenceResult) : evidenceResult := ltac:(assign r ev_QUICPolicy v).
Definition set_ev_ProxyFlowProcessed (v : bool) (r : evidenceResult) : evidenceResult := ltac:(assign r ev_ProxyFlowProcessed v).
Definition set_ev_IPv4Verified (v : bool) (r : evidenceResult) : evidenceResult := ltac:(assign r ev_IPv4Verified v).
Definition set_ev_IPv6Verified (v : bool) (r : evidenceResult) : evidenceResult := ltac:(assign r ev_IPv6Verified v).
Definition set_ev_DropIPv4Enforced (v : bool) (r : evidenceResult) : evidenceResult := ltac:(assign r ev_DropIPv4Enforced v).
Definition set_ev_DropIPv6Enforced (v : bool) (r : evidenceResult) : evidenceResult := ltac:(assign r ev_DropIPv6Enforced v).
Definition set_ev_DropDNSEnforced (v : bool) (r : evidenceResult) : evidenceResult := ltac:(assign r ev_DropDNSEnforced v).
Definition set_ev_ExternalIPHash (v : string) (r : evidenceResult) : evidenceResult := ltac:(assign r ev_ExternalIPHash v).
Definition set_ev_ExternalCountry (v : string) (r : evidenceResult) : evidenceResult := ltac:(assign r ev_ExternalCountry v).
Definition set_ev_LatencyMS (v : Z) (r : evidenceResult) : evidenceResult := ltac:(assign r ev_LatencyMS v).
Definition set_ev_RouteLatencyMS (v : Z) (r : evidenceResult) : evidenceResult := ltac:(assign r ev_RouteLatencyMS v).
Definition set_ev_RouteLatencyAvailable (v : bool) (r : evidenceResult) : evidenceResult := ltac:(assign r ev_RouteLatencyAvailable v).
Definition set_ev_VerificationDurationMS (v : Z) (r : evidenceResult) : evidenceResult := ltac:(assign r ev_VerificationDurationMS v).
Definition set_ev_TLSResult (v : string) (r : evidenceResult) : evidenceResult := ltac:(assign r ev_TLSResult v).
Definition set_ev_HTTPResult (v : string) (r : evidenceResult) : evidenceResult := ltac:(assign r ev_HTTPResult v).
Definition set_ev_ContentResult (v : string) (r : evidenceResult) : evidenceResult := ltac:(assign r ev_ContentResult v).
Definition set_ev_ReasonCode (v : string) (r : evidenceResult) : evidenceResult := ltac:(assign r ev_ReasonCode v).
Definition set_ev_Status (v : string) (r : evidenceResult) : evidenceResult := ltac:(assign r ev_Status v).
Definition set_ev_EvidenceSource (v : string) (r : evidenceResult) : evidenceResult := ltac:(assign r ev_EvidenceSource v).
Definition set_ev_Simulation (v : bool) (r : evidenceResult) : evidenceResult := ltac:(assign r ev_Simulation v).
Definition set_ev_CheckedAt (v : time) (r : evidenceResult) : evidenceResult := ltac:(assign r ev_CheckedAt v).

Record Report := mkReport {
  rep_Binding : Binding;
  rep_ArtifactManifestHash : string;
  rep_DNSLeakFree : bool;
  rep_IPv6LeakFree : bool;
  rep_GeoLockedKillSwitch : bool;
  rep_Routes : list evidenceResult;
  rep_CheckedAt : time
}.
Record VerificationPlan := mkVerificationPlan {
  vp_Binding : Binding;
  vp_RequiredRouteProof : list RouteProof;
  vp_RequireDNSLeakCheck : bool;
  vp_RequireIPv6LeakCheck : bool;
  vp_RequireManagementLAN : bool
}.

Definition TLSOK (r : evidenceResult) : bool := S.EqualFold (ev_TLSResult r) "OK".
Definition validQUICPolicy (value : string) : bool :=
  containsString ["processed"; "forced_tcp"; "vless_fallback"; "not_applicable"] value.
(** [net.ParseIP(s) != nil]. *)
Definition isIP (s : string) : bool := match IP.ParseIP s with Some _ => true | None => false end.

(** What the type of the route must show. *)
Definition typeProof (required : RouteProof) (actual : evidenceResult) : result unit :=
  let lacks what := Err ("route " +:+ rp_Tag required +:+ " lacks " +:+ what) in
  let type := rp_Type required in
  if type =s "direct" then
    if negb (ev_DirectBypassXray actual) || negb (ev_DirectBypassZapret actual) || negb (ev_InheritedMarkCleared actual)
    then lacks "direct bypass proof" else Ok ()
  else if type =s "zapret" then
    if negb (ev_ZapretInstalled actual) || negb (ev_ZapretFlowProcessed actual) || negb (ev_TCP443Verified actual)
       || negb (validQUICPolicy (ev_QUICPolicy actual))
    then lacks "Zapret flow/QUIC proof" else Ok ()
  else if type =s "smart_dns" then
    if negb (ev_DNSResponseSafe actual) || negb (ev_HostPreserved actual) || (TLSOK actual && negb (ev_SNIPreserved actual))
    then lacks "Smart DNS response/Host/SNI proof" else Ok ()
  else if type =s "vless" then
    if negb (ev_SOCKS5Loopback actual) || S.is_empty (ev_SOCKS5Endpoint actual) then lacks "Xray outbound/SOCKS proof" else Ok ()
  else if type =s "external_socks" then
    if negb (ev_ProxyFlowProcessed actual) || negb (ev_SOCKS5Loopback actual) || S.is_empty (ev_SOCKS5Endpoint actual)
    then lacks "external SOCKS flow proof" else Ok ()
  else if type =s "drop" then Ok ()
  else Err ("route " +:+ rp_Tag required +:+ " has unsupported proof type " +:+ type).

(** The checks common to the routes that carry traffic. *)
Definition transportProof (required : RouteProof) (actual : evidenceResult) : result unit :=
  let lacks what := Err ("route " +:+ rp_Tag required +:+ " lacks " +:+ what) in
  if S.is_empty (ev_Interface actual) || S.is_empty (ev_DNSResolver actual) || negb (isIP (ev_ResolvedIP actual)) || negb (isIP (ev_ConnectedIP actual))
  then lacks "interface/DNS/IP proof"
  else if S.is_empty (ev_HTTPResult actual) || S.is_empty (ev_ContentResult actual) || S.is_empty (ev_ReasonCode actual) then lacks "application proof"
  else if rp_RequiresIPv4 required && negb (ev_IPv4Verified actual) then lacks "IPv4 proof"
  else if rp_RequiresIPv6 required && negb (ev_IPv6Verified actual) then lacks "IPv6 proof"
  else if rp_RequiresEgress required
          && (S.is_empty (ev_ExternalIPHash actual) || S.is_empty (ev_ExternalCountry actual) || S.EqualFold (ev_ExternalCountry actual) "UNKNOWN")
  then lacks "egress proof"
  else if rp_RequiresXrayOutbound required && negb (S.TrimSpace (ev_XrayOutboundTag actual) =s rp_Tag required) then lacks "bound Xray outbound proof"
  else typeProof required actual.

Definition ValidateRouteProof (required : RouteProof) (actual : evidenceResult) (binding : Binding) (manifestHash : string) : result unit :=
  let route what := Err ("route " +:+ rp_Tag required +:+ what) in
  if negb (ev_Status actual =s "OK") || negb (ev_RouteTag actual =s rp_Tag required) || negb (ev_RouteType actual =s rp_Type required)
     || negb (ev_AdapterRevision actual =s b_RevisionID binding) || negb (ev_CandidateHash actual =s b_CandidateHash binding)
     || negb (ev_ArtifactManifestHash actual =s manifestHash)
  then route " proof binding/status mismatch"
  else if T.IsZero (ev_CheckedAt actual) || S.is_empty (ev_EvidenceSource actual) then route " lacks timestamp/evidence source"
  else if negb (S.is_empty (rp_Mark required)) && negb (ev_NFTMark actual =s rp_Mark required) then route " mark/table proof mismatch"
  else if negb (S.is_empty (rp_Mark required)) && negb (rp_Type required =s "vless") && negb (ev_ConntrackMark actual =s rp_Mark required)
  then route " conntrack mark proof mismatch"
  else if (0 <? rp_RulePriority required) && negb (ev_IPRulePriority actual =? rp_RulePriority required) then route " rule priority proof mismatch"
  else if (0 <? rp_Table required) && negb (ev_RouteTable actual =? rp_Table required) then route " route table proof mismatch"
  else if rp_Type required =s "drop" then
    if negb (ev_DropIPv4Enforced actual) || negb (ev_DropIPv6Enforced actual) || negb (ev_DropDNSEnforced actual) || S.is_empty (ev_ReasonCode actual)
    then Err "drop route lacks IPv4/IPv6/DNS enforcement proof" else Ok ()
  else transportProof required actual.

(** The last result of a tag counts. *)
Definition byTag (routes : list evidenceResult) : gmap string evidenceResult :=
  fold_left (fun m r => <[ev_RouteTag r := r]> m) routes ∅.
Fixpoint verifyRequired (byTag : gmap string evidenceResult) (binding : Binding) (manifestHash : string) (required : list RouteProof) : result unit :=
  match required with
  | [] => Ok ()
  | r :: rest =>
      match byTag !! rp_Tag r with
      | None => Err ("route proof missing: " +:+ rp_Tag r)
      | Some actual => _ ← ValidateRouteProof r actual binding manifestHash; verifyRequired byTag binding manifestHash rest
      end
  end.
Definition VerifyReport (plan : VerificationPlan) (report : Report) (binding : Binding) (manifestHash : string) : result unit :=
  _ ← reject (negb (bool_decide (vp_Binding plan = binding))) "verification plan binding mismatch";
  _ ← reject (negb (bool_decide (rep_Binding report = binding)) || negb (rep_ArtifactManifestHash report =s manifestHash) || T.IsZero (rep_CheckedAt report))
        "data-plane evidence binding mismatch";
  _ ← reject (vp_RequireDNSLeakCheck plan && negb (rep_DNSLeakFree report)) "DNS leak check is not proven";
  _ ← reject (vp_RequireIPv6LeakCheck plan && negb (rep_IPv6LeakFree report)) "IPv6 leak check is not proven";
  verifyRequired (byTag (rep_Routes report)) binding manifestHash (vp_RequiredRouteProof plan).

(** [LoadVerificationPlan], once the file is read. *)
Definition checkVerificationPlan (plan : VerificationPlan) (expected : Binding) : result VerificationPlan :=
  _ ← reject (negb (bool_decide (vp_Binding plan = expected))) "verification plan binding mismatch"; Ok plan.
(** [LoadAndVerify], once the two files are read. *)
Definition LoadAndVerify (plan : VerificationPlan) (report : Report) (binding : Binding) (manifestHash : string) : result Report :=
  plan ← checkVerificationPlan plan binding; _ ← VerifyReport plan report binding manifestHash; Ok report.
