(* ===== verification/ProbeTypes.v ===== *)
(** * Results of probes

    The records of [internal/probe/probe.go] and [internal/probe/path.go]: what one
    attempt, one check and one probe of a route report, and what the path proof is
    given to compare.  [shown] is the part of a result that the planner and the
    health tracker read. *)
From Stdlib Require Import ZArith Lia SpecFloat.
From stdpp Require Import base list strings gmap.
From S2P Require Import Prelude Float64 Net Config Artifact Evidence Health.

Open Scope Z_scope.

#[export] Instance Addr_eq : EqDecision IP.Addr.
Proof. solve_decision. Defined.

(** [attemptResult]: one HTTP request to one address. *)
Record attemptResult := mkAttempt {
  at_Status : string;
  at_ConnectedIP : string;
  at_ConnectedPort : Z;
  at_LocalIP : string;
  at_AddressFamily : string;
  at_Transport : string;
  at_SocketMark : string;
  at_HostPreserved : bool;
  at_SNIPreserved : bool;
  at_TransportOK : bool;
  at_TLSOK : bool;
  at_HTTPOK : bool;
  at_ContentOK : bool;
  at_ExpectedCodeMatched : bool;
  at_HTTPCode : Z;
  at_Redirects : Z;
  at_RegionalBlock : bool;
  at_SuspectedTSPU : bool;
  at_AuthenticationRequired : bool;
  at_WAFOrRateLimit : bool;
  at_ResponseReceived : bool;
  at_Reason : string;
  at_RouteLatencyMS : Z;
  at_RouteLatencyAvailable : bool
}.
#[export] Instance eta_attemptResult : Eta attemptResult := fun r =>
  mkAttempt (at_Status r) (at_ConnectedIP r) (at_ConnectedPort r) (at_LocalIP r) (at_AddressFamily r) (at_Transport r)
    (at_SocketMark r) (at_HostPreserved r) (at_SNIPreserved r) (at_TransportOK r) (at_TLSOK r) (at_HTTPOK r) (at_ContentOK r)
    (at_ExpectedCodeMatched r) (at_HTTPCode r) (at_Redirects r) (at_RegionalBlock r) (at_SuspectedTSPU r) (at_AuthenticationRequired
    r) (at_WAFOrRateLimit r) (at_ResponseReceived r) (at_Reason r) (at_RouteLatencyMS r) (at_RouteLatencyAvailable r).
Definition zero_attemptResult : attemptResult :=
  mkAttempt "" "" 0 "" "" "" "" false false false false false false false 0 0 false false false false false "" 0 false.

(** [CheckResult]: one check of a service, over its addresses. *)
Record CheckResult := mkCheck {
  ck_Name : string;
  ck_URL : string;
  ck_Required : bool;
  ck_Status : string;
  ck_DNSOK : bool;
  ck_DNSResolver : string;
  ck_DNSProtocol : string;
  ck_ResolvedIPs : list string;
  ck_ConnectedIP : string;
  ck_ConnectedPort : Z;
  ck_LocalIP : string;
  ck_AddressFamily : string;
  ck_Transport : string;
  ck_SocketMark : string;
  ck_HostPreserved : bool;
  ck_SNIPreserved : bool;
  ck_TransportOK : bool;
  ck_TLSOK : bool;
  ck_HTTPOK : bool;
  ck_ContentOK : bool;
  ck_ExpectedCodeMatched : bool;
  ck_HTTPCode : Z;
  ck_Redirects : Z;
  ck_RegionalBlock : bool;
  ck_SuspectedTSPU : bool;
  ck_AuthenticationRequired : bool;
  ck_WAFOrRateLimit : bool;
  ck_LatencyMS : Z;
  ck_RouteLatencyMS : Z;
  ck_RouteLatencyAvailable : bool;
  ck_EndToEndLatencyMS : Z;
  ck_EndToEndLatencyAvailable : bool;
  ck_VerificationDurationMS : Z;
  ck_Reason : string
}.
#[export] Instance eta_CheckResult : Eta CheckResult := fun r =>
  mkCheck (ck_Name r) (ck_URL r) (ck_Required r) (ck_Status r) (ck_DNSOK r) (ck_DNSResolver r) (ck_DNSProtocol r) (ck_ResolvedIPs r)
    (ck_ConnectedIP r) (ck_ConnectedPort r) (ck_LocalIP r) (ck_AddressFamily r) (ck_Transport r) (ck_SocketMark r) (ck_HostPreserved
    r) (ck_SNIPreserved r) (ck_TransportOK r) (ck_TLSOK r) (ck_HTTPOK r) (ck_ContentOK r) (ck_ExpectedCodeMatched r) (ck_HTTPCode r)
    (ck_Redirects r) (ck_RegionalBlock r) (ck_SuspectedTSPU r) (ck_AuthenticationRequired r) (ck_WAFOrRateLimit r) (ck_LatencyMS r)
    (ck_RouteLatencyMS r) (ck_RouteLatencyAvailable r) (ck_EndToEndLatencyMS r) (ck_EndToEndLatencyAvailable r)
    (ck_VerificationDurationMS r) (ck_Reason r).
Definition zero_CheckResult : CheckResult :=
  mkCheck "" "" false "" false "" "" [] "" 0 "" "" "" "" false false false false false false false 0 0 false false false false 0 0
    false 0 false 0 "".
Definition set_ck_Name (v : string) (r : CheckResult) : CheckResult := ltac:(assign r ck_Name v).
Definition set_ck_URL (v : string) (r : CheckResult) : CheckResult := ltac:(assign r ck_URL v).
Definition set_ck_Required (v : bool) (r : CheckResult) : CheckResult := ltac:(assign r ck_Required v).
Definition set_ck_Status (v : string) (r : CheckResult) : CheckResult := ltac:(assign r ck_Status v).
Definition set_ck_DNSOK (v : bool) (r : CheckResult) : CheckResult := ltac:(assign r ck_DNSOK v).
Definition set_ck_DNSResolver (v : string) (r : CheckResult) : CheckResult := ltac:(assign r ck_DNSResolver v).
Definition set_ck_DNSProtocol (v : string) (r : CheckResult) : CheckResult := ltac:(assign r ck_DNSProtocol v).
Definition set_ck_ResolvedIPs (v : list string) (r : CheckResult) : CheckResult := ltac:(assign r ck_ResolvedIPs v).
Definition set_ck_ConnectedIP (v : string) (r : CheckResult) : CheckResult := ltac:(assign r ck_ConnectedIP v).
Definition set_ck_ConnectedPort (v : Z) (r : CheckResult) : CheckResult := ltac:(assign r ck_ConnectedPort v).
Definition set_ck_LocalIP (v : string) (r : CheckResult) : CheckResult := ltac:(assign r ck_LocalIP v).
Definition set_ck_AddressFamily (v : string) (r : CheckResult) : CheckResult := ltac:(assign r ck_AddressFamily v).
Definition set_ck_Transport (v : string) (r : CheckResult) : CheckResult := ltac:(assign r ck_Transport v).
Definition set_ck_SocketMark (v : string) (r : CheckResult) : CheckResult := ltac:(assign r ck_SocketMark v).
Definition set_ck_HostPreserved (v : bool) (r : CheckResult) : CheckResult := ltac:(assign r ck_HostPreserved v).
Definition set_ck_SNIPreserved (v : bool) (r : CheckResult) : CheckResult := ltac:(assign r ck_SNIPreserved v).
Definition set_ck_TransportOK (v : bool) (r : CheckResult) : CheckResult := ltac:(assign r ck_TransportOK v).
Definition set_ck_TLSOK (v : bool) (r : CheckResult) : CheckResult := ltac:(assign r ck_TLSOK v).
Definition set_ck_HTTPOK (v : bool) (r : CheckResult) : CheckResult := ltac:(assign r ck_HTTPOK v).
Definition set_ck_ContentOK (v : bool) (r : CheckResult) : CheckResult := ltac:(assign r ck_ContentOK v).
Definition set_ck_ExpectedCodeMatched (v : bool) (r : CheckResult) : CheckResult := ltac:(assign r ck_ExpectedCodeMatched v).
Definition set_ck_HTTPCode (v : Z) (r : CheckResult) : CheckResult := ltac:(assign r ck_HTTPCode v).
Definition set_ck_Redirects (v : Z) (r : CheckResult) : CheckResult := ltac:(assign r ck_Redirects v).
Definition set_ck_RegionalBlock (v : bool) (r : CheckResult) : CheckResult := ltac:(assign r ck_RegionalBlock v).
Definition set_ck_SuspectedTSPU (v : bool) (r : CheckResult) : CheckResult := ltac:(assign r ck_SuspectedTSPU v).
Definition set_ck_AuthenticationRequired (v : bool) (r : CheckResult) : CheckResult := ltac:(assign r ck_AuthenticationRequired v).
Definition set_ck_WAFOrRateLimit (v : bool) (r : CheckResult) : CheckResult := ltac:(assign r ck_WAFOrRateLimit v).
Definition set_ck_LatencyMS (v : Z) (r : CheckResult) : CheckResult := ltac:(assign r ck_LatencyMS v).
Definition set_ck_RouteLatencyMS (v : Z) (r : CheckResult) : CheckResult := ltac:(assign r ck_RouteLatencyMS v).
Definition set_ck_RouteLatencyAvailable (v : bool) (r : CheckResult) : CheckResult := ltac:(assign r ck_RouteLatencyAvailable v).
Definition set_ck_EndToEndLatencyMS (v : Z) (r : CheckResult) : CheckResult := ltac:(assign r ck_EndToEndLatencyMS v).
Definition set_ck_EndToEndLatencyAvailable (v : bool) (r : CheckResult) : CheckResult := ltac:(assign r ck_EndToEndLatencyAvailable v).
Definition set_ck_VerificationDurationMS (v : Z) (r : CheckResult) : CheckResult := ltac:(assign r ck_VerificationDurationMS v).
Definition set_ck_Reason (v : string) (r : CheckResult) : CheckResult := ltac:(assign r ck_Reason v).

(** [RouteResult]: all checks of a service on a route. *)
Record ProbeResult := mkProbe {
  pr_Domain : string;
  pr_Service : string;
  pr_Route : string;
  pr_RouteType : string;
  pr_RoutePriority : Z;
  pr_Status : string;
  pr_ApplicationStatus : string;
  pr_PathVerified : bool;
  pr_AdapterRevision : string;
  pr_CandidateHash : string;
  pr_ArtifactManifestHash : string;
  pr_NFTMark : string;
  pr_ConntrackMark : string;
  pr_IPRulePriority : Z;
  pr_RouteTable : Z;
  pr_Interface : string;
  pr_DNSResolver : string;
  pr_ResolvedIP : string;
  pr_ConnectedIP : string;
  pr_ConnectedPort : Z;
  pr_LocalIP : string;
  pr_SocketMark : string;
  pr_XrayOutboundTag : string;
  pr_EvidenceSource : string;
  pr_PathEvidence : option evidenceResult;
  pr_Simulation : bool;
  pr_DNSOK : bool;
  pr_TransportOK : bool;
  pr_TLSOK : bool;
  pr_HTTPOK : bool;
  pr_ContentOK : bool;
  pr_ServiceOK : bool;
  pr_RegionalBlock : bool;
  pr_SuspectedTSPU : bool;
  pr_AuthenticationRequired : bool;
  pr_WAFOrRateLimit : bool;
  pr_ExternalCountry : string;
  pr_ExternalIPHash : string;
  pr_ExternalCountrySources : list string;
  pr_EgressConsensus : bool;
  pr_EgressReason : string;
  pr_LatencyMS : Z;
  pr_RouteLatencyMS : Z;
  pr_RouteLatencyAvailable : bool;
  pr_EndToEndLatencyMS : Z;
  pr_EndToEndLatencyAvailable : bool;
  pr_SelectionScore : spec_float;
  pr_VerificationDurationMS : Z;
  pr_Checks : list CheckResult;
  pr_FailureStage : string;
  pr_ReasonCode : string;
  pr_Reason : option string;
  pr_CheckedAt : time
}.
#[export] Instance eta_ProbeResult : Eta ProbeResult := fun r =>
  mkProbe (pr_Domain r) (pr_Service r) (pr_Route r) (pr_RouteType r) (pr_RoutePriority r) (pr_Status r) (pr_ApplicationStatus r)
    (pr_PathVerified r) (pr_AdapterRevision r) (pr_CandidateHash r) (pr_ArtifactManifestHash r) (pr_NFTMark r) (pr_ConntrackMark r)
    (pr_IPRulePriority r) (pr_RouteTable r) (pr_Interface r) (pr_DNSResolver r) (pr_ResolvedIP r) (pr_ConnectedIP r) (pr_ConnectedPort
    r) (pr_LocalIP r) (pr_SocketMark r) (pr_XrayOutboundTag r) (pr_EvidenceSource r) (pr_PathEvidence r) (pr_Simulation r) (pr_DNSOK
    r) (pr_TransportOK r) (pr_TLSOK r) (pr_HTTPOK r) (pr_ContentOK r) (pr_ServiceOK r) (pr_RegionalBlock r) (pr_SuspectedTSPU r)
    (pr_AuthenticationRequired r) (pr_WAFOrRateLimit r) (pr_ExternalCountry r) (pr_ExternalIPHash r) (pr_ExternalCountrySources r)
    (pr_EgressConsensus r) (pr_EgressReason r) (pr_LatencyMS r) (pr_RouteLatencyMS r) (pr_RouteLatencyAvailable r)
    (pr_EndToEndLatencyMS r) (pr_EndToEndLatencyAvailable r) (pr_SelectionScore r) (pr_VerificationDurationMS r) (pr_Checks r)
    (pr_FailureStage r) (pr_ReasonCode r) (pr_Reason r) (pr_CheckedAt r).
Definition zero_ProbeResult : ProbeResult :=
  mkProbe "" "" "" "" 0 "" "" false "" "" "" "" "" 0 0 "" "" "" "" 0 "" "" "" "" None false false false false false false false
    false false false false "" "" [] false "" 0 0 false 0 false (S754_zero false) 0 [] "" "" None T.zero.
Definition set_pr_Domain (v : string) (r : ProbeResult) : ProbeResult := ltac:(assign r pr_Domain v).
Definition set_pr_Service (v : string) (r : ProbeResult) : ProbeResult := ltac:(assign r pr_Service v).
Definition set_pr_Route (v : string) (r : ProbeResult) : ProbeResult := ltac:(assign r pr_Route v).
Definition set_pr_RouteType (v : string) (r : ProbeResult) : ProbeResult := ltac:(assign r pr_RouteType v).
Definition set_pr_RoutePriority (v : Z) (r : ProbeResult) : ProbeResult := ltac:(assign r pr_RoutePriority v).
Definition set_pr_Status (v : string) (r : ProbeResult) : ProbeResult := ltac:(assign r pr_Status v).
Definition set_pr_ApplicationStatus (v : string) (r : ProbeResult) : ProbeResult := ltac:(assign r pr_ApplicationStatus v).
Definition set_pr_PathVerified (v : bool) (r : ProbeResult) : ProbeResult := ltac:(assign r pr_PathVerified v).
Definition set_pr_AdapterRevision (v : string) (r : ProbeResult) : ProbeResult := ltac:(assign r pr_AdapterRevision v).
Definition set_pr_CandidateHash (v : string) (r : ProbeResult) : ProbeResult := ltac:(assign r pr_CandidateHash v).
Definition set_pr_ArtifactManifestHash (v : string) (r : ProbeResult) : ProbeResult := ltac:(assign r pr_ArtifactManifestHash v).
Definition set_pr_NFTMark (v : string) (r : ProbeResult) : ProbeResult := ltac:(assign r pr_NFTMark v).
Definition set_pr_ConntrackMark (v : string) (r : ProbeResult) : ProbeResult := ltac:(assign r pr_ConntrackMark v).
Definition set_pr_IPRulePriority (v : Z) (r : ProbeResult) : ProbeResult := ltac:(assign r pr_IPRulePriority v).
Definition set_pr_RouteTable (v : Z) (r : ProbeResult) : ProbeResult := ltac:(assign r pr_RouteTable v).
Definition set_pr_Interface (v : string) (r : ProbeResult) : ProbeResult := ltac:(assign r pr_Interface v).
Definition set_pr_DNSResolver (v : string) (r : ProbeResult) : ProbeResult := ltac:(assign r pr_DNSResolver v).
Definition set_pr_ResolvedIP (v : string) (r : ProbeResult) : ProbeResult := ltac:(assign r pr_ResolvedIP v).
Definition set_pr_ConnectedIP (v : string) (r : ProbeResult) : ProbeResult := ltac:(assign r pr_ConnectedIP v).
Definition set_pr_ConnectedPort (v : Z) (r : ProbeResult) : ProbeResult := ltac:(assign r pr_ConnectedPort v).
Definition set_pr_LocalIP (v : string) (r : ProbeResult) : ProbeResult := ltac:(assign r pr_LocalIP v).
Definition set_pr_SocketMark (v : string) (r : ProbeResult) : ProbeResult := ltac:(assign r pr_SocketMark v).
Definition set_pr_XrayOutboundTag (v : string) (r : ProbeResult) : ProbeResult := ltac:(assign r pr_XrayOutboundTag v).
Definition set_pr_EvidenceSource (v : string) (r : ProbeResult) : ProbeResult := ltac:(assign r pr_EvidenceSource v).
Definition set_pr_PathEvidence (v : option evidenceResult) (r : ProbeResult) : ProbeResult := ltac:(assign r pr_PathEvidence v).
Definition set_pr_Simulation (v : bool) (r : ProbeResult) : ProbeResult := ltac:(assign r pr_Simulation v).
Definition set_pr_DNSOK (v : bool) (r : ProbeResult) : ProbeResult := ltac:(assign r pr_DNSOK v).
Definition set_pr_TransportOK (v : bool) (r : ProbeResult) : ProbeResult := ltac:(assign r pr_TransportOK v).
Definition set_pr_TLSOK (v : bool) (r : ProbeResult) : ProbeResult := ltac:(assign r pr_TLSOK v).
Definition set_pr_HTTPOK (v : bool) (r : ProbeResult) : ProbeResult := ltac:(assign r pr_HTTPOK v).
Definition set_pr_ContentOK (v : bool) (r : ProbeResult) : ProbeResult := ltac:(assign r pr_ContentOK v).
Definition set_pr_ServiceOK (v : bool) (r : ProbeResult) : ProbeResult := ltac:(assign r pr_ServiceOK v).
Definition set_pr_RegionalBlock (v : bool) (r : ProbeResult) : ProbeResult := ltac:(assign r pr_RegionalBlock v).
Definition set_pr_SuspectedTSPU (v : bool) (r : ProbeResult) : ProbeResult := ltac:(assign r pr_SuspectedTSPU v).
Definition set_pr_AuthenticationRequired (v : bool) (r : ProbeResult) : ProbeResult := ltac:(assign r pr_AuthenticationRequired v).
Definition set_pr_WAFOrRateLimit (v : bool) (r : ProbeResult) : ProbeResult := ltac:(assign r pr_WAFOrRateLimit v).
Definition set_pr_ExternalCountry (v : string) (r : ProbeResult) : ProbeResult := ltac:(assign r pr_ExternalCountry v).
Definition set_pr_ExternalIPHash (v : string) (r : ProbeResult) : ProbeResult := ltac:(assign r pr_ExternalIPHash v).
Definition set_pr_ExternalCountrySources (v : list string) (r : ProbeResult) : ProbeResult := ltac:(assign r pr_ExternalCountrySources v).
Definition set_pr_EgressConsensus (v : bool) (r : ProbeResult) : ProbeResult := ltac:(assign r pr_EgressConsensus v).
Definition set_pr_EgressReason (v : string) (r : ProbeResult) : ProbeResult := ltac:(assign r pr_EgressReason v).
Definition set_pr_LatencyMS (v : Z) (r : ProbeResult) : ProbeResult := ltac:(assign r pr_LatencyMS v).
Definition set_pr_RouteLatencyMS (v : Z) (r : ProbeResult) : ProbeResult := ltac:(assign r pr_RouteLatencyMS v).
Definition set_pr_RouteLatencyAvailable (v : bool) (r : ProbeResult) : ProbeResult := ltac:(assign r pr_RouteLatencyAvailable v).
Definition set_pr_EndToEndLatencyMS (v : Z) (r : ProbeResult) : ProbeResult := ltac:(assign r pr_EndToEndLatencyMS v).
Definition set_pr_EndToEndLatencyAvailable (v : bool) (r : ProbeResult) : ProbeResult := ltac:(assign r pr_EndToEndLatencyAvailable v).
Definition set_pr_VerificationDurationMS (v : Z) (r : ProbeResult) : ProbeResult := ltac:(assign r pr_VerificationDurationMS v).
Definition set_pr_Checks (v : list CheckResult) (r : ProbeResult) : ProbeResult := ltac:(assign r pr_Checks v).
Definition set_pr_FailureStage (v : string) (r : ProbeResult) : ProbeResult := ltac:(assign r pr_FailureStage v).
Definition set_pr_ReasonCode (v : string) (r : ProbeResult) : ProbeResult := ltac:(assign r pr_ReasonCode v).
Definition set_pr_Reason (v : option string) (r : ProbeResult) : ProbeResult := ltac:(assign r pr_Reason v).
Definition set_pr_CheckedAt (v : time) (r : ProbeResult) : ProbeResult := ltac:(assign r pr_CheckedAt v).

(** [PathObservation]: what a proof of the path is compared with. *)
Record PathObservation := mkObservation {
  ob_Domain : string;
  ob_RouteTag : string;
  ob_RouteType : string;
  ob_DNSResolver : string;
  ob_DNSProtocol : string;
  ob_ResolvedIPs : list string;
  ob_ConnectedIP : string;
  ob_ConnectedPort : Z;
  ob_LocalIP : string;
  ob_AddressFamily : string;
  ob_Transport : string;
  ob_SocketMark : string;
  ob_HostPreserved : bool;
  ob_SNIPreserved : bool;
  ob_TLSResult : string;
  ob_HTTPResult : string;
  ob_ContentResult : string;
  ob_ExternalIPHash : string;
  ob_ExternalCountry : string;
  ob_RouteLatencyMS : Z;
  ob_RouteLatencyAvailable : bool;
  ob_StartedAt : time;
  ob_CompletedAt : time
}.
#[export] Instance eta_PathObservation : Eta PathObservation := fun r =>
  mkObservation (ob_Domain r) (ob_RouteTag r) (ob_RouteType r) (ob_DNSResolver r) (ob_DNSProtocol r) (ob_ResolvedIPs r)
    (ob_ConnectedIP r) (ob_ConnectedPort r) (ob_LocalIP r) (ob_AddressFamily r) (ob_Transport r) (ob_SocketMark r) (ob_HostPreserved
    r) (ob_SNIPreserved r) (ob_TLSResult r) (ob_HTTPResult r) (ob_ContentResult r) (ob_ExternalIPHash r) (ob_ExternalCountry r)
    (ob_RouteLatencyMS r) (ob_RouteLatencyAvailable r) (ob_StartedAt r) (ob_CompletedAt r).
Definition zero_PathObservation : PathObservation :=
  mkObservation "" "" "" "" "" [] "" 0 "" "" "" "" false false "" "" "" "" "" 0 false T.zero T.zero.
Definition set_ob_Domain (v : string) (r : PathObservation) : PathObservation := ltac:(assign r ob_Domain v).
Definition set_ob_RouteTag (v : string) (r : PathObservation) : PathObservation := ltac:(assign r ob_RouteTag v).
Definition set_ob_RouteType (v : string) (r : PathObservation) : PathObservation := ltac:(assign r ob_RouteType v).
Definition set_ob_DNSResolver (v : string) (r : PathObservation) : PathObservation := ltac:(assign r ob_DNSResolver v).
Definition set_ob_DNSProtocol (v : string) (r : PathObservation) : PathObservation := ltac:(assign r ob_DNSProtocol v).
Definition set_ob_ResolvedIPs (v : list string) (r : PathObservation) : PathObservation := ltac:(assign r ob_ResolvedIPs v).
Definition set_ob_ConnectedIP (v : string) (r : PathObservation) : PathObservation := ltac:(assign r ob_ConnectedIP v).
Definition set_ob_ConnectedPort (v : Z) (r : PathObservation) : PathObservation := ltac:(assign r ob_ConnectedPort v).
Definition set_ob_LocalIP (v : string) (r : PathObservation) : PathObservation := ltac:(assign r ob_LocalIP v).
Definition set_ob_AddressFamily (v : string) (r : PathObservation) : PathObservation := ltac:(assign r ob_AddressFamily v).
Definition set_ob_Transport (v : string) (r : PathObservation) : PathObservation := ltac:(assign r ob_Transport v).
Definition set_ob_SocketMark (v : string) (r : PathObservation) : PathObservation := ltac:(assign r ob_SocketMark v).
Definition set_ob_HostPreserved (v : bool) (r : PathObservation) : PathObservation := ltac:(assign r ob_HostPreserved v).
Definition set_ob_SNIPreserved (v : bool) (r : PathObservation) : PathObservation := ltac:(assign r ob_SNIPreserved v).
Definition set_ob_TLSResult (v : string) (r : PathObservation) : PathObservation := ltac:(assign r ob_TLSResult v).
Definition set_ob_HTTPResult (v : string) (r : PathObservation) : PathObservation := ltac:(assign r ob_HTTPResult v).
Definition set_ob_ContentResult (v : string) (r : PathObservation) : PathObservation := ltac:(assign r ob_ContentResult v).
Definition set_ob_ExternalIPHash (v : string) (r : PathObservation) : PathObservation := ltac:(assign r ob_ExternalIPHash v).
Definition set_ob_ExternalCountry (v : string) (r : PathObservation) : PathObservation := ltac:(assign r ob_ExternalCountry v).
Definition set_ob_RouteLatencyMS (v : Z) (r : PathObservation) : PathObservation := ltac:(assign r ob_RouteLatencyMS v).
Definition set_ob_RouteLatencyAvailable (v : bool) (r : PathObservation) : PathObservation := ltac:(assign r ob_RouteLatencyAvailable v).
Definition set_ob_StartedAt (v : time) (r : PathObservation) : PathObservation := ltac:(assign r ob_StartedAt v).
Definition set_ob_CompletedAt (v : time) (r : PathObservation) : PathObservation := ltac:(assign r ob_CompletedAt v).

(** The result as the planner and the health tracker read it. *)
Definition shown (r : ProbeResult) : RouteResult :=
  mkResult (pr_Domain r) (pr_Service r) (pr_Route r) (pr_RouteType r) (pr_Status r) (pr_ApplicationStatus r)
    (pr_PathVerified r) (pr_AdapterRevision r) (pr_CandidateHash r) (pr_ArtifactManifestHash r)
    (pr_Simulation r) (pr_ServiceOK r) (pr_RegionalBlock r) (pr_SuspectedTSPU r)
    (pr_AuthenticationRequired r) (pr_WAFOrRateLimit r) (pr_ExternalCountry r) (pr_ExternalIPHash r)
    (pr_EgressConsensus r) (pr_LatencyMS r) (pr_EndToEndLatencyMS r) (pr_EndToEndLatencyAvailable r)
    (pr_SelectionScore r) (map ck_Reason (pr_Checks r)) (pr_FailureStage r) (pr_ReasonCode r) (pr_Reason r).
