(* ===== verification/ProbePath.v ===== *)
(** * Proofs of the path

    [internal/probe/path.go]: what a probe observed is handed to a verifier of the
    path, and only what the verifier proves makes the result usable.  A verifier
    runs on a state [K] and may fail with an error that names a status. *)
From Stdlib Require Import ZArith Lia.
From stdpp Require Import base list strings gmap pretty.
From S2P Require Import Prelude Effects Net Config Validation Artifact Evidence Health ProbeTypes.

Open Scope Z_scope.

(** ** Errors *)

Inductive pathError : Type :=
| PathStatus (status code : string) (inner : option string)  (* PathStatusError *)
| Unavailable                                                (* ErrPathEvidenceUnavailable *)
| Plain (text : string).

Definition errorText (e : pathError) : string :=
  match e with
  | PathStatus _ code (Some inner) => code +:+ ": " +:+ inner
  | PathStatus _ code None => code
  | Unavailable => "route path evidence unavailable"
  | Plain text => text
  end.
Definition underscore (c : Ascii.ascii) : Ascii.ascii := if S.is_byte 32 c then Ascii.ascii_of_N 95 else c.
Definition textCode (text : string) : string :=
  let code := S.ToLower text in
  let code := match Net.cutFirst Net.colon code with Some (before, _) => before | None => code end in
  let code := S.map_bytes underscore code in
  if S.is_empty code then "route_path_unverified" else code.
Definition proofErrorCode (e : pathError) (route : Route) : string :=
  match e with
  | Unavailable => if r_RequiresAdapter route then "route_requires_adapter_evidence" else "route_path_evidence_unavailable"
  | PathStatus _ code _ => if S.is_empty code then textCode (errorText e) else code
  | Plain text => textCode text
  end.
Definition proofFailureStatus (e : pathError) : string :=
  match e with PathStatus status _ _ => if S.is_empty status then "UNVERIFIED" else status | _ => "UNVERIFIED" end.

(** ** Verifiers *)

(** The session has a map [Metadata] too, which nothing fills. *)
Record PathProofSession := mkSession { ss_StartedAt : time; ss_CounterBefore : Z; ss_BeginError : string }.
Record PathProofStart := mkStart { st_Domain : string; st_Route : Route; st_StartedAt : time }.
Record PathProofRequest := mkRequest { rq_Route : Route; rq_Observation : PathObservation; rq_Session : PathProofSession }.

(** A computation that may fail with such an error. *)
Definition proof (K A : Type) : Type := K -> K * (A + pathError).
#[export] Instance proof_ret K : MRet (proof K) := fun A a k => (k, inl a).
#[export] Instance proof_bind K : MBind (proof K) := fun A B f m k =>
  match m k with (k, inl a) => f a k | (k, inr e) => (k, inr e) end.
Definition refuse {K A} (e : pathError) : proof K A := fun k => (k, inr e).
Definition refuseText {K A} (text : string) : proof K A := refuse (Plain text).
(** A command, its error reported with a prefix. *)
Definition ask {K A} (prefix : string) (m : io K A) : proof K A := fun k =>
  match m k with (k, Ok a) => (k, inl a) | (k, Err e) => (k, inr (Plain (prefix +:+ e))) end.
(** A command whose error is looked at. *)
Definition try {K A} (m : io K A) : proof K (result A) := fun k => let '(k, r) := m k in (k, inl r).
Definition pure {K A} (r : result A) : proof K A := fun k => match r with Ok a => (k, inl a) | Err e => (k, inr (Plain e)) end.

(** A verifier; a [PathProofStarter] when it begins sessions. *)
Record PathProofVerifier K := mkVerifier {
  Begin : option (PathProofStart -> proof K PathProofSession);
  Verify : PathProofRequest -> proof K evidenceResult
}.
Arguments mkVerifier {K}.
Arguments Begin {K}.
Arguments Verify {K}.

Definition unavailableProofVerifier {K} : PathProofVerifier K := mkVerifier None (fun _ => refuse Unavailable).
Definition errorProofVerifier {K} (err : string) : PathProofVerifier K := mkVerifier None (fun _ => refuse (Plain err)).

Definition isSystemDefaultRoute (r : Route) : bool :=
  (r_Type r =s "direct") && (r_Tag r =s "system-default") && (r_AdapterMode r =s "system_default") && negb (r_RequiresAdapter r).
Definition multiplexPathProofVerifier {K} (managed system : PathProofVerifier K) : PathProofVerifier K :=
  mkVerifier
    (Some (fun start =>
       let untouched : proof K PathProofSession := mret (mkSession (st_StartedAt start) 0 "") in
       if isSystemDefaultRoute (st_Route start) then untouched
       else match Begin managed with None => untouched | Some begin => begin start end))
    (fun request => if isSystemDefaultRoute (rq_Route request) then Verify system request else Verify managed request).

(** ** Evidence collected before *)

Definition containsIP (values : list string) (expected : string) : bool :=
  match IP.ParseAddr expected with
  | None => false
  | Some addr => any (fun value => match IP.ParseAddr value with Some a => bool_decide (a = addr) | None => false end) values
  end.
Definition matchObservation (proof : evidenceResult) (observed : PathObservation) : result unit :=
  _ ← reject (S.is_empty (ev_Domain proof) || negb (S.EqualFold (ev_Domain proof) (ob_Domain observed))) "path_evidence_domain_mismatch";
  _ ← reject (negb (ev_DNSResolver proof =s ob_DNSResolver observed)) "path_evidence_dns_resolver_mismatch";
  _ ← reject (negb (S.is_empty (ev_ResolvedIP proof)) && negb (containsIP (ob_ResolvedIPs observed) (ev_ResolvedIP proof))) "path_evidence_resolved_ip_mismatch";
  _ ← reject (negb (ev_ConnectedIP proof =s ob_ConnectedIP observed)) "path_evidence_connected_ip_mismatch";
  _ ← reject (negb (S.is_empty (ev_Transport proof)) && negb (ev_Transport proof =s ob_Transport observed)) "path_evidence_transport_mismatch";
  _ ← reject (negb (Bool.eqb (ev_HostPreserved proof) (ob_HostPreserved observed)) || negb (Bool.eqb (ev_SNIPreserved proof) (ob_SNIPreserved observed)))
        "path_evidence_host_or_sni_mismatch";
  _ ← reject (negb (ev_TLSResult proof =s ob_TLSResult observed) || negb (ev_HTTPResult proof =s ob_HTTPResult observed)
              || negb (ev_ContentResult proof =s ob_ContentResult observed)) "path_evidence_application_mismatch";
  _ ← reject (negb (S.is_empty (ob_ExternalIPHash observed)) && negb (ev_ExternalIPHash proof =s ob_ExternalIPHash observed)) "path_evidence_external_ip_mismatch";
  reject (negb (S.is_empty (ob_ExternalCountry observed)) && negb (S.EqualFold (ev_ExternalCountry proof) (ob_ExternalCountry observed)))
    "path_evidence_external_country_mismatch".

Definition defaultProofMaxAge : duration := 5 * minute.

(** ** The engine *)

Section Engine.
Context {K : Type} (now : K -> K * time).

Definition clock : io K time := fun k => let '(k, t) := now k in (k, Ok t).
Definition reading : proof K time := fun k => let '(k, t) := now k in (k, inl t).

(** [BoundEvidenceVerifier]: a report on disk; [load] reads and verifies it. *)
Record BoundEvidenceVerifier := mkBound {
  be_PlanPath : string;
  be_EvidencePath : string;
  be_Binding : Binding;
  be_ManifestHash : string;
  be_MaxAge : duration;
  be_AllowSimulation : bool
}.
Definition boundVerify (load : string -> string -> Binding -> string -> io K Report) (v : BoundEvidenceVerifier) (request : PathProofRequest) : proof K evidenceResult :=
  if S.is_empty (be_PlanPath v) || S.is_empty (be_EvidencePath v) || S.is_empty (b_RevisionID (be_Binding v)) || S.is_empty (be_ManifestHash v)
  then refuse Unavailable
  else
    report ← ask "bound_evidence_invalid: " (load (be_PlanPath v) (be_EvidencePath v) (be_Binding v) (be_ManifestHash v));
    let maxAge := if be_MaxAge v <=? 0 then defaultProofMaxAge else be_MaxAge v in
    match first (fun p => ev_RouteTag p =s r_Tag (rq_Route request)) (rep_Routes report) with
    | None => refuseText "route_path_evidence_missing"
    | Some p =>
        if ev_Simulation p && negb (be_AllowSimulation v) then refuseText "simulated_path_evidence_forbidden"
        else
          t ← reading;
          if T.Before (ev_CheckedAt p) (T.Add t (- maxAge)) then refuseText "stale_path_evidence"
          else
            t ← reading;
            if T.After (ev_CheckedAt p) (T.Add t minute) then refuseText "stale_path_evidence"
            else _ ← pure (matchObservation p (rq_Observation request)); mret p
    end.

Definition appendUnique (dst values : list string) : list string :=
  fold_left (fun dst v => if containsString dst v then dst else dst ++ [v]) values dst.
Definition firstString (values : list string) : string := match values with [] => "" | v :: _ => v end.

(** What one more check adds to an observation. *)
Definition observe (o : PathObservation) (c : CheckResult) : PathObservation :=
  let o := if S.is_empty (ob_DNSResolver o) then o |> set_ob_DNSResolver (ck_DNSResolver c) |> set_ob_DNSProtocol (ck_DNSProtocol c) else o in
  let o := set_ob_ResolvedIPs (appendUnique (ob_ResolvedIPs o) (ck_ResolvedIPs c)) o in
  let o := if S.is_empty (ck_Transport c) then o
           else o |> set_ob_Transport (ck_Transport c) |> set_ob_SocketMark (ck_SocketMark c)
                  |> set_ob_HostPreserved (ck_HostPreserved c) |> set_ob_SNIPreserved (ck_SNIPreserved c) in
  let o := if S.is_empty (ck_ConnectedIP c) then o
           else o |> set_ob_ConnectedIP (ck_ConnectedIP c) |> set_ob_ConnectedPort (ck_ConnectedPort c)
                  |> set_ob_LocalIP (ck_LocalIP c) |> set_ob_AddressFamily (ck_AddressFamily c) in
  let o := if ck_HTTPOK c then set_ob_HTTPResult "OK" o
           else if 0 <? ck_HTTPCode c then set_ob_HTTPResult ("HTTP_" +:+ pretty (ck_HTTPCode c)) o else o in
  let o := if ck_TLSOK c then set_ob_TLSResult "OK" o else if ck_TransportOK c then set_ob_TLSResult "NOT_APPLICABLE" o else o in
  if ck_ContentOK c then set_ob_ContentResult "OK" o else if ck_HTTPOK c then set_ob_ContentResult "FAIL" o else o.
Definition orFail (s : string) : string := if S.is_empty s then "FAIL" else s.
Definition observationFromResult (route : Route) (r : ProbeResult) (startedAt completedAt : time) : PathObservation :=
  let o := zero_PathObservation |> set_ob_Domain (pr_Domain r) |> set_ob_RouteTag (r_Tag route) |> set_ob_RouteType (r_Type route)
             |> set_ob_ExternalIPHash (pr_ExternalIPHash r) |> set_ob_ExternalCountry (pr_ExternalCountry r)
             |> set_ob_RouteLatencyMS (pr_RouteLatencyMS r) |> set_ob_RouteLatencyAvailable (pr_RouteLatencyAvailable r)
             |> set_ob_StartedAt startedAt |> set_ob_CompletedAt completedAt in
  let o := fold_left observe (pr_Checks r) o in
  o |> set_ob_HTTPResult (orFail (ob_HTTPResult o)) |> set_ob_TLSResult (orFail (ob_TLSResult o)) |> set_ob_ContentResult (orFail (ob_ContentResult o)).

(** [time.Since] and the durations in whole milliseconds made of it. *)
Definition Milliseconds (d : duration) : Z := Z.quot d millisecond.
Definition elapsedMilliseconds (start : time) : io K Z :=
  t ← clock; let elapsed := T.Sub t start in mret (if elapsed <=? 0 then 1 else Z.max 1 (Milliseconds elapsed)).

Context (verifier : PathProofVerifier K).

Definition beginPathProof (domain : string) (route : Route) (startedAt : time) : io K PathProofSession := fun k =>
  match Begin verifier with
  | None => (k, Ok (mkSession startedAt 0 ""))
  | Some begin =>
      match begin (mkStart domain route startedAt) k with
      | (k, inr e) => (k, Ok (mkSession startedAt 0 (errorText e)))
      | (k, inl s) => (k, Ok (if T.IsZero (ss_StartedAt s) then mkSession startedAt (ss_CounterBefore s) (ss_BeginError s) else s))
      end
  end.

(** A result that would count is withdrawn when its path is not proved. *)
Definition counts (r : ProbeResult) : bool :=
  S.EqualFold (S.TrimSpace (pr_Status r)) "OK" || S.EqualFold (S.TrimSpace (pr_Status r)) "DEGRADED"
  || S.EqualFold (S.TrimSpace (pr_ApplicationStatus r)) "DROP".
Definition unproved (stage : string) (e : pathError) (route : Route) (r : ProbeResult) : ProbeResult :=
  let r := r |> set_pr_PathVerified false |> set_pr_FailureStage stage |> set_pr_ReasonCode (proofErrorCode e route) in
  if counts r then r |> set_pr_Status (proofFailureStatus e) |> set_pr_Reason (Some (pr_ReasonCode r)) else r.
(** What the observation says of the connection. *)
Definition withObservation (o : PathObservation) (duration : Z) (r : ProbeResult) : ProbeResult :=
  let r := set_pr_VerificationDurationMS duration r in
  let r := if ob_RouteLatencyAvailable o
           then r |> set_pr_RouteLatencyMS (ob_RouteLatencyMS o) |> set_pr_LatencyMS (ob_RouteLatencyMS o) |> set_pr_RouteLatencyAvailable true
           else r |> set_pr_LatencyMS 0 |> set_pr_RouteLatencyAvailable false in
  r |> set_pr_DNSResolver (ob_DNSResolver o) |> set_pr_ResolvedIP (firstString (ob_ResolvedIPs o)) |> set_pr_ConnectedIP (ob_ConnectedIP o)
    |> set_pr_ConnectedPort (ob_ConnectedPort o) |> set_pr_LocalIP (ob_LocalIP o) |> set_pr_SocketMark (ob_SocketMark o).
(** What the proof says. *)
Definition withProof (p : evidenceResult) (r : ProbeResult) : ProbeResult :=
  let r := r |> set_pr_PathVerified true |> set_pr_AdapterRevision (ev_AdapterRevision p) |> set_pr_CandidateHash (ev_CandidateHash p)
             |> set_pr_ArtifactManifestHash (ev_ArtifactManifestHash p) |> set_pr_NFTMark (ev_NFTMark p) |> set_pr_ConntrackMark (ev_ConntrackMark p)
             |> set_pr_IPRulePriority (ev_IPRulePriority p) |> set_pr_RouteTable (ev_RouteTable p) |> set_pr_Interface (ev_Interface p)
             |> set_pr_DNSResolver (ev_DNSResolver p) |> set_pr_ResolvedIP (ev_ResolvedIP p) |> set_pr_ConnectedIP (ev_ConnectedIP p)
             |> set_pr_ConnectedPort (ev_ConnectedPort p) |> set_pr_LocalIP (ev_LocalIP p) |> set_pr_SocketMark (ev_SocketMark p)
             |> set_pr_XrayOutboundTag (ev_XrayOutboundTag p) |> set_pr_EvidenceSource (ev_EvidenceSource p)
             |> set_pr_PathEvidence (Some p) |> set_pr_Simulation (ev_Simulation p) in
  let r := if ev_RouteLatencyAvailable p
           then r |> set_pr_RouteLatencyMS (ev_RouteLatencyMS p) |> set_pr_LatencyMS (ev_RouteLatencyMS p) |> set_pr_RouteLatencyAvailable true else r in
  let r := if 0 <? ev_VerificationDurationMS p then set_pr_VerificationDurationMS (ev_VerificationDurationMS p) r else r in
  let r := set_pr_ReasonCode (ev_ReasonCode p) r in
  if S.EqualFold (S.TrimSpace (pr_ApplicationStatus r)) "DROP"
  then r |> set_pr_Status "OK" |> set_pr_ServiceOK true |> set_pr_Reason (Some "drop_enforced") else r.

Definition finishWithPathProof (route : Route) (r : ProbeResult) (startedAt : time) (session : PathProofSession) : io K ProbeResult :=
  completed ← clock;
  let o := observationFromResult route r startedAt completed in
  duration ← elapsedMilliseconds startedAt;
  let r := withObservation o duration r in
  if negb (S.is_empty (ss_BeginError session)) then mret (unproved "path_evidence_begin" (Plain (ss_BeginError session)) route r)
  else fun k =>
    match Verify verifier (mkRequest route o session) k with
    | (k, inr e) => (k, Ok (unproved "path_evidence" e route r))
    | (k, inl p) => (k, Ok (withProof p r))
    end.
End Engine.
