(* ===== verification/OpenWrtPath.v ===== *)
(** * Proofs of the path on OpenWrt

    [internal/probe/openwrt_path.go] and [openwrt_commands.go]: the verifier that
    reads the kernel ([ip], [nft], [pidof], the table of connections) and compares
    it with the verification plan of the active deployment.

    Commands run on a state [K] through [run], files are read through [readBounded];
    [mapOrder] is the order in which Go visits the keys of a map. *)
From Stdlib Require Import ZArith Lia.
From stdpp Require Import base list strings gmap pretty.
From S2P Require Import Prelude Effects Net Config Json Validation Artifact JsonText Dataplane Evidence Health ProbeTypes ProbePath.

Open Scope Z_scope.

Record KernelRoute := mkKernelRoute { kr_Table : Z; kr_Interface : string }.
Record KernelRule := mkKernelRule { ku_Family : string; ku_Priority : Z; ku_Mark : string; ku_Table : Z }.
Record NFTPolicy := mkNFTPolicy { np_Counter : Z; np_Actions : gset string; np_QUIC : string }.

(** [OpenWrtCommands]. *)
Record OpenWrtCommands K := mkCommands {
  RouteGet : string -> string -> io K KernelRoute;
  Rules : io K (list KernelRule);
  HasDefaultRoute : string -> Z -> io K bool;
  ReadNFTPolicy : string -> io K NFTPolicy;
  ProcessRunning : string -> io K bool;
  ConntrackMark : string -> string -> io K string
}.
Arguments mkCommands {K}.
Arguments RouteGet {K}.
Arguments Rules {K}.
Arguments HasDefaultRoute {K}.
Arguments ReadNFTPolicy {K}.
Arguments ProcessRunning {K}.
Arguments ConntrackMark {K}.

(** ** Reading the kernel *)

(** [strconv.ParseUint(s, base, 32)] in base 10 and 16. *)
Definition parseUint32 (hex : bool) (s : string) : option Z :=
  if S.is_empty s || negb (S.all_bytes (if hex then hexdigit else S.digit) s) then None
  else
    let n := if hex then hexValue s else dec_value 0 s in
    if n <? 2 ^ 32 then Some n else None.
Definition parseSocketMark (value : string) : option Z :=
  let value := S.TrimSpace value in
  if S.HasPrefix value "0x" || S.HasPrefix value "0X" then parseUint32 true (behind "0x" value) else parseUint32 false value.
Definition formatSocketMark (value : Z) : string := if value =? 0 then "" else "0x" +:+ IP.hexText 8 value "".

Definition decodeStrictJSON (raw : string) : result JText.jtext :=
  if S.is_empty raw || (maxIPStateJSONBytes <? S.len raw) then Err "command_json_size_invalid"
  else match JText.parse raw with Some v => Ok v | None => Err "invalid command JSON" end.
Definition integerValue (v : JText.jtext) : result Z :=
  let number s := match Atoi s with Some n => Ok n | None => Err "invalid syntax" end in
  match v with
  | JText.TNum literal => number literal
  | JText.TStr s => if s =s "main" then Ok 254 else number s
  | JText.TNull => Ok 254
  | _ => Err "integer JSON value expected"
  end.
Definition markValue (v : JText.jtext) : string :=
  let text s := match parseSocketMark s with Some mark => formatSocketMark mark | None => "" end in
  match v with
  | JText.TStr s => text (beforeSlash s)
  | JText.TNum literal => text literal
  | _ => ""
  end.

Definition decodeRouteGet (m : list (string * JText.jtext)) : result (JText.jtext * string) :=
  dev ← JText.stringField "" (JText.valuesOf "dev" m); Ok (JText.anyField (JText.valuesOf "table" m), dev).
Definition parseRouteGet (raw : string) : result KernelRoute :=
  v ← decodeStrictJSON raw;
  rows ← JText.structSlice decodeRouteGet v;
  match rows with
  | [(table, dev)] => if S.is_empty dev then Err "route_get_unexpected_result" else table ← integerValue table; Ok (mkKernelRoute table dev)
  | _ => Err "route_get_unexpected_result"
  end.
(** Rules whose table is no number are left out. *)
Definition kernelRule (family : string) (row : ipRuleRow) : list KernelRule :=
  match integerValue (ur_Table row) with
  | Ok table => [mkKernelRule family (ur_Priority row) (markValue (ur_FwMark row)) table]
  | Err _ => []
  end.
Definition parseRules (raw family : string) : result (list KernelRule) :=
  v ← decodeStrictJSON raw;
  rows ← JText.structSlice decodeRuleRow v;
  Ok (flat_map (kernelRule family) rows).

(** [strings.Fields]. *)
Fixpoint fieldsFrom (cur : string) (s : string) : list string :=
  let word := if S.is_empty cur then [] else [S.rev cur] in
  match s with
  | EmptyString => word
  | String c rest => if S.space_byte c then word ++ fieldsFrom "" rest else fieldsFrom (String c cur) rest
  end.
Definition Fields (s : string) : list string := fieldsFrom "" s.
Definition containsToken (value expected : string) : bool := containsString (Fields value) expected.

(** An object as a Go map: the last member of a name. *)
Definition asMap {A} (members : list (string * A)) : list (string * A) :=
  foldr (fun m rest => if any (fun x => x.1 =s m.1) rest then rest else m :: rest) [] members.
Definition member (name : string) (members : list (string * JText.jtext)) : JText.jtext :=
  JText.anyField (map snd (List.filter (fun m => m.1 =s name) members)).
Definition asObject (v : JText.jtext) : option (list (string * JText.jtext)) := match v with JText.TObj m => Some m | _ => None end.

Section Walk.
Context (mapOrder : forall A, list (string * A) -> list (string * A)).

(** The objects [walkJSON] visits, in order. *)
Fixpoint walkJSON (v : JText.jtext) : list (list (string * JText.jtext)) :=
  match v with
  | JText.TObj members =>
      members :: concat (map snd (mapOrder _ (asMap (map (fun m => (m.1, walkJSON m.2)) members))))
  | JText.TArr items => flat_map walkJSON items
  | _ => []
  end.

(** An expression that is no counter reads as [nil], which [integerValue] takes for 254. *)
Definition packetsOf (item : JText.jtext) : Z :=
  let entry := default [] (asObject item) in
  let counter := default [] (asObject (member "counter" entry)) in
  match integerValue (member "packets" counter) with Ok n => if 0 <? n then n else 0 | Err _ => 0 end.
Definition addToken (p : NFTPolicy) (token : string) : NFTPolicy :=
  let p := if S.HasPrefix token "action=" then mkNFTPolicy (np_Counter p) ({[behind "action=" token]} ∪ np_Actions p) (np_QUIC p) else p in
  if S.HasPrefix token "quic=" then mkNFTPolicy (np_Counter p) (np_Actions p) (behind "quic=" token) else p.
Definition addPackets (p : NFTPolicy) (item : JText.jtext) : NFTPolicy :=
  mkNFTPolicy ((np_Counter p + packetsOf item) mod 2 ^ 64) (np_Actions p) (np_QUIC p).
Definition visitRule (routeTag : string) (p : NFTPolicy) (value : list (string * JText.jtext)) : NFTPolicy :=
  match member "rule" value with
  | JText.TObj rule =>
      let comment := match member "comment" rule with JText.TStr s => s | _ => "" end in
      if negb (containsToken comment ("route=" +:+ routeTag)) then p
      else
        let p := fold_left addToken (Fields comment) p in
        fold_left addPackets (match member "expr" rule with JText.TArr items => items | _ => [] end) p
  | _ => p
  end.
Definition parseNFTPolicy (raw routeTag : string) : result NFTPolicy :=
  v ← decodeStrictJSON raw;
  root ← match v with JText.TObj _ | JText.TNull => Ok v | _ => Err "invalid command JSON" end;
  let p := fold_left (visitRule routeTag) (walkJSON root) (mkNFTPolicy 0 ∅ "") in
  if (size (np_Actions p) =? 0)%nat then Err "route_nft_policy_not_found" else Ok p.

(** The mark of the first line for the pair of addresses that shows one. *)
Definition markOfLine (line : string) : option string :=
  head (omap (fun field =>
    if S.HasPrefix field "mark=" then formatSocketMark <$> parseSocketMark (behind "mark=" field) else None) (Fields line)).
Definition nl : Ascii.ascii := Ascii.ascii_of_N 10.
Definition parseConntrack (raw localIP connectedIP : string) : result string :=
  match head (omap (fun line =>
          if S.Contains line ("src=" +:+ localIP) && S.Contains line ("dst=" +:+ connectedIP) then markOfLine line else None) (S.Split raw nl)) with
  | Some mark => Ok mark
  | None => Err "conntrack_mark_not_found"
  end.
End Walk.

Section Commands.
Context {K : Type} (run : string -> list string -> K -> K * (string * option string)).
Context (readBounded : string -> Z -> io K string) (pidof : string -> io K bool).
Context (mapOrder : forall A, list (string * A) -> list (string * A)).
Context (ipPath nftPath conntrackPath : string).

(** [ExecOpenWrtCommands], its programs found. *)
Definition execRouteGet (destination mark : string) : io K KernelRoute :=
  raw ← output run ipPath (["-j"; "route"; "get"; destination] ++ if S.is_empty mark then [] else ["mark"; mark]);
  lift (parseRouteGet raw).
Definition execRules : io K (list KernelRule) :=
  raw4 ← output run ipPath ["-4"; "-j"; "rule"; "show"]; rules4 ← lift (parseRules raw4 "4");
  raw6 ← output run ipPath ["-6"; "-j"; "rule"; "show"]; rules6 ← lift (parseRules raw6 "6");
  mret (rules4 ++ rules6).
Definition execHasDefaultRoute (family : string) (table : Z) : io K bool :=
  if negb (containsString ["4"; "6"] family) then fail "invalid_address_family"
  else
    raw ← output run ipPath ["-" +:+ family; "-j"; "route"; "show"; "table"; pretty table; "default"];
    v ← lift (decodeStrictJSON raw);
    routes ← lift (JText.structSlice (fun m => Ok m) v);
    mret (0 <? length routes)%nat.
Definition execNFTPolicy (routeTag : string) : io K NFTPolicy :=
  raw ← output run nftPath ["-j"; "list"; "table"; "inet"; "router_policy"]; lift (parseNFTPolicy mapOrder raw routeTag).
Definition execProcessRunning (process : string) : io K bool :=
  if negb (containsString ["nfqws"; "xray"] process) then fail "process_name_not_allowed" else pidof process.
Definition execConntrackMark (localIP connectedIP : string) : io K string :=
  if S.is_empty localIP || S.is_empty connectedIP then fail "conntrack_tuple_incomplete"
  else raw ← readBounded conntrackPath (8 * 2 ^ 20); lift (parseConntrack raw localIP connectedIP).
Definition ExecOpenWrtCommands : OpenWrtCommands K :=
  mkCommands execRouteGet execRules execHasDefaultRoute execNFTPolicy execProcessRunning execConntrackMark.
End Commands.

(** ** The verifiers *)

(** A status error around the error of a command, if there was one. *)
Definition pathStatusError {K A} (status code : string) (err : result bool) : proof K A :=
  refuse (PathStatus status code (match err with Err e => Some e | Ok _ => None end)).

(** What the system does with traffic that no policy touches. *)
Definition systemDefaultVerify {K} (now : K -> K * time) (commands : OpenWrtCommands K) (request : PathProofRequest) : proof K evidenceResult :=
  if negb (isSystemDefaultRoute (rq_Route request)) then refuseText "system_default_route_identity_mismatch"
  else
    let o := rq_Observation request in
    if S.is_empty (ob_Domain o) || S.is_empty (ob_ConnectedIP o) || S.is_empty (ob_LocalIP o) then refuseText "system_default_socket_observation_missing"
    else if negb (S.is_empty (ob_SocketMark o)) then refuseText "system_default_probe_was_marked"
    else
      kernelRoute ← ask "system_default_route_get_failed: " (RouteGet commands (ob_ConnectedIP o) "");
      if S.is_empty (kr_Interface kernelRoute) then refuseText "system_default_interface_missing"
      else
        t ← reading now;
        mret (zero_evidenceResult |> set_ev_Domain (ob_Domain o) |> set_ev_RouteTag (r_Tag (rq_Route request)) |> set_ev_RouteType (r_Type (rq_Route request))
          |> set_ev_RouteTable (kr_Table kernelRoute) |> set_ev_Interface (kr_Interface kernelRoute)
          |> set_ev_DNSResolver (ob_DNSResolver o) |> set_ev_DNSProtocol (ob_DNSProtocol o) |> set_ev_ResolvedIP (firstString (ob_ResolvedIPs o))
          |> set_ev_ConnectedIP (ob_ConnectedIP o) |> set_ev_ConnectedPort (ob_ConnectedPort o) |> set_ev_LocalIP (ob_LocalIP o)
          |> set_ev_AddressFamily (ob_AddressFamily o) |> set_ev_Transport (ob_Transport o)
          |> set_ev_HostPreserved (ob_HostPreserved o) |> set_ev_SNIPreserved (ob_SNIPreserved o)
          |> set_ev_TLSResult (ob_TLSResult o) |> set_ev_HTTPResult (ob_HTTPResult o) |> set_ev_ContentResult (ob_ContentResult o)
          |> set_ev_ExternalIPHash (ob_ExternalIPHash o) |> set_ev_ExternalCountry (ob_ExternalCountry o)
          |> set_ev_LatencyMS (ob_RouteLatencyMS o) |> set_ev_RouteLatencyMS (ob_RouteLatencyMS o) |> set_ev_RouteLatencyAvailable (ob_RouteLatencyAvailable o)
          |> set_ev_VerificationDurationMS (Milliseconds (T.Sub (ob_CompletedAt o) (ob_StartedAt o)))
          |> set_ev_ReasonCode "system_default_path_verified" |> set_ev_Status "OK" |> set_ev_EvidenceSource "kernel-route-get"
          |> set_ev_CheckedAt t).

(** The identity of the deployment that is active, as a file of [key=value] lines. *)
Record activePathBinding := mkActive { ab_Binding : Binding; ab_ManifestHash : string; ab_State : string }.
Definition lowerHex (c : Ascii.ascii) : bool := S.in_range 97 102 c || S.digit c.
Definition hexOf (prefix : string) (n : Z) (s : string) : bool :=
  S.HasPrefix s prefix && S.all_bytes lowerHex (behind prefix s) && (S.len (behind prefix s) =? n).
(** [^tx_[a-f0-9]{16}$], [^rev_[0-9]+_[a-f0-9]{12}$] and [^sha256:[a-f0-9]{64}$]. *)
Definition activeTransactionPattern (s : string) : bool := hexOf "tx_" 16 s.
Definition activeRevisionPattern (s : string) : bool :=
  S.HasPrefix s "rev_" &&
  match Net.cutFirst (Ascii.ascii_of_N 95) (behind "rev_" s) with
  | Some (n, hash) => negb (S.is_empty n) && S.all_bytes S.digit n && S.all_bytes lowerHex hash && (S.len hash =? 12)
  | None => false
  end.
Definition activeHashPattern (s : string) : bool := hexOf "sha256:" 64 s.
Fixpoint bindingValues (values : gmap string string) (lines : list string) : result (gmap string string) :=
  match lines with
  | [] => Ok values
  | line :: rest =>
      if S.is_empty line then bindingValues values rest
      else match Net.cutFirst (Ascii.ascii_of_N 61) line with
           | Some (key, value) =>
               if S.is_empty (default "" (values !! key)) then bindingValues (<[key := value]> values) rest else Err "active_binding_invalid"
           | None => Err "active_binding_invalid"
           end
  end.
Definition parseActiveBinding (raw : string) : result activePathBinding :=
  values ← bindingValues ∅ (S.Split raw nl);
  let get key := default "" (values !! key) in
  _ ← reject (negb (activeTransactionPattern (get "transaction_id")) || negb (activeRevisionPattern (get "revision_id"))
              || negb (activeHashPattern (get "candidate_hash")) || negb (activeHashPattern (get "artifact_manifest_hash"))) "active_binding_identity_invalid";
  _ ← reject (negb (get "transaction_state" =s "applied") && negb (get "transaction_state" =s "committed")) "active_binding_state_invalid";
  Ok (mkActive (mkBinding (get "transaction_id") (get "revision_id") (get "candidate_hash")) (get "artifact_manifest_hash") (get "transaction_state")).

(** The parts of the generated Xray configuration that bind a SOCKS listener to an outbound. *)
Record xrayInbound := mkInbound { xi_Tag : string; xi_Listen : string; xi_Port : Z; xi_Protocol : string }.
Record xrayOutbound := mkOutbound { xo_Tag : string; xo_Protocol : string }.
Record xrayRule := mkXrayRule { xr_InboundTags : list string; xr_OutboundTag : string }.
Definition decodeInbound (m : list (string * JText.jtext)) : result xrayInbound :=
  tag ← JText.stringField "" (JText.valuesOf "tag" m); listen ← JText.stringField "" (JText.valuesOf "listen" m);
  port ← JText.intField 0 (JText.valuesOf "port" m); protocol ← JText.stringField "" (JText.valuesOf "protocol" m);
  Ok (mkInbound tag listen port protocol).
Definition decodeOutbound (m : list (string * JText.jtext)) : result xrayOutbound :=
  tag ← JText.stringField "" (JText.valuesOf "tag" m); protocol ← JText.stringField "" (JText.valuesOf "protocol" m); Ok (mkOutbound tag protocol).
Definition stringItem (v : JText.jtext) : result string := JText.stringField "" [v].
Definition stringSlice (v : JText.jtext) : result (list string) :=
  match v with JText.TNull => Ok [] | JText.TArr items => mapM stringItem items | _ => Err "cannot unmarshal into a slice" end.
Definition decodeXrayRule (m : list (string * JText.jtext)) : result xrayRule :=
  tags ← stringSlice (JText.anyField (JText.valuesOf "inboundTag" m)); outbound ← JText.stringField "" (JText.valuesOf "outboundTag" m);
  Ok (mkXrayRule tags outbound).
Definition xrayConfig : Type := list xrayInbound * list xrayOutbound * list xrayRule.
Definition decodeXray (m : list (string * JText.jtext)) : result xrayConfig :=
  inbounds ← JText.structSlice decodeInbound (JText.anyField (JText.valuesOf "inbounds" m));
  outbounds ← JText.structSlice decodeOutbound (JText.anyField (JText.valuesOf "outbounds" m));
  rules ← JText.structItem (fun r => JText.structSlice decodeXrayRule (JText.anyField (JText.valuesOf "rules" r))) (JText.anyField (JText.valuesOf "routing" m));
  Ok (inbounds, outbounds, rules).
Definition parseXray (raw : string) : result xrayConfig :=
  match JText.parse raw with
  | Some v => match JText.structItem decodeXray v with Ok c => Ok c | Err _ => Err "invalid_generated_xray_config" end
  | None => Err "invalid_generated_xray_config"
  end.
Fixpoint inboundsByTag (m : gmap string xrayInbound) (inbounds : list xrayInbound) : result (gmap string xrayInbound) :=
  match inbounds with
  | [] => Ok m
  | i :: rest =>
      _ ← reject (S.is_empty (xi_Tag i) || negb (S.is_empty (default "" (xi_Protocol <$> m !! xi_Tag i)))) "xray_inbound_tag_invalid_or_duplicate";
      inboundsByTag (<[xi_Tag i := i]> m) rest
  end.
(** Once the endpoint and the file are read. *)
Definition socksBound (route : Route) (host : string) (port : Z) (c : xrayConfig) : result bool :=
  let '(inbounds, outbounds, rules) := c in
  let mine := List.filter (fun o => (xo_Tag o =s r_Tag route) && (xo_Protocol o =s "vless")) outbounds in
  _ ← reject (1 <? length mine)%nat "xray_route_outbound_duplicate";
  _ ← reject (length mine =? 0)%nat "xray_route_outbound_missing";
  byTag ← inboundsByTag ∅ inbounds;
  let binds rule :=
    (xr_OutboundTag rule =s r_Tag route) &&
    match xr_InboundTags rule with
    | [tag] => match byTag !! tag with
               | Some i => (xi_Protocol i =s "socks") && (xi_Listen i =s host) && (xi_Port i =? port)
               | None => false
               end
    | _ => false
    end in
  if any binds rules then Ok true else Err "xray_route_socks_binding_missing".
Definition socksEndpoint (socks5 : string) : result (string * Z) :=
  match Net.SplitHostPort socks5 with
  | None => Err "invalid_route_socks_endpoint"
  | Some (host, portText) =>
      match IP.ParseIP host with
      | Some ip =>
          if negb (IP.IsLoopback ip) then Err "route_socks_endpoint_not_loopback"
          else match Atoi portText with
               | Some port => if (port <? 1) || (65535 <? port) then Err "invalid_route_socks_port" else Ok (host, port)
               | None => Err "invalid_route_socks_port"
               end
      | None => Err "route_socks_endpoint_not_loopback"
      end
  end.

Definition matchingRule (rules : list KernelRule) (family : string) (expected : RouteProof) : bool :=
  any (fun r => (ku_Family r =s family) && (ku_Priority r =? rp_RulePriority expected) && (ku_Mark r =s rp_Mark expected)
                && (ku_Table r =? rp_Table expected)) rules.
(** An address a probe may not go to. *)
Definition isUnsafeAddr (a : IP.Addr) : bool :=
  IP.IsLoopback a || IP.IsPrivate a || IP.IsLinkLocalUnicast a || IP.IsLinkLocalMulticast a || IP.IsMulticast a || IP.IsUnspecified a.
Definition safeDNSAnswers (values : list string) : bool :=
  negb (length values =? 0)%nat &&
  forallb (fun v => match IP.ParseAddr v with Some a => negb (isUnsafeAddr a) | None => false end) values.

Record OpenWrtPathVerifier := mkPathVerifier {
  ov_root : string;
  ov_activeBindingPath : string;
  ov_binding : Binding;
  ov_manifestHash : string;
  ov_plan : VerificationPlan;
  ov_simulation : bool
}.

Definition XrayFile : string := "xray.json".

Section Verifier.
Context {K : Type} (now : K -> K * time) (readBounded : string -> Z -> io K string) (wait : duration -> io K unit).
Context (commands : OpenWrtCommands K) (v : OpenWrtPathVerifier).

Definition requiredProof (tag routeType : string) : option RouteProof :=
  first (fun required => (rp_Tag required =s tag) && (rp_Type required =s routeType)) (vp_RequiredRouteProof (ov_plan v)).
Definition verifyActiveBinding : proof K unit :=
  active ← ask "active_binding_unavailable: " (raw ← readBounded (ov_activeBindingPath v) 16384; lift (parseActiveBinding raw));
  if negb (bool_decide (ab_Binding active = ov_binding v)) || negb (ab_ManifestHash active =s ov_manifestHash v)
  then refuseText "active_binding_mismatch" else mret ().
Definition verifySOCKSBinding (route : Route) : io K bool :=
  '(host, port) ← lift (socksEndpoint (r_SOCKS5 route));
  raw ← readBounded (ov_root v +:+ "/" +:+ XrayFile) (2 * 2 ^ 20);
  c ← lift (parseXray raw);
  lift (socksBound route host port c).

Definition retryDelays : list duration := [25 * millisecond; 50 * millisecond; 100 * millisecond; 200 * millisecond; 400 * millisecond].
(** [wait] fails when the context ends. *)
Fixpoint conntrackRetry (lastErr localIP remoteIP : string) (delays : list duration) : io K string :=
  match delays with
  | [] => fail lastErr
  | d :: rest =>
      _ ← wait d;
      (fun k => match ConntrackMark commands localIP remoteIP k with
                | (k, Ok mark) => (k, Ok mark)
                | (k, Err e) => conntrackRetry e localIP remoteIP rest k
                end) : io K string
  end.
Definition conntrackMarkWithRetry (localIP remoteIP : string) : io K string := fun k =>
  match ConntrackMark commands localIP remoteIP k with
  | (k, Ok mark) => (k, Ok mark)
  | (k, Err e) => conntrackRetry e localIP remoteIP retryDelays k
  end.

Definition openwrtBegin (start : PathProofStart) : proof K PathProofSession :=
  match requiredProof (r_Tag (st_Route start)) (r_Type (st_Route start)) with
  | None => refuseText "route_not_bound_to_verification_plan"
  | Some _ =>
      _ ← verifyActiveBinding;
      policy ← ask "nft_policy_begin_failed: " (ReadNFTPolicy commands (r_Tag (st_Route start)));
      mret (mkSession (st_StartedAt start) (np_Counter policy) "")
  end.

(** What the plan requires and the observation shows, before the kernel is asked. *)
Definition observed (required : RouteProof) (request : PathProofRequest) (checkedAt : time) : evidenceResult :=
  let o := rq_Observation request in
  zero_evidenceResult |> set_ev_Domain (ob_Domain o) |> set_ev_RouteTag (r_Tag (rq_Route request)) |> set_ev_RouteType (r_Type (rq_Route request))
    |> set_ev_AdapterRevision (b_RevisionID (ov_binding v)) |> set_ev_CandidateHash (b_CandidateHash (ov_binding v))
    |> set_ev_ArtifactManifestHash (ov_manifestHash v)
    |> set_ev_NFTMark (rp_Mark required) |> set_ev_IPRulePriority (rp_RulePriority required) |> set_ev_RouteTable (rp_Table required)
    |> set_ev_DNSResolver (ob_DNSResolver o) |> set_ev_DNSProtocol (ob_DNSProtocol o) |> set_ev_ResolvedIP (firstString (ob_ResolvedIPs o))
    |> set_ev_ConnectedIP (ob_ConnectedIP o) |> set_ev_ConnectedPort (ob_ConnectedPort o) |> set_ev_LocalIP (ob_LocalIP o)
    |> set_ev_AddressFamily (ob_AddressFamily o) |> set_ev_Transport (ob_Transport o) |> set_ev_SocketMark (ob_SocketMark o)
    |> set_ev_HostPreserved (ob_HostPreserved o) |> set_ev_SNIPreserved (ob_SNIPreserved o)
    |> set_ev_TLSResult (ob_TLSResult o) |> set_ev_HTTPResult (ob_HTTPResult o) |> set_ev_ContentResult (ob_ContentResult o)
    |> set_ev_ExternalIPHash (ob_ExternalIPHash o) |> set_ev_ExternalCountry (ob_ExternalCountry o)
    |> set_ev_LatencyMS (ob_RouteLatencyMS o) |> set_ev_RouteLatencyMS (ob_RouteLatencyMS o) |> set_ev_RouteLatencyAvailable (ob_RouteLatencyAvailable o)
    |> set_ev_VerificationDurationMS (Milliseconds (T.Sub (ob_CompletedAt o) (ob_StartedAt o)))
    |> set_ev_ReasonCode "route_path_verified" |> set_ev_Status "OK" |> set_ev_EvidenceSource "openwrt-fixed-commands"
    |> set_ev_Simulation (ov_simulation v) |> set_ev_CheckedAt checkedAt.
Definition accepted (required : RouteProof) (actual : evidenceResult) : proof K evidenceResult :=
  _ ← pure (ValidateRouteProof required actual (ov_binding v) (ov_manifestHash v)); mret actual.

Definition verifyDrop (required : RouteProof) (policy : NFTPolicy) (actual : evidenceResult) : proof K evidenceResult :=
  if negb (bool_decide ("drop_probe" ∈ np_Actions policy)) then refuseText "dedicated_drop_probe_rule_missing"
  else accepted required (actual |> set_ev_ConntrackMark (rp_Mark required) |> set_ev_DropIPv4Enforced true |> set_ev_DropIPv6Enforced true |> set_ev_DropDNSEnforced true).

(** The interface the kernel sends the traffic to. *)
Definition verifyInterface (required : RouteProof) (request : PathProofRequest) (actual : evidenceResult) : proof K evidenceResult :=
  if r_Type (rq_Route request) =s "vless" then mret (set_ev_Interface "lo" actual)
  else
    kernelRoute ← ask "route_get_failed: " (RouteGet commands (ob_ConnectedIP (rq_Observation request)) (rp_Mark required));
    if negb (kr_Table kernelRoute =? rp_Table required) || S.is_empty (kr_Interface kernelRoute)
    then refuseText "route_get_table_or_interface_mismatch" else mret (set_ev_Interface (kr_Interface kernelRoute) actual).
Definition defaultRoute (required : bool) (family : string) (table : Z) (ok : bool) : proof K bool :=
  if negb required then mret ok
  else answer ← try (HasDefaultRoute commands family table);
       mret (ok && match answer with Ok routeOK => routeOK | Err _ => false end).
Definition verifyFamilies (required : RouteProof) (actual : evidenceResult) : proof K evidenceResult :=
  rules ← ask "ip_rule_read_failed: " (Rules commands);
  ok4 ← defaultRoute (rp_RequiresIPv4 required) "4" (rp_Table required) (matchingRule rules "4" required);
  ok6 ← defaultRoute (rp_RequiresIPv6 required) "6" (rp_Table required) (matchingRule rules "6" required);
  mret (actual |> set_ev_IPv4Verified ok4 |> set_ev_IPv6Verified ok6).
Definition verifyConntrack (request : PathProofRequest) (actual : evidenceResult) : proof K evidenceResult :=
  if r_Type (rq_Route request) =s "vless" then mret actual
  else
    mark ← ask "conntrack_proof_failed: " (conntrackMarkWithRetry (ob_LocalIP (rq_Observation request)) (ob_ConnectedIP (rq_Observation request)));
    mret (set_ev_ConntrackMark mark actual).

(** What the type of the route asks of the policy, the socket and the processes. *)
Definition verifyType (required : RouteProof) (policy : NFTPolicy) (request : PathProofRequest) (actual : evidenceResult) : proof K evidenceResult :=
  let route := rq_Route request in
  let o := rq_Observation request in
  let action name := bool_decide (name ∈ np_Actions policy) in
  if r_Type route =s "direct" then
    if negb (action "direct_bypass") || negb (ob_SocketMark o =s rp_Mark required) then refuseText "direct_socket_mark_or_bypass_rule_missing"
    else mret (actual |> set_ev_DirectBypassXray true |> set_ev_DirectBypassZapret true |> set_ev_InheritedMarkCleared true)
  else if r_Type route =s "zapret" then
    running ← try (ProcessRunning commands "nfqws");
    if negb (match running with Ok b => b | Err _ => false end) || negb (action "zapret") then pathStatusError "NOT_CONFIGURED" "zapret_not_configured" running
    else if negb (ob_ConnectedPort o =? 443) || negb (ob_SocketMark o =s rp_Mark required) then refuseText "zapret_tcp443_socket_mark_missing"
    else mret (actual |> set_ev_ZapretInstalled true |> set_ev_ZapretFlowProcessed true |> set_ev_TCP443Verified true |> set_ev_QUICPolicy (np_QUIC policy))
  else if r_Type route =s "smart_dns" then
    if negb (action "smart_dns") || negb (ob_SocketMark o =s rp_Mark required) then refuseText "smart_dns_socket_mark_or_policy_missing"
    else mret (set_ev_DNSResponseSafe (safeDNSAnswers (ob_ResolvedIPs o)) actual)
  else if r_Type route =s "vless" then
    running ← try (ProcessRunning commands "xray");
    if negb (match running with Ok b => b | Err _ => false end) then pathStatusError "NOT_CONFIGURED" "xray_not_running" running
    else if negb (action "xray") then refuseText "xray_route_policy_missing"
    else
      loopback ← ask "" (verifySOCKSBinding route);
      mret (actual |> set_ev_XrayOutboundTag (r_Tag route) |> set_ev_SOCKS5Endpoint (r_SOCKS5 route) |> set_ev_SOCKS5Loopback loopback)
  else if r_Type route =s "external_socks" then
    if negb (action "external_socks") then refuseText "external_socks_route_policy_missing"
    else
      loopback ← try (verifySOCKSBinding route);
      match loopback with
      | Err _ => pathStatusError "NOT_CONFIGURED" "external_socks_endpoint_unavailable" loopback
      | Ok b => mret (actual |> set_ev_SOCKS5Endpoint (r_SOCKS5 route) |> set_ev_SOCKS5Loopback b |> set_ev_ProxyFlowProcessed true)
      end
  else refuseText "unsupported_route_type".

Definition openwrtVerify (request : PathProofRequest) : proof K evidenceResult :=
  let route := rq_Route request in
  match requiredProof (r_Tag route) (r_Type route) with
  | None => refuseText "route_not_bound_to_verification_plan"
  | Some required =>
      _ ← verifyActiveBinding;
      policy ← ask "nft_policy_finish_failed: " (ReadNFTPolicy commands (r_Tag route));
      if negb (r_Type route =s "vless") && (np_Counter policy <=? ss_CounterBefore (rq_Session request)) then refuseText "route_nft_counter_did_not_advance"
      else
        checkedAt ← reading now;
        let actual := observed required request checkedAt in
        if r_Type route =s "drop" then verifyDrop required policy actual
        else if S.is_empty (ob_ConnectedIP (rq_Observation request)) || S.is_empty (ob_LocalIP (rq_Observation request))
        then refuseText "connected_socket_observation_missing"
        else
          actual ← verifyInterface required request actual;
          actual ← verifyFamilies required actual;
          actual ← verifyConntrack request actual;
          actual ← verifyType required policy request actual;
          accepted required actual
  end.
Definition openwrtVerifier : PathProofVerifier K := mkVerifier (Some openwrtBegin) openwrtVerify.
Definition activeEngine : PathProofVerifier K :=
  multiplexPathProofVerifier openwrtVerifier (mkVerifier None (systemDefaultVerify now commands)).
End Verifier.
