(* ===== verification/ProbeDNS.v ===== *)
(** * Answers of resolvers

    The DNS side of [internal/probe/probe.go] and the checks of resolvers in
    [dns_validation.go]: which addresses a probe takes from an answer.

    Messages are those of the package [dns], of which the code reads the header, the
    questions and three kinds of records.  [fqdn] and [rcodeName] are functions of
    that package, [exchange] its client. *)
From Stdlib Require Import ZArith Lia.
From stdpp Require Import base list strings gmap sorting.
From S2P Require Import Prelude Effects Net Config Json Validation Artifact Health ProbeTypes OpenWrtPath.

Open Scope Z_scope.

(** ** Messages *)

Inductive RR : Type :=
| CNAME (owner target : string)
| RecordA (owner : string) (bytes : list Z)
| RecordAAAA (owner : string) (bytes : list Z)
| OtherRecord (owner : string).
Record Question := mkQuestion { q_Name : string; q_Qtype : Z; q_Qclass : Z }.
Record Msg := mkMsg {
  m_Id : Z;
  m_Response : bool;
  m_Opcode : Z;
  m_Truncated : bool;
  m_Rcode : Z;
  m_Question : list Question;
  m_Answer : list RR;
  m_Len : Z
}.
Definition TypeA : Z := 1.
Definition TypeAAAA : Z := 28.
Definition ClassINET : Z := 1.
Definition OpcodeQuery : Z := 0.
Definition RcodeSuccess : Z := 0.

(** [netip.AddrFromSlice]: 4 or 16 bytes. *)
Definition bigEndian (bytes : list Z) : Z := fold_left (fun acc b => acc * 256 + b) bytes 0.
Definition AddrFromSlice (bytes : list Z) : option IP.Addr :=
  if (length bytes =? 4)%nat then Some (IP.V4 (bigEndian bytes))
  else if (length bytes =? 16)%nat then Some (IP.V6 (bigEndian bytes) "") else None.
(** [Addr.Is4], [Addr.Is6] and [Addr.String]. *)
Definition Is4 (a : IP.Addr) : bool := match a with IP.V4 _ => true | IP.V6 _ _ => false end.
Definition Is6 (a : IP.Addr) : bool := negb (Is4 a).
Definition addrString (a : IP.Addr) : string :=
  match a with
  | IP.V4 _ => IP.Text a
  | IP.V6 n zone =>
      (if n / 2 ^ 32 =? 65535 then "::ffff:" +:+ IP.Text a else IP.Text a) +:+ (if S.is_empty zone then "" else "%" +:+ zone)
  end.

(** ** Validating an answer *)

Section Answers.
Context (fqdn : string -> string) (rcodeName : Z -> string).

Fixpoint aliases (targets : gmap string string) (answer : list RR) : result (gmap string string) :=
  match answer with
  | [] => Ok targets
  | CNAME owner target :: rest =>
      let owner := S.ToLower owner in let target := S.ToLower target in
      let known := default "" (targets !! owner) in
      if S.is_empty owner || S.is_empty target || (negb (S.is_empty known) && negb (known =s target)) then Err "dns_cname_conflict"
      else aliases (<[owner := target]> targets) rest
  | _ :: rest => aliases targets rest
  end.
(** The names the answer gives the question, following at most [steps] aliases. *)
Fixpoint followAliases (targets : gmap string string) (steps : nat) (allowed : gset string) (current : string) : result (gset string) :=
  match steps with
  | O => Ok allowed
  | S steps =>
      match targets !! current with
      | None => Ok allowed
      | Some target =>
          if bool_decide (target ∈ allowed) then Err "dns_cname_loop"
          else if (steps =? 0)%nat && negb (S.is_empty (default "" (targets !! target))) then Err "dns_cname_limit"
          else followAliases targets steps ({[target]} ∪ allowed) target
      end
  end.
(** The addresses of the records of the type asked for, of an allowed name. *)
Definition addressOf (qtype : Z) (allowed : gset string) (rr : RR) : list IP.Addr :=
  match rr with
  | RecordA owner bytes =>
      if (qtype =? TypeA) && bool_decide (S.ToLower owner ∈ allowed) then option_list (AddrFromSlice bytes) else []
  | RecordAAAA owner bytes =>
      if (qtype =? TypeAAAA) && bool_decide (S.ToLower owner ∈ allowed) then option_list (AddrFromSlice bytes) else []
  | _ => []
  end.
Definition isAddressRecord (rr : RR) : bool := match rr with RecordA _ _ | RecordAAAA _ _ => true | _ => false end.
Fixpoint collect (qtype : Z) (allowed : gset string) (out : list IP.Addr) (answer : list RR) : result (list IP.Addr) :=
  match answer with
  | [] => Ok out
  | rr :: rest =>
      if (32 <=? length out)%nat then Err "dns_answer_limit" else collect qtype allowed (out ++ addressOf qtype allowed rr) rest
  end.

Definition validateDNSResponse (msg : Msg) (resp : option Msg) (host : string) (qtype : Z) : result (list IP.Addr) :=
  match resp with
  | None => Err "dns_response_size_limit"
  | Some resp =>
      if 16 * 1024 <? m_Len resp then Err "dns_response_size_limit"
      else if negb (m_Id resp =? m_Id msg) then Err "dns_transaction_id_mismatch"
      else if negb (m_Response resp) || negb (m_Opcode resp =? OpcodeQuery) then Err "dns_bad_response_header"
      else if negb (m_Rcode resp =? RcodeSuccess) then Err ("dns_rcode_" +:+ rcodeName (m_Rcode resp))
      else
        let asked := match m_Question resp with
          | [q] => S.EqualFold (q_Name q) (fqdn host) && (q_Qtype q =? qtype) && (q_Qclass q =? ClassINET)
          | _ => false
          end in
        if negb asked then Err "dns_question_mismatch"
        else
          let startName := S.ToLower (fqdn host) in
          targets ← aliases ∅ (m_Answer resp);
          allowed ← followAliases targets 8 {[startName]} startName;
          out ← collect qtype allowed [] (m_Answer resp);
          if any isAddressRecord (m_Answer resp) && (length out =? 0)%nat then Err "dns_unrelated_answer" else Ok out
  end.
End Answers.

Fixpoint uniqueAddrs (values : list IP.Addr) : list IP.Addr :=
  match values with
  | [] => []
  | v :: rest => v :: List.filter (fun a => negb (bool_decide (a = v))) (uniqueAddrs rest)
  end.
Definition preferIPv4 (addrs : list IP.Addr) : list IP.Addr := List.filter Is4 addrs ++ List.filter (fun a => negb (Is4 a)) addrs.
Definition normalizeDNSServer (server : string) : string :=
  match Net.SplitHostPort server with Some _ => server | None => JoinHostPort server "53" end.

Definition maxRouteProbeTargets : nat := 4.
Definition ofFamily (family : string) (ip : IP.Addr) : bool :=
  negb ((family =s "ipv4") && negb (Is4 ip) || (family =s "ipv6") && negb (Is6 ip)).
Definition routeProbeTargets (ips : list IP.Addr) (family : string) : list IP.Addr :=
  firstn maxRouteProbeTargets (List.filter (ofFamily family) ips).

(** ** Asking *)

Section Queries.
Context {K : Type} (fqdn : string -> string) (rcodeName : Z -> string).
(** [SetQuestion] with a fresh identifier; one exchange over [udp] or [tcp]; one
    through a SOCKS proxy, from dialing to the message read; the system resolver. *)
Context (question : string -> Z -> K -> K * Msg).
Context (exchange : string -> string -> Msg -> io K (option Msg)).
Context (socksExchange : string -> string -> Msg -> io K (option Msg)).
Context (lookupHost : string -> io K (list IP.Addr)).

Definition newQuestion (host : string) (qtype : Z) : io K Msg := fun k => let '(k, msg) := question (fqdn host) qtype k in (k, Ok msg).
Definition attemptAll {A} (m : io K A) : io K (option A) := fun k =>
  match m k with (k, Ok a) => (k, Ok (Some a)) | (k, Err _) => (k, Ok None) end.
Definition within (out : list IP.Addr) (empty : string) : result (list IP.Addr) :=
  if (length out =? 0)%nat then Err empty else if (64 <? length out)%nat then Err "dns_answer_limit" else Ok out.

Definition allowPrivateProbe (c : Config) : bool := pl_Target (c_Platform c) =s "test".

(** The answers to both types, over SOCKS; a type that fails has none. *)
Fixpoint socksAnswers (proxyAddr server host : string) (qtypes : list Z) : io K (list IP.Addr) :=
  match qtypes with
  | [] => mret []
  | qtype :: rest =>
      msg ← newQuestion host qtype;
      found ← attemptAll (response ← socksExchange proxyAddr server msg; lift (validateDNSResponse fqdn rcodeName msg response host qtype));
      more ← socksAnswers proxyAddr server host rest;
      mret (default [] found ++ more)
  end.
Definition queryDNSTCPViaSOCKS (c : Config) (proxyAddr server host : string) : io K (list IP.Addr) :=
  let server := normalizeDNSServer server in
  match Net.SplitHostPort server with
  | None => fail "socks_dns_resolver_invalid"
  | Some (resolverHost, resolverPort) =>
      if negb (resolverPort =s "53") && negb (allowPrivateProbe c) then fail "socks_dns_resolver_invalid"
      else match IP.ParseAddr resolverHost with
           | None => fail "socks_dns_resolver_unsafe"
           | Some resolverIP =>
               if negb (allowPrivateProbe c) && isUnsafeAddr resolverIP then fail "socks_dns_resolver_unsafe"
               else out ← socksAnswers proxyAddr server host [TypeA; TypeAAAA]; lift (within (uniqueAddrs out) "socks_dns_empty")
           end
  end.

(** One type over UDP, over TCP when that fails or the answer is cut short.  The
    result has the protocol, whether it succeeds or not. *)
Definition queryDNSOne (server host : string) (qtype : Z) : io K (result (list IP.Addr) * string) :=
  msg ← newQuestion host qtype;
  let check resp := validateDNSResponse fqdn rcodeName msg resp host qtype in
  let overTCP : io K (result (list IP.Addr) * string) := fun k =>
    match exchange "tcp" server msg k with
    | (k, Err e) => (k, Ok (Err e, "tcp"))
    | (k, Ok resp) => (k, Ok (check resp, "tcp"))
    end in
  (fun k => match exchange "udp" server msg k with
            | (k, Err _) => overTCP k
            | (k, Ok resp) => if default false (m_Truncated <$> resp) then overTCP k else (k, Ok (check resp, "udp"))
            end) : io K (result (list IP.Addr) * string).
Fixpoint answers (server host : string) (qtypes : list Z) : io K (list IP.Addr * string) :=
  match qtypes with
  | [] => mret ([], "udp")
  | qtype :: rest =>
      '(found, used) ← queryDNSOne server host qtype;
      '(more, protocol) ← answers server host rest;
      match found with
      | Ok addrs => mret (addrs ++ more, if used =s "tcp" then "tcp" else protocol)
      | Err _ => mret (more, protocol)
      end
  end.
Definition queryDNS (server host : string) : io K (list IP.Addr * string) :=
  '(out, protocol) ← answers (normalizeDNSServer server) host [TypeA; TypeAAAA];
  out ← lift (within (uniqueAddrs out) "smart_dns_empty");
  mret (out, protocol).

(** The addresses of a host on a route, the resolver and the protocol. *)
Definition resolveForRoute (c : Config) (route : Route) (host : string) : io K (list IP.Addr * string * string) :=
  if r_DNSMode route =s "socks_remote" then
    if S.is_empty (r_SOCKS5 route) || S.is_empty (r_DNSServer route) then fail "socks_dns_not_configured"
    else
      let resolver := normalizeDNSServer (r_DNSServer route) in
      addrs ← queryDNSTCPViaSOCKS c (r_SOCKS5 route) resolver host;
      mret (preferIPv4 addrs, "socks5:" +:+ resolver, "socks5_tcp")
  else if r_Type route =s "smart_dns" then
    if S.is_empty (r_DNSServer route) || S.Contains (r_DNSServer route) "PLACEHOLDER" then fail "smart_dns_server_not_configured"
    else if negb (r_ConnectToResolvedIP route) then fail "smart_dns_connect_to_answer_required"
    else '(addrs, protocol) ← queryDNS (r_DNSServer route) host; mret (preferIPv4 addrs, normalizeDNSServer (r_DNSServer route), protocol)
  else addrs ← lookupHost host; mret (preferIPv4 addrs, "system", "system").
End Queries.
