(* ===== verification/Probe.v ===== *)
(** * Probing a route

    [internal/probe/probe.go] and [socketmark.go]: one HTTP request to one address,
    one check over its addresses, all checks of a service on a route, the country
    behind the route, and the result they make.

    The network is a state [K]: resolvers, connections and the clock are parameters
    that run on it, and so is the text of a [url.Error], which the HTTP client makes
    of the URL and the error of a request.  Contexts and deadlines are not modelled. *)
From Stdlib Require Import ZArith Lia.
From stdpp Require Import base list strings gmap pretty.
From S2P Require Import Prelude Effects Net Config Json Validation Artifact JsonText Evidence Health ProbeTypes ProbePath OpenWrtPath ProbeDNS.

Open Scope Z_scope.

(** ** URLs *)

(** [URL.Hostname] and [URL.Port]. *)
Definition hostAndPort (host : string) : string * string :=
  let '(host, port) :=
    match Net.cutLast Net.colon host with
    | Some (before, port) => if S.all_bytes S.digit port then (before, port) else (host, "")
    | None => (host, "")
    end in
  if S.HasPrefix host "[" && S.HasSuffix host "]" then (S.TrimSuffix (behind "[" host) "]", port) else (host, port).
Definition Hostname (u : URL) : string := (hostAndPort (u_Host u)).1.
Definition PortOf (u : URL) : string :=
  let port := (hostAndPort (u_Host u)).2 in
  if negb (S.is_empty port) then port else if u_Scheme u =s "https" then "443" else "80".

(** ** Judging a response *)

Definition codeAllowed (code : Z) (allowed : list Z) : bool := any (Z.eqb code) allowed.
Definition containsAny (body : string) (markers : list string) : bool :=
  any (fun m => negb (S.is_empty m) && S.Contains (S.ToLower body) (S.ToLower m)) markers.
Definition bodyAllowed (body mode : string) (markers : list string) : bool :=
  if mode =s "empty" then S.is_empty (S.TrimSpace body)
  else if containsString ["optional"; "ignored"] mode then true
  else if mode =s "required" then
    if S.is_empty body then false else if (length markers =? 0)%nat then true else containsAny body markers
  else false.
Definition defaultRegionalMarkers : list string :=
  ["not available in your country"; "not available in your region"; "unsupported country"; "country is not supported"; "geo-blocked"].
Definition defaultBlockMarkers : list string := ["access to the requested resource is restricted"; "roskomnadzor"; "tspu"].
Definition classifyTransportError (err : string) : string :=
  let msg := S.ToLower err in
  if S.Contains msg "no such host" then "dns_failed"
  else if S.Contains msg "tls" then "tls_failed"
  else if S.Contains msg "connection reset" then "connection_reset"
  else if S.Contains msg "timeout" || S.Contains msg "deadline" then "timeout"
  else "transport_failed".

Record Response := mkResponse { rs_StatusCode : Z; rs_Body : string; rs_TLS : bool; rs_Redirect : option URL }.
(** What a response is taken for: the status, the reason, and whether it asks for
    authentication, is a refusal, shows a regional block or another block, has an
    expected code and the expected content. *)
Record Judgement := mkJudgement {
  jd_Status : string;
  jd_Reason : string;
  jd_Auth : bool;
  jd_WAF : bool;
  jd_Regional : bool;
  jd_TSPU : bool;
  jd_Expected : bool;
  jd_Content : bool
}.
Definition judge (check : ProbeCheck) (resp : Response) : Judgement :=
  let code := rs_StatusCode resp in
  let body := rs_Body resp in
  let expected := codeAllowed code (pc_ExpectedCodes check) in
  let content := bodyAllowed body (pc_BodyMode check) (pc_SuccessMarkers check) in
  let regional := containsAny body (pc_RegionalBlockMarkers check) || containsAny body defaultRegionalMarkers in
  let tspu := (code =? 451) || containsAny body (pc_BlockMarkers check) || containsAny body defaultBlockMarkers in
  let auth := code =? 401 in
  let waf := ((code =? 403) || (code =? 429)) && negb regional in
  let verdict status reason auth := mkJudgement status reason auth waf regional tspu expected content in
  if regional then verdict "REGION_BLOCK" "regional_block_marker" auth
  else if tspu then verdict "SUSPECTED_TSPU" "tspu_or_block_marker" auth
  else if auth then
    if pc_AllowUnauthenticated check && expected && content then verdict "OK" "" false
    else verdict "AUTH_REQUIRED" "authentication_required" true
  else if waf then verdict "WAF_OR_RATE_LIMIT" "waf_or_rate_limit" auth
  else if negb expected then verdict "FAIL" ("unexpected_http_" +:+ pretty code) auth
  else if negb content then verdict "FAIL" "content_check_failed" auth
  else verdict "OK" "" auth.

(** ** Socket marks *)

(** The mark of the sockets of a route; 0 for none. *)
Definition routeSocketMark (c : Config) (route : Route) : Z :=
  if allowPrivateProbe c || negb (S.is_empty (r_SOCKS5 route)) || isSystemDefaultRoute route then 0
  else
    let value :=
      if negb (S.is_empty (r_Mark route)) then r_Mark route
      else if containsString ["direct"; "smart_dns"] (r_Type route) then DirectMark (c_OpenWrt c)
      else if r_Type route =s "zapret" then ZapretMark (c_OpenWrt c) else "" in
    default 0 (parseSocketMark value).

(** A connection that was tried: the mark its socket had, and once it is made its
    own address and the peer's. *)
Record Dialed := mkDialed { dl_Mark : Z; dl_Established : option (string * option string) }.
(** One request of the HTTP client: the connection it tried, if it had none, and the
    response or the error. *)
Record Hop := mkHop { hp_Dialed : option Dialed; hp_Answer : result Response }.
(** How its connections are made: through a proxy or not, to which address and port,
    with which mark. *)
Record DialSpec := mkDial { ds_Proxy : string; ds_Addr : IP.Addr; ds_Port : string; ds_Mark : Z }.
(** The variables [connectedIP], [localIP], [addressFamily], [dialTransport] and
    [observedSocketMark] of an attempt. *)
Record Conn := mkConn { cn_ConnectedIP : string; cn_LocalIP : string; cn_AddressFamily : string; cn_Transport : string; cn_Mark : Z }.

Definition familyOf (a : IP.Addr) : string := if Is4 a then "ipv4" else "ipv6".
(** What [DialContext] leaves behind. *)
Definition connect (spec : DialSpec) (cn : Conn) (hop : Hop) : Conn :=
  match hp_Dialed hop with
  | None => cn
  | Some d =>
      let proxied := negb (S.is_empty (ds_Proxy spec)) in
      let cn := mkConn (addrString (ds_Addr spec)) (cn_LocalIP cn) (cn_AddressFamily cn) (if proxied then "socks5" else "direct") (dl_Mark d) in
      match dl_Established d with
      | None => cn
      | Some (local, remote) =>
          if proxied then mkConn (cn_ConnectedIP cn) local (familyOf (ds_Addr spec)) (cn_Transport cn) (cn_Mark cn)
          else match remote with
               | None => mkConn (cn_ConnectedIP cn) local (cn_AddressFamily cn) (cn_Transport cn) (cn_Mark cn)
               | Some ip => mkConn ip local (match IP.ParseAddr ip with Some a => familyOf a | None => cn_AddressFamily cn end) (cn_Transport cn) (cn_Mark cn)
               end
      end
  end.

(** ** Requests *)

Inductive redirection : Type := Follow | UseLast | Refuse (e : string).

Section Engine.
Context {K : Type} (now : K -> K * time).
Context (fqdn : string -> string) (rcodeName : Z -> string) (question : string -> Z -> K -> K * Msg).
Context (exchange socksExchange : string -> string -> Msg -> io K (option Msg)) (lookupHost : string -> io K (list IP.Addr)).
Context (parseURL : string -> option URL) (requestError : URL -> string -> string) (roundTrip : DialSpec -> URL -> K -> K * Hop).
Context (markedDatagram : Z -> K -> K * (Z * option string)).
Context (localCountry : string -> duration -> IP.Addr -> io K string) (hashIP : string -> string).
Context (verifier : PathProofVerifier K).

Definition resolve : Config -> Route -> string -> io K (list IP.Addr * string * string) :=
  resolveForRoute fqdn rcodeName question exchange socksExchange lookupHost.

(** [client.Do] with [CheckRedirect]: [sent] requests were made before; the fuel
    bounds the requests still to be made. *)
Fixpoint doRequest (checkRedirect : Z -> URL -> redirection) (spec : DialSpec) (fuel : nat) (sent redirects : Z) (u : URL) (cn : Conn)
    : K -> K * (Conn * Z * result Response) := fun k =>
  match fuel with
  | O => (k, (cn, redirects, Err "stopped after redirects"))
  | S fuel =>
      let '(k, hop) := roundTrip spec u k in
      let cn := connect spec cn hop in
      let sent := sent + 1 in
      match hp_Answer hop with
      | Err e => (k, (cn, redirects, Err (requestError u e)))
      | Ok resp =>
          match rs_Redirect resp with
          | None => (k, (cn, redirects, Ok resp))
          | Some next =>
              match checkRedirect sent next with
              | UseLast => (k, (cn, sent, Ok resp))
              | Refuse e => (k, (cn, sent, Err (requestError u e)))
              | Follow => doRequest checkRedirect spec fuel sent sent next cn k
              end
          end
      end
  end.

Definition checkProbeRedirect (c : Config) (host : string) (via : Z) (next : URL) : redirection :=
  if 5 <=? via then UseLast
  else if negb (containsString ["http"; "https"] (u_Scheme next)) then Refuse "redirect_scheme_blocked"
  else if negb (S.EqualFold (Hostname next) host) then Refuse "redirect_cross_host_blocked"
  else match IP.ParseAddr (Hostname next) with
       | Some addr => if negb (allowPrivateProbe c) && isUnsafeAddr addr then Refuse "redirect_private_address_blocked" else Follow
       | None => Follow
       end.

(** [measuredRouteLatency]. *)
Definition measuredRouteLatency (start : time) : io K (Z * bool) :=
  t ← clock now;
  let elapsed := T.Sub t start in
  mret (if elapsed <? 0 then (0, false) else (Z.max 1 (Milliseconds elapsed), true)).
Definition composeEndToEndLatency (dnsMS attemptMS : Z) : Z * bool :=
  if (dnsMS <? 0) || (attemptMS <? 0) then (0, false) else (Z.max 1 (wrap64 (dnsMS + attemptMS)), true).

(** The response is [Ok] with the judgement, or the transport failed. *)
Definition attemptOf (parsed : URL) (port : string) (cn : Conn) (redirects : Z) (latency : Z * bool) (outcome : result (Judgement * Response)) : attemptResult :=
  let connectedPort := default 0 (Atoi port) in
  let mark := formatSocketMark (cn_Mark cn) in
  match outcome with
  | Err e =>
      mkAttempt "FAIL" (cn_ConnectedIP cn) connectedPort (cn_LocalIP cn) (cn_AddressFamily cn) (cn_Transport cn) mark
        false false false false false false false 0 0 false false false false false (classifyTransportError e) latency.1 latency.2
  | Ok (j, resp) =>
      mkAttempt (jd_Status j) (cn_ConnectedIP cn) connectedPort (cn_LocalIP cn) (cn_AddressFamily cn) (cn_Transport cn) mark
        true true true ((u_Scheme parsed =s "https") && rs_TLS resp) (jd_Expected j) (jd_Content j) (jd_Expected j) (rs_StatusCode resp) redirects
        (jd_Regional j) (jd_TSPU j) (jd_Auth j) (jd_WAF j) true (jd_Reason j) latency.1 latency.2
  end.
Definition runHTTPAttempt (c : Config) (route : Route) (check : ProbeCheck) (parsed : URL) (host port : string) (ip : IP.Addr) : io K attemptResult :=
  let spec := mkDial (r_SOCKS5 route) ip port (routeSocketMark c route) in
  requestStarted ← clock now;
  outcome ← (fun k =>
    if negb (allowPrivateProbe c) && isUnsafeAddr ip then (k, Ok (mkConn "" "" "" "" 0, 0, Err (requestError parsed "ssrf_private_address_blocked")))
    else let '(k, r) := doRequest (checkProbeRedirect c host) spec 6 0 0 parsed (mkConn "" "" "" "" 0) k in (k, Ok r)) : io K (Conn * Z * result Response);
  latency ← measuredRouteLatency requestStarted;
  let '(cn, redirects, answer) := outcome in
  mret (attemptOf parsed port cn redirects latency (resp ← answer; Ok (judge check resp, resp))).

(** ** One check *)

(** What an attempt leaves in the result of its check. *)
Definition record (a : attemptResult) (r : CheckResult) : CheckResult :=
  let r := if S.is_empty (at_ConnectedIP a) then r else r |> set_ck_ConnectedIP (at_ConnectedIP a) |> set_ck_ConnectedPort (at_ConnectedPort a) in
  let r := if S.is_empty (at_LocalIP a) then r else set_ck_LocalIP (at_LocalIP a) r in
  let r := if S.is_empty (at_AddressFamily a) then r else set_ck_AddressFamily (at_AddressFamily a) r in
  let r := if S.is_empty (at_Transport a) then r else set_ck_Transport (at_Transport a) r in
  let r := if S.is_empty (at_SocketMark a) then r else set_ck_SocketMark (at_SocketMark a) r in
  r |> set_ck_HostPreserved (ck_HostPreserved r || at_HostPreserved a) |> set_ck_SNIPreserved (ck_SNIPreserved r || at_SNIPreserved a)
    |> set_ck_TransportOK (ck_TransportOK r || at_TransportOK a) |> set_ck_TLSOK (ck_TLSOK r || at_TLSOK a)
    |> set_ck_HTTPOK (ck_HTTPOK r || at_HTTPOK a) |> set_ck_ContentOK (ck_ContentOK r || at_ContentOK a)
    |> set_ck_ExpectedCodeMatched (at_ExpectedCodeMatched a) |> set_ck_HTTPCode (at_HTTPCode a) |> set_ck_Redirects (at_Redirects a)
    |> set_ck_RegionalBlock (at_RegionalBlock a) |> set_ck_SuspectedTSPU (at_SuspectedTSPU a)
    |> set_ck_AuthenticationRequired (at_AuthenticationRequired a) |> set_ck_WAFOrRateLimit (at_WAFOrRateLimit a).
Definition recordEndToEnd (dns attempt : Z * bool) (r : CheckResult) : CheckResult :=
  if negb attempt.2 then r
  else
    let '(e2e, ok) := composeEndToEndLatency dns.1 attempt.1 in
    if ok && (negb (ck_EndToEndLatencyAvailable r) || (e2e <? ck_EndToEndLatencyMS r))
    then r |> set_ck_EndToEndLatencyMS e2e |> set_ck_EndToEndLatencyAvailable true else r.
Definition recordLatency (a : attemptResult) (r : CheckResult) : CheckResult :=
  if at_RouteLatencyAvailable a && (negb (ck_RouteLatencyAvailable r) || (at_RouteLatencyMS a <? ck_RouteLatencyMS r))
  then r |> set_ck_RouteLatencyMS (at_RouteLatencyMS a) |> set_ck_RouteLatencyAvailable true |> set_ck_LatencyMS (at_RouteLatencyMS a) else r.

(** An attempt that settles the check: the other addresses are not tried. *)
Definition settles (status : string) : bool := containsString ["OK"; "REGION_BLOCK"; "SUSPECTED_TSPU"; "AUTH_REQUIRED"; "WAF_OR_RATE_LIMIT"] status.
(** The result, and whether an attempt settled it. *)
Fixpoint attempts (try : IP.Addr -> io K attemptResult) (c : Config) (dns : Z * bool) (lastReason : string) (r : CheckResult) (targets : list IP.Addr)
    : io K (CheckResult * string * bool) :=
  match targets with
  | [] => mret (r, lastReason, false)
  | ip :: rest =>
      if negb (allowPrivateProbe c) && isUnsafeAddr ip then attempts try c dns "ssrf_private_address_blocked" r rest
      else
        attemptStarted ← clock now;
        a ← try ip;
        let r := record a r in
        r ← (if at_ResponseReceived a && dns.2 then (m ← measuredRouteLatency attemptStarted; mret (recordEndToEnd dns m r)) else mret r);
        let r := recordLatency a r in
        let status := S.ToUpper (S.TrimSpace (at_Status a)) in
        if settles status then mret (r |> set_ck_Status status |> set_ck_Reason (at_Reason a), "", true)
        else attempts try c dns (at_Reason a) r rest
  end.

Definition finalizeCheckResult (r : CheckResult) (startedAt : time) : io K CheckResult :=
  ms ← elapsedMilliseconds now startedAt; mret (set_ck_VerificationDurationMS ms r).
Definition probeOne (c : Config) (route : Route) (check : ProbeCheck) (family : string) : io K CheckResult :=
  start ← clock now;
  let r := zero_CheckResult |> set_ck_Name (pc_Name check) |> set_ck_URL (pc_URL check) |> set_ck_Required (pc_Required check) |> set_ck_Status "FAIL" in
  let failed reason r := finalizeCheckResult (set_ck_Reason reason r) start in
  match parseURL (pc_URL check) with
  | None => failed "invalid_url" r
  | Some parsed =>
      let host := Hostname parsed in
      dnsStarted ← clock now;
      answer ← (fun k => let '(k, a) := resolve c route host k in (k, Ok a)) : io K (result (list IP.Addr * string * string));
      match answer with
      | Err e => failed ("dns_failed:" +:+ e) r
      | Ok (ips, resolver, protocol) =>
          dns ← measuredRouteLatency dnsStarted;
          let r := r |> set_ck_DNSOK true |> set_ck_DNSResolver resolver |> set_ck_DNSProtocol protocol |> set_ck_ResolvedIPs (map addrString ips) in
          if (r_Type route =s "smart_dns") && negb (allowPrivateProbe c) && any isUnsafeAddr ips then failed "smart_dns_unsafe_answer" r
          else if (length ips =? 0)%nat then failed "dns_empty" r
          else
            let targets := routeProbeTargets ips family in
            if (length targets =? 0)%nat then failed "dns_address_family_unavailable" r
            else
              '(r, lastReason, settled) ← attempts (runHTTPAttempt c route check parsed host (PortOf parsed)) c dns "" r targets;
              r ← finalizeCheckResult r start;
              mret (if negb settled && negb (S.is_empty lastReason) then set_ck_Reason lastReason r else r)
      end
  end.

(** ** The country behind the route *)

Definition checkEgressRedirect (host : string) (via : Z) (next : URL) : redirection :=
  if (2 <? via) || negb (u_Scheme next =s "https") || negb (S.EqualFold (Hostname next) host) then Refuse "unsafe_egress_endpoint_redirect" else Follow.
(** The dialer of this request has no socket mark. *)
Definition fetchTextViaRoute (c : Config) (route : Route) (rawURL : string) : io K string :=
  match parseURL rawURL with
  | None => fail "invalid_egress_endpoint"
  | Some parsed =>
      if negb (u_Scheme parsed =s "https") || S.is_empty (u_Host parsed) || u_User parsed || negb (S.is_empty (u_Fragment parsed))
      then fail "invalid_egress_endpoint"
      else
        let host := Hostname parsed in
        answer ← attemptAll (resolve c route host);
        let ips := match answer with Some (ips, _, _) => ips | None => [] end in
        if (length ips =? 0)%nat then fail "egress_endpoint_resolution_failed"
        else match first (fun ip => allowPrivateProbe c || negb (isUnsafeAddr ip)) ips with
             | None => fail "ssrf_private_address_blocked"
             | Some target =>
                 fun k =>
                   let '(k, (_, _, answer)) := doRequest (checkEgressRedirect host) (mkDial (r_SOCKS5 route) target (PortOf parsed) 0) 6 0 0 parsed (mkConn "" "" "" "" 0) k in
                   (k, resp ← answer;
                       _ ← reject (negb (rs_StatusCode resp =? 200)) "egress_endpoint_http_error";
                       _ ← reject (16 * 1024 <? S.len (rs_Body resp)) "egress_endpoint_response_too_large";
                       Ok (rs_Body resp))
             end
  end.

(** A field of type [bool]. *)
Fixpoint boolField (current : bool) (values : list JText.jtext) : result bool :=
  match values with
  | [] => Ok current
  | JText.TNull :: rest => boolField current rest
  | JText.TBool b :: rest => boolField b rest
  | _ :: _ => Err "cannot unmarshal into a bool field"
  end.
Definition decodeCountryIs (m : list (string * JText.jtext)) : result (string * string) :=
  ip ← JText.stringField "" (JText.valuesOf "ip" m); country ← JText.stringField "" (JText.valuesOf "country" m); Ok (ip, country).
Definition decodeIPWho (m : list (string * JText.jtext)) : result (string * string) :=
  success ← boolField false (JText.valuesOf "success" m);
  ip ← JText.stringField "" (JText.valuesOf "ip" m); country ← JText.stringField "" (JText.valuesOf "country_code" m);
  _ ← reject (negb success) "failed"; Ok (ip, country).
Definition unmarshal {A} (decode : list (string * JText.jtext) -> result A) (body e : string) : result A :=
  match JText.parse body with
  | Some v => match JText.structItem decode v with Ok a => Ok a | Err _ => Err e end
  | None => Err e
  end.
Definition validCountry (s : string) : bool := (S.len s =? 2) && S.all_bytes S.upper_letter s.
Definition parseGeoIPEndpoint (provider body : string) : result (IP.Addr * string) :=
  '(ipText, country) ← (if provider =s "country_is" then unmarshal decodeCountryIs body "invalid_country_is_response"
                        else if provider =s "ipwho_is" then unmarshal decodeIPWho body "invalid_ipwho_is_response"
                        else Err "unsupported_geoip_provider");
  match IP.ParseAddr (S.TrimSpace ipText) with
  | None => Err "unsafe_geoip_address"
  | Some addr =>
      if isUnsafeAddr addr then Err "unsafe_geoip_address"
      else
        let country := S.ToUpper (S.TrimSpace country) in
        if validCountry country then Ok (addr, country) else Err "invalid_geoip_country"
  end.

Record vote := mkVote { vt_IP : IP.Addr; vt_Country : string; vt_Source : string }.
Fixpoint collectVotes (fetch : string -> io K string) (endpoints : list GeoIPEndpoint) : io K (list vote) :=
  match endpoints with
  | [] => mret []
  | e :: rest =>
      found ← attemptAll (body ← fetch (ge_URL e); '(ip, country) ← lift (parseGeoIPEndpoint (ge_Provider e) body); mret (mkVote ip country (ge_Name e)));
      more ← collectVotes fetch rest;
      mret (option_list found ++ more)
  end.
Definition lookupCountry (c : Config) (addr : IP.Addr) : io K string :=
  let g := c_GeoIP c in
  if S.is_empty (g_Database g) || (g_MaxAgeHours g <=? 0) then mret "UNKNOWN"
  else found ← attemptAll (localCountry (g_Database g) (wrap64 (g_MaxAgeHours g * hour)) addr); mret (default "UNKNOWN" found).
Definition consensus (votes : list vote) : result (IP.Addr * string * list string) :=
  match votes with
  | v :: ((_ :: _) as rest) =>
      if any (fun o => negb (vt_Country o =s vt_Country v)) rest then Err "egress_country_consensus_mismatch"
      else Ok (vt_IP v, vt_Country v, map vt_Source votes)
  | _ => Err "egress_country_consensus_insufficient"
  end.
Definition probeExternalIPWithFetcher (c : Config) (fetch : string -> io K string) : io K (IP.Addr * string * list string) :=
  let endpoints := g_Endpoints (c_GeoIP c) in
  if (length endpoints =? 0)%nat then fail "egress_country_sources_not_configured"
  else if MaxGeoIPEndpoints <? Z.of_nat (length endpoints) then fail ("egress_country_sources_exceed_bound:" +:+ pretty MaxGeoIPEndpoints)
  else
    votes ← collectVotes fetch endpoints;
    match votes with
    | [] => fail "egress_country_sources_unreachable"
    | v :: _ =>
        country ← lookupCountry c (vt_IP v);
        let votes := if S.is_empty country || (country =s "UNKNOWN") then votes else votes ++ [mkVote (vt_IP v) country "local_geoip"] in
        lift (consensus votes)
    end.
Definition probeExternalIP (c : Config) (route : Route) : io K (IP.Addr * string * list string) :=
  probeExternalIPWithFetcher c (fetchTextViaRoute c route).

(** ** A route *)

(** A datagram with the mark of the drop route, which must not leave. *)
Definition exerciseDropProbe (c : Config) (route : Route) : io K unit :=
  if allowPrivateProbe c then mret ()
  else
    match parseSocketMark (if S.is_empty (r_Mark route) then DropMark (c_OpenWrt c) else r_Mark route) with
    | None => fail "drop_probe_mark_invalid"
    | Some mark =>
        if mark =? 0 then fail "drop_probe_mark_invalid"
        else fun k =>
          let '(k, (observed, dialErr)) := markedDatagram mark k in
          (k, if observed =? mark then Ok ()
              else match dialErr with Some e => Err ("drop_probe_socket_mark_failed: " +:+ e) | None => Err "drop_probe_socket_mark_mismatch" end)
    end.

(** What one more check adds to the result. *)
Definition addCheck (r : ProbeResult) (c : CheckResult) : ProbeResult :=
  let r := r |> set_pr_Checks (pr_Checks r ++ [c]) |> set_pr_DNSOK (pr_DNSOK r || ck_DNSOK c) |> set_pr_TransportOK (pr_TransportOK r || ck_TransportOK c)
             |> set_pr_TLSOK (pr_TLSOK r || ck_TLSOK c) |> set_pr_HTTPOK (pr_HTTPOK r || ck_HTTPOK c) |> set_pr_ContentOK (pr_ContentOK r || ck_ContentOK c)
             |> set_pr_RegionalBlock (pr_RegionalBlock r || ck_RegionalBlock c) |> set_pr_SuspectedTSPU (pr_SuspectedTSPU r || ck_SuspectedTSPU c) in
  if ck_RouteLatencyAvailable c && (negb (pr_RouteLatencyAvailable r) || (ck_RouteLatencyMS c <? pr_RouteLatencyMS r))
  then r |> set_pr_RouteLatencyMS (ck_RouteLatencyMS c) |> set_pr_RouteLatencyAvailable true else r.
Fixpoint runChecks (c : Config) (route : Route) (family : string) (r : ProbeResult) (checks : list ProbeCheck) : io K ProbeResult :=
  match checks with
  | [] => mret r
  | check :: rest => done ← probeOne c route check family; runChecks c route family (addCheck r done) rest
  end.

Definition finalizeUnverifiedResult (r : ProbeResult) (startedAt : time) : io K ProbeResult :=
  ms ← elapsedMilliseconds now startedAt;
  mret (r |> set_pr_VerificationDurationMS ms |> set_pr_LatencyMS (if pr_RouteLatencyAvailable r then pr_RouteLatencyMS r else 0)).

Definition probesEgress (c : Config) (svc : Service) (route : Route) : bool :=
  r_ExternalIPProbe route || (r_Type route =s "vless") || s_RequireNonRUEgress svc
  || negb (allowPrivateProbe c) && containsString ["direct"; "zapret"; "external_socks"] (r_Type route).
Definition withEgress (answer : result (IP.Addr * string * list string)) (r : ProbeResult) : ProbeResult :=
  match answer with
  | Ok (ip, country, sources) =>
      r |> set_pr_ExternalIPHash (hashIP (addrString ip)) |> set_pr_ExternalCountry country |> set_pr_ExternalCountrySources sources |> set_pr_EgressConsensus true
  | Err e => set_pr_EgressReason e r
  end.
(** A service that needs a known country other than RU: what refuses the route. *)
Definition egressRefusal (svc : Service) (answer : result (IP.Addr * string * list string)) : option (string * string) :=
  if negb (s_RequireNonRUEgress svc) then None
  else
    let country := match answer with Ok (_, country, _) => country | Err _ => "" end in
    if country =s "RU" then Some ("RU_EXIT", "ru_exit_for_geo_locked")
    else if S.is_empty country || (country =s "UNKNOWN")
    then Some ("FAIL", match answer with Err e => if S.is_empty e then "unknown_exit_country_for_geo_locked" else e | Ok _ => "unknown_exit_country_for_geo_locked" end)
    else None.

(** The counts over the checks of a result. *)
Definition statusOf (c : CheckResult) : string := S.ToUpper (S.TrimSpace (ck_Status c)).
Definition requiredChecks (checks : list CheckResult) : list CheckResult := List.filter ck_Required checks.
Definition requiredOK (checks : list CheckResult) : bool := forallb (fun c => statusOf c =s "OK") (requiredChecks checks).
Definition requiredSeen (checks : list CheckResult) : bool := negb (length (requiredChecks checks) =? 0)%nat.
Definition optionalOK (checks : list CheckResult) : bool := any (fun c => negb (ck_Required c) && (statusOf c =s "OK")) checks.
Definition e2eTotal (checks : list CheckResult) : Z :=
  fold_left (fun acc c => if ck_EndToEndLatencyAvailable c then wrap64 (acc + ck_EndToEndLatencyMS c) else acc) (requiredChecks checks) 0.
Definition e2eAvailable (checks : list CheckResult) : bool := forallb ck_EndToEndLatencyAvailable (requiredChecks checks).
Definition authRequired (checks : list CheckResult) : bool := any (fun c => ck_AuthenticationRequired c || (statusOf c =s "AUTH_REQUIRED")) checks.
Definition wafOrRateLimit (checks : list CheckResult) : bool := any (fun c => ck_WAFOrRateLimit c || (statusOf c =s "WAF_OR_RATE_LIMIT")) checks.
Definition firstReason (checks : list CheckResult) : string :=
  default "no_required_probe_succeeded"
    (first (fun e => negb (S.is_empty e)) (map ck_Reason (List.filter (fun c => negb (statusOf c =s "OK")) (requiredChecks checks)))).

Definition outcome (application status : string) (reason : option string) (r : ProbeResult) : ProbeResult :=
  r |> set_pr_ApplicationStatus application |> set_pr_Status status |> set_pr_Reason reason.
(** The status the checks give, before the path is proved. *)
Definition classify (r : ProbeResult) : ProbeResult :=
  let checks := pr_Checks r in
  if pr_RegionalBlock r then outcome "REGION_BLOCK" "REGION_BLOCK" (Some "regional_block_marker") r
  else if pr_SuspectedTSPU r then outcome "SUSPECTED_TSPU" "SUSPECTED_TSPU" (Some "tspu_or_block_marker") r
  else
    let r := r |> set_pr_AuthenticationRequired (authRequired checks) |> set_pr_WAFOrRateLimit (wafOrRateLimit checks) in
    if authRequired checks then outcome "AUTH_REQUIRED" "AUTH_REQUIRED" (Some "authentication_required") r
    else if wafOrRateLimit checks then outcome "WAF_OR_RATE_LIMIT" "WAF_OR_RATE_LIMIT" (Some "waf_or_rate_limit") r
    else if requiredSeen checks && requiredOK checks then
      let r := set_pr_ServiceOK true r in
      let r := if e2eAvailable checks then r |> set_pr_EndToEndLatencyMS (e2eTotal checks) |> set_pr_EndToEndLatencyAvailable (0 <? e2eTotal checks) else r in
      outcome "OK" "OK" (pr_Reason r) r
    else if optionalOK checks then outcome "DEGRADED" "DEGRADED" (Some "required_checks_failed_optional_ok") r
    else outcome "FAIL" (pr_Status r) (Some (firstReason checks)) r.

(** The result of a probe that has not run yet. *)
Definition initialResult (domain serviceName : string) (route : Route) (checkedAt : time) : ProbeResult :=
  zero_ProbeResult |> set_pr_Domain domain |> set_pr_Service serviceName |> set_pr_Route (r_Tag route) |> set_pr_RouteType (r_Type route)
    |> set_pr_RoutePriority (r_Priority route) |> set_pr_Status "FAIL" |> set_pr_CheckedAt checkedAt.
Definition notRun (reason : string) (r : ProbeResult) (startedAt : time) : io K ProbeResult :=
  finalizeUnverifiedResult (r |> set_pr_ApplicationStatus "NOT_RUN" |> set_pr_ReasonCode reason |> set_pr_Reason (Some reason)) startedAt.
(** The marked datagram, whose error is the session's. *)
Definition dropSession (c : Config) (route : Route) (session : PathProofSession) : io K PathProofSession := fun k =>
  if negb (S.is_empty (ss_BeginError session)) then (k, Ok session)
  else match exerciseDropProbe c route k with
       | (k, Ok _) => (k, Ok session)
       | (k, Err e) => (k, Ok (mkSession (ss_StartedAt session) (ss_CounterBefore session) e))
       end.
Definition externalIP (c : Config) (route : Route) : io K (result (IP.Addr * string * list string)) := fun k =>
  let '(k, a) := probeExternalIP c route k in (k, Ok a).
(** After the checks: the country, the status and the proof of the path. *)
Definition concludeRoute (c : Config) (svc : Service) (route : Route) (startedAt : time) (session : PathProofSession) (r : ProbeResult) : io K ProbeResult :=
  let finish r := finishWithPathProof now verifier route r startedAt session in
  if negb (probesEgress c svc route) then finish (classify r)
  else
    answer ← externalIP c route;
    let r := withEgress answer r in
    match egressRefusal svc answer with
    | Some (status, reason) => finish (outcome status status (Some reason) r)
    | None => finish (classify r)
    end.

Definition probeRoute (c : Config) (domain serviceName : string) (svc : Service) (route : Route) (family : string) : io K ProbeResult :=
  startAll ← clock now;
  checkedAt ← clock now;
  let r := initialResult domain serviceName route checkedAt in
  if negb (Enabled route) then notRun "route_not_configured" (set_pr_Status "NOT_CONFIGURED" r) startAll
  else if MaxProbeURLsPerService <? Z.of_nat (length (s_ProbeURLs svc)) then notRun "probe_urls_exceed_bound" (set_pr_FailureStage "preflight" r) startAll
  else
    session ← beginPathProof verifier domain route startAll;
    if r_Type route =s "drop" then
      session ← dropSession c route session;
      finishWithPathProof now verifier route (set_pr_ApplicationStatus "DROP" r) startAll session
    else if negb (containsString [""; "ipv4"; "ipv6"] family) then notRun "unsupported_address_family" r startAll
    else r ← runChecks c route family r (s_ProbeURLs svc); concludeRoute c svc route startAll session (set_pr_LatencyMS (pr_RouteLatencyMS r) r).
Definition ProbeRoute (c : Config) (domain serviceName : string) (svc : Service) (route : Route) : io K ProbeResult :=
  probeRoute c domain serviceName svc route "".
Definition ProbeRouteFamily : Config -> string -> string -> Service -> Route -> string -> io K ProbeResult := probeRoute.
End Engine.
