(* ===== verification/DNSValidation.v ===== *)
(** * Checking a Smart DNS resolver

    [internal/probe/dns_validation.go]: a resolver proposed by the user is asked over
    both transports, and a request goes to the address it gives. *)
From Stdlib Require Import ZArith Lia SpecFloat.
From stdpp Require Import base list strings gmap sorting pretty.
From S2P Require Import Prelude Effects Net Config Json Validation Artifact Evidence Health ProbeTypes ProbePath OpenWrtPath ProbeDNS Probe.

Open Scope Z_scope.

Record DNSResolverTransportResult := mkTransportResult {
  tr_Transport : string;
  tr_AAnswers : Z;
  tr_AAAAAnswers : Z;
  tr_Addresses : list string;
  tr_Safe : bool
}.
Record SmartDNSValidationResult := mkSmartDNS {
  sd_Endpoint : string;
  sd_Domain : string;
  sd_UDP : DNSResolverTransportResult;
  sd_TCP : DNSResolverTransportResult;
  sd_Addresses : list string;
  sd_ConnectedIP : string;
  sd_HTTPStatus : Z;
  sd_TLSOK : bool;
  sd_HTTPOK : bool
}.

Definition uniqueStrings (values : list string) : list string :=
  gosort S.ltb (remove_dups (List.filter (fun v => negb (S.is_empty v)) values)).
(** A byte of [" /\"], which no name has. *)
Definition unsafeNameByte (c : Ascii.ascii) : bool := S.is_byte 32 c || S.is_byte 47 c || S.is_byte 92 c.
Definition badName (s : string) : bool := S.is_empty s || negb (S.all_bytes (fun c => negb (unsafeNameByte c)) s).

Section DNSValidation.
Context {K : Type} (now : K -> K * time).
Context (fqdn : string -> string) (rcodeName : Z -> string) (question : string -> Z -> K -> K * Msg).
Context (exchange socksExchange : string -> string -> Msg -> io K (option Msg)) (lookupHost : string -> io K (list IP.Addr)).
Context (parseURL : string -> option URL) (requestError : URL -> string -> string) (roundTrip : DialSpec -> URL -> K -> K * Hop).
Context (markedDatagram : Z -> K -> K * (Z * option string)).
Context (localCountry : string -> duration -> IP.Addr -> io K string) (hashIP : string -> string).

(** The answers of one type: all must be public. *)
Definition safeAnswers (allowPrivate : bool) (server host network : string) (qtype : Z) : io K (list IP.Addr) :=
  msg ← newQuestion fqdn question host qtype;
  response ← wrap (network +:+ " DNS query failed: ") (exchange network server msg);
  addrs ← lift (validateDNSResponse fqdn rcodeName msg response host qtype);
  if any (fun a => negb allowPrivate && negb (PublicResolverAddr a)) addrs then fail "DNS resolver returned an unsafe address" else mret addrs.
Definition validateDNSResolverTransport (server host network : string) (allowPrivate : bool) : io K DNSResolverTransportResult :=
  if negb (containsString ["udp"; "tcp"] network) then fail "DNS transport must be udp or tcp"
  else
    let server := normalizeDNSServer server in
    match Net.SplitHostPort server with
    | None => fail "invalid DNS resolver endpoint"
    | Some (hostPart, _) =>
        match IP.ParseAddr hostPart with
        | None => fail "DNS resolver endpoint must be a public IP"
        | Some serverAddr =>
            if negb allowPrivate && negb (PublicResolverAddr serverAddr) then fail "DNS resolver endpoint must be a public IP"
            else
              let host := S.TrimSpace (S.TrimSuffix host ".") in
              if badName host then fail "invalid DNS validation host"
              else
                four ← safeAnswers allowPrivate server host network TypeA;
                six ← safeAnswers allowPrivate server host network TypeAAAA;
                if (length four + length six =? 0)%nat then fail "DNS resolver returned no addresses"
                else mret (mkTransportResult network (Z.of_nat (length four)) (Z.of_nat (length six))
                             (uniqueStrings (map (fun a => addrString (IP.Unmap a)) (four ++ six))) true)
        end
    end.
Definition ValidateDNSResolverTransport (server host network : string) : io K DNSResolverTransportResult :=
  validateDNSResolverTransport server host network false.

Definition smartDNSValidationExpectedCodes : list Z := [200; 204; 206; 300; 301; 302; 303; 307; 308].
Definition smartDNSApplicationProofAccepted (r : ProbeResult) : bool :=
  S.EqualFold (pr_Status r) "OK" && pr_ServiceOK r && negb (pr_RegionalBlock r) && negb (pr_AuthenticationRequired r) && negb (pr_WAFOrRateLimit r).

(** The configuration, the service and the route of the application check. *)
Definition smartDNSConfig : Config :=
  Build_Config 0 (mkPlatform "generic-openwrt" false false "") zero_Storage
    (let none := S754_zero false in
     Build_Policy "" "" 0 0 (mkWeights none none none none) false 0 0 0 0 0 0 0 0 0 0 "" 0 0 10 0 false false false false "" 0 0)
    zero_Xray zero_Zapret zero_GeoIP (mkOpenWrt "" "" "" "" 0 0 0) [] ∅ [] zero_Notifications [].
Definition smartDNSService (domain : string) : Service :=
  mkService "" "" [] [] [] "" false [mkProbeCheck "https" ("https://" +:+ domain +:+ "/") true smartDNSValidationExpectedCodes "ignored"].
Definition smartDNSRoute (endpoint : string) : Route :=
  Build_Route "smart_dns" "candidate-smart-dns" 0 false "" endpoint true "" "" "" false false "" "" false.

(** [ProbeRoute] of the package: an engine without a verifier. *)
Definition ProbeRouteUnverified : Config -> string -> string -> Service -> Route -> io K ProbeResult :=
  ProbeRoute now fqdn rcodeName question exchange socksExchange lookupHost parseURL requestError roundTrip markedDatagram localCountry hashIP unavailableProofVerifier.

(** The result of the application check: what is missing is an error. *)
Definition applicationChecked (endpoint domain : string) (udp tcp : DNSResolverTransportResult) (routeResult : ProbeResult) : result SmartDNSValidationResult :=
  match pr_Checks routeResult with
  | [check] =>
      let tls := ck_TLSOK check && ck_SNIPreserved check in
      let http := ck_HTTPOK check && ck_HostPreserved check in
      if negb (smartDNSApplicationProofAccepted routeResult) || negb (ck_DNSOK check) || negb (ck_TransportOK check) || negb tls || negb http
         || negb (ck_ExpectedCodeMatched check) || S.is_empty (ck_ConnectedIP check)
      then Err ("Smart DNS application check failed: " +:+ if S.is_empty (ck_Reason check) then "HTTP/TLS path was not verified" else ck_Reason check)
      else Ok (mkSmartDNS endpoint domain udp tcp (uniqueStrings (tr_Addresses udp ++ tr_Addresses tcp)) (ck_ConnectedIP check) (ck_HTTPCode check) tls http)
  | _ => Err "Smart DNS HTTP/TLS check did not run"
  end.
Definition ValidateSmartDNSCandidate (endpoint domain : string) : io K SmartDNSValidationResult :=
  let domain := S.TrimSpace (S.TrimSuffix domain ".") in
  if badName domain || isIP domain then fail "Smart DNS test domain must be a DNS name"
  else
    udp ← wrap "UDP resolver check failed: " (ValidateDNSResolverTransport endpoint domain "udp");
    tcp ← wrap "TCP resolver check failed: " (ValidateDNSResolverTransport endpoint domain "tcp");
    routeResult ← ProbeRouteUnverified smartDNSConfig domain "smart-dns-validation" (smartDNSService domain) (smartDNSRoute endpoint);
    lift (applicationChecked endpoint domain udp tcp routeResult).
End DNSValidation.
