(* ===== verification/PathProofs.v ===== *)
(** * What the verifier of paths and the reader of DNS answers accept

    A proof that is accepted was required by the plan of the active deployment, meets
    what the plan requires of the route, and was made while counters moved; a refusal
    never carries a status that counts.  An accepted DNS answer belongs to the question
    that was asked. *)
From Stdlib Require Import ZArith Lia.
From stdpp Require Import base list strings gmap sets.
From S2P Require Import Prelude Effects Net Config Json Validation ValidationProofs Artifact Evidence Health ProbeTypes ProbePath OpenWrtPath ProbeDNS.

Open Scope Z_scope.

(** The names a question stands for: its own, and the targets of their aliases. *)
Inductive named (answer : list RR) (start : string) : string -> Prop :=
| named_self : named answer start start
| named_alias owner target : CNAME owner target ∈ answer -> named answer start (S.ToLower owner) -> named answer start (S.ToLower target).

(** An address record of a name, of the type asked for. *)
Definition address_record (qtype : Z) (rr : RR) (owner : string) (bytes : list Z) : Prop :=
  (rr = RecordA owner bytes /\ qtype = TypeA) \/ (rr = RecordAAAA owner bytes /\ qtype = TypeAAAA).

Section Aliases.
Lemma aliases_spec targets answer m : aliases targets answer = Ok m ->
  (forall o t, targets !! o = Some t -> t <> "") ->
  (forall o t, m !! o = Some t -> t <> "") /\
  forall o t, m !! o = Some t <-> targets !! o = Some t \/ exists owner target, CNAME owner target ∈ answer /\ S.ToLower owner = o /\ S.ToLower target = t.
Proof.
  revert targets. induction answer as [|rr rest IH]; intros targets H HN; cbn [aliases] in H.
  { injection H as <-. split; [done|]. intros o t. split; [auto|]. intros [?|(? & ? & H & _)]; [done|]. by apply elem_of_nil in H. }
  assert (Hother : (forall owner target, rr <> CNAME owner target) -> aliases targets rest = Ok m ->
    (forall o t, m !! o = Some t -> t <> "") /\
    forall o t, m !! o = Some t <-> targets !! o = Some t \/ exists owner target, CNAME owner target ∈ rr :: rest /\ S.ToLower owner = o /\ S.ToLower target = t).
  { intros Hrr H1. destruct (IH _ H1 HN) as [A B]. split; [done|]. intros o t. rewrite B. split; intros [?|(owner & target & Hin & ?)]; try by left.
    - right. exists owner, target. split; [by right|done].
    - apply elem_of_cons in Hin as [Hin|Hin]; [by destruct (Hrr owner target)|]. right. eauto. }
  destruct rr as [owner target|owner bytes|owner bytes|owner]; try by apply Hother.
  cbv zeta in H. destruct (_ || _) eqn:E; [done|]. apply orb_false_iff in E as [E EC]. apply orb_false_iff in E as [_ ET].
  assert (Ht : S.ToLower target <> "") by (intros X; by rewrite X in ET).
  assert (HK : targets !! S.ToLower owner = None \/ targets !! S.ToLower owner = Some (S.ToLower target)).
  { destruct (targets !! S.ToLower owner) as [t|] eqn:EK; [|by left]. right. cbn in EC. pose proof (HN _ _ EK) as Hne.
    apply andb_false_iff in EC as [EC|EC]; [destruct t; done|]. apply negb_false_iff, String.eqb_eq in EC. by subst. }
  destruct (IH _ H) as [A B]. { intros o t. rewrite lookup_insert. case_decide; [intros [= <-]; done|apply HN]. }
  split; [done|]. intros o t. rewrite B, lookup_insert. case_decide as Ho.
  - split.
    + intros [[= <-]|(o1 & t1 & Hin & ? & ?)]; [right; exists owner, target; split; [by left|done]|]. right. exists o1, t1. split; [by right|done].
    + intros [Ho'|(o1 & t1 & Hin & E1 & E2)]; [left; subst; destruct HK; congruence|].
      apply elem_of_cons in Hin as [[= -> ->]|Hin]; [left; congruence|right; eauto].
  - split.
    + intros [?|(o1 & t1 & Hin & ? & ?)]; [by left|]. right. exists o1, t1. split; [by right|done].
    + intros [?|(o1 & t1 & Hin & E1 & E2)]; [by left|]. apply elem_of_cons in Hin as [[= -> ->]|Hin]; [done|right; eauto].
Qed.

(** Following aliases closes the names under them. *)
Lemma followAliases_spec (m : gmap string string) steps allowed current out :
  (forall o t, m !! o = Some t -> t <> "") -> (steps = 0%nat -> m !! current = None) ->
  current ∈ allowed -> (forall x t, x ∈ allowed -> x <> current -> m !! x = Some t -> t ∈ allowed) ->
  followAliases m steps allowed current = Ok out ->
  allowed ⊆ out /\ (forall x t, x ∈ out -> m !! x = Some t -> t ∈ out) /\
  forall P : string -> Prop, P current -> (forall x t, P x -> m !! x = Some t -> P t) -> forall x, x ∈ out -> x ∈ allowed \/ P x.
Proof.
  intros HN. revert allowed current. induction steps as [|steps IH]; intros allowed current H0 Hin Hcl H; cbn [followAliases] in H.
  { injection H as <-. split; [done|]. split; [|auto]. intros x t Hx Hm. destruct (decide (x = current)) as [->|]; [|by eapply Hcl].
    rewrite H0 in Hm; done. }
  destruct (m !! current) as [target|] eqn:EM.
  2:{ injection H as <-. split; [done|]. split; [|auto]. intros x t Hx Hm. destruct (decide (x = current)) as [->|]; [congruence|]. by eapply Hcl. }
  destruct (bool_decide _) eqn:EB; [done|]. destruct (_ && _) eqn:EL; [done|].
  apply IH in H as (A & B & C).
  - split; [set_solver|]. split; [done|]. intros P HP HS x Hx. destruct (C P (HS _ _ HP EM) HS x Hx) as [Hx'|?]; [|by right].
    apply elem_of_union in Hx' as [->%elem_of_singleton|?]; [right; by eapply HS|by left].
  - intros ->. cbn in EL. destruct (m !! target) as [t|] eqn:ET; [|done]. cbn in EL. pose proof (HN _ _ ET) as X. by destruct t.
  - set_solver.
  - intros x t Hx Hne Hm. apply elem_of_union in Hx as [->%elem_of_singleton|Hx]; [done|]. destruct (decide (x = current)) as [->|].
    + rewrite EM in Hm. injection Hm as <-. set_solver.
    + apply elem_of_union. right. by eapply Hcl.
Qed.

Lemma addressOf_elem qtype allowed rr a :
  a ∈ addressOf qtype allowed rr <-> exists owner bytes, address_record qtype rr owner bytes /\ S.ToLower owner ∈ allowed /\ AddrFromSlice bytes = Some a.
Proof.
  assert (HO : forall bytes, a ∈ option_list (AddrFromSlice bytes) <-> AddrFromSlice bytes = Some a).
  { intros bytes. destruct (AddrFromSlice bytes); cbn; [rewrite list_elem_of_singleton; split; congruence|]. split; [intros H; by apply elem_of_nil in H|done]. }
  unfold address_record. destruct rr as [o t|o b|o b|o]; cbn [addressOf].
  1,4: split; [intros H; by apply elem_of_nil in H|intros (? & ? & [[? ?]|[? ?]] & _); done].
  all: destruct (_ && _) eqn:E; [apply andb_true_iff in E as [E1 E2]; apply Z.eqb_eq in E1; apply bool_decide_eq_true in E2; rewrite HO|].
  all: split; [intros H|intros (o' & b' & [[HR HQ]|[HR HQ]] & HA & HB); try done; injection HR as <- <-].
  all: try (by apply elem_of_nil in H); eauto 12; try done.
  all: exfalso; subst qtype; rewrite Z.eqb_refl in E; cbn in E; apply bool_decide_eq_false in E; done.
Qed.
Lemma collect_spec qtype allowed out answer found : collect qtype allowed out answer = Ok found ->
  (length out <= 32)%nat -> found = out ++ concat (map (addressOf qtype allowed) answer) /\ (length found <= 32)%nat.
Proof.
  revert out. induction answer as [|rr rest IH]; intros out H HL; cbn [collect] in H.
  - injection H as <-. cbn. by rewrite app_nil_r.
  - destruct (_ <=? _)%nat eqn:E; [done|]. apply Nat.leb_gt in E. apply IH in H as [-> H2].
    + split; [|done]. cbn [map concat]. by rewrite <- app_assoc.
    + assert (length (addressOf qtype allowed rr) <= 1)%nat.
      { destruct rr; cbn; repeat case_match; try (cbn; lia); destruct (AddrFromSlice _); cbn; lia. }
      rewrite length_app. lia.
Qed.
End Aliases.

(** C13: What a probe takes from an answer is what the answer says of the name it
    asked for.  An answer is accepted only when it has the identifier, the question,
    the class and the type of the question that was asked and reports success; then
    the addresses are those of the records of that type whose owner is the name or
    is reached from it through aliases of the answer, all of them and no others, and
    there are 32 at most. *)
Theorem answer_is_for_the_question fqdn rcodeName msg resp host qtype found :
  validateDNSResponse fqdn rcodeName msg (Some resp) host qtype = Ok found ->
  m_Id resp = m_Id msg /\ m_Response resp = true /\ m_Rcode resp = RcodeSuccess /\
  (exists q, m_Question resp = [q] /\ S.EqualFold (q_Name q) (fqdn host) = true /\ q_Qtype q = qtype /\ q_Qclass q = ClassINET) /\
  (forall a, a ∈ found <-> exists rr owner bytes, rr ∈ m_Answer resp /\ address_record qtype rr owner bytes /\ AddrFromSlice bytes = Some a /\
     named (m_Answer resp) (S.ToLower (fqdn host)) (S.ToLower owner)) /\
  (length found <= 32)%nat.
Proof.
  unfold validateDNSResponse. destruct (_ <? _); [done|]. destruct (m_Id resp =? m_Id msg) eqn:EI; [|done]. destruct (m_Response resp); [|done].
  cbn [negb orb]. destruct (negb _); [done|]. destruct (m_Rcode resp =? RcodeSuccess) eqn:ER; [|done]. cbn [negb]. cbv zeta.
  apply Z.eqb_eq in EI, ER. destruct (m_Question resp) as [|q [|? ?]]; try done. destruct (_ && _) eqn:EQ; [|done]. cbn [negb].
  apply andb_true_iff in EQ as [[EQ EQt%Z.eqb_eq]%andb_true_iff EQc%Z.eqb_eq].
  intros H. apply bind_Ok in H as (targets & E & H). apply bind_Ok in H as (allowed & E0 & H). apply bind_Ok in H as (out & E1 & H). destruct (_ && _) in H; [done|]. injection H as <-.
  destruct (aliases_spec _ _ _ E) as [HN HT]. { intros o t Ho. by rewrite lookup_empty in Ho. }
  apply followAliases_spec in E0 as (F1 & F2 & F3); [|done|done|set_solver|set_solver].
  apply collect_spec in E1 as [-> HL]; [|cbn; lia].
  split_and!; try done. { exists q. by split_and!. }
  assert (HA : forall x, x ∈ allowed <-> named (m_Answer resp) (S.ToLower (fqdn host)) x).
  { intros x. split.
    - intros Hx. destruct (F3 (named (m_Answer resp) (S.ToLower (fqdn host)))) with (x := x) as [Hx'|?]; [constructor| |done| |done].
      + intros y t Hy Hm. apply HT in Hm as [Hm|(owner & target & Hin & <- & <-)]; [by rewrite lookup_empty in Hm|]. by econstructor.
      + apply elem_of_singleton in Hx' as ->. constructor.
    - induction 1 as [|owner target Hin Hn IHn]; [set_solver|]. eapply F2; [exact IHn|]. apply HT. right. eauto. }
  intros a. cbn [app]. rewrite list_elem_of_In, in_concat. split.
  - intros (l & (rr & <- & Hrr)%in_map_iff & Ha). rewrite <- list_elem_of_In in Ha. rewrite <- list_elem_of_In in Hrr. apply addressOf_elem in Ha as (owner & bytes & ? & ?%HA & ?). eauto 8.
  - intros (rr & owner & bytes & Hrr & Hrec & Hb & Hn). exists (addressOf qtype allowed rr). split.
    + apply in_map_iff. exists rr. by rewrite <- list_elem_of_In.
    + rewrite <- list_elem_of_In. apply addressOf_elem. exists owner, bytes. by rewrite HA.
Qed.

(** ** Computations that may refuse *)

Lemma proof_bind_ran {K A B} (m : proof K A) (f : A -> proof K B) k k' y :
  (m ≫= f) k = (k', inl y) <-> exists k1 x, m k = (k1, inl x) /\ f x k1 = (k', inl y).
Proof.
  unfold mbind, proof_bind. destruct (m k) as [k1 [x|e]]; split.
  - intros H. by exists k1, x.
  - by intros (k2 & x' & [= -> ->] & H).
  - done.
  - by intros (k2 & x' & H & _).
Qed.
Lemma proof_ret_ran {K A} (a : A) (k k' : K) y : (mret a : proof K A) k = (k', inl y) <-> k' = k /\ y = a.
Proof. unfold mret, proof_ret. split; [intros [= <- <-]|intros [-> ->]]; done. Qed.
Lemma ask_ran {K A} p (m : io K A) k k' y : ask p m k = (k', inl y) <-> m k = (k', Ok y).
Proof. unfold ask. destruct (m k) as [k1 [x|e]]; split; congruence. Qed.
Lemma proof_bind_failed {K A B} (m : proof K A) (f : A -> proof K B) k k' e :
  (m ≫= f) k = (k', inr e) -> m k = (k', inr e) \/ exists k1 x, m k = (k1, inl x) /\ f x k1 = (k', inr e).
Proof. unfold mbind, proof_bind. destruct (m k) as [k1 [x|e']]; [|intros [= -> ->]; by left]. intros H. right. by exists k1, x. Qed.
Lemma ask_failed {K A} p (m : io K A) k k' e : ask p m k = (k', inr e) -> exists t, e = Plain (p +:+ t).
Proof. unfold ask. destruct (m k) as [k1 [x|t]]; [done|]. intros [= _ <-]. by exists t. Qed.
Lemma pure_ran {K A} (r : result A) (k k' : K) y : pure r k = (k', inl y) <-> k' = k /\ r = Ok y.
Proof. unfold pure. destruct r; split; intuition congruence. Qed.
Ltac proof_steps H :=
  repeat match type of H with
  | (_ ≫= _) _ = (_, inl _) =>
      let k := fresh "k" in let x := fresh "x" in let G := fresh "G" in apply proof_bind_ran in H as (k & x & G & H)
  end.

(** Computations whose refusals never name a status that counts. *)
Definition modest {K A} (m : proof K A) : Prop := forall k k' e, m k = (k', inr e) -> proofFailureStatus e = "UNVERIFIED" \/ proofFailureStatus e = "NOT_CONFIGURED".
Section Modest.
Context {K : Type}.
Lemma modest_ret {A} (a : A) : modest (mret a : proof K A).
Proof. by intros k k' e H. Qed.
Lemma modest_bind {A B} (m : proof K A) (f : A -> proof K B) : modest m -> (forall a, modest (f a)) -> modest (m ≫= f).
Proof.
  intros Hm Hf k k' e. unfold mbind, proof_bind. destruct (m k) as [k1 [a|e1]] eqn:E; [apply Hf|].
  intros [= <- <-]. by eapply Hm.
Qed.
Lemma modest_text {A} text : modest (refuseText text : proof K A).
Proof. intros k k' e [= <- <-]. by left. Qed.
Lemma modest_unavailable {A} : modest (refuse Unavailable : proof K A).
Proof. intros k k' e [= <- <-]. by left. Qed.
Lemma modest_configured {A} code (r : result bool) : modest (pathStatusError "NOT_CONFIGURED" code r : proof K A).
Proof. intros k k' e. unfold pathStatusError, refuse. intros [= <- <-]. by right. Qed.
Lemma modest_ask {A} p (m : io K A) : modest (ask p m).
Proof. intros k k' e. unfold ask. destruct (m k) as [k1 [a|e1]]; [done|]. intros [= <- <-]. by left. Qed.
Lemma modest_try {A} (m : io K A) : modest (try m).
Proof. intros k k' e. unfold try. by destruct (m k). Qed.
Lemma modest_pure {A} (r : result A) : modest (pure r : proof K A).
Proof. intros k k' e. unfold pure. destruct r; [done|]. intros [= <- <-]. by left. Qed.
Lemma modest_reading now : modest (reading now : proof K time).
Proof. intros k k' e. unfold reading. by destruct (now k). Qed.
End Modest.
#[export] Hint Resolve modest_ret modest_bind modest_text modest_unavailable modest_configured modest_ask modest_try modest_pure modest_reading : effects.
(** Each guard and each answer apart. *)
Ltac modest :=
  repeat first
    [ progress intros | apply modest_ret | apply modest_text | apply modest_unavailable | apply modest_configured | apply modest_ask | apply modest_try
    | apply modest_pure | apply modest_reading | apply modest_bind | match goal with |- modest (if ?b then _ else _) => destruct b end
    | match goal with |- modest (match ?x with _ => _ end) => destruct x end ].

Section Accepted.
Context {K : Type} (now : K -> K * time) (readBounded : string -> Z -> io K string) (wait : duration -> io K unit).
Context (commands : OpenWrtCommands K) (v : OpenWrtPathVerifier).
Notation openwrtVerify := (openwrtVerify now readBounded wait commands v).
Notation openwrtBegin := (openwrtBegin readBounded commands v).
Notation activeEngine := (activeEngine now readBounded wait commands v).

Lemma openwrtVerify_modest request : modest (openwrtVerify request).
Proof.
  unfold OpenWrtPath.openwrtVerify, verifyActiveBinding, verifyDrop, verifyInterface, verifyFamilies, verifyConntrack, verifyType, accepted, defaultRoute. cbv zeta.
  modest.
Qed.
Lemma systemDefaultVerify_modest request : modest (systemDefaultVerify now commands request).
Proof. unfold systemDefaultVerify. modest. Qed.
(** The verifier of the active deployment never refuses with a status that counts. *)
Lemma activeEngine_modest request : modest (Verify activeEngine request).
Proof. cbn. destruct (isSystemDefaultRoute _); [apply systemDefaultVerify_modest|apply openwrtVerify_modest]. Qed.

(** Reading the identity of the active deployment takes world [k] to [k1], and it is
    that of the verifier. *)
Definition binding_in_force (k k1 : K) : Prop := exists raw active,
  readBounded (ov_activeBindingPath v) 16384 k = (k1, Ok raw) /\ parseActiveBinding raw = Ok active /\
    ab_Binding active = ov_binding v /\ ab_ManifestHash active = ov_manifestHash v.
(** The identity and then the policy of the route are read. *)
Definition policy_read (tag : string) (k k1 : K) (policy : NFTPolicy) : Prop := exists kb,
  binding_in_force k kb /\ ReadNFTPolicy commands tag kb = (k1, Ok policy).

(** What is accepted from world [k] on meets the proof the plan requires, of the
    deployment that is in force then, and the counter has moved since the session
    began. *)
Record accepted_from (request : PathProofRequest) (k : K) (p : evidenceResult) : Prop := {
  af_required : exists required,
    required ∈ vp_RequiredRouteProof (ov_plan v) /\ rp_Tag required = r_Tag (rq_Route request) /\ rp_Type required = r_Type (rq_Route request) /\
    ValidateRouteProof required p (ov_binding v) (ov_manifestHash v) = Ok ();
  af_counted : exists k1 policy, policy_read (r_Tag (rq_Route request)) k k1 policy /\
    (r_Type (rq_Route request) <> "vless" -> ss_CounterBefore (rq_Session request) < np_Counter policy)
}.
Lemma verifyActiveBinding_ran k k' : verifyActiveBinding readBounded v k = (k', inl ()) -> binding_in_force k k'.
Proof.
  unfold verifyActiveBinding. intros H. proof_steps H. apply ask_ran in G. run_steps G. apply lift_ran in G as [-> G].
  destruct (_ || _) eqn:E; [done|]. apply proof_ret_ran in H as [-> _]. apply orb_false_iff in E as [E1 E2].
  apply negb_false_iff, bool_decide_eq_true in E1. apply negb_false_iff, String.eqb_eq in E2. by exists x0, x.
Qed.
Lemma openwrtBegin_ran start k k' s : openwrtBegin start k = (k', inl s) ->
  exists policy, policy_read (r_Tag (st_Route start)) k k' policy /\ s = mkSession (st_StartedAt start) (np_Counter policy) "".
Proof.
  unfold OpenWrtPath.openwrtBegin. destruct (requiredProof _ _ _); [|done]. intros H. apply proof_bind_ran in H as (k1 & [] & G & H). proof_steps H.
  apply ask_ran in G0. apply proof_ret_ran in H as [-> ->]. exists x. split; [|done]. exists k1. split; [by apply verifyActiveBinding_ran|done].
Qed.
(** A session that does not begin says why. *)
Lemma openwrtBegin_text start k k' e : openwrtBegin start k = (k', inr e) -> errorText e <> "".
Proof.
  unfold OpenWrtPath.openwrtBegin. destruct (requiredProof _ _ _); [|by intros [= _ <-]].
  intros [H|(k1 & [] & _ & [H|(k2 & policy & _ & H)]%proof_bind_failed)]%proof_bind_failed; [| |done].
  - unfold verifyActiveBinding in H. apply proof_bind_failed in H as [(t & ->)%ask_failed|(k1 & active & _ & H)]; [done|].
    destruct (_ || _); [by injection H as _ <-|done].
  - by apply ask_failed in H as (t & ->).
Qed.
Lemma accepted_ran required actual (k k' : K) p :
  accepted v required actual k = (k', inl p) -> ValidateRouteProof required p (ov_binding v) (ov_manifestHash v) = Ok ().
Proof.
  unfold accepted. intros H. proof_steps H. apply pure_ran in G as [-> G]. apply proof_ret_ran in H as [-> ->]. by destruct x.
Qed.
Lemma openwrtVerify_accepts request k k' p : openwrtVerify request k = (k', inl p) -> accepted_from request k p.
Proof.
  unfold OpenWrtPath.openwrtVerify. cbv zeta. destruct (requiredProof _ _ _) as [required|] eqn:ER; [|done].
  apply first_Some in ER as [Hin Hp]. apply andb_true_iff in Hp as [Ht Hy]. apply String.eqb_eq in Ht, Hy.
  intros H. apply proof_bind_ran in H as (k1 & [] & G1 & H). apply proof_bind_ran in H as (k2 & policy & G2 & H). apply ask_ran in G2.
  destruct (_ && _) eqn:EC in H; [done|]. apply proof_bind_ran in H as (k3 & t & G3 & H).
  assert (HV : ValidateRouteProof required p (ov_binding v) (ov_manifestHash v) = Ok ()).
  { destruct (_ =s "drop") in H.
    - unfold verifyDrop in H. destruct (negb _) in H; [done|]. by eapply accepted_ran.
    - destruct (_ || _) in H; [done|]. proof_steps H. by eapply accepted_ran. }
  split; [by exists required|]. exists k2, policy. split; [exists k1; split; [by apply verifyActiveBinding_ran|done]|]. intros Hv.
  apply andb_false_iff in EC as [EC|EC]; [apply negb_false_iff, String.eqb_eq in EC; congruence|]. by apply Z.leb_gt.
Qed.
End Accepted.
