(* ===== verification/ProbeEffects.v ===== *)
(** * What a probe does to the network

    A probe always has an answer, and outside the test target the connections it
    makes go to public addresses only, whatever names and redirects say. *)
From Stdlib Require Import ZArith Lia.
From stdpp Require Import base list strings gmap pretty.
From S2P Require Import Prelude Effects Net Config Json Validation Artifact JsonText Evidence Health ProbeTypes ProbePath OpenWrtPath ProbeDNS Probe.

Open Scope Z_scope.

(** Computations that may fail, run for their outcome. *)
Definition outcomeOf {K A} (m : io K A) : io K (result A) := fun k => let '(k, a) := m k in (k, Ok a).
Lemma stays_outcome {K A} I (m : io K A) : stays I m -> stays I (outcomeOf m).
Proof. intros Hm k Hk. specialize (Hm k Hk). unfold outcomeOf. by destruct (m k). Qed.
Lemma stays_attemptAll {K A} I (m : io K A) : stays I m -> stays I (attemptAll m).
Proof. intros Hm k Hk. specialize (Hm k Hk). unfold attemptAll. by destruct (m k) as [? [?|?]]. Qed.
Lemma total_attemptAll {K A} (m : io K A) : total (attemptAll m).
Proof. intros k. unfold attemptAll. destruct (m k) as [k1 [a|e]]; eauto. Qed.
Lemma total_outcome {K A} (m : io K A) : total (outcomeOf m).
Proof. intros k. unfold outcomeOf. destruct (m k) as [k1 a]; eauto. Qed.
#[export] Hint Resolve stays_outcome stays_attemptAll total_attemptAll total_outcome : effects.

(** Case by case. *)
Ltac step_cases_with leaf :=
  repeat first
    [ leaf | progress intros | assumption
    | match goal with |- _ (if ?b then _ else _) => destruct b eqn:? end
    | match goal with |- _ (match ?x with _ => _ end) => destruct x eqn:? end
    | match goal with |- _ (let '(_, _) := ?x in _) => destruct x eqn:? end
    | apply stays_ret | apply stays_fail | apply stays_lift | apply stays_bind | apply stays_attemptAll | apply stays_outcome
    | apply total_ret | apply total_bind | apply total_attemptAll | apply total_outcome ].
Ltac step_cases := step_cases_with fail.

(** ** Every probe has an answer *)

Section Total.
Context {K : Type} (now : K -> K * time).
Context (fqdn : string -> string) (rcodeName : Z -> string) (question : string -> Z -> K -> K * Msg).
Context (exchange socksExchange : string -> string -> Msg -> io K (option Msg)) (lookupHost : string -> io K (list IP.Addr)).
Context (parseURL : string -> option URL) (requestError : URL -> string -> string) (roundTrip : DialSpec -> URL -> K -> K * Hop).
Context (markedDatagram : Z -> K -> K * (Z * option string)).
Context (localCountry : string -> duration -> IP.Addr -> io K string) (hashIP : string -> string).
Context (verifier : PathProofVerifier K).
Notation runHTTPAttempt := (runHTTPAttempt now requestError roundTrip).
Notation attempts := (attempts now).
Notation probeOne := (probeOne now fqdn rcodeName question exchange socksExchange lookupHost parseURL requestError roundTrip).
Notation runChecks := (runChecks now fqdn rcodeName question exchange socksExchange lookupHost parseURL requestError roundTrip).
Notation probeRoute := (probeRoute now fqdn rcodeName question exchange socksExchange lookupHost parseURL requestError roundTrip markedDatagram localCountry hashIP verifier).

Lemma clock_total : total (clock now).
Proof. intros k. unfold clock. destruct (now k) as [k1 t]; eauto. Qed.
Lemma elapsed_total start : total (elapsedMilliseconds now start).
Proof. unfold elapsedMilliseconds. apply total_bind; [apply clock_total|step_cases]. Qed.
Lemma measured_total start : total (measuredRouteLatency now start).
Proof. unfold measuredRouteLatency. apply total_bind; [apply clock_total|step_cases]. Qed.
Lemma finalizeCheck_total r start : total (finalizeCheckResult now r start).
Proof. unfold finalizeCheckResult. apply total_bind; [apply elapsed_total|step_cases]. Qed.
Lemma runHTTPAttempt_total c route check parsed host port ip : total (runHTTPAttempt c route check parsed host port ip).
Proof.
  unfold Probe.runHTTPAttempt. cbv zeta. apply total_bind; [apply clock_total|intros t]. apply total_bind.
  - intros k. destruct (_ && _); [eauto|]. destruct (doRequest _ _ _ _ _ _ _ _ _ k) as [k1 r]; eauto.
  - intros [[cn redirects] answer]. apply total_bind; [apply measured_total|step_cases].
Qed.
Lemma attempts_total try c dns last r targets : (forall ip, total (try ip)) -> total (attempts try c dns last r targets).
Proof.
  intros Htry. revert last r. induction targets as [|ip rest IH]; intros last r; cbn [Probe.attempts]; [apply total_ret|].
  destruct (_ && _); [apply IH|]. apply total_bind; [apply clock_total|intros t]. apply total_bind; [apply Htry|intros a]. cbv zeta.
  apply total_bind; [|step_cases; apply IH]. destruct (_ && _); [|apply total_ret]. apply total_bind; [apply measured_total|step_cases].
Qed.
Lemma probeOne_total c route check family : total (probeOne c route check family).
Proof.
  unfold Probe.probeOne. cbv zeta. apply total_bind; [apply clock_total|intros start].
  destruct (parseURL _); [|apply finalizeCheck_total]. apply total_bind; [apply clock_total|intros t].
  apply total_bind; [apply (total_outcome (resolve _ _ _ _ _ _ _ _ _))|]. intros [[[ips resolver] protocol]|e]; [|apply finalizeCheck_total].
  apply total_bind; [apply measured_total|intros dns]. destruct (_ && _); [apply finalizeCheck_total|].
  destruct (_ =? _)%nat; [apply finalizeCheck_total|]. destruct (_ =? _)%nat; [apply finalizeCheck_total|].
  apply total_bind; [apply attempts_total; intros; apply runHTTPAttempt_total|]. intros [[r last] settled].
  apply total_bind; [apply finalizeCheck_total|step_cases].
Qed.
Lemma runChecks_total c route family checks r : total (runChecks c route family r checks).
Proof.
  revert r. induction checks as [|check rest IH]; intros r; cbn [Probe.runChecks]; [apply total_ret|].
  apply total_bind; [apply probeOne_total|intros done; apply IH].
Qed.
Lemma finish_total route r start session : total (finishWithPathProof now verifier route r start session).
Proof.
  unfold finishWithPathProof. apply total_bind; [apply clock_total|intros t]. cbv zeta. apply total_bind; [apply elapsed_total|intros d].
  destruct (negb _); [apply total_ret|]. intros k. destruct (Verify verifier _ k) as [k1 [p|e]]; eauto.
Qed.
Lemma begin_total domain route start : total (beginPathProof verifier domain route start).
Proof. intros k. unfold beginPathProof. destruct (Begin verifier) as [begin|]; [|eauto]. destruct (begin _ k) as [k1 [s|e]]; eauto. Qed.
Lemma notRun_total reason r start : total (notRun now reason r start).
Proof. unfold notRun, finalizeUnverifiedResult. apply total_bind; [apply elapsed_total|step_cases]. Qed.

(** Every probe of a route has a result: whatever resolvers, connections, the
    clock, the country sources and the verifier of the path answer or fail with, it
    is reported in the result and never stops the probe. *)
Theorem every_probe_has_a_result c domain serviceName svc route family k :
  exists k' r, probeRoute c domain serviceName svc route family k = (k', Ok r).
Proof.
  revert k. change (total (probeRoute c domain serviceName svc route family)). unfold Probe.probeRoute. cbv zeta.
  apply total_bind; [apply clock_total|intros start]. apply total_bind; [apply clock_total|intros t].
  destruct (negb _); [apply notRun_total|]. destruct (_ <? _); [apply notRun_total|].
  apply total_bind; [apply begin_total|intros session]. destruct (_ =s "drop").
  - apply total_bind; [|intros s; apply finish_total]. intros k. unfold dropSession. destruct (negb _); [eauto|]. destruct (exerciseDropProbe _ _ _ k) as [k1 [[]|e]]; eauto.
  - destruct (negb _); [apply notRun_total|]. apply total_bind; [apply runChecks_total|intros r]. unfold concludeRoute. cbv zeta.
    destruct (negb _); [apply finish_total|]. apply total_bind; [apply (total_outcome (probeExternalIP _ _ _ _ _ _ _ _ _ _ _ _))|intros answer].
    destruct (egressRefusal _ _) as [[status reason]|]; apply finish_total.
Qed.
End Total.

(** ** Where connections go *)

Section Dialing.
Context {K : Type} (now : K -> K * time).
Context (fqdn : string -> string) (rcodeName : Z -> string) (question : string -> Z -> K -> K * Msg).
Context (exchange socksExchange : string -> string -> Msg -> io K (option Msg)) (lookupHost : string -> io K (list IP.Addr)).
Context (parseURL : string -> option URL) (requestError : URL -> string -> string) (roundTrip : DialSpec -> URL -> K -> K * Hop).
Context (markedDatagram : Z -> K -> K * (Z * option string)).
Context (localCountry : string -> duration -> IP.Addr -> io K string) (hashIP : string -> string).
Context (verifier : PathProofVerifier K).

(** What only a connection to an address that is not public can break. *)
Record kept (I : K -> Prop) : Prop := {
  kp_now : forall k, I k -> I (now k).1;
  kp_question : forall name qtype k, I k -> I (question name qtype k).1;
  kp_exchange : forall network server msg, stays I (exchange network server msg);
  kp_socks : forall proxy server msg, stays I (socksExchange proxy server msg);
  kp_lookup : forall host, stays I (lookupHost host);
  kp_datagram : forall mark k, I k -> I (markedDatagram mark k).1;
  kp_country : forall database age addr, stays I (localCountry database age addr);
  kp_begin : forall begin start k, Begin verifier = Some begin -> I k -> I (begin start k).1;
  kp_verify : forall request k, I k -> I (Verify verifier request k).1;
  kp_dial : forall spec u k, isUnsafeAddr (ds_Addr spec) = false -> I k -> I (roundTrip spec u k).1
}.
Context (I : K -> Prop) (HI : kept I).
Notation stays := (stays I).

Lemma clock_stays : stays (clock now).
Proof. intros k Hk. apply (kp_now I HI) in Hk. unfold clock. by destruct (now k). Qed.
Hint Resolve clock_stays : effects.
Lemma elapsed_stays start : stays (elapsedMilliseconds now start).
Proof. apply stays_bind; [apply clock_stays|step_cases]. Qed.
Lemma measured_stays start : stays (measuredRouteLatency now start).
Proof. apply stays_bind; [apply clock_stays|step_cases]. Qed.
Lemma finalizeCheck_stays r start : stays (finalizeCheckResult now r start).
Proof. apply stays_bind; [apply elapsed_stays|step_cases]. Qed.

(** Resolving. *)
Lemma newQuestion_stays host qtype : stays (newQuestion fqdn question host qtype).
Proof. intros k Hk. apply (kp_question I HI (fqdn host) qtype) in Hk. unfold newQuestion. by destruct (question _ _ k). Qed.
Lemma socksAnswers_stays proxy server host qtypes : stays (socksAnswers fqdn rcodeName question socksExchange proxy server host qtypes).
Proof.
  induction qtypes as [|q qs IH]; cbn [socksAnswers]; [apply stays_ret|]. apply stays_bind; [apply newQuestion_stays|intros msg].
  apply stays_bind; [|intros found; apply stays_bind; [apply IH|step_cases]].
  apply stays_attemptAll, stays_bind; [apply (kp_socks I HI)|intros; apply stays_lift].
Qed.
Lemma queryDNSOne_stays server host qtype : stays (queryDNSOne fqdn rcodeName question exchange server host qtype).
Proof.
  unfold queryDNSOne. cbv zeta. apply stays_bind; [apply newQuestion_stays|intros msg k Hk].
  pose proof (kp_exchange I HI "udp" server msg k Hk) as H1. destruct (exchange "udp" server msg k) as [k1 [resp|e]].
  - destruct (default false _); [|done]. pose proof (kp_exchange I HI "tcp" server msg k1 H1) as H2. by destruct (exchange "tcp" server msg k1) as [k2 [?|?]].
  - pose proof (kp_exchange I HI "tcp" server msg k1 H1) as H2. by destruct (exchange "tcp" server msg k1) as [k2 [?|?]].
Qed.
Lemma answers_stays server host qtypes : stays (answers fqdn rcodeName question exchange server host qtypes).
Proof.
  induction qtypes as [|q qs IH]; cbn [answers]; [apply stays_ret|]. apply stays_bind; [apply queryDNSOne_stays|intros [found used]].
  apply stays_bind; [apply IH|intros [more protocol]]. step_cases.
Qed.
Lemma resolve_stays c route host : stays (resolve fqdn rcodeName question exchange socksExchange lookupHost c route host).
Proof.
  unfold resolve, resolveForRoute, queryDNSTCPViaSOCKS, queryDNS. cbv zeta.
  step_cases_with ltac:(first [apply socksAnswers_stays|apply answers_stays|apply (kp_lookup I HI)]).
Qed.

(** Requests: the redirects of one go to the address of its connection. *)
Lemma doRequest_stays redirect spec fuel sent redirects u cn k :
  isUnsafeAddr (ds_Addr spec) = false -> I k -> I (doRequest requestError roundTrip redirect spec fuel sent redirects u cn k).1.
Proof.
  intros Hs. revert sent redirects u cn k. induction fuel as [|fuel IH]; intros sent redirects u cn k Hk; cbn [doRequest]; [done|].
  pose proof (kp_dial I HI spec u k Hs Hk) as H1. destruct (roundTrip spec u k) as [k1 hop]. destruct (hp_Answer hop) as [resp|e]; [|done].
  destruct (rs_Redirect resp) as [next|]; [|done]. destruct (redirect _ next); [by apply IH|done|done].
Qed.
Context (c : Config) (Hc : allowPrivateProbe c = false).
Lemma runHTTPAttempt_stays route check parsed host port ip : stays (runHTTPAttempt now requestError roundTrip c route check parsed host port ip).
Proof.
  unfold runHTTPAttempt. cbv zeta. rewrite Hc. cbn [negb andb]. apply stays_bind; [apply clock_stays|intros t]. apply stays_bind.
  - intros k Hk. destruct (isUnsafeAddr ip) eqn:E; [done|].
    pose proof (doRequest_stays (checkProbeRedirect c host) (mkDial (r_SOCKS5 route) ip port (routeSocketMark c route)) 6 0 0 parsed (mkConn "" "" "" "" 0) k E Hk) as H1.
    by destruct (doRequest _ _ _ _ _ _ _ _ _ k).
  - intros [[cn redirects] answer]. apply stays_bind; [apply measured_stays|step_cases].
Qed.
Lemma attempts_stays try dns last r targets : (forall ip, stays (try ip)) -> stays (attempts now try c dns last r targets).
Proof.
  intros Htry. revert last r. induction targets as [|ip rest IH]; intros last r; cbn [attempts]; [apply stays_ret|].
  destruct (_ && _); [apply IH|]. apply stays_bind; [apply clock_stays|intros t]. apply stays_bind; [apply Htry|intros a]. cbv zeta.
  apply stays_bind; [|step_cases; apply IH]. destruct (_ && _); [|apply stays_ret]. apply stays_bind; [apply measured_stays|step_cases].
Qed.
Lemma probeOne_stays route check family : stays (probeOne now fqdn rcodeName question exchange socksExchange lookupHost parseURL requestError roundTrip c route check family).
Proof.
  unfold probeOne. cbv zeta. apply stays_bind; [apply clock_stays|intros start].
  destruct (parseURL _); [|apply finalizeCheck_stays]. apply stays_bind; [apply clock_stays|intros t].
  apply stays_bind; [apply (stays_outcome I (resolve _ _ _ _ _ _ _ _ _)), resolve_stays|]. intros [[[ips resolver] protocol]|e]; [|apply finalizeCheck_stays].
  apply stays_bind; [apply measured_stays|intros dns]. destruct (_ && _); [apply finalizeCheck_stays|].
  destruct (_ =? _)%nat; [apply finalizeCheck_stays|]. destruct (_ =? _)%nat; [apply finalizeCheck_stays|].
  apply stays_bind; [apply attempts_stays; intros; apply runHTTPAttempt_stays|]. intros [[r last] settled].
  apply stays_bind; [apply finalizeCheck_stays|step_cases].
Qed.
Lemma runChecks_stays route family checks r : stays (runChecks now fqdn rcodeName question exchange socksExchange lookupHost parseURL requestError roundTrip c route family r checks).
Proof.
  revert r. induction checks as [|check rest IH]; intros r; cbn [runChecks]; [apply stays_ret|].
  apply stays_bind; [apply probeOne_stays|intros found; apply IH].
Qed.

(** The country. *)
Lemma fetchTextViaRoute_stays route url : stays (fetchTextViaRoute fqdn rcodeName question exchange socksExchange lookupHost parseURL requestError roundTrip c route url).
Proof.
  unfold fetchTextViaRoute. cbv zeta. destruct (parseURL url) as [parsed|]; [|apply stays_fail]. destruct (_ || _); [apply stays_fail|].
  apply stays_bind; [apply stays_attemptAll, resolve_stays|intros answer]. destruct (_ =? _)%nat; [apply stays_fail|].
  destruct (first _ _) as [target|] eqn:E; [|apply stays_fail]. apply first_Some in E as [_ E]. rewrite Hc in E. apply negb_true_iff in E.
  intros k Hk. pose proof (doRequest_stays (checkEgressRedirect (Hostname parsed)) (mkDial (r_SOCKS5 route) target (PortOf parsed) 0) 6 0 0 parsed (mkConn "" "" "" "" 0) k E Hk) as H1.
  by destruct (doRequest _ _ _ _ _ _ _ _ _ k) as [k1 [[? ?] ?]].
Qed.
Lemma collectVotes_stays fetch endpoints : (forall url, stays (fetch url)) -> stays (collectVotes fetch endpoints).
Proof.
  intros Hf. induction endpoints as [|e rest IH]; cbn [collectVotes]; [apply stays_ret|]. apply stays_bind.
  - apply stays_attemptAll, stays_bind; [apply Hf|intros body]. apply stays_bind; [apply stays_lift|intros [ip country]; apply stays_ret].
  - intros found. apply stays_bind; [apply IH|step_cases].
Qed.
Lemma externalIP_stays route : stays (externalIP fqdn rcodeName question exchange socksExchange lookupHost parseURL requestError roundTrip localCountry c route).
Proof.
  apply (stays_outcome I (probeExternalIP _ _ _ _ _ _ _ _ _ _ _ _)). unfold probeExternalIP, probeExternalIPWithFetcher, lookupCountry. cbv zeta.
  step_cases_with ltac:(first [apply collectVotes_stays, fetchTextViaRoute_stays|apply (kp_country I HI)]).
Qed.

(** The proof of the path. *)
Lemma begin_stays domain route start : stays (beginPathProof verifier domain route start).
Proof.
  intros k Hk. unfold beginPathProof. destruct (Begin verifier) as [begin|] eqn:E; [|done].
  pose proof (kp_begin I HI begin (mkStart domain route start) k E Hk) as H1. by destruct (begin _ k) as [k1 [s|e]].
Qed.
Lemma finish_stays route r start session : stays (finishWithPathProof now verifier route r start session).
Proof.
  unfold finishWithPathProof. apply stays_bind; [apply clock_stays|intros t]. cbv zeta. apply stays_bind; [apply elapsed_stays|intros d].
  destruct (negb _); [apply stays_ret|]. intros k Hk. set (request := mkRequest _ _ _).
  pose proof (kp_verify I HI request k Hk) as H1. by destruct (Verify verifier request k) as [k1 [p|e]].
Qed.
Lemma dropSession_stays route session : stays (dropSession markedDatagram c route session).
Proof.
  intros k Hk. unfold dropSession, exerciseDropProbe. rewrite Hc. destruct (negb _); [done|]. destruct (parseSocketMark _) as [mark|]; [|done].
  destruct (mark =? 0); [done|]. pose proof (kp_datagram I HI mark k Hk) as H1. destruct (markedDatagram mark k) as [k1 [seen e]].
  cbv iota beta. by destruct (seen =? mark); [|destruct e].
Qed.
Lemma notRun_stays reason r start : stays (notRun now reason r start).
Proof. unfold notRun, finalizeUnverifiedResult. apply stays_bind; [apply elapsed_stays|step_cases]. Qed.
Lemma probeRoute_stays domain serviceName svc route family :
  stays (probeRoute now fqdn rcodeName question exchange socksExchange lookupHost parseURL requestError roundTrip markedDatagram localCountry hashIP verifier
    c domain serviceName svc route family).
Proof.
  unfold probeRoute. cbv zeta. apply stays_bind; [apply clock_stays|intros start]. apply stays_bind; [apply clock_stays|intros t].
  destruct (negb _); [apply notRun_stays|]. destruct (_ <? _); [apply notRun_stays|].
  apply stays_bind; [apply begin_stays|intros session]. destruct (_ =s "drop"); [apply stays_bind; [apply dropSession_stays|intros; apply finish_stays]|].
  destruct (negb _); [apply notRun_stays|]. apply stays_bind; [apply runChecks_stays|intros r]. unfold concludeRoute. cbv zeta.
  destruct (negb _); [apply finish_stays|]. apply stays_bind; [apply externalIP_stays|intros answer].
  destruct (egressRefusal _ _) as [[status reason]|]; apply finish_stays.
Qed.
End Dialing.
