(* ===== verification/ProbeProofs.v ===== *)
(** * What a probe proves

    A result that counts as success was proved by the verifier of the path, for the
    connection the probe observed, after every required check of the service had an
    answer with the expected code and content, and from a country that is known
    where the service requires one. *)
From Stdlib Require Import ZArith Lia.
From stdpp Require Import base list strings gmap pretty.
From S2P Require Import Prelude Effects Net Config Json Validation ValidationProofs Artifact JsonText Evidence Health ProbeTypes ProbePath OpenWrtPath ProbeDNS Probe PathProofs.

Open Scope Z_scope.

(** ** One response, one check *)

Lemma codeAllowed_elem code l : codeAllowed code l = true -> code ∈ l.
Proof. intros (x & Hx & E)%any_true. by apply Z.eqb_eq in E as ->. Qed.

Definition clean (j : Judgement) : Prop :=
  jd_Expected j = true /\ jd_Content j = true /\ jd_Regional j = false /\ jd_TSPU j = false /\ jd_Auth j = false /\ jd_WAF j = false.
Lemma judge_OK check resp : S.ToUpper (S.TrimSpace (jd_Status (judge check resp))) = "OK" ->
  clean (judge check resp) /\ rs_StatusCode resp ∈ pc_ExpectedCodes check /\
  bodyAllowed (rs_Body resp) (pc_BodyMode check) (pc_SuccessMarkers check) = true.
Proof.
  unfold judge. cbv zeta.
  destruct (containsAny _ _ || containsAny _ defaultRegionalMarkers); [by intros H; vm_compute in H|].
  destruct (_ || containsAny _ defaultBlockMarkers); [by intros H; vm_compute in H|].
  destruct (rs_StatusCode resp =? 401) eqn:EA.
  - destruct (pc_AllowUnauthenticated check); cbn [andb]; [|by intros H; vm_compute in H].
    destruct (codeAllowed _ _) eqn:EC; cbn [andb]; [|by intros H; vm_compute in H].
    destruct (bodyAllowed _ _ _) eqn:EB; [|by intros H; vm_compute in H]. intros _. split; [|split; [by apply codeAllowed_elem|done]].
    apply Z.eqb_eq in EA. by rewrite EA.
  - destruct ((_ || _) && negb false) eqn:EW; [by intros H; vm_compute in H|].
    destruct (codeAllowed _ _) eqn:EC; cbn [negb].
    + destruct (bodyAllowed _ _ _) eqn:EB; cbn [negb]; [|by intros H; vm_compute in H]. intros _.
      split; [|split; [by apply codeAllowed_elem|done]]. by split_and!.
    + intros H. exfalso. revert H. cbn [jd_Status]. by vm_compute.
Qed.

Section Probes.
Context {K : Type} (now : K -> K * time).
Context (fqdn : string -> string) (rcodeName : Z -> string) (question : string -> Z -> K -> K * Msg).
Context (exchange socksExchange : string -> string -> Msg -> io K (option Msg)) (lookupHost : string -> io K (list IP.Addr)).
Context (parseURL : string -> option URL) (requestError : URL -> string -> string) (roundTrip : DialSpec -> URL -> K -> K * Hop).
Context (markedDatagram : Z -> K -> K * (Z * option string)).
Context (localCountry : string -> duration -> IP.Addr -> io K string) (hashIP : string -> string).
Context (verifier : PathProofVerifier K).
Notation resolve := (resolve fqdn rcodeName question exchange socksExchange lookupHost).
Notation runHTTPAttempt := (runHTTPAttempt now requestError roundTrip).
Notation attempts := (attempts now).
Notation probeOne := (probeOne now fqdn rcodeName question exchange socksExchange lookupHost parseURL requestError roundTrip).
Notation runChecks := (runChecks now fqdn rcodeName question exchange socksExchange lookupHost parseURL requestError roundTrip).
Notation probeExternalIP := (probeExternalIP fqdn rcodeName question exchange socksExchange lookupHost parseURL requestError roundTrip localCountry).
Notation probeRoute := (probeRoute now fqdn rcodeName question exchange socksExchange lookupHost parseURL requestError roundTrip markedDatagram localCountry hashIP verifier).
Notation concludeRoute := (concludeRoute now fqdn rcodeName question exchange socksExchange lookupHost parseURL requestError roundTrip localCountry hashIP verifier).
Notation finish := (finishWithPathProof now verifier).

(** What an attempt that succeeds saw. *)
Definition succeeded (check : ProbeCheck) (a : attemptResult) : Prop :=
  at_HTTPCode a ∈ pc_ExpectedCodes check /\ at_ExpectedCodeMatched a = true /\ at_HTTPOK a = true /\ at_ContentOK a = true /\
  at_RegionalBlock a = false /\ at_SuspectedTSPU a = false /\ at_AuthenticationRequired a = false /\ at_WAFOrRateLimit a = false.
Lemma runHTTPAttempt_OK c route check parsed host port ip k k' a :
  runHTTPAttempt c route check parsed host port ip k = (k', Ok a) -> S.ToUpper (S.TrimSpace (at_Status a)) = "OK" -> succeeded check a.
Proof.
  intros H. unfold Probe.runHTTPAttempt in H. run_steps H. destruct x0 as [[cn redirects] answer]. apply ret_ran in H as [_ ->].
  destruct answer as [resp|e]; cbn [mbind result_bind attemptOf at_Status]; [|by intros H; vm_compute in H].
  intros (HC & Hcode & _)%judge_OK. destruct HC as (? & ? & ? & ? & ? & ?). by split_and!.
Qed.

(** What a check that succeeds saw. *)
Record passed (check : ProbeCheck) (c : CheckResult) : Prop := {
  ps_code : ck_HTTPCode c ∈ pc_ExpectedCodes check;
  ps_matched : ck_ExpectedCodeMatched c = true;
  ps_seen : ck_HTTPOK c = true /\ ck_ContentOK c = true;
  ps_open : ck_RegionalBlock c = false /\ ck_SuspectedTSPU c = false;
  ps_free : ck_AuthenticationRequired c = false /\ ck_WAFOrRateLimit c = false
}.
(** What the status of a check and its proof depend on: the small updates that
    follow an attempt keep it. *)
Definition verdict (c : CheckResult) : string * bool * string * Z * (bool * bool * bool) * (bool * bool * bool * bool) :=
  (ck_Name c, ck_Required c, ck_Status c, ck_HTTPCode c, (ck_ExpectedCodeMatched c, ck_HTTPOK c, ck_ContentOK c),
   (ck_RegionalBlock c, ck_SuspectedTSPU c, ck_AuthenticationRequired c, ck_WAFOrRateLimit c)).
Lemma passed_verdict check c c' : verdict c = verdict c' -> passed check c -> passed check c'.
Proof. intros [=] [? ? ? ? ?]. split; intuition congruence. Qed.
Lemma recordEndToEnd_verdict dns m r : verdict (recordEndToEnd dns m r) = verdict r.
Proof. unfold recordEndToEnd. destruct (negb m.2); [done|]. destruct (composeEndToEndLatency _ _) as [e ok]. by destruct (ok && _). Qed.
Lemma recordLatency_verdict a r : verdict (recordLatency a r) = verdict r.
Proof. unfold recordLatency. by destruct (_ && _). Qed.
Lemma record_verdict a r : verdict (record a r) =
  (ck_Name r, ck_Required r, ck_Status r, at_HTTPCode a, (at_ExpectedCodeMatched a, ck_HTTPOK r || at_HTTPOK a, ck_ContentOK r || at_ContentOK a),
   (at_RegionalBlock a, at_SuspectedTSPU a, at_AuthenticationRequired a, at_WAFOrRateLimit a)).
Proof.
  unfold record. cbv zeta.
  by destruct (S.is_empty (at_ConnectedIP a)), (S.is_empty (at_LocalIP a)), (S.is_empty (at_AddressFamily a)), (S.is_empty (at_Transport a)),
    (S.is_empty (at_SocketMark a)).
Qed.

(** A check after some attempts: it is the one that was asked for, and counts as
    success only when the last attempt succeeded. *)
Definition asked (check : ProbeCheck) (c : CheckResult) : Prop := ck_Name c = pc_Name check /\ ck_Required c = pc_Required check.
Definition honest (check : ProbeCheck) (c : CheckResult) : Prop := asked check c /\ (statusOf c = "OK" -> passed check c).
Lemma honest_verdict check c c' : verdict c = verdict c' -> honest check c -> honest check c'.
Proof.
  intros E [[? ?] HP]. split; [split; injection E; congruence|]. intros HS. eapply passed_verdict; [done|]. apply HP.
  unfold statusOf in *. injection E. congruence.
Qed.
Lemma attempts_honest check try c dns last r targets k k' r' last' settled :
  (forall ip k k' a, try ip k = (k', Ok a) -> S.ToUpper (S.TrimSpace (at_Status a)) = "OK" -> succeeded check a) ->
  asked check r -> ck_Status r = "FAIL" -> attempts try c dns last r targets k = (k', Ok (r', last', settled)) -> honest check r'.
Proof.
  intros Htry. revert last r k. induction targets as [|ip rest IH]; intros last r k HA HF H; cbn [Probe.attempts] in H.
  { apply ret_ran in H as [_ [= -> _ _]]. split; [done|]. unfold statusOf. rewrite HF. by intros E; vm_compute in E. }
  destruct (_ && _) in H; [by eapply IH|]. run_steps H. rename x0 into a.
  assert (HV : verdict (recordLatency a x1) = verdict (record a r)).
  { rewrite recordLatency_verdict. destruct (_ && _) in G1.
    - run_steps G1. apply ret_ran in G1 as [-> ->]. by rewrite recordEndToEnd_verdict.
    - by apply ret_ran in G1 as [-> ->]. }
  rewrite record_verdict in HV. destruct (settles _) eqn:ES in H.
  - apply ret_ran in H as [_ [= -> _ _]]. unfold verdict in HV. injection HV as N R _ Code Em Eh Ec Er Et Ea Ew.
    split; [destruct HA; split; cbn; congruence|]. unfold statusOf. cbn. intros E. destruct (Htry _ _ _ _ G0) as (S1 & S2 & S3 & S4 & S5 & S6 & S7 & S8).
    { revert E ES. generalize (S.ToUpper (S.TrimSpace (at_Status a))). intros st E ES%containsString_true.
      repeat (apply elem_of_cons in ES as [->|ES]; [first [done|by vm_compute in E]|]). by apply elem_of_nil in ES. }
    split; cbn; [congruence|congruence| | |]; split; rewrite ?Eh, ?Ec, ?S3, ?S4, ?orb_true_r; congruence.
  - eapply IH; [| |exact H]; unfold verdict in HV; injection HV; destruct HA; intros; [split|]; congruence.
Qed.

Lemma finalizeCheckResult_ran r start k k' r' : finalizeCheckResult now r start k = (k', Ok r') -> verdict r' = verdict r.
Proof. unfold finalizeCheckResult. intros H. run_steps H. by apply ret_ran in H as [_ ->]. Qed.
Lemma probeOne_honest c route check family k k' r : probeOne c route check family k = (k', Ok r) -> honest check r.
Proof.
  unfold Probe.probeOne. intros H. run_steps H. rename x into start. cbv zeta in H.
  set (r0 := set_ck_Status _ _) in H.
  assert (H0 : verdict r0 = (pc_Name check, pc_Required check, "FAIL", 0, (false, false, false), (false, false, false, false))) by done.
  clearbody r0.
  assert (HFail : forall r1 r2 k1, verdict r1 = verdict r0 -> finalizeCheckResult now r1 start k1 = (k', Ok r2) -> honest check r2).
  { intros r1 r2 k1 E E2%finalizeCheckResult_ran. rewrite E, H0 in E2. injection E2 as ? ? ES. split; [by split|]. unfold statusOf. rewrite ES.
    by intros X; vm_compute in X. }
  destruct (parseURL _) as [parsed|]; [|by eapply HFail, H]. run_steps H. clear G1. destruct x0 as [[[ips resolver] protocol]|e]; [|by eapply HFail, H].
  run_steps H. destruct (_ && _) in H; [by eapply HFail, H|]. destruct (length ips =? 0)%nat in H; [by eapply HFail, H|].
  destruct (length (routeProbeTargets _ _) =? 0)%nat in H; [by eapply HFail, H|]. run_steps H.
  destruct x1 as [[r1 last] settled]. run_steps H. apply ret_ran in H as [_ ->]. apply finalizeCheckResult_ran in G3.
  assert (HA : honest check r1).
  { unfold verdict in H0. injection H0 as N R S0 _ _ _ _ _ _ _ _.
    eapply attempts_honest; [intros ip kx ky a; apply runHTTPAttempt_OK| | |exact G2]; [by split|done]. }
  eapply honest_verdict; [|exact HA]. rewrite <- G3. by destruct (_ && _).
Qed.

(** ** All checks *)

Lemma runChecks_spec c route family r checks k k' r' : runChecks c route family r checks k = (k', Ok r') ->
  exists done, pr_Checks r' = pr_Checks r ++ done /\ Forall2 honest checks done /\
    pr_RegionalBlock r' = pr_RegionalBlock r || any ck_RegionalBlock done /\ pr_SuspectedTSPU r' = pr_SuspectedTSPU r || any ck_SuspectedTSPU done /\
    pr_Status r' = pr_Status r.
Proof.
  revert r k. induction checks as [|check rest IH]; intros r k H; cbn [Probe.runChecks] in H.
  - apply ret_ran in H as [_ ->]. exists []. rewrite app_nil_r, !orb_false_r. split_and!; by try constructor.
  - run_steps H. apply probeOne_honest in G. apply IH in H as (done & E1 & E2 & E3 & E4 & E5). exists (x :: done).
    assert (EA : pr_Checks (addCheck r x) = pr_Checks r ++ [x] /\ pr_RegionalBlock (addCheck r x) = pr_RegionalBlock r || ck_RegionalBlock x /\
      pr_SuspectedTSPU (addCheck r x) = pr_SuspectedTSPU r || ck_SuspectedTSPU x /\ pr_Status (addCheck r x) = pr_Status r).
    { unfold addCheck. cbv zeta. by destruct (_ && _). }
    destruct EA as (A1 & A2 & A3 & A4). rewrite E1, E3, E4, E5, A1, A2, A3, A4. unfold any. cbn [existsb]. rewrite <- !app_assoc, !orb_assoc. split_and!; try done. by constructor.
Qed.

(** What the checks of a route that serves a service found. *)
Record served (checks : list ProbeCheck) (r : ProbeResult) : Prop := {
  sv_asked : Forall2 asked checks (pr_Checks r);
  sv_required : Forall2 (fun check found => pc_Required check = true -> passed check found) checks (pr_Checks r);
  sv_some : exists check, check ∈ checks /\ pc_Required check = true;
  sv_open : pr_RegionalBlock r = false /\ pr_SuspectedTSPU r = false;
  sv_free : pr_AuthenticationRequired r = false /\ pr_WAFOrRateLimit r = false;
  sv_free_checks : Forall (fun found => ck_AuthenticationRequired found = false /\ ck_WAFOrRateLimit found = false) (pr_Checks r)
}.
Lemma Forall2_with {A B} (P Q : A -> B -> Prop) (R : B -> Prop) l l' :
  (forall x y, P x y -> R y -> Q x y) -> Forall2 P l l' -> Forall R l' -> Forall2 Q l l'.
Proof. intros HQ HP. induction HP; intros HR; inversion HR; subst; constructor; eauto. Qed.
(** A status that counts as success. *)
Definition succeeds (r : ProbeResult) : Prop := S.EqualFold (pr_Status r) "OK" = true.
Lemma classify_OK r checks : ~ succeeds r -> Forall2 honest checks (pr_Checks r) -> succeeds (classify r) -> served checks (classify r).
Proof.
  unfold succeeds. intros H0 HH. unfold classify. cbv zeta. destruct (pr_RegionalBlock r) eqn:ER; [done|]. destruct (pr_SuspectedTSPU r) eqn:ET; [done|].
  destruct (authRequired _) eqn:EA; [done|]. destruct (wafOrRateLimit _) eqn:EW; [done|].
  destruct (requiredSeen _ && requiredOK _) eqn:EO; [|by destruct (optionalOK _)].
  intros _. apply andb_true_iff in EO as [ES EO].
  assert (HF : Forall (fun found => ck_AuthenticationRequired found = false /\ ck_WAFOrRateLimit found = false) (pr_Checks r)).
  { apply list.Forall_forall. intros found Hin. split.
    - destruct (ck_AuthenticationRequired found) eqn:E; [|done]. rewrite <- EA. symmetry. apply any_true. exists found. by rewrite E.
    - destruct (ck_WAFOrRateLimit found) eqn:E; [|done]. rewrite <- EW. symmetry. apply any_true. exists found. by rewrite E. }
  assert (HP : Forall (fun found => ck_Required found = true -> statusOf found = "OK") (pr_Checks r)).
  { apply list.Forall_forall. intros found Hin HR. unfold requiredOK in EO. rewrite forallb_forall in EO.
    apply String.eqb_eq, EO. apply filter_In. split; [by apply list_elem_of_In|done]. }
  assert (HS : exists found, found ∈ pr_Checks r /\ ck_Required found = true).
  { unfold requiredSeen, requiredChecks in ES. destruct (List.filter ck_Required (pr_Checks r)) as [|f fs] eqn:E; [done|].
    exists f. assert (HI : In f (List.filter ck_Required (pr_Checks r))) by (rewrite E; by left).
    apply filter_In in HI as [HI ?]. split; [by apply list_elem_of_In|done]. }
  set (r1 := outcome _ _ _ _).
  assert (E1 : pr_Checks r1 = pr_Checks r /\ pr_RegionalBlock r1 = pr_RegionalBlock r /\ pr_SuspectedTSPU r1 = pr_SuspectedTSPU r /\
    pr_AuthenticationRequired r1 = false /\ pr_WAFOrRateLimit r1 = false) by (unfold r1; by destruct (e2eAvailable _)).
  destruct E1 as (E1 & E2 & E3 & E4 & E5). clearbody r1. split; rewrite ?E1, ?E2, ?E3, ?E4, ?E5; try done.
  - eapply Forall2_impl; [exact HH|]. by intros ? ? [? ?].
  - eapply Forall2_with; [|exact HH|exact HP]. intros check found [[_ HA] HB] HC HR. apply HB, HC. congruence.
  - destruct HS as (found & Hin & HR). apply list_elem_of_lookup_1 in Hin as [i Hi].
    destruct (Forall2_lookup_r _ _ _ _ _ HH Hi) as (check & Hc & [[_ HA] _]). exists check. split; [by eapply list_elem_of_lookup_2|congruence].
Qed.

(** ** The country behind the route *)

Lemma consensus_agreed votes ip country sources : consensus votes = Ok (ip, country, sources) ->
  sources = map vt_Source votes /\ (2 <= length votes)%nat /\ Forall (fun v => vt_Country v = country) votes.
Proof.
  destruct votes as [|v [|w rest]]; [done|done|]. unfold consensus. destruct (any _ _) eqn:E; [done|]. intros [= <- <- <-].
  split; [done|]. split; [cbn; lia|]. constructor; [done|]. apply list.Forall_forall. intros o Ho.
  destruct (vt_Country o =s vt_Country v) eqn:EO; [by apply String.eqb_eq|]. exfalso. assert (HT : any (fun o => negb (vt_Country o =s vt_Country v)) (w :: rest) = true)
    by (apply any_true; exists o; by rewrite EO). congruence.
Qed.
(** The country and the sources are those of votes that agree, two at least. *)
Definition agreed (country : string) (sources : list string) : Prop := exists votes,
  sources = map vt_Source votes /\ (2 <= length votes)%nat /\ Forall (fun v => vt_Country v = country) votes.
Lemma probeExternalIP_agreed c route k k' ip country sources :
  probeExternalIP c route k = (k', Ok (ip, country, sources)) -> agreed country sources.
Proof.
  unfold Probe.probeExternalIP, probeExternalIPWithFetcher. cbv zeta. destruct (_ =? 0)%nat; [by intros ?%fail_ran|].
  destruct (_ <? _); [by intros ?%fail_ran|]. intros H. run_steps H. destruct x as [|v votes]; [by apply fail_ran in H|].
  run_steps H. apply lift_ran in H as [_ H]. by eexists; eapply consensus_agreed.
Qed.
(** A country that is known and is not RU. *)
Definition abroad (r : ProbeResult) : Prop :=
  pr_EgressConsensus r = true /\ pr_ExternalCountry r <> "" /\ pr_ExternalCountry r <> "UNKNOWN" /\ pr_ExternalCountry r <> "RU" /\
  agreed (pr_ExternalCountry r) (pr_ExternalCountrySources r).
Lemma not_refused svc answer r : s_RequireNonRUEgress svc = true -> egressRefusal svc answer = None ->
  (forall ip country sources, answer = Ok (ip, country, sources) -> agreed country sources) -> abroad (withEgress hashIP answer r).
Proof.
  unfold egressRefusal. intros -> H HA. cbn [negb] in H. destruct answer as [[[ip country] sources]|e].
  - destruct (country =s "RU") eqn:E1; [done|]. destruct (S.is_empty country || (country =s "UNKNOWN")) eqn:E2; [done|].
    apply orb_false_iff in E2 as [E2 E3]. apply String.eqb_neq in E1, E3. split_and!; cbn; try done; [by intros ->|]. by eapply HA.
  - destruct (S.is_empty e); done.
Qed.

(** ** A result that counts *)

(** What neither the observation, nor the proof, nor the classification touches. *)
Definition country_of (r : ProbeResult) : bool * string * list string := (pr_EgressConsensus r, pr_ExternalCountry r, pr_ExternalCountrySources r).
Definition checks_of (r : ProbeResult) : list CheckResult * (bool * bool) * (bool * bool) :=
  (pr_Checks r, (pr_RegionalBlock r, pr_SuspectedTSPU r), (pr_AuthenticationRequired r, pr_WAFOrRateLimit r)).
Lemma classify_country r : country_of (classify r) = country_of r.
Proof.
  unfold classify. cbv zeta. destruct (pr_RegionalBlock r); [done|]. destruct (pr_SuspectedTSPU r); [done|]. destruct (authRequired _); [done|].
  destruct (wafOrRateLimit _); [done|]. destruct (_ && _); [by destruct (e2eAvailable _)|]. by destruct (optionalOK _).
Qed.
Lemma withObservation_kept o d r : country_of (withObservation o d r) = country_of r /\ checks_of (withObservation o d r) = checks_of r /\
  pr_Status (withObservation o d r) = pr_Status r /\ pr_ApplicationStatus (withObservation o d r) = pr_ApplicationStatus r.
Proof. unfold withObservation. cbv zeta. by destruct (ob_RouteLatencyAvailable o). Qed.
Lemma withProof_kept p r : country_of (withProof p r) = country_of r /\ checks_of (withProof p r) = checks_of r /\
  pr_PathVerified (withProof p r) = true /\ pr_PathEvidence (withProof p r) = Some p /\
  pr_Status (withProof p r) = if S.EqualFold (S.TrimSpace (pr_ApplicationStatus r)) "DROP" then "OK" else pr_Status r.
Proof.
  unfold withProof. cbv zeta. set (r1 := set_pr_ReasonCode _ _).
  assert (E : country_of r1 = country_of r /\ checks_of r1 = checks_of r /\ pr_PathVerified r1 = true /\ pr_PathEvidence r1 = Some p /\
    pr_Status r1 = pr_Status r /\ pr_ApplicationStatus r1 = pr_ApplicationStatus r) by (unfold r1; by destruct (ev_RouteLatencyAvailable p), (0 <? _)).
  destruct E as (E1 & E2 & E3 & E4 & E5 & E6). clearbody r1. rewrite E6. destruct (S.EqualFold _ _); split_and!; done.
Qed.
Lemma served_kept checks r r' : checks_of r = checks_of r' -> served checks r -> served checks r'.
Proof. intros [=] [? ? ? ? ? ?]. split; try congruence; intuition congruence. Qed.
Lemma abroad_kept r r' : country_of r = country_of r' -> abroad r -> abroad r'.
Proof. unfold abroad. intros [= <- <- <-]. done. Qed.

Definition modestVerifier : Prop := forall request, modest (Verify verifier request).
Lemma unproved_OK stage e route r : proofFailureStatus e = "UNVERIFIED" \/ proofFailureStatus e = "NOT_CONFIGURED" -> ~ succeeds (unproved stage e route r).
Proof.
  unfold unproved, succeeds. cbv zeta. set (r1 := set_pr_ReasonCode _ _). intros He.
  destruct (counts r1) eqn:EC; [by destruct He as [E|E]; cbn; rewrite E|]. unfold counts in EC. apply orb_false_iff in EC as [EC _].
  apply orb_false_iff in EC as [EC _]. intros E%EqualFold_trim; [congruence|done].
Qed.
(** A result that counts once it is finished was verified, for what was observed. *)
Lemma finish_OK route r start session k k' r' : modestVerifier ->
  finish route r start session k = (k', Ok r') -> succeeds r' ->
  ss_BeginError session = "" /\ pr_PathVerified r' = true /\ country_of r' = country_of r /\ checks_of r' = checks_of r /\
  (S.EqualFold (S.TrimSpace (pr_ApplicationStatus r)) "DROP" = false -> succeeds r) /\
  exists k1 completed k2 stop p, now k = (k1, completed) /\ now k1 = (k2, stop) /\
    Verify verifier (mkRequest route (observationFromResult route r start completed) session) k2 = (k', inl p) /\ pr_PathEvidence r' = Some p.
Proof.
  intros HM H HS. unfold finishWithPathProof in H. run_steps H. destruct (withObservation_kept (observationFromResult route r start x) x0 r) as (O1 & O2 & O3 & O4).
  unfold clock in G. destruct (now k) as [ka ta] eqn:EN. injection G as -> ->. unfold elapsedMilliseconds, clock in G0. run_steps G0.
  destruct (now k0) as [kb tb] eqn:EN'. injection G as -> ->. apply ret_ran in G0 as [-> _].
  destruct (S.is_empty _) eqn:EB in H; cbn [negb] in H.
  - destruct (Verify verifier _ k2) as [k3 [p|e]] eqn:EV; injection H as <- <-.
    + destruct (withProof_kept p (withObservation (observationFromResult route r start x) x0 r)) as (P1 & P2 & P3 & P4 & P5).
      split; [by destruct (ss_BeginError session)|]. split_and!; try congruence.
      * unfold succeeds in *. intros HD. rewrite P5, O4, HD in HS. congruence.
      * by exists k0, x, k2, x1, p.
    + exfalso. eapply unproved_OK, HS. by eapply HM.
  - apply ret_ran in H as [_ ->]. exfalso. eapply unproved_OK, HS. by left.
Qed.

Lemma classify_application r : S.EqualFold (S.TrimSpace (pr_ApplicationStatus (classify r))) "DROP" = false.
Proof.
  unfold classify. cbv zeta. destruct (pr_RegionalBlock r); [done|]. destruct (pr_SuspectedTSPU r); [done|]. destruct (authRequired _); [done|].
  destruct (wafOrRateLimit _); [done|]. destruct (_ && _); [by destruct (e2eAvailable _)|]. by destruct (optionalOK _).
Qed.
Lemma egressRefusal_status svc answer status reason : egressRefusal svc answer = Some (status, reason) ->
  S.EqualFold status "OK" = false /\ S.EqualFold (S.TrimSpace status) "DROP" = false.
Proof.
  unfold egressRefusal. destruct (negb _); [done|]. cbv zeta. destruct (_ =s "RU"); [by intros [= <- <-]|].
  destruct (_ || _); [by intros [= <- <-]|done].
Qed.
(** The checks of a probe and the country behind its route, from world [k] to
    [k']; [r'] is the result they make. *)
Definition checks_run (c : Config) (svc : Service) (route : Route) (family : string) (session : PathProofSession) (r : ProbeResult) (k k' : K) (r' : ProbeResult) : Prop :=
  if r_Type route =s "drop" then dropSession markedDatagram c route session k = (k', Ok session) /\ r' = set_pr_ApplicationStatus "DROP" r
  else exists k1 checked, runChecks c route family r (s_ProbeURLs svc) k = (k1, Ok checked) /\
    let checked := set_pr_LatencyMS (pr_RouteLatencyMS checked) checked in
    if probesEgress c svc route
    then exists answer, externalIP fqdn rcodeName question exchange socksExchange lookupHost parseURL requestError roundTrip localCountry c route k1 = (k', Ok answer) /\
           egressRefusal svc answer = None /\ r' = classify (withEgress hashIP answer checked)
    else k' = k1 /\ r' = classify checked.
(** What [finish] does from world [k] to [k'] when the path is proved. *)
Definition path_run (route : Route) (start : time) (session : PathProofSession) (found : ProbeResult) (k k' : K) (r : ProbeResult) : Prop :=
  exists k1 completed k2 stop p, now k = (k1, completed) /\ now k1 = (k2, stop) /\
    Verify verifier (mkRequest route (observationFromResult route found start completed) session) k2 = (k', inl p) /\
    pr_PathEvidence r = Some p /\ pr_PathVerified r = true /\ pr_Checks r = pr_Checks found.
(** The probe that takes world [k] to [k'], step by step, when it counts: a session
    of the verifier is begun, the checks are made, and the verifier proves the path
    for that session and for what the checks observed. *)
Definition proved_run (c : Config) (domain serviceName : string) (svc : Service) (route : Route) (family : string) (k k' : K) (r : ProbeResult) : Prop :=
  exists k0 start k1 checkedAt k2 session k3 found,
    now k = (k0, start) /\ now k0 = (k1, checkedAt) /\
    beginPathProof verifier domain route start k1 = (k2, Ok session) /\ ss_BeginError session = "" /\
    checks_run c svc route family session (initialResult domain serviceName route checkedAt) k2 k3 found /\
    path_run route start session found k3 k' r.
Definition verified_for (svc : Service) (route : Route) (r : ProbeResult) : Prop :=
  r_Type route <> "drop" -> served (s_ProbeURLs svc) r /\ (s_RequireNonRUEgress svc = true -> abroad r).
Lemma finish_path route r start session k k' r' : modestVerifier -> finish route r start session k = (k', Ok r') -> succeeds r' ->
  ss_BeginError session = "" /\ path_run route start session r k k' r'.
Proof.
  intros HM H HS. destruct (finish_OK _ _ _ _ _ _ _ HM H HS) as (F1 & F2 & _ & F4 & _ & ka & t & kb & t' & p & F5 & F6 & F7 & F8).
  split; [done|]. exists ka, t, kb, t', p. split_and!; try done. by injection F4.
Qed.
Lemma withEgress_kept answer r : pr_Status (withEgress hashIP answer r) = pr_Status r /\ pr_Checks (withEgress hashIP answer r) = pr_Checks r.
Proof. by destruct answer as [[[? ?] ?]|?]. Qed.
Lemma concludeRoute_OK c svc route start session r k k' r' : modestVerifier ->
  concludeRoute c svc route start session r k = (k', Ok r') -> succeeds r' ->
  ~ succeeds r -> Forall2 honest (s_ProbeURLs svc) (pr_Checks r) -> ss_BeginError session = "" /\ verified_for svc route r' /\
  exists k1 found, path_run route start session found k1 k' r' /\
    if probesEgress c svc route
    then exists answer, externalIP fqdn rcodeName question exchange socksExchange lookupHost parseURL requestError roundTrip localCountry c route k = (k1, Ok answer) /\
           egressRefusal svc answer = None /\ found = classify (withEgress hashIP answer r)
    else k1 = k /\ found = classify r.
Proof.
  intros HM H HS H0 HC. unfold Probe.concludeRoute in H. cbv zeta in H. destruct (probesEgress _ _ _) eqn:EP; cbn [negb] in H.
  - apply bind_ran in H as (k1 & answer & GX & H). destruct (withEgress_kept answer r) as [E1 E2].
    assert (HA : s_RequireNonRUEgress svc = true -> egressRefusal svc answer = None -> abroad (withEgress hashIP answer r)).
    { intros HR HN. eapply not_refused; [done|done|]. intros ip country sources ->. revert GX. unfold externalIP.
      destruct (probeExternalIP c route k) as [k5 a] eqn:EX. intros [= _ ->]. by eapply probeExternalIP_agreed. }
    destruct (egressRefusal _ _) as [[status reason]|] eqn:ER; destruct (finish_OK _ _ _ _ _ _ _ HM H HS) as (_ & _ & F2 & F3 & F4 & _).
    + destruct (egressRefusal_status _ _ _ _ ER) as [N1 N2]. exfalso. specialize (F4 N2). unfold succeeds in F4.
      match type of F4 with S.EqualFold (pr_Status ?x) _ = true => change (pr_Status x) with status in F4 end. congruence.
    + destruct (finish_path _ _ _ _ _ _ _ HM H HS) as [V1 V2]. split; [done|]. split; [intros _; split|].
      * eapply served_kept; [symmetry; exact F3|]. apply classify_OK; [unfold succeeds; by rewrite E1|by rewrite E2|apply F4, classify_application].
      * intros HR. eapply abroad_kept; [symmetry; exact F2|]. eapply abroad_kept; [symmetry; apply classify_country|by apply HA].
      * by exists k1, (classify (withEgress hashIP answer r)); split; [|exists answer].
  - destruct (finish_OK _ _ _ _ _ _ _ HM H HS) as (_ & _ & F2 & F3 & F4 & _). destruct (finish_path _ _ _ _ _ _ _ HM H HS) as [V1 V2].
    split; [done|]. split; [intros _; split|by exists k, (classify r)].
    + eapply served_kept; [symmetry; exact F3|]. by apply classify_OK; [..|apply F4, classify_application].
    + intros HR. exfalso. revert EP. unfold probesEgress. rewrite HR. by rewrite !orb_true_r.
Qed.
(** The marked datagram leaves the session as it is, or a reason why not. *)
Lemma dropSession_ran c route session k k' session' : dropSession markedDatagram c route session k = (k', Ok session') ->
  ss_BeginError session' = "" -> session' = session.
Proof.
  unfold dropSession. destruct (negb _); [by intros [= _ <-]|]. unfold exerciseDropProbe, mret, io_ret, fail, lift.
  destruct (allowPrivateProbe c); [by intros [= _ <-]|]. destruct (parseSocketMark _) as [mark|]; [|by intros [= _ <-]].
  destruct (mark =? 0); [by intros [= _ <-]|]. destruct (markedDatagram mark k) as [k1 [observed dialErr]].
  destruct (observed =? mark); [by intros [= _ <-]|]. by destruct dialErr; intros [= _ <-].
Qed.
Lemma notRun_fails reason r start k k' r' : notRun now reason r start k = (k', Ok r') -> pr_Status r' = pr_Status r.
Proof. unfold notRun, finalizeUnverifiedResult. intros H. run_steps H. by apply ret_ran in H as [_ ->]. Qed.
Lemma initialResult_fails domain name route t : pr_Status (initialResult domain name route t) = "FAIL" /\ pr_Checks (initialResult domain name route t) = [].
Proof. done. Qed.
(** A route that serves a service on the path that was verified. *)
Lemma probeRoute_OK c domain name svc route family k k' r : modestVerifier ->
  probeRoute c domain name svc route family k = (k', Ok r) -> succeeds r ->
  Enabled route = true /\ proved_run c domain name svc route family k k' r /\ verified_for svc route r.
Proof.
  intros HM H HS. unfold Probe.probeRoute in H. apply bind_ran in H as (k0 & start & G & H). apply bind_ran in H as (k1 & checkedAt & G0 & H).
  unfold clock in G, G0. destruct (now k) as [ka ta] eqn:EN. injection G as -> ->. destruct (now k0) as [kb tb] eqn:EN'. injection G0 as -> ->. cbv zeta in H.
  destruct (initialResult_fails domain name route checkedAt) as [H0 H0'].
  destruct (Enabled route); cbn [negb] in H; [|apply notRun_fails in H; unfold succeeds in HS; rewrite H in HS; done]. split; [done|].
  destruct (_ <? _) in H; [apply notRun_fails in H; unfold succeeds in HS; rewrite H in HS; cbn in HS; done|]. apply bind_ran in H as (k2 & session & G2 & H).
  destruct (r_Type route =s "drop") eqn:ED in H.
  { apply bind_ran in H as (k3 & session' & GD & H). destruct (finish_path _ _ _ _ _ _ _ HM H HS) as [V1 V2].
    assert (session' = session) as -> by (by eapply dropSession_ran). split.
    - exists k0, start, k1, checkedAt, k2, session, k3. eexists. split_and!; [done..| |exact V2]. unfold checks_run. by rewrite ED.
    - apply String.eqb_eq in ED. by intros []. }
  destruct (negb _) in H; [apply notRun_fails in H; unfold succeeds in HS; by rewrite H, H0 in HS|]. apply bind_ran in H as (k3 & r1 & G3 & H).
  pose proof (runChecks_spec _ _ _ _ _ _ _ _ G3) as (found & C1 & C2 & _ & _ & C5).
  apply concludeRoute_OK in H as (V1 & V2 & k4 & done' & V3 & V4); [|done|done|unfold succeeds; cbn; by rewrite C5, H0|cbn; by rewrite C1, H0'].
  split; [|done]. exists k0, start, k1, checkedAt, k2, session, k4, done'. split_and!; [done..| |done].
  unfold checks_run. rewrite ED. exists k3, r1. split; [done|]. cbv zeta. exact V4.
Qed.
End Probes.
