(* ===== verification/Interfaces.v ===== *)
(** * Interfaces between components

    What a component asks of another one, as a class of operations and a class
    of laws.  The clients' theorems are proved against these classes; the
    providers' files discharge them. *)
From Stdlib Require Import ZArith Lia.
From stdpp Require Import base list strings gmap.
From S2P Require Import Prelude.

Open Scope Z_scope.

(** ** Key-value stores

    The [Store] interfaces of [internal/domaincache/cache.go],
    [internal/api/transaction.go] and [internal/zapret]: buckets of JSON
    documents.  [V] is the type of the documents a client writes to its bucket;
    [ListRaw] yields [None] for a document that does not decode. *)

Inductive store_error : Type :=
| ErrNotFound
| StoreFailure (e : string).

#[export] Instance store_error_eq : EqDecision store_error.
Proof. solve_decision. Defined.

(** [err != nil && !errors.Is(err, ErrNotFound)] *)
Definition store_failed (err : option store_error) : option string :=
  match err with
  | Some (StoreFailure e) => Some e
  | _ => None
  end.

Class KVStore (St V : Type) := {
  SaveJSON : St -> string -> string -> V -> St * option store_error;
  ListRaw : St -> string -> list (option V) + store_error;
  Delete : St -> string -> string -> St * option store_error
}.

(** [view st bucket] is what the store holds: the documents of the bucket that
    decode.  A failed operation leaves it unchanged. *)
Class KVStoreLaws (St V : Type) `{KVStore St V} := {
  view : St -> string -> gmap string V;
  save_ok st bucket key v st' :
    SaveJSON st bucket key v = (st', None) -> view st' bucket = <[key := v]> (view st bucket);
  save_failed st bucket key v st' e :
    SaveJSON st bucket key v = (st', Some e) -> view st' bucket = view st bucket;
  delete_ok st bucket key st' :
    Delete st bucket key = (st', None) -> view st' bucket = delete key (view st bucket);
  delete_not_found st bucket key st' :
    Delete st bucket key = (st', Some ErrNotFound) ->
    view st' bucket = view st bucket /\ view st bucket !! key = None;
  delete_failed st bucket key st' e :
    Delete st bucket key = (st', Some (StoreFailure e)) -> view st' bucket = view st bucket;
  list_ok st bucket docs :
    ListRaw st bucket = inl docs ->
    forall v, Some v ∈ docs <-> exists key, view st bucket !! key = Some v;
  list_not_found st bucket : ListRaw st bucket = inr ErrNotFound -> view st bucket = ∅
}.

(** Deleting a key that may be absent. *)
Lemma delete_view `{KVStoreLaws St V} st bucket key st' err :
  Delete st bucket key = (st', err) ->
  view st' bucket = match store_failed err with
                    | None => delete key (view st bucket)
                    | Some _ => view st bucket
                    end.
Proof.
  destruct err as [[|e]|]; simpl; intros Hd.
  - apply delete_not_found in Hd as [-> Hn]. by rewrite delete_id.
  - by apply delete_failed in Hd.
  - by apply delete_ok in Hd.
Qed.

(** ** Map iteration

    Go iterates over a map in an unspecified order: [iter m] is the order of one
    iteration, some permutation of the entries. *)
Class MapIter (V : Type) := iter : gmap string V -> list (string * V).
Class MapIterLaws (V : Type) `{MapIter V} := iter_perm m : iter m ≡ₚ map_to_list m.

Section Iter.
Context {V : Type} `{MapIterLaws V}.

Lemma elem_of_iter m k v : (k, v) ∈ iter m <-> m !! k = Some v.
Proof. rewrite iter_perm. apply elem_of_map_to_list. Qed.

Lemma NoDup_iter m : NoDup (fst <$> iter m).
Proof. rewrite iter_perm. apply NoDup_fst_map_to_list. Qed.

Lemma length_iter m : length (iter m) = size m.
Proof. by rewrite iter_perm, length_map_to_list. Qed.
End Iter.

#[export] Hint Rewrite @length_iter using typeclasses eauto : flint.

(** ** A reference store

    Buckets in memory whose operations always succeed: the laws are satisfiable,
    and concrete runs can be evaluated. *)
Abbreviation MemStore V := (gmap string (gmap string V)) (only parsing).

Section Mem.
Context {V : Type}.

Definition bucketOf (st : MemStore V) (b : string) : gmap string V := default ∅ (st !! b).

#[export] Instance mem_store : KVStore (MemStore V) V := {
  SaveJSON st b key v := (<[b := <[key := v]> (bucketOf st b)]> st, None);
  ListRaw st b := match st !! b with
                  | Some docs => inl (map (fun kv => Some kv.2) (map_to_list docs))
                  | None => inr ErrNotFound
                  end;
  Delete st b key := match bucketOf st b !! key with
                     | Some _ => (<[b := delete key (bucketOf st b)]> st, None)
                     | None => (st, Some ErrNotFound)
                     end
}.

#[export] Instance mem_store_laws : KVStoreLaws (MemStore V) V.
Proof.
  refine {| view := bucketOf |}; simpl; unfold bucketOf.
  - intros st b key v st' [= <-]. by rewrite lookup_insert_eq.
  - done.
  - intros st b key st'. destruct (_ !! key); [|done]. intros [= <-]. by rewrite lookup_insert_eq.
  - intros st b key st'. destruct (_ !! key) eqn:E; [done|]. by intros [= <-].
  - intros st b key st' e. by destruct (_ !! key).
  - intros st b docs. destruct (st !! b) as [m|]; [|done]. intros [= <-] v. simpl.
    rewrite list_elem_of_fmap. split.
    + intros ([k v'] & [= ->] & Hin). exists k. by apply elem_of_map_to_list.
    + intros (k & Hk). exists (k, v). split; [done|]. by apply elem_of_map_to_list.
  - intros st b. by destruct (st !! b).
Defined.

#[export] Instance sorted_iter : MapIter V := map_to_list.
#[export] Instance sorted_iter_laws : MapIterLaws V.
Proof. intros m. reflexivity. Qed.
End Mem.
