(* ===== verification/HealthService.v ===== *)
(** * Health cycles

    [internal/health/service.go]: every VLESS route is checked against a few control
    services, a quorum of the answers makes one result per route, and the results
    update the health of the routes and the roles of the pool.

    The goroutines of a cycle run at the same time, with the cancellation of the cycle
    and the other users of the shared probe budget: they are a transition system whose
    steps interleave in any order.  The engine that probes is an argument. *)
From Stdlib Require Import ZArith Lia Sorted.
From stdpp Require Import base list strings gmap.
From S2P Require Import Prelude Effects Net Config Interfaces Health ProbeTypes.

Open Scope Z_scope.

(** ** Control services *)

Definition namedService : Type := string * Service.
Definition controlCategoryRank (category : string) : Z :=
  if category =s "GEO_LOCKED" then 0 else if category =s "TSPU_RESTRICTED" then 1
  else if category =s "DIRECT_PREFERRED" then 2 else if category =s "TELEGRAM" then 3 else 4.
Definition namedServiceLess (left right : namedService) : bool :=
  let leftRank := controlCategoryRank (s_Category left.2) in
  let rightRank := controlCategoryRank (s_Category right.2) in
  if negb (leftRank =? rightRank) then leftRank <? rightRank else S.ltb left.1 right.1.

Definition maxControlServicesPerRoute : nat := 8.
(** The first index of a sorted list at which the candidate comes first. *)
Fixpoint insertAt (candidate : namedService) (controls : list namedService) : nat :=
  match controls with
  | [] => 0%nat
  | c :: rest => if namedServiceLess candidate c then 0%nat else S (insertAt candidate rest)
  end.
Definition insertControl (limit : nat) (controls : list namedService) (candidate : namedService) : list namedService :=
  let at_ := insertAt candidate controls in
  if (limit <=? at_)%nat then controls else firstn limit (firstn at_ controls ++ candidate :: skipn at_ controls).
Definition usable (cfg : Config) (route : Route) (s : namedService) : bool :=
  negb ((length (s_Domains s.2) =? 0)%nat || (length (s_ProbeURLs s.2) =? 0)%nat || negb (PathAllowed s.2 route (c_Policy cfg))).
Definition controlServices `{MapIter Service} (cfg : Config) (route : Route) (limit : Z) : list namedService :=
  if limit <=? 0 then []
  else fold_left (insertControl (Nat.min (Z.to_nat limit) maxControlServicesPerRoute)) (List.filter (usable cfg route) (iter (c_Services cfg))) [].

(** ** The result of a route *)

Definition safeHealthResult (route : Route) (r : ProbeResult) : bool :=
  let country := S.ToUpper (pr_ExternalCountry r) in
  (pr_Route r =s r_Tag route) && (pr_RouteType r =s r_Type route) && (pr_Status r =s "OK") && (pr_ApplicationStatus r =s "OK")
  && pr_PathVerified r && pr_ServiceOK r && negb (pr_Simulation r) && negb (pr_RegionalBlock r) && negb (pr_AuthenticationRequired r)
  && negb (pr_WAFOrRateLimit r) && pr_EgressConsensus r && (pr_AdapterRevision r <>s "") && (pr_CandidateHash r <>s "")
  && (pr_ArtifactManifestHash r <>s "") && (pr_ExternalIPHash r <>s "") && (country <>s "") && (country <>s "UNKNOWN") && (country <>s "RU").
Definition setReason (reason : string) (r : ProbeResult) : ProbeResult :=
  let reason := if reason =s "" then "health_control_quorum_failed" else reason in
  r |> set_pr_ReasonCode reason |> set_pr_Reason (Some reason).
(** The keys of a map used as a set, and the one it has. *)
Definition keys (f : ProbeResult -> string) (l : list ProbeResult) : gset string := list_to_set (map f l).
Definition onlyKey (s : gset string) : string := default "" (head (elements s)).
Definition reasonOf (r : ProbeResult) : string := if pr_ReasonCode r =s "" then default "" (pr_Reason r) else pr_ReasonCode r.
Definition firstFailure (route : Route) (results : list ProbeResult) : string :=
  fold_left (fun acc r => if acc =s "" then reasonOf r else acc) (List.filter (fun r => negb (safeHealthResult route r)) results) "".
Definition country (r : ProbeResult) : string := S.ToUpper (pr_ExternalCountry r).
(** What a route reports before its quorum is counted. *)
Definition uncounted (route : Route) (now : time) : ProbeResult :=
  zero_ProbeResult |> set_pr_Service "route-health" |> set_pr_Route (r_Tag route) |> set_pr_RouteType (r_Type route)
    |> set_pr_RoutePriority (r_Priority route) |> set_pr_Status "UNVERIFIED" |> set_pr_ApplicationStatus "UNVERIFIED" |> set_pr_CheckedAt now
    |> set_pr_FailureStage "health_quorum" |> set_pr_ReasonCode "health_control_quorum_failed".
(** What it reports once the quorum is met. *)
Definition counted (revision candidateHash manifestHash country ipHash : string) (latency : Z) (r : ProbeResult) : ProbeResult :=
  r |> set_pr_Status "OK" |> set_pr_ApplicationStatus "OK" |> set_pr_PathVerified true |> set_pr_ServiceOK true |> set_pr_EgressConsensus true
    |> set_pr_AdapterRevision revision |> set_pr_CandidateHash candidateHash |> set_pr_ArtifactManifestHash manifestHash
    |> set_pr_ExternalCountry country |> set_pr_ExternalIPHash ipHash |> set_pr_LatencyMS latency |> set_pr_FailureStage ""
    |> set_pr_ReasonCode "health_control_quorum_verified" |> set_pr_Reason (Some "health_control_quorum_verified").
Definition aggregate (route : Route) (results : list ProbeResult) (configuredControls : Z) (now : time) : ProbeResult :=
  let start := uncounted route now in
  if (configuredControls <? 2) || (length results <? 2)%nat then setReason "insufficient_health_control_services" start
  else
    let quorum := configuredControls / 2 + 1 in
    let safe := List.filter (safeHealthResult route) results in
    if Z.of_nat (length safe) <? quorum
    then (if firstFailure route results =s "" then start else setReason (firstFailure route results) start)
    else if negb (size (keys pr_AdapterRevision safe) =? 1)%nat || negb (size (keys pr_CandidateHash safe) =? 1)%nat
            || negb (size (keys pr_ArtifactManifestHash safe) =? 1)%nat || negb (size (keys country safe) =? 1)%nat
    then setReason "health_evidence_consensus_mismatch" start
    else
      let total := fold_left (fun acc r => wrap64 (acc + pr_LatencyMS r)) safe 0 in
      counted (onlyKey (keys pr_AdapterRevision safe)) (onlyKey (keys pr_CandidateHash safe)) (onlyKey (keys pr_ArtifactManifestHash safe))
        (onlyKey (keys country safe)) (if (size (keys pr_ExternalIPHash safe) =? 1)%nat then onlyKey (keys pr_ExternalIPHash safe) else "")
        (Z.quot total (Z.of_nat (length safe))) start.

(** ** The workers *)

(** [budget] is the capacity of the shared semaphore, if there is one. *)
Definition boundedParallelism (configured fallback jobs : Z) (budget : option Z) : Z :=
  if jobs <=? 0 then 0
  else
    let parallelism := if configured <=? 0 then fallback else configured in
    let parallelism := if parallelism <=? 0 then 4 else parallelism in
    let parallelism := if 16 <? parallelism then 16 else parallelism in
    let parallelism := match budget with Some n => if (0 <? n) && (n <? parallelism) then n else parallelism | None => parallelism end in
    let parallelism := if jobs <? parallelism then jobs else parallelism in
    if parallelism <? 1 then 1 else parallelism.

Record checkedRoute := mkChecked { cr_route : Route; cr_probes : list ProbeResult; cr_aggregate : ProbeResult }.

(** Where a worker is: at [range jobs], at the [select] that takes a token of the
    budget, in the loop of [checkRoute] with the controls that are left, at the
    receive that gives the token back, at the [select] that sends the result; or it
    has returned. *)
Inductive worker :=
| Idle
| Acquiring (route : Route)
| Probing (route : Route) (controls left : list namedService) (probes : list ProbeResult)
| Releasing (checked : checkedRoute)
| Sending (checked : checkedRoute)
| Gone.

(** The goroutines and channels of a cycle.  The tokens in the budget are those of
    its workers and those of other subsystems. *)
Record cycle := mkRunning {
  hc_jobs : option (list Route);      (* the routes to be sent; [None] once [jobs] is closed *)
  hc_workers : list worker;
  hc_results : list checkedRoute;     (* in the buffer of [results] *)
  hc_checked : list checkedRoute;     (* received *)
  hc_tokens : Z;                      (* [len(s.ProbeBudget)] *)
  hc_others : Z;                      (* the tokens of other subsystems *)
  hc_cancelled : bool;                (* [ctx.Err() != nil] *)
  hc_calls : nat                      (* calls of the engine so far *)
}.
Definition set_hc_jobs v p := mkRunning v (hc_workers p) (hc_results p) (hc_checked p) (hc_tokens p) (hc_others p) (hc_cancelled p) (hc_calls p).
Definition set_hc_workers v p := mkRunning (hc_jobs p) v (hc_results p) (hc_checked p) (hc_tokens p) (hc_others p) (hc_cancelled p) (hc_calls p).
Definition set_hc_results v p := mkRunning (hc_jobs p) (hc_workers p) v (hc_checked p) (hc_tokens p) (hc_others p) (hc_cancelled p) (hc_calls p).
Definition set_hc_checked v p := mkRunning (hc_jobs p) (hc_workers p) (hc_results p) v (hc_tokens p) (hc_others p) (hc_cancelled p) (hc_calls p).
Definition set_hc_tokens v p := mkRunning (hc_jobs p) (hc_workers p) (hc_results p) (hc_checked p) v (hc_others p) (hc_cancelled p) (hc_calls p).
Definition set_hc_others v p := mkRunning (hc_jobs p) (hc_workers p) (hc_results p) (hc_checked p) (hc_tokens p) v (hc_cancelled p) (hc_calls p).
Definition set_hc_cancelled v p := mkRunning (hc_jobs p) (hc_workers p) (hc_results p) (hc_checked p) (hc_tokens p) (hc_others p) v (hc_calls p).
Definition set_hc_calls v p := mkRunning (hc_jobs p) (hc_workers p) (hc_results p) (hc_checked p) (hc_tokens p) (hc_others p) (hc_cancelled p) v.

Section Workers.
(** [engine.ProbeRoute] by the number of the call: the configuration, the domain, the
    name of the service, the service and the route. *)
Context `{MapIter Service} (engine : nat -> Config -> string -> string -> Service -> Route -> ProbeResult).
Context (cfg : Config) (controlLimit : Z) (now : time).
(** The capacities of [ProbeBudget], if there is one, and of [results]. *)
Context (budget : option Z) (capacity : nat).

Definition probeControl (n : nat) (route : Route) (control : namedService) : ProbeResult :=
  engine n cfg (hd "" (s_Domains control.2)) control.1 control.2 route.
(** [checkRoute]: where it starts, and what it returns. *)
Definition enterRoute (route : Route) : worker :=
  let controls := controlServices cfg route controlLimit in Probing route controls controls [].
Definition leaveRoute (route : Route) (controls : list namedService) (probes : list ProbeResult) : worker :=
  Releasing (mkChecked route probes (aggregate route probes (Z.of_nat (length controls)) now)).

(** One step of a worker: where it was, where it is, and the cycle but for the
    workers.  A [select] whose two cases are ready takes either. *)
Inductive moves (p : cycle) : worker -> worker -> cycle -> Prop :=
| take route rest : hc_jobs p = Some (route :: rest) -> moves p Idle (Acquiring route) (set_hc_jobs (Some rest) p)
| leave : hc_jobs p = None -> moves p Idle Gone p
| no_budget route : budget = None -> moves p (Acquiring route) (enterRoute route) p
| acquire route tokens : budget = Some tokens -> hc_tokens p < tokens ->
    moves p (Acquiring route) (enterRoute route) (set_hc_tokens (hc_tokens p + 1) p)
| acquire_cancelled route tokens : budget = Some tokens -> hc_cancelled p = true -> moves p (Acquiring route) Gone p
| probe_control route controls control left probes : hc_cancelled p = false ->
    moves p (Probing route controls (control :: left) probes)
            (Probing route controls left (probes ++ [probeControl (hc_calls p) route control])) (set_hc_calls (S (hc_calls p)) p)
| probe_cancelled route controls control left probes : hc_cancelled p = true ->
    moves p (Probing route controls (control :: left) probes) (leaveRoute route controls probes) p
| probed route controls probes : moves p (Probing route controls [] probes) (leaveRoute route controls probes) p
| no_release c : budget = None -> moves p (Releasing c) (Sending c) p
| release c tokens : budget = Some tokens -> 0 < hc_tokens p -> moves p (Releasing c) (Sending c) (set_hc_tokens (hc_tokens p - 1) p)
| send c : (length (hc_results p) < capacity)%nat -> moves p (Sending c) Idle (set_hc_results (hc_results p ++ [c]) p)
| send_cancelled c : hc_cancelled p = true -> moves p (Sending c) Gone p.

(** One step of a goroutine of the cycle: a worker; the one that sends the routes;
    the one that receives the results. *)
Inductive step (p : cycle) : cycle -> Prop :=
| step_worker before w after w' p' : hc_workers p = before ++ w :: after -> moves p w w' p' ->
    step p (set_hc_workers (before ++ w' :: after) p')
| step_close : hc_jobs p = Some [] -> step p (set_hc_jobs None p)
| step_jobs_cancelled rest : hc_jobs p = Some rest -> hc_cancelled p = true -> step p (set_hc_jobs None p)
| step_receive c rest : hc_results p = c :: rest -> step p (set_hc_results rest (set_hc_checked (hc_checked p ++ [c]) p)).

(** What the rest of the program does meanwhile: it cancels the cycle, and takes and
    returns tokens of its own. *)
Inductive interferes (p : cycle) : cycle -> Prop :=
| cancel : interferes p (set_hc_cancelled true p)
| others_acquire tokens : budget = Some tokens -> hc_tokens p < tokens ->
    interferes p (set_hc_tokens (hc_tokens p + 1) (set_hc_others (hc_others p + 1) p))
| others_release : 0 < hc_others p -> interferes p (set_hc_tokens (hc_tokens p - 1) (set_hc_others (hc_others p - 1) p)).

(** A run, with the number of steps of the cycle itself. *)
Inductive runs : nat -> cycle -> cycle -> Prop :=
| runs_refl p : runs 0 p p
| runs_step n p p' p'' : step p p' -> runs n p' p'' -> runs (S n) p p''
| runs_interferes n p p' p'' : interferes p p' -> runs n p' p'' -> runs n p p''.
End Workers.

(** A cycle at its start, and once [results] is closed and read to its end. *)
Definition start_cycle (routes : list Route) (parallelism others : Z) : cycle :=
  mkRunning (Some routes) (replicate (Z.to_nat parallelism) Idle) [] [] others others false 0.
Definition finished (p : cycle) : Prop := Forall (eq Gone) (hc_workers p) /\ hc_results p = [].

(** ** A cycle *)

Record CycleResult := mkCycle {
  cy_Status : string;
  cy_RoutesChecked : Z;
  cy_ProbeCount : Z;
  cy_Failures : Z;
  cy_SelectedTag : string;
  cy_Health : list RouteHealth
}.
Definition routeLess : Route -> Route -> bool := then_by (same_z r_Priority) (key_lt r_Priority) (key_slt r_Tag).
Definition checkedLess (x y : checkedRoute) : bool := routeLess (cr_route x) (cr_route y).

Section Cycle.
Context {St : Type} (StoreProbeResult : ProbeResult -> St -> St * option string) (SaveRouteHealth : RouteHealth -> St -> St * option string).

(** What is saved, with the errors. *)
Fixpoint saveAll {A} (save : A -> St -> St * option string) (prefix : string) (l : list A) (st : St) : St * list string :=
  match l with
  | [] => (st, [])
  | x :: l =>
      let '(st, err) := save x st in
      let '(st, errs) := saveAll save prefix l st in
      (st, match err with Some e => (prefix +:+ ": " +:+ e) :: errs | None => errs end)
  end.
Fixpoint saveProbes (checked : list checkedRoute) (st : St) : St * list string :=
  match checked with
  | [] => (st, [])
  | c :: rest =>
      let '(st, errs) := saveAll StoreProbeResult ("store probe result for " +:+ r_Tag (cr_route c)) (cr_probes c) st in
      let '(st, more) := saveProbes rest st in (st, errs ++ more)
  end.
Fixpoint saveHealth (health : list RouteHealth) (st : St) : St * list string :=
  match health with
  | [] => (st, [])
  | h :: rest =>
      let '(st, errs) := saveAll SaveRouteHealth ("store route health for " +:+ h_RouteTag h) [h] st in
      let '(st, more) := saveHealth rest st in (st, errs ++ more)
  end.
Definition observeChecked (policy : Policy) (now : time) (tracker : gmap string RouteHealth) (c : checkedRoute) : gmap string RouteHealth :=
  (Observe tracker (shown (cr_aggregate c)) policy now).1.

(** [RunCycle] once its workers have handed over their results, in the order they
    did.  The tracker and the store are separate: what is saved does not wait for
    what is observed. *)
Definition concludeCycle (cfg : Config) (routes : list Route) (arrived : list checkedRoute) (now : time)
    (tracker : gmap string RouteHealth) (st : St) : gmap string RouteHealth * St * CycleResult * list string :=
  let checked := gosort checkedLess arrived in
  let '(st, errs) := saveProbes checked st in
  let tracker := fold_left (observeChecked (c_Policy cfg) now) checked tracker in
  let '(tracker, health) := AssignVLESSRoles tracker routes (c_Policy cfg) now in
  let '(st, more) := saveHealth health st in
  let selected := fold_left (fun acc h => if h_Role h =s "selected" then h_RouteTag h else acc) health "" in
  let failures := Z.of_nat (length (List.filter (fun c => negb (pr_Status (cr_aggregate c) =s "OK")) checked)) in
  let status := if selected =s "" then "UNVERIFIED" else if 0 <? failures then "DEGRADED" else "OK" in
  (tracker, st, mkCycle status (Z.of_nat (length checked)) (Z.of_nat (length (concat (map cr_probes checked)))) failures selected health, errs ++ more).
(** The routes of a cycle, and its limits. *)
Definition cycleRoutes (cfg : Config) : list Route := gosort routeLess (RoutesByType cfg "vless").
Definition cycleControls (maxControlServices : Z) : Z :=
  let limit := if maxControlServices <=? 0 then 3 else maxControlServices in
  if Z.of_nat maxControlServicesPerRoute <? limit then Z.of_nat maxControlServicesPerRoute else limit.
Definition RunCycle (cfg : Config) (arrived : list checkedRoute) (cancelled : option string) (now : time)
    (tracker : gmap string RouteHealth) (st : St) : gmap string RouteHealth * St * CycleResult * option string :=
  let routes := cycleRoutes cfg in
  let idle status := mkCycle status 0 0 0 "" [] in
  if (length routes =? 0)%nat then (tracker, st, idle "NOT_APPLICABLE", None)
  else match cancelled with
       | Some e => (tracker, st, idle "UNVERIFIED", Some e)
       | None =>
           let '(tracker, st, cycle, errs) := concludeCycle cfg routes arrived now tracker st in
           (tracker, st, cycle, match errs with [] => None | _ => Some (S.Join errs (String (Ascii.ascii_of_N 10) "")) end)
       end.
End Cycle.

(** ** The control services are the first in a fixed order *)

#[export] Instance StrictWeak_namedServiceLess : StrictWeak namedServiceLess.
Proof.
  apply (StrictWeak_ext (then_by (same_z (fun s : namedService => controlCategoryRank (s_Category s.2)))
    (key_lt (fun s : namedService => controlCategoryRank (s_Category s.2))) (key_slt (fun s : namedService => s.1)))).
  - intros x y. unfold namedServiceLess, then_by, same_z, key_lt. by destruct (_ =? _).
  - apply StrictWeak_then_by; auto with flint.
Qed.
Lemma namedServiceLess_names x y : namedServiceLess x y = false -> namedServiceLess y x = false -> x.1 = y.1.
Proof.
  unfold namedServiceLess. cbv zeta. destruct (controlCategoryRank (s_Category x.2) =? controlCategoryRank (s_Category y.2)) eqn:E.
  - rewrite Z.eqb_sym in E. rewrite E. apply ltb_total.
  - rewrite Z.eqb_sym in E. rewrite E. cbn [negb]. apply Z.eqb_neq in E. lia.
Qed.

(** Insertion into a sorted list. *)
Definition inserted (c : namedService) (l : list namedService) : list namedService :=
  firstn (insertAt c l) l ++ c :: skipn (insertAt c l) l.
Lemma inserted_cons c x l : inserted c (x :: l) = if namedServiceLess c x then c :: x :: l else x :: inserted c l.
Proof. unfold inserted. cbn [insertAt]. by destruct (namedServiceLess c x). Qed.
Lemma inserted_perm c l : inserted c l ≡ₚ c :: l.
Proof. unfold inserted. by rewrite <- Permutation_middle, firstn_skipn. Qed.
Lemma inserted_sorted c l : StronglySorted (le_of namedServiceLess) l -> StronglySorted (le_of namedServiceLess) (inserted c l).
Proof.
  induction 1 as [|x l Hs IH Hall]; [repeat constructor|]. rewrite inserted_cons. destruct (namedServiceLess c x) eqn:E.
  - assert (Hcx : le_of namedServiceLess c x) by (unfold le_of; by apply (sw_asym namedServiceLess)).
    constructor; [by constructor|]. constructor; [done|]. eapply Forall_impl; [exact Hall|]. intros y Hy. by eapply (le_of_trans namedServiceLess).
  - constructor; [done|]. rewrite inserted_perm. by constructor.
Qed.
Lemma insertAt_firstn limit c l : insertAt c (firstn limit l) = Nat.min limit (insertAt c l).
Proof.
  revert limit. induction l as [|x l IH]; intros [|limit]; cbn; [lia..|]. destruct (namedServiceLess c x); [lia|]. by rewrite IH.
Qed.
Lemma insertAt_le c l : (insertAt c l <= length l)%nat.
Proof. induction l as [|x l IH]; cbn; [lia|]. destruct (namedServiceLess c x); lia. Qed.
Lemma insertControl_firstn limit c l : insertControl limit (firstn limit l) c = firstn limit (inserted c l).
Proof.
  unfold insertControl, inserted. rewrite insertAt_firstn. pose proof (insertAt_le c l) as HI. set (i := insertAt c l) in *. clearbody i.
  destruct (limit <=? Nat.min limit i)%nat eqn:E.
  - apply Nat.leb_le in E. rewrite firstn_app, (firstn_length_le _ HI). replace (limit - i)%nat with 0%nat by lia.
    rewrite firstn_O, app_nil_r, firstn_firstn. f_equal. lia.
  - apply Nat.leb_gt in E. replace (Nat.min limit i) with i by lia. rewrite firstn_firstn, skipn_firstn_comm.
    replace (Nat.min i limit) with i by lia. rewrite !firstn_app, (firstn_length_le _ HI). f_equal.
    destruct (limit - i)%nat as [|n] eqn:EN; [done|]. cbn [firstn]. f_equal. rewrite firstn_firstn. f_equal. lia.
Qed.
Lemma inserted_gosort c l : (forall x y, x ∈ c :: l -> y ∈ c :: l -> x.1 = y.1 -> x = y) ->
  inserted c (gosort namedServiceLess l) = gosort namedServiceLess (c :: l).
Proof.
  intros Hn. apply (sorted_perm_unique namedServiceLess).
  - intros x y. rewrite inserted_perm, gosort_perm. intros Hx Hy H1 H2. apply Hn; [done|done|]. by apply namedServiceLess_names.
  - apply inserted_sorted. apply (gosort_sorted namedServiceLess).
  - apply (gosort_sorted namedServiceLess).
  - by rewrite inserted_perm, !gosort_perm.
Qed.
Lemma insertControls_sorted limit l : forall seen, (forall x y, x ∈ seen ++ l -> y ∈ seen ++ l -> x.1 = y.1 -> x = y) ->
  fold_left (insertControl limit) l (firstn limit (gosort namedServiceLess seen)) = firstn limit (gosort namedServiceLess (seen ++ l)).
Proof.
  induction l as [|c l IH]; intros seen Hn; cbn [fold_left]; [by rewrite app_nil_r|].
  assert (HP : seen ++ c :: l ≡ₚ (c :: seen) ++ l) by (symmetry; apply Permutation_middle).
  rewrite insertControl_firstn, inserted_gosort, IH.
  - f_equal. symmetry. apply (gosort_unique namedServiceLess); [|done]. intros x y Hx Hy H1 H2. by apply Hn; [..|apply namedServiceLess_names].
  - intros x y. rewrite <- HP. apply Hn.
  - intros x y Hx Hy. apply Hn; rewrite HP, elem_of_app; by left.
Qed.
(** The control services of a route do not depend on the order of the map: they are
    the first of the usable services by category and name. *)
Lemma controlServices_first `{MapIterLaws Service} cfg route limit : 0 < limit ->
  controlServices cfg route limit =
  firstn (Nat.min (Z.to_nat limit) maxControlServicesPerRoute) (gosort namedServiceLess (List.filter (usable cfg route) (map_to_list (c_Services cfg)))).
Proof.
  intros HL. unfold controlServices. destruct (limit <=? 0) eqn:E; [lia|].
  assert (HN : forall x y, x ∈ List.filter (usable cfg route) (iter (c_Services cfg)) -> y ∈ List.filter (usable cfg route) (iter (c_Services cfg)) ->
    x.1 = y.1 -> x = y).
  { intros [n s] [n' s'] Hx Hy. cbn. intros <-. rewrite elem_of_filter_b, iter_perm in Hx, Hy. destruct Hx as [Hx _], Hy as [Hy _].
    apply elem_of_map_to_list in Hx, Hy. congruence. }
  pose proof (insertControls_sorted (Nat.min (Z.to_nat limit) maxControlServicesPerRoute) _ [] HN) as H1.
  change (gosort namedServiceLess []) with (@nil namedService) in H1. rewrite firstn_nil in H1. rewrite H1. f_equal.
  apply (gosort_unique namedServiceLess).
  - intros x y Hx Hy H2 H3. by apply HN; [..|apply namedServiceLess_names].
  - cbn [app]. apply filter_perm, iter_perm.
Qed.
Lemma controlServices_bounded `{MapIterLaws Service} cfg route limit : (length (controlServices cfg route limit) <= maxControlServicesPerRoute)%nat.
Proof.
  destruct (decide (0 < limit)) as [HL|HL]; [rewrite controlServices_first by done; rewrite length_firstn; lia|].
  unfold controlServices. destruct (limit <=? 0) eqn:E; [cbn; lia|lia].
Qed.

(** ** A route is healthy by a quorum that agrees *)

Lemma keys_one f l : (size (keys f l) =? 1)%nat = true -> forall r, r ∈ l -> f r = onlyKey (keys f l).
Proof.
  intros H%Nat.eqb_eq r Hr. apply size_1_elem_of in H as [v Hv%leibniz_equiv]. unfold onlyKey. rewrite Hv, elements_singleton. cbn.
  assert (Hf : f r ∈ keys f l) by (unfold keys; rewrite elem_of_list_to_set; apply list_elem_of_In, in_map, list_elem_of_In, Hr).
  rewrite Hv in Hf. by apply elem_of_singleton in Hf.
Qed.
(** What the answers of a route that is reported healthy have in common. *)
Record quorum_met (route : Route) (results : list ProbeResult) (controls : Z) (r : ProbeResult) : Prop := {
  qm_majority : 2 <= controls /\ controls / 2 + 1 <= Z.of_nat (length (List.filter (safeHealthResult route) results));
  qm_agree : forall x, x ∈ List.filter (safeHealthResult route) results ->
    pr_AdapterRevision x = pr_AdapterRevision r /\ pr_CandidateHash x = pr_CandidateHash r /\
    pr_ArtifactManifestHash x = pr_ArtifactManifestHash r /\ country x = pr_ExternalCountry r;
  qm_abroad : pr_ExternalCountry r <> "" /\ pr_ExternalCountry r <> "UNKNOWN" /\ pr_ExternalCountry r <> "RU"
}.
Lemma safe_country route r : safeHealthResult route r = true -> country r <> "" /\ country r <> "UNKNOWN" /\ country r <> "RU".
Proof. unfold safeHealthResult. cbv zeta. fold (country r). intros [[[_ H1]%andb_true_iff H2]%andb_true_iff H3]%andb_true_iff. apply negb_true_iff, String.eqb_neq in H1, H2, H3. done. Qed.
Lemma uncounted_fails route now reason : pr_Status (setReason reason (uncounted route now)) = "UNVERIFIED" /\ pr_Status (uncounted route now) = "UNVERIFIED".
Proof. done. Qed.
Lemma counted_revision rev hash manifest c ip latency r : pr_AdapterRevision (counted rev hash manifest c ip latency r) = rev.
Proof. done. Qed.
Lemma counted_hash rev hash manifest c ip latency r : pr_CandidateHash (counted rev hash manifest c ip latency r) = hash.
Proof. done. Qed.
Lemma counted_manifest rev hash manifest c ip latency r : pr_ArtifactManifestHash (counted rev hash manifest c ip latency r) = manifest.
Proof. done. Qed.
Lemma counted_country rev hash manifest c ip latency r : pr_ExternalCountry (counted rev hash manifest c ip latency r) = c.
Proof. done. Qed.
Lemma aggregate_OK route results n now :
  pr_Status (aggregate route results n now) = "OK" -> quorum_met route results n (aggregate route results n now).
Proof.
  unfold aggregate. cbv zeta. set (start := uncounted route now).
  assert (H0 : forall reason, pr_Status (setReason reason start) = "UNVERIFIED") by (intros reason; exact (proj1 (uncounted_fails route now reason))).
  assert (H1 : pr_Status start = "UNVERIFIED") by exact (proj2 (uncounted_fails route now "")). clearbody start.
  destruct (_ || _) eqn:E1; [rewrite H0; done|]. set (safe := List.filter (safeHealthResult route) results).
  destruct (Z.of_nat (length safe) <? _) eqn:E2; [destruct (_ =s ""); rewrite ?H0, ?H1; done|].
  destruct (negb _ || negb _ || negb _ || negb _) eqn:E3; [rewrite H0; done|]. intros _.
  rewrite !orb_false_iff, !negb_false_iff in E3. destruct E3 as [[[K1 K2] K3] K4]. apply orb_false_iff in E1 as [E1 _].
  split.
  - split; [lia|]. fold safe. lia.
  - intros x Hx. rewrite counted_revision, counted_hash, counted_manifest, counted_country. by split_and!; apply keys_one.
  - assert (HX : exists x, x ∈ safe).
    { destruct safe as [|x safe']; [|exists x; by left]. exfalso. cbn in E2. apply Z.ltb_ge in E2, E1. pose proof (Z.div_pos n 2). lia. }
    destruct HX as [x Hx]. rewrite counted_country, <- (keys_one country safe K4 x Hx). apply (safe_country route). by apply elem_of_filter_b in Hx as [_ ?].
Qed.

(** ** Every route is checked *)

Section Running.
Context `{MapIterLaws Service} (engine : nat -> Config -> string -> string -> Service -> Route -> ProbeResult).
Context (cfg : Config) (controlLimit : Z) (now : time) (budget : option Z) (routes : list Route).
Notation moves := (moves engine cfg controlLimit now budget (length routes)).
Notation step := (step engine cfg controlLimit now budget (length routes)).
Notation runs := (runs engine cfg controlLimit now budget (length routes)).
Notation controls route := (controlServices cfg route controlLimit).

(** The steps that are left: of a route, of a worker, of the cycle. *)
Definition cost (route : Route) : nat := (6 + length (controls route))%nat.
Definition workerLeft (w : worker) : nat :=
  match w with
  | Idle => 1 | Acquiring route => cost route | Probing _ _ rest _ => 5 + length rest | Releasing _ => 4 | Sending _ => 3 | Gone => 0
  end%nat.
Definition stepsLeft (p : cycle) : nat :=
  (match hc_jobs p with Some rest => S (sum_list_with cost rest) | None => 0 end
   + sum_list_with workerLeft (hc_workers p) + length (hc_results p))%nat.

Lemma sum_app {A} (f : A -> nat) l l' : sum_list_with f (l ++ l') = (sum_list_with f l + sum_list_with f l')%nat.
Proof. induction l as [|x l IH]; cbn; [done|]. rewrite IH. lia. Qed.
Lemma step_counts p p' : step p p' -> (stepsLeft p' < stepsLeft p)%nat.
Proof.
  unfold stepsLeft. intros [before w after w' q Hw Hm|E|rest E _|c rest E].
  - rewrite Hw. destruct Hm; try match goal with E : hc_jobs _ = Some _ |- _ => rewrite E end; cbn; rewrite ?sum_app; cbn; unfold cost; cbn; rewrite ?length_app; cbn; try lia.
  - rewrite E. cbn. lia.
  - rewrite E. cbn. lia.
  - rewrite E. cbn. lia.
Qed.
Lemma interferes_counts p p' : interferes budget p p' -> stepsLeft p' = stepsLeft p.
Proof. by intros []. Qed.

(** The route a worker has, and the answers. *)
Definition workerRoutes (w : worker) : list Route :=
  match w with Acquiring r | Probing r _ _ _ => [r] | Releasing c | Sending c => [cr_route c] | _ => [] end.
Definition workerCalls (w : worker) : nat :=
  match w with Probing _ _ _ probes => length probes | Releasing c | Sending c => length (cr_probes c) | _ => 0 end%nat.
Definition holds (w : worker) : nat := match w with Probing _ _ _ _ | Releasing _ => 1 | _ => 0 end%nat.
Definition callsOf (l : list checkedRoute) : nat := sum_list_with (fun c => length (cr_probes c)) l.

(** An answer is one of the first [n] of the engine, about that control over that route. *)
Definition answered (n : nat) (route : Route) (answer : ProbeResult) (control : namedService) : Prop :=
  exists k, (k < n)%nat /\ answer = probeControl engine cfg k route control.
(** A result has an answer for each control in turn, up to the cancellation. *)
Definition result_ok (n : nat) (cancelled : bool) (c : checkedRoute) : Prop :=
  exists before rest, controls (cr_route c) = before ++ rest /\ Forall2 (answered n (cr_route c)) (cr_probes c) before /\
    (rest = [] \/ cancelled = true) /\
    cr_aggregate c = aggregate (cr_route c) (cr_probes c) (Z.of_nat (length (controls (cr_route c)))) now.
Definition worker_ok (n : nat) (cancelled : bool) (w : worker) : Prop :=
  match w with
  | Probing route cs rest probes => cs = controls route /\ exists before, cs = before ++ rest /\ Forall2 (answered n route) probes before
  | Releasing c | Sending c => result_ok n cancelled c
  | _ => True
  end.
Record cycle_ok (parallelism : nat) (p : cycle) : Prop := {
  co_workers : length (hc_workers p) = parallelism;
  co_tokens : forall tokens, budget = Some tokens ->
    hc_tokens p = hc_others p + Z.of_nat (sum_list_with holds (hc_workers p)) /\ 0 <= hc_others p /\ hc_tokens p <= tokens;
  co_routes : exists lost, (lost = [] \/ hc_cancelled p = true) /\
    default [] (hc_jobs p) ++ concat (map workerRoutes (hc_workers p)) ++ map cr_route (hc_results p) ++ map cr_route (hc_checked p) ++ lost ≡ₚ routes;
  co_gone : Gone ∈ hc_workers p -> hc_jobs p = None \/ hc_cancelled p = true;
  co_jobs : Forall (worker_ok (hc_calls p) (hc_cancelled p)) (hc_workers p);
  co_results : Forall (result_ok (hc_calls p) (hc_cancelled p)) (hc_results p ++ hc_checked p);
  co_calls : hc_cancelled p = false ->
    hc_calls p = (sum_list_with workerCalls (hc_workers p) + callsOf (hc_results p ++ hc_checked p))%nat
}.

Lemma answered_mono n n' route probes before : (n <= n')%nat ->
  Forall2 (answered n route) probes before -> Forall2 (answered n' route) probes before.
Proof. intros Hn HF. eapply Forall2_impl; [exact HF|]. intros a s (k & Hk & ->). exists k. split; [lia|done]. Qed.
Lemma result_ok_mono n n' b b' c : (n <= n')%nat -> (b = true -> b' = true) -> result_ok n b c -> result_ok n' b' c.
Proof.
  intros Hn Hb (before & rest & E & HF & HR & HA). exists before, rest. split_and!; [done|by eapply answered_mono| |done].
  destruct HR as [->|HR]; [by left|right; auto].
Qed.
Lemma worker_ok_mono n n' b b' w : (n <= n')%nat -> (b = true -> b' = true) -> worker_ok n b w -> worker_ok n' b' w.
Proof.
  intros Hn Hb. destruct w; cbn; try done; try by apply result_ok_mono.
  intros (E & before & E' & HF). split; [done|]. exists before. split; [done|]. by eapply answered_mono.
Qed.
(** The parts of the invariant a step of one worker changes. *)
Lemma concat_workers before w after :
  concat (map workerRoutes (before ++ w :: after)) ≡ₚ workerRoutes w ++ concat (map workerRoutes (before ++ after)).
Proof.
  rewrite !map_app, !concat_app. cbn. rewrite (app_assoc (concat (map workerRoutes before))), (Permutation_app_comm (concat (map workerRoutes before))).
  by rewrite <- app_assoc.
Qed.
Lemma sum_workers f before w (after : list worker) :
  sum_list_with f (before ++ w :: after) = (f w + sum_list_with f (before ++ after))%nat.
Proof. rewrite !sum_app. cbn. lia. Qed.
Lemma gone_workers before w (after : list worker) : Gone ∈ before ++ w :: after -> Gone = w \/ Gone ∈ before ++ after.
Proof. rewrite !elem_of_app, elem_of_cons. tauto. Qed.

Lemma moves_grow p w w' p' : moves p w w' p' ->
  (hc_calls p <= hc_calls p')%nat /\ hc_cancelled p' = hc_cancelled p /\ hc_workers p' = hc_workers p /\ hc_checked p' = hc_checked p /\ hc_others p' = hc_others p.
Proof. intros []; cbn; split_and!; try done; lia. Qed.

Lemma moves_tokens p w w' p' held tokens : moves p w w' p' -> budget = Some tokens ->
  hc_tokens p = hc_others p + Z.of_nat (holds w + held) -> hc_tokens p <= tokens ->
  hc_tokens p' = hc_others p + Z.of_nat (holds w' + held) /\ hc_tokens p' <= tokens.
Proof.
  intros [] EB Ht Hle; cbn in *; try congruence; try lia.
  all: match goal with E : budget = Some ?t |- _ => assert (t = tokens) as -> by congruence end; lia.
Qed.

Lemma moves_routes p w w' p' : moves p w w' p' -> exists lost, (lost = [] \/ hc_cancelled p = true) /\
  default [] (hc_jobs p') ++ workerRoutes w' ++ map cr_route (hc_results p') ++ lost ≡ₚ default [] (hc_jobs p) ++ workerRoutes w ++ map cr_route (hc_results p).
Proof.
  intros [route rest E|E|route E|route tokens E Ht|route tokens E Ec|route cs control left probes Ec|route cs control left probes Ec|route cs probes|c E|c tokens E Ht|c Hl|c Ec];
    cbn.
  all: try (exists []; split; [by left|]; rewrite ?app_nil_r; reflexivity).
  - exists []. split; [by left|]. rewrite E. cbn. rewrite app_nil_r. by rewrite Permutation_middle.
  - exists [route]. split; [by right|]. rewrite (Permutation_app_comm _ [route]). done.
  - exists []. split; [by left|]. rewrite map_app, app_nil_r. cbn. by rewrite (Permutation_app_comm _ [cr_route c]).
  - exists [cr_route c]. split; [by right|]. rewrite (Permutation_app_comm _ [cr_route c]). done.
Qed.
Lemma moves_calls p w w' p' : moves p w w' p' -> hc_cancelled p = false ->
  (hc_calls p' + workerCalls w + callsOf (hc_results p) = hc_calls p + workerCalls w' + callsOf (hc_results p'))%nat.
Proof.
  intros [] Hc; cbn. all: try congruence. all: unfold callsOf; rewrite ?length_app, ?sum_app; cbn; lia.
Qed.
Lemma moves_gone p w w' p' : moves p w w' p' -> (Gone = w' -> hc_jobs p' = None \/ hc_cancelled p = true) /\ (hc_jobs p = None -> hc_jobs p' = None).
Proof. intros []; cbn; split; try done; try (by left); try (by right); congruence. Qed.
Lemma moves_worker p w w' p' : moves p w w' p' -> worker_ok (hc_calls p) (hc_cancelled p) w ->
  worker_ok (hc_calls p') (hc_cancelled p) w' /\
  (Forall (result_ok (hc_calls p) (hc_cancelled p)) (hc_results p) -> Forall (result_ok (hc_calls p') (hc_cancelled p)) (hc_results p')).
Proof.
  intros [route rest E|E|route E|route tokens E Ht|route tokens E Ec|route cs control left probes Ec|route cs control left probes Ec|route cs probes|c E|c tokens E Ht|c Hl|c Ec];
    cbn; intros Hw; split; try done.
  - split; [done|]. by exists [].
  - split; [done|]. by exists [].
  - destruct Hw as (E & before & E' & HF). split; [done|]. exists (before ++ [control]). rewrite <- app_assoc. split; [done|].
    apply Forall2_app; [eapply answered_mono; [|exact HF]; lia|]. constructor; [|constructor]. exists (hc_calls p). split; [lia|done].
  - intros HF. eapply Forall_impl; [exact HF|]. intros x Hx. eapply result_ok_mono; [| |exact Hx]; [lia|done].
  - destruct Hw as (-> & before & E' & HF). exists before, (control :: left). split_and!; [done|done|by right|done].
  - destruct Hw as (-> & before & E' & HF). exists before, []. split_and!; [done|done|by left|done].
  - intros HF. apply Forall_app. split; [done|]. by constructor.
Qed.

Lemma worker_step_ok parallelism p before w after w' p' :
  cycle_ok parallelism p -> hc_workers p = before ++ w :: after -> moves p w w' p' ->
  cycle_ok parallelism (set_hc_workers (before ++ w' :: after) p').
Proof.
  intros [W T R G J S C] Hw Hm. pose proof (moves_grow _ _ _ _ Hm) as (Gn & Gc & Gw & Gd & Go). rewrite Hw in *.
  rewrite Forall_app, Forall_cons in J. destruct J as (J1 & Jw & J2). destruct (moves_worker _ _ _ _ Hm Jw) as [Jw' Sr].
  apply Forall_app in S as [S1 S2]. split; cbn; rewrite ?Gc, ?Gd, ?Go.
  - rewrite length_app in *. exact W.
  - intros tokens EB. destruct (T tokens EB) as (T1 & T2 & T3). rewrite sum_workers in T1 |- *.
    destruct (moves_tokens _ _ _ _ _ _ Hm EB T1 T3) as [T4 T5]. by split_and!.
  - destruct R as (lost & HL & HR), (moves_routes _ _ _ _ Hm) as (more & HM & HR').
    exists (more ++ lost). split; [destruct HL as [->|]; [|by right]; destruct HM as [->|]; [by left|by right]|].
    rewrite <- HR, !concat_workers. transitivity ((default [] (hc_jobs p') ++ workerRoutes w' ++ map cr_route (hc_results p') ++ more)
      ++ concat (map workerRoutes (before ++ after)) ++ map cr_route (hc_checked p) ++ lost); [|rewrite HR']; solve_Permutation.
  - intros HG. destruct (moves_gone _ _ _ _ Hm) as [G1 G2]. apply gone_workers in HG as [HG|HG]; [by apply G1|].
    destruct G as [G|G]; [|left; by apply G2|by right]. rewrite elem_of_app, elem_of_cons. rewrite elem_of_app in HG. tauto.
  - rewrite Forall_app, Forall_cons. split_and!; [eapply Forall_impl; [exact J1|]|done|eapply Forall_impl; [exact J2|]]; intros x Hx; by eapply worker_ok_mono.
  - apply Forall_app. split; [by apply Sr|]. eapply Forall_impl; [exact S2|]. intros x Hx. by eapply result_ok_mono.
  - intros Hc. specialize (C Hc). pose proof (moves_calls _ _ _ _ Hm Hc) as HC. unfold callsOf in *. rewrite ?sum_app in C |- *. cbn in *. lia.
Qed.
Lemma step_ok parallelism p p' : step p p' -> cycle_ok parallelism p -> cycle_ok parallelism p'.
Proof.
  intros [before w after w' q Hw Hm|E|rest E Ec|c rest E] HO; [by eapply worker_step_ok|..]; destruct HO as [W T R G J S C]; split; cbn; try done.
  - rewrite E in R. exact R.
  - by left.
  - destruct R as (lost & _ & HR). rewrite E in HR. cbn in HR. exists (rest ++ lost). split; [by right|]. rewrite <- HR. solve_Permutation.
  - by left.
  - destruct R as (lost & HL & HR). rewrite E in HR. exists lost. split; [done|]. rewrite <- HR, map_app. cbn. solve_Permutation.
  - rewrite E in S. cbn in S. rewrite Forall_cons, Forall_app in S. rewrite !Forall_app, Forall_singleton. tauto.
  - intros Hc. rewrite (C Hc), E. unfold callsOf. rewrite ?sum_app. cbn. rewrite ?sum_app. cbn. lia.
Qed.
Lemma interferes_ok parallelism p p' : interferes budget p p' -> cycle_ok parallelism p -> cycle_ok parallelism p'.
Proof.
  intros [|tokens EB Ht|Ht] [W T R G J S C]; split; cbn; try done.
  - destruct R as (lost & _ & HR). exists lost. split; [by right|done].
  - intros HG. by right.
  - eapply Forall_impl; [exact J|]. intros x Hx. by eapply worker_ok_mono; [| |exact Hx].
  - eapply Forall_impl; [exact S|]. intros x Hx. by eapply result_ok_mono; [| |exact Hx].
  - intros tokens' EB'. assert (tokens' = tokens) as -> by congruence. destruct (T tokens EB) as (T1 & T2 & T3). lia.
  - intros tokens EB. destruct (T tokens EB) as (T1 & T2 & T3). lia.
Qed.

Lemma start_ok parallelism others : (forall tokens, budget = Some tokens -> 0 <= others <= tokens) ->
  cycle_ok (Z.to_nat parallelism) (start_cycle routes parallelism others).
Proof.
  intros HO. assert (H1 : forall f : worker -> nat, f Idle = 0%nat -> forall n, sum_list_with f (replicate n Idle) = 0%nat).
  { intros f Hf n. induction n as [|n IH]; cbn; [done|]. by rewrite Hf, IH. }
  assert (H2 : forall n, concat (map workerRoutes (replicate n Idle)) = []) by (intros n; by induction n).
  split; cbn.
  - apply length_replicate.
  - intros tokens EB. rewrite H1 by done. specialize (HO tokens EB). lia.
  - exists []. split; [by left|]. rewrite H2. cbn. by rewrite app_nil_r.
  - intros HG. apply elem_of_replicate in HG. by destruct HG.
  - apply Forall_replicate. done.
  - constructor.
  - intros _. by rewrite H1.
Qed.
Lemma runs_ok parallelism n p p' : runs n p p' -> cycle_ok parallelism p -> cycle_ok parallelism p' /\ (n + stepsLeft p' <= stepsLeft p)%nat.
Proof.
  induction 1 as [p|n p p1 p2 Hs Hr IH|n p p1 p2 Hs Hr IH]; intros HO; [by split| |].
  - destruct (IH (step_ok _ _ _ Hs HO)) as [H1 H2]. split; [done|]. pose proof (step_counts _ _ Hs). lia.
  - destruct (IH (interferes_ok _ _ _ Hs HO)) as [H1 H2]. split; [done|]. by rewrite <- (interferes_counts _ _ Hs).
Qed.

(** The workers are on one of their routes, which is one of the cycle's. *)
Lemma ok_routes parallelism p c : cycle_ok parallelism p -> c ∈ hc_checked p -> cr_route c ∈ routes.
Proof.
  intros [_ _ (lost & _ & HR) _ _ _ _] Hc. rewrite <- HR, !elem_of_app. right. right. right. left.
  rewrite list_elem_of_In. apply in_map. by rewrite <- list_elem_of_In.
Qed.

Definition gone (w : worker) : bool := match w with Gone => true | _ => false end.
Definition waits (w : worker) : bool := match w with Gone | Acquiring _ => true | _ => false end.
(** Only tokens that others hold keep a cycle waiting. *)
Lemma progress parallelism p : routes <> [] -> cycle_ok parallelism p -> finished p \/ (exists p', step p p') \/
  hc_cancelled p = false /\ exists tokens, budget = Some tokens /\ hc_others p = tokens /\ hc_tokens p = tokens.
Proof.
  intros Hne HO. destruct (hc_results p) as [|c rest] eqn:ER; [|right; left; eexists; by eapply step_receive].
  assert (HA : forall before w after w' p', hc_workers p = before ++ w :: after -> moves p w w' p' -> exists q, step p q).
  { intros before w after w' p' Hw Hm. eexists. by eapply step_worker. }
  assert (HX : (exists q, step p q) \/ Forall (fun w => Gone = w \/ exists route, w = Acquiring route) (hc_workers p)).
  { destruct (decide (Exists (fun w => waits w = false) (hc_workers p))) as [HE|HE].
    - left. apply Exists_exists in HE as (w & Hw & Hk). apply list_elem_of_split in Hw as (before & after & Hw).
      destruct w as [|route|route cs [|s left] probes|c|c|]; try done.
      + destruct (hc_jobs p) as [[|route rest]|] eqn:EJ; [eexists; by eapply step_close| |]; (eapply HA; [exact Hw|]); econstructor; done.
      + eapply HA; [exact Hw|]. apply probed.
      + destruct (hc_cancelled p) eqn:Ec; (eapply HA; [exact Hw|]); econstructor; done.
      + destruct budget as [tokens|] eqn:EB; (eapply HA; [exact Hw|]); [|by apply no_release]. eapply release; [done|].
        destruct HO as [_ T _ _ _ _ _]. destruct (T tokens EB) as (T1 & T2 & _). rewrite Hw, sum_workers in T1. cbn in T1. lia.
      + eapply HA; [exact Hw|]. apply send. rewrite ER. destruct routes; [done|cbn; lia].
    - right. apply not_Exists_Forall in HE; [|intros w; apply _]. eapply Forall_impl; [exact HE|].
      intros []; cbn; try done; eauto. }
  destruct HX as [HX|HX]; [by right; left|].
  destruct (decide (Exists (fun w => gone w = false) (hc_workers p))) as [HG|HG].
  2: { left. split; [|done]. apply not_Exists_Forall in HG; [|intros w; apply _]. eapply Forall_impl; [exact HG|]. intros [] Hn; first [reflexivity|by destruct Hn]. }
  apply Exists_exists in HG as (w & Hw & Hng). pose proof HX as HX'. rewrite Forall_forall in HX'.
  destruct (HX' w Hw) as [<-|[route ->]]; [discriminate Hng|]. apply list_elem_of_split in Hw as (before & after & Hw).
  destruct budget as [tokens|] eqn:EB; [|right; left; eapply HA; [exact Hw|]; eapply no_budget; first [exact EB|reflexivity]].
  destruct (hc_cancelled p) eqn:Ec; [right; left; eapply HA; [exact Hw|]; by eapply acquire_cancelled|].
  destruct (decide (hc_tokens p < tokens)) as [Ht|Ht]; [right; left; eapply HA; [exact Hw|]; by eapply acquire|].
  right. right. split; [done|]. exists tokens. destruct HO as [_ T _ _ _ _ _]. destruct (T tokens EB) as (T1 & T2 & T3).
  assert (HZ : sum_list_with holds (hc_workers p) = 0%nat).
  { clear -HX. induction HX as [|x l [<-|[r ->]] _ IH]; cbn; [done|exact IH..]. }
  split; [done|]. lia.
Qed.

Lemma sum_calls cs l : Forall2 (fun (c : checkedRoute) r => cr_route c = r) cs l ->
  Forall (fun c => length (cr_probes c) = length (controls (cr_route c))) cs ->
  callsOf cs = sum_list_with (fun r => length (controls r)) l.
Proof. unfold callsOf. induction 1 as [|c r cs l <- _ IH]; cbn; [done|]. rewrite Forall_cons. intros [Hc HF]. by rewrite Hc, IH. Qed.
(** What a cycle that was not cancelled ends with. *)
Lemma finished_ok parallelism p : (0 < parallelism)%nat -> cycle_ok parallelism p -> finished p -> hc_cancelled p = false ->
  map cr_route (hc_checked p) ≡ₚ routes /\
  hc_calls p = sum_list_with (fun route => length (controls route)) routes /\
  forall c, c ∈ hc_checked p -> Forall2 (answered (hc_calls p) (cr_route c)) (cr_probes c) (controls (cr_route c)) /\
    cr_aggregate c = aggregate (cr_route c) (cr_probes c) (Z.of_nat (length (controls (cr_route c)))) now.
Proof.
  intros HP [W T R G J S C] [HW HR] Hc. rewrite HR in *. rewrite Hc in *. specialize (C eq_refl).
  assert (HJ : hc_jobs p = None).
  { destruct G as [?|?]; [|done..]. destruct (hc_workers p) as [|w ws]; [cbn in W; lia|]. inversion HW; subst. left. }
  assert (H1 : concat (map workerRoutes (hc_workers p)) = [] /\ sum_list_with workerCalls (hc_workers p) = 0%nat).
  { clear -HW. induction HW as [|x l <- _ [IH1 IH2]]; [done|]. by cbn. }
  destruct H1 as [H1 H2]. destruct R as (lost & [->|?] & HRr); [|done]. rewrite HJ, H1 in HRr. cbn in HRr. rewrite app_nil_r in HRr.
  assert (HS : forall c, c ∈ hc_checked p -> Forall2 (answered (hc_calls p) (cr_route c)) (cr_probes c) (controls (cr_route c)) /\
    cr_aggregate c = aggregate (cr_route c) (cr_probes c) (Z.of_nat (length (controls (cr_route c)))) now).
  { intros c Hin. cbn in S. rewrite Forall_forall in S. destruct (S c Hin) as (before & rest & E & HF & [->|?] & HA); [|done].
    rewrite app_nil_r in E. rewrite E in HA |- *. split; [exact HF|exact HA]. }
  split; [done|]. split; [|exact HS]. rewrite C, H2. cbn. rewrite <- HRr. apply sum_calls.
  - clear. induction (hc_checked p); cbn; by constructor.
  - apply Forall_forall. intros c Hin. destruct (HS c Hin) as [HF _]. by apply Forall2_length in HF.
Qed.
End Running.

Lemma sum_replicate (f : worker -> nat) n w : sum_list_with f (replicate n w) = (n * f w)%nat.
Proof. induction n as [|n IH]; cbn; [done|]. by rewrite IH. Qed.
Lemma boundedParallelism_range configured fallback jobs budget : 0 < jobs ->
  0 < boundedParallelism configured fallback jobs budget <= 16 /\
  forall tokens, budget = Some tokens -> 0 < tokens -> boundedParallelism configured fallback jobs budget <= tokens.
Proof.
  intros HJ. unfold boundedParallelism. cbv zeta. destruct (Z.leb_spec jobs 0); [lia|].
  set (a := if configured <=? 0 then fallback else configured). set (b := if a <=? 0 then 4 else a). set (d := if 16 <? b then 16 else b).
  assert (Hb : 0 < b) by (unfold b; destruct (Z.leb_spec a 0); lia). assert (Hd : 0 < d <= 16) by (unfold d; destruct (Z.ltb_spec 16 b); lia). clearbody d. clear a b Hb.
  assert (He : forall e, 0 < e <= 16 -> let m := if jobs <? e then jobs else e in 0 < (if m <? 1 then 1 else m) <= Z.min 16 e).
  { intros e He. cbv zeta. destruct (Z.ltb_spec jobs e); [destruct (Z.ltb_spec jobs 1)|destruct (Z.ltb_spec e 1)]; lia. }
  destruct budget as [tokens|].
  - destruct ((0 <? tokens) && (tokens <? d)) eqn:E.
    + specialize (He tokens ltac:(lia)). cbv zeta in He. split; [lia|]. intros ? [= <-] Ht. lia.
    + specialize (He d Hd). cbv zeta in He. split; [lia|]. intros ? [= <-] Ht. lia.
  - specialize (He d Hd). cbv zeta in He. split; [lia|done].
Qed.

(** C39: a cycle checks every route.  Its workers, at most sixteen, run with the rest
    of the program, which may cancel the cycle and takes and returns tokens of the
    shared budget; in whatever order the steps interleave,
    - the probing workers and the tokens of others never exceed the budget;
    - the cycle makes no more steps than its workers, its routes and their control
      services need;
    - until it ends it can make a step, unless it is not cancelled and others hold
      every token of the budget;
    - and if it ends without having been cancelled, each route was checked once, over
      its control services, eight at most: one answer of the engine for each of them
      in turn, and the engine was called no other time. *)
Theorem every_route_is_checked `{MapIterLaws Service} engine cfg controlLimit now configured fallback budget others routes n p :
  routes <> [] -> (forall tokens, budget = Some tokens -> 0 <= others <= tokens) ->
  let parallelism := boundedParallelism configured fallback (Z.of_nat (length routes)) budget in
  runs engine cfg controlLimit now budget (length routes) n (start_cycle routes parallelism others) p ->
  0 < parallelism <= 16 /\ length (hc_workers p) = Z.to_nat parallelism /\
  (forall tokens, budget = Some tokens -> Z.of_nat (sum_list_with holds (hc_workers p)) + hc_others p <= tokens) /\
  (n <= 1 + Z.to_nat parallelism + sum_list_with (fun route => 6 + length (controlServices cfg route controlLimit)) routes)%nat /\
  (finished p \/ (exists p', step engine cfg controlLimit now budget (length routes) p p') \/
   hc_cancelled p = false /\ exists tokens, budget = Some tokens /\ hc_others p = tokens) /\
  (finished p -> hc_cancelled p = false ->
     map cr_route (hc_checked p) ≡ₚ routes /\
     hc_calls p = sum_list_with (fun route => length (controlServices cfg route controlLimit)) routes /\
     forall c, c ∈ hc_checked p ->
       Forall2 (answered engine cfg (hc_calls p) (cr_route c)) (cr_probes c) (controlServices cfg (cr_route c) controlLimit) /\
       (length (cr_probes c) <= 8)%nat).
Proof.
  intros HR HO. cbv zeta. set (parallelism := boundedParallelism _ _ _ _).
  assert (HP : 0 < parallelism <= 16) by (apply boundedParallelism_range; destruct routes; [done|cbn; lia]).
  clearbody parallelism. intros Hn.
  destruct (runs_ok _ _ _ _ _ _ _ _ _ _ Hn (start_ok engine cfg controlLimit now budget routes parallelism others HO)) as [Hok HN].
  split_and!; [lia|lia|apply (co_workers _ _ _ _ _ _ _ _ Hok)|..].
  - intros tokens EB. destruct (co_tokens _ _ _ _ _ _ _ _ Hok tokens EB) as (T1 & T2 & T3). lia.
  - change (sum_list_with _ routes) with (sum_list_with (cost cfg controlLimit) routes).
    unfold stepsLeft in HN. cbn [start_cycle hc_jobs hc_workers hc_results length] in HN. rewrite sum_replicate in HN. cbn [workerLeft] in HN. lia.
  - destruct (progress _ _ _ _ _ _ _ _ HR Hok) as [HF|[HS|(Hc & tokens & EB & Ht & _)]]; [by left|by right; left|].
    right. right. split; [done|]. by exists tokens.
  - intros HF Hc. destruct (finished_ok _ _ _ _ _ _ (Z.to_nat parallelism) _ ltac:(lia) Hok HF Hc) as (H1 & H2 & H3). split; [done|]. split; [done|].
    intros c Hin. destruct (H3 c Hin) as [H4 _]. split; [exact H4|]. rewrite (Forall2_length _ _ _ H4). apply controlServices_bounded.
Qed.

(** C38: a route is reported healthy by a quorum.  When a cycle reports a route OK,
    more than half of all its control services, two or more, were reached over it
    with the complete proof of its path, under one revision, candidate and manifest
    and from one country, which is known and is not RU; those are what the result
    carries, and each answer is the one of the engine for another control service, in
    their order.  It holds for every interleaving of the workers with each other and
    with the rest of the program, cancelled or not. *)
Theorem healthy_by_quorum `{MapIterLaws Service} engine cfg controlLimit now budget others parallelism routes n p c :
  (forall tokens, budget = Some tokens -> 0 <= others <= tokens) ->
  runs engine cfg controlLimit now budget (length routes) n (start_cycle routes parallelism others) p ->
  c ∈ hc_checked p -> pr_Status (cr_aggregate c) = "OK" ->
  cr_route c ∈ routes /\
  quorum_met (cr_route c) (cr_probes c) (Z.of_nat (length (controlServices cfg (cr_route c) controlLimit))) (cr_aggregate c) /\
  Forall2 (answered engine cfg (hc_calls p) (cr_route c)) (cr_probes c)
    (firstn (length (cr_probes c)) (controlServices cfg (cr_route c) controlLimit)).
Proof.
  intros HO Hn Hc HS.
  destruct (runs_ok _ _ _ _ _ _ _ _ _ _ Hn (start_ok engine cfg controlLimit now budget routes parallelism others HO)) as [Hok _].
  split; [by eapply ok_routes|]. pose proof (co_results _ _ _ _ _ _ _ _ Hok) as HR. rewrite Forall_app, !Forall_forall in HR.
  destruct (proj2 HR c Hc) as (before & rest & E & HF & _ & HA). split; [rewrite HA in *; by apply aggregate_OK|].
  rewrite E, (Forall2_length _ _ _ HF), firstn_app, Nat.sub_diag, firstn_all, firstn_O, app_nil_r. exact HF.
Qed.

(** ** The order of arrival *)

#[export] Instance StrictWeak_routeLess : StrictWeak routeLess.
Proof. apply StrictWeak_then_by; auto with flint. Qed.
#[export] Instance StrictWeak_checkedLess : StrictWeak checkedLess.
Proof. destruct StrictWeak_routeLess as [H1 H2]. split; unfold checkedLess; intros; eauto. Qed.
Lemma checkedLess_tags x y : checkedLess x y = false -> checkedLess y x = false -> r_Tag (cr_route x) = r_Tag (cr_route y).
Proof.
  unfold checkedLess, routeLess, then_by, same_z, key_lt, key_slt. rewrite (Z.eqb_sym (r_Priority (cr_route y))).
  destruct (_ =? _) eqn:E; [apply ltb_total|]. apply Z.eqb_neq in E. lia.
Qed.

(** The outcome of a cycle does not depend on the order in which its workers
    hand over their results: with distinct tags, the health of the routes, the roles
    of the pool, what is stored, the selected route and the errors are the same. *)
Theorem arrival_order_is_forgotten {St} (StoreProbeResult : ProbeResult -> St -> St * option string) SaveRouteHealth
    cfg arrived arrived' cancelled now tracker st :
  arrived ≡ₚ arrived' -> NoDup (map (fun c => r_Tag (cr_route c)) arrived) ->
  RunCycle StoreProbeResult SaveRouteHealth cfg arrived cancelled now tracker st =
  RunCycle StoreProbeResult SaveRouteHealth cfg arrived' cancelled now tracker st.
Proof.
  intros HP HN. unfold RunCycle, concludeCycle. cbv zeta.
  assert (E : gosort checkedLess arrived = gosort checkedLess arrived').
  { apply (gosort_unique checkedLess); [|done]. intros x y Hx Hy H1 H2. by eapply (unique_key (fun c => r_Tag (cr_route c)) arrived); [..|apply checkedLess_tags]. }
  by rewrite E.
Qed.

(** ** A cycle on concrete services *)

Definition ex_control (domain : string) : Service :=
  mkService "GEO_LOCKED" "" [domain] ["vless"] [] "" true [Build_ProbeCheck "home" ("https://" +:+ domain +:+ "/") true [200] "optional" [] [] [] false].
Definition ex_vless : Route := Build_Route "vless" "vless-a" 10 false "" "" false "" "" "" true true "" "0x3" false.
Definition ex_cycle_config : Config :=
  Build_Config 0 (mkPlatform "openwrt" false false "") zero_Storage ex_health_policy zero_Xray zero_Zapret zero_GeoIP
    (mkOpenWrt "" "" "" "" 0 0 0) [ex_vless] {["one" := ex_control "one.example"; "two" := ex_control "two.example"]} [] zero_Notifications [].
Definition ex_answer (ok : bool) : ProbeResult :=
  zero_ProbeResult |> set_pr_Route "vless-a" |> set_pr_RouteType "vless" |> set_pr_Status (if ok then "OK" else "FAIL") |> set_pr_ApplicationStatus "OK"
    |> set_pr_PathVerified true |> set_pr_ServiceOK true |> set_pr_EgressConsensus true |> set_pr_AdapterRevision "rev" |> set_pr_CandidateHash "hash"
    |> set_pr_ArtifactManifestHash "manifest" |> set_pr_ExternalIPHash "ip" |> set_pr_ExternalCountry "nl" |> set_pr_LatencyMS 40.
Definition ex_engine (n : nat) (cfg : Config) (domain name : string) (s : Service) (route : Route) : ProbeResult :=
  ex_answer true |> set_pr_Service name.
Definition ex_named : list namedService := [("one", ex_control "one.example"); ("two", ex_control "two.example")].
Definition ex_probes : list ProbeResult := [ex_answer true |> set_pr_Service "one"; ex_answer true |> set_pr_Service "two"].
Definition ex_checked : checkedRoute := mkChecked ex_vless ex_probes (aggregate ex_vless ex_probes 2 0).
Definition ex_ended : cycle := mkRunning None [Gone] [] [ex_checked] 0 0 false 2.
Lemma ex_enter : enterRoute ex_cycle_config 3 ex_vless = Probing ex_vless ex_named ex_named [].
Proof. vm_compute. reflexivity. Qed.
(** One worker, one token: the route is sent, probed twice, sent back and received. *)
Lemma ex_cycle_runs : runs ex_engine ex_cycle_config 3 0 (Some 1) 1 10 (start_cycle [ex_vless] 1 0) ex_ended.
Proof.
  eapply runs_step; [eapply (step_worker _ _ _ _ _ _ _ []); [reflexivity|by eapply take]|].
  eapply runs_step; [eapply (step_worker _ _ _ _ _ _ _ []); [reflexivity|by eapply acquire]|]. rewrite ex_enter.
  eapply runs_step; [eapply (step_worker _ _ _ _ _ _ _ []); [reflexivity|by eapply probe_control]|].
  eapply runs_step; [eapply (step_worker _ _ _ _ _ _ _ []); [reflexivity|by eapply probe_control]|].
  eapply runs_step; [eapply (step_worker _ _ _ _ _ _ _ []); [reflexivity|by eapply probed]|].
  eapply runs_step; [eapply (step_worker _ _ _ _ _ _ _ []); [reflexivity|by eapply release]|].
  eapply runs_step; [eapply (step_worker _ _ _ _ _ _ _ []); [reflexivity|eapply send; cbn; lia]|].
  eapply runs_step; [by eapply step_receive|].
  eapply runs_step; [by eapply step_close|].
  eapply runs_step; [eapply (step_worker _ _ _ _ _ _ _ []); [reflexivity|by eapply leave]|].
  apply runs_refl.
Qed.
Lemma every_route_is_checked_witness : map cr_route (hc_checked ex_ended) ≡ₚ [ex_vless] /\ hc_calls ex_ended = 2%nat.
Proof.
  destruct (every_route_is_checked ex_engine ex_cycle_config 3 0 1 4 (Some 1) 0 [ex_vless] 10 ex_ended) as (_ & _ & _ & _ & _ & H);
    [done|intros tokens [= <-]; lia|exact ex_cycle_runs|]. destruct H as (H1 & _ & _); [by repeat constructor|done|]. by split.
Defined.
Lemma healthy_by_quorum_witness : pr_Status (cr_aggregate ex_checked) = "OK" /\
  quorum_met ex_vless ex_probes (Z.of_nat (length (controlServices ex_cycle_config ex_vless 3))) (cr_aggregate ex_checked).
Proof.
  assert (E : pr_Status (cr_aggregate ex_checked) = "OK") by (vm_compute; reflexivity). split; [exact E|].
  destruct (healthy_by_quorum ex_engine ex_cycle_config 3 0 (Some 1) 0 1 [ex_vless] 10 ex_ended ex_checked) as (_ & H & _);
    [intros tokens [= <-]; lia|exact ex_cycle_runs|left|exact E|exact H].
Defined.
Definition ex_other : checkedRoute := mkChecked (ex_vless |> fun r => Build_Route "vless" "vless-b" 20 false "" "" false "" "" "" true true "" "0x4" false) [] (aggregate ex_vless [] 0 0).
Lemma arrival_order_is_forgotten_witness : forall tracker,
  RunCycle (fun _ (st : Z) => (st + 1, None)) (fun _ st => (st + 1, None)) ex_cycle_config [ex_other; ex_checked] None 0 tracker 0 =
  RunCycle (fun _ (st : Z) => (st + 1, None)) (fun _ st => (st + 1, None)) ex_cycle_config [ex_checked; ex_other] None 0 tracker 0.
Proof.
  intros tracker. apply arrival_order_is_forgotten; [apply perm_swap|]. cbn. repeat constructor; set_solver.
Defined.
