(* ===== verification/Collector.v ===== *)
(** * Collecting the evidence of a deployment

    [internal/dataplaneproof/collector.go]: before a deployment is confirmed, every
    route its verification plan requires is probed through one of its services, and
    the proofs are stored as a report if they meet the plan.

    The workers probe routes at the same time: they are a transition system whose
    steps interleave in any order, on a network [K] that is in any state when a probe
    starts.  A probe answers with its result and with whether its deadline passed.
    The configuration and the prober are always there. *)
From Stdlib Require Import ZArith Lia.
From stdpp Require Import base list strings gmap relations.
From S2P Require Import Prelude Effects Net Config Artifact Evidence Health ProbeTypes Interfaces Helper.

Open Scope Z_scope.

Record Options := mkOptions {
  o_Config : Config;
  o_PlanPath : string;
  o_OutputPath : string;
  o_Binding : Binding;
  o_ManifestHash : string;
  o_Parallelism : Z;
  o_RouteTimeout : Z
}.
(** [proof] and [err]. *)
Record collectedRoute := mkCollected { ct_index : nat; ct_required : RouteProof; ct_result : result evidenceResult }.
Definition failed (item : collectedRoute) : bool := match ct_result item with Ok _ => false | Err _ => true end.

(** ** The service a route is probed with *)

Record probeTarget := mkTarget { pt_name : string; pt_domain : string; pt_service : Service; pt_score : Z }.
Definition adaptiveBundleAssigned (cfg : Config) (serviceName : string) : bool :=
  if negb (z_AdaptiveEnabled (c_Zapret cfg)) then false
  else any (fun a => za_BundleID a =s serviceName) (z_AdaptiveAssignments (c_Zapret cfg)).
Definition targetScore (cfg : Config) (route : Route) (name : string) (s : Service) : Z :=
  let type := r_Type route in
  (if s_SelectedRouteTag s =s r_Tag route then 500 else 0)
  + (if (type =s "zapret") && adaptiveBundleAssigned cfg name then 200 else 0)
  + (if (type =s "vless") && s_RequireNonRUEgress s then 100 else 0)
  + (if (type =s "direct") && (s_Category s =s "DIRECT_ONLY") then 100 else 0)
  + (if (type =s "zapret") && (s_Category s <>s "DIRECT_ONLY") && negb (s_RequireNonRUEgress s) then 50 else 0).
Definition targetOf (cfg : Config) (route : Route) (named : string * Service) : option probeTarget :=
  let '(name, s) := named in
  match s_Domains s with
  | domain :: _ =>
      if negb (PathAllowed s route (c_Policy cfg)) then None
      else if (r_Type route <>s "drop") && (length (s_ProbeURLs s) =? 0)%nat then None
      else Some (mkTarget name domain s (targetScore cfg route name s))
  | [] => None
  end.
(** The best score first, then the name. *)
Definition targetLess : probeTarget -> probeTarget -> bool := then_by (same_z pt_score) (key_gt pt_score) (key_slt pt_name).
Definition selectProbeTarget `{MapIter Service} (cfg : Config) (route : Route) : result probeTarget :=
  match gosort targetLess (omap (targetOf cfg route) (iter (c_Services cfg))) with
  | target :: _ => Ok target
  | [] => Err ("no compatible probe service for route " +:+ r_Tag route)
  end.

(** ** One route *)

Definition routeProbeTimeout (o : Options) : Z :=
  if 0 <? o_RouteTimeout o then o_RouteTimeout o
  else
    let timeout := wrap64 (ProbeTimeoutSeconds (c_OpenWrt (o_Config o)) * second) in
    let timeout := if timeout <=? 0 then 20 * second else timeout in
    if (pl_Target (c_Platform (o_Config o)) <>s "test") && (timeout <? minute) then minute else timeout.
Definition routeProofParallelism (cfg : Config) (requested : Z) (routes : nat) : Z :=
  if (routes =? 0)%nat then 1
  else if pl_Target (c_Platform cfg) <>s "test" then 1
  else
    let requested := if requested <=? 0 then 1 else requested in
    let requested := if 4 <? requested then 4 else requested in
    if Z.of_nat routes <? requested then Z.of_nat routes else requested.
(** What is made of an answer. *)
Definition judgeProbe (o : Options) (required : RouteProof) (route : Route) (answer : ProbeResult) (late : bool) : result evidenceResult :=
  if late then Err ("route " +:+ r_Tag route +:+ " probe exceeded overall timeout")
  else match pr_PathVerified answer, pr_PathEvidence answer with
  | true, Some proof => _ ← ValidateRouteProof required proof (o_Binding o) (o_ManifestHash o); Ok proof
  | _, _ => Err ("route " +:+ r_Tag route +:+ " path proof is unavailable: service_status=" +:+ pr_Status answer +:+ " reason=" +:+ pr_ReasonCode answer)
  end.

Section Collect.
Context `{MapIter Service} (o : Options) {K : Type}.
(** A probe within a time, of a domain of a service on a route. *)
Context (probe : Z -> string -> string -> Service -> Route -> K -> K * (ProbeResult * bool)).

Definition collectRoute (index : nat) (required : RouteProof) : K -> K * collectedRoute := fun k =>
  let item r := mkCollected index required r in
  match RouteByTag (o_Config o) (rp_Tag required) with
  | Some route =>
      if r_Type route <>s rp_Type required then (k, item (Err ("verification route is missing from candidate: " +:+ rp_Tag required)))
      else match selectProbeTarget (o_Config o) route with
      | Err e => (k, item (Err e))
      | Ok target =>
          let '(k, (answer, late)) := probe (routeProbeTimeout o) (pt_domain target) (pt_name target) (pt_service target) route k in
          (k, item (judgeProbe o required route answer late))
      end
  | None => (k, item (Err ("verification route is missing from candidate: " +:+ rp_Tag required)))
  end.

(** ** The workers *)

(** The jobs still to be handed out, those a worker has, what was handed over, and
    whether the context of the workers is done. *)
Record pool := mkPool { wk_queue : list nat; wk_busy : list nat; wk_results : list collectedRoute; wk_cancelled : bool }.
Section Workers.
Context (required : list RouteProof) (parallelism : Z).
(** A worker takes the next job; it probes its route and hands over what it found,
    stopping the others when that is an error; the context ends from outside; no more
    jobs are handed out. *)
Inductive step : pool -> pool -> Prop :=
| step_take i queue busy results c : Z.of_nat (length busy) < parallelism ->
    step (mkPool (i :: queue) busy results c) (mkPool queue (busy ++ [i]) results c)
| step_probe queue before i after results c r k : required !! i = Some r ->
    let item := (collectRoute i r k).2 in
    step (mkPool queue (before ++ i :: after) results c) (mkPool queue (before ++ after) (results ++ [item]) (c || failed item))
| step_cancel queue busy results : step (mkPool queue busy results false) (mkPool queue busy results true)
| step_stop i queue busy results : step (mkPool (i :: queue) busy results true) (mkPool [] busy results true).
Definition start_pool : pool := mkPool (seq 0 (length required)) [] [] false.
Definition finished (p : pool) : Prop := wk_queue p = [] /\ wk_busy p = [].
End Workers.
(** A single worker, as on a router, whose context does not end. *)
Fixpoint oneWorker (index : nat) (required : list RouteProof) : K -> K * list collectedRoute := fun k =>
  match required with
  | [] => (k, [])
  | r :: rest =>
      let '(k, item) := collectRoute index r k in
      if failed item then (k, [item]) else let '(k, items) := oneWorker (S index) rest k in (k, item :: items)
  end.
Definition zero_collected : collectedRoute := mkCollected 0 (mkProof "" "" "" 0 0 false false false false false false false false "") (Err "").
(** What [collectRoutes] makes of the items, in the order they arrive. *)
Definition gather (required : list RouteProof) (arrived : list collectedRoute) : result (list collectedRoute) :=
  match first failed arrived with
  | Some item => match ct_result item with Err e => Err e | Ok _ => Err "" end
  | None =>
      if (length arrived =? length required)%nat then Ok (fold_left (fun ordered item => <[ct_index item := item]> ordered) arrived (replicate (length required) zero_collected))
      else Err "data-plane evidence collection was interrupted"
  end.

(** ** The report *)

Definition emptyReport (now : time) : Report := mkReport (o_Binding o) (o_ManifestHash o) true true false [] now.
Definition addRoute (rep : Report) (item : collectedRoute) : Report :=
  match ct_result item with
  | Err _ => rep
  | Ok proof =>
      let required := ct_required item in
      let dns := rp_RequiresDNS required && ((ev_DNSResolver proof =s "") || (ev_DNSProtocol proof =s "") || negb (isIP (ev_ResolvedIP proof))) in
      let drop := rp_Type required =s "drop" in
      mkReport (rep_Binding rep) (rep_ArtifactManifestHash rep) (if dns then false else rep_DNSLeakFree rep)
        (if drop then rep_IPv6LeakFree rep && ev_DropIPv6Enforced proof
         else if rp_RequiresIPv6 required then rep_IPv6LeakFree rep && ev_IPv6Verified proof else rep_IPv6LeakFree rep)
        (if drop then rep_GeoLockedKillSwitch rep || (ev_DropIPv4Enforced proof && ev_DropIPv6Enforced proof && ev_DropDNSEnforced proof)
         else rep_GeoLockedKillSwitch rep)
        (rep_Routes rep ++ [proof]) (rep_CheckedAt rep)
  end.

(** The plan on disk, the clock, the workers on the network, and files. *)
Context (readPlan : string -> io K VerificationPlan) (now : K -> K * time) (workers : list RouteProof -> Z -> K -> K * list collectedRoute).
Context (MkdirAll : string -> io K unit) (CreateTemp : string -> io K string) (Chmod : string -> Z -> io K unit) (Write : string -> string -> io K unit)
        (Sync Close Remove : string -> io K unit) (Rename : string -> string -> io K unit) (encode : Report -> string).

Definition orClose (tmp : string) (m : io K unit) : io K unit := fun k =>
  match m k with (k, Err e) => ((ignore (Close tmp) k).1, Err e) | r => r end.
(** [defer os.Remove(tmp)]. *)
Definition removing (tmp : string) (m : io K unit) : io K unit := fun k => let '(k, r) := m k in ((ignore (Remove tmp) k).1, r).
Definition writeAtomicJSON (path : string) (value : Report) : io K unit :=
  _ ← MkdirAll (Filepath.Dir path);
  tmp ← CreateTemp (Filepath.Dir path);
  removing tmp (
    _ ← orClose tmp (Chmod tmp 384);
    _ ← orClose tmp (Write tmp (encode value));
    _ ← orClose tmp (Sync tmp);
    _ ← Close tmp;
    Rename tmp path).
Definition collectRoutes (required : list RouteProof) (parallelism : Z) : io K (list collectedRoute) :=
  if (length required =? 0)%nat then mret []
  else fun k => let '(k, arrived) := workers required parallelism k in (k, gather required arrived).
Definition Collect : io K Report :=
  let binding := o_Binding o in
  if (o_PlanPath o =s "") || (o_OutputPath o =s "") then fail "config, prober, plan and output are required"
  else if (b_TransactionID binding =s "") || (b_RevisionID binding =s "") || (b_CandidateHash binding =s "") || (o_ManifestHash o =s "")
  then fail "complete evidence binding is required"
  else
    plan ← readPlan (o_PlanPath o);
    plan ← lift (checkVerificationPlan plan binding);
    checkedAt ← (fun k => let '(k, t) := now k in (k, Ok t));
    let required := vp_RequiredRouteProof plan in
    let parallelism := if o_Parallelism o <=? 0 then ParallelServerChecks (c_Policy (o_Config o)) else o_Parallelism o in
    collected ← collectRoutes required (routeProofParallelism (o_Config o) parallelism (length required));
    let report := fold_left addRoute collected (emptyReport checkedAt) in
    _ ← lift (VerifyReport plan report binding (o_ManifestHash o));
    _ ← writeAtomicJSON (o_OutputPath o) report;
    mret report.
End Collect.

(** ** The target is the best, whatever the order of the services *)

#[export] Instance StrictWeak_targetLess : StrictWeak targetLess.
Proof. apply StrictWeak_then_by; auto with flint. Qed.
Lemma targetOf_Some cfg route name s t : targetOf cfg route (name, s) = Some t ->
  pt_name t = name /\ pt_service t = s /\ head (s_Domains s) = Some (pt_domain t) /\ PathAllowed s route (c_Policy cfg) = true
  /\ (r_Type route <> "drop" -> s_ProbeURLs s <> []).
Proof.
  unfold targetOf. destruct (s_Domains s) as [|d ds]; [done|]. destruct (PathAllowed s route (c_Policy cfg)) eqn:E; [|done]. cbn [negb].
  destruct ((_ <>s _) && _) eqn:E2; [done|]. intros [= <-]. split_and!; try done. intros HT HU. rewrite HU in E2. cbn in E2.
  rewrite (proj2 (String.eqb_neq _ _) HT) in E2. done.
Qed.
Lemma targets_names `{MapIterLaws Service} cfg route x y : x ∈ omap (targetOf cfg route) (iter (c_Services cfg)) ->
  y ∈ omap (targetOf cfg route) (iter (c_Services cfg)) -> targetLess x y = false -> targetLess y x = false -> x = y.
Proof.
  intros ([n s] & Hx & Tx)%list_elem_of_omap ([n' s'] & Hy & Ty)%list_elem_of_omap H1 H2.
  assert (HN : n = n').
  { destruct (targetOf_Some _ _ _ _ _ Tx) as (<- & _). destruct (targetOf_Some _ _ _ _ _ Ty) as (<- & _).
    unfold targetLess, then_by, same_z, key_gt, key_slt in *. rewrite (Z.eqb_sym (pt_score y)) in H2.
    destruct (pt_score x =? pt_score y) eqn:E; [by apply ltb_total|]. apply Z.eqb_neq in E. lia. }
  subst n'. apply elem_of_iter in Hx, Hy. congruence.
Qed.
Lemma selectProbeTarget_best `{MapIterLaws Service} cfg route t : selectProbeTarget cfg route = Ok t ->
  c_Services cfg !! pt_name t = Some (pt_service t) /\ head (s_Domains (pt_service t)) = Some (pt_domain t)
  /\ PathAllowed (pt_service t) route (c_Policy cfg) = true /\ (r_Type route <> "drop" -> s_ProbeURLs (pt_service t) <> [])
  /\ forall name s t', c_Services cfg !! name = Some s -> targetOf cfg route (name, s) = Some t' -> targetLess t' t = false.
Proof.
  unfold selectProbeTarget. destruct (gosort _ _) as [|t0 rest] eqn:E; [done|]. intros [= ->].
  assert (HI : t ∈ omap (targetOf cfg route) (iter (c_Services cfg))) by (rewrite <- (gosort_perm targetLess), E; left).
  apply list_elem_of_omap in HI as ([n s] & HI & HT). destruct (targetOf_Some _ _ _ _ _ HT) as (<- & <- & HD & HP & HU). apply elem_of_iter in HI.
  split_and!; try done. intros name s t' HS HT'. apply (gosort_head_min targetLess _ _ _ t' E). apply list_elem_of_omap. exists (name, s). split; [|done].
  by apply elem_of_iter.
Qed.
(** Go walks the services in any order; the target is the same. *)
Lemma selectProbeTarget_order (i j : MapIter Service) cfg route : @MapIterLaws Service i -> @MapIterLaws Service j ->
  @selectProbeTarget i cfg route = @selectProbeTarget j cfg route.
Proof.
  intros Hi Hj. unfold selectProbeTarget. f_equal.
  rewrite (gosort_unique targetLess (omap (targetOf cfg route) (@iter Service i (c_Services cfg))) (omap (targetOf cfg route) (@iter Service j (c_Services cfg)))); [done| |].
  - intros x y Hx Hy. by apply (targets_names (H := i) cfg route).
  - apply omap_Permutation. by rewrite (@iter_perm _ i Hi), (@iter_perm _ j Hj).
Qed.

(** ** What one route gives *)

Section Proofs.
Context `{MapIterLaws Service} (o : Options) {K : Type}.
Context (probe : Z -> string -> string -> Service -> Route -> K -> K * (ProbeResult * bool)).

(** [proof] was made for what [required] asks, by a probe of an allowed service on the
    route, whose path was verified. *)
Record proved (required : RouteProof) (proof : evidenceResult) : Prop := {
  pv_valid : ValidateRouteProof required proof (o_Binding o) (o_ManifestHash o) = Ok ();
  pv_probed : exists route target k answer, RouteByTag (o_Config o) (rp_Tag required) = Some route /\ r_Type route = rp_Type required
    /\ selectProbeTarget (o_Config o) route = Ok target
    /\ (probe (routeProbeTimeout o) (pt_domain target) (pt_name target) (pt_service target) route k).2 = (answer, false)
    /\ pr_PathVerified answer = true /\ pr_PathEvidence answer = Some proof
}.
Lemma collectRoute_proved index required k proof : ct_result (collectRoute o probe index required k).2 = Ok proof -> proved required proof.
Proof.
  unfold collectRoute. cbv zeta. destruct (RouteByTag _ _) as [route|] eqn:ER; [|done]. destruct (r_Type route <>s _) eqn:ET; [done|].
  apply negb_false_iff, String.eqb_eq in ET. destruct (selectProbeTarget _ _) as [target|] eqn:ES; [|done].
  destruct (probe _ _ _ _ _ k) as [k' [answer late]] eqn:EP. cbn [snd ct_result]. unfold judgeProbe. destruct late; [done|].
  destruct (pr_PathVerified answer) eqn:EV; [|done]. destruct (pr_PathEvidence answer) as [p|] eqn:EE; [|done].
  destruct (ValidateRouteProof _ p _ _) as [[]|] eqn:EX; [|done]. intros [= ->]. split; [done|]. exists route, target, k, answer. by rewrite EP.
Qed.
Lemma collectRoute_index index required k : ct_index (collectRoute o probe index required k).2 = index /\ ct_required (collectRoute o probe index required k).2 = required.
Proof.
  unfold collectRoute. cbv zeta. destruct (RouteByTag _ _); [|done]. destruct (_ <>s _); [done|]. destruct (selectProbeTarget _ _); [|done].
  by destruct (probe _ _ _ _ _ k) as [k' [answer late]].
Qed.
End Proofs.

(** ** The workers lose nothing *)

Section Running.
Context `{MapIterLaws Service} (o : Options) {K : Type}.
Context (probe : Z -> string -> string -> Service -> Route -> K -> K * (ProbeResult * bool)) (required : list RouteProof) (parallelism : Z).
Notation step := (step o probe required parallelism).
Notation start := (start_pool required).

Definition stepsLeft (p : pool) : nat := (2 * length (wk_queue p) + length (wk_busy p) + if wk_cancelled p then 0 else 1)%nat.
Definition handed (item : collectedRoute) : Prop :=
  exists r k, required !! ct_index item = Some r /\ item = (collectRoute o probe (ct_index item) r k).2.
Record pool_ok (p : pool) : Prop := {
  po_bounded : Z.of_nat (length (wk_busy p)) <= Z.max 0 parallelism;
  po_jobs : exists dropped, dropped ++ wk_queue p ++ wk_busy p ++ map ct_index (wk_results p) ≡ₚ seq 0 (length required);
  po_results : Forall handed (wk_results p)
}.
Lemma step_left p p' : step p p' -> (stepsLeft p' < stepsLeft p)%nat.
Proof.
  intros Hs. destruct Hs as [i queue busy results c Hlt|queue before i after results c r k Hr item|queue busy results|i queue busy results];
    unfold stepsLeft; cbn [wk_queue wk_busy wk_cancelled]; rewrite ?length_app; cbn [length]; try lia. destruct c; cbn; [lia|]. destruct (failed item); lia.
Qed.
Lemma workers_step_ok p p' : step p p' -> pool_ok p -> pool_ok p'.
Proof.
  intros Hs [B (d & J) R]. destruct Hs as [i queue busy results c Hlt|queue before i after results c r k Hr item|queue busy results|i queue busy results];
    cbn [wk_queue wk_busy wk_results] in *.
  - split; cbn; [rewrite length_app; cbn; lia| |done]. exists d. rewrite <- J. f_equiv. cbn. rewrite <- app_assoc. cbn. by rewrite <- !Permutation_middle.
  - subst item. destruct (collectRoute_index o probe i r k) as [HI _]. split; cbn.
    + rewrite length_app in *. cbn in *. lia.
    + exists d. rewrite <- J, map_app. cbn. rewrite HI. f_equiv. f_equiv. rewrite <- !app_assoc. f_equiv. cbn. rewrite app_assoc, (Permutation_app_comm _ [i]). done.
    + apply Forall_app. split; [done|]. constructor; [|constructor]. exists r, k. by rewrite HI.
  - split; [done|by exists d|done].
  - split; cbn; [done| |done]. exists (d ++ i :: queue). by rewrite <- app_assoc.
Qed.
Lemma workers_start_ok : pool_ok start.
Proof. split; cbn; [lia|exists []; by rewrite app_nil_r|constructor]. Qed.
Lemma workers_progress (k : K) p : 0 < parallelism -> pool_ok p -> finished p \/ exists p', step p p'.
Proof.
  intros HP [_ (d & J) _]. destruct p as [queue [|i busy] results c]; cbn in *.
  - destruct queue as [|i queue]; [by left|]. right. eexists. apply step_take. cbn. lia.
  - assert (HI : i ∈ seq 0 (length required)) by (rewrite <- J, !elem_of_app, elem_of_cons; tauto). apply elem_of_seq in HI.
    destruct (lookup_lt_is_Some_2 required i ltac:(lia)) as [r Hr]. right. eexists. exact (step_probe o probe required parallelism queue [] i busy results c r k Hr).
Qed.
Lemma workers_ok p : rtc step start p -> pool_ok p.
Proof. intros HR. remember start as p0 eqn:E. assert (HS : pool_ok p0) by (subst; apply workers_start_ok). clear E. induction HR; eauto using workers_step_ok. Qed.
Lemma run_bound n p : nsteps step n start p -> (n + stepsLeft p <= 2 * length required + 1)%nat.
Proof.
  assert (HG : forall q, nsteps step n q p -> (n + stepsLeft p <= stepsLeft q)%nat).
  { induction n as [|n IH]; intros q Hq; inversion Hq as [|? ? q1 ? Hs Hn]; subst; [lia|]. specialize (IH _ Hn). pose proof (step_left _ _ Hs). lia. }
  intros Hn%HG. unfold stepsLeft at 2 in Hn. cbn [start_pool wk_queue wk_busy wk_cancelled length] in Hn. rewrite length_seq in Hn. lia.
Qed.

(** *** The results in their order *)

Lemma fold_insert_length (arrived l : list collectedRoute) : length (fold_left (fun l item => <[ct_index item := item]> l) arrived l) = length l.
Proof. revert l. induction arrived as [|x arrived IH]; intros l; cbn; [done|]. by rewrite IH, length_insert. Qed.
Lemma fold_insert_lookup (arrived : list collectedRoute) : forall l item, NoDup (map ct_index arrived) -> item ∈ arrived -> (ct_index item < length l)%nat ->
  fold_left (fun l item => <[ct_index item := item]> l) arrived l !! ct_index item = Some item.
Proof.
  assert (HO : forall arrived (l : list collectedRoute) j, j ∉ map ct_index arrived -> fold_left (fun l item => <[ct_index item := item]> l) arrived l !! j = l !! j).
  { clear. induction arrived as [|x arrived IH]; intros l j HN; cbn; [done|]. cbn in HN. rewrite not_elem_of_cons in HN. destruct HN as [H1 H2].
    rewrite IH by done. by apply list_lookup_insert_ne. }
  induction arrived as [|x arrived IH]; intros l item HD HI HL; [by apply elem_of_nil in HI|]. cbn in HD |- *. apply NoDup_cons in HD as [HX HD].
  apply elem_of_cons in HI as [->|HI]; [rewrite HO by done; by apply list_lookup_insert_eq|]. apply IH; [done|done|by rewrite length_insert].
Qed.
Lemma gather_all p items : pool_ok p -> finished p -> gather required (wk_results p) = Ok items ->
  Forall2 (fun r item => ct_required item = r /\ exists proof, ct_result item = Ok proof /\ proved o probe r proof) required items.
Proof.
  intros [_ (d & J) R] [HQ HB] HG. rewrite HQ, HB in J. cbn in J. unfold gather in HG. destruct (first failed _) as [x|] eqn:EF; [by destruct (ct_result x)|].
  destruct (_ =? _)%nat eqn:EL; [|done]. injection HG as <-. apply Nat.eqb_eq in EL.
  assert (HP : map ct_index (wk_results p) ≡ₚ seq 0 (length required)).
  { destruct d as [|y d]; [done|]. apply Permutation_length in J. rewrite !length_app, length_map, length_seq, EL in J. cbn in J. lia. }
  apply Forall2_same_length_lookup. rewrite fold_insert_length, length_replicate. split; [done|]. intros i r item Hr Hi.
  assert (HI : i ∈ map ct_index (wk_results p)) by (rewrite HP; apply elem_of_seq; apply lookup_lt_Some in Hr; lia).
  apply list_elem_of_In, in_map_iff in HI as (it & HE & HI). apply list_elem_of_In in HI. subst i.
  rewrite fold_insert_lookup in Hi; [|by rewrite HP; apply NoDup_seq|done|rewrite length_replicate; by apply lookup_lt_Some in Hr].
  injection Hi as <-. rewrite Forall_forall in R. destruct (R it HI) as (r' & k & Hr' & E). rewrite Hr in Hr'. injection Hr' as <-.
  pose proof (first_None _ _ _ EF HI) as HF. unfold failed in HF. destruct (ct_result it) as [proof|] eqn:EP; [|done]. split.
  - rewrite E. apply collectRoute_index.
  - exists proof. split; [done|]. rewrite E in EP. by eapply collectRoute_proved.
Qed.
End Running.

(** A worker alone is a run of the workers. *)
Lemma oneWorker_run `{MapIterLaws Service} (o : Options) {K : Type} (probe : Z -> string -> string -> Service -> Route -> K -> K * (ProbeResult * bool)) required parallelism k :
  0 < parallelism -> exists p, rtc (step o probe required parallelism) (start_pool required) p /\ finished p /\ (oneWorker o probe 0 required k).2 = wk_results p.
Proof.
  intros HP.
  assert (HG : forall rest before results k, required = before ++ rest -> exists p,
    rtc (step o probe required parallelism) (mkPool (seq (length before) (length rest)) [] results false) p /\ finished p
    /\ wk_results p = results ++ (oneWorker o probe (length before) rest k).2).
  { induction rest as [|r rest IH]; intros before results k1 E; cbn [seq length oneWorker].
    - eexists. split; [apply rtc_refl|]. by rewrite app_nil_r.
    - assert (Hr : required !! length before = Some r) by (rewrite E; by apply list_lookup_middle).
      destruct (collectRoute o probe (length before) r k1) as [k2 item] eqn:EC.
      assert (H1 : rtc (step o probe required parallelism) (mkPool (length before :: seq (S (length before)) (length rest)) [] results false)
        (mkPool (seq (S (length before)) (length rest)) [] (results ++ [item]) (failed item))).
      { eapply rtc_l; [apply step_take; cbn; lia|]. apply rtc_once.
        pose proof (step_probe o probe required parallelism (seq (S (length before)) (length rest)) [] (length before) [] results false r k1 Hr) as HS.
        cbv zeta in HS. by rewrite EC in HS. }
      destruct (failed item) eqn:EF.
      + exists (mkPool [] [] (results ++ [item]) true). split; [|by split]. destruct (seq (S (length before)) (length rest)) as [|i queue]; [exact H1|].
        eapply rtc_r; [exact H1|apply step_stop].
      + destruct (IH (before ++ [r]) (results ++ [item]) k2) as (p & H2 & HF & HR); [by rewrite <- app_assoc|].
        rewrite length_app, Nat.add_1_r in H2, HR. exists p. split; [by etransitivity|]. split; [done|]. rewrite HR, <- app_assoc.
        by destruct (oneWorker o probe (S (length before)) rest k2). }
  destruct (HG required [] [] k eq_refl) as (p & H1 & H2 & H3). by exists p.
Qed.
Lemma routeProofParallelism_positive cfg requested n : 0 < routeProofParallelism cfg requested n <= 4.
Proof.
  unfold routeProofParallelism. destruct (n =? 0)%nat eqn:E; [lia|]. apply Nat.eqb_neq in E. destruct (_ <>s _); [lia|]. cbv zeta.
  repeat match goal with |- context [if ?b then _ else _] => lazymatch b with context [if _ then _ else _] => fail | _ => destruct b eqn:? end end; lia.
Qed.

(** ** The stored report *)

(** What the flags of the report say of one route. *)
Definition flagged (rep : Report) (r : RouteProof) (proof : evidenceResult) : Prop :=
  (rep_DNSLeakFree rep = true -> rp_RequiresDNS r = true -> ev_DNSResolver proof <> "" /\ ev_DNSProtocol proof <> "" /\ isIP (ev_ResolvedIP proof) = true)
  /\ (rep_IPv6LeakFree rep = true -> if rp_Type r =s "drop" then ev_DropIPv6Enforced proof = true else rp_RequiresIPv6 r = true -> ev_IPv6Verified proof = true).
Definition proofOf (item : collectedRoute) : option evidenceResult := match ct_result item with Ok proof => Some proof | Err _ => None end.
Lemma addRoute_flags rep item proof : ct_result item = Ok proof ->
  flagged (addRoute rep item) (ct_required item) proof
  /\ (rep_DNSLeakFree (addRoute rep item) = true -> rep_DNSLeakFree rep = true) /\ (rep_IPv6LeakFree (addRoute rep item) = true -> rep_IPv6LeakFree rep = true)
  /\ rep_Routes (addRoute rep item) = rep_Routes rep ++ [proof].
Proof.
  intros E. unfold addRoute, flagged. rewrite E. cbn [rep_DNSLeakFree rep_IPv6LeakFree rep_Routes]. split_and!.
  - intros HF HD. rewrite HD in HF. cbn [andb] in HF. destruct (_ || _ || _) eqn:EB; [done|]. bool_split. str_eq. done.
  - intros HF. destruct (rp_Type (ct_required item) =s "drop"); [by apply andb_true_iff in HF as [_ ?]|]. intros H6. rewrite H6 in HF. by apply andb_true_iff in HF as [_ ?].
  - by destruct (_ && _).
  - intros HF. destruct (_ =s _); [by apply andb_true_iff in HF as [? _]|]. destruct (rp_RequiresIPv6 _); [by apply andb_true_iff in HF as [? _]|done].
  - done.
Qed.
Lemma addRoute_all items : forall rep required, Forall2 (fun r item => ct_required item = r /\ exists proof, ct_result item = Ok proof) required items ->
  let final := fold_left addRoute items rep in
  exists proofs, rep_Routes final = rep_Routes rep ++ proofs /\ Forall2 (fun item proof => ct_result item = Ok proof) items proofs
  /\ Forall2 (flagged final) required proofs
  /\ (rep_DNSLeakFree final = true -> rep_DNSLeakFree rep = true) /\ (rep_IPv6LeakFree final = true -> rep_IPv6LeakFree rep = true).
Proof.
  induction items as [|item items IH]; intros rep required HF; inversion HF as [|r ? rs ? [HR (proof & HP)] HF']; subst; cbn [fold_left].
  - exists []. rewrite app_nil_r. by repeat constructor.
  - destruct (addRoute_flags rep item proof HP) as ([HD H6] & HD' & H6' & HR). destruct (IH (addRoute rep item) rs HF') as (proofs & E & HI & HG & K1 & K2).
    exists (proof :: proofs). split_and!; [by rewrite E, HR, <- app_assoc|by constructor| |by auto|by auto].
    constructor; [|done]. split; intros Hfinal; [by apply HD, K1|by apply H6, K2].
Qed.

Section Stored.
Context `{MapIterLaws Service} (o : Options) {K : Type}.
Context (probe : Z -> string -> string -> Service -> Route -> K -> K * (ProbeResult * bool)).
Context (readPlan : string -> io K VerificationPlan) (now : K -> K * time) (workers : list RouteProof -> Z -> K -> K * list collectedRoute).
Context (MkdirAll : string -> io K unit) (CreateTemp : string -> io K string) (Chmod : string -> Z -> io K unit) (Write : string -> string -> io K unit)
        (Sync Close Remove : string -> io K unit) (Rename : string -> string -> io K unit) (encode : Report -> string).
(** The workers are a run of the transition system that came to its end. *)
Hypothesis workers_run : forall required parallelism k, 0 < parallelism -> exists p,
  rtc (step o probe required parallelism) (start_pool required) p /\ finished p /\ (workers required parallelism k).2 = wk_results p.

Lemma collectRoutes_proved required parallelism k k' items : 0 < parallelism -> collectRoutes workers required parallelism k = (k', Ok items) ->
  Forall2 (fun r item => ct_required item = r /\ exists proof, ct_result item = Ok proof /\ proved o probe r proof) required items.
Proof.
  intros HP. unfold collectRoutes. destruct (length required =? 0)%nat eqn:E.
  - apply Nat.eqb_eq, length_zero_iff_nil in E as ->. intros [_ ->]%ret_ran. constructor.
  - destruct (workers_run required parallelism k HP) as (p & HR & HF & HW). destruct (workers required parallelism k) as [k1 arrived]. cbn in HW. subst arrived.
    intros [= _ HG]. eapply gather_all; [by eapply workers_ok|done|done].
Qed.
(** C27: Evidence that is stored was proved: every route the plan requires has, in its
    place, a proof that meets the requirement and is bound to the deployment, made by a
    probe through a service that allows the route, whose path the verifier confirmed in
    time; the flags of the report hold for every route; and whoever loads the report
    with the plan accepts it. *)
Theorem stored_evidence_was_proved k k' report :
  Collect o readPlan now workers MkdirAll CreateTemp Chmod Write Sync Close Remove Rename encode k = (k', Ok report) ->
  exists plan, (readPlan (o_PlanPath o) k).2 = Ok plan
  /\ LoadAndVerify plan report (o_Binding o) (o_ManifestHash o) = Ok report
  /\ Forall2 (fun r proof => proved o probe r proof /\ flagged report r proof) (vp_RequiredRouteProof plan) (rep_Routes report).
Proof.
  unfold Collect. cbv zeta. destruct (_ || _); [done|]. destruct (_ || _ || _ || _); [done|]. intros HC. run_steps HC.
  apply ret_ran in HC as [_ ->]. apply lift_ran in G0 as [-> HB]. exists x. rewrite G. split; [done|].
  assert (x0 = x) as -> by (unfold checkVerificationPlan in HB; destruct (bool_decide _); [by injection HB|done]).
  apply lift_ran in G3 as [_ HV]. destruct x3 as [].
  split; [unfold LoadAndVerify; rewrite HB; cbn [mbind result_bind]; by rewrite HV|].
  apply collectRoutes_proved in G2; [|apply routeProofParallelism_positive].
  destruct (addRoute_all x2 (emptyReport o x1) (vp_RequiredRouteProof x)) as (proofs & E & HI & HF & _).
  { eapply Forall2_impl; [exact G2|]. intros r item (HR & proof & HP & _). eauto. }
  rewrite E. cbn [emptyReport rep_Routes app]. clear E G HB HV. set (final := fold_left _ _ _) in *. clearbody final. revert G2 proofs HI HF. generalize (vp_RequiredRouteProof x) as required. intros required G2.
  induction G2 as [|r item rs items (HR & proof & HP & HQ) HF2 IH]; intros proofs HI HF; inversion HI as [|? p ? ps H1 H2]; subst; [constructor|].
  inversion HF as [|? ? ? ? H3 H4]; subst. constructor; [|by apply IH]. rewrite HP in H1. by injection H1 as <-.
Qed.
End Stored.

(** ** A report of a small deployment *)

Module CollectorExample.
Definition service : Service := mkService "DIRECT_ONLY" "" ["bank.example"] ["direct"; "drop"] [] "" false
  [Build_ProbeCheck "home" "https://bank.example/" true [200] "optional" [] [] [] false].
Definition blocked : Service := mkService "GEO_LOCKED" "" ["video.example"] ["drop"] [] "" false [].
Definition config : Config :=
  Build_Config 0 (mkPlatform "openwrt" false false "") zero_Storage
    ex_health_policy zero_Xray zero_Zapret zero_GeoIP
    (mkOpenWrt "" "" "" "" 0 0 0) [mkRoute "direct" "direct" 10 false "" "" false "" false; mkRoute "drop" "drop" 100 false "" "" false "" false]
    {["bank" := service; "video" := blocked]} [] zero_Notifications [].
Definition binding : Binding := mkBinding "tx_1" "rev_1" "sha256:candidate".
Definition options : Options := mkOptions config "/plan.json" "/evidence.json" binding "sha256:manifest" 0 0.
Definition requires (tag : string) (dns ipv6 : bool) : RouteProof := mkProof tag tag "" 0 0 dns false ipv6 false false false false false "".
Definition plan : VerificationPlan := mkVerificationPlan binding [requires "direct" true true; requires "drop" false false] true true false.
Definition evidence (tag : string) : evidenceResult :=
  zero_evidenceResult |> set_ev_Status "OK" |> set_ev_RouteTag tag |> set_ev_RouteType tag |> set_ev_AdapterRevision "rev_1"
    |> set_ev_CandidateHash "sha256:candidate" |> set_ev_ArtifactManifestHash "sha256:manifest" |> set_ev_CheckedAt second |> set_ev_EvidenceSource "kernel"
    |> set_ev_ReasonCode "ok" |> set_ev_Interface "wan" |> set_ev_DNSResolver "192.0.2.53" |> set_ev_DNSProtocol "udp" |> set_ev_ResolvedIP "192.0.2.1"
    |> set_ev_ConnectedIP "192.0.2.1" |> set_ev_HTTPResult "OK" |> set_ev_ContentResult "OK" |> set_ev_IPv6Verified true
    |> set_ev_DirectBypassXray true |> set_ev_DirectBypassZapret true |> set_ev_InheritedMarkCleared true
    |> set_ev_DropIPv4Enforced true |> set_ev_DropIPv6Enforced true |> set_ev_DropDNSEnforced true.
(** The probes are counted; files are not kept. *)
Definition probe (timeout : Z) (domain name : string) (s : Service) (route : Route) : nat -> nat * (ProbeResult * bool) := fun k =>
  (S k, (zero_ProbeResult |> set_pr_Status "OK" |> set_pr_PathVerified true |> set_pr_PathEvidence (Some (evidence (r_Tag route))), false)).
Definition done1 (a : string) : io nat unit := mret ().
Definition done2 {A} (a : string) (b : A) : io nat unit := mret ().
Definition readPlan (path : string) : io nat VerificationPlan := mret plan.
Definition workers (required : list RouteProof) (parallelism : Z) : nat -> nat * list collectedRoute := oneWorker options probe 0 required.
Definition collect : nat -> nat * result Report :=
  Collect options readPlan (fun k => (k, second)) workers done1 (fun d => mret (d +:+ "/.tmp")) done2 done2 done1 done1 done1 done2 (fun _ => "").
Definition stored : Report := mkReport binding "sha256:manifest" true true true [evidence "direct"; evidence "drop"] second.

Example ex_collect : collect 0%nat = (2%nat, Ok stored).
Proof. vm_compute. reflexivity. Qed.
Lemma stored_evidence_was_proved_witness :
  Forall2 (fun r proof => proved options probe r proof /\ flagged stored r proof) [requires "direct" true true; requires "drop" false false]
    [evidence "direct"; evidence "drop"].
Proof.
  destruct (stored_evidence_was_proved options probe readPlan (fun k => (k, second)) workers done1 (fun d => mret (d +:+ "/.tmp")) done2 done2 done1 done1 done1 done2
    (fun _ => "") (fun required parallelism k => oneWorker_run options probe required parallelism k) 0%nat 2%nat stored ex_collect) as (p & HP & _ & HF).
  injection HP as <-. exact HF.
Defined.
(** A service that must go direct is not used for another route; a probe that is late
    proves nothing. *)
Example ex_target : match selectProbeTarget config (mkRoute "drop" "drop" 100 false "" "" false "" false) with Ok t => pt_name t = "video" | Err _ => False end.
Proof. vm_compute. reflexivity. Qed.
Example ex_late_probe : ct_result (collectRoute options (fun _ _ _ _ _ k => (k, (zero_ProbeResult, true))) 0 (requires "direct" true true) 0%nat).2
  = Err "route direct probe exceeded overall timeout".
Proof. vm_compute. reflexivity. Qed.
End CollectorExample.
