(* ===== verification/Subscription.v ===== *)
(** * VPN subscriptions: from a provider's document to an Xray configuration

    [internal/vpnsub/vpnsub.go] and the inventory helpers of [pool.go] it calls.  A
    subscription is JSON text of a provider.  Its outbounds are decoded twice: into the
    struct [outbound], on which [validateVLESSOutbound] decides, and, as raw members,
    into the canonical object that is written to the configuration.  A
    [json.RawMessage] is the value it holds ([JText.jtext]); blanks and the
    spelling of escapes inside it are not kept.

    [encoding/json] is modelled as far as it is used here: members that name a field
    in any case, the merging of repeated members into one struct, and the elements a
    slice keeps behind its length when it is decoded into again. *)
From Stdlib Require Import ZArith Lia SpecFloat.
From stdpp Require Import base list strings pretty gmap.
From S2P Require Import Prelude Effects Float64 Net Json JsonText.

Open Scope Z_scope.

(** ** Decoding JSON *)

Module GoJSON.
Import JText.

(** *** Numbers *)

(** The digits of a literal without sign and exponent, and how many of them stand
    behind the point. *)
Definition mantissa (s : string) : Z * Z :=
  match Net.cutFirst (Ascii.ascii_of_N 46) s with
  | Some (whole, fraction) => (dec_value 0 (whole +:+ fraction), S.len fraction)
  | None => (dec_value 0 s, 0)
  end.
Definition exponentOf (s : string) : Z :=
  match s with
  | String c rest => if S.is_byte 45 c then - dec_value 0 rest else if S.is_byte 43 c then dec_value 0 rest else dec_value 0 s
  | EmptyString => 0
  end.
Definition cutExponent (s : string) : string * Z :=
  match Net.cutFirst (Ascii.ascii_of_N 101) (S.ToLower s) with
  | Some (m, e) => (m, exponentOf e)
  | None => (s, 0)
  end.
(** The nearest value to [m * 10^k], ties to even. *)
Definition roundDecimal (negative : bool) (m k : Z) : spec_float :=
  if m =? 0 then S754_zero negative
  else if 0 <=? k then binary_normalize F.prec F.emax (if negative then - (m * 10 ^ k) else m * 10 ^ k) 0 negative
  else
    let '(q, e, loc) := SFdiv_core_binary F.prec F.emax m 0 (10 ^ (- k)) 0 in
    binary_round_aux F.prec F.emax negative q e loc.
(** [strconv.ParseFloat] of a JSON number; [None] when it is out of range. *)
Definition ParseFloat (literal : string) : option spec_float :=
  let '(negative, s) := match literal with String c rest => if S.is_byte 45 c then (true, rest) else (false, literal) | EmptyString => (false, literal) end in
  let '(digits, e) := cutExponent s in
  let '(m, behind) := mantissa digits in
  match roundDecimal negative m (e - behind) with
  | S754_infinity _ => None
  | x => Some x
  end.

(** *** Maps and [any] *)

(** A map decoded from an object: the last member of a name stays. *)
Definition collect {A} (members : list (string * A)) : list (string * A) :=
  fold_left (fun acc m => setMember m.1 m.2 acc) members [].

Fixpoint toAny (v : jtext) : result json :=
  match v with
  | TNull => Ok JNull
  | TBool b => Ok (JBool b)
  | TNum literal => match ParseFloat literal with Some x => Ok (JNum x) | None => Err "number out of range" end
  | TStr s => Ok (JStr s)
  | TArr items =>
      l ← (fix go (l : list jtext) : result (list json) :=
             match l with [] => Ok [] | x :: rest => y ← toAny x; ys ← go rest; Ok (y :: ys) end) items;
      Ok (JArr l)
  | TObj members =>
      l ← (fix go (l : list (string * jtext)) : result (list (string * json)) :=
             match l with [] => Ok [] | m :: rest => y ← toAny m.2; ys ← go rest; Ok ((m.1, y) :: ys) end) members;
      Ok (JObj (collect l))
  end.

(** [map[string]json.RawMessage]; [None] is the nil map. *)
Definition rawObject (v : jtext) : result (option (list (string * jtext))) :=
  match v with
  | TObj members => Ok (Some (collect members))
  | TNull => Ok None
  | _ => Err "cannot unmarshal into a map"
  end.
Definition entries {A} (m : option (list (string * A))) : list (string * A) := default [] m.
(** [json.Unmarshal(m[key], &target)]: an absent member is no JSON text. *)
Definition unmarshalAt {A} (decode : jtext -> result A) (key : string) (m : list (string * jtext)) : result A :=
  match member key m with Some v => decode v | None => Err "unexpected end of JSON input" end.

(** *** Structs and slices *)

(** A field of a struct type: [null] leaves it, each object is merged into it. *)
Definition structField {A} (decode : A -> list (string * jtext) -> result A) (current : A) (v : jtext) : result A :=
  match v with TObj members => decode current members | TNull => Ok current | _ => Err "cannot unmarshal into a struct" end.
Fixpoint fieldValues {A} (decode : A -> jtext -> result A) (current : A) (values : list jtext) : result A :=
  match values with [] => Ok current | v :: rest => next ← decode current v; fieldValues decode next rest end.

(** A slice: its elements, and the elements of the array behind its length. *)
Record slice A := mkSlice { elements_of : list A; beyond : list A }.
Arguments mkSlice {A}. Arguments elements_of {A}. Arguments beyond {A}.
Definition nil_slice {A} : slice A := mkSlice [] [].
(** Items are decoded over the elements the array holds, then over zero values. *)
Fixpoint decodeItems {A} (zero : A) (decode : A -> jtext -> result A) (array : list A) (items : list jtext) : result (list A * list A) :=
  match items with
  | [] => Ok ([], array)
  | v :: rest =>
      x ← decode (match array with a :: _ => a | [] => zero end) v;
      '(xs, behind) ← decodeItems zero decode (tail array) rest;
      Ok (x :: xs, behind)
  end.
Definition sliceField {A} (zero : A) (decode : A -> jtext -> result A) (current : slice A) (v : jtext) : result (slice A) :=
  match v with
  | TNull | TArr [] => Ok nil_slice
  | TArr items => '(l, behind) ← decodeItems zero decode (elements_of current ++ beyond current) items; Ok (mkSlice l behind)
  | _ => Err "cannot unmarshal into a slice"
  end.
(** [[]json.RawMessage]. *)
Definition rawSlice (_ : list jtext) (v : jtext) : result (list jtext) :=
  match v with TArr items => Ok items | TNull => Ok [] | _ => Err "cannot unmarshal into a slice" end.
(** [[]map[string]json.RawMessage], into a nil slice. *)
Definition rawObjects (v : jtext) : result (list (option (list (string * jtext)))) :=
  items ← rawSlice [] v; mapM rawObject items.

Definition stringOf (v : jtext) : result string := stringField "" [v].
Definition intOf (v : jtext) : result Z := intField 0 [v].
End GoJSON.
Import JText GoJSON.

(** ** Limits and patterns *)

Definition maxSubscriptionFileBytes : Z := Z.shiftl 4 20.
Definition maxVLESSServers : Z := 1024.
Definition tagByte (c : Ascii.ascii) : bool := S.digit c || S.lower_letter c || S.upper_letter c || S.is_byte 46 c || S.is_byte 95 c || S.is_byte 45 c.
Definition safeTagPattern (s : string) : bool := (1 <=? S.len s) && (S.len s <=? 64) && S.all_bytes tagByte s.
Definition hexRunOf (n : Z) (s : string) : bool := (S.len s =? n) && S.all_bytes hexdigit s.
Definition headed (first : Ascii.ascii -> bool) (n : Z) (s : string) : bool :=
  match s with String c rest => first c && hexRunOf n rest | EmptyString => false end.
Definition uuidPattern (s : string) : bool :=
  match S.Split s (Ascii.ascii_of_N 45) with
  | [a; b; c; d; e] =>
      hexRunOf 8 a && hexRunOf 4 b && headed (S.in_range 49 53) 3 c
      && headed (fun x => S.in_range 56 57 x || S.in_range 97 98 x || S.in_range 65 66 x) 3 d && hexRunOf 12 e
  | _ => false
  end.

(** ** The outbound of a document *)

Record vlessUser := mkUser { vu_ID : string; vu_Encryption : string; vu_Flow : string }.
Record vnextServer := mkVNext { vn_Address : string; vn_Port : Z; vn_Users : slice vlessUser }.
Record outbound := mkOutbound {
  out_Tag : string;
  out_Remarks : string;
  out_Protocol : string;
  out_VNext : slice vnextServer;
  out_Network : string;
  out_Security : string
}.
Definition zero_user : vlessUser := mkUser "" "" "".
Definition zero_vnext : vnextServer := mkVNext "" 0 nil_slice.
Definition zero_outbound : outbound := mkOutbound "" "" "" nil_slice "" "".

Definition decodeUser (u : vlessUser) (m : list (string * jtext)) : result vlessUser :=
  id ← stringField (vu_ID u) (valuesOf "id" m);
  encryption ← stringField (vu_Encryption u) (valuesOf "encryption" m);
  flow ← stringField (vu_Flow u) (valuesOf "flow" m);
  Ok (mkUser id encryption flow).
Definition decodeVNext (s : vnextServer) (m : list (string * jtext)) : result vnextServer :=
  address ← stringField (vn_Address s) (valuesOf "address" m);
  port ← intField (vn_Port s) (valuesOf "port" m);
  users ← fieldValues (sliceField zero_user (structField decodeUser)) (vn_Users s) (valuesOf "users" m);
  Ok (mkVNext address port users).
Definition decodeSettings (vnext : slice vnextServer) (m : list (string * jtext)) : result (slice vnextServer) :=
  fieldValues (sliceField zero_vnext (structField decodeVNext)) vnext (valuesOf "vnext" m).
Definition decodeStream (stream : string * string) (m : list (string * jtext)) : result (string * string) :=
  network ← stringField stream.1 (valuesOf "network" m);
  security ← stringField stream.2 (valuesOf "security" m);
  Ok (network, security).
Definition decodeOutbound (o : outbound) (m : list (string * jtext)) : result outbound :=
  tag ← stringField (out_Tag o) (valuesOf "tag" m);
  remarks ← stringField (out_Remarks o) (valuesOf "remarks" m);
  protocol ← stringField (out_Protocol o) (valuesOf "protocol" m);
  vnext ← fieldValues (structField decodeSettings) (out_VNext o) (valuesOf "settings" m);
  stream ← fieldValues (structField decodeStream) (out_Network o, out_Security o) (valuesOf "streamSettings" m);
  Ok (mkOutbound tag remarks protocol vnext stream.1 stream.2).
(** [json.Unmarshal(raw, &o)]. *)
Definition unmarshalOutbound : jtext -> result outbound := structField decodeOutbound zero_outbound.

Record rawOutbound := mkRaw {
  raw_Outbound : outbound;
  raw_Raw : jtext;
  raw_SourceTag : string;
  raw_Identity : string;
  raw_Sources : Z
}.
Definition isVLESS (item : rawOutbound) : bool := out_Protocol (raw_Outbound item) =s "vless".

(** ** The address of a server *)

Definition namedLocal (host name : string) : bool := (host =s name) || S.HasSuffix host ("." +:+ name).
Definition controlOrBlank (c : Ascii.ascii) : bool :=
  S.is_byte 0 c || S.is_byte 13 c || S.is_byte 10 c || S.is_byte 9 c || S.is_byte 32 c || S.is_byte 47 c || S.is_byte 92 c.
Definition localAddress (a : IP.Addr) : bool :=
  IP.IsLoopback a || IP.IsUnspecified a || IP.IsMulticast a || IP.IsLinkLocalUnicast a || IP.IsLinkLocalMulticast a || IP.IsPrivate a
  || match a with IP.V4 n => (n / 2 ^ 24 =? 100) && (Z.land (n / 2 ^ 16) 192 =? 64) | IP.V6 _ _ => false end.
Definition safeServerAddress (value : string) : bool :=
  let value := S.TrimSpace value in
  if (value =s "") || (253 <? S.len value) || negb (S.all_bytes (fun c => negb (controlOrBlank c)) value) then false
  else
    let host := S.ToLower (S.TrimSuffix value ".") in
    if any (namedLocal host) ["localhost"; "local"; "lan"; "internal"; "home.arpa"] then false
    else match IP.ParseAddr value with Some address => negb (localAddress address) | None => true end.

(** ** The canonical outbound *)

(** An error text names one of the unknown members; which one is left open by the
    iteration of the map, and is here the first in their order. *)
Definition rejectUnknownKeys (object : list (string * jtext)) (allowed : list string) : result unit :=
  match first (fun m => negb (containsString allowed m.1)) object with
  | Some m => Err ("unsupported provider field: " +:+ m.1)
  | None => Ok ()
  end.
Definition refused {A} (r : result A) (e : string) : result A := match r with Ok a => Ok a | Err _ => Err e end.
Definition ensure (b : bool) (e : string) : result unit := if b then Ok () else Err e.
(** The members of a map that have one of the names. *)
Definition picked (names : list string) (m : list (string * jtext)) : list (string * jtext) :=
  List.filter (fun p => containsString names p.1) m.

Definition canonicalUser (user : list (string * jtext)) : result jtext :=
  _ ← rejectUnknownKeys user ["id"; "encryption"; "flow"; "level"];
  _ ← match member "level" user with
      | Some rawLevel =>
          level ← refused (intOf rawLevel) "invalid VLESS user level";
          ensure ((0 <=? level) && (level <=? 255)) "invalid VLESS user level"
      | None => Ok ()
      end;
  Ok (TObj (picked ["id"; "encryption"; "flow"] user)).
Definition canonicalEndpoint (endpoint : list (string * jtext)) : result jtext :=
  _ ← rejectUnknownKeys endpoint ["address"; "port"; "users"];
  address ← refused (unmarshalAt stringOf "address" endpoint) "invalid VLESS server address";
  _ ← ensure (safeServerAddress address) "invalid VLESS server address";
  port ← refused (unmarshalAt intOf "port" endpoint) "invalid VLESS server port";
  _ ← ensure ((1 <=? port) && (port <=? 65535)) "invalid VLESS server port";
  users ← refused (unmarshalAt rawObjects "users" endpoint) "invalid VLESS user list";
  _ ← ensure (negb (length users =? 0)%nat && (length users <=? 16)%nat) "invalid VLESS user list";
  canonicalUsers ← mapM (fun user => canonicalUser (entries user)) users;
  Ok (TObj (setMember "users" (TArr canonicalUsers) (picked ["address"; "port"] endpoint))).
Definition canonicalSettings (raw : option jtext) : result jtext :=
  settings ← refused (match raw with Some v => rawObject v | None => Err "" end) "VLESS settings must be an object";
  _ ← rejectUnknownKeys (entries settings) ["vnext"];
  endpoints ← refused (unmarshalAt rawObjects "vnext" (entries settings)) "invalid VLESS endpoint list";
  _ ← ensure (negb (length endpoints =? 0)%nat && (length endpoints <=? 8)%nat) "invalid VLESS endpoint list";
  canonicalEndpoints ← mapM (fun endpoint => canonicalEndpoint (entries endpoint)) endpoints;
  Ok (TObj [("vnext", TArr canonicalEndpoints)]).

Definition streamKeys : list string :=
  ["network"; "security"; "tlsSettings"; "realitySettings"; "wsSettings"; "grpcSettings"; "httpupgradeSettings"; "xhttpSettings"].
Definition nestedKeys : list (string * list string) := [
  ("tlsSettings", ["serverName"; "alpn"; "fingerprint"; "allowInsecure"]);
  ("realitySettings", ["serverName"; "publicKey"; "password"; "shortId"; "fingerprint"; "spiderX"]);
  ("wsSettings", ["path"; "headers"]);
  ("grpcSettings", ["serviceName"; "authority"; "multiMode"]);
  ("httpupgradeSettings", ["path"; "host"]);
  ("xhttpSettings", ["path"; "host"; "mode"])
].
Definition checkNested (stream : list (string * jtext)) (kind : string * list string) : result unit :=
  match member kind.1 stream with
  | None => Ok ()
  | Some value =>
      nested ← refused (rawObject value) (kind.1 +:+ " must be an object");
      _ ← rejectUnknownKeys (entries nested) kind.2;
      match (if kind.1 =s "realitySettings" then member "password" (entries nested) else None) with
      | Some rawPassword =>
          password ← refused (stringOf rawPassword) "invalid Reality password";
          ensure (negb (S.TrimSpace password =s "") && (S.len password <=? 1024)) "invalid Reality password"
      | None => Ok ()
      end
  end.
(** The kinds are read in the order of a map: which of several errors is reported is
    left open there. *)
Definition canonicalStreamSettings (raw : option jtext) : result jtext :=
  stream ← refused (match raw with Some v => rawObject v | None => Err "" end) "VLESS streamSettings must be an object";
  _ ← rejectUnknownKeys (entries stream) streamKeys;
  _ ← mapM (checkNested (entries stream)) nestedKeys;
  Ok (match stream with Some m => TObj m | None => TNull end).

Definition canonicalizeVLESSOutbound (raw : jtext) : result jtext :=
  object ← refused (rawObject raw) "invalid VLESS outbound object";
  _ ← rejectUnknownKeys (entries object) ["tag"; "remarks"; "protocol"; "settings"; "streamSettings"; "level"];
  protocol ← refused (unmarshalAt stringOf "protocol" (entries object)) "provider outbound protocol is not VLESS";
  _ ← ensure (protocol =s "vless") "provider outbound protocol is not VLESS";
  settings ← canonicalSettings (member "settings" (entries object));
  stream ← canonicalStreamSettings (member "streamSettings" (entries object));
  Ok (TObj (setMember "settings" settings (setMember "streamSettings" stream (picked ["protocol"; "tag"; "remarks"] (entries object))))).

(** ** The outbounds of a document *)

Definition rawMessageToOutbound (raw : jtext) : result rawOutbound :=
  o ← unmarshalOutbound raw;
  canonical ← (if out_Protocol o =s "vless" then canonicalizeVLESSOutbound raw else Ok raw);
  Ok (mkRaw o canonical "" "" 0).
Definition rawMessagesToOutbounds : list jtext -> result (list rawOutbound) := mapM rawMessageToOutbound.

(** The field [outbounds] of an item, its elements raw or decoded. *)
Definition rawConfig (v : jtext) : result (list jtext) :=
  structField (fun current m => fieldValues rawSlice current (valuesOf "outbounds" m)) [] v.
Definition typedConfig (v : jtext) : result (list outbound) :=
  outs ← structField (fun current m =>
    fieldValues (sliceField zero_outbound (structField decodeOutbound)) current (valuesOf "outbounds" m)) nil_slice v;
  Ok (elements_of outs).

(** An item of an array is a configuration, an outbound, or ignored. *)
Fixpoint rawItems (items : list jtext) : result (list rawOutbound) :=
  match items with
  | [] => Ok []
  | item :: rest =>
      match rawConfig item with
      | Ok ((_ :: _) as outbounds) =>
          next ← rawMessagesToOutbounds outbounds;
          others ← rawItems rest;
          Ok (next ++ others)
      | _ =>
          others ← rawItems rest;
          Ok (match rawMessageToOutbound item with Ok o => o :: others | Err _ => others end)
      end
  end.
Definition hasOutbounds (members : list (string * jtext)) : bool :=
  match member "outbounds" (collect members) with Some (TArr _) => true | _ => false end.
(** The text is read into [any] first, which refuses a number beyond float64. *)
Definition readDocument (b : string) : result jtext :=
  match parse b with Some v => _ ← toAny v; Ok v | None => Err "invalid JSON" end.
Definition rawOutboundsOf (v : jtext) : result (list rawOutbound) :=
  match v with
  | TObj members =>
      _ ← ensure (hasOutbounds members) "object has no outbounds array";
      outbounds ← rawConfig v;
      rawMessagesToOutbounds outbounds
  | TArr items =>
      out ← rawItems items;
      match out with [] => Err "no outbounds found" | _ => Ok out end
  | _ => Err "unsupported top-level JSON type"
  end.
Definition extractRawOutbounds (b : string) : result (list rawOutbound) := v ← readDocument b; rawOutboundsOf v.

Definition typedItem (item : jtext) : list outbound :=
  match typedConfig item with
  | Ok ((_ :: _) as outs) => outs
  | _ => match unmarshalOutbound item with Ok o => if out_Protocol o =s "" then [] else [o] | Err _ => [] end
  end.
Definition outboundsWithShape (v : jtext) : result (list outbound * string * Z) :=
  match v with
  | TObj members =>
      _ ← ensure (hasOutbounds members) "object has no outbounds array";
      outs ← typedConfig v;
      Ok (outs, "object", 1)
  | TArr items => Ok (concat (map typedItem items), "array", Z.of_nat (length items))
  | _ => Err "unsupported top-level JSON type"
  end.
Definition extractOutboundsWithShape (b : string) : result (list outbound * string * Z) := v ← readDocument b; outboundsWithShape v.

(** ** What is supported *)

Definition validUser (u : vlessUser) : string :=
  if negb (uuidPattern (vu_ID u)) then "invalid_user_id"
  else if (vu_Encryption u <>s "") && (vu_Encryption u <>s "none") then "unsupported_encryption"
  else if (vu_Flow u <>s "") && (vu_Flow u <>s "xtls-rprx-vision") then "unsupported_flow"
  else "".
Definition validServer (s : vnextServer) : string :=
  if negb (safeServerAddress (vn_Address s)) then "invalid_address"
  else if (vn_Port s <? 1) || (65535 <? vn_Port s) then "invalid_port"
  else if (length (elements_of (vn_Users s)) =? 0)%nat || (16 <? length (elements_of (vn_Users s)))%nat then "invalid_user_count"
  else default "" (first (fun reason => reason <>s "") (map validUser (elements_of (vn_Users s)))).
Definition validateVLESSOutbound (o : outbound) : string :=
  if negb (safeTagPattern (out_Tag o)) then "invalid_tag"
  else if (length (elements_of (out_VNext o)) =? 0)%nat || (8 <? length (elements_of (out_VNext o)))%nat then "invalid_vnext_count"
  else match first (fun reason => reason <>s "") (map validServer (elements_of (out_VNext o))) with
  | Some reason => reason
  | None =>
      if negb (containsString ["tls"; "reality"] (S.ToLower (out_Security o))) then "unsupported_stream_security"
      else if negb (containsString ["tcp"; "ws"; "grpc"; "httpupgrade"; "xhttp"] (S.ToLower (out_Network o))) then "unsupported_stream_network"
      else ""
  end.

Record outboundDecision := mkDecision { dc_Supported : bool; dc_Reason : string }.
Definition vlessOnly (outs : list outbound) : list outbound := List.filter (fun o => out_Protocol o =s "vless") outs.
Definition classifyOutbounds (outs : list outbound) : list outboundDecision :=
  let limit := maxVLESSServers <? Z.of_nat (length (vlessOnly outs)) in
  map (fun o =>
    if negb (out_Protocol o =s "vless") then mkDecision false ""
    else if limit then mkDecision false "server_limit_exceeded"
    else let reason := validateVLESSOutbound o in mkDecision (reason =s "") reason) outs.

(** ** The inventory entry of a server *)

Record ServerStatus := mkServer {
  svr_Tag : string;
  svr_SourceTag : string;
  svr_LogicalID : string;
  svr_Name : string;
  svr_Hostname : string;
  svr_ResolvedIPs : list string;
  svr_Port : Z;
  svr_Transport : string;
  svr_Security : string;
  svr_Country : string;
  svr_CountrySource : string;
  svr_SourceCount : Z;
  svr_SourceIDs : list string;
  svr_Status : string;
  svr_Health : string;
  svr_Reason : string;
  svr_SOCKS5 : string;
  svr_Selected : bool;
  svr_Standby : bool;
  svr_Quarantined : bool;
  svr_PathVerified : bool;
  svr_LatencyMS : Z;
  svr_AverageMS : Z;
  svr_JitterMS : Z;
  svr_FailedProbes : Z;
  svr_LastCheckedAt : string;
  svr_MeasuredMbps : spec_float;
  svr_EffectiveMbps : spec_float;
  svr_TariffMbps : spec_float;
  svr_Score : spec_float;
  svr_ScoreReason : string;
  svr_SpeedBytes : Z;
  svr_SpeedDuration : Z;
  svr_SpeedTestedAt : string
}.
#[export] Instance eta_ServerStatus : Eta ServerStatus := fun s =>
  mkServer (svr_Tag s) (svr_SourceTag s) (svr_LogicalID s) (svr_Name s) (svr_Hostname s) (svr_ResolvedIPs s) (svr_Port s) (svr_Transport s)
    (svr_Security s) (svr_Country s) (svr_CountrySource s) (svr_SourceCount s) (svr_SourceIDs s) (svr_Status s) (svr_Health s) (svr_Reason s)
    (svr_SOCKS5 s) (svr_Selected s) (svr_Standby s) (svr_Quarantined s) (svr_PathVerified s) (svr_LatencyMS s) (svr_AverageMS s)
    (svr_JitterMS s) (svr_FailedProbes s) (svr_LastCheckedAt s) (svr_MeasuredMbps s) (svr_EffectiveMbps s) (svr_TariffMbps s) (svr_Score s)
    (svr_ScoreReason s) (svr_SpeedBytes s) (svr_SpeedDuration s) (svr_SpeedTestedAt s).
Definition zero_ServerStatus : ServerStatus :=
  mkServer "" "" "" "" "" [] 0 "" "" "" "" 0 [] "" "" "" "" false false false false 0 0 0 0 "" F.zero F.zero F.zero F.zero "" 0 0 "".
Definition set_svr_Tag (v : string) (s : ServerStatus) : ServerStatus := ltac:(assign s svr_Tag v).
Definition set_svr_LogicalID (v : string) (s : ServerStatus) : ServerStatus := ltac:(assign s svr_LogicalID v).
Definition set_svr_SourceTag (v : string) (s : ServerStatus) : ServerStatus := ltac:(assign s svr_SourceTag v).
Definition set_svr_Name (v : string) (s : ServerStatus) : ServerStatus := ltac:(assign s svr_Name v).
Definition set_svr_Hostname (v : string) (s : ServerStatus) : ServerStatus := ltac:(assign s svr_Hostname v).
Definition set_svr_ResolvedIPs (v : list string) (s : ServerStatus) : ServerStatus := ltac:(assign s svr_ResolvedIPs v).
Definition set_svr_Port (v : Z) (s : ServerStatus) : ServerStatus := ltac:(assign s svr_Port v).
Definition set_svr_Transport (v : string) (s : ServerStatus) : ServerStatus := ltac:(assign s svr_Transport v).
Definition set_svr_Security (v : string) (s : ServerStatus) : ServerStatus := ltac:(assign s svr_Security v).
Definition set_svr_Country (v : string) (s : ServerStatus) : ServerStatus := ltac:(assign s svr_Country v).
Definition set_svr_CountrySource (v : string) (s : ServerStatus) : ServerStatus := ltac:(assign s svr_CountrySource v).
Definition set_svr_SourceCount (v : Z) (s : ServerStatus) : ServerStatus := ltac:(assign s svr_SourceCount v).
Definition set_svr_SourceIDs (v : list string) (s : ServerStatus) : ServerStatus := ltac:(assign s svr_SourceIDs v).
Definition set_svr_Status (v : string) (s : ServerStatus) : ServerStatus := ltac:(assign s svr_Status v).
Definition set_svr_Health (v : string) (s : ServerStatus) : ServerStatus := ltac:(assign s svr_Health v).
Definition set_svr_Reason (v : string) (s : ServerStatus) : ServerStatus := ltac:(assign s svr_Reason v).
Definition set_svr_SOCKS5 (v : string) (s : ServerStatus) : ServerStatus := ltac:(assign s svr_SOCKS5 v).
Definition set_svr_Selected (v : bool) (s : ServerStatus) : ServerStatus := ltac:(assign s svr_Selected v).
Definition set_svr_Standby (v : bool) (s : ServerStatus) : ServerStatus := ltac:(assign s svr_Standby v).
Definition set_svr_Quarantined (v : bool) (s : ServerStatus) : ServerStatus := ltac:(assign s svr_Quarantined v).
Definition set_svr_PathVerified (v : bool) (s : ServerStatus) : ServerStatus := ltac:(assign s svr_PathVerified v).
Definition set_svr_LatencyMS (v : Z) (s : ServerStatus) : ServerStatus := ltac:(assign s svr_LatencyMS v).
Definition set_svr_AverageMS (v : Z) (s : ServerStatus) : ServerStatus := ltac:(assign s svr_AverageMS v).
Definition set_svr_FailedProbes (v : Z) (s : ServerStatus) : ServerStatus := ltac:(assign s svr_FailedProbes v).
Definition set_svr_LastCheckedAt (v : string) (s : ServerStatus) : ServerStatus := ltac:(assign s svr_LastCheckedAt v).
Definition set_svr_MeasuredMbps (v : spec_float) (s : ServerStatus) : ServerStatus := ltac:(assign s svr_MeasuredMbps v).
Definition set_svr_EffectiveMbps (v : spec_float) (s : ServerStatus) : ServerStatus := ltac:(assign s svr_EffectiveMbps v).
Definition set_svr_TariffMbps (v : spec_float) (s : ServerStatus) : ServerStatus := ltac:(assign s svr_TariffMbps v).
Definition set_svr_Score (v : spec_float) (s : ServerStatus) : ServerStatus := ltac:(assign s svr_Score v).
Definition set_svr_ScoreReason (v : string) (s : ServerStatus) : ServerStatus := ltac:(assign s svr_ScoreReason v).
Definition set_svr_SpeedBytes (v : Z) (s : ServerStatus) : ServerStatus := ltac:(assign s svr_SpeedBytes v).
Definition set_svr_SpeedDuration (v : Z) (s : ServerStatus) : ServerStatus := ltac:(assign s svr_SpeedDuration v).
Definition set_svr_SpeedTestedAt (v : string) (s : ServerStatus) : ServerStatus := ltac:(assign s svr_SpeedTestedAt v).
Definition prefix (value : string) (length : nat) : string := String.substring 0 length value.
Definition countries : list (string * list string) := [
  ("DE", [" germany "; " deutschland "; " frankfurt "; " berlin "; " de-"; "[de]"; "🇩🇪"]);
  ("NL", [" netherlands "; " amsterdam "; " nl-"; "[nl]"; "🇳🇱"]);
  ("FI", [" finland "; " helsinki "; " fi-"; "[fi]"; "🇫🇮"]);
  ("FR", [" france "; " paris "; " fr-"; "[fr]"; "🇫🇷"]);
  ("GB", [" united kingdom "; " london "; " uk-"; "[gb]"; "🇬🇧"]);
  ("US", [" united states "; " usa "; " new york "; " us-"; "[us]"; "🇺🇸"]);
  ("SE", [" sweden "; " stockholm "; " se-"; "[se]"; "🇸🇪"]);
  ("CH", [" switzerland "; " zurich "; " ch-"; "[ch]"; "🇨🇭"])
].
Definition inferCountry (name : string) : string * string :=
  let lower := " " +:+ S.ToLower name +:+ " " in
  match first (fun c => any (S.Contains lower) c.2) countries with
  | Some c => (c.1, "node_name")
  | None => ("", "unknown")
  end.
Definition serverStatusFor (item : rawOutbound) : ServerStatus :=
  let o := raw_Outbound item in
  let name := if S.TrimSpace (out_Remarks o) =s "" then S.TrimSpace (out_Tag o) else S.TrimSpace (out_Remarks o) in
  let status := zero_ServerStatus |> set_svr_Tag (out_Tag o) |> set_svr_LogicalID ("srv_" +:+ prefix (raw_Identity item) 16)
    |> set_svr_SourceCount (raw_Sources item) |> set_svr_Name name in
  let status := match elements_of (out_VNext o) with
    | [endpoint] => status |> set_svr_Hostname (S.TrimSpace (vn_Address endpoint)) |> set_svr_Port (vn_Port endpoint)
    | _ => status
    end in
  let '(country, source) := inferCountry name in
  status |> set_svr_Transport (S.TrimSpace (out_Network o)) |> set_svr_Security (S.TrimSpace (out_Security o))
    |> set_svr_Country country |> set_svr_CountrySource source.

Definition statusOf (item : rawOutbound) (decision : outboundDecision) : ServerStatus :=
  let o := raw_Outbound item in
  let status := set_svr_Status "SUPPORTED" (serverStatusFor item) in
  let status := if (raw_SourceTag item <>s "") && (raw_SourceTag item <>s out_Tag o) then set_svr_SourceTag (raw_SourceTag item) status else status in
  if dc_Supported decision then status else status |> set_svr_Status "UNSUPPORTED" |> set_svr_Reason (dc_Reason decision).
(** The VLESS outbounds with their decisions. *)
Definition decided (items : list rawOutbound) : list (rawOutbound * outboundDecision) :=
  List.filter (fun p => isVLESS p.1) (combine items (classifyOutbounds (map raw_Outbound items))).
(** With an error, the statuses are returned all the same. *)
Definition classifyPreparedRawOutbounds (items : list rawOutbound) : list rawOutbound * list ServerStatus * option string :=
  let statuses := map (fun p => statusOf p.1 p.2) (decided items) in
  let supported := map fst (List.filter (fun p => dc_Supported p.2) (decided items)) in
  match statuses, supported with
  | [], _ => ([], [], Some "no vless outbounds")
  | _, [] => ([], statuses, Some "no supported vless outbounds")
  | _, _ => (supported, statuses, None)
  end.

(** ** Files *)

Record FileInfo := mkInfo { fi_Regular : bool; fi_Symlink : bool; fi_Size : Z; fi_Perm : Z }.
(** The calls on the file system, on a state [K].  [fs_Lstat] says [None] for a file
    that does not exist; [fs_Random] reads from [crypto/rand]. *)
Class FileSystem (K : Type) := {
  fs_Lstat : string -> io K (option FileInfo);
  fs_ReadFile : string -> io K string;
  fs_MkdirAll : string -> Z -> io K unit;
  fs_OpenExcl : string -> Z -> io K unit;
  fs_Write : string -> string -> io K unit;
  fs_Sync : string -> io K unit;
  fs_Close : string -> io K unit;
  fs_Chmod : string -> Z -> io K unit;
  fs_Rename : string -> string -> io K unit;
  fs_Remove : string -> io K unit;
  fs_RemoveAll : string -> io K unit;
  fs_Random : Z -> io K string;
  fs_Dir : string -> string;
  fs_Join : list string -> string
}.
Definition hexByte (c : Ascii.ascii) : string :=
  String (IP.hexChar (JText.code c / 16)) (String (IP.hexChar (JText.code c mod 16)) EmptyString).
Fixpoint hexEncode (s : string) : string := match s with String c rest => hexByte c +:+ hexEncode rest | EmptyString => EmptyString end.
Definition mode600 : Z := 384.
Definition mode700 : Z := 448.

Section Files.
Context {K : Type} `{FileSystem K}.

(** On an error, [handler] runs before it is returned. *)
Definition orUndo {A} (m : io K A) (handler : io K unit) : io K A := fun k =>
  match m k with (k, Err e) => ((handler k).1, Err e) | r => r end.
(** [secureid.Hex]. *)
Definition secureRandomHex (byteCount : Z) : io K string :=
  if byteCount <=? 0 then fail "secure random byte count must be positive" else raw ← fs_Random byteCount; mret (hexEncode raw).

Definition readSubscriptionFile (path : string) : io K string :=
  info ← fs_Lstat path;
  match info with
  | None => fail "file does not exist"
  | Some info =>
      if negb (fi_Regular info) || fi_Symlink info then fail "subscription must be a regular file"
      else if (fi_Size info <=? 0) || (maxSubscriptionFileBytes <? fi_Size info) then fail "subscription size limit exceeded"
      else if negb (fi_Perm info =? mode600) then fail "subscription file must have mode 0600"
      else fs_ReadFile path
  end.
Definition writeFileAtomic (path data : string) (perm : Z) : io K unit :=
  _ ← fs_MkdirAll (fs_Dir path) mode700;
  suffix ← wrap "generate subscription temporary name: " (secureRandomHex 6);
  let tmp := path +:+ ".tmp." +:+ suffix in
  let removed := ignore (fs_Remove tmp) in
  let closed := (_ ← ignore (fs_Close tmp); removed) in
  _ ← fs_OpenExcl tmp perm;
  _ ← orUndo (fs_Write tmp data) closed;
  _ ← orUndo (fs_Sync tmp) closed;
  _ ← orUndo (fs_Close tmp) removed;
  _ ← orUndo (fs_Chmod tmp perm) removed;
  _ ← orUndo (fs_Rename tmp path) removed;
  ignore (fs_Chmod path perm).
End Files.

(** ** Identities, duplicates and tags *)

Section Outbounds.
(** [sha256Hex] of a text, the text of [json.Marshal] of a value, and [fmt.Sprint] of
    a number, a list or a map. *)
Context (sha256Hex : string -> string) (marshal : json -> string) (sprintOther : json -> string).

Definition Sprint (v : option json) : string :=
  match v with
  | None | Some JNull => "<nil>"
  | Some (JBool b) => if b then "true" else "false"
  | Some (JStr s) => s
  | Some v => sprintOther v
  end.
(** [v.(map[string]any)], [v.([]any)] and [v.(string)] with a zero value. *)
Definition asObject (v : option json) : list (string * json) := match v with Some (JObj m) => m | _ => [] end.
Definition asArray (v : option json) : list json := match v with Some (JArr l) => l | _ => [] end.
Definition asString (v : option json) : string := match v with Some (JStr s) => s | _ => "" end.
(** The value an identity is the hash of. *)
Definition identityValue (protocol : string) (endpoint stream : list (string * json)) : json :=
  let flow := match asArray (member "users" endpoint) with
    | JObj user :: _ => [("flow", JStr (S.TrimSpace (Sprint (member "flow" user))))]
    | _ => []
    end in
  JObj (("address", JStr (S.ToLower (S.TrimSpace (Sprint (member "address" endpoint)))))
    :: flow ++ [("port", default JNull (member "port" endpoint)); ("protocol", JStr "vless");
                ("stream", JObj (List.filter (fun m => containsString streamKeys m.1) stream))]).
Definition outboundIdentity (raw : jtext) : result string :=
  object ← match raw with TObj _ => v ← toAny raw; Ok (asObject (Some v)) | TNull => Ok [] | _ => Err "cannot unmarshal into a map" end;
  match asArray (member "vnext" (asObject (member "settings" object))) with
  | [endpoint] =>
      if S.ToLower (asString (member "protocol" object)) =s "vless"
      then Ok (sha256Hex (marshal (identityValue "vless" (asObject (Some endpoint)) (asObject (member "streamSettings" object)))))
      else Err "logical identity requires one VLESS endpoint"
  | _ => Err "logical identity requires one VLESS endpoint"
  end.

Fixpoint collisionSafe (lengths : list nat) (base identity : string) (used : gset string) : result string :=
  match lengths with
  | [] => Err "could not derive unique outbound tag"
  | suffixLength :: rest =>
      let candidate := prefix base (64 - suffixLength - 1) +:+ "-" +:+ prefix identity suffixLength in
      if decide (candidate ∈ used) then collisionSafe rest base identity used else Ok candidate
  end.
Definition suffixLengths : list nat := [8; 12; 16; 20; 24; 28; 32]%nat.
Definition collisionSafeTag : string -> string -> gset string -> result string := collisionSafe suffixLengths.
Definition retagOutbound (raw : jtext) (tag : string) : result jtext :=
  object ← rawObject raw;
  Ok (TObj (setMember "tag" (TStr tag) (entries object))).

Definition countOf (tag : string) (items : list rawOutbound) : nat :=
  length (List.filter (fun i => out_Tag (raw_Outbound i) =s tag) items).
Definition set_Tag (tag : string) (o : outbound) : outbound :=
  mkOutbound tag (out_Remarks o) (out_Protocol o) (out_VNext o) (out_Network o) (out_Security o).

(** The first of the outbounds with one identity, with the number of all of them. *)
Fixpoint deduplicate (all : list string) (seen : gset string) (items : list rawOutbound) : result (list rawOutbound * Z) :=
  match items with
  | [] => Ok ([], 0)
  | item :: rest =>
      let sourced := mkRaw (raw_Outbound item) (raw_Raw item) (out_Tag (raw_Outbound item)) (raw_Identity item) (raw_Sources item) in
      if negb (isVLESS item) then
        '(prepared, dropped) ← deduplicate all seen rest;
        Ok (sourced :: prepared, dropped)
      else
        identity ← refused (outboundIdentity (raw_Raw item)) "invalid outbound JSON";
        if decide (identity ∈ seen) then
          '(prepared, dropped) ← deduplicate all seen rest;
          Ok (prepared, dropped + 1)
        else
          '(prepared, dropped) ← deduplicate all ({[identity]} ∪ seen) rest;
          let sources := Z.of_nat (length (List.filter (fun i => i =s identity) all)) in
          Ok (mkRaw (raw_Outbound item) (raw_Raw item) (out_Tag (raw_Outbound item)) identity sources :: prepared, dropped)
  end.
(** An outbound whose tag another one has too gets a tag of its own. *)
Fixpoint retag (all : list rawOutbound) (used : gset string) (items : list rawOutbound) : result (list rawOutbound) :=
  match items with
  | [] => Ok []
  | item :: rest =>
      let tag := out_Tag (raw_Outbound item) in
      if negb (isVLESS item) || (countOf tag (List.filter isVLESS all) <? 2)%nat || negb (safeTagPattern tag) then
        others ← retag all used rest;
        Ok (item :: others)
      else
        newTag ← collisionSafeTag tag (raw_Identity item) used;
        retagged ← refused (retagOutbound (raw_Raw item) newTag) "could not retag duplicate outbound";
        others ← retag all ({[newTag]} ∪ used) rest;
        Ok (mkRaw (set_Tag newTag (raw_Outbound item)) retagged (raw_SourceTag item) (raw_Identity item) (raw_Sources item) :: others)
  end.
Definition duplicateTags (vless : list rawOutbound) : list string :=
  gosort S.ltb (List.filter (fun tag => (1 <? countOf tag vless)%nat && (tag <>s ""))
                            (remove_dups (map (fun i => out_Tag (raw_Outbound i)) vless))).

Record outboundNormalization := mkNormalization { nm_DuplicateTags : list string; nm_DeduplicatedVLESS : Z }.
Definition prepareRawOutbounds (items : list rawOutbound) : result (list rawOutbound * outboundNormalization) :=
  let vless := List.filter isVLESS items in
  _ ← ensure (Z.of_nat (length vless) <=? maxVLESSServers) "vless server limit exceeded";
  identities ← mapM (fun item => refused (outboundIdentity (raw_Raw item)) "invalid outbound JSON") vless;
  '(prepared, dropped) ← deduplicate identities ∅ items;
  let used := list_to_set (map (fun i => out_Tag (raw_Outbound i)) (List.filter isVLESS prepared)) in
  prepared ← retag prepared used prepared;
  Ok (prepared, mkNormalization (duplicateTags vless) dropped).
Definition classifyRawOutbounds (items : list rawOutbound) : result (list rawOutbound * list ServerStatus) :=
  '(prepared, _) ← prepareRawOutbounds items;
  match classifyPreparedRawOutbounds prepared with
  | (supported, statuses, None) => Ok (supported, statuses)
  | (_, _, Some e) => Err e
  end.

(** ** The summary of a subscription *)

Record Summary := mkSummary {
  sy_TopLevelType : string;
  sy_ConfigCount : Z;
  sy_OutboundCount : Z;
  sy_VLESSCount : Z;
  sy_ProtocolCounts : gmap string Z;
  sy_StreamSecurityCounts : gmap string Z;
  sy_StreamNetworkCounts : gmap string Z;
  sy_MissingRequiredCounts : gmap string Z;
  sy_DuplicateTags : list string;
  sy_DeduplicatedVLESSCount : Z;
  sy_SupportedVLESSCount : Z;
  sy_UnsupportedVLESSCount : Z;
  sy_Servers : list ServerStatus;
  sy_SafeSummary : bool
}.
Definition emptyToNull (s : string) : string := if s =s "" then "null" else s.
(** [counts[key]++] for every element. *)
Definition tally {A} (key : A -> string) (l : list A) : gmap string Z :=
  fold_left (fun counts x => <[key x := default 0 (counts !! key x) + 1]> counts) l ∅.
Definition isSupported (s : ServerStatus) : bool := svr_Status s =s "SUPPORTED".
Definition countZ {A} (p : A -> bool) (l : list A) : Z := Z.of_nat (length (List.filter p l)).
Definition Normalize (b : string) : result Summary :=
  '(outs, topLevel, configCount) ← extractOutboundsWithShape b;
  rawOuts ← extractRawOutbounds b;
  '(prepared, normalization) ← prepareRawOutbounds rawOuts;
  let '(_, statuses, err) := classifyPreparedRawOutbounds prepared in
  _ ← match err, statuses with Some e, [] => Err e | _, _ => Ok () end;
  _ ← ensure (negb (length (vlessOnly outs) =? 0)%nat) "no vless outbounds";
  Ok (mkSummary topLevel configCount (Z.of_nat (length outs)) (Z.of_nat (length (vlessOnly outs)))
        (tally (fun o => emptyToNull (out_Protocol o)) outs) (tally (fun o => emptyToNull (out_Security o)) outs)
        (tally (fun o => emptyToNull (out_Network o)) outs)
        (tally svr_Reason (List.filter (fun s => negb (isSupported s)) statuses))
        (nm_DuplicateTags normalization) (nm_DeduplicatedVLESS normalization)
        (countZ isSupported statuses) (countZ (fun s => negb (isSupported s)) statuses) statuses true).

(** ** The configuration of Xray *)

Definition validatePortRange (basePort count : Z) : result unit :=
  if count <=? 0 then Err "no supported vless outbounds"
  else if (basePort <? 1024) || (65535 <? basePort) || (65535 - basePort + 1 <? count) then Err "SOCKS port range exhausted"
  else Ok ().

Record GeneratedRoute := mkGenerated {
  gr_Type : string;
  gr_Tag : string;
  gr_Priority : Z;
  gr_SOCKS5 : string;
  gr_DNSMode : string;
  gr_ExternalIPProbe : bool
}.
Definition socksAddress (port : Z) : string := "127.0.0.1:" +:+ pretty port.
Definition generatedRoute (basePort : Z) (idx : nat) (item : rawOutbound) : GeneratedRoute :=
  mkGenerated "vless" (out_Tag (raw_Outbound item)) (100 + Z.of_nat idx) (socksAddress (basePort + Z.of_nat idx)) "socks_remote" true.
Definition GenerateRoutes (b : string) (basePort : Z) : result (list GeneratedRoute) :=
  rawOuts ← extractRawOutbounds b;
  '(supported, _) ← classifyRawOutbounds rawOuts;
  _ ← validatePortRange basePort (Z.of_nat (length supported));
  _ ← ensure (negb (length supported =? 0)%nat) "no vless routes generated";
  Ok (imap (generatedRoute basePort) supported).

Definition tagOf (item : rawOutbound) : string := S.TrimSpace (out_Tag (raw_Outbound item)).
Definition inboundFor (port : Z) (item : rawOutbound) : jtext := TObj [
  ("listen", TStr "127.0.0.1");
  ("port", TNum (pretty port));
  ("protocol", TStr "socks");
  ("settings", TObj [("auth", TStr "noauth"); ("ip", TStr "127.0.0.1"); ("udp", TBool true)]);
  ("sniffing", TObj [("destOverride", TArr [TStr "http"; TStr "tls"]); ("enabled", TBool true)]);
  ("tag", TStr ("socks-" +:+ tagOf item))
].
Definition ruleFor (item : rawOutbound) : jtext := TObj [
  ("inboundTag", TArr [TStr ("socks-" +:+ tagOf item)]);
  ("outboundTag", TStr (tagOf item));
  ("type", TStr "field")
].
Definition portAt (basePort : Z) (idx : nat) : Z := basePort + Z.of_nat idx.
Definition xrayConfig (basePort : Z) (supported : list rawOutbound) : jtext := TObj [
  ("log", TObj [("loglevel", TStr "warning")]);
  ("inbounds", TArr (imap (fun idx item => inboundFor (portAt basePort idx) item) supported));
  ("outbounds", TArr (map raw_Raw supported));
  ("routing", TObj [("domainStrategy", TStr "AsIs"); ("rules", TArr (map ruleFor supported))])
].
(** [socksByTag]: the last port of a tag. *)
Definition socksByTag (basePort : Z) (supported : list rawOutbound) : gmap string string :=
  foldl (fun m (p : nat * rawOutbound) => <[tagOf p.2 := socksAddress (portAt basePort p.1)]> m) ∅ (imap pair supported).
Definition withSOCKS (m : gmap string string) (s : ServerStatus) : ServerStatus :=
  if isSupported s then set_svr_SOCKS5 (default "" (m !! svr_Tag s)) s else s.

Record XrayGenerationSummary := mkGeneration {
  xg_Inbounds : Z;
  xg_Outbounds : Z;
  xg_RoutingRules : Z;
  xg_SOCKS5 : list string;
  xg_Output : string;
  xg_SHA256 : string;
  xg_SecretsPrinted : bool;
  xg_SubscriptionSHA256 : string;
  xg_Servers : list ServerStatus
}.
Definition zero_generation : XrayGenerationSummary := mkGeneration 0 0 0 [] "" "" false "" [].
(** The configuration of a subscription and the statuses of its servers. *)
Definition generate (b : string) (basePort : Z) : result (list rawOutbound * list ServerStatus) :=
  rawOuts ← extractRawOutbounds b;
  '(supported, statuses) ← classifyRawOutbounds rawOuts;
  _ ← validatePortRange basePort (Z.of_nat (length supported));
  _ ← ensure (negb (length supported =? 0)%nat) "no vless outbounds generated";
  Ok (supported, statuses).

(** [marshalIndent] is the text of the configuration. *)
Context (marshalIndent : jtext -> string) {K : Type} `{FileSystem K}.

Definition NormalizeFile (path : string) : io K Summary := b ← readSubscriptionFile path; lift (Normalize b).
Definition GenerateRoutesFile (path : string) (basePort : Z) : io K (list GeneratedRoute) :=
  b ← readSubscriptionFile path; lift (GenerateRoutes b basePort).
Definition newline : string := String (Ascii.ascii_of_N 10) EmptyString.
Definition GenerateXrayConfigFile (subscriptionPath outputPath : string) (basePort : Z) : io K XrayGenerationSummary :=
  b ← readSubscriptionFile subscriptionPath;
  '(supported, statuses) ← lift (generate b basePort);
  let configBytes := marshalIndent (xrayConfig basePort supported) +:+ newline in
  _ ← writeFileAtomic outputPath configBytes mode600;
  let count := Z.of_nat (length supported) in
  mret (mkGeneration count count count (imap (fun idx _ => socksAddress (portAt basePort idx)) supported) outputPath
          ("sha256:" +:+ sha256Hex configBytes) false ("sha256:" +:+ sha256Hex b)
          (map (withSOCKS (socksByTag basePort supported)) statuses)).
End Outbounds.
