(* ===== verification/SubscriptionProofs.v ===== *)
(** * VPN subscriptions: what is written is what was checked

    The outbounds of a generated configuration have only the members the code lists
    and addresses that are not local; in a document that repeats no name they
    decode to the outbounds that were validated; their tags are distinct. *)
From Stdlib Require Import ZArith Lia SpecFloat.
From stdpp Require Import base list strings pretty gmap.
From S2P Require Import Prelude Effects Float64 Net Json NetProofs JsonProofs JsonText Subscription.

Open Scope Z_scope.
Import JText GoJSON.

(** ** Runs that succeed *)

Lemma refused_Ok {A} (r : result A) e a : refused r e = Ok a <-> r = Ok a.
Proof. by destruct r. Qed.
Lemma ensure_Ok b e u : ensure b e = Ok u <-> b = true.
Proof. destruct b, u; by split. Qed.
Lemma rejectUnknownKeys_Ok m allowed u : rejectUnknownKeys m allowed = Ok u -> forall p, p ∈ m -> p.1 ∈ allowed.
Proof.
  unfold rejectUnknownKeys. destruct (first _ m) as [p|] eqn:E; [done|]. intros _ p Hp.
  pose proof (first_None _ _ _ E Hp) as HN. apply negb_false_iff, containsString_true in HN. done.
Qed.
Lemma mapM_Forall2 {A B} (f : A -> result B) l k : mapM f l = Ok k <-> Forall2 (fun x y => f x = Ok y) l k.
Proof.
  revert k. induction l as [|x l IH]; intros k; cbn [mapM].
  - split; [intros [= <-]; constructor|intros H; by inversion H].
  - split.
    + intros H. apply bind_Ok in H as (y & Hy & H). apply bind_Ok in H as (ys & Hys & [= <-]). constructor; [done|by apply IH].
    + intros H. inversion H as [|? y ? ys Hy Hys]; subst. apply bind_Ok. exists y. split; [done|]. apply bind_Ok. exists ys. by split; [apply IH|].
Qed.
(** Splits a decoder that succeeded into its steps. *)
Ltac ok_steps H :=
  repeat match type of H with
  | (_ ≫= _) = Ok _ => let x := fresh "x" in let G := fresh "G" in apply bind_Ok in H as (x & G & H)
  end;
  repeat match goal with
  | G : refused _ _ = Ok _ |- _ => apply refused_Ok in G
  | G : ensure _ _ = Ok _ |- _ => apply ensure_Ok in G
  | G : rejectUnknownKeys _ _ = Ok _ |- _ => pose proof (rejectUnknownKeys_Ok _ _ _ G); clear G
  | G : mapM _ _ = Ok _ |- _ => apply mapM_Forall2 in G
  end; simplify_eq.

(** ** Maps of members *)

Section Maps.
Context {A : Type}.
Implicit Types m : list (string * A).

Lemma in_set p k v m : p ∈ setMember k v m -> p = (k, v) \/ p ∈ m.
Proof.
  induction m as [|[k' v'] m IH]; cbn [setMember]; [intros ->%list_elem_of_singleton; by left|].
  destruct (k =s k'); [|destruct (S.ltb k k')]; intros H; apply elem_of_cons in H as [->|H].
  - by left.
  - right. by right.
  - by left.
  - by right.
  - right. left.
  - destruct (IH H); [by left|right; by right].
Qed.
Lemma collect_go m acc p : p ∈ fold_left (fun acc q => setMember q.1 q.2 acc) m acc -> p ∈ m \/ p ∈ acc.
Proof.
  revert acc. induction m as [|q m IH]; intros acc H; cbn in H; [by right|].
  apply IH in H as [H|H]; [left; by right|]. apply in_set in H as [->|H]; [left; rewrite <- surjective_pairing; left|by right].
Qed.
Lemma in_collect m p : p ∈ collect m -> p ∈ m.
Proof. intros H. apply collect_go in H as [H|H]; [done|by apply elem_of_nil in H]. Qed.
Lemma member_in key v m : member key m = Some v -> (key, v) ∈ m.
Proof.
  induction m as [|[k w] m IH]; cbn [member]; [done|]. destruct (String.eqb_spec key k) as [->|]; intros H; [simplify_eq; left|right; by apply IH].
Qed.
(** A map built by [collect] is increasing; its names are distinct. *)
Lemma collect_ordered m : ordered (collect m).
Proof.
  unfold collect. assert (H : ordered (@nil (string * A))) by done. revert H. generalize (@nil (string * A)).
  induction m as [|p m IH]; intros acc H; [done|]. apply IH. by apply setMember_ordered.
Qed.
Lemma collect_NoDup m : NoDup (map fst (collect m)).
Proof. apply increasing_NoDup, collect_ordered. Qed.
Lemma member_absent key m : key ∉ map fst m -> member key m = None.
Proof. intros H. destruct (member key m) eqn:E; [|done]. destruct H. apply member_fst. by rewrite E. Qed.
Lemma in_member key v m : NoDup (map fst m) -> (key, v) ∈ m -> member key m = Some v.
Proof.
  induction m as [|[k w] m IH]; [intros _ H; by apply elem_of_nil in H|]. cbn [map fst member]. intros [HN HD]%NoDup_cons H.
  apply elem_of_cons in H as [[= -> ->]|H]; [by rewrite String.eqb_refl|].
  destruct (String.eqb_spec key k) as [->|]; [|by apply IH]. destruct HN. apply elem_of_map. by exists (k, v).
Qed.
(** Where no name is repeated, the map has the members of the object. *)
Lemma member_collect_go key m acc : NoDup (map fst m) ->
  member key (fold_left (fun acc q => setMember q.1 q.2 acc) m acc) = match member key m with Some v => Some v | None => member key acc end.
Proof.
  revert acc. induction m as [|[k v] m IH]; intros acc HN; cbn [fold_left member fst snd]; [done|]. cbn in HN. apply NoDup_cons in HN as [H1 H2].
  rewrite IH by done. rewrite member_setMember. destruct (String.eqb_spec key k) as [->|]; [|done]. by rewrite member_absent.
Qed.
Lemma member_collect key m : NoDup (map fst m) -> member key (collect m) = member key m.
Proof. intros H. unfold collect. rewrite member_collect_go by done. by destruct (member key m). Qed.
End Maps.
Lemma in_picked p names m : p ∈ picked names m <-> p ∈ m /\ p.1 ∈ names.
Proof. unfold picked. rewrite elem_of_filter_b, containsString_true. done. Qed.
Lemma member_picked key names (m : list (string * jtext)) : key ∈ names -> member key (picked names m) = member key m.
Proof.
  intros HI. induction m as [|[k v] m IH]; [done|]. unfold picked in *. cbn [List.filter fst]. destruct (String.eqb_spec key k) as [->|HN].
  - rewrite (proj2 (containsString_true names k) HI). cbn [member]. by rewrite String.eqb_refl.
  - apply String.eqb_neq in HN. cbn [member]. rewrite HN. destruct (containsString names k); cbn [member]; [rewrite HN|]; exact IH.
Qed.

(** ** The shape of a canonical outbound *)

Definition onlyKeys (allowed : list string) (m : list (string * jtext)) : bool := forallb (fun p => containsString allowed p.1) m.
Lemma onlyKeys_true allowed m : onlyKeys allowed m = true <-> forall p, p ∈ m -> p.1 ∈ allowed.
Proof.
  unfold onlyKeys. rewrite forallb_forall. split; intros H p Hp.
  - apply containsString_true, H. by apply list_elem_of_In.
  - apply containsString_true, H. by apply list_elem_of_In.
Qed.
Lemma onlyKeys_set allowed k v m : onlyKeys allowed m = true -> k ∈ allowed -> onlyKeys allowed (setMember k v m) = true.
Proof. rewrite !onlyKeys_true. intros H HK p Hp. apply in_set in Hp as [->|Hp]; [done|by apply H]. Qed.
Lemma onlyKeys_picked allowed names m : (forall n, n ∈ names -> n ∈ allowed) -> onlyKeys allowed (picked names m) = true.
Proof. intros H. apply onlyKeys_true. intros p Hp. apply in_picked in Hp as [_ Hp]. by apply H. Qed.

Definition canonUser (v : jtext) : bool := match v with TObj m => onlyKeys ["id"; "encryption"; "flow"] m | _ => false end.
(** A public address, a port and users, and nothing else. *)
Definition canonEndpoint (v : jtext) : bool :=
  match v with
  | TObj m =>
      onlyKeys ["address"; "port"; "users"] m
      && match member "address" m with Some (TStr address) => safeServerAddress address | _ => false end
      && match member "port" m with
         | Some (TNum literal) => match Atoi literal with Some port => (1 <=? port) && (port <=? 65535) | None => false end
         | _ => false
         end
      && match member "users" m with
         | Some (TArr users) => (1 <=? length users)%nat && (length users <=? 16)%nat && forallb canonUser users
         | _ => false
         end
  | _ => false
  end.
Definition canonNested (m : list (string * jtext)) (kind : string * list string) : bool :=
  match member kind.1 m with
  | None | Some TNull => true
  | Some (TObj nested) => onlyKeys kind.2 (collect nested)
  | Some _ => false
  end.
Definition canonStream (v : jtext) : bool :=
  match v with TObj m => onlyKeys streamKeys m && forallb (canonNested m) nestedKeys | TNull => true | _ => false end.
Definition canonSettings (v : jtext) : bool := match v with TObj [("vnext", TArr [endpoint])] => canonEndpoint endpoint | _ => false end.
Definition canonOutbound (v : jtext) : bool :=
  match v with
  | TObj m =>
      onlyKeys ["protocol"; "tag"; "remarks"; "settings"; "streamSettings"] m
      && match member "protocol" m with Some (TStr protocol) => protocol =s "vless" | _ => false end
      && match member "settings" m with Some settings => canonSettings settings | None => false end
      && match member "streamSettings" m with Some stream => canonStream stream | None => false end
  | _ => false
  end.

Lemma stringOf_Ok v s : stringOf v = Ok s -> v = TStr s \/ (v = TNull /\ s = "").
Proof. destruct v; cbn; intros [= <-]; [by right|by left]. Qed.
Lemma intOf_Ok v n : intOf v = Ok n -> (exists l, v = TNum l /\ Atoi l = Some n) \/ (v = TNull /\ n = 0).
Proof. destruct v; cbn; try done; [intros [= <-]; by right|]. destruct (Atoi literal) eqn:E; intros [= <-]. left. by exists literal. Qed.
Lemma unmarshalAt_Ok {A} (f : jtext -> result A) key m a : unmarshalAt f key m = Ok a <-> exists v, member key m = Some v /\ f v = Ok a.
Proof. unfold unmarshalAt. destruct (member key m); split; [by eauto|by intros (? & [= ->] & ?)|done|by intros (? & ? & _)]. Qed.

Lemma canonicalUser_canon user v : canonicalUser user = Ok v -> v = TObj (picked ["id"; "encryption"; "flow"] user) /\ canonUser v = true.
Proof. intros H. unfold canonicalUser in H. ok_steps H. split; [done|]. cbn. by apply onlyKeys_picked. Qed.
Lemma canonicalUsers_canon users l : Forall2 (fun x y => canonicalUser (entries x) = Ok y) users l -> forallb canonUser l = true.
Proof. induction 1 as [|x y xs ys H _ IH]; [done|]. cbn. rewrite IH. apply canonicalUser_canon in H as [_ ->]. done. Qed.
Lemma safe_empty : safeServerAddress "" = false.
Proof. reflexivity. Qed.
Lemma canonicalEndpoint_canon endpoint v : canonicalEndpoint endpoint = Ok v -> canonEndpoint v = true.
Proof.
  intros H. unfold canonicalEndpoint in H. ok_steps H.
  match goal with G : unmarshalAt stringOf _ _ = Ok _ |- _ => apply unmarshalAt_Ok in G as (a & EA & HA) end.
  match goal with G : unmarshalAt intOf _ _ = Ok _ |- _ => apply unmarshalAt_Ok in G as (p & EP & HP) end.
  match goal with G : unmarshalAt rawObjects _ _ = Ok _ |- _ => apply unmarshalAt_Ok in G as (u & EU & HU) end.
  match goal with G : Forall2 _ _ _ |- _ => pose proof (canonicalUsers_canon _ _ G) as HC; apply Forall2_length in G end.
  apply stringOf_Ok in HA as [->|[-> ->]]; [|by rewrite safe_empty in *]. apply intOf_Ok in HP as [(l & -> & HL)|[-> ->]]; [|done].
  cbn [canonEndpoint]. rewrite !andb_true_iff. split; [split; [split|]|].
  - apply onlyKeys_set; [|in_list]. apply onlyKeys_picked. intros n. rewrite !elem_of_cons. tauto.
  - rewrite member_setMember, member_picked by in_list. cbn. by rewrite EA.
  - rewrite member_setMember, member_picked by in_list. cbn. rewrite EP, HL. bool_split. by apply andb_true_iff.
  - rewrite member_setMember, String.eqb_refl, HC, andb_true_r. bool_split. apply andb_true_iff.
    repeat match goal with G : (_ =? _)%nat = false |- _ => apply Nat.eqb_neq in G | G : (_ <=? _)%nat = true |- _ => apply Nat.leb_le in G end.
    split; apply Nat.leb_le; lia.
Qed.
Lemma canonicalSettings_canon raw v : canonicalSettings raw = Ok v ->
  exists endpoints, v = TObj [("vnext", TArr endpoints)] /\ forallb canonEndpoint endpoints = true /\ (1 <= length endpoints <= 8)%nat.
Proof.
  intros H. unfold canonicalSettings in H. ok_steps H. eexists. split; [reflexivity|].
  match goal with G : Forall2 _ _ _ |- _ => rename G into HF end.
  split; [|bool_split; apply Forall2_length in HF].
  - clear -HF. induction HF as [|? ? ? ? H]; [done|]. cbn. by rewrite (canonicalEndpoint_canon _ _ H).
  - repeat match goal with G : (_ =? _)%nat = false |- _ => apply Nat.eqb_neq in G | G : (_ <=? _)%nat = true |- _ => apply Nat.leb_le in G end. lia.
Qed.
Lemma checkNested_canon m kind u : checkNested m kind = Ok u -> canonNested m kind = true.
Proof.
  unfold checkNested, canonNested. destruct (member kind.1 m) as [v|]; [|done]. intros H. apply bind_Ok in H as (nested & HN & H). apply refused_Ok in HN.
  apply bind_Ok in H as (u' & HK & _). pose proof (rejectUnknownKeys_Ok _ _ _ HK). destruct v; try done. cbn in HN. injection HN as <-. by apply (proj2 (onlyKeys_true _ _)).
Qed.
Lemma canonicalStream_canon raw v : canonicalStreamSettings raw = Ok v -> canonStream v = true.
Proof.
  intros H. unfold canonicalStreamSettings in H. ok_steps H. destruct x as [m|]; [|done]. unfold canonStream. apply andb_true_iff. split; [apply (proj2 (onlyKeys_true _ _)); assumption|].
  match goal with G : Forall2 _ nestedKeys _ |- _ => rename G into HF end. change (entries (Some m)) with m in HF. clear -HF.
  induction HF as [|? ? ? ? H]; [done|]. cbn [forallb]. by rewrite (checkNested_canon _ _ _ H).
Qed.
(** Canonicalization leaves nothing but what is listed; that there is one endpoint is
    for the identity to say. *)
Lemma canonicalize_canon raw v : canonicalizeVLESSOutbound raw = Ok v -> exists m settings stream endpoints,
  v = TObj (setMember "settings" settings (setMember "streamSettings" stream (picked ["protocol"; "tag"; "remarks"] m)))
  /\ rawObject raw = Ok (Some m) /\ member "protocol" m = Some (TStr "vless") /\ settings = TObj [("vnext", TArr endpoints)]
  /\ forallb canonEndpoint endpoints = true /\ canonStream stream = true
  /\ canonicalSettings (member "settings" m) = Ok settings /\ canonicalStreamSettings (member "streamSettings" m) = Ok stream
  /\ (forall p, p ∈ m -> p.1 ∈ ["tag"; "remarks"; "protocol"; "settings"; "streamSettings"; "level"]).
Proof.
  intros H. unfold canonicalizeVLESSOutbound in H. ok_steps H.
  match goal with G : unmarshalAt _ _ _ = Ok _ |- _ => apply unmarshalAt_Ok in G as (p & EP & HP) end. str_eq. subst.
  apply stringOf_Ok in HP as [->|[_ ?]]; [|done]. destruct x as [m|]; [|done]. change (entries (Some m)) with m in *.
  match goal with G : canonicalSettings _ = Ok _ |- _ => pose proof (canonicalSettings_canon _ _ G) as (endpoints & -> & HE & _) end.
  match goal with G : canonicalStreamSettings _ = Ok ?s |- _ => pose proof (canonicalStream_canon _ _ G); exists m, (TObj [("vnext", TArr endpoints)]), s, endpoints end.
  by split_and!.
Qed.

(** ** Decoding the canonical outbound again *)

(** No object of a document repeats a name. *)
Fixpoint distinct (v : jtext) : bool :=
  match v with
  | TArr items => forallb distinct items
  | TObj members => bool_decide (NoDup (map fst members)) && forallb (fun m => distinct m.2) members
  | _ => true
  end.
Lemma distinct_obj m : distinct (TObj m) = true <-> NoDup (map fst m) /\ forall p, p ∈ m -> distinct p.2 = true.
Proof.
  cbn. rewrite andb_true_iff, bool_decide_eq_true, forallb_forall. split; intros [H1 H2]; (split; [done|]); intros p Hp; apply H2; by apply list_elem_of_In.
Qed.
Lemma distinct_arr l : distinct (TArr l) = true <-> forall v, v ∈ l -> distinct v = true.
Proof. cbn. rewrite forallb_forall. split; intros H p Hp; apply H; by apply list_elem_of_In. Qed.
Lemma distinct_member key m v : (forall p, p ∈ m -> distinct p.2 = true) -> member key m = Some v -> distinct v = true.
Proof. intros H HM. apply member_in in HM. by apply (H (key, v)). Qed.

(** A field is named by the member of its own name only. *)
Definition exact (field : string) (allowed : list string) : bool := forallb (fun k => implb (names k field) (k =s field)) allowed.
Definition optional {A} (o : option A) : list A := match o with Some a => [a] | None => [] end.
Lemma names_refl f : names f f = true.
Proof. apply String.eqb_refl. Qed.
Lemma valuesOf_exact field allowed m : exact field allowed = true -> NoDup (map fst m) -> (forall p, p ∈ m -> p.1 ∈ allowed) ->
  valuesOf field m = optional (member field m).
Proof.
  intros HE HN HA. unfold valuesOf. induction m as [|[k v] m IH]; [done|]. cbn [map fst] in HN. apply NoDup_cons in HN as [H1 H2].
  cbn [List.filter member fst]. assert (HK : names k field = true -> k = field).
  { intros HK. assert (X : implb (names k field) (k =s field) = true).
    { unfold exact in HE. rewrite forallb_forall in HE. apply HE, list_elem_of_In. apply (HA (k, v)). left. }
    rewrite HK in X. by apply String.eqb_eq. }
  assert (IH' : map snd (List.filter (fun p => names p.1 field) m) = optional (member field m)) by (apply IH; [done|]; intros p Hp; apply HA; by right).
  destruct (String.eqb_spec field k) as [->|HF].
  - rewrite names_refl. cbn [map snd]. rewrite IH', member_absent by done. done.
  - destruct (names k field) eqn:E; [by destruct HF; symmetry; apply HK|]. exact IH'.
Qed.
Lemma decodeItems_fresh {A} (zero : A) (decode : A -> jtext -> result A) items :
  decodeItems zero decode [] items = (l ← mapM (decode zero) items; Ok (l, [])).
Proof.
  induction items as [|v items IH]; [done|]. cbn [decodeItems mapM tail]. rewrite IH. destruct (decode zero v) as [x|e]; [|done].
  cbn. by destruct (mapM _ items).
Qed.
Lemma sliceField_fresh {A} (zero : A) decode items :
  sliceField zero decode nil_slice (TArr items) = (l ← mapM (decode zero) items; Ok (mkSlice l [])).
Proof. destruct items as [|v items]; [done|]. unfold sliceField. cbn [elements_of beyond nil_slice app]. rewrite decodeItems_fresh. by destruct (mapM _ (v :: items)). Qed.
Lemma mapM_agree {A B C} (f : A -> result C) (g : B -> result C) l k : Forall2 (fun x y => f x = g y) l k -> mapM f l = mapM g k.
Proof. induction 1 as [|x y l k H _ IH]; [done|]. cbn [mapM]. by rewrite H, IH. Qed.
Lemma rawObject_Ok v m : rawObject v = Ok m -> (exists l, v = TObj l /\ m = Some (collect l)) \/ (v = TNull /\ m = None).
Proof. destruct v; cbn; intros [= <-]; [by right|left; by eexists]. Qed.
Lemma rawObjects_Ok v l : rawObjects v = Ok l -> (exists items, v = TArr items /\ Forall2 (fun x y => rawObject x = Ok y) items l) \/ (v = TNull /\ l = []).
Proof.
  intros H. unfold rawObjects in H. apply bind_Ok in H as (items & HI & H). apply mapM_Forall2 in H.
  destruct v; cbn in HI; try done; injection HI as <-; [right|left; by eexists]. by inversion H.
Qed.

(** What is picked from a map keeps its order. *)
Lemma picked_ordered names m : ordered m -> ordered (picked names m).
Proof.
  unfold ordered, picked. induction m as [|p m IH]; [done|]. cbn [map List.filter]. rewrite increasing_cons. intros [Ha Hi].
  destruct (containsString names p.1); [|by apply IH]. cbn [map]. apply increasing_cons. split; [|by apply IH].
  clear -Ha. induction m as [|q m IH]; [constructor|]. inversion Ha; subst. cbn [List.filter].
  destruct (containsString names q.1); [constructor; [done|]|]; by apply IH.
Qed.
Lemma ordered_NoDup {A} (m : list (string * A)) : ordered m -> NoDup (map fst m).
Proof. apply increasing_NoDup. Qed.
(** A field read from a map built out of an object without repeated names. *)
Lemma valuesOf_agree field allowed allowed' m m' : exact field allowed = true -> exact field allowed' = true ->
  NoDup (map fst m) -> ordered m' -> (forall p, p ∈ m -> p.1 ∈ allowed) -> onlyKeys allowed' m' = true ->
  member field m' = member field m -> valuesOf field m' = valuesOf field m.
Proof.
  intros H1 H2 HN HO HA HA' HM. rewrite (valuesOf_exact field allowed m), (valuesOf_exact field allowed' m') by (done || by apply ordered_NoDup || by apply onlyKeys_true).
  by rewrite HM.
Qed.
Lemma collect_names (m : list (string * jtext)) P : NoDup (map fst m) -> (forall p, p ∈ collect m -> P p.1) -> forall p, p ∈ m -> P p.1.
Proof.
  intros HN H [k v] Hp. cbn. pose proof (in_member _ _ _ HN Hp) as HM. rewrite <- member_collect in HM by done. apply member_in in HM. by apply (H (k, v)).
Qed.

Lemma user_agrees u m c : distinct u = true -> rawObject u = Ok m -> canonicalUser (entries m) = Ok c ->
  structField decodeUser zero_user c = structField decodeUser zero_user u.
Proof.
  intros HD HR HC. pose proof (canonicalUser_canon _ _ HC) as [-> _]. unfold canonicalUser in HC. apply bind_Ok in HC as (x & HK & _).
  pose proof (rejectUnknownKeys_Ok _ _ _ HK) as HA. apply rawObject_Ok in HR as [(l & -> & ->)|[-> ->]]; [|done].
  change (entries (Some (collect l))) with (collect l) in *. apply distinct_obj in HD as [HN _]. cbn [structField]. unfold decodeUser.
  assert (HV : forall field, field ∈ ["id"; "encryption"; "flow"] -> valuesOf field (picked ["id"; "encryption"; "flow"] (collect l)) = valuesOf field l).
  { intros field HF. apply (valuesOf_agree field ["id"; "encryption"; "flow"; "level"] ["id"; "encryption"; "flow"]); try done.
    - rewrite !elem_of_cons in HF. destruct HF as [->|[->|[->|[]%elem_of_nil]]]; reflexivity.
    - rewrite !elem_of_cons in HF. destruct HF as [->|[->|[->|[]%elem_of_nil]]]; reflexivity.
    - apply picked_ordered, collect_ordered.
    - by apply (collect_names l (fun n => n ∈ ["id"; "encryption"; "flow"; "level"])).
    - by apply onlyKeys_picked.
    - by rewrite member_picked, member_collect. }
  by rewrite !HV by in_list.
Qed.
Lemma users_agree items users l : (forall u, u ∈ items -> distinct u = true) -> Forall2 (fun x y => rawObject x = Ok y) items users ->
  Forall2 (fun x y => canonicalUser (entries x) = Ok y) users l ->
  mapM (structField decodeUser zero_user) l = mapM (structField decodeUser zero_user) items.
Proof.
  intros HD HR. revert l. induction HR as [|u m items users HU _ IH]; intros l HC; inversion HC as [|? c ? cs H1 H2]; subst; [done|].
  cbn [mapM]. rewrite (user_agrees u m c) by (done || (apply HD; left)). rewrite (IH ltac:(intros; apply HD; by right) cs) by done. done.
Qed.
Lemma endpoint_agrees e m c : distinct e = true -> rawObject e = Ok m -> canonicalEndpoint (entries m) = Ok c ->
  structField decodeVNext zero_vnext c = structField decodeVNext zero_vnext e.
Proof.
  intros HD HR HC. unfold canonicalEndpoint in HC. ok_steps HC.
  match goal with G : unmarshalAt rawObjects _ _ = Ok _ |- _ => apply unmarshalAt_Ok in G as (us & EU & HU) end.
  match goal with G : Forall2 _ _ _ |- _ => rename G into HF end.
  match goal with G : forall p, p ∈ _ -> _ |- _ => rename G into HA end.
  apply rawObject_Ok in HR as [(l & -> & ->)|[-> ->]]; [|done]. change (entries (Some (collect l))) with (collect l) in *.
  apply distinct_obj in HD as [HN HD]. rewrite member_collect in EU by done.
  assert (HV : forall field users, field ∈ ["address"; "port"] ->
    valuesOf field (setMember "users" users (picked ["address"; "port"] (collect l))) = valuesOf field l).
  { intros field users HF'. apply (valuesOf_agree field ["address"; "port"; "users"] ["address"; "port"; "users"]); try done.
    - rewrite !elem_of_cons in HF'. destruct HF' as [->|[->|[]%elem_of_nil]]; reflexivity.
    - rewrite !elem_of_cons in HF'. destruct HF' as [->|[->|[]%elem_of_nil]]; reflexivity.
    - apply setMember_ordered, picked_ordered, collect_ordered.
    - by apply (collect_names l (fun n => n ∈ ["address"; "port"; "users"])).
    - apply onlyKeys_set; [|in_list]. apply onlyKeys_picked. intros n. rewrite !elem_of_cons. tauto.
    - rewrite member_setMember. assert (E : (field =s "users") = false).
      { rewrite !elem_of_cons in HF'. destruct HF' as [->|[->|[]%elem_of_nil]]; reflexivity. }
      by rewrite E, member_picked, member_collect. }
  assert (HUS : forall users, valuesOf "users" (setMember "users" users (picked ["address"; "port"] (collect l))) = [users]).
  { intros users. rewrite (valuesOf_exact "users" ["address"; "port"; "users"]); [by rewrite member_setMember, String.eqb_refl|reflexivity| |].
    - apply ordered_NoDup, setMember_ordered, picked_ordered, collect_ordered.
    - apply onlyKeys_true, onlyKeys_set; [|in_list]. apply onlyKeys_picked. intros n. rewrite !elem_of_cons. tauto. }
  assert (HUS' : valuesOf "users" l = [us]).
  { rewrite (valuesOf_exact "users" ["address"; "port"; "users"]); [by rewrite EU|reflexivity|done|].
    by apply (collect_names l (fun n => n ∈ ["address"; "port"; "users"])). }
  cbn [structField]. unfold decodeVNext. rewrite (HV "address"), (HV "port") by in_list. rewrite HUS, HUS'.
  pose proof (distinct_member _ _ _ HD EU) as HDU. apply rawObjects_Ok in HU as [(items & -> & HR)|[-> ->]]; [|by inversion HF; subst].
  rewrite distinct_arr in HDU. cbn [fieldValues zero_vnext vn_Users]. rewrite !sliceField_fresh. by rewrite (users_agree _ _ _ HDU HR HF).
Qed.
Lemma endpoints_agree items endpoints l : (forall u, u ∈ items -> distinct u = true) -> Forall2 (fun x y => rawObject x = Ok y) items endpoints ->
  Forall2 (fun x y => canonicalEndpoint (entries x) = Ok y) endpoints l ->
  mapM (structField decodeVNext zero_vnext) l = mapM (structField decodeVNext zero_vnext) items.
Proof.
  intros HD HR. revert l. induction HR as [|u m items users HU _ IH]; intros l HC; inversion HC as [|? c ? cs H1 H2]; subst; [done|].
  cbn [mapM]. rewrite (endpoint_agrees u m c) by (done || (apply HD; left)). rewrite (IH ltac:(intros; apply HD; by right) cs) by done. done.
Qed.
Lemma settings_agree v c : distinct v = true -> canonicalSettings (Some v) = Ok c ->
  structField decodeSettings nil_slice c = structField decodeSettings nil_slice v.
Proof.
  intros HD HC. unfold canonicalSettings in HC. ok_steps HC.
  match goal with G : unmarshalAt rawObjects _ _ = Ok _ |- _ => apply unmarshalAt_Ok in G as (es & EU & HU) end.
  match goal with G : Forall2 _ _ _ |- _ => rename G into HF end.
  match goal with G : forall p, p ∈ _ -> _ |- _ => rename G into HA end.
  match goal with G : rawObject v = Ok _ |- _ => apply rawObject_Ok in G as [(l & -> & ->)|[-> ->]]; [|done] end.
  change (entries (Some (collect l))) with (collect l) in *. apply distinct_obj in HD as [HN HD]. rewrite member_collect in EU by done.
  cbn [structField]. unfold decodeSettings. change (valuesOf "vnext" [("vnext", ?a)]) with [a].
  assert (HV : valuesOf "vnext" l = [es]).
  { rewrite (valuesOf_exact "vnext" ["vnext"]); [by rewrite EU|reflexivity|done|]. by apply (collect_names l (fun n => n ∈ ["vnext"])). }
  rewrite HV. pose proof (distinct_member _ _ _ HD EU) as HDU. apply rawObjects_Ok in HU as [(items & -> & HR)|[-> ->]]; [|by inversion HF; subst].
  rewrite distinct_arr in HDU. cbn [fieldValues]. rewrite !sliceField_fresh. by rewrite (endpoints_agree _ _ _ HDU HR HF).
Qed.
Lemma stream_agree v c : distinct v = true -> canonicalStreamSettings (Some v) = Ok c ->
  structField decodeStream ("", "") c = structField decodeStream ("", "") v.
Proof.
  intros HD HC. unfold canonicalStreamSettings in HC. apply bind_Ok in HC as (m & HR & HC). apply refused_Ok, rawObject_Ok in HR.
  apply bind_Ok in HC as (x & HK & HC). pose proof (rejectUnknownKeys_Ok _ _ _ HK) as HA. apply bind_Ok in HC as (y & _ & HC).
  destruct HR as [(l & -> & ->)|[-> ->]]; injection HC as <-; [|done]. change (entries (Some (collect l))) with (collect l) in *.
  apply distinct_obj in HD as [HN _]. cbn [structField]. unfold decodeStream.
  assert (HV : forall field, field ∈ ["network"; "security"] -> valuesOf field (collect l) = valuesOf field l).
  { intros field HF. apply (valuesOf_agree field streamKeys streamKeys); try done.
    - rewrite !elem_of_cons in HF. destruct HF as [->|[->|[]%elem_of_nil]]; reflexivity.
    - rewrite !elem_of_cons in HF. destruct HF as [->|[->|[]%elem_of_nil]]; reflexivity.
    - apply collect_ordered.
    - by apply (collect_names l (fun n => n ∈ streamKeys)).
    - by apply (proj2 (onlyKeys_true _ _)).
    - by rewrite member_collect. }
  by rewrite !HV by in_list.
Qed.

Definition canonicalKeys : list string := ["protocol"; "tag"; "remarks"; "settings"; "streamSettings"].
Definition sourceKeys : list string := ["tag"; "remarks"; "protocol"; "settings"; "streamSettings"; "level"].
Lemma exact_outbound field : field ∈ canonicalKeys -> exact field canonicalKeys = true /\ exact field sourceKeys = true.
Proof. unfold canonicalKeys at 1. rewrite !elem_of_cons. intros [->|[->|[->|[->|[->|[]%elem_of_nil]]]]]; by split. Qed.
Lemma canonical_keys settings stream m :
  onlyKeys canonicalKeys (setMember "settings" settings (setMember "streamSettings" stream (picked ["protocol"; "tag"; "remarks"] m))) = true.
Proof.
  apply onlyKeys_set; [apply onlyKeys_set|]; [|unfold canonicalKeys; in_list..]. apply onlyKeys_picked. unfold canonicalKeys. intros n. rewrite !elem_of_cons. tauto.
Qed.
Lemma canonical_ordered settings stream names m : ordered m -> ordered (setMember "settings" settings (setMember "streamSettings" stream (picked names m))).
Proof. intros H. by apply setMember_ordered, setMember_ordered, picked_ordered. Qed.

Lemma unmarshal_optional A (f : A -> jtext -> result A) current o :
  fieldValues f current (optional o) = match o with Some v => f current v | None => Ok current end.
Proof. destruct o as [v|]; [|done]. cbn. by destruct (f current v). Qed.

Lemma outbound_agrees raw c : distinct raw = true -> canonicalizeVLESSOutbound raw = Ok c -> unmarshalOutbound c = unmarshalOutbound raw.
Proof.
  intros HD HC. apply canonicalize_canon in HC as (m & settings & stream & endpoints & -> & HR & _ & _ & _ & _ & HS & HT & HA).
  apply rawObject_Ok in HR as [(l & -> & [= ->])|[_ ?]]; [|done]. apply distinct_obj in HD as [HN HD].
  assert (HAL : forall p, p ∈ l -> p.1 ∈ sourceKeys) by (by apply (collect_names l (fun n => n ∈ sourceKeys))).
  rewrite !member_collect in HS, HT by done.
  destruct (member "settings" l) as [s|] eqn:ES; [|done]. destruct (member "streamSettings" l) as [t|] eqn:ET; [|done].
  pose proof (settings_agree s settings (distinct_member _ _ _ HD ES) HS) as HAS.
  pose proof (stream_agree t stream (distinct_member _ _ _ HD ET) HT) as HAT.
  set (m' := setMember "settings" settings _).
  assert (HO : ordered m') by apply canonical_ordered, collect_ordered. assert (HK : onlyKeys canonicalKeys m' = true) by apply canonical_keys.
  assert (HV : forall field, field ∈ ["protocol"; "tag"; "remarks"] -> valuesOf field m' = valuesOf field l).
  { intros field HF. assert (HF' : field ∈ canonicalKeys) by (unfold canonicalKeys; revert HF; rewrite !elem_of_cons; tauto).
    destruct (exact_outbound field HF') as [E1 E2]. apply (valuesOf_agree field sourceKeys canonicalKeys); try done.
    unfold m'. rewrite !member_setMember. assert (E : (field =s "settings") = false /\ (field =s "streamSettings") = false).
    { rewrite !elem_of_cons in HF. by destruct HF as [->|[->|[->|[]%elem_of_nil]]]. }
    destruct E as [-> ->]. by rewrite member_picked, member_collect. }
  assert (HVS : forall m keys field v, exact field keys = true -> NoDup (map fst m) -> (forall p, p ∈ m -> p.1 ∈ keys) -> member field m = Some v -> valuesOf field m = [v]).
  { intros m keys field v H1 H2 H3 H4. by rewrite (valuesOf_exact field keys), H4. }
  unfold unmarshalOutbound. cbn [structField]. unfold decodeOutbound. rewrite (HV "tag"), (HV "remarks"), (HV "protocol") by in_list.
  rewrite (HVS m' canonicalKeys "settings" settings), (HVS m' canonicalKeys "streamSettings" stream);
    try (by apply ordered_NoDup); try (by apply onlyKeys_true); try reflexivity.
  - rewrite (HVS l sourceKeys "settings" s), (HVS l sourceKeys "streamSettings" t); try done. cbn [fieldValues zero_outbound out_VNext out_Network out_Security].
    by rewrite HAS, HAT.
  - unfold m'. by rewrite !member_setMember.
  - unfold m'. by rewrite !member_setMember.
Qed.

(** ** What becomes of an outbound *)

(** A canonical object, and the same with another tag. *)
Definition canonicalObject (m : list (string * jtext)) : Prop := ordered m /\ onlyKeys canonicalKeys m = true.
Lemma canonicalize_object raw c : canonicalizeVLESSOutbound raw = Ok c -> exists m, c = TObj m /\ canonicalObject m.
Proof.
  intros H. apply canonicalize_canon in H as (m & settings & stream & endpoints & -> & HR & _). eexists. split; [reflexivity|]. split; [|by apply canonical_keys].
  apply canonical_ordered. apply rawObject_Ok in HR as [(l & _ & [= ->])|[_ ?]]; [apply collect_ordered|done].
Qed.
Lemma collect_onlyKeys keys m : onlyKeys keys m = true -> onlyKeys keys (collect m) = true.
Proof. rewrite !onlyKeys_true. intros H p Hp. apply H. by apply in_collect. Qed.
Lemma retag_object m tag c : canonicalObject m -> retagOutbound (TObj m) tag = Ok c -> c = TObj (setMember "tag" (TStr tag) (collect m))
  /\ (forall key, key <> "tag" -> member key (setMember "tag" (TStr tag) (collect m)) = member key m).
Proof.
  intros [HO HK] H. unfold retagOutbound in H. cbn in H. injection H as <-. split; [done|]. intros key HN. rewrite member_setMember.
  apply String.eqb_neq in HN. rewrite HN. by apply member_collect, ordered_NoDup.
Qed.
Lemma retag_decodes m tag c o : canonicalObject m -> retagOutbound (TObj m) tag = Ok c -> unmarshalOutbound (TObj m) = Ok o ->
  unmarshalOutbound c = Ok (set_Tag tag o).
Proof.
  intros HC HR HU. pose proof HC as [HO HK]. apply (retag_object _ _ _ HC) in HR as [-> HM]. set (m' := setMember "tag" _ _) in *.
  assert (HO' : ordered m') by apply setMember_ordered, collect_ordered.
  assert (HK' : onlyKeys canonicalKeys m' = true) by (apply onlyKeys_set; [by apply collect_onlyKeys|unfold canonicalKeys; in_list]).
  assert (HV : forall field, field ∈ canonicalKeys -> field <> "tag" -> valuesOf field m' = valuesOf field m).
  { intros field HF HN. apply (valuesOf_agree field canonicalKeys canonicalKeys); try (by apply exact_outbound); try done.
    - by apply ordered_NoDup.
    - by apply onlyKeys_true.
    - by apply HM. }
  unfold unmarshalOutbound in *. cbn [structField] in *. unfold decodeOutbound in *.
  rewrite (HV "remarks"), (HV "protocol"), (HV "settings"), (HV "streamSettings") by (unfold canonicalKeys; in_list || done).
  rewrite (valuesOf_exact "tag" canonicalKeys m'); [|reflexivity|by apply ordered_NoDup|by apply onlyKeys_true].
  unfold m' at 1. rewrite member_setMember. cbn [out_Tag out_Remarks out_Protocol out_VNext out_Network out_Security zero_outbound] in *. cbn [String.eqb Ascii.eqb Bool.eqb optional stringField]. ok_steps HU.
  repeat match goal with G : ?f = Ok _ |- context [?f] => rewrite G; clear G end. done.
Qed.

(** *** The value of a document, read into [any] *)

Lemma toAny_obj m v : toAny (TObj m) = Ok v -> exists l, v = JObj (collect l) /\ Forall2 (fun p q => p.1 = q.1 /\ toAny p.2 = Ok q.2) m l.
Proof.
  cbn. intros H. apply bind_Ok in H as (l & H & [= <-]). exists l. split; [done|]. revert l H. induction m as [|p m IH]; intros l H.
  - injection H as <-. constructor.
  - apply bind_Ok in H as (y & HY & H). apply bind_Ok in H as (ys & HYS & [= <-]). constructor; [done|by apply IH].
Qed.
Lemma toAny_arr items v : toAny (TArr items) = Ok v -> exists l, v = JArr l /\ length l = length items.
Proof.
  cbn. intros H. apply bind_Ok in H as (l & H & [= <-]). exists l. split; [done|]. revert l H. induction items as [|p m IH]; intros l H.
  - by injection H as <-.
  - apply bind_Ok in H as (y & HY & H). apply bind_Ok in H as (ys & HYS & [= <-]). cbn. by rewrite (IH _ HYS).
Qed.
Lemma toAny_member m l key : NoDup (map fst m) -> Forall2 (fun (p : string * jtext) (q : string * json) => p.1 = q.1 /\ toAny p.2 = Ok q.2) m l ->
  match member key m with Some v => exists x, member key (collect l) = Some x /\ toAny v = Ok x | None => member key (collect l) = None end.
Proof.
  intros HN HF. assert (HM : map fst l = map fst m).
  { clear HN. induction HF as [|p q m l [H _] _ IH]; [done|]. cbn. by rewrite H, IH. }
  rewrite member_collect by (by rewrite HM). clear HM HN. induction HF as [|[k v] [k' x] m l [H1 H2] _ IH]; [done|]. cbn in *. subst k'.
  destruct (key =s k); [by exists x|exact IH].
Qed.

(** A property of documents that passes to what is inside them. *)
Class Inherited (P : jtext -> Prop) : Prop := {
  inherited_item l x : P (TArr l) -> x ∈ l -> P x;
  inherited_member m p : P (TObj m) -> p ∈ m -> P p.2
}.
#[export] Instance distinct_inherited : Inherited (fun v => distinct v = true).
Proof.
  split; [intros l x H; by apply distinct_arr|]. intros m p H. apply distinct_obj in H as [_ H]. by apply H.
Qed.
#[export] Instance any_inherited : Inherited (fun _ => True).
Proof. by split. Qed.

Section Provenance.
Context (sha256Hex : string -> string) (marshal : json -> string) (sprintOther : json -> string).
Let identity := outboundIdentity sha256Hex marshal sprintOther.

(** An outbound with an identity has one endpoint. *)
Lemma identity_single raw c i : canonicalizeVLESSOutbound raw = Ok c -> identity c = Ok i -> canonOutbound c = true.
Proof.
  intros HC HI. pose proof (canonicalize_object _ _ HC) as (m' & EC & HO & HK). pose proof (canonicalize_canon _ _ HC) as (m & s & t & es & -> & HR & HP & -> & HE & HT & _).
  injection EC as EM. unfold identity, outboundIdentity in HI. apply bind_Ok in HI as (object & HA & HI). apply bind_Ok in HA as (any & HA & [= <-]).
  apply toAny_obj in HA as (l & -> & HF). cbn [asObject] in HI. rewrite EM in *.
  pose proof (toAny_member m' l "settings" (ordered_NoDup _ HO) HF) as HS. rewrite <- EM in HS. rewrite member_setMember in HS.
  change ("settings" =s "settings") with true in HS. cbv iota in HS. destruct HS as (x & ES & HX). rewrite ES in HI.
  apply toAny_obj in HX as (l' & -> & HF'). cbn [asObject] in HI.
  pose proof (toAny_member [("vnext", TArr es)] l' "vnext" (NoDup_singleton "vnext") HF') as HV. cbn [member] in HV. change ("vnext" =s "vnext") with true in HV. cbv iota in HV.
  destruct HV as (y & EY & HY). rewrite EY in HI. apply toAny_arr in HY as (le & -> & HL). cbn [asArray] in HI.
  destruct le as [|e [|? ?]]; try done. destruct es as [|endpoint [|? ?]]; try done. cbn [forallb] in HE. rewrite andb_true_r in HE.
  unfold canonOutbound. fold canonicalKeys. rewrite HK, <- EM, !member_setMember. cbn [String.eqb Ascii.eqb Bool.eqb]. rewrite member_picked, HP by in_list.
  cbn [canonSettings]. rewrite HE, HT. done.
Qed.
Lemma canon_retagged m tag c : canonicalObject m -> canonOutbound (TObj m) = true -> retagOutbound (TObj m) tag = Ok c -> canonOutbound c = true.
Proof.
  intros HC HO HR. pose proof HC as [_ HK]. apply (retag_object _ _ _ HC) in HR as [-> HM]. unfold canonOutbound in *. fold canonicalKeys in *.
  rewrite !HM by done. rewrite HK in HO. rewrite onlyKeys_set; [done|by apply collect_onlyKeys|unfold canonicalKeys; in_list].
Qed.

Context (P : jtext -> Prop) `{!Inherited P}.

(** An item as it was read, as it was identified, and with another tag. *)
Definition read (item : rawOutbound) : Prop := isVLESS item = true ->
  exists raw, P raw /\ unmarshalOutbound raw = Ok (raw_Outbound item) /\ canonicalizeVLESSOutbound raw = Ok (raw_Raw item).
Definition identified (item : rawOutbound) : Prop := isVLESS item = true ->
  exists raw, P raw /\ unmarshalOutbound raw = Ok (raw_Outbound item) /\ canonicalizeVLESSOutbound raw = Ok (raw_Raw item) /\ identity (raw_Raw item) = Ok (raw_Identity item).
Definition prepared (item : rawOutbound) : Prop := isVLESS item = true -> exists raw o c i,
  P raw /\ unmarshalOutbound raw = Ok o /\ canonicalizeVLESSOutbound raw = Ok c /\ identity c = Ok i
  /\ ((raw_Outbound item = o /\ raw_Raw item = c) \/ (exists tag, raw_Outbound item = set_Tag tag o /\ retagOutbound c tag = Ok (raw_Raw item))).

Lemma read_message raw item : P raw -> rawMessageToOutbound raw = Ok item -> read item.
Proof.
  intros HP H HV. unfold rawMessageToOutbound in H. apply bind_Ok in H as (o & HO & H). apply bind_Ok in H as (c & HC & [= <-]).
  unfold isVLESS in HV. cbn in HV |- *. rewrite HV in HC. by exists raw.
Qed.
Lemma read_messages items l : Forall P items -> rawMessagesToOutbounds items = Ok l -> Forall read l.
Proof.
  intros HP H. apply mapM_Forall2 in H. induction H as [|x y xs ys HX _ IH]; [constructor|]. apply Forall_cons in HP as [H1 H2].
  constructor; [by eapply read_message|by apply IH].
Qed.
Lemma values_inherited field m : P (TObj m) -> Forall P (valuesOf field m).
Proof.
  intros H. apply Forall_forall. intros v HV. unfold valuesOf in HV. apply elem_of_map in HV as (p & -> & HV). apply elem_of_filter_b in HV as [HV _].
  by apply (inherited_member m p).
Qed.
Lemma rawConfig_inherited v items : P v -> rawConfig v = Ok items -> Forall P items.
Proof.
  intros HP H. unfold rawConfig, structField in H. destruct v as [| | | | |m]; try done; [injection H as <-; constructor|].
  pose proof (values_inherited "outbounds" m HP) as HV. assert (HC : Forall P (@nil jtext)) by constructor.
  revert HC H. generalize (@nil jtext). induction HV as [|v vs Hv _ IH]; intros current HC H; [by injection H as <-|].
  cbn [fieldValues] in H. apply bind_Ok in H as (next & HN & H). apply (IH next); [|done]. destruct v; cbn in HN; try done; injection HN as <-; [constructor|].
  apply Forall_forall. intros x Hx. by eapply inherited_item.
Qed.
Lemma rawItems_read items l : Forall P items -> rawItems items = Ok l -> Forall read l.
Proof.
  intros HP. revert l. induction HP as [|item rest HI HR IH]; intros l H; [by injection H as <-|]. cbn [rawItems] in H.
  assert (HS : (others ← rawItems rest; Ok (match rawMessageToOutbound item with Ok o => o :: others | Err _ => others end)) = Ok l -> Forall read l).
  { intros G. apply bind_Ok in G as (others & HO & [= <-]). specialize (IH _ HO). destruct (rawMessageToOutbound item) eqn:E; [|done].
    constructor; [by eapply read_message|done]. }
  destruct (rawConfig item) as [[|x xs]|e] eqn:EC; try by apply HS. apply bind_Ok in H as (next & HN & H). apply bind_Ok in H as (others & HO & [= <-]).
  apply Forall_app. split; [|by apply IH]. eapply read_messages; [|exact HN]. by eapply rawConfig_inherited.
Qed.
Lemma extract_read v l : P v -> rawOutboundsOf v = Ok l -> Forall read l.
Proof.
  intros HP H. destruct v as [| | | |items|m]; try done; cbn [rawOutboundsOf] in H.
  - apply bind_Ok in H as (out & HO & H). destruct out; [done|]. injection H as <-. eapply rawItems_read; [|exact HO].
    apply Forall_forall. intros x Hx. by eapply inherited_item.
  - ok_steps H. eapply read_messages; [|exact H]. by eapply rawConfig_inherited.
Qed.

Lemma deduplicate_identified all seen items l n : Forall read items ->
  deduplicate sha256Hex marshal sprintOther all seen items = Ok (l, n) -> Forall identified l.
Proof.
  intros HR. revert seen l n. induction HR as [|item rest HI _ IH]; intros seen l n H; [by injection H as <- <-|]. cbn [deduplicate] in H.
  destruct (isVLESS item) eqn:EV; cbn [negb] in H.
  - apply bind_Ok in H as (i & HX & H). apply refused_Ok in HX. destruct (HI EV) as (raw & HP & HU & HC).
    destruct (decide _); apply bind_Ok in H as ([l' n'] & HO & [= <- <-]); [by eapply IH|]. constructor; [|by eapply IH]. intros _. by exists raw.
  - apply bind_Ok in H as ([l' n'] & HO & [= <- <-]). constructor; [|by eapply IH]. unfold identified, isVLESS in *. cbn. congruence.
Qed.
Lemma retag_prepared all used items l : Forall identified items -> retag all used items = Ok l -> Forall prepared l.
Proof.
  intros HR. revert used l. induction HR as [|item rest HI _ IH]; intros used l H; [by injection H as <-|]. cbn [retag] in H.
  destruct (_ || _ || _) eqn:EB.
  - apply bind_Ok in H as (others & HO & [= <-]). constructor; [|by eapply IH]. intros HV. destruct (HI HV) as (raw & HP & HU & HC & HN).
    exists raw, (raw_Outbound item), (raw_Raw item), (raw_Identity item). split_and!; try done. by left.
  - bool_split. apply bind_Ok in H as (tag & _ & H). apply bind_Ok in H as (c & HT & H). apply refused_Ok in HT. apply bind_Ok in H as (others & HO & [= <-]).
    constructor; [|by eapply IH]. intros _. destruct (HI ltac:(done)) as (raw & HP & HU & HC & HN).
    exists raw, (raw_Outbound item), (raw_Raw item), (raw_Identity item). split_and!; try done. right. by exists tag.
Qed.
Lemma prepare_prepared items l nm : Forall read items -> prepareRawOutbounds sha256Hex marshal sprintOther items = Ok (l, nm) -> Forall prepared l.
Proof.
  intros HR H. unfold prepareRawOutbounds in H. ok_steps H. destruct x1 as [dedup n]. ok_steps H. eapply retag_prepared; [|eassumption]. by eapply deduplicate_identified.
Qed.

(** A prepared outbound is canonical. *)
Lemma prepared_canon item : prepared item -> isVLESS item = true -> canonOutbound (raw_Raw item) = true.
Proof.
  intros HI HV. destruct (HI HV) as (raw & o & c & i & _ & _ & HC & HN & [[_ ->]|(tag & _ & HT)]); [by eapply identity_single|].
  pose proof (identity_single _ _ _ HC HN) as HO. apply canonicalize_object in HC as (m & -> & HM). by eapply canon_retagged.
Qed.
End Provenance.

(** ** Tags *)

Definition tag_of (item : rawOutbound) : string := out_Tag (raw_Outbound item).
(** The tags of the VLESS outbounds that match the pattern. *)
Definition safeTags (items : list rawOutbound) : list string := List.filter safeTagPattern (map tag_of (List.filter isVLESS items)).
Lemma safeTags_cons item items : safeTags (item :: items) =
  if isVLESS item && safeTagPattern (tag_of item) then tag_of item :: safeTags items else safeTags items.
Proof. unfold safeTags. cbn [List.filter]. destruct (isVLESS item); [|done]. cbn [map List.filter]. by destruct (safeTagPattern _). Qed.
Lemma safeTags_in t items : t ∈ safeTags items -> exists i, i ∈ items /\ isVLESS i = true /\ tag_of i = t.
Proof.
  unfold safeTags. intros H. apply elem_of_filter_b in H as [H _]. apply elem_of_map in H as (i & -> & H). apply elem_of_filter_b in H as [H1 H2]. by exists i.
Qed.
Lemma countOf_in t items : (0 < countOf t items)%nat <-> exists i, i ∈ items /\ tag_of i = t.
Proof.
  unfold countOf. split.
  - intros H. destruct (List.filter _ items) as [|i l] eqn:E; [cbn in H; lia|]. exists i.
    assert (HI : i ∈ List.filter (fun i => tag_of i =s t) items) by (unfold tag_of; rewrite E; left). apply elem_of_filter_b in HI as [H1 H2]. by str_eq.
  - intros (i & HI & HT). assert (X : i ∈ List.filter (fun i => tag_of i =s t) items) by (apply elem_of_filter_b; rewrite HT, String.eqb_refl; done).
    unfold tag_of in X. destruct (List.filter _ items); [by apply elem_of_nil in X|cbn; lia].
Qed.
Lemma countOf_cons t item items : countOf t (item :: items) = ((if tag_of item =s t then 1 else 0) + countOf t items)%nat.
Proof. unfold countOf. cbn [List.filter]. fold (tag_of item). by destruct (tag_of item =s t). Qed.
Lemma collisionSafe_fresh lengths base id used t : collisionSafe lengths base id used = Ok t -> t ∉ used.
Proof. induction lengths as [|n lengths IH]; [done|]. cbn [collisionSafe]. destruct (decide _); [done|]. by intros [= <-]. Qed.

(** A tag the loop leaves or gives is new, or it is the only one of its kind. *)
Lemma retag_tags all items : forall used l, retag all used items = Ok l ->
  (forall t, (countOf t (List.filter isVLESS items) <= countOf t (List.filter isVLESS all))%nat) ->
  (forall t, (0 < countOf t (List.filter isVLESS all))%nat -> t ∈ used) ->
  NoDup (safeTags l) /\ forall t, t ∈ safeTags l -> t ∉ used \/ ((countOf t (List.filter isVLESS all) < 2)%nat /\ (0 < countOf t (List.filter isVLESS items))%nat).
Proof.
  induction items as [|item items IH]; intros used l H HS HU.
  - injection H as <-. split; [constructor|]. intros t HT. by apply elem_of_nil in HT.
  - cbn [retag] in H. fold (tag_of item) in H. destruct (isVLESS item) eqn:EV; cbn [negb orb] in H.
    2:{ apply bind_Ok in H as (others & HO & [= <-]). cbn [List.filter] in HS |- *. rewrite EV in HS |- *. destruct (IH used others HO HS HU) as [HN HI].
        rewrite safeTags_cons, EV. by split. }
    assert (HS' : forall t, (countOf t (List.filter isVLESS items) <= countOf t (List.filter isVLESS all))%nat).
    { intros t. specialize (HS t). cbn [List.filter] in HS. rewrite EV, countOf_cons in HS. lia. }
    assert (HL : forall t, countOf t (List.filter isVLESS (item :: items)) = ((if tag_of item =s t then 1 else 0) + countOf t (List.filter isVLESS items))%nat).
    { intros t. cbn [List.filter]. by rewrite EV, countOf_cons. }
    destruct (_ || _) eqn:EB.
    + apply bind_Ok in H as (others & HO & [= <-]). destruct (IH used others HO HS' HU) as [HN HI]. rewrite safeTags_cons, EV. cbn [andb].
      assert (HW : forall t, t ∈ safeTags others -> t ∉ used \/ (countOf t (List.filter isVLESS all) < 2)%nat /\ (0 < countOf t (List.filter isVLESS (item :: items)))%nat).
      { intros t HT. destruct (HI t HT) as [?|[? ?]]; [by left|right]. split; [done|]. rewrite HL. lia. }
      destruct (safeTagPattern (tag_of item)) eqn:ES; [|by split]. cbn [negb orb] in EB. rewrite orb_false_r in EB. apply Nat.ltb_lt in EB. split.
      * apply NoDup_cons. split; [|done]. intros HT. specialize (HS (tag_of item)). rewrite HL, String.eqb_refl in HS. destruct (HI _ HT) as [HX|[_ HX]]; [|lia].
        apply HX, HU. lia.
      * intros t HT. apply elem_of_cons in HT as [->|HT]; [|by apply HW]. right. split; [done|]. rewrite HL, String.eqb_refl. lia.
    + apply bind_Ok in H as (newTag & HC & H). apply bind_Ok in H as (c & _ & H). apply bind_Ok in H as (others & HO & [= <-]).
      apply collisionSafe_fresh in HC. assert (HU' : forall t, (0 < countOf t (List.filter isVLESS all))%nat -> t ∈ {[newTag]} ∪ used).
      { intros t Ht. apply elem_of_union. right. by apply HU. }
      destruct (IH _ _ HO HS' HU') as [HN HI]. rewrite safeTags_cons.
      change (isVLESS (mkRaw (set_Tag newTag (raw_Outbound item)) c _ _ _)) with (isVLESS item). rewrite EV. cbn [andb tag_of raw_Outbound set_Tag out_Tag].
      assert (HW : forall t, t ∈ safeTags others -> t ∉ used \/ (countOf t (List.filter isVLESS all) < 2)%nat /\ (0 < countOf t (List.filter isVLESS (item :: items)))%nat).
      { intros t HT. destruct (HI t HT) as [HX|[? ?]]; [left; intros HY; apply HX, elem_of_union; by right|right]. split; [done|]. rewrite HL. lia. }
      destruct (safeTagPattern newTag); [|split; [exact HN|exact HW]]. split.
      * apply NoDup_cons. split; [|done]. intros HT. destruct (HI _ HT) as [HX|[_ HX]].
        -- apply HX, elem_of_union. left. by apply elem_of_singleton.
        -- apply HC, HU. specialize (HS' newTag). lia.
      * intros t HT. apply elem_of_cons in HT as [->|HT]; [by left|by apply HW].
Qed.

Section Main.
Context (sha256Hex : string -> string) (marshal : json -> string) (sprintOther : json -> string).

Lemma prepare_tags items l nm : prepareRawOutbounds sha256Hex marshal sprintOther items = Ok (l, nm) -> NoDup (safeTags l).
Proof.
  intros H. unfold prepareRawOutbounds in H. ok_steps H. destruct x1 as [dedup n]. ok_steps H.
  match goal with G : retag _ _ _ = Ok _ |- _ => refine (proj1 (retag_tags _ _ _ _ G ltac:(done) _)) end.
  intros t Ht. apply countOf_in in Ht as (i & HI & <-). apply elem_of_list_to_set, elem_of_map. by exists i.
Qed.

(** The decisions on the VLESS outbounds, one by one. *)
Lemma decided_map items : decided items = List.filter (fun p => isVLESS p.1)
  (map (fun i => (i, if negb (isVLESS i) then mkDecision false "" else
     if maxVLESSServers <? Z.of_nat (length (vlessOnly (map raw_Outbound items))) then mkDecision false "server_limit_exceeded"
     else mkDecision (validateVLESSOutbound (raw_Outbound i) =s "") (validateVLESSOutbound (raw_Outbound i)))) items).
Proof.
  unfold decided, classifyOutbounds. f_equal. generalize (maxVLESSServers <? Z.of_nat (length (vlessOnly (map raw_Outbound items)))).
  intros b. induction items as [|i items IH]; [done|]. cbn [map combine]. by rewrite IH.
Qed.
Lemma supported_valid items supported statuses e i : classifyPreparedRawOutbounds items = (supported, statuses, e) -> i ∈ supported ->
  i ∈ items /\ isVLESS i = true /\ validateVLESSOutbound (raw_Outbound i) = "".
Proof.
  unfold classifyPreparedRawOutbounds. intros H HI.
  assert (HS : i ∈ map fst (List.filter (fun p => dc_Supported p.2) (decided items))).
  { destruct (map _ (decided items)); [by injection H as <- _ _; apply elem_of_nil in HI|].
    destruct (map fst _) eqn:E; injection H as <- _ _; [by apply elem_of_nil in HI|done]. }
  apply elem_of_map in HS as ([j d] & -> & HJ). apply elem_of_filter_b in HJ as [HJ HD]. rewrite decided_map in HJ.
  apply elem_of_filter_b in HJ as [HJ HV]. apply elem_of_map in HJ as (k & [= <- ->] & HK). cbn in HV, HD |- *. rewrite HV in HD. cbn in HD.
  destruct (_ <? _) in HD; [done|]. cbn in HD. by str_eq.
Qed.
Lemma generated_supported b basePort supported statuses : generate sha256Hex marshal sprintOther b basePort = Ok (supported, statuses) ->
  exists v items l nm, parse b = Some v /\ rawOutboundsOf v = Ok items /\ prepareRawOutbounds sha256Hex marshal sprintOther items = Ok (l, nm)
  /\ classifyPreparedRawOutbounds l = (supported, statuses, None) /\ validatePortRange basePort (Z.of_nat (length supported)) = Ok ().
Proof.
  intros H. unfold generate in H. apply bind_Ok in H as (items & HE & H). apply bind_Ok in H as ([s t] & HC & H). ok_steps H.
  unfold extractRawOutbounds in HE. apply bind_Ok in HE as (v & HR & HE). unfold readDocument in HR. destruct (parse b) as [w|] eqn:EP; [|done].
  apply bind_Ok in HR as (a & _ & [= ->]). unfold classifyRawOutbounds in HC. apply bind_Ok in HC as ([l nm] & HP & HC).
  destruct (classifyPreparedRawOutbounds l) as [[s t] [e|]] eqn:EL; [done|]. injection HC as -> ->. exists v, items, l, nm. split_and!; try done.
  by match goal with G : validatePortRange _ _ = Ok ?u |- _ => destruct u end.
Qed.

(** C25: Every outbound of a generated Xray configuration has only the members the
    generator lists: the protocol VLESS, one endpoint with a server address that is not
    local, a port from 1 to 65535 and between one and sixteen users, and stream
    settings of the known kinds; whatever else the provider's document held is gone. *)
Theorem generated_config_is_canonical b basePort supported statuses item :
  generate sha256Hex marshal sprintOther b basePort = Ok (supported, statuses) -> item ∈ supported -> canonOutbound (raw_Raw item) = true.
Proof.
  intros H HI. apply generated_supported in H as (v & items & l & nm & _ & HE & HP & HC & _).
  destruct (supported_valid _ _ _ _ _ HC HI) as (HL & HV & _).
  pose proof (prepare_prepared sha256Hex marshal sprintOther (fun _ => True) _ _ _ (extract_read (fun _ => True) v items I HE) HP) as HF.
  rewrite Forall_forall in HF. eapply prepared_canon; [by apply HF|done].
Qed.

(** An outbound of the configuration, decoded again. *)
Lemma generated_decodes b v basePort supported statuses item :
  parse b = Some v -> distinct v = true -> generate sha256Hex marshal sprintOther b basePort = Ok (supported, statuses) -> item ∈ supported ->
  unmarshalOutbound (raw_Raw item) = Ok (raw_Outbound item) /\ validateVLESSOutbound (raw_Outbound item) = "".
Proof.
  intros HB HD H HI. apply generated_supported in H as (v' & items & l & nm & HB' & HE & HP & HC & _). rewrite HB in HB'. injection HB' as <-.
  destruct (supported_valid _ _ _ _ _ HC HI) as (HL & HV & HS). split; [|done].
  pose proof (prepare_prepared sha256Hex marshal sprintOther (fun v => distinct v = true) _ _ _ (extract_read (fun v => distinct v = true) v items HD HE) HP) as HF.
  rewrite Forall_forall in HF. destruct (HF _ HL HV) as (raw & o & c & i & HDR & HU & HCA & HN & HO).
  pose proof (outbound_agrees _ _ HDR HCA) as HA. rewrite HU in HA. destruct HO as [[-> ->]|(tag & -> & HT)]; [done|].
  apply canonicalize_object in HCA as (m & -> & HM). by eapply retag_decodes.
Qed.

(** C26: Where the document repeats no name in an object, each outbound of the
    configuration is one that was checked: decoded again, the written value gives the
    outbound [validateVLESSOutbound] accepted. *)
Theorem validated_is_what_is_written b v basePort supported statuses item :
  parse b = Some v -> distinct v = true -> generate sha256Hex marshal sprintOther b basePort = Ok (supported, statuses) -> item ∈ supported ->
  unmarshalOutbound (raw_Raw item) = Ok (raw_Outbound item) /\ validateVLESSOutbound (raw_Outbound item) = "".
Proof. intros HB HD H HI. exact (generated_decodes b v basePort supported statuses item HB HD H HI). Qed.

Lemma safeTags_all l : Forall (fun i => isVLESS i = true /\ safeTagPattern (tag_of i) = true) l -> safeTags l = map tag_of l.
Proof. induction 1 as [|i l [H1 H2] _ IH]; [done|]. by rewrite safeTags_cons, H1, H2, IH. Qed.
Lemma supported_sublist l supported statuses e : classifyPreparedRawOutbounds l = (supported, statuses, e) -> sublist supported l.
Proof.
  intros H. assert (HS : sublist (map fst (List.filter (fun p => dc_Supported p.2) (decided l))) l).
  { rewrite decided_map. generalize (maxVLESSServers <? Z.of_nat (length (vlessOnly (map raw_Outbound l)))). intros b. clear H.
    induction l as [|i l IH]; [constructor|]. cbn [map List.filter fst].
    destruct (isVLESS i); [|by constructor]. cbn [List.filter snd]. destruct (dc_Supported _); [by constructor|by constructor]. }
  unfold classifyPreparedRawOutbounds in H. destruct (map _ (decided l)); [injection H as <- _ _; apply sublist_nil_l|].
  destruct (map fst _) eqn:E; injection H as <- _ _; [apply sublist_nil_l|done].
Qed.
Lemma safeTags_sublist l k : sublist l k -> sublist (safeTags l) (safeTags k).
Proof.
  induction 1 as [|i l k _ IH|i l k _ IH]; [constructor| |]; rewrite !safeTags_cons; destruct (_ && _); try done; by constructor.
Qed.
(** The tags of the supported outbounds are the names of the routes. *)
Lemma generated_tags b basePort supported statuses : generate sha256Hex marshal sprintOther b basePort = Ok (supported, statuses) ->
  NoDup (map tag_of supported) /\ Forall (fun i => isVLESS i = true /\ safeTagPattern (tag_of i) = true) supported.
Proof.
  intros H. apply generated_supported in H as (v & items & l & nm & _ & HE & HP & HC & _).
  assert (HF : Forall (fun i => isVLESS i = true /\ safeTagPattern (tag_of i) = true) supported).
  { apply Forall_forall. intros i HI. destruct (supported_valid _ _ _ _ _ HC HI) as (_ & HV & HS). split; [done|].
    unfold validateVLESSOutbound in HS. fold (tag_of i) in HS. by destruct (safeTagPattern (tag_of i)). }
  split; [|done]. rewrite <- safeTags_all by done. eapply sublist_NoDup; [by eapply prepare_tags|]. apply safeTags_sublist. by eapply supported_sublist.
Qed.
End Main.

(** ** A subscription with two servers *)

Module SubscriptionExample.
Definition hash (s : string) : string := prefix (hexEncode s +:+ hexEncode (String.concat "" (repeat "0" 32))) 64.
(** An identity by its address alone. *)
Definition text (v : json) : string := asString (member "address" (asObject (Some v))).
Definition sprint (_ : json) : string := "?".
Definition user : jtext := TObj [("id", TStr "0a1b2c3d-0a1b-4a1b-8a1b-0a1b2c3d4e5f"); ("encryption", TStr "none"); ("level", TNum "8")].
Definition server (address tag : string) (stream : list (string * jtext)) : jtext := TObj ([
  ("tag", TStr tag); ("protocol", TStr "vless");
  ("settings", TObj [("vnext", TArr [TObj [("address", TStr address); ("port", TNum "443"); ("users", TArr [user])]])])] ++ stream).
Definition secure : string * jtext := ("streamSettings", TObj [("network", TStr "tcp"); ("security", TStr "tls")]).
Definition documentOf (servers : list jtext) : jtext := TObj [("outbounds", TArr servers)].
Definition document : jtext := documentOf [server "a.example" "de" [secure]; server "b.example" "de" [secure]; server "localhost" "bad" [secure]].
Definition generated (servers : list jtext) : result (list rawOutbound * list ServerStatus) := generate hash text sprint (print (documentOf servers)) 2000.
Definition two : list jtext := [server "a.example" "de" [secure]; server "b.example" "de" [secure]].
Definition outcome : list rawOutbound * list ServerStatus := match generated two with Ok p => p | Err _ => ([], []) end.
Definition firstItem : rawOutbound := match outcome.1 with i :: _ => i | [] => mkRaw zero_outbound TNull "" "" 0 end.
Lemma outcome_is : generated two = Ok outcome.
Proof. vm_compute. reflexivity. Qed.
Lemma firstItem_in : firstItem ∈ outcome.1.
Proof. assert (E : exists l, outcome.1 = firstItem :: l) by (eexists; vm_compute; reflexivity). destruct E as [l ->]. left. Qed.
(** Servers with one tag get tags of their own. *)
Example ex_retagged : map tag_of outcome.1 = ["de-612e6578"; "de-622e6578"].
Proof. vm_compute. reflexivity. Qed.
(** A local address stops the whole document. *)
Example ex_local : generate hash text sprint (print document) 2000 = Err "invalid VLESS server address".
Proof. vm_compute. reflexivity. Qed.
End SubscriptionExample.
Import SubscriptionExample.

Lemma generated_config_is_canonical_witness : canonOutbound (raw_Raw firstItem) = true.
Proof. exact (generated_config_is_canonical hash text sprint (print (documentOf two)) 2000 outcome.1 outcome.2 firstItem outcome_is firstItem_in). Defined.
Lemma validated_is_what_is_written_witness :
  unmarshalOutbound (raw_Raw firstItem) = Ok (raw_Outbound firstItem) /\ validateVLESSOutbound (raw_Outbound firstItem) = "".
Proof.
  refine (validated_is_what_is_written hash text sprint (print (documentOf two)) (documentOf two) 2000 outcome.1 outcome.2 firstItem _ _ outcome_is firstItem_in).
  - vm_compute. reflexivity.
  - vm_compute. reflexivity.
Defined.

(** A document that repeats a name: the settings of the first stream are checked, the
    second stream is written, and the server is used without TLS. *)
Definition repeated : jtext := server "a.example" "de" [secure; ("streamSettings", TObj [])].
Definition streamOf (v : jtext) : option jtext := match v with TObj m => member "streamSettings" m | _ => None end.
Example repeated_stream_drops_tls :
  match generated [repeated] with
  | Ok ([item], _) => streamOf (raw_Raw item) = Some (TObj []) /\ out_Security (raw_Outbound item) = "tls"
  | _ => False
  end.
Proof. vm_compute. by split. Qed.
(** Addresses that are local and pass for names: a bracketed loopback, and an address of
    the shared space mapped into IPv6. *)
Example local_addresses_accepted : map safeServerAddress ["[::1]"; "::ffff:100.64.0.1"; "100.64.0.1"; "::1"] = [true; true; false; false].
Proof. vm_compute. reflexivity. Qed.
