(* ===== verification/Pool.v ===== *)
(** * The pool of VPN servers

    [internal/xraybundle/bundle.go], [internal/writebudget/writebudget.go] and, of
    [internal/vpnsub], [manager.go], [pool.go], [subscription.go] and what they use of
    [speedtest.go]: a subscription becomes a candidate configuration, the candidate is
    started, its servers are probed through their SOCKS listeners, and a bundle that
    holds a verified server is stored under its hash.

    Xray, the probes, the network and the clock are steps on a state [K]. *)
From Stdlib Require Import ZArith Lia SpecFloat.
From stdpp Require Import base list strings pretty gmap.
From S2P Require Import Prelude Effects Float64 Net Config Validation Json JsonText Evidence Health ProbeTypes ProbePath Probe Subscription.

Open Scope Z_scope.
Import JText GoJSON.

(** ** The count of writes *)

Module WriteBudget.
Record Counters := mkCounters {
  wb_FilesCreated : Z;
  wb_FilesReplaced : Z;
  wb_FilesDeleted : Z;
  wb_BytesWritten : Z;
  wb_Fsyncs : Z;
  wb_Snapshots : Z;
  wb_Backups : Z;
  wb_LastReason : string;
  wb_LastAt : time
}.
Definition add64 (a b : Z) : Z := (a + b) mod 2 ^ 64.
Definition recordReason (reason : string) (now : time) (c : Counters) : Counters :=
  mkCounters (wb_FilesCreated c) (wb_FilesReplaced c) (wb_FilesDeleted c) (wb_BytesWritten c) (wb_Fsyncs c) (wb_Snapshots c) (wb_Backups c) reason now.
Definition RecordFileWrite (created : bool) (bytes fsyncCount : Z) (reason : string) (now : time) (c : Counters) : Counters :=
  recordReason reason now (mkCounters
    (if created then add64 (wb_FilesCreated c) 1 else wb_FilesCreated c) (if created then wb_FilesReplaced c else add64 (wb_FilesReplaced c) 1)
    (wb_FilesDeleted c) (add64 (wb_BytesWritten c) bytes) (add64 (wb_Fsyncs c) fsyncCount) (wb_Snapshots c) (wb_Backups c) (wb_LastReason c) (wb_LastAt c)).
Definition RecordDelete (reason : string) (now : time) (c : Counters) : Counters :=
  recordReason reason now (mkCounters (wb_FilesCreated c) (wb_FilesReplaced c) (add64 (wb_FilesDeleted c) 1) (wb_BytesWritten c) (wb_Fsyncs c)
    (wb_Snapshots c) (wb_Backups c) (wb_LastReason c) (wb_LastAt c)).
Definition RecordSnapshot (reason : string) (now : time) (c : Counters) : Counters :=
  recordReason reason now (mkCounters (wb_FilesCreated c) (wb_FilesReplaced c) (wb_FilesDeleted c) (wb_BytesWritten c) (wb_Fsyncs c)
    (add64 (wb_Snapshots c) 1) (wb_Backups c) (wb_LastReason c) (wb_LastAt c)).
Definition RecordBackup (reason : string) (now : time) (c : Counters) : Counters :=
  recordReason reason now (mkCounters (wb_FilesCreated c) (wb_FilesReplaced c) (wb_FilesDeleted c) (wb_BytesWritten c) (wb_Fsyncs c)
    (wb_Snapshots c) (add64 (wb_Backups c) 1) (wb_LastReason c) (wb_LastAt c)).
End WriteBudget.

(** ** Bundles *)

Module XrayBundle.
Definition MaxBytes : Z := Z.shiftl 4 20.
Definition digestPattern (s : string) : option string :=
  let digest := String.substring 7 (String.length s - 7) s in
  if S.HasPrefix s "sha256:" && (S.len digest =? 64) && S.all_bytes lowerHex digest then Some digest else None.
(** The pattern of tags is the one subscriptions use. *)
Definition tagPattern : string -> bool := safeTagPattern.

Record Bundle := mkBundle { bd_Raw : string; bd_Inbounds : list jtext; bd_Outbounds : list jtext; bd_Rules : list jtext }.
Record inbound := mkInbound { ib_Tag : string; ib_Listen : string; ib_Port : Z; ib_Protocol : string }.
Record outbound := mkOutbound { ob_Tag : string; ob_Protocol : string }.
Record rule := mkRule { rl_Type : string; rl_InboundTags : list string; rl_OutboundTag : string }.

Definition decodeInbound (m : list (string * jtext)) : result inbound :=
  tag ← stringField "" (valuesOf "tag" m);
  listen ← stringField "" (valuesOf "listen" m);
  port ← intField 0 (valuesOf "port" m);
  protocol ← stringField "" (valuesOf "protocol" m);
  Ok (mkInbound tag listen port protocol).
Definition decodeOutbound (m : list (string * jtext)) : result outbound :=
  tag ← stringField "" (valuesOf "tag" m);
  protocol ← stringField "" (valuesOf "protocol" m);
  Ok (mkOutbound tag protocol).
Definition decodeRule (m : list (string * jtext)) : result rule :=
  type ← stringField "" (valuesOf "type" m);
  inboundTags ← fieldValues (sliceField "" (fun current v => stringField current [v])) nil_slice (valuesOf "inboundTag" m);
  outboundTag ← stringField "" (valuesOf "outboundTag" m);
  Ok (mkRule type (elements_of inboundTags) outboundTag).

(** The fields [inbounds], [outbounds] and [routing.rules]. *)
Definition bundleOf (raw : string) (v : jtext) : result Bundle :=
  '(inbounds, outbounds, rules) ← structField (fun _ m =>
      inbounds ← fieldValues rawSlice [] (valuesOf "inbounds" m);
      outbounds ← fieldValues rawSlice [] (valuesOf "outbounds" m);
      rules ← fieldValues (structField (fun rules m => fieldValues rawSlice rules (valuesOf "rules" m))) [] (valuesOf "routing" m);
      Ok (inbounds, outbounds, rules)) ([], [], []) v;
  if (length inbounds =? 0)%nat || (length outbounds =? 0)%nat || (length rules =? 0)%nat then Err "incomplete Xray bundle"
  else Ok (mkBundle raw inbounds outbounds rules).
(** One value and nothing behind it: the two refusals of the decoder are one here. *)
Definition parse (raw : string) : result Bundle :=
  match JText.parse raw with Some v => bundleOf raw v | None => Err "invalid Xray bundle JSON" end.

(** *** The routes of a candidate and its bundle *)

Definition safeInbound (value : inbound) : bool :=
  tagPattern (ib_Tag value) && (ib_Listen value =s "127.0.0.1") && (ib_Protocol value =s "socks") && (1024 <=? ib_Port value) && (ib_Port value <=? 65535).
Fixpoint readInbounds (inboundByTag : gmap string inbound) (portSeen : gset Z) (l : list jtext) : result (gmap string inbound) :=
  match l with
  | [] => Ok inboundByTag
  | raw :: rest =>
      value ← refused (structItem decodeInbound raw) "invalid Xray bundle inbound";
      _ ← ensure (safeInbound value) "unsafe Xray bundle inbound";
      if bool_decide (is_Some (inboundByTag !! ib_Tag value)) || bool_decide (ib_Port value ∈ portSeen) then Err "duplicate Xray bundle inbound"
      else readInbounds (<[ib_Tag value := value]> inboundByTag) ({[ib_Port value]} ∪ portSeen) rest
  end.
Fixpoint readOutbounds (outboundByTag : gmap string outbound) (l : list jtext) : result (gmap string outbound) :=
  match l with
  | [] => Ok outboundByTag
  | raw :: rest =>
      value ← refused (structItem decodeOutbound raw) "invalid Xray bundle outbound";
      _ ← ensure (tagPattern (ob_Tag value) && (ob_Protocol value =s "vless")) "unsafe Xray bundle outbound";
      if bool_decide (is_Some (outboundByTag !! ob_Tag value)) then Err "duplicate Xray bundle outbound"
      else readOutbounds (<[ob_Tag value := value]> outboundByTag) rest
  end.
Fixpoint readRules (inboundByTag : gmap string inbound) (outboundByTag : gmap string outbound) (ruleByOutbound : gmap string string) (l : list jtext)
    : result (gmap string string) :=
  match l with
  | [] => Ok ruleByOutbound
  | raw :: rest =>
      value ← refused (structItem decodeRule raw) "invalid Xray bundle routing rule";
      match rl_InboundTags value with
      | [inboundTag] =>
          _ ← ensure (rl_Type value =s "field") "invalid Xray bundle routing rule";
          _ ← ensure (bool_decide (is_Some (inboundByTag !! inboundTag))) "Xray bundle rule references unknown inbound";
          _ ← ensure (bool_decide (is_Some (outboundByTag !! rl_OutboundTag value))) "Xray bundle rule references unknown outbound";
          _ ← ensure (negb (bool_decide (is_Some (ruleByOutbound !! rl_OutboundTag value)))) "duplicate Xray bundle routing rule";
          readRules inboundByTag outboundByTag (<[rl_OutboundTag value := inboundTag]> ruleByOutbound) rest
      | _ => Err "invalid Xray bundle routing rule"
      end
  end.
Definition vlessRoutes (routes : list Route) : list Route := List.filter (fun r => r_Type r =s "vless") routes.
Definition checkRoute (inboundByTag : gmap string inbound) (outboundByTag : gmap string outbound) (ruleByOutbound : gmap string string) (route : Route)
    : result unit :=
  let tag := r_Tag route in
  _ ← ensure (bool_decide (is_Some (outboundByTag !! tag))) ("candidate VLESS route " +:+ tag +:+ " is absent from Xray bundle");
  match ruleByOutbound !! tag with
  | Some inboundTag =>
      _ ← ensure (inboundTag =s "socks-" +:+ tag) ("Xray bundle route " +:+ tag +:+ " has no bound SOCKS inbound");
      match Net.SplitHostPort (r_SOCKS5 route) with
      | Some (host, portText) =>
          _ ← ensure (host =s "127.0.0.1") ("candidate VLESS route " +:+ tag +:+ " has unsafe SOCKS address");
          let bound := match inboundByTag !! inboundTag with Some value => ib_Port value | None => 0 end in
          ensure (match Atoi portText with Some port => port =? bound | None => false end)
            ("candidate VLESS route " +:+ tag +:+ " SOCKS port does not match bundle")
      | None => Err ("candidate VLESS route " +:+ tag +:+ " has unsafe SOCKS address")
      end
  | None => Err ("Xray bundle route " +:+ tag +:+ " has no bound SOCKS inbound")
  end.
(** The last loop ranges over a map: with several errors, which one is returned is left
    open there. *)
Definition ValidateRoutes (bundle : Bundle) (routes : list Route) : result unit :=
  inboundByTag ← readInbounds ∅ ∅ (bd_Inbounds bundle);
  outboundByTag ← readOutbounds ∅ (bd_Outbounds bundle);
  _ ← ensure (negb (size outboundByTag =? 0)%nat && (size inboundByTag =? size outboundByTag)%nat && (length (bd_Rules bundle) =? size outboundByTag)%nat)
        "incomplete Xray bundle topology";
  ruleByOutbound ← readRules inboundByTag outboundByTag ∅ (bd_Rules bundle);
  let tags := map r_Tag (vlessRoutes routes) in
  _ ← ensure (bool_decide (NoDup tags)) "duplicate VLESS route";
  _ ← ensure (length tags =? size outboundByTag)%nat "candidate VLESS routes do not match Xray bundle";
  _ ← mapM (checkRoute inboundByTag outboundByTag ruleByOutbound) (vlessRoutes routes);
  Ok ().

(** *** The store of bundles *)

Section Store.
Context (sha256Hex : string -> string) {K : Type} `{FileSystem K} (now : K -> K * time).
(** The counters of the process, and the sync of a directory: [Ok] when it was opened
    and synced. *)
Context (count : (WriteBudget.Counters -> WriteBudget.Counters) -> K -> K) (syncDir : string -> io K unit).

Definition Hash (raw : string) : string := "sha256:" +:+ sha256Hex raw.
Definition Path (stateDir digest : string) : result string :=
  match digestPattern digest with
  | Some hex =>
      if S.TrimSpace stateDir =s "" then Err "valid state directory and Xray bundle SHA-256 are required"
      else Ok (fs_Join [stateDir; "xray"; "bundles"; hex +:+ ".json"])
  | None => Err "valid state directory and Xray bundle SHA-256 are required"
  end.
Definition readRegularSecret (path : string) : io K string :=
  info ← fs_Lstat path;
  match info with
  | None => fail "file does not exist"
  | Some info =>
      if negb (fi_Regular info) || fi_Symlink info then fail "Xray bundle must be a regular file"
      else if (fi_Size info <=? 0) || (MaxBytes <? fi_Size info) then fail "Xray bundle size limit exceeded"
      else if negb (fi_Perm info =? mode600) then fail "Xray bundle must have mode 0600"
      else fs_ReadFile path
  end.
Definition recordWrite (created : bool) (raw : string) (synced : bool) : io K unit := fun k =>
  let '(k, t) := now k in
  (count (WriteBudget.RecordFileWrite created (S.len raw) (if synced then 2 else 1) "content-addressed Xray bundle" t) k, Ok ()).
Definition attempt {A} (m : io K A) : io K bool := fun k => let '(k, r) := m k in (k, Ok (is_ok r)).
(** The file is written next to its target and renamed; the deferred close and removal
    run on every error. *)
Definition replace (path raw : string) (created : bool) : io K unit :=
  random ← fs_Random 8;
  let tmp := path +:+ ".tmp." +:+ hexEncode random in
  let cleanup := (_ ← ignore (fs_Close tmp); ignore (fs_Remove tmp)) in
  _ ← fs_OpenExcl tmp mode600;
  _ ← orUndo (_ ← fs_Write tmp raw; _ ← fs_Sync tmp; _ ← fs_Close tmp; _ ← fs_Chmod tmp mode600; fs_Rename tmp path) cleanup;
  synced ← attempt (syncDir (fs_Dir path));
  _ ← recordWrite created raw synced;
  ignore (fs_Close tmp).
Definition writeAtomic (path raw : string) : io K unit :=
  _ ← fs_MkdirAll (fs_Dir path) mode700;
  info ← fs_Lstat path;
  match info with
  | None => replace path raw true
  | Some info =>
      if fi_Symlink info || negb (fi_Regular info) then fail "refusing non-regular Xray bundle target"
      else
        current ← fs_ReadFile path;
        if (current =s raw) && (fi_Perm info =? mode600) then mret () else replace path raw false
  end.
Definition Store (stateDir sourcePath digest : string) : io K string :=
  raw ← readRegularSecret sourcePath;
  _ ← lift (ensure (Hash raw =s digest) "Xray bundle hash mismatch");
  _ ← lift (parse raw);
  target ← lift (Path stateDir digest);
  _ ← writeAtomic target raw;
  mret target.
Definition Load (stateDir digest : string) : io K Bundle :=
  path ← lift (Path stateDir digest);
  raw ← readRegularSecret path;
  _ ← lift (ensure (Hash raw =s digest) "Xray bundle hash mismatch");
  lift (parse raw).
End Store.
End XrayBundle.

(** ** Scores *)

Record ServerMetrics := mkMetrics {
  mt_PathVerified : bool;
  mt_LatencyMS : Z;
  mt_JitterMS : Z;
  mt_MeasuredMbps : spec_float;
  mt_TariffMbps : spec_float;
  mt_SuccessfulProbes : Z;
  mt_FailedProbes : Z;
  mt_ConsecutiveErrors : Z;
  mt_Quarantined : bool
}.
Record ScoreBreakdown := mkScore {
  sb_Total : spec_float;
  sb_Latency : spec_float;
  sb_Jitter : spec_float;
  sb_Throughput : spec_float;
  sb_Stability : spec_float;
  sb_EffectiveThroughput : spec_float;
  sb_MeasuredThroughput : spec_float;
  sb_ConfiguredTariffMbps : spec_float;
  sb_Eligible : bool;
  sb_Reason : string
}.
Definition clamp (value minimum maximum : spec_float) : spec_float :=
  if F.ltb value minimum then minimum else if F.ltb maximum value then maximum else value.
Definition minFloat (left right : spec_float) : spec_float := if F.ltb left right then left else right.
Definition f (n : Z) : spec_float := F.of_Z n.
Definition percent (x : spec_float) : spec_float := clamp x (f 0) (f 100).
Definition ScoreServer (m : ServerMetrics) : ScoreBreakdown :=
  let ineligible reason := mkScore F.zero F.zero F.zero F.zero F.zero F.zero (mt_MeasuredMbps m) (mt_TariffMbps m) false reason in
  if negb (mt_PathVerified m) then ineligible "path_not_verified"
  else if mt_Quarantined m then ineligible "server_quarantined"
  else if 3 <=? mt_ConsecutiveErrors m then ineligible "consecutive_failures"
  else
    let latency := if F.leb (f (mt_LatencyMS m)) F.zero then f 500 else f (mt_LatencyMS m) in
    let latencyScore := percent (F.sub (f 100) (F.div latency (f 3))) in
    let jitterScore := percent (F.sub (f 100) (F.mul (f (mt_JitterMS m)) (f 2))) in
    let totalProbes := wrap64 (mt_SuccessfulProbes m + mt_FailedProbes m) in
    let stability := if totalProbes =? 0 then f 50 else F.div (F.mul (f 100) (f (mt_SuccessfulProbes m))) (f totalProbes) in
    let measured := F.ltb F.zero (mt_TariffMbps m) && F.ltb F.zero (mt_MeasuredMbps m) in
    let effective := if measured then minFloat (mt_MeasuredMbps m) (mt_TariffMbps m) else F.zero in
    let throughput := if measured then percent (F.div (F.mul (f 100) effective) (mt_TariffMbps m)) else f 50 in
    let total := F.add (F.add (F.add (F.mul latencyScore (F.ratio 35 100)) (F.mul jitterScore (F.ratio 10 100))) (F.mul throughput (F.ratio 20 100)))
                       (F.mul stability (F.ratio 35 100)) in
    mkScore total latencyScore jitterScore throughput stability effective (mt_MeasuredMbps m) (mt_TariffMbps m) true "".
Definition healthLabel (latency : Z) : string :=
  if (0 <? latency) && (latency <=? 80) then "excellent" else if latency <=? 180 then "good" else "degraded".
Definition boolInt (b : bool) : Z := if b then 1 else 0.
Definition itoa (value : Z) : string := if (0 <=? value) && (value <=? 9) then pretty value else "source".

Definition scored (sourceIDs : string -> list string) (tariffMbps : spec_float) (server : ServerStatus) : ServerStatus :=
  let ids := sourceIDs (svr_LogicalID server) in
  let server := server |> set_svr_SourceIDs ids |> set_svr_SourceCount (if (length ids =? 0)%nat then svr_SourceCount server else Z.of_nat (length ids))
    |> set_svr_TariffMbps tariffMbps in
  let breakdown := ScoreServer (mkMetrics (svr_PathVerified server) (svr_LatencyMS server) (svr_JitterMS server) (svr_MeasuredMbps server) tariffMbps
    (boolInt (svr_PathVerified server)) (svr_FailedProbes server) 0 (svr_Quarantined server)) in
  server |> set_svr_EffectiveMbps (sb_EffectiveThroughput breakdown) |> set_svr_Score (sb_Total breakdown) |> set_svr_ScoreReason (sb_Reason breakdown).
Definition sourcesIn (m : gmap string (list string)) (logicalID : string) : list string := default [] (m !! logicalID).
Definition attachServerSources (servers : list ServerStatus) (sourceIDs : gmap string (list string)) (tariffMbps : spec_float) : list ServerStatus :=
  map (scored (sourcesIn sourceIDs) tariffMbps) servers.
Definition serverSourceMap (servers : list ServerStatus) : gmap string (list string) :=
  fold_left (fun m server => <[svr_LogicalID server := svr_SourceIDs server]> m) servers ∅.
Definition RefreshPoolScores (servers : list ServerStatus) (tariffMbps : spec_float) : list ServerStatus :=
  attachServerSources servers (serverSourceMap servers) tariffMbps.

(** ** Checks of a candidate *)

Record OutboundCheck := mkOutboundCheck {
  oc_Tag : string;
  oc_Status : string;
  oc_Reason : string;
  oc_LatencyMS : Z;
  oc_ExternalIPHash : string;
  oc_ExternalCountry : string
}.
Definition zero_OutboundCheck : OutboundCheck := mkOutboundCheck "" "" "" 0 "" "".
Definition verifiedEgress (check : OutboundCheck) : bool :=
  (oc_Status check =s "OK") && (oc_ExternalIPHash check <>s "") && (oc_ExternalCountry check <>s "") && (oc_ExternalCountry check <>s "UNKNOWN")
  && (oc_ExternalCountry check <>s "RU").
Definition selectHealthyOutbound (checks : list OutboundCheck) : option OutboundCheck :=
  head (gosort (key_lt oc_LatencyMS) (List.filter verifiedEgress checks)).

(** The number of workers. [budget] is the capacity of the shared channel. *)
Definition boundedParallelism (configured jobs : Z) (budget : option Z) : Z :=
  if jobs <=? 0 then 0
  else
    let parallelism := if configured <=? 0 then 4 else configured in
    let parallelism := if 16 <? parallelism then 16 else parallelism in
    let parallelism := match budget with Some capacity => if (0 <? capacity) && (capacity <? parallelism) then capacity else parallelism | None => parallelism end in
    let parallelism := if jobs <? parallelism then jobs else parallelism in
    if parallelism <? 1 then 1 else parallelism.

(** *** The verifier of a candidate's path *)

Definition firstValue (values : list string) : string := match values with [] => "" | v :: _ => v end.
Definition candidateProof (route : Route) (o : PathObservation) (checkedAt : time) : evidenceResult :=
  zero_evidenceResult |> set_ev_Domain (ob_Domain o) |> set_ev_RouteTag (r_Tag route) |> set_ev_RouteType (r_Type route)
  |> set_ev_AdapterRevision "candidate-uncommitted" |> set_ev_DNSResolver (ob_DNSResolver o) |> set_ev_ResolvedIP (firstValue (ob_ResolvedIPs o))
  |> set_ev_ConnectedIP (ob_ConnectedIP o) |> set_ev_ConnectedPort (ob_ConnectedPort o) |> set_ev_LocalIP (ob_LocalIP o)
  |> set_ev_AddressFamily (ob_AddressFamily o) |> set_ev_Transport (ob_Transport o) |> set_ev_HostPreserved (ob_HostPreserved o)
  |> set_ev_SNIPreserved (ob_SNIPreserved o) |> set_ev_XrayOutboundTag (r_Tag route) |> set_ev_SOCKS5Endpoint (r_SOCKS5 route)
  |> set_ev_SOCKS5Loopback true |> set_ev_ProxyFlowProcessed true |> set_ev_ExternalIPHash (ob_ExternalIPHash o)
  |> set_ev_ExternalCountry (ob_ExternalCountry o) |> set_ev_TLSResult (ob_TLSResult o) |> set_ev_HTTPResult (ob_HTTPResult o)
  |> set_ev_ContentResult (ob_ContentResult o) |> set_ev_Status "OK" |> set_ev_ReasonCode "isolated_candidate_socks_outbound_verified"
  |> set_ev_EvidenceSource "isolated-xray-candidate-socks" |> set_ev_Simulation true |> set_ev_CheckedAt checkedAt.
Definition candidateRefusal (request : PathProofRequest) : option string :=
  let route := rq_Route request in let o := rq_Observation request in
  if negb (r_Type route =s "vless") || (r_Tag route =s "") then Some "candidate_socks_route_identity_invalid"
  else if negb (ob_Transport o =s "socks5") then Some "candidate_socks_transport_unverified"
  else if negb (ob_HostPreserved o) then Some "candidate_socks_host_not_preserved"
  else if negb (ob_SNIPreserved o) then Some "candidate_socks_sni_not_preserved"
  else match Net.SplitHostPort (r_SOCKS5 route) with
  | None => Some "candidate_socks_endpoint_invalid"
  | Some (host, _) =>
      match IP.ParseIP host with
      | Some ip =>
          if negb (IP.IsLoopback ip) then Some "candidate_socks_endpoint_not_loopback"
          else if (ob_ExternalIPHash o =s "") || (ob_ExternalCountry o =s "") || (ob_ExternalCountry o =s "UNKNOWN") then Some "candidate_socks_egress_unverified"
          else None
      | None => Some "candidate_socks_endpoint_not_loopback"
      end
  end.
Definition candidateSOCKSVerifier {K} (now : K -> K * time) : PathProofVerifier K :=
  mkVerifier None (fun request =>
    match candidateRefusal request with
    | Some e => refuse (Plain e)
    | None => checkedAt ← reading now; mret (candidateProof (rq_Route request) (rq_Observation request) checkedAt)
    end).

(** What a probe of a candidate's server says; [probe] is [ProbeRoute] of an engine with
    the verifier above. *)
Definition candidateRoute (c : Config) (tag socks5 : string) : Route :=
  Build_Route "vless" tag 0 false "" (xr_ProbeDNSResolver (c_Xray c)) false socks5 "" "socks_remote" true false "" "" false.
Definition judgeCandidate (tag : string) (r : ProbeResult) : OutboundCheck :=
  let check status reason := mkOutboundCheck tag status reason (pr_LatencyMS r) (pr_ExternalIPHash r) (pr_ExternalCountry r) in
  if negb (pr_Status r =s "OK") || negb (pr_ApplicationStatus r =s "OK") || negb (pr_PathVerified r) || negb (pr_ServiceOK r)
     || negb (pr_XrayOutboundTag r =s tag) then check "UNVERIFIED" (default (pr_ReasonCode r) (pr_Reason r))
  else if any (fun c => ProbeTypes.ck_Required c && negb (ck_Transport c =s "socks5")) (pr_Checks r) then check "UNVERIFIED" "required_check_did_not_use_socks5"
  else if (pr_ExternalIPHash r =s "") || (pr_ExternalCountry r =s "") || (pr_ExternalCountry r =s "UNKNOWN") then check "UNVERIFIED" "candidate_egress_unverified"
  else check "OK" "candidate_socks_outbound_verified".
Definition engineCheck {K} (probe : Config -> string -> string -> Service -> Route -> io K ProbeResult) (config : option Config) (svc : Service)
    (tag socks5 : string) : io K OutboundCheck :=
  match config, s_Domains svc with
  | Some c, domain :: _ =>
      if (length (s_ProbeURLs svc) =? 0)%nat then mret (mkOutboundCheck tag "UNVERIFIED" "probe_service_not_configured" 0 "" "")
      else r ← probe c domain "xray-candidate" svc (candidateRoute c tag socks5); mret (judgeCandidate tag r)
  | _, _ => mret (mkOutboundCheck tag "UNVERIFIED" "probe_service_not_configured" 0 "" "")
  end.

(** ** Preparing a bundle *)

Record SpeedMeasurement := mkMeasurement { sm_MeasuredMbps : spec_float; sm_BytesUsed : Z; sm_DurationMS : Z; sm_TestedAt : string }.
Definition applySpeedMeasurement (m : SpeedMeasurement) (server : ServerStatus) : ServerStatus :=
  server |> set_svr_MeasuredMbps (sm_MeasuredMbps m) |> set_svr_SpeedBytes (sm_BytesUsed m) |> set_svr_SpeedDuration (sm_DurationMS m)
  |> set_svr_SpeedTestedAt (sm_TestedAt m).
(** [int64(tariff * 1_000_000 / 8 * 0.35)], between 2 and 16 MiB. *)
Definition SpeedTestBytes (tariffMbps : spec_float) : Z :=
  let tariffMbps := if F.leb tariffMbps F.zero then f 300 else tariffMbps in
  let bytes := F.trunc_to_Z (F.mul (F.div (F.mul tariffMbps (f 1000000)) (f 8)) (F.ratio 35 100)) in
  if bytes <? Z.shiftl 2 20 then Z.shiftl 2 20 else if Z.shiftl 16 20 <? bytes then Z.shiftl 16 20 else bytes.

Record SubscriptionSource := mkSource {
  so_ID : string;
  so_Name : string;
  so_ProviderID : string;
  so_ProviderName : string;
  so_AddedAt : string;
  so_ExpiresAt : string;
  so_ExpiryKnown : bool;
  so_ServerCount : Z;
  so_Manual : bool;
  so_OriginalSourceMasked : string;
  so_ResolvedSourceMasked : string;
  so_SourceType : string;
  so_CryptoVersion : string;
  so_ResolutionStatus : string
}.
Record ProviderMatch := mkMatch {
  pm_LeftProviderID : string;
  pm_RightProviderID : string;
  pm_MatchedServers : Z;
  pm_ComparedServers : Z;
  pm_Overlap : spec_float;
  pm_Recommendation : string
}.
Record PoolSnapshot := mkPool {
  pl_GeneratedAt : string;
  pl_BundleHash : string;
  pl_TariffMbps : spec_float;
  pl_Sources : list SubscriptionSource;
  pl_ProviderMatches : list ProviderMatch;
  pl_Servers : list ServerStatus
}.
Record PreparedBundle := mkPrepared {
  pb_CandidateID : string;
  pb_BundleHash : string;
  pb_BundlePath : string;
  pb_SelectedTag : string;
  pb_Checks : list OutboundCheck;
  pb_Servers : list ServerStatus;
  pb_Routes : list GeneratedRoute;
  pb_Ready : bool;
  pb_SecretsPrinted : bool
}.
Definition zero_prepared : PreparedBundle := mkPrepared "" "" "" "" [] [] [] false false.

(** The routes of the supported servers, in their order. *)
Definition routesOf (servers : list ServerStatus) : list GeneratedRoute :=
  imap (fun idx s => mkGenerated "vless" (svr_Tag s) (100 + Z.of_nat idx) (svr_SOCKS5 s) "socks_remote" true) (List.filter isSupported servers).
Definition boundRoute (r : GeneratedRoute) : Route :=
  Build_Route (gr_Type r) (gr_Tag r) (gr_Priority r) false "" "" false (gr_SOCKS5 r) "" (gr_DNSMode r) (gr_ExternalIPProbe r) false "" "" false.

(** One server after its check. *)
Definition lastCheck (checks : list OutboundCheck) (tag : string) : option OutboundCheck := list.last (List.filter (fun c => oc_Tag c =s tag) checks).
Definition enriched (checks : list OutboundCheck) (selectedTag checkedAt : string) (ips : option (list string)) (server : ServerStatus) : ServerStatus :=
  let server := match ips with Some l => set_svr_ResolvedIPs l server | None => server end in
  let check := lastCheck checks (svr_Tag server) in
  let server := set_svr_LastCheckedAt checkedAt server in
  let server := match check with
    | Some c =>
        if (svr_Country server =s "") && (oc_ExternalCountry c <>s "") && (oc_ExternalCountry c <>s "UNKNOWN")
        then server |> set_svr_Country (oc_ExternalCountry c) |> set_svr_CountrySource "verified_egress" else server
    | None => server
    end in
  let failed := server |> set_svr_Health "failed" |> set_svr_Quarantined true |> set_svr_FailedProbes 1 in
  match check with
  | None => failed
  | Some c =>
      if negb (oc_Status c =s "OK") then (if svr_Reason failed =s "" then set_svr_Reason (oc_Reason c) failed else failed)
      else server |> set_svr_PathVerified true |> set_svr_LatencyMS (oc_LatencyMS c) |> set_svr_AverageMS (oc_LatencyMS c)
             |> set_svr_Health (healthLabel (oc_LatencyMS c)) |> set_svr_Selected (svr_Tag server =s selectedTag)
             |> set_svr_Standby (negb (svr_Tag server =s selectedTag))
  end.

Section Manager.
Context (sha256Hex : string -> string) (marshal : json -> string) (sprintOther : json -> string) (marshalIndent : jtext -> string).
Context {K : Type} `{FileSystem K} (now : K -> K * time) (formatTime : time -> string) (parseTime : string -> option time).
Context (count : (WriteBudget.Counters -> WriteBudget.Counters) -> K -> K) (syncDir : string -> io K unit).
(** Whether the context of the caller is done. *)
Context (cancelled : K -> K * bool).
(** The runner of Xray, with the processes it starts. *)
Context {Process : Type} (runnerTest : string -> io K unit) (startCandidate : string -> io K Process) (waitReady : list ServerStatus -> io K unit)
        (stop : Process -> io K unit).
(** A check of a server, and the order in which the workers get to the jobs: fewer than
    all of them when the context ends. *)
Context (checker : string -> string -> K -> K * OutboundCheck) (schedule : nat -> K -> K * list nat).
Context (resolveIPs : option (string -> K -> K * list string)) (speedTester : option (string -> Z -> io K SpeedMeasurement)).
Context (encodePool : PoolSnapshot -> string) (decodePool : string -> option PoolSnapshot).

Definition PoolPath (stateDir : string) : string := fs_Join [stateDir; "xray"; "pool.json"].
Definition LoadPool (path : string) : io K PoolSnapshot :=
  raw ← fs_ReadFile path;
  match decodePool raw with Some snapshot => mret snapshot | None => fail "VLESS pool snapshot is invalid" end.
Definition isAbs (path : string) : bool := S.HasPrefix path "/".
Definition StorePool (path : string) (snapshot : PoolSnapshot) : io K unit :=
  if negb (isAbs path) then fail "VLESS pool path must be absolute" else writeFileAtomic path (encodePool snapshot +:+ newline) mode600.

(** *** Checks *)

Fixpoint retries (attempts : nat) (tag socks5 : string) : K -> K * OutboundCheck := fun k =>
  match attempts with
  | O => (k, zero_OutboundCheck)
  | S attempts =>
      let '(k, result) := checker tag socks5 k in
      if oc_Status result =s "OK" then (k, result)
      else
        let '(k, done) := cancelled k in
        if done : bool then (k, mkOutboundCheck (oc_Tag result) "FAIL" "candidate_check_cancelled" (oc_LatencyMS result) (oc_ExternalIPHash result) (oc_ExternalCountry result))
        else match attempts with O => (k, result) | S _ => retries attempts tag socks5 k end
  end.
Definition checkAttempts (configured : Z) : nat := Z.to_nat (if configured <=? 0 then 3 else if 5 <? configured then 5 else configured).
Definition checkWithRetry (configured : Z) : string -> string -> K -> K * OutboundCheck := retries (checkAttempts configured).
(** The jobs in the order the workers take them; each result goes to its index. *)
Fixpoint runJobs (configured : Z) (jobs : list ServerStatus) (ordered : list OutboundCheck) (order : list nat) : K -> K * list OutboundCheck := fun k =>
  match order with
  | [] => (k, ordered)
  | i :: rest =>
      match jobs !! i with
      | Some server =>
          let '(k, value) := checkWithRetry configured (svr_Tag server) (svr_SOCKS5 server) k in
          runJobs configured jobs (<[i := value]> ordered) rest k
      | None => runJobs configured jobs ordered rest k
      end
  end.
Definition checkSupported (configured : Z) (servers : list ServerStatus) : K -> K * list OutboundCheck := fun k =>
  let jobs := List.filter isSupported servers in
  let '(k, order) := schedule (length jobs) k in
  runJobs configured jobs (repeat zero_OutboundCheck (length jobs)) order k.

(** *** The inventory *)

Fixpoint enrichServerInventory (checks : list OutboundCheck) (selectedTag checkedAt : string) (servers : list ServerStatus) : K -> K * list ServerStatus := fun k =>
  match servers with
  | [] => (k, [])
  | server :: rest =>
      let '(k, ips) := match resolveIPs with Some resolve => let '(k, l) := resolve (svr_Hostname server) k in (k, Some l) | None => (k, None) end in
      let '(k, others) := enrichServerInventory checks selectedTag checkedAt rest k in
      (k, enriched checks selectedTag checkedAt ips server :: others)
  end.
Definition day : duration := 24 * hour.
Fixpoint reusable (previous : list ServerStatus) (now : time) (server : ServerStatus) : option ServerStatus :=
  match previous with
  | [] => None
  | item :: rest =>
      if negb (svr_LogicalID item =s svr_LogicalID server) || F.leb (svr_MeasuredMbps item) F.zero || (svr_SpeedTestedAt item =s "") then reusable rest now server
      else match parseTime (svr_SpeedTestedAt item) with
      | Some testedAt =>
          let age := T.Sub now testedAt in
          if (age <? 0) || (day <? age) then None
          else Some (applySpeedMeasurement (mkMeasurement (svr_MeasuredMbps item) (svr_SpeedBytes item) (svr_SpeedDuration item) (svr_SpeedTestedAt item)) server)
      | None => None
      end
  end.
Definition reuseRecentSpeedMeasurement (stateDir : string) (server : ServerStatus) (t : time) : K -> K * option ServerStatus := fun k =>
  if (svr_LogicalID server =s "") || (stateDir =s "") then (k, None)
  else match LoadPool (PoolPath stateDir) k with
  | (k, Ok previous) => (k, reusable (pl_Servers previous) t server)
  | (k, Err _) => (k, None)
  end.
(** The first server with the selected tag is measured, unless a measurement of the last
    day can be kept. *)
Fixpoint measureSelected (stateDir selectedTag : string) (tariffMbps : spec_float) (servers : list ServerStatus) : K -> K * list ServerStatus := fun k =>
  match servers, speedTester with
  | _, None | [], _ => (k, servers)
  | server :: rest, Some measure =>
      if negb (svr_Tag server =s selectedTag) then
        let '(k, rest) := measureSelected stateDir selectedTag tariffMbps rest k in (k, server :: rest)
      else
        let '(k, t) := now k in
        match reuseRecentSpeedMeasurement stateDir server t k with
        | (k, Some server) => (k, server :: rest)
        | (k, None) =>
            match measure (svr_SOCKS5 server) (SpeedTestBytes tariffMbps) k with
            | (k, Ok measurement) => (k, applySpeedMeasurement measurement server :: rest)
            | (k, Err _) => (k, servers)
            end
        end
  end.

(** *** The steps of [PrepareBundle] *)

Definition withChecks (checks : list OutboundCheck) (r : PreparedBundle) : PreparedBundle :=
  mkPrepared (pb_CandidateID r) (pb_BundleHash r) (pb_BundlePath r) (pb_SelectedTag r) checks (pb_Servers r) (pb_Routes r) (pb_Ready r) (pb_SecretsPrinted r).
Definition withSelection (tag : string) (servers : list ServerStatus) (r : PreparedBundle) : PreparedBundle :=
  mkPrepared (pb_CandidateID r) (pb_BundleHash r) (pb_BundlePath r) tag (pb_Checks r) servers (pb_Routes r) (pb_Ready r) (pb_SecretsPrinted r).
Definition ready (path : string) (routes : list GeneratedRoute) (r : PreparedBundle) : PreparedBundle :=
  mkPrepared (pb_CandidateID r) (pb_BundleHash r) path (pb_SelectedTag r) (pb_Checks r) (pb_Servers r) routes true (pb_SecretsPrinted r).
Definition outcomeOf : Type := PreparedBundle * option string.
Definition failing (r : PreparedBundle) (e : string) : K -> K * outcomeOf := fun k => (k, (r, Some e)).

(** A bundle is stored and read back; it is removed again if it is not what was meant. *)
Definition storeBundle (stateDir candidatePath : string) (summary : XrayGenerationSummary) (r : PreparedBundle) : K -> K * outcomeOf := fun k =>
  match XrayBundle.Store sha256Hex now count syncDir stateDir candidatePath (xg_SHA256 summary) k with
  | (k, Err e) => failing r e k
  | (k, Ok bundlePath) =>
      let removed e := fun k => failing r e (ignore (fs_Remove bundlePath) k).1 in
      match XrayBundle.Load sha256Hex stateDir (xg_SHA256 summary) k with
      | (k, Err e) => removed e k
      | (k, Ok bundle) =>
          let routes := routesOf (xg_Servers summary) in
          match XrayBundle.ValidateRoutes bundle (map boundRoute routes) with
          | Err e => removed e k
          | Ok _ => (k, (ready bundlePath routes r, None))
          end
      end
  end.
(** The candidate runs from here to the deferred stop. *)
Definition verifyCandidate (stateDir candidatePath : string) (attempts : Z) (tariffMbps : spec_float) (summary : XrayGenerationSummary) (process : Process)
    (r : PreparedBundle) : K -> K * outcomeOf := fun k =>
  match waitReady (xg_Servers summary) k with
  | (k, Err _) => failing r "xray candidate readiness failed" k
  | (k, Ok _) =>
      let '(k, checks) := checkSupported attempts (xg_Servers summary) k in
      let r := withChecks checks r in
      match selectHealthyOutbound checks with
      | None => failing r "no verified safe VLESS outbound" k
      | Some selected =>
          let '(k, t) := now k in
          let '(k, servers) := enrichServerInventory checks (oc_Tag selected) (formatTime t) (pb_Servers r) k in
          let '(k, servers) := measureSelected stateDir (oc_Tag selected) tariffMbps servers k in
          let r := withSelection (oc_Tag selected) servers r in
          match stop process k with
          | (k, Err _) => failing r "xray candidate stop failed" k
          | (k, Ok _) => storeBundle stateDir candidatePath summary r k
          end
      end
  end.
Definition startAndVerify (stateDir candidatePath : string) (attempts : Z) (tariffMbps : spec_float) (summary : XrayGenerationSummary) (r : PreparedBundle)
    : K -> K * outcomeOf := fun k =>
  match runnerTest candidatePath k with
  | (k, Err _) => failing r "xray candidate test failed" k
  | (k, Ok _) =>
      match startCandidate candidatePath k with
      | (k, Err _) => failing r "xray candidate start failed" k
      | (k, Ok process) =>
          let '(k, outcome) := verifyCandidate stateDir candidatePath attempts tariffMbps summary process r k in
          ((ignore (stop process) k).1, outcome)
      end
  end.
Definition PrepareBundle (stateDir subscriptionPath : string) (basePort attempts : Z) (tariffMbps : spec_float) : K -> K * outcomeOf := fun k =>
  if stateDir =s "" then failing zero_prepared "complete Xray manager dependencies are required" k
  else match wrap "generate subscription candidate ID: " (secureRandomHex 8) k with
  | (k, Err e) => failing zero_prepared e k
  | (k, Ok randomID) =>
      let candidateID := "cand_" +:+ randomID in
      let candidateDir := fs_Join [stateDir; "candidates"; candidateID] in
      let candidatePath := fs_Join [candidateDir; "xray.json"] in
      let '(k, outcome) :=
        match GenerateXrayConfigFile sha256Hex marshal sprintOther marshalIndent subscriptionPath candidatePath basePort k with
        | (k, Err e) => failing (mkPrepared candidateID "" "" "" [] [] [] false false) e k
        | (k, Ok summary) =>
            startAndVerify stateDir candidatePath attempts tariffMbps summary
              (mkPrepared candidateID (xg_SHA256 summary) "" "" [] (xg_Servers summary) [] false false) k
        end in
      ((ignore (fs_RemoveAll candidateDir) k).1, outcome)
  end.

(** ** Measuring one server of the pool *)

Definition loopbackSOCKS (socks : string) : bool :=
  match Net.SplitHostPort socks with
  | Some (host, _) => match IP.ParseAddr host with Some address => IP.IsLoopback address | None => false end
  | None => false
  end.
Definition startMeasured (stateDir activationMode : string) (snapshot : PoolSnapshot) (use : io K SpeedMeasurement) : io K SpeedMeasurement :=
  if activationMode =s "managed" then use
  else if pl_BundleHash snapshot =s "" then fail "VLESS pool has no verified bundle; run server verification again"
  else fun k =>
  match XrayBundle.Load sha256Hex stateDir (pl_BundleHash snapshot) k with
  | (k, Err _) => fail "verified VLESS bundle is unavailable or corrupt" k
  | (k, Ok _) =>
      match XrayBundle.Path stateDir (pl_BundleHash snapshot) with
      | Err _ => fail "verified VLESS bundle path is invalid" k
      | Ok bundlePath =>
          match runnerTest bundlePath k with
          | (k, Err _) => fail "verified VLESS bundle failed Xray validation" k
          | (k, Ok _) =>
              match startCandidate bundlePath k with
              | (k, Err _) => fail "VLESS measurement candidate could not start" k
              | (k, Ok process) =>
                  let stopped := fun k => (ignore (stop process) k).1 in
                  match waitReady (pl_Servers snapshot) k with
                  | (k, Err _) => fail "VLESS measurement candidate did not become ready" (stopped k)
                  | (k, Ok _) =>
                      match use k with
                      | (k, Err e) => fail e (stopped k)
                      | (k, Ok measurement) =>
                          match stop process k with
                          | (k, Err _) => fail "VLESS measurement candidate could not stop cleanly" (stopped k)
                          | (k, Ok _) => (k, Ok measurement)
                          end
                      end
                  end
              end
          end
      end
  end.
Definition MeasureServer (stateDir activationMode logicalID : string) : io K (SpeedMeasurement * ServerStatus) := fun k =>
  match speedTester with
  | None => fail "managed VLESS speed measurement is not configured" k
  | Some measure =>
      if stateDir =s "" then fail "managed VLESS speed measurement is not configured" k
      else match LoadPool (PoolPath stateDir) k with
      | (k, Err _) => fail "VLESS pool cannot be read; run server verification again" k
      | (k, Ok snapshot) =>
          match list_find (fun s => svr_LogicalID s = logicalID) (pl_Servers snapshot) with
          | None => fail "selected VLESS server does not have a verified path" k
          | Some (index, server) =>
              if negb (svr_PathVerified server) then fail "selected VLESS server does not have a verified path" k
              else if negb (loopbackSOCKS (svr_SOCKS5 server)) then fail "selected VLESS server is not bound to a loopback SOCKS endpoint" k
              else match startMeasured stateDir activationMode snapshot (measure (svr_SOCKS5 server) (SpeedTestBytes (pl_TariffMbps snapshot))) k with
              | (k, Err e) => fail e k
              | (k, Ok measurement) =>
                  let '(k, t) := now k in
                  let servers := RefreshPoolScores (<[index := applySpeedMeasurement measurement server]> (pl_Servers snapshot)) (pl_TariffMbps snapshot) in
                  let snapshot := mkPool (formatTime t) (pl_BundleHash snapshot) (pl_TariffMbps snapshot) (pl_Sources snapshot) (pl_ProviderMatches snapshot) servers in
                  match StorePool (PoolPath stateDir) snapshot k with
                  | (k, Err _) => fail "VLESS measurement succeeded but the pool could not be updated" k
                  | (k, Ok _) => (k, Ok (measurement, default server (servers !! index)))
                  end
              end
          end
      end
  end.
End Manager.

(** ** The sources of a pool *)

(** The summary of a download, as far as the analysis reads it. *)
Record FetchSummary := mkFetch {
  ft_ProviderName : string;
  ft_ExpiresAt : string;
  ft_OriginalSourceMasked : string;
  ft_ResolvedSourceMasked : string;
  ft_SourceType : string;
  ft_CryptoVersion : string;
  ft_ResolvedSource : string
}.
Definition effectiveSubscriptionMaxBytes (configured : Z) : Z :=
  let legacyDefault := Z.shiftl 2 20 in
  if (configured <=? 0) || (configured =? legacyDefault) || (maxSubscriptionFileBytes <? configured) then maxSubscriptionFileBytes else configured.

Section Sources.
Context (sha256Hex : string -> string) (marshal : json -> string) (sprintOther : json -> string) (marshalDocument : jtext -> string).
Context (parseURL : string -> option URL) (urlText : URL -> string).
Context {K : Type} `{FileSystem K}.

(** The first eight bytes of the hash. *)
Definition shortHash (value : string) : string := prefix (sha256Hex value) 16.
(** The identities of the VLESS outbounds that have one. *)
Definition identitiesOf (items : list rawOutbound) : list string :=
  omap (fun i => if isVLESS i then match outboundIdentity sha256Hex marshal sprintOther (raw_Raw i) with Ok id => Some id | Err _ => None end else None) items.
Definition addSource (sourceID : string) (m : gmap string (list string)) (identity : string) : gmap string (list string) :=
  let logicalID := "srv_" +:+ prefix identity 16 in
  let ids := default [] (m !! logicalID) in
  if containsString ids sourceID then m else <[logicalID := ids ++ [sourceID]]> m.
Definition describeSource (index : nat) (url now : string) (fetched : FetchSummary) (servers : gset string) : result SubscriptionSource :=
  let originSource := if ft_ResolvedSource fetched =s "" then url else ft_ResolvedSource fetched in
  match parseURL originSource with
  | None => Err "panic: nil URL"
  | Some parsed =>
      let origin := S.ToLower (u_Scheme parsed +:+ "://" +:+ u_Host parsed) in
      let providerName := if ft_ProviderName fetched =s "" then Hostname parsed else ft_ProviderName fetched in
      Ok (mkSource ("sub_" +:+ shortHash url) ("Subscription " +:+ itoa (Z.of_nat index + 1)) ("provider_" +:+ shortHash origin) providerName now
            (ft_ExpiresAt fetched) (negb (ft_ExpiresAt fetched =s "")) (Z.of_nat (size servers)) false
            (ft_OriginalSourceMasked fetched) (ft_ResolvedSourceMasked fetched) (ft_SourceType fetched) (ft_CryptoVersion fetched) "resolved")
  end.
Definition overlapCount (left right : gset string) : Z := Z.of_nat (size (left ∩ right)).
Definition matchOf (left right : SubscriptionSource * gset string) : list ProviderMatch :=
  let compared := Z.min (Z.of_nat (size left.2)) (Z.of_nat (size right.2)) in
  if (so_ProviderID left.1 =s so_ProviderID right.1) || (compared =? 0) then []
  else
    let matched := overlapCount left.2 right.2 in
    let overlap := F.ratio matched compared in
    if F.leb (F.ratio 8 10) overlap then [mkMatch (so_ProviderID left.1) (so_ProviderID right.1) matched compared overlap "confirmation_required"] else [].
Fixpoint matchesOf (sources : list (SubscriptionSource * gset string)) : list ProviderMatch :=
  match sources with [] => [] | source :: rest => concat (map (matchOf source) rest) ++ matchesOf rest end.
Fixpoint analyzeEach (index : nat) (now : string) (inputs : list (string * string * FetchSummary)) (serverSources : gmap string (list string))
    : io K (list (SubscriptionSource * gset string) * gmap string (list string)) :=
  match inputs with
  | [] => mret ([], serverSources)
  | (url, path, fetched) :: rest =>
      raw ← readSubscriptionFile path;
      outbounds ← lift (extractRawOutbounds raw);
      let set := list_to_set (identitiesOf outbounds) in
      source ← lift (describeSource index url now fetched set);
      '(sources, serverSources) ← analyzeEach (S index) now rest (fold_left (addSource ("sub_" +:+ shortHash url)) (identitiesOf outbounds) serverSources);
      mret ((source, set) :: sources, serverSources)
  end.
Definition analyzeSubscriptionSources (urls paths : list string) (fetched : list FetchSummary) (now : string)
    : io K (list SubscriptionSource * list ProviderMatch * gmap string (list string)) :=
  if negb (length urls =? length paths)%nat || negb (length paths =? length fetched)%nat then fail "subscription source analysis inputs do not match"
  else
    '(sources, serverSources) ← analyzeEach 0 now (zip (zip urls paths) fetched) ∅;
    mret (map fst sources, matchesOf sources, gosort S.ltb <$> serverSources).

(** The outbounds of all sources in one document. *)
Fixpoint mergedOutbounds (index : Z) (paths : list string) : io K (list jtext) :=
  match paths with
  | [] => mret []
  | path :: rest =>
      raw ← wrap ("read VPN subscription source " +:+ pretty (index + 1) +:+ ": ") (readSubscriptionFile path);
      outbounds ← wrap ("parse VPN subscription source " +:+ pretty (index + 1) +:+ ": ") (lift (extractRawOutbounds raw));
      others ← mergedOutbounds (index + 1) rest;
      mret (map raw_Raw outbounds ++ others)
  end.
Definition mergeSubscriptionFiles (paths : list string) (outputPath : string) : io K string :=
  if (length paths =? 0)%nat then fail "no VPN subscription sources were downloaded"
  else
    outbounds ← mergedOutbounds 0 paths;
    let merged := marshalDocument (TObj [("outbounds", TArr outbounds)]) +:+ newline in
    _ ← writeFileAtomic outputPath merged mode600;
    mret ("sha256:" +:+ sha256Hex merged).

(** The service a candidate is probed with: the first GeoIP endpoint that is HTTPS. *)
Definition probeTarget (endpoint : GeoIPEndpoint) : option URL :=
  match parseURL (S.TrimSpace (ge_URL endpoint)) with
  | Some parsed => if negb (u_Scheme parsed =s "https") || (Hostname parsed =s "") then None else Some parsed
  | None => None
  end.
Definition egressService (parsed : URL) : Service :=
  mkService "GEO_LOCKED" "" [S.ToLower (Hostname parsed)] ["vless"] ["direct"; "smart_dns"; "zapret"] "" true
    [Build_ProbeCheck "subscription-egress" (urlText parsed) true [200] "optional" [] [] [] false].
Definition subscriptionProbeService (endpoints : list GeoIPEndpoint) : result Service :=
  match omap probeTarget endpoints with
  | parsed :: _ => Ok (egressService parsed)
  | [] => Err "VPN subscription verification target is not configured"
  end.
End Sources.
