(* ===== verification/PoolProofs.v ===== *)
(** * The pool of VPN servers: proofs

    A generated configuration and the routes made for it fit each other, except where
    a tag is too long for the name of its SOCKS inbound; a candidate does not outlive
    its preparation; a bundle is ready only with a verified server; a file is written
    as a whole. *)
From Stdlib Require Import ZArith Lia SpecFloat.
From stdpp Require Import base list strings pretty gmap.
From S2P Require Import Prelude Effects Float64 Net Config Json NetProofs ValidationStable JsonProofs JsonText Subscription SubscriptionProofs Pool.

Open Scope Z_scope.
Import JText GoJSON.

(** ** A configuration and its routes *)

(** The longest tag whose inbound still has a tag: [socks-] takes six bytes of 64. *)
Definition fits (tag : string) : bool := S.len tag <=? 58.

Lemma tag_noSpace tag : safeTagPattern tag = true -> S.TrimSpace tag = tag.
Proof.
  intros H. unfold safeTagPattern in H. bool_split. apply TrimSpace_id. eapply all_bytes_impl; [|eassumption].
  intros c. clear. destruct c as [[] [] [] [] [] [] [] []]; vm_compute; done.
Qed.
Lemma inbound_tag tag : safeTagPattern tag = true -> safeTagPattern ("socks-" +:+ tag) = fits tag.
Proof.
  unfold safeTagPattern, fits. intros H. bool_split. rewrite len_app, all_bytes_app. change (S.len "socks-") with 6.
  match goal with G : S.all_bytes _ tag = true |- _ => rewrite G end. change (S.all_bytes tagByte "socks-" && true) with true. rewrite andb_true_r.
  repeat match goal with G : (_ <=? _) = true |- _ => apply Z.leb_le in G end.
  destruct (S.len tag <=? 58) eqn:E; [apply Z.leb_le in E|apply Z.leb_gt in E]; [apply andb_true_iff; split; apply Z.leb_le; lia|].
  apply andb_false_iff. right. apply Z.leb_gt. lia.
Qed.
Lemma inbound_decodes port item : 0 <= port <= int64_max ->
  structItem XrayBundle.decodeInbound (inboundFor port item)
  = Ok (XrayBundle.mkInbound ("socks-" +:+ tagOf item) "127.0.0.1" port "socks").
Proof.
  intros HP. unfold inboundFor, XrayBundle.decodeInbound. cbn [structItem].
  change (valuesOf "tag" _) with [TStr ("socks-" +:+ tagOf item)]. change (valuesOf "listen" _) with [TStr "127.0.0.1"].
  change (valuesOf "port" _) with [TNum (pretty port)]. change (valuesOf "protocol" _) with [TStr "socks"].
  cbn [stringField intField]. by rewrite Atoi_pretty.
Qed.
Lemma rule_decodes item : structItem XrayBundle.decodeRule (ruleFor item) = Ok (XrayBundle.mkRule "field" ["socks-" +:+ tagOf item] (tagOf item)).
Proof. reflexivity. Qed.

(** An outbound of the configuration as the bundle reads it. *)
Definition bundled (item : rawOutbound) : Prop :=
  safeTagPattern (tag_of item) = true /\ structItem XrayBundle.decodeOutbound (raw_Raw item) = Ok (XrayBundle.mkOutbound (tag_of item) "vless").
Lemma bundled_outbound item : isVLESS item = true -> safeTagPattern (tag_of item) = true -> unmarshalOutbound (raw_Raw item) = Ok (raw_Outbound item) -> bundled item.
Proof.
  intros HV HT HU. split; [done|]. unfold isVLESS, tag_of in *. destruct (raw_Outbound item) as [tag remarks protocol vnext network security].
  cbn in HV |- *. str_eq. subst protocol. unfold unmarshalOutbound, structField in HU.
  destruct (raw_Raw item) as [| | | | |m]; try done. unfold decodeOutbound in HU. cbn [zero_outbound out_Tag out_Protocol out_Remarks] in HU. ok_steps HU.
  cbn [structItem]. unfold XrayBundle.decodeOutbound.
  match goal with G : stringField "" (valuesOf "tag" m) = Ok _ |- _ => rewrite G end.
  match goal with G : stringField "" (valuesOf "protocol" m) = Ok _ |- _ => by rewrite G end.
Qed.
Lemma bundled_tag item : bundled item -> tagOf item = tag_of item.
Proof. intros [H _]. by apply tag_noSpace. Qed.

Definition socksTag (item : rawOutbound) : string := "socks-" +:+ tag_of item.
Definition inboundOf (port : Z) (item : rawOutbound) : XrayBundle.inbound := XrayBundle.mkInbound (socksTag item) "127.0.0.1" port "socks".
Fixpoint inboundsMap (m : gmap string XrayBundle.inbound) (port : Z) (l : list rawOutbound) : gmap string XrayBundle.inbound :=
  match l with [] => m | item :: rest => inboundsMap (<[socksTag item := inboundOf port item]> m) (port + 1) rest end.
Lemma socksTag_inj a b : socksTag a = socksTag b -> tag_of a = tag_of b.
Proof. apply str_app_inj_l. Qed.
Lemma inboundsMap_other l : forall m port t, (forall item, item ∈ l -> socksTag item <> t) -> inboundsMap m port l !! t = m !! t.
Proof.
  induction l as [|item l IH]; intros m port t H; [done|]. cbn [inboundsMap]. rewrite IH by (intros; apply H; by right). apply lookup_insert_ne. apply H. left.
Qed.
Lemma inboundsMap_at l : forall m port i item, NoDup (map tag_of l) -> l !! i = Some item ->
  inboundsMap m port l !! socksTag item = Some (inboundOf (port + Z.of_nat i) item).
Proof.
  induction l as [|x l IH]; intros m port i item HN HI; [done|]. cbn [map inboundsMap] in *. apply NoDup_cons in HN as [H1 H2]. destruct i as [|i]; cbn in HI.
  - injection HI as ->. rewrite inboundsMap_other.
    + rewrite lookup_insert_eq. by rewrite Z.add_0_r.
    + intros y HY E. apply socksTag_inj in E. apply H1, elem_of_map. by exists y.
  - rewrite (IH _ _ i item) by done. do 2 f_equal. lia.
Qed.
Lemma inboundsMap_size l : forall m port, NoDup (map tag_of l) -> (forall item, item ∈ l -> m !! socksTag item = None) ->
  size (inboundsMap m port l) = (size m + length l)%nat.
Proof.
  induction l as [|x l IH]; intros m port HN HM; cbn [inboundsMap length]; [lia|]. cbn [map] in HN. apply NoDup_cons in HN as [H1 H2]. rewrite IH; [|done|].
  - rewrite map_size_insert_None by (apply HM; left). lia.
  - intros y HY. rewrite lookup_insert_ne; [apply HM; by right|]. intros E. apply socksTag_inj in E. apply H1, elem_of_map. by exists y.
Qed.

Lemma imap_shift {A B} (g : Z -> A -> B) base x l : imap (fun i y => g (base + Z.of_nat i) y) (x :: l) = g base x :: imap (fun i y => g (base + 1 + Z.of_nat i) y) l.
Proof. cbn [imap]. rewrite Z.add_0_r. f_equal. apply imap_ext. intros i y _. cbn. f_equal. lia. Qed.
Lemma portRange n base : n <= 65535 -> 0 <= base -> base <= n -> 0 <= base <= int64_max.
Proof. unfold int64_max. lia. Qed.
(** Every inbound is accepted, unless one has no tag of its own. *)
Lemma readInbounds_config l : forall m ports base, Forall bundled l -> NoDup (map tag_of l) -> 1024 <= base -> base + Z.of_nat (length l) <= 65536 ->
  (forall item, item ∈ l -> m !! socksTag item = None) -> (forall p, p ∈ ports -> p < base) ->
  XrayBundle.readInbounds m ports (imap (fun i item => inboundFor (base + Z.of_nat i) item) l)
  = if forallb (fun item => fits (tag_of item)) l then Ok (inboundsMap m base l) else Err "unsafe Xray bundle inbound".
Proof.
  induction l as [|item l IH]; intros m ports base HB HN HL HU HM HP; [done|]. apply Forall_cons in HB as [HB HB']. cbn [map length] in *. apply NoDup_cons in HN as [H1 H2].
  rewrite (imap_shift (fun p y => inboundFor p y)). cbn [XrayBundle.readInbounds forallb].
  rewrite (inbound_decodes base item (portRange 65535 base ltac:(lia) ltac:(lia) ltac:(lia))), (bundled_tag _ HB).
  cbn [refused]. unfold mbind, result_bind at 1. unfold XrayBundle.safeInbound. cbn [XrayBundle.ib_Tag XrayBundle.ib_Listen XrayBundle.ib_Protocol XrayBundle.ib_Port].
  unfold XrayBundle.tagPattern. rewrite inbound_tag by apply HB.
  assert (E1 : (1024 <=? base) = true) by (apply Z.leb_le; lia). assert (E2 : (base <=? 65535) = true) by (apply Z.leb_le; lia). rewrite E1, E2.
  destruct (fits (tag_of item)); [|done]. cbn [andb ensure String.eqb Ascii.eqb Bool.eqb].
  fold (socksTag item). rewrite (HM item) by left. rewrite bool_decide_eq_false_2 by (by intros [? ?]).
  rewrite bool_decide_eq_false_2 by (intros HX; specialize (HP _ HX); lia). cbn [orb]. fold (inboundOf base item). rewrite IH; try done; try lia.
  - intros y HY. rewrite lookup_insert_ne; [apply HM; by right|]. intros E. apply socksTag_inj in E. apply H1, elem_of_map. by exists y.
  - intros p HX. apply elem_of_union in HX as [->%elem_of_singleton|HX]; [lia|]. specialize (HP _ HX). lia.
Qed.

Fixpoint outboundsMap (m : gmap string XrayBundle.outbound) (l : list rawOutbound) : gmap string XrayBundle.outbound :=
  match l with [] => m | item :: rest => outboundsMap (<[tag_of item := XrayBundle.mkOutbound (tag_of item) "vless"]> m) rest end.
Lemma outboundsMap_lookup l : forall m t, is_Some (outboundsMap m l !! t) <-> is_Some (m !! t) \/ t ∈ map tag_of l.
Proof.
  induction l as [|item l IH]; intros m t; cbn [outboundsMap map]; [rewrite elem_of_nil; tauto|]. rewrite IH, elem_of_cons.
  destruct (decide (t = tag_of item)) as [->|HN]; [rewrite lookup_insert_eq; split; [tauto|]; intros _; left; by eexists|]. rewrite lookup_insert_ne by done. tauto.
Qed.
Lemma outboundsMap_size l : forall m, NoDup (map tag_of l) -> (forall item, item ∈ l -> m !! tag_of item = None) -> size (outboundsMap m l) = (size m + length l)%nat.
Proof.
  induction l as [|x l IH]; intros m HN HM; cbn [outboundsMap length]; [lia|]. cbn [map] in HN. apply NoDup_cons in HN as [H1 H2]. rewrite IH; [|done|].
  - rewrite map_size_insert_None by (apply HM; left). lia.
  - intros y HY. rewrite lookup_insert_ne; [apply HM; by right|]. intros E. apply H1, elem_of_map. by exists y.
Qed.
Lemma readOutbounds_config l : forall m, Forall bundled l -> NoDup (map tag_of l) -> (forall item, item ∈ l -> m !! tag_of item = None) ->
  XrayBundle.readOutbounds m (map raw_Raw l) = Ok (outboundsMap m l).
Proof.
  induction l as [|item l IH]; intros m HB HN HM; [done|]. apply Forall_cons in HB as [[HT HD] HB']. cbn [map] in HN |- *. apply NoDup_cons in HN as [H1 H2].
  cbn [XrayBundle.readOutbounds]. rewrite HD. cbn [refused]. unfold mbind, result_bind at 1. cbn [XrayBundle.ob_Tag XrayBundle.ob_Protocol]. unfold XrayBundle.tagPattern. rewrite HT.
  cbn [andb ensure String.eqb Ascii.eqb Bool.eqb]. rewrite (HM item) by left. rewrite bool_decide_eq_false_2 by (by intros [? ?]). rewrite IH; try done.
  intros y HY. rewrite lookup_insert_ne; [apply HM; by right|]. intros E. apply H1, elem_of_map. by exists y.
Qed.

Fixpoint rulesMap (m : gmap string string) (l : list rawOutbound) : gmap string string :=
  match l with [] => m | item :: rest => rulesMap (<[tag_of item := socksTag item]> m) rest end.
Lemma rulesMap_other l : forall m t, t ∉ map tag_of l -> rulesMap m l !! t = m !! t.
Proof.
  induction l as [|item l IH]; intros m t H; [done|]. cbn [rulesMap map] in *. rewrite not_elem_of_cons in H. destruct H as [H1 H2]. rewrite IH by done. by apply lookup_insert_ne.
Qed.
Lemma rulesMap_at l : forall m item, NoDup (map tag_of l) -> item ∈ l -> rulesMap m l !! tag_of item = Some (socksTag item).
Proof.
  induction l as [|x l IH]; intros m item HN HI; [by apply elem_of_nil in HI|]. cbn [rulesMap map] in *. apply NoDup_cons in HN as [H1 H2].
  apply elem_of_cons in HI as [->|HI]; [|by apply IH]. rewrite rulesMap_other by done. by rewrite lookup_insert_eq.
Qed.
Lemma readRules_config ins outs l : forall m, Forall bundled l -> NoDup (map tag_of l) -> (forall item, item ∈ l -> m !! tag_of item = None) ->
  (forall item, item ∈ l -> is_Some (ins !! socksTag item) /\ is_Some (outs !! tag_of item)) ->
  XrayBundle.readRules ins outs m (map ruleFor l) = Ok (rulesMap m l).
Proof.
  induction l as [|item l IH]; intros m HB HN HM HL; [done|]. apply Forall_cons in HB as [HB HB']. cbn [map] in HN |- *. apply NoDup_cons in HN as [H1 H2].
  cbn [XrayBundle.readRules]. rewrite rule_decodes, (bundled_tag _ HB). fold (socksTag item). cbn [refused]. unfold mbind, result_bind at 1.
  cbn [XrayBundle.rl_InboundTags XrayBundle.rl_Type XrayBundle.rl_OutboundTag]. destruct (HL item) as [HI HO]; [left|].
  rewrite (bool_decide_eq_true_2 _ HI), (bool_decide_eq_true_2 _ HO), (HM item) by left. rewrite bool_decide_eq_false_2 by (by intros [? ?]).
  cbn [negb ensure String.eqb Ascii.eqb Bool.eqb]. apply IH; try done.
  - intros y HY. rewrite lookup_insert_ne; [apply HM; by right|]. intros E. apply H1, elem_of_map. by exists y.
  - intros y HY. apply HL. by right.
Qed.

(** *** Servers, routes and ports *)

Lemma statusOf_tag i d : svr_Tag (statusOf i d) = tag_of i.
Proof.
  unfold statusOf, serverStatusFor. destruct (inferCountry _) as [c s]. destruct (_ && _); destruct (dc_Supported d); destruct (elements_of (out_VNext (raw_Outbound i))) as [|? [|? ?]]; done.
Qed.
Lemma statusOf_supported i d : isSupported (statusOf i d) = dc_Supported d.
Proof.
  unfold statusOf, serverStatusFor. destruct (inferCountry _) as [c s]. destruct (_ && _); destruct (dc_Supported d); destruct (elements_of (out_VNext (raw_Outbound i))) as [|? [|? ?]]; done.
Qed.
Lemma filter_map_comm {A B} (g : A -> B) p l : List.filter p (map g l) = map g (List.filter (fun x => p (g x)) l).
Proof. induction l as [|x l IH]; [done|]. cbn. rewrite IH. by destruct (p (g x)). Qed.
Lemma filter_ext_b {A} (p q : A -> bool) l : (forall x, p x = q x) -> List.filter p l = List.filter q l.
Proof. intros H. induction l as [|x l IH]; [done|]. cbn. by rewrite H, IH. Qed.
(** The supported servers are listed in the order of the configuration. *)
Lemma servers_of_supported l supported statuses : classifyPreparedRawOutbounds l = (supported, statuses, None) ->
  map svr_Tag (List.filter isSupported statuses) = map tag_of supported.
Proof.
  unfold classifyPreparedRawOutbounds. intros H.
  assert (HS : statuses = map (fun p => statusOf p.1 p.2) (decided l) /\ supported = map fst (List.filter (fun p => dc_Supported p.2) (decided l))).
  { destruct (map (fun p => statusOf p.1 p.2) (decided l)); [done|]. destruct (map fst (List.filter (fun p => dc_Supported p.2) (decided l))); [done|]. by injection H as <- <-. }
  destruct HS as [-> ->]. rewrite filter_map_comm, !map_map. rewrite (filter_ext_b _ (fun p => dc_Supported p.2)) by (intros []; apply statusOf_supported).
  clear H. induction (List.filter _ (decided l)) as [|[i d] r IH]; [done|]. cbn [map fst snd]. rewrite statusOf_tag. f_equal. exact IH.
Qed.
Lemma withSOCKS_supported m s : isSupported (withSOCKS m s) = isSupported s.
Proof. unfold withSOCKS. destruct (isSupported s) eqn:E; exact E. Qed.

Lemma socksByTag_go base l : forall (m : gmap string string) n i item, NoDup (map tagOf l) -> l !! i = Some item ->
  foldl (fun m (p : nat * rawOutbound) => <[tagOf p.2 := socksAddress (portAt base p.1)]> m) m (imap (fun j => pair (n + j)%nat) l) !! tagOf item
  = Some (socksAddress (portAt base (n + i))).
Proof.
  assert (HO : forall l (m : gmap string string) n t, t ∉ map tagOf l ->
    foldl (fun m (p : nat * rawOutbound) => <[tagOf p.2 := socksAddress (portAt base p.1)]> m) m (imap (fun j => pair (n + j)%nat) l) !! t = m !! t).
  { clear. induction l as [|x l IH]; intros m n t H; [done|]. cbn [map] in H. rewrite not_elem_of_cons in H. destruct H as [H1 H2]. cbn [imap foldl fst snd].
    rewrite (imap_ext _ (fun j => pair (S n + j)%nat)) by (intros; cbn; f_equal; lia). rewrite IH by done. by apply lookup_insert_ne. }
  induction l as [|x l IH]; intros m n i item HN HI; [done|]. cbn [map] in HN. apply NoDup_cons in HN as [H1 H2]. cbn [imap foldl fst snd].
  rewrite (imap_ext _ (fun j => pair (S n + j)%nat)) by (intros; cbn; f_equal; lia). destruct i as [|i]; cbn in HI.
  - injection HI as ->. rewrite HO by done. by rewrite lookup_insert_eq.
  - rewrite (IH _ (S n) i item) by done. do 3 f_equal. lia.
Qed.
Lemma socksByTag_at base l i item : NoDup (map tagOf l) -> l !! i = Some item -> socksByTag base l !! tagOf item = Some (socksAddress (portAt base i)).
Proof. intros HN HI. unfold socksByTag. by apply (socksByTag_go base l ∅ 0 i item). Qed.

Lemma imap_map {A B C} (g : nat -> B -> C) (h : A -> B) l : imap g (map h l) = imap (fun i x => g i (h x)) l.
Proof. revert g. induction l as [|x l IH]; intros g; [done|]. cbn. f_equal. apply (IH (fun i => g (S i))). Qed.
Lemma imap_agree {A B C} (g : nat -> A -> C) (h : nat -> B -> C) (l : list A) : forall (k : list B), length l = length k ->
  (forall i x y, l !! i = Some x -> k !! i = Some y -> g i x = h i y) -> imap g l = imap h k.
Proof.
  revert g h. induction l as [|x l IH]; intros g h [|y k] HL H; try done. cbn. f_equal; [by apply (H 0%nat)|]. apply (IH (fun i => g (S i)) (fun i => h (S i))); [cbn in HL; lia|].
  intros i. apply (H (S i)).
Qed.
(** The routes of a bundle are the routes of the subscription. *)
Lemma routesOf_config base supported statuses : map svr_Tag (List.filter isSupported statuses) = map tag_of supported -> Forall bundled supported ->
  NoDup (map tag_of supported) -> routesOf (map (withSOCKS (socksByTag base supported)) statuses) = imap (generatedRoute base) supported.
Proof.
  intros HT HB HN. unfold routesOf. rewrite filter_map_comm, (filter_ext_b _ isSupported) by apply withSOCKS_supported. rewrite imap_map.
  assert (HG : map tagOf supported = map tag_of supported).
  { clear -HB. induction HB as [|x l H _ IH]; [done|]. cbn. by rewrite IH, bundled_tag. }
  apply imap_agree.
  - rewrite <- (length_map svr_Tag), HT, length_map. done.
  - intros i s item HS HI. assert (E : svr_Tag s = tag_of item).
    { assert (X : map svr_Tag (List.filter isSupported statuses) !! i = Some (svr_Tag s)) by (by rewrite list_lookup_fmap, HS).
      rewrite HT, list_lookup_fmap, HI in X. by injection X. }
    assert (HSup : isSupported s = true) by (apply list_elem_of_lookup_2, elem_of_filter_b in HS as [_ HS]; done).
    unfold withSOCKS. rewrite HSup. unfold generatedRoute. cbn [svr_Tag svr_SOCKS5 set_svr_SOCKS5]. rewrite E. fold (tag_of item).
    rewrite <- (bundled_tag item) at 2 by (rewrite Forall_forall in HB; apply HB; by eapply list_elem_of_lookup_2).
    rewrite (socksByTag_at base supported i item) by (done || by rewrite HG). done.
Qed.

Lemma socksAddress_split port : 0 <= port -> Net.SplitHostPort (socksAddress port) = Some ("127.0.0.1", pretty port).
Proof. intros H. change (socksAddress port) with (JoinHostPort "127.0.0.1" (pretty port)). apply SplitHostPort_Join; [done|done|by apply pretty_digits]. Qed.
Lemma imap_fst_tags base l : map r_Tag (XrayBundle.vlessRoutes (map boundRoute (imap (generatedRoute base) l))) = map tag_of l
  /\ XrayBundle.vlessRoutes (map boundRoute (imap (generatedRoute base) l)) = map boundRoute (imap (generatedRoute base) l).
Proof.
  assert (HV : forall k, (forall r, r ∈ k -> gr_Type r = "vless") -> XrayBundle.vlessRoutes (map boundRoute k) = map boundRoute k).
  { intros k. induction k as [|r k IH]; intros H; [done|]. cbn. rewrite (H r) by left. cbn. f_equal. apply IH. intros. apply H. by right. }
  rewrite HV.
  - split; [|done]. rewrite map_map.
    assert (X : forall (g : nat -> rawOutbound -> GeneratedRoute) l, (forall i x, gr_Tag (g i x) = tag_of x) -> map (fun r => r_Tag (boundRoute r)) (imap g l) = map tag_of l).
    { clear. intros g l. revert g. induction l as [|x l IH]; intros g H; [done|]. cbn. rewrite H. f_equal. apply (IH (fun i => g (S i))). intros. apply H. }
    by apply X.
  - intros r HR. apply list_elem_of_lookup in HR as [i HR]. rewrite list_lookup_imap in HR. destruct (l !! i); [by injection HR as <-|done].
Qed.

Lemma generated_range b base supported statuses sha marshal sprint : generate sha marshal sprint b base = Ok (supported, statuses) ->
  1024 <= base /\ base + Z.of_nat (length supported) <= 65536 /\ supported <> [].
Proof.
  intros H. apply generated_supported in H as (v & items & l & nm & _ & _ & _ & HC & HR). unfold validatePortRange in HR.
  destruct (_ <=? 0) eqn:E0; [done|]. destruct (_ || _) eqn:E1; [done|]. bool_split.
  repeat match goal with G : (_ <=? _) = false |- _ => apply Z.leb_gt in G | G : (_ <? _) = false |- _ => apply Z.ltb_ge in G end.
  split_and!; [lia|lia|]. intros ->. cbn in *. lia.
Qed.
Lemma mapM_all_Ok {A} (g : A -> result unit) l : (forall x, x ∈ l -> g x = Ok ()) -> exists r, mapM g l = Ok r.
Proof.
  induction l as [|x l IH]; intros H; [by exists []|]. destruct IH as [r Hr]; [intros; apply H; by right|]. exists (() :: r). cbn [mapM]. rewrite (H x) by left. by rewrite Hr.
Qed.
Lemma config_bundle raw base supported : supported <> [] -> XrayBundle.bundleOf raw (xrayConfig base supported) = Ok (XrayBundle.mkBundle raw
  (imap (fun i item => inboundFor (portAt base i) item) supported) (map raw_Raw supported) (map ruleFor supported)).
Proof. by destruct supported. Qed.

Section Bundles.
Context (sha256Hex : string -> string) (marshal : json -> string) (sprintOther : json -> string).

Lemma generated_bundled b v base supported statuses : parse b = Some v -> distinct v = true ->
  generate sha256Hex marshal sprintOther b base = Ok (supported, statuses) -> Forall bundled supported.
Proof.
  intros HP HD H. pose proof (generated_tags _ _ _ _ _ _ _ H) as [_ HT]. apply Forall_forall. intros i HI. rewrite Forall_forall in HT. destruct (HT i HI) as [HV HS].
  apply bundled_outbound; [done|done|]. by eapply generated_decodes.
Qed.
Lemma config_routes_pass raw base supported : Forall bundled supported -> NoDup (map tag_of supported) -> 1024 <= base -> base + Z.of_nat (length supported) <= 65536 ->
  supported <> [] -> XrayBundle.ValidateRoutes (XrayBundle.mkBundle raw (imap (fun i item => inboundFor (portAt base i) item) supported) (map raw_Raw supported) (map ruleFor supported))
    (map boundRoute (imap (generatedRoute base) supported))
  = if forallb (fun item => fits (tag_of item)) supported then Ok () else Err "unsafe Xray bundle inbound".
Proof.
  intros HB HN HL HU HE. unfold XrayBundle.ValidateRoutes, portAt. cbn [XrayBundle.bd_Inbounds XrayBundle.bd_Outbounds XrayBundle.bd_Rules].
  rewrite readInbounds_config by (done || (intros; apply lookup_empty) || (intros ? []%elem_of_empty)). destruct (forallb _ supported); [|done].
  unfold mbind, result_bind at 1. rewrite readOutbounds_config by (done || (intros; apply lookup_empty)). unfold mbind, result_bind at 1.
  rewrite inboundsMap_size, outboundsMap_size by (done || (intros; apply lookup_empty)). rewrite map_size_empty, (length_map ruleFor), Nat.eqb_refl.
  replace ((0 + length supported =? 0)%nat) with false by (destruct supported; done). cbn [negb andb Nat.add]. rewrite ?Nat.eqb_refl. cbn [ensure]. unfold mbind, result_bind at 1.
  assert (HIN : forall item, item ∈ supported -> is_Some (inboundsMap ∅ base supported !! socksTag item) /\ is_Some (outboundsMap ∅ supported !! tag_of item)).
  { intros item HI. split; [|apply outboundsMap_lookup; right; apply elem_of_map; by exists item]. apply list_elem_of_lookup in HI as [i HI]. rewrite (inboundsMap_at _ _ _ i item) by done. by eexists. }
  rewrite readRules_config by (done || (intros; apply lookup_empty)). unfold mbind, result_bind at 1.
  destruct (imap_fst_tags base supported) as [HT HV]. rewrite HT, HV. rewrite (bool_decide_eq_true_2 _ HN), (length_map tag_of), Nat.eqb_refl. cbn [ensure]. unfold mbind, result_bind at 1 2.
  edestruct (mapM_all_Ok (XrayBundle.checkRoute (inboundsMap ∅ base supported) (outboundsMap ∅ supported) (rulesMap ∅ supported))) as [r ->]; [|done].
  intros r HR. apply elem_of_map in HR as (g & -> & HG). apply list_elem_of_lookup in HG as [i HG]. rewrite list_lookup_imap in HG.
  destruct (supported !! i) as [item|] eqn:EI; [|done]. injection HG as <-. pose proof (list_elem_of_lookup_2 _ _ _ EI) as HI. destruct (HIN item HI) as [_ HO].
  unfold XrayBundle.checkRoute, boundRoute, generatedRoute. cbn [r_Tag r_SOCKS5 gr_Tag gr_SOCKS5]. fold (tag_of item).
  rewrite (bool_decide_eq_true_2 _ HO), rulesMap_at by done. unfold socksTag at 1. rewrite String.eqb_refl.
  assert (HP : 0 <= base + Z.of_nat i <= int64_max) by (apply lookup_lt_Some in EI; unfold int64_max; lia).
  rewrite socksAddress_split by lia. cbn [ensure]. unfold mbind, result_bind. cbn [String.eqb Ascii.eqb Bool.eqb ensure].
  rewrite Atoi_pretty by done. rewrite (inboundsMap_at _ _ _ i item) by done. cbn [inboundOf XrayBundle.ib_Port]. by rewrite Z.eqb_refl.
Qed.

(** The configuration generated from a document that repeats no name is a bundle
    that accepts the routes generated with it exactly when every tag leaves room for
    the name of its SOCKS inbound (58 bytes); one longer tag makes the whole bundle
    refused. *)
Theorem bundle_accepts_fitting_tags b v base supported statuses raw :
  parse b = Some v -> distinct v = true -> generate sha256Hex marshal sprintOther b base = Ok (supported, statuses) ->
  exists bundle, XrayBundle.bundleOf raw (xrayConfig base supported) = Ok bundle
  /\ XrayBundle.ValidateRoutes bundle (map boundRoute (routesOf (map (withSOCKS (socksByTag base supported)) statuses)))
     = if forallb (fun item => fits (out_Tag (raw_Outbound item))) supported then Ok () else Err "unsafe Xray bundle inbound".
Proof.
  intros HP HD H. pose proof (generated_bundled _ _ _ _ _ HP HD H) as HB. pose proof (generated_tags _ _ _ _ _ _ _ H) as [HN _].
  pose proof (generated_range _ _ _ _ _ _ _ H) as (HL & HU & HE). apply generated_supported in H as (? & ? & ? & ? & _ & _ & _ & HC & _).
  eexists. split; [by apply config_bundle|]. rewrite routesOf_config by (done || by eapply servers_of_supported). by apply config_routes_pass.
Qed.
End Bundles.

(** ** Steps that keep a property of the state *)

Lemma keeps_orUndo {K A} `{FileSystem K} (I : K -> Prop) (m : io K A) h : keeps I m -> keeps I h -> keeps I (orUndo m h).
Proof. intros Hm Hh k Hk. unfold orUndo. specialize (Hm k Hk). destruct (m k) as [k' [a|e]]; [done|by apply Hh]. Qed.
Lemma keeps_attempt {K A} (I : K -> Prop) (m : io K A) : keeps I m -> keeps I (XrayBundle.attempt m).
Proof. intros Hm k Hk. specialize (Hm k Hk). unfold XrayBundle.attempt. by destruct (m k). Qed.
#[export] Hint Resolve keeps_orUndo keeps_attempt : keeps.

(** The world of the manager, without the processes: every step keeps [I]. *)
Class QuietFiles {K} `{FileSystem K} (I : K -> Prop) : Prop := {
  quiet_Lstat p : keeps I (fs_Lstat p);
  quiet_ReadFile p : keeps I (fs_ReadFile p);
  quiet_MkdirAll p m : keeps I (fs_MkdirAll p m);
  quiet_OpenExcl p m : keeps I (fs_OpenExcl p m);
  quiet_Write p d : keeps I (fs_Write p d);
  quiet_Sync p : keeps I (fs_Sync p);
  quiet_Close p : keeps I (fs_Close p);
  quiet_Chmod p m : keeps I (fs_Chmod p m);
  quiet_Rename a b : keeps I (fs_Rename a b);
  quiet_Remove p : keeps I (fs_Remove p);
  quiet_RemoveAll p : keeps I (fs_RemoveAll p);
  quiet_Random n : keeps I (fs_Random n)
}.
#[export] Hint Resolve quiet_Lstat quiet_ReadFile quiet_MkdirAll quiet_OpenExcl quiet_Write quiet_Sync quiet_Close quiet_Chmod quiet_Rename quiet_Remove
  quiet_RemoveAll quiet_Random : keeps.

Section Quiet.
Context (sha256Hex : string -> string) (marshal : json -> string) (sprintOther : json -> string) (marshalIndent : jtext -> string).
Context {K : Type} `{FileSystem K} (now : K -> K * time) (formatTime : time -> string) (parseTime : string -> option time).
Context (count : (WriteBudget.Counters -> WriteBudget.Counters) -> K -> K) (syncDir : string -> io K unit) (cancelled : K -> K * bool).
Context {Process : Type} (runnerTest : string -> io K unit) (startCandidate : string -> io K Process) (waitReady : list ServerStatus -> io K unit)
        (stop : Process -> io K unit).
Context (checker : string -> string -> K -> K * OutboundCheck) (schedule : nat -> K -> K * list nat).
Context (resolveIPs : option (string -> K -> K * list string)) (speedTester : option (string -> Z -> io K SpeedMeasurement)).
Context (encodePool : PoolSnapshot -> string) (decodePool : string -> option PoolSnapshot).

(** The files and every other step but the start and the stop of a process. *)
Record Quiet (I : K -> Prop) : Prop := {
  quiet_files : QuietFiles I;
  quiet_now : keeps I now;
  quiet_count g : forall k, I k -> I (count g k);
  quiet_syncDir p : keeps I (syncDir p);
  quiet_cancelled : keeps I cancelled;
  quiet_test p : keeps I (runnerTest p);
  quiet_wait l : keeps I (waitReady l);
  quiet_checker t s : keeps I (checker t s);
  quiet_schedule n : keeps I (schedule n);
  quiet_resolve : match resolveIPs with Some r => forall h, keeps I (r h) | None => True end;
  quiet_speed : match speedTester with Some m => forall s n, keeps I (m s n) | None => True end
}.

Section Steps.
Context (I : K -> Prop) (Q : Quiet I).
#[local] Existing Instance quiet_files.
#[local] Hint Resolve quiet_now quiet_syncDir quiet_cancelled quiet_test quiet_wait quiet_checker quiet_schedule : keeps.
Let QF : QuietFiles I := quiet_files I Q.
#[local] Existing Instance QF.

Lemma random_keeps n : keeps I (secureRandomHex n).
Proof. unfold secureRandomHex. keeping. Qed.
Lemma readSubscription_keeps p : keeps I (readSubscriptionFile p).
Proof. unfold readSubscriptionFile. keeping. Qed.
#[local] Hint Resolve random_keeps readSubscription_keeps : keeps.
Lemma writeFile_keeps p d m : keeps I (writeFileAtomic p d m).
Proof. unfold writeFileAtomic. keeping. Qed.
#[local] Hint Resolve writeFile_keeps : keeps.
Lemma generateFile_keeps s o b : keeps I (GenerateXrayConfigFile sha256Hex marshal sprintOther marshalIndent s o b).
Proof. unfold GenerateXrayConfigFile. keeping. Qed.
Lemma readSecret_keeps p : keeps I (XrayBundle.readRegularSecret p).
Proof. unfold XrayBundle.readRegularSecret. keeping. Qed.
#[local] Hint Resolve generateFile_keeps readSecret_keeps : keeps.
Lemma record_keeps c r s : keeps I (XrayBundle.recordWrite now count c r s).
Proof.
  intros k Hk. unfold XrayBundle.recordWrite. pose proof (quiet_now I Q k Hk) as H1. destruct (now k) as [k' t]. cbn in *. by apply (quiet_count I Q).
Qed.
#[local] Hint Resolve record_keeps : keeps.
Lemma replace_keeps p r c : keeps I (XrayBundle.replace now count syncDir p r c).
Proof. unfold XrayBundle.replace. keeping. Qed.
#[local] Hint Resolve replace_keeps : keeps.
Lemma writeAtomic_keeps p r : keeps I (XrayBundle.writeAtomic now count syncDir p r).
Proof. unfold XrayBundle.writeAtomic. keeping. Qed.
#[local] Hint Resolve writeAtomic_keeps : keeps.
Lemma Store_keeps d s h : keeps I (XrayBundle.Store sha256Hex now count syncDir d s h).
Proof. unfold XrayBundle.Store. keeping. Qed.
Lemma Load_keeps d h : keeps I (XrayBundle.Load sha256Hex d h).
Proof. unfold XrayBundle.Load. keeping. Qed.
Lemma LoadPool_keeps p : keeps I (LoadPool decodePool p).
Proof. unfold LoadPool. keeping. Qed.
Lemma StorePool_keeps p s : keeps I (StorePool encodePool p s).
Proof. unfold StorePool. keeping. Qed.
#[local] Hint Resolve Store_keeps Load_keeps LoadPool_keeps StorePool_keeps : keeps.

Lemma retries_keeps n t s : keeps I (retries cancelled checker n t s).
Proof.
  induction n as [|n IH]; cbn [retries]; [keeping|]. apply keeps_let; [by apply quiet_checker|]. intros r. destruct (_ =s _); [keeping|].
  apply keeps_let; [by apply quiet_cancelled|]. intros []; [keeping|]. destruct n; [keeping|exact IH].
Qed.
Lemma runJobs_keeps a jobs order : forall acc, keeps I (runJobs cancelled checker a jobs acc order).
Proof.
  induction order as [|i order IH]; intros acc; cbn [runJobs]; [keeping|]. destruct (jobs !! i); [|apply IH]. apply keeps_let; [apply retries_keeps|]. intros; apply IH.
Qed.
Lemma checkSupported_keeps a l : keeps I (checkSupported cancelled checker schedule a l).
Proof. unfold checkSupported. apply keeps_let; [by apply quiet_schedule|]. intros. apply runJobs_keeps. Qed.
Lemma enrich_keeps c t n l : keeps I (enrichServerInventory resolveIPs c t n l).
Proof.
  pose proof (quiet_resolve I Q) as HR. induction l as [|s l IH]; cbn [enrichServerInventory]; [keeping|]. destruct resolveIPs as [r|].
  - intros k Hk. specialize (HR (svr_Hostname s) k Hk). destruct (r (svr_Hostname s) k) as [k1 ips]. specialize (IH k1 HR). by destruct (enrichServerInventory _ c t n l k1).
  - intros k Hk. specialize (IH k Hk). by destruct (enrichServerInventory _ c t n l k).
Qed.
Lemma reuse_keeps d s t : keeps I (reuseRecentSpeedMeasurement parseTime decodePool d s t).
Proof. unfold reuseRecentSpeedMeasurement. destruct (_ || _); [keeping|]. apply keeps_match; keeping. Qed.
Lemma measureSelected_keeps d t m l : keeps I (measureSelected now parseTime speedTester decodePool d t m l).
Proof.
  pose proof (quiet_speed I Q) as HS. induction l as [|s l IH]; cbn [measureSelected]; destruct speedTester as [measure|]; try (keeping; fail).
  destruct (negb _).
  - apply keeps_let; [exact IH|]. keeping.
  - apply keeps_let; [by apply quiet_now|]. intros a. apply keeps_case; [apply reuse_keeps|keeping|]. apply keeps_match; [apply HS|keeping|keeping].
Qed.
Lemma storeBundle_keeps d c s r : keeps I (storeBundle sha256Hex now count syncDir d c s r).
Proof.
  unfold storeBundle. apply keeps_match; [apply Store_keeps| |unfold failing; keeping]. intros path.
  assert (HR : forall e, keeps I (fun k => failing r e (ignore (fs_Remove path) k).1)).
  { intros e k Hk. unfold failing. cbn. by apply (quiet_Remove path). }
  apply keeps_match; [apply Load_keeps| |exact HR]. intros b. destruct (XrayBundle.ValidateRoutes _ _); [keeping|apply HR].
Qed.
End Steps.
Lemma keeps_or {A} (I J : K -> Prop) (m : K -> K * A) : keeps I m -> keeps J m -> keeps (fun k => I k \/ J k) m.
Proof. intros HI HJ k [Hk|Hk]; [left; by apply HI|right; by apply HJ]. Qed.
Lemma quiet_or (I J : K -> Prop) : Quiet I -> Quiet J -> Quiet (fun k => I k \/ J k).
Proof.
  intros [[] ? HI] [[] ? HJ]. split; try (intros; apply keeps_or; done).
  - split; intros; apply keeps_or; done.
  - intros g k [Hk|Hk]; [left; by apply HI|right; by apply HJ].
  - destruct resolveIPs; [|done]. intros. by apply keeps_or.
  - destruct speedTester; [|done]. intros. by apply keeps_or.
Qed.

(** ** Candidates *)

(** Nothing runs, or one process does; starting and stopping lead from one to the
    other. *)
Context (idle : K -> Prop) (running : Process -> K -> Prop).
Record Processes : Prop := {
  idle_quiet : Quiet idle;
  running_quiet p : Quiet (running p);
  starts path k : idle k -> match startCandidate path k with (k', Ok p) => running p k' | (k', Err _) => idle k' end;
  stops p k : running p k \/ idle k -> idle (stop p k).1
}.

Section Candidates.
Context (W : Processes).
Lemma stop_keeps p : keeps (fun k => running p k \/ idle k) (stop p).
Proof. intros k Hk. right. by apply (stops W). Qed.
Lemma verify_keeps p d c a t s r : keeps (fun k => running p k \/ idle k)
  (verifyCandidate sha256Hex now formatTime parseTime count syncDir cancelled waitReady stop checker schedule resolveIPs speedTester decodePool d c a t s p r).
Proof.
  pose proof (quiet_or _ _ (running_quiet W p) (idle_quiet W)) as Q. unfold verifyCandidate, failing.
  apply keeps_match; [by apply (quiet_wait _ Q)| |intros; apply keeps_pure]. intros _. apply keeps_let; [by apply checkSupported_keeps|]. intros checks.
  destruct (selectHealthyOutbound checks) as [selected|]; [|apply keeps_pure]. apply keeps_let; [apply (quiet_now _ Q)|]. intros at_.
  apply keeps_let; [by apply enrich_keeps|]. intros servers. apply keeps_let; [by apply measureSelected_keeps|]. intros measured.
  apply keeps_match; [apply stop_keeps| |intros; apply keeps_pure]. intros _. by apply storeBundle_keeps.
Qed.
Lemma start_idle d c a t s r : keeps idle
  (startAndVerify sha256Hex now formatTime parseTime count syncDir cancelled runnerTest startCandidate waitReady stop checker schedule resolveIPs speedTester decodePool d c a t s r).
Proof.
  unfold startAndVerify, failing. apply keeps_match; [apply (quiet_test _ (idle_quiet W))| |intros; apply keeps_pure]. intros _ k Hk.
  pose proof (starts W c k Hk) as HS. destruct (startCandidate c k) as [k1 [p|e]]; [|done].
  pose proof (verify_keeps p d c a t s r k1 (or_introl HS)) as HV. destruct (verifyCandidate _ _ _ _ _ _ _ _ _ _ _ _ _ _ d c a t s p r k1) as [k2 outcome].
  cbn in *. by apply (stops W).
Qed.
Lemma prepare_idle d s base a t : keeps idle
  (PrepareBundle sha256Hex marshal sprintOther marshalIndent now formatTime parseTime count syncDir cancelled runnerTest startCandidate waitReady stop checker schedule
     resolveIPs speedTester decodePool d s base a t).
Proof.
  pose proof (idle_quiet W) as Q. unfold PrepareBundle, failing. destruct (d =s ""); [apply keeps_pure|].
  apply keeps_match; [apply keeps_wrap; by apply random_keeps| |intros; apply keeps_pure]. intros randomID. cbv zeta.
  apply (keeps_after idle _ _ (fun outcome => outcome)).
  - apply keeps_match; [by apply generateFile_keeps| |intros; apply keeps_pure]. intros summary. apply start_idle.
  - intros k Hk. apply keeps_ignore; [|done]. apply (quiet_files _ Q).
Qed.
Lemma measured_idle d mode snapshot use : keeps idle use -> (forall p, keeps (fun k => running p k \/ idle k) use) ->
  keeps idle (startMeasured sha256Hex runnerTest startCandidate waitReady stop d mode snapshot use).
Proof.
  intros HU HU'. pose proof (idle_quiet W) as Q. unfold startMeasured, fail, lift. destruct (_ =s _); [done|]. destruct (_ =s _); [apply keeps_pure|].
  apply keeps_match; [by apply Load_keeps| |intros; apply keeps_pure]. intros _. destruct (XrayBundle.Path d _) as [path|]; [|apply keeps_pure].
  apply keeps_match; [apply (quiet_test _ Q)| |intros; apply keeps_pure]. intros _ k Hk. pose proof (starts W path k Hk) as HS.
  destruct (startCandidate path k) as [k1 [p|e]]; [|done]. pose proof (quiet_or _ _ (running_quiet W p) Q) as QP.
  pose proof (quiet_wait _ QP (pl_Servers snapshot) k1 (or_introl HS)) as H1. destruct (waitReady (pl_Servers snapshot) k1) as [k2 [u|e]]; cbn in *; [|by apply (stops W)].
  pose proof (HU' p k2 H1) as H2. destruct (use k2) as [k3 [m|e]]; cbn in *; [|by apply (stops W)].
  pose proof (stops W p k3 H2) as H3. destruct (stop p k3) as [k4 [u'|e]]; cbn in *; [done|]. apply (stops W). by right.
Qed.
Lemma measure_idle d mode id : keeps idle
  (MeasureServer sha256Hex now formatTime runnerTest startCandidate waitReady stop speedTester encodePool decodePool d mode id).
Proof.
  pose proof (idle_quiet W) as Q. pose proof (quiet_speed _ Q) as HM. assert (HM' : forall p, match speedTester with Some m => forall s n, keeps (fun k => running p k \/ idle k) (m s n) | None => True end).
  { intros p. apply (quiet_speed _ (quiet_or _ _ (running_quiet W p) Q)). }
  unfold MeasureServer, fail, lift. destruct speedTester as [measure|]; [|apply keeps_pure]. destruct (d =s ""); [apply keeps_pure|].
  apply keeps_match; [by apply LoadPool_keeps| |intros; apply keeps_pure]. intros snapshot. destruct (list_find _ _) as [[i server]|]; [|apply keeps_pure].
  destruct (negb _); [apply keeps_pure|]. destruct (negb _); [apply keeps_pure|].
  apply keeps_match; [apply measured_idle; [apply HM|intros p; apply HM']| |intros; apply keeps_pure]. intros m.
  apply keeps_let; [apply (quiet_now _ Q)|]. intros at_. cbv zeta. apply keeps_match; [by apply StorePool_keeps|intros; apply keeps_pure|intros; apply keeps_pure].
Qed.

(** C24: A candidate Xray does not outlive its use: where nothing ran before, nothing
    runs after a bundle was prepared or a server was measured, whichever step failed. *)
Theorem no_candidate_left_running k stateDir subscription base attempts tariff mode id : idle k ->
  idle (PrepareBundle sha256Hex marshal sprintOther marshalIndent now formatTime parseTime count syncDir cancelled runnerTest startCandidate waitReady stop checker schedule
          resolveIPs speedTester decodePool stateDir subscription base attempts tariff k).1
  /\ idle (MeasureServer sha256Hex now formatTime runnerTest startCandidate waitReady stop speedTester encodePool decodePool stateDir mode id k).1.
Proof. intros Hk. split; [by apply prepare_idle|by apply measure_idle]. Qed.
End Candidates.

(** ** A bundle that is ready *)

(** A check that went well and saw an address in a known country other than Russia. *)
Definition abroad (c : OutboundCheck) : Prop :=
  oc_Status c = "OK" /\ oc_ExternalIPHash c <> "" /\ oc_ExternalCountry c ∉ [""; "UNKNOWN"; "RU"].
Lemma verifiedEgress_spec c : verifiedEgress c = true <-> abroad c.
Proof.
  unfold verifiedEgress, abroad. rewrite !andb_true_iff, !negb_true_iff, String.eqb_eq, !String.eqb_neq.
  rewrite !not_elem_of_cons. split; [intros ((((H1 & H2) & H3) & H4) & H5); split_and!; try done; apply not_elem_of_nil|naive_solver].
Qed.
Lemma selected_head checks c : selectHealthyOutbound checks = Some c ->
  c ∈ checks /\ abroad c /\ forall other, other ∈ checks -> abroad other -> oc_LatencyMS c <= oc_LatencyMS other.
Proof.
  unfold selectHealthyOutbound. intros HS. destruct (gosort _ _) as [|x l] eqn:E; [done|]. injection HS as ->.
  assert (HI : c ∈ List.filter verifiedEgress checks) by (rewrite <- (gosort_perm (key_lt oc_LatencyMS)), E; left).
  apply elem_of_filter_b in HI as [H1 H2]. split_and!; [done|by apply verifiedEgress_spec|]. intros other HO HV%verifiedEgress_spec.
  assert (X : key_lt oc_LatencyMS other c = false) by (eapply gosort_head_min; [apply _|exact E|]; by apply elem_of_filter_b).
  unfold key_lt in X. apply Z.ltb_ge in X. lia.
Qed.
(** A check that says OK is what a probe of a supported server said. *)
Definition probed (servers : list ServerStatus) (c : OutboundCheck) : Prop :=
  exists s k, s ∈ servers /\ isSupported s = true /\ (checker (svr_Tag s) (svr_SOCKS5 s) k).2 = c.
Lemma retries_OK n t s : forall k, oc_Status (retries cancelled checker n t s k).2 = "OK" -> exists k', (checker t s k').2 = (retries cancelled checker n t s k).2.
Proof.
  induction n as [|n IH]; intros k; cbn [retries]; [done|]. destruct (checker t s k) as [k1 c] eqn:EC. destruct (oc_Status c =s "OK") eqn:ES; cbn.
  - intros _. exists k. by rewrite EC.
  - destruct (cancelled k1) as [k2 []]; cbn; [done|]. destruct n as [|n]; cbn; [intros H0; by rewrite H0 in ES|]. intros H0. apply (IH k2 H0).
Qed.
Lemma runJobs_OK a servers order : forall k acc, Forall (fun c => oc_Status c = "OK" -> probed servers c) acc ->
  Forall (fun c => oc_Status c = "OK" -> probed servers c) (runJobs cancelled checker a (List.filter isSupported servers) acc order k).2.
Proof.
  induction order as [|i order IH]; intros k acc HA; [done|]. cbn [runJobs]. destruct (List.filter isSupported servers !! i) as [s|] eqn:ES; [|by apply IH].
  destruct (checkWithRetry cancelled checker a (svr_Tag s) (svr_SOCKS5 s) k) as [k1 c] eqn:EC. apply IH. apply Forall_insert; [done|]. intros HO.
  apply list_elem_of_lookup_2, elem_of_filter_b in ES as [H1 H2]. unfold checkWithRetry in EC.
  destruct (retries_OK (checkAttempts a) (svr_Tag s) (svr_SOCKS5 s) k) as [k' Hk']; [by rewrite EC|]. exists s, k'. rewrite EC in Hk'. by split_and!.
Qed.
Lemma checkSupported_OK a servers k c : c ∈ (checkSupported cancelled checker schedule a servers k).2 -> oc_Status c = "OK" -> probed servers c.
Proof.
  unfold checkSupported. destruct (schedule _ k) as [k1 order]. intros HC. assert (HF := runJobs_OK a servers order k1 (repeat zero_OutboundCheck (length (List.filter isSupported servers)))).
  intros HO. refine (proj1 (Forall_forall _ _) (HF _) c HC HO). apply Forall_forall. intros x Hx. apply list_elem_of_In, repeat_spec in Hx. by subst.
Qed.

(** The inventory keeps what a server is reached by. *)
Definition reach (s : ServerStatus) : string * string * string := (svr_Tag s, svr_SOCKS5 s, svr_Status s).
Lemma enriched_reach checks selected at_ ips s : reach (enriched checks selected at_ ips s) = reach s.
Proof.
  unfold enriched. cbv zeta. destruct ips, (lastCheck checks _) as [c|]; [| | |]; try (destruct (_ && _)); try (destruct (negb _)); try (destruct (_ =s _)); reflexivity.
Qed.
Lemma enrich_reach checks selected at_ servers : forall k, map reach (enrichServerInventory resolveIPs checks selected at_ servers k).2 = map reach servers.
Proof.
  induction servers as [|s l IH]; intros k; [done|]. cbn [enrichServerInventory]. destruct (match resolveIPs with Some _ => _ | None => _ end) as [k1 ips].
  specialize (IH k1). destruct (enrichServerInventory _ _ _ _ l k1) as [k2 others]. cbn in IH |- *. by rewrite enriched_reach, IH.
Qed.
Lemma reusable_reach previous t s s' : reusable parseTime previous t s = Some s' -> reach s' = reach s.
Proof.
  induction previous as [|x l IH]; [done|]. cbn [reusable]. destruct (_ || _); [done|]. destruct (parseTime _); [|done]. destruct (_ || _); [done|]. by intros [= <-].
Qed.
Lemma measure_reach d tag t servers : forall k, map reach (measureSelected now parseTime speedTester decodePool d tag t servers k).2 = map reach servers.
Proof.
  induction servers as [|s l IH]; intros k; cbn [measureSelected]; destruct speedTester as [m|]; try done. destruct (negb _).
  - specialize (IH k). destruct (measureSelected _ _ _ _ _ _ _ l k) as [k1 rest]. cbn in IH |- *. by rewrite IH.
  - destruct (now k) as [k1 at_]. unfold reuseRecentSpeedMeasurement. destruct ((svr_LogicalID s =s "") || (d =s "")).
    + by destruct (m _ _ k1) as [k2 [x|e]].
    + destruct (LoadPool _ _ k1) as [k2 [x|e]]; [|by destruct (m _ _ k2) as [k3 [x|e']]].
      destruct (reusable _ _ _ s) as [s'|] eqn:ER; [cbn; by rewrite (reusable_reach _ _ _ _ ER)|]. by destruct (m _ _ k2) as [k3 [y|e']].
Qed.
Lemma probed_reach l k c : map reach l = map reach k -> probed l c -> probed k c.
Proof.
  intros HR (s & w & HS & HU & HC). apply list_elem_of_lookup in HS as [i HS].
  assert (X : map reach k !! i = Some (reach s)) by (by rewrite <- HR, list_lookup_fmap, HS). rewrite list_lookup_fmap in X.
  destruct (k !! i) as [s'|] eqn:EK; [|done]. injection X as E1 E2 E3. exists s', w. split_and!; [by eapply list_elem_of_lookup_2| |by rewrite E1, E2].
  unfold isSupported in *. by rewrite E3.
Qed.

(** What a ready bundle stands for. *)
Definition verifiedBundle (r : PreparedBundle) : Prop :=
  pb_Ready r = true
  /\ (exists c, c ∈ pb_Checks r /\ oc_Tag c = pb_SelectedTag r /\ abroad c /\ probed (pb_Servers r) c
      /\ forall other, other ∈ pb_Checks r -> abroad other -> oc_LatencyMS c <= oc_LatencyMS other)
  /\ (exists raw bundle, XrayBundle.parse raw = Ok bundle /\ XrayBundle.Hash sha256Hex raw = pb_BundleHash r
      /\ XrayBundle.ValidateRoutes bundle (map boundRoute (pb_Routes r)) = Ok ()).
Lemma stored_bundle d c s r k k' r' : storeBundle sha256Hex now count syncDir d c s r k = (k', (r', None)) -> xg_SHA256 s = pb_BundleHash r ->
  exists path raw bundle, r' = ready path (routesOf (xg_Servers s)) r /\ XrayBundle.parse raw = Ok bundle /\ XrayBundle.Hash sha256Hex raw = pb_BundleHash r
    /\ XrayBundle.ValidateRoutes bundle (map boundRoute (routesOf (xg_Servers s))) = Ok ().
Proof.
  unfold storeBundle, failing. intros HS EH. destruct (XrayBundle.Store _ _ _ _ _ _ _ k) as [k1 [path|e]]; [|done].
  destruct (XrayBundle.Load sha256Hex d (xg_SHA256 s) k1) as [k2 [bundle|e]] eqn:EL; [|done]. destruct (XrayBundle.ValidateRoutes _ _) as [[]|e] eqn:EV; [|done].
  injection HS as <- <-. unfold XrayBundle.Load in EL. run_steps EL. repeat match goal with G : lift _ _ = _ |- _ => apply lift_ran in G as [-> G] end.
  match goal with G : ensure _ _ = Ok _ |- _ => apply ensure_Ok, String.eqb_eq in G; rename G into HH end.
  match goal with G : XrayBundle.parse ?raw = Ok bundle |- _ => exists path, raw, bundle end. rewrite <- EH. by split_and!.
Qed.
Lemma verified_ready d c a t s p r k k' r' :
  verifyCandidate sha256Hex now formatTime parseTime count syncDir cancelled waitReady stop checker schedule resolveIPs speedTester decodePool d c a t s p r k = (k', (r', None)) ->
  xg_SHA256 s = pb_BundleHash r -> xg_Servers s = pb_Servers r -> verifiedBundle r'.
Proof.
  unfold verifyCandidate, failing. intros HV EH ER. destruct (waitReady (xg_Servers s) k) as [k1 [u|e]]; [|done].
  destruct (checkSupported cancelled checker schedule a (xg_Servers s) k1) as [k2 checks] eqn:EC. destruct (selectHealthyOutbound checks) as [c0|] eqn:ES; [|done].
  destruct (now k2) as [k3 at_]. destruct (enrichServerInventory _ _ _ _ _ k3) as [k4 servers] eqn:EI. destruct (measureSelected _ _ _ _ _ _ _ _ k4) as [k5 measured] eqn:EM.
  assert (HRE : map reach (xg_Servers s) = map reach measured).
  { pose proof (measure_reach d (oc_Tag c0) t servers k4) as X. rewrite EM in X. cbn in X. rewrite X, ER.
    pose proof (enrich_reach checks (oc_Tag c0) (formatTime at_) (pb_Servers (withChecks checks r)) k3) as Y. rewrite EI in Y. by cbn in Y. }
  destruct (stop p k5) as [k6 [u'|e]]; [|done]. apply stored_bundle in HV as (path & raw & bundle & -> & HP & HH & HR); [|done].
  apply selected_head in ES as (H1 & H2 & H3). assert (HS : oc_Status c0 = "OK") by apply H2.
  assert (HC : probed (xg_Servers s) c0) by (apply (checkSupported_OK a _ k1); [by rewrite EC|done]).
  split_and!; [done| |by exists raw, bundle]. exists c0. split_and!; try done. by eapply probed_reach.
Qed.

(** C23: A prepared bundle is ready only if the selected server was probed through its own
    SOCKS listener and answered from a known country other than Russia, no verified server
    was faster, and the bundle read back under its hash accepts the routes handed out. *)
Theorem prepared_bundle_was_verified k k' stateDir subscription base attempts tariff r :
  PrepareBundle sha256Hex marshal sprintOther marshalIndent now formatTime parseTime count syncDir cancelled runnerTest startCandidate waitReady stop checker schedule
    resolveIPs speedTester decodePool stateDir subscription base attempts tariff k = (k', (r, None)) -> verifiedBundle r.
Proof.
  unfold PrepareBundle, failing. intros HP. destruct (stateDir =s ""); [done|]. destruct (wrap _ _ k) as [k1 [randomID|e]]; [|done]. cbv zeta in HP.
  destruct (GenerateXrayConfigFile _ _ _ _ _ _ _ k1) as [k2 [summary|e]]; [|done].
  destruct (startAndVerify _ _ _ _ _ _ _ _ _ _ _ _ _ _ _ _ _ _ _ _ _ _ k2) as [k3 outcome] eqn:EV. injection HP as _ ->.
  unfold startAndVerify, failing in EV. destruct (runnerTest _ k2) as [k4 [u|e]]; [|done]. destruct (startCandidate _ k4) as [k5 [p|e]]; [|done].
  destruct (verifyCandidate _ _ _ _ _ _ _ _ _ _ _ _ _ _ _ _ _ _ _ _ _ k5) as [k6 outcome] eqn:EC. injection EV as _ ->. by eapply verified_ready.
Qed.
End Quiet.

(** ** Files written as a whole *)

(** What the calls do to the contents of files. *)
Class FileContents (K : Type) `{FileSystem K} := contents : K -> string -> option string.
Class FileLaws (K : Type) `{FileContents K} : Prop := {
  same_elsewhere_MkdirAll d m k p : contents (fs_MkdirAll d m k).1 p = contents k p;
  same_elsewhere_Random n k p : contents (fs_Random n k).1 p = contents k p;
  same_elsewhere_OpenExcl f m k p : p <> f -> contents (fs_OpenExcl f m k).1 p = contents k p;
  opened f m k u : (fs_OpenExcl f m k).2 = Ok u -> contents (fs_OpenExcl f m k).1 f = Some "";
  same_elsewhere_Write f d k p : p <> f -> contents (fs_Write f d k).1 p = contents k p;
  appended f d k u old : (fs_Write f d k).2 = Ok u -> contents k f = Some old -> contents (fs_Write f d k).1 f = Some (old +:+ d);
  same_Sync f k p : contents (fs_Sync f k).1 p = contents k p;
  same_Close f k p : contents (fs_Close f k).1 p = contents k p;
  same_Chmod f m k p : contents (fs_Chmod f m k).1 p = contents k p;
  same_elsewhere_Remove f k p : p <> f -> contents (fs_Remove f k).1 p = contents k p;
  renamed a b k u : (fs_Rename a b k).2 = Ok u -> contents (fs_Rename a b k).1 b = contents k a;
  same_elsewhere_Rename a b k p e : (fs_Rename a b k).2 = Err e -> p <> a -> contents (fs_Rename a b k).1 p = contents k p
}.
Lemma tmp_elsewhere path suffix : path <> path +:+ ".tmp." +:+ suffix.
Proof. intros E. apply (f_equal String.length) in E. rewrite !str_length_app in E. cbn in E. lia. Qed.

Section Atomic.
Context {K : Type} `{FileLaws K}.
(** A computation that does not touch a file, and one that ends with a step that may. *)
Definition spares {A} (p : string) (m : io K A) : Prop := forall k, contents (m k).1 p = contents k p.
Lemma spares_orUndo {A} p (m : io K A) h : spares p m -> spares p h -> spares p (orUndo m h).
Proof. intros Hm Hh k. unfold orUndo. specialize (Hm k). destruct (m k) as [k1 [a|e]]; [done|]. cbn in *. by rewrite Hh. Qed.
Lemma spares_bind {A B} p (m : io K A) (g : A -> io K B) : spares p m -> (forall a, spares p (g a)) -> spares p (m ≫= g).
Proof. intros Hm Hg k. unfold mbind, io_bind. specialize (Hm k). destruct (m k) as [k1 [a|e]]; [|done]. cbn in *. by rewrite Hg. Qed.
Lemma spares_ignore p (m : io K unit) : spares p m -> spares p (ignore m).
Proof. intros Hm k. apply Hm. Qed.

(** The file holds the new text or what it held. *)
Definition whole (path data : string) (k : K) (r : K * result unit) : Prop :=
  contents r.1 path = match r.2 with Ok _ => Some data | Err _ => contents k path end.
Lemma whole_step {A} path data (m : io K A) (g : A -> io K unit) k : spares path m ->
  (forall k1 a, m k = (k1, Ok a) -> whole path data k1 (g a k1)) -> whole path data k ((m ≫= g) k).
Proof.
  intros Hm Hg. unfold mbind, io_bind. specialize (Hm k). destruct (m k) as [k1 [a|e]]; cbn in Hm; [|exact Hm].
  specialize (Hg k1 a eq_refl). unfold whole in *. by rewrite Hg, Hm.
Qed.
Lemma orUndo_ran {A} (m : io K A) h k k1 a : orUndo m h k = (k1, Ok a) -> m k = (k1, Ok a).
Proof. unfold orUndo. by destruct (m k) as [k2 [b|e]]. Qed.
Lemma ran_fst {A} (m : io K A) k k1 a : m k = (k1, Ok a) -> (m k).1 = k1 /\ (m k).2 = Ok a.
Proof. by intros ->. Qed.

(** A file is written as a whole: after [writeFileAtomic] it holds the new text if the
    call succeeded, and what it held before if any step failed. *)
Theorem file_is_old_or_new path data perm k : contents (writeFileAtomic path data perm k).1 path =
  match (writeFileAtomic path data perm k).2 with Ok _ => Some data | Err _ => contents k path end.
Proof.
  change (whole path data k (writeFileAtomic path data perm k)). unfold writeFileAtomic.
  apply whole_step; [intros w; apply same_elsewhere_MkdirAll|]. intros k1 [] _. apply whole_step.
  { intros w. unfold wrap, secureRandomHex. cbn. unfold mbind, io_bind. pose proof (same_elsewhere_Random 6 w path) as E. by destruct (fs_Random 6 w) as [k2 [r|e]]. }
  intros k2 suffix _. cbv zeta. set (tmp := path +:+ ".tmp." +:+ suffix). assert (HT : path <> tmp) by apply tmp_elsewhere.
  assert (HR : spares path (ignore (fs_Remove tmp))) by (apply spares_ignore; intros w; by apply same_elsewhere_Remove).
  assert (HC : spares path (_ ← ignore (fs_Close tmp); ignore (fs_Remove tmp))).
  { apply spares_bind; [|done]. apply spares_ignore. intros w. apply same_Close. }
  apply whole_step; [intros w; by apply same_elsewhere_OpenExcl|]. intros k3 u3 H3.
  assert (O3 : contents k3 tmp = Some "") by (apply ran_fst in H3 as [<- H3]; by eapply opened).
  apply whole_step; [apply spares_orUndo; [intros w; by apply same_elsewhere_Write|done]|]. intros k4 u4 H4%orUndo_ran.
  assert (O4 : contents k4 tmp = Some data) by (apply ran_fst in H4 as [<- H4]; by rewrite (appended _ _ _ _ _ H4 O3)).
  apply whole_step; [apply spares_orUndo; [intros w; apply same_Sync|done]|]. intros k5 u5 H5%orUndo_ran.
  assert (O5 : contents k5 tmp = Some data) by (apply ran_fst in H5 as [<- _]; by rewrite same_Sync).
  apply whole_step; [apply spares_orUndo; [intros w; apply same_Close|done]|]. intros k6 u6 H6%orUndo_ran.
  assert (O6 : contents k6 tmp = Some data) by (apply ran_fst in H6 as [<- _]; by rewrite same_Close).
  apply whole_step; [apply spares_orUndo; [intros w; apply same_Chmod|done]|]. intros k7 u7 H7%orUndo_ran.
  assert (O7 : contents k7 tmp = Some data) by (apply ran_fst in H7 as [<- _]; by rewrite same_Chmod).
  unfold mbind, io_bind, orUndo, ignore, whole. pose proof (renamed tmp path k7) as O8. pose proof (same_elsewhere_Rename tmp path k7 path) as E8.
  destruct (fs_Rename tmp path k7) as [k8 [u8|e]]; cbn in *; [by rewrite same_Chmod, (O8 u8)|]. pose proof (HR k8) as E9. cbn in E9. rewrite E9. by apply (E8 e).
Qed.
End Atomic.

(** ** A router in memory *)

Module Memory.
Import SubscriptionExample.
(** Files with their modes, whether a candidate runs, and the call that fails. *)
Record world := mkWorld { w_files : gmap string (string * Z); w_running : bool; w_fails : string }.
Definition setFiles (files : gmap string (string * Z)) (w : world) : world := mkWorld files (w_running w) (w_fails w).
Definition call {A} (name : string) (step : world -> world * result A) : io world A := fun w =>
  if w_fails w =s name then (w, Err (name +:+ " failed")) else step w.
Definition edit (name : string) (g : gmap string (string * Z) -> gmap string (string * Z)) : io world unit :=
  call name (fun w => (setFiles (g (w_files w)) w, Ok ())).
#[export] Instance memory : FileSystem world := {|
  fs_Lstat p := call "lstat" (fun w => (w, Ok (f ← w_files w !! p; Some (mkInfo true false (S.len f.1) f.2))));
  fs_ReadFile p := call "read" (fun w => (w, match w_files w !! p with Some f => Ok f.1 | None => Err "no file" end));
  fs_MkdirAll _ _ := edit "mkdir" id;
  fs_OpenExcl p m := edit "open" (insert p ("", m));
  fs_Write p d := edit "write" (fun files => <[p := (default "" (fst <$> files !! p) +:+ d, default 0 (snd <$> files !! p))]> files);
  fs_Sync _ := edit "sync" id;
  fs_Close _ := edit "close" id;
  fs_Chmod p m := edit "chmod" (fun files => match files !! p with Some f => <[p := (f.1, m)]> files | None => files end);
  fs_Rename a b := edit "rename" (fun files => match files !! a with Some f => <[b := f]> (delete a files) | None => delete b files end);
  fs_Remove p := edit "remove" (delete p);
  fs_RemoveAll _ := edit "removeAll" id;
  fs_Random n := call "random" (fun w => (w, Ok (String.concat "" (repeat "r" (Z.to_nat n)))));
  fs_Dir _ := "/state";
  fs_Join := String.concat "/"
|}.
#[export] Instance memory_contents : FileContents world := fun w p => fst <$> w_files w !! p.
Lemma call_fst {A} name step (w : world) p : (forall v, contents (step v).1 p = contents v p) -> contents (call (A := A) name step w).1 p = contents w p.
Proof. unfold call. by destruct (_ =s _). Qed.
Ltac edited := intros; unfold edit, call, contents, memory_contents; cbn; destruct (_ =s _); cbn; try done.
#[export] Instance memory_laws : FileLaws world.
Proof.
  split; cbn; try (edited; fail).
  - edited. by rewrite lookup_insert_ne.
  - unfold edit, call, contents, memory_contents. cbn. intros. destruct (_ =s _); cbn in *; [done|]. by rewrite lookup_insert_eq.
  - edited. by rewrite lookup_insert_ne.
  - unfold edit, call, contents, memory_contents. cbn. intros f d k u old HO HC. destruct (_ =s _); cbn in *; [done|]. rewrite lookup_insert_eq, HC. done.
  - edited. destruct (w_files k !! f) as [g|] eqn:E; [|done]. destruct (decide (p = f)) as [->|]; [by rewrite lookup_insert_eq, E|by rewrite lookup_insert_ne].
  - edited. by rewrite lookup_delete_ne.
  - unfold edit, call, contents, memory_contents. cbn. intros a b k u HO. destruct (_ =s _); cbn in *; [done|].
    destruct (w_files k !! a) as [g|]; [by rewrite lookup_insert_eq|by rewrite lookup_delete_eq].
  - unfold edit, call, contents, memory_contents. cbn. intros a b k p e HE. by destruct (_ =s _).
Qed.

(** A runner that runs one candidate, a check that finds every server in Finland. *)
Definition now (w : world) : world * time := (w, 1).
Definition started (path : string) : io world unit := call "start" (fun w => (mkWorld (w_files w) true (w_fails w), Ok ())).
Definition stopped (_ : unit) : io world unit := fun w => (mkWorld (w_files w) false (w_fails w), Ok ()).
Definition tested (_ : string) : io world unit := edit "test" id.
Definition waited (_ : list ServerStatus) : io world unit := edit "ready" id.
Definition synced (_ : string) : io world unit := edit "syncdir" id.
Definition checked (tag _ : string) (w : world) : world * OutboundCheck := (w, mkOutboundCheck tag "OK" "" 20 "hash" "FI").
Definition inOrder (n : nat) (w : world) : world * list nat := (w, seq 0 n).
Definition counted (_ : WriteBudget.Counters -> WriteBudget.Counters) (w : world) : world := w.
Definition notDone (w : world) : world * bool := (w, false).
(** The text of a configuration: [print]. *)
Definition source : string := print (documentOf two).
Definition start (fails : string) : world := mkWorld {[ "/state/sub.json" := (source, mode600) ]} false fails.
Definition prepare (w : world) : world * outcomeOf :=
  PrepareBundle hash text sprint print now (fun _ => "now") (fun _ => None) counted synced notDone tested started waited stopped checked inOrder None None
    (fun _ => None) "/state" "/state/sub.json" 2000 3 (F.of_Z 300) w.
Definition measure (w : world) : io world (SpeedMeasurement * ServerStatus) :=
  MeasureServer hash now (fun _ => "now") tested started waited stopped None (fun _ => "pool") (fun _ => None) "/state" "candidate" "srv".
Definition prepared : PreparedBundle := (prepare (start "")).2.1.

Definition idle (w : world) : Prop := w_running w = false.
Definition running (_ : unit) (w : world) : Prop := w_running w = true.
Lemma call_running {A} (b : bool) name (step : world -> world * result A) : (forall w, w_running (step w).1 = w_running w) ->
  keeps (fun w => w_running w = b) (call name step).
Proof. intros HS w Hw. unfold call. destruct (_ =s _); [done|]. by rewrite HS. Qed.
Lemma memory_quiet b : QuietFiles (fun w => w_running w = b).
Proof. split; intros; cbn; unfold edit; by apply call_running. Qed.
Lemma world_quiet b : Quiet now counted synced notDone tested waited checked inOrder None None (fun w => w_running w = b).
Proof.
  split; try done; try (intros; unfold synced, tested, waited, edit; by apply call_running); try apply memory_quiet; try (by intros ? ?); try (by intros ? ? ?); by intros ? ? ? ?.
Qed.
Lemma memory_processes : Processes now counted synced notDone tested started waited stopped checked inOrder None None idle running.
Proof.
  split; [apply world_quiet|intros ?; apply (world_quiet true)| |done]. intros path w Hw. unfold started, call. by destruct (_ =s _).
Qed.
End Memory.
Import SubscriptionExample Memory.

Lemma bundle_accepts_fitting_tags_witness : exists bundle, XrayBundle.bundleOf "" (xrayConfig 2000 outcome.1) = Ok bundle
  /\ XrayBundle.ValidateRoutes bundle (map boundRoute (routesOf (map (withSOCKS (socksByTag 2000 outcome.1)) outcome.2))) = Ok ().
Proof.
  destruct (bundle_accepts_fitting_tags hash text sprint (print (documentOf two)) (documentOf two) 2000 outcome.1 outcome.2 "" ltac:(vm_compute; reflexivity)
    ltac:(vm_compute; reflexivity) outcome_is) as (bundle & EB & EV).
  exists bundle. split; [exact EB|]. rewrite EV. vm_compute. reflexivity.
Defined.
Lemma no_candidate_left_running_witness : w_running (prepare (start "close")).1 = false /\ w_running (measure (start "") (start "")).1 = false.
Proof.
  exact (no_candidate_left_running hash text sprint print now (fun _ => "now") (fun _ => None) counted synced notDone tested started waited stopped checked inOrder None None
    (fun _ => "pool") (fun _ => None) idle running memory_processes (start "close") "/state" "/state/sub.json" 2000 3 (F.of_Z 300) "candidate" "srv" eq_refl).
Defined.
(** The bundle of the two servers is ready. *)
Lemma prepared_ok : prepare (start "") = ((prepare (start "")).1, (prepared, None)).
Proof. vm_compute. reflexivity. Qed.
Lemma prepared_bundle_was_verified_witness : pb_SelectedTag prepared = "de-612e6578" /\ verifiedBundle hash checked prepared.
Proof.
  split; [vm_compute; reflexivity|].
  exact (prepared_bundle_was_verified hash text sprint print now (fun _ => "now") (fun _ => None) counted synced notDone tested started waited stopped checked inOrder None None
    (fun _ => None) (start "") (prepare (start "")).1 "/state" "/state/sub.json" 2000 3 (F.of_Z 300) prepared prepared_ok).
Defined.
(** A tag the pattern allows and the bundle does not. *)
Definition longTag : string := String.concat "" (repeat "a" 59).
Example long_tag_blocks_the_bundle :
  match generated [server "a.example" "de" [secure]; server "b.example" longTag [secure]] with
  | Ok (supported, statuses) => (bundle ← XrayBundle.bundleOf "" (xrayConfig 2000 supported);
      XrayBundle.ValidateRoutes bundle (map boundRoute (routesOf (map (withSOCKS (socksByTag 2000 supported)) statuses)))) = Err "unsafe Xray bundle inbound"
  | Err _ => False
  end.
Proof. vm_compute. reflexivity. Qed.
Example ex_rename_fails : contents (writeFileAtomic "/state/sub.json" "new" mode600 (start "rename")).1 "/state/sub.json" = Some source.
Proof. vm_compute. reflexivity. Qed.
Lemma file_is_old_or_new_witness : contents (writeFileAtomic "/state/sub.json" "new" mode600 (start "")).1 "/state/sub.json" = Some "new".
Proof. rewrite (file_is_old_or_new (K := world)). vm_compute. reflexivity. Defined.
