(* ===== verification/Auth.v ===== *)
(** * Authentication

    [internal/auth/auth.go]: the administrator's setup, logins with their rate
    limits and lockouts, sessions with their bounds; and the admission of a
    request by [requireRole] of [internal/api/server.go].

    A method holds the store's mutex and is one step, except [Login], which
    releases it while it checks the password: [LoginBegin] and [LoginFinish] are
    its two critical sections, and other calls may come between them.  Map
    iteration orders ([MapIter]), the Argon2 function, random identifiers and the
    outcome of file operations are arguments.  Passwords are taken as bytes:
    [strings.ToLower] acts on ASCII letters here. *)
From Stdlib Require Import ZArith Lia.
From stdpp Require Import base list strings gmap pretty.
From S2P Require Import Prelude Net Interfaces.

Open Scope Z_scope.

Definition RoleAdministrator : string := "administrator".
Definition RoleDiagnostician : string := "diagnostician".
Definition RoleViewer : string := "viewer".

Definition defaultSessionTTL : duration := 0.
Definition maxSessionsTotal : Z := 64.
Definition maxSessionsPerUser : Z := 8.
Definition maxLoginFailures : Z := 12.
Definition maxLoginFailureEntries : Z := 1024.
Definition maxGlobalLoginAttempts : Z := 8.
Definition globalLoginWindow : duration := second.
Definition setupTokenTTL : duration := 30 * minute.
Definition setupTokenMaxUses : Z := 1.
Definition minPasswordLen : Z := 12.
Definition argonMemoryKB : Z := 16 * 1024.
Definition argonTime : Z := 1.
Definition argonThreads : Z := 1.
Definition argonKeyLen : Z := 32.
Definition maxArgonMemoryKB : Z := 64 * 1024.
Definition maxArgonTime : Z := 4.
Definition maxArgonThreads : Z := 2.
Definition maxArgonKeyLen : Z := 64.

Inductive auth_error : Type :=
| ErrSetupRequired
| ErrSetupUnavailable
| ErrInvalidCredentials
| ErrRateLimited
| ErrWeakPassword
| AuthFailure (e : string).

Record User := mkUser {
  us_Username : string;
  us_Role : string;
  us_PasswordHash : string;
  us_MustChangePassword : bool;
  us_CreatedAt : time;
  us_UpdatedAt : time
}.
Record Session := mkSession {
  sn_ID : string;
  sn_User : string;
  sn_Role : string;
  sn_CSRFToken : string;
  sn_ExpiresAt : time;
  sn_Revoked : bool
}.
Record SetupToken := mkSetupToken { tk_TokenHash : string; tk_ExpiresAt : time; tk_UsesLeft : Z; tk_CreatedAt : time }.
Record loginFailure := mkFailure { lf_Count : Z; lf_NextTry : time; lf_UpdatedAt : time }.

(** The store in memory. *)
Record Store := mkAuth {
  au_sessions : gmap string Session;
  au_failures : gmap string loginFailure;
  au_dummyHash : string;
  au_sessionTTL : duration;
  au_maxSessions : Z;
  au_perUserMax : Z;
  au_globalLoginAttempts : list time
}.
#[export] Instance eta_AuthStore : Eta Store := fun s =>
  mkAuth (au_sessions s) (au_failures s) (au_dummyHash s) (au_sessionTTL s) (au_maxSessions s) (au_perUserMax s) (au_globalLoginAttempts s).
Definition set_au_sessions v (s : Store) : Store := ltac:(assign s au_sessions v).
Definition set_au_failures v (s : Store) : Store := ltac:(assign s au_failures v).
Definition set_au_globalLoginAttempts v (s : Store) : Store := ltac:(assign s au_globalLoginAttempts v).

(** The two files; [None] for one that does not exist. *)
Record Files := mkFiles { fl_users : option (gmap string User); fl_setup : option SetupToken }.

(** How [writeJSON0600] ends: it fails before the rename, after it, or not. *)
Inductive written : Type := NotWritten (e : string) | NotSynced (e : string) | Written.
Definition writeJSON0600 {A} (w : written) (file value : A) : A * option auth_error :=
  match w with
  | NotWritten e => (file, Some (AuthFailure e))
  | NotSynced e => (value, Some (AuthFailure e))
  | Written => (value, None)
  end.

(** [unreadable] is an error of reading or decoding the file. *)
Definition loadUsersLocked (unreadable : option string) (f : Files) : gmap string User + auth_error :=
  match unreadable with
  | Some e => inr (AuthFailure e)
  | None => inl (default ∅ (fl_users f))
  end.
Definition loadSetupTokenLocked (unreadable : option string) (f : Files) : SetupToken + auth_error :=
  match unreadable, fl_setup f with
  | Some e, _ => inr (AuthFailure e)
  | None, None => inr (AuthFailure "file does not exist")
  | None, Some st => inl st
  end.

(** ** Names and passwords *)

Definition username_byte (c : Ascii.ascii) : bool :=
  S.lower_letter c || S.upper_letter c || S.digit c || S.is_byte 45 c || S.is_byte 95 c || S.is_byte 46 c.
Definition validateUsername (username : string) : option auth_error :=
  if S.is_empty username || (64 <? S.len username) || negb (S.all_bytes username_byte username)
  then Some (AuthFailure "invalid username") else None.

Definition weakWords : list string := ["password"; "123456"; "qwerty"; "admin"; "router"; "letmein"; "changeme"].
Definition validatePassword (password : string) : option auth_error :=
  if S.len password <? minPasswordLen then Some ErrWeakPassword
  else
    let low := S.ToLower password in
    if any (fun item => (low =s item) || S.Contains low item) weakWords then Some ErrWeakPassword else None.

(** [fmt.Sscanf(s, "m=%d,t=%d,p=%d", ...)] into two [uint32] and a [uint8]: a
    number may follow spaces, and what follows the last one is ignored. *)
Definition dollar : Ascii.ascii := Ascii.ascii_of_N 36.
Definition blank (c : Ascii.ascii) : bool := S.space_byte c && negb (S.is_byte 10 c).
Fixpoint skipBlanks (s : string) : string :=
  match s with String c rest => if blank c then skipBlanks rest else s | EmptyString => EmptyString end.
Fixpoint scanDigits (s : string) (n : Z) : Z * string :=
  match s with
  | String c rest => if S.digit c then scanDigits rest (n * 10 + (Base64.code c - 48)) else (n, s)
  | EmptyString => (n, EmptyString)
  end.
Definition scanUint (bits : Z) (s : string) : option (Z * string) :=
  match skipBlanks s with
  | String c _ as s =>
      if S.digit c then let '(n, rest) := scanDigits s 0 in if n <? 2 ^ bits then Some (n, rest) else None
      else None
  | EmptyString => None
  end.
Fixpoint scanLiteral (p s : string) : option string :=
  match p, s with
  | EmptyString, _ => Some s
  | String a p, String b s => if Ascii.eqb a b then scanLiteral p s else None
  | String _ _, EmptyString => None
  end.
Definition scanParameters (s : string) : option (Z * Z * Z) :=
  s ← scanLiteral "m=" s; '(memory, s) ← scanUint 32 s;
  s ← scanLiteral ",t=" s; '(iterations, s) ← scanUint 32 s;
  s ← scanLiteral ",p=" s; '(threads, _) ← scanUint 8 s;
  Some (memory, iterations, threads).

Section Auth.
(** [argon2.IDKey(password, salt, time, memory, threads, keyLen)]. *)
Context (IDKey : string -> string -> Z -> Z -> Z -> Z -> string).

(** [salt] is what the random source yielded. *)
Definition hashPassword (password salt : string) : string :=
  let key := IDKey password salt argonTime argonMemoryKB argonThreads argonKeyLen in
  "argon2id$v=19$m=" +:+ pretty argonMemoryKB +:+ ",t=" +:+ pretty argonTime +:+ ",p=" +:+ pretty argonThreads +:+
  "$" +:+ Base64.EncodeToString salt +:+ "$" +:+ Base64.EncodeToString key.

(** [None] for an error. *)
Definition verifyPassword (password encoded : string) : option bool :=
  match S.Split encoded dollar with
  | [kind; version; parameters; rawSalt; rawKey] =>
      if (kind <>s "argon2id") || (version <>s "v=19") then None
      else
        '(memory, iterations, threads) ← scanParameters parameters;
        if (memory =? 0) || (maxArgonMemoryKB <? memory) || (iterations =? 0) || (maxArgonTime <? iterations)
           || (threads =? 0) || (maxArgonThreads <? threads) then None
        else
          salt ← Base64.DecodeString rawSalt;
          expected ← Base64.DecodeString rawKey;
          if (S.len expected =? 0) || (maxArgonKeyLen <? S.len expected) then None
          else Some (IDKey password salt iterations memory threads (S.len expected) =s expected)
  | _ => None
  end.
Definition passwordMatches (password encoded : string) : bool := default false (verifyPassword password encoded).

Definition hashToken (token : string) : string :=
  Base64.EncodeToString (IDKey token "router-policy-setup-token" 1 (4 * 1024) 1 32).

(** ** Setup *)

Definition Open (dummySalt : string) : Store :=
  mkAuth ∅ ∅ (hashPassword "router-policy-dummy-password" dummySalt) defaultSessionTTL maxSessionsTotal maxSessionsPerUser [].

Definition HasUsers (unreadable : option string) (f : Files) : bool :=
  match loadUsersLocked unreadable f with inl users => negb (Nat.eqb (size users) 0) | inr _ => false end.

(** [now] and [now2] are the two readings of the clock. *)
Definition CreateSetupToken (f : Files) (unreadable : option string) (random : string + string) (w : written) (now now2 : time)
    : Files * (string * SetupToken + auth_error) :=
  match loadUsersLocked unreadable f with
  | inr e => (f, inr e)
  | inl users =>
      if negb (Nat.eqb (size users) 0) then (f, inr ErrSetupUnavailable)
      else match random with
      | inr e => (f, inr (AuthFailure ("generate setup token: " +:+ e)))
      | inl token =>
          let st := mkSetupToken (hashToken token) (T.Add now setupTokenTTL) setupTokenMaxUses now2 in
          match writeJSON0600 w (fl_setup f) (Some st) with
          | (setup, Some e) => (mkFiles (fl_users f) setup, inr e)
          | (setup, None) => (mkFiles (fl_users f) setup, inl (token, st))
          end
      end
  end.

(** [removed]: whether the token file could be removed. *)
Definition SetupAdmin (f : Files) (username password token : string) (unreadableUsers unreadableSetup : option string)
    (salt : string + string) (w : written) (removed : bool) (now now2 : time) : Files * (User + auth_error) :=
  match loadUsersLocked unreadableUsers f with
  | inr e => (f, inr e)
  | inl users =>
      if negb (Nat.eqb (size users) 0) then (f, inr ErrSetupUnavailable)
      else match loadSetupTokenLocked unreadableSetup f with
      | inr _ => (f, inr ErrSetupRequired)
      | inl st =>
          if T.After now (tk_ExpiresAt st) || (tk_UsesLeft st <=? 0) then (f, inr ErrSetupRequired)
          else if hashToken token <>s tk_TokenHash st then (f, inr ErrInvalidCredentials)
          else match validateUsername username with
          | Some e => (f, inr e)
          | None =>
              match validatePassword password with
              | Some e => (f, inr e)
              | None =>
                  match salt with
                  | inr e => (f, inr (AuthFailure e))
                  | inl salt =>
                      let user := mkUser username RoleAdministrator (hashPassword password salt) false now2 now2 in
                      match writeJSON0600 w (fl_users f) (Some (<[username := user]> users)) with
                      | (file, Some e) => (mkFiles file (fl_setup f), inr e)
                      | (file, None) => (mkFiles file (if removed then None else fl_setup f), inl user)
                      end
                  end
              end
          end
      end
  end.

(** ** Rate limits *)

Definition RemoteKey (addr : string) : string :=
  match Net.SplitHostPort addr with Some (host, _) => host | None => addr end.
Definition failureKey (username remote : string) : string := username +:+ "|" +:+ RemoteKey remote.
Definition zero_failure : loginFailure := mkFailure 0 T.zero T.zero.

Fixpoint dropBefore (cutoff : time) (l : list time) : list time :=
  match l with
  | x :: rest => if T.Before x cutoff then dropBefore cutoff rest else l
  | [] => []
  end.

(** [true]: refused. *)
Definition checkRateLocked (s : Store) (username remote : string) (now : time) : Store * bool :=
  let attempts := dropBefore (T.Add now (- globalLoginWindow)) (au_globalLoginAttempts s) in
  if maxGlobalLoginAttempts <=? Z.of_nat (length attempts) then (set_au_globalLoginAttempts attempts s, true)
  else
    let s := set_au_globalLoginAttempts (attempts ++ [now]) s in
    let f := default zero_failure (au_failures s !! failureKey username remote) in
    if maxLoginFailures <=? lf_Count f then (s, true)
    else (s, negb (T.IsZero (lf_NextTry f)) && T.Before now (lf_NextTry f)).

Context `{!MapIter Session, !MapIter loginFailure}.

(** The entry updated longest ago; the first one met among equals. *)
Definition oldestFailure (failures : gmap string loginFailure) : option string :=
  fst <$> foldl (fun (oldest : option (string * time)) kv =>
    match oldest with
    | Some (k, t) => if T.Before (lf_UpdatedAt kv.2) t then Some (kv.1, lf_UpdatedAt kv.2) else oldest
    | None => Some (kv.1, lf_UpdatedAt kv.2)
    end) None (iter failures).

Definition recordFailureLocked (s : Store) (username remote : string) (now now2 : time) : Store :=
  let key := failureKey username remote in
  let failures :=
    match au_failures s !! key with
    | None => if maxLoginFailureEntries <=? Z.of_nat (size (au_failures s))
              then match oldestFailure (au_failures s) with Some k => delete k (au_failures s) | None => au_failures s end
              else au_failures s
    | Some _ => au_failures s
    end in
  let count := lf_Count (default zero_failure (failures !! key)) + 1 in
  let delay := 2 ^ (Z.min count 5) * second in
  let delay := if 30 * second <? delay then 30 * second else delay in
  set_au_failures (<[key := mkFailure count (T.Add now delay) now2]> failures) s.

Definition clearFailureLocked (s : Store) (username remote : string) : Store :=
  set_au_failures (delete (failureKey username remote) (au_failures s)) s.

Definition sessionOver (now : time) (n : Session) : bool :=
  sn_Revoked n || (negb (T.IsZero (sn_ExpiresAt n)) && T.After now (sn_ExpiresAt n)).
Definition cleanupLocked (now : time) (s : Store) : Store :=
  s |> set_au_sessions (filter (fun kv : string * Session => sessionOver now kv.2 = false) (au_sessions s))
    |> set_au_failures (filter (fun kv : string * loginFailure => (hour <? T.Sub now (lf_UpdatedAt kv.2)) = false) (au_failures s)).

(** ** Session limits *)

Definition sessionExpiresBefore (a b : time) : bool :=
  if T.IsZero a then false else if T.IsZero b then true else T.Before a b.

Definition ofUser (username : string) (sessions : gmap string Session) : list (string * Session) :=
  List.filter (fun kv => sn_User kv.2 =s username) (iter sessions).

(** The entry that expires first; the first one met among equals. *)
Definition oldestSession (entries : list (string * Session)) : option string :=
  fst <$> foldl (fun (oldest : option (string * Session)) kv =>
    match oldest with
    | Some o => if sessionExpiresBefore (sn_ExpiresAt kv.2) (sn_ExpiresAt o.2) then Some kv else oldest
    | None => Some kv
    end) None entries.

(** The loop deletes one session of the user a time; [fuel] their number. *)
Fixpoint enforceLimit (fuel : nat) (perUserMax : Z) (username : string) (sessions : gmap string Session) : gmap string Session :=
  match fuel with
  | O => sessions
  | S fuel =>
      let entries := ofUser username sessions in
      if Z.of_nat (length entries) <? perUserMax then sessions
      else match oldestSession entries with
      | Some id => enforceLimit fuel perUserMax username (delete id sessions)
      | None => sessions
      end
  end.
Definition enforceUserSessionLimitLocked (s : Store) (username : string) : Store :=
  set_au_sessions (enforceLimit (S (length (ofUser username (au_sessions s)))) (au_perUserMax s) username (au_sessions s)) s.

Definition dropOldestSessionLocked (s : Store) : Store :=
  match oldestSession (iter (au_sessions s)) with
  | Some id => set_au_sessions (delete id (au_sessions s)) s
  | None => s
  end.

(** ** Login *)

(** The first critical section ends the call, or goes on to check the password
    against a hash: the user's, or the dummy for an unknown name. *)
Inductive begun : Type :=
| Refused (reason : string) (e : auth_error)
| Checking (user : option User) (hash : string).

Definition LoginBegin (s : Store) (f : Files) (username remote : string) (unreadable : option string) (now now2 : time) : Store * begun :=
  let s := cleanupLocked now s in
  let '(s, limited) := checkRateLocked s username remote now2 in
  if limited then (s, Refused "rate_limited" ErrRateLimited)
  else match loadUsersLocked unreadable f with
  | inr e => (s, Refused "store_error" e)
  | inl users =>
      if Nat.eqb (size users) 0 then (s, Refused "setup_required" ErrSetupRequired)
      else
        let user := users !! username in
        (s, Checking user (match user with Some u => us_PasswordHash u | None => au_dummyHash s end))
  end.

(** The second one, when the check yielded [valid]; [id] and [csrf] are what the
    random source yielded. *)
Definition LoginFinish (s : Store) (username remote : string) (user : option User) (valid : bool) (id csrf : string + string)
    (now now2 : time) : Store * (Session + auth_error) :=
  match user, valid with
  | Some u, true =>
      let s := clearFailureLocked s username remote in
      let s := enforceUserSessionLimitLocked s username in
      let s := if au_maxSessions s <=? Z.of_nat (size (au_sessions s)) then dropOldestSessionLocked s else s in
      match id, csrf with
      | inr e, _ => (s, inr (AuthFailure ("generate session ID: " +:+ e)))
      | _, inr e => (s, inr (AuthFailure ("generate CSRF token: " +:+ e)))
      | inl id, inl csrf =>
          let expiresAt := if 0 <? au_sessionTTL s then T.Add now (au_sessionTTL s) else T.zero in
          let session := mkSession id (us_Username u) (us_Role u) csrf expiresAt false in
          (set_au_sessions (<[id := session]> (au_sessions s)) s, inl session)
      end
  | _, _ => (recordFailureLocked s username remote now now2, inr ErrInvalidCredentials)
  end.

(** A login that no other call interrupts. *)
Definition Login (s : Store) (f : Files) (username password remote : string) (unreadable : option string) (id csrf : string + string)
    (now : time) : Store * (Session + auth_error) :=
  match LoginBegin s f username remote unreadable now now with
  | (s, Refused _ e) => (s, inr e)
  | (s, Checking user hash) => LoginFinish s username remote user (passwordMatches password hash) id csrf now now
  end.

(** ** Sessions *)

Definition Store_Session (s : Store) (id : string) (now : time) : Store * option Session :=
  let s := cleanupLocked now s in
  (s, match au_sessions s !! id with
      | Some session => if sessionOver now session then None else Some session
      | None => None
      end).
Definition Logout (s : Store) (id : string) : Store := set_au_sessions (delete id (au_sessions s)) s.

(** The state and the number of sessions revoked. *)
Definition RevokeUser (s : Store) (username : string) : Store * Z :=
  let kept := filter (fun kv : string * Session => (sn_User kv.2 =s username) = false) (au_sessions s) in
  (set_au_sessions kept s, Z.of_nat (size (au_sessions s)) - Z.of_nat (size kept)).

Definition roleRank (role : string) : Z :=
  if role =s RoleAdministrator then 3 else if role =s RoleDiagnostician then 2 else if role =s RoleViewer then 1 else 0.
Definition RoleAllows (actual required : string) : bool := roleRank required <=? roleRank actual.

(** What [requireRole] answers to a request. *)
Inductive admission : Type := Unauthorized | RoleDenied | CSRFFailed | Granted (session : Session).

Definition requireRole (s : Store) (required cookie method path csrfHeader : string) (now : time) : Store * admission :=
  match Store_Session s cookie now with
  | (s, None) => (s, Unauthorized)
  | (s, Some session) =>
      (s, if negb (RoleAllows (sn_Role session) required) then RoleDenied
          else if (method <>s "GET") && (method <>s "HEAD") && S.HasPrefix path "/api/" && (csrfHeader <>s sn_CSRFToken session)
          then CSRFFailed
          else Granted session)
  end.
End Auth.
