(* ===== verification/AuthHistory.v ===== *)
(** * Histories of logins and sessions

    The calls on a store in any order, two logins interleaved between their
    critical sections included, restarts of the controller, and what they keep. *)
From Stdlib Require Import ZArith Lia Sorted.
From stdpp Require Import base list strings gmap.
From S2P Require Import Prelude Net Interfaces Auth.
Open Scope Z_scope.

(** ** Sessions of a user *)

Section Limits.
Context `{MapIterLaws Session}.

Definition belongs (n : string) (kv : string * Session) : Prop := (sn_User kv.2 =s n) = true.
#[export] Instance belongs_dec n kv : Decision (belongs n kv).
Proof. unfold belongs. apply _. Defined.
Definition perUser (n : string) (sessions : gmap string Session) : nat := size (filter (belongs n) sessions).

Lemma ofUser_perm n sessions : ofUser n sessions ≡ₚ map_to_list (filter (belongs n) sessions).
Proof.
  apply NoDup_Permutation.
  - apply NoDup_filter_b. rewrite iter_perm. apply NoDup_map_to_list.
  - apply NoDup_map_to_list.
  - intros [id s]. unfold ofUser. rewrite elem_of_filter_b, elem_of_iter, elem_of_map_to_list, map_lookup_filter_Some. done.
Qed.
Lemma ofUser_length n sessions : length (ofUser n sessions) = perUser n sessions.
Proof. by rewrite ofUser_perm, length_map_to_list. Qed.

Lemma perUser_sub n m m' : m ⊆ m' -> (perUser n m <= perUser n m')%nat.
Proof.
  intros Hs. apply map_subseteq_size. apply map_subseteq_spec. intros id s.
  rewrite !map_lookup_filter_Some. intros [Hl Hb]. split; [|done]. by eapply lookup_weaken.
Qed.

Lemma oldestSession_in entries id : oldestSession entries = Some id -> exists s, (id, s) ∈ entries.
Proof.
  unfold oldestSession.
  assert (HG : forall l o r, foldl (fun (oldest : option (string * Session)) kv =>
      match oldest with
      | Some o => if sessionExpiresBefore (sn_ExpiresAt kv.2) (sn_ExpiresAt o.2) then Some kv else oldest
      | None => Some kv
      end) o l = Some r -> r ∈ l \/ o = Some r).
  { induction l as [|kv l IH]; simpl; intros o r HE; [by right|]. apply IH in HE as [HE|HE]; [left; by right|].
    destruct o as [o|]; [destruct (sessionExpiresBefore _ _)|]; [left; injection HE as ->; left|by right|left; injection HE as ->; left]. }
  destruct (foldl _ _ _) as [[k s]|] eqn:E; [|done]. intros [= <-]. apply HG in E as [E|]; [by exists s|done].
Qed.
Lemma oldestSession_some e entries : is_Some (oldestSession (e :: entries)).
Proof.
  unfold oldestSession. simpl.
  assert (HG : forall l o, is_Some (foldl (fun (oldest : option (string * Session)) kv =>
      match oldest with
      | Some o => if sessionExpiresBefore (sn_ExpiresAt kv.2) (sn_ExpiresAt o.2) then Some kv else oldest
      | None => Some kv
      end) (Some o) l)).
  { induction l as [|kv l IH]; simpl; intros o; [by eexists|]. destruct (sessionExpiresBefore _ _); apply IH. }
  destruct (HG entries e) as [[k s] ->]. by eexists.
Qed.

Lemma enforceLimit_sub n most fuel : forall sessions, enforceLimit fuel most n sessions ⊆ sessions.
Proof.
  induction fuel as [|fuel IH]; intros sessions; [done|]. simpl. destr_if; [done|].
  destruct (oldestSession _); [|done]. etrans; [apply IH|apply delete_subseteq].
Qed.

(** The loop ends below the limit. *)
Lemma enforceLimit_spec n most fuel : forall sessions,
  1 <= most -> (perUser n sessions < fuel)%nat ->
  Z.of_nat (perUser n (enforceLimit fuel most n sessions)) < most.
Proof.
  induction fuel as [|fuel IH]; intros sessions Hm Hf; [lia|]. simpl. rewrite ofUser_length.
  destruct (Z.of_nat (perUser n sessions) <? most) eqn:E; [lia|].
  destruct (ofUser n sessions) as [|e entries] eqn:Eo.
  { pose proof (ofUser_length n sessions). rewrite Eo in *. simpl in *. lia. }
  destruct (oldestSession_some e entries) as [id Hid]. rewrite Hid. apply oldestSession_in in Hid as [s Hs].
  rewrite <- Eo, ofUser_perm, elem_of_map_to_list in Hs.
  assert (perUser n sessions = S (perUser n (delete id sessions))) as Hd.
  { unfold perUser. rewrite map_filter_delete, map_size_delete_Some by (by eexists).
    assert (size (filter (belongs n) sessions) <> 0)%nat; [|lia]. intros Hz. apply map_size_empty_inv in Hz.
    rewrite Hz in Hs. by rewrite lookup_empty in Hs. }
  apply IH; [done|lia].
Qed.

Lemma dropOldest_spec s :
  au_sessions (dropOldestSessionLocked s) ⊆ au_sessions s /\
  (size (au_sessions s) <> 0 -> size (au_sessions (dropOldestSessionLocked s)) < size (au_sessions s))%nat.
Proof.
  unfold dropOldestSessionLocked. destruct (oldestSession (iter (au_sessions s))) as [id|] eqn:E.
  - split; [apply delete_subseteq|]. simpl. intros Hn. apply oldestSession_in in E as [x Hx]. apply elem_of_iter in Hx.
    rewrite map_size_delete_Some by (by eexists). lia.
  - split; [done|]. intros Hn. destruct (iter (au_sessions s)) as [|e l] eqn:Ei.
    + pose proof (length_iter (au_sessions s)) as Hl. rewrite Ei in Hl. simpl in Hl. lia.
    + destruct (oldestSession_some e l). congruence.
Qed.
End Limits.

(** ** Recorded failures *)

Section Failures.
Context `{MapIterLaws loginFailure}.

Lemma oldestFailure_in failures k : oldestFailure failures = Some k -> is_Some (failures !! k).
Proof.
  unfold oldestFailure.
  assert (HG : forall l o r, foldl (fun (oldest : option (string * time)) (kv : string * loginFailure) =>
      match oldest with
      | Some (k, t) => if T.Before (lf_UpdatedAt kv.2) t then Some (kv.1, lf_UpdatedAt kv.2) else oldest
      | None => Some (kv.1, lf_UpdatedAt kv.2)
      end) o l = Some r -> (exists f, (r.1, f) ∈ l) \/ o = Some r).
  { induction l as [|[k' f] l IH]; simpl; intros o r HE; [by right|]. apply IH in HE as [(f' & Hin)|HE]; [left; exists f'; by right|].
    destruct o as [[k0 t0]|]; [destruct (T.Before _ _)|]; [left; exists f; injection HE as <-; left|by right|left; exists f; injection HE as <-; left]. }
  destruct (foldl _ _ _) as [[k' t]|] eqn:E; [|done]. intros [= <-]. apply HG in E as [(f & Hin)|]; [|done].
  apply elem_of_iter in Hin. by exists f.
Qed.

Lemma oldestFailure_some failures : failures <> ∅ -> is_Some (oldestFailure failures).
Proof.
  intros Hne. unfold oldestFailure. destruct (iter failures) as [|e l] eqn:Ei.
  { destruct Hne. apply map_size_empty_inv. by rewrite <- length_iter, Ei. }
  simpl. generalize (e.1, lf_UpdatedAt e.2). clear. intros o. revert o.
  induction l as [|kv l IH]; simpl; intros [k t]; [by eexists|]. destruct (T.Before _ _); apply IH.
Qed.

Lemma recordFailure_size s username remote now now2 :
  Z.of_nat (size (au_failures s)) <= maxLoginFailureEntries ->
  Z.of_nat (size (au_failures (recordFailureLocked s username remote now now2))) <= maxLoginFailureEntries.
Proof.
  intros Hs. unfold recordFailureLocked. cbn [au_failures set_au_failures].
  destruct (au_failures s !! failureKey username remote) as [f|] eqn:E.
  - rewrite map_size_insert_Some by eauto. done.
  - destruct (maxLoginFailureEntries <=? Z.of_nat (size (au_failures s))) eqn:El.
    + destruct (oldestFailure_some (au_failures s)) as [k Hk].
      { intros E0. rewrite E0, map_size_empty in El. done. }
      rewrite Hk. apply oldestFailure_in in Hk as [f Hf].
      assert (delete k (au_failures s) !! failureKey username remote = None) by (rewrite lookup_delete_None; by right).
      rewrite map_size_insert_None by done. rewrite map_size_delete_Some by (by eexists).
      assert (size (au_failures s) <> 0)%nat by (intros Hz; apply map_size_empty_inv in Hz; by rewrite Hz, lookup_empty in Hf). lia.
    + rewrite map_size_insert_None by done. unfold maxLoginFailureEntries in *. lia.
Qed.
End Failures.

#[export] Instance SetupToken_eq : EqDecision SetupToken.
Proof. solve_decision. Defined.
#[export] Instance User_eq : EqDecision User.
Proof. solve_decision. Defined.

(** A login between its critical sections. *)
Record Pending := mkPending {
  pn_username : string;
  pn_password : string;
  pn_remote : string;
  pn_user : option User;
  pn_hash : string
}.
Record World := mkWorld { wo_store : Store; wo_files : Files; wo_pending : list Pending }.

(** What a history records, the latest first. *)
Inductive event : Type :=
| TokenMade (st : SetupToken)
| Created (u : User) (token : string) (at_ : time)
| Checked (at_ : time)
| Opened (session : Session) (u : User) (password : string)
| Closed (id : string)
| RevokedAll (username : string)
| Restarted.

(** The token, or the user, that a call of the setup put into its file. *)
Definition made (f f' : Files) : list event :=
  match fl_setup f' with Some st => if decide (fl_setup f' = fl_setup f) then [] else [TokenMade st] | None => [] end.
Definition created (f f' : Files) (username token : string) (at_ : time) : list event :=
  match default ∅ (fl_users f') !! username with
  | Some u => if decide (fl_users f' = fl_users f) then [] else [Created u token at_]
  | None => []
  end.

(** Whether a login goes on to run Argon2: also for a store without users, where
    the outcome is ignored. *)
Definition checksPassword (b : begun) : bool :=
  match b with Checking _ _ => true | Refused reason _ => reason =s "setup_required" end.

Section History.
Context (IDKey : string -> string -> Z -> Z -> Z -> Z -> string).
Context `{MS : MapIter Session, !MapIterLaws Session, MF : MapIter loginFailure, !MapIterLaws loginFailure}.

(** [initial] are the files the first process finds.  The clock never runs
    backwards. *)
Inductive history (initial : Files) : time -> World -> list event -> Prop :=
| history_open t salt : T.zero <= t -> history initial t (mkWorld (Open IDKey salt) initial []) []
| history_restart t s f pending log salt :
    history initial t (mkWorld s f pending) log -> history initial t (mkWorld (Open IDKey salt) f []) (Restarted :: log)
| history_token t now now2 s f pending log unreadable random w f' r :
    history initial t (mkWorld s f pending) log -> t <= now <= now2 ->
    CreateSetupToken IDKey f unreadable random w now now2 = (f', r) ->
    history initial now2 (mkWorld s f' pending) (made f f' ++ log)
| history_setup t now now2 s f pending log username password token unreadable unreadable2 salt w removed f' r :
    history initial t (mkWorld s f pending) log -> t <= now <= now2 ->
    SetupAdmin IDKey f username password token unreadable unreadable2 salt w removed now now2 = (f', r) ->
    history initial now2 (mkWorld s f' pending) (created f f' username token now ++ log)
| history_begin t now now2 s f pending log username password remote unreadable s' b :
    history initial t (mkWorld s f pending) log -> t <= now <= now2 ->
    LoginBegin s f username remote unreadable now now2 = (s', b) ->
    history initial now2
      (mkWorld s' f (match b with Checking user hash => mkPending username password remote user hash :: pending | _ => pending end))
      (if checksPassword b then Checked now2 :: log else log)
| history_finish t now now2 s f before p after log id csrf s' r :
    history initial t (mkWorld s f (before ++ p :: after)) log -> t <= now <= now2 ->
    LoginFinish s (pn_username p) (pn_remote p) (pn_user p) (passwordMatches IDKey (pn_password p) (pn_hash p)) id csrf now now2 = (s', r) ->
    history initial now2 (mkWorld s' f (before ++ after))
      (match r, pn_user p with inl session, Some u => Opened session u (pn_password p) :: log | _, _ => log end)
| history_session t now s f pending log id s' r :
    history initial t (mkWorld s f pending) log -> t <= now -> Store_Session s id now = (s', r) ->
    history initial now (mkWorld s' f pending) log
| history_logout t s f pending log id :
    history initial t (mkWorld s f pending) log -> history initial t (mkWorld (Logout s id) f pending) (Closed id :: log)
| history_revoke t s f pending log username s' n :
    history initial t (mkWorld s f pending) log -> RevokeUser s username = (s', n) ->
    history initial t (mkWorld s' f pending) (RevokedAll username :: log).

(** ** Sessions come from passwords *)

(** A user of the files found, or one created since. *)
Definition known (initial : Files) (log : list event) (u : User) : Prop :=
  (exists name, default ∅ (fl_users initial) !! name = Some u) \/ exists token at_, Created u token at_ ∈ log.

(** An event that ends the session. *)
Definition closing (s : Session) (e : event) : bool :=
  match e with
  | Closed id => id =s sn_ID s
  | RevokedAll n => n =s sn_User s
  | Restarted => true
  | _ => false
  end.

(** The session was opened with the password of its user and not closed since. *)
Definition openedByPassword (initial : Files) (log : list event) (s : Session) : Prop :=
  exists later earlier u password,
    log = later ++ Opened s u password :: earlier /\ any (closing s) later = false /\
    passwordMatches IDKey password (us_PasswordHash u) = true /\ sn_User s = us_Username u /\ sn_Role s = us_Role u /\
    known initial log u.

Definition keyed (users : gmap string User) : Prop := forall name u, users !! name = Some u -> us_Username u = name.

Record authentic (initial : Files) (w : World) (log : list event) : Prop := {
  an_sessions id s : au_sessions (wo_store w) !! id = Some s -> sn_ID s = id /\ openedByPassword initial log s;
  an_pending p u : p ∈ wo_pending w -> pn_user p = Some u ->
    pn_hash p = us_PasswordHash u /\ us_Username u = pn_username p /\ known initial log u;
  an_users name u : default ∅ (fl_users (wo_files w)) !! name = Some u -> us_Username u = name /\ known initial log u
}.

Lemma known_mono initial log new u : known initial log u -> known initial (new ++ log) u.
Proof.
  intros [Hk|(token & at_ & Hin)]; [by left|right]. exists token, at_. apply elem_of_app. by right.
Qed.

Lemma opened_mono initial log new s :
  any (closing s) new = false -> openedByPassword initial log s -> openedByPassword initial (new ++ log) s.
Proof.
  intros Hc (later & earlier & u & pw & -> & Hl & Hp & Hu & Hr & Hk). exists (new ++ later), earlier, u, pw.
  split_and!; try done; [by rewrite <- app_assoc| |by apply known_mono].
  unfold any in *. by rewrite existsb_app, Hc, Hl.
Qed.

Lemma nil_any {A} (p : A -> bool) : any p [] = false.
Proof. done. Qed.

(** Fewer sessions, and events that close none of them. *)
Lemma authentic_sub initial s s' f pending log new :
  authentic initial (mkWorld s f pending) log -> au_sessions s' ⊆ au_sessions s ->
  (forall id n, au_sessions s' !! id = Some n -> any (closing n) new = false) ->
  authentic initial (mkWorld s' f pending) (new ++ log).
Proof.
  intros [H1 H2 H3] Hs Hc. split; simpl in *.
  - intros id n Hn. destruct (H1 id n) as [Hid Ho]; [by eapply lookup_weaken|]. split; [done|]. apply opened_mono; [by eapply Hc|done].
  - intros p u Hp Hu. destruct (H2 p u Hp Hu) as (? & ? & ?). split_and!; try done. by apply known_mono.
  - intros name u Hu. destruct (H3 name u Hu). split; [done|]. by apply known_mono.
Qed.

Lemma cleanup_sub now s : au_sessions (cleanupLocked now s) ⊆ au_sessions s.
Proof. apply map_filter_subseteq. Qed.

(** What the first section keeps. *)
Lemma LoginBegin_sub s f username remote unreadable now now2 s' b :
  LoginBegin s f username remote unreadable now now2 = (s', b) ->
  au_sessions s' = au_sessions (cleanupLocked now s) /\ au_failures s' = au_failures (cleanupLocked now s) /\
  au_globalLoginAttempts s' = au_globalLoginAttempts (checkRateLocked (cleanupLocked now s) username remote now2).1 /\
  match b with
  | Checking user hash =>
      user = default ∅ (fl_users f) !! username /\ (forall u, user = Some u -> hash = us_PasswordHash u)
  | Refused _ _ => True
  end /\
  (checksPassword b = true -> (checkRateLocked (cleanupLocked now s) username remote now2).2 = false).
Proof.
  unfold LoginBegin. cbv zeta. set (s0 := cleanupLocked now s).
  assert (Hr : au_sessions (checkRateLocked s0 username remote now2).1 = au_sessions s0 /\
               au_failures (checkRateLocked s0 username remote now2).1 = au_failures s0).
  { unfold checkRateLocked. cbv zeta. by repeat destr_if. }
  destruct (checkRateLocked s0 username remote now2) as [s1 limited] eqn:Ec. simpl in Hr. destruct Hr as [E1 E2].
  destruct limited; [by intros [= <- <-]|]. unfold loadUsersLocked. destruct unreadable as [e|]; [by intros [= <- <-]|].
  destruct (Nat.eqb _ 0); [by intros [= <- <-]|]. intros [= <- <-]. split_and!; try done. by intros u ->.
Qed.

(** The sessions after the second section: some of those before it, with the one
    it opened. *)
Lemma LoginFinish_sub s username remote user valid id csrf now now2 s' r :
  LoginFinish s username remote user valid id csrf now now2 = (s', r) ->
  match r with
  | inl session =>
      exists u kept, user = Some u /\ valid = true /\ kept ⊆ au_sessions s /\ au_sessions s' = <[sn_ID session := session]> kept /\
        sn_User session = us_Username u /\ sn_Role session = us_Role u /\
        (1 <= au_perUserMax s -> Z.of_nat (perUser username kept) < au_perUserMax s) /\
        (1 <= au_maxSessions s -> Z.of_nat (size (au_sessions s)) <= au_maxSessions s -> Z.of_nat (size kept) < au_maxSessions s)
  | inr _ => au_sessions s' ⊆ au_sessions s
  end.
Proof.
  unfold LoginFinish. destruct user as [u|]; [destruct valid|]; try by intros [= <- <-].
  set (s1 := enforceUserSessionLimitLocked (clearFailureLocked s username remote) username).
  set (s2 := if au_maxSessions s1 <=? Z.of_nat (size (au_sessions s1)) then dropOldestSessionLocked s1 else s1). cbv zeta.
  assert (Hsub1 : au_sessions s1 ⊆ au_sessions s /\ (1 <= au_perUserMax s -> Z.of_nat (perUser username (au_sessions s1)) < au_perUserMax s)).
  { unfold s1, enforceUserSessionLimitLocked. cbn [au_sessions set_au_sessions clearFailureLocked set_au_failures au_perUserMax].
    assert (Hfuel : (perUser username (au_sessions s) < S (length (ofUser username (au_sessions s))))%nat) by (rewrite ofUser_length; lia).
    destruct (Z.le_gt_cases 1 (au_perUserMax s)) as [Hm|Hm].
    - split; [apply enforceLimit_sub|]. intros _. by apply enforceLimit_spec.
    - split; [apply enforceLimit_sub|lia]. }
  assert (Hsub2 : au_sessions s2 ⊆ au_sessions s1 /\
    (1 <= au_maxSessions s -> Z.of_nat (size (au_sessions s)) <= au_maxSessions s -> Z.of_nat (size (au_sessions s2)) < au_maxSessions s)).
  { unfold s2. change (au_maxSessions s1) with (au_maxSessions s). pose proof (map_subseteq_size _ _ (proj1 Hsub1)).
    destruct (au_maxSessions s <=? _) eqn:E; [|split; [done|lia]].
    pose proof (dropOldest_spec s1) as [Hd Hlt]. split; [done|]. intros Hm Hs. specialize (Hlt ltac:(lia)). lia. }
  destruct id as [i|e]; [destruct csrf as [c|e]|]; intros [= <- <-];
    [|by etrans; [apply Hsub2|apply Hsub1]|by etrans; [apply Hsub2|apply Hsub1]].
  exists u, (au_sessions s2). split_and!; try done; [by etrans; [apply Hsub2|apply Hsub1]| |apply Hsub2].
  intros Hm. pose proof (perUser_sub username _ _ (proj1 Hsub2)). pose proof (proj2 Hsub1 Hm). lia.
Qed.

(** What the setup may do to the users' file. *)
Lemma CreateSetupToken_files f unreadable random w now now2 f' r :
  CreateSetupToken IDKey f unreadable random w now now2 = (f', r) ->
  fl_users f' = fl_users f /\ (fl_setup f' = fl_setup f \/ default ∅ (fl_users f) = ∅ /\ exists st, fl_setup f' = Some st).
Proof.
  unfold CreateSetupToken, loadUsersLocked. destruct unreadable as [e|]; [intros [= <- <-]; by split; [|left]|].
  destruct (Nat.eqb_spec (size (default ∅ (fl_users f))) 0) as [E|E]; simpl; [|intros [= <- <-]; by split; [|left]].
  destruct random as [token|e]; [|intros [= <- <-]; by split; [|left]].
  destruct w; intros [= <- <-]; simpl; split; try done; [by left|right|right]; (split; [by apply map_size_empty_inv|by eexists]).
Qed.

Lemma SetupAdmin_files f username password token unreadable unreadable2 salt w removed now now2 f' r :
  SetupAdmin IDKey f username password token unreadable unreadable2 salt w removed now now2 = (f', r) ->
  (fl_users f' = fl_users f /\ fl_setup f' = fl_setup f) \/
  exists st u chars, fl_setup f = Some st /\ now <= tk_ExpiresAt st /\ 0 < tk_UsesLeft st /\ hashToken IDKey token = tk_TokenHash st /\
    default ∅ (fl_users f) = ∅ /\ fl_users f' = Some {[username := u]} /\ us_Username u = username /\
    us_Role u = RoleAdministrator /\ us_PasswordHash u = hashPassword IDKey password chars /\ validatePassword password = None /\
    (fl_setup f' = fl_setup f \/ fl_setup f' = None).
Proof.
  unfold SetupAdmin, loadUsersLocked, loadSetupTokenLocked. destruct unreadable as [e|]; [intros [= <- <-]; by left|].
  destruct (Nat.eqb_spec (size (default ∅ (fl_users f))) 0) as [E|E]; simpl; [|intros [= <- <-]; by left].
  apply map_size_empty_inv in E. destruct unreadable2 as [e|]; [intros [= <- <-]; by left|].
  destruct (fl_setup f) as [st|] eqn:Es; [|intros [= <- <-]; left; by split].
  destruct (_ || _) eqn:Eo; [intros [= <- <-]; left; by split|].
  destruct (hashToken IDKey token <>s tk_TokenHash st) eqn:Et; [intros [= <- <-]; left; by split|].
  destruct (validateUsername username); [intros [= <- <-]; left; by split|].
  destruct (validatePassword password) eqn:Ep; [intros [= <- <-]; left; by split|].
  destruct salt as [chars|e]; [|intros [= <- <-]; left; by split].
  rewrite E, insert_empty. bool_split. str_eq. unfold T.After in *.
  destruct w; intros [= <- <-]; simpl; [left; by split|right|right]; eexists st, _, chars; split_and!; try done;
    solve [lia|by left|destruct removed; [by right|by left]].
Qed.
(** *** Every step keeps the sessions authentic *)

Lemma made_closing f f' n : any (closing n) (made f f') = false.
Proof. unfold made. destruct (fl_setup f'); [|done]. by destruct (decide _). Qed.
Lemma created_closing f f' username token at_ n : any (closing n) (created f f' username token at_) = false.
Proof. unfold created. destruct (_ !! _); [|done]. by destruct (decide _). Qed.

Lemma created_grown f f' u username token at_ :
  default ∅ (fl_users f) = ∅ -> fl_users f' = Some {[username := u]} -> created f f' username token at_ = [Created u token at_].
Proof.
  intros E E'. unfold created. destruct (decide (fl_users f' = fl_users f)) as [E0|_].
  - rewrite E0 in E'. rewrite E' in E. simpl in E. apply (f_equal (lookup username)) in E. by rewrite lookup_singleton_eq, lookup_empty in E.
  - rewrite E'. simpl. by rewrite lookup_singleton_eq.
Qed.
Lemma created_same f f' username token at_ : fl_users f' = fl_users f -> created f f' username token at_ = [].
Proof. intros E. unfold created. destruct (decide (fl_users f' = fl_users f)); [by destruct (_ !! _)|done]. Qed.

Lemma authentic_setup initial s f pending log username password token unreadable unreadable2 salt w removed now now2 f' r :
  authentic initial (mkWorld s f pending) log ->
  SetupAdmin IDKey f username password token unreadable unreadable2 salt w removed now now2 = (f', r) ->
  authentic initial (mkWorld s f' pending) (created f f' username token now ++ log).
Proof.
  intros HA HS. apply (authentic_sub _ _ s _ _ _ (created f f' username token now)) in HA; [|done|intros; apply created_closing].
  destruct HA as [A1 A2 A3]. split; [done|done|]. simpl in *.
  apply SetupAdmin_files in HS as [[E _]|(st & u & chars & _ & _ & _ & _ & E0 & E & Hu & _)]; [by rewrite E|].
  intros name v. rewrite E. simpl. intros [<- <-]%lookup_singleton_Some. split; [done|]. right.
  exists token, now. rewrite (created_grown _ _ _ _ _ _ E0 E). left.
Qed.

Lemma authentic_begin initial s f pending log username password remote unreadable now now2 s' b :
  authentic initial (mkWorld s f pending) log -> LoginBegin s f username remote unreadable now now2 = (s', b) ->
  authentic initial
    (mkWorld s' f (match b with Checking user hash => mkPending username password remote user hash :: pending | _ => pending end))
    (if checksPassword b then Checked now2 :: log else log).
Proof.
  intros HA HB. apply LoginBegin_sub in HB as (Es & _ & _ & Hb & _).
  assert (Hsub : au_sessions s' ⊆ au_sessions s) by (rewrite Es; apply cleanup_sub).
  destruct b as [reason e|user hash]; simpl.
  { destruct (reason =s _); [by apply (authentic_sub _ s s' f pending log [Checked now2])|by apply (authentic_sub _ s s' f pending log [])]. }
  apply (authentic_sub _ s s' f pending log [Checked now2]) in HA; [|done|done]. destruct HA as [A1 A2 A3].
  destruct Hb as (Hu & Hh). split; [done| |done]. simpl in *. intros p u [->|Hp]%elem_of_cons Hpu; [|by apply A2].
  simpl in *. split; [by apply Hh|]. apply A3. congruence.
Qed.

Lemma authentic_finish initial s f before p after log id csrf now now2 s' r :
  authentic initial (mkWorld s f (before ++ p :: after)) log ->
  LoginFinish s (pn_username p) (pn_remote p) (pn_user p) (passwordMatches IDKey (pn_password p) (pn_hash p)) id csrf now now2 = (s', r) ->
  authentic initial (mkWorld s' f (before ++ after))
    (match r, pn_user p with inl session, Some u => Opened session u (pn_password p) :: log | _, _ => log end).
Proof.
  intros HA HF. apply LoginFinish_sub in HF.
  assert (Hp : p ∈ before ++ p :: after) by (apply elem_of_app; right; left).
  assert (Hrest : forall s1 log1, authentic initial (mkWorld s1 f (before ++ p :: after)) log1 -> authentic initial (mkWorld s1 f (before ++ after)) log1).
  { intros s1 log1 [A1 A2 A3]. split; [done| |done]. intros q u Hq. apply A2. simpl in *. set_solver. }
  destruct r as [session|e]; [|destruct (pn_user p); apply Hrest; by apply (authentic_sub _ s s' f _ log [])].
  destruct HF as (u & kept & Eu & Hv & Hkept & Es & Hn & Hr & _). rewrite Eu. apply Hrest.
  destruct (an_pending _ _ _ HA p u Hp Eu) as (Hh & _ & Hk).
  apply (authentic_sub _ s (set_au_sessions kept s) f _ log [Opened session u (pn_password p)]) in HA; [|done|done].
  destruct HA as [A1 A2 A3]. split; [|done|done]. simpl in *. rewrite Es. intros i n [[<- <-]|[_ Hl]]%lookup_insert_Some; [|by apply A1].
  split; [done|]. exists [], log, u, (pn_password p). rewrite <- Hh. split_and!; try done. by apply (known_mono _ _ [Opened session u (pn_password p)]).
Qed.

Lemma history_authentic initial t w log :
  history initial t w log -> keyed (default ∅ (fl_users initial)) -> authentic initial w log.
Proof.
  intros HH Hk. induction HH as [t salt Ht|t s f pending log salt _ IH|t now now2 s f pending log unreadable random w f' r _ IH Ht HT
    |t now now2 s f pending log username password token un un2 salt w removed f' r _ IH Ht HS
    |t now now2 s f pending log username password remote un s' b _ IH Ht HB
    |t now now2 s f before p after log id csrf s' r _ IH Ht HF
    |t now s f pending log id s' r _ IH Ht HS|t s f pending log id _ IH|t s f pending log username s' n _ IH HR].
  - split; simpl; [intros id s Hs; by rewrite lookup_empty in Hs|intros p u Hp; by apply not_elem_of_nil in Hp|].
    intros name u Hu. split; [by apply Hk|]. left. by exists name.
  - destruct IH as [_ _ A3]. split; simpl; [intros id x Hx; by rewrite lookup_empty in Hx|intros p u Hp; by apply not_elem_of_nil in Hp|].
    intros name u Hu. destruct (A3 name u Hu). split; [done|]. by apply (known_mono _ _ [Restarted]).
  - apply CreateSetupToken_files in HT as [E _].
    apply (authentic_sub _ _ s _ _ _ (made f f')) in IH; [|done|intros; apply made_closing]. destruct IH as [A1 A2 A3]. split; [done|done|].
    simpl in *. by rewrite E.
  - by eapply authentic_setup.
  - by eapply authentic_begin.
  - by eapply authentic_finish.
  - unfold Store_Session in HS. cbv zeta in HS. injection HS as <- _. apply (authentic_sub _ s _ f pending log []); [done|apply cleanup_sub|done].
  - apply (authentic_sub _ s _ f pending log [Closed id]); [done|apply delete_subseteq|]. simpl. intros i n [Hne Hl]%lookup_delete_Some.
    destruct (an_sessions _ _ _ IH i n Hl) as [Hid _]. rewrite orb_false_r. apply String.eqb_neq. congruence.
  - unfold RevokeUser in HR. injection HR as <- _. apply (authentic_sub _ s _ f pending log [RevokedAll username]); [done|apply map_filter_subseteq|].
    simpl. intros i m [_ Hf]%map_lookup_filter_Some. simpl in Hf. rewrite orb_false_r. by rewrite String.eqb_sym.
Qed.

(** C30: No admission without the password.  Whatever calls, interleaved logins
    and restarts came before, a request that requireRole admits presents the
    identifier of a session whose role suffices, with its CSRF token unless it
    only reads; and that session was opened by a login with the password of its
    user, a user of the installation, and was not logged out, revoked or ended by
    a restart since. *)
Theorem admission_needs_password initial t w log required cookie method path header now s' session :
  history initial t w log -> keyed (default ∅ (fl_users initial)) ->
  requireRole (wo_store w) required cookie method path header now = (s', Granted session) ->
  roleRank required <= roleRank (sn_Role session) /\ sn_ID session = cookie /\
  (method = "GET" \/ method = "HEAD" \/ S.HasPrefix path "/api/" = false \/ header = sn_CSRFToken session) /\
  openedByPassword initial log session.
Proof.
  intros HH Hk HR. apply history_authentic in HH; [|done]. unfold requireRole, Store_Session in HR. cbv zeta in HR.
  destruct (au_sessions (cleanupLocked now (wo_store w)) !! cookie) as [x|] eqn:El; [|done].
  destruct (sessionOver now x); [done|]. injection HR as <- HR.
  destruct (negb (RoleAllows (sn_Role x) required)) eqn:Er; [done|]. apply negb_false_iff in Er. unfold RoleAllows in Er.
  destruct (_ && _) eqn:Ec; [done|]. injection HR as ->.
  assert (Es : au_sessions (wo_store w) !! cookie = Some session) by (eapply lookup_weaken; [exact El|apply cleanup_sub]).
  destruct (an_sessions _ _ _ HH cookie session Es) as [Hid Ho]. split_and!; [lia|done| |done].
  destruct (String.eqb_spec method "GET") as [?|?]; [by left|]. destruct (String.eqb_spec method "HEAD") as [?|?]; [by right; left|].
  destruct (S.HasPrefix path "/api/"); [|by do 2 right; left]. simpl in Ec. apply negb_false_iff, String.eqb_eq in Ec. by do 3 right.
Qed.
End History.
