(* ===== verification/AuthBounds.v ===== *)
(** * The first administrator, and the bounds

    The setup succeeds once in the life of an installation, with the token that
    was made for it; sessions, recorded failures and password checks are bounded;
    a stored password hash accepts its password. *)
From Stdlib Require Import ZArith Lia.
From stdpp Require Import base list strings gmap.
From S2P Require Import Prelude Net Interfaces Auth AuthHistory.
Open Scope Z_scope.

(** ** Setup *)

Definition isCreated (e : event) : bool := match e with Created _ _ _ => true | _ => false end.
Definition creations (log : list event) : nat := length (List.filter isCreated log).

Lemma creations_app l l' : creations (l ++ l') = (creations l + creations l')%nat.
Proof. unfold creations. by rewrite List.filter_app, length_app. Qed.

Section Setup.
Context (IDKey : string -> string -> Z -> Z -> Z -> Z -> string).
Context `{MS : MapIter Session, !MapIterLaws Session, MF : MapIter loginFailure, !MapIterLaws loginFailure}.

(** The administrator [u] was created with a token that was stored by then, had
    not expired and was not used, and with a password that is not weak. *)
Definition founded (initial : Files) (earlier : list event) (u : User) (token : string) (at_ : time) : Prop :=
  creations earlier = O /\ default ∅ (fl_users initial) = ∅ /\ us_Role u = RoleAdministrator /\
  (exists st, (fl_setup initial = Some st \/ TokenMade st ∈ earlier) /\ hashToken IDKey token = tk_TokenHash st /\
    at_ <= tk_ExpiresAt st /\ 0 < tk_UsesLeft st) /\
  exists password salt, us_PasswordHash u = hashPassword IDKey password salt /\ validatePassword password = None.

Fixpoint wellFounded (initial : Files) (log : list event) : Prop :=
  match log with
  | Created u token at_ :: earlier => founded initial earlier u token at_ /\ wellFounded initial earlier
  | _ :: earlier => wellFounded initial earlier
  | [] => True
  end.

Record foundation (initial : Files) (f : Files) (log : list event) : Prop := {
  fo_token st : fl_setup f = Some st -> fl_setup initial = Some st \/ TokenMade st ∈ log;
  fo_none : creations log = O -> fl_users f = fl_users initial;
  fo_some : creations log <> O -> default ∅ (fl_users f) <> ∅;
  fo_log : wellFounded initial log
}.

(** Events that create nobody. *)
Lemma foundation_quiet initial f log new :
  foundation initial f log -> Forall (fun e => isCreated e = false) new -> foundation initial f (new ++ log).
Proof.
  intros [F1 F2 F3 F4] Hq.
  assert (Hc : creations (new ++ log) = creations log).
  { rewrite creations_app. assert (creations new = O) as ->; [|done]. unfold creations. induction Hq as [|e l He _ IH]; simpl; [done|]. by rewrite He. }
  split; rewrite ?Hc; [|done|done|].
  - intros st Hs. destruct (F1 st Hs) as [?|?]; [by left|right]. apply elem_of_app. by right.
  - clear F1 F2 F3 Hc. induction Hq as [|e l He _ IH]; [done|]. by destruct e.
Qed.

Lemma made_quiet f f' : Forall (fun e => isCreated e = false) (made f f').
Proof. unfold made. destruct (fl_setup f'); [|done]. destruct (decide _); repeat constructor. Qed.
Lemma made_setup f f' st : fl_setup f' = Some st -> fl_setup f = Some st \/ TokenMade st ∈ made f f'.
Proof. intros E. unfold made. rewrite E. destruct (decide _) as [E'|_]; [by left|right; left]. Qed.

Lemma foundation_setup initial f log username password token un un2 salt w removed now now2 f' r :
  foundation initial f log ->
  SetupAdmin IDKey f username password token un un2 salt w removed now now2 = (f', r) ->
  foundation initial f' (created f f' username token now ++ log).
Proof.
  intros [F1 F2 F3 F4] HS.
  apply SetupAdmin_files in HS as [[E1 E2]|(st & u & chars & Es & Hx & Hu & Ht & E0 & E & _ & Hr & Hh & Hp & Hf)].
  - rewrite created_same by done. split; simpl; rewrite ?E1, ?E2; done.
  - rewrite (created_grown _ _ _ _ _ _ E0 E). simpl.
    assert (Hn : creations log = O) by (destruct (decide (creations log = O)) as [?|Hn]; [done|by apply F3 in Hn]).
    split; unfold creations in *; simpl.
    + intros st' Hs'. destruct Hf as [Hf|Hf]; [|congruence]. rewrite Hf in Hs'. destruct (F1 st' Hs'); [by left|right; by right].
    + done.
    + intros _. rewrite E. simpl. apply map_non_empty_singleton.
    + split; [|done]. split; [done|]. rewrite <- (F2 Hn). split; [done|]. split; [done|].
      split; [|by exists password, chars]. exists st. split; [by apply F1|]. done.
Qed.

Lemma history_founded initial t w log : history IDKey initial t w log -> foundation initial (wo_files w) log.
Proof.
  induction 1 as [t salt Ht|t s f pending log salt _ IH|t now now2 s f pending log unreadable random wr f' r _ IH Ht HT
    |t now now2 s f pending log username password token un un2 salt wr removed f' r _ IH Ht HS
    |t now now2 s f pending log username password remote un s' b _ IH Ht HB
    |t now now2 s f before p after log id csrf s' r _ IH Ht HF
    |t now s f pending log id s' r _ IH Ht HS|t s f pending log id _ IH|t s f pending log username s' n _ IH HR]; simpl in *.
  - split; [by left|done|done|done].
  - apply (foundation_quiet _ _ _ [Restarted]); [done|by constructor].
  - apply CreateSetupToken_files in HT as [E _].
    assert (Hm : foundation initial f (made f f' ++ log)) by (apply foundation_quiet; [done|apply made_quiet]).
    destruct Hm as [F1 F2 F3 F4]. split; rewrite ?E; [|done..].
    intros st Hs. destruct (made_setup f f' st Hs) as [?|?]; [by apply F1|right]. apply elem_of_app. by left.
  - by eapply foundation_setup.
  - destruct (checksPassword b); [|done]. by apply (foundation_quiet _ _ _ [Checked now2]); [|constructor].
  - destruct r as [n|e]; [|by destruct (pn_user p)]. destruct (pn_user p) as [u|]; [|done].
    by apply (foundation_quiet _ _ _ [Opened n u (pn_password p)]); [|constructor].
  - done.
  - by apply (foundation_quiet _ _ _ [Closed id]); [|constructor].
  - by apply (foundation_quiet _ _ _ [RevokedAll username]); [|constructor].
Qed.

Lemma wellFounded_app initial later earlier : wellFounded initial (later ++ earlier) -> wellFounded initial earlier.
Proof. induction later as [|e later IH]; [done|]. simpl. destruct e; try exact IH. intros [_ Hw]. by apply IH. Qed.

(** The setup happens once.  If an administrator was created, at any time in
    the life of an installation, then nobody was created before or after, no user
    existed when the installation was found, and the token presented was the one
    in the token file, made or found earlier, unexpired and unused; the password
    was not weak and is the one whose hash is stored. *)
Theorem setup_happens_once initial t w log later u token at_ earlier :
  history IDKey initial t w log -> log = later ++ Created u token at_ :: earlier ->
  creations later = O /\ founded initial earlier u token at_.
Proof.
  intros HH E. apply history_founded in HH as [_ _ _ Hw]. rewrite E in Hw.
  pose proof (wellFounded_app _ _ _ Hw) as [Hf _]. split; [|done]. clear E Hf.
  induction later as [|e later IH]; [done|]. simpl in Hw. destruct e; try by apply IH.
  destruct Hw as [(Hc & _) _]. rewrite creations_app in Hc. unfold creations in Hc. simpl in Hc. lia.
Qed.

(** ** Bounds *)

(** The password checks of the present process, the latest first. *)
Fixpoint checks (log : list event) : list time :=
  match log with
  | Checked t :: rest => t :: checks rest
  | Restarted :: _ => []
  | _ :: rest => checks rest
  | [] => []
  end.
(** Those in the second that begins at [u]. *)
Definition within (u : time) (l : list time) : Z :=
  Z.of_nat (length (List.filter (fun x => (u <=? x) && (x <=? u + globalLoginWindow)) l)).

Lemma within_cons u x l : within u (x :: l) = (if (u <=? x) && (x <=? u + globalLoginWindow) then 1 else 0) + within u l.
Proof. unfold within. simpl. destruct (_ && _); simpl length; lia. Qed.
Lemma within_app u l l' : within u (l ++ l') = within u l + within u l'.
Proof. unfold within. rewrite List.filter_app, length_app. lia. Qed.
Lemma within_length u l : within u l <= Z.of_nat (length l).
Proof. unfold within. pose proof (List.filter_length_le (fun x => (u <=? x) && (x <=? u + globalLoginWindow)) l). lia. Qed.
Lemma within_sublist u l l' : sublist l l' -> within u l <= within u l'.
Proof.
  induction 1 as [|x l l' _ IH|x l l' _ IH]; [done|rewrite !within_cons; lia|].
  rewrite within_cons. destruct (_ && _); lia.
Qed.
Lemma within_past u l t : Forall (fun x => x < t - globalLoginWindow) l -> t <= u + globalLoginWindow -> within u l = 0.
Proof.
  intros Hl Ht. induction Hl as [|x l Hx _ IH]; [done|]. rewrite within_cons, IH.
  destruct (u <=? x) eqn:E; simpl; [lia|done].
Qed.

(** All attempts that were counted: those still remembered and those dropped. *)
Definition rated (t : time) (attempts checked : list time) : Prop :=
  exists dropped, let all := reverse attempts ++ dropped in
    sublist checked all /\ Forall (fun x => x < t - globalLoginWindow) dropped /\
    Z.of_nat (length attempts) <= maxGlobalLoginAttempts /\ forall u, within u all <= maxGlobalLoginAttempts.

Lemma dropBefore_split cutoff l : exists old, l = old ++ dropBefore cutoff l /\ Forall (fun x => x < cutoff) old.
Proof.
  induction l as [|x l (old & E & Ho)]; simpl; [by exists []|]. unfold T.Before. destruct (x <? cutoff) eqn:Ex.
  - exists (x :: old). split; [by rewrite E at 1|]. constructor; [lia|done].
  - by exists [].
Qed.

Lemma rated_later t t' attempts checked : rated t attempts checked -> t <= t' -> rated t' attempts checked.
Proof.
  intros (dropped & H1 & H2 & H3 & H4) Ht. exists dropped. split_and!; try done.
  eapply Forall_impl; [exact H2|]. simpl. intros. lia.
Qed.

(** What checking the rate does to the attempts. *)
Lemma checkRate_rated t s username remote now s' limited checked :
  rated t (au_globalLoginAttempts s) checked -> t <= now -> checkRateLocked s username remote now = (s', limited) ->
  rated now (au_globalLoginAttempts s') (if limited then checked else now :: checked).
Proof.
  intros HR Ht HC. apply (rated_later _ now) in HR; [|done]. destruct HR as (dropped & H1 & H2 & H3 & H4).
  unfold checkRateLocked in HC. cbv zeta in HC. unfold T.Add in HC.
  destruct (dropBefore_split (now + - globalLoginWindow) (au_globalLoginAttempts s)) as (old & E & Hold).
  set (kept := dropBefore _ _) in *.
  assert (Eall : reverse (au_globalLoginAttempts s) ++ dropped = reverse kept ++ reverse old ++ dropped) by (by rewrite E, reverse_app, app_assoc).
  rewrite Eall in H1, H4.
  assert (Hd : Forall (fun x => x < now - globalLoginWindow) (reverse old ++ dropped)).
  { apply Forall_app. split; [apply Forall_reverse; eapply Forall_impl; [exact Hold|]; simpl; intros; lia|done]. }
  assert (Hl : (length kept <= length (au_globalLoginAttempts s))%nat) by (rewrite E, length_app; lia).
  destruct (maxGlobalLoginAttempts <=? Z.of_nat (length kept)) eqn:Em.
  { injection HC as <- <-. exists (reverse old ++ dropped). simpl. split_and!; try done. lia. }
  assert (HN : rated now (kept ++ [now]) (now :: checked)).
  { exists (reverse old ++ dropped). rewrite reverse_app. cbn [reverse rev_append]. split_and!; [|done|rewrite length_app; simpl; lia|].
    - simpl. by apply sublist_skip.
    - intros u. change (reverse [now] ++ reverse kept) with (now :: reverse kept). cbn [app]. rewrite within_cons.
      destruct ((u <=? now) && (now <=? u + globalLoginWindow)) eqn:Ew; [|specialize (H4 u); lia].
      rewrite within_app, (within_past u _ now Hd) by lia. pose proof (within_length u (reverse kept)). rewrite length_reverse in *. lia. }
  assert (HO : forall b : bool, rated now (kept ++ [now]) (if b then checked else now :: checked)).
  { intros [|]; [|done]. destruct HN as (d & K1 & K2 & K3 & K4). exists d. split_and!; try done.
    etrans; [|exact K1]. by apply sublist_cons. }
  destruct (maxLoginFailures <=? _) in HC; injection HC as <- <-; simpl; [apply (HO true)|apply HO].
Qed.

(** The bounds of a store, with the limits it was opened with. *)
Record bounded (t : time) (s : Store) (log : list event) : Prop := {
  bo_limits : au_maxSessions s = maxSessionsTotal /\ au_perUserMax s = maxSessionsPerUser;
  bo_total : Z.of_nat (size (au_sessions s)) <= maxSessionsTotal;
  bo_perUser n : Z.of_nat (perUser n (au_sessions s)) <= maxSessionsPerUser;
  bo_failures : Z.of_nat (size (au_failures s)) <= maxLoginFailureEntries;
  bo_rate : rated t (au_globalLoginAttempts s) (checks log)
}.

Lemma bounded_sub t t' s s' log log' :
  bounded t s log -> au_maxSessions s' = au_maxSessions s -> au_perUserMax s' = au_perUserMax s ->
  au_sessions s' ⊆ au_sessions s -> Z.of_nat (size (au_failures s')) <= maxLoginFailureEntries ->
  rated t' (au_globalLoginAttempts s') (checks log') -> bounded t' s' log'.
Proof.
  intros [B1 B2 B3 B4 B5] E1 E2 Hs Hf Hr. split; [by rewrite E1, E2| | |done|done].
  - pose proof (map_subseteq_size _ _ Hs). lia.
  - intros n. pose proof (perUser_sub n _ _ Hs). specialize (B3 n). lia.
Qed.

Lemma failures_sub (m m' : gmap string loginFailure) : m ⊆ m' -> Z.of_nat (size m') <= maxLoginFailureEntries -> Z.of_nat (size m) <= maxLoginFailureEntries.
Proof. intros Hs. pose proof (map_subseteq_size _ _ Hs). lia. Qed.

Lemma checks_made f f' log : checks (made f f' ++ log) = checks log.
Proof. unfold made. destruct (fl_setup f'); [|done]. by destruct (decide _). Qed.
Lemma checks_created f f' username token at_ log : checks (created f f' username token at_ ++ log) = checks log.
Proof. unfold created. destruct (_ !! _); [|done]. by destruct (decide _). Qed.

Lemma perUser_insert n id x kept :
  Z.of_nat (perUser n (<[id := x]> kept)) <= Z.of_nat (perUser n kept) + (if sn_User x =s n then 1 else 0).
Proof.
  unfold perUser. destruct (sn_User x =s n) eqn:E.
  - rewrite map_filter_insert_True by done. pose proof (map_size_insert id x (filter (belongs n) kept)) as Hs.
    destruct (filter (belongs n) kept !! id); simpl in *; lia.
  - rewrite map_filter_insert_False by (unfold belongs; simpl; by rewrite E). rewrite map_filter_delete.
    pose proof (map_subseteq_size _ _ (delete_subseteq (filter (belongs n) kept) id)). lia.
Qed.

Lemma LoginBegin_bounded t now now2 s f username remote unreadable s' b log :
  bounded t s log -> t <= now <= now2 -> LoginBegin s f username remote unreadable now now2 = (s', b) ->
  bounded now2 s' (if checksPassword b then Checked now2 :: log else log).
Proof.
  intros HB Ht HL.
  assert (Hlim : au_maxSessions s' = au_maxSessions s /\ au_perUserMax s' = au_perUserMax s).
  { revert HL. unfold LoginBegin, loadUsersLocked, checkRateLocked. cbv zeta.
    repeat (destr_if || (match goal with |- context [match ?x with _ => _ end] => destruct x end)); by intros [= <- <-]. }
  pose proof (LoginBegin_sub _ _ _ _ _ _ _ _ _ HL) as (Es & Ef & Ea & _ & Hb).
  destruct (checkRateLocked (cleanupLocked now s) username remote now2) as [s1 limited] eqn:Ec. simpl in Ea, Hb.
  apply (checkRate_rated t _ _ _ _ _ _ (checks log)) in Ec; [|exact (bo_rate _ _ _ HB)|lia].
  eapply bounded_sub; [exact HB|apply Hlim|apply Hlim|rewrite Es; apply cleanup_sub| |].
  - rewrite Ef. eapply failures_sub; [|exact (bo_failures _ _ _ HB)]. apply map_filter_subseteq.
  - rewrite Ea. destruct (checksPassword b).
    + rewrite (Hb eq_refl) in Ec. done.
    + destruct limited; [done|]. destruct Ec as (d & K1 & K2 & K3 & K4). exists d. split_and!; try done.
      etrans; [|exact K1]. by apply sublist_cons.
Qed.

(** Fields the second section leaves alone. *)
Lemma LoginFinish_fields s username remote user valid id csrf now now2 s' r :
  LoginFinish s username remote user valid id csrf now now2 = (s', r) ->
  au_maxSessions s' = au_maxSessions s /\ au_perUserMax s' = au_perUserMax s /\
  au_globalLoginAttempts s' = au_globalLoginAttempts s /\
  (Z.of_nat (size (au_failures s)) <= maxLoginFailureEntries -> Z.of_nat (size (au_failures s')) <= maxLoginFailureEntries).
Proof.
  assert (Hd : forall x, au_maxSessions (dropOldestSessionLocked x) = au_maxSessions x /\
    au_perUserMax (dropOldestSessionLocked x) = au_perUserMax x /\
    au_globalLoginAttempts (dropOldestSessionLocked x) = au_globalLoginAttempts x /\
    au_failures (dropOldestSessionLocked x) = au_failures x).
  { intros x. unfold dropOldestSessionLocked. by destruct (oldestSession _). }
  assert (Hr : forall x, recordFailureLocked s username remote now now2 = x ->
    au_maxSessions x = au_maxSessions s /\ au_perUserMax x = au_perUserMax s /\
    au_globalLoginAttempts x = au_globalLoginAttempts s /\
    (Z.of_nat (size (au_failures s)) <= maxLoginFailureEntries -> Z.of_nat (size (au_failures x)) <= maxLoginFailureEntries)).
  { intros x <-. split_and!; try done. apply recordFailure_size. }
  unfold LoginFinish. destruct user as [u|]; [destruct valid|]; try (intros [= <- <-]; by apply Hr).
  set (s1 := enforceUserSessionLimitLocked (clearFailureLocked s username remote) username).
  set (s2 := if au_maxSessions s1 <=? Z.of_nat (size (au_sessions s1)) then dropOldestSessionLocked s1 else s1). cbv zeta.
  assert (H2 : au_maxSessions s2 = au_maxSessions s /\ au_perUserMax s2 = au_perUserMax s /\
    au_globalLoginAttempts s2 = au_globalLoginAttempts s /\ au_failures s2 = delete (failureKey username remote) (au_failures s)).
  { unfold s2. destruct (_ <=? _); [|done]. by destruct (Hd s1) as (-> & -> & -> & ->). }
  destruct H2 as (E1 & E2 & E3 & E4).
  assert (Hf : Z.of_nat (size (au_failures s)) <= maxLoginFailureEntries -> Z.of_nat (size (au_failures s2)) <= maxLoginFailureEntries).
  { rewrite E4. apply failures_sub, delete_subseteq. }
  destruct id as [i|e]; [destruct csrf as [c|e]|]; by intros [= <- <-].
Qed.

Lemma LoginFinish_bounded initial t now now2 s f before p after id csrf s' r log :
  bounded t s log -> authentic IDKey initial (mkWorld s f (before ++ p :: after)) log -> t <= now <= now2 ->
  LoginFinish s (pn_username p) (pn_remote p) (pn_user p) (passwordMatches IDKey (pn_password p) (pn_hash p)) id csrf now now2 = (s', r) ->
  bounded now2 s' (match r, pn_user p with inl session, Some u => Opened session u (pn_password p) :: log | _, _ => log end).
Proof.
  intros HB HA Ht HF. pose proof (LoginFinish_fields _ _ _ _ _ _ _ _ _ _ _ HF) as (E1 & E2 & E3 & Hf).
  apply LoginFinish_sub in HF. specialize (Hf (bo_failures _ _ _ HB)).
  assert (Hr : rated now2 (au_globalLoginAttempts s') (checks log)) by (rewrite E3; eapply rated_later; [apply HB|lia]).
  destruct r as [session|e]; [|destruct (pn_user p); by eapply bounded_sub].
  destruct HF as (u & kept & Eu & _ & Hkept & Es & Hn & _ & Hper & Htot). rewrite Eu.
  destruct HB as [[B0 B1] B2 B3 B4 B5]. rewrite B0, B1 in *. unfold maxSessionsTotal, maxSessionsPerUser in *.
  specialize (Hper ltac:(lia)). specialize (Htot ltac:(lia) B2).
  assert (Hname : us_Username u = pn_username p).
  { by destruct (an_pending _ _ _ _ HA p u) as (_ & ? & _); [apply elem_of_app; right; left|done|]. }
  split; [by rewrite E1, E2| | |done|done]; rewrite Es.
  - pose proof (map_size_insert (sn_ID session) session kept) as Hsz. destruct (kept !! sn_ID session); simpl in *; unfold maxSessionsTotal; lia.
  - intros n. pose proof (perUser_insert n (sn_ID session) session kept) as Hi. pose proof (perUser_sub n _ _ Hkept). specialize (B3 n).
    rewrite Hn, Hname in Hi. destruct (String.eqb_spec (pn_username p) n) as [<-|]; unfold maxSessionsPerUser; lia.
Qed.

Lemma bounded_later t t' s log : bounded t s log -> t <= t' -> bounded t' s log.
Proof. intros [B1 B2 B3 B4 B5] Ht. split; try done. by eapply rated_later. Qed.

Lemma bounded_open t salt log : checks log = [] -> bounded t (Open IDKey salt) log.
Proof.
  intros E. split; simpl; [done|by rewrite map_size_empty| |by rewrite map_size_empty|].
  - intros n. unfold perUser. by rewrite map_filter_empty, map_size_empty.
  - rewrite E. exists []. simpl. split_and!; try done.
Qed.

Lemma history_bounded initial t w log :
  history IDKey initial t w log -> keyed (default ∅ (fl_users initial)) -> bounded t (wo_store w) log.
Proof.
  intros HH Hk. induction HH as [t salt Ht|t s f pending log salt _ IH|t now now2 s f pending log unreadable random wr f' r _ IH Ht HT
    |t now now2 s f pending log username password token un un2 salt wr removed f' r _ IH Ht HS
    |t now now2 s f pending log username password remote un s' b _ IH Ht HB
    |t now now2 s f before p after log id csrf s' r HH IH Ht HF
    |t now s f pending log id s' r _ IH Ht HS|t s f pending log id _ IH|t s f pending log username s' n _ IH HR]; simpl in *.
  - by apply bounded_open.
  - by apply bounded_open.
  - apply (bounded_later _ now2) in IH; [|lia]. eapply bounded_sub; [exact IH|done|done|done|apply IH|rewrite checks_made; apply IH].
  - apply (bounded_later _ now2) in IH; [|lia]. eapply bounded_sub; [exact IH|done|done|done|apply IH|rewrite checks_created; apply IH].
  - by eapply LoginBegin_bounded.
  - eapply LoginFinish_bounded; [exact IH|exact (history_authentic _ _ _ _ _ HH Hk)|exact Ht|exact HF].
  - unfold Store_Session in HS. cbv zeta in HS. injection HS as <- _. apply (bounded_later _ now) in IH; [|done].
    eapply bounded_sub; [exact IH|done|done|apply cleanup_sub| |apply IH].
    eapply failures_sub; [|apply IH]. apply map_filter_subseteq.
  - eapply bounded_sub; [exact IH|done|done|apply delete_subseteq|apply IH|apply IH].
  - unfold RevokeUser in HR. injection HR as <- _. eapply bounded_sub; [exact IH|done|done|apply map_filter_subseteq|apply IH|apply IH].
Qed.

(** C37: The store is bounded.  After any calls, interleaved logins included, at
    most 64 sessions are open, at most 8 of one user, at most 1024 failures are
    remembered, and in no second does a process check more than 8 passwords. *)
Theorem login_bounds initial t w log :
  history IDKey initial t w log -> keyed (default ∅ (fl_users initial)) ->
  Z.of_nat (size (au_sessions (wo_store w))) <= 64 /\
  (forall n, Z.of_nat (perUser n (au_sessions (wo_store w))) <= 8) /\
  Z.of_nat (size (au_failures (wo_store w))) <= 1024 /\
  forall u, within u (checks log) <= 8.
Proof.
  intros HH Hk. destruct (history_bounded _ _ _ _ HH Hk) as [_ B2 B3 B4 (d & K1 & K2 & K3 & K4)]. split_and!; try done.
  intros u. etrans; [by apply within_sublist|apply K4].
Qed.
End Setup.

(** ** Stored passwords *)

Lemma Split_free sep s : S.all_bytes (fun c => negb (Ascii.eqb c sep)) s = true -> S.Split s sep = [s].
Proof.
  induction s as [|c s IH]; [done|]. simpl. intros [Hc Hs]%andb_true_iff. apply negb_true_iff in Hc.
  rewrite Split_cons by done. by rewrite IH.
Qed.

Lemma symbol_free n : 0 <= n < 64 -> negb (Ascii.eqb (Base64.symbol n) dollar) = true.
Proof.
  intros Hn. apply Base64.value_symbol in Hn as [Hv _]. destruct (Ascii.eqb_spec (Base64.symbol n) dollar) as [E|]; [|done].
  by rewrite E in Hv.
Qed.

Lemma encoded_free s : S.all_bytes (fun c => negb (Ascii.eqb c dollar)) (Base64.EncodeToString s) = true.
Proof.
  induction s as [|a|a b|a b c s IH] using Base64.string_ind3; [done|..]; pose proof (Base64.code_range a);
    try pose proof (Base64.code_range b); try pose proof (Base64.code_range c); cbn [Base64.EncodeToString S.all_bytes]; cbv zeta;
    rewrite !symbol_free by (first [apply Z.mod_pos_bound; lia | split; [apply Z.div_pos|apply Z.div_lt_upper_bound]; lia]); done.
Qed.

(** A stored password accepts its password.  Against the hash hashPassword
    makes, verifyPassword answers without an error, and yes exactly for the
    passwords with the same Argon2 key under the stored salt: the password itself
    always, another one only by a collision.  The parameters written are read
    back, and are within the limits verifyPassword sets. *)
Theorem stored_password_verifies IDKey password salt attempt :
  (forall p s t m th k, 0 <= k -> S.len (IDKey p s t m th k) = k) ->
  verifyPassword IDKey attempt (hashPassword IDKey password salt) =
    Some (IDKey attempt salt argonTime argonMemoryKB argonThreads argonKeyLen =s
          IDKey password salt argonTime argonMemoryKB argonThreads argonKeyLen).
Proof.
  intros Hlen. unfold hashPassword. cbv zeta. set (key := IDKey password salt _ _ _ _).
  assert (Hk : S.len key = argonKeyLen) by (by apply Hlen).
  assert (Hsplit : S.Split ("argon2id$v=19$m=" +:+ pretty.pretty argonMemoryKB +:+ ",t=" +:+ pretty.pretty argonTime +:+ ",p=" +:+
      pretty.pretty argonThreads +:+ "$" +:+ Base64.EncodeToString salt +:+ "$" +:+ Base64.EncodeToString key) dollar =
    ["argon2id"; "v=19"; "m=16384,t=1,p=1"; Base64.EncodeToString salt; Base64.EncodeToString key]).
  { change (S.Split ("argon2id" +:+ String dollar ("v=19" +:+ String dollar ("m=16384,t=1,p=1" +:+ String dollar
      (Base64.EncodeToString salt +:+ String dollar (Base64.EncodeToString key))))) dollar =
      ["argon2id"; "v=19"; "m=16384,t=1,p=1"; Base64.EncodeToString salt; Base64.EncodeToString key]).
    rewrite !Split_app, !Split_free by first [apply encoded_free|reflexivity]. done. }
  unfold verifyPassword. rewrite Hsplit.
  assert (Hp : scanParameters "m=16384,t=1,p=1" = Some (argonMemoryKB, argonTime, argonThreads)) by (vm_compute; reflexivity).
  rewrite Hp. cbn [mbind option_bind]. rewrite !Base64.Decode_Encode. cbn [mbind option_bind]. by rewrite Hk.
Qed.

(** A stand-in for Argon2: the password itself, cut or filled to the length. *)
Fixpoint ex_fit (n : nat) (s : string) : string :=
  match n with
  | O => EmptyString
  | S n => match s with String c s => String c (ex_fit n s) | EmptyString => String S.dot (ex_fit n EmptyString) end
  end.
Definition ex_IDKey (password salt : string) (t m th k : Z) : string := ex_fit (Z.to_nat k) password.
Lemma ex_IDKey_length p s t m th k : 0 <= k -> S.len (ex_IDKey p s t m th k) = k.
Proof.
  intros Hk. unfold ex_IDKey, S.len. rewrite <- (Z2Nat.id k) at 2 by done. f_equal. generalize (Z.to_nat k). intros n. revert p.
  induction n as [|n IH]; intros p; [done|]. destruct p; simpl; by rewrite IH.
Qed.

Definition ex_password : string := "CorrectHorse123!".
Lemma stored_password_verifies_witness :
  verifyPassword ex_IDKey "wrong" (hashPassword ex_IDKey ex_password "0123456789abcdef") = Some false /\
  verifyPassword ex_IDKey ex_password (hashPassword ex_IDKey ex_password "0123456789abcdef") = Some true.
Proof.
  split; (rewrite (stored_password_verifies ex_IDKey _ _ _ ex_IDKey_length); vm_compute; reflexivity).
Defined.

(** ** The first day of an installation *)

Definition ex_found : Files := mkFiles None None.
Definition ex_start : time := 1000 * hour.
Definition ex_store : Store := Open ex_IDKey "salt".
Definition ex_made := CreateSetupToken ex_IDKey ex_found None (inl "cafe") Written ex_start ex_start.
Definition ex_setup := SetupAdmin ex_IDKey ex_made.1 "admin" ex_password "cafe" None None (inl "0123456789abcdef") Written true
  (ex_start + minute) (ex_start + minute).
Definition ex_begun := LoginBegin ex_store ex_setup.1 "admin" "192.168.1.2:4000" None (ex_start + hour) (ex_start + hour).
Definition ex_admin : User := match ex_setup.2 with inl u => u | inr _ => mkUser "" "" "" false 0 0 end.
Definition ex_pending : Pending := mkPending "admin" ex_password "192.168.1.2:4000" (Some ex_admin) (us_PasswordHash ex_admin).
Definition ex_finished := LoginFinish ex_begun.1 "admin" "192.168.1.2:4000" (Some ex_admin)
  (passwordMatches ex_IDKey ex_password (us_PasswordHash ex_admin)) (inl "sid") (inl "csrf") (ex_start + hour) (ex_start + hour).
Definition ex_session : Session := mkSession "sid" "admin" RoleAdministrator "csrf" T.zero false.

Definition ex_log : list event :=
  [Opened ex_session ex_admin ex_password; Checked (ex_start + hour)] ++
  created ex_made.1 ex_setup.1 "admin" "cafe" (ex_start + minute) ++ made ex_found ex_made.1.

Lemma ex_begun_checking : ex_begun = (ex_begun.1, Checking (Some ex_admin) (us_PasswordHash ex_admin)).
Proof. apply pair_snd. vm_compute. reflexivity. Qed.
Lemma ex_finished_open : ex_finished = (ex_finished.1, inl ex_session).
Proof. apply pair_snd. vm_compute. reflexivity. Qed.

Lemma ex_day : history ex_IDKey ex_found (ex_start + hour) (mkWorld ex_finished.1 ex_setup.1 []) ex_log.
Proof.
  assert (H1 : history ex_IDKey ex_found ex_start (mkWorld ex_store ex_made.1 []) (made ex_found ex_made.1 ++ [])).
  { refine (history_token ex_IDKey ex_found ex_start ex_start ex_start ex_store ex_found [] [] _ _ _ _ _ (history_open ex_IDKey _ _ _ _) _ (surjective_pairing ex_made));
      vm_compute; try split; discriminate. }
  rewrite app_nil_r in H1.
  assert (H2 : history ex_IDKey ex_found (ex_start + minute) (mkWorld ex_store ex_setup.1 [])
    (created ex_made.1 ex_setup.1 "admin" "cafe" (ex_start + minute) ++ made ex_found ex_made.1)).
  { refine (history_setup ex_IDKey ex_found _ _ _ _ _ _ _ _ _ _ _ _ _ _ _ _ _ H1 _ (surjective_pairing ex_setup)). vm_compute. split; discriminate. }
  assert (H3 := history_begin ex_IDKey ex_found _ (ex_start + hour) (ex_start + hour) _ _ _ _ "admin" ex_password "192.168.1.2:4000" _ _ _ H2
    ltac:(vm_compute; split; discriminate) ex_begun_checking).
  refine (history_finish ex_IDKey ex_found _ _ _ _ _ [] ex_pending [] _ _ _ _ _ H3 _ ex_finished_open). vm_compute. split; discriminate.
Qed.

Lemma ex_found_keyed : keyed (default ∅ (fl_users ex_found)).
Proof. intros name u Hu. simpl in Hu. by rewrite lookup_empty in Hu. Qed.

Definition ex_request := requireRole ex_finished.1 RoleAdministrator "sid" "POST" "/api/changes" "csrf" (ex_start + 2 * hour).

Lemma admission_needs_password_witness :
  ex_request = (ex_request.1, Granted ex_session) /\ openedByPassword ex_IDKey ex_found ex_log ex_session.
Proof.
  assert (HR : ex_request = (ex_request.1, Granted ex_session)) by (apply pair_snd; vm_compute; reflexivity).
  split; [exact HR|].
  exact (proj2 (proj2 (proj2 (admission_needs_password ex_IDKey ex_found _ _ ex_log _ _ _ _ _ _ _ _ ex_day ex_found_keyed HR)))).
Defined.

Lemma setup_happens_once_witness :
  ex_log = [Opened ex_session ex_admin ex_password; Checked (ex_start + hour)] ++ Created ex_admin "cafe" (ex_start + minute) :: made ex_found ex_made.1 /\
  founded ex_IDKey ex_found (made ex_found ex_made.1) ex_admin "cafe" (ex_start + minute).
Proof.
  assert (E : ex_log = [Opened ex_session ex_admin ex_password; Checked (ex_start + hour)] ++ Created ex_admin "cafe" (ex_start + minute) :: made ex_found ex_made.1)
    by (vm_compute; reflexivity).
  split; [exact E|]. exact (proj2 (setup_happens_once ex_IDKey ex_found _ _ ex_log _ _ _ _ _ ex_day E)).
Defined.

Lemma login_bounds_witness :
  size (au_sessions ex_finished.1) = 1%nat /\ checks ex_log = [ex_start + hour] /\ forall u, within u (checks ex_log) <= 8.
Proof.
  split; [vm_compute; reflexivity|]. split; [vm_compute; reflexivity|].
  exact (proj2 (proj2 (proj2 (login_bounds ex_IDKey ex_found _ _ ex_log ex_day ex_found_keyed)))).
Defined.

(** A request without the session's CSRF token, or of a lesser role. *)
Example ex_refusals :
  (requireRole ex_finished.1 RoleAdministrator "sid" "POST" "/api/changes" "guess" (ex_start + 2 * hour)).2 = CSRFFailed /\
  (requireRole ex_finished.1 RoleAdministrator "sid" "GET" "/api/changes" "" (ex_start + 2 * hour)).2 = Granted ex_session /\
  (requireRole ex_finished.1 RoleAdministrator "other" "GET" "/api/changes" "" (ex_start + 2 * hour)).2 = Unauthorized /\
  (Login ex_IDKey ex_store ex_setup.1 "admin" "guess" "192.168.1.2:4000" None (inl "sid") (inl "csrf") (ex_start + hour)).2 = inr ErrInvalidCredentials.
Proof. vm_compute. done. Qed.

(** ** The ninth session

    Sessions do not expire by default, so no session expires before another: the
    one the ninth login of a user ends is the first in Go's map order, which may
    be the newest. *)
Definition ex_eight : gmap string Session :=
  list_to_map (map (fun id => (id, mkSession id "admin" RoleAdministrator "csrf" T.zero false)) ["1"; "2"; "3"; "4"; "5"; "6"; "7"; "8"]).
Definition ex_backwards : MapIter Session := fun m => reverse (map_to_list m).

Example ninth_login_ends_any_session :
  let after (order : MapIter Session) := @enforceLimit order 9 8 "admin" ex_eight in
  let ended (order : MapIter Session) := List.filter (fun id => negb (bool_decide (is_Some (after order !! id)))) ["1"; "2"; "3"; "4"; "5"; "6"; "7"; "8"] in
  length (ended sorted_iter) = 1%nat /\ length (ended ex_backwards) = 1%nat /\ ended sorted_iter <> ended ex_backwards.
Proof. vm_compute. split; [reflexivity|]. split; [reflexivity|discriminate]. Qed.
