(* ===== verification/RouteAssignment.v ===== *)
(** * Route assignments

    [internal/routeassignment/runtime.go]: the manifest of the domains that are
    assigned to a route without a full deployment, and the dnsmasq overlay made
    from it.  [Apply], [Rollback] and [Reconcile] change the two files and restart
    dnsmasq; a failure on the way restores them.

    The files and what dnsmasq has loaded are the [Disk]; each call to the
    operating system may fail ([Faults]).  The committed configuration, its
    canonical hash, its binding files and its plan are what [config.Load],
    [artifact.LoadIPPlan] and the disk answer ([Active]).  JSON encoding and
    SHA-256 are parameters; [strings.ToLower] acts on ASCII letters. *)
From Stdlib Require Import ZArith Lia.
From stdpp Require Import base list strings gmap sorting pretty.
From S2P Require Import Prelude Config Net.

Open Scope Z_scope.

Definition manifestVersion : Z := 1.
Definition maxAssignments : Z := 256.

Record Request := mkRequest {
  rq_Generation : string;
  rq_RevisionID : string;
  rq_CandidateHash : string;
  rq_ArtifactManifestHash : string;
  rq_Domain : string;
  rq_RouteTag : string;
  rq_RouteType : string;
  rq_RouteSetID : string;
  rq_AssignmentID : string;
  rq_MappingHash : string;
  rq_RequestID : string
}.
Record Assignment := mkAssignment {
  as_Domain : string;
  as_RouteTag : string;
  as_RouteType : string;
  as_RouteSetID : string;
  as_AssignmentID : string;
  as_MappingHash : string
}.
Record manifest := mkManifest {
  mf_Version : Z;
  mf_Generation : string;
  mf_RevisionID : string;
  mf_CandidateHash : string;
  mf_ArtifactManifestHash : string;
  mf_Assignments : list Assignment
}.
Definition zero_manifest : manifest := mkManifest 0 "" "" "" "" [].
Definition with_Assignments (l : list Assignment) (m : manifest) : manifest :=
  mkManifest (mf_Version m) (mf_Generation m) (mf_RevisionID m) (mf_CandidateHash m) (mf_ArtifactManifestHash m) l.

(** [artifact.DNSProxyPlan]: the fields read here. *)
Record DNSProxyPlan := mkProxy { dp_RouteTag : string; dp_Listen : string; dp_Port : Z }.
Record binding := mkBinding { bi_Generation : string; bi_RevisionID : string; bi_CandidateHash : string; bi_ArtifactManifestHash : string }.

(** What reading a file yields. *)
Inductive file : Type := Missing | Unreadable (e : string) | Content (raw : string).

(** The committed configuration and what belongs to it on the disk. *)
Record Active := mkActive {
  ac_config : Config;
  ac_canonicalHash : result string;
  ac_includePath : result unit;
  ac_activeEnv : file;
  ac_env : file;
  ac_plan : string -> string -> string -> result (list DNSProxyPlan)
}.

(** ** Checks *)

(** [^[A-Za-z0-9_-]{1,64}$] *)
Definition tokenPattern (s : string) : bool :=
  (1 <=? S.len s) && (S.len s <=? 64)
  && S.all_bytes (fun c => S.lower_letter c || S.upper_letter c || S.digit c || S.is_byte 95 c || S.is_byte 45 c) s.
Definition safeHash (value : string) : bool :=
  (S.len value =? 71) && S.HasPrefix value "sha256:"
  && S.all_bytes (fun c => S.digit c || S.in_range 97 102 c) (String.substring 7 64 value).
Definition safeLabel (label : string) : bool :=
  negb (S.is_empty label || (63 <? S.len label) || S.byte_is (S.first_byte label) 45 || S.byte_is (S.last_byte label) 45)
  && S.all_bytes (fun c => S.lower_letter c || S.digit c || S.is_byte 45 c) label.
Definition safeDomain (value : string) : bool :=
  negb (S.is_empty value || (253 <? S.len value)
        || negb (S.all_bytes (fun c => negb (any (fun n => S.is_byte n c) [13; 10; 0; 47; 92; 32; 9]%N)) value))
  && forallb safeLabel (S.Split (S.ToLower value) S.dot).
Definition routeTypeAllowed (t : string) : bool := containsString ["direct"; "drop"; "zapret"; "smart_dns"; "vless"] t.

Definition validateRequest (r : Request) : option string :=
  if S.is_empty (rq_Generation r) || S.is_empty (rq_RevisionID r) || S.is_empty (rq_CandidateHash r)
     || S.is_empty (rq_ArtifactManifestHash r) || S.is_empty (rq_RequestID r) || negb (tokenPattern (rq_RequestID r))
  then Some "route assignment identity is incomplete"
  else if (rq_Generation r <>s rq_RevisionID r) || negb (safeHash (rq_CandidateHash r))
     || negb (safeHash (rq_ArtifactManifestHash r)) || negb (safeHash (rq_MappingHash r))
  then Some "route assignment identity is invalid"
  else if negb (safeDomain (rq_Domain r)) || negb (tokenPattern (rq_RouteTag r)) || negb (tokenPattern (rq_RouteSetID r))
     || negb (tokenPattern (rq_AssignmentID r))
  then Some "route assignment object identity is invalid"
  else if negb (routeTypeAllowed (rq_RouteType r)) then Some "route assignment type is not allowlisted"
  else None.

Definition dnsmasqServer (endpoint : string) : result string :=
  match Net.SplitHostPort endpoint with
  | Some (host, port) =>
      if bool_decide (is_Some (IP.ParseIP host)) then
        Ok (if S.Contains host ":" then "[" +:+ host +:+ "]#" +:+ port else host +:+ "#" +:+ port)
      else Err "invalid route assignment DNS endpoint"
  | None => Err "invalid route assignment DNS endpoint"
  end.

(** ** Bindings *)

Definition newline : Ascii.ascii := Ascii.ascii_of_N 10.
Definition bindingLine (values : gmap string string) (line : string) : gmap string string :=
  match Net.cutFirst (Ascii.ascii_of_N 61) (S.TrimSpace line) with
  | Some (key, value) => if S.is_empty key then values else <[key := value]> values
  | None => values
  end.
Definition valueOf (values : gmap string string) (key : string) : string := default "" (values !! key).
Definition readBinding (raw : string) : result (gmap string string) :=
  let values := foldl bindingLine ∅ (S.Split raw newline) in
  match first (fun key => S.is_empty (valueOf values key)) ["transaction_id"; "revision_id"; "candidate_hash"; "artifact_manifest_hash"] with
  | Some key => Err ("route assignment binding missing " +:+ key)
  | None => Ok values
  end.
Definition readBindings (a : Active) : result (gmap string string) :=
  match ac_activeEnv a with
  | Content raw => readBinding raw
  | Unreadable e => Err e
  | Missing =>
      match ac_env a with
      | Content raw => readBinding raw
      | Unreadable e => Err e
      | Missing => Err "file does not exist"
      end
  end.
Definition bindingOf (values : gmap string string) : binding :=
  mkBinding (valueOf values "revision_id") (valueOf values "revision_id") (valueOf values "candidate_hash")
    (valueOf values "artifact_manifest_hash").
Definition loadPlan (a : Active) (values : gmap string string) : result (list DNSProxyPlan) :=
  ac_plan a (valueOf values "transaction_id") (valueOf values "revision_id") (valueOf values "candidate_hash").

Definition boundTo (b : binding) (m : manifest) : bool :=
  (mf_Generation m =s bi_Generation b) && (mf_RevisionID m =s bi_RevisionID b) && (mf_CandidateHash m =s bi_CandidateHash b)
  && (mf_ArtifactManifestHash m =s bi_ArtifactManifestHash b).
Definition emptyManifest (b : binding) : manifest :=
  mkManifest manifestVersion (bi_Generation b) (bi_RevisionID b) (bi_CandidateHash b) (bi_ArtifactManifestHash b) [].

Definition loadActive (cfg : result Active) (r : Request) : result (Active * binding * list DNSProxyPlan) :=
  active ← cfg;
  values ← readBindings active;
  let b := bindingOf values in
  if (bi_RevisionID b <>s rq_RevisionID r) || (bi_CandidateHash b <>s rq_CandidateHash r)
     || (bi_ArtifactManifestHash b <>s rq_ArtifactManifestHash r) || (bi_Generation b <>s rq_Generation r)
  then Err "route assignment active revision binding mismatch"
  else
    hash ← ac_canonicalHash active;
    if hash <>s rq_CandidateHash r then Err "route assignment active config hash mismatch"
    else plan ← loadPlan active values; Ok (active, b, plan).

Section Runtime.
(** The hexadecimal SHA-256 of a text; [json.Marshal] and [json.Unmarshal] of a
    manifest. *)
Context (sha256 : string -> string) (marshal : manifest -> string) (unmarshal : string -> option manifest).

Definition routeID (tag : string) : string := String.substring 0 12 (sha256 ("route:" +:+ S.ToLower (S.TrimSpace tag))).
Definition assignmentID (domain : string) : string := String.substring 0 12 (sha256 ("assignment:" +:+ S.ToLower (S.TrimSpace domain))).

Definition validateRoute (a : Active) (plan : list DNSProxyPlan) (r : Request) : option string :=
  match RouteByTag (ac_config a) (rq_RouteTag r) with
  | None => Some "route assignment route is not enabled or type does not match"
  | Some route =>
      if negb (Enabled route) || (r_Type route <>s rq_RouteType r)
      then Some "route assignment route is not enabled or type does not match"
      else if (routeID (rq_RouteTag r) <>s rq_RouteSetID r) || (assignmentID (rq_Domain r) <>s rq_AssignmentID r)
      then Some "route assignment object binding mismatch"
      else if (rq_RouteType r =s "vless") && negb (any (fun p => dp_RouteTag p =s rq_RouteTag r) plan)
      then Some "route assignment VLESS DNS proxy is not in the committed plan"
      else None
  end.

(** ** The manifest *)

Definition assignmentReadable (a : Assignment) : option string :=
  if negb (safeDomain (as_Domain a)) || negb (tokenPattern (as_RouteTag a)) || negb (tokenPattern (as_RouteSetID a))
     || negb (tokenPattern (as_AssignmentID a)) || negb (safeHash (as_MappingHash a))
  then Some "route assignment manifest object is invalid"
  else if negb (routeTypeAllowed (as_RouteType a)) then Some "route assignment manifest route type is not allowlisted"
  else if (as_RouteSetID a <>s routeID (as_RouteTag a)) || (as_AssignmentID a <>s assignmentID (as_Domain a))
  then Some "route assignment manifest object binding mismatch"
  else None.
Fixpoint firstError (l : list Assignment) : option string :=
  match l with
  | [] => None
  | a :: rest => match assignmentReadable a with Some e => Some e | None => firstError rest end
  end.
Definition manifestReadable (m : manifest) : option string :=
  if negb (mf_Version m =? manifestVersion) then Some "unsupported route assignment manifest version"
  else if S.is_empty (mf_Generation m) || (mf_Generation m <>s mf_RevisionID m) || negb (tokenPattern (mf_Generation m))
     || negb (tokenPattern (mf_RevisionID m)) || negb (safeHash (mf_CandidateHash m)) || negb (safeHash (mf_ArtifactManifestHash m))
  then Some "route assignment manifest binding is invalid"
  else if maxAssignments <? Z.of_nat (length (mf_Assignments m)) then Some "route assignment manifest capacity exceeded"
  else firstError (mf_Assignments m).

(** [Ok None]: the file does not exist. *)
Definition readManifest (f : file) : result (option manifest) :=
  match f with
  | Missing => Ok None
  | Unreadable e => Err e
  | Content raw =>
      match unmarshal raw with
      | None => Err "invalid route assignment manifest"
      | Some m => match manifestReadable m with Some e => Err e | None => Ok (Some m) end
      end
  end.

Definition assignmentFrom (r : Request) : Assignment :=
  mkAssignment (S.ToLower (rq_Domain r)) (rq_RouteTag r) (rq_RouteType r) (rq_RouteSetID r) (rq_AssignmentID r) (rq_MappingHash r).
Fixpoint replaceAssignment (items : list Assignment) (next : Assignment) : list Assignment :=
  match items with
  | [] => [next]
  | a :: rest => if as_AssignmentID a =s as_AssignmentID next then next :: rest else a :: replaceAssignment rest next
  end.
Definition removeMatching (items : list Assignment) (target : Assignment) : list Assignment :=
  List.filter (fun a => negb ((as_AssignmentID a =s as_AssignmentID target) && (as_MappingHash a =s as_MappingHash target))) items.

(** ** The overlay *)

Definition ownerMark : string := "# FlintRoute owned route-only overlay".
Definition eol : string := String newline EmptyString.
Definition orElse (value fallback : string) : string := if S.is_empty value then fallback else value.

Definition nftLine (a : Active) (x : Assignment) : string :=
  let family := orElse (NFTFamily (c_OpenWrt (ac_config a))) "inet" in
  let table := orElse (NFTTable (c_OpenWrt (ac_config a))) "router_policy" in
  "nftset=/" +:+ as_Domain x +:+ "/4#" +:+ family +:+ "#" +:+ table +:+ "#route_" +:+ as_RouteSetID x +:+ "_v4,6#" +:+
  family +:+ "#" +:+ table +:+ "#route_" +:+ as_RouteSetID x +:+ "_v6" +:+ eol.

Definition renderAssignment (a : Active) (plan : list DNSProxyPlan) (x : Assignment) : result string :=
  match RouteByTag (ac_config a) (as_RouteTag x) with
  | None => Err "route assignment references unavailable route"
  | Some route =>
      if negb (Enabled route) || (r_Type route <>s as_RouteType x) then Err "route assignment references unavailable route"
      else if as_RouteType x =s "smart_dns" then
        server ← dnsmasqServer (r_DNSServer route);
        Ok (nftLine a x +:+ "server=/" +:+ as_Domain x +:+ "/" +:+ server +:+ eol)
      else if as_RouteType x =s "vless" then
        match first (fun p => dp_RouteTag p =s as_RouteTag x) plan with
        | Some p => Ok (nftLine a x +:+ "server=/" +:+ as_Domain x +:+ "/" +:+ dp_Listen p +:+ "#" +:+ pretty (dp_Port p) +:+ eol)
        | None => Ok (nftLine a x)
        end
      else Ok (nftLine a x)
  end.
Fixpoint renderAll (a : Active) (plan : list DNSProxyPlan) (l : list Assignment) : result string :=
  match l with
  | [] => Ok ""
  | x :: rest => text ← renderAssignment a plan x; more ← renderAll a plan rest; Ok (text +:+ more)
  end.
Definition render (a : Active) (plan : list DNSProxyPlan) (m : manifest) : result string :=
  text ← renderAll a plan (mf_Assignments m); Ok (ownerMark +:+ " revision=" +:+ mf_RevisionID m +:+ eol +:+ text).

(** ** The disk, and what may fail *)

(** What dnsmasq runs with: the overlay at its last restart, if that succeeded. *)
Inductive dnsmasq : Type := Loaded (overlay : option string) | Unknown.
Record Disk := mkDisk {
  dk_manifest : option string;
  dk_include : option string;
  dk_backups : gmap string string;
  dk_dns : dnsmasq
}.
Definition set_manifest v (d : Disk) : Disk := mkDisk v (dk_include d) (dk_backups d) (dk_dns d).
Definition set_include v (d : Disk) : Disk := mkDisk (dk_manifest d) v (dk_backups d) (dk_dns d).
Definition set_backups v (d : Disk) : Disk := mkDisk (dk_manifest d) (dk_include d) v (dk_dns d).
Definition set_dns v (d : Disk) : Disk := mkDisk (dk_manifest d) (dk_include d) (dk_backups d) v.

(** The calls of one operation that fail; [None] for those that succeed. *)
Record Faults := mkFaults {
  fa_readManifest : option string;
  fa_readBackup : option string;
  fa_writeBackup : option string;
  fa_checkInclude : option string;
  fa_readOldManifest : option string;
  fa_readOldInclude : option string;
  fa_writeManifest : option string;
  fa_writeInclude : option string;
  fa_restart : option string;
  fa_running : option string;
  fa_restoreManifest : option string;
  fa_restoreInclude : option string;
  fa_reload : option string;
  fa_ready : option string;
  fa_removeBackup : option string
}.
Definition readFile (fault : option string) (content : option string) : file :=
  match fault, content with
  | Some e, _ => Unreadable e
  | None, Some raw => Content raw
  | None, None => Missing
  end.

(** [writeAtomic], [os.Remove] of a file that may be missing: done or not. *)
Definition attempt (fault : option string) (change : Disk -> Disk) (d : Disk) : Disk * option string :=
  match fault with Some e => (d, Some e) | None => (change d, None) end.
Definition restartDNS (fault : option string) (d : Disk) : Disk * option string :=
  match fault with Some e => (set_dns Unknown d, Some e) | None => (set_dns (Loaded (dk_include d)) d, None) end.

(** Both files are put back even when the first one fails. *)
Definition restore (f : Faults) (oldManifest oldInclude : option string) (d : Disk) : Disk * option string :=
  let '(d, e1) := attempt (fa_restoreManifest f) (set_manifest oldManifest) d in
  let '(d, e2) := attempt (fa_restoreInclude f) (set_include oldInclude) d in
  (d, match e1 with Some e => Some e | None => e2 end).

Definition restoreAndReload (f : Faults) (oldManifest oldInclude : option string) (cause : string) (d : Disk) : Disk * option string :=
  match restore f oldManifest oldInclude d with
  | (d, Some e) => (d, Some (cause +:+ "; restore failed: " +:+ e))
  | (d, None) =>
      match restartDNS (fa_reload f) d with
      | (d, Some e) => (d, Some (cause +:+ "; restored files but dnsmasq reload failed: " +:+ e))
      | (d, None) =>
          match fa_ready f with
          | Some e => (d, Some (cause +:+ "; restored files but dnsmasq readiness failed: " +:+ e))
          | None => (d, Some cause)
          end
      end
  end.

Definition byID (x y : Assignment) : bool := S.ltb (as_AssignmentID x) (as_AssignmentID y).
Definition sorted (m : manifest) : manifest := with_Assignments (gosort byID (mf_Assignments m)) m.
Definition versioned (m : manifest) : manifest :=
  if mf_Version m =? 0
  then mkManifest manifestVersion (mf_Generation m) (mf_RevisionID m) (mf_CandidateHash m) (mf_ArtifactManifestHash m) (mf_Assignments m)
  else m.

Definition materialize (a : Active) (plan : list DNSProxyPlan) (value : manifest) (f : Faults) (d : Disk) : Disk * option string :=
  let value := sorted (versioned value) in
  match render a plan value with
  | Err e => (d, Some e)
  | Ok content =>
      match readFile (fa_readOldManifest f) (dk_manifest d), readFile (fa_readOldInclude f) (dk_include d) with
      | Unreadable e, _ => (d, Some e)
      | _, Unreadable e => (d, Some e)
      | _, _ =>
          let back := restoreAndReload f (dk_manifest d) (dk_include d) in
          match attempt (fa_writeManifest f) (set_manifest (Some (marshal value))) d with
          | (d, Some e) => (d, Some e)
          | (d, None) =>
              match attempt (fa_writeInclude f) (set_include (Some content)) d with
              | (d, Some e) => back e d
              | (d, None) =>
                  match restartDNS (fa_restart f) d with
                  | (d, Some e) => back ("dnsmasq restart after route assignment: " +:+ e) d
                  | (d, None) =>
                      match fa_running f with
                      | Some e => back ("dnsmasq readiness after route assignment: " +:+ e) d
                      | None => (d, None)
                      end
                  end
              end
          end
      end
  end.

(** ** Operations; [None] for no error *)

(** The common beginning of [Apply] and [Rollback]. *)
Definition checkRequest (cfg : result Active) (r : Request) : result (Active * binding * list DNSProxyPlan) :=
  match validateRequest r with
  | Some e => Err e
  | None =>
      '(active, b, plan) ← loadActive cfg r;
      match validateRoute active plan r with
      | Some e => Err e
      | None => _ ← ac_includePath active; Ok (active, b, plan)
      end
  end.

Definition Apply (cfg : result Active) (r : Request) (f : Faults) (d : Disk) : Disk * option string :=
  match checkRequest cfg r with
  | Err e => (d, Some e)
  | Ok (active, b, plan) =>
      match readManifest (readFile (fa_readManifest f) (dk_manifest d)) with
      | Err e => (d, Some e)
      | Ok previous =>
          if match previous with Some m => negb (boundTo b m) | None => false end
          then (d, Some "route assignment manifest is bound to another active revision")
          else
            let previous := default (emptyManifest b) previous in
            match attempt (fa_writeBackup f) (set_backups (<[rq_RequestID r := marshal previous]> (dk_backups d))) d with
            | (d, Some e) => (d, Some ("save route assignment rollback state: " +:+ e))
            | (d, None) =>
                let updated := with_Assignments (replaceAssignment (mf_Assignments previous) (assignmentFrom r)) previous in
                if maxAssignments <? Z.of_nat (length (mf_Assignments updated))
                then (d, Some "route assignment manifest capacity exceeded")
                else materialize active plan updated f d
            end
      end
  end.

Definition Rollback (cfg : result Active) (r : Request) (f : Faults) (d : Disk) : Disk * option string :=
  match checkRequest cfg r with
  | Err e => (d, Some e)
  | Ok (active, b, plan) =>
      match readManifest (readFile (fa_readBackup f) (dk_backups d !! rq_RequestID r)) with
      | Err e => (d, Some e)
      | Ok None =>
          match readManifest (readFile (fa_readManifest f) (dk_manifest d)) with
          | Err e => (d, Some e)
          | Ok current =>
              let current := default zero_manifest current in
              let current := with_Assignments (removeMatching (mf_Assignments current) (assignmentFrom r)) current in
              materialize active plan (if mf_Version current =? 0 then emptyManifest b else current) f d
          end
      | Ok (Some previous) =>
          if negb (boundTo b previous) then (d, Some "route assignment rollback state is bound to another active revision")
          else match materialize active plan previous f d with
          | (d, Some e) => (d, Some e)
          | (d, None) => ((attempt (fa_removeBackup f) (set_backups (delete (rq_RequestID r) (dk_backups d))) d).1, None)
          end
      end
  end.

Definition matchesExpected (b : binding) (expected : option Request) : bool :=
  match expected with
  | None => true
  | Some r => (rq_Generation r =s bi_Generation b) && (rq_RevisionID r =s bi_RevisionID b)
              && (rq_CandidateHash r =s bi_CandidateHash b) && (rq_ArtifactManifestHash r =s bi_ArtifactManifestHash b)
  end.

(** [expected] as in [ReconcileBound]; [None] for [Reconcile]. *)
Definition reconcile (cfg : result Active) (expected : option Request) (f : Faults) (d : Disk) : Disk * option string :=
  match (active ← cfg; values ← readBindings active; Ok (active, values)) with
  | Err e => (d, Some e)
  | Ok (active, values) =>
      let b := bindingOf values in
      if negb (matchesExpected b expected) then (d, Some "route assignment reconcile binding does not match committed revision")
      else match loadPlan active values with
      | Err e => (d, Some e)
      | Ok plan =>
          match readManifest (readFile (fa_readManifest f) (dk_manifest d)) with
          | Err e => (d, Some e)
          | Ok entries =>
              match ac_includePath active with
              | Err e => (d, Some e)
              | Ok _ =>
                  match entries with
                  | Some m =>
                      if boundTo b m then materialize active plan m f d
                      else match readFile (fa_checkInclude f) (dk_include d) with
                      | Unreadable e => (d, Some e)
                      | Content raw =>
                          if negb (S.Contains raw ownerMark)
                          then (d, Some "route assignment include is not owned; refusing stale cleanup")
                          else materialize active plan (emptyManifest b) f d
                      | Missing => materialize active plan (emptyManifest b) f d
                      end
                  | None =>
                      match readFile (fa_checkInclude f) (dk_include d) with
                      | Missing => (d, None)
                      | Unreadable e => (d, Some e)
                      | Content raw =>
                          if negb (S.Contains raw ownerMark)
                          then (d, Some "route assignment manifest is missing and include is not owned; refusing cleanup")
                          else materialize active plan (emptyManifest b) f d
                      end
                  end
              end
          end
      end
  end.
End Runtime.
