(* ===== verification/DomainCache.v ===== *)
(** * The domain decision cache

    [internal/domaincache/cache.go]: route decisions per domain, kept in memory
    and checkpointed in the [domain_decisions] bucket of a store.  Every method
    runs under the manager's lock, so each is one step.  The store is any
    [KVStore] (the methods that fail return the error after the effects the code
    had by then), map iteration is a [MapIter], and [cloneDecision], which only
    copies slices, is the identity on values. *)
From Stdlib Require Import ZArith Lia SpecFloat.
From stdpp Require Import base list strings gmap sorting.
From S2P Require Import Prelude Float64 Config Tspu Health Interfaces.

Open Scope Z_scope.

Record Decision := mkDecision {
  d_Key : string;
  d_Scope : string;
  d_Domain : string;
  d_ETLDPlusOne : string;
  d_Service : string;
  d_Category : string;
  d_ClassificationState : string;
  d_ClassificationReason : string;
  d_TSPUStatus : string;
  d_CandidateInventoryHash : string;
  d_SelectedRoute : string;
  d_SelectedType : string;
  d_Status : string;
  d_Reason : string;
  d_AdapterRevision : string;
  d_Confidence : spec_float;
  d_ClassificationConfidence : spec_float;
  d_ClassificationSource : string;
  d_ClassificationEvidence : string;
  d_VerificationDurationMS : Z;
  d_Results : list RouteResult;
  d_CheckedAt : time;
  d_ExpiresAt : time;
  d_LastUsedAt : time
}.

#[export] Instance eta_Decision : Eta Decision := fun d =>
  mkDecision (d_Key d) (d_Scope d) (d_Domain d) (d_ETLDPlusOne d) (d_Service d) (d_Category d)
    (d_ClassificationState d) (d_ClassificationReason d) (d_TSPUStatus d) (d_CandidateInventoryHash d)
    (d_SelectedRoute d) (d_SelectedType d) (d_Status d) (d_Reason d) (d_AdapterRevision d) (d_Confidence d)
    (d_ClassificationConfidence d) (d_ClassificationSource d) (d_ClassificationEvidence d)
    (d_VerificationDurationMS d) (d_Results d) (d_CheckedAt d) (d_ExpiresAt d) (d_LastUsedAt d).
Definition set_d_Key v (d : Decision) : Decision := ltac:(assign d d_Key v).
Definition set_d_Scope v (d : Decision) : Decision := ltac:(assign d d_Scope v).
Definition set_d_Domain v (d : Decision) : Decision := ltac:(assign d d_Domain v).
Definition set_d_ETLDPlusOne v (d : Decision) : Decision := ltac:(assign d d_ETLDPlusOne v).
Definition set_d_LastUsedAt v (d : Decision) : Decision := ltac:(assign d d_LastUsedAt v).

Definition bucket : string := "domain_decisions".
Definition domainCheckpointInterval : duration := 15 * minute.

Definition exactKey (domain : string) : string := "exact:" +:+ domain.
Definition baseKey (domain : string) : string := "base:" +:+ domain.

Definition decisionRouteIdentity (d : Decision) : string :=
  S.Join [d_Status d; d_Category d; d_TSPUStatus d; d_SelectedType d; d_SelectedRoute d] "|".
Definition persistentDecisionIdentity (d : Decision) : string :=
  S.Join [decisionRouteIdentity d; d_Service d; d_AdapterRevision d] "|".

(** The manager's fields; its mutex is the atomicity of the operations. *)
Record Manager (St : Type) := mkManager {
  m_store : St;
  m_max : Z;
  m_decisions : gmap string Decision;
  m_checkpoints : gmap string time
}.
Arguments mkManager {St} _ _ _ _.
Arguments m_store {St} _.
Arguments m_max {St} _.
Arguments m_decisions {St} _.
Arguments m_checkpoints {St} _.

Definition set_store {St} (st : St) (m : Manager St) : Manager St :=
  mkManager st (m_max m) (m_decisions m) (m_checkpoints m).
Definition set_decisions {St} (v : gmap string Decision) (m : Manager St) : Manager St :=
  mkManager (m_store m) (m_max m) v (m_checkpoints m).
Definition set_checkpoints {St} (v : gmap string time) (m : Manager St) : Manager St :=
  mkManager (m_store m) (m_max m) (m_decisions m) v.

Definition effectiveMax (maxEntries : Z) : Z :=
  let maxEntries := if maxEntries <=? 0 then 20000 else maxEntries in
  if 100000 <? maxEntries then 100000 else maxEntries.

Section Cache.
Context {St : Type} `{KVStore St Decision, MapIter Decision}.
Context (toASCII : string -> option string) (effectiveTLDPlusOne : string -> option string).
#[local] Notation NormalizeDomain := (NormalizeDomain toASCII).
#[local] Notation ETLDPlusOne := (ETLDPlusOne toASCII effectiveTLDPlusOne).

(** [None] for a nil error. *)
Definition validateDecision (d : Decision) : option string :=
  if (d_Key d =s "") || negb ((d_Scope d =s "exact") || (d_Scope d =s "etld_plus_one"))
     || (d_Service d =s "") || (d_Category d =s "") || (d_Status d =s "") || (d_AdapterRevision d =s "")
     || F.ltb (d_Confidence d) F.zero || F.ltb F.one (d_Confidence d)
     || F.ltb (d_ClassificationConfidence d) F.zero || F.ltb F.one (d_ClassificationConfidence d)
     || T.IsZero (d_CheckedAt d) || T.IsZero (d_ExpiresAt d) || negb (T.Before (d_CheckedAt d) (d_ExpiresAt d))
  then Some "invalid domain decision metadata"
  else match NormalizeDomain (d_Domain d) with
  | None => Some "invalid domain decision identity"
  | Some normalized =>
      if (normalized <>s d_Domain d) || (ETLDPlusOne normalized <>s d_ETLDPlusOne d)
      then Some "invalid domain decision identity"
      else
        let expectedKey := if d_Scope d =s "exact" then exactKey (d_Domain d) else baseKey (d_ETLDPlusOne d) in
        if d_Key d <>s expectedKey then Some "domain decision key mismatch"
        else if (d_SelectedRoute d =s "") && (d_Status d =s "SELECTED")
        then Some "selected decision lacks a route"
        else None
  end.

(** The store is asked first; memory forgets the entry unless it failed. *)
Definition dropEntry (key : string) (m : Manager St) : Manager St * option string :=
  let '(st, err) := Delete (m_store m) bucket key in
  let m := set_store st m in
  match store_failed err with
  | Some e => (m, Some e)
  | None => (m |> set_decisions (delete key (m_decisions m))
               |> set_checkpoints (delete key (m_checkpoints m)), None)
  end.

Fixpoint dropEntries (keys : list string) (m : Manager St) : Manager St * option string :=
  match keys with
  | [] => (m, None)
  | key :: rest =>
      let '(m, err) := dropEntry key m in
      match err with
      | Some e => (m, Some e)
      | None => dropEntries rest m
      end
  end.

Definition expiredKeys (now : time) (decisions : gmap string Decision) : list string :=
  map fst (List.filter (fun kv => negb (T.Before now (d_ExpiresAt kv.2))) (iter decisions)).

(** Least recently used first. *)
Definition lruOrder : Decision -> Decision -> bool :=
  then_by (same_z d_LastUsedAt) (key_lt d_LastUsedAt) (key_lt d_CheckedAt).

Definition pruneLocked (now : time) (m : Manager St) : Manager St * option string :=
  let '(m, err) := dropEntries (expiredKeys now (m_decisions m)) m in
  match err with
  | Some e => (m, Some e)
  | None =>
      if Z.of_nat (size (m_decisions m)) <=? m_max m then (m, None)
      else
        let items := gosort lruOrder (map snd (iter (m_decisions m))) in
        let remove := Z.of_nat (length items) - m_max m in
        dropEntries (map d_Key (take (Z.to_nat remove) items)) m
  end.

(** The loop of [New] over the persisted documents. *)
Fixpoint loadEntries (docs : list (option Decision)) (m : Manager St) : Manager St * option string :=
  match docs with
  | [] => (m, None)
  | None :: _ => (m, Some "invalid persisted domain decision")
  | Some d :: rest =>
      if d_SelectedRoute d =s "" then
        if d_Key d <>s "" then
          let '(st, err) := Delete (m_store m) bucket (d_Key d) in
          let m := set_store st m in
          match store_failed err with
          | Some e => (m, Some e)
          | None => loadEntries rest m
          end
        else loadEntries rest m
      else if validateDecision d then (m, Some "invalid persisted domain decision")
      else loadEntries rest (m |> set_decisions (<[d_Key d := d]> (m_decisions m))
                               |> set_checkpoints (<[d_Key d := d_CheckedAt d]> (m_checkpoints m)))
  end.

(** [New] with a non-nil store; [now] is its reading of the clock. *)
Definition New (store : St) (maxEntries : Z) (now : time) : St * result (Manager St) :=
  let manager := mkManager store (effectiveMax maxEntries) ∅ ∅ in
  match ListRaw store bucket with
  | inr (StoreFailure e) => (store, Err e)
  | listed =>
      let docs := match listed with inl docs => docs | inr _ => [] end in
      let '(manager, err) := loadEntries docs manager in
      match err with
      | Some e => (m_store manager, Err e)
      | None =>
          let '(manager, err) := pruneLocked now manager in
          match err with
          | Some e => (m_store manager, Err e)
          | None => (m_store manager, Ok manager)
          end
      end
  end.

(** The loop of [Lookup]; [Ok None] for [(Decision{}, false, nil)]. *)
Fixpoint lookupKeys (exact activeRevision : string) (now : time) (keys : list string) (m : Manager St)
    : Manager St * result (option Decision) :=
  match keys with
  | [] => (m, Ok None)
  | key :: rest =>
      match m_decisions m !! key with
      | None => lookupKeys exact activeRevision now rest m
      | Some d =>
          if negb (T.Before now (d_ExpiresAt d)) then
            let '(m, err) := dropEntry key m in
            match err with
            | Some e => (m, Err e)
            | None => if key =s exact then (m, Ok None) else lookupKeys exact activeRevision now rest m
            end
          else if (activeRevision <>s "") && (d_AdapterRevision d <>s activeRevision) then
            if key =s exact then (m, Ok None) else lookupKeys exact activeRevision now rest m
          else if T.IsZero (d_LastUsedAt d) || (hour <=? T.Sub now (d_LastUsedAt d)) then
            let d := set_d_LastUsedAt now d in
            (set_decisions (<[key := d]> (m_decisions m)) m, Ok (Some d))
          else (m, Ok (Some d))
      end
  end.

Definition lookupOrder (normalized : string) : list string :=
  let base := ETLDPlusOne normalized in
  exactKey normalized :: (if base <>s "" then [baseKey base] else []).

Definition Lookup (domain activeRevision : string) (now : time) (m : Manager St)
    : Manager St * result (option Decision) :=
  match NormalizeDomain domain with
  | None => (m, Err "invalid domain")
  | Some normalized =>
      lookupKeys (exactKey normalized) activeRevision now (lookupOrder normalized) m
  end.

(** The key and scope [Save] files the decision under. *)
Definition saveKey (normalized base : string) (d : Decision) (m : Manager St) : string * string :=
  let key := baseKey base in
  if normalized <>s base then
    match m_decisions m !! key with
    | Some current =>
        if decisionRouteIdentity current <>s decisionRouteIdentity d
        then (exactKey normalized, "exact") else (key, "etld_plus_one")
    | None => (key, "etld_plus_one")
    end
  else (key, "etld_plus_one").

(** An unchanged route observed within the checkpoint interval is not written. *)
Definition skipCheckpoint (previous : option Decision) (checkpoint : time) (d : Decision) : bool :=
  match previous with
  | None => false
  | Some previous =>
      (persistentDecisionIdentity previous =s persistentDecisionIdentity d) &&
      negb (T.IsZero checkpoint) && negb (T.Before (d_CheckedAt d) checkpoint) &&
      (T.Sub (d_CheckedAt d) checkpoint <? domainCheckpointInterval)
  end.

(** The first half of [Save]: the decision it files, with its key. *)
Definition prepareDecision (domain : string) (decision : Decision) (m : Manager St) : result Decision :=
  match NormalizeDomain domain with
  | None => Err "invalid domain"
  | Some normalized =>
      let base := ETLDPlusOne normalized in
      if base =s "" then Err "domain has no eTLD+1"
      else
        let d := decision |> set_d_Domain normalized |> set_d_ETLDPlusOne base in
        if T.IsZero (d_CheckedAt d) || T.IsZero (d_ExpiresAt d)
           || negb (T.Before (d_CheckedAt d) (d_ExpiresAt d)) || (d_AdapterRevision d =s "")
        then Err "complete revision-bound decision metadata is required"
        else
          let d := if T.IsZero (d_LastUsedAt d) then set_d_LastUsedAt (d_CheckedAt d) d else d in
          let '(key, scope) := saveKey normalized base d m in
          let d := d |> set_d_Key key |> set_d_Scope scope in
          match validateDecision d with
          | Some e => Err e
          | None => Ok d
          end
  end.

(** Its second half: memory first, then the store, undone if that fails. *)
Definition commitDecision (d : Decision) (m : Manager St) : Manager St * result Decision :=
  let key := d_Key d in
  let previous := m_decisions m !! key in
  let checkpoint := default T.zero (m_checkpoints m !! key) in
  let m := set_decisions (<[key := d]> (m_decisions m)) m in
  if skipCheckpoint previous checkpoint d then (m, Ok d)
  else
    let '(st, err) := SaveJSON (m_store m) bucket key d in
    let m := set_store st m in
    match err with
    | Some e =>
        (set_decisions match previous with
                       | Some p => <[key := p]> (m_decisions m)
                       | None => delete key (m_decisions m)
                       end m,
         Err (match e with StoreFailure e => e | ErrNotFound => "not found" end))
    | None =>
        let '(m, err) := pruneLocked (d_CheckedAt d)
                           (set_checkpoints (<[key := d_CheckedAt d]> (m_checkpoints m)) m) in
        (m, match err with Some e => Err e | None => Ok d end)
    end.

Definition Save (domain : string) (decision : Decision) (m : Manager St) : Manager St * result Decision :=
  match prepareDecision domain decision m with
  | Err e => (m, Err e)
  | Ok d => commitDecision d m
  end.

Definition Snapshot (m : Manager St) : list Decision :=
  gosort (key_slt d_Key) (map snd (iter (m_decisions m))).

Definition Discard (key : string) (m : Manager St) : Manager St * option string :=
  if negb (S.HasPrefix key "exact:") && negb (S.HasPrefix key "base:")
  then (m, Some "invalid domain decision key")
  else dropEntry key m.

Definition KeyForDomain (domain scope : string) : result string :=
  match NormalizeDomain domain with
  | None => Err "invalid domain"
  | Some normalized =>
      if scope =s "exact" then Ok (exactKey normalized)
      else if scope =s "etld_plus_one" then Ok (baseKey (ETLDPlusOne normalized))
      else Err "unsupported decision scope"
  end.
End Cache.

(** ** Invariants of the cache *)

Section Invariant.
Context {St : Type} `{KVStoreLaws St Decision, MapIterLaws Decision}.
Context (toASCII : string -> option string) (effectiveTLDPlusOne : string -> option string).
#[local] Notation validateDecision := (validateDecision toASCII effectiveTLDPlusOne).

(** A bucket as [Save] fills it: documents under their own, non-empty keys. *)
Definition well_keyed (docs : gmap string Decision) : Prop :=
  map_Forall (fun key d => d_Key d = key /\ key <> "") docs.

(** Every entry is valid and filed under its own key, the checkpoints are
    those of the entries, and the store holds exactly the entries of the
    memory, each with the same route, service and revision: only the times,
    confidences and probe results may lag behind. *)
Record consistent (m : Manager St) : Prop := {
  cs_entry : map_Forall (fun key d => d_Key d = key /\ validateDecision d = None) (m_decisions m);
  cs_checkpoints : dom (m_checkpoints m) = dom (m_decisions m);
  cs_stored : persistentDecisionIdentity <$> view (m_store m) bucket
              = persistentDecisionIdentity <$> m_decisions m;
  cs_keyed : well_keyed (view (m_store m) bucket)
}.

Lemma dropEntry_spec key (m m' : Manager St) err :
  dropEntry key m = (m', err) ->
  m_max m' = m_max m /\
  m_decisions m' = (if err then m_decisions m else delete key (m_decisions m)) /\
  (consistent m -> consistent m').
Proof.
  unfold dropEntry. destruct (Delete (m_store m) bucket key) as [st e] eqn:Ed.
  pose proof (delete_view _ _ _ _ _ Ed) as Hv.
  destruct (store_failed e) as [e'|]; intros [= <- <-]; simpl.
  - split_and!; [done..|]. intros [C1 C2 C3 C4]. constructor; simpl; [done|done|by rewrite Hv..].
  - split_and!; [done..|]. intros [C1 C2 C3 C4]. constructor; simpl.
    + by apply map_Forall_delete.
    + by rewrite !dom_delete_L, C2.
    + by rewrite Hv, !fmap_delete, C3.
    + rewrite Hv. by apply map_Forall_delete.
Qed.

Definition deleteAll (keys : list string) (m : gmap string Decision) : gmap string Decision :=
  foldl (fun m key => delete key m) m keys.

Lemma deleteAll_lookup keys m key :
  deleteAll keys m !! key = if bool_decide (key ∈ keys) then None else m !! key.
Proof.
  revert m; induction keys as [|k keys IH]; intros m; simpl; [done|].
  rewrite IH. destruct (decide (key = k)) as [->|Hne].
  - rewrite (bool_decide_eq_true_2 (k ∈ k :: keys)) by left. rewrite lookup_delete_eq. by case_bool_decide.
  - rewrite lookup_delete_ne by done.
    rewrite (bool_decide_ext (key ∈ k :: keys) (key ∈ keys)); [done|].
    rewrite elem_of_cons. tauto.
Qed.

Lemma dropEntries_spec keys (m m' : Manager St) err :
  dropEntries keys m = (m', err) ->
  m_max m' = m_max m /\
  (err = None -> m_decisions m' = deleteAll keys (m_decisions m)) /\
  m_decisions m' ⊆ m_decisions m /\
  (consistent m -> consistent m').
Proof.
  revert m; induction keys as [|key keys IH]; intros m; simpl; [intros [= <- <-]; by split_and!|].
  destruct (dropEntry key m) as [m1 e1] eqn:E1. apply dropEntry_spec in E1 as (Hm & Hd & Hc).
  destruct e1 as [e|].
  - intros [= <- <-]. split_and!; [done|done|by rewrite Hd|done].
  - intros Hrest. apply IH in Hrest as (Hm' & Hd' & Hs & Hc'). rewrite Hm', Hm. split_and!; [done| | |auto].
    + intros ->. rewrite Hd' by done. by rewrite Hd.
    + etrans; [exact Hs|]. rewrite Hd. apply delete_subseteq.
Qed.

Lemma elem_of_expiredKeys now (ds : gmap string Decision) key :
  key ∈ expiredKeys now ds <-> exists d, ds !! key = Some d /\ T.Before now (d_ExpiresAt d) = false.
Proof.
  unfold expiredKeys. rewrite list_elem_of_fmap. setoid_rewrite list_elem_of_In at 1.
  setoid_rewrite filter_In. setoid_rewrite <- list_elem_of_In. setoid_rewrite negb_true_iff. split.
  - intros ([k d] & -> & Hin & Hx). exists d. by apply elem_of_iter in Hin.
  - intros (d & Hd & Hx). exists (key, d). by rewrite elem_of_iter.
Qed.

(** After the first loop of a prune: the entries still valid at [now]. *)
Definition unexpired (now : time) (ds : gmap string Decision) : gmap string Decision :=
  filter (fun kv : string * Decision => T.Before now (d_ExpiresAt kv.2) = true) ds.

Lemma deleteAll_expired now ds : deleteAll (expiredKeys now ds) ds = unexpired now ds.
Proof.
  apply map_eq. intros key. rewrite deleteAll_lookup. unfold unexpired.
  destruct (ds !! key) as [d|] eqn:Ed.
  - destruct (T.Before now (d_ExpiresAt d)) eqn:Eb.
    + rewrite bool_decide_eq_false_2.
      * symmetry. by apply map_lookup_filter_Some.
      * intros (d' & Hd' & Hx)%elem_of_expiredKeys. congruence.
    + rewrite bool_decide_eq_true_2 by (apply elem_of_expiredKeys; eauto).
      symmetry. apply map_lookup_filter_None. right. intros d' Hd'. simpl. congruence.
  - symmetry. case_bool_decide; apply map_lookup_filter_None; by left.
Qed.

#[local] Instance StrictWeak_lru : StrictWeak lruOrder.
Proof. apply StrictWeak_then_by; [auto with flint..|]. apply same_z_lt. Qed.

(** The entries in eviction order. *)
Definition evictionOrder (ds : gmap string Decision) : list Decision :=
  gosort lruOrder (map snd (iter ds)).

Lemma evictionOrder_keys ds :
  map_Forall (fun key d => d_Key d = key) ds -> NoDup (d_Key <$> evictionOrder ds).
Proof.
  intros Hk. unfold evictionOrder. rewrite gosort_perm.
  replace (d_Key <$> map snd (iter ds)) with (fst <$> iter ds); [apply NoDup_iter|].
  change (map snd (iter ds)) with (snd <$> iter ds). rewrite <- list_fmap_compose.
  apply list_fmap_ext. intros i [k d] Hi. simpl.
  apply list_elem_of_lookup_2, elem_of_iter in Hi. symmetry. by apply Hk.
Qed.

Lemma elem_of_evictionOrder ds d :
  map_Forall (fun key d => d_Key d = key) ds ->
  d ∈ evictionOrder ds <-> ds !! d_Key d = Some d.
Proof.
  intros Hk. unfold evictionOrder. rewrite gosort_perm, list_elem_of_fmap. split.
  - intros ([k d'] & -> & Hin). apply elem_of_iter in Hin. simpl. by rewrite (Hk _ _ Hin).
  - intros Hd. exists (d_Key d, d). by rewrite elem_of_iter.
Qed.

Lemma deleteAll_size keys (m : gmap string Decision) :
  NoDup keys -> Forall (fun key => is_Some (m !! key)) keys ->
  (size (deleteAll keys m) + length keys = size m)%nat.
Proof.
  revert m; induction keys as [|k keys IH]; intros m Hnd Hall; simpl; [lia|].
  apply NoDup_cons in Hnd as [Hk Hnd]. apply Forall_cons in Hall as [[d Hd] Hall].
  pose proof (map_size_delete_Some k m (mk_is_Some _ _ Hd)) as Hs.
  assert (size m <> 0%nat) by (intros E; apply map_size_empty_inv in E; subst; by rewrite lookup_empty in Hd).
  enough (size (deleteAll keys (delete k m)) + length keys = size (delete k m))%nat by (simpl in *; lia).
  apply IH; [done|].
  apply Forall_forall. intros k' Hk'. rewrite lookup_delete_ne by (intros ->; done).
  rewrite Forall_forall in Hall. by apply Hall.
Qed.

Lemma elem_of_take_In (l : list Decision) n d : d ∈ take n l -> d ∈ l.
Proof. intros Hd. rewrite <- (take_drop n l), elem_of_app. by left. Qed.

(** What a successful prune leaves: entries still valid, at most [m_max] of
    them, each used at least as recently as every valid entry dropped. *)
Definition pruned (now : time) (before after : Manager St) : Prop :=
  let valid := unexpired now (m_decisions before) in
  m_decisions after ⊆ valid /\
  (0 <= m_max before -> Z.of_nat (size (m_decisions after)) <= m_max before) /\
  (Z.of_nat (size valid) <= m_max before -> m_decisions after = valid) /\
  (forall kept dropped, m_decisions after !! d_Key kept = Some kept ->
     valid !! d_Key dropped = Some dropped -> m_decisions after !! d_Key dropped = None ->
     d_LastUsedAt dropped <= d_LastUsedAt kept).

Lemma take_drop_lru (ds : gmap string Decision) n kept dropped :
  kept ∈ drop n (evictionOrder ds) -> dropped ∈ take n (evictionOrder ds) ->
  d_LastUsedAt dropped <= d_LastUsedAt kept.
Proof.
  intros Hk Hd. pose proof (gosort_sorted lruOrder (map snd (iter ds))) as Hs.
  fold (evictionOrder ds) in Hs. rewrite <- (take_drop n) in Hs.
  pose proof (StronglySorted_app_1_elem_of _ _ _ _ _ Hs Hd Hk) as Hle.
  unfold le_of, lruOrder, then_by, same_z, key_lt in Hle. destr_if; lia.
Qed.

Lemma pruneLocked_spec now (m m' : Manager St) err :
  consistent m -> pruneLocked now m = (m', err) ->
  consistent m' /\ m_max m' = m_max m /\ m_decisions m' ⊆ m_decisions m /\ (err = None -> pruned now m m').
Proof.
  intros Hc. unfold pruneLocked.
  destruct (dropEntries (expiredKeys now (m_decisions m)) m) as [m1 e1] eqn:E1.
  apply dropEntries_spec in E1 as (Hm1 & Hd1 & Hs1 & Hc1). specialize (Hc1 Hc).
  destruct e1 as [e|]; [by intros [= <- <-]|]. specialize (Hd1 eq_refl).
  rewrite deleteAll_expired in Hd1.
  destruct (Z.leb_spec (Z.of_nat (size (m_decisions m1))) (m_max m1)) as [Hle|Hgt].
  { intros [= <- <-]. split_and!; try done. intros _. unfold pruned. rewrite <- Hd1, <- Hm1.
    split_and!; try done. intros kept dropped _ Hin Hout. congruence. }
  fold (evictionOrder (m_decisions m1)). set (ds := m_decisions m1) in *.
  assert (Hkeys : map_Forall (fun key d => d_Key d = key) ds).
  { intros k d Hd. by apply (cs_entry _ Hc1) in Hd as [? _]. }
  assert (Hlen : length (evictionOrder ds) = size ds).
  { unfold evictionOrder. rewrite gosort_perm, length_map. apply length_iter. }
  rewrite Hlen. set (n := Z.to_nat (Z.of_nat (size ds) - m_max m1)).
  intros Hdrop. apply dropEntries_spec in Hdrop as (Hm2 & Hd2 & Hs2 & Hc2).
  split_and!; [auto|congruence|by etrans|]. intros He. specialize (Hd2 He). fold ds in Hd2, Hs2.
  unfold pruned. rewrite <- Hd1. fold ds.
  assert (Hnd : NoDup (map d_Key (take n (evictionOrder ds)))).
  { pose proof (evictionOrder_keys ds Hkeys) as Hnd. rewrite <- (take_drop n (evictionOrder ds)) in Hnd.
    rewrite fmap_app in Hnd. by apply NoDup_app in Hnd as [? _]. }
  split_and!; [done| | |].
  - intros Hmax. rewrite Hd2. pose proof (deleteAll_size _ ds Hnd) as Hsz.
    rewrite length_map, length_take, Hlen in Hsz. unfold n in *. rewrite Hm1 in *.
    enough (Forall (fun key => is_Some (ds !! key)) (map d_Key (take (Z.to_nat (Z.of_nat (size ds) - m_max m)) (evictionOrder ds)))) as Hall.
    { specialize (Hsz Hall). lia. }
    apply Forall_forall. intros key (d & -> & Hin)%list_elem_of_fmap. exists d.
    apply elem_of_evictionOrder; [done|]. by eapply elem_of_take_In.
  - rewrite <- Hm1. lia.
  - intros kept dropped Hkept Hv Hdropped. apply (take_drop_lru ds n).
    + pose proof (lookup_weaken _ _ _ _ Hkept Hs2) as Hin. apply elem_of_evictionOrder in Hin; [|done].
      rewrite <- (take_drop n) in Hin. apply elem_of_app in Hin as [Hin|]; [|done]. exfalso.
      rewrite Hd2, deleteAll_lookup, bool_decide_eq_true_2 in Hkept; [done|].
      by apply list_elem_of_fmap_2.
    + rewrite Hd2, deleteAll_lookup in Hdropped. case_bool_decide as Hin; [|congruence].
      apply list_elem_of_fmap in Hin as (d & E & Hin).
      assert (dropped = d) as ->; [|done].
      assert (Hind : ds !! d_Key d = Some d) by (apply elem_of_evictionOrder; [done|]; by eapply elem_of_take_In).
      congruence.
Qed.
End Invariant.

Section Operations.
Context {St : Type} `{KVStoreLaws St Decision, MapIterLaws Decision}.
Context (toASCII : string -> option string) (effectiveTLDPlusOne : string -> option string).
#[local] Notation validateDecision := (validateDecision toASCII effectiveTLDPlusOne).
#[local] Notation consistent := (consistent toASCII effectiveTLDPlusOne).
#[local] Notation Lookup := (Lookup toASCII effectiveTLDPlusOne).
#[local] Notation Save := (Save toASCII effectiveTLDPlusOne).
#[local] Notation prepareDecision := (prepareDecision toASCII effectiveTLDPlusOne).
#[local] Notation NormalizeDomain := (NormalizeDomain toASCII).
#[local] Notation ETLDPlusOne := (ETLDPlusOne toASCII effectiveTLDPlusOne).

Lemma touch_consistent (m : Manager St) key d now :
  consistent m -> m_decisions m !! key = Some d ->
  consistent (set_decisions (<[key := set_d_LastUsedAt now d]> (m_decisions m)) m).
Proof.
  intros [C1 C2 C3 C4] Hd. constructor; simpl.
  - apply map_Forall_insert_2; [|done]. exact (C1 _ _ Hd).
  - rewrite dom_insert_lookup_L; [done|by eexists].
  - rewrite fmap_insert, C3. symmetry. apply insert_id. rewrite lookup_fmap, Hd. done.
  - done.
Qed.

(** What a hit returns: a valid entry, its last use possibly updated. *)
Definition hit_of (activeRevision : string) (now : time) (m m' : Manager St) (key : string) (d : Decision) : Prop :=
  m_decisions m' !! key = Some d /\ T.Before now (d_ExpiresAt d) = true /\
  (activeRevision = "" \/ d_AdapterRevision d = activeRevision) /\
  exists d0, m_decisions m !! key = Some d0 /\ (d = d0 \/ d = set_d_LastUsedAt now d0).

Lemma lookupKeys_spec exact rev now keys (m m' : Manager St) r :
  lookupKeys exact rev now keys m = (m', r) -> consistent m ->
  consistent m' /\ m_max m' = m_max m /\ dom (m_decisions m') ⊆ dom (m_decisions m) /\
  (forall d, r = Ok (Some d) -> exists key, key ∈ keys /\ hit_of rev now m m' key d).
Proof.
  revert m; induction keys as [|key keys IH]; intros m; simpl; [by intros [= <- <-]|].
  assert (Hskip : lookupKeys exact rev now keys m = (m', r) -> consistent m ->
    consistent m' /\ m_max m' = m_max m /\ dom (m_decisions m') ⊆ dom (m_decisions m) /\
    (forall d, r = Ok (Some d) -> exists k, k ∈ key :: keys /\ hit_of rev now m m' k d)).
  { intros HL Hc. destruct (IH _ HL Hc) as (? & ? & ? & Hhit). split_and!; try done.
    intros d Hr. destruct (Hhit d Hr) as (k & ? & ?). exists k. split; [by right|done]. }
  destruct (m_decisions m !! key) as [d|] eqn:Ed; [|done].
  destruct (T.Before now (d_ExpiresAt d)) eqn:Eexp; simpl.
  - destruct (_ && _) eqn:Erev; [destruct (key =s exact); [by intros [= <- <-]|done]|].
    assert (Hrev : rev = "" \/ d_AdapterRevision d = rev).
    { apply andb_false_iff in Erev as [E|E]; apply negb_false_iff in E; str_eq; auto. }
    destruct (_ || _); intros [= <- <-] Hc.
    + split_and!; [by apply touch_consistent|done|simpl; rewrite dom_insert_lookup_L; [done|by eexists]|].
      intros d' [= <-]. exists key. split; [left|]. split_and!; try done; [simpl; apply lookup_insert_eq|eauto].
    + split_and!; try done. intros d' [= <-]. exists key. split; [left|]. split_and!; try done. eauto.
  - destruct (dropEntry key m) as [m1 e] eqn:Edrop.
    apply (dropEntry_spec toASCII effectiveTLDPlusOne) in Edrop as (Hmax & Hds & Hc).
    assert (Hsub : m_decisions m1 ⊆ m_decisions m) by (rewrite Hds; destruct e; [done|apply delete_subseteq]).
    assert (Hdom : dom (m_decisions m1) ⊆ dom (m_decisions m)) by (by apply subseteq_dom).
    destruct e; [by intros [= <- <-] ?; split_and!; auto|].
    destruct (key =s exact); [by intros [= <- <-] ?; split_and!; auto|].
    intros HL Hcm. destruct (IH _ HL (Hc Hcm)) as (? & E & ? & Hhit). split_and!; [done|congruence|by etrans|].
    intros d' Hr. destruct (Hhit d' Hr) as (k & ? & Hk & ? & ? & d0 & Hd0 & ?). exists k. split; [by right|].
    split_and!; try done. exists d0. split; [|done]. by eapply lookup_weaken.
Qed.

Lemma Discard_consistent key (m m' : Manager St) err :
  Discard key m = (m', err) -> consistent m -> consistent m'.
Proof.
  unfold Discard. destr_if; [by intros [= <- <-]|].
  intros Hd%(dropEntry_spec toASCII effectiveTLDPlusOne). tauto.
Qed.

Lemma validateDecision_key d : validateDecision d = None -> d_Key d <> "".
Proof. unfold DomainCache.validateDecision. destr_if; [done|]. bool_split. by str_eq. Qed.

Lemma skip_consistent (m : Manager St) key d :
  consistent m -> d_Key d = key -> validateDecision d = None ->
  skipCheckpoint (m_decisions m !! key) (default T.zero (m_checkpoints m !! key)) d = true ->
  consistent (set_decisions (<[key := d]> (m_decisions m)) m).
Proof.
  intros [C1 C2 C3 C4] Hk Hv. unfold skipCheckpoint. destruct (m_decisions m !! key) as [p|] eqn:Ep; [|done].
  intros. bool_split. str_eq. constructor; simpl.
  - by apply map_Forall_insert_2.
  - rewrite dom_insert_lookup_L; [done|by eexists].
  - rewrite fmap_insert, C3. symmetry. apply insert_id. rewrite lookup_fmap, Ep. simpl. by f_equal.
  - done.
Qed.

Lemma saved_consistent (m : Manager St) key d st :
  consistent m -> d_Key d = key -> validateDecision d = None ->
  SaveJSON (m_store m) bucket key d = (st, None) ->
  consistent (m |> set_decisions (<[key := d]> (m_decisions m)) |> set_store st
                |> set_checkpoints (<[key := d_CheckedAt d]> (m_checkpoints m))).
Proof.
  intros [C1 C2 C3 C4] Hk Hv Hs. constructor; simpl.
  - by apply map_Forall_insert_2.
  - by rewrite !dom_insert_L, C2.
  - rewrite (save_ok _ _ _ _ _ Hs), !fmap_insert, C3. done.
  - rewrite (save_ok _ _ _ _ _ Hs). apply map_Forall_insert_2; [|done]. split; [done|].
    subst key. by apply validateDecision_key.
Qed.

Lemma restored_decisions (m : gmap string Decision) key d :
  match m !! key with
  | Some p => <[key := p]> (<[key := d]> m)
  | None => delete key (<[key := d]> m)
  end = m.
Proof.
  destruct (m !! key) as [p|] eqn:E.
  - rewrite insert_insert_eq. by apply insert_id.
  - rewrite delete_insert_eq. by apply delete_id.
Qed.

(** Every outcome of [Save]: refused; a store failure, which undoes the
    change of the memory; the checkpoint throttled; or written and pruned. *)
Inductive saved (domain : string) (decision : Decision) (m : Manager St) : Manager St -> result Decision -> Prop :=
| saved_refused e : prepareDecision domain decision m = Err e -> saved domain decision m m (Err e)
| saved_failed d st se e :
    prepareDecision domain decision m = Ok d -> SaveJSON (m_store m) bucket (d_Key d) d = (st, Some se) ->
    saved domain decision m (set_store st m) (Err e)
| saved_skipped d :
    prepareDecision domain decision m = Ok d ->
    skipCheckpoint (m_decisions m !! d_Key d) (default T.zero (m_checkpoints m !! d_Key d)) d = true ->
    saved domain decision m (set_decisions (<[d_Key d := d]> (m_decisions m)) m) (Ok d)
| saved_written d st m' err :
    prepareDecision domain decision m = Ok d -> SaveJSON (m_store m) bucket (d_Key d) d = (st, None) ->
    pruneLocked (d_CheckedAt d)
      (m |> set_decisions (<[d_Key d := d]> (m_decisions m)) |> set_store st
         |> set_checkpoints (<[d_Key d := d_CheckedAt d]> (m_checkpoints m))) = (m', err) ->
    saved domain decision m m' (match err with Some e => Err e | None => Ok d end).

Lemma Save_cases domain decision m : saved domain decision m (Save domain decision m).1 (Save domain decision m).2.
Proof.
  unfold DomainCache.Save, commitDecision.
  destruct (prepareDecision domain decision m) as [d|e] eqn:EP; [|by apply saved_refused].
  destruct (skipCheckpoint _ _ d) eqn:Eskip; [by apply saved_skipped|]. simpl.
  destruct (SaveJSON (m_store m) bucket (d_Key d) d) as [st [se|]] eqn:Es; simpl.
  - rewrite restored_decisions. match goal with |- saved _ _ _ ?x _ => change x with (set_store st m) end.
    by eapply (saved_failed _ _ _ d st se).
  - destruct (pruneLocked _ _) as [m2 err] eqn:Ep. by eapply saved_written.
Qed.

Lemma prepareDecision_spec domain decision (m : Manager St) d :
  prepareDecision domain decision m = Ok d ->
  validateDecision d = None /\ exists n, NormalizeDomain domain = Some n /\
    d_Domain d = n /\ d_ETLDPlusOne d = ETLDPlusOne n /\ d_Key d ∈ [exactKey n; baseKey (ETLDPlusOne n)] /\
    ETLDPlusOne n <> "" /\ decisionRouteIdentity d = decisionRouteIdentity decision /\
    d_ExpiresAt d = d_ExpiresAt decision /\ d_CheckedAt d = d_CheckedAt decision /\
    d_AdapterRevision d = d_AdapterRevision decision /\ d_Results d = d_Results decision.
Proof.
  unfold DomainCache.prepareDecision. destruct (NormalizeDomain domain) as [n|]; [|done].
  destruct (ETLDPlusOne n =s "") eqn:Eb; [done|]. str_eq.
  destr_if; [done|]. destruct (saveKey _ _ _ m) as [key scope] eqn:Ekey.
  destruct (validateDecision _) eqn:Ev; [done|]. intros [= <-]. split; [done|]. exists n.
  assert (Hkey : key ∈ [exactKey n; baseKey (ETLDPlusOne n)]).
  { unfold saveKey in Ekey. repeat case_match; injection Ekey as <- <-; in_list. }
  destruct (T.IsZero (d_LastUsedAt _)); by split_and!.
Qed.

Lemma Save_consistent domain decision m : consistent m -> consistent (Save domain decision m).1.
Proof.
  intros Hc. destruct (Save_cases domain decision m) as [e HF|d st se e HF Hs|d HF Hs|d st m' err HF Hs Hp].
  - done.
  - destruct Hc as [C1 C2 C3 C4]. constructor; simpl; [done|done|by rewrite (save_failed _ _ _ _ _ _ Hs)..].
  - apply prepareDecision_spec in HF as [Hv _]. by apply skip_consistent.
  - apply prepareDecision_spec in HF as [Hv _]. by eapply pruneLocked_spec; [by apply saved_consistent|].
Qed.
End Operations.

(** ** Reachable managers *)

Section Reachable.
Context {St : Type} `{KVStoreLaws St Decision, MapIterLaws Decision}.
Context (toASCII : string -> option string) (effectiveTLDPlusOne : string -> option string).
#[local] Notation validateDecision := (validateDecision toASCII effectiveTLDPlusOne).
#[local] Notation consistent := (consistent toASCII effectiveTLDPlusOne).
#[local] Notation New := (New toASCII effectiveTLDPlusOne).

(** The state of [New]'s loop with [docs] to go, from the bucket [v0]. *)
Record loading (v0 : gmap string Decision) (docs : list (option Decision)) (m : Manager St) : Prop := {
  ld_docs d : Some d ∈ docs -> v0 !! d_Key d = Some d;
  ld_entry : map_Forall (fun key d => d_Key d = key /\ validateDecision d = None) (m_decisions m);
  ld_checkpoints : dom (m_checkpoints m) = dom (m_decisions m);
  ld_loaded : m_decisions m ⊆ v0;
  ld_store : view (m_store m) bucket ⊆ v0;
  ld_todo key d : view (m_store m) bucket !! key = Some d -> Some d ∈ docs \/ m_decisions m !! key = Some d;
  ld_kept key d : v0 !! key = Some d -> d_SelectedRoute d <> "" -> view (m_store m) bucket !! key = Some d;
  ld_routes : map_Forall (fun _ d => d_SelectedRoute d <> "") (m_decisions m)
}.

Lemma loading_drop v0 d docs (m m' : Manager St) :
  well_keyed v0 -> loading v0 (Some d :: docs) m -> d_SelectedRoute d = "" ->
  view (m_store m') bucket = delete (d_Key d) (view (m_store m) bucket) ->
  m_decisions m' = m_decisions m -> m_checkpoints m' = m_checkpoints m -> loading v0 docs m'.
Proof.
  intros Hwk [L1 L2 L3 L4 L5 L6 L7 L8] Hs Hv Hd Hc.
  assert (Hin : v0 !! d_Key d = Some d) by (apply L1; left).
  constructor; rewrite ?Hd, ?Hc, ?Hv; try done.
  - intros d' Hd'. apply L1. by right.
  - etrans; [apply delete_subseteq|done].
  - intros key d' [Hne Hk]%lookup_delete_Some. destruct (L6 _ _ Hk) as [Hx|]; [|by right]. left.
    apply elem_of_cons in Hx as [[= ->]|]; [|done]. exfalso. apply Hne.
    pose proof (lookup_weaken _ _ _ _ Hk L5) as Hk'. by apply (Hwk _ _ Hk').
  - intros key d' Hk Hsel. rewrite lookup_delete_ne; [by apply L7|]. intros <-. congruence.
Qed.

Lemma loadEntries_spec v0 docs (m m' : Manager St) :
  well_keyed v0 -> loading v0 docs m -> loadEntries toASCII effectiveTLDPlusOne docs m = (m', None) ->
  loading v0 [] m' /\ m_max m' = m_max m.
Proof.
  intros Hwk. revert m; induction docs as [|[d|] docs IH]; intros m HL; simpl; [by intros [= <-]| |done].
  assert (Hin : v0 !! d_Key d = Some d) by (apply HL; left).
  destruct (d_SelectedRoute d =s "") eqn:Es; str_eq.
  - assert (d_Key d <> "") as Hne by (by apply (Hwk _ _ Hin)).
    rewrite (proj2 (String.eqb_neq _ _) Hne). simpl.
    destruct (Delete (m_store m) bucket (d_Key d)) as [st err] eqn:Ed.
    pose proof (delete_view _ _ _ _ _ Ed) as Hv. destruct (store_failed err); [done|].
    intros HX. apply IH in HX; [done|]. by eapply loading_drop.
  - destruct (validateDecision d) eqn:Ev; [done|]. intros HX. apply IH in HX; [done|].
    destruct HL as [L1 L2 L3 L4 L5 L6 L7 L8]. constructor; simpl; try done.
    + intros d' Hd'. apply L1. by right.
    + by apply map_Forall_insert_2.
    + by rewrite !dom_insert_L, L3.
    + by apply insert_subseteq_l.
    + intros key d' Hk. destruct (decide (key = d_Key d)) as [->|Hne].
      * right. rewrite lookup_insert_eq. pose proof (lookup_weaken _ _ _ _ Hk L5). congruence.
      * rewrite lookup_insert_ne by done. destruct (L6 _ _ Hk) as [Hx|]; [|by right]. left.
        apply elem_of_cons in Hx as [[= ->]|]; [|done]. exfalso. apply Hne.
        pose proof (lookup_weaken _ _ _ _ Hk L5) as Hk'. symmetry. by apply (Hwk _ _ Hk').
    + by apply map_Forall_insert_2.
Qed.

Lemma New_loading st maxEntries :
  well_keyed (view st bucket) -> (forall e, ListRaw st bucket <> inr (StoreFailure e)) ->
  loading (view st bucket) (match ListRaw st bucket with inl docs => docs | inr _ => [] end)
    (mkManager st (effectiveMax maxEntries) ∅ ∅).
Proof.
  intros Hwk Hl. constructor; simpl; try done; try apply map_empty_subseteq; try apply map_Forall_empty.
  - intros d Hd. destruct (ListRaw st bucket) as [docs|e] eqn:El; [|by apply elem_of_nil in Hd].
    apply (list_ok _ _ _ El) in Hd as (key & Hk). by destruct (Hwk _ _ Hk) as [-> _].
  - intros key d Hk. left. destruct (ListRaw st bucket) as [docs|[|e]] eqn:El.
    + apply (list_ok _ _ _ El). eauto.
    + by rewrite (list_not_found _ _ El), lookup_empty in Hk.
    + by destruct (Hl e).
Qed.

Lemma New_spec st maxEntries now st' m :
  well_keyed (view st bucket) -> New st maxEntries now = (st', Ok m) ->
  consistent m /\ m_decisions m ⊆ view st bucket /\ m_max m = effectiveMax maxEntries /\
  Z.of_nat (size (m_decisions m)) <= effectiveMax maxEntries.
Proof.
  intros Hwk HN.
  assert (Hl : forall e, ListRaw st bucket <> inr (StoreFailure e)).
  { intros e E. unfold DomainCache.New in HN. by rewrite E in HN. }
  pose proof (New_loading st maxEntries Hwk Hl) as HL. unfold DomainCache.New in HN.
  set (docs := match ListRaw st bucket with inl docs => docs | inr _ => [] end) in *.
  assert (HN' : (let '(m0, err) := loadEntries toASCII effectiveTLDPlusOne docs
                     (mkManager st (effectiveMax maxEntries) ∅ ∅) in
                 match err with
                 | Some e => (m_store m0, Err e)
                 | None => let '(m1, err) := pruneLocked now m0 in
                           match err with Some e => (m_store m1, Err e) | None => (m_store m1, Ok m1) end
                 end) = (st', Ok m)).
  { unfold docs. destruct (ListRaw st bucket) as [?|[|e]]; [done|done|by destruct (Hl e)]. }
  clear HN. destruct (loadEntries _ _ docs _) as [m0 [e|]] eqn:Eload; [done|].
  apply (loadEntries_spec (view st bucket)) in Eload as [HL0 Hmax0]; [|done|done].
  assert (Hc0 : consistent m0).
  { constructor; [apply HL0|apply HL0| |intros key d Hk; apply Hwk, (lookup_weaken _ _ _ _ Hk (ld_store _ _ _ HL0))|..].
    f_equal. apply map_eq. intros key.
    destruct (m_decisions m0 !! key) as [d|] eqn:Ed.
    - apply HL0; [by eapply lookup_weaken, HL0|]. by apply (ld_routes _ _ _ HL0 _ _ Ed).
    - destruct (view (m_store m0) bucket !! key) as [d|] eqn:Ev; [|done].
      apply HL0 in Ev as [Hx|]; [by apply elem_of_nil in Hx|congruence]. }
  destruct (pruneLocked now m0) as [m1 [e|]] eqn:Ep; [done|]. injection HN' as _ <-.
  eapply pruneLocked_spec in Ep as (? & Hm & Hsub & HP); [|done].
  split_and!; [done|etrans; [exact Hsub|apply HL0]|by rewrite Hm, Hmax0|]. destruct (HP eq_refl) as (_ & Hsz & _).
  rewrite Hmax0 in Hsz. apply Hsz. simpl. unfold effectiveMax. repeat case_match; lia.
Qed.

(** The managers the program can hold: [New] on a bucket filled by [Save],
    then any calls, successful or not, at any times. *)
Inductive reachable : Manager St -> Prop :=
| reach_New st maxEntries now st' m :
    well_keyed (view st bucket) -> New st maxEntries now = (st', Ok m) -> reachable m
| reach_Lookup m domain rev now : reachable m ->
    reachable (Lookup toASCII effectiveTLDPlusOne domain rev now m).1
| reach_Save m domain d : reachable m -> reachable (Save toASCII effectiveTLDPlusOne domain d m).1
| reach_Discard m key : reachable m -> reachable (Discard key m).1.

Lemma Lookup_spec domain rev now (m m' : Manager St) r :
  Lookup toASCII effectiveTLDPlusOne domain rev now m = (m', r) -> consistent m ->
  consistent m' /\ m_max m' = m_max m /\ dom (m_decisions m') ⊆ dom (m_decisions m) /\
  (forall d, r = Ok (Some d) -> exists n, NormalizeDomain toASCII domain = Some n /\
    exists key, key ∈ lookupOrder toASCII effectiveTLDPlusOne n /\ hit_of rev now m m' key d).
Proof.
  unfold Lookup. destruct (NormalizeDomain toASCII domain) as [n|] eqn:En; [|by intros [= <- <-]].
  intros HL Hc. eapply lookupKeys_spec in HL as (? & ? & ? & Hhit); [|done]. split_and!; try done.
  intros d Hd. exists n. split; [done|by apply Hhit].
Qed.

Lemma reachable_consistent m : reachable m -> consistent m.
Proof.
  induction 1 as [st maxEntries now st' m Hwk HN|m domain rev now _ IH|m domain d _ IH|m key _ IH].
  - by eapply New_spec.
  - destruct (Lookup _ _ domain rev now m) as [m' r] eqn:E. by eapply Lookup_spec.
  - by apply Save_consistent.
  - destruct (Discard key m) as [m' err] eqn:E. by eapply Discard_consistent.
Qed.

(** The decision cache and its store never disagree on a route.  In every
    manager reachable from [New] by lookups, saves and discards (with store
    failures at any point), each entry is valid and filed under its own key,
    and the bucket of the store holds exactly the entries of the memory with
    the same status, category, TSPU status, route, service and revision,
    although checkpoints are throttled.  So when the manager is built again
    from that store, every entry it loads is one the old manager held, with
    the same route: a discarded or replaced decision does not come back. *)
Theorem restart_keeps_routes m maxEntries now st' m' :
  reachable m -> New (m_store m) maxEntries now = (st', Ok m') ->
  persistentDecisionIdentity <$> view (m_store m) bucket = persistentDecisionIdentity <$> m_decisions m /\
  map_Forall (fun key d => d_Key d = key /\ validateDecision d = None) (m_decisions m) /\
  reachable m' /\
  map_Forall (fun key d' => exists d, m_decisions m !! key = Some d /\
    persistentDecisionIdentity d' = persistentDecisionIdentity d) (m_decisions m').
Proof.
  intros Hr HN. destruct (reachable_consistent m Hr) as [C1 C2 C3 C4].
  split; [done|]. split; [done|]. split; [by eapply reach_New|].
  intros key d' Hd'. destruct (New_spec _ _ _ _ _ C4 HN) as (_ & Hsub & _).
  pose proof (lookup_weaken _ _ _ _ Hd' Hsub) as Hv.
  assert (Hx : (persistentDecisionIdentity <$> m_decisions m) !! key = Some (persistentDecisionIdentity d'))
    by (rewrite <- C3, lookup_fmap, Hv; done).
  rewrite lookup_fmap in Hx. destruct (m_decisions m !! key) as [d|]; [|done]. injection Hx as Hx. eauto.
Qed.

(** A cached route is only reused while it is valid.  A hit of [Lookup] is
    a decision filed for this domain or for its registrable domain, unexpired
    at the time of the call and, when a revision is asked for, made under that
    revision; apart from its last use it is the entry the memory held. *)
Theorem Lookup_sound domain rev now m m' d :
  reachable m -> Lookup toASCII effectiveTLDPlusOne domain rev now m = (m', Ok (Some d)) ->
  exists n, NormalizeDomain toASCII domain = Some n /\
    (d_Key d = exactKey n \/ d_Key d = baseKey (ETLDPlusOne toASCII effectiveTLDPlusOne n)) /\
    now < d_ExpiresAt d /\ (rev <> "" -> d_AdapterRevision d = rev) /\
    exists d0, m_decisions m !! d_Key d = Some d0 /\ (d = d0 \/ d = set_d_LastUsedAt now d0).
Proof.
  intros Hr HL. pose proof (reachable_consistent m Hr) as Hc.
  apply Lookup_spec in HL as (_ & _ & _ & Hhit); [|done].
  destruct (Hhit d eq_refl) as (n & Hn & key & Hkey & _ & Hexp & Hrev & d0 & Hd0 & Hd).
  assert (Hk : d_Key d = key).
  { destruct (cs_entry _ _ _ Hc _ _ Hd0) as [<- _]. by destruct Hd as [->| ->]. }
  exists n. split; [done|]. rewrite Hk. split_and!; [|by apply Z.ltb_lt|by destruct Hrev|eauto].
  unfold lookupOrder in Hkey. apply elem_of_cons in Hkey as [|Hkey]; [by left|].
  destruct (_ <>s ""); [|by apply elem_of_nil in Hkey]. apply list_elem_of_singleton in Hkey. by right.
Qed.
End Reachable.

Section Saving.
Context {St : Type} `{KVStoreLaws St Decision, MapIterLaws Decision}.
Context (toASCII : string -> option string) (effectiveTLDPlusOne : string -> option string).
#[local] Notation Lookup := (Lookup toASCII effectiveTLDPlusOne).
#[local] Notation Save := (Save toASCII effectiveTLDPlusOne).
#[local] Notation reachable := (reachable toASCII effectiveTLDPlusOne).

(** A successful save loses nothing but expired and least recently used
    entries.  The cache stays within its bound, gains no key but the
    decision's own, and an entry that disappears had expired when the decision
    was checked or was used no more recently than every entry that stays. *)
Theorem Save_evicts_lru domain decision (m m' : Manager St) d :
  reachable m -> Save domain decision m = (m', Ok d) ->
  (0 <= m_max m -> Z.of_nat (size (m_decisions m)) <= m_max m ->
     Z.of_nat (size (m_decisions m')) <= m_max m) /\
  (forall key old, m_decisions m !! key = Some old -> key <> d_Key d ->
     m_decisions m' !! key = Some old \/
     m_decisions m' !! key = None /\
       (d_ExpiresAt old <= d_CheckedAt d \/
        forall kept, m_decisions m' !! d_Key kept = Some kept -> d_LastUsedAt old <= d_LastUsedAt kept)) /\
  (forall key new, m_decisions m' !! key = Some new -> key <> d_Key d -> m_decisions m !! key = Some new).
Proof.
  intros Hr HS. apply reachable_consistent in Hr as Hc.
  pose proof (Save_cases toASCII effectiveTLDPlusOne domain decision m) as HC. rewrite HS in HC. simpl in HC.
  inversion HC as [| |d' HF Hskip|d' st m1 err HF Hs Hp Hm Hres]; subst.
  - simpl. split; [|split].
    + intros _ Hsz. unfold skipCheckpoint in Hskip. destruct (m_decisions m !! d_Key d) as [p|] eqn:Ep; [|done].
      by rewrite (map_size_insert_Some _ _ _ (mk_is_Some _ _ Ep)).
    + intros key old Hk Hne. left. by rewrite lookup_insert_ne.
    + intros key new Hk Hne. by rewrite lookup_insert_ne in Hk.
  - destruct err; [done|]. injection Hres as ->.
    pose proof (prepareDecision_spec _ _ _ _ _ _ HF) as [Hv _].
    eapply pruneLocked_spec in Hp as (Hc' & _ & Hsub & HP); [|by apply saved_consistent].
    destruct (HP eq_refl) as (Hvalid & Hsz & _ & Hlru). simpl in *.
    set (ds := <[d_Key d := d]> (m_decisions m)) in *. split; [auto|]. split.
    + intros key old Hk Hne. destruct (m_decisions m' !! key) as [new|] eqn:En.
      * left. pose proof (lookup_weaken _ _ _ _ En Hsub) as Hx. unfold ds in Hx.
        rewrite lookup_insert_ne in Hx by done. congruence.
      * right. split; [done|]. destruct (T.Before (d_CheckedAt d) (d_ExpiresAt old)) eqn:Eb.
        -- right. intros kept Hkept.
           assert (Hko : d_Key old = key) by (by apply (cs_entry _ _ _ Hc _ _ Hk)).
           apply (Hlru kept old); [done| |by rewrite Hko].
           rewrite Hko. apply map_lookup_filter_Some. split; [|done]. unfold ds. by rewrite lookup_insert_ne.
        -- left. by apply Z.ltb_ge.
    + intros key new Hk Hne. pose proof (lookup_weaken _ _ _ _ Hk Hsub) as Hx. unfold ds in Hx.
      by rewrite lookup_insert_ne in Hx.
Qed.

Lemma lookupKeys_miss exact rev now key keys (m : Manager St) :
  m_decisions m !! key = None ->
  lookupKeys exact rev now (key :: keys) m = lookupKeys exact rev now keys m.
Proof. intros Hk. simpl. by rewrite Hk. Qed.

(** What is saved is found again.  After a successful [Save] the next
    [Lookup] of the domain under the decision's revision, before it expires,
    returns the saved decision (its last use possibly updated), provided it
    was not evicted at once and no exact entry filed earlier stands in front
    of a decision filed under the registrable domain. *)
Theorem Save_Lookup domain decision now (m m' : Manager St) d :
  reachable m -> Save domain decision m = (m', Ok d) ->
  m_decisions m' !! d_Key d = Some d -> now < d_ExpiresAt d ->
  (d_Key d = exactKey (d_Domain d) \/ m_decisions m' !! exactKey (d_Domain d) = None) ->
  exists m'' d', Lookup domain (d_AdapterRevision decision) now m' = (m'', Ok (Some d')) /\
    (d' = d \/ d' = set_d_LastUsedAt now d) /\
    decisionRouteIdentity d' = decisionRouteIdentity decision /\ d_Results d' = d_Results decision.
Proof.
  intros Hr HS Hin Hnow Hexact.
  pose proof (Save_cases toASCII effectiveTLDPlusOne domain decision m) as HC. rewrite HS in HC. simpl in HC.
  assert (exists d0, prepareDecision toASCII effectiveTLDPlusOne domain decision m = Ok d0 /\ d0 = d) as (d0 & HF & ->).
  { inversion HC as [| |d' HF Hskip|d' st m1 err HF Hs Hp Hm Hres]; subst; [eauto|].
    destruct err; [done|]. injection Hres as ->. eauto. }
  apply prepareDecision_spec in HF as (_ & n & Hn & Hd & He & Hkey & Hne & Hid & _ & _ & Hrev & Hres).
  assert (Hhit : forall rest exact, exists m'' d',
    lookupKeys exact (d_AdapterRevision decision) now (d_Key d :: rest) m' = (m'', Ok (Some d')) /\
    (d' = d \/ d' = set_d_LastUsedAt now d)).
  { intros rest exact. simpl. rewrite Hin. unfold T.Before. rewrite (proj2 (Z.ltb_lt _ _) Hnow). simpl.
    rewrite Hrev, String.eqb_refl, andb_false_r. destr_if; eauto. }
  assert (exists m'' d', Lookup domain (d_AdapterRevision decision) now m' = (m'', Ok (Some d')) /\
            (d' = d \/ d' = set_d_LastUsedAt now d)) as (m'' & d' & HL & Hd').
  { unfold DomainCache.Lookup, lookupOrder. rewrite Hn, (proj2 (String.eqb_neq _ _) Hne).
    apply elem_of_cons in Hkey as [Hk|Hk%list_elem_of_singleton]; [rewrite <- Hk; apply Hhit|].
    destruct Hexact as [Hx|Hx]; [by rewrite Hk in Hx|]. rewrite Hd in Hx.
    simpl negb. cbv iota. rewrite lookupKeys_miss by done. rewrite <- Hk. apply (Hhit []). }
  exists m'', d'. split; [done|]. split; [done|].
  by destruct Hd' as [->| ->].
Qed.
End Saving.

(** ** Concrete runs *)

Definition ex_ascii (domain : string) : option string := Some domain.
(** The last two labels. *)
Definition ex_etld (domain : string) : option string :=
  Some (S.Join (reverse (take 2 (reverse (S.Split domain S.dot)))) ".").

Definition ex_decision (route : string) (checked : time) : Decision :=
  mkDecision "" "" "" "" "UNKNOWN:example.org" "DIRECT_PREFERRED" "UNKNOWN" "" "NO_MATCH" "hash" route "vless"
    "SELECTED" "best_verified_policy_allowed_route" "rev1" F.one F.zero "none" "no_match" 10 []
    checked (checked + 24 * hour) T.zero.

Definition ex_new : Manager (MemStore Decision) := mkManager ∅ 10 ∅ ∅.
#[local] Notation ex_save domain route checked m :=
  (Save (St := MemStore Decision) ex_ascii ex_etld domain (ex_decision route checked) m).
Definition ex_cache : Manager (MemStore Decision) := (ex_save "www.example.org" "vless-a" second ex_new).1.
Definition saved_decision (r : result Decision) : Decision := match r with Ok d => d | Err _ => ex_decision "" 0 end.
Definition ex_saved : Decision := saved_decision (ex_save "www.example.org" "vless-a" second ex_new).2.

Lemma ex_new_reachable : reachable ex_ascii ex_etld ex_new.
Proof. apply (reach_New _ _ ∅ 10 0 ∅); [apply map_Forall_empty|by vm_compute]. Qed.
Lemma ex_cache_reachable : reachable ex_ascii ex_etld ex_cache.
Proof. apply reach_Save, ex_new_reachable. Qed.

#[local] Notation ex_restarted := (New ex_ascii ex_etld (m_store ex_cache) 10 (2 * second)).
Definition ex_manager : Manager (MemStore Decision) :=
  match ex_restarted.2 with Ok m => m | Err _ => ex_new end.

Lemma restart_keeps_routes_witness :
  size (m_decisions ex_manager) = 1%nat /\
  map_Forall (fun key d' => exists d, m_decisions ex_cache !! key = Some d /\
      persistentDecisionIdentity d' = persistentDecisionIdentity d) (m_decisions ex_manager).
Proof.
  split; [vm_compute; reflexivity|].
  refine (proj2 (proj2 (proj2 (restart_keeps_routes ex_ascii ex_etld ex_cache 10 (2 * second)
            ex_restarted.1 ex_manager ex_cache_reachable _)))).
  apply (Ok_default ex_restarted ex_new). vm_compute; reflexivity.
Defined.

#[local] Notation ex_lookup := (Lookup ex_ascii ex_etld "mail.example.org" "rev1" (2 * second) ex_cache).

Lemma Lookup_sound_witness :
  exists n, NormalizeDomain ex_ascii "mail.example.org" = Some n /\
    (d_Key ex_saved = exactKey n \/ d_Key ex_saved = baseKey (ETLDPlusOne ex_ascii ex_etld n)) /\
    2 * second < d_ExpiresAt ex_saved /\ ("rev1" <> "" -> d_AdapterRevision ex_saved = "rev1") /\
    exists d0, m_decisions ex_cache !! d_Key ex_saved = Some d0 /\
      (ex_saved = d0 \/ ex_saved = set_d_LastUsedAt (2 * second) d0).
Proof.
  refine (Lookup_sound ex_ascii ex_etld "mail.example.org" "rev1" (2 * second) ex_cache ex_lookup.1 ex_saved
            ex_cache_reachable _).
  apply (pair_snd ex_lookup). vm_compute; reflexivity.
Defined.

(** A cache of one entry, full. *)
Definition ex_full : Manager (MemStore Decision) := (ex_save "www.example.org" "vless-a" second (mkManager ∅ 1 ∅ ∅)).1.
#[local] Notation ex_evict := (ex_save "other.test" "vless-b" (2 * second) ex_full).
Definition ex_new_entry : Decision := saved_decision ex_evict.2.

Lemma ex_full_reachable : reachable ex_ascii ex_etld ex_full.
Proof. apply reach_Save. apply (reach_New _ _ ∅ 1 0 ∅); [apply map_Forall_empty|by vm_compute]. Qed.

Lemma Save_evicts_lru_witness :
  size (m_decisions ex_full) = 1%nat /\ size (m_decisions ex_evict.1) = 1%nat /\
  (forall key old, m_decisions ex_full !! key = Some old -> key <> d_Key ex_new_entry ->
     m_decisions ex_evict.1 !! key = Some old \/
     m_decisions ex_evict.1 !! key = None /\
       (d_ExpiresAt old <= d_CheckedAt ex_new_entry \/
        forall kept, m_decisions ex_evict.1 !! d_Key kept = Some kept -> d_LastUsedAt old <= d_LastUsedAt kept)).
Proof.
  split; [vm_compute; reflexivity|]. split; [vm_compute; reflexivity|].
  refine (proj1 (proj2 (Save_evicts_lru ex_ascii ex_etld "other.test" (ex_decision "vless-b" (2 * second))
            ex_full ex_evict.1 ex_new_entry ex_full_reachable _))).
  apply (pair_snd ex_evict). vm_compute; reflexivity.
Defined.

Lemma Save_Lookup_witness :
  exists m'' d', Lookup ex_ascii ex_etld "www.example.org" "rev1" (2 * second) ex_cache = (m'', Ok (Some d')) /\
    (d' = ex_saved \/ d' = set_d_LastUsedAt (2 * second) ex_saved) /\
    decisionRouteIdentity d' = decisionRouteIdentity (ex_decision "vless-a" second) /\ d_Results d' = [].
Proof.
  refine (Save_Lookup ex_ascii ex_etld "www.example.org" (ex_decision "vless-a" second) (2 * second) ex_new
           ex_cache ex_saved ex_new_reachable _ _ _ _).
  - apply (pair_snd (ex_save "www.example.org" "vless-a" second ex_new)). vm_compute; reflexivity.
  - vm_compute; reflexivity.
  - vm_compute; reflexivity.
  - right. vm_compute; reflexivity.
Defined.

(** The proviso on exact entries is needed.  The registrable domain's entry
    says [vless-a]; [www.example.org] is verified on [vless-b], filed exactly;
    when it is verified again on [vless-a] the new decision is filed under the
    registrable domain, and the next lookup still answers [vless-b]. *)
Definition ex_shadowed : Manager (MemStore Decision) :=
  let m := (ex_save "example.org" "vless-a" second ex_new).1 in
  let m := (ex_save "www.example.org" "vless-b" (2 * second) m).1 in
  (ex_save "www.example.org" "vless-a" (3 * second) m).1.

Lemma stale_exact_entry_shadows_save :
  reachable ex_ascii ex_etld ex_shadowed /\
  exists d, (Lookup ex_ascii ex_etld "www.example.org" "rev1" (4 * second) ex_shadowed).2 = Ok (Some d) /\
    d_SelectedRoute d = "vless-b" /\ d_CheckedAt d = 2 * second.
Proof.
  split.
  - unfold ex_shadowed. repeat apply reach_Save. apply ex_new_reachable.
  - eexists. split; [vm_compute; reflexivity|]. split; reflexivity.
Qed.
