(* ===== verification/Planner.v ===== *)
(** * The route planner

    [internal/planner/planner.go]: the candidates of a domain, the probing loop,
    the evidence a selectable route must have, its score, the selection, and the
    reuse of cached decisions.

    What the planner calls outside the repository, or observes of the world, is
    an argument: the [Env] of one call (probe results, cancellation, clock), the
    digest of the candidate inventory, and the decision cache, known only
    through the class [DecisionCache].  [go] may fuse [x*y + z] on some
    processors; each operation is rounded here. *)
From Stdlib Require Import ZArith Lia SpecFloat.
From stdpp Require Import base list strings gmap sorting.
From S2P Require Import Prelude Float64 Config Tspu Override Health Interfaces DomainCache.

Open Scope Z_scope.

(** ** Evidence and score *)

Definition selectionEvidence (result : RouteResult) : bool :=
  if rr_Simulation result then false
  else if rr_RouteType result =s "drop" then
    S.EqualFold (rr_Status result) "DROP" || S.EqualFold (rr_ApplicationStatus result) "DROP"
  else if negb (S.EqualFold (rr_Status result) "OK") || negb (rr_PathVerified result) || negb (rr_ServiceOK result)
          || rr_RegionalBlock result || rr_AuthenticationRequired result || rr_WAFOrRateLimit result
          || S.EqualFold (rr_Status result) "REGION_BLOCK"
  then false
  else true.

(** [None] for [(0, false)]. *)
Definition selectionLatency (result : RouteResult) : option Z :=
  if rr_EndToEndLatencyAvailable result && (0 <? rr_EndToEndLatencyMS result)
  then Some (rr_EndToEndLatencyMS result) else None.

Definition orDefault (weight default : spec_float) : spec_float :=
  if F.eqb weight F.zero then default else weight.
Definition quarter : spec_float := F.ratio 1 4.
Definition tenth : spec_float := F.ratio 1 10.

(** The factor applied for the route's health record. *)
Definition healthPenalty (weights : RouteSelectionWeights) (h : RouteHealth) (score : spec_float) : spec_float :=
  let score :=
    if F.ltb F.zero (h_AvailabilityEWMA h) && F.ltb (h_AvailabilityEWMA h) F.one
    then F.mul score (F.add F.one (F.mul (F.sub F.one (h_AvailabilityEWMA h))
                                         (orDefault (Availability weights) quarter)))
    else score in
  if 0 <? h_ConsecutiveErrors h
  then F.mul score (F.add F.one (F.mul (F.of_Z (h_ConsecutiveErrors h)) (orDefault (ErrorRate weights) tenth)))
  else score.

Definition selectionScore (result : RouteResult) (policy : Policy) (health : option (gmap string RouteHealth))
    : spec_float :=
  match selectionLatency result with
  | None => F.of_Z (10 ^ 15)
  | Some latency =>
      let weights := RouteSelectionWeightsOf policy in
      let score := F.mul (F.of_Z latency) (orDefault (EndToEndLatency weights) F.one) in
      let score :=
        if S.EqualFold (RouteSelectionStrategy policy) "privacy_first" && (rr_RouteType result =s "direct")
        then F.mul score (F.add F.one (orDefault (Privacy weights) quarter)) else score in
      match Get health (rr_Route result) with
      | Some h => healthPenalty weights h score
      | None => score
      end
  end.

Section Selection.
Context (policy : Policy) (health : option (gmap string RouteHealth)).

Definition scoreOf (result : RouteResult) : spec_float := selectionScore result policy health.

(** The [less] function of the sort: score, then route tag. *)
Definition resultOrder : RouteResult -> RouteResult -> bool :=
  then_by (same_f scoreOf) (key_flt scoreOf) (key_slt rr_Route).

(** The results with evidence; DROP only when it is alone. *)
Definition selectable (results : list RouteResult) : list RouteResult :=
  let ok := List.filter selectionEvidence results in
  let nonDrop := List.filter (fun r => rr_RouteType r <>s "drop") ok in
  match nonDrop with [] => ok | _ => nonDrop end.

Definition effectiveHysteresis : Z :=
  if RouteSelectionHysteresisPercent policy <=? 0 then 15 else RouteSelectionHysteresisPercent policy.

(** The decision between the best and the current route, both selectable. *)
Definition holdCurrent (now : time) (best current : RouteResult) : RouteResult :=
  let currentScore := scoreOf current in
  let bestScore := scoreOf best in
  let cooldown := wrap64 (RouteSelectionCooldownSeconds policy * second) in
  let currentHealth := Get health (rr_Route current) in
  let unhealthy := match currentHealth with Some h => h_State h =s "unhealthy" | None => false end in
  let cooling := match currentHealth with
                 | Some h => (0 <? cooldown) && (h_Role h =s "selected") && negb (T.IsZero (h_LastSuccessAt h))
                             && (T.Sub now (h_LastSuccessAt h) <? cooldown)
                 | None => false
                 end in
  let unproven := match Get health (rr_Route best) with
                  | Some h => (0 <? h_ConsecutiveSuccesses h) && (h_ConsecutiveSuccesses h <? 2)
                  | None => false
                  end in
  if unhealthy then best
  else if cooling then current
  else if unproven then current
  else if F.leb (F.mul currentScore (F.sub F.one (F.div (F.of_Z effectiveHysteresis) (F.of_Z 100)))) bestScore
  then current
  else best.

(** [now] is the clock read by [time.Since]. *)
Definition SelectBestWithPolicy (now : time) (results : list RouteResult) (currentRoute : string)
    : option RouteResult :=
  match gosort resultOrder (selectable results) with
  | [] => None
  | (best :: _) as ok =>
      if (currentRoute =s "") || (rr_Route best =s currentRoute) then Some best
      else match first (fun r => rr_Route r =s currentRoute) ok with
      | None => Some best
      | Some current => Some (holdCurrent now best current)
      end
  end.
End Selection.

(** ** Service resolution *)

Record serviceProfile := mkProfile {
  p_domain : string;
  p_base : string;
  p_name : string;
  p_service : Service;
  p_unknown : bool;
  p_override : option MatchResult
}.

Definition unknownExpectedCodes : list Z := map (fun k => 200 + Z.of_nat k) (seq 0 200).

Definition unknownService (normalized base : string) : Service :=
  mkService "DIRECT_PREFERRED" "" [normalized; base] ["direct"; "zapret"; "smart_dns"; "vless"; "drop"] [] ""
    false [mkProbeCheck "unknown-domain-https" ("https://" +:+ normalized +:+ "/") true unknownExpectedCodes "optional"].

Definition initialUnknownPolicy (policy : Policy) : string :=
  let first := S.ToLower (S.TrimSpace (UnknownDomainFirstPath policy)) in
  if containsString ["vless"; "privacy_first"] first then "privacy_first"
  else if containsString ["drop"; "fail_closed"] first then "fail_closed"
  else "balanced".

(** ** Eligibility *)

Record Options := mkOptions {
  TSPUMatch : bool;
  TSPUResult : Tspu.Match;
  HealthTracker : option (gmap string RouteHealth);
  ActiveRevision : string;
  DeviceMAC : string
}.

Definition normalizedTSPUStatus (opts : Options) : string :=
  let status := S.ToUpper (S.TrimSpace (m_Status (TSPUResult opts))) in
  let status := if (status =s "") && TSPUMatch opts then "MATCH" else status in
  if containsString ["MATCH"; "STALE_MATCH"; "UNAVAILABLE"] status then status else "NO_MATCH".

Definition tspuStartsWithZapret (status stalePolicy : string) : bool :=
  (status =s "MATCH") || (status =s "STALE_MATCH") && (stalePolicy =s "zapret_first").

Definition eligibleRouteTypesForService (category tspuStatus stalePolicy : string) : list string :=
  if category =s "DIRECT_ONLY" then ["direct"]
  else if category =s "GEO_LOCKED" then ["smart_dns"; "vless"; "drop"]
  else if category =s "TELEGRAM" then ["external_socks"; "vless"; "drop"]
  else if category =s "TSPU_RESTRICTED" then ["zapret"; "smart_dns"; "vless"; "drop"]
  else if category =s "BLOCKED" then ["drop"]
  else if containsString ["DIRECT_PREFERRED"; ""] category then
    if (tspuStatus =s "MATCH") || (tspuStatus =s "STALE_MATCH") && (stalePolicy =s "zapret_first")
    then ["zapret"; "smart_dns"; "vless"; "drop"]
    else if (tspuStatus =s "STALE_MATCH") && (stalePolicy =s "fail_closed") then ["drop"]
    else ["direct"; "zapret"; "smart_dns"; "vless"; "drop"]
  else ["drop"].

Definition manualRouteAllowed (service : Service) (route : Route) (policy : Policy) : bool :=
  if s_Category service =s "DIRECT_ONLY" then r_Type route =s "direct"
  else if s_Category service =s "BLOCKED" then r_Type route =s "drop"
  else if s_Category service =s "GEO_LOCKED" then
    negb ((r_Type route =s "direct") && negb (GeoLockedAllowDirect policy)
          || (r_Type route =s "zapret") && negb (GeoLockedAllowZapret policy))
  else true.

Definition firstEnabledRoute (routes : list Route) : option Route := first Enabled routes.

(** ** Binding a probe result to its candidate *)

Definition bindResultToCandidate (result : RouteResult) (route : Route) (activeRevision : string) : RouteResult :=
  let result :=
    if (r_AdapterMode route =s "system_default") && rr_PathVerified result && (rr_AdapterRevision result =s "")
    then set_rr_AdapterRevision activeRevision result else result in
  let statusOK := S.EqualFold (S.TrimSpace (rr_Status result)) "OK" in
  let statusDegraded := S.EqualFold (S.TrimSpace (rr_Status result)) "DEGRADED" in
  let reason :=
    if (rr_Route result <>s r_Tag route) || (rr_RouteType result <>s r_Type route)
    then "probe_route_identity_mismatch"
    else if (activeRevision <>s "") && (rr_AdapterRevision result <>s activeRevision)
            && (rr_PathVerified result || statusOK || statusDegraded)
    then "probe_adapter_revision_mismatch"
    else if (statusOK || statusDegraded) && (negb (rr_PathVerified result) || negb (rr_ServiceOK result))
    then "probe_success_without_complete_evidence"
    else "" in
  if reason <>s "" then
    result |> set_rr_Status "UNVERIFIED" |> set_rr_PathVerified false |> set_rr_ServiceOK false
      |> set_rr_FailureStage "route_evidence" |> set_rr_ReasonCode reason |> set_rr_Reason (Some reason)
  else result.

Definition probeResultTerminal (result : RouteResult) : bool :=
  let status := S.ToUpper (S.TrimSpace (rr_Status result)) in
  if containsString [""; "VERIFYING"; "PROBING"; "WAITING"; "WAITING_FOR_VERIFICATION"; "IN_PROGRESS"] status
  then false
  else containsString ["FAIL"; "OK"; "DEGRADED"; "NOT_CONFIGURED"; "NOT_APPLICABLE"; "UNVERIFIED"; "RU_EXIT";
                       "REGION_BLOCK"; "SUSPECTED_TSPU"; "AUTH_REQUIRED"; "WAF_OR_RATE_LIMIT"; "DROP"; "TIMEOUT";
                       "ERROR"] status.

Definition looksLikeTSPU (result : RouteResult) : bool :=
  if rr_SuspectedTSPU result || S.EqualFold (S.TrimSpace (rr_Status result)) "SUSPECTED_TSPU" then true
  else any (containsString ["connection_reset"; "tls_failed"; "timeout"]) (rr_CheckReasons result).

(** The direct baseline was denied by region, with and without [TrimSpace]. *)
Definition directRegionalBlock (result : RouteResult) : bool :=
  (rr_RouteType result =s "direct") && (rr_RegionalBlock result || S.EqualFold (rr_Status result) "REGION_BLOCK").
Definition directRegionalDenial (result : RouteResult) : bool :=
  (rr_RouteType result =s "direct") &&
  (rr_RegionalBlock result || S.EqualFold (S.TrimSpace (rr_Status result)) "REGION_BLOCK").

(** ** Classification *)

Definition nonRUEgress (result : RouteResult) : bool :=
  let country := S.ToUpper (S.TrimSpace (rr_ExternalCountry result)) in
  rr_EgressConsensus result && (country <>s "") && (country <>s "RU").

Definition classificationMetadata (profile : serviceProfile) (m : Tspu.Match) : spec_float * string * string :=
  match p_override profile with
  | Some _ => (F.one, "explicit_override", "user policy override")
  | None =>
      if negb (p_unknown profile) then
        let seed := S.TrimSpace (s_ClassificationSeed (p_service profile)) in
        if seed <>s "" then (F.zero, "configured_seed", S.ToLower seed)
        else (F.one, "configured_service", "configured service classification")
      else
        let confidence := m_Confidence m in
        let confidence := if F.ltb confidence F.zero then F.zero else confidence in
        let confidence := if F.ltb F.one confidence then F.one else confidence in
        let source := S.TrimSpace (m_Source m) in
        let source := if source =s "" then "none" else source in
        let evidence := S.TrimSpace (m_Evidence m) in
        let evidence := if evidence =s "" then S.ToLower (S.TrimSpace (m_Status m)) else evidence in
        (confidence, source, evidence)
  end.

Definition classifyEvidence (profile : serviceProfile) (results : list RouteResult) (tspuStatus : string)
    : string * string :=
  let direct := List.filter (fun r => rr_RouteType r =s "direct") results in
  let others := List.filter (fun r => rr_RouteType r <>s "direct") results in
  let directRegional := any directRegionalDenial direct in
  let directTSPU :=
    any (fun r => rr_SuspectedTSPU r || S.EqualFold (S.TrimSpace (rr_Status r)) "SUSPECTED_TSPU") direct in
  let alternateFunctional :=
    any (fun r => selectionEvidence r && (rr_RouteType r <>s "drop") && nonRUEgress r) others in
  if directRegional && alternateFunctional
  then ("CONFIRMED_GEO_LOCKED", "direct regional denial plus functional alternate path")
  else if directRegional then ("SUSPECTED_GEO_LOCKED", "direct regional denial requires differential verification")
  else if directTSPU || (tspuStatus =s "MATCH") || (tspuStatus =s "STALE_MATCH") then
    if tspuStatus =s "MATCH" then ("CONFIRMED_TSPU", "fresh TSPU evidence")
    else ("SUSPECTED_TSPU", "TSPU/block evidence without regional confirmation")
  else if s_ClassificationSeed (p_service profile) <>s "" then
    ("SEEDED_" +:+ S.ToUpper (S.TrimSpace (s_ClassificationSeed (p_service profile))),
     "configured classification seed is not live proof")
  else ("UNKNOWN", "no service-specific classification evidence").

Definition currentHealthyRoute (health : option (gmap string RouteHealth)) : string :=
  match health with
  | None => ""
  | Some routes =>
      match first (fun h => (h_State h =s "healthy") && (h_Role h =s "active")) (Health.Snapshot routes) with
      | Some h => h_RouteTag h
      | None => ""
      end
  end.

Definition routeForResult (cfg : Config) (result : RouteResult) : option Route :=
  if (rr_Route result =s "system-default") && (rr_RouteType result =s "direct")
  then Some (mkRoute "direct" "system-default" 0 false "" "" false "system_default" false)
  else RouteByTag cfg (rr_Route result).

(** ** Candidates *)

Record CandidatePlan := mkPlan {
  pl_Domain : string;
  pl_ETLDPlusOne : string;
  pl_Service : string;
  pl_Category : string;
  pl_Unknown : bool;
  pl_TSPUStatus : string;
  pl_PolicySource : string;
  pl_OverrideID : string;
  pl_InventoryHash : string;
  pl_Candidates : list Route
}.

Record healthKey := mkHealthKey {
  hk_RouteTag : string;
  hk_State : string;
  hk_Role : string;
  hk_LastStatus : string
}.

Section Candidates.
(** [hex(sha256(json))] of the inventory. *)
Context (digest : list Route -> Service -> Policy -> string -> list healthKey -> string).

Definition inventoryOrder : Route -> Route -> bool :=
  then_by (same_s r_Type) (key_slt r_Type) (key_slt r_Tag).

Definition healthKeys (health : option (gmap string RouteHealth)) : list healthKey :=
  match health with
  | None => []
  | Some routes =>
      gosort (key_slt hk_RouteTag)
        (map (fun h => mkHealthKey (h_RouteTag h) (h_State h) (h_Role h) (h_LastStatus h)) (Health.Snapshot routes))
  end.

Definition hashCandidateInventory (candidates : list Route) (service : Service) (policy : Policy)
    (tspuStatus : string) (health : option (gmap string RouteHealth)) : string :=
  digest (gosort inventoryOrder candidates) service policy tspuStatus (healthKeys health).

Definition orderByHealth (routeType : string) (health : option (gmap string RouteHealth)) (routes : list Route)
    : list Route :=
  let routes := if routeType =s "smart_dns" then OrderSmartDNS health routes else routes in
  if routeType =s "vless" then OrderVLESS health routes else routes.

Definition overrideCandidates (cfg : Config) (profile : serviceProfile) (m : MatchResult) (opts : Options)
    : list Route :=
  let routes :=
    if o_RouteTag (mr_Override m) =s ""
    then orderByHealth (o_RouteType (mr_Override m)) (HealthTracker opts)
           (RoutesByType cfg (o_RouteType (mr_Override m)))
    else c_Routes cfg in
  let candidates :=
    match SelectRoute m routes with
    | Some route => if manualRouteAllowed (p_service profile) route (c_Policy cfg) then [route] else []
    | None => []
    end in
  let dropLast := match candidates with [] => true | route :: _ => r_Type route <>s "drop" end in
  if dropLast then
    match firstEnabledRoute (RoutesByType cfg "drop") with
    | Some drop => candidates ++ [drop]
    | None => candidates
    end
  else candidates.

(** The route types to collect from, and the treatment of unknown domains. *)
Definition collectTypes (cfg : Config) (profile : serviceProfile) (tspuStatus : string) : list string * string :=
  let eligible := eligibleRouteTypesForService (s_Category (p_service profile)) tspuStatus
                    (TSPUStalePolicy (c_Policy cfg)) in
  if p_unknown profile then
    let mode := initialUnknownPolicy (c_Policy cfg) in
    (if mode =s "privacy_first" then List.filter (fun t => t <>s "direct") eligible
     else if mode =s "fail_closed" then ["drop"] else eligible, mode)
  else (eligible, "balanced").

(** The unmanaged default path, probed first for an unknown domain. *)
Definition systemDefault (cfg : Config) (profile : serviceProfile) (unknownMode tspuStatus : string)
    : list Route :=
  if p_unknown profile && (unknownMode =s "balanced")
     && negb (tspuStartsWithZapret tspuStatus (TSPUStalePolicy (c_Policy cfg))) then
    match first (fun r => Enabled r && r_RequiresAdapter r) (RoutesByType cfg "direct") with
    | Some route => [mkRoute "direct" "system-default" (r_Priority route - 1) false "" "" false "system_default" true]
    | None => []
    end
  else [].

(** [selectedRoute] when [selectedRouteOK]. *)
Definition selectedRouteOf (cfg : Config) (profile : serviceProfile) : option Route :=
  let tag := s_SelectedRouteTag (p_service profile) in
  match RouteByTag cfg tag with
  | Some route =>
      if (tag <>s "") && negb (PathAllowed (p_service profile) route (c_Policy cfg)) then None else Some route
  | None => None
  end.

Definition addCandidate (cfg : Config) (profile : serviceProfile) (acc : list Route * gset string) (route : Route)
    : list Route * gset string :=
  let '(candidates, seen) := acc in
  if bool_decide (r_Tag route ∈ seen) || negb (PathAllowed (p_service profile) route (c_Policy cfg)) then acc
  else (candidates ++ [route], {[r_Tag route]} ∪ seen).

Definition collectType (cfg : Config) (profile : serviceProfile) (opts : Options)
    (acc : list Route * gset string) (routeType : string) : list Route * gset string :=
  let routes := RoutesByType cfg routeType in
  let routes := match routes with
                | [] => if routeType =s "drop" then [mkRoute "drop" "drop" 1000 false "" "" false "" false] else []
                | _ => routes
                end in
  let routes := orderByHealth routeType (HealthTracker opts) routes in
  let acc := match selectedRouteOf cfg profile with
             | Some selected =>
                 if (r_Type selected =s routeType) && Enabled selected
                 then (acc.1 ++ [selected], {[r_Tag selected]} ∪ acc.2) else acc
             | None => acc
             end in
  foldl (addCandidate cfg profile) acc routes.

Definition collectCandidates (cfg : Config) (profile : serviceProfile) (opts : Options) (tspuStatus : string)
    : list Route :=
  let '(types, unknownMode) := collectTypes cfg profile tspuStatus in
  let default := systemDefault cfg profile unknownMode tspuStatus in
  (foldl (collectType cfg profile opts) (default, list_to_set (map r_Tag default)) types).1.

Definition buildCandidates (cfg : Config) (profile : serviceProfile) (opts : Options) : CandidatePlan :=
  let tspuStatus := normalizedTSPUStatus opts in
  let candidates := match p_override profile with
                    | Some m => overrideCandidates cfg profile m opts
                    | None => collectCandidates cfg profile opts tspuStatus
                    end in
  mkPlan (p_domain profile) (p_base profile) (p_name profile) (s_Category (p_service profile)) (p_unknown profile)
    tspuStatus
    (match p_override profile with Some m => mr_Source m | None => "" end)
    (match p_override profile with Some m => o_ID (mr_Override m) | None => "" end)
    (hashCandidateInventory candidates (p_service profile) (c_Policy cfg) tspuStatus (HealthTracker opts))
    candidates.
End Candidates.

(** ** Checks and cached decisions *)

Record DomainCheck := mkCheck {
  ck_Domain : string;
  ck_ETLDPlusOne : string;
  ck_Service : string;
  ck_Category : string;
  ck_TSPUStatus : string;
  ck_PolicySource : string;
  ck_OverrideID : string;
  ck_Cached : bool;
  ck_Status : string;
  ck_Reason : string;
  ck_Confidence : spec_float;
  ck_ClassificationConfidence : spec_float;
  ck_ClassificationSource : string;
  ck_ClassificationEvidence : string;
  ck_ClassificationState : string;
  ck_ClassificationReason : string;
  ck_InitialUnknownPolicy : string;
  ck_CandidateInventoryHash : string;
  ck_VerificationState : string;
  ck_VerificationDurationMS : Z;
  ck_Results : list RouteResult;
  ck_Selected : option RouteResult;
  ck_CheckedAt : time;
  ck_ExpiresAt : time
}.
Definition zero_Check : DomainCheck :=
  mkCheck "" "" "" "" "" "" "" false "" "" F.zero F.zero "" "" "" "" "" "" "" 0 [] None T.zero T.zero.

#[export] Instance eta_Check : Eta DomainCheck := fun c =>
  mkCheck (ck_Domain c) (ck_ETLDPlusOne c) (ck_Service c) (ck_Category c) (ck_TSPUStatus c) (ck_PolicySource c)
    (ck_OverrideID c) (ck_Cached c) (ck_Status c) (ck_Reason c) (ck_Confidence c) (ck_ClassificationConfidence c)
    (ck_ClassificationSource c) (ck_ClassificationEvidence c) (ck_ClassificationState c) (ck_ClassificationReason c)
    (ck_InitialUnknownPolicy c) (ck_CandidateInventoryHash c) (ck_VerificationState c)
    (ck_VerificationDurationMS c) (ck_Results c) (ck_Selected c) (ck_CheckedAt c) (ck_ExpiresAt c).
Definition set_ck_Status v (c : DomainCheck) : DomainCheck := ltac:(assign c ck_Status v).
Definition set_ck_Reason v (c : DomainCheck) : DomainCheck := ltac:(assign c ck_Reason v).
Definition set_ck_Category v (c : DomainCheck) : DomainCheck := ltac:(assign c ck_Category v).
Definition set_ck_Confidence v (c : DomainCheck) : DomainCheck := ltac:(assign c ck_Confidence v).
Definition set_ck_ClassificationConfidence v (c : DomainCheck) : DomainCheck :=
  ltac:(assign c ck_ClassificationConfidence v).
Definition set_ck_ClassificationSource v (c : DomainCheck) : DomainCheck := ltac:(assign c ck_ClassificationSource v).
Definition set_ck_ClassificationEvidence v (c : DomainCheck) : DomainCheck :=
  ltac:(assign c ck_ClassificationEvidence v).
Definition set_ck_ClassificationState v (c : DomainCheck) : DomainCheck := ltac:(assign c ck_ClassificationState v).
Definition set_ck_ClassificationReason v (c : DomainCheck) : DomainCheck :=
  ltac:(assign c ck_ClassificationReason v).
Definition set_ck_VerificationState v (c : DomainCheck) : DomainCheck := ltac:(assign c ck_VerificationState v).
Definition set_ck_VerificationDurationMS v (c : DomainCheck) : DomainCheck :=
  ltac:(assign c ck_VerificationDurationMS v).
Definition set_ck_Results v (c : DomainCheck) : DomainCheck := ltac:(assign c ck_Results v).
Definition set_ck_Selected v (c : DomainCheck) : DomainCheck := ltac:(assign c ck_Selected v).
Definition set_ck_CheckedAt v (c : DomainCheck) : DomainCheck := ltac:(assign c ck_CheckedAt v).
Definition set_ck_ExpiresAt v (c : DomainCheck) : DomainCheck := ltac:(assign c ck_ExpiresAt v).

Definition profileUnknownPlanSkipsZapret (plan : CandidatePlan) (candidate : Route) : bool :=
  if negb (pl_Unknown plan) || (r_Type candidate <>s "zapret") then false
  else (pl_TSPUStatus plan <>s "MATCH") && (pl_TSPUStatus plan <>s "STALE_MATCH").

Definition inPlan (plan : CandidatePlan) (route routeType : string) : bool :=
  any (fun c => (r_Tag c =s route) && (r_Type c =s routeType)) (pl_Candidates plan).

(** The first loop: every result terminal, named, of a candidate, and once;
    [None] where the loop returns false, else the routes seen. *)
Fixpoint terminalResults (plan : CandidatePlan) (seen : gset string) (results : list RouteResult)
    : option (gset string) :=
  match results with
  | [] => Some seen
  | result :: rest =>
      if negb (probeResultTerminal result) || (rr_Route result =s "") || bool_decide (rr_Route result ∈ seen)
         || negb (inPlan plan (rr_Route result) (rr_RouteType result)) then None
      else terminalResults plan ({[rr_Route result]} ∪ seen) rest
  end.

Definition validCachedNoSafeRoute (decision : Decision) (plan : CandidatePlan) : bool :=
  if (d_SelectedRoute decision <>s "") || (d_Reason decision <>s "no_verified_policy_allowed_route")
     || match d_Results decision with [] => true | _ => false end then false
  else match terminalResults plan ∅ (d_Results decision) with
  | None => false
  | Some seen =>
      let directRegional := any directRegionalDenial (d_Results decision) in
      forallb (fun candidate =>
        bool_decide (r_Tag candidate ∈ seen)
        || directRegional && ((r_Type candidate =s "direct") || (r_Type candidate =s "zapret"))
        || profileUnknownPlanSkipsZapret plan candidate) (pl_Candidates plan)
  end.

(** The check rebuilt from a cached decision, before its outcome is examined. *)
Definition checkOfDecision (decision : Decision) (plan : CandidatePlan) (profile : serviceProfile) : DomainCheck :=
  let out := zero_Check in
  let '(confidence, source, evidence) :=
    classificationMetadata profile (mkMatch "" "" "" "" [] F.zero false (pl_TSPUStatus plan) "") in
  let persisted := F.ltb F.zero (d_ClassificationConfidence decision)
                   || (d_ClassificationSource decision <>s "") || (d_ClassificationEvidence decision <>s "") in
  let '(confidence, source, evidence) :=
    if persisted
    then (d_ClassificationConfidence decision, d_ClassificationSource decision, d_ClassificationEvidence decision)
    else (confidence, source, evidence) in
  mkCheck (p_domain profile) (p_base profile) (d_Service decision) (d_Category decision) (d_TSPUStatus decision)
    "" "" true (d_Status decision) (d_Reason decision) (d_Confidence decision)
    confidence source evidence (d_ClassificationState decision) (d_ClassificationReason decision) ""
    (d_CandidateInventoryHash decision) "verified" (d_VerificationDurationMS decision) (d_Results decision) None
    (d_CheckedAt decision) (d_ExpiresAt decision).

(** [None] for [(_, false)]. *)
Definition cachedCheck (decision : Decision) (plan : CandidatePlan) (profile : serviceProfile)
    (activeRevision : string) : option DomainCheck :=
  if (d_AdapterRevision decision <>s activeRevision) || (d_Service decision <>s p_name profile)
     || (d_TSPUStatus decision <>s pl_TSPUStatus plan) then None
  else if (d_CandidateInventoryHash decision =s "")
          || (d_CandidateInventoryHash decision <>s pl_InventoryHash plan) then None
  else
    let out := checkOfDecision decision plan profile in
    if S.EqualFold (S.TrimSpace (d_Status decision)) "NO_SAFE_ROUTE" then
      if validCachedNoSafeRoute decision plan
      then Some (set_ck_VerificationState "terminal_no_safe_route" out) else None
    else if d_SelectedRoute decision =s "" then None
    else if negb (inPlan plan (d_SelectedRoute decision) (d_SelectedType decision)) then None
    else match first (fun r => (rr_Route r =s d_SelectedRoute decision) && (rr_RouteType r =s d_SelectedType decision)
                               && (rr_AdapterRevision r =s activeRevision) && selectionEvidence r)
                     (d_Results decision) with
    | Some result => Some (set_ck_Selected (Some result) out)
    | None => None
    end.

(** What the planner asks of the decision cache ([domaincache.Manager]). *)
Class DecisionCache (C : Type) := {
  cache_Lookup : string -> string -> time -> C -> C * result (option Decision);
  cache_Discard : string -> C -> C * option string;
  cache_Save : string -> Decision -> C -> C * result Decision
}.
(** A hit is unexpired and made under the revision asked for. *)
Class DecisionCacheLaws (C : Type) `{DecisionCache C} := {
  cache_ok : C -> Prop;
  Lookup_fresh domain rev now c c' d :
    cache_ok c -> cache_Lookup domain rev now c = (c', Ok (Some d)) ->
    now < d_ExpiresAt d /\ (rev <> "" -> d_AdapterRevision d = rev);
  Lookup_ok domain rev now c : cache_ok c -> cache_ok (cache_Lookup domain rev now c).1;
  Discard_ok key c : cache_ok c -> cache_ok (cache_Discard key c).1;
  Save_ok domain d c : cache_ok c -> cache_ok (cache_Save domain d c).1
}.

(** The decision cache of [internal/domaincache] is one. *)
Section CacheInstance.
Context {St : Type} `{KVStoreLaws St Decision, MapIterLaws Decision}.
Context (toASCII : string -> option string) (effectiveTLDPlusOne : string -> option string).

#[export] Instance manager_cache : DecisionCache (Manager St) := {
  cache_Lookup := Lookup toASCII effectiveTLDPlusOne;
  cache_Discard := Discard;
  cache_Save := Save toASCII effectiveTLDPlusOne
}.
#[export] Instance manager_cache_laws : DecisionCacheLaws (Manager St).
Proof.
  refine {| cache_ok := DomainCache.reachable toASCII effectiveTLDPlusOne |}; simpl.
  - intros domain rev now c c' d Hr HL. apply reachable_consistent in Hr.
    eapply Lookup_spec in HL as (_ & _ & _ & Hhit); [|done].
    destruct (Hhit d eq_refl) as (n & _ & key & _ & _ & Hexp & Hrev & _).
    split; [by apply Z.ltb_lt|by destruct Hrev].
  - intros. by apply reach_Lookup.
  - intros. by apply reach_Discard.
  - intros. by apply reach_Save.
Defined.
End CacheInstance.

(** ** Checking a domain *)

(** What one call observes of the world: the probe of its [n]th candidate, the
    cancellation of its context before and after that probe, the readings of the
    clock ([0] first, [n + 1] for the [n]th candidate, then the end of the
    check), [time.Since] the start in milliseconds, and the clock of the
    selection. *)
Record Env := mkEnv {
  ProbeRoute : nat -> string -> string -> Service -> Route -> RouteResult;
  ctxErr : nat -> bool;
  ctxErrAfter : nat -> bool;
  clock : nat -> time;
  sinceMS : Z;
  selectionClock : time
}.

Record loopState := mkLoop {
  lp_results : list RouteResult;
  lp_service : Service;
  lp_category : string;
  lp_tracker : option (gmap string RouteHealth);
  lp_directAttempted : bool;
  lp_directLookedLikeTSPU : bool;
  lp_regionalBlock : bool;
  lp_allTerminal : bool
}.
#[export] Instance eta_Loop : Eta loopState := fun l =>
  mkLoop (lp_results l) (lp_service l) (lp_category l) (lp_tracker l) (lp_directAttempted l)
    (lp_directLookedLikeTSPU l) (lp_regionalBlock l) (lp_allTerminal l).
Definition set_lp_results v (l : loopState) : loopState := ltac:(assign l lp_results v).
Definition set_lp_service v (l : loopState) : loopState := ltac:(assign l lp_service v).
Definition set_lp_category v (l : loopState) : loopState := ltac:(assign l lp_category v).
Definition set_lp_tracker v (l : loopState) : loopState := ltac:(assign l lp_tracker v).
Definition set_lp_directAttempted v (l : loopState) : loopState := ltac:(assign l lp_directAttempted v).
Definition set_lp_directLookedLikeTSPU v (l : loopState) : loopState := ltac:(assign l lp_directLookedLikeTSPU v).
Definition set_lp_regionalBlock v (l : loopState) : loopState := ltac:(assign l lp_regionalBlock v).
Definition set_lp_allTerminal v (l : loopState) : loopState := ltac:(assign l lp_allTerminal v).

Definition set_p_override v (p : serviceProfile) : serviceProfile :=
  mkProfile (p_domain p) (p_base p) (p_name p) (p_service p) (p_unknown p) v.

(** The service as the loop rewrites it after a direct regional denial. *)
Definition geoLocked (service : Service) : Service :=
  service |> set_s_Category "GEO_LOCKED" |> set_s_RequireNonRUEgress true
    |> set_s_AllowedPaths ["smart_dns"; "vless"; "drop"] |> set_s_ForbiddenPaths ["direct"; "zapret"].

Section Check.
Context {C : Type} `{DecisionCache C, MapIter Service}.
Context (digest : list Route -> Service -> Policy -> string -> list healthKey -> string).
Context (toASCII : string -> option string) (effectiveTLDPlusOne : string -> option string).

Definition resolveService (cfg : option Config) (domain serviceName : string) : result serviceProfile :=
  match cfg with
  | None => Err "config is required"
  | Some cfg =>
      match NormalizeDomain toASCII domain with
      | None => Err "invalid domain"
      | Some normalized =>
          let base := ETLDPlusOne toASCII effectiveTLDPlusOne normalized in
          match c_Services cfg !! serviceName with
          | Some service => Ok (mkProfile normalized base serviceName service false None)
          | None =>
              let detected := ServiceForDomain (iter (c_Services cfg)) normalized in
              if detected <>s "" then
                Ok (mkProfile normalized base detected (serviceAt (c_Services cfg) detected) false None)
              else Ok (mkProfile normalized base ("UNKNOWN:" +:+ base) (unknownService normalized base) true None)
          end
      end
  end.

Definition attachPolicy (cfg : Config) (profile : serviceProfile) (opts : Options) : result serviceProfile :=
  m ← Match toASCII (Some cfg) (p_domain profile) (DeviceMAC opts) (p_name profile)
        (s_Category (p_service profile));
  Ok (match m with Some m => set_p_override (Some m) profile | None => profile end).

Definition BuildCandidates (cfg : option Config) (domain serviceName : string) (opts : Options)
    : result CandidatePlan :=
  profile ← resolveService cfg domain serviceName;
  match cfg with
  | None => Err "config is required"
  | Some cfg =>
      profile ← attachPolicy cfg profile opts;
      Ok (buildCandidates digest cfg profile opts)
  end.

Section Loop.
Context (env : Env) (cfg : Config) (profile : serviceProfile) (plan : CandidatePlan) (activeRevision : string).

(** The two [continue]s before the probe. *)
Definition skipCandidate (st : loopState) (route : Route) : bool :=
  lp_regionalBlock st && ((r_Type route =s "direct") || (r_Type route =s "zapret"))
  || match p_override profile with Some _ => false | None => true end
     && (r_Type route =s "zapret")
     && negb (S.EqualFold (s_Category (p_service profile)) "TSPU_RESTRICTED")
     && negb (tspuStartsWithZapret (pl_TSPUStatus plan) (TSPUStalePolicy (c_Policy cfg)))
     && (negb (lp_directAttempted st) || negb (lp_directLookedLikeTSPU st)).

Definition noteDirect (route : Route) (result : RouteResult) (st : loopState) : loopState :=
  if r_Type route =s "direct"
  then st |> set_lp_directAttempted true |> set_lp_directLookedLikeTSPU (looksLikeTSPU result) else st.

Definition noteRegionalBlock (route : Route) (result : RouteResult) (st : loopState) : loopState :=
  if (r_Type route =s "direct") && (rr_RegionalBlock result || S.EqualFold (rr_Status result) "REGION_BLOCK")
  then st |> set_lp_regionalBlock true |> set_lp_service (geoLocked (lp_service st))
          |> set_lp_category "GEO_LOCKED"
  else st.

Definition observe (n : nat) (result : RouteResult) (st : loopState) : loopState :=
  match lp_tracker st with
  | Some routes => set_lp_tracker (Some (Observe routes result (c_Policy cfg) (clock env (S n))).1) st
  | None => st
  end.

Fixpoint probeLoop (n : nat) (candidates : list Route) (st : loopState) : loopState :=
  match candidates with
  | [] => st
  | route :: rest =>
      if ctxErr env n then set_lp_allTerminal false st
      else if skipCandidate st route then probeLoop (S n) rest st
      else
        let result := bindResultToCandidate
                        (ProbeRoute env n (p_domain profile) (p_name profile) (lp_service st) route)
                        route activeRevision in
        let st := set_lp_results (lp_results st ++ [result]) st in
        if negb (probeResultTerminal result) then set_lp_allTerminal false st
        else
          let st := observe n result st in
          if ctxErrAfter env n then set_lp_allTerminal false st
          else
            let st := st |> noteDirect route result |> noteRegionalBlock route result in
            if match p_override profile with Some _ => true | None => false end && selectionEvidence result
            then st
            else probeLoop (S n) rest st
  end.
End Loop.

(** The two loops over [out.Results] after the probes. *)
Definition scoreResult (cfg : Config) (service : Service) (health : option (gmap string RouteHealth))
    (result : RouteResult) : RouteResult :=
  match routeForResult cfg result with
  | Some route =>
      if PathAllowed service route (c_Policy cfg) && selectionEvidence result
      then set_rr_SelectionScore (selectionScore result (c_Policy cfg) health) result else result
  | None => result
  end.

Definition resultAllowed (cfg : Config) (service : Service) (result : RouteResult) : bool :=
  match routeForResult cfg result with
  | Some route =>
      PathAllowed service route (c_Policy cfg) && selectionEvidence result
      && (if s_RequireNonRUEgress service && (r_Type route <>s "drop") then nonRUEgress result else true)
  | None => false
  end.

Definition decisionTTL (policy : Policy) : duration :=
  let ttl := wrap64 (DomainDecisionTTLSeconds policy * second) in
  if ttl <=? 0 then 24 * hour else ttl.

Definition decisionConfidence (selected : option RouteResult) : spec_float :=
  match selected with Some _ => F.one | None => F.zero end.

(** The outcome fields from the selected result. *)
Definition setOutcome (selected : option RouteResult) (out : DomainCheck) : DomainCheck :=
  match selected with
  | None => out |> set_ck_Status "NO_SAFE_ROUTE" |> set_ck_VerificationState "terminal_no_safe_route"
                |> set_ck_Reason "no_verified_policy_allowed_route"
  | Some r =>
      let out := out |> set_ck_Selected (Some r) |> set_ck_VerificationState "verified" in
      if rr_RouteType r =s "drop"
      then out |> set_ck_Status "DROP" |> set_ck_Reason "no_safe_route_drop_enforced"
      else out |> set_ck_Status "SELECTED" |> set_ck_Reason "best_verified_policy_allowed_route"
  end.

Definition startCheck (env : Env) (cfg : Config) (profile : serviceProfile) (plan : CandidatePlan) (opts : Options)
    : DomainCheck :=
  let '(confidence, source, evidence) := classificationMetadata profile (TSPUResult opts) in
  mkCheck (p_domain profile) (p_base profile) (p_name profile) (s_Category (p_service profile))
    (pl_TSPUStatus plan) (match p_override profile with Some m => mr_Source m | None => "" end)
    (match p_override profile with Some m => o_ID (mr_Override m) | None => "" end) false "VERIFYING" "" F.zero
    confidence source evidence "" "" (if p_unknown profile then initialUnknownPolicy (c_Policy cfg) else "")
    (pl_InventoryHash plan) "in_progress" 0 [] None (clock env 0) T.zero.

Definition currentRouteOf (service : Service) (health : option (gmap string RouteHealth)) : string :=
  if s_SelectedRouteTag service =s "" then currentHealthyRoute health else s_SelectedRouteTag service.

(** From the end of the loop, all candidates terminal, to the returned check. *)
Definition concludeCheck (env : Env) (cfg : Config) (profile : serviceProfile) (plan : CandidatePlan)
    (out : DomainCheck) (st : loopState) (finished : time) : DomainCheck :=
  let service := lp_service st in
  let results := map (scoreResult cfg service (lp_tracker st)) (lp_results st) in
  let allowed := List.filter (resultAllowed cfg service) results in
  let selected := SelectBestWithPolicy (c_Policy cfg) (lp_tracker st) (selectionClock env) allowed
                    (currentRouteOf service (lp_tracker st)) in
  let '(state, reason) := classifyEvidence profile results (pl_TSPUStatus plan) in
  out |> set_ck_Category (lp_category st) |> set_ck_Results results |> setOutcome selected
    |> set_ck_ClassificationState state |> set_ck_ClassificationReason reason
    |> set_ck_CheckedAt finished |> set_ck_VerificationDurationMS (sinceMS env)
    |> set_ck_ExpiresAt (T.Add finished (decisionTTL (c_Policy cfg)))
    |> set_ck_Confidence (decisionConfidence selected).

Definition decisionOf (out : DomainCheck) (profile : serviceProfile) (plan : CandidatePlan) (activeRevision : string)
    : Decision :=
  mkDecision "" "" "" "" (p_name profile) (ck_Category out) (ck_ClassificationState out)
    (ck_ClassificationReason out) (ck_TSPUStatus out) (pl_InventoryHash plan)
    (match ck_Selected out with Some r => rr_Route r | None => "" end)
    (match ck_Selected out with Some r => rr_RouteType r | None => "" end)
    (ck_Status out) (ck_Reason out) activeRevision (ck_Confidence out) (ck_ClassificationConfidence out)
    (ck_ClassificationSource out) (ck_ClassificationEvidence out) (ck_VerificationDurationMS out)
    (ck_Results out) (ck_CheckedAt out) (ck_ExpiresAt out) (ck_CheckedAt out).

(** The cached answer, if there is a valid one: [Ok None] goes on to probe. *)
Definition cachedAnswer (env : Env) (profile : serviceProfile) (plan : CandidatePlan) (opts : Options) (cache : C)
    : C * result (option DomainCheck) :=
  match cache_Lookup (p_domain profile) (ActiveRevision opts) (clock env 0) cache with
  | (cache, Err e) => (cache, Err e)
  | (cache, Ok None) => (cache, Ok None)
  | (cache, Ok (Some decision)) =>
      match cachedCheck decision plan profile (ActiveRevision opts) with
      | Some cached => (cache, Ok (Some cached))
      | None =>
          if d_SelectedRoute decision =s "" then
            let '(cache, err) := cache_Discard (d_Key decision) cache in
            (cache, match err with Some e => Err e | None => Ok None end)
          else (cache, Ok None)
      end
  end.

(** The probes and their conclusion; the tracker is returned updated. *)
Definition verifyDomain (env : Env) (cfg : Config) (profile : serviceProfile) (plan : CandidatePlan) (opts : Options)
    : option (gmap string RouteHealth) * DomainCheck :=
  let out := startCheck env cfg profile plan opts in
  let st := probeLoop env cfg profile plan (ActiveRevision opts) 0 (pl_Candidates plan)
              (mkLoop [] (p_service profile) (ck_Category out) (HealthTracker opts) false false false true) in
  let finished := clock env (S (length (pl_Candidates plan))) in
  if negb (lp_allTerminal st) then
    (lp_tracker st,
     out |> set_ck_Category (lp_category st) |> set_ck_Results (lp_results st)
         |> set_ck_Reason "verification_incomplete" |> set_ck_Confidence F.zero
         |> set_ck_CheckedAt finished |> set_ck_VerificationDurationMS (sinceMS env))
  else (lp_tracker st, concludeCheck env cfg profile plan out st finished).

(** [CheckDomain]: the tracker and the cache after the call, the check, and
    the error, [None] for nil. *)
Definition CheckDomain (env : Env) (cfg : option Config) (domain serviceName : string) (opts : Options)
    (cache : option C) : option (gmap string RouteHealth) * option C * (DomainCheck * option string) :=
  let fail e := (HealthTracker opts, cache, (zero_Check, Some e)) in
  match cfg with
  | None => fail "config is required"
  | Some cfg =>
      match profile ← resolveService (Some cfg) domain serviceName; attachPolicy cfg profile opts with
      | Err e => fail e
      | Ok profile =>
          let plan := buildCandidates digest cfg profile opts in
          let cacheable := p_unknown profile && match p_override profile with None => true | Some _ => false end
                           && (ActiveRevision opts <>s "") in
          let '(cache, answer) :=
            match cache with
            | Some c => if cacheable
                        then let '(c, a) := cachedAnswer env profile plan opts c in (Some c, a)
                        else (Some c, Ok None)
            | None => (None, Ok None)
            end in
          match answer with
          | Err e => (HealthTracker opts, cache, (zero_Check, Some e))
          | Ok (Some cached) => (HealthTracker opts, cache, (cached, None))
          | Ok None =>
              let '(tracker, out) := verifyDomain env cfg profile plan opts in
              if ck_Status out =s "VERIFYING" then (tracker, cache, (out, None))
              else
                match cache with
                | Some c =>
                    if cacheable
                       && (match ck_Selected out with Some _ => true | None => false end
                           || (ck_Status out =s "NO_SAFE_ROUTE")) then
                      let '(c, saved) := cache_Save (p_domain profile)
                                           (decisionOf out profile plan (ActiveRevision opts)) c in
                      (tracker, Some c, (out, match saved with Ok _ => None | Err e => Some e end))
                    else (tracker, Some c, (out, None))
                | None => (tracker, None, (out, None))
                end
          end
      end
  end.
End Check.
