(* ===== verification/PlannerProofs.v ===== *)
(** * The planner is correct

    Theorems on [Planner]: what a selected route has been proved to be, which
    result wins, which candidates are collected and probed, and when a cached
    decision answers for a fresh one. *)
From Stdlib Require Import ZArith Lia SpecFloat.
From stdpp Require Import base list strings gmap sorting.
From S2P Require Import Prelude Float64 Config Tspu Override Health Interfaces DomainCache Planner.

Open Scope Z_scope.

(** ** Evidence *)

(** The complete success contract of a network path. *)
Definition verified (r : RouteResult) : Prop :=
  rr_Simulation r = false /\ S.EqualFold (rr_Status r) "OK" = true /\ rr_PathVerified r = true /\
  rr_ServiceOK r = true /\ rr_RegionalBlock r = false /\ rr_AuthenticationRequired r = false /\
  rr_WAFOrRateLimit r = false.

Lemma evidence_verified r : selectionEvidence r = true -> rr_RouteType r <> "drop" -> verified r.
Proof.
  unfold selectionEvidence, verified. intros Hev Hne. rewrite (proj2 (String.eqb_neq _ _) Hne) in Hev.
  destruct (rr_Simulation r); [done|].
  destruct (_ || _) eqn:Hb in Hev; [done|]. bool_split. by split_and!.
Qed.

Lemma bind_verified raw route rev :
  let r := bindResultToCandidate raw route rev in
  rr_PathVerified r = true ->
  rr_Route r = r_Tag route /\ rr_RouteType r = r_Type route /\ (rev <> "" -> rr_AdapterRevision r = rev).
Proof.
  cbv zeta. unfold bindResultToCandidate.
  set (res := if (r_AdapterMode route =s "system_default") && _ && _ then _ else raw). clearbody res.
  destruct ((rr_Route res <>s r_Tag route) || (rr_RouteType res <>s r_Type route)) eqn:E1; [done|].
  bool_split. str_eq. cbv iota.
  destruct ((rev <>s "") && (rr_AdapterRevision res <>s rev) && _) eqn:E2; [done|].
  destr_if; [done|]. cbn [String.eqb negb]. intros Hp. rewrite Hp in E2. split_and!; [done..|]. intros Hrev.
  rewrite (proj2 (String.eqb_neq _ _) Hrev) in E2. simpl in E2.
  destruct (rr_AdapterRevision res =s rev) eqn:E; [by str_eq|done].
Qed.

(** A prober that reports the candidate it was asked to probe. *)
Definition names (raw : RouteResult) (route : Route) : Prop :=
  rr_Route raw = r_Tag route /\ rr_RouteType raw = r_Type route.

Lemma bind_names raw route rev : names raw route -> names (bindResultToCandidate raw route rev) route.
Proof.
  unfold names, bindResultToCandidate. intros [H1 H2].
  repeat match goal with |- context [if ?b then _ else _] => destruct b end; done.
Qed.

Lemma scoreResult_fields cfg service health r :
  let r' := scoreResult cfg service health r in
  selectionEvidence r' = selectionEvidence r /\ rr_Route r' = rr_Route r /\ rr_RouteType r' = rr_RouteType r /\
  rr_AdapterRevision r' = rr_AdapterRevision r /\ rr_PathVerified r' = rr_PathVerified r /\
  probeResultTerminal r' = probeResultTerminal r /\ directRegionalDenial r' = directRegionalDenial r /\
  routeForResult cfg r' = routeForResult cfg r.
Proof.
  cbv zeta. unfold scoreResult. destruct (routeForResult cfg r) eqn:E; [|done].
  destruct (PathAllowed _ _ _ && _); by split_and!.
Qed.

(** ** The winner *)

Section Winner.
Context (policy : Policy) (health : option (gmap string RouteHealth)) (now : time).
#[local] Notation scoreOf := (scoreOf policy health).
#[local] Notation resultOrder := (resultOrder policy health).

Lemma elem_of_selectable results r :
  r ∈ selectable results <->
  r ∈ results /\ selectionEvidence r = true /\
  (rr_RouteType r = "drop" -> forall r', r' ∈ results -> selectionEvidence r' = true -> rr_RouteType r' = "drop").
Proof.
  unfold selectable. set (ok := List.filter selectionEvidence results).
  assert (Hok : forall x, x ∈ ok <-> x ∈ results /\ selectionEvidence x = true).
  { intros x. unfold ok. by rewrite elem_of_filter_b. }
  set (nd := List.filter _ ok).
  assert (Hnd : forall x, x ∈ nd <-> x ∈ ok /\ rr_RouteType x <> "drop").
  { intros x. unfold nd. rewrite elem_of_filter_b.
    by rewrite negb_true_iff, String.eqb_neq. }
  destruct nd as [|d nd'].
  - rewrite Hok. split; [|tauto]. intros [Hin Hev]. split_and!; [done..|]. intros _ r' Hr' Hev'.
    destruct (decide (rr_RouteType r' = "drop")) as [|Hne]; [done|]. exfalso.
    assert (r' ∈ []) as Hx by (apply Hnd; rewrite Hok; done). by apply elem_of_nil in Hx.
  - rewrite Hnd, Hok. split; [intros [[? ?] ?]; by split_and!|]. intros (Hin & Hev & Hd). split; [done|].
    intros E. assert (d ∈ d :: nd') as Hd' by left. apply Hnd in Hd' as [[? ?]%Hok Hne]. eauto.
Qed.

Lemma SelectBest_None results cur :
  SelectBestWithPolicy policy health now results cur = None <-> forall r, r ∈ results -> selectionEvidence r = false.
Proof.
  unfold SelectBestWithPolicy. split.
  - intros HN r Hr. destruct (selectionEvidence r) eqn:Ev; [exfalso|done].
    assert (HX : gosort resultOrder (selectable results) = []).
    { destruct (gosort _ _); [done|]. repeat (destr_if || case_match); done. }
    assert (Hs : selectable results ≡ₚ []) by (rewrite <- HX; symmetry; apply gosort_perm).
    apply Permutation_nil_r in Hs. unfold selectable in Hs.
    assert (r ∈ List.filter selectionEvidence results) as Hin
      by (by apply elem_of_filter_b).
    destruct (List.filter (fun r => rr_RouteType r <>s "drop") _); [|done].
    rewrite Hs in Hin. by apply elem_of_nil in Hin.
  - intros Hall. assert (HX : selectable results = []).
    { destruct (selectable results) as [|r rest] eqn:E; [done|]. exfalso.
      assert (r ∈ selectable results) as Hr by (rewrite E; left).
      apply elem_of_selectable in Hr as (Hr & Hev & _). by rewrite Hall in Hev. }
    by rewrite HX.
Qed.

Lemma holdCurrent_cases best current :
  holdCurrent policy health now best current = best \/ holdCurrent policy health now best current = current.
Proof. unfold holdCurrent. repeat destr_if; auto. Qed.

Lemma SelectBest_selectable results cur r :
  SelectBestWithPolicy policy health now results cur = Some r -> r ∈ selectable results.
Proof.
  unfold SelectBestWithPolicy. destruct (gosort resultOrder (selectable results)) as [|best ok] eqn:E; [done|].
  assert (Hmem : forall x, x ∈ best :: ok -> x ∈ selectable results).
  { intros x. rewrite <- E. by rewrite gosort_perm. }
  destr_if; [intros [= <-]; apply Hmem; left|].
  destruct (first _ _) as [current|] eqn:Ef; [|intros [= <-]; apply Hmem; left].
  apply first_Some in Ef as [Hc _]. intros [= <-].
  destruct (holdCurrent_cases best current) as [-> | ->]; [apply Hmem; left|by apply Hmem].
Qed.

(** No score is NaN: latencies are finite, and the weights [Validate] accepts
    lie in [0, 100]. *)
Definition scores_ordered (results : list RouteResult) : Prop :=
  forall x, x ∈ results -> F.is_nan (scoreOf x) = false.

Definition resultTotal : RouteResult -> RouteResult -> bool :=
  then_by (total_same scoreOf) (total_flt scoreOf) (key_slt rr_Route).
#[local] Instance StrictWeak_resultTotal : StrictWeak resultTotal.
Proof. apply StrictWeak_then_by; auto with flint. Qed.

Lemma sorted_total results : scores_ordered results ->
  gosort resultOrder (selectable results) = gosort resultTotal (selectable results).
Proof.
  intros Hnan. apply gosort_ext. intros x y Hx Hy.
  apply elem_of_selectable in Hx as [Hx _], Hy as [Hy _].
  unfold Planner.resultOrder, resultTotal, then_by.
  rewrite feq_total, flt_total by auto. done.
Qed.

(** The first of the sorted results: no selectable score is smaller. *)
Lemma sorted_head_min results best ok x : scores_ordered results ->
  gosort resultOrder (selectable results) = best :: ok -> x ∈ selectable results ->
  F.ltb (scoreOf x) (scoreOf best) = false.
Proof.
  intros Hnan E Hx. rewrite sorted_total in E by done.
  pose proof (gosort_head_min resultTotal _ _ _ x E Hx) as Hmin.
  assert (Hb : best ∈ selectable results).
  { rewrite <- (gosort_perm resultTotal), E. left. }
  apply elem_of_selectable in Hx as [Hx _], Hb as [Hb _].
  change (key_flt scoreOf x best = false). rewrite flt_total by auto.
  unfold resultTotal, then_by in Hmin. destruct (total_same scoreOf x best) eqn:Es; [|done].
  by apply total_same_flt in Es as [? _].
Qed.

(** Why the current route is kept although [best] scores better: it is not
    known unhealthy, and it is within its cooldown, or [best] has succeeded
    only once, or the improvement is within the hysteresis. *)
Definition held (best current : RouteResult) : Prop :=
  (forall h, Get health (rr_Route current) = Some h -> h_State h <> "unhealthy") /\
  ((exists h, Get health (rr_Route current) = Some h /\ h_Role h = "selected" /\ h_LastSuccessAt h <> T.zero /\
      T.Sub now (h_LastSuccessAt h) < wrap64 (RouteSelectionCooldownSeconds policy * second)) \/
   (exists h, Get health (rr_Route best) = Some h /\ h_ConsecutiveSuccesses h = 1) \/
   F.leb (F.mul (scoreOf current)
                (F.sub F.one (F.div (F.of_Z (effectiveHysteresis policy)) (F.of_Z 100)))) (scoreOf best) = true).

Lemma holdCurrent_held best current : best <> current ->
  holdCurrent policy health now best current = current -> held best current.
Proof.
  intros Hne. unfold holdCurrent, held.
  destruct (match Get health (rr_Route current) with Some h => h_State h =s "unhealthy" | None => false end) eqn:Eu;
    [done|].
  intros HX. split.
  { intros h Eh. rewrite Eh in Eu. by str_eq. }
  destruct (match Get health (rr_Route current) with Some h => _ | None => false end) eqn:Ec in HX.
  { left. destruct (Get health (rr_Route current)) as [h|]; [|done]. exists h. bool_split. str_eq.
    unfold T.IsZero, T.zero in *. split_and!; [done..|lia|lia]. }
  destruct (match Get health (rr_Route best) with Some h => _ | None => false end) eqn:Eb in HX.
  { right; left. destruct (Get health (rr_Route best)) as [h|]; [|done]. exists h. split; [done|]. lia. }
  right; right. by destr_if.
Qed.

Lemma holdCurrent_best best current :
  (exists h, Get health (rr_Route current) = Some h /\ h_State h = "unhealthy") ->
  holdCurrent policy health now best current = best.
Proof. intros (h & Eh & Es). unfold holdCurrent. by rewrite Eh, Es. Qed.
End Winner.

(** C35: the planner selects the best verified result.  [SelectBestWithPolicy]
    answers nothing exactly when no result has selection evidence.  Otherwise
    its answer has evidence, is DROP only if every result with evidence is DROP,
    and either no selectable result has a smaller score, or it is the current
    route, held against a better one because it is not known unhealthy and is
    within its cooldown, faces a candidate with a single success, or is within
    the hysteresis of it. *)
Theorem selection_is_best policy health now results cur :
  scores_ordered policy health results ->
  match SelectBestWithPolicy policy health now results cur with
  | None => forall x, x ∈ results -> selectionEvidence x = false
  | Some r =>
      r ∈ results /\ selectionEvidence r = true /\
      (rr_RouteType r = "drop" -> forall x, x ∈ results -> selectionEvidence x = true -> rr_RouteType x = "drop") /\
      exists best, best ∈ selectable results /\
        (forall x, x ∈ selectable results -> F.ltb (scoreOf policy health x) (scoreOf policy health best) = false) /\
        (r = best \/ rr_Route r = cur /\ cur <> "" /\ held policy health now best r)
  end.
Proof.
  intros Hnan. destruct (SelectBestWithPolicy policy health now results cur) as [r|] eqn:E;
    [|exact (proj1 (SelectBest_None _ _ _ _ _) E)].
  pose proof (SelectBest_selectable _ _ _ _ _ _ E) as Hr. apply elem_of_selectable in Hr as (? & ? & ?).
  split_and!; [done..|]. unfold SelectBestWithPolicy in E.
  destruct (gosort _ (selectable results)) as [|best ok] eqn:Es; [done|]. exists best.
  split; [rewrite <- (gosort_perm (resultOrder policy health)), Es; left|].
  split; [intros x Hx; by eapply sorted_head_min|].
  destruct ((cur =s "") || (rr_Route best =s cur)) eqn:Ec; [by injection E as <-; left|]. bool_split. str_eq.
  destruct (first _ _) as [current|] eqn:Ef; [|by injection E as <-; left].
  apply first_Some in Ef as [_ Hcur]. str_eq. injection E as <-.
  destruct (holdCurrent_cases policy health now best current) as [E|E]; rewrite E; [by left|].
  right. split_and!; [done..|]. apply holdCurrent_held; [congruence|done].
Qed.

(** ** The probing loop *)

Section LoopFacts.
Context (env : Env) (cfg : Config) (profile : serviceProfile) (plan : CandidatePlan) (rev : string).
#[local] Notation probeLoop := (probeLoop env cfg profile plan rev).
#[local] Notation skipCandidate := (skipCandidate cfg profile plan).

(** [r] is what the [n]th probe reported, bound to the candidate [route]. *)
Definition probed (route : Route) (r : RouteResult) : Prop :=
  exists n service, r = bindResultToCandidate
                          (ProbeRoute env n (p_domain profile) (p_name profile) service route) route rev.
(** The same, for the service of the profile or what a regional denial makes of it. *)
Definition probed_for (route : Route) (r : RouteResult) : Prop :=
  exists n service, (service = p_service profile \/ service = geoLocked (p_service profile)) /\
    r = bindResultToCandidate (ProbeRoute env n (p_domain profile) (p_name profile) service route) route rev.

Record loop_inv (st : loopState) : Prop := {
  li_probed r : r ∈ lp_results st -> exists route, route ∈ pl_Candidates plan /\ probed_for route r;
  li_service : lp_service st = if lp_regionalBlock st then geoLocked (p_service profile) else p_service profile;
  li_category : lp_category st = s_Category (lp_service st)
}.

Definition sameBooks (st st' : loopState) : Prop :=
  lp_results st' = lp_results st /\ lp_service st' = lp_service st /\ lp_category st' = lp_category st /\
  lp_regionalBlock st' = lp_regionalBlock st.

Lemma observe_same n r st : sameBooks st (observe env cfg n r st) /\ lp_allTerminal (observe env cfg n r st) = lp_allTerminal st.
Proof. unfold observe. by destruct (lp_tracker st). Qed.
Lemma noteDirect_same route r st :
  sameBooks st (noteDirect route r st) /\ lp_allTerminal (noteDirect route r st) = lp_allTerminal st.
Proof. unfold noteDirect. by destruct (_ =s _). Qed.

Lemma same_inv st st' : sameBooks st st' -> loop_inv st -> loop_inv st'.
Proof.
  intros (E1 & E2 & E3 & E4) [I1 I2 I3]. constructor; by rewrite ?E1, ?E2, ?E3, ?E4.
Qed.

Lemma geoLocked_idem service : geoLocked (geoLocked service) = geoLocked service.
Proof. done. Qed.

Lemma noteRegional_inv route r st : loop_inv st -> loop_inv (noteRegionalBlock route r st).
Proof.
  intros [I1 I2 I3]. unfold noteRegionalBlock. destruct (_ && _); [|done].
  constructor; [done| |done]. simpl. rewrite I2. by destruct (lp_regionalBlock st).
Qed.

Lemma record_inv route n st : route ∈ pl_Candidates plan -> loop_inv st ->
  loop_inv (set_lp_results (lp_results st ++
    [bindResultToCandidate (ProbeRoute env n (p_domain profile) (p_name profile) (lp_service st) route) route rev]) st).
Proof.
  intros Hr [I1 I2 I3]. constructor; [|done..]. simpl. intros r.
  rewrite elem_of_app, list_elem_of_singleton. intros [Hin|Hin]; [by apply I1|]. subst r.
  exists route. split; [done|]. exists n, (lp_service st). split; [|done]. rewrite I2. destruct (lp_regionalBlock st); auto.
Qed.

Lemma probeLoop_inv n cands st :
  (forall route, route ∈ cands -> route ∈ pl_Candidates plan) -> loop_inv st -> loop_inv (probeLoop n cands st).
Proof.
  revert n st; induction cands as [|route rest IH]; intros n st Hin Hst; simpl; [done|].
  destruct (ctxErr env n); [by eapply same_inv; [|exact Hst]|].
  assert (Hrest : forall x, x ∈ rest -> x ∈ pl_Candidates plan) by (intros; apply Hin; by right).
  destruct (skipCandidate st route); [by apply IH|].
  set (r := bindResultToCandidate _ route rev).
  pose proof (record_inv route n st ltac:(apply Hin; left) Hst) as Hrec. fold r in Hrec.
  destruct (negb (probeResultTerminal r)); [by eapply same_inv; [|exact Hrec]|].
  pose proof (same_inv _ _ (proj1 (observe_same n r _)) Hrec) as Hobs.
  destruct (ctxErrAfter env n); [by eapply same_inv; [|exact Hobs]|].
  pose proof (noteRegional_inv route r _ (same_inv _ _ (proj1 (noteDirect_same route r _)) Hobs)) as Hnote.
  destruct (_ && _); [done|]. by apply IH.
Qed.

(** Why a candidate needs no result: a direct regional denial, or a Zapret
    route that must not be probed speculatively. *)
Definition excused (st : loopState) (route : Route) : Prop :=
  lp_regionalBlock st = true /\ (r_Type route = "direct" \/ r_Type route = "zapret") \/
  p_override profile = None /\ r_Type route = "zapret" /\
  S.EqualFold (s_Category (p_service profile)) "TSPU_RESTRICTED" = false /\
  tspuStartsWithZapret (pl_TSPUStatus plan) (TSPUStalePolicy (c_Policy cfg)) = false.

Lemma skip_excused st route : skipCandidate st route = true -> excused st route.
Proof.
  unfold Planner.skipCandidate, excused. intros [HX|HX]%orb_true_iff.
  - left. apply andb_true_iff in HX as [? HX]. split; [done|].
    apply orb_true_iff in HX as [HX|HX]; str_eq; auto.
  - right. bool_split. str_eq. by destruct (p_override profile).
Qed.

Lemma regional_mono route r st :
  lp_regionalBlock st = true -> lp_regionalBlock (noteRegionalBlock route r st) = true.
Proof. unfold noteRegionalBlock. by destruct (_ && _). Qed.

Lemma noteRegional_results route r st :
  lp_results (noteRegionalBlock route r st) = lp_results st /\
  lp_allTerminal (noteRegionalBlock route r st) = lp_allTerminal st.
Proof. unfold noteRegionalBlock. by destruct (_ && _). Qed.

(** The state after one probe that lets the loop go on. *)
Definition afterProbe (n : nat) (route : Route) (r : RouteResult) (st : loopState) : loopState :=
  observe env cfg n r (set_lp_results (lp_results st ++ [r]) st)
    |> noteDirect route r |> noteRegionalBlock route r.

Lemma afterProbe_spec n route r st :
  let st' := afterProbe n route r st in
  lp_results st' = lp_results st ++ [r] /\ lp_allTerminal st' = lp_allTerminal st /\
  (lp_regionalBlock st = true -> lp_regionalBlock st' = true) /\
  lp_regionalBlock st' = lp_regionalBlock st
    || (r_Type route =s "direct") && (rr_RegionalBlock r || S.EqualFold (rr_Status r) "REGION_BLOCK").
Proof.
  cbv zeta. unfold afterProbe. set (st0 := set_lp_results _ st).
  destruct (observe_same n r st0) as [(O1 & O2 & O3 & O4) O5].
  destruct (noteDirect_same route r (observe env cfg n r st0)) as [(D1 & D2 & D3 & D4) D5].
  destruct (noteRegional_results route r (noteDirect route r (observe env cfg n r st0))) as [R1 R2].
  rewrite R1, R2, D1, D5, O1, O5. split_and!; [done|done|intros; apply regional_mono; by rewrite D4, O4|].
  unfold noteRegionalBlock. destruct (_ && _); simpl; [by rewrite orb_true_r|]. by rewrite D4, O4, orb_false_r.
Qed.

(** One unfolding of the loop, by cases on what it does with a candidate. *)
Lemma probeLoop_cons n route rest st :
  let r := bindResultToCandidate (ProbeRoute env n (p_domain profile) (p_name profile) (lp_service st) route)
             route rev in
  lp_allTerminal (probeLoop n (route :: rest) st) = false \/
  skipCandidate st route = true /\ probeLoop n (route :: rest) st = probeLoop (S n) rest st \/
  skipCandidate st route = false /\ probeResultTerminal r = true /\
    (probeLoop n (route :: rest) st = probeLoop (S n) rest (afterProbe n route r st) \/
     is_Some (p_override profile) /\ selectionEvidence r = true /\
     probeLoop n (route :: rest) st = afterProbe n route r st).
Proof.
  cbv zeta. simpl. destruct (ctxErr env n); [by left|]. destruct (skipCandidate st route); [by right; left|].
  destruct (probeResultTerminal _); [|by left]. simpl. destruct (ctxErrAfter env n); [by left|].
  right; right. split_and!; [done..|]. unfold afterProbe.
  destruct (p_override profile); simpl; [|by left]. destruct (selectionEvidence _); [right|by left].
  split_and!; [by eexists|done|done].
Qed.

(** When the loop ends with all candidates terminal, and no override cut it
    short, every candidate has a terminal result or an excuse. *)
Lemma probeLoop_complete n cands st :
  p_override profile = None -> lp_allTerminal (probeLoop n cands st) = true ->
  (forall r, r ∈ lp_results st -> r ∈ lp_results (probeLoop n cands st)) /\
  (lp_regionalBlock st = true -> lp_regionalBlock (probeLoop n cands st) = true) /\
  (forall route, route ∈ cands ->
     excused (probeLoop n cands st) route \/
     exists r, r ∈ lp_results (probeLoop n cands st) /\ probed route r /\ probeResultTerminal r = true).
Proof.
  intros Hov. revert n st; induction cands as [|route rest IH]; intros n st Hterm.
  { split_and!; try done. intros ? Hx. by apply elem_of_nil in Hx. }
  destruct (probeLoop_cons n route rest st) as [E|[[Hskip E]|(_ & Ht & [E|(Hs & _)])]].
  - congruence.
  - rewrite E in *. destruct (IH _ _ Hterm) as (I1 & I2 & I3). split_and!; [done..|].
    intros x [->|Hx]%elem_of_cons; [|by apply I3]. left.
    destruct (skip_excused _ _ Hskip) as [[Hb ?]|?]; [left|by right]. split; [by apply I2|done].
  - rewrite E in *. destruct (IH _ _ Hterm) as (I1 & I2 & I3).
    destruct (afterProbe_spec n route (bindResultToCandidate
      (ProbeRoute env n (p_domain profile) (p_name profile) (lp_service st) route) route rev) st) as (A1 & _ & A3 & _).
    split_and!; [|intros; apply I2; by apply A3|].
    + intros r Hr. apply I1. rewrite A1, elem_of_app. by left.
    + intros x [->|Hx]%elem_of_cons; [|by apply I3]. right. eexists. split_and!; [|by eexists n, (lp_service st)|exact Ht].
      apply I1. rewrite A1, elem_of_app. right. apply list_elem_of_singleton. done.
  - rewrite Hov in Hs. by destruct Hs.
Qed.

Lemma probeLoop_terminal n cands st :
  lp_allTerminal (probeLoop n cands st) = true ->
  (forall r, r ∈ lp_results st -> probeResultTerminal r = true) ->
  forall r, r ∈ lp_results (probeLoop n cands st) -> probeResultTerminal r = true.
Proof.
  revert n st; induction cands as [|route rest IH]; intros n st Hterm Hst; [done|].
  assert (Hafter : forall r, probeResultTerminal r = true -> forall x,
            x ∈ lp_results (afterProbe n route r st) -> probeResultTerminal x = true).
  { intros r Hr x. destruct (afterProbe_spec n route r st) as (-> & _). rewrite elem_of_app, list_elem_of_singleton.
    intros [?| ->]; auto. }
  destruct (probeLoop_cons n route rest st) as [E|[[_ E]|(_ & Ht & [E|(_ & _ & E)])]].
  - congruence.
  - rewrite E in *. by apply IH.
  - rewrite E in *. apply IH; [done|by apply Hafter].
  - rewrite E. by apply Hafter.
Qed.

(** *** The order of the probes *)

Definition zapretGuarded : Prop :=
  p_override profile = None /\ S.EqualFold (s_Category (p_service profile)) "TSPU_RESTRICTED" = false /\
  tspuStartsWithZapret (pl_TSPUStatus plan) (TSPUStalePolicy (c_Policy cfg)) = false.

(** No direct or Zapret probe follows a direct regional denial, and a guarded
    Zapret probe follows a direct result that looked like TSPU. *)
Definition probe_order (results : list RouteResult) : Prop :=
  forall pre r post, results = pre ++ r :: post ->
    (rr_RouteType r = "direct" \/ rr_RouteType r = "zapret" -> any directRegionalBlock pre = false) /\
    (rr_RouteType r = "zapret" -> zapretGuarded ->
     exists d, d ∈ pre /\ rr_RouteType d = "direct" /\ looksLikeTSPU d = true).

Definition prober_names : Prop :=
  forall n service route, names (ProbeRoute env n (p_domain profile) (p_name profile) service route) route.

Record order_inv (st : loopState) : Prop := {
  oi_order : probe_order (lp_results st);
  oi_looked : lp_directLookedLikeTSPU st = true ->
    exists d, d ∈ lp_results st /\ rr_RouteType d = "direct" /\ looksLikeTSPU d = true;
  oi_regional : lp_regionalBlock st = any directRegionalBlock (lp_results st)
}.

Lemma any_app {A} (p : A -> bool) l1 l2 : any p (l1 ++ l2) = any p l1 || any p l2.
Proof. apply existsb_app. Qed.

Lemma probe_order_snoc results r :
  probe_order results ->
  (rr_RouteType r = "direct" \/ rr_RouteType r = "zapret" -> any directRegionalBlock results = false) ->
  (rr_RouteType r = "zapret" -> zapretGuarded ->
     exists d, d ∈ results /\ rr_RouteType d = "direct" /\ looksLikeTSPU d = true) ->
  probe_order (results ++ [r]).
Proof.
  intros Ho H1 H2 pre x post E. destruct post as [|y post] using rev_ind.
  - apply app_inj_tail in E as [<- <-]. auto.
  - rewrite app_comm_cons, app_assoc in E. apply app_inj_tail in E as [E _]. by apply (Ho pre x post).
Qed.

Lemma unskipped st route : skipCandidate st route = false ->
  (r_Type route = "direct" \/ r_Type route = "zapret" -> lp_regionalBlock st = false) /\
  (r_Type route = "zapret" -> zapretGuarded -> lp_directLookedLikeTSPU st = true).
Proof.
  unfold Planner.skipCandidate. intros [H1 H2]%orb_false_iff. split.
  - intros Hty. destruct (lp_regionalBlock st); [|done]. exfalso. by destruct Hty as [E|E]; rewrite E in H1.
  - intros E (Ho & Hc & Hz). rewrite Ho, E, Hc, Hz in H2. simpl in H2.
    destruct (lp_directLookedLikeTSPU st); [done|]. by rewrite orb_true_r in H2.
Qed.

Lemma looked_after n route r st :
  lp_directLookedLikeTSPU (afterProbe n route r st) =
  if r_Type route =s "direct" then looksLikeTSPU r else lp_directLookedLikeTSPU st.
Proof.
  unfold afterProbe, noteRegionalBlock, noteDirect, observe.
  destruct (r_Type route =s "direct"), (lp_tracker _); simpl; try done; by destruct (_ || _).
Qed.

Lemma afterProbe_order n route r st :
  names r route -> skipCandidate st route = false -> order_inv st -> order_inv (afterProbe n route r st).
Proof.
  intros [Hn Hty] Hskip [O1 O2 O3]. destruct (afterProbe_spec n route r st) as (A1 & _ & _ & A4).
  destruct (unskipped _ _ Hskip) as [U1 U2]. constructor.
  - rewrite A1. apply probe_order_snoc; [done| |].
    + rewrite Hty, <- O3. done.
    + rewrite Hty. auto.
  - rewrite looked_after, A1. destruct (r_Type route =s "direct") eqn:E; str_eq.
    + intros Hl. exists r. rewrite elem_of_app, list_elem_of_singleton. split_and!; [by right|congruence|done].
    + intros Hl. destruct (O2 Hl) as (d & ? & ?). exists d. rewrite elem_of_app. auto.
  - rewrite A4, A1, any_app, O3. simpl. by rewrite orb_false_r, <- Hty.
Qed.

Lemma probeLoop_order n cands st :
  prober_names -> lp_allTerminal (probeLoop n cands st) = true -> order_inv st -> order_inv (probeLoop n cands st).
Proof.
  intros Hnames. revert n st; induction cands as [|route rest IH]; intros n st Hterm Hst; [done|].
  set (raw := ProbeRoute env n (p_domain profile) (p_name profile) (lp_service st) route).
  pose proof (bind_names raw route rev (Hnames _ _ _)) as Hbn.
  destruct (probeLoop_cons n route rest st) as [E|[[_ E]|(Hs & _ & [E|(_ & _ & E)])]].
  - congruence.
  - rewrite E in *. by apply IH.
  - rewrite E in *. apply IH; [done|]. by apply afterProbe_order.
  - rewrite E. by apply afterProbe_order.
Qed.

(** The results name a sublist of the candidates, in their order. *)
Lemma probeLoop_names n cands st : prober_names ->
  exists l, lp_results (probeLoop n cands st) = lp_results st ++ l /\ rr_Route <$> l `sublist_of` r_Tag <$> cands.
Proof.
  intros Hnames. revert n st; induction cands as [|route rest IH]; intros n st; simpl.
  { exists []. split; [by rewrite app_nil_r|constructor]. }
  assert (Hstop : forall st', lp_results st' = lp_results st -> exists l, lp_results st' = lp_results st ++ l /\
            rr_Route <$> l `sublist_of` r_Tag route :: (r_Tag <$> rest)).
  { intros st' E. exists []. rewrite app_nil_r. split; [done|apply sublist_nil_l]. }
  destruct (ctxErr env n); [by apply Hstop|].
  destruct (skipCandidate st route).
  { destruct (IH (S n) st) as (l & E & Hl). exists l. split; [done|by apply sublist_cons]. }
  set (r := bindResultToCandidate _ route rev).
  assert (Hr : rr_Route r = r_Tag route) by (apply bind_names, Hnames).
  assert (Hone : forall st' l, lp_results st' = (lp_results st ++ [r]) ++ l -> rr_Route <$> l `sublist_of` r_Tag <$> rest ->
            exists l, lp_results st' = lp_results st ++ l /\ rr_Route <$> l `sublist_of` r_Tag route :: (r_Tag <$> rest)).
  { intros st' l E Hl. exists (r :: l). split; [by rewrite E, <- app_assoc|]. cbn. rewrite Hr. by apply sublist_skip. }
  assert (Hnil : forall st', lp_results st' = lp_results st ++ [r] ->
            exists l, lp_results st' = lp_results st ++ l /\ rr_Route <$> l `sublist_of` r_Tag route :: (r_Tag <$> rest)).
  { intros st' E. apply (Hone st' []); [by rewrite app_nil_r|apply sublist_nil_l]. }
  destruct (negb (probeResultTerminal r)); [by apply Hnil|].
  destruct (observe_same n r (set_lp_results (lp_results st ++ [r]) st)) as [(O1 & _) _].
  destruct (ctxErrAfter env n); [by apply Hnil|].
  destruct (afterProbe_spec n route r st) as (A1 & _). unfold afterProbe in A1.
  destruct (_ && _); [by apply Hnil|].
  destruct (IH (S n) (noteRegionalBlock route r (noteDirect route r (observe env cfg n r
    (set_lp_results (lp_results st ++ [r]) st))))) as (l & E & Hl).
  apply (Hone _ l); [by rewrite E, A1|done].
Qed.
End LoopFacts.

(** ** Checking a domain *)

Section CheckFacts.
Context {C : Type} `{DecisionCacheLaws C, MapIter Service}.
Context (digest : list Route -> Service -> Policy -> string -> list healthKey -> string).
Context (toASCII : string -> option string) (effectiveTLDPlusOne : string -> option string).
#[local] Notation CheckDomain := (CheckDomain digest toASCII effectiveTLDPlusOne).
#[local] Notation buildCandidates := (buildCandidates digest).

(** The service profile a check works on, its override attached. *)
Definition profileOf (cfg : Config) (domain serviceName : string) (opts : Options) : result serviceProfile :=
  profile ← resolveService toASCII effectiveTLDPlusOne (Some cfg) domain serviceName;
  attachPolicy toASCII cfg profile opts.

Definition finalLoop (env : Env) (cfg : Config) (profile : serviceProfile) (plan : CandidatePlan) (opts : Options)
    : loopState :=
  probeLoop env cfg profile plan (ActiveRevision opts) 0 (pl_Candidates plan)
    (mkLoop [] (p_service profile) (s_Category (p_service profile)) (HealthTracker opts) false false false true).

Lemma finalLoop_inv env cfg profile plan opts :
  loop_inv env profile plan (ActiveRevision opts) (finalLoop env cfg profile plan opts).
Proof. apply probeLoop_inv; [done|]. constructor; [|done..]. simpl. intros r Hr. by apply elem_of_nil in Hr. Qed.

(** The results a check returns, scored. *)
Definition scored (cfg : Config) (st : loopState) : list RouteResult :=
  map (scoreResult cfg (lp_service st) (lp_tracker st)) (lp_results st).

Definition winner (env : Env) (cfg : Config) (st : loopState) : option RouteResult :=
  SelectBestWithPolicy (c_Policy cfg) (lp_tracker st) (selectionClock env)
    (List.filter (resultAllowed cfg (lp_service st)) (scored cfg st)) (currentRouteOf (lp_service st) (lp_tracker st)).

Lemma verifyDomain_cases env cfg profile plan opts :
  let st := finalLoop env cfg profile plan opts in
  let out := (verifyDomain env cfg profile plan opts).2 in
  (verifyDomain env cfg profile plan opts).1 = lp_tracker st /\ ck_Cached out = false /\
  ck_TSPUStatus out = pl_TSPUStatus plan /\ ck_Category out = lp_category st /\
  if lp_allTerminal st then
    ck_Results out = scored cfg st /\ ck_Selected out = winner env cfg st /\
    ck_Status out = match winner env cfg st with
                    | None => "NO_SAFE_ROUTE"
                    | Some r => if rr_RouteType r =s "drop" then "DROP" else "SELECTED"
                    end /\
    ck_Reason out = match winner env cfg st with
                    | None => "no_verified_policy_allowed_route"
                    | Some r => if rr_RouteType r =s "drop" then "no_safe_route_drop_enforced"
                                else "best_verified_policy_allowed_route"
                    end
  else ck_Status out = "VERIFYING" /\ ck_Selected out = None.
Proof.
  cbv zeta. unfold verifyDomain, startCheck.
  destruct (classificationMetadata profile (TSPUResult opts)) as [[conf src] ev].
  cbn [ck_Category]. fold (finalLoop env cfg profile plan opts).
  set (st := finalLoop env cfg profile plan opts). destruct (lp_allTerminal st); simpl negb; cbv iota.
  - unfold concludeCheck. fold (scored cfg st). fold (winner env cfg st).
    destruct (classifyEvidence profile (scored cfg st) (pl_TSPUStatus plan)) as [cs cr].
    simpl fst. simpl snd. unfold setOutcome. destruct (winner env cfg st) as [r|]; [|by split_and!].
    destruct (rr_RouteType r =s "drop"); by split_and!.
  - by split_and!.
Qed.

(** The outcomes of a check that returns one. *)
Lemma CheckDomain_cases env cfg domain serviceName opts cache tracker cache' out err :
  CheckDomain env (Some cfg) domain serviceName opts cache = (tracker, cache', (out, err)) ->
  out = zero_Check /\ is_Some err \/
  exists profile, profileOf cfg domain serviceName opts = Ok profile /\
    let plan := buildCandidates cfg profile opts in
    ((exists c c1 d, cache = Some c /\ p_unknown profile = true /\ p_override profile = None /\
        ActiveRevision opts <> "" /\
        cache_Lookup (p_domain profile) (ActiveRevision opts) (clock env 0) c = (c1, Ok (Some d)) /\
        cachedCheck d plan profile (ActiveRevision opts) = Some out /\ err = None /\
        tracker = HealthTracker opts /\ cache' = Some c1) \/
     (tracker, out) = verifyDomain env cfg profile plan opts).
Proof.
  unfold Planner.CheckDomain. fold (profileOf cfg domain serviceName opts).
  destruct (profileOf cfg domain serviceName opts) as [profile|e] eqn:Ep;
    [|intros [= <- <- <- <-]; left; by split; [|eexists]].
  set (plan := Planner.buildCandidates digest cfg profile opts).
  set (cacheable := p_unknown profile && _ && _).
  assert (Hfresh : forall (ca : option C),
    (let '(tracker, out) := verifyDomain env cfg profile plan opts in
     if ck_Status out =s "VERIFYING" then (tracker, ca, (out, None))
     else match ca with
          | Some c =>
              if cacheable && (match ck_Selected out with Some _ => true | None => false end
                               || (ck_Status out =s "NO_SAFE_ROUTE")) then
                let '(c, saved) := cache_Save (p_domain profile)
                                     (decisionOf out profile plan (ActiveRevision opts)) c in
                (tracker, Some c, (out, match saved with Ok _ => None | Err e => Some e end))
              else (tracker, Some c, (out, None))
          | None => (tracker, None, (out, None))
          end) = (tracker, cache', (out, err)) -> (tracker, out) = verifyDomain env cfg profile plan opts).
  { intros ca. destruct (verifyDomain env cfg profile plan opts) as [tr o].
    destruct (ck_Status o =s "VERIFYING"); [by intros [= <- _ <- _]|].
    destruct ca as [c|]; [|by intros [= <- _ <- _]]. destruct (cacheable && _); [|by intros [= <- _ <- _]].
    destruct (cache_Save _ _ c) as [c' saved]. by intros [= <- _ <- _]. }
  destruct cache as [c|]; [|intros HX; right; exists profile; split; [done|]; right; exact (Hfresh None HX)].
  destruct cacheable eqn:Ec; [|intros HX; right; exists profile; split; [done|]; right; exact (Hfresh (Some c) HX)].
  unfold cachedAnswer.
  destruct (cache_Lookup (p_domain profile) (ActiveRevision opts) (clock env 0) c) as [c1 [[d|]|e]] eqn:EL.
  - destruct (cachedCheck d plan profile (ActiveRevision opts)) as [cached|] eqn:Ecc.
    + intros [= <- <- <- <-]. right. exists profile. split; [done|]. left. exists c, c1, d.
      unfold cacheable in Ec. bool_split. str_eq. destruct (p_override profile); by split_and!.
    + destruct (d_SelectedRoute d =s "").
      * destruct (cache_Discard (d_Key d) c1) as [c2 [e|]].
        -- intros [= <- <- <- <-]. left. by split; [|eexists].
        -- intros HX. right. exists profile. split; [done|]. right. exact (Hfresh (Some c2) HX).
      * intros HX. right. exists profile. split; [done|]. right. exact (Hfresh (Some c1) HX).
  - intros HX. right. exists profile. split; [done|]. right. exact (Hfresh (Some c1) HX).
  - intros [= <- <- <- <-]. left. by split; [|eexists].
Qed.

Lemma inPlan_true plan tag ty :
  inPlan plan tag ty = true <-> exists route, route ∈ pl_Candidates plan /\ r_Tag route = tag /\ r_Type route = ty.
Proof.
  unfold inPlan. rewrite any_true. split.
  - intros (x & Hx & E). bool_split. str_eq. eauto.
  - intros (x & Hx & <- & <-). exists x. by rewrite !String.eqb_refl.
Qed.

(** What selection establishes of a result that is not DROP. *)
Definition proven (plan : CandidatePlan) (rev : string) (r : RouteResult) : Prop :=
  verified r /\ (rev <> "" -> rr_AdapterRevision r = rev) /\ inPlan plan (rr_Route r) (rr_RouteType r) = true.

Lemma elem_of_scored cfg st r : r ∈ scored cfg st <->
  exists r0, r0 ∈ lp_results st /\ r = scoreResult cfg (lp_service st) (lp_tracker st) r0.
Proof. unfold scored. rewrite list_elem_of_fmap. naive_solver. Qed.

Lemma scored_proven env cfg profile plan opts r :
  let st := finalLoop env cfg profile plan opts in
  r ∈ scored cfg st -> selectionEvidence r = true -> rr_RouteType r <> "drop" ->
  proven plan (ActiveRevision opts) r.
Proof.
  cbv zeta. intros Hr Hev Hnd. pose proof (evidence_verified r Hev Hnd) as Hv. split; [done|].
  apply elem_of_scored in Hr as (r0 & Hr0 & ->).
  destruct (scoreResult_fields cfg (lp_service (finalLoop env cfg profile plan opts))
              (lp_tracker (finalLoop env cfg profile plan opts)) r0) as (_ & -> & -> & -> & Ep & _).
  destruct (li_probed _ _ _ _ _ (finalLoop_inv env cfg profile plan opts) _ Hr0) as (route & Hin & n & svc & _ & E).
  assert (Hpv : rr_PathVerified r0 = true) by (rewrite <- Ep; apply Hv).
  rewrite E in Hpv. destruct (bind_verified _ _ _ Hpv) as (E1 & E2 & E3). rewrite <- E in E1, E2, E3.
  split; [done|]. apply inPlan_true. eauto.
Qed.

Lemma winner_allowed env cfg st r : winner env cfg st = Some r ->
  r ∈ scored cfg st /\ selectionEvidence r = true /\ resultAllowed cfg (lp_service st) r = true.
Proof.
  intros Hw. apply SelectBest_selectable, elem_of_selectable in Hw as (Hr & Hev & _).
  rewrite elem_of_filter_b in Hr. tauto.
Qed.

Lemma resultAllowed_true cfg service r : resultAllowed cfg service r = true ->
  exists route, routeForResult cfg r = Some route /\ PathAllowed service route (c_Policy cfg) = true /\
    selectionEvidence r = true /\
    (s_RequireNonRUEgress service = true -> r_Type route <> "drop" -> nonRUEgress r = true).
Proof.
  unfold resultAllowed. destruct (routeForResult cfg r) as [route|]; [|done]. intros Ha. exists route.
  bool_split. split_and!; try done. intros Hs Hd. by rewrite Hs, (proj2 (String.eqb_neq _ _) Hd) in *.
Qed.

Lemma cachedCheck_spec d plan profile rev out : cachedCheck d plan profile rev = Some out ->
  d_AdapterRevision d = rev /\ d_CandidateInventoryHash d = pl_InventoryHash plan /\
  ck_CandidateInventoryHash out = d_CandidateInventoryHash d /\
  ck_Cached out = true /\ ck_ExpiresAt out = d_ExpiresAt d /\ ck_Results out = d_Results d /\
  (forall r, ck_Selected out = Some r -> r ∈ d_Results d /\ selectionEvidence r = true /\
     inPlan plan (rr_Route r) (rr_RouteType r) = true /\ rr_AdapterRevision r = rev).
Proof.
  unfold cachedCheck. destruct (_ || _ || _) eqn:E1; [done|].
  destruct ((d_CandidateInventoryHash d =s "") || _) eqn:E2; [done|]. bool_split. str_eq.
  assert (Hout : ck_CandidateInventoryHash (checkOfDecision d plan profile) = d_CandidateInventoryHash d /\
            ck_Cached (checkOfDecision d plan profile) = true /\
            ck_ExpiresAt (checkOfDecision d plan profile) = d_ExpiresAt d /\
            ck_Results (checkOfDecision d plan profile) = d_Results d /\
            ck_Selected (checkOfDecision d plan profile) = None).
  { unfold checkOfDecision. destruct (classificationMetadata profile _) as [[? ?] ?]. by destruct (_ || _ || _). }
  destruct Hout as (O0 & O1 & O2 & O3 & O4).
  destruct (S.EqualFold _ _).
  { destruct (validCachedNoSafeRoute d plan); [|done]. intros [= <-]. split_and!; try done.
    intros r Hr. change (ck_Selected (checkOfDecision d plan profile) = Some r) in Hr. congruence. }
  destruct (d_SelectedRoute d =s ""); [done|]. destruct (inPlan plan _ _) eqn:Ein; [|done]. simpl.
  destruct (first _ _) as [x|] eqn:Ef; [|done]. apply first_Some in Ef as [Hx Hp]. bool_split. str_eq.
  intros [= <-]. split_and!; try done. intros r [= <-]. split_and!; [done|done|congruence|congruence].
Qed.

(** C6: the planner only selects a route it has verified.  When [CheckDomain]
    returns a selected result, whether probed now or taken from the cache, the
    result has selection evidence; unless it is DROP it satisfies the complete
    success contract (not simulated, status OK, path and service verified, no
    regional, authentication or WAF answer), under the active revision, for a
    candidate of the plan.  A cached answer is unexpired and was computed for
    the same candidate inventory; a fresh one satisfies [PathAllowed] for the
    service, after a regional denial the service turned GEO_LOCKED, and leaves
    Russia by consensus where the service requires it. *)
Theorem CheckDomain_selects_verified env cfg domain serviceName opts cache tracker cache' out err r :
  match cache with Some c => cache_ok c | None => True end ->
  CheckDomain env (Some cfg) domain serviceName opts cache = (tracker, cache', (out, err)) ->
  ck_Selected out = Some r ->
  selectionEvidence r = true /\
  exists profile, profileOf cfg domain serviceName opts = Ok profile /\
    let plan := buildCandidates cfg profile opts in
    (rr_RouteType r <> "drop" -> proven plan (ActiveRevision opts) r) /\
    (if ck_Cached out
     then clock env 0 < ck_ExpiresAt out /\ ck_CandidateInventoryHash out = pl_InventoryHash plan
     else exists service route,
       (service = p_service profile \/ service = geoLocked (p_service profile)) /\
       ck_Category out = s_Category service /\
       routeForResult cfg r = Some route /\ PathAllowed service route (c_Policy cfg) = true /\
       (s_RequireNonRUEgress service = true -> r_Type route <> "drop" -> nonRUEgress r = true)).
Proof.
  intros Hok HCheck Hsel. apply CheckDomain_cases in HCheck as [[-> _]|(profile & Hp & HCheck)]; [done|].
  cbv zeta in HCheck. set (plan := Planner.buildCandidates digest cfg profile opts) in *.
  destruct HCheck as [(c & c1 & d & -> & _ & _ & Hrev & HL & Hc & _)|HCheck].
  - destruct (cachedCheck_spec _ _ _ _ _ Hc) as (E1 & E2 & E2' & E3 & E4 & E5 & Hr).
    destruct (Hr r Hsel) as (_ & Hev & Hin & Hrr). split; [done|]. exists profile. split; [done|]. fold plan.
    split; [intros Hnd; split_and!; [by apply evidence_verified|done|done]|].
    rewrite E3, E4. destruct (Lookup_fresh _ _ _ _ _ _ Hok HL) as [Hexp _]. split; [done|].
    by rewrite E2', E2.
  - destruct (verifyDomain_cases env cfg profile plan opts) as (_ & V2 & _ & V4 & V5).
    rewrite <- HCheck in V2, V4, V5. simpl in V2, V4, V5. rewrite V2.
    pose proof (finalLoop_inv env cfg profile plan opts) as HI.
    set (st := finalLoop env cfg profile plan opts) in *.
    destruct (lp_allTerminal st); [|destruct V5; congruence]. destruct V5 as (_ & V6 & _).
    rewrite V6 in Hsel. apply winner_allowed in Hsel as (Hr & Hev & Hall). split; [done|].
    exists profile. split; [done|]. fold plan. split; [by eapply scored_proven|].
    apply resultAllowed_true in Hall as (route & Hroute & Hpath & _ & Hru).
    exists (lp_service st), route. split_and!; try done.
    + rewrite (li_service _ _ _ _ _ HI). destruct (lp_regionalBlock st); auto.
    + by rewrite V4, (li_category _ _ _ _ _ HI).
Qed.

(** *** Terminal exhaustion *)

Definition same_report (r r' : RouteResult) : Prop :=
  rr_Route r' = rr_Route r /\ rr_RouteType r' = rr_RouteType r /\ looksLikeTSPU r' = looksLikeTSPU r /\
  directRegionalBlock r' = directRegionalBlock r /\ probeResultTerminal r' = probeResultTerminal r /\
  directRegionalDenial r' = directRegionalDenial r.
Lemma scored_same cfg st r : same_report r (scoreResult cfg (lp_service st) (lp_tracker st) r).
Proof. unfold scoreResult, same_report. destruct (routeForResult cfg r); [|done]. by destruct (_ && _). Qed.

Lemma scored_any cfg st p : (forall r r', same_report r r' -> p r' = p r) ->
  any p (scored cfg st) = any p (lp_results st).
Proof.
  intros Hp. unfold scored. induction (lp_results st) as [|r l IH]; [done|]. simpl.
  by rewrite IH, (Hp _ _ (scored_same cfg st r)).
Qed.

Lemma scored_order cfg profile plan st :
  probe_order cfg profile plan (lp_results st) -> probe_order cfg profile plan (scored cfg st).
Proof.
  intros Ho pre r post E. unfold scored in E. apply map_eq_app in E as (pre0 & rest & E & <- & E').
  destruct rest as [|r0 post0]; [done|]. injection E' as <- <-.
  destruct (Ho _ _ _ E) as [O1 O2]. destruct (scored_same cfg st r0) as (_ & Ety & _).
  rewrite Ety. split.
  - intros Hty. rewrite <- (O1 Hty). clear. induction pre0 as [|x l IH]; [done|]. simpl.
    destruct (scored_same cfg st x) as (_ & _ & _ & E & _). by rewrite E, IH.
  - intros Hty Hg. destruct (O2 Hty Hg) as (d & Hd & E1 & E2).
    exists (scoreResult cfg (lp_service st) (lp_tracker st) d). destruct (scored_same cfg st d) as (_ & -> & -> & _).
    split; [|done]. by apply list_elem_of_fmap_2.
Qed.

Lemma finalLoop_order env cfg profile plan opts : prober_names env profile ->
  lp_allTerminal (finalLoop env cfg profile plan opts) = true ->
  order_inv cfg profile plan (finalLoop env cfg profile plan opts).
Proof.
  intros Hn Ht. apply probeLoop_order; [done|done|]. constructor; [|done|done].
  intros pre r post E. by destruct pre.
Qed.

(** A candidate settled by the results: a terminal result of its own, or one
    of the planner's two reasons not to probe it. *)
Definition settled (cfg : Config) (profile : serviceProfile) (plan : CandidatePlan) (results : list RouteResult)
    (route : Route) : Prop :=
  (exists r, r ∈ results /\ names r route /\ probeResultTerminal r = true) \/
  (any directRegionalBlock results = true /\ (r_Type route = "direct" \/ r_Type route = "zapret")) \/
  (r_Type route = "zapret" /\ zapretGuarded cfg profile plan).

Lemma finalLoop_settled env cfg profile plan opts route :
  let st := finalLoop env cfg profile plan opts in
  prober_names env profile -> p_override profile = None -> lp_allTerminal st = true ->
  route ∈ pl_Candidates plan -> settled cfg profile plan (scored cfg st) route.
Proof.
  cbv zeta. intros Hn Hov Ht Hin. pose proof (finalLoop_order _ _ _ _ _ Hn Ht) as HO.
  destruct (probeLoop_complete env cfg profile plan (ActiveRevision opts) 0 (pl_Candidates plan) _ Hov Ht)
    as (_ & _ & Hall).
  fold (finalLoop env cfg profile plan opts) in Hall. set (st := finalLoop env cfg profile plan opts) in *.
  destruct (Hall route Hin) as [[[Hb Hty]|(_ & Hty & Hc & Hz)]|(r & Hr & (n & svc & E) & Hterm)].
  - right; left. split; [|done]. rewrite scored_any by (intros ? ? (_ & _ & _ & E & _); done).
    by rewrite <- (oi_regional _ _ _ _ HO).
  - by right; right.
  - left. exists (scoreResult cfg (lp_service st) (lp_tracker st) r).
    destruct (scored_same cfg st r) as (E1 & E2 & _ & _ & E5 & _).
    split; [by apply list_elem_of_fmap_2|]. split; [|by rewrite E5].
    unfold names. rewrite E1, E2, E. apply bind_names, Hn.
Qed.

(** C15: NO_SAFE_ROUTE is never reported early, and probes respect their order.
    When a check that was not answered from the cache reports NO_SAFE_ROUTE for
    a domain without a manual override (and the prober reports the routes it
    was asked to probe), no result qualifies for selection; every candidate of
    the plan has a terminal result or was left out for one of the two reasons
    the planner has, a direct regional denial (Direct and Zapret) or a guarded
    Zapret route; no Direct or Zapret probe came after the denial; and each
    guarded Zapret probe came after a direct result that looked like TSPU. *)
Theorem no_safe_route_is_exhaustive env cfg domain serviceName opts cache tracker cache' out err profile :
  CheckDomain env (Some cfg) domain serviceName opts cache = (tracker, cache', (out, err)) ->
  ck_Cached out = false -> ck_Status out = "NO_SAFE_ROUTE" ->
  profileOf cfg domain serviceName opts = Ok profile -> p_override profile = None -> prober_names env profile ->
  let plan := buildCandidates cfg profile opts in
  (exists service, ck_Category out = s_Category service /\
     forall r, r ∈ ck_Results out -> resultAllowed cfg service r = false) /\
  (forall route, route ∈ pl_Candidates plan -> settled cfg profile plan (ck_Results out) route) /\
  probe_order cfg profile plan (ck_Results out).
Proof.
  intros HCheck Hcached Hstatus Hprofile Hov Hn. cbv zeta.
  apply CheckDomain_cases in HCheck as [[-> _]|(profile' & Hp & HCheck)]; [done|].
  assert (profile' = profile) as -> by congruence. cbv zeta in HCheck.
  set (plan := Planner.buildCandidates digest cfg profile opts) in *.
  destruct HCheck as [(c & c1 & d & _ & _ & _ & _ & _ & Hc & _)|HCheck].
  { apply cachedCheck_spec in Hc as (_ & _ & _ & Hc & _). congruence. }
  destruct (verifyDomain_cases env cfg profile plan opts) as (_ & _ & _ & V4 & V5).
  rewrite <- HCheck in V4, V5. simpl in V4, V5.
  pose proof (fun route => finalLoop_settled env cfg profile plan opts route Hn Hov) as HS.
  pose proof (finalLoop_order env cfg profile plan opts Hn) as HO.
  pose proof (finalLoop_inv env cfg profile plan opts) as HI.
  set (st := finalLoop env cfg profile plan opts) in *.
  destruct (lp_allTerminal st); [|destruct V5; congruence]. destruct V5 as (-> & _ & V7 & _).
  split_and!; [|intros route Hr; by apply HS|by apply scored_order, HO].
  exists (lp_service st). split; [by rewrite V4, (li_category _ _ _ _ _ HI)|]. intros r Hr.
  destruct (winner env cfg st) as [w|] eqn:Ew.
  { rewrite V7 in Hstatus. by destruct (rr_RouteType w =s "drop"). }
  destruct (resultAllowed cfg (lp_service st) r) eqn:Ea; [exfalso|done].
  pose proof (proj1 (SelectBest_None _ _ _ _ _) Ew r) as Hev.
  rewrite elem_of_filter_b in Hev.
  destruct (resultAllowed_true _ _ _ Ea) as (_ & _ & _ & Hev' & _). rewrite Hev in Hev'; done.
Qed.
End CheckFacts.
