(* ===== verification/PlannerPlan.v ===== *)
(** * Plans and their cached decisions

    Theorems on [Planner]: which routes a plan collects, the stability of its
    inventory hash, and when the decision stored after a check answers the next
    one.  Also the concrete inputs at which the planner's theorems are applied. *)
From Stdlib Require Import ZArith Lia SpecFloat.
From stdpp Require Import base list strings gmap sorting.
From S2P Require Import Prelude Float64 Config Tspu Override Health Interfaces DomainCache Planner PlannerProofs.

Open Scope Z_scope.

(** ** Collected candidates *)

Lemma elem_of_RoutesByType cfg ty route :
  route ∈ RoutesByType cfg ty <-> route ∈ c_Routes cfg /\ r_Type route = ty /\ Enabled route = true.
Proof.
  unfold RoutesByType. rewrite elem_of_filter_b, andb_true_iff, String.eqb_eq. tauto.
Qed.

Lemma orderByHealth_perm ty health routes : orderByHealth ty health routes ≡ₚ routes.
Proof.
  unfold orderByHealth, OrderVLESS, OrderSmartDNS.
  destruct (ty =s "vless"), (ty =s "smart_dns"), health; rewrite ?gosort_perm; done.
Qed.

Section Collected.
Context (cfg : Config) (profile : serviceProfile) (opts : Options).
#[local] Notation allowed := (fun route => PathAllowed (p_service profile) route (c_Policy cfg) = true).

Definition default_drop : Route := mkRoute "drop" "drop" 1000 false "" "" false "" false.
Definition is_system_default (route : Route) : Prop :=
  p_unknown profile = true /\ exists priority, route = mkRoute "direct" "system-default" priority false "" "" false "system_default" true.

(** Tags are unique, and the two synthetic tags are not taken by routes of
    another kind ([Validate] rejects duplicate tags). *)
Record tags_unique : Prop := {
  tu_nodup : NoDup (r_Tag <$> c_Routes cfg);
  tu_named : "" ∉ r_Tag <$> c_Routes cfg;
  tu_default : "system-default" ∉ r_Tag <$> c_Routes cfg;
  tu_drop route : route ∈ c_Routes cfg -> r_Tag route = "drop" -> r_Type route = "drop"
}.

(** Where a candidate comes from, once the types of [done] are collected. *)
Definition origin (done : list string) (route : Route) : Prop :=
  (route ∈ c_Routes cfg /\ r_Type route ∈ done) \/ is_system_default route \/
  (route = default_drop /\ "drop" ∈ done).

Record collected (done : list string) (acc : list Route * gset string) : Prop := {
  co_seen : acc.2 = list_to_set (r_Tag <$> acc.1);
  co_origin route : route ∈ acc.1 -> origin done route /\ Enabled route = true /\
                                     (is_system_default route \/ allowed route);
  co_nodup : NoDup (r_Tag <$> acc.1);
  co_complete route : route ∈ c_Routes cfg -> Enabled route = true -> allowed route -> r_Type route ∈ done ->
    r_Tag route ∈ r_Tag <$> acc.1
}.

Lemma selectedRouteOf_spec route : tags_unique -> selectedRouteOf cfg profile = Some route ->
  route ∈ c_Routes cfg /\ allowed route.
Proof.
  intros Hu. unfold selectedRouteOf, RouteByTag. destruct (first _ _) as [r|] eqn:Ef; [|done].
  apply first_Some in Ef as [Hin Htag]. str_eq.
  assert (Hne : s_SelectedRouteTag (p_service profile) <> "").
  { intros E. apply (tu_named Hu). rewrite <- E, <- Htag. by apply list_elem_of_fmap_2. }
  rewrite (proj2 (String.eqb_neq _ _) Hne). simpl.
  destruct (PathAllowed _ r _) eqn:Ea; [|done]. by intros [= <-].
Qed.

(** Adding one type's routes, the selected route possibly first. *)
Lemma addCandidates_fold (routes : list Route) acc :
  let out := foldl (addCandidate cfg profile) acc routes in
  acc.2 = list_to_set (r_Tag <$> acc.1) ->
  out.2 = list_to_set (r_Tag <$> out.1) /\
  (NoDup (r_Tag <$> acc.1) -> NoDup (r_Tag <$> out.1)) /\
  (forall route, route ∈ out.1 -> route ∈ acc.1 \/ route ∈ routes /\ allowed route) /\
  (forall tag, tag ∈ r_Tag <$> acc.1 -> tag ∈ r_Tag <$> out.1) /\
  (forall route, route ∈ routes -> allowed route -> r_Tag route ∈ r_Tag <$> out.1).
Proof.
  cbv zeta. revert acc; induction routes as [|route routes IH]; intros acc Hseen; simpl.
  { split_and!; auto. intros route Hr. by apply elem_of_nil in Hr. }
  assert (Hstep : let acc' := addCandidate cfg profile acc route in
            acc'.2 = list_to_set (r_Tag <$> acc'.1) /\ (NoDup (r_Tag <$> acc.1) -> NoDup (r_Tag <$> acc'.1)) /\
            (forall x, x ∈ acc'.1 -> x ∈ acc.1 \/ x = route /\ allowed route) /\
            (forall tag, tag ∈ r_Tag <$> acc.1 -> tag ∈ r_Tag <$> acc'.1) /\
            (allowed route -> r_Tag route ∈ r_Tag <$> acc'.1)).
  { cbv zeta. unfold addCandidate. destruct acc as [cs seen]. simpl in *. subst seen.
    case_bool_decide as Hin; simpl.
    - apply elem_of_list_to_set in Hin. split_and!; auto.
    - rewrite elem_of_list_to_set in Hin. destruct (PathAllowed _ route _) eqn:Ea; simpl; [|split_and!; auto; done].
      rewrite fmap_app. split_and!.
      + rewrite list_to_set_app_L. simpl. set_solver.
      + intros Hnd. apply NoDup_app. split_and!; [done| |apply NoDup_singleton].
        intros x Hx ->%list_elem_of_singleton. done.
      + intros x. rewrite elem_of_app, list_elem_of_singleton. intros [|]; auto.
      + intros tag Ht. rewrite elem_of_app. by left.
      + intros _. rewrite elem_of_app. right. apply list_elem_of_singleton. done. }
  cbv zeta in Hstep. destruct Hstep as (S1 & S2 & S3 & S4 & S5).
  destruct (IH _ S1) as (I1 & I2 & I3 & I4 & I5). split_and!; [done|auto| |auto|].
  - intros x Hx. destruct (I3 x Hx) as [Hx'|[? ?]]; [|by right; split; [right|]].
    destruct (S3 x Hx') as [|[-> ?]]; [by left|right; split; [left|done]].
  - intros x [->|Hx]%elem_of_cons Ha; auto.
Qed.

Lemma origin_weaken done ty route : origin done route -> origin (done ++ [ty]) route.
Proof. unfold origin. rewrite !elem_of_app. naive_solver. Qed.

(** The selected route is new to its type's collection. *)
Lemma selected_fresh done acc ty selected :
  tags_unique -> collected done acc -> ty ∉ done -> selected ∈ c_Routes cfg -> r_Type selected = ty ->
  r_Tag selected ∉ r_Tag <$> acc.1.
Proof.
  intros Hu Hco Hty Hin Hsty (x & E & Hx)%list_elem_of_fmap.
  destruct (co_origin _ _ Hco _ Hx) as [[[Hx' Hdone]|[(_ & p & ->)|[-> Hdone]]] _].
  - assert (selected = x) as -> by (by apply (unique_key r_Tag (c_Routes cfg)); [apply Hu|..]). by rewrite Hsty in Hdone.
  - apply (tu_default Hu). change "system-default" with (r_Tag (mkRoute "direct" "system-default" p false "" "" false "system_default" true)).
    rewrite <- E. by apply list_elem_of_fmap_2.
  - apply (tu_drop Hu) in E; [|done]. congruence.
Qed.

Lemma collectType_spec done acc ty :
  tags_unique -> collected done acc -> ty ∉ done ->
  collected (done ++ [ty]) (collectType cfg profile opts acc ty).
Proof.
  intros Hu Hco Hty. unfold collectType.
  set (routes0 := match RoutesByType cfg ty with [] => _ | _ => _ end).
  set (routes := orderByHealth ty (HealthTracker opts) routes0).
  set (acc' := match selectedRouteOf cfg profile with Some selected => _ | None => acc end).
  assert (Hroutes : forall route, route ∈ routes ->
            origin (done ++ [ty]) route /\ Enabled route = true).
  { intros route. unfold routes. rewrite orderByHealth_perm. unfold routes0, origin. rewrite !elem_of_app, !list_elem_of_singleton.
    destruct (RoutesByType cfg ty) as [|r l] eqn:E.
    - destruct (ty =s "drop") eqn:Ed; str_eq; [|by intros Hr%elem_of_nil].
      intros ->%list_elem_of_singleton. split; [|done]. right; right. split; [done|by right].
    - rewrite <- E, elem_of_RoutesByType. intros (? & ? & ?). split; [|done]. left. split; [done|by right]. }
  assert (Hacc' : acc'.2 = list_to_set (r_Tag <$> acc'.1) /\ NoDup (r_Tag <$> acc'.1) /\
            (forall route, route ∈ acc'.1 -> route ∈ acc.1 \/
               (route ∈ c_Routes cfg /\ r_Type route = ty /\ Enabled route = true /\ allowed route)) /\
            (forall tag, tag ∈ r_Tag <$> acc.1 -> tag ∈ r_Tag <$> acc'.1)).
  { destruct Hco as [C1 C2 C3 C4]. unfold acc'. destruct (selectedRouteOf cfg profile) as [sel|] eqn:Es; [|by split_and!; auto].
    destruct ((r_Type sel =s ty) && Enabled sel) eqn:Et; [|by split_and!; auto]. bool_split. str_eq.
    destruct (selectedRouteOf_spec sel Hu Es) as [Hin Ha].
    pose proof (selected_fresh done acc ty sel Hu ltac:(by constructor) Hty Hin ltac:(done)) as Hfresh.
    simpl. rewrite fmap_app. split_and!.
    - rewrite C1, list_to_set_app_L. simpl. by rewrite union_empty_r_L, (union_comm_L {[_]}).
    - apply NoDup_app. split_and!; [done| |apply NoDup_singleton]. intros x Hx ->%list_elem_of_singleton. done.
    - intros x. rewrite elem_of_app, list_elem_of_singleton. intros [| ->]; [by left|by right].
    - intros tag Ht. rewrite elem_of_app. by left. }
  clearbody acc'. destruct Hacc' as (A1 & A2 & A3 & A4).
  destruct (addCandidates_fold routes acc' A1) as (F1 & F2 & F3 & F4 & F5).
  constructor; [done| |auto|].
  - intros route Hr. destruct (F3 _ Hr) as [Hr'|[Hr' Ha]].
    + destruct (A3 _ Hr') as [Hacc|(? & Ht & ? & ?)].
      * destruct (co_origin _ _ Hco _ Hacc) as (? & ? & ?). split_and!; [by apply origin_weaken|done|done].
      * split_and!; [|done|by right]. left. rewrite elem_of_app, list_elem_of_singleton. auto.
    + destruct (Hroutes _ Hr'). split_and!; [done|done|by right].
  - intros route Hin Hen Ha. rewrite elem_of_app, list_elem_of_singleton. intros [Hd|Ht].
    + by apply F4, A4, (co_complete _ _ Hco).
    + apply F5; [|done]. unfold routes. rewrite orderByHealth_perm. unfold routes0.
      assert (Hr : route ∈ RoutesByType cfg ty) by (by apply elem_of_RoutesByType).
      destruct (RoutesByType cfg ty); [by apply elem_of_nil in Hr|done].
Qed.

Lemma collectTypes_spec types done acc :
  tags_unique -> collected done acc -> NoDup (done ++ types) ->
  collected (done ++ types) (foldl (collectType cfg profile opts) acc types).
Proof.
  intros Hu. revert done acc; induction types as [|ty types IH]; intros done acc Hco Hnd; simpl.
  { by rewrite app_nil_r. }
  rewrite cons_middle, app_assoc in *. apply IH; [|done]. apply collectType_spec; [done|done|].
  rewrite <- app_assoc in Hnd. apply NoDup_app in Hnd as (_ & Hd & _). intros Hin. apply (Hd ty Hin). left.
Qed.

Lemma systemDefault_spec mode status route : route ∈ systemDefault cfg profile mode status ->
  is_system_default route /\ p_unknown profile = true /\ mode = "balanced" /\
  tspuStartsWithZapret status (TSPUStalePolicy (c_Policy cfg)) = false.
Proof.
  unfold systemDefault. destr_if; [|by intros Hr%elem_of_nil]. bool_split. str_eq.
  destruct (first _ _) as [r|]; [|by intros Hr%elem_of_nil].
  intros ->%list_elem_of_singleton. split_and!; try done. split; [done|by eexists].
Qed.

Lemma eligible_nodup category status stale : NoDup (eligibleRouteTypesForService category status stale).
Proof.
  unfold eligibleRouteTypesForService. repeat destr_if; apply (bool_decide_unpack _); by vm_compute.
Qed.
Lemma collectTypes_nodup status : NoDup (collectTypes cfg profile status).1.
Proof.
  unfold collectTypes. destruct (p_unknown profile); simpl; [|apply eligible_nodup].
  repeat destr_if; [|apply NoDup_singleton|apply eligible_nodup].
  pose proof (eligible_nodup (s_Category (p_service profile)) status (TSPUStalePolicy (c_Policy cfg))) as Hnd.
  induction Hnd as [|x l Hx Hnd IH]; simpl; [constructor|]. destr_if; [|done]. constructor; [|done].
  intros Hin. by apply elem_of_filter_b in Hin as [? _].
Qed.

Lemma collectCandidates_spec status : tags_unique ->
  exists seen, collected (collectTypes cfg profile status).1 (collectCandidates cfg profile opts status, seen).
Proof.
  intros Hu. unfold collectCandidates. pose proof (collectTypes_nodup status) as Hnd.
  destruct (collectTypes cfg profile status) as [types mode] eqn:Et. simpl in *.
  set (acc0 := (systemDefault cfg profile mode status, _)).
  assert (Hco : collected [] acc0).
  { constructor; simpl; [done| | |intros ? ? ? ? Hx; by apply elem_of_nil in Hx].
    - intros route Hr. apply systemDefault_spec in Hr as (Hsys & _). split_and!; [by right; left| |by left].
      by destruct Hsys as (_ & p & ->).
    - unfold systemDefault. destr_if; [|constructor]. destruct (first _ _); [apply NoDup_singleton|constructor]. }
  pose proof (collectTypes_spec types [] acc0 Hu Hco Hnd) as Hfin. simpl in Hfin.
  exists (foldl (collectType cfg profile opts) acc0 types).2.
  by destruct (foldl (collectType cfg profile opts) acc0 types).
Qed.
End Collected.

Section Plans.
Context `{MapIter Service}.
Context (digest : list Route -> Service -> Policy -> string -> list healthKey -> string).
Context (toASCII : string -> option string) (effectiveTLDPlusOne : string -> option string).
#[local] Notation profileOf := (profileOf toASCII effectiveTLDPlusOne).
#[local] Notation buildCandidates := (buildCandidates digest).

Lemma profileOf_unknown cfg domain serviceName opts profile :
  profileOf cfg domain serviceName opts = Ok profile -> p_unknown profile = true ->
  exists n base, p_service profile = unknownService n base.
Proof.
  unfold PlannerProofs.profileOf, resolveService, attachPolicy.
  destruct (NormalizeDomain toASCII domain) as [n|]; [|done]. intros Hp Hu. simpl in Hp.
  assert (Hor : forall p : serviceProfile, (m ← Override.Match toASCII (Some cfg) (p_domain p) (DeviceMAC opts) (p_name p)
              (s_Category (p_service p)); Ok (match m with Some m => set_p_override (Some m) p | None => p end)) = Ok profile ->
            p_service profile = p_service p /\ p_unknown profile = p_unknown p).
  { intros p. destruct (Override.Match _ _ _ _ _ _) as [[m|]|e]; [by intros [= <-]..|done]. }
  destruct (c_Services cfg !! serviceName); [destruct (Hor _ Hp) as [_ E]; simpl in E; congruence|].
  destruct (ServiceForDomain _ n <>s ""); destruct (Hor _ Hp) as [E1 E2]; simpl in *; [congruence|eauto].
Qed.

Lemma unknown_direct_allowed n base policy route :
  r_Type route = "direct" -> PathAllowed (unknownService n base) route policy = true.
Proof. intros E. unfold PathAllowed, unknownService. rewrite E. reflexivity. Qed.

Lemma plan_candidates cfg profile opts : p_override profile = None ->
  pl_Candidates (buildCandidates cfg profile opts) = collectCandidates cfg profile opts (normalizedTSPUStatus opts).
Proof. unfold Planner.buildCandidates. by intros ->. Qed.

(** A plan is exactly the policy's eligible routes.  Without a manual
    override the candidates of [buildCandidates] have distinct tags, and each
    is enabled, satisfies [PathAllowed] for the service, and is a configured
    route of an eligible type, the default DROP, or the unmanaged default path
    of an unknown domain; conversely every enabled and allowed route of an
    eligible type is a candidate.  In particular no candidate of a
    TSPU_RESTRICTED service is direct. *)
Theorem candidates_are_eligible cfg domain serviceName opts profile :
  profileOf cfg domain serviceName opts = Ok profile -> p_override profile = None -> tags_unique cfg ->
  let plan := buildCandidates cfg profile opts in
  let types := (collectTypes cfg profile (pl_TSPUStatus plan)).1 in
  NoDup (r_Tag <$> pl_Candidates plan) /\
  (forall route, route ∈ pl_Candidates plan ->
     Enabled route = true /\ PathAllowed (p_service profile) route (c_Policy cfg) = true /\
     (route ∈ c_Routes cfg /\ r_Type route ∈ types \/ route = default_drop /\ "drop" ∈ types \/
      is_system_default profile route)) /\
  (forall route, route ∈ c_Routes cfg -> Enabled route = true -> r_Type route ∈ types ->
     PathAllowed (p_service profile) route (c_Policy cfg) = true -> r_Tag route ∈ r_Tag <$> pl_Candidates plan) /\
  (s_Category (p_service profile) = "TSPU_RESTRICTED" ->
     forall route, route ∈ pl_Candidates plan -> r_Type route <> "direct").
Proof.
  intros Hprofile Hov Hu. cbv zeta. rewrite plan_candidates by done.
  change (pl_TSPUStatus (buildCandidates cfg profile opts)) with (normalizedTSPUStatus opts).
  destruct (collectCandidates_spec cfg profile opts (normalizedTSPUStatus opts) Hu) as [seen Hco].
  assert (Hallowed : forall route, route ∈ collectCandidates cfg profile opts (normalizedTSPUStatus opts) ->
            PathAllowed (p_service profile) route (c_Policy cfg) = true).
  { intros route Hr. destruct (co_origin _ _ _ _ Hco route Hr) as (_ & _ & [Hsys|]); [|done].
    destruct Hsys as (Eu & p & ->). destruct (profileOf_unknown _ _ _ _ _ Hprofile Eu) as (n & base & ->).
    by apply unknown_direct_allowed. }
  split_and!; [apply Hco| | |].
  - intros route Hr. destruct (co_origin _ _ _ _ Hco route Hr) as (Ho & He & _).
    split_and!; [done|by apply Hallowed|]. destruct Ho as [|[|]]; auto.
  - intros route Hin He Ht Ha. by apply (co_complete _ _ _ _ Hco).
  - intros Hc route Hr Hd. pose proof (Hallowed route Hr) as Ha. unfold PathAllowed in Ha.
    by rewrite Hc, Hd in Ha.
Qed.
End Plans.

(** ** The inventory hash *)

Definition coarse (h : RouteHealth) : healthKey :=
  mkHealthKey (h_RouteTag h) (h_State h) (h_Role h) (h_LastStatus h).

Lemma healthKeys_perm t :
  map coarse (Health.Snapshot t) ≡ₚ map snd (map_to_list (coarse <$> t)).
Proof.
  unfold Health.Snapshot. change (map coarse ?l) with (coarse <$> l). rewrite gosort_perm.
  rewrite map_to_list_fmap. change (map snd ?l) with (snd <$> l).
  rewrite <- !list_fmap_compose. apply Permutation_refl'. apply list_fmap_ext. by intros ? [].
Qed.

#[local] Instance StrictWeak_inventory : StrictWeak inventoryOrder.
Proof. apply StrictWeak_then_by; auto with flint. Qed.

(** A cached decision survives exactly the changes that cannot matter.  The
    inventory hash does not depend on the order of the candidates (which follows
    health), nor on the counters, latencies and times of the health records: two
    trackers with the same state, role and last status per route, and the same
    candidates in any order, give the same hash. *)
Theorem inventory_hash_stable digest cands cands' service policy status t t' :
  cands ≡ₚ cands' -> NoDup (r_Tag <$> cands) ->
  wf_tracker t -> coarse <$> t = coarse <$> t' ->
  hashCandidateInventory digest cands service policy status (Some t) =
  hashCandidateInventory digest cands' service policy status (Some t').
Proof.
  intros HP Hnd Hwf Ht. unfold hashCandidateInventory. f_equal.
  - apply gosort_unique; [apply _| |done]. intros x y Hx Hy L1 L2.
    apply (unique_key r_Tag cands); try done. unfold inventoryOrder, then_by, same_s, key_slt in L1, L2.
    rewrite (String.eqb_sym (r_Type y)) in L2. destruct (r_Type x =s r_Type y) eqn:E.
    + by apply ltb_total.
    + str_eq. by destruct (E (ltb_total _ _ L1 L2)).
  - unfold healthKeys. apply gosort_unique; [apply _|..].
    + intros x y Hx Hy L1 L2. assert (E : hk_RouteTag x = hk_RouteTag y) by (by apply ltb_total).
      assert (Hkey : forall z, z ∈ map coarse (Health.Snapshot t) -> exists h, t !! hk_RouteTag z = Some h /\ z = coarse h).
      { intros z (h & -> & Hh)%list_elem_of_fmap. apply elem_of_Snapshot in Hh as (tag & Hh).
        exists h. split; [|done]. simpl. by destruct (Hwf _ _ Hh) as (-> & _). }
      destruct (Hkey x Hx) as (h & Hh & ->), (Hkey y Hy) as (h' & Hh' & ->). congruence.
    + change (map coarse (Health.Snapshot t) ≡ₚ map coarse (Health.Snapshot t')).
      by rewrite !healthKeys_perm, Ht.
Qed.

(** ** Cached decisions *)

Lemma terminalResults_Some plan results seen :
  (forall r, r ∈ results -> probeResultTerminal r = true /\ rr_Route r <> "" /\
     inPlan plan (rr_Route r) (rr_RouteType r) = true) ->
  NoDup (rr_Route <$> results) -> (forall r, r ∈ results -> rr_Route r ∉ seen) ->
  terminalResults plan seen results = Some (list_to_set (reverse (rr_Route <$> results)) ∪ seen).
Proof.
  revert seen; induction results as [|r results IH]; intros seen Hok Hnd Hseen; simpl.
  { by rewrite union_empty_l_L. }
  destruct (Hok r ltac:(left)) as (Ht & Hne & Hin). apply NoDup_cons in Hnd as [Hr Hnd].
  rewrite Ht, Hin, (proj2 (String.eqb_neq _ _) Hne), bool_decide_eq_false_2 by (apply Hseen; left). simpl.
  rewrite IH; [|intros; apply Hok; by right|done|].
  - rewrite reverse_cons, list_to_set_app_L. simpl. f_equal. by rewrite union_empty_r_L, (assoc_L union).
  - intros x Hx. rewrite not_elem_of_union, not_elem_of_singleton. split; [|apply Hseen; by right].
    intros E. apply Hr. rewrite <- E. by apply list_elem_of_fmap_2.
Qed.

Lemma block_denial r : directRegionalBlock r = true -> directRegionalDenial r = true.
Proof.
  unfold directRegionalBlock, directRegionalDenial. intros Hb. bool_split.
  apply andb_true_iff. split; [done|]. apply orb_true_iff in H0 as [->|HE]; [done|].
  rewrite (EqualFold_trim _ "REGION_BLOCK" eq_refl HE). apply orb_true_r.
Qed.

Section Reuse.
Context (env : Env) (cfg : Config) (profile : serviceProfile) (opts : Options) (plan : CandidatePlan).
#[local] Notation st := (finalLoop env cfg profile plan opts).
Context (Hnames : prober_names env profile) (Hov : p_override profile = None).
Context (Hunknown : pl_Unknown plan = true).
Context (Htags : NoDup (r_Tag <$> pl_Candidates plan)) (Hnamed : "" ∉ r_Tag <$> pl_Candidates plan).
Context (Hterm : lp_allTerminal st = true).

Lemma scored_routes : rr_Route <$> scored cfg st = rr_Route <$> lp_results st.
Proof.
  unfold scored. change (map ?f) with (fmap (M := list) f). rewrite <- list_fmap_compose.
  apply list_fmap_ext. intros i r _. apply (scored_same cfg st r).
Qed.

Lemma scored_in_plan r : r ∈ scored cfg st ->
  probeResultTerminal r = true /\ rr_Route r <> "" /\ inPlan plan (rr_Route r) (rr_RouteType r) = true.
Proof.
  intros Hr. apply elem_of_scored in Hr as (r0 & Hr0 & ->).
  destruct (scored_same cfg st r0) as (-> & -> & _ & _ & -> & _).
  destruct (li_probed _ _ _ _ _ (finalLoop_inv env cfg profile plan opts) _ Hr0) as (route & Hin & n & svc & _ & E).
  assert (Hn : names r0 route) by (rewrite E; apply bind_names, Hnames). destruct Hn as [-> ->]. split_and!.
  - apply (probeLoop_terminal env cfg profile plan (ActiveRevision opts) 0 (pl_Candidates plan) _ Hterm); [|done].
    simpl. intros x Hx. by apply elem_of_nil in Hx.
  - intros Ee. apply Hnamed. rewrite <- Ee. by apply list_elem_of_fmap_2.
  - apply inPlan_true. eauto.
Qed.

Lemma scored_nodup : NoDup (rr_Route <$> scored cfg st).
Proof.
  rewrite scored_routes.
  destruct (probeLoop_names env cfg profile plan (ActiveRevision opts) 0 (pl_Candidates plan)
    (mkLoop [] (p_service profile) (s_Category (p_service profile)) (HealthTracker opts) false false false true) Hnames)
    as (l & E & Hl). fold (finalLoop env cfg profile plan opts) in E. rewrite E. simpl.
  by eapply sublist_NoDup.
Qed.

Lemma validCached d :
  d_SelectedRoute d = "" -> d_Reason d = "no_verified_policy_allowed_route" ->
  d_Results d = scored cfg st -> scored cfg st <> [] ->
  (pl_TSPUStatus plan = "STALE_MATCH" -> tspuStartsWithZapret (pl_TSPUStatus plan) (TSPUStalePolicy (c_Policy cfg)) = true) ->
  validCachedNoSafeRoute d plan = true.
Proof.
  intros Hs Hre HR Hne Hstale. unfold validCachedNoSafeRoute. rewrite Hs, Hre, HR. simpl.
  destruct (scored cfg st) as [|r0 rest] eqn:Es; [done|]. rewrite <- Es. clear Hne.
  rewrite terminalResults_Some; [|apply scored_in_plan|apply scored_nodup|intros; apply not_elem_of_empty].
  apply forallb_forall. intros route Hin%list_elem_of_In.
  destruct (finalLoop_settled env cfg profile plan opts route Hnames Hov Hterm Hin)
    as [(r & Hr & [<- _] & _)|[[Hb Hty]|(Hty & _ & _ & Hz)]].
  - rewrite bool_decide_eq_true_2; [done|]. rewrite elem_of_union, elem_of_list_to_set, elem_of_reverse. left.
    by apply list_elem_of_fmap_2.
  - assert (any directRegionalDenial (scored cfg st) = true) as ->.
    { apply any_true in Hb as (x & Hx & Hb). apply any_true. exists x. split; [done|by apply block_denial]. }
    destruct Hty as [-> | ->]; simpl; by rewrite orb_true_r.
  - unfold profileUnknownPlanSkipsZapret. rewrite Hunknown, Hty. simpl.
    assert (Em : pl_TSPUStatus plan <> "MATCH") by (intros E; by rewrite E in Hz).
    assert (Est : pl_TSPUStatus plan <> "STALE_MATCH") by (intros E; rewrite Hstale in Hz; done).
    rewrite (proj2 (String.eqb_neq _ _) Em), (proj2 (String.eqb_neq _ _) Est). apply orb_true_r.
Qed.
End Reuse.

Lemma find_exists {A} (p : A -> bool) l x : x ∈ l -> p x = true -> exists y, first p l = Some y.
Proof.
  intros Hx Hp. destruct (first p l) as [y|] eqn:E; [by exists y|]. by rewrite (first_None _ _ _ E Hx) in Hp.
Qed.

Section Reusable.
Context (digest : list Route -> Service -> Policy -> string -> list healthKey -> string).

(** What a check stores answers the next one.  Let a check of an unknown
    domain without override end with a network route selected, or with
    NO_SAFE_ROUTE after at least one probe.  Then, while the plan and the
    revision are unchanged, [cachedCheck] accepts the stored decision and
    returns the same status, results and selected route.  The candidates carry
    distinct non-empty tags and the prober reports the routes it probed; for
    NO_SAFE_ROUTE a stale TSPU match must be handled zapret-first. *)
Theorem decision_is_reusable env cfg profile opts :
  let plan := buildCandidates digest cfg profile opts in
  let out := (verifyDomain env cfg profile plan opts).2 in
  prober_names env profile -> p_unknown profile = true -> p_override profile = None ->
  NoDup (r_Tag <$> pl_Candidates plan) -> "" ∉ r_Tag <$> pl_Candidates plan ->
  pl_InventoryHash plan <> "" -> ActiveRevision opts <> "" ->
  ck_Status out = "SELECTED" \/
  ck_Status out = "NO_SAFE_ROUTE" /\ ck_Results out <> [] /\
    (pl_TSPUStatus plan = "STALE_MATCH" -> TSPUStalePolicy (c_Policy cfg) = "zapret_first") ->
  exists c, cachedCheck (decisionOf out profile plan (ActiveRevision opts)) plan profile (ActiveRevision opts) = Some c /\
    ck_Status c = ck_Status out /\ ck_Results c = ck_Results out /\
    rr_Route <$> ck_Selected c = rr_Route <$> ck_Selected out /\
    rr_RouteType <$> ck_Selected c = rr_RouteType <$> ck_Selected out.
Proof.
  cbv zeta. set (plan := buildCandidates digest cfg profile opts).
  set (out := (verifyDomain env cfg profile plan opts).2).
  intros Hn Hunk Hov Htags Hnamed Hhash Hrev Hend.
  destruct (verifyDomain_cases env cfg profile plan opts) as (_ & _ & Vt & _ & V5). fold out in Vt, V5.
  set (st := finalLoop env cfg profile plan opts) in *.
  destruct (lp_allTerminal st) eqn:Hterm; [|by destruct V5 as [Es _]; destruct Hend as [?|[? _]]; congruence].
  destruct V5 as (Vr & Vs & Vst & Vre).
  assert (Hc0 : forall d, d_AdapterRevision d = ActiveRevision opts -> d_Service d = p_name profile ->
            d_TSPUStatus d = pl_TSPUStatus plan -> d_CandidateInventoryHash d = pl_InventoryHash plan ->
            ((d_AdapterRevision d <>s ActiveRevision opts) || (d_Service d <>s p_name profile)
             || (d_TSPUStatus d <>s pl_TSPUStatus plan)) = false /\
            ((d_CandidateInventoryHash d =s "") || (d_CandidateInventoryHash d <>s pl_InventoryHash plan)) = false).
  { intros d -> -> -> ->. rewrite !String.eqb_refl, (proj2 (String.eqb_neq (pl_InventoryHash plan) "") Hhash). done. }
  set (d := decisionOf out profile plan (ActiveRevision opts)).
  destruct (Hc0 d eq_refl eq_refl Vt eq_refl) as (G1 & G2). clear Hc0.
  assert (Hof : ck_Status (checkOfDecision d plan profile) = ck_Status out /\
            ck_Results (checkOfDecision d plan profile) = ck_Results out /\
            ck_Selected (checkOfDecision d plan profile) = None).
  { unfold checkOfDecision. destruct (classificationMetadata profile _) as [[? ?] ?]. destruct (F.ltb F.zero (d_ClassificationConfidence d) || _ || _); split_and!; reflexivity. }
  destruct Hof as (O1 & O2 & O3). unfold cachedCheck. rewrite G1, G2.
  change (d_Status d) with (ck_Status out).
  destruct Hend as [Hend|(Hend & Hne & Hstale)]; rewrite Hend.
  - change (S.EqualFold (S.TrimSpace "SELECTED") "NO_SAFE_ROUTE") with false. cbv iota.
    destruct (winner env cfg st) as [r|] eqn:Ew; [|congruence].
    assert (Hnd : rr_RouteType r <> "drop").
    { intros E. rewrite E in Vst. simpl in Vst. congruence. }
    destruct (winner_allowed _ _ _ _ Ew) as (Hr & Hev & _).
    destruct (scored_proven env cfg profile plan opts r Hr Hev Hnd) as (_ & Hrr & Hin).
    destruct (scored_in_plan env cfg profile opts plan Hn Hnamed Hterm r Hr) as (_ & Hne & _).
    assert (d_SelectedRoute d = rr_Route r /\ d_SelectedType d = rr_RouteType r) as [-> ->]
      by (unfold d, decisionOf; simpl; by rewrite Vs).
    rewrite (proj2 (String.eqb_neq _ _) Hne), Hin. simpl negb. cbv iota.
    change (d_Results d) with (ck_Results out). rewrite Vr.
    destruct (find_exists (fun x => (rr_Route x =s rr_Route r) && (rr_RouteType x =s rr_RouteType r)
                && (rr_AdapterRevision x =s ActiveRevision opts) && selectionEvidence x) (scored cfg st) r Hr)
      as (y & Ey).
    { by rewrite !String.eqb_refl, (Hrr Hrev), String.eqb_refl, Hev. }
    rewrite Ey. apply first_Some in Ey as [_ Hy]. bool_split. str_eq.
    eexists. split; [done|]. rewrite Vs. simpl.
    split; [exact (eq_trans O1 Hend)|]. split; [exact (eq_trans O2 Vr)|]. split; f_equal; done.
  - change (S.EqualFold (S.TrimSpace "NO_SAFE_ROUTE") "NO_SAFE_ROUTE") with true. cbv iota.
    destruct (winner env cfg st) as [r|] eqn:Ew.
    { rewrite Vst in Hend. by destruct (rr_RouteType r =s "drop"). }
    rewrite (validCached env cfg profile opts plan Hn Hov Hunk Htags Hnamed Hterm d).
    + eexists. split; [done|]. rewrite Vs.
      split; [exact (eq_trans O1 Hend)|]. split; [exact O2|].
      change (rr_Route <$> ck_Selected (checkOfDecision d plan profile) = None /\
              rr_RouteType <$> ck_Selected (checkOfDecision d plan profile) = None). by rewrite O3.
    + unfold d, decisionOf. simpl. by rewrite Vs.
    + exact Vre.
    + exact Vr.
    + intros En. apply Hne. by rewrite Vr.
    + intros Es. unfold tspuStartsWithZapret. rewrite Es, (Hstale Es). reflexivity.
Qed.
End Reusable.

(** C37: [currentHealthyRoute] never finds a route: no tracker built from
    well-formed records by observations and role assignments holds the role
    [active] the function looks for.  Outside an explicit selected route the
    planner therefore has no current route, and hysteresis and cooldown never
    apply. *)
Theorem currentHealthyRoute_is_empty t : Health.reachable t -> currentHealthyRoute (Some t) = "".
Proof.
  intros Hr. unfold currentHealthyRoute.
  destruct (first _ (Health.Snapshot t)) as [h|] eqn:E; [exfalso|done].
  apply first_Some in E as [Hin Hp]. bool_split. str_eq.
  apply elem_of_Snapshot in Hin as (tag & Htag). apply reachable_wf in Hr.
  destruct (Hr _ _ Htag) as (_ & _ & Hwf). pose proof (wf_role _ Hwf) as Hrole.
  rewrite H0 in Hrole. unfold health_roles in Hrole.
  repeat (apply elem_of_cons in Hrole as [Hrole|Hrole]; [discriminate|]). by apply elem_of_nil in Hrole.
Qed.
