(* ===== verification/ProbeSafety.v ===== *)
(** * What probes promise

    The theorems about probing: a success is proved, connections go to public
    addresses, and two checks that can never succeed. *)
From Stdlib Require Import ZArith Lia SpecFloat.
From stdpp Require Import base list strings gmap pretty.
From S2P Require Import Prelude Effects Float64 Net Config Json Validation Artifact JsonText Evidence Tspu Override Health Interfaces DomainCache Planner.
From S2P Require Import PlannerProofs ProbeTypes ProbePath OpenWrtPath ProbeDNS Probe DNSValidation PathProofs ProbeProofs ProbeEffects.

Open Scope Z_scope.

Section Proved.
Context {K : Type} (now : K -> K * time).
Context (fqdn : string -> string) (rcodeName : Z -> string) (question : string -> Z -> K -> K * Msg).
Context (exchange socksExchange : string -> string -> Msg -> io K (option Msg)) (lookupHost : string -> io K (list IP.Addr)).
Context (parseURL : string -> option URL) (requestError : URL -> string -> string) (roundTrip : DialSpec -> URL -> K -> K * Hop).
Context (markedDatagram : Z -> K -> K * (Z * option string)).
Context (localCountry : string -> duration -> IP.Addr -> io K string) (hashIP : string -> string).
Context (readBounded : string -> Z -> io K string) (wait : duration -> io K unit) (commands : OpenWrtCommands K) (v : OpenWrtPathVerifier).
Notation engine := (activeEngine now readBounded wait commands v).
Notation checks_run := (checks_run now fqdn rcodeName question exchange socksExchange lookupHost parseURL requestError roundTrip markedDatagram localCountry hashIP).

(** What the active deployment proved in the probe that took world [k] to [k'].
    In this order: a session is begun, the checks are made, and the verifier accepts
    proof [p] of the path for that session and for what the checks observed; [p] is
    the proof in the result.  Unless the route is the system's own, the identity of
    the deployment was read and in force both when the session began and when the
    path was verified, the counter of the route's rules was higher the second time
    (for VLESS it is not asked), and [p] is what the plan requires of the route. *)
Definition path_proved (c : Config) (domain serviceName : string) (svc : Service) (route : Route) (family : string) (k k' : K) (r : ProbeResult) : Prop :=
  exists k0 start k1 checkedAt k2 session k3 found k4 completed k5 stop p,
    now k = (k0, start) /\ now k0 = (k1, checkedAt) /\
    beginPathProof engine domain route start k1 = (k2, Ok session) /\
    checks_run c svc route family session (initialResult domain serviceName route checkedAt) k2 k3 found /\ pr_Checks r = pr_Checks found /\
    now k3 = (k4, completed) /\ now k4 = (k5, stop) /\
    Verify engine (mkRequest route (observationFromResult route found start completed) session) k5 = (k', inl p) /\ pr_PathEvidence r = Some p /\
    (isSystemDefaultRoute route = false ->
       (exists before k6 after, policy_read readBounded commands v (r_Tag route) k1 k2 before /\ policy_read readBounded commands v (r_Tag route) k5 k6 after /\
          (r_Type route <> "vless" -> np_Counter before < np_Counter after)) /\
       exists required, required ∈ vp_RequiredRouteProof (ov_plan v) /\ rp_Tag required = r_Tag route /\ rp_Type required = r_Type route /\
          ValidateRouteProof required p (ov_binding v) (ov_manifestHash v) = Ok ()).

Lemma engine_begin domain route start k k' session : isSystemDefaultRoute route = false ->
  beginPathProof engine domain route start k = (k', Ok session) -> ss_BeginError session = "" ->
  exists before, policy_read readBounded commands v (r_Tag route) k k' before /\ ss_CounterBefore session = np_Counter before.
Proof.
  intros HN H HB. unfold beginPathProof in H. cbn in H. rewrite HN in H. destruct (openwrtBegin readBounded commands v (mkStart domain route start) k) as [k1 [s|e]] eqn:E.
  - apply openwrtBegin_ran in E as (policy & HP & ->). exists policy. cbn [ss_StartedAt st_StartedAt] in H. by destruct (T.IsZero start); injection H as <- <-.
  - injection H as <- <-. by apply openwrtBegin_text in E.
Qed.
Lemma engine_proved c domain serviceName svc route family k k' r :
  proved_run now fqdn rcodeName question exchange socksExchange lookupHost parseURL requestError roundTrip markedDatagram localCountry hashIP engine
    c domain serviceName svc route family k k' r ->
  pr_PathVerified r = true /\ path_proved c domain serviceName svc route family k k' r.
Proof.
  intros (k0 & start & k1 & checkedAt & k2 & session & k3 & found & H1 & H2 & H3 & HB & H4 & k4 & completed & k5 & stop & p & H5 & H6 & H7 & H8 & H9 & H10).
  split; [done|]. exists k0, start, k1, checkedAt, k2, session, k3, found, k4, completed, k5, stop, p. split_and!; try done. intros HN.
  destruct (engine_begin _ _ _ _ _ _ HN H3 HB) as (before & HP & HC). cbn in H7. rewrite HN in H7. apply openwrtVerify_accepts in H7 as [AR (k6 & after & AP & AC)].
  cbn [rq_Route rq_Session] in *. split; [|exact AR]. exists before, k6, after. split_and!; [done..|]. by rewrite <- HC.
Qed.

End Proved.

(** ** Connections *)

(** Parameters that keep a log of the addresses connections are made to. *)
Record logged {K} (dialed : K -> list IP.Addr) (now : K -> K * time) (question : string -> Z -> K -> K * Msg)
    (exchange socksExchange : string -> string -> Msg -> io K (option Msg)) (lookupHost : string -> io K (list IP.Addr))
    (roundTrip : DialSpec -> URL -> K -> K * Hop) (markedDatagram : Z -> K -> K * (Z * option string))
    (localCountry : string -> duration -> IP.Addr -> io K string) (verifier : PathProofVerifier K) : Prop := {
  lg_now : forall k, dialed (now k).1 = dialed k;
  lg_question : forall name qtype k, dialed (question name qtype k).1 = dialed k;
  lg_exchange : forall network server msg k, dialed (exchange network server msg k).1 = dialed k;
  lg_socks : forall proxy server msg k, dialed (socksExchange proxy server msg k).1 = dialed k;
  lg_lookup : forall host k, dialed (lookupHost host k).1 = dialed k;
  lg_datagram : forall mark k, dialed (markedDatagram mark k).1 = dialed k;
  lg_country : forall database age addr k, dialed (localCountry database age addr k).1 = dialed k;
  lg_begin : forall begin start k, Begin verifier = Some begin -> dialed (begin start k).1 = dialed k;
  lg_verify : forall request k, dialed (Verify verifier request k).1 = dialed k;
  lg_dial : forall spec u k, dialed (roundTrip spec u k).1 = ds_Addr spec :: dialed k
}.

(** C9: A probe never connects to an address that is not public, outside the test
    target.  Whatever the resolvers answer, the URLs of the checks and of the
    country sources say and the servers redirect to, the addresses that the HTTP
    connections of one probe go to, directly or through a proxy, are not loopback,
    private, link-local, multicast or unspecified. *)
Theorem probes_dial_public {K} (dialed : K -> list IP.Addr) (now : K -> K * time) fqdn rcodeName question exchange socksExchange lookupHost parseURL requestError roundTrip
    markedDatagram localCountry hashIP verifier c domain serviceName svc route family k :
  logged dialed now question exchange socksExchange lookupHost roundTrip markedDatagram localCountry verifier ->
  allowPrivateProbe c = false ->
  let k' := (probeRoute now fqdn rcodeName question exchange socksExchange lookupHost parseURL requestError roundTrip markedDatagram localCountry hashIP verifier
               c domain serviceName svc route family k).1 in
  exists added, dialed k' = added ++ dialed k /\ Forall (fun a => isUnsafeAddr a = false) added.
Proof.
  intros [L1 L2 L3 L4 L5 L6 L7 L8 L9 L10] Hc. cbv zeta.
  set (I := fun k' => exists added, dialed k' = added ++ dialed k /\ Forall (fun a => isUnsafeAddr a = false) added).
  apply (probeRoute_stays now fqdn rcodeName question exchange socksExchange lookupHost parseURL requestError roundTrip markedDatagram localCountry hashIP verifier I).
  - split; unfold stays, I; intros.
    1-9: rewrite ?L1, ?L2, ?L3, ?L4, ?L5, ?L6, ?L7, ?L9; try done. 1: by rewrite L8.
    destruct H0 as (added & E & F). exists (ds_Addr spec :: added). rewrite L10, E. by split; [|constructor].
  - done.
  - by exists [].
Qed.

(** ** Checks that never succeed *)

Section Unverified.
Context {K : Type} (now : K -> K * time).
Context (fqdn : string -> string) (rcodeName : Z -> string) (question : string -> Z -> K -> K * Msg).
Context (exchange socksExchange : string -> string -> Msg -> io K (option Msg)) (lookupHost : string -> io K (list IP.Addr)).
Context (parseURL : string -> option URL) (requestError : URL -> string -> string) (roundTrip : DialSpec -> URL -> K -> K * Hop).
Context (markedDatagram : Z -> K -> K * (Z * option string)).
Context (localCountry : string -> duration -> IP.Addr -> io K string) (hashIP : string -> string).

(** Without a verifier no result counts. *)
Lemma unavailable_never_counts c domain serviceName svc route k k' r :
  ProbeRouteUnverified now fqdn rcodeName question exchange socksExchange lookupHost parseURL requestError roundTrip markedDatagram localCountry hashIP
    c domain serviceName svc route k = (k', Ok r) -> ~ succeeds r.
Proof.
  intros H HS. apply probeRoute_OK in H as (_ & (? & ? & ? & ? & ? & ? & ? & ? & _ & _ & _ & _ & _ & ? & ? & ? & ? & ? & _ & _ & HR & _) & _); [done| |done].
  intros rq k0 k0' e [= <- <-]. by left.
Qed.
Lemma applicationChecked_counts endpoint domain udp tcp r found :
  applicationChecked endpoint domain udp tcp r = Ok found -> succeeds r.
Proof.
  unfold succeeds, applicationChecked, smartDNSApplicationProofAccepted. destruct (pr_Checks r) as [|check [|? ?]]; try done. cbv zeta.
  by destruct (S.EqualFold (pr_Status r) "OK").
Qed.

(** The check of a proposed Smart DNS resolver never succeeds: its application
    check runs on an engine without a verifier of paths, which withdraws every OK,
    and then asks for the status OK.  Whatever the resolver, the network and the
    domain, the user gets an error. *)
Theorem smart_dns_never_validates endpoint domain k :
  exists k' e, ValidateSmartDNSCandidate now fqdn rcodeName question exchange socksExchange lookupHost parseURL requestError roundTrip markedDatagram localCountry hashIP
    endpoint domain k = (k', Err e).
Proof.
  destruct (ValidateSmartDNSCandidate _ _ _ _ _ _ _ _ _ _ _ _ _ _ _ k) as [k' [found|e]] eqn:E; [|eauto]. exfalso.
  unfold ValidateSmartDNSCandidate in E. cbv zeta in E. destruct (_ || _) in E; [done|]. run_steps E. rename x1 into r.
  apply lift_ran in E as [_ E%applicationChecked_counts]. by apply unavailable_never_counts in G1.
Qed.
End Unverified.

(** An outbound that [verifySOCKSBinding] accepts is a VLESS one. *)
Lemma socksBound_vless route host port inbounds outbounds rules b : socksBound route host port (inbounds, outbounds, rules) = Ok b ->
  exists o, o ∈ outbounds /\ xo_Tag o = r_Tag route /\ xo_Protocol o = "vless".
Proof.
  unfold socksBound. cbv zeta. destruct (List.filter _ outbounds) as [|o os] eqn:E; [by intros H|]. intros _.
  assert (HI : In o (List.filter (fun o => (xo_Tag o =s r_Tag route) && (xo_Protocol o =s "vless")) outbounds)) by (rewrite E; by left).
  apply filter_In in HI as [HI HP]. apply andb_true_iff in HP as [HT HP]. apply String.eqb_eq in HT, HP. exists o. by rewrite list_elem_of_In.
Qed.
(** A route through an external SOCKS proxy is verified only when the generated
    Xray configuration has a VLESS outbound with its tag.  The configuration that is
    generated gives such a route an outbound of protocol [socks], so no route of this
    type is ever verified. *)
Theorem external_socks_needs_vless {K} (now : K -> K * time) readBounded wait (commands : OpenWrtCommands K) v request k k' p :
  openwrtVerify now readBounded wait commands v request k = (k', inl p) -> r_Type (rq_Route request) = "external_socks" ->
  exists k1 k2 raw inbounds outbounds rules o, readBounded (ov_root v +:+ "/" +:+ XrayFile) (2 * 2 ^ 20) k1 = (k2, Ok raw) /\
    parseXray raw = Ok (inbounds, outbounds, rules) /\ o ∈ outbounds /\ xo_Tag o = r_Tag (rq_Route request) /\ xo_Protocol o = "vless".
Proof.
  intros H HT. unfold openwrtVerify in H. cbv zeta in H. destruct (requiredProof _ _ _) as [required|]; [|done].
  apply proof_bind_ran in H as (k1 & [] & _ & H). apply proof_bind_ran in H as (k2 & policy & _ & H). destruct (_ && _) in H; [done|].
  apply proof_bind_ran in H as (k3 & t & _ & H). rewrite HT in H. cbn [String.eqb Ascii.eqb Bool.eqb] in H. destruct (_ || _) in H; [done|].
  proof_steps H. rename G2 into GT. clear - GT HT. unfold verifyType in GT. rewrite HT in GT. cbv zeta in GT. cbn [String.eqb Ascii.eqb Bool.eqb] in GT.
  destruct (negb _) in GT; [done|]. apply proof_bind_ran in GT as (k4 & answer & G & GT). unfold try in G.
  destruct (verifySOCKSBinding readBounded v (rq_Route request) _) as [ky ry] eqn:EV. injection G as -> ->. destruct answer as [b|e]; [|done].
  unfold verifySOCKSBinding in EV. apply bind_ran in EV as (ka & [host port] & _ & EV). apply bind_ran in EV as (kb & raw & GR & EV).
  apply bind_ran in EV as (kc & [[inbounds outbounds] rules] & GP & EV). apply lift_ran in GP as [-> GP]. apply lift_ran in EV as [_ EV].
  destruct (socksBound_vless _ _ _ _ _ _ _ EV) as (o & Ho & Ht & Hp). by exists ka, kb, raw, inbounds, outbounds, rules, o.
Qed.

Section Selection.
Context {C : Type} `{DecisionCache C, MapIter Service}.
Context (digest : list Route -> Service -> Policy -> string -> list healthKey -> string).
Context (toASCII : string -> option string) (effectiveTLDPlusOne : string -> option string).
Context {K : Type} (now : K -> K * time).
Context (fqdn : string -> string) (rcodeName : Z -> string) (question : string -> Z -> K -> K * Msg).
Context (exchange socksExchange : string -> string -> Msg -> io K (option Msg)) (lookupHost : string -> io K (list IP.Addr)).
Context (parseURL : string -> option URL) (requestError : URL -> string -> string) (roundTrip : DialSpec -> URL -> K -> K * Hop).
Context (markedDatagram : Z -> K -> K * (Z * option string)).
Context (localCountry : string -> duration -> IP.Addr -> io K string) (hashIP : string -> string).
Context (readBounded : string -> Z -> io K string) (wait : duration -> io K unit) (commands : OpenWrtCommands K) (v : OpenWrtPathVerifier).

(** The prober of the planner is the engine of the active deployment, on whatever
    state the network is in. *)
Definition probes_are_runs (cfg : Config) (env : Env) : Prop := forall n domain name svc route, exists k k' r,
  probeRoute now fqdn rcodeName question exchange socksExchange lookupHost parseURL requestError roundTrip markedDatagram localCountry hashIP
    (activeEngine now readBounded wait commands v) cfg domain name svc route "" k = (k', Ok r) /\
  Planner.ProbeRoute env n domain name svc route = shown r.

Lemma bind_raw raw route rev :
  let r := bindResultToCandidate raw route rev in
  S.EqualFold (rr_Status r) "OK" = true -> rr_PathVerified r = true -> S.EqualFold (rr_Status raw) "OK" = true /\ rr_RouteType r = r_Type route.
Proof.
  cbv zeta. intros HS HP. destruct (bind_verified raw route rev HP) as (_ & HT & _). split; [|done]. revert HS HP. unfold bindResultToCandidate.
  set (res := if (r_AdapterMode route =s "system_default") && _ && _ then _ else raw).
  assert (E : rr_Status res = rr_Status raw) by (unfold res; by destruct (_ && _)). clearbody res. cbv zeta. destruct (_ <>s "") eqn:ER; [done|].
  by rewrite E.
Qed.

End Selection.
