(* ===== verification/PlannerExamples.v ===== *)
(** * The planner on concrete inputs

    Configurations, probers and caches at which the planner's theorems are
    applied, and the runs that show where the code departs from its intent. *)
From Stdlib Require Import ZArith Lia SpecFloat.
From stdpp Require Import base list strings gmap sorting.
From S2P Require Import Prelude Float64 Config Tspu Override Health Interfaces DomainCache Planner.
From S2P Require Import PlannerProofs PlannerPlan.

Open Scope Z_scope.

Definition ex_plan_policy (stale : string) : Policy :=
  mkPolicy "" "" 0 0 (mkWeights F.zero F.zero F.zero F.zero) 60 3 3 3600 stale false false "" 0 0.
Definition ex_plan_routes : list Route :=
  [ mkRoute "direct" "direct" 10 false "" "" true "" true; mkRoute "zapret" "zapret-1" 15 false "" "" true "" false;
    mkRoute "vless" "vless-a" 20 false "" "1.1.1.1:53" true "" false;
    mkRoute "drop" "drop" 1000 false "" "" true "" false ].
Definition ex_restricted : Service := mkService "TSPU_RESTRICTED" "" ["restricted.test"] ["direct"; "zapret"; "vless"; "drop"] [] "" false [].
Definition ex_plan_config (stale : string) (overrides : list PolicyOverride) : Config :=
  mkConfig (ex_plan_policy stale) ex_openwrt ex_plan_routes {["restricted" := ex_restricted]} overrides.

Definition ex_digest (routes : list Route) (_ : Service) (_ : Policy) (status : string) (_ : list healthKey) : string :=
  S.Join (status :: map r_Tag routes) ",".

(** The result of probing [route], with the given status and verdict. *)
Definition ex_report (status appStatus : string) (ok : bool) (latency : Z) (reasons : list string)
    (service : string) (route : Route) : RouteResult :=
  mkResult "" service (r_Tag route) (r_Type route) status appStatus ok "rev1" "" "" false ok false false false false
    "NL" "" true latency latency true F.zero reasons "" "" None.

(** Direct times out, Zapret answers slowly, the others quickly. *)
Definition ex_prober (n : nat) (domain name : string) (service : Service) (route : Route) : RouteResult :=
  if r_Type route =s "direct" then ex_report "FAIL" "" false 0 ["timeout"] name route
  else if r_Type route =s "drop" then ex_report "OK" "DROP" true 0 [] name route
  else ex_report "OK" "OK" true (if r_Type route =s "zapret" then 90 else 40) [] name route.
(** Nothing answers. *)
Definition ex_dead_prober (n : nat) (domain name : string) (service : Service) (route : Route) : RouteResult :=
  ex_report "FAIL" "" false 0 [] name route.
(** Every path works. *)
Definition ex_open_prober (n : nat) (domain name : string) (service : Service) (route : Route) : RouteResult :=
  if r_Type route =s "drop" then ex_report "OK" "DROP" true 0 [] name route
  else ex_report "OK" "OK" true 20 [] name route.

Definition ex_env prober : Env :=
  mkEnv prober (fun _ => false) (fun _ => false) (fun n => Z.of_nat (S n) * second) 10 (9 * second).
Definition ex_options (status : string) : Options :=
  mkOptions false (mkMatch "" "" "" "" [] F.zero false status "") (Some ∅) "rev1" "".

#[local] Instance ex_decision_cache : DecisionCache (Manager (MemStore Decision)) := manager_cache ex_ascii ex_etld.
#[local] Instance ex_decision_cache_laws : DecisionCacheLaws (Manager (MemStore Decision)) :=
  manager_cache_laws ex_ascii ex_etld.

#[local] Notation ex_check prober cfg domain status cache :=
  (CheckDomain (C := Manager (MemStore Decision)) ex_digest ex_ascii ex_etld (ex_env prober) (Some cfg) domain ""
     (ex_options status) cache).

Definition checkOf {A B : Type} (r : A * B * (DomainCheck * option string)) : DomainCheck := r.2.1.
Lemma check_eta {A B} (r : A * B * (DomainCheck * option string)) : r = (r.1.1, r.1.2, (checkOf r, r.2.2)).
Proof. by destruct r as [[a b] [c d]]. Qed.

Definition ex_selected : RouteResult :=
  default (ex_report "" "" false 0 [] "" zero_Route)
    (ck_Selected (checkOf (ex_check ex_prober (ex_plan_config "" []) "www.example.org" "" (Some ex_new)))).
Definition profile_or (r : result serviceProfile) : serviceProfile :=
  match r with Ok p => p | Err _ => mkProfile "" "" "" zero_Service false None end.
Definition ex_profile (stale status : string) : serviceProfile :=
  profile_or (profileOf ex_ascii ex_etld (ex_plan_config stale []) "www.example.org" "" (ex_options status)).

Lemma ex_prober_names prober profile :
  prober = ex_prober \/ prober = ex_dead_prober \/ prober = ex_open_prober -> prober_names (ex_env prober) profile.
Proof.
  intros [-> |[-> | ->]] n service route; simpl; unfold ex_prober, ex_dead_prober, ex_open_prober, names;
    repeat destr_if; done.
Qed.

(** ** Witnesses *)

Definition ex_results : list RouteResult :=
  [ ex_report "OK" "OK" true 40 [] "svc" (mkRoute "vless" "vless-a" 20 false "" "" true "" false);
    ex_report "OK" "OK" true 38 [] "svc" (mkRoute "smart_dns" "dns-b" 20 false "" "" true "" false);
    ex_report "OK" "DROP" true 1 [] "svc" (mkRoute "drop" "drop" 20 false "" "" true "" false) ].

(** The current route is 5% slower than the best one, and is held. *)
Lemma selection_is_best_witness :
  rr_Route <$> SelectBestWithPolicy (ex_plan_policy "") None 0 ex_results "vless-a" = Some "vless-a" /\
  match SelectBestWithPolicy (ex_plan_policy "") None 0 ex_results "vless-a" with
  | None => forall x, x ∈ ex_results -> selectionEvidence x = false
  | Some r =>
      r ∈ ex_results /\ selectionEvidence r = true /\
      (rr_RouteType r = "drop" -> forall x, x ∈ ex_results -> selectionEvidence x = true -> rr_RouteType x = "drop") /\
      exists best, best ∈ selectable ex_results /\
        (forall x, x ∈ selectable ex_results ->
           F.ltb (scoreOf (ex_plan_policy "") None x) (scoreOf (ex_plan_policy "") None best) = false) /\
        (r = best \/ rr_Route r = "vless-a" /\ "vless-a" <> "" /\ held (ex_plan_policy "") None 0 best r)
  end.
Proof.
  split; [vm_compute; reflexivity|]. apply (selection_is_best (ex_plan_policy "") None 0 ex_results "vless-a").
  intros x Hx. unfold ex_results in Hx.
  repeat (apply elem_of_cons in Hx as [->|Hx]; [vm_compute; reflexivity|]). by apply elem_of_nil in Hx.
Defined.

Lemma CheckDomain_selects_verified_witness :
  rr_Route ex_selected = "vless-a" /\ selectionEvidence ex_selected = true.
Proof.
  split; [vm_compute; reflexivity|].
  refine (proj1 (CheckDomain_selects_verified ex_digest ex_ascii ex_etld (ex_env ex_prober) (ex_plan_config "" [])
            "www.example.org" "" (ex_options "") (Some ex_new) _ _ _ _ ex_selected _
            (check_eta (ex_check ex_prober (ex_plan_config "" []) "www.example.org" "" (Some ex_new))) _)).
  - exact ex_new_reachable.
  - vm_compute; reflexivity.
Defined.

Lemma no_safe_route_is_exhaustive_witness :
  let out := checkOf (ex_check ex_dead_prober (ex_plan_config "" []) "www.example.org" "" (Some ex_new)) in
  let profile := ex_profile "" "" in
  let plan := buildCandidates ex_digest (ex_plan_config "" []) profile (ex_options "") in
  ck_Status out = "NO_SAFE_ROUTE" /\ map rr_Route (ck_Results out) = ["system-default"; "direct"; "vless-a"; "drop"] /\
  (forall route, route ∈ pl_Candidates plan -> settled (ex_plan_config "" []) profile plan (ck_Results out) route).
Proof.
  intros out profile plan. split; [vm_compute; reflexivity|]. split; [vm_compute; reflexivity|].
  refine (proj1 (proj2 (no_safe_route_is_exhaustive ex_digest ex_ascii ex_etld (ex_env ex_dead_prober)
            (ex_plan_config "" []) "www.example.org" "" (ex_options "") (Some ex_new) _ _ out _ profile
            (check_eta (ex_check ex_dead_prober (ex_plan_config "" []) "www.example.org" "" (Some ex_new)))
            _ _ _ _ _))).
  1-4: vm_compute; reflexivity.
  apply ex_prober_names. auto.
Defined.

Lemma ex_tags_unique stale overrides : tags_unique (ex_plan_config stale overrides).
Proof.
  constructor.
  - apply (bool_decide_unpack _). by vm_compute.
  - apply (bool_decide_unpack _). by vm_compute.
  - apply (bool_decide_unpack _). by vm_compute.
  - intros route Hr. unfold ex_plan_config, ex_plan_routes in Hr. simpl in Hr.
    repeat (apply elem_of_cons in Hr as [->|Hr]; [done|]). by apply elem_of_nil in Hr.
Qed.

Lemma candidates_are_eligible_witness :
  let plan := buildCandidates ex_digest (ex_plan_config "" []) (ex_profile "" "") (ex_options "") in
  map r_Tag (pl_Candidates plan) = ["system-default"; "direct"; "zapret-1"; "vless-a"; "drop"] /\
  NoDup (r_Tag <$> pl_Candidates plan).
Proof.
  split; [vm_compute; reflexivity|].
  refine (proj1 (candidates_are_eligible ex_digest ex_ascii ex_etld (ex_plan_config "" []) "www.example.org" ""
            (ex_options "") (ex_profile "" "") _ _ (ex_tags_unique "" []))); vm_compute; reflexivity.
Defined.

Lemma decision_is_reusable_witness :
  let plan := buildCandidates ex_digest (ex_plan_config "" []) (ex_profile "" "") (ex_options "") in
  let out := (verifyDomain (ex_env ex_dead_prober) (ex_plan_config "" []) (ex_profile "" "") plan (ex_options "")).2 in
  ck_Status out = "NO_SAFE_ROUTE" /\
  exists c, cachedCheck (decisionOf out (ex_profile "" "") plan "rev1") plan (ex_profile "" "") "rev1" = Some c /\
    ck_Status c = ck_Status out /\ ck_Results c = ck_Results out /\
    rr_Route <$> ck_Selected c = rr_Route <$> ck_Selected out /\
    rr_RouteType <$> ck_Selected c = rr_RouteType <$> ck_Selected out.
Proof.
  intros plan out. split; [vm_compute; reflexivity|].
  apply (decision_is_reusable ex_digest (ex_env ex_dead_prober) (ex_plan_config "" []) (ex_profile "" "") (ex_options "")).
  - apply ex_prober_names. auto.
  - vm_compute; reflexivity.
  - vm_compute; reflexivity.
  - apply (bool_decide_unpack _). by vm_compute.
  - apply (bool_decide_unpack _). by vm_compute.
  - by vm_compute.
  - done.
  - right. split_and!; [vm_compute; reflexivity|by vm_compute|by vm_compute].
Defined.

Lemma inventory_hash_stable_witness :
  hashCandidateInventory ex_digest [ex_member "vless-b" 20; ex_member "vless-a" 10] zero_Service ex_health_policy ""
    (Some ex_tracker) =
  hashCandidateInventory ex_digest [ex_member "vless-a" 10; ex_member "vless-b" 20] zero_Service ex_health_policy ""
    (Some (set_h_Score 60 <$> ex_tracker)).
Proof.
  apply (inventory_hash_stable ex_digest).
  - apply Permutation_swap.
  - apply (bool_decide_unpack _). by vm_compute.
  - apply Observe_wf, wf_empty.
  - rewrite <- map_fmap_compose. by apply map_fmap_ext.
Defined.

Lemma currentHealthyRoute_is_empty_witness :
  currentHealthyRoute (Some (AssignVLESSRoles ex_tracker ex_pool ex_health_policy second).1) = "".
Proof.
  apply currentHealthyRoute_is_empty. apply reach_assign.
  - apply reach_observe. apply (reach_init []). constructor.
  - split; [apply (bool_decide_unpack _); by vm_compute|]. apply (bool_decide_unpack _). by vm_compute.
Defined.

(** ** Departures from the intent *)

(** With [tspu_stale_policy] fail_closed, an unknown domain with a stale TSPU
    match has DROP as its only eligible type, yet the unmanaged default path is
    probed first and selected. *)
Lemma stale_fail_closed_selects_direct :
  let out := checkOf (ex_check ex_open_prober (ex_plan_config "fail_closed" []) "www.example.org" "STALE_MATCH" None) in
  eligibleRouteTypesForService "DIRECT_PREFERRED" "STALE_MATCH" "fail_closed" = ["drop"] /\
  ck_Status out = "SELECTED" /\ rr_Route <$> ck_Selected out = Some "system-default".
Proof. vm_compute. by split_and!. Qed.

(** DROP whose path proof failed (status UNVERIFIED) is selected all the same. *)
Definition ex_unproven_drop (n : nat) (domain name : string) (service : Service) (route : Route) : RouteResult :=
  if r_Type route =s "drop" then ex_report "UNVERIFIED" "DROP" false 0 [] name route
  else ex_report "FAIL" "" false 0 [] name route.
Lemma unproven_drop_is_selected :
  let out := checkOf (ex_check ex_unproven_drop (ex_plan_config "" []) "www.example.org" "" None) in
  ck_Status out = "DROP" /\ ck_VerificationState out = "verified" /\
  rr_PathVerified <$> ck_Selected out = Some false.
Proof. vm_compute. by split_and!. Qed.

(** An override to direct for a TSPU_RESTRICTED service passes validation, is
    probed, works, and ends in NO_SAFE_ROUTE with DROP never probed. *)
Definition ex_direct_override : PolicyOverride := mkOverride "o1" "exact_domain" "" "restricted.test" "" "" "direct" "".
Lemma restricted_override_never_selected :
  let cfg := ex_plan_config "" [ex_direct_override] in
  let out := checkOf (ex_check ex_open_prober cfg "restricted.test" "" None) in
  validateOverrides ex_ascii (iter (c_Services cfg)) cfg = Some [ex_direct_override] /\
  ck_Status out = "NO_SAFE_ROUTE" /\ map rr_Route (ck_Results out) = ["direct"].
Proof. vm_compute. by split_and!. Qed.

(** A stale TSPU match under the default stale policy: the stored NO_SAFE_ROUTE
    is refused by the next lookup, because the guarded Zapret route was skipped. *)
Lemma stale_no_safe_route_not_reused :
  let cfg := ex_plan_config "" [] in
  let opts := ex_options "STALE_MATCH" in
  let profile := ex_profile "" "STALE_MATCH" in
  let plan := buildCandidates ex_digest cfg profile opts in
  let out := (verifyDomain (ex_env ex_dead_prober) cfg profile plan opts).2 in
  ck_Status out = "NO_SAFE_ROUTE" /\
  cachedCheck (decisionOf out profile plan "rev1") plan profile "rev1" = None.
Proof. vm_compute. by split_and!. Qed.
