(* ===== verification/RouteAssignmentProofs.v ===== *)
(** * Route assignments take effect whole

    An operation that succeeds leaves the manifest, the overlay and dnsmasq in
    step; one that fails leaves the files as they were, unless putting them back
    fails too; and a rollback undoes its assignment.  Concrete assignments, and the
    runs that depart from the intent, are at the end. *)
From Stdlib Require Import ZArith Lia.
From stdpp Require Import base list strings gmap.
From S2P Require Import Prelude Config Net Override PlannerExamples RouteAssignment.

Open Scope Z_scope.

Definition no_faults : Faults :=
  mkFaults None None None None None None None None None None None None None None None.

Section Proofs.
Context (sha256 : string -> string) (marshal : manifest -> string) (unmarshal : string -> option manifest).

Inductive operation : Type :=
| DoApply (r : Request)
| DoRollback (r : Request)
| DoReconcile (expected : option Request).
Definition run (cfg : result Active) (op : operation) : Faults -> Disk -> Disk * option string :=
  match op with
  | DoApply r => Apply sha256 marshal unmarshal cfg r
  | DoRollback r => Rollback sha256 marshal unmarshal cfg r
  | DoReconcile expected => reconcile sha256 marshal unmarshal cfg expected
  end.

(** ** Materialising a manifest *)

(** The route of an assignment is there, enabled and of its type. *)
Definition available (a : Active) (x : Assignment) : Prop :=
  exists route, RouteByTag (ac_config a) (as_RouteTag x) = Some route /\ Enabled route = true /\ r_Type route = as_RouteType x.

Lemma renderAll_available a plan l text : renderAll a plan l = Ok text -> Forall (available a) l.
Proof.
  revert text. induction l as [|x l IH]; intros text HE; [constructor|]. simpl in HE. unfold mbind, result_bind in HE.
  destruct (renderAssignment a plan x) as [t|] eqn:Ex; [|done]. destruct (renderAll a plan l) as [t'|]; [|done].
  constructor; [|by eapply IH]. unfold renderAssignment in Ex. unfold available.
  destruct (RouteByTag (ac_config a) (as_RouteTag x)) as [route|]; [|done]. exists route.
  destruct (negb (Enabled route) || _) eqn:Eo; [done|]. bool_split. str_eq. done.
Qed.

Lemma render_available a plan m text : render a plan m = Ok text -> Forall (available a) (mf_Assignments m).
Proof.
  unfold render, mbind, result_bind. destruct (renderAll a plan (mf_Assignments m)) as [t|] eqn:E; [|done].
  intros _. by eapply renderAll_available.
Qed.

(** The files, the overlay and dnsmasq agree on the manifest. *)
Definition inStep (a : Active) (plan : list DNSProxyPlan) (m : manifest) (d : Disk) : Prop :=
  dk_manifest d = Some (marshal m) /\
  exists content, render a plan m = Ok content /\ dk_include d = Some content /\ dk_dns d = Loaded (Some content).

(** The files are as they were, and dnsmasq was left alone or runs with the old
    overlay, unless its restart failed. *)
Definition untouched (f : Faults) (d d' : Disk) : Prop :=
  dk_manifest d' = dk_manifest d /\ dk_include d' = dk_include d /\
  (dk_dns d' = dk_dns d \/ dk_dns d' = Loaded (dk_include d) \/ fa_reload f <> None).
Definition restoreFails (f : Faults) : Prop := fa_restoreManifest f <> None \/ fa_restoreInclude f <> None.

Lemma restoreAndReload_untouched f d0 cause d d' e :
  restoreAndReload f (dk_manifest d0) (dk_include d0) cause d = (d', e) ->
  is_Some e /\ (untouched f d0 d' \/ restoreFails f) /\ dk_backups d' = dk_backups d.
Proof.
  unfold restoreAndReload, restore, attempt, restoreFails, untouched.
  destruct (fa_restoreManifest f) as [e1|]; destruct (fa_restoreInclude f) as [e2|]; simpl;
    try (intros [= <- <-]; split; [by eexists|split; [right; by (left + right)|done]]).
  unfold restartDNS. destruct (fa_reload f) as [e3|] eqn:Er; simpl.
  - intros [= <- <-]. split; [by eexists|]. split; [|done]. left. simpl. split_and!; try done. by do 2 right.
  - destruct (fa_ready f); intros [= <- <-]; (split; [by eexists|]); (split; [|done]); left; simpl; split_and!; try done; by (right; left).
Qed.

Lemma materialize_spec a plan value f d d' err :
  materialize marshal a plan value f d = (d', err) ->
  dk_backups d' = dk_backups d /\
  match err with
  | None => inStep a plan (sorted (versioned value)) d'
  | Some _ => untouched f d d' \/ restoreFails f
  end.
Proof.
  unfold materialize. cbv zeta. destruct (render a plan (sorted (versioned value))) as [content|e] eqn:Er;
    [|intros [= <- <-]; split; [done|left; split_and!; by try left]].
  assert (Hd : forall e, ((d, Some e) = (d', err)) -> dk_backups d' = dk_backups d /\
    match err with None => inStep a plan (sorted (versioned value)) d' | Some _ => untouched f d d' \/ restoreFails f end).
  { intros e [= <- <-]. split; [done|left; split_and!; by try left]. }
  assert (Hback : forall cause x, dk_backups x = dk_backups d ->
    restoreAndReload f (dk_manifest d) (dk_include d) cause x = (d', err) ->
    dk_backups d' = dk_backups d /\
    match err with None => inStep a plan (sorted (versioned value)) d' | Some _ => untouched f d d' \/ restoreFails f end).
  { intros cause x Hx HR. apply restoreAndReload_untouched in HR as ([e ->] & Hu & Hb). split; [congruence|done]. }
  destruct (readFile (fa_readOldManifest f) (dk_manifest d)); [|by apply Hd|];
    (destruct (readFile (fa_readOldInclude f) (dk_include d)); [|by apply Hd|]);
    unfold attempt at 1; (destruct (fa_writeManifest f); [by apply Hd|]);
    unfold attempt; (destruct (fa_writeInclude f); [by apply Hback|]);
    unfold restartDNS; (destruct (fa_restart f); [by apply Hback|]);
    (destruct (fa_running f); [by apply Hback|]);
    intros [= <- <-]; (split; [done|]); (split; [done|]); exists content; done.
Qed.

(** ** Every operation *)

Lemma checkRequest_active cfg r a b plan :
  checkRequest sha256 cfg r = Ok (a, b, plan) ->
  cfg = Ok a /\ exists values, readBindings a = Ok values /\ b = bindingOf values /\ loadPlan a values = Ok plan /\
    validateRequest r = None /\ bi_Generation b = rq_Generation r /\ bi_RevisionID b = rq_RevisionID r /\
    bi_CandidateHash b = rq_CandidateHash r /\ bi_ArtifactManifestHash b = rq_ArtifactManifestHash r.
Proof.
  unfold checkRequest, loadActive, mbind, result_bind. destruct (validateRequest r); [done|].
  destruct cfg as [active|]; [|done]. destruct (readBindings active) as [values|] eqn:Eb; [|done].
  destruct (_ || _) eqn:Eo; [done|]. destruct (ac_canonicalHash active) as [h|]; [|done]. destruct (h <>s _); [done|].
  destruct (loadPlan active values) as [p|] eqn:Ep; [|done]. destruct (validateRoute sha256 active p r); [done|].
  destruct (ac_includePath active); [|done]. intros [= -> <- ->]. split; [done|]. exists values.
  bool_split. str_eq. done.
Qed.

(** What success means: for the active configuration, binding and plan, the disk
    is in step with a manifest of available routes. *)
Definition installed (cfg : result Active) (d : Disk) (stale : Prop) : Prop :=
  exists a values plan m, cfg = Ok a /\ readBindings a = Ok values /\ loadPlan a values = Ok plan /\
    inStep a plan m d /\ Forall (available a) (mf_Assignments m) /\ (boundTo (bindingOf values) m = true \/ stale).

Lemma boundTo_empty b : boundTo b (emptyManifest b) = true.
Proof. unfold boundTo. simpl. by rewrite !String.eqb_refl. Qed.
Lemma boundTo_sorted b m : boundTo b (sorted (versioned m)) = boundTo b m.
Proof. unfold sorted, versioned. by destruct (mf_Version m =? 0). Qed.

Lemma materialize_installed a values plan value f d d' err (stale : Prop) :
  readBindings a = Ok values -> loadPlan a values = Ok plan ->
  boundTo (bindingOf values) value = true \/ stale ->
  materialize marshal a plan value f d = (d', err) ->
  match err with None => installed (Ok a) d' stale | Some _ => untouched f d d' \/ restoreFails f end.
Proof.
  intros Hv Hp Hb HM. apply materialize_spec in HM as [_ HM]. destruct err; [done|].
  exists a, values, plan, (sorted (versioned value)). split_and!; try done; [|by rewrite boundTo_sorted].
  destruct HM as (_ & content & Hr & _). by eapply render_available.
Qed.

Lemma untouched_refl f d : untouched f d d.
Proof. split_and!; try done. by left. Qed.
Lemma untouched_backups f d backups d' : untouched f (set_backups backups d) d' -> untouched f d d'.
Proof. done. Qed.

(** C40: An operation on the assignments takes effect whole or not at all,
    whichever of its calls fail.  When it reports success, the manifest on the
    disk, the overlay and the overlay dnsmasq runs with agree, every route
    assigned to is enabled and of its type, and the manifest is bound to the
    active revision, except after a rollback whose backup is gone; or a reconcile
    found neither file and left it so.  When it reports an error, both files are
    as before and dnsmasq was left alone or reloaded with the old overlay, unless
    restoring a file failed too. *)
Theorem assignment_all_or_nothing cfg op f d d' err :
  run cfg op f d = (d', err) ->
  match err with
  | None => installed cfg d' (exists r, op = DoRollback r /\ dk_backups d !! rq_RequestID r = None) \/
            exists expected, op = DoReconcile expected /\ d' = d /\ dk_manifest d = None /\ dk_include d = None
  | Some _ => untouched f d d' \/ restoreFails f
  end.
Proof.
  set (stale := exists r, op = DoRollback r /\ dk_backups d !! rq_RequestID r = None).
  assert (Hfail : forall e, (d, Some e) = (d', err) -> match err with
    | None => installed cfg d' stale \/ exists expected, op = DoReconcile expected /\ d' = d /\ dk_manifest d = None /\ dk_include d = None
    | Some _ => untouched f d d' \/ restoreFails f end) by (intros e [= <- <-]; left; apply untouched_refl).
  assert (Hdone : forall a values plan value, cfg = Ok a -> readBindings a = Ok values -> loadPlan a values = Ok plan ->
    boundTo (bindingOf values) value = true \/ stale -> materialize marshal a plan value f d = (d', err) -> match err with
    | None => installed cfg d' stale \/ exists expected, op = DoReconcile expected /\ d' = d /\ dk_manifest d = None /\ dk_include d = None
    | Some _ => untouched f d d' \/ restoreFails f end).
  { intros a values plan value -> Hv Hp Hb HM. eapply materialize_installed in HM; [|done..]. destruct err; [done|by left]. }
  destruct op as [r|r|expected]; simpl.
  - unfold Apply. destruct (checkRequest sha256 cfg r) as [[[a b] plan]|e] eqn:Ec; [|apply Hfail].
    apply checkRequest_active in Ec as (-> & values & Hv & -> & Hp & _).
    destruct (readManifest _ _ _) as [previous|e]; [|apply Hfail].
    destruct (match previous with Some m => _ | None => false end) eqn:Eb; [apply Hfail|].
    unfold attempt. destruct (fa_writeBackup f); [apply Hfail|]. destruct (maxAssignments <? _); [intros [= <- <-]; left; split_and!; by try left|].
    intros HM. eapply (materialize_installed a values plan _ f _ d' err stale Hv Hp) in HM.
    + destruct err; [done|by left].
    + left. destruct previous as [m|]; simpl; [by apply negb_false_iff in Eb|]. apply boundTo_empty.
  - unfold Rollback. destruct (checkRequest sha256 cfg r) as [[[a b] plan]|e] eqn:Ec; [|apply Hfail].
    apply checkRequest_active in Ec as (-> & values & Hv & -> & Hp & _).
    destruct (readManifest _ _ (readFile _ (dk_backups d !! _))) as [[previous|]|e] eqn:Em; [| |apply Hfail].
    + destruct (negb (boundTo _ previous)) eqn:Eb; [apply Hfail|]. apply negb_false_iff in Eb.
      destruct (materialize marshal a plan previous f d) as [d1 [e|]] eqn:EM; intros [= <- <-].
      * exact (materialize_installed a values plan previous f d _ (Some e) stale Hv Hp (or_introl Eb) EM).
      * pose proof (materialize_installed a values plan previous f d d1 None stale Hv Hp (or_introl Eb) EM) as HI. left.
        destruct HI as (a' & v' & p' & m & H1 & H2 & H3 & H4 & H5). exists a', v', p', m. split_and!; try done; [|apply H5..].
        unfold attempt. by destruct (fa_removeBackup f).
    + assert (Hst : stale).
      { exists r. split; [done|]. unfold readManifest, readFile in Em. destruct (fa_readBackup f), (dk_backups d !! rq_RequestID r); try done.
        destruct (unmarshal _); [|done]. by destruct (manifestReadable _ _). }
      clear Em. destruct (readManifest sha256 unmarshal (readFile (fa_readManifest f) (dk_manifest d))) as [current|e]; [|apply Hfail].
      apply (Hdone a values); try done. by right.
  - unfold reconcile, mbind, result_bind. destruct cfg as [a|]; [|apply Hfail].
    destruct (readBindings a) as [values|] eqn:Hv; [|apply Hfail]. destruct (negb _); [apply Hfail|].
    destruct (loadPlan a values) as [plan|] eqn:Hp; [|apply Hfail].
    destruct (readManifest _ _ _) as [entries|] eqn:Em; [|apply Hfail]. destruct (ac_includePath a); [|apply Hfail].
    pose proof (boundTo_empty (bindingOf values)) as He.
    destruct entries as [m|].
    + destruct (boundTo (bindingOf values) m) eqn:Eb; [apply (Hdone a values); try done; by left|].
      destruct (readFile _ (dk_include d)); [|apply Hfail|destruct (negb _); [apply Hfail|]]; apply (Hdone a values); try done; by left.
    + destruct (readFile _ (dk_include d)) eqn:Ei; [|apply Hfail|destruct (negb _); [apply Hfail|apply (Hdone a values); try done; by left]].
      intros [= <- <-]. right. exists expected. split_and!; try done.
      * unfold readManifest, readFile in Em. destruct (fa_readManifest f), (dk_manifest d); try done.
        destruct (unmarshal _); [|done]. by destruct (manifestReadable _ _).
      * unfold readFile in Ei. by destruct (fa_checkInclude f), (dk_include d).
Qed.

(** ** Undoing an assignment *)

(** [json.Unmarshal] reads what [json.Marshal] wrote. *)
Definition json_roundtrip : Prop := forall m, manifestReadable sha256 m = None -> unmarshal (marshal m) = Some m.

Lemma emptyManifest_readable b :
  tokenPattern (bi_Generation b) = true -> bi_RevisionID b = bi_Generation b -> safeHash (bi_CandidateHash b) = true ->
  safeHash (bi_ArtifactManifestHash b) = true -> manifestReadable sha256 (emptyManifest b) = None.
Proof.
  intros Ht Er Hc Ha. unfold manifestReadable. simpl. rewrite Er, Ht, Hc, Ha, String.eqb_refl. simpl.
  destruct (S.is_empty (bi_Generation b)) eqn:E; [|done]. unfold S.is_empty in E. str_eq. by rewrite E in Ht.
Qed.

Lemma readManifest_readable raw m : readManifest sha256 unmarshal raw = Ok (Some m) -> manifestReadable sha256 m = None.
Proof.
  unfold readManifest. destruct raw as [| |raw]; try done. destruct (unmarshal raw) as [x|]; [|done].
  destruct (manifestReadable sha256 x) eqn:E; [done|]. by intros [= <-].
Qed.

Lemma materialize_faultless a plan value d :
  materialize marshal a plan value no_faults d =
    match render a plan (sorted (versioned value)) with
    | Err e => (d, Some e)
    | Ok content => (mkDisk (Some (marshal (sorted (versioned value)))) (Some content) (dk_backups d) (Loaded (Some content)), None)
    end.
Proof.
  unfold materialize. cbv zeta. destruct (render _ _ _) as [content|]; [|done]. unfold readFile. simpl.
  by destruct (dk_manifest d), (dk_include d).
Qed.

(** A rollback undoes its assignment.  When an assignment has succeeded, its
    rollback, if no call fails, puts back the manifest there was before, or an
    empty one if there was none, with its overlay, has dnsmasq run with it, and
    removes the backup; unless a route of the old manifest is no longer available,
    in which case it changes nothing. *)
Theorem rollback_undoes_apply a r f d d1 before :
  json_roundtrip -> tokenPattern (rq_Generation r) = true ->
  readManifest sha256 unmarshal (readFile None (dk_manifest d)) = Ok before ->
  Apply sha256 marshal unmarshal (Ok a) r f d = (d1, None) ->
  exists values plan, readBindings a = Ok values /\ loadPlan a values = Ok plan /\
    let old := sorted (default (emptyManifest (bindingOf values)) before) in
    match render a plan old with
    | Ok content =>
        Rollback sha256 marshal unmarshal (Ok a) r no_faults d1 =
          (mkDisk (Some (marshal old)) (Some content) (delete (rq_RequestID r) (dk_backups d)) (Loaded (Some content)), None)
    | Err e => Rollback sha256 marshal unmarshal (Ok a) r no_faults d1 = (d1, Some e)
    end.
Proof.
  intros HJ Ht Hbefore HA. unfold Apply in HA. destruct (checkRequest sha256 (Ok a) r) as [[[a' b] plan]|] eqn:Ec; [|done].
  pose proof (checkRequest_active _ _ _ _ _ Ec) as ([= <-] & values & Hv & -> & Hp & Hreq & E1 & E2 & E3 & E4).
  exists values, plan. split; [done|]. split; [done|]. cbv zeta.
  destruct (readManifest sha256 unmarshal (readFile (fa_readManifest f) (dk_manifest d))) as [prev|] eqn:Em; [|done].
  assert (prev = before) as ->.
  { unfold readFile in Em, Hbefore. destruct (fa_readManifest f); [done|]. rewrite Hbefore in Em. by injection Em. }
  destruct (match before with Some m => _ | None => false end) eqn:Eb; [done|]. cbv zeta in HA.
  set (previous := default (emptyManifest (bindingOf values)) before) in *.
  unfold attempt in HA at 1. destruct (fa_writeBackup f); [done|]. destruct (maxAssignments <? _); [done|].
  apply materialize_spec in HA as [Hbackups _]. simpl in Hbackups.
  assert (Hread : manifestReadable sha256 previous = None /\ boundTo (bindingOf values) previous = true).
  { unfold previous. destruct before as [m|]; simpl.
    - split; [by eapply readManifest_readable|by apply negb_false_iff in Eb].
    - split; [|apply boundTo_empty]. unfold validateRequest in Hreq. destruct (_ || _); [done|]. destruct (_ || _) eqn:Eh in Hreq; [done|].
      bool_split. str_eq. apply emptyManifest_readable; [by rewrite E1|congruence|by rewrite E3|by rewrite E4]. }
  destruct Hread as [Hread Hbound].
  assert (Hver : versioned previous = previous).
  { unfold versioned. unfold manifestReadable in Hread. destruct (mf_Version previous =? manifestVersion) eqn:E; [|done].
    apply Z.eqb_eq in E. by rewrite E. }
  assert (HB : readManifest sha256 unmarshal (readFile (fa_readBackup no_faults) (dk_backups d1 !! rq_RequestID r)) = Ok (Some previous)).
  { rewrite Hbackups, lookup_insert_eq. simpl. by rewrite (HJ previous Hread), Hread. }
  unfold Rollback. rewrite Ec, HB, Hbound. simpl negb. cbv iota.
  rewrite materialize_faultless, Hver. destruct (render a plan (sorted previous)) as [content|e]; [|done].
  unfold attempt, set_backups. simpl. rewrite Hbackups, delete_insert_eq. done.
Qed.
End Proofs.

(** ** An encoding of manifests as texts *)

(** A field: an [x] before every character, a dot after the last. *)
Definition mark : Ascii.ascii := Ascii.ascii_of_N 120.
Fixpoint frame (s tail : string) : string :=
  match s with
  | EmptyString => String S.dot tail
  | String c s => String mark (String c (frame s tail))
  end.
Definition ex_frames (l : list string) : string := foldr frame EmptyString l.

(** The field being read, and the fields after it. *)
Fixpoint ex_fields (s : string) : string * list string :=
  match s with
  | String k (String c rest as next) =>
      if Ascii.eqb k mark then let '(f, more) := ex_fields rest in (String c f, more)
      else let '(f, more) := ex_fields next in (EmptyString, f :: more)
  | _ => (EmptyString, [])
  end.
Lemma ex_fields_frames s l : ex_fields (frame s (ex_frames l)) = (s, l).
Proof.
  revert s. induction l as [|x l IH]; intros s; (induction s as [|c s IHs]; [|simpl; simpl in IHs; by rewrite IHs]); [done|].
  change (frame EmptyString (ex_frames (x :: l))) with (String S.dot (frame x (ex_frames l))).
  destruct (frame x (ex_frames l)) as [|c rest] eqn:E; [by destruct x|].
  change (ex_fields (String S.dot (String c rest))) with
    (let '(f, more) := ex_fields (String c rest) in (EmptyString, f :: more)).
  by rewrite <- E, IH.
Qed.

Definition ex_assignment (a : Assignment) : list string :=
  [as_Domain a; as_RouteTag a; as_RouteType a; as_RouteSetID a; as_AssignmentID a; as_MappingHash a].
Fixpoint ex_assignments (l : list string) : list Assignment :=
  match l with
  | d :: t :: y :: s :: i :: h :: rest => mkAssignment d t y s i h :: ex_assignments rest
  | _ => []
  end.
Lemma ex_assignments_back l : ex_assignments (concat (map ex_assignment l)) = l.
Proof. induction l as [|[] l IH]; [done|]. simpl. by rewrite IH. Qed.

(** The version is left out: only version 1 is ever read. *)
Definition ex_marshal (m : manifest) : string :=
  frame (mf_Generation m) (ex_frames (mf_RevisionID m :: mf_CandidateHash m :: mf_ArtifactManifestHash m ::
    concat (map ex_assignment (mf_Assignments m)))).
Definition ex_unmarshal (raw : string) : option manifest :=
  match ex_fields raw with
  | (g, r :: c :: h :: rest) => Some (mkManifest manifestVersion g r c h (ex_assignments rest))
  | _ => None
  end.

(** A stand-in for the digest: the text backwards, all of it allowed in a token. *)
Fixpoint ex_backwards (acc s : string) : string :=
  match s with
  | EmptyString => acc
  | String c s => ex_backwards (String (if S.lower_letter c || S.digit c then c else (Ascii.ascii_of_N 48)) acc) s
  end.
Definition ex_sha256 : string -> string := ex_backwards EmptyString.

Lemma ex_json_roundtrip : json_roundtrip ex_sha256 ex_marshal ex_unmarshal.
Proof.
  intros [v g r c h l] HR. unfold manifestReadable in HR. simpl in HR. destruct (v =? manifestVersion) eqn:E; [|done].
  apply Z.eqb_eq in E as ->. unfold ex_unmarshal, ex_marshal. rewrite ex_fields_frames. by rewrite ex_assignments_back.
Qed.

(** ** A deployment *)

Definition ex_digest_text : string := "sha256:00112233445566778899aabbccddeeff00112233445566778899aabbccddeeff".
Definition ex_env_text : string :=
  S.Join ["transaction_id=tx1"; "revision_id=rev2"; "candidate_hash=" +:+ ex_digest_text;
          "artifact_manifest_hash=" +:+ ex_digest_text] eol.
Definition ex_active : Active :=
  mkActive (ex_plan_config "" []) (Ok ex_digest_text) (Ok ()) (Content ex_env_text) Missing
    (fun _ _ _ => Ok [mkProxy "vless-a" "127.0.0.1" 5301]).
Definition ex_request (domain tag type id : string) : Request :=
  mkRequest "rev2" "rev2" ex_digest_text ex_digest_text domain tag type (routeID ex_sha256 tag)
    (assignmentID ex_sha256 domain) ex_digest_text id.
Definition ex_first : Request := ex_request "video.example" "vless-a" "vless" "req1".
Definition ex_second : Request := ex_request "chat.example" "zapret-1" "zapret" "req2".
Definition ex_empty : Disk := mkDisk None None ∅ (Loaded None).
Definition ex_run (op : operation) (f : Faults) (d : Disk) : Disk * option string :=
  run ex_sha256 ex_marshal ex_unmarshal (Ok ex_active) op f d.
(** The disk after the first assignment. *)
Definition ex_disk1 : Disk := (ex_run (DoApply ex_first) no_faults ex_empty).1.

(** dnsmasq does not restart with the new overlay. *)
Definition ex_restart_fails : Faults :=
  mkFaults None None None None None None None None (Some "exit status 1") None None None None None None.

Example first_assignment :
  (ex_run (DoApply ex_first) no_faults ex_empty).2 = None /\
  dk_include ex_disk1 =
    Some (S.Join [ "# FlintRoute owned route-only overlay revision=rev2";
                   "nftset=/video.example/4#inet#router_policy#route_a0sselv0etuo_v4,6#inet#router_policy#route_a0sselv0etuo_v6";
                   "server=/video.example/127.0.0.1#5301"; "" ] eol).
Proof. split; vm_compute; reflexivity. Qed.

(** The second assignment fails at the restart: files and overlay as before. *)
Lemma assignment_all_or_nothing_witness :
  (ex_run (DoApply ex_second) ex_restart_fails ex_disk1).2 = Some "dnsmasq restart after route assignment: exit status 1" /\
  untouched ex_restart_fails ex_disk1 (ex_run (DoApply ex_second) ex_restart_fails ex_disk1).1.
Proof.
  assert (HE : (ex_run (DoApply ex_second) ex_restart_fails ex_disk1).2 =
               Some "dnsmasq restart after route assignment: exit status 1") by (vm_compute; reflexivity).
  split; [exact HE|].
  pose proof (assignment_all_or_nothing ex_sha256 ex_marshal ex_unmarshal (Ok ex_active) (DoApply ex_second)
    ex_restart_fails ex_disk1 _ _ (surjective_pairing (ex_run (DoApply ex_second) ex_restart_fails ex_disk1))) as HT.
  rewrite HE in HT. destruct HT as [HT|[HT|HT]]; [exact HT|by destruct HT..].
Defined.

Definition ex_before : manifest := default zero_manifest (dk_manifest ex_disk1 ≫= ex_unmarshal).
Definition ex_disk2 : Disk := (ex_run (DoApply ex_second) no_faults ex_disk1).1.

Lemma ex_before_read : readManifest ex_sha256 ex_unmarshal (readFile None (dk_manifest ex_disk1)) = Ok (Some ex_before).
Proof. vm_compute. reflexivity. Qed.
Lemma ex_second_applied : Apply ex_sha256 ex_marshal ex_unmarshal (Ok ex_active) ex_second no_faults ex_disk1 = (ex_disk2, None).
Proof. vm_compute. reflexivity. Qed.

(** The rollback of the second assignment puts the first one back. *)
Lemma rollback_undoes_apply_witness :
  map as_Domain (mf_Assignments ex_before) = ["video.example"] /\
  exists values plan, readBindings ex_active = Ok values /\ loadPlan ex_active values = Ok plan /\
    let old := sorted (default (emptyManifest (bindingOf values)) (Some ex_before)) in
    match render ex_active plan old with
    | Ok content =>
        Rollback ex_sha256 ex_marshal ex_unmarshal (Ok ex_active) ex_second no_faults ex_disk2 =
          (mkDisk (Some (ex_marshal old)) (Some content) (delete (rq_RequestID ex_second) (dk_backups ex_disk1)) (Loaded (Some content)), None)
    | Err e => Rollback ex_sha256 ex_marshal ex_unmarshal (Ok ex_active) ex_second no_faults ex_disk2 = (ex_disk2, Some e)
    end.
Proof.
  split; [vm_compute; reflexivity|].
  refine (rollback_undoes_apply ex_sha256 ex_marshal ex_unmarshal ex_active ex_second no_faults ex_disk1 ex_disk2
    (Some ex_before) ex_json_roundtrip eq_refl ex_before_read ex_second_applied).
Defined.

(** ** A manifest of an earlier revision *)

(** The manifest and the overlay that revision [rev1] left behind. *)
Definition ex_stale : Disk :=
  mkDisk (Some (ex_marshal (mkManifest manifestVersion "rev1" "rev1" ex_digest_text ex_digest_text [assignmentFrom ex_first])))
    (Some (ownerMark +:+ " revision=rev1" +:+ eol)) ∅ (Loaded None).

(** With [rev2] committed, an assignment is refused because the manifest belongs
    to [rev1]; the rollback of that assignment, which has no backup, does not
    look: it loads the assignments of [rev1] into dnsmasq and reports success. *)
Theorem rollback_revives_stale_manifest :
  (ex_run (DoApply ex_second) no_faults ex_stale).2 = Some "route assignment manifest is bound to another active revision" /\
  (ex_run (DoRollback ex_second) no_faults ex_stale).2 = None /\
  dk_dns (ex_run (DoRollback ex_second) no_faults ex_stale).1 =
    Loaded (Some (S.Join [ "# FlintRoute owned route-only overlay revision=rev1";
                   "nftset=/video.example/4#inet#router_policy#route_a0sselv0etuo_v4,6#inet#router_policy#route_a0sselv0etuo_v6";
                   "server=/video.example/127.0.0.1#5301"; "" ] eol)) /\
  dk_dns (ex_run (DoReconcile None) no_faults ex_stale).1 =
    Loaded (Some ("# FlintRoute owned route-only overlay revision=rev2" +:+ eol)).
Proof. split_and!; vm_compute; reflexivity. Qed.
