(* ===== verification/ProbeExamples.v ===== *)
(** * A probe on a concrete network

    One service on a direct route, two country sources, a plan with one proof: the
    theorems about probing apply, and a resolver that answers with a private address
    first is not followed there; with the runs in which a probe departs from its
    intent. *)
From Stdlib Require Import ZArith Lia SpecFloat.
From stdpp Require Import base list strings gmap pretty.
From S2P Require Import Prelude Effects Float64 Net Config Json Validation Artifact JsonText Evidence Tspu Override Health Interfaces DomainCache Planner.
From S2P Require Import PlannerProofs PlannerExamples ProbeTypes ProbePath OpenWrtPath ProbeDNS PathProofs Probe DNSValidation ProbeProofs ProbeEffects ProbeSafety.

Open Scope Z_scope.

(** The network: the addresses connected to, and a counter. *)
Definition Net : Type := list IP.Addr * Z.
Definition net_now (k : Net) : Net * time := ((k.1, k.2 + 1), 1000000000 * k.2 + 1000000000).
Definition net_fqdn (s : string) : string := s +:+ ".".
Definition net_question (name : string) (qtype : Z) (k : Net) : Net * Msg := (k, mkMsg 7 false 0 false 0 [mkQuestion name qtype 1] [] 12).
Definition net_exchange (network server : string) (msg : Msg) : io Net (option Msg) := fail "unreachable".
Definition net_lookup (host : string) : io Net (list IP.Addr) := mret [IP.V4 (127 * 2 ^ 24 + 1); IP.V4 (93 * 2 ^ 24 + S.len host)].
Definition net_url (s : string) : option URL :=
  if s =s "https://shop.example/" then Some (mkURL "https" false "shop.example" "/" "" "")
  else if s =s "https://one.example/" then Some (mkURL "https" false "one.example" "/" "" "")
  else if s =s "https://source-two.example/" then Some (mkURL "https" false "source-two.example" "/" "" "") else None.
Definition country_body : string := String.concat (String (Ascii.ascii_of_nat 34) "") ["{"; "ip"; ":"; "93.0.0.9"; ","; "country"; ":"; "DE"; "}"].
Definition net_body (host : string) : string := if host =s "shop.example" then "welcome" else country_body.
Definition net_error (u : URL) (e : string) : string := u_Host u +:+ ": " +:+ e.
Definition net_trip (spec : DialSpec) (u : URL) (k : Net) : Net * Hop :=
  ((ds_Addr spec :: k.1, k.2),
   mkHop (Some (mkDialed (ds_Mark spec) (Some ("192.168.1.2", Some (addrString (ds_Addr spec)))))) (Ok (mkResponse 200 (net_body (u_Host u)) true None))).
Definition net_datagram (mark : Z) (k : Net) : Net * (Z * option string) := (k, (mark, None)).
Definition net_country (database : string) (age : duration) (addr : IP.Addr) : io Net string := mret "DE".
Definition net_hash (s : string) : string := "sha256:" +:+ s.

(** The router: its policy counts each reading. *)
Definition net_commands : OpenWrtCommands Net :=
  mkCommands (fun _ _ => mret (mkKernelRoute 100 "wan")) (mret [mkKernelRule "4" 10000 "0x1" 100]) (fun _ _ => mret true)
    (fun _ k => ((k.1, k.2 + 1), Ok (mkNFTPolicy k.2 {["direct_bypass"]} "not_applicable"))) (fun _ => mret true) (fun _ _ => mret "0x1").
Definition hash64 : string := String.concat "" (repeat "0123456789abcdef" 4).
Definition net_binding : Binding := mkBinding "tx_0123456789abcdef" "rev_1_0123456789ab" ("sha256:" +:+ hash64).
Definition net_active : string := String.concat (String nl "")
  ["transaction_id=tx_0123456789abcdef"; "revision_id=rev_1_0123456789ab"; "candidate_hash=sha256:" +:+ hash64;
   "artifact_manifest_hash=sha256:" +:+ hash64; "transaction_state=committed"].
Definition net_read (path : string) (limit : Z) : io Net string := if path =s "/state/active" then mret net_active else fail "no such file".
Definition net_wait (d : duration) : io Net unit := mret ().
Definition direct_proof : RouteProof := mkProof "direct" "direct" "0x1" 100 10000 false true false true false false false false "REQUIRED".
Definition net_verifier : OpenWrtPathVerifier :=
  mkPathVerifier "/artifacts" "/state/active" net_binding ("sha256:" +:+ hash64) (mkVerificationPlan net_binding [direct_proof] true true true) false.

Definition direct_route : Route := Build_Route "direct" "direct" 10 false "" "" false "" "" "" true false "" "0x1" false.
Definition shop_check : ProbeCheck := Build_ProbeCheck "home" "https://shop.example/" true [200] "required" ["Welcome"] [] [] false.
Definition shop : Service := mkService "DIRECT_ONLY" "" ["shop.example"] ["direct"] [] "" true [shop_check].
Definition net_config : Config :=
  Build_Config 0 (mkPlatform "openwrt" false false "") zero_Storage
    (let none := S754_zero false in
     Build_Policy "" "" 0 0 (mkWeights none none none none) false 0 0 0 0 0 0 0 0 0 0 "" 0 0 10 0 false false false false "" 0 0)
    zero_Xray zero_Zapret
    (mkGeoIP "" "" "" 0 0 "" [mkEndpoint "one" "country_is" "https://one.example/"; mkEndpoint "two" "country_is" "https://source-two.example/"])
    (mkOpenWrt "" "" "" "" 0 0 0) [] ∅ [] zero_Notifications [].

Definition net_probe : io Net ProbeResult :=
  probeRoute net_now net_fqdn (fun _ => "code") net_question net_exchange net_exchange net_lookup net_url net_error net_trip net_datagram net_country net_hash
    (activeEngine net_now net_read net_wait net_commands net_verifier) net_config "shop.example" "shop" shop direct_route "".
Definition net_start : Net := ([], 5).
Definition probed : ProbeResult := match (net_probe net_start).2 with Ok r => r | Err _ => zero_ProbeResult end.

Example ex_probe_runs : (net_probe net_start).2 = Ok probed.
Proof. vm_compute. reflexivity. Qed.
Example ex_probe_OK : pr_Status probed = "OK".
Proof. vm_compute. reflexivity. Qed.
Notation net_proved := (path_proved net_now net_fqdn (fun _ => "code") net_question net_exchange net_exchange net_lookup net_url net_error net_trip net_datagram net_country net_hash
    net_read net_wait net_commands net_verifier).

(** The log of the network is one that the theorem on connections asks for; the
    private address the resolver gives first is skipped. *)
Definition unproved_probe : io Net ProbeResult :=
  probeRoute net_now net_fqdn (fun _ => "code") net_question net_exchange net_exchange net_lookup net_url net_error net_trip net_datagram net_country net_hash
    unavailableProofVerifier net_config "shop.example" "shop" shop direct_route "".
Example ex_dials : (unproved_probe net_start).1.1 = [IP.V4 (93 * 2 ^ 24 + 18); IP.V4 (93 * 2 ^ 24 + 11); IP.V4 (93 * 2 ^ 24 + 12)].
Proof. vm_compute. reflexivity. Qed.
Lemma net_logged : logged (fun k : Net => k.1) net_now net_question net_exchange net_exchange net_lookup net_trip net_datagram net_country unavailableProofVerifier.
Proof. by split. Qed.
Lemma probes_dial_public_witness :
  exists added, (unproved_probe net_start).1.1 = added ++ [] /\ Forall (fun a => isUnsafeAddr a = false) added.
Proof.
  exact (probes_dial_public (fun k : Net => k.1) net_now net_fqdn (fun _ => "code") net_question net_exchange net_exchange net_lookup net_url net_error net_trip
    net_datagram net_country net_hash unavailableProofVerifier net_config "shop.example" "shop" shop direct_route "" net_start net_logged eq_refl).
Defined.

(** The reason of a failed transport is read from a text that has the URL in it: a
    refused connection to a host whose name contains [tls] is a TLS failure. *)
Definition refused_trip (spec : DialSpec) (u : URL) (k : Net) : Net * Hop := (k, mkHop (Some (mkDialed (ds_Mark spec) None)) (Err "connect: connection refused")).
Definition named_url (host : string) : URL := mkURL "https" false host "/" "" "".
Definition refused_reason (host : string) : string :=
  match (runHTTPAttempt net_now net_error refused_trip net_config direct_route shop_check (named_url host) host "443" (IP.V4 (93 * 2 ^ 24 + 7)) net_start).2 with
  | Ok a => at_Reason a | Err _ => "" end.
Example host_name_decides_the_reason : refused_reason "shop.example" = "transport_failed" /\ refused_reason "tls.example" = "tls_failed".
Proof. split; vm_compute; reflexivity. Qed.

(** One connection of the table is taken for another whose addresses it begins with. *)
Example conntrack_prefix : parseConntrack
  ("tcp src=10.0.0.10 dst=1.1.1.10 mark=0x2" +:+ String nl "tcp src=10.0.0.1 dst=1.1.1.1 mark=0x1") "10.0.0.1" "1.1.1.1" = Ok "0x2".
Proof. vm_compute. reflexivity. Qed.

(** Apostrophes for the quotes of JSON. *)
Definition json_text (s : string) : string := S.map_bytes (fun c => if S.is_byte 39 c then Ascii.ascii_of_nat 34 else c) s.
(** An expression of a rule that is no counter adds 254 packets to its count. *)
Example uncounted_expressions_count :
  np_Counter <$> (match parseNFTPolicy (fun _ l => l)
      (json_text "{'nftables':[{'rule':{'comment':'route=direct action=direct_bypass','expr':[{'match':{}},{'accept':null}]}}]}") "direct"
    with Ok p => Some p | Err _ => None end) = Some 508.
Proof. vm_compute. reflexivity. Qed.

(** An answer with one alias: the record of the alias counts, another does not. *)
Definition asked_msg : Msg := mkMsg 7 false 0 false 0 [mkQuestion "www.shop.example." 1 1] [] 30.
Definition alias_answer : Msg :=
  mkMsg 7 true 0 false 0 [mkQuestion "WWW.shop.example." 1 1]
    [CNAME "www.shop.example." "Edge.cdn.example."; RecordA "edge.cdn.example." [93; 0; 0; 7]; RecordA "other.example." [93; 0; 0; 8]] 90.
Example ex_alias_answer : validateDNSResponse net_fqdn (fun _ => "code") asked_msg (Some alias_answer) "www.shop.example" TypeA = Ok [IP.V4 (93 * 2 ^ 24 + 7)].
Proof. vm_compute. reflexivity. Qed.
Lemma answer_is_for_the_question_witness : exists rr owner bytes, rr ∈ m_Answer alias_answer /\ address_record TypeA rr owner bytes /\
  AddrFromSlice bytes = Some (IP.V4 (93 * 2 ^ 24 + 7)) /\ named (m_Answer alias_answer) (S.ToLower (net_fqdn "www.shop.example")) (S.ToLower owner).
Proof.
  destruct (answer_is_for_the_question net_fqdn (fun _ => "code") asked_msg alias_answer "www.shop.example" TypeA _ ex_alias_answer) as (_ & _ & _ & _ & H & _).
  apply (H (IP.V4 (93 * 2 ^ 24 + 7))). by left.
Defined.

Definition shop_config : Config :=
  Build_Config 0 (mkPlatform "openwrt" false false "") zero_Storage (ex_plan_policy "") zero_Xray zero_Zapret
    (c_GeoIP net_config) (c_OpenWrt net_config) [direct_route] {["shop" := shop]} [] zero_Notifications [].
Definition engine_run (domain name : string) (svc : Service) (route : Route) : io Net ProbeResult :=
  probeRoute net_now net_fqdn (fun _ => "code") net_question net_exchange net_exchange net_lookup net_url net_error net_trip net_datagram net_country net_hash
    (activeEngine net_now net_read net_wait net_commands net_verifier) shop_config domain name svc route "".
Definition engine_prober (n : nat) (domain name : string) (svc : Service) (route : Route) : RouteResult :=
  match (engine_run domain name svc route net_start).2 with Ok r => shown r | Err _ => shown zero_ProbeResult end.
Definition shop_options : Options :=
  mkOptions false (mkMatch "" "" "" "" [] F.zero false "" "") (Some ∅) "rev_1_0123456789ab" "".
#[local] Instance shop_cache : DecisionCache (Manager (MemStore Decision)) := manager_cache ex_ascii ex_etld.
Definition shop_domain_check :=
  CheckDomain (C := Manager (MemStore Decision)) ex_digest ex_ascii ex_etld (ex_env engine_prober) (Some shop_config) "shop.example" "shop" shop_options None.

Lemma engine_probes : probes_are_runs net_now net_fqdn (fun _ => "code") net_question net_exchange net_exchange net_lookup net_url net_error net_trip net_datagram
  net_country net_hash net_read net_wait net_commands net_verifier shop_config (ex_env engine_prober).
Proof.
  intros n domain name svc route. destruct (every_probe_has_a_result net_now net_fqdn (fun _ => "code") net_question net_exchange net_exchange net_lookup
    net_url net_error net_trip net_datagram net_country net_hash (activeEngine net_now net_read net_wait net_commands net_verifier)
    shop_config domain name svc route "" net_start) as (k' & r & E).
  exists net_start, k', r. split; [exact E|]. cbn. unfold engine_prober, engine_run. by rewrite E.
Qed.
Definition shop_selected : RouteResult := default (shown zero_ProbeResult) (ck_Selected (checkOf shop_domain_check)).
Example ex_shop_selected : ck_Selected (checkOf shop_domain_check) = Some shop_selected /\ rr_Route shop_selected = "direct".
Proof. split; vm_compute; reflexivity. Qed.
