(* ===== verification/Store.v ===== *)
(** * The state store

    [internal/state/state.go]: buckets of JSON documents in a bbolt database,
    with write metrics and retention.  A database maps bucket names to maps from
    keys to encoded documents; a [View] or [Update] of bbolt either runs its
    function atomically or fails as a whole, which the [Faults] of a call decide.
    Encoding and decoding JSON, and parsing time stamps, are parameters. *)
From Stdlib Require Import ZArith Lia.
From stdpp Require Import base list strings gmap sorting.
From S2P Require Import Prelude Float64 Config Health Interfaces.

Open Scope Z_scope.

Abbreviation DB := (gmap string (gmap string string)) (only parsing).

Record retentionPolicy := mkRetention {
  maxProbeResults : Z;
  maxEvents : Z;
  eventRetention : duration;
  changeSetRetention : duration;
  transactionRetention : duration;
  backupInterval : duration;
  compactInterval : duration;
  maxBackups : Z;
  maxDatabaseBytes : Z
}.

Record WriteMetrics := mkMetrics {
  PersistentTransactions : Z;
  PersistentBytes : Z;
  NoopWrites : Z;
  RuntimeProbeWrites : Z;
  LastPersistentReason : string;
  LastPersistentAt : time
}.

Record Store := mkStore {
  st_db : DB;
  st_probes : list RouteResult;
  st_metrics : WriteMetrics;
  st_retention : retentionPolicy
}.

#[export] Instance eta_Metrics : Eta WriteMetrics := fun m =>
  mkMetrics (PersistentTransactions m) (PersistentBytes m) (NoopWrites m) (RuntimeProbeWrites m)
    (LastPersistentReason m) (LastPersistentAt m).
Definition set_NoopWrites v (m : WriteMetrics) : WriteMetrics := ltac:(assign m NoopWrites v).
Definition set_RuntimeProbeWrites v (m : WriteMetrics) : WriteMetrics := ltac:(assign m RuntimeProbeWrites v).
#[export] Instance eta_Store : Eta Store := fun s => mkStore (st_db s) (st_probes s) (st_metrics s) (st_retention s).
Definition set_st_db v (s : Store) : Store := ltac:(assign s st_db v).
Definition set_st_probes v (s : Store) : Store := ltac:(assign s st_probes v).
Definition set_st_metrics v (s : Store) : Store := ltac:(assign s st_metrics v).

Definition positiveOr (value fallback : Z) : Z := if 0 <? value then value else fallback.
Definition days (value : Z) : duration := wrap64 (wrap64 (value * 24) * hour).

(** The counters are [uint64]. *)
Definition wrap_u64 (x : Z) : Z := x mod 2 ^ 64.

Definition recordPersistentWriteLocked (now : time) (reason : string) (bytesWritten : Z) (s : Store) : Store :=
  let m := st_metrics s in
  set_st_metrics (mkMetrics (wrap_u64 (PersistentTransactions m + 1)) (wrap_u64 (PersistentBytes m + bytesWritten))
                    (NoopWrites m) (RuntimeProbeWrites m) reason now) s.
Definition noopWrite (s : Store) : Store :=
  set_st_metrics (set_NoopWrites (wrap_u64 (NoopWrites (st_metrics s) + 1)) (st_metrics s)) s.

(** How one call can fail: the fault hook, reading, and committing. *)
Record Faults := mkFaults {
  f_hook : option string;
  f_view : option string;
  f_update : option string
}.
Definition no_faults : Faults := mkFaults None None None.

Definition lookupKey (db : DB) (bucket key : string) : option string :=
  docs ← db !! bucket; docs !! key.
(** [CreateBucketIfNotExists] and [Put]. *)
Definition put (bucket key value : string) (db : DB) : DB :=
  <[bucket := <[key := value]> (default ∅ (db !! bucket))]> db.
Definition createBucket (bucket : string) (db : DB) : DB :=
  match db !! bucket with Some _ => db | None => <[bucket := ∅]> db end.

(** ** Saving *)

(** [encoded] is [json.Marshal(value)]. *)
Definition SaveJSON (now : time) (f : Faults) (bucket key : string) (encoded : result string) (s : Store)
    : Store * option string :=
  if (bucket =s "") || (key =s "") then (s, Some "bucket and key are required")
  else match encoded with
  | Err e => (s, Some e)
  | Ok b =>
      match f_hook f, f_view f with
      | Some e, _ => (s, Some e)
      | None, Some e => (s, Some e)
      | None, None =>
          if bool_decide (lookupKey (st_db s) bucket key = Some b) then (noopWrite s, None)
          else match f_update f with
          | Some e => (s, Some e)
          | None => (set_st_db (put bucket key b (st_db s)) s
                       |> recordPersistentWriteLocked now ("save_json:" +:+ bucket) (S.len b), None)
          end
      end
  end.

Record Entry := mkEntry { en_Bucket : string; en_Key : string; en_Value : result string }.

(** The encoded entries, or the first error of the loop. *)
Fixpoint encodeEntries (entries : list Entry) : result (list (string * string * string)) :=
  match entries with
  | [] => Ok []
  | e :: rest =>
      if (en_Bucket e =s "") || (en_Key e =s "") then Err "bucket and key are required"
      else match en_Value e with
           | Err err => Err err
           | Ok raw => encoded ← encodeEntries rest; Ok ((en_Bucket e, en_Key e, raw) :: encoded)
           end
  end.

Definition putAll (encoded : list (string * string * string)) (db : DB) : DB :=
  foldl (fun db '(b, k, raw) => put b k raw db) db encoded.
Definition encodedBytes (encoded : list (string * string * string)) : Z :=
  foldl (fun n '(_, _, raw) => n + S.len raw) 0 encoded.
Definition allIdentical (db : DB) (encoded : list (string * string * string)) : bool :=
  forallb (fun '(b, k, raw) => bool_decide (lookupKey db b k = Some raw)) encoded.

Definition SaveBatch (now : time) (f : Faults) (entries : list Entry) (s : Store) : Store * option string :=
  match encodeEntries entries with
  | Err e => (s, Some e)
  | Ok encoded =>
      match f_hook f, f_view f with
      | Some e, _ => (s, Some e)
      | None, Some e => (s, Some e)
      | None, None =>
          if allIdentical (st_db s) encoded then (noopWrite s, None)
          else match f_update f with
          | Some e => (s, Some e)
          | None => (set_st_db (putAll encoded (st_db s)) s
                       |> recordPersistentWriteLocked now "save_batch" (encodedBytes encoded), None)
          end
      end
  end.

Definition applicationBuckets : list string :=
  ["probes"; "changes"; "events"; "revisions"; "transactions"; "candidates"; "route_health"; "backups"].

(** No application data: [None] where [meta] is missing. *)
Definition emptyState (db : DB) : option bool :=
  if any (fun name => match db !! name with Some docs => bool_decide (docs <> ∅) | None => false end)
       applicationBuckets
  then Some false
  else match db !! "meta" with
       | None => None
       | Some meta => Some (bool_decide (dom meta ⊆ {["schema_version"]}))
       end.

Definition InitializeIfEmpty (now : time) (f : Faults) (entries : list Entry) (s : Store)
    : Store * (bool * option string) :=
  match entries with
  | [] => (s, (false, Some "initial state entries are required"))
  | _ =>
      match encodeEntries entries with
      | Err e => (s, (false, Some e))
      | Ok encoded =>
          match f_update f with
          | Some e => (s, (false, Some e))
          | None =>
              match emptyState (st_db s) with
              | None => (s, (false, Some "meta bucket is missing"))
              | Some false => (noopWrite s, (false, None))
              | Some true =>
                  (set_st_db (putAll encoded (st_db s)) s
                     |> recordPersistentWriteLocked now "initialize_empty_state" (encodedBytes encoded),
                   (true, None))
              end
          end
      end
  end.

(** ** Reading and deleting *)

Definition GetRaw (f : Faults) (bucket key : string) (s : Store) : string + store_error :=
  if (bucket =s "") || (key =s "") then inr (StoreFailure "bucket and key are required")
  else match f_view f with
  | Some e => inr (StoreFailure e)
  | None => match lookupKey (st_db s) bucket key with
            | Some raw => inl raw
            | None => inr ErrNotFound
            end
  end.

(** [LoadJSON]: [decode] is [json.Unmarshal] into the caller's type. *)
Definition LoadJSON {V} (decode : string -> result V) (f : Faults) (bucket key : string) (s : Store) : V + store_error :=
  match GetRaw f bucket key s with
  | inr e => inr e
  | inl raw => match decode raw with Ok v => inl v | Err e => inr (StoreFailure e) end
  end.

(** [ForEach] and cursors visit the keys in byte order. *)
Definition inOrder (docs : gmap string string) : list (string * string) := gosort (key_slt fst) (map_to_list docs).

Definition ListRaw (f : Faults) (bucket : string) (s : Store) : list string + store_error :=
  if bucket =s "" then inr (StoreFailure "bucket is required")
  else match f_view f with
  | Some e => inr (StoreFailure e)
  | None => inl (map snd (inOrder (default ∅ (st_db s !! bucket))))
  end.

Definition Delete (now : time) (f : Faults) (bucket key : string) (s : Store) : Store * option string :=
  if (bucket =s "") || (key =s "") then (s, Some "bucket and key are required")
  else match f_view f with
  | Some e => (s, Some e)
  | None =>
      match lookupKey (st_db s) bucket key with
      | None => (noopWrite s, None)
      | Some _ =>
          match f_update f with
          | Some e => (s, Some e)
          | None => (set_st_db (alter (delete key) bucket (st_db s)) s
                       |> recordPersistentWriteLocked now ("delete:" +:+ bucket) 0, None)
          end
      end
  end.

(** [PutInt64] and [GetInt64]; [encode] and [decode] are the JSON of an int64. *)
Definition PutInt64 (encode : Z -> string) (now : time) (f : Faults) (key : string) (value : Z) (s : Store)
    : Store * option string :=
  SaveJSON now f "meta" key (Ok (encode value)) s.
Definition GetInt64 (decode : string -> result Z) (f : Faults) (key : string) (fallback : Z) (s : Store)
    : Z + store_error :=
  match LoadJSON decode f "meta" key s with
  | inr ErrNotFound => inl fallback
  | r => r
  end.

(** ** Probe results and route health *)

Definition StoreProbeResult (result : RouteResult) (s : Store) : Store :=
  let probes := st_probes s ++ [result] in
  let max := maxProbeResults (st_retention s) in
  let excess := Z.of_nat (length probes) - max in
  let probes := if 0 <? excess then take (Z.to_nat max) (drop (Z.to_nat excess) probes) else probes in
  s |> set_st_probes probes
    |> set_st_metrics (set_RuntimeProbeWrites (wrap_u64 (RuntimeProbeWrites (st_metrics s) + 1)) (st_metrics s)).

(** Latest first. *)
Definition ListProbeResults (limit : Z) (s : Store) : list RouteResult :=
  let max := maxProbeResults (st_retention s) in
  let limit := if (limit <=? 0) || (max <? limit) then max else limit in
  let limit := if Z.of_nat (length (st_probes s)) <? limit then Z.of_nat (length (st_probes s)) else limit in
  take (Z.to_nat limit) (reverse (st_probes s)).

Record persistentRouteHealth := mkPersistent {
  ph_RouteTag : string;
  ph_RouteType : string;
  ph_State : string;
  ph_Role : string;
  ph_RoleHoldUntil : time;
  ph_LastStatus : string;
  ph_LastReason : string;
  ph_AdapterRevision : string;
  ph_CandidateHash : string;
  ph_ArtifactManifestHash : string;
  ph_ExternalIPHash : string;
  ph_ExternalCountry : string
}.
#[export] Instance persistent_eq : EqDecision persistentRouteHealth.
Proof. solve_decision. Defined.

Definition routeHealthPersistentView (h : RouteHealth) : persistentRouteHealth :=
  mkPersistent (h_RouteTag h) (h_RouteType h) (h_State h) (h_Role h) (h_RoleHoldUntil h) (h_LastStatus h)
    (h_LastReason h) (h_AdapterRevision h) (h_CandidateHash h) (h_ArtifactManifestHash h) (h_ExternalIPHash h)
    (h_ExternalCountry h).

Section RouteHealthBucket.
Context (encode : RouteHealth -> result string) (decode : string -> result RouteHealth).

Definition SaveRouteHealth (now : time) (f : Faults) (health : RouteHealth) (s : Store) : Store * option string :=
  if h_RouteTag health =s "" then (s, Some "route health tag is required")
  else match LoadJSON decode f "route_health" (h_RouteTag health) s with
  | inl previous =>
      if bool_decide (routeHealthPersistentView previous = routeHealthPersistentView health)
      then (noopWrite s, None)
      else SaveJSON now f "route_health" (h_RouteTag health) (encode health) s
  | inr ErrNotFound => SaveJSON now f "route_health" (h_RouteTag health) (encode health) s
  | inr (StoreFailure e) => (s, Some e)
  end.

Fixpoint decodeHealths (raws : list string) : result (list RouteHealth) :=
  match raws with
  | [] => Ok []
  | raw :: rest =>
      match decode raw with
      | Err _ => Err "invalid persisted route health"
      | Ok health =>
          if h_RouteTag health =s "" then Err "invalid persisted route health"
          else healths ← decodeHealths rest; Ok (health :: healths)
      end
  end.

Definition ListRouteHealth (f : Faults) (s : Store) : result (list RouteHealth) :=
  match ListRaw f "route_health" s with
  | inr ErrNotFound => Ok []
  | inr (StoreFailure e) => Err e
  | inl raws => healths ← decodeHealths raws; Ok (gosort (key_slt h_RouteTag) healths)
  end.
End RouteHealthBucket.

(** ** Schema *)

Definition CurrentSchemaVersion : Z := 3.

Section Schema.
(** The JSON of an [int]. *)
Context (encodeInt : Z -> string) (decodeInt : string -> result Z).

Definition readVersion (meta : gmap string string) : result Z :=
  match meta !! "schema_version" with
  | None => Ok 0
  | Some raw => match decodeInt raw with Ok v => Ok v | Err _ => Err "invalid schema version" end
  end.

Definition migration (version : Z) (db : DB) : result DB :=
  if version =? 1 then
    Ok (foldl (fun db name => createBucket name db) db
          ["probes"; "changes"; "events"; "revisions"; "transactions"; "candidates"; "meta"])
  else if version =? 2 then Ok (createBucket "route_health" db)
  else if version =? 3 then Ok (createBucket "backups" db)
  else Err "no migration".

(** [for version < CurrentSchemaVersion]: at most [fuel] migrations. *)
Fixpoint migrate (fuel : nat) (version : Z) (db : DB) : result DB :=
  if version <? CurrentSchemaVersion then
    match fuel with
    | O => Err "out of fuel"
    | S fuel =>
        db ← migration (version + 1) db;
        migrate fuel (version + 1) (put "meta" "schema_version" (encodeInt (version + 1)) db)
    end
  else Ok db.

Definition schemaReady (db : DB) : result bool :=
  match db !! "meta" with
  | None => Ok false
  | Some meta =>
      version ← readVersion meta;
      Ok ((version =? CurrentSchemaVersion) &&
          forallb (fun name => match db !! name with Some _ => true | None => false end)
            ["probes"; "changes"; "events"; "revisions"; "transactions"; "candidates"; "meta"; "route_health"; "backups"])
  end.

(** [init], named for Rocq: three migrations suffice from version 0. *)
Definition initSchema (f : Faults) (s : Store) : Store * option string :=
  match f_view f with
  | Some e => (s, Some e)
  | None =>
      match schemaReady (st_db s) with
      | Err e => (s, Some e)
      | Ok true => (s, None)
      | Ok false =>
          match f_update f with
          | Some e => (s, Some e)
          | None =>
              let db := createBucket "meta" (st_db s) in
              match (version ← readVersion (default ∅ (db !! "meta")); migrate 3 version db) with
              | Err e => (s, Some e)
              | Ok db => (set_st_db db s, None)
              end
          end
      end
  end.

Definition SchemaVersion (f : Faults) (s : Store) : Z + store_error :=
  LoadJSON decodeInt f "meta" "schema_version" s.
End Schema.

(** ** Retention *)

Record CleanupStats := mkStats { cs_Probes : Z; cs_Events : Z; cs_ChangeSets : Z; cs_Transactions : Z }.
Definition no_stats : CleanupStats := mkStats 0 0 0 0.

Definition terminalStates : list string :=
  ["committed"; "rolled_back"; "failed"; "rollback_failed"; "expired"; "requires_device"].

Definition bucketCount (docs : option (gmap string string)) : Z :=
  match docs with None => 0 | Some docs => Z.of_nat (size docs) end.

Section Retention.
(** The string fields of a JSON object ([Err] where it is not one), and
    [time.Parse] of RFC 3339. *)
Context (fieldsOf : string -> result (gmap string string)) (parseTime : string -> option time).
(** The keys a cursor visits on a bucket while the loop deletes some of them:
    bbolt does not promise that none is skipped after a deletion. *)
Context (walk : gmap string string -> (string -> string -> bool) -> list (string * string)).

Definition isTerminal (terminal : option (list string)) (item : gmap string string) : bool :=
  match terminal with
  | None => true
  | Some names => containsString names (default "" (item !! "state"))
  end.

Definition timestampOf (item : gmap string string) (field : string) : option time :=
  text ← item !! field; parseTime text.

Definition expiredByAny (cutoff : time) (fields : list string) (terminal : option (list string)) (raw : string) : bool :=
  match fieldsOf raw with
  | Err _ => false
  | Ok item =>
      isTerminal terminal item &&
      any (fun field => match timestampOf item field with Some t => T.Before t cutoff | None => false end) fields
  end.

Definition hasExpired (docs : option (gmap string string)) (cutoff : time) (fields : list string)
    (terminal : option (list string)) : bool :=
  match docs with
  | None => false
  | Some docs => any (fun kv => expiredByAny cutoff fields terminal kv.2) (inOrder docs)
  end.

Definition hasOrphanCandidates (candidates changes : option (gmap string string)) : bool :=
  match candidates, changes with
  | Some candidates, Some changes =>
      any (fun kv => match changes !! kv.1 with None => true | Some _ => false end) (inOrder candidates)
  | _, _ => false
  end.

(** The first of the fields that parses. *)
Fixpoint stampOf (item : gmap string string) (fields : list string) : time :=
  match fields with
  | [] => T.zero
  | field :: rest => match timestampOf item field with Some t => t | None => stampOf item rest end
  end.

(** Whether the loop of [deleteExpired] deletes a document; [None] where it
    returns the decoding error. *)
Definition deletes (cutoff : time) (fields : list string) (terminal : option (list string)) (raw : string)
    : option bool :=
  match fieldsOf raw with
  | Err _ => None
  | Ok item =>
      Some (isTerminal terminal item &&
            (let stamp := stampOf item fields in negb (T.IsZero stamp) && T.Before stamp cutoff))
  end.

Fixpoint deleteLoop (cutoff : time) (fields : list string) (terminal : option (list string))
    (visited : list (string * string)) (docs : gmap string string) (deleted : Z) : result (gmap string string * Z) :=
  match visited with
  | [] => Ok (docs, deleted)
  | (key, raw) :: rest =>
      match deletes cutoff fields terminal raw with
      | None => Err "invalid JSON"
      | Some true => deleteLoop cutoff fields terminal rest (delete key docs) (deleted + 1)
      | Some false => deleteLoop cutoff fields terminal rest docs deleted
      end
  end.

Definition deleteExpired (docs : option (gmap string string)) (cutoff : time) (fields : list string)
    (terminal : option (list string)) : result (option (gmap string string) * Z) :=
  match docs with
  | None => Ok (None, 0)
  | Some docs =>
      '(docs, deleted) ← deleteLoop cutoff fields terminal
        (walk docs (fun _ raw => default false (deletes cutoff fields terminal raw))) docs 0;
      Ok (Some docs, deleted)
  end.

(** Deletes the first keys until [max] are left. *)
Definition trimBucket (docs : option (gmap string string)) (max : Z) : option (gmap string string) :=
  match docs with
  | None => None
  | Some docs =>
      if max <=? 0 then Some docs
      else
        let excess := Z.to_nat (Z.of_nat (size docs) - max) in
        Some (foldl (fun docs key => delete key docs) docs (take excess (map fst (inOrder docs))))
  end.

Definition dropOrphans (candidates changes : option (gmap string string)) : option (gmap string string) :=
  match candidates, changes with
  | Some candidates, Some changes =>
      let orphan key := match changes !! key with None => true | Some _ => false end in
      Some (foldl (fun docs kv => if orphan kv.1 then delete kv.1 docs else docs) candidates
              (walk candidates (fun key _ => orphan key)))
  | c, _ => c
  end.

Definition setBucket (name : string) (docs : option (gmap string string)) (db : DB) : DB :=
  match docs with None => db | Some docs => <[name := docs]> db end.

Definition cleanupNeeded (now : time) (s : Store) : bool :=
  let db := st_db s in
  let r := st_retention s in
  (maxProbeResults r <? bucketCount (db !! "probes")) || (maxEvents r <? bucketCount (db !! "events"))
  || hasExpired (db !! "events") (T.Add now (- eventRetention r)) ["time"] None
  || hasExpired (db !! "changes") (T.Add now (- changeSetRetention r)) ["updated_at"] (Some terminalStates)
  || hasExpired (db !! "transactions") (T.Add now (- transactionRetention r)) ["completed_at"; "updated_at"]
       (Some terminalStates)
  || hasOrphanCandidates (db !! "candidates") (db !! "changes").

(** The function of the [Update]. *)
Definition cleanupTx (now : time) (r : retentionPolicy) (db : DB) : result (DB * CleanupStats) :=
  let probes := trimBucket (db !! "probes") (maxProbeResults r) in
  let nProbes := bucketCount (db !! "probes") - bucketCount probes in
  '(events, expired) ← deleteExpired (db !! "events") (T.Add now (- eventRetention r)) ["time"] None;
  let trimmed := trimBucket events (maxEvents r) in
  let nEvents := expired + (bucketCount events - bucketCount trimmed) in
  '(changes, nChanges) ← deleteExpired (db !! "changes") (T.Add now (- changeSetRetention r)) ["updated_at"]
                           (Some terminalStates);
  let candidates := dropOrphans (db !! "candidates") changes in
  '(transactions, nTransactions) ← deleteExpired (db !! "transactions") (T.Add now (- transactionRetention r))
                                     ["completed_at"; "updated_at"] (Some terminalStates);
  Ok (db |> setBucket "probes" probes |> setBucket "events" trimmed |> setBucket "changes" changes
         |> setBucket "candidates" candidates |> setBucket "transactions" transactions,
      mkStats nProbes nEvents nChanges nTransactions).

(** On an error the statistics counted so far are returned in Go; they are
    left out here. *)
Definition Cleanup (clock now : time) (f : Faults) (s : Store) : Store * (CleanupStats * option string) :=
  match f_view f with
  | Some e => (s, (no_stats, Some e))
  | None =>
      if negb (cleanupNeeded now s) then (noopWrite s, (no_stats, None))
      else match cleanupTx now (st_retention s) (st_db s) with
      | Err e => (s, (no_stats, Some e))
      | Ok (db, stats) =>
          match f_update f with
          | Some e => (s, (stats, Some e))
          | None => (set_st_db db s |> recordPersistentWriteLocked clock "retention_cleanup" 0, (stats, None))
          end
      end
  end.
End Retention.
