(* ===== verification/StoreProofs.v ===== *)
(** * The state store is correct

    Theorems on [Store]: it implements the [KVStore] interface of its clients,
    batches are atomic, the schema migrations, the probe ring and the
    retention; with the databases at which they are applied. *)
From Stdlib Require Import ZArith Lia.
From stdpp Require Import base list strings gmap sorting.
From S2P Require Import Prelude Float64 Config Health Interfaces Store DomainCache.
Open Scope Z_scope.

(** ** Databases *)

Lemma lookupKey_put b k v db b' k' :
  lookupKey (put b k v db) b' k' = if decide (b = b' /\ k = k') then Some v else lookupKey db b' k'.
Proof.
  unfold lookupKey, put. destruct (decide (b = b')) as [->|Hb].
  - rewrite lookup_insert_eq. simpl. destruct (decide (k = k')) as [->|Hk].
    + rewrite decide_True by done. apply lookup_insert_eq.
    + rewrite decide_False by tauto. rewrite lookup_insert_ne by done. by destruct (db !! b').
  - rewrite decide_False by tauto. by rewrite lookup_insert_ne.
Qed.

Lemma lookupKey_delete b k db b' k' :
  lookupKey (alter (delete k) b db) b' k' = if decide (b = b' /\ k = k') then None else lookupKey db b' k'.
Proof.
  unfold lookupKey. destruct (decide (b = b')) as [->|Hb].
  - rewrite lookup_alter_eq. destruct (db !! b') as [docs|]; simpl; [|by case_decide].
    destruct (decide (k = k')) as [->|Hk].
    + rewrite decide_True by done. apply lookup_delete_eq.
    + rewrite decide_False by tauto. by rewrite lookup_delete_ne.
  - rewrite decide_False by tauto. by rewrite lookup_alter_ne.
Qed.

Lemma lookupKey_createBucket name db b k : lookupKey (createBucket name db) b k = lookupKey db b k.
Proof.
  unfold lookupKey, createBucket. destruct (db !! name) eqn:E; [done|].
  destruct (decide (name = b)) as [->|]; [by rewrite lookup_insert_eq, E|by rewrite lookup_insert_ne].
Qed.

(** The last entry of a batch for a key. *)
Definition lastOf (encoded : list (string * string * string)) (b k : string) : option string :=
  foldl (fun acc '(b', k', raw) => if decide (b' = b /\ k' = k) then Some raw else acc) None encoded.

Lemma lookupKey_putAll encoded db b k :
  lookupKey (putAll encoded db) b k = match lastOf encoded b k with Some raw => Some raw | None => lookupKey db b k end.
Proof.
  unfold putAll, lastOf. induction encoded as [|[[b' k'] raw] l IH] using rev_ind; [done|].
  rewrite !foldl_snoc, lookupKey_put. by destruct (decide (b' = b /\ k' = k)).
Qed.

Lemma lastOf_elem encoded b k raw : lastOf encoded b k = Some raw -> (b, k, raw) ∈ encoded.
Proof.
  unfold lastOf. induction encoded as [|[[b' k'] raw'] l IH] using rev_ind; [done|].
  rewrite foldl_snoc, elem_of_app, list_elem_of_singleton. case_decide as E; [|by left; apply IH].
  destruct E as [-> ->]. intros [= ->]. by right.
Qed.

(** ** The store of the clients *)

(** A store with the clock readings and failures of the calls to come. *)
Record FaultyStore := mkFaulty {
  fs_store : Store;
  fs_script : list (time * Faults)
}.
Definition nextFault (st : FaultyStore) : time * Faults := default (T.zero, no_faults) (head (fs_script st)).
Definition after (st : FaultyStore) (s : Store) : FaultyStore := mkFaulty s (tail (fs_script st)).

Section Instance.
Context {V : Type} (encode : V -> result string) (decode : string -> result V).

Definition asError (err : option string) : option store_error := StoreFailure <$> err.
Definition decoded (raw : string) : option V := match decode raw with Ok v => Some v | Err _ => None end.

#[export] Instance store_KV : KVStore FaultyStore V := {
  Interfaces.SaveJSON st b k v :=
    let '(now, f) := nextFault st in
    let '(s, err) := SaveJSON now f b k (encode v) (fs_store st) in (after st s, asError err);
  Interfaces.ListRaw st b :=
    match ListRaw (nextFault st).2 b (fs_store st) with
    | inl raws => inl (map decoded raws)
    | inr e => inr e
    end;
  Interfaces.Delete st b k :=
    let '(now, f) := nextFault st in
    let '(s, err) := Delete now f b k (fs_store st) in (after st s, asError err)
}.

Definition docsOf (st : FaultyStore) (b : string) : gmap string V :=
  omap decoded (default ∅ (st_db (fs_store st) !! b)).

Lemma docsOf_lookup st b k : docsOf st b !! k = lookupKey (st_db (fs_store st)) b k ≫= decoded.
Proof.
  unfold docsOf, lookupKey. rewrite lookup_omap. by destruct (st_db (fs_store st) !! b).
Qed.

Lemma inOrder_perm docs : inOrder docs ≡ₚ map_to_list docs.
Proof. apply gosort_perm. Qed.

Lemma SaveJSON_spec now f b k enc s s' err :
  SaveJSON now f b k enc s = (s', err) ->
  match err with
  | Some _ => st_db s' = st_db s
  | None => exists raw, enc = Ok raw /\ b <> "" /\ k <> "" /\
      forall b' k', lookupKey (st_db s') b' k' = if decide (b = b' /\ k = k') then Some raw else lookupKey (st_db s) b' k'
  end.
Proof.
  unfold SaveJSON. destruct ((b =s "") || (k =s "")) eqn:E0; [by intros [= <- <-]|]. bool_split. str_eq.
  destruct enc as [raw|e]; [|by intros [= <- <-]].
  destruct (f_hook f); [by intros [= <- <-]|]. destruct (f_view f); [by intros [= <- <-]|].
  case_bool_decide as Hid.
  - intros [= <- <-]. exists raw. split_and!; try done. intros b' k'. case_decide as E; [by destruct E as [<- <-]|done].
  - destruct (f_update f); [by intros [= <- <-]|]. intros [= <- <-]. exists raw. split_and!; try done.
    intros b' k'. apply lookupKey_put.
Qed.

Lemma Delete_spec now f b k s s' err :
  Delete now f b k s = (s', err) ->
  match err with
  | Some _ => st_db s' = st_db s
  | None => forall b' k', lookupKey (st_db s') b' k' = if decide (b = b' /\ k = k') then None else lookupKey (st_db s) b' k'
  end.
Proof.
  unfold Delete. destruct (_ || _); [by intros [= <- <-]|]. destruct (f_view f); [by intros [= <- <-]|].
  destruct (lookupKey (st_db s) b k) eqn:E.
  - destruct (f_update f); [by intros [= <- <-]|]. intros [= <- <-] b' k'. apply lookupKey_delete.
  - intros [= <- <-] b' k'. case_decide as Hd; [by destruct Hd as [<- <-]|done].
Qed.

Context (roundtrip : forall v raw, encode v = Ok raw -> decode raw = Ok v).

#[export] Instance store_KV_laws : KVStoreLaws FaultyStore V.
Proof.
  refine {| view := docsOf |}; simpl.
  - intros st b k v st'. destruct (nextFault st) as [now f].
    destruct (SaveJSON now f b k (encode v) (fs_store st)) as [s err] eqn:E. apply SaveJSON_spec in E.
    destruct err; [done|]. intros [= <-]. destruct E as (raw & Hraw & _ & _ & HL). apply map_eq. intros k'.
    rewrite docsOf_lookup. simpl. rewrite HL. destruct (decide (k = k')) as [->|Hk].
    + rewrite decide_True, lookup_insert_eq by done. simpl. unfold decoded. by rewrite (roundtrip _ _ Hraw).
    + rewrite decide_False, lookup_insert_ne by tauto. by rewrite docsOf_lookup.
  - intros st b k v st' e. destruct (nextFault st) as [now f].
    destruct (SaveJSON now f b k (encode v) (fs_store st)) as [s err] eqn:E. apply SaveJSON_spec in E.
    destruct err; [|done]. intros [= <- _]. unfold docsOf. simpl. by rewrite E.
  - intros st b k st'. destruct (nextFault st) as [now f].
    destruct (Delete now f b k (fs_store st)) as [s err] eqn:E. apply Delete_spec in E.
    destruct err; [done|]. intros [= <-]. apply map_eq. intros k'. rewrite docsOf_lookup. simpl. rewrite E.
    destruct (decide (k = k')) as [->|Hk].
    + by rewrite decide_True, lookup_delete_eq by done.
    + rewrite decide_False, lookup_delete_ne by tauto. by rewrite docsOf_lookup.
  - intros st b k st'. destruct (nextFault st) as [now f].
    destruct (Delete now f b k (fs_store st)) as [s err]. by destruct err.
  - intros st b k st' e. destruct (nextFault st) as [now f].
    destruct (Delete now f b k (fs_store st)) as [s err] eqn:E. apply Delete_spec in E.
    destruct err; [|done]. intros [= <- _]. unfold docsOf. simpl. by rewrite E.
  - intros st b docs. unfold ListRaw. destruct (b =s ""); [done|]. destruct (f_view _); [done|].
    intros [= <-] v. change (map ?f ?l) with (f <$> l). rewrite list_elem_of_fmap. setoid_rewrite docsOf_lookup. split.
    + intros (raw & Hv & Hin). change (map ?f ?l) with (f <$> l) in Hin.
      apply list_elem_of_fmap in Hin as ([k raw'] & -> & Hin). rewrite inOrder_perm in Hin.
      apply elem_of_map_to_list in Hin. exists k. unfold lookupKey. destruct (st_db (fs_store st) !! b); [|done].
      simpl in *. by rewrite Hin.
    + intros (k & Hk). apply bind_Some in Hk as (raw & Hraw & Hv). exists raw. split; [done|].
      change (map ?f ?l) with (f <$> l). apply list_elem_of_fmap. exists (k, raw). split; [done|].
      rewrite inOrder_perm. apply elem_of_map_to_list. unfold lookupKey in Hraw.
      by destruct (st_db (fs_store st) !! b).
  - intros st b. unfold ListRaw. destruct (b =s ""); [done|]. by destruct (f_view _).
Defined.
End Instance.

(** The bbolt store implements the maps its clients rely on.  For every JSON
    codec that round-trips, and whatever calls fail, [SaveJSON] and [Delete] on
    the documents of a bucket behave as insertion and deletion on a map from
    keys to values when they succeed, and change nothing when they fail; other
    buckets are never affected. *)
Theorem store_refines_map {V} (encode : V -> result string) decode st bucket key :
  (forall v raw, encode v = Ok raw -> decode raw = Ok v) ->
  let docs st := docsOf decode st in
  (forall v, let '(st', err) := @Interfaces.SaveJSON _ _ (store_KV encode decode) st bucket key v in
     docs st' bucket = match err with None => <[key := v]> (docs st bucket) | Some _ => docs st bucket end /\
     forall b, b <> bucket -> docs st' b = docs st b) /\
  (let '(st', err) := @Interfaces.Delete _ _ (store_KV encode decode) st bucket key in
     docs st' bucket = match err with None => delete key (docs st bucket) | Some _ => docs st bucket end /\
     forall b, b <> bucket -> docs st' b = docs st b).
Proof.
  intros Hrt. cbv zeta. set (L := store_KV_laws encode decode Hrt). split.
  - intros v. destruct (@Interfaces.SaveJSON _ _ (store_KV encode decode) st bucket key v) as [st' err] eqn:E. split.
    + destruct err as [e|]; [exact (@save_failed _ _ _ L _ _ _ _ _ _ E)|exact (@save_ok _ _ _ L _ _ _ _ _ E)].
    + intros b Hb. simpl in E. destruct (nextFault st) as [now f].
      destruct (SaveJSON now f bucket key (encode v) (fs_store st)) as [s err'] eqn:Es. apply SaveJSON_spec in Es.
      injection E as <- _. apply map_eq. intros k. rewrite !docsOf_lookup. simpl. destruct err'; [by rewrite Es|].
      destruct Es as (raw & _ & _ & _ & HL). by rewrite HL, decide_False by naive_solver.
  - destruct (@Interfaces.Delete _ _ (store_KV encode decode) st bucket key) as [st' err] eqn:E. split.
    + destruct err as [[|e]|].
      * exact (proj1 (@delete_not_found _ _ _ L _ _ _ _ E)).
      * exact (@delete_failed _ _ _ L _ _ _ _ _ E).
      * exact (@delete_ok _ _ _ L _ _ _ _ E).
    + intros b Hb. simpl in E. destruct (nextFault st) as [now f].
      destruct (Delete now f bucket key (fs_store st)) as [s err'] eqn:Es. apply Delete_spec in Es.
      injection E as <- _. apply map_eq. intros k. rewrite !docsOf_lookup. simpl. destruct err'; [by rewrite Es|].
      by rewrite Es, decide_False by naive_solver.
Qed.

(** ** Batches *)

Lemma allIdentical_lookup db encoded b k raw :
  allIdentical db encoded = true -> lastOf encoded b k = Some raw -> lookupKey db b k = Some raw.
Proof.
  unfold allIdentical. rewrite forallb_forall. intros Hall Hl. apply lastOf_elem in Hl.
  specialize (Hall _ (proj1 (list_elem_of_In _ _) Hl)). by apply bool_decide_eq_true in Hall.
Qed.

(** A batch is all or nothing.  If [SaveBatch] returns an error, for a bad
    entry or at any failing step of the store, no document changes; if it
    succeeds, every key of the batch holds the value of its last entry and no
    other document changes. *)
Theorem SaveBatch_atomic now f entries s s' err :
  SaveBatch now f entries s = (s', err) ->
  match err with
  | Some _ => st_db s' = st_db s
  | None => exists encoded, encodeEntries entries = Ok encoded /\
      forall b k, lookupKey (st_db s') b k =
        match lastOf encoded b k with Some raw => Some raw | None => lookupKey (st_db s) b k end
  end.
Proof.
  unfold SaveBatch. destruct (encodeEntries entries) as [encoded|e]; [|by intros [= <- <-]].
  destruct (f_hook f); [by intros [= <- <-]|]. destruct (f_view f); [by intros [= <- <-]|].
  destruct (allIdentical (st_db s) encoded) eqn:Eid.
  - intros [= <- <-]. exists encoded. split; [done|]. intros b k. simpl.
    destruct (lastOf encoded b k) as [raw|] eqn:El; [|done]. by eapply allIdentical_lookup.
  - destruct (f_update f); [by intros [= <- <-]|]. intros [= <- <-]. exists encoded. split; [done|].
    intros b k. apply lookupKey_putAll.
Qed.

(** ** Initialisation *)

Lemma emptyState_lookup db b k raw :
  lookupKey db b k = Some raw -> b ∈ applicationBuckets \/ (b = "meta" /\ k <> "schema_version") ->
  emptyState db <> Some true.
Proof.
  intros HL Hb. unfold emptyState. destruct (any _ applicationBuckets) eqn:Ea; [done|].
  unfold lookupKey in HL. destruct (db !! b) as [docs|] eqn:Ed; [|done]. simpl in HL. destruct Hb as [Hb|[-> Hk]].
  - rewrite any_false in Ea. specialize (Ea b Hb). rewrite Ed in Ea. apply bool_decide_eq_false in Ea.
    destruct Ea. intros ->. by rewrite lookup_empty in HL.
  - rewrite Ed. intros [= Hd]. apply bool_decide_eq_true in Hd. apply Hk.
    assert (k ∈ dom docs) as Hin by (by eapply elem_of_dom_2). apply Hd in Hin. by apply elem_of_singleton in Hin.
Qed.

Lemma encodeEntries_last entries encoded e :
  encodeEntries entries = Ok encoded -> e ∈ entries -> is_Some (lastOf encoded (en_Bucket e) (en_Key e)).
Proof.
  intros HE He. assert (Hin : exists raw, (en_Bucket e, en_Key e, raw) ∈ encoded).
  { revert encoded HE He; induction entries as [|x rest IH]; intros encoded HE He; [by apply elem_of_nil in He|].
    simpl in HE. destruct (_ || _); [done|]. destruct (en_Value x) as [raw|]; [|done].
    destruct (encodeEntries rest) as [l|]; [|done]. injection HE as <-.
    apply elem_of_cons in He as [->|He]; [exists raw; left|].
    destruct (IH _ eq_refl He) as [raw' ?]. exists raw'. by right. }
  destruct Hin as [raw Hin]. unfold lastOf. clear HE. induction encoded as [|[[b k] r] l IH] using rev_ind.
  - by apply elem_of_nil in Hin.
  - rewrite foldl_snoc. case_decide as Hd; [by eexists|]. apply IH.
    apply elem_of_app in Hin as [Hin|Hin]; [done|]. apply list_elem_of_singleton in Hin. naive_solver.
Qed.

(** An installation is initialised once and never overwritten.
    [InitializeIfEmpty] reports creation only on a database without application
    data and then writes the whole initial state; in every other case the
    documents are unchanged; and once it has created a state with application
    data it never creates one again. *)
Theorem InitializeIfEmpty_once now f entries s s' created err :
  InitializeIfEmpty now f entries s = (s', (created, err)) ->
  if created then
    err = None /\ emptyState (st_db s) = Some true /\
    (exists encoded, encodeEntries entries = Ok encoded /\
       forall b k, lookupKey (st_db s') b k =
         match lastOf encoded b k with Some raw => Some raw | None => lookupKey (st_db s) b k end) /\
    ((exists e, e ∈ entries /\ (en_Bucket e ∈ applicationBuckets \/ en_Bucket e = "meta" /\ en_Key e <> "schema_version")) ->
     forall now' f' entries', (InitializeIfEmpty now' f' entries' s').2.1 = false /\
       st_db (InitializeIfEmpty now' f' entries' s').1 = st_db s')
  else st_db s' = st_db s.
Proof.
  unfold InitializeIfEmpty at 1. destruct entries as [|e0 rest]; [by intros [= <- <- <-]|].
  set (entries := e0 :: rest). destruct (encodeEntries entries) as [encoded|e] eqn:Ee; [|by intros [= <- <- <-]].
  destruct (f_update f); [by intros [= <- <- <-]|].
  destruct (emptyState (st_db s)) as [[]|] eqn:Es; [|by intros [= <- <- <-]..].
  intros [= <- <- <-]. split_and!; [done|done|exists encoded; split; [done|]; intros; apply lookupKey_putAll|].
  intros (e & He & Hb) now' f' entries'.
  destruct (encodeEntries_last _ _ _ Ee He) as [raw Hraw].
  assert (Hne : emptyState (putAll encoded (st_db s)) <> Some true).
  { apply (emptyState_lookup _ (en_Bucket e) (en_Key e) raw); [|done]. by rewrite lookupKey_putAll, Hraw. }
  unfold InitializeIfEmpty. destruct entries' as [|e1 l]; [done|]. destruct (encodeEntries (e1 :: l)); [|done].
  destruct (f_update f'); [done|].
  match goal with |- context [emptyState ?d] => change d with (putAll encoded (st_db s)) end.
  by destruct (emptyState (putAll encoded (st_db s))) as [[]|].
Qed.

(** ** Schema *)

Section SchemaProofs.
Context (encodeInt : Z -> string) (decodeInt : string -> result Z).
Context (int_roundtrip : forall n, 0 <= n <= CurrentSchemaVersion -> decodeInt (encodeInt n) = Ok n).

Definition hasBucket (db : DB) (name : string) : bool := match db !! name with Some _ => true | None => false end.

(** The buckets that exist at a schema version. *)
Definition bucketsAt (version : Z) : list string :=
  (if 1 <=? version then ["probes"; "changes"; "events"; "revisions"; "transactions"; "candidates"] else [])
  ++ (if 2 <=? version then ["route_health"] else []) ++ (if 3 <=? version then ["backups"] else []).
Definition schemaAt (version : Z) (db : DB) : Prop :=
  readVersion decodeInt (default ∅ (db !! "meta")) = Ok version /\
  forall name, name ∈ bucketsAt version -> hasBucket db name = true.

Lemma hasBucket_create name db n : hasBucket (createBucket name db) n = (name =s n) || hasBucket db n.
Proof.
  unfold hasBucket, createBucket. destruct (String.eqb_spec name n) as [->|Hne].
  - destruct (db !! n) eqn:E; [by rewrite E|by rewrite lookup_insert_eq].
  - destruct (db !! name); [done|by rewrite lookup_insert_ne].
Qed.
Lemma hasBucket_put b k v db n : hasBucket (put b k v db) n = (b =s n) || hasBucket db n.
Proof.
  unfold hasBucket, put. destruct (String.eqb_spec b n) as [->|Hne]; [by rewrite lookup_insert_eq|by rewrite lookup_insert_ne].
Qed.

Lemma createBuckets_lookup names db b k :
  lookupKey (foldl (fun db name => createBucket name db) db names) b k = lookupKey db b k.
Proof. revert db; induction names as [|n names IH]; intros db; simpl; [done|]. by rewrite IH, lookupKey_createBucket. Qed.
Lemma createBuckets_has names db n :
  hasBucket (foldl (fun db name => createBucket name db) db names) n = containsString names n || hasBucket db n.
Proof.
  revert db; induction names as [|x names IH]; intros db; simpl; [done|].
  rewrite IH, hasBucket_create. by destruct (x =s n), (containsString names n).
Qed.

Lemma readVersion_lookup db :
  readVersion decodeInt (default ∅ (db !! "meta")) =
  match lookupKey db "meta" "schema_version" with
  | None => Ok 0
  | Some raw => match decodeInt raw with Ok v => Ok v | Err _ => Err "invalid schema version" end
  end.
Proof. unfold readVersion, lookupKey. by destruct (db !! "meta"). Qed.

(** One migration and its version mark. *)
Lemma migration_step v db : schemaAt v db -> 0 <= v < CurrentSchemaVersion ->
  exists db', migration (v + 1) db = Ok db' /\
    schemaAt (v + 1) (put "meta" "schema_version" (encodeInt (v + 1)) db') /\
    (forall b k, (b, k) <> ("meta", "schema_version") ->
       lookupKey (put "meta" "schema_version" (encodeInt (v + 1)) db') b k = lookupKey db b k).
Proof.
  intros [Hv Hb] Hr. unfold CurrentSchemaVersion in *.
  assert (Hmark : forall db', readVersion decodeInt (default ∅ (put "meta" "schema_version" (encodeInt (v + 1)) db' !! "meta"))
                              = Ok (v + 1)).
  { intros db'. rewrite readVersion_lookup, lookupKey_put, decide_True by done.
    by rewrite int_roundtrip by (unfold CurrentSchemaVersion; lia). }
  assert (Hkeep : forall db' b k, (b, k) <> ("meta", "schema_version") -> lookupKey db' b k = lookupKey db b k ->
            lookupKey (put "meta" "schema_version" (encodeInt (v + 1)) db') b k = lookupKey db b k).
  { intros db' b k Hne <-. rewrite lookupKey_put, decide_False by naive_solver. done. }
  assert (v = 0 \/ v = 1 \/ v = 2) as [-> |[-> | ->]] by lia; eexists; (split; [reflexivity|]); (split; [split; [apply Hmark|]|]).
  - intros name Hn. rewrite hasBucket_put, createBuckets_has.
    assert (containsString ["probes"; "changes"; "events"; "revisions"; "transactions"; "candidates"; "meta"] name = true) as ->.
    { assert (Hall : Forall (fun n => containsString ["probes"; "changes"; "events"; "revisions"; "transactions";
                                                      "candidates"; "meta"] n = true) (bucketsAt (0 + 1)))
        by (repeat constructor). rewrite Forall_forall in Hall. by apply Hall. }
    by destruct (_ =s _).
  - intros b k Hne. apply Hkeep; [done|]. apply createBuckets_lookup.
  - intros name Hn. rewrite hasBucket_put, hasBucket_create.
    change (bucketsAt (1 + 1)) with (bucketsAt 1 ++ ["route_health"]) in Hn.
    apply elem_of_app in Hn as [Hn|Hn%list_elem_of_singleton]; [by rewrite (Hb _ Hn), !orb_true_r|by subst name].
  - intros b k Hne. apply Hkeep; [done|]. apply lookupKey_createBucket.
  - intros name Hn. rewrite hasBucket_put, hasBucket_create.
    change (bucketsAt (2 + 1)) with (bucketsAt 2 ++ ["backups"]) in Hn.
    apply elem_of_app in Hn as [Hn|Hn%list_elem_of_singleton]; [by rewrite (Hb _ Hn), !orb_true_r|by subst name].
  - intros b k Hne. apply Hkeep; [done|]. apply lookupKey_createBucket.
Qed.

Lemma migrate_spec fuel v db : schemaAt v db -> 0 <= v <= CurrentSchemaVersion -> CurrentSchemaVersion - v <= Z.of_nat fuel ->
  exists db', migrate encodeInt fuel v db = Ok db' /\ schemaAt CurrentSchemaVersion db' /\
    (forall b k, (b, k) <> ("meta", "schema_version") -> lookupKey db' b k = lookupKey db b k).
Proof.
  revert v db; induction fuel as [|fuel IH]; intros v db Hs Hv Hf; simpl;
    destruct (Z.ltb_spec v CurrentSchemaVersion) as [Hlt|Hge].
  - lia.
  - assert (v = CurrentSchemaVersion) as -> by lia. by exists db.
  - destruct (migration_step v db Hs ltac:(lia)) as (db' & -> & Hs' & Hk). simpl.
    destruct (IH _ _ Hs' ltac:(lia) ltac:(lia)) as (db2 & E2 & Hs2 & Hk2). exists db2. split_and!; [done|done|].
    intros b k Hne. by rewrite Hk2, Hk.
  - assert (v = CurrentSchemaVersion) as -> by lia. by exists db.
Qed.

Lemma schemaReady_at db : hasBucket db "meta" = true -> schemaAt CurrentSchemaVersion db ->
  schemaReady decodeInt db = Ok true.
Proof.
  unfold hasBucket. intros Hm [Hv Hb]. unfold schemaReady. destruct (db !! "meta") as [meta|] eqn:Em; [|done].
  simpl in Hv. rewrite Hv. simpl. f_equal.
  assert (Hall : forall name, name ∈ bucketsAt CurrentSchemaVersion -> match db !! name with Some _ => true | None => false end = true)
    by exact Hb.
  rewrite Em. rewrite !Hall by (simpl; in_list). done.
Qed.

(** Opening brings any older database to the current schema, keeping its
    documents.  From a database at schema version 0 (in particular an empty
    one) to 2, with the buckets of that version, [init] succeeds after at most
    three migrations; the result is at version 3 with every bucket, no document
    other than the version mark has changed, and running it again changes
    nothing. *)
Theorem initSchema_migrates v s :
  schemaAt v (st_db s) -> 0 <= v < CurrentSchemaVersion ->
  exists s', initSchema encodeInt decodeInt no_faults s = (s', None) /\
    schemaReady decodeInt (st_db s') = Ok true /\
    (forall b k, (b, k) <> ("meta", "schema_version") -> lookupKey (st_db s') b k = lookupKey (st_db s) b k) /\
    initSchema encodeInt decodeInt no_faults s' = (s', None).
Proof.
  intros Hs Hv.
  assert (Hs0 : schemaAt v (createBucket "meta" (st_db s))).
  { destruct Hs as [H1 H2]. split.
    - rewrite readVersion_lookup, lookupKey_createBucket, <- readVersion_lookup. done.
    - intros name Hn. rewrite hasBucket_create, (H2 _ Hn). apply orb_true_r. }
  destruct (migrate_spec 3 v _ Hs0 ltac:(lia) ltac:(unfold CurrentSchemaVersion in *; lia)) as (db' & Em & Hs' & Hk).
  assert (Hready : schemaReady decodeInt db' = Ok true).
  { apply schemaReady_at; [|done]. destruct Hs' as [Hver _]. rewrite readVersion_lookup in Hver.
    unfold lookupKey in Hver. unfold hasBucket. by destruct (db' !! "meta"). }
  exists (set_st_db db' s). split_and!.
  - assert (Hnot : schemaReady decodeInt (st_db s) = Ok false).
    { destruct Hs as [H1 _]. unfold schemaReady. destruct (st_db s !! "meta"); [|done]. simpl in H1. rewrite H1. simpl.
      destruct (Z.eqb_spec v CurrentSchemaVersion); [lia|done]. }
    assert (HE : (version ← readVersion decodeInt (default ∅ (createBucket "meta" (st_db s) !! "meta"));
                  migrate encodeInt 3 version (createBucket "meta" (st_db s))) = Ok db').
    { destruct Hs0 as [-> _]. exact Em. }
    unfold initSchema. cbn [f_view f_update no_faults]. rewrite Hnot. cbv zeta. by rewrite HE.
  - done.
  - intros b k Hne. simpl. rewrite Hk by done. apply lookupKey_createBucket.
  - unfold initSchema. simpl. by rewrite Hready.
Qed.
End SchemaProofs.

(** ** The probe ring *)

(** The last [n] elements. *)
Definition lastn {A} (n : nat) (l : list A) : list A := drop (length l - n) l.

Lemma lastn_take_reverse {A} (l : list A) n : reverse (lastn n l) = take n (reverse l).
Proof.
  unfold lastn. set (k := (length l - n)%nat).
  assert (E : reverse l = reverse (drop k l) ++ reverse (take k l)) by (by rewrite <- reverse_app, take_drop).
  assert (Hk : length (reverse (drop k l)) = (length l - k)%nat) by (rewrite length_reverse; apply length_drop).
  rewrite E. destruct (decide (n <= length l)%nat).
  - rewrite take_app_length' by lia. done.
  - replace k with 0%nat by lia. rewrite drop_0, take_0. change (reverse []) with (@nil A). rewrite app_nil_r, take_ge; [done|].
    rewrite length_reverse. lia.
Qed.

Lemma StoreProbeResult_probes r s : 0 < maxProbeResults (st_retention s) ->
  st_probes (StoreProbeResult r s) = lastn (Z.to_nat (maxProbeResults (st_retention s))) (st_probes s ++ [r]) /\
  st_retention (StoreProbeResult r s) = st_retention s /\ st_db (StoreProbeResult r s) = st_db s.
Proof.
  intros Hmax. split_and!; [|done..]. unfold StoreProbeResult, lastn. simpl.
  set (l := st_probes s ++ [r]). set (max := maxProbeResults (st_retention s)) in *.
  destruct (Z.ltb_spec 0 (Z.of_nat (length l) - max)) as [Hlt|Hge].
  - rewrite take_ge; [f_equal; lia|]. rewrite length_drop. lia.
  - replace (length l - Z.to_nat max)%nat with 0%nat by lia. done.
Qed.

Lemma lastn_snoc {A} n (l : list A) x : (0 < n)%nat -> lastn n (lastn n l ++ [x]) = lastn n (l ++ [x]).
Proof.
  intros Hn. unfold lastn. rewrite !length_app, length_drop. simpl.
  destruct (decide (length l < n)%nat).
  - replace (length l - n)%nat with 0%nat by lia. simpl. f_equal. lia.
  - replace (length l - (length l - n) + 1 - n)%nat with 1%nat by lia.
    replace (length l + 1 - n)%nat with (S (length l - n)) by lia.
    rewrite <- (skipn_skipn 1 (length l - n)). simpl skipn at 2.
    rewrite (drop_app_le l) by lia. done.
Qed.

(** The recent probe results are a ring.  After any sequence of results the
    store holds the last [maxProbeResults] of them, and [ListProbeResults n]
    returns the [n] most recent, latest first; the database is not written. *)
Theorem probe_ring results s limit :
  0 < maxProbeResults (st_retention s) -> Z.of_nat (length (st_probes s)) <= maxProbeResults (st_retention s) ->
  0 < limit <= maxProbeResults (st_retention s) ->
  let s' := foldl (fun s r => StoreProbeResult r s) s results in
  Z.of_nat (length (st_probes s')) <= maxProbeResults (st_retention s) /\
  ListProbeResults limit s' = take (Z.to_nat limit) (reverse (st_probes s ++ results)) /\ st_db s' = st_db s.
Proof.
  intros Hmax Hlen Hlimit. cbv zeta.
  set (max := maxProbeResults (st_retention s)) in *. set (s' := foldl _ s results).
  assert (HI : st_probes s' = lastn (Z.to_nat max) (st_probes s ++ results) /\ st_retention s' = st_retention s /\
               st_db s' = st_db s).
  { unfold s'. clear Hlimit. induction results as [|r results IH] using rev_ind.
    - simpl. rewrite app_nil_r. split; [|done]. unfold lastn.
      replace (length (st_probes s) - Z.to_nat max)%nat with 0%nat by lia. done.
    - rewrite foldl_snoc. destruct IH as (I1 & I2 & I3).
      set (s1 := foldl (fun s r => StoreProbeResult r s) s results) in *.
      destruct (StoreProbeResult_probes r s1) as (P1 & P2 & P3); [by rewrite I2|].
      rewrite P1, P2, P3, I1, I2, I3. fold max. rewrite lastn_snoc by lia. by rewrite <- app_assoc. }
  destruct HI as (I1 & I2 & I3).
  assert (Hl : Z.of_nat (length (st_probes s')) <= max).
  { rewrite I1. unfold lastn. rewrite length_drop. lia. }
  split_and!; [done| |done]. unfold ListProbeResults. rewrite I2. fold max.
  assert (Hng : ((limit <=? 0) || (max <? limit)) = false) by lia. rewrite Hng.
  rewrite I1, lastn_take_reverse, take_take.
  set (l := reverse (st_probes s ++ results)).
  assert (Hll : length (lastn (Z.to_nat max) (st_probes s ++ results)) = Nat.min (Z.to_nat max) (length l)).
  { unfold lastn, l. rewrite length_drop, length_reverse. lia. }
  rewrite Hll. destruct (Z.ltb_spec (Z.of_nat (Nat.min (Z.to_nat max) (length l))) limit) as [Hlt|Hge].
  - rewrite Nat2Z.id. rewrite (take_ge l), (take_ge l) by lia. done.
  - f_equal. lia.
Qed.

(** ** Retention *)

Section RetentionProofs.
Context (fieldsOf : string -> result (gmap string string)) (parseTime : string -> option time).
Context (walk : gmap string string -> (string -> string -> bool) -> list (string * string)).
(** A cursor only visits keys of the bucket. *)
Context (walk_sound : forall docs p key raw, (key, raw) ∈ walk docs p -> docs !! key = Some raw).

Definition deletableDoc (cutoff : time) (fields : list string) (terminal : option (list string)) (raw : string) : Prop :=
  deletes fieldsOf parseTime cutoff fields terminal raw = Some true.

Lemma deleteLoop_spec cutoff fields terminal visited docs n docs' n' :
  deleteLoop fieldsOf parseTime cutoff fields terminal visited docs n = Ok (docs', n') ->
  docs' ⊆ docs /\ (forall key, docs' !! key = None -> docs !! key <> None ->
    exists raw, (key, raw) ∈ visited /\ deletableDoc cutoff fields terminal raw).
Proof.
  revert docs n; induction visited as [|[k raw] rest IH]; intros docs n; simpl.
  { intros [= <- <-]. split; [done|]. intros; done. }
  destruct (deletes _ _ cutoff fields terminal raw) as [[]|] eqn:Ed; [| |done]; intros HL; apply IH in HL as [Hsub Hdel].
  - split; [etrans; [exact Hsub|apply delete_subseteq]|]. intros key Hn Hs.
    destruct (decide (key = k)) as [->|Hne]; [exists raw; split; [left|done]|].
    destruct (Hdel key Hn) as (raw' & ? & ?); [by rewrite lookup_delete_ne|]. exists raw'. split; [by right|done].
  - split; [done|]. intros key Hn Hs. destruct (Hdel key Hn Hs) as (raw' & ? & ?). exists raw'. split; [by right|done].
Qed.

Definition docAt (docs : option (gmap string string)) (key : string) : option string := docs ≫= lookup key.

Lemma deleteExpired_spec docs cutoff fields terminal docs' n :
  deleteExpired fieldsOf parseTime walk docs cutoff fields terminal = Ok (docs', n) ->
  forall key, docAt docs' key = docAt docs key \/
    (docAt docs' key = None /\ exists raw, docAt docs key = Some raw /\ deletableDoc cutoff fields terminal raw).
Proof.
  unfold deleteExpired. destruct docs as [docs|]; [|intros [= <- <-]; by left].
  destruct (deleteLoop _ _ _ _ _ _ _ _) as [[d m]|] eqn:E; [|done]. intros [= <- <-] key. simpl.
  apply deleteLoop_spec in E as [Hsub Hdel]. destruct (d !! key) as [raw|] eqn:Ek.
  - left. symmetry. by eapply lookup_weaken.
  - destruct (docs !! key) as [raw|] eqn:Ek'; [right|by left]. split; [done|]. exists raw. split; [done|].
    destruct (Hdel key Ek) as (raw' & Hin & Hd); [by rewrite Ek'|]. apply walk_sound in Hin. congruence.
Qed.

Lemma foldl_delete_sub (keys : list string) (docs : gmap string string) :
  foldl (fun docs key => delete key docs) docs keys ⊆ docs.
Proof.
  revert docs; induction keys as [|k keys IH]; intros docs; simpl; [done|].
  etrans; [apply IH|apply delete_subseteq].
Qed.

Lemma trimBucket_spec docs max key :
  docAt (trimBucket docs max) key = docAt docs key \/ docAt (trimBucket docs max) key = None.
Proof.
  destruct docs as [docs|]; [|by left]. simpl. destruct (max <=? 0); [by left|]. simpl.
  set (d := foldl _ _ _). destruct (d !! key) as [raw|] eqn:E; [left|by right].
  symmetry. eapply lookup_weaken; [exact E|apply foldl_delete_sub].
Qed.

Lemma dropOrphans_spec candidates changes key :
  docAt (dropOrphans walk candidates changes) key = docAt candidates key \/
  (docAt (dropOrphans walk candidates changes) key = None /\ docAt changes key = None).
Proof.
  unfold dropOrphans. destruct candidates as [cands|]; [|by left]. destruct changes as [changes|]; [|by left]. simpl.
  set (orphan := fun key => match changes !! key with None => true | Some _ => false end).
  assert (HI : forall (visited : list (string * string)) (docs : gmap string string), foldl (fun docs kv => if orphan kv.1 then delete kv.1 docs else docs) docs visited !! key = docs !! key
            \/ foldl (fun docs kv => if orphan kv.1 then delete kv.1 docs else docs) docs visited !! key = None /\ changes !! key = None).
  { induction visited as [|[k raw] rest IH]; intros docs; simpl; [by left|].
    destruct (orphan k) eqn:Eo; [|apply IH]. destruct (IH (delete k docs)) as [E|E]; [|by right].
    destruct (decide (k = key)) as [->|Hne]; [|left; by rewrite E, lookup_delete_ne].
    right. rewrite E, lookup_delete_eq. split; [done|]. unfold orphan in Eo. by destruct (changes !! key). }
  exact (HI (walk cands (fun key _ => orphan key)) cands).
Qed.

Lemma lookupKey_setBucket name docs db b k :
  lookupKey (setBucket name docs db) b k =
  if decide (b = name) then match docs with Some d => d !! k | None => lookupKey db b k end else lookupKey db b k.
Proof.
  unfold lookupKey, setBucket. destruct docs as [d|]; [|by case_decide]. case_decide as E.
  - subst. by rewrite lookup_insert_eq.
  - by rewrite lookup_insert_ne.
Qed.

Lemma docAt_db (db : DB) b key : docAt (db !! b) key = lookupKey db b key.
Proof. unfold docAt, lookupKey. by destruct (db !! b). Qed.

(** Why retention may drop a document. *)
Definition droppable (now : time) (r : retentionPolicy) (after : DB) (b key raw : string) : Prop :=
  b = "probes" \/ b = "events" \/
  (b = "changes" /\ deletableDoc (now - changeSetRetention r) ["updated_at"] (Some terminalStates) raw) \/
  (b = "transactions" /\
     deletableDoc (now - transactionRetention r) ["completed_at"; "updated_at"] (Some terminalStates) raw) \/
  (b = "candidates" /\ lookupKey after "changes" key = None).

Lemma deletable_terminal cutoff fields raw : deletableDoc cutoff fields (Some terminalStates) raw ->
  exists item t, fieldsOf raw = Ok item /\ default "" (item !! "state") ∈ terminalStates /\
    t = stampOf parseTime item fields /\ t <> T.zero /\ t < cutoff.
Proof.
  unfold deletableDoc, deletes. destruct (fieldsOf raw) as [item|]; [|done]. intros [= Hd]. bool_split.
  exists item, (stampOf parseTime item fields). unfold T.IsZero, T.Before, T.zero in *.
  split_and!; [done|by apply containsString_true|done|lia|lia].
Qed.

Lemma cleanupTx_spec now r db db' stats : cleanupTx fieldsOf parseTime walk now r db = Ok (db', stats) ->
  forall b key, lookupKey db' b key = lookupKey db b key \/
    (lookupKey db' b key = None /\ exists raw, lookupKey db b key = Some raw /\ droppable now r db' b key raw).
Proof.
  unfold cleanupTx.
  destruct (deleteExpired _ _ walk (db !! "events") _ _ _) as [[events n1]|] eqn:Ev; [|done]. simpl.
  destruct (deleteExpired _ _ walk (db !! "changes") _ _ _) as [[changes n2]|] eqn:Ec; [|done]. simpl.
  destruct (deleteExpired _ _ walk (db !! "transactions") _ _ _) as [[transactions n3]|] eqn:Et; [|done]. simpl.
  intros [= <- _] b key.
  set (probes := trimBucket (db !! "probes") (maxProbeResults r)).
  set (trimmed := trimBucket events (maxEvents r)). set (cands := dropOrphans walk (db !! "candidates") changes).
  set (out := setBucket "transactions" transactions _).
  pose proof (fun key => deleteExpired_spec _ _ _ _ _ _ Ev key) as Hev.
  pose proof (fun key => deleteExpired_spec _ _ _ _ _ _ Ec key) as Hch.
  pose proof (fun key => deleteExpired_spec _ _ _ _ _ _ Et key) as Htr.
  assert (Hout : forall key, lookupKey out "changes" key = match changes with Some d => d !! key | None => lookupKey db "changes" key end).
  { intros k. unfold out. by rewrite !lookupKey_setBucket. }
  assert (Hcase : forall name (docs : option (gmap string string)),
            lookupKey out name key = match docs with Some d => d !! key | None => lookupKey db name key end ->
            docAt docs key = docAt (db !! name) key \/ docAt docs key = None /\
              (docs <> None -> forall raw, lookupKey db name key = Some raw -> droppable now r out name key raw) ->
            lookupKey out name key = lookupKey db name key \/
            (lookupKey out name key = None /\ exists raw, lookupKey db name key = Some raw /\ droppable now r out name key raw)).
  { intros name docs E Hd. rewrite docAt_db in Hd. destruct docs as [d|]; [|by left].
    unfold docAt in Hd. simpl in Hd. rewrite E. destruct Hd as [Hd|[Hd Hdrop]]; [by left|].
    destruct (lookupKey db name key) as [raw|] eqn:Eraw; [right|by left]. split; [done|]. exists raw. split; [done|]. by apply Hdrop. }
  destruct (decide (b = "probes")) as [->|N1]; [|destruct (decide (b = "events")) as [->|N2];
    [|destruct (decide (b = "changes")) as [->|N3]; [|destruct (decide (b = "candidates")) as [->|N4];
    [|destruct (decide (b = "transactions")) as [->|N5]]]]].
  - apply (Hcase _ probes); [unfold out; by rewrite !lookupKey_setBucket|].
    destruct (trimBucket_spec (db !! "probes") (maxProbeResults r) key); [by left|right]. split; [done|]. by left.
  - apply (Hcase _ trimmed); [unfold out; by rewrite !lookupKey_setBucket|].
    destruct (trimBucket_spec events (maxEvents r) key) as [E|E]; [|right; split; [done|by right; left]].
    unfold trimmed. rewrite E. destruct (Hev key) as [|[? _]]; [by left|right; split; [done|by right; left]].
  - apply (Hcase _ changes); [apply Hout|]. destruct (Hch key) as [|(E & raw & Hraw & Hd)]; [by left|right].
    split; [done|]. intros _ raw' Hraw'. rewrite docAt_db in Hraw. right; right; left. split; [done|].
    assert (raw' = raw) as -> by congruence. exact Hd.
  - apply (Hcase _ cands); [unfold out; by rewrite !lookupKey_setBucket|].
    destruct (dropOrphans_spec (db !! "candidates") changes key) as [|[E Ech]]; [by left|right]. split; [done|].
    intros _ raw Hraw. right; right; right; right. split; [done|]. rewrite Hout.
    destruct changes as [d|]; [exact Ech|]. exfalso.
    assert (dropOrphans walk (db !! "candidates") None = db !! "candidates") as Hd by (by destruct (db !! "candidates")).
    unfold cands in E. rewrite Hd, docAt_db in E. congruence.
  - apply (Hcase _ transactions); [unfold out; by rewrite !lookupKey_setBucket|].
    destruct (Htr key) as [|(E & raw & Hraw & Hd)]; [by left|right].
    split; [done|]. intros _ raw' Hraw'. rewrite docAt_db in Hraw. right; right; right; left. split; [done|].
    assert (raw' = raw) as -> by congruence. exact Hd.
  - left. unfold out. rewrite !lookupKey_setBucket. by rewrite !decide_False by done.
Qed.
End RetentionProofs.

(** Retention only drops what the policy lets it drop.  [Cleanup] never adds
    or rewrites a document; if it fails nothing changes; and a document it drops
    is a probe or an event, a change or transaction in a terminal state whose time
    stamp is set and older than the retention of its bucket, or the candidate of
    a change that no longer exists.  In particular a change or transaction in
    progress is never dropped, however a cursor behaves during deletions. *)
Theorem Cleanup_safe fieldsOf parseTime walk clock now f s s' stats err :
  (forall docs p key raw, (key, raw) ∈ walk docs p -> docs !! key = Some raw) ->
  Cleanup fieldsOf parseTime walk clock now f s = (s', (stats, err)) ->
  (err <> None -> st_db s' = st_db s) /\
  (forall b key, lookupKey (st_db s') b key = lookupKey (st_db s) b key \/
     lookupKey (st_db s') b key = None /\ exists raw, lookupKey (st_db s) b key = Some raw /\
       droppable fieldsOf parseTime now (st_retention s) (st_db s') b key raw) /\
  (forall key raw item, lookupKey (st_db s) "transactions" key = Some raw -> fieldsOf raw = Ok item ->
     default "" (item !! "state") ∉ terminalStates -> lookupKey (st_db s') "transactions" key = Some raw).
Proof.
  intros Hwalk HC.
  assert (Hmain : (err <> None -> st_db s' = st_db s) /\
    (forall b key, lookupKey (st_db s') b key = lookupKey (st_db s) b key \/
     lookupKey (st_db s') b key = None /\ exists raw, lookupKey (st_db s) b key = Some raw /\
       droppable fieldsOf parseTime now (st_retention s) (st_db s') b key raw)).
  { unfold Cleanup in HC. destruct (f_view f); [injection HC as <- _ <-; split; [done|by left]|].
    destruct (negb _); [injection HC as <- _ <-; split; [done|by left]|].
    destruct (cleanupTx _ _ _ _ _ _) as [[db st]|e] eqn:E; [|injection HC as <- _ <-; split; [done|by left]].
    destruct (f_update f); injection HC as <- _ <-; (split; [done|]); [by left|].
    intros b key. simpl. by eapply cleanupTx_spec. }
  destruct Hmain as [H1 H2]. split_and!; [done..|]. intros key raw item Hraw Hitem Hnot.
  destruct (H2 "transactions" key) as [->|(_ & raw' & Hraw' & Hdrop)]; [done|]. exfalso.
  assert (raw' = raw) as -> by congruence.
  destruct Hdrop as [|[|[[? _]|[[_ Hd]|[? _]]]]]; [discriminate..| |discriminate].
  apply deletable_terminal in Hd as (item' & t & Hi & Ht & _). congruence.
Qed.

(** A store that fits in a page: two probe results, a tiny retention. *)
Definition ex_retention : retentionPolicy := mkRetention 2 1 second second second hour hour 2 1024.
Definition ex_store (db : DB) : Store := mkStore db [] (mkMetrics 0 0 0 0 "" T.zero) ex_retention.
Definition ex_faults (hook view update : bool) : Faults :=
  mkFaults (if hook then Some "hook" else None) (if view then Some "view" else None)
    (if update then Some "disk full" else None).

(** ** Documents *)

Definition ex_docs : DB := {["meta" := {["schema_version" := "3"]}; "changes" := {["c1" := "draft"; "c2" := "draft"]}]}.
(** The second call fails when it commits. *)
Definition ex_faulty : FaultyStore := mkFaulty (ex_store ex_docs) [(second, no_faults); (second, ex_faults false false true)].

Lemma store_refines_map_witness :
  (forall v raw, (Ok v : result string) = Ok raw -> (Ok raw : result string) = Ok v) /\
  (let docs st := docsOf (fun raw => Ok raw : result string) st in
   (forall v : string, let '(st', err) := @Interfaces.SaveJSON _ _ (store_KV (fun v => Ok v) (fun raw => Ok raw)) ex_faulty "changes" "c1" v in
      docs st' "changes" = match err with None => <["c1" := v]> (docs ex_faulty "changes") | Some _ => docs ex_faulty "changes" end /\
      forall b, b <> "changes" -> docs st' b = docs ex_faulty b) /\
   (let '(st', err) := @Interfaces.Delete _ _ (store_KV (fun v => Ok v) (fun raw => Ok raw)) ex_faulty "changes" "c1" in
      docs st' "changes" = match err with None => delete "c1" (docs ex_faulty "changes") | Some _ => docs ex_faulty "changes" end /\
      forall b, b <> "changes" -> docs st' b = docs ex_faulty b)).
Proof.
  split; [intros v raw [= ->]; reflexivity|].
  exact (store_refines_map (fun v => Ok v) (fun raw => Ok raw) ex_faulty "changes" "c1"
           (fun v raw H => match H in _ = r return match r with Ok raw => (Ok raw : result string) = Ok v | Err _ => True end
                           with eq_refl => eq_refl end)).
Defined.

(** ** Batches *)

Definition ex_batch : list Entry := [mkEntry "changes" "c1" (Ok "committed"); mkEntry "events" "e1" (Ok "done"); mkEntry "changes" "c1" (Ok "archived")].

Lemma SaveBatch_atomic_witness :
  (SaveBatch second (ex_faults false false true) ex_batch (ex_store ex_docs)).2 = Some "disk full" /\
  exists encoded, encodeEntries ex_batch = Ok encoded /\
    forall b k, lookupKey (st_db (SaveBatch second no_faults ex_batch (ex_store ex_docs)).1) b k =
      match lastOf encoded b k with Some raw => Some raw | None => lookupKey ex_docs b k end.
Proof.
  split; [vm_compute; reflexivity|].
  refine (SaveBatch_atomic second no_faults ex_batch (ex_store ex_docs) _ None _).
  apply pair_snd. vm_compute. reflexivity.
Defined.

(** ** Initialisation *)

Definition ex_fresh : DB := {["meta" := {["schema_version" := "3"]}; "changes" := ∅]}.
Definition ex_initial : list Entry := [mkEntry "meta" "installation" (Ok "id"); mkEntry "revisions" "1" (Ok "{}")].
#[local] Notation ex_initialised := (InitializeIfEmpty second no_faults ex_initial (ex_store ex_fresh)).

Lemma InitializeIfEmpty_once_witness :
  (InitializeIfEmpty second no_faults ex_initial (ex_store ex_docs)).2 = (false, None) /\
  (@None string = None /\ emptyState ex_fresh = Some true /\
   (exists encoded, encodeEntries ex_initial = Ok encoded /\
      forall b k, lookupKey (st_db ex_initialised.1) b k =
        match lastOf encoded b k with Some raw => Some raw | None => lookupKey ex_fresh b k end) /\
   ((exists e, e ∈ ex_initial /\ (en_Bucket e ∈ applicationBuckets \/ en_Bucket e = "meta" /\ en_Key e <> "schema_version")) ->
    forall now' f' entries', (InitializeIfEmpty now' f' entries' ex_initialised.1).2.1 = false /\
      st_db (InitializeIfEmpty now' f' entries' ex_initialised.1).1 = st_db ex_initialised.1)).
Proof.
  split; [vm_compute; reflexivity|].
  refine (InitializeIfEmpty_once second no_faults ex_initial (ex_store ex_fresh) _ true None _).
  apply pair_snd. vm_compute. reflexivity.
Defined.

(** ** Schema *)

(** Decimal digits, which round-trip on the versions. *)
Definition ex_encodeInt (n : Z) : string :=
  if n =? 0 then "0" else if n =? 1 then "1" else if n =? 2 then "2" else if n =? 3 then "3" else "4".
Definition ex_decodeInt (raw : string) : result Z :=
  if raw =s "0" then Ok 0 else if raw =s "1" then Ok 1 else if raw =s "2" then Ok 2
  else if raw =s "3" then Ok 3 else if raw =s "4" then Ok 4 else Err "invalid".

Lemma ex_int_roundtrip n : 0 <= n <= CurrentSchemaVersion -> ex_decodeInt (ex_encodeInt n) = Ok n.
Proof. unfold CurrentSchemaVersion. intros Hn. assert (n = 0 \/ n = 1 \/ n = 2 \/ n = 3) as [->|[->|[->| ->]]] by lia; done. Qed.

(** A database of version 1. *)
Definition ex_v1 : DB :=
  {["meta" := {["schema_version" := "1"]}; "probes" := ∅; "changes" := {["c1" := "draft"]}; "events" := ∅;
    "revisions" := ∅; "transactions" := ∅; "candidates" := ∅]}.

Lemma Forall_true_b (names : list string) (f : string -> bool) : forallb f names = true -> Forall (fun n => f n = true) names.
Proof. rewrite forallb_forall, Forall_forall. intros Hf n Hn. by apply Hf, list_elem_of_In. Qed.

Lemma ex_v1_schema : schemaAt ex_decodeInt 1 ex_v1.
Proof.
  split; [vm_compute; reflexivity|]. apply Forall_forall, Forall_true_b. vm_compute. reflexivity.
Qed.

Lemma initSchema_migrates_witness :
  schemaAt ex_decodeInt 1 ex_v1 /\
  exists s', initSchema ex_encodeInt ex_decodeInt no_faults (ex_store ex_v1) = (s', None) /\
    schemaReady ex_decodeInt (st_db s') = Ok true /\
    (forall b k, (b, k) <> ("meta", "schema_version") -> lookupKey (st_db s') b k = lookupKey ex_v1 b k) /\
    initSchema ex_encodeInt ex_decodeInt no_faults s' = (s', None).
Proof.
  split; [exact ex_v1_schema|].
  refine (initSchema_migrates ex_encodeInt ex_decodeInt ex_int_roundtrip 1 (ex_store ex_v1) ex_v1_schema _).
  split; [discriminate|reflexivity].
Defined.

(** A database marked with the current version, but with a bucket missing, is
    found not to be ready and is opened as it is: [CreateBucketIfNotExists] runs
    in the migrations only. *)
Lemma missing_bucket_not_restored :
  schemaReady ex_decodeInt ex_docs = Ok false /\
  (initSchema ex_encodeInt ex_decodeInt no_faults (ex_store ex_docs)).2 = None /\
  schemaReady ex_decodeInt (st_db (initSchema ex_encodeInt ex_decodeInt no_faults (ex_store ex_docs)).1) = Ok false.
Proof. vm_compute. done. Qed.

(** So is a database of a later version. *)
Lemma newer_schema_accepted :
  (initSchema ex_encodeInt ex_decodeInt no_faults (ex_store {["meta" := {["schema_version" := "4"]}]})).2 = None.
Proof. vm_compute. done. Qed.

(** ** Probe results *)

Definition ex_probe (tag : string) : RouteResult :=
  mkResult "" "svc" tag "vless" "OK" "OK" true "" "" "" false true false false false false "" "" true 1 1 true F.zero
    [] "" "" None.

Lemma probe_ring_witness :
  map rr_Route (ListProbeResults 2 (foldl (fun s r => StoreProbeResult r s) (ex_store ∅) (map ex_probe ["a"; "b"; "c"])))
    = ["c"; "b"] /\
  let s' := foldl (fun s r => StoreProbeResult r s) (ex_store ∅) (map ex_probe ["a"; "b"; "c"]) in
  Z.of_nat (length (st_probes s')) <= 2 /\
  ListProbeResults 2 s' = take 2 (reverse (map ex_probe ["a"; "b"; "c"])) /\ st_db s' = ∅.
Proof.
  split; [vm_compute; reflexivity|].
  refine (probe_ring (map ex_probe ["a"; "b"; "c"]) (ex_store ∅) 2 _ _ _); simpl; lia.
Defined.

(** ** Retention *)

(** Documents that are their own state, stamped at the epoch. *)
Definition ex_fields (raw : string) : result (gmap string string) :=
  Ok {["state" := raw; "updated_at" := "0"; "time" := "0"]}.
Definition ex_time (text : string) : option time := if text =s "0" then Some second else None.
Definition ex_walk (docs : gmap string string) (_ : string -> string -> bool) : list (string * string) := inOrder docs.

Lemma ex_walk_sound docs p key raw : (key, raw) ∈ ex_walk docs p -> docs !! key = Some raw.
Proof. unfold ex_walk. rewrite inOrder_perm. apply elem_of_map_to_list. Qed.

Definition ex_aged : DB :=
  {["changes" := {["c1" := "committed"; "c2" := "applying"]}; "candidates" := {["c1" := "x"; "c2" := "y"]};
    "transactions" := {["t1" := "applying"; "t2" := "failed"]}]}.

Definition ex_cleaned : Store * (CleanupStats * option string) :=
  Cleanup ex_fields ex_time ex_walk (hour) (hour) no_faults (ex_store ex_aged).

Lemma Cleanup_safe_witness :
  lookupKey (st_db ex_cleaned.1) "changes" "c1" = None /\ lookupKey (st_db ex_cleaned.1) "candidates" "c1" = None /\
  ((None : option string) <> None -> st_db ex_cleaned.1 = ex_aged) /\
  (forall b key, lookupKey (st_db ex_cleaned.1) b key = lookupKey ex_aged b key \/
     lookupKey (st_db ex_cleaned.1) b key = None /\ exists raw, lookupKey ex_aged b key = Some raw /\
       droppable ex_fields ex_time hour ex_retention (st_db ex_cleaned.1) b key raw) /\
  (forall key raw item, lookupKey ex_aged "transactions" key = Some raw -> ex_fields raw = Ok item ->
     default "" (item !! "state") ∉ terminalStates -> lookupKey (st_db ex_cleaned.1) "transactions" key = Some raw).
Proof.
  split; [vm_compute; reflexivity|split; [vm_compute; reflexivity|]].
  refine (Cleanup_safe ex_fields ex_time ex_walk hour hour no_faults (ex_store ex_aged) ex_cleaned.1 ex_cleaned.2.1 None
            ex_walk_sound _).
  apply pair_snd, pair_snd. vm_compute. reflexivity.
Defined.

(** The transaction of the active revision is dropped like any other. *)
Definition ex_deployed : DB :=
  {["meta" := {["active_revision" := "r1"]}; "revisions" := {["r1" := "tx1"]}; "transactions" := {["tx1" := "committed"]}]}.
Definition ex_retired : Store * (CleanupStats * option string) :=
  Cleanup ex_fields ex_time ex_walk hour hour no_faults (ex_store ex_deployed).
Example cleanup_drops_active_transaction :
  ex_retired.2.2 = None /\ lookupKey (st_db ex_retired.1) "meta" "active_revision" = Some "r1" /\
  lookupKey (st_db ex_retired.1) "revisions" "r1" = Some "tx1" /\ lookupKey (st_db ex_retired.1) "transactions" "tx1" = None.
Proof. vm_compute. repeat split; reflexivity. Qed.
