(* ===== verification/Compaction.v ===== *)
(** * Compaction of the state database

    [CompactActive] and [recoverInterruptedCompaction] of
    [internal/state/state.go] on a model of the four files they touch.  Every
    call to the operating system or to bbolt may fail (the [n]th call succeeds
    when [ok n]), and the process may stop after any effect: the [trace] of a run
    lists the file systems such a stop would leave.  [bolt.Compact], when it
    succeeds, copies the documents; until then its file is [Partial]. *)
From Stdlib Require Import ZArith Lia.
From stdpp Require Import base list strings gmap.
From S2P Require Import Prelude Store.

Open Scope Z_scope.

Inductive content : Type :=
| Good (db : DB)
| Partial.

Abbreviation FS := (gmap string content) (only parsing).

(** The suffixes of the database path. *)
Definition active : string := "".
Definition previous : string := ".precompact".
Definition tmp : string := ".compact.tmp".
Definition failed : string := ".compact.failed".

Record CState := mkCState {
  c_fs : FS;
  c_db : option DB;  (* [s.db]: [None] for nil *)
  c_calls : nat;
  c_trace : list FS
}.

Definition C (A : Type) : Type := CState -> A * CState.
#[export] Instance C_bind : MBind C := fun A B f m st => let '(a, st) := m st in f a st.

Definition ret {A} (a : A) : C A := fun st => (a, st).

Definition setDB (db : option DB) : C unit := fun st => (tt, mkCState (c_fs st) db (c_calls st) (c_trace st)).
Definition getDB : C (option DB) := fun st => (c_db st, st).

Section Calls.
Context (ok : nat -> bool).

(** One call: its outcome, and its effect on the files when it succeeds. *)
Definition call (effect : FS -> option FS) : C bool := fun st =>
  match (if ok (c_calls st) then effect (c_fs st) else None) with
  | Some fs => (true, mkCState fs (c_db st) (S (c_calls st)) (c_trace st ++ [fs]))
  | None => (false, mkCState (c_fs st) (c_db st) (S (c_calls st)) (c_trace st))
  end.

Definition Remove (f : string) : C bool := call (fun fs => Some (delete f fs)).
Definition Rename (a b : string) : C bool := call (fun fs => c ← fs !! a; Some (<[b := c]> (delete a fs))).
(** [os.Remove] whose error is dropped. *)
Definition remove (f : string) : C unit := _ ← Remove f; ret tt.

(** [bolt.Open]: a missing file becomes an empty database. *)
Definition Open (f : string) : C (option DB) := fun st =>
  let '(opened, st') := call (fun fs => match fs !! f with
                                       | None => Some (<[f := Good ∅]> fs)
                                       | Some (Good _) => Some fs
                                       | Some Partial => None
                                       end) st in
  (if opened then match c_fs st' !! f with Some (Good db) => Some db | _ => None end else None, st').

(** [bolt.Compact] of the open database into [f]. *)
Definition Compact (f : string) (db : DB) : C bool :=
  _ ← call (fun fs => Some (<[f := Partial]> fs));
  call (fun fs => Some (<[f := Good db]> fs)).

Definition validateBoltFile (f : string) : C bool :=
  call (fun fs => match fs !! f with Some (Good _) => Some fs | _ => None end).

(** [Ok] for nil; the database handle is left in the state. *)
Definition CompactActive : C (result unit) :=
  db ← getDB;
  match db with
  | None => ret (Err "state database is closed")
  | Some db =>
      _ ← remove tmp;
      dst ← Open tmp;
      match dst with
      | None => ret (Err "open")
      | Some _ =>
          compacted ← Compact tmp db;
          closed ← call Some;
          if negb compacted then _ ← remove tmp; ret (Err "compact")
          else if negb closed then _ ← remove tmp; ret (Err "close")
          else
            valid ← validateBoltFile tmp;
            if negb valid then _ ← remove tmp; ret (Err "compacted database validation failed")
            else
              closed ← call Some;
              if negb closed then _ ← remove tmp; ret (Err "close active")
              else
                _ ← setDB None;
                _ ← remove previous;
                moved ← Rename active previous;
                if negb moved then
                  reopened ← Open active;
                  _ ← setDB reopened;
                  _ ← remove tmp;
                  ret (Err "move active database for compaction")
                else
                  installed ← Rename tmp active;
                  if negb installed then
                    restored ← Rename previous active;
                    _ ← (if (restored : bool) then reopened ← Open active; setDB reopened else ret tt);
                    _ ← remove tmp;
                    ret (Err "install compacted database")
                  else
                    reopened ← Open active;
                    match reopened with
                    | None =>
                        _ ← remove failed;
                        _ ← Rename active failed;
                        restored ← Rename previous active;
                        _ ← (if (restored : bool) then reopened ← Open active; setDB reopened else ret tt);
                        _ ← remove failed;
                        ret (Err "open compacted database")
                    | Some db =>
                        _ ← setDB (Some db);
                        _ ← remove previous;
                        ret (Ok tt)
                    end
      end
  end.
End Calls.

(** [recoverInterruptedCompaction], its calls succeeding. *)
Definition recoverInterruptedCompaction (fs : FS) : FS :=
  match fs !! active with
  | Some _ => fs
  | None => match fs !! previous with
            | None => fs
            | Some c => <[active := c]> (delete previous fs)
            end
  end.

(** ** Crash safety *)

Section Safety.
Context (ok : nat -> bool) (db : DB).

(** What a start after a stop in [fs] finds. *)
Definition recoverable (fs : FS) : Prop := recoverInterruptedCompaction fs !! active = Some (Good db).

(** Where the database is: in place, or aside with nothing in place. *)
Definition inPlace (fs : FS) : Prop := fs !! active = Some (Good db).
Definition aside (fs : FS) : Prop := fs !! active = None /\ fs !! previous = Some (Good db).

Lemma inPlace_recoverable fs : inPlace fs -> recoverable fs.
Proof. unfold inPlace, recoverable, recoverInterruptedCompaction. intros E. by rewrite E. Qed.
Lemma aside_recoverable fs : aside fs -> recoverable fs.
Proof.
  unfold aside, recoverable, recoverInterruptedCompaction. intros [-> ->]. apply lookup_insert_eq.
Qed.

(** A Hoare triple over the runs of [m]: from [P], with every file system in
    the trace recoverable, to [Q] of the result, likewise. *)
Definition triple {A} (P : CState -> Prop) (m : C A) (Q : A -> CState -> Prop) : Prop :=
  forall st, P st -> Forall recoverable (c_trace st) ->
    let '(a, st') := m st in Q a st' /\ Forall recoverable (c_trace st').

Lemma triple_ret {A} (a : A) (Q : A -> CState -> Prop) : triple (Q a) (ret a) Q.
Proof. by intros st HP HT. Qed.
Lemma triple_bind {A B} P (m : C A) (f : A -> C B) Q R :
  triple P m Q -> (forall a, triple (Q a) (f a) R) -> triple P (m ≫= f) R.
Proof.
  intros Hm Hf st HP HT. unfold mbind, C_bind. specialize (Hm st HP HT). destruct (m st) as [a st'].
  destruct Hm as [HQ HT']. exact (Hf a st' HQ HT').
Qed.

(** Assertions on the files and the handle. *)
Definition on (R : FS -> option DB -> Prop) (st : CState) : Prop := R (c_fs st) (c_db st).

Lemma triple_call effect (R : FS -> option DB -> Prop) (Q : bool -> FS -> option DB -> Prop) :
  (forall fs h, R fs h -> Q false fs h /\ forall fs', effect fs = Some fs' -> recoverable fs' /\ Q true fs' h) ->
  triple (on R) (call ok effect) (fun b => on (Q b)).
Proof.
  intros HX st HP HT. unfold call. destruct (HX _ _ HP) as [Hf Ht].
  destruct (ok (c_calls st)); [|done].
  destruct (effect (c_fs st)) as [fs|] eqn:E; [|done].
  destruct (Ht fs eq_refl) as [Hr HQ]. split; [done|]. apply Forall_app. split; [done|]. by constructor.
Qed.

Lemma triple_remove f (R : FS -> option DB -> Prop) :
  (forall fs h, R fs h -> recoverable (delete f fs) /\ R (delete f fs) h) ->
  triple (on R) (remove ok f) (fun _ => on R).
Proof.
  intros HX. unfold remove, Remove. eapply triple_bind; [|intros b; apply (triple_ret tt (fun _ => on R))].
  apply (triple_call _ R (fun _ => R)). intros fs h HR. split; [done|]. intros fs' [= <-]. auto.
Qed.

Lemma triple_setDB h (R R' : FS -> option DB -> Prop) :
  (forall fs h0, R fs h0 -> R' fs h) -> triple (on R) (setDB h) (fun _ => on R').
Proof. intros HX st HP HT. split; [|done]. by eapply HX. Qed.

(** Reopening the database in place. *)
Lemma triple_open_active (R : FS -> option DB -> Prop) :
  (forall fs h, R fs h -> inPlace fs) ->
  triple (on R) (Open ok active) (fun opened st => on R st /\ (opened = None \/ opened = Some db)).
Proof.
  intros HX st HP HT. unfold Open, call. pose proof (HX _ _ HP) as Hin. unfold inPlace in Hin.
  destruct (ok (c_calls st)); [|split; [split; [done|by left]|done]].
  rewrite Hin. simpl. rewrite Hin. split; [split; [done|by right]|].
  apply Forall_app. split; [done|]. constructor; [by apply inPlace_recoverable|done].
Qed.

Definition stays (h : option DB) (fs : FS) (h' : option DB) : Prop := inPlace fs /\ h' = h.
Definition copied (h : option DB) (fs : FS) (h' : option DB) : Prop :=
  inPlace fs /\ fs !! tmp = Some (Good db) /\ h' = h.

(** Deleting or writing a file beside the database. *)
Lemma inPlace_delete f fs : f <> active -> inPlace fs -> inPlace (delete f fs).
Proof. unfold inPlace. intros Hf Hin. by rewrite lookup_delete_ne. Qed.
Lemma inPlace_insert f c fs : f <> active -> inPlace fs -> inPlace (<[f := c]> fs).
Proof. unfold inPlace. intros Hf Hin. by rewrite lookup_insert_ne. Qed.

Lemma triple_remove_stays f h : f <> active -> triple (on (stays h)) (remove ok f) (fun _ => on (stays h)).
Proof.
  intros Hf. apply triple_remove. intros fs h' [Hin ->].
  split; [apply inPlace_recoverable|split; [|done]]; by apply inPlace_delete.
Qed.

(** What a run ends in: the database recoverable, the handle either nil or on
    the same documents; in place and open if it succeeded. *)
Definition ended (r : result unit) (fs : FS) (h : option DB) : Prop :=
  recoverable fs /\ (h = None \/ h = Some db) /\ (r = Ok tt -> inPlace fs /\ h = Some db).

Lemma stays_ended h e fs h' : h = None \/ h = Some db -> stays h fs h' -> ended (Err e) fs h'.
Proof. intros Hh [Hin ->]. split_and!; [by apply inPlace_recoverable|done|done]. Qed.

(** Giving up before the switch. *)
Lemma triple_giveup h e : h = None \/ h = Some db ->
  triple (on (stays h)) (_ ← remove ok tmp; ret (Err e)) (fun r => on (ended r)).
Proof.
  intros Hh. eapply triple_bind; [by apply triple_remove_stays|]. intros ? st HP HT.
  split; [|done]. by eapply stays_ended.
Qed.

Lemma triple_pre {A} (P P' : CState -> Prop) (m : C A) Q : (forall st, P st -> P' st) -> triple P' m Q -> triple P m Q.
Proof. intros Hp Hm st HP. apply Hm. auto. Qed.
Lemma copied_stays h st : on (copied h) st -> on (stays h) st.
Proof. by intros (? & ? & ?). Qed.

(** Renaming back, reopening, and giving up, from either arrangement. *)
Definition either (fs : FS) (h : option DB) : Prop := (inPlace fs \/ aside fs) /\ h = None /\ fs !! previous = Some (Good db).

Lemma triple_restore f e : f <> active -> f <> previous ->
  triple (on either)
    (restored ← Rename ok previous active;
     _ ← (if (restored : bool) then reopened ← Open ok active; setDB reopened else ret tt);
     _ ← remove ok f; ret (Err e))
    (fun r => on (ended r)).
Proof.
  intros Hfa Hfp. unfold Rename.
  eapply triple_bind.
  { apply (triple_call _ either (fun b fs h => if b then stays None fs h else either fs h)).
    intros fs h HR. split; [done|]. intros fs' E. apply bind_Some in E as (c & Ec & [= <-]).
    destruct HR as (_ & -> & Hp). assert (c = Good db) as -> by congruence.
    assert (inPlace (<[active := Good db]> (delete previous fs))) by apply lookup_insert_eq.
    split; [by apply inPlace_recoverable|done]. }
  intros restored. eapply (triple_bind _ _ _ (fun _ => on (fun fs h => (either fs h \/ stays None fs h \/ stays (Some db) fs h)))).
  { destruct restored.
    - eapply triple_bind; [apply (triple_open_active (stays None)); by intros fs h []|].
      intros opened st [HP Ho] HT. split; [|done]. destruct HP as [Hin _]. right.
      destruct Ho as [-> | ->]; [by left|by right].
    - intros st HP HT. split; [by left|done]. }
  intros ?. eapply triple_bind.
  { apply (triple_remove f (fun fs h => either fs h \/ stays None fs h \/ stays (Some db) fs h)).
    intros fs h [([Hin|[Ha Hp]] & -> & Hp')|[[Hin ->]|[Hin ->]]].
    - split; [by apply inPlace_recoverable, inPlace_delete|]. left. split_and!; [left; by apply inPlace_delete|done|by rewrite lookup_delete_ne].
    - assert (aside (delete f fs)) by (split; by rewrite lookup_delete_ne).
      split; [by apply aside_recoverable|]. left. split_and!; [by right|done|by rewrite lookup_delete_ne].
    - split; [by apply inPlace_recoverable, inPlace_delete|]. right; left. split; [by apply inPlace_delete|done].
    - split; [by apply inPlace_recoverable, inPlace_delete|]. right; right. split; [by apply inPlace_delete|done]. }
  intros ? st HP HT. split; [|done]. destruct HP as [([Hin|Ha] & Hh & _)|[Hs|Hs]].
  - split_and!; [by apply inPlace_recoverable|by left|done].
  - split_and!; [by apply aside_recoverable|by left|done].
  - eapply stays_ended; [by left|done].
  - eapply stays_ended; [by right|done].
Qed.

Definition moved (fs : FS) (h : option DB) : Prop := aside fs /\ fs !! tmp = Some (Good db) /\ h = None.
Definition installed (fs : FS) (h : option DB) : Prop :=
  inPlace fs /\ fs !! previous = Some (Good db) /\ h = None.

Lemma triple_open_tmp h : triple (on (stays h)) (Open ok tmp) (fun _ => on (stays h)).
Proof.
  intros st [Hin Hh] HT. unfold Open, call. destruct (ok (c_calls st)); [|done].
  set (o := match c_fs st !! tmp with None => _ | Some (Good _) => _ | Some Partial => _ end).
  assert (Ho : forall fs, o = Some fs -> inPlace fs).
  { unfold o. intros fs. destruct (c_fs st !! tmp) as [[d|]|]; intros [= <-]; [done|by apply inPlace_insert]. }
  clearbody o. destruct o as [fs|]; [|done]. specialize (Ho fs eq_refl). split; [done|].
  apply Forall_app. split; [done|]. constructor; [by apply inPlace_recoverable|done].
Qed.

Lemma triple_compact h : triple (on (stays h)) (Compact ok tmp db) (fun b => on (if b then copied h else stays h)).
Proof.
  unfold Compact. eapply triple_bind.
  - apply (triple_call _ (stays h) (fun _ => stays h)). intros fs h' [Hin ->]. split; [done|]. intros fs' [= <-].
    split; [apply inPlace_recoverable|split; [|done]]; by apply inPlace_insert.
  - intros created. apply (triple_call _ (stays h) (fun b => if b then copied h else stays h)).
    intros fs h' [Hin ->]. split; [done|]. intros fs' [= <-].
    assert (inPlace (<[tmp := Good db]> fs)) by (by apply inPlace_insert).
    split; [by apply inPlace_recoverable|]. split_and!; [done|apply lookup_insert_eq|done].
Qed.

(** A call that only observes. *)
Lemma triple_observe effect h : (forall fs fs', effect fs = Some fs' -> fs' = fs) ->
  triple (on (copied h)) (call ok effect) (fun _ => on (copied h)).
Proof.
  intros He. apply (triple_call effect (copied h) (fun _ => copied h)). intros fs h' HR. split; [done|].
  intros fs' E. apply He in E as ->. split; [|done]. by apply inPlace_recoverable, HR.
Qed.

Lemma triple_unmoved :
  triple (on (copied None)) (reopened ← Open ok active; _ ← setDB reopened; _ ← remove ok tmp;
                             ret (Err "move active database for compaction")) (fun r => on (ended r)).
Proof.
  eapply triple_pre; [apply copied_stays|].
  eapply triple_bind; [apply (triple_open_active (stays None)); by intros fs h []|]. intros opened.
  eapply (triple_pre _ (fun st => on (stays None) st /\ (opened = None \/ opened = Some db))); [done|].
  intros st [HP Ho] HT.
  assert (HX : triple (on (stays None)) (_ ← setDB opened; _ ← remove ok tmp;
                ret (Err "move active database for compaction")) (fun r => on (ended r))).
  { eapply triple_bind; [apply (triple_setDB opened (stays None) (stays opened)); by intros fs h []|].
    intros ?. by apply triple_giveup. }
  exact (HX st HP HT).
Qed.

Lemma triple_switch :
  triple (on moved)
    (i ← Rename ok tmp active;
     if negb i then
       restored ← Rename ok previous active;
       _ ← (if (restored : bool) then reopened ← Open ok active; setDB reopened else ret tt);
       _ ← remove ok tmp; ret (Err "install compacted database")
     else
       reopened ← Open ok active;
       match reopened with
       | None =>
           _ ← remove ok failed; _ ← Rename ok active failed;
           restored ← Rename ok previous active;
           _ ← (if (restored : bool) then reopened ← Open ok active; setDB reopened else ret tt);
           _ ← remove ok failed; ret (Err "open compacted database")
       | Some db => _ ← setDB (Some db); _ ← remove ok previous; ret (Ok tt)
       end)
    (fun r => on (ended r)).
Proof.
  unfold Rename at 1. eapply triple_bind.
  { apply (triple_call _ moved (fun b => if b then installed else either)).
    intros fs h ([Ha Hp] & Ht & ->). split; [split_and!; [by right|done|done]|].
    intros fs' E. apply bind_Some in E as (c & Ec & [= <-]). assert (c = Good db) as -> by congruence.
    assert (inPlace (<[active := Good db]> (delete tmp fs))) by apply lookup_insert_eq.
    split; [by apply inPlace_recoverable|]. split_and!; [done| |done].
    by rewrite lookup_insert_ne, lookup_delete_ne. }
  intros i. destruct i; simpl negb; cbv iota; [|by apply triple_restore].
  eapply triple_bind; [apply (triple_open_active installed); by intros fs h (? & _)|]. intros opened st [HP Ho] HT.
  destruct Ho as [-> | ->].
  - assert (HX : triple (on installed) (_ ← remove ok failed; _ ← Rename ok active failed;
           restored ← Rename ok previous active;
           _ ← (if (restored : bool) then reopened ← Open ok active; setDB reopened else ret tt);
           _ ← remove ok failed; ret (Err "open compacted database")) (fun r => on (ended r))); [|exact (HX st HP HT)].
    eapply triple_bind.
    { apply (triple_remove failed installed). intros fs h (Hin & Hp & ->).
      assert (inPlace (delete failed fs)) by (by apply inPlace_delete).
      split; [by apply inPlace_recoverable|]. split_and!; [done|by rewrite lookup_delete_ne|done]. }
    intros ?. unfold Rename at 1. eapply triple_bind; [|intros b; by apply triple_restore].
    apply (triple_call _ installed (fun _ => either)). intros fs h (Hin & Hp & ->).
    split; [split_and!; [by left|done|done]|]. intros fs' E. apply bind_Some in E as (c & _ & [= <-]).
    assert (aside (<[failed := c]> (delete active fs))).
    { split; rewrite lookup_insert_ne by done; [apply lookup_delete_eq|by rewrite lookup_delete_ne]. }
    split; [by apply aside_recoverable|]. split_and!; [by right|done|apply H].
  - assert (HX : triple (on installed) (_ ← setDB (Some db); _ ← remove ok previous; ret (Ok tt)) (fun r => on (ended r)));
      [|exact (HX st HP HT)].
    eapply triple_bind; [apply (triple_setDB (Some db) installed (stays (Some db))); by intros fs h (? & _)|].
    intros ?. eapply triple_bind; [by apply triple_remove_stays|]. intros _ st' [Hin Hh] HT'. split; [|done].
    split_and!; [by apply inPlace_recoverable|by right|done].
Qed.

Lemma triple_CompactActive : triple (on (stays (Some db))) (CompactActive ok) (fun r => on (ended r)).
Proof.
  unfold CompactActive. eapply triple_bind.
  { apply (fun H => H : triple (on (stays (Some db))) getDB (fun d st => on (stays (Some db)) st /\ d = Some db)).
    intros st HP HT. split; [split; [done|apply HP]|done]. }
  intros d st [HP ->] HT. revert st HP HT.
  match goal with |- forall st, _ -> _ -> let '(_, _) := ?m st in _ =>
    change (triple (on (stays (Some db))) m (fun r => on (ended r))) end.
  eapply triple_bind; [by apply triple_remove_stays|]. intros ?.
  eapply triple_bind; [apply triple_open_tmp|]. intros dst.
  destruct dst as [d0|]; [|intros st HP HT; split; [eapply stays_ended; [by right|done]|done]].
  eapply triple_bind; [apply triple_compact|]. intros compacted.
  destruct compacted.
  2: { eapply triple_bind; [|intros c; by apply triple_giveup; right].
       apply (triple_call Some (stays (Some db)) (fun _ => stays (Some db))). intros fs h HR. split; [done|].
       intros fs' [= <-]. split; [by apply inPlace_recoverable, HR|done]. }
  eapply triple_bind; [apply triple_observe; congruence|]. intros closed. simpl negb. cbv iota.
  destruct closed; simpl negb; cbv iota; [|eapply triple_pre; [apply copied_stays|by apply triple_giveup; right]].
  eapply triple_bind.
  { apply triple_observe. intros fs fs'. destruct (fs !! tmp) as [[]|]; congruence. }
  intros valid. destruct valid; simpl negb; cbv iota; [|eapply triple_pre; [apply copied_stays|by apply triple_giveup; right]].
  eapply triple_bind; [apply triple_observe; congruence|]. intros closed.
  destruct closed; simpl negb; cbv iota; [|eapply triple_pre; [apply copied_stays|by apply triple_giveup; right]].
  eapply triple_bind; [apply (triple_setDB None (copied (Some db)) (copied None)); by intros fs h (? & ? & _)|]. intros ?.
  eapply triple_bind.
  { apply (triple_remove previous (copied None)). intros fs h (Hin & Ht & ->).
    assert (inPlace (delete previous fs)) by (by apply inPlace_delete).
    split; [by apply inPlace_recoverable|]. split_and!; [done|by rewrite lookup_delete_ne|done]. }
  intros ?. unfold Rename at 1. eapply triple_bind.
  { apply (triple_call _ (copied None) (fun b => if b then moved else copied None)).
    intros fs h (Hin & Ht & ->). split; [done|]. intros fs' E. apply bind_Some in E as (c & Ec & [= <-]).
    assert (c = Good db) as -> by (unfold inPlace in Hin; congruence).
    assert (aside (<[previous := Good db]> (delete active fs))).
    { split; [rewrite lookup_insert_ne by done; apply lookup_delete_eq|apply lookup_insert_eq]. }
    split; [by apply aside_recoverable|]. split_and!; [done|by rewrite lookup_insert_ne, lookup_delete_ne|done]. }
  intros b. destruct b; simpl negb; cbv iota; [apply triple_switch|apply triple_unmoved].
Qed.
End Safety.

(** C14: compaction never loses the state.  Whichever calls fail, and wherever the
    process stops while [CompactActive] runs on an open database, the next start
    ([recoverInterruptedCompaction]) finds the database in place with the same
    documents.  When it returns, the files are recoverable too, the open handle
    (if any) is on the same documents, and on success the database is in place
    and open. *)
Theorem compaction_crash_safe ok db fs :
  fs !! active = Some (Good db) ->
  let '(r, st) := CompactActive ok (mkCState fs (Some db) 0 []) in
  Forall (fun fs => recoverInterruptedCompaction fs !! active = Some (Good db)) (c_trace st) /\
  recoverInterruptedCompaction (c_fs st) !! active = Some (Good db) /\
  (c_db st = None \/ c_db st = Some db) /\
  (r = Ok tt -> c_fs st !! active = Some (Good db) /\ c_db st = Some db).
Proof.
  intros Hin. pose proof (triple_CompactActive ok db (mkCState fs (Some db) 0 [])) as HT.
  destruct (CompactActive ok _) as [r st]. destruct HT as [(H1 & H2 & H3) HF]; [by split|constructor|].
  by split_and!.
Qed.

Definition ex_db : DB := {["meta" := {["schema_version" := "3"]}]}.

Lemma compaction_crash_safe_witness :
  (CompactActive (fun n => negb (Nat.eqb n 8)) (mkCState {[active := Good ex_db]} (Some ex_db) 0 [])).1 <> Ok tt /\
  let '(r, st) := CompactActive (fun n => negb (Nat.eqb n 8)) (mkCState {[active := Good ex_db]} (Some ex_db) 0 []) in
  Forall (fun fs => recoverInterruptedCompaction fs !! active = Some (Good ex_db)) (c_trace st) /\
  recoverInterruptedCompaction (c_fs st) !! active = Some (Good ex_db) /\
  (c_db st = None \/ c_db st = Some ex_db) /\
  (r = Ok tt -> c_fs st !! active = Some (Good ex_db) /\ c_db st = Some ex_db).
Proof.
  split; [by vm_compute|].
  apply (compaction_crash_safe (fun n => negb (Nat.eqb n 8)) ex_db {[active := Good ex_db]}). apply lookup_insert_eq.
Defined.

(** A failed compaction can leave the store without an open database: the second
    rename, the way back, and every later call then fails or, on a nil database,
    panics. *)
Lemma compaction_may_close_store :
  let ok n := negb (Nat.eqb n 9 || Nat.eqb n 10) in
  let '(r, st) := CompactActive ok (mkCState {[active := Good ex_db]} (Some ex_db) 0 []) in
  c_db st = None /\ r = Err "install compacted database".
Proof. vm_compute. done. Qed.
