(* ===== verification/Candidate.v ===== *)
(** * Building the candidate configuration

    [buildCandidate] and its allow lists, [internal/api/transaction.go].  The
    candidate is a tree of Go maps and slices edited in place, and the value of
    an operation is put into it by reference: later operations below its path
    edit the value the change set still holds.  Maps and slices therefore live in
    a store of nodes, from which the operations are read back afterwards. *)
From Stdlib Require Import ZArith Lia SpecFloat.
From stdpp Require Import base list strings gmap sorting.
From S2P Require Import Prelude Float64 Config Json.

Open Scope Z_scope.

(** ** Which paths an operation may name *)

Definition supportedOperation (op : string) : bool := containsString ["set"; "add"; "update"; "delete"] op.

Definition rootAllowed (parts : list string) : bool :=
  match parts with
  | [] => false
  | root :: rest =>
      if containsString ["policy"; "routes"; "services"; "overrides"] root then true
      else match rest with
      | [field] =>
          if root =s "storage" then (field =s "state_dir") || (field =s "database")
          else if root =s "xray" then
            containsString ["outbound_bundle_sha256"; "activation_mode"; "subscription_secret_file"; "last_good_config"] field
          else if root =s "zapret" then
            containsString ["activation_mode"; "provider_source"; "provider_version"; "binary_sha256"; "adaptive_enabled";
                            "adaptive_catalog_file"; "adaptive_assignments"] field
          else if root =s "openwrt" then field =s "flow_offloading_policy"
          else if root =s "geoip" then field =s "database"
          else false
      | _ => false
      end
  end.
Definition operationRootAllowed (path : string) : bool :=
  match splitJSONPointer path with Ok parts => rootAllowed parts | Err _ => false end.

(** ** Shared maps and slices *)

Inductive value : Type :=
| VNull
| VBool (b : bool)
| VNum (n : spec_float)
| VStr (s : string)
| VRef (address : N).
Inductive node : Type :=
| NArr (items : list value)
| NObj (members : list (string * value)).
Record Heap := mkHeap { hp_next : N; hp_nodes : gmap N node }.

Definition push (n : node) (h : Heap) : value * Heap :=
  (VRef (hp_next h), mkHeap (N.succ (hp_next h)) (<[hp_next h := n]> (hp_nodes h))).
Definition store (address : N) (n : node) (h : Heap) : Heap := mkHeap (hp_next h) (<[address := n]> (hp_nodes h)).

(** [json.Unmarshal] into [any]: fresh nodes throughout. *)
Fixpoint alloc (j : json) (h : Heap) : value * Heap :=
  match j with
  | JNull => (VNull, h)
  | JBool b => (VBool b, h)
  | JNum n => (VNum n, h)
  | JStr s => (VStr s, h)
  | JArr items =>
      let '(vs, h) := (fix go items h :=
        match items with
        | [] => ([], h)
        | x :: items => let '(v, h) := alloc x h in let '(vs, h) := go items h in (v :: vs, h)
        end) items h in
      push (NArr vs) h
  | JObj members =>
      let '(vs, h) := (fix go members h :=
        match members with
        | [] => ([], h)
        | (k, x) :: members => let '(v, h) := alloc x h in let '(vs, h) := go members h in ((k, v) :: vs, h)
        end) members h in
      push (NObj vs) h
  end.

(** [json.Marshal]: the tree below a value; [None] beyond [fuel] levels. *)
Fixpoint read (fuel : nat) (h : Heap) (v : value) : option json :=
  match v with
  | VNull => Some JNull
  | VBool b => Some (JBool b)
  | VNum n => Some (JNum n)
  | VStr s => Some (JStr s)
  | VRef a =>
      match fuel with
      | O => None
      | S fuel =>
          match hp_nodes h !! a with
          | Some (NArr items) => JArr <$> mapM (read fuel h) items
          | Some (NObj members) => JObj <$> mapM (fun m => (fun j => (m.1, j)) <$> read fuel h m.2) members
          | None => None
          end
      end
  end.
(** Every node once: more levels than there are nodes are not possible in a tree. *)
Definition readAll (h : Heap) (v : value) : option json := read (S (N.to_nat (hp_next h))) h v.

(** [pointerParent]. *)
Fixpoint pointerParent (h : Heap) (cur : value) (parts : list string) : result value :=
  match parts with
  | [] => Ok cur
  | part :: rest =>
      match cur with
      | VRef a =>
          match hp_nodes h !! a with
          | Some (NObj members) =>
              match member part members with
              | None => Err "path segment does not exist"
              | Some next => pointerParent h next rest
              end
          | Some (NArr items) =>
              idx ← arrayIndex part (length items);
              match items !! idx with Some next => pointerParent h next rest | None => Err "array index out of range" end
          | None => Err "path segment is not a container"
          end
      | _ => Err "path segment is not a container"
      end
  end.

(** An operation whose value is in the store. *)
Record HeapOp := mkHeapOp { ho_Type : string; ho_Path : string; ho_Value : value }.

(** The switch on the parent. *)
Definition editParent (type key : string) (v parent : value) (h : Heap) : result Heap :=
  match parent with
  | VRef a =>
      match hp_nodes h !! a with
      | Some (NObj members) => members ← editMembers type key v members; Ok (store a (NObj members) h)
      | Some (NArr items) => items ← editItems type key v items; Ok (store a (NArr items) h)
      | None => Err "parent is not editable"
      end
  | _ => Err "parent is not editable"
  end.

Definition applyConfigOperation (candidate : value) (op : HeapOp) (h : Heap) : result Heap :=
  parts ← splitJSONPointer (ho_Path op);
  match parts with
  | [] => Err "empty path"
  | root :: _ =>
      match candidate with
      | VRef r =>
          match hp_nodes h !! r with
          | Some (NObj members) =>
              match member root members with
              | None => Err "path is outside typed config model"
              | Some _ =>
                  parent ← pointerParent h candidate (List.removelast parts);
                  editParent (ho_Type op) (List.last parts "") (ho_Value op) parent h
              end
          | _ => Err "path is outside typed config model"
          end
      | _ => Err "path is outside typed config model"
      end
  end.

(** ** The candidate *)

Record Validation := mkValidation { va_Level : string; va_Code : string }.
Definition hasValidationError (items : list Validation) : bool := any (fun v => va_Level v =s "error") items.
Definition error (code : string) : Validation := mkValidation "error" code.

(** What an operation is refused for before it is tried. *)
Definition refusal (op : HeapOp) : option string :=
  if negb (supportedOperation (ho_Type op)) then Some "operation_type_denied"
  else if negb (operationRootAllowed (ho_Path op)) then Some "operation_path_denied"
  else if (ho_Type op <>s "delete") && (match ho_Value op with VNull => true | _ => false end)
  then Some "operation_value_required"
  else None.

(** The loop over the operations: the store afterwards and the complaints. *)
Fixpoint applyOperations (candidate : value) (ops : list HeapOp) (h : Heap) : Heap * list Validation :=
  match ops with
  | [] => (h, [])
  | op :: ops =>
      match refusal op with
      | Some code => let '(h, vs) := applyOperations candidate ops h in (h, error code :: vs)
      | None =>
          match applyConfigOperation candidate op h with
          | Err _ => let '(h, vs) := applyOperations candidate ops h in (h, error "operation_not_applied" :: vs)
          | Ok h => applyOperations candidate ops h
          end
      end
  end.

Fixpoint allocOps (ops : list ChangeOp) (h : Heap) : list HeapOp * Heap :=
  match ops with
  | [] => ([], h)
  | op :: ops =>
      let '(v, h) := alloc (op_Value op) h in
      let '(hops, h) := allocOps ops h in
      (mkHeapOp (op_Type op) (op_Path op) v :: hops, h)
  end.
(** The operations as the change set holds them afterwards. *)
Definition readOp (h : Heap) (op : ChangeOp) (hop : HeapOp) : ChangeOp :=
  mkOp (op_Type op) (op_Path op) (default (op_Value op) (readAll h (ho_Value hop))) (op_Before op).

Section Build.
Context {Cfg : Type}.
(** [json.Marshal] and [json.Unmarshal] of a [config.Config], as documents, and
    [Config.Validate]: a configuration it accepts, as it leaves it (it rewrites
    domains and overrides in place). *)
Context (marshal : Cfg -> result json) (unmarshal : json -> result Cfg) (validate : Cfg -> result Cfg).

Record Built := mkBuilt {
  bt_Candidate : option (Cfg * json);  (* the typed candidate and its canonical document *)
  bt_Diff : list ChangeOp;
  bt_Validation : list Validation;
  bt_Operations : list ChangeOp  (* the operations of the change set afterwards *)
}.

(** The typed candidate of a document, checked, and what changed. *)
Definition typedCandidate (before candidate : json) (vs : list Validation) (ops : list ChangeOp) : Built :=
  let refuse code := mkBuilt None [] (vs ++ [error code]) ops in
  match unmarshal candidate with
  | Err _ => refuse "candidate_type_failed"
  | Ok decoded =>
      match validate decoded with
      | Err _ => refuse "candidate_semantic_failed"
      | Ok typed =>
          match marshal typed with
          | Err _ => refuse "candidate_marshal_failed"
          | Ok canonical =>
              let changed := diff before canonical in
              match changed with
              | [] => mkBuilt (Some (typed, canonical)) [] (vs ++ [error "candidate_noop"]) ops
              | _ => mkBuilt (Some (typed, canonical)) changed (vs ++ [mkValidation "info" "candidate_semantic_ok"]) ops
              end
          end
      end
  end.

Definition buildCandidate (active : Cfg) (operations : list ChangeOp) : Built :=
  let refuse code := mkBuilt None [] [error code] operations in
  match operations with
  | [] => refuse "empty_operations"
  | _ =>
      match marshal active with
      | Err _ => refuse "candidate_clone_failed"
      | Ok before =>
          let '(hops, h) := allocOps operations (mkHeap 0 ∅) in
          let '(candidate, h) := alloc before h in
          let '(h, vs) := applyOperations candidate hops h in
          let after := zip_with (readOp h) operations hops in
          if hasValidationError vs then mkBuilt None [] vs after
          else match readAll h candidate with
          | None => mkBuilt None [] (vs ++ [error "candidate_marshal_failed"]) after
          | Some document => typedCandidate before document vs after
          end
      end
  end.
End Build.
Arguments Built : clear implicits.
