(* ===== verification/CandidateProofs.v ===== *)
(** * Editing shared nodes is editing trees

    As long as no node is reachable twice, the edits of [applyConfigOperation] on
    the store do to the candidate what the edits on trees do: [buildCandidate]
    computes the candidate, the difference and the complaints that the tree
    operations prescribe.  Only the values the operations hold afterwards differ. *)
From Stdlib Require Import ZArith Lia SpecFloat.
From stdpp Require Import base list strings gmap sorting.
From S2P Require Import Prelude Float64 Config Json JsonProofs Candidate.

Open Scope Z_scope.

(** ** What a value stands for

    [rep nodes v j X]: below [v] is the tree [j], in the nodes [X], each reached
    once. *)
Inductive rep (nodes : gmap N node) : value -> json -> gset N -> Prop :=
| rep_null : rep nodes VNull JNull ∅
| rep_bool b : rep nodes (VBool b) (JBool b) ∅
| rep_num n : rep nodes (VNum n) (JNum n) ∅
| rep_str s : rep nodes (VStr s) (JStr s) ∅
| rep_arr a vs js X : nodes !! a = Some (NArr vs) -> reps nodes vs js X -> a ∉ X -> rep nodes (VRef a) (JArr js) ({[a]} ∪ X)
| rep_obj a vs js X : nodes !! a = Some (NObj vs) -> repm nodes vs js X -> a ∉ X -> ordered js -> rep nodes (VRef a) (JObj js) ({[a]} ∪ X)
with reps (nodes : gmap N node) : list value -> list json -> gset N -> Prop :=
| reps_nil : reps nodes [] [] ∅
| reps_cons v vs j js X Y : rep nodes v j X -> reps nodes vs js Y -> X ## Y -> reps nodes (v :: vs) (j :: js) (X ∪ Y)
with repm (nodes : gmap N node) : list (string * value) -> list (string * json) -> gset N -> Prop :=
| repm_nil : repm nodes [] [] ∅
| repm_cons k v vs j js X Y :
    rep nodes v j X -> repm nodes vs js Y -> X ## Y -> repm nodes ((k, v) :: vs) ((k, j) :: js) (X ∪ Y).

Scheme rep_mut := Minimality for rep Sort Prop
  with reps_mut := Minimality for reps Sort Prop
  with repm_mut := Minimality for repm Sort Prop.
Combined Scheme rep_all from rep_mut, reps_mut, repm_mut.

(** Only the nodes of the footprint matter. *)
Definition framed (nodes nodes' : gmap N node) (X : gset N) : Prop := forall a, a ∈ X -> nodes' !! a = nodes !! a.
Lemma rep_frame_all nodes nodes' :
  (forall v j X, rep nodes v j X -> framed nodes nodes' X -> rep nodes' v j X) /\
  (forall vs js X, reps nodes vs js X -> framed nodes nodes' X -> reps nodes' vs js X) /\
  (forall vs js X, repm nodes vs js X -> framed nodes nodes' X -> repm nodes' vs js X).
Proof.
  apply rep_all; unfold framed; try (by constructor).
  - intros a vs js X Ha _ IH Hn Hf. eapply rep_arr; [rewrite Hf; [exact Ha|set_solver]|apply IH|exact Hn]. intros b Hb. apply Hf. set_solver.
  - intros a vs js X Ha _ IH Hn Ho Hf. eapply rep_obj; [rewrite Hf; [exact Ha|set_solver]|apply IH|exact Hn|exact Ho]. intros b Hb. apply Hf. set_solver.
  - intros v vs j js X Y _ IH1 _ IH2 Hd Hf. constructor; [apply IH1|apply IH2|done]; intros b Hb; apply Hf; set_solver.
  - intros k v vs j js X Y _ IH1 _ IH2 Hd Hf. constructor; [apply IH1|apply IH2|done]; intros b Hb; apply Hf; set_solver.
Qed.
Lemma rep_frame nodes nodes' v j X : rep nodes v j X -> framed nodes nodes' X -> rep nodes' v j X.
Proof. apply (rep_frame_all nodes nodes'). Qed.
Lemma reps_frame nodes nodes' v j X : reps nodes v j X -> framed nodes nodes' X -> reps nodes' v j X.
Proof. apply (rep_frame_all nodes nodes'). Qed.
Lemma repm_frame nodes nodes' v j X : repm nodes v j X -> framed nodes nodes' X -> repm nodes' v j X.
Proof. apply (rep_frame_all nodes nodes'). Qed.

Lemma framed_insert nodes a n X : a ∉ X -> framed nodes (<[a := n]> nodes) X.
Proof. intros Ha b Hb. rewrite lookup_insert_ne; [done|]. by intros ->. Qed.

(** ** Members and items *)

Lemma repm_member nodes fs ms X key :
  repm nodes fs ms X ->
  match member key ms with
  | Some j => exists v Y, member key fs = Some v /\ rep nodes v j Y /\ Y ⊆ X
  | None => member key fs = None
  end.
Proof.
  induction 1 as [|k v vs j js X Y Hv Hr IH Hd]; simpl; [done|]. destruct (key =s k); [exists v, X; set_solver|].
  destruct (member key js) as [j'|]; [|done]. destruct IH as (v' & Z & ? & ? & ?). exists v', Z. set_solver.
Qed.

(** Replacing a member: the others keep their nodes. *)
Lemma repm_set nodes fs ms X key vo jo Xo :
  repm nodes fs ms X -> rep nodes vo jo Xo -> Xo ## X ->
  exists X', repm nodes (setMember key vo fs) (setMember key jo ms) X' /\ X' ⊆ X ∪ Xo.
Proof.
  intros HR Ho. induction HR as [|k v vs j js X Y Hv Hr IH Hd]; simpl; intros HD.
  { exists (Xo ∪ ∅). split; [|set_solver]. constructor; [done|constructor|set_solver]. }
  destruct (key =s k); [exists (Xo ∪ Y); split; [constructor; [done..|set_solver]|set_solver]|].
  destruct (S.ltb key k).
  { exists (Xo ∪ (X ∪ Y)). split; [|set_solver]. constructor; [done|by constructor|set_solver]. }
  destruct IH as (Z & HZ & HZs); [set_solver|]. exists (X ∪ Z). split; [|set_solver]. constructor; [done..|set_solver].
Qed.
Lemma repm_delete nodes fs ms X key :
  repm nodes fs ms X -> exists X', repm nodes (deleteMember key fs) (deleteMember key ms) X' /\ X' ⊆ X.
Proof.
  induction 1 as [|k v vs j js X Y Hv Hr IH Hd]; [exists ∅; split; [constructor|done]|]. unfold deleteMember in *. cbn [List.filter fst].
  destruct IH as (Z & HZ & HZs). destruct (negb (k =s key)); [|exists Z; set_solver].
  exists (X ∪ Z). split; [|set_solver]. constructor; [done..|set_solver].
Qed.
Lemma reps_length nodes vs js X : reps nodes vs js X -> length vs = length js.
Proof. induction 1; simpl; congruence. Qed.
Lemma reps_lookup nodes vs js X i :
  reps nodes vs js X ->
  match js !! i with
  | Some j => exists v Y, vs !! i = Some v /\ rep nodes v j Y /\ Y ⊆ X
  | None => vs !! i = None
  end.
Proof.
  intros HR. revert i. induction HR as [|v vs j js X Y Hv Hr IH Hd]; intros [|i]; simpl; try done; [exists v, X; set_solver|].
  specialize (IH i). destruct (js !! i); [|done]. destruct IH as (v' & Z & ? & ? & ?). exists v', Z. set_solver.
Qed.
Lemma reps_insert nodes vs js X i vo jo Xo :
  reps nodes vs js X -> rep nodes vo jo Xo -> Xo ## X ->
  exists X', reps nodes (<[i := vo]> vs) (<[i := jo]> js) X' /\ X' ⊆ X ∪ Xo.
Proof.
  intros HR Ho. revert i. induction HR as [|v vs j js X Y Hv Hr IH Hd]; intros i HD.
  { exists ∅. split; [constructor|set_solver]. }
  destruct i as [|i]; simpl; [exists (Xo ∪ Y); split; [constructor; [done..|set_solver]|set_solver]|].
  destruct (IH i) as (Z & HZ & HZs); [set_solver|]. exists (X ∪ Z). split; [|set_solver]. constructor; [done..|set_solver].
Qed.

(** ** One edit *)

Definition heapEdit (h : Heap) (v : value) (parts : list string) (type : string) (vo : value) : result Heap :=
  parent ← pointerParent h v (List.removelast parts); editParent type (List.last parts "") vo parent h.

(** The outcome of an edit of [v] in [h] for the outcome [r] on the tree. *)
Definition edited (h : Heap) (v : value) (X Xo : gset N) (r : result json) (r' : result Heap) : Prop :=
  match r with
  | Err _ => exists e, r' = Err e
  | Ok j' => exists a n, r' = Ok (store a n h) /\ a ∈ X /\ exists X', rep (<[a := n]> (hp_nodes h)) v j' X' /\ X' ⊆ X ∪ Xo
  end.

(** Writing the node of [v] itself. *)
Lemma edited_obj h a X Xo fs' ms' X' :
  a ∉ X -> a ∉ Xo -> repm (hp_nodes h) fs' ms' X' -> ordered ms' -> X' ⊆ X ∪ Xo ->
  edited h (VRef a) ({[a]} ∪ X) Xo (Ok (JObj ms')) (Ok (store a (NObj fs') h)).
Proof.
  intros HX HXo HR Hms HS. exists a, (NObj fs'). split; [done|]. split; [set_solver|]. exists ({[a]} ∪ X').
  split; [|set_solver]. apply rep_obj with fs'; [by rewrite lookup_insert_eq| |set_solver|done].
  eapply repm_frame; [exact HR|]. apply framed_insert. set_solver.
Qed.

Lemma edited_key h a key type vo jo X Xo v j :
  v = VRef a -> rep (hp_nodes h) v j X -> rep (hp_nodes h) vo jo Xo -> Xo ## X ->
  edited h v X Xo (editAt [key] type jo j) (editParent type key vo v h).
Proof.
  intros -> HR Ho HD. inversion HR as [| | | |a' vs js Y Ha Hs Hn E1 E2|a' vs js Y Ha Hm Hn Hord E1 E2]; subst; cbn [editAt editParent]; rewrite Ha.
  - unfold editItems. destruct (_ || _); [by eexists|]. rewrite <- (reps_length _ _ _ _ Hs).
    destruct (arrayIndex key (length vs)) as [i|]; [|by eexists]. cbn [mbind result_bind].
    destruct (reps_insert _ _ _ _ i vo jo Xo Hs Ho) as (Z & HZ & HZs); [set_solver|].
    exists a, (NArr (<[i:=vo]> vs)). split; [done|]. split; [set_solver|]. exists ({[a]} ∪ Z). split; [|set_solver].
    apply rep_arr with (<[i:=vo]> vs); [by rewrite lookup_insert_eq| |set_solver].
    eapply reps_frame; [exact HZ|]. apply framed_insert. set_solver.
  - unfold editMembers. pose proof (repm_member _ _ _ _ key Hm) as HM.
    assert (HS : exists Z, repm (hp_nodes h) (setMember key vo vs) (setMember key jo js) Z /\ Z ⊆ Y ∪ Xo)
      by (apply repm_set; [done..|set_solver]).
    destruct HS as (Z & HZ & HZs).
    assert (HD' : exists W, repm (hp_nodes h) (deleteMember key vs) (deleteMember key js) W /\ W ⊆ Y) by (by apply repm_delete).
    destruct HD' as (W & HW & HWs).
    assert (HP : (match member key vs with Some _ => true | None => false end) = match member key js with Some _ => true | None => false end).
    { destruct (member key js); [destruct HM as (? & ? & -> & _); done|by rewrite HM]. }
    rewrite HP. destruct (type =s "delete").
    + destruct (match member key js with Some _ => true | None => false end); [|by eexists]. cbn [mbind result_bind].
      apply (edited_obj h a Y Xo _ _ W); [done|set_solver|done|by apply deleteMember_ordered|set_solver].
    + destruct (_ && _); [by eexists|]. destruct (_ && _); [by eexists|]. cbn [mbind result_bind].
      apply (edited_obj h a Y Xo _ _ Z); [done|set_solver|done|by apply setMember_ordered|done].
Qed.

Lemma heapEdit_step h v part p rest type vo :
  heapEdit h v (part :: p :: rest) type vo =
  match v with
  | VRef a =>
      match hp_nodes h !! a with
      | Some (NObj members) =>
          match member part members with
          | None => Err "path segment does not exist"
          | Some next => heapEdit h next (p :: rest) type vo
          end
      | Some (NArr items) =>
          match arrayIndex part (length items) with
          | Ok idx => match items !! idx with Some next => heapEdit h next (p :: rest) type vo | None => Err "array index out of range" end
          | Err e => Err e
          end
      | None => Err "path segment is not a container"
      end
  | _ => Err "path segment is not a container"
  end.
Proof.
  unfold heapEdit. change (List.removelast (part :: p :: rest)) with (part :: List.removelast (p :: rest)).
  change (List.last (part :: p :: rest) "") with (List.last (p :: rest) ""). cbn [pointerParent].
  destruct v as [| | | |a]; try done. destruct (hp_nodes h !! a) as [[items|members]|]; [|by destruct (member part members)|done].
  destruct (arrayIndex part (length items)) as [i|]; [|done]. cbn [mbind result_bind]. by destruct (items !! i).
Qed.

(** *** Below a member *)

Lemma framed_weaken nodes nodes' X Y : framed nodes nodes' X -> Y ⊆ X -> framed nodes nodes' Y.
Proof. intros H HS a Ha. apply H. set_solver. Qed.

(** A child can be changed in its own nodes and fresh ones. *)
Definition replaceable (nodes : gmap N node) (X Y : gset N) (v : value) (P : gmap N node -> json -> gset N -> Prop) : Prop :=
  Y ⊆ X /\ forall nodes' j' Y' Xo,
    framed nodes nodes' (X ∖ Y) -> rep nodes' v j' Y' -> Y' ⊆ Y ∪ Xo -> Xo ## X -> exists X', P nodes' j' X' /\ X' ⊆ X ∪ Xo.

Lemma repm_focus nodes fs ms X key j :
  repm nodes fs ms X -> ordered ms -> member key ms = Some j ->
  exists v Y, member key fs = Some v /\ rep nodes v j Y /\
    replaceable nodes X Y v (fun nodes' j' X' => repm nodes' fs (setMember key j' ms) X').
Proof.
  unfold ordered, replaceable. induction 1 as [|k v vs j0 js X Y Hv Hr IH Hd]; [done|]. cbn [map fst]. rewrite increasing_cons. intros [Ha Hi]. cbn [member].
  destruct (key =s k) eqn:E.
  - intros [= ->]. apply String.eqb_eq in E as ->. exists v, X. split_and!; [done..|set_solver|].
    intros nodes' j' Y' Xo Hf HR HS HD. cbn [setMember]. rewrite String.eqb_refl. exists (Y' ∪ Y). split; [|set_solver].
    constructor; [done| |set_solver]. eapply repm_frame; [exact Hr|]. eapply framed_weaken; [exact Hf|set_solver].
  - intros Hm. destruct (IH Hi Hm) as (v' & Z & Hv' & HR' & HZ & HF). exists v', Z. split_and!; [done..|set_solver|].
    intros nodes' j' Y' Xo Hf HR HS HD. cbn [setMember]. rewrite E.
    assert (S.ltb key k = false) as ->.
    { destruct (S.ltb key k) eqn:E'; [|done]. exfalso. by rewrite (member_below key js (above_trans _ _ _ E' Ha)) in Hm. }
    destruct (HF nodes' j' Y' Xo) as (X' & HX' & HXs); [by eapply framed_weaken; [exact Hf|set_solver]|done|done|set_solver|].
    exists (X ∪ X'). split; [|set_solver]. constructor; [|done|set_solver].
    eapply rep_frame; [exact Hv|]. eapply framed_weaken; [exact Hf|set_solver].
Qed.

Lemma reps_focus nodes vs js X i j :
  reps nodes vs js X -> js !! i = Some j ->
  exists v Y, vs !! i = Some v /\ rep nodes v j Y /\
    replaceable nodes X Y v (fun nodes' j' X' => reps nodes' vs (<[i := j']> js) X').
Proof.
  intros HR. unfold replaceable. revert i. induction HR as [|v vs j0 js X Y Hv Hr IH Hd]; intros [|i]; try done; cbn [lookup list_lookup].
  - intros [= ->]. exists v, X. split_and!; [done..|set_solver|].
    intros nodes' j' Y' Xo Hf HR HS HD. exists (Y' ∪ Y). split; [|set_solver].
    constructor; [done| |set_solver]. eapply reps_frame; [exact Hr|]. eapply framed_weaken; [exact Hf|set_solver].
  - intros Hm. destruct (IH i Hm) as (v' & Z & Hv' & HR' & HZ & HF). exists v', Z. split_and!; [done..|set_solver|].
    intros nodes' j' Y' Xo Hf HR HS HD.
    destruct (HF nodes' j' Y' Xo) as (X' & HX' & HXs); [by eapply framed_weaken; [exact Hf|set_solver]|done|done|set_solver|].
    exists (X ∪ X'). split; [|set_solver]. constructor; [|done|set_solver].
    eapply rep_frame; [exact Hv|]. eapply framed_weaken; [exact Hf|set_solver].
Qed.

(** An edit in a child is an edit of the parent. *)
Lemma edited_child h a X Y v Xo P r r' (wrap : json -> json) :
  a ∉ X -> a ∉ Xo -> Xo ## X -> replaceable (hp_nodes h) X Y v P -> edited h v Y Xo r r' ->
  (forall nodes' j' X', nodes' !! a = hp_nodes h !! a -> P nodes' j' X' -> a ∉ X' -> rep nodes' (VRef a) (wrap j') ({[a]} ∪ X')) ->
  edited h (VRef a) ({[a]} ∪ X) Xo (c ← r; Ok (wrap c)) r'.
Proof.
  intros Ha Hao HD [HY HF] HE Hwrap. destruct r as [c|e]; [|exact HE]. destruct HE as (b & n & -> & Hb & Y' & HR & HS).
  destruct (HF (<[b := n]> (hp_nodes h)) c Y' Xo) as (X' & HP & HX'); [|done..|].
  { apply framed_insert. set_solver. }
  exists b, n. split; [done|]. split; [set_solver|]. exists ({[a]} ∪ X'). split; [|set_solver].
  apply Hwrap; [|done|set_solver]. rewrite lookup_insert_ne; [done|]. intros ->. set_solver.
Qed.

Lemma heapEdit_spec h type vo jo Xo parts : forall v j X,
  parts <> [] -> rep (hp_nodes h) v j X -> rep (hp_nodes h) vo jo Xo -> Xo ## X ->
  edited h v X Xo (editAt parts type jo j) (heapEdit h v parts type vo).
Proof.
  induction parts as [|part [|p rest] IH]; intros v j X Hne HR Ho HD; [done| |].
  { change (heapEdit h v [part] type vo) with (editParent type part vo v h).
    destruct v as [| | | |a]; try (inversion HR; subst; by eexists). by eapply edited_key. }
  rewrite heapEdit_step. inversion HR as [| | | |a vs js Y Ha Hs Hn E1 E2|a vs js Y Ha Hm Hn Hord E1 E2]; subst; try (by eexists).
  - rewrite Ha. cbn [editAt]. rewrite <- (reps_length _ _ _ _ Hs).
    destruct (arrayIndex part (length vs)) as [i|e]; [|by eexists]. cbn [mbind result_bind].
    destruct (js !! i) as [c|] eqn:Ei.
    + destruct (reps_focus _ _ _ _ i c Hs Ei) as (v & Z & -> & Hv & HF).
      pose proof HF as [HZ _].
      eapply (edited_child h a Y Z v Xo _ _ _ (fun c => JArr (<[i := c]> js))); [done|set_solver|set_solver|exact HF| |].
      * apply IH; [done..|set_solver].
      * intros nodes' j' X' Hl HP Hn'. apply rep_arr with vs; [by rewrite Hl|done|done].
    + pose proof (reps_lookup _ _ _ _ i Hs) as HL. rewrite Ei in HL. rewrite HL. by eexists.
  - rewrite Ha. cbn [editAt]. destruct (member part js) as [c|] eqn:Ei.
    + destruct (repm_focus _ _ _ _ part c Hm Hord Ei) as (v & Z & -> & Hv & HF).
      pose proof HF as [HZ _].
      eapply (edited_child h a Y Z v Xo _ _ _ (fun c => JObj (setMember part c js))); [done|set_solver|set_solver|exact HF| |].
      * apply IH; [done..|set_solver].
      * intros nodes' j' X' Hl HP Hn'. apply rep_obj with vs; [by rewrite Hl|done|done|by apply setMember_ordered].
    + pose proof (repm_member _ _ _ _ part Hm) as HL. rewrite Ei in HL. rewrite HL. by eexists.
Qed.

(** ** Allocation *)

(** Members are in order at every depth: what the model of Go maps maintains. *)
Fixpoint tidy (j : json) : bool :=
  match j with
  | JArr items => forallb tidy items
  | JObj members => increasing (map fst members) && forallb (fun m => tidy m.2) members
  | _ => true
  end.

Definition within (lo hi : N) (X : gset N) : Prop := forall a, a ∈ X -> (lo <= a < hi)%N.
(** [h'] is [h] with nodes added. *)
Definition grown (h h' : Heap) : Prop :=
  (hp_next h <= hp_next h')%N /\ forall a, (a < hp_next h)%N -> hp_nodes h' !! a = hp_nodes h !! a.
Lemma grown_refl h : grown h h.
Proof. split; [lia|done]. Qed.
Lemma grown_trans h1 h2 h3 : grown h1 h2 -> grown h2 h3 -> grown h1 h3.
Proof. intros [A1 A2] [B1 B2]. split; [lia|]. intros a Ha. rewrite B2 by lia. by apply A2. Qed.
Lemma grown_push n h : grown h (push n h).2.
Proof. split; simpl; [lia|]. intros a Ha. rewrite lookup_insert_ne; [done|lia]. Qed.
Lemma grown_framed h h' lo X : grown h h' -> within lo (hp_next h) X -> framed (hp_nodes h) (hp_nodes h') X.
Proof. intros [_ G] W a Ha. apply G. by apply W. Qed.

Fixpoint allocItems (items : list json) (h : Heap) : list value * Heap :=
  match items with
  | [] => ([], h)
  | x :: items => let '(v, h) := alloc x h in let '(vs, h) := allocItems items h in (v :: vs, h)
  end.
Fixpoint allocMembers (members : list (string * json)) (h : Heap) : list (string * value) * Heap :=
  match members with
  | [] => ([], h)
  | (k, x) :: members => let '(v, h) := alloc x h in let '(vs, h) := allocMembers members h in ((k, v) :: vs, h)
  end.

(** What [alloc] establishes. *)
Definition allocated (j : json) : Prop := forall h,
  let '(v, h') := alloc j h in grown h h' /\ exists X, rep (hp_nodes h') v j X /\ within (hp_next h) (hp_next h') X.

Lemma within_union lo mid hi X Y : (lo <= mid <= hi)%N -> within lo mid X -> within mid hi Y -> within lo hi (X ∪ Y) /\ X ## Y.
Proof.
  intros H HX HY. split; [|intros a Ha Hb; specialize (HX a Ha); specialize (HY a Hb); lia].
  intros a [Ha|Ha]%elem_of_union; [specialize (HX a Ha)|specialize (HY a Ha)]; lia.
Qed.

Lemma allocItems_spec items : Forall allocated items -> forall h,
  let '(vs, h') := allocItems items h in grown h h' /\ exists X, reps (hp_nodes h') vs items X /\ within (hp_next h) (hp_next h') X.
Proof.
  induction 1 as [|x items Hx _ IH]; intros h.
  { split; [apply grown_refl|]. exists ∅. split; [constructor|]. intros a Ha. set_solver. }
  cbn [allocItems]. specialize (Hx h). destruct (alloc x h) as [v h1]. destruct Hx as (G1 & X & HX & WX).
  specialize (IH h1). destruct (allocItems items h1) as [vs h2]. destruct IH as (G2 & Y & HY & WY).
  split; [by eapply grown_trans|]. exists (X ∪ Y).
  destruct (within_union (hp_next h) (hp_next h1) (hp_next h2) X Y) as [W D]; [destruct G1, G2; lia|done..|].
  split; [|done]. constructor; [|done|done]. eapply rep_frame; [exact HX|]. by eapply grown_framed.
Qed.
Lemma allocMembers_spec members : Forall (fun m => allocated m.2) members -> forall h,
  let '(vs, h') := allocMembers members h in grown h h' /\ exists X, repm (hp_nodes h') vs members X /\ within (hp_next h) (hp_next h') X.
Proof.
  induction 1 as [|[k x] members Hx _ IH]; intros h.
  { split; [apply grown_refl|]. exists ∅. split; [constructor|]. intros a Ha. set_solver. }
  cbn [allocMembers]. specialize (Hx h). simpl in Hx. destruct (alloc x h) as [v h1]. destruct Hx as (G1 & X & HX & WX).
  specialize (IH h1). destruct (allocMembers members h1) as [vs h2]. destruct IH as (G2 & Y & HY & WY).
  split; [by eapply grown_trans|]. exists (X ∪ Y).
  destruct (within_union (hp_next h) (hp_next h1) (hp_next h2) X Y) as [W D]; [destruct G1, G2; lia|done..|].
  split; [|done]. constructor; [|done|done]. eapply rep_frame; [exact HX|]. by eapply grown_framed.
Qed.

Lemma within_push lo h n X : (lo <= hp_next h)%N -> within lo (hp_next h) X ->
  within lo (hp_next (push n h).2) ({[hp_next h]} ∪ X) /\ hp_next h ∉ X /\ framed (hp_nodes h) (hp_nodes (push n h).2) X.
Proof.
  intros H W. assert (Hn : hp_next h ∉ X) by (intros Hin; specialize (W _ Hin); lia). split_and!; [|done|by apply framed_insert].
  intros a [->%elem_of_singleton|Ha]%elem_of_union; simpl; [lia|]. specialize (W a Ha). lia.
Qed.

Lemma alloc_spec j : tidy j = true -> allocated j.
Proof.
  induction j as [| b | n | s | items IH | members IH] using json_nested_ind; intros HT h;
    try (split; [apply grown_refl|]; exists ∅; split; [constructor|]; intros a Ha; set_solver).
  - change (alloc (JArr items) h) with (let '(vs, h) := allocItems items h in push (NArr vs) h).
    assert (HA : Forall allocated items).
    { cbn [tidy] in HT. rewrite forallb_forall in HT. rewrite Forall_forall in IH |- *. intros x Hx. apply IH; [done|]. apply HT. by apply list_elem_of_In. }
    pose proof (allocItems_spec items HA h) as HS. destruct (allocItems items h) as [vs h1]. destruct HS as (G & X & HX & W).
    destruct (within_push (hp_next h) h1 (NArr vs) X) as (W' & Hn & HF); [by destruct G|done|].
    change (push (NArr vs) h1) with (VRef (hp_next h1), (push (NArr vs) h1).2). split; [eapply grown_trans; [exact G|apply grown_push]|].
    exists ({[hp_next h1]} ∪ X). split; [|exact W']. apply rep_arr with vs; [by apply lookup_insert_eq| |done]. by eapply reps_frame.
  - change (alloc (JObj members) h) with (let '(vs, h) := allocMembers members h in push (NObj vs) h).
    apply andb_true_iff in HT as [HO HT].
    assert (HA : Forall (fun m => allocated m.2) members).
    { rewrite forallb_forall in HT. rewrite Forall_forall in IH |- *. intros x Hx. apply IH; [done|]. apply HT. by apply list_elem_of_In. }
    pose proof (allocMembers_spec members HA h) as HS. destruct (allocMembers members h) as [vs h1]. destruct HS as (G & X & HX & W).
    destruct (within_push (hp_next h) h1 (NObj vs) X) as (W' & Hn & HF); [by destruct G|done|].
    change (push (NObj vs) h1) with (VRef (hp_next h1), (push (NObj vs) h1).2). split; [eapply grown_trans; [exact G|apply grown_push]|].
    exists ({[hp_next h1]} ∪ X). split; [|exact W']. apply rep_obj with vs; [by apply lookup_insert_eq| |done|done]. by eapply repm_frame.
Qed.

(** ** Reading back *)

Lemma size_part (X Y : gset N) n : X ⊆ Y -> (size Y < n)%nat -> (size X < n)%nat.
Proof. intros HS Hn. pose proof (subseteq_size X Y HS). lia. Qed.
Lemma size_rest (a : N) (X : gset N) n : a ∉ X -> (size ({[a]} ∪ X) < S n)%nat -> (size X < n)%nat.
Proof. intros Ha. rewrite size_union by set_solver. rewrite size_singleton. lia. Qed.

Lemma read_all nodes h : hp_nodes h = nodes ->
  (forall v j X, rep nodes v j X -> forall n, (size X < n)%nat -> read n h v = Some j) /\
  (forall vs js X, reps nodes vs js X -> forall n, (size X < n)%nat -> mapM (read n h) vs = Some js) /\
  (forall vs js X, repm nodes vs js X -> forall n, (size X < n)%nat ->
     mapM (fun m => (fun j => (m.1, j)) <$> read n h m.2) vs = Some js).
Proof.
  intros Hn. apply rep_all.
  - intros n _. by destruct n.
  - intros b n _. by destruct n.
  - intros m n _. by destruct n.
  - intros s n _. by destruct n.
  - intros a vs js X Ha _ IH HX n Hs. destruct n as [|n]; [lia|]. cbn [read]. rewrite Hn, Ha.
    rewrite (IH n); [done|by eapply size_rest].
  - intros a vs js X Ha _ IH HX _ n Hs. destruct n as [|n]; [lia|]. cbn [read]. rewrite Hn, Ha.
    rewrite (IH n); [done|by eapply size_rest].
  - done.
  - intros v vs j js X Y _ IH1 _ IH2 _ n Hs. cbn [mapM]. rewrite (IH1 n) by (eapply size_part; [|exact Hs]; set_solver).
    cbn. rewrite (IH2 n); [done|]. eapply size_part; [|exact Hs]; set_solver.
  - done.
  - intros k v vs j js X Y _ IH1 _ IH2 _ n Hs. cbn [mapM fst snd]. rewrite (IH1 n) by (eapply size_part; [|exact Hs]; set_solver).
    cbn. cbn in IH2. rewrite (IH2 n); [done|]. eapply size_part; [|exact Hs]; set_solver.
Qed.

Lemma within_size hi (X : gset N) : within 0 hi X -> (size X <= N.to_nat hi)%nat.
Proof.
  intros W. pose (all := list_to_set (N.of_nat <$> seq 0 (N.to_nat hi)) : gset N).
  assert (HS : X ⊆ all).
  { intros a Ha. specialize (W a Ha). apply elem_of_list_to_set, list_elem_of_fmap. exists (N.to_nat a).
    split; [by rewrite N2Nat.id|]. apply elem_of_seq. lia. }
  apply subseteq_size in HS. unfold all in HS.
  rewrite size_list_to_set, length_fmap, length_seq in HS by (apply NoDup_fmap_2; [apply _|apply NoDup_seq]). done.
Qed.

Lemma readAll_rep h v j X : rep (hp_nodes h) v j X -> within 0 (hp_next h) X -> readAll h v = Some j.
Proof.
  intros HR W. apply within_size in W. destruct (read_all (hp_nodes h) h eq_refl) as (H & _ & _).
  eapply H; [exact HR|]. lia.
Qed.

(** ** The operations *)

(** The operations still to be applied: their values, in nodes of their own. *)
Inductive pending (nodes : gmap N node) : list HeapOp -> list ChangeOp -> gset N -> Prop :=
| pending_nil : pending nodes [] [] ∅
| pending_cons hop op hops ops X Y :
    ho_Type hop = op_Type op -> ho_Path hop = op_Path op -> rep nodes (ho_Value hop) (op_Value op) X ->
    pending nodes hops ops Y -> X ## Y -> pending nodes (hop :: hops) (op :: ops) (X ∪ Y).
Lemma pending_frame nodes nodes' hops ops X : pending nodes hops ops X -> framed nodes nodes' X -> pending nodes' hops ops X.
Proof.
  induction 1 as [|hop op hops ops X Y Ht Hp HR _ IH HD]; intros HF; constructor; try done.
  - eapply rep_frame; [exact HR|]. eapply framed_weaken; [exact HF|set_solver].
  - apply IH. eapply framed_weaken; [exact HF|set_solver].
Qed.

Lemma allocOps_spec ops : Forall (fun op => tidy (op_Value op) = true) ops -> forall h,
  let '(hops, h') := allocOps ops h in
  grown h h' /\ exists X, pending (hp_nodes h') hops ops X /\ within (hp_next h) (hp_next h') X.
Proof.
  induction 1 as [|op ops Hop _ IH]; intros h.
  { split; [apply grown_refl|]. exists ∅. split; [constructor|]. intros a Ha. set_solver. }
  cbn [allocOps]. pose proof (alloc_spec _ Hop h) as HA. destruct (alloc (op_Value op) h) as [v h1]. destruct HA as (G1 & X & HX & WX).
  specialize (IH h1). destruct (allocOps ops h1) as [hops h2]. destruct IH as (G2 & Y & HY & WY).
  split; [by eapply grown_trans|]. exists (X ∪ Y).
  destruct (within_union (hp_next h) (hp_next h1) (hp_next h2) X Y) as [W D]; [destruct G1, G2; lia|done..|].
  split; [|done]. constructor; [done|done| |done|done]. eapply rep_frame; [exact HX|]. by eapply grown_framed.
Qed.

(** [applyOperations] on trees. *)
Definition refusalOf (op : ChangeOp) : option string :=
  if negb (supportedOperation (op_Type op)) then Some "operation_type_denied"
  else if negb (operationRootAllowed (op_Path op)) then Some "operation_path_denied"
  else if (op_Type op <>s "delete") && (match op_Value op with JNull => true | _ => false end)
  then Some "operation_value_required"
  else None.
Fixpoint applyTrees (ops : list ChangeOp) (candidate : json) : json * list Validation :=
  match ops with
  | [] => (candidate, [])
  | op :: ops =>
      match refusalOf op with
      | Some code => let '(c, vs) := applyTrees ops candidate in (c, error code :: vs)
      | None =>
          match applyTree op candidate with
          | Err _ => let '(c, vs) := applyTrees ops candidate in (c, error "operation_not_applied" :: vs)
          | Ok c => applyTrees ops c
          end
      end
  end.

Lemma refusal_same nodes hop op X :
  ho_Type hop = op_Type op -> ho_Path hop = op_Path op -> rep nodes (ho_Value hop) (op_Value op) X -> refusal hop = refusalOf op.
Proof. unfold refusal, refusalOf. intros -> -> HR. by inversion HR. Qed.

Lemma apply_same h candidate c X hop op Xo :
  rep (hp_nodes h) candidate c X -> ho_Type hop = op_Type op -> ho_Path hop = op_Path op ->
  rep (hp_nodes h) (ho_Value hop) (op_Value op) Xo -> Xo ## X ->
  edited h candidate X Xo (applyTree op c) (applyConfigOperation candidate hop h).
Proof.
  intros HR Ht Hp Ho HD. unfold applyTree, applyConfigOperation. rewrite Ht, Hp. destruct (splitJSONPointer (op_Path op)) as [parts|e]; [|by eexists].
  cbn [mbind result_bind]. destruct parts as [|root rest]; [by eexists|].
  inversion HR as [| | | |a vs js Y Ha Hs Hn E1 E2|a vs js Y Ha Hm Hn Hord E1 E2]; subst; try (by eexists); rewrite Ha; [by eexists|].
  pose proof (repm_member _ _ _ _ root Hm) as HL. destruct (member root js) as [c|]; [|rewrite HL; by eexists].
  destruct HL as (v & Z & -> & _). eapply heapEdit_spec; [done|exact HR|exact Ho|exact HD].
Qed.

Lemma applyOperations_same candidate hops ops : forall h c X Z,
  pending (hp_nodes h) hops ops Z -> rep (hp_nodes h) candidate c X -> Z ## X ->
  let '(h', vs) := applyOperations candidate hops h in
  let '(c', vs') := applyTrees ops c in
  vs = vs' /\ hp_next h' = hp_next h /\ exists X', rep (hp_nodes h') candidate c' X' /\ X' ⊆ X ∪ Z.
Proof.
  revert ops. induction hops as [|hop hops IH]; intros ops h c X Z HP HR HD; inversion HP as [|? op ? ops' Xo Y Ht Hpath Ho HP' HD']; subst.
  { split_and!; [done..|]. exists X. set_solver. }
  cbn [applyOperations applyTrees]. rewrite (refusal_same _ _ _ _ Ht Hpath Ho).
  assert (HI : forall code, let '(h', vs) := (let '(h, vs) := applyOperations candidate hops h in (h, error code :: vs)) in
      let '(c', vs') := (let '(c, vs) := applyTrees ops' c in (c, error code :: vs)) in
      vs = vs' /\ hp_next h' = hp_next h /\ exists X', rep (hp_nodes h') candidate c' X' /\ X' ⊆ X ∪ (Xo ∪ Y)).
  { intros code. specialize (IH ops' h c X Y HP' HR). destruct (applyOperations candidate hops h) as [h' vs], (applyTrees ops' c) as [c' vs'].
    destruct IH as (-> & Hn & X' & HX & HS); [set_solver|]. split_and!; [done..|]. exists X'. set_solver. }
  destruct (refusalOf op); [apply HI|].
  pose proof (apply_same h candidate c X hop op Xo HR Ht Hpath Ho) as HA.
  destruct (applyTree op c) as [c1|e]; [|destruct HA as [e' ->]; [set_solver|apply HI]].
  destruct HA as (a & n & -> & Ha & X1 & HR1 & HS1); [set_solver|].
  specialize (IH ops' (store a n h) c1 X1 Y). destruct (applyOperations candidate hops (store a n h)) as [h' vs], (applyTrees ops' c1) as [c' vs'].
  destruct IH as (-> & Hn & X' & HX & HS); [|done|set_solver|].
  - eapply pending_frame; [exact HP'|]. apply framed_insert. set_solver.
  - split_and!; [done|exact Hn|]. exists X'. set_solver.
Qed.

(** ** The candidate *)

Section BuildProofs.
Context {Cfg : Type} (marshal : Cfg -> result json) (unmarshal : json -> result Cfg) (validate : Cfg -> result Cfg).
(** Maps have their members in order, a convention of the model. *)
Hypothesis marshal_tidy : forall c j, marshal c = Ok j -> tidy j = true.

(** [buildCandidate] on trees. *)
Definition buildTree (active : Cfg) (operations : list ChangeOp) : Built Cfg :=
  match operations with
  | [] => mkBuilt None [] [error "empty_operations"] operations
  | _ =>
      match marshal active with
      | Err _ => mkBuilt None [] [error "candidate_clone_failed"] operations
      | Ok before =>
          let '(document, vs) := applyTrees operations before in
          if hasValidationError vs then mkBuilt None [] vs operations
          else typedCandidate marshal unmarshal validate before document vs operations
      end
  end.

(** All but the operations. *)
Definition outcomeOf (b : Built Cfg) : option (Cfg * json) * list ChangeOp * list Validation :=
  (bt_Candidate b, bt_Diff b, bt_Validation b).
Lemma typedCandidate_outcome before document vs ops ops' :
  outcomeOf (typedCandidate marshal unmarshal validate before document vs ops) =
  outcomeOf (typedCandidate marshal unmarshal validate before document vs ops').
Proof.
  unfold typedCandidate. destruct (unmarshal document) as [decoded|]; [|done]. destruct (validate decoded) as [typed|]; [|done].
  destruct (marshal typed); [|done]. by destruct (diff before a).
Qed.

Lemma build_outcome active operations :
  Forall (fun op => tidy (op_Value op) = true) operations ->
  outcomeOf (buildCandidate marshal unmarshal validate active operations) = outcomeOf (buildTree active operations).
Proof.
  intros HO. unfold buildCandidate, buildTree. destruct operations as [|op0 ops0] eqn:Eops; [done|]. rewrite <- Eops in *. clear Eops op0 ops0.
  destruct (marshal active) as [before|] eqn:EM; [|done].
  pose proof (allocOps_spec operations HO (mkHeap 0 ∅)) as HA. destruct (allocOps operations (mkHeap 0 ∅)) as [hops h1].
  destruct HA as (G1 & Z & HP & WZ). simpl in WZ.
  pose proof (alloc_spec before (marshal_tidy _ _ EM) h1) as HC. destruct (alloc before h1) as [candidate h2].
  destruct HC as (G2 & X & HR & WX).
  destruct (within_union 0 (hp_next h1) (hp_next h2) Z X) as [W D]; [destruct G2; lia|done..|].
  assert (HP2 : pending (hp_nodes h2) hops operations Z) by (eapply pending_frame; [exact HP|]; by eapply grown_framed).
  pose proof (applyOperations_same candidate hops operations h2 before X Z HP2 HR D) as HS.
  destruct (applyOperations candidate hops h2) as [h3 vs], (applyTrees operations before) as [document vs'].
  destruct HS as (-> & Hn & X' & HR' & HX'). destruct (hasValidationError vs'); [done|].
  rewrite (readAll_rep h3 candidate document X'); [apply typedCandidate_outcome|done|].
  intros a Ha. rewrite Hn. apply W. set_solver.
Qed.

(** C28: sharing does not change the candidate.  Whatever the operations, editing
    the shared maps and slices in place yields the candidate, the difference and
    the complaints that editing trees yields. *)
Theorem build_refines active operations :
  Forall (fun op => tidy (op_Value op) = true) operations ->
  outcomeOf (buildCandidate marshal unmarshal validate active operations) = outcomeOf (buildTree active operations).
Proof. apply build_outcome. Qed.

(** *** What operations cannot reach *)

Fixpoint lookupAt (parts : list string) (j : json) : option json :=
  match parts with
  | [] => Some j
  | part :: rest => match j with JObj members => c ← member part members; lookupAt rest c | _ => None end
  end.

Definition openRoots : list string := ["policy"; "routes"; "services"; "overrides"].
Definition guardedRoots : list string := ["storage"; "xray"; "zapret"; "openwrt"; "geoip"].
(** The fields of a guarded root an operation may name. *)
Definition openFields (root : string) : list string :=
  if root =s "storage" then ["state_dir"; "database"]
  else if root =s "xray" then ["outbound_bundle_sha256"; "activation_mode"; "subscription_secret_file"; "last_good_config"]
  else if root =s "zapret" then ["activation_mode"; "provider_source"; "provider_version"; "binary_sha256"; "adaptive_enabled";
                                 "adaptive_catalog_file"; "adaptive_assignments"]
  else if root =s "openwrt" then ["flow_offloading_policy"]
  else ["database"].
(** A member of the configuration no operation may name: a root that is not
    editable, or a field of a guarded root that is not on its list. *)
Definition protected (parts : list string) : bool :=
  match parts with
  | [root] => negb (containsString (openRoots ++ guardedRoots) root)
  | [root; field] => containsString guardedRoots root && negb (containsString (openFields root) field)
  | _ => false
  end.

Lemma editMembers_other {A} type key (v : A) ms ms' k :
  editMembers type key v ms = Ok ms' -> k <> key -> member k ms' = member k ms.
Proof.
  unfold editMembers. intros HE Hne. assert (Hk : k =s key = false) by (by apply String.eqb_neq).
  destruct (type =s "delete").
  { destruct (match member key ms with Some _ => true | None => false end); [|done]. injection HE as <-. by rewrite member_deleteMember, Hk. }
  destruct (_ && _); [done|]. destruct (_ && _); [done|]. injection HE as <-. by rewrite member_setMember, Hk.
Qed.

(** An edit changes the members it names first, and in the one it enters. *)
Lemma editAt_other root rest type v ms j' k :
  editAt (root :: rest) type v (JObj ms) = Ok j' -> k <> root ->
  exists ms', j' = JObj ms' /\ member k ms' = member k ms.
Proof.
  intros HE Hne. destruct rest as [|p rest]; cbn [editAt] in HE.
  - destruct (editMembers type root v ms) as [ms'|] eqn:E; [|done]. injection HE as <-. exists ms'. split; [done|].
    by eapply editMembers_other.
  - destruct (member root ms) as [c|]; [|done]. unfold mbind, result_bind in HE.
    destruct (match rest with [] => _ | _ => _ end) as [c'|]; [|done]. injection HE as <-. eexists. split; [done|].
    rewrite member_setMember. by destruct (String.eqb_spec k root).
Qed.
Lemma editAt_into root p rest type v ms j' :
  editAt (root :: p :: rest) type v (JObj ms) = Ok j' ->
  exists c c' ms', j' = JObj ms' /\ member root ms = Some c /\ member root ms' = Some c' /\ editAt (p :: rest) type v c = Ok c'.
Proof.
  intros HE. change (editAt (root :: p :: rest) type v (JObj ms)) with
    (match member root ms with
     | None => Err "path segment does not exist"
     | Some c => c ← editAt (p :: rest) type v c; Ok (JObj (setMember root c ms))
     end) in HE.
  destruct (member root ms) as [c|]; [|done]. destruct (editAt (p :: rest) type v c) as [c'|] eqn:E; [|done].
  cbn in HE. injection HE as <-. exists c, c', (setMember root c' ms). split_and!; [done..| |done].
  by rewrite member_setMember, String.eqb_refl.
Qed.

Lemma guarded_not_open root : containsString guardedRoots root = true -> containsString openRoots root = false.
Proof.
  intros H. destruct (containsString openRoots root) eqn:E; [|done]. apply containsString_true in H, E.
  unfold guardedRoots, openRoots in *. set_solver.
Qed.
Lemma rootAllowed_inv root rest :
  rootAllowed (root :: rest) = true ->
  containsString openRoots root = true \/ containsString guardedRoots root = true /\ exists field, rest = [field].
Proof.
  unfold rootAllowed. fold openRoots. destruct (containsString openRoots root); [by left|]. right.
  destruct rest as [|field [|]]; try done. split; [|by eexists]. apply containsString_true. unfold guardedRoots.
  destruct (String.eqb_spec root "storage") as [->|]; [set_solver|]. destruct (String.eqb_spec root "xray") as [->|]; [set_solver|].
  destruct (String.eqb_spec root "zapret") as [->|]; [set_solver|]. destruct (String.eqb_spec root "openwrt") as [->|]; [set_solver|].
  destruct (String.eqb_spec root "geoip") as [->|]; [set_solver|done].
Qed.
Lemma rootAllowed_field root field :
  containsString guardedRoots root = true -> rootAllowed [root; field] = true -> containsString (openFields root) field = true.
Proof.
  intros Hg. unfold rootAllowed, openFields. fold openRoots. rewrite (guarded_not_open _ Hg).
  destruct (root =s "storage"), (root =s "xray"), (root =s "zapret"), (root =s "openwrt"), (root =s "geoip");
    unfold containsString, any; cbn [existsb]; rewrite ?orb_false_r, ?(String.eqb_sym _ field); done.
Qed.
Lemma containsString_app l l' s : containsString (l ++ l') s = containsString l s || containsString l' s.
Proof. apply existsb_app. Qed.

Lemma applyTree_protected op c c' parts :
  operationRootAllowed (op_Path op) = true -> applyTree op c = Ok c' -> protected parts = true -> lookupAt parts c' = lookupAt parts c.
Proof.
  unfold operationRootAllowed, applyTree. destruct (splitJSONPointer (op_Path op)) as [named|]; [|done]. cbn [mbind result_bind].
  destruct named as [|root rest]; [done|]. intros Hallow HE Hp. destruct c as [| | | | |ms]; try done.
  destruct (member root ms); [|done].
  destruct parts as [|r [|f [|]]]; try done.
  - (* a root of its own *)
    assert (Hr : r <> root).
    { intros ->. apply rootAllowed_inv in Hallow. cbn [protected] in Hp. rewrite containsString_app in Hp.
      destruct Hallow as [H|[H _]]; rewrite H in Hp; [done|]. by rewrite orb_true_r in Hp. }
    destruct (editAt_other _ _ _ _ _ _ r HE Hr) as (ms' & -> & HM). cbn [lookupAt]. by rewrite HM.
  - cbn [protected] in Hp. apply andb_true_iff in Hp as [Hg Hf]. destruct (decide (r = root)) as [->|Hr].
    + apply rootAllowed_inv in Hallow as Hinv. rewrite (guarded_not_open _ Hg) in Hinv. destruct Hinv as [?|[_ [field ->]]]; [done|].
      assert (Hne : f <> field) by (intros ->; by rewrite (rootAllowed_field _ _ Hg Hallow) in Hf).
      destruct (editAt_into _ _ _ _ _ _ _ HE) as (child & child' & ms' & -> & E1 & E2 & E3). cbn [lookupAt]. rewrite E1, E2. cbn.
      destruct child as [| | | |items|cs]; try done.
      * cbn [editAt] in E3. destruct (editItems _ _ _ _); [|done]. by injection E3 as <-.
      * destruct (editAt_other _ _ _ _ _ _ f E3 Hne) as (cs' & -> & HM). by rewrite HM.
    + destruct (editAt_other _ _ _ _ _ _ r HE Hr) as (ms' & -> & HM). cbn [lookupAt]. by rewrite HM.
Qed.

Lemma applyTrees_accepted ops : forall before document,
  applyTrees ops before = (document, []) ->
  replay ops before = Ok document /\
  (forall parts, protected parts = true -> lookupAt parts document = lookupAt parts before).
Proof.
  induction ops as [|op ops IH]; intros before document HE; [by injection HE as ->|]. cbn [applyTrees replay] in *.
  destruct (refusalOf op) as [code|] eqn:Er; [by destruct (applyTrees ops before)|].
  destruct (applyTree op before) as [c|e] eqn:Ea; [|by destruct (applyTrees ops before)].
  destruct (IH c document HE) as [HR HP]. split; [exact HR|]. intros parts Hp. rewrite (HP parts Hp).
  eapply applyTree_protected; [|exact Ea|exact Hp]. unfold refusalOf in Er.
  destruct (negb (supportedOperation _)); [done|]. by destruct (operationRootAllowed (op_Path op)).
Qed.

Lemma applyTrees_errors ops : forall before, Forall (fun v => va_Level v = "error") (applyTrees ops before).2.
Proof.
  induction ops as [|op ops IH]; intros before; [constructor|]. cbn [applyTrees]. pose proof (IH before) as HI.
  destruct (refusalOf op); [destruct (applyTrees ops before); by constructor|].
  destruct (applyTree op before); [apply IH|]. destruct (applyTrees ops before); by constructor.
Qed.

(** What the code relies on of [encoding/json] and of [Config.Validate], for the
    members of the configuration no operation may name: [field] reads such a
    member of a typed value. [json.Marshal] writes the fields of the value it is
    given; [json.Unmarshal] fills these fields from the members that are not open
    (the names it matches without regard to case are protected like the field);
    [Config.Validate] writes the domains of services and the overrides
    (it assigns to [c.Services] and [c.Overrides]), both open
    roots, and no other field. *)
Variable field : list string -> Cfg -> option json.
Hypothesis marshal_field : forall c j parts,
  protected parts = true -> marshal c = Ok j -> lookupAt parts j = field parts c.
Hypothesis unmarshal_field : forall d d' c c',
  (forall parts, protected parts = true -> lookupAt parts d = lookupAt parts d') -> unmarshal d = Ok c -> unmarshal d' = Ok c' ->
  forall parts, protected parts = true -> field parts c = field parts c'.
Hypothesis validate_field : forall c c' parts,
  protected parts = true -> validate c = Ok c' -> field parts c' = field parts c.

(** C29: an accepted candidate is valid, and made of the operations alone.  When
    [buildCandidate] reports no error, every operation was applied in turn to the
    document of the active configuration, and the candidate is what
    [Config.Validate] accepted and made of the typed value of that document: no
    member an operation may not name was changed by the operations, and, when the
    active configuration reads back what it wrote of those members, none differs
    in the canonical document of the candidate, after decoding, validation and
    encoding.  The difference reported is the one between the two canonical
    documents, and not empty. *)
Theorem candidate_sound active operations :
  Forall (fun op => tidy (op_Value op) = true) operations ->
  let b := buildCandidate marshal unmarshal validate active operations in
  hasValidationError (bt_Validation b) = false ->
  exists before document decoded typed canonical,
    marshal active = Ok before /\ replay operations before = Ok document /\
    (forall parts, protected parts = true -> lookupAt parts document = lookupAt parts before) /\
    unmarshal document = Ok decoded /\ validate decoded = Ok typed /\ marshal typed = Ok canonical /\
    (forall again parts, unmarshal before = Ok again -> protected parts = true -> field parts again = field parts active ->
       lookupAt parts canonical = lookupAt parts before) /\
    bt_Candidate b = Some (typed, canonical) /\ bt_Diff b = diff before canonical /\ bt_Diff b <> [].
Proof.
  intros HO b. pose proof (build_outcome active operations HO) as HB. fold b in HB. clearbody b. clear HO.
  injection HB as -> -> ->. unfold buildTree. destruct operations as [|op0 ops0] eqn:Eops; [done|]. rewrite <- Eops. clear Eops op0 ops0.
  destruct (marshal active) as [before|] eqn:EM; [|done].
  pose proof (applyTrees_errors operations before) as HErr. destruct (applyTrees operations before) as [document vs] eqn:ET. simpl in HErr.
  destruct vs as [|v vs].
  2: { inversion HErr as [|? ? Hv]; subst. unfold hasValidationError. cbn [any existsb]. rewrite Hv. cbn. unfold hasValidationError. cbn. by rewrite Hv. }
  destruct (applyTrees_accepted _ _ _ ET) as [HR HP]. cbn [hasValidationError any existsb]. unfold typedCandidate. cbn [app].
  destruct (unmarshal document) as [decoded|] eqn:EU; [|done]. destruct (validate decoded) as [typed|] eqn:EV; [|done].
  destruct (marshal typed) as [canonical|] eqn:EM2; [|done].
  destruct (diff before canonical) as [|c cs] eqn:ED; [done|]. intros _. exists before, document, decoded, typed, canonical.
  split_and!; try done. intros again parts HA Hp Hf.
  rewrite (marshal_field _ _ _ Hp EM2), (validate_field _ _ _ Hp EV), (marshal_field _ _ _ Hp EM), <- Hf.
  exact (unmarshal_field _ _ _ _ HP EU HA parts Hp).
Qed.
End BuildProofs.

(** ** Concrete candidates

    A configuration that is its own document. *)
Definition ex_active : json :=
  JObj [("listen", JStr ":8080"); ("policy", JObj [("mode", JStr "x")]); ("services", JObj []);
        ("storage", JObj [("database", JStr "a"); ("max", JNum F.one)])].
Definition ex_service : json := JObj [("enabled", JBool true); ("name", JStr "s")].
Definition ex_operations : list ChangeOp :=
  [mkOp "add" "/services/s" ex_service JNull; mkOp "set" "/services/s/enabled" (JBool false) JNull].
(** A validation that marks the services it has seen. *)
Definition ex_validate (j : json) : result json :=
  if negb (tidy j) then Err "unordered"
  else match j with
       | JObj ms => match member "services" ms with
                    | Some (JObj services) => Ok (JObj (setMember "services" (JObj (setMember "seen" (JBool true) services)) ms))
                    | _ => Err "no services"
                    end
       | _ => Err "no object"
       end.
Lemma ex_validate_field c c' parts : protected parts = true -> ex_validate c = Ok c' -> lookupAt parts c' = lookupAt parts c.
Proof.
  unfold ex_validate. destruct (negb (tidy c)); [done|]. destruct c as [| | | | |ms]; try done.
  destruct (member "services" ms) as [[| | | | |services]|] eqn:E; try done. intros Hp [= <-].
  destruct parts as [|root rest]; [done|]. assert (root <> "services") as Hr.
  { intros ->. destruct rest as [|? [|]]; done. }
  cbn [lookupAt]. rewrite member_setMember. by apply String.eqb_neq in Hr as ->.
Qed.
Definition ex_build (ops : list ChangeOp) : Built json := buildCandidate Ok Ok ex_validate ex_active ops.

Definition ex_marshal (j : json) : result json := if tidy j then Ok j else Err "unordered".
Lemma ex_marshal_tidy c j : ex_marshal c = Ok j -> tidy j = true.
Proof. unfold ex_marshal. destruct (tidy c) eqn:E; [|done]. by intros [= <-]. Qed.
Lemma ex_operations_tidy : Forall (fun op => tidy (op_Value op) = true) ex_operations.
Proof. by repeat constructor. Qed.

Lemma build_refines_witness :
  outcomeOf (buildCandidate ex_marshal Ok ex_validate ex_active ex_operations) = outcomeOf (buildTree ex_marshal Ok ex_validate ex_active ex_operations).
Proof. exact (build_refines ex_marshal Ok ex_validate ex_marshal_tidy ex_active ex_operations ex_operations_tidy). Defined.

Lemma candidate_sound_witness :
  hasValidationError (bt_Validation (buildCandidate ex_marshal Ok ex_validate ex_active ex_operations)) = false /\
  exists canonical, option_map snd (bt_Candidate (buildCandidate ex_marshal Ok ex_validate ex_active ex_operations)) = Some canonical /\
    forall parts, protected parts = true -> lookupAt parts canonical = lookupAt parts ex_active.
Proof.
  split; [vm_compute; reflexivity|].
  destruct (candidate_sound ex_marshal Ok ex_validate ex_marshal_tidy lookupAt) with (active := ex_active) (operations := ex_operations)
    as (before & document & decoded & typed & canonical & H1 & _ & _ & _ & _ & _ & H3 & H4 & _).
  - intros c j parts _ H. unfold ex_marshal in H. destruct (tidy c); [by injection H as ->|done].
  - intros d d' c c' H [= <-] [= <-]. exact H.
  - exact ex_validate_field.
  - exact ex_operations_tidy.
  - vm_compute; reflexivity.
  - exists canonical. split; [by rewrite H4|]. intros parts Hp. injection H1 as <-. by apply (H3 ex_active).
Defined.

(** The first operation of the change set comes back with the edit of the second:
    validated again, it adds a service that is already disabled. *)
Example operations_are_rewritten :
  map op_Value (bt_Operations (ex_build ex_operations)) =
    [JObj [("enabled", JBool false); ("name", JStr "s")]; JBool false].
Proof. vm_compute. reflexivity. Qed.
(** A change set that deletes a field of a value it adds is accepted once: its
    rewritten operations are refused when they are validated again. *)
Definition ex_deleting : list ChangeOp :=
  [mkOp "add" "/services/s" ex_service JNull; mkOp "delete" "/services/s/name" JNull JNull].
Example rewritten_operations_are_refused :
  hasValidationError (bt_Validation (ex_build ex_deleting)) = false /\
  map va_Code (bt_Validation (ex_build (bt_Operations (ex_build ex_deleting)))) = ["operation_not_applied"].
Proof. vm_compute. split; reflexivity. Qed.
