(* ===== verification/Adapter.v ===== *)
(** * The adapter contract

    [internal/adapter/adapter.go]: the transaction an adapter works on, the
    result of a step, and the checks of the identity a result carries; with the
    predicates on results of [internal/api/transaction.go].  What an adapter does
    to the router is not modelled: its answers are parameters of the engine. *)
From Stdlib Require Import ZArith Lia.
From stdpp Require Import base list strings gmap.
From S2P Require Import Prelude.

Open Scope Z_scope.

Record RecoveryTarget := mkTarget {
  rt_TransactionID : string;
  rt_RevisionID : string;
  rt_CandidateHash : string;
  rt_ArtifactManifestHash : string
}.
#[export] Instance RecoveryTarget_eq : EqDecision RecoveryTarget.
Proof. solve_decision. Defined.

Record Transaction := mkTransaction {
  tx_ID : string;
  tx_RevisionID : string;
  tx_ChangeID : string;
  tx_BaseVersion : Z;
  tx_CandidateVersion : Z;
  tx_CandidateHash : string;
  tx_CandidatePath : string;
  tx_ArtifactManifestHash : string;
  tx_ArtifactsReady : bool;
  tx_ArtifactBlockReason : string;
  tx_ArtifactsSimulation : bool;
  tx_CreatedAt : time;
  tx_ExpiresAt : time
}.
#[export] Instance Transaction_eq : EqDecision Transaction.
Proof. solve_decision. Defined.

(** The transaction bound to its artifacts: to the hash and the readiness their
    manifest tells. *)
Definition bindReadiness (hash : string) (ready : bool) (reason : string) (simulation : bool) (tx : Transaction) : Transaction :=
  mkTransaction (tx_ID tx) (tx_RevisionID tx) (tx_ChangeID tx) (tx_BaseVersion tx) (tx_CandidateVersion tx) (tx_CandidateHash tx)
    (tx_CandidatePath tx) hash ready reason simulation (tx_CreatedAt tx) (tx_ExpiresAt tx).

(** A value of [map[string]any]: only strings and booleans are looked at. *)
Inductive evidence : Type :=
| EvString (s : string)
| EvBool (b : bool)
| EvOther.
#[export] Instance evidence_eq : EqDecision evidence.
Proof. solve_decision. Defined.

Record StepResult := mkStep {
  sr_ProtocolVersion : Z;
  sr_Operation : string;
  sr_Step : string;
  sr_Status : string;
  sr_OK : bool;
  sr_ManagementVerified : bool;
  sr_DataPlaneVerified : bool;
  sr_Reason : string;
  sr_Evidence : gmap string evidence;
  sr_SemanticState : string;
  sr_Committed : bool;
  sr_RollbackCapable : bool
}.
#[export] Instance StepResult_eq : EqDecision StepResult.
Proof. solve_decision. Defined.

Definition AdapterProtocolVersion : Z := 1.

(** ** A new transaction

    [id] and [token] are [secureRandomHex]'s answers, [join] is [filepath.Join]
    and [hash] the digest of the canonical candidate; of the token only whether
    it could be drawn matters here. *)
Definition NewTransaction (join : list string -> string) (hash : string -> string) (stateDir : string) (timeoutSeconds : Z)
    (id token : result string) (now : time) (changeID revisionID : string) (baseVersion candidateVersion : Z)
    (canonical : string) : result Transaction :=
  if S.is_empty canonical then Err "canonical candidate is required"
  else
    randomID ← id;
    let id := ("tx_" +:+ randomID) in
    _ ← token;
    let ttl := wrap64 (timeoutSeconds * second) in
    let ttl := if ttl <=? 0 then 120 * second else ttl in
    Ok (mkTransaction id revisionID changeID baseVersion candidateVersion (hash canonical)
          (join [stateDir; "transactions"; revisionID; id; "candidate.json"]) "" false "" false now (T.Add now ttl)).

(** ** Identity of a result *)

(** The binding a transaction must be answered with, field by field. *)
Definition bindingFields (tx : Transaction) : list (string * string) :=
  [("transaction_id", tx_ID tx); ("revision_id", tx_RevisionID tx); ("candidate_hash", tx_CandidateHash tx);
   ("artifact_manifest_hash", tx_ArtifactManifestHash tx)].

(** One field of [ValidateBinding]'s loop. *)
Definition bindingField (strict : bool) (r : StepResult) (field : string * string) : bool :=
  match sr_Evidence r !! field.1 with
  | Some (EvString actual) => actual =s field.2
  | Some _ => false
  | None => negb strict
  end.

(** [true] for a nil error. *)
Definition ValidateBinding (r : StepResult) (operation : string) (tx : Transaction) : bool :=
  if negb (sr_OK r) || (sr_Status r <>s "OK") then false
  else if (sr_Operation r <>s "") && (sr_Operation r <>s operation) then false
  else if negb (sr_ProtocolVersion r =? 0) && negb (sr_ProtocolVersion r =? AdapterProtocolVersion) then false
  else
    let strict := negb (sr_ProtocolVersion r =? 0) || (sr_Operation r <>s "") in
    forallb (bindingField strict r) (bindingFields tx).

Definition ValidatePreparedCommit (r : StepResult) (tx : Transaction) : bool :=
  if negb (ValidateBinding r "commit-prepared" tx) then false
  else if sr_Committed r || (sr_SemanticState r =s "committed") || (sr_SemanticState r <>s "adapter_activated") then false
  else match sr_Evidence r !! "rollback_capable" with
       | Some value => match value with EvBool capable => capable | _ => false end
       | None => sr_RollbackCapable r
       end.

Definition ValidateFinalizedCommit (r : StepResult) (tx : Transaction) : bool :=
  if negb (ValidateBinding r "finalize-commit" tx) then false
  else sr_Committed r && (sr_SemanticState r =s "committed").

Definition ValidateRollback (r : StepResult) (tx : Transaction) : bool :=
  if negb (ValidateBinding r "rollback" tx) then false
  else if (match sr_Evidence r !! "rollback" with
           | Some (EvBool rolled) => negb rolled
           | Some _ => true
           | None => false
           end) then false
  else if (sr_SemanticState r =s "committed") || sr_Committed r then false
  else negb (negb (sr_ProtocolVersion r =? 0) && (sr_SemanticState r <>s "rolled_back")).

(** ** Reading a result *)

Definition stepOK (r : StepResult) : bool := sr_OK r && (sr_Status r =s "OK").

Definition evidenceString (r : StepResult) (key : string) : string :=
  match sr_Evidence r !! key with Some (EvString s) => s | _ => "" end.

Definition artifactEvidenceMatches (r : StepResult) (tx : Transaction) : bool :=
  (evidenceString r "transaction_id" =s tx_ID tx) && (evidenceString r "revision_id" =s tx_RevisionID tx)
  && (evidenceString r "candidate_hash" =s tx_CandidateHash tx)
  && (evidenceString r "artifact_manifest_hash" =s tx_ArtifactManifestHash tx).

(** The active deployment a status reports, against a binding. *)
Definition activeMatches (r : StepResult) (transaction revision hash manifest : string) : bool :=
  stepOK r && (evidenceString r "active_revision" =s revision) && (evidenceString r "active_transaction" =s transaction)
  && (evidenceString r "active_candidate_hash" =s hash) && (evidenceString r "active_artifact_manifest_hash" =s manifest).

Definition targetOf (tx : Transaction) : RecoveryTarget :=
  mkTarget (tx_ID tx) (tx_RevisionID tx) (tx_CandidateHash tx) (tx_ArtifactManifestHash tx).

(** ** What the checks establish *)

Lemma stepOK_true r : stepOK r = true <-> sr_OK r = true /\ sr_Status r = "OK".
Proof. unfold stepOK. by rewrite andb_true_iff, String.eqb_eq. Qed.

Lemma ValidateBinding_stepOK r operation tx : ValidateBinding r operation tx = true -> stepOK r = true.
Proof.
  unfold ValidateBinding, stepOK. by destruct (sr_OK r), (sr_Status r =s "OK").
Qed.

(** An answer of the versioned protocol that passes the check is about this very
    transaction: all four fields of its binding are present and equal. *)
Lemma ValidateBinding_strict r operation tx :
  ValidateBinding r operation tx = true -> sr_Operation r <> "" \/ sr_ProtocolVersion r <> 0 ->
  artifactEvidenceMatches r tx = true.
Proof.
  unfold ValidateBinding. intros HV Hs. destruct (_ || _); [done|]. destruct (_ && _); [done|]. destruct (_ && _); [done|].
  assert (negb (sr_ProtocolVersion r =? 0) || (sr_Operation r <>s "") = true) as E.
  { destruct Hs as [Hs|Hs]; apply orb_true_iff; [right|left].
    - by apply negb_true_iff, String.eqb_neq.
    - by apply negb_true_iff, Z.eqb_neq. }
  rewrite E in HV. simpl in HV. unfold bindingField in HV. simpl in HV.
  unfold artifactEvidenceMatches, evidenceString.
  destruct (sr_Evidence r !! "transaction_id") as [[]|]; try done.
  destruct (sr_Evidence r !! "revision_id") as [[]|]; try (by destruct (s =s _)).
  destruct (sr_Evidence r !! "candidate_hash") as [[]|]; try (by destruct (s =s _), (s0 =s _)).
  destruct (sr_Evidence r !! "artifact_manifest_hash") as [[]|]; try (by destruct (s =s _), (s0 =s _), (s1 =s _)).
  by destruct (s =s _), (s0 =s _), (s1 =s _), (s2 =s _).
Qed.
