(* ===== verification/OpenWrt.v ===== *)
(** * The OpenWrt adapter

    [internal/adapter/openwrt.go] and [route_assignment.go], with [ReadCapability] of
    [adapter.go]: the adapter of the transaction engine on a router.  It checks the
    transaction it is given, asks the privileged helper for one operation and turns
    the helper's answer into the [StepResult] the engine judges.

    A process run without the helper ([execute]) is kept for controllers that have no
    socket, which [NewOpenWrt] does not build. *)
From Stdlib Require Import ZArith Lia.
From stdpp Require Import base list strings gmap.
From S2P Require Import Prelude Effects Net Adapter Helper.

Open Scope Z_scope.

(** ** Patterns *)

Definition hexTail (first : string) (n : Z) (s : string) : bool :=
  S.HasPrefix s first && (S.len (TrimPrefix s first) =? n) && S.all_bytes lowerHexByte (TrimPrefix s first).
Definition underscore : Ascii.ascii := Ascii.ascii_of_N 95.
Definition transactionIDPattern : string -> bool := hexTail "tx_" 16.
Definition changeIDPattern : string -> bool := hexTail "chg_" 16.
Definition sha256Pattern : string -> bool := hexTail "sha256:" 64.
Definition revisionIDPattern (s : string) : bool :=
  S.HasPrefix s "rev_"
  && match Net.cutFirst underscore (TrimPrefix s "rev_") with
     | Some (number, rest) => (number <>s "") && S.all_bytes S.digit number && (S.len rest =? 12) && S.all_bytes lowerHexByte rest
     | None => false
     end.
Definition evidenceKeyPattern (s : string) : bool :=
  match s with
  | String c rest => (S.lower_letter c || S.is_byte 95 c) && S.all_bytes (fun c => S.lower_letter c || S.digit c || S.is_byte 95 c) rest
  | EmptyString => false
  end.

(** ** Transactions, as far as the adapter reads them *)

(** A transaction with the fields [Adapter.Transaction] leaves out. *)
Record Sealed := mkSealed {
  se_Tx : Transaction;
  se_RollbackTokenHash : string;
  se_ArtifactRoot : string;
  se_CapabilityPath : string;
  se_BindingPath : string
}.
Record OpenWrt := mkOpenWrt { ow_helperPath : string; ow_configPath : string; ow_stateDir : string; ow_helperSocket : string }.
(** [socket] is the environment's [ROUTER_POLICY_HELPER_SOCKET]. *)
Definition NewOpenWrt (adapterPath stateDir configPath socket : string) : result OpenWrt :=
  let helper := Filepath.Clean adapterPath in
  let config := Filepath.Clean configPath in
  let state := Filepath.Clean stateDir in
  if (helper =s ".") || negb (Filepath.IsAbs helper) then Err "openwrt adapter helper must be an absolute path"
  else if (config =s ".") || negb (Filepath.IsAbs config) then Err "production config path must be absolute"
  else if (state =s ".") || negb (Filepath.IsAbs state) then Err "production state_dir must be absolute"
  else if S.TrimSpace socket <>s "/var/run/router-policy/helper.sock" then Err "production helper socket must be /var/run/router-policy/helper.sock"
  else Ok (mkOpenWrt helper config state (S.TrimSpace socket)).
Definition validateTransaction (stateDir : string) (s : Sealed) : result unit :=
  let tx := se_Tx s in
  let txDir := Filepath.Join [stateDir; "transactions"; tx_RevisionID tx; tx_ID tx] in
  if negb (transactionIDPattern (tx_ID tx)) || negb (revisionIDPattern (tx_RevisionID tx)) || negb (changeIDPattern (tx_ChangeID tx))
  then Err "transaction, revision or change id failed strict validation"
  else if negb (S.HasPrefix (se_RollbackTokenHash s) "sha256:") || (tx_RevisionID tx =s "rev-manual")
  then Err "rollback capability hash or revision failed strict validation"
  else if Filepath.Clean (tx_CandidatePath tx) <>s Filepath.Clean (Filepath.Join [txDir; "candidate.json"])
  then Err "candidate path is not the deterministic transaction path"
  else if (Filepath.Clean (se_ArtifactRoot s) <>s Filepath.Join [txDir; "generated"])
          || (Filepath.Clean (se_CapabilityPath s) <>s Filepath.Join [txDir; "rollback.cap"])
          || (Filepath.Clean (se_BindingPath s) <>s Filepath.Join [txDir; "binding.env"])
  then Err "artifact or capability path is not deterministic"
  else if tx_ArtifactManifestHash tx =s "" then Err "artifact manifest hash is required"
  else Ok ().
Definition validateRecoveryTarget (t : RecoveryTarget) : result unit :=
  if negb (transactionIDPattern (rt_TransactionID t)) || negb (revisionIDPattern (rt_RevisionID t))
  then Err "recovery transaction or revision failed strict validation"
  else if negb (sha256Pattern (rt_CandidateHash t)) || negb (sha256Pattern (rt_ArtifactManifestHash t))
  then Err "recovery candidate or artifact hash failed strict validation"
  else Ok ().

Definition allowedGlobalCommand (command : string) : bool := containsString ["diagnose"; "reconcile"; "status"; "clear-boot-guard"] command.
Definition allowedTransactionCommand (command : string) : bool :=
  containsString ["prepare"; "validate-candidate"; "snapshot-current"; "apply-candidate"; "verify-management"; "verify-data-plane"; "commit";
                  "commit-prepared"; "finalize-commit"; "rollback"; "clear-boot-guard"] command.
(** [strings.ReplaceAll(command, "-", "_")]. *)
Definition underscored : string -> string := S.map_bytes (fun c => if S.is_byte 45 c then underscore else c).
Definition stepName (command : string) : string := if command =s "verify-management" then "verify_management_path" else underscored command.
Definition failedStep (step reason : string) : StepResult := mkStep 0 "" (stepName step) "ERROR" false false false reason ∅ "" false false.

(** ** Evidence of a process run directly *)

Definition dropReturn (line : string) : string := if S.byte_is (S.last_byte line) 13 then S.TrimSuffix line (String (Ascii.ascii_of_N 13) EmptyString) else line.
(** The lines of a [bufio.Scanner]: a line of its buffer's size ends the scan. *)
Fixpoint scanned (lines : list string) : list string :=
  match lines with
  | [] => []
  | line :: rest => if Z.shiftl 64 10 <=? S.len line then [] else dropReturn line :: scanned rest
  end.
Definition typedValue (value : string) : evidence := if value =s "true" then EvBool true else if value =s "false" then EvBool false else EvString value.
Definition typedLine (line : string) : option (string * evidence) :=
  match Net.cutFirst equals_sign line with
  | Some (key, value) => if evidenceKeyPattern key then Some (key, typedValue value) else None
  | None => None
  end.
Definition typedEvidence (raw : string) : gmap string evidence :=
  fold_left (fun m line => match typedLine line with Some (key, value) => <[key := value]> m | None => m end) (scanned (S.Split raw linefeed)) ∅.
Definition isTrue (m : gmap string evidence) (key : string) : bool := match m !! key with Some (EvBool b) => b | _ => false end.
Definition isText (m : gmap string evidence) (key value : string) : bool := match m !! key with Some (EvString s) => s =s value | _ => false end.
Definition textOr (fallback : string) (m : gmap string evidence) (key : string) : string :=
  match m !! key with Some (EvString s) => if s =s "" then fallback else s | _ => fallback end.

#[export] Instance eta_StepResult : Eta StepResult := fun r =>
  mkStep (sr_ProtocolVersion r) (sr_Operation r) (sr_Step r) (sr_Status r) (sr_OK r) (sr_ManagementVerified r) (sr_DataPlaneVerified r) (sr_Reason r)
    (sr_Evidence r) (sr_SemanticState r) (sr_Committed r) (sr_RollbackCapable r).
Definition set_sr_OK (v : bool) (r : StepResult) : StepResult := ltac:(assign r sr_OK v).
Definition set_sr_Status (v : string) (r : StepResult) : StepResult := ltac:(assign r sr_Status v).
Definition set_sr_Reason (v : string) (r : StepResult) : StepResult := ltac:(assign r sr_Reason v).
Definition set_sr_ManagementVerified (v : bool) (r : StepResult) : StepResult := ltac:(assign r sr_ManagementVerified v).
Definition set_sr_DataPlaneVerified (v : bool) (r : StepResult) : StepResult := ltac:(assign r sr_DataPlaneVerified v).
Definition unverified (reason : string) (r : StepResult) : StepResult := r |> set_sr_OK false |> set_sr_Status "UNVERIFIED" |> set_sr_Reason reason.
(** A verification that ran: unverified, or as [verified] says. *)
Definition verification (verified : bool) (pending failure : string) (m : gmap string evidence) (r : StepResult) : StepResult :=
  if isText m "verification_status" "UNVERIFIED" then unverified pending r
  else if verified then set_sr_OK true r
  else r |> set_sr_OK false |> set_sr_Status "ERROR" |> set_sr_Reason failure.
(** [error] is the error of the process, if any. *)
Definition judgeExecution (command : string) (raw : string) (error : option string) : StepResult :=
  let m := typedEvidence (String.substring 0 outputLimit raw) in
  let state := match m !! "transaction_state" with Some (EvString s) => s | _ => "" end in
  let step status ok reason := mkStep AdapterProtocolVersion command (stepName command) status ok false false reason m state (isTrue m "committed") (isTrue m "rollback_capable") in
  match error with
  | Some e => step "ERROR" false (textOr e m "reason")
  | None =>
      let r := step "OK" true "" in
      let r := if command =s "verify-management"
               then verification (isTrue m "management_ok") "LAN management path is not verified" "management path was not verified" m
                      (set_sr_ManagementVerified (isTrue m "management_ok") r)
               else r in
      let r := if command =s "verify-data-plane"
               then verification (isTrue m "data_plane_ok") (textOr "complete data-plane evidence is not available" m "reason") "data plane was not verified" m
                      (set_sr_DataPlaneVerified (isTrue m "data_plane_ok") r)
               else r in
      if (command =s "validate-candidate") && negb (isTrue m "candidate_valid")
      then unverified (textOr "candidate is not deployable on the current device" m "reason") r else r
  end.

(** ** Answers of the helper *)

(** The evidence of an answer: its texts, and two of its flags. *)
Definition answeredEvidence (r : Response) : gmap string evidence :=
  <["rollback_capable" := EvBool (rs_RollbackCapable r)]> (<["committed" := EvBool (rs_Committed r)]> (EvString <$> rs_Evidence r)).
Definition stepOfAnswer (command : string) (answer : Response * option string) : StepResult :=
  let '(r, error) := answer in
  mkStep AdapterProtocolVersion command (stepName command) (match error with None => "OK" | Some _ => "ERROR" end)
    (match error with None => rs_Accepted r | Some _ => false end) (rs_ManagementVerified r) (rs_DataPlaneVerified r)
    (match error with None => "" | Some e => if rs_Reason r =s "" then e else rs_Reason r end)
    (answeredEvidence r) (rs_SemanticState r) (rs_Committed r) (rs_RollbackCapable r).

Section Adapter.
Context (a : OpenWrt) (sha256Hex : string -> string) {K : Type}.
(** [secureRandomHex], the file of a capability ([os.Lstat]: regular, permissions), a
    conversation with the helper, and a process with its combined output. *)
Context (randomHex : Z -> io K string) (lstat : string -> io K (bool * Z)) (readFile : string -> io K string).
Context (converse : Request -> K -> K * conversation) (runCombined : string -> list string -> K -> K * (string * option string)).

Definition trimEnds : string -> string := fun s =>
  let fix go r := match r with String c rest => if S.is_byte 13 c || S.is_byte 10 c then go rest else r | EmptyString => EmptyString end in
  S.rev (go (S.rev s)).
Definition VerifyRollbackToken (expectedHash token : string) : bool := "sha256:" +:+ sha256Hex token =s expectedHash.
Definition ReadCapability (s : Sealed) : io K string :=
  info ← lstat (se_CapabilityPath s);
  if negb info.1 || negb (info.2 =? 384) then fail "rollback capability must be a regular mode-0600 file"
  else
    raw ← readFile (se_CapabilityPath s);
    let token := trimEnds raw in
    if VerifyRollbackToken (se_RollbackTokenHash s) token then mret token else fail "rollback capability hash mismatch".

Definition execute (command : string) (arguments : list string) : K -> K * StepResult := fun k =>
  let '(k, (raw, error)) := runCombined (ow_helperPath a) (command :: ow_configPath a :: arguments) k in (k, judgeExecution command raw error).
Definition executeHelperRequest (command : string) (q : Request) : K -> K * StepResult := fun k =>
  let '(k, answer) := Call converse (ow_helperSocket a) q k in (k, stepOfAnswer command answer).
(** A request with a fresh identifier. *)
Definition askHelper (step command : string) (q : string -> Request) : K -> K * StepResult := fun k =>
  match randomHex 8 k with
  | (k, Err e) => (k, failedStep step e)
  | (k, Ok id) => executeHelperRequest command (q ("req_" +:+ id)) k
  end.
Definition globalRequest (command id : string) : Request :=
  mkRequest ProtocolVersion id ("global." +:+ underscored command) "global" "global" "global" "" "" "" None None None None None None (Some (mkGlobalRequest command)) None.
Definition transactionRequest (command : string) (s : Sealed) (id : string) : Request :=
  let tx := se_Tx s in
  mkRequest ProtocolVersion id ("transaction." +:+ underscored command) (tx_RevisionID tx) (tx_RevisionID tx) (tx_ID tx) (se_RollbackTokenHash s)
    (tx_CandidateHash tx) (tx_ArtifactManifestHash tx) (Some (mkTransactionRequest command)) None None None None None None None.
Definition recoveryRequest (t : RecoveryTarget) (id : string) : Request :=
  mkRequest ProtocolVersion id "transaction.reconcile" (rt_RevisionID t) (rt_RevisionID t) (rt_TransactionID t) "" (rt_CandidateHash t)
    (rt_ArtifactManifestHash t) (Some (mkTransactionRequest "reconcile")) None None None None None None None.
Definition baselineRequest (revisionID candidateHash id : string) : Request :=
  mkRequest ProtocolVersion id "recovery.clear_boot_guard_baseline" revisionID revisionID "baseline" "" candidateHash "" None
    (Some (mkBaselineRequest "clear-boot-guard")) None None None None None None.

Definition runGlobal (command : string) : K -> K * StepResult := fun k =>
  if negb (allowedGlobalCommand command) then (k, failedStep command "command is not allowlisted")
  else if ow_helperSocket a <>s "" then askHelper command command (globalRequest command) k
  else execute command [] k.
Definition runTransaction (command : string) (s : Sealed) : K -> K * StepResult := fun k =>
  let tx := se_Tx s in
  if negb (allowedTransactionCommand command) then (k, failedStep command "command is not allowlisted")
  else match validateTransaction (ow_stateDir a) s with
  | Err e => (k, failedStep command e)
  | Ok _ =>
      let ready := if (command <>s "prepare") && (command <>s "finalize-commit") then _ ← ReadCapability s; mret () else mret () in
      match ready k with
      | (k, Err e) => (k, failedStep command e)
      | (k, Ok _) =>
          if ow_helperSocket a <>s "" then askHelper command command (transactionRequest command s) k
          else execute command [tx_ID tx; tx_RevisionID tx; tx_CandidateHash tx; tx_ArtifactManifestHash tx] k
      end
  end.

Definition Diagnose : K -> K * StepResult := runGlobal "diagnose".
Definition ClearBootGuard : K -> K * StepResult := runGlobal "clear-boot-guard".
Definition Status : K -> K * StepResult := runGlobal "status".
Definition ClearBootGuardForTransaction : Sealed -> K -> K * StepResult := runTransaction "clear-boot-guard".
Definition Prepare : Sealed -> K -> K * StepResult := runTransaction "prepare".
Definition ValidateCandidate : Sealed -> K -> K * StepResult := runTransaction "validate-candidate".
Definition SnapshotCurrent : Sealed -> K -> K * StepResult := runTransaction "snapshot-current".
Definition ApplyCandidate : Sealed -> K -> K * StepResult := runTransaction "apply-candidate".
Definition VerifyManagementPath : Sealed -> K -> K * StepResult := runTransaction "verify-management".
Definition VerifyDataPlane : Sealed -> K -> K * StepResult := runTransaction "verify-data-plane".
Definition Commit : Sealed -> K -> K * StepResult := runTransaction "commit".
Definition CommitPrepared : Sealed -> K -> K * StepResult := runTransaction "commit-prepared".
Definition FinalizeCommit : Sealed -> K -> K * StepResult := runTransaction "finalize-commit".
Definition Rollback : Sealed -> K -> K * StepResult := runTransaction "rollback".
Definition Reconcile (t : RecoveryTarget) : K -> K * StepResult := fun k =>
  match validateRecoveryTarget t with
  | Err e => (k, failedStep "reconcile" e)
  | Ok _ =>
      if ow_helperSocket a <>s "" then askHelper "reconcile" "reconcile" (recoveryRequest t) k
      else execute "reconcile" [rt_TransactionID t; rt_RevisionID t; rt_CandidateHash t; rt_ArtifactManifestHash t] k
  end.
(** The second look at a baseline that was reported as cleared. *)
Definition confirmBaseline (revisionID candidateHash : string) (r : StepResult) : StepResult :=
  let m := sr_Evidence r in
  if sr_OK r && (negb (isText m "boot_guard" "cleared") || (sr_SemanticState r <>s "baseline_confirmed") || negb (isText m "active_revision" revisionID)
                 || negb (isText m "active_candidate_hash" candidateHash))
  then r |> set_sr_OK false |> set_sr_Status "ERROR" |> set_sr_Reason "adapter did not prove baseline-bound boot guard removal"
  else r.
Definition ClearBootGuardForBaseline (revisionID candidateHash : string) : K -> K * StepResult := fun k =>
  let command := "clear-boot-guard-baseline" in
  if negb (revisionIDPattern revisionID) || negb (sha256Pattern candidateHash)
  then (k, failedStep command "baseline boot guard binding failed strict validation")
  else if ow_helperSocket a <>s "" then
    match randomHex 8 k with
    | (k, Err e) => (k, failedStep command e)
    | (k, Ok id) =>
        let '(k, r) := executeHelperRequest command (baselineRequest revisionID candidateHash ("req_" +:+ id)) k in (k, confirmBaseline revisionID candidateHash r)
    end
  else let '(k, r) := execute command ["baseline"; revisionID; candidateHash] k in (k, confirmBaseline revisionID candidateHash r).

(** *** Route assignments *)

Record AssignmentRequest := mkOwnedRequest {
  oq_RequestID : string;
  oq_Generation : string;
  oq_RevisionID : string;
  oq_CandidateHash : string;
  oq_ArtifactManifestHash : string;
  oq_Domain : string;
  oq_RouteTag : string;
  oq_RouteType : string;
  oq_RouteSetID : string;
  oq_AssignmentID : string;
  oq_MappingHash : string
}.
Record AssignmentReceipt := mkReceipt {
  rc_ProtocolVersion : Z;
  rc_RequestID : string;
  rc_Operation : string;
  rc_Applied : bool;
  rc_Verified : bool;
  rc_Generation : string;
  rc_RevisionID : string;
  rc_Domain : string;
  rc_RouteTag : string;
  rc_RouteType : string;
  rc_RouteSetID : string;
  rc_AssignmentID : string;
  rc_MappingHash : string
}.
Definition incomplete (q : AssignmentRequest) : bool :=
  (S.TrimSpace (oq_RequestID q) =s "")
  || any (fun s => s =s "") [oq_Generation q; oq_RevisionID q; oq_CandidateHash q; oq_ArtifactManifestHash q; oq_Domain q; oq_RouteTag q; oq_RouteType q;
                             oq_RouteSetID q; oq_AssignmentID q; oq_MappingHash q].
Definition assignmentWire (q : AssignmentRequest) (operation : string) : Request :=
  mkRequest ProtocolVersion (oq_RequestID q) ("route_assignment." +:+ operation) (oq_Generation q) (oq_RevisionID q) "route-assignment" ""
    (oq_CandidateHash q) (oq_ArtifactManifestHash q) None None None None None None None
    (Some (mkAssignmentRequest operation (oq_Domain q) (oq_RouteTag q) (oq_RouteType q) (oq_RouteSetID q) (oq_AssignmentID q) (oq_MappingHash q))).
Definition receiptOf (r : Response) (s : RouteAssignmentResponse) : AssignmentReceipt :=
  mkReceipt (rs_ProtocolVersion r) (rs_RequestID r) (rs_Operation r) (as_Applied s) (as_Verified s) (rs_Generation r) (rs_RevisionID r)
    (as_Domain s) (as_RouteTag s) (as_RouteType s) (as_RouteSetID s) (as_AssignmentID s) (as_MappingHash s).
Definition judgeReceipt (operation : string) (r : AssignmentReceipt) : result AssignmentReceipt :=
  if (operation =s "apply") && (negb (rc_Applied r) || negb (rc_Verified r) || (rc_Operation r <>s "route_assignment.apply"))
  then Err "helper did not semantically confirm route assignment apply"
  else if (operation =s "rollback") && (rc_Operation r <>s "route_assignment.rollback")
  then Err "helper did not semantically confirm route assignment rollback"
  else Ok r.
Definition executeOwnedAssignment (q : AssignmentRequest) (operation : string) : io K AssignmentReceipt := fun k =>
  if ow_helperSocket a =s "" then fail "route assignment helper is unavailable" k
  else if incomplete q then fail "route assignment request is incomplete" k
  else match Call converse (ow_helperSocket a) (assignmentWire q operation) k with
  | (k, (_, Some e)) => fail e k
  | (k, (r, None)) =>
      match rs_RouteAssignment r with
      | None => fail "helper omitted route assignment response" k
      | Some s => lift (judgeReceipt operation (receiptOf r s)) k
      end
  end.
Definition ApplyOwnedRouteAssignment (q : AssignmentRequest) : io K AssignmentReceipt := executeOwnedAssignment q "apply".
Definition boundReceipt (q : AssignmentRequest) (r : AssignmentReceipt) : bool :=
  (rc_Operation r =s "route_assignment.rollback") && (rc_Generation r =s oq_Generation q) && (rc_RevisionID r =s oq_RevisionID q)
  && (rc_Domain r =s oq_Domain q) && (rc_RouteTag r =s oq_RouteTag q) && (rc_RouteType r =s oq_RouteType q) && (rc_RouteSetID r =s oq_RouteSetID q)
  && (rc_AssignmentID r =s oq_AssignmentID q) && (rc_MappingHash r =s oq_MappingHash q).
Definition RollbackOwnedRouteAssignment (q : AssignmentRequest) (receipt : AssignmentReceipt) : io K unit :=
  if (rc_RequestID receipt <>s oq_RequestID q) || (rc_MappingHash receipt <>s oq_MappingHash q) || (rc_Domain receipt <>s oq_Domain q)
     || (rc_RouteTag receipt <>s oq_RouteTag q)
  then fail "route assignment rollback receipt does not bind to request"
  else
    r ← executeOwnedAssignment q "rollback";
    if boundReceipt q r then mret () else fail "route assignment rollback response binding mismatch".
(** The lines of a binding file. *)
Definition bindingValues (raw : string) : gmap string string :=
  fold_left (fun m line => match Net.cutFirst equals_sign (S.TrimSpace line) with Some (key, value) => <[key := value]> m | None => m end)
    (S.Split raw linefeed) ∅.
Definition completeBinding (m : gmap string string) : bool :=
  (at_key m "revision_id" <>s "") && (at_key m "candidate_hash" <>s "") && (at_key m "artifact_manifest_hash" <>s "").
Fixpoint firstBinding (paths : list string) : io K (gmap string string) := fun k =>
  match paths with
  | [] => fail "route assignment committed binding is unavailable" k
  | path :: rest =>
      match readFile path k with
      | (k, Err _) => firstBinding rest k
      | (k, Ok raw) => if completeBinding (bindingValues raw) then (k, Ok (bindingValues raw)) else firstBinding rest k
      end
  end.
Definition readRouteAssignmentBinding : io K (gmap string string) :=
  firstBinding [Filepath.Join [ow_stateDir a; "last-good"; "active-transaction.env"]; Filepath.Join [ow_stateDir a; "last-good"; "transaction.env"]].
Definition reconcileWire (values : gmap string string) (id : string) : Request :=
  mkRequest ProtocolVersion ("req_" +:+ id) "route_assignment.reconcile" (at_key values "revision_id") (at_key values "revision_id") "route-assignment" ""
    (at_key values "candidate_hash") (at_key values "artifact_manifest_hash") None None None None None None None None.
Definition confirmReconcile (q : Request) : io K unit := fun k =>
  match Call converse (ow_helperSocket a) q k with
  | (k, (_, Some e)) => fail e k
  | (k, (r, None)) =>
      if (rs_Operation r <>s "route_assignment.reconcile") || negb (yes (rs_Evidence r) "reconciled") || negb (yes (rs_Evidence r) "verified")
      then fail "helper did not semantically confirm route assignment reconcile" k
      else (k, Ok ())
  end.
Definition ReconcileOwnedRouteAssignments : io K unit :=
  if ow_helperSocket a =s "" then fail "route assignment helper is unavailable"
  else
    values ← readRouteAssignmentBinding;
    id ← randomHex 8;
    confirmReconcile (reconcileWire values id).
End Adapter.
