(* ===== verification/HelperProofs.v ===== *)
(** * The privileged helper: proofs

    The helper starts nothing but the owned commands, for the configured user only,
    with arguments that are single safe words; what the client sends is what the
    helper reads; a step the OpenWrt adapter reports as done was confirmed by the
    adapter's own evidence for exactly that transaction, except that a rollback never
    is. *)
From Stdlib Require Import ZArith Lia.
From stdpp Require Import base list strings gmap pretty.
From S2P Require Import Prelude Effects Net Json JsonText JsonTextProofs NetProofs Validation ValidationProofs Adapter Helper OpenWrt.

Open Scope Z_scope.
Import JText.

(** ** What the helper starts *)

(** A single word for the command line of a command: no blank line, slash or end. *)
Definition argument (s : string) : Prop := s <> "" /\ S.all_bytes tokenByte s = true.
Definition adapterVerbs : list string := [
  "prepare"; "validate-candidate"; "snapshot-current"; "apply-candidate"; "verify-management"; "verify-data-plane"; "commit-prepared"; "finalize-commit";
  "rollback"; "clear-boot-guard-bound"; "reconcile"; "clear-boot-guard-baseline"; "diagnose"; "status"; "replace-owned-nft"; "apply-ip-plan";
  "rollback-ip-plan"; "artifact-install"; "artifact-remove"; "route-assignment-apply"; "route-assignment-rollback"; "route-assignment-reconcile"
].
Inductive owned (e : AdapterExecutor) : string -> list string -> Prop :=
| owned_adapter verb arguments : verb ∈ adapterVerbs -> Forall argument arguments -> owned e (ex_AdapterPath e) (verb :: ex_ConfigPath e :: arguments)
| owned_service path operation : allowlistedService (Filepath.Base path) = true -> Filepath.Dir path = initDirOf e ->
    operation ∈ ["start"; "stop"; "reload"; "running"] -> owned e path [operation].

Lemma safeToken_argument s : safeToken s = true -> argument s.
Proof. unfold safeToken. intros H. bool_split. str_eq. by split. Qed.
Lemma safeObjectName_argument s : safeObjectName s = true -> argument s.
Proof. unfold safeObjectName. intros H. bool_split. by apply safeToken_argument. Qed.
Lemma hex_token c : lowerHexByte c = true -> tokenByte c = true.
Proof. destruct c as [[] [] [] [] [] [] [] []]; vm_compute; congruence. Qed.
Lemma label_token c : labelByte c = true -> tokenByte c = true.
Proof. destruct c as [[] [] [] [] [] [] [] []]; vm_compute; congruence. Qed.
Lemma safeHash_argument s : safeHash s = true -> argument s.
Proof.
  unfold safeHash. intros H. bool_split. split; [by intros ->|].
  assert (L : String.length s = 71%nat) by (unfold S.len in *; lia).
  match goal with G : S.HasPrefix s _ = true |- _ => pose proof (behind_prefix _ _ G) as E end.
  unfold behind in E. rewrite L in E. change (71 - String.length "sha256:")%nat with 64%nat in E. change (String.length "sha256:") with 7%nat in E.
  rewrite E, all_bytes_app. apply andb_true_iff. split; [done|]. eapply all_bytes_impl; [apply hex_token|done].
Qed.
Lemma safeDomain_argument s : safeDomain s = true -> argument s.
Proof.
  unfold safeDomain. intros H. bool_split. str_eq. split; [done|]. eapply all_bytes_impl; [|done]. intros c Hc. unfold domainByte in Hc. by bool_split.
Qed.
Lemma listed_argument l s : Forall argument l -> containsString l s = true -> argument s.
Proof. intros HF HC%containsString_true. rewrite Forall_forall in HF. by apply HF. Qed.
Ltac literals := let H := fresh in intros H; eapply listed_argument; [|exact H]; repeat (apply List.Forall_cons; [by split|]); apply List.Forall_nil.
Lemma safeRouteType_argument s : safeRouteType s = true -> argument s.
Proof. unfold safeRouteType. literals. Qed.
Lemma allowlistedArtifact_argument s : allowlistedArtifact s = true -> argument s.
Proof. unfold allowlistedArtifact. literals. Qed.
Create HintDb helper discriminated.
#[export] Hint Resolve safeToken_argument safeObjectName_argument safeHash_argument safeDomain_argument safeRouteType_argument allowlistedArtifact_argument : helper.

Lemma on_true {A} (o : option A) p : on o p = true -> exists a, o = Some a /\ p a = true.
Proof. destruct o as [a|]; [|done]. intros H. by exists a. Qed.
Lemma namedIn_in table c v : namedIn table c = Some v -> (c, v) ∈ table.
Proof.
  unfold namedIn. destruct (first _ table) as [[c' v']|] eqn:E; [|done]. apply first_Some in E as [HI HE]. intros [= <-]. cbn in HE.
  by apply String.eqb_eq in HE as <-.
Qed.

(** What a valid request says, by its command. *)
Inductive fits (q : Request) : Prop :=
| fits_transaction operation : (rq_Command q, operation) ∈ transactionOperations -> recoveryRequestBound q = true -> fits q
| fits_baseline : rq_Command q = "recovery.clear_boot_guard_baseline" -> rq_TransactionID q = "baseline" -> safeHash (rq_CandidateHash q) = true -> fits q
| fits_nft : rq_Command q = "nft.replace_owned_table" -> requestBound q = true -> fits q
| fits_plan : rq_Command q ∈ ["ip_plan.apply"; "ip_plan.rollback"] -> requestBound q = true -> fits q
| fits_service s operation : rq_Command q = "service." +:+ operation -> operation ∈ ["start"; "stop"; "reload"] -> rq_Service q = Some s ->
    allowlistedService (sq_Name s) = true -> sq_Operation s = operation -> requestBound q = true -> fits q
| fits_artifact a operation : rq_Command q = "artifact." +:+ operation -> operation ∈ ["install"; "remove"] -> rq_Artifact q = Some a ->
    allowlistedArtifact (ar_Kind a) = true -> ar_Operation a = operation -> requestBound q = true -> fits q
| fits_global : rq_Command q ∈ ["global.diagnose"; "global.status"] -> fits q
| fits_assignment a operation : rq_Command q = "route_assignment." +:+ operation -> operation ∈ ["apply"; "rollback"] -> rq_RouteAssignment q = Some a ->
    ra_Operation a = operation -> routeAssignmentRequestValid q = true -> fits q
| fits_reconcile : rq_Command q = "route_assignment.reconcile" -> recoveryRequestBound q = true -> fits q.

Ltac one_of_list H := repeat (apply elem_of_cons in H as [H|H]); try by apply elem_of_nil in H.
Ltac one_of H := apply containsString_true in H; one_of_list H.
Lemma commandValid_fits q : commandValid q = Some true -> fits q.
Proof.
  unfold commandValid. cbv zeta. intros H.
  destruct (present (namedIn transactionOperations (rq_Command q)) && _) eqn:E1.
  { injection H as H. bool_split. destruct (namedIn transactionOperations (rq_Command q)) as [operation|] eqn:EN; [|done].
    apply (fits_transaction q operation); [by apply namedIn_in|]. unfold requestBound, recoveryRequestBound in *. bool_split. by apply andb_true_iff. }
  destruct (rq_Command q =s "transaction.reconcile") eqn:E2.
  { injection H as H. bool_split. str_eq. apply (fits_transaction q "reconcile"); [rewrite E2; in_list|done]. }
  destruct (rq_Command q =s "recovery.clear_boot_guard_baseline") eqn:E3; [injection H as H; bool_split; str_eq; by apply fits_baseline|].
  destruct (rq_Command q =s "nft.replace_owned_table") eqn:E4; [injection H as H; bool_split; str_eq; by apply fits_nft|].
  destruct (containsString ["ip_plan.apply"; _] _) eqn:E5; [injection H as H; bool_split; apply fits_plan; [by apply containsString_true|done]|].
  destruct (containsString ["service.start"; _; _] _) eqn:E6.
  { injection H as H. bool_split. match goal with G : on _ _ = true |- _ => apply on_true in G as (s & HS & G) end. bool_split. str_eq.
    one_of E6; (eapply (fits_service q s); [exact E6| |done|done| |done]; [|match goal with G : sq_Operation s = _ |- _ => rewrite G, E6; reflexivity end]; in_list). }
  destruct (containsString ["artifact.install"; _] _) eqn:E7.
  { injection H as H. bool_split. match goal with G : on _ _ = true |- _ => apply on_true in G as (a & HA & G) end. bool_split. str_eq.
    one_of E7; (eapply (fits_artifact q a); [exact E7| |done|done| |done]; [|match goal with G : ar_Operation a = _ |- _ => rewrite G, E7; reflexivity end]; in_list). }
  destruct (containsString ["global.diagnose"; _] _) eqn:E8; [apply fits_global; by apply containsString_true|].
  destruct (containsString ["route_assignment.apply"; _] _) eqn:E9.
  { injection H as H. pose proof H as HV. unfold routeAssignmentRequestValid in H. destruct (rq_RouteAssignment q) as [a|] eqn:HA; [|done]. bool_split. str_eq.
    one_of E9; (eapply (fits_assignment q a); [exact E9| |done| |done]; [|match goal with G : ra_Operation a = _ |- _ => rewrite G, E9; reflexivity end]; in_list). }
  destruct (rq_Command q =s "route_assignment.reconcile") eqn:E10; [|done]. injection H as H. bool_split. str_eq. apply fits_reconcile; [done|]. by apply andb_true_iff.
Qed.

Lemma validated q : ValidateRequest q = None ->
  argument (rq_RequestID q) /\ argument (rq_Generation q) /\ argument (rq_RevisionID q) /\ argument (rq_TransactionID q) /\ commandValid q = Some true.
Proof.
  unfold ValidateRequest. destruct (_ || _) ; [done|]. destruct (negb (safeToken (rq_RequestID q)) || _ || _ || _) eqn:E; [done|].
  destruct (_ =s ""); [done|]. destruct (commandValid q) as [[]|]; try done. intros _. bool_split.
  by repeat (split; [by apply safeToken_argument|]).
Qed.
Lemma boundTo_arguments q : ValidateRequest q = None -> recoveryRequestBound q = true -> Forall argument (boundTo q).
Proof.
  intros (_ & _ & ? & ? & _)%validated HB. unfold recoveryRequestBound in HB. bool_split. unfold boundTo.
  repeat (apply List.Forall_cons; [first [done|by apply safeHash_argument]|]). apply List.Forall_nil.
Qed.
Lemma requestBound_recovery q : requestBound q = true -> recoveryRequestBound q = true.
Proof. unfold requestBound, recoveryRequestBound. intros H. bool_split. by apply andb_true_iff. Qed.
Lemma assignment_bound q : routeAssignmentRequestValid q = true -> recoveryRequestBound q = true.
Proof. unfold routeAssignmentRequestValid, recoveryRequestBound. destruct (rq_RouteAssignment q); [|done]. intros H. bool_split. by apply andb_true_iff. Qed.

(** The literals of the dispatch. *)
Ltac decided b := let v := eval vm_compute in b in change b with v.
Ltac literal :=
  repeat match goal with
  | |- context [S.HasPrefix (String ?a ?s) ?p] => decided (S.HasPrefix (String a s) p)
  | |- context [String.eqb (String ?a ?s) (String ?b ?t)] => decided (String.eqb (String a s) (String b t))
  | |- context [namedIn ?t (String ?a ?s)] => decided (namedIn t (String a s))
  | |- context [containsString ?l (String ?a ?s)] => decided (containsString l (String a s))
  end; cbv beta iota delta [orb negb andb].

Section Commands.
Context (e : AdapterExecutor) {K : Type} (I : K -> Prop).
Context (run : string -> list string -> K -> K * Output) (lstat : string -> io K (bool * bool)) (readFile : string -> io K string).
Hypothesis run_keeps : forall program arguments, owned e program arguments -> keeps I (run program arguments).
Hypothesis lstat_keeps : forall path, keeps I (lstat path).
Hypothesis readFile_keeps : forall path, keeps I (readFile path).

Lemma refuse_keeps q code message : keeps I (refuse q code message : K -> K * Response).
Proof. apply keeps_pure. Qed.
Hint Resolve refuse_keeps : keeps.
Lemma adapter_keeps verb arguments (judge : Output -> Response) : verb ∈ adapterVerbs -> Forall argument arguments ->
  keeps I (fun k => let '(k, o) := adapter e run verb arguments k in (k, judge o)).
Proof. intros Hv HA. apply keeps_let; [|intros; apply keeps_pure]. by apply run_keeps, owned_adapter. Qed.
Ltac arguments := repeat (apply List.Forall_cons; [first [done|by split|by eauto with helper]|]); first [apply List.Forall_nil|done].

Lemma transaction_keeps q operation : ValidateRequest q = None -> (rq_Command q, operation) ∈ transactionOperations -> recoveryRequestBound q = true ->
  keeps I (executeTransaction e run q).
Proof.
  intros HV Hc HB. unfold executeTransaction, transactionVerb. pose proof (boundTo_arguments q HV HB) as HA.
  repeat (apply elem_of_cons in Hc as [[= Hc _]|Hc]); try (by apply elem_of_nil in Hc); rewrite Hc; literal; (apply adapter_keeps; [in_list|done]).
Qed.
Lemma baseline_keeps q : ValidateRequest q = None -> safeHash (rq_CandidateHash q) = true -> keeps I (executeBaselineBootGuardClear e run q).
Proof.
  intros (_ & _ & HR & _)%validated HC. apply adapter_keeps; [in_list|]. arguments.
Qed.
Lemma owned_keeps q verb extra : ValidateRequest q = None -> requestBound q = true -> ownedVerb q = Some (verb, extra) -> verb ∈ adapterVerbs ->
  extra = "" \/ argument extra -> keeps I (executeOwned e run q).
Proof.
  intros HV HB%requestBound_recovery HO Hv HX. unfold executeOwned. rewrite HO. apply adapter_keeps; [done|]. apply Forall_app. split; [by apply boundTo_arguments|].
  destruct (extra =s "") eqn:E; [apply List.Forall_nil|]. destruct HX as [->|HX]; [done|]. arguments.
Qed.
Lemma global_keeps q : rq_Command q ∈ ["global.diagnose"; "global.status"] -> keeps I (executeGlobal e run q).
Proof.
  intros Hc. unfold executeGlobal, globalOperation. repeat (apply elem_of_cons in Hc as [Hc|Hc]); try (by apply elem_of_nil in Hc); rewrite Hc; literal;
  cbn -[adapter judgeGlobal]; (apply adapter_keeps; [in_list|arguments]).
Qed.
Lemma assignment_keeps q a operation : ValidateRequest q = None -> rq_Command q = "route_assignment." +:+ operation -> operation ∈ ["apply"; "rollback"] ->
  rq_RouteAssignment q = Some a -> ra_Operation a = operation -> routeAssignmentRequestValid q = true -> keeps I (executeRouteAssignment e run q).
Proof.
  intros HV Hc HO HA Ho HR. pose proof (boundTo_arguments q HV (assignment_bound q HR)) as HB. unfold routeAssignmentRequestValid in HR. rewrite HA in HR. bool_split.
  assert (HW : Forall argument [ra_Domain a; ra_RouteTag a; ra_RouteType a; ra_RouteSetID a; ra_AssignmentID a; ra_MappingHash a; rq_RequestID q]).
  { apply validated in HV as (? & _). arguments. }
  unfold executeRouteAssignment, ownedVerb. rewrite HA, Ho.
  repeat (apply elem_of_cons in HO as [HO|HO]); try (by apply elem_of_nil in HO); rewrite HO in *; cbn [String.append] in Hc; rewrite Hc; literal;
  (apply adapter_keeps; [in_list|by apply Forall_app]).
Qed.
Lemma reconcile_keeps q : ValidateRequest q = None -> recoveryRequestBound q = true -> keeps I (executeRouteAssignmentReconcile e run q).
Proof.
  intros HV HB. apply adapter_keeps; [in_list|]. apply Forall_app. split; [by apply boundTo_arguments|]. apply validated in HV as (? & _). arguments.
Qed.
Lemma operate_keeps q path operation : owned e path [operation] -> owned e path ["running"] -> keeps I (operateService run lstat q path operation).
Proof.
  intros Ho Hr k HI. unfold operateService. pose proof (lstat_keeps path k HI) as HL. destruct (lstat path k) as [k1 [[[] []]|]]; cbn in HL; try done.
  pose proof (run_keeps _ _ Ho k1 HL) as H1. destruct (run path [operation] k1) as [k2 o]. cbn in H1. destruct (negb (succeeded o)); [done|].
  pose proof (run_keeps _ _ Hr k2 H1) as H2. by destruct (run path ["running"] k2).
Qed.
Lemma ownedDevice_keeps name : keeps I (ownedDeviceZapretService readFile name).
Proof. intros k HI. unfold ownedDeviceZapretService. pose proof (readFile_keeps profilesManifest k HI) as H. by destruct (readFile profilesManifest k) as [? []]. Qed.
Lemma service_keeps q s operation : rq_Service q = Some s -> allowlistedService (sq_Name s) = true -> sq_Operation s = operation ->
  operation ∈ ["start"; "stop"; "reload"] -> keeps I (executeService e run lstat readFile q).
Proof.
  intros HS HA <- HO. unfold executeService. rewrite HS. cbv zeta. set (path := Filepath.Join _).
  destruct (_ || _) eqn:E; [apply refuse_keeps|]. apply orb_false_iff in E as [ED EB]. apply negb_false_iff in ED, EB. str_eq.
  assert (HR : forall operation, operation ∈ ["start"; "stop"; "reload"; "running"] -> owned e path [operation]) by (intros; apply owned_service; [by rewrite EB|done..]).
  assert (HK : keeps I (operateService run lstat q path (sq_Operation s))).
  { apply operate_keeps; apply HR; [|in_list]. repeat (apply elem_of_cons in HO as [->|HO]; [in_list|]). by apply elem_of_nil in HO. }
  destruct (_ && _); [|done]. apply keeps_let; [apply ownedDevice_keeps|]. intros []; [done|apply refuse_keeps].
Qed.
Lemma Execute_keeps q : keeps I (Execute e run lstat readFile q).
Proof.
  unfold Execute. cbv zeta. destruct (ValidateRequest q) eqn:HV; [apply refuse_keeps|]. destruct (validatePaths e) as [[]|]; [|apply refuse_keeps].
  pose proof (commandValid_fits q (proj2 (proj2 (proj2 (proj2 (validated q HV)))))) as HF. destruct HF as
    [operation Hc HB|Hc HT HC|Hc HB|Hc HB|s operation Hc HO HS HA Ho HB|a operation Hc HO HA HK Ho HB|Hc|b operation Hc HO HA Ho HR|Hc HB].
  - assert (HP : S.HasPrefix (rq_Command q) "transaction." = true)
      by (clear -Hc; repeat (apply elem_of_cons in Hc as [[= -> _]|Hc]; [done|]); by apply elem_of_nil in Hc).
    rewrite HP. by eapply transaction_keeps.
  - rewrite Hc. literal. by apply baseline_keeps.
  - rewrite Hc. literal. eapply (owned_keeps q _ _ HV HB); [unfold ownedVerb; by rewrite Hc|in_list|by left].
  - one_of_list Hc; rewrite Hc; literal; (eapply (owned_keeps q _ _ HV HB); [unfold ownedVerb; by rewrite Hc|in_list|by left]).
  - assert (HP : rq_Command q ∈ ["service.start"; "service.stop"; "service.reload"]) by (rewrite Hc; clear -HO; one_of_list HO; rewrite HO; cbn [String.append]; in_list).
    clear Hc. one_of_list HP; rewrite HP; literal; by eapply service_keeps.
  - assert (HP : rq_Command q = "artifact.install" /\ operation = "install" \/ rq_Command q = "artifact.remove" /\ operation = "remove")
      by (rewrite Hc; clear -HO; one_of_list HO; rewrite HO; auto).
    apply allowlistedArtifact_argument in HK.
    destruct HP as [[HP HO']|[HP HO']]; rewrite HP; literal;
    [eapply (owned_keeps q "artifact-install" _ HV HB)|eapply (owned_keeps q "artifact-remove" _ HV HB)];
    solve [unfold ownedVerb; rewrite HP, HA, Ho, HO'; literal; reflexivity|in_list|by right].
  - one_of_list Hc; (assert (Hg : rq_Command q ∈ ["global.diagnose"; "global.status"]) by (rewrite Hc; in_list)); rewrite Hc; literal; by apply global_keeps.
  - assert (HP : rq_Command q ∈ ["route_assignment.apply"; "route_assignment.rollback"]) by (rewrite Hc; clear -HO; one_of_list HO; rewrite HO; cbn [String.append]; in_list).
    one_of_list HP; rewrite HP; literal; by eapply assignment_keeps.
  - rewrite Hc. literal. by apply reconcile_keeps.
Qed.
Lemma serveRequest_keeps q : keeps I (serveRequest e run lstat readFile q).
Proof. unfold serveRequest. destruct (ValidateRequest q); [apply keeps_pure|]. apply keeps_let; [apply Execute_keeps|]. intros; apply keeps_pure. Qed.
End Commands.

(** ** A request reaches the helper as it was sent *)

Lemma valuesOf_app f a b : valuesOf f (a ++ b) = valuesOf f a ++ valuesOf f b.
Proof. unfold valuesOf. by rewrite List.filter_app, map_app. Qed.
Lemma valuesOf_text f n s : valuesOf f (textField n s) = if names n f then [TStr s] else [].
Proof. unfold valuesOf, textField. cbn [List.filter fst]. by destruct (names n f). Qed.
Lemma valuesOf_number f n z : valuesOf f (field n z) = if names n f then [z] else [].
Proof. unfold valuesOf, field. cbn [List.filter fst]. by destruct (names n f). Qed.
Lemma valuesOf_optional f n s : valuesOf f (optionalText n s) = if names n f then if s =s "" then [] else [TStr s] else [].
Proof. unfold valuesOf, optionalText. destruct (s =s ""); cbn [List.filter fst]; by destruct (names n f). Qed.
Lemma valuesOf_pointer {A} f n (encode : A -> list (string * jtext)) o :
  valuesOf f (optionalField n encode o) = if names n f then match o with Some a => [TObj (encode a)] | None => [] end else [].
Proof. unfold valuesOf. destruct o; cbn [optionalField List.filter fst]; by destruct (names n f). Qed.
Lemma onlyFields_Ok fields m : onlyFields fields m = Ok () <-> Forall (fun p => any (names p.1) fields = true) m.
Proof.
  unfold onlyFields. destruct (first _ m) as [p|] eqn:E; split; try done.
  - apply first_Some in E as [HI HE]. rewrite Forall_forall. intros HF. specialize (HF p HI). cbn in HF. by rewrite HF in HE.
  - intros _. apply Forall_forall. intros p HI. apply negb_false_iff. by apply (first_None _ _ _ E).
Qed.
Lemma stringField_text s : stringField "" (if s =s "" then [] else [TStr s]) = Ok s.
Proof. destruct (s =s "") eqn:E; [|done]. by apply String.eqb_eq in E as ->. Qed.
Lemma pointerField_encoded {A} (zero : A) decode (encode : A -> list (string * jtext)) o : (forall a, decode zero (encode a) = Ok a) ->
  pointerField zero decode None (match o with Some a => [TObj (encode a)] | None => [] end) = Ok o.
Proof. intros H. destruct o as [a|]; [|done]. cbn. by rewrite H. Qed.

(** The values of a field among members whose names are literals. *)
Ltac field_values :=
  repeat first [rewrite valuesOf_app|rewrite valuesOf_text|rewrite valuesOf_number|rewrite valuesOf_optional|rewrite valuesOf_pointer];
  repeat match goal with |- context [names (String ?a ?s) (String ?b ?t)] => decided (names (String a s) (String b t)) end; cbv iota; cbn [app]; rewrite ?app_nil_r; reflexivity.

(** The members of a request. *)
Definition requestMembers (q : Request) : list (string * jtext) := match encodeRequest q with TObj m => m | _ => [] end.
Lemma requestMembers_only q : onlyFields requestFields (requestMembers q) = Ok ().
Proof.
  apply onlyFields_Ok. unfold requestMembers, encodeRequest, optionalText, optionalField.
  repeat (apply Forall_app; split);
  repeat match goal with
  | |- Forall _ (if ?b then _ else _) => destruct b
  | |- Forall _ (match ?o with _ => _ end) => destruct o
  end; repeat (apply List.Forall_cons; [vm_compute; reflexivity|]); apply List.Forall_nil.
Qed.
Ltac read_values :=
  let E := fresh in
  match goal with |- context [valuesOf ?f (requestMembers ?q)] =>
    eassert (E : valuesOf f (requestMembers q) = _) by (unfold requestMembers, encodeRequest; field_values) end;
  rewrite E; clear E.
Ltac next_field :=
  read_values; first [rewrite stringField_text|rewrite pointerField_encoded by (intros []; reflexivity)|cbn [stringField]]; cbn [mbind result_bind].
Lemma decode_encodeRequest q : rq_ProtocolVersion q = ProtocolVersion -> decodeRequest (encodeRequest q) = Ok q.
Proof.
  intros HV. change (decodeRequest (encodeRequest q)) with (decodeRequestFields (requestMembers q)). unfold decodeRequestFields. rewrite requestMembers_only.
  cbn [mbind result_bind]. unfold textAt.
  assert (E : intField 0 (valuesOf "protocol_version" (requestMembers q)) = Ok (rq_ProtocolVersion q)).
  { read_values. by rewrite HV. }
  rewrite E. clear E. cbn [mbind result_bind]. do 16 next_field. by destruct q.
Qed.

(** What the client writes for a request whose texts need no escape; the encoder also
    escapes the bytes of markup. *)
Definition wireText (q : Request) : string := print (encodeRequest q) +:+ String linefeed EmptyString.
Definition markup (c : Ascii.ascii) : bool := S.is_byte 60 c || S.is_byte 62 c || S.is_byte 38 c.
Definition asIs (q : Request) : bool := plain (encodeRequest q) && S.all_bytes (fun c => negb (markup c)) (wireText q).

Lemma requestMembers_height q : Forall (fun m => height m.2 <= 1) (requestMembers q).
Proof.
  unfold requestMembers, encodeRequest, optionalText, optionalField.
  repeat (apply Forall_app; split);
  repeat match goal with
  | |- Forall _ (if ?b then _ else _) => destruct b
  | |- Forall _ (match ?o with _ => _ end) => destruct o
  end; repeat (apply List.Forall_cons; [cbn; lia|]); apply List.Forall_nil.
Qed.
Lemma fold_max_below {A} (f : A -> Z) l n : 0 <= n -> Forall (fun x => f x <= n) l -> fold_right Z.max 0 (map f l) <= n.
Proof. intros Hn. induction 1; cbn; lia. Qed.
Lemma readRequest_wire q : rq_ProtocolVersion q = ProtocolVersion -> asIs q = true -> (String.length (wireText q) <= requestLimit)%nat ->
  readRequest (wireText q) = Ok q.
Proof.
  intros HV [HP _]%andb_true_iff HL. unfold readRequest. rewrite JTextProofs.substring_beyond by done. cbv zeta. unfold wireText in *.
  rewrite (JTextProofs.all_reads _ HP); [by apply decode_encodeRequest|done| |].
  - change (encodeRequest q) with (TObj (requestMembers q)). cbn [height].
    pose proof (fold_max_below (fun m : string * jtext => height m.2) _ 1 ltac:(lia) (requestMembers_height q)). unfold maxNestingDepth. lia.
  - rewrite JTextProofs.str_size_app. cbn [String.length]. lia.
Qed.

(** ** Every answer is about its request *)

Section Answers.
Context (q : Request).
Definition answers {K} (m : K -> K * Response) : Prop := forall k, sameEnvelope q (m k).2 = true.
Hypothesis version : rq_ProtocolVersion q = ProtocolVersion.
Lemma ResponseFrom_same b code message : sameEnvelope q (ResponseFrom q b code message) = true.
Proof. unfold sameEnvelope, ResponseFrom. cbn. rewrite version, !String.eqb_refl. done. Qed.
Lemma judged_same refusal r : sameEnvelope q (judged refusal r) = sameEnvelope q r.
Proof. by destruct refusal as [[]|]. Qed.
Lemma refuse_same {K} code message : answers (refuse q code message : K -> K * Response).
Proof. intros k. apply ResponseFrom_same. Qed.
Lemma answers_let {K A} (m : K -> K * A) (f : A -> Response) : (forall a, sameEnvelope q (f a) = true) -> answers (fun k => let '(k, a) := m k in (k, f a)).
Proof. intros H k. destruct (m k). apply H. Qed.
Ltac enveloped :=
  repeat match goal with
  | |- context [judged] => rewrite judged_same
  | |- context [if ?b then _ else _] => destruct b
  end; first [apply (ResponseFrom_same false "" "")|done].
Lemma judgeTransaction_same verb o : sameEnvelope q (judgeTransaction q verb o) = true.
Proof. unfold judgeTransaction. cbv zeta. enveloped. Qed.
Lemma judgeBaseline_same o : sameEnvelope q (judgeBaseline q o) = true.
Proof. unfold judgeBaseline. cbv zeta. enveloped. Qed.
Lemma judgeGlobal_same verb o : sameEnvelope q (judgeGlobal q verb o) = true.
Proof. unfold judgeGlobal. cbv zeta. enveloped. Qed.
Lemma judgeOwned_same o : sameEnvelope q (judgeOwned q o) = true.
Proof. unfold judgeOwned. cbv zeta. enveloped. Qed.
Lemma judgeAssignment_same a o : sameEnvelope q (judgeAssignment q a o) = true.
Proof. unfold judgeAssignment. cbv zeta. enveloped. Qed.
Lemma judgeReconcile_same o : sameEnvelope q (judgeReconcile q o) = true.
Proof. unfold judgeReconcile. cbv zeta. enveloped. Qed.
Lemma judgeService_same operation running r : sameEnvelope q (judgeService operation running r) = sameEnvelope q r.
Proof. unfold judgeService. cbv zeta. by repeat match goal with |- context [if ?b then _ else _] => destruct b end. Qed.
Hint Resolve refuse_same answers_let judgeTransaction_same judgeBaseline_same judgeGlobal_same judgeOwned_same judgeAssignment_same judgeReconcile_same : helper.

Section Run.
Context (e : AdapterExecutor) {K : Type}.
Context (run : string -> list string -> K -> K * Output) (lstat : string -> io K (bool * bool)) (readFile : string -> io K string).
Lemma operateService_same path operation : answers (operateService run lstat q path operation).
Proof.
  intros k. unfold operateService. destruct (lstat path k) as [k1 [[[] []]|]]; try apply ResponseFrom_same.
  destruct (run path [operation] k1) as [k2 o]. destruct (negb _); [apply ResponseFrom_same|]. destruct (run path ["running"] k2).
  cbn [snd]. rewrite judgeService_same. apply ResponseFrom_same.
Qed.
Lemma Execute_same : answers (Execute e run lstat readFile q).
Proof.
  unfold Execute, executeTransaction, executeBaselineBootGuardClear, executeService, executeOwned, executeGlobal, executeRouteAssignmentReconcile,
    executeRouteAssignment. cbv zeta.
  repeat match goal with
  | |- answers (refuse _ _ _) => apply refuse_same
  | |- answers (operateService _ _ _ _ _) => apply operateService_same
  | |- answers (fun k => let '(k, o) := adapter _ _ _ _ k in _) => apply answers_let; intros; by auto with helper
  | |- answers (match ?x with _ => _ end) => destruct x
  end.
  intros k. destruct (ownedDeviceZapretService _ _ k) as [k1 []]; [apply operateService_same|apply ResponseFrom_same].
Qed.
Lemma serveRequest_valid k : ValidateRequest q = None -> serveRequest e run lstat readFile q k = Execute e run lstat readFile q k.
Proof.
  intros HV. unfold serveRequest. rewrite HV. pose proof (Execute_same k) as HE. destruct (Execute e run lstat readFile q k) as [k' r]. cbn in HE.
  unfold sameEnvelope in HE. destruct (rs_ProtocolVersion r =? 0) eqn:E; [|done]. apply Z.eqb_eq in E. rewrite E in HE. done.
Qed.
End Run.
End Answers.
Lemma ValidateRequest_version q : ValidateRequest q = None -> rq_ProtocolVersion q = ProtocolVersion.
Proof. unfold ValidateRequest. destruct (negb (_ =? _)) eqn:E; [done|]. intros _. apply negb_false_iff, Z.eqb_eq in E. done. Qed.

(** ** What an accepted transaction proves *)

Lemma bindingError_None m expected : bindingError m expected = None -> forall k v, (k, v) ∈ expected -> m !! k = Some v.
Proof.
  induction expected as [|[key want] expected IH]; [by intros _ k v ?%elem_of_nil|]. cbn. destruct (m !! key) as [got|] eqn:E; [|done].
  destruct (_ =s ""); [done|]. destruct (got =s want) eqn:EG; [|done]. apply String.eqb_eq in EG as ->. intros H k v [[= -> ->]|HI]%elem_of_cons; [done|by apply IH].
Qed.
Lemma firstRefusal_cons c l : firstRefusal (c :: l) = None -> c = None /\ firstRefusal l = None.
Proof. unfold firstRefusal. cbn. by destruct c. Qed.
Lemma refuse_if_None b code message : refuse_if b code message = None -> b = false.
Proof. by destruct b. Qed.
Lemma transactionRefusal_same q r r' : rs_Evidence r = rs_Evidence r' -> rs_SemanticState r = rs_SemanticState r' -> rs_Committed r = rs_Committed r' ->
  rs_RollbackCapable r = rs_RollbackCapable r' -> transactionRefusal q r = transactionRefusal q r'.
Proof. unfold transactionRefusal. cbv zeta. by intros -> -> -> ->. Qed.
Lemma judgeTransaction_shape q verb o : exists r, rs_Accepted r = false /\
  judgeTransaction q verb o = (if negb (succeeded o) then rejected "adapter_exit_nonzero" "owned adapter operation failed" r
    else let refusal := transactionRefusal q r in
         judged refusal (if skippedReconcile q (rs_Evidence r) && negb (present refusal) then set_rs_SemanticState "skipped" r else r)).
Proof.
  exists (let r := withCommit (described o verb (ResponseFrom q false "" "")) in
          r |> set_rs_ManagementVerified (yes (rs_Evidence r) "management_ok") |> set_rs_DataPlaneVerified (yes (rs_Evidence r) "data_plane_ok")).
  split; reflexivity.
Qed.
Lemma judgeTransaction_accepted q verb o : rs_Accepted (judgeTransaction q verb o) = true -> rq_Command q <> "transaction.reconcile" ->
  transactionRefusal q (judgeTransaction q verb o) = None.
Proof.
  destruct (judgeTransaction_shape q verb o) as (r & Hr & ->). intros HA Hc. destruct (negb (succeeded o)); [cbn in HA; congruence|]. cbv zeta in *.
  assert (ES : skippedReconcile q (rs_Evidence r) = false) by (unfold skippedReconcile; by rewrite (proj2 (String.eqb_neq _ _) Hc)). rewrite ES in *. cbn [andb] in *.
  destruct (transactionRefusal q r) as [[]|] eqn:E; [cbn in HA; congruence|]. etransitivity; [|exact E]. by apply transactionRefusal_same.
Qed.

Lemma answered_text (r : Response) (key : string) : key <> "committed" -> key <> "rollback_capable" -> answeredEvidence r !! key = EvString <$> rs_Evidence r !! key.
Proof. intros H1 H2. unfold answeredEvidence. by rewrite !lookup_insert_ne, lookup_fmap by congruence. Qed.

Lemma request_listed command s id : allowedTransactionCommand command = true -> ValidateRequest (transactionRequest command s id) = None ->
  (("transaction." +:+ underscored command)%string, command) ∈ transactionOperations.
Proof.
  intros HA (_ & _ & _ & _ & HV)%validated. unfold allowedTransactionCommand in HA. one_of HA; subst command; try (vm_compute in HV; done);
  cbn -[transactionOperations]; in_list.
Qed.
Lemma listed_operation c operation : (c, operation) ∈ transactionOperations -> transactionOperation c = operation /\ (c = "transaction.reconcile" -> operation = "reconcile").
Proof. intros H. repeat (apply elem_of_cons in H as [[= -> ->]|H]; [by split|]). by apply elem_of_nil in H. Qed.
Lemma not_reconcile command : allowedTransactionCommand command = true -> command <> "reconcile".
Proof. intros H ->. done. Qed.

(** The checks one by one. *)
Lemma refusal_checks q r : transactionRefusal q r = None -> rq_Command q <> "transaction.reconcile" ->
  let m := rs_Evidence r in
  evidenceBindingError q m (transactionOperation (rq_Command q)) = None
  /\ (rq_Command q = "transaction.validate_candidate" -> at_key m "candidate_valid" = "true")
  /\ (rq_Command q = "transaction.rollback" -> at_key m "rollback" = "true")
  /\ (rq_Command q = "transaction.clear_boot_guard" -> at_key m "boot_guard" = "cleared" /\ matches m (activeBinding q "clear-boot-guard") = true)
  /\ (rq_Command q = "transaction.commit_prepared" -> rs_SemanticState r = "adapter_activated" /\ rs_Committed r = false /\ rs_RollbackCapable r = true)
  /\ (rq_Command q = "transaction.finalize_commit" -> rs_SemanticState r = "committed" /\ rs_Committed r = true).
Proof.
  unfold transactionRefusal. cbv zeta. intros H Hc. unfold skippedReconcile in H. rewrite (proj2 (String.eqb_neq _ _) Hc) in H. cbn [andb] in H.
  apply firstRefusal_cons in H as [EB H]. split; [exact EB|].
  do 6 (let E := fresh "E" in apply firstRefusal_cons in H as [E H]; apply refuse_if_None in E). clear H EB.
  split_and!; intros HC; rewrite HC in *; cbn [andb String.eqb Ascii.eqb Bool.eqb] in *; unfold yes in *; bool_split; str_eq; done.
Qed.

(** The binding of an answer's evidence. *)
Lemma bound_evidence command s id r : transactionRefusal (transactionRequest command s id) r = None ->
  (rq_Command (transactionRequest command s id), command) ∈ transactionOperations -> command <> "reconcile" -> forall k v,
  (k, v) ∈ bindingFields (se_Tx s) -> answeredEvidence r !! k = Some (EvString v).
Proof.
  intros HR HL Hc k v HI. pose proof (listed_operation _ _ HL) as [HO HC]. apply refusal_checks in HR as [HB _]; [|intros E; by apply Hc, HC].
  rewrite HO in HB. pose proof (bindingError_None _ _ HB) as HE. unfold bindingOf in HE. cbn [transactionRequest rq_Generation rq_TransactionID rq_RevisionID
    rq_CandidateHash rq_ArtifactManifestHash] in HE.
  unfold bindingFields in HI. repeat (apply elem_of_cons in HI as [[= -> ->]|HI]; [rewrite answered_text by done; erewrite HE; [reflexivity|apply elem_of_app; left; in_list]|]).
  by apply elem_of_nil in HI.
Qed.
Lemma answer_bound command s id r : rs_Accepted r = true -> transactionRefusal (transactionRequest command s id) r = None ->
  (rq_Command (transactionRequest command s id), command) ∈ transactionOperations -> command <> "reconcile" ->
  ValidateBinding (stepOfAnswer command (r, None)) command (se_Tx s) = true.
Proof.
  intros HA HR HL Hc. pose proof (bound_evidence _ _ _ _ HR HL Hc) as HE. unfold ValidateBinding. cbn [stepOfAnswer sr_OK sr_Status sr_Operation sr_ProtocolVersion].
  rewrite HA, !String.eqb_refl. cbn [negb orb]. rewrite andb_false_r. cbv zeta.
  change (negb (AdapterProtocolVersion =? 0)) with true. change (negb (AdapterProtocolVersion =? AdapterProtocolVersion)) with false. cbn [andb orb]. apply forallb_forall. intros [k v] HI.
  apply list_elem_of_In, HE in HI. unfold bindingField. cbn [stepOfAnswer sr_Evidence fst snd]. rewrite HI. apply String.eqb_refl.
Qed.
Lemma evidence_text command answer key v : key <> "committed" -> key <> "rollback_capable" -> at_key (rs_Evidence answer) key = v ->
  evidenceString (stepOfAnswer command (answer, None)) key = v.
Proof.
  intros H1 H2 HK. unfold evidenceString. cbn [stepOfAnswer sr_Evidence]. rewrite answered_text by done. unfold at_key in HK.
  destruct (rs_Evidence answer !! key); cbn in *; congruence.
Qed.

Section Adapter.
Context (e : AdapterExecutor) {K : Type}.
Context (run : string -> list string -> K -> K * Output) (lstat : string -> io K (bool * bool)) (readFile : string -> io K string).
Lemma Execute_transaction q k : ValidateRequest q = None -> (exists operation, (rq_Command q, operation) ∈ transactionOperations) ->
  rs_Accepted (Execute e run lstat readFile q k).2 = true -> exists verb o, (Execute e run lstat readFile q k).2 = judgeTransaction q verb o.
Proof.
  intros HV [operation Hc]. unfold Execute. cbv zeta. rewrite HV. destruct (validatePaths e) as [[]|]; [|done].
  assert (HP : S.HasPrefix (rq_Command q) "transaction." = true)
    by (clear -Hc; repeat (apply elem_of_cons in Hc as [[= -> _]|Hc]; [done|]); by apply elem_of_nil in Hc).
  rewrite HP. unfold executeTransaction. destruct (transactionVerb _) as [verb|]; [|done]. destruct (adapter e run verb _ k) as [k' o]. intros _. by exists verb, o.
Qed.

(** A conversation whose answers are the helper's answers to that very request. *)
Definition honest (converse : Request -> K -> K * conversation) : Prop :=
  forall q k k' r trailing, converse q k = (k', Answered r trailing) -> exists k0, r = (serveRequest e run lstat readFile q k0).2.

Context (a : OpenWrt) (sha256Hex : string -> string) (randomHex : Z -> io K string) (lstatCapability : string -> io K (bool * Z)) (readCapability : string -> io K string).
Context (converse : Request -> K -> K * conversation) (runCombined : string -> list string -> K -> K * (string * option string)).
Hypothesis converse_honest : honest converse.
Hypothesis helper_used : ow_helperSocket a <> "".
Definition step := runTransaction a sha256Hex randomHex lstatCapability readCapability converse runCombined.

Lemma Call_accepted q k k' r : Call converse (ow_helperSocket a) q k = (k', (r, None)) ->
  ValidateRequest q = None /\ rs_Accepted r = true /\ exists k0, r = (Execute e run lstat readFile q k0).2.
Proof.
  unfold Call. destruct (_ || _ || _); [done|]. destruct (ValidateRequest q) eqn:HV; [done|]. destruct (converse q k) as [k1 [?|?|?|r1 trailing]] eqn:EC; try done.
  unfold checkAnswer. destruct trailing as [[]|]; try done. destruct (negb (sameEnvelope _ _)); [done|]. destruct (negb (rs_Accepted r1)) eqn:EA; [done|].
  intros [= <- <-]. apply negb_false_iff in EA. split_and!; try done. apply converse_honest in EC as [k0 ->]. exists k0.
  f_equal. apply serveRequest_valid; [|done]. by apply ValidateRequest_version.
Qed.
Lemma stepOfAnswer_OK command answer : sr_OK (stepOfAnswer command answer) = true -> answer.2 = None /\ stepOfAnswer command answer = stepOfAnswer command (answer.1, None).
Proof. destruct answer as [r [err|]]; [done|]. by split. Qed.
Lemma askHelper_OK name command q (k : K) : sr_OK (askHelper a randomHex converse name command q k).2 = true ->
  exists id r k0, ValidateRequest (q id) = None /\ rs_Accepted r = true /\ r = (Execute e run lstat readFile (q id) k0).2
  /\ (askHelper a randomHex converse name command q k).2 = stepOfAnswer command (r, None).
Proof.
  unfold askHelper. destruct (randomHex 8 k) as [k1 [id|]]; [|done]. unfold executeHelperRequest.
  destruct (Call converse _ _ k1) as [k2 [r error]] eqn:EC. cbn [snd]. intros [He Es]%stepOfAnswer_OK. cbn in He. subst error.
  apply Call_accepted in EC as (HV & HA & k0 & HE). by exists ("req_" +:+ id), r, k0.
Qed.
Lemma step_OK command s (k : K) : sr_OK (step command s k).2 = true ->
  allowedTransactionCommand command = true /\ exists id r k0, ValidateRequest (transactionRequest command s id) = None /\ rs_Accepted r = true
  /\ r = (Execute e run lstat readFile (transactionRequest command s id) k0).2 /\ (step command s k).2 = stepOfAnswer command (r, None).
Proof.
  unfold step, runTransaction. cbv zeta. destruct (allowedTransactionCommand command); [|done]. cbn [negb]. destruct (validateTransaction _ _); [|done].
  rewrite (proj2 (String.eqb_neq _ _) helper_used). cbn [negb].
  match goal with |- context [match ?m k with _ => _ end] => destruct (m k) as [k1 [[]|]]; [|done] end. intros H. split; [done|]. by apply askHelper_OK.
Qed.
Lemma step_answer command s (k : K) : sr_OK (step command s k).2 = true -> exists id r,
  let q := transactionRequest command s id in
  (step command s k).2 = stepOfAnswer command (r, None) /\ rs_Accepted r = true /\ (rq_Command q, command) ∈ transactionOperations /\ transactionRefusal q r = None.
Proof.
  intros (HA & id & r & k0 & HV & Hr & HE & HS)%step_OK. exists id, r. cbv zeta. pose proof (request_listed command s id HA HV) as HL.
  assert (HJ : rs_Accepted (Execute e run lstat readFile (transactionRequest command s id) k0).2 = true) by (by rewrite <- HE).
  apply Execute_transaction in HJ as (verb & o & HJ); [|done|by exists command]. rewrite HJ in HE. split_and!; try done.
  rewrite HE. apply judgeTransaction_accepted; [by rewrite <- HE|]. intros HC. apply listed_operation in HL as [_ HL]. by apply (not_reconcile command HA), HL.
Qed.

(** C10: A step the OpenWrt adapter reports as done through an honest helper was
    proved by the router's adapter for this very transaction: the binding matches,
    a validated candidate is deployable, a prepared commit is activated with its
    rollback retained, a finalized one is committed, and a boot guard was cleared for
    the active deployment. *)
Theorem done_step_was_proved command s (k : K) :
  sr_OK (step command s k).2 = true ->
  let result := (step command s k).2 in let tx := se_Tx s in
  ValidateBinding result command tx = true
  /\ (command = "validate-candidate" -> evidenceString result "candidate_valid" = "true")
  /\ (command = "commit-prepared" -> ValidatePreparedCommit result tx = true)
  /\ (command = "finalize-commit" -> ValidateFinalizedCommit result tx = true)
  /\ (command = "clear-boot-guard" -> evidenceString result "boot_guard" = "cleared"
      /\ activeMatches result (tx_ID tx) (tx_RevisionID tx) (tx_CandidateHash tx) (tx_ArtifactManifestHash tx) = true).
Proof.
  intros HOK. pose proof (not_reconcile _ (proj1 (step_OK _ _ _ HOK))) as Hc. apply step_answer in HOK as (id & r & -> & HA & HL & HR). cbv zeta.
  pose proof (answer_bound _ _ _ _ HA HR HL Hc) as HB. split; [done|].
  assert (HQ : rq_Command (transactionRequest command s id) <> "transaction.reconcile") by (intros E; by apply Hc, (listed_operation _ _ HL)).
  pose proof (refusal_checks _ _ HR HQ) as (_ & HV & _ & HG & HP & HF). split_and!; intros ->.
  - by apply evidence_text; [done..|apply HV].
  - unfold ValidatePreparedCommit. rewrite HB. destruct (HP eq_refl) as (E1 & E2 & E3). cbn [negb stepOfAnswer sr_Committed sr_SemanticState sr_Evidence].
    rewrite E1, E2. cbn [orb negb String.eqb Ascii.eqb Bool.eqb]. unfold answeredEvidence. by rewrite lookup_insert_eq.
  - unfold ValidateFinalizedCommit. rewrite HB. destruct (HF eq_refl) as (E1 & E2). cbn [negb stepOfAnswer sr_Committed sr_SemanticState]. by rewrite E1, E2.
  - destruct (HG eq_refl) as (E1 & E2). split; [by apply evidence_text|]. unfold activeMatches. rewrite (ValidateBinding_stepOK _ _ _ HB).
    cbn [matches activeBinding forallb fst snd] in E2. bool_split. str_eq.
    repeat (erewrite (evidence_text "clear-boot-guard" r) by (done || eassumption)). by rewrite !String.eqb_refl.
Qed.

(** A rollback that succeeded is never confirmed: its proof is the text [true], where
    the engine's check asks for a boolean. *)
Lemma helper_rollback_is_refused s (k : K) : ValidateRollback (step "rollback" s k).2 (se_Tx s) = false.
Proof.
  destruct (sr_OK (step "rollback" s k).2) eqn:HOK; [|unfold ValidateRollback, ValidateBinding; by rewrite HOK].
  apply step_answer in HOK as (id & r & -> & HA & HL & HR). apply refusal_checks in HR as (_ & _ & HR & _); [|done]. specialize (HR eq_refl).
  unfold ValidateRollback. destruct (negb (ValidateBinding _ _ _)); [done|]. cbn [stepOfAnswer sr_Evidence]. rewrite answered_text by done.
  unfold at_key in HR. by destruct (rs_Evidence r !! "rollback").
Qed.
(** Nor is a busy adapter seen as busy. *)
Lemma helper_busy_is_not_seen target (k : K) b :
  sr_Evidence (Reconcile a randomHex converse runCombined target k).2 !! "adapter_busy" <> Some (EvBool b).
Proof.
  unfold Reconcile. destruct (validateRecoveryTarget target); [|done]. rewrite (proj2 (String.eqb_neq _ _) helper_used). cbn [negb]. unfold askHelper.
  destruct (randomHex 8 k) as [k1 [id|]]; [|done]. unfold executeHelperRequest. destruct (Call _ _ _ k1) as [k2 [r error]]. cbn [snd stepOfAnswer sr_Evidence].
  rewrite answered_text by done. by destruct (rs_Evidence r !! "adapter_busy").
Qed.
(** Two operations of the interface the helper does not list. *)
Lemma helper_refuses_unlisted s (k : K) :
  sr_OK (step "commit" s k).2 = false /\ sr_OK (ClearBootGuard a randomHex converse runCombined k).2 = false.
Proof.
  split.
  - destruct (sr_OK _) eqn:E; [|done]. apply step_answer in E as (id & r & _ & _ & HL & _). apply listed_operation in HL as [HL _]. done.
  - destruct (sr_OK _) eqn:E; [|done]. unfold ClearBootGuard, runGlobal in E. change (negb (allowedGlobalCommand "clear-boot-guard")) with false in E. cbv iota in E.
    rewrite (proj2 (String.eqb_neq _ _) helper_used) in E. cbn [negb] in E.
    apply askHelper_OK in E as (id & r & k0 & (_ & _ & _ & _ & HV)%validated & _). vm_compute in HV. done.
Qed.
End Adapter.

(** ** The server *)

(** C11: Whatever bytes a client sends, the helper starts only owned commands: the
    adapter script with one of its verbs, the configuration file and single safe words,
    or an allowlisted service with a fixed action.  A peer other than the configured
    unprivileged user is turned away with nothing started, and so is a request that is
    not valid. *)
Theorem helper_runs_owned_commands {K} (I : K -> Prop) e run lstat readFile peer expected input :
  (forall program arguments, owned e program arguments -> keeps I (run program arguments)) ->
  (forall path, keeps I (lstat path)) -> (forall path, keeps I (readFile path)) ->
  keeps I (serveConnection e run lstat readFile peer expected input)
  /\ ((forall uid, peer = Some uid -> 0 < uid -> uid <> expected) ->
      forall k, serveConnection e run lstat readFile peer expected input k = (k, plainRejection "peer_rejected" "helper peer credentials rejected"))
  /\ (forall q, readRequest input = Ok q -> ValidateRequest q <> None ->
      forall k, (serveConnection e run lstat readFile peer expected input k).1 = k /\ rs_Accepted (serveConnection e run lstat readFile peer expected input k).2 = false).
Proof.
  intros HR HL HF. split_and!.
  - intros k HI. unfold serveConnection. destruct peer as [uid|]; [|done]. destruct (ValidatePeerUID uid expected); [done|].
    destruct (readRequest input) as [q|]; [|done]. by apply serveRequest_keeps.
  - intros HP k. unfold serveConnection. destruct peer as [uid|]; [|done]. specialize (HP uid eq_refl). unfold ValidatePeerUID.
    destruct (uid <=? 0) eqn:E1; [done|]. apply Z.leb_gt in E1. specialize (HP E1). rewrite (proj2 (Z.eqb_neq _ _) HP). by rewrite orb_true_r.
  - intros q HQ HV k. unfold serveConnection. destruct peer as [uid|]; [|done]. destruct (ValidatePeerUID uid expected); [done|].
    rewrite HQ. unfold serveRequest. by destruct (ValidateRequest q).
Qed.

(** The helper behind its socket, for the user [uid]. *)
Definition overSocket {K} e (run : string -> list string -> K -> K * Output) lstat readFile (uid : Z) (q : Request) : K -> K * conversation := fun k =>
  let '(k, r) := serveConnection e run lstat readFile (Some uid) uid (wireText q) k in (k, Answered r None).
Definition helperSocket : string := "/var/run/router-policy/helper.sock".
(** C12: A request the client sends is read back unchanged by the helper, which executes
    exactly this request; the client takes the answer for the answer to it, and takes
    it for a success exactly when the helper accepted it. *)
Theorem request_reaches_the_helper {K} e run lstat readFile uid q (k : K) :
  0 < uid -> ValidateRequest q = None -> asIs q = true -> (String.length (wireText q) <= requestLimit)%nat ->
  readRequest (wireText q) = Ok q
  /\ Call (overSocket e run lstat readFile uid) helperSocket q k =
     (let '(k', r) := Execute e run lstat readFile q k in
      (k', (r, if rs_Accepted r then None else Some ("helper operation rejected: " +:+ rs_ErrorCode r)))).
Proof.
  intros Hu HV HA HL. pose proof (ValidateRequest_version q HV) as Hv. pose proof (readRequest_wire q Hv HA HL) as HR. split; [done|].
  unfold Call. change (_ || _ || _) with false. cbv iota. rewrite HV. unfold overSocket, serveConnection, ValidatePeerUID.
  rewrite (proj2 (Z.leb_gt _ _) Hu), Z.eqb_refl. cbn [orb negb]. rewrite HR, serveRequest_valid by done.
  pose proof (Execute_same q Hv e run lstat readFile k) as HE. destruct (Execute e run lstat readFile q k) as [k' r]. cbn [snd] in HE.
  unfold checkAnswer. rewrite HE. cbn [negb]. by destruct (rs_Accepted r).
Qed.

(** ** Examples *)

Module HelperExamples.
Definition digest : string := "sha256:0123456789abcdef0123456789abcdef0123456789abcdef0123456789abcdef".
Definition executor : AdapterExecutor := mkExecutor "/usr/libexec/router-policy/adapter.sh" "/etc/router-policy/default.json" "".
(** A script that reports what it was asked, with a line for the verb, and a record of
    what was started. *)
Definition lines (l : list string) : string := S.Join l (String linefeed EmptyString).
Definition say (key value : string) : string := key +:+ "=" +:+ value.
Definition verdict (verb : string) : list string :=
  if verb =s "finalize-commit" then [say "committed" "true"; say "transaction_state" "committed"]
  else if verb =s "rollback" then [say "rollback" "true"; say "transaction_state" "rolled_back"] else [].
Definition report (arguments : list string) : string :=
  match arguments with
  | [verb; _; tx; revision; candidate; manifest] => lines ([say "operation" verb; say "generation" revision; say "transaction_id" tx; say "revision_id" revision;
      say "candidate_hash" candidate; say "artifact_manifest_hash" manifest; say "rollback_token_hash" digest] ++ verdict verb)
  | _ => ""
  end.
Definition log := list (string * list string).
Definition run (program : string) (arguments : list string) : log -> log * Output := fun k => ((program, arguments) :: k, mkOutput (report arguments) Succeeded).
Definition lstat (path : string) : io log (bool * bool) := fun k => (k, Ok (true, false)).
Definition noFile (path : string) : io log string := fun k => (k, Err "no such file").

Definition sealed : Sealed :=
  let dir := "/var/lib/router-policy/transactions/rev_7_0123456789ab/tx_0123456789abcdef/" in
  mkSealed (mkTransaction "tx_0123456789abcdef" "rev_7_0123456789ab" "chg_0123456789abcdef" 6 7 digest (dir +:+ "candidate.json") digest true "" false second (10 * minute))
    digest (dir +:+ "generated") (dir +:+ "rollback.cap") (dir +:+ "binding.env").
Definition openwrt : OpenWrt := mkOpenWrt "/usr/libexec/router-policy/adapter.sh" "/etc/router-policy/default.json" "/var/lib/router-policy" helperSocket.
Definition sha256Hex (token : string) : string := String.substring 7 64 digest.
Definition randomHex (n : Z) : io log string := fun k => (k, Ok "00112233").
Definition capability (path : string) : io log (bool * Z) := fun k => (k, Ok (true, 384)).
Definition token (path : string) : io log string := fun k => (k, Ok "secret").
Definition converse : Request -> log -> log * conversation := overSocket executor run lstat noFile 1000.
Definition runCombined (program : string) (arguments : list string) : log -> log * (string * option string) := fun k => (k, (report arguments, None)).
Definition do (command : string) : log -> log * StepResult := step openwrt sha256Hex randomHex capability token converse runCombined command sealed.
Definition request : Request := transactionRequest "finalize-commit" sealed "req_00112233".
Definition started : log :=
  [("/usr/libexec/router-policy/adapter.sh", ["finalize-commit"; "/etc/router-policy/default.json"; "tx_0123456789abcdef"; "rev_7_0123456789ab"; digest; digest])].

(** A client that hands its request to the helper as it is. *)
Definition direct (q : Request) : log -> log * conversation := fun k => let '(k, r) := serveRequest executor run lstat noFile q k in (k, Answered r None).
Lemma direct_honest : honest executor run lstat noFile direct.
Proof.
  intros q k k' r trailing. unfold direct. destruct (serveRequest executor run lstat noFile q k) as [k1 r1] eqn:E. intros [= <- <- <-]. exists k. by rewrite E.
Qed.

Lemma helper_runs_owned_commands_witness :
  let I (k : log) := Forall (fun p => owned executor p.1 p.2) k in
  I (serveConnection executor run lstat noFile (Some 1000) 1000 (wireText request) []).1
  /\ (serveConnection executor run lstat noFile (Some 1000) 1000 (wireText request) []).1 = started
  /\ serveConnection executor run lstat noFile (Some 0) 1000 (wireText request) [] = ([], plainRejection "peer_rejected" "helper peer credentials rejected").
Proof.
  cbv zeta. split_and!.
  - apply (helper_runs_owned_commands (fun k : log => Forall (fun p => owned executor p.1 p.2) k) executor run lstat noFile (Some 1000) 1000 (wireText request)).
    + intros program arguments HO k HI. by apply List.Forall_cons.
    + by intros path k HI.
    + by intros path k HI.
    + apply List.Forall_nil.
  - vm_compute. reflexivity.
  - apply (helper_runs_owned_commands (fun _ : log => True) executor run lstat noFile (Some 0) 1000 (wireText request)); [done..|]. intros uid [= <-] ?. lia.
Defined.
Lemma request_reaches_the_helper_witness :
  Call (overSocket executor run lstat noFile 1000) helperSocket request [] =
  (let '(k', r) := Execute executor run lstat noFile request [] in
   (k', (r, if rs_Accepted r then None else Some ("helper operation rejected: " +:+ rs_ErrorCode r))))
  /\ rs_Accepted (Execute executor run lstat noFile request []).2 = true.
Proof.
  split; [|vm_compute; reflexivity]. apply (request_reaches_the_helper executor run lstat noFile 1000 request []).
  - lia.
  - vm_compute. reflexivity.
  - vm_compute. reflexivity.
  - apply Nat.leb_le. vm_compute. reflexivity.
Defined.
Lemma done_step_was_proved_witness :
  let result := (step openwrt sha256Hex randomHex capability token direct runCombined "finalize-commit" sealed []).2 in
  sr_OK result = true /\ ValidateBinding result "finalize-commit" (se_Tx sealed) = true.
Proof.
  cbv zeta. assert (HOK : sr_OK (step openwrt sha256Hex randomHex capability token direct runCombined "finalize-commit" sealed []).2 = true) by (vm_compute; reflexivity).
  split; [exact HOK|].
  exact (proj1 (done_step_was_proved executor run lstat noFile openwrt sha256Hex randomHex capability token direct runCombined direct_honest ltac:(done) "finalize-commit" sealed [] HOK)).
Defined.
(** An apply is accepted though the evidence names a rollback. *)
Definition assignment : Request :=
  mkRequest 1 "req_1" "route_assignment.apply" "rev_7" "rev_7" "route-assignment" "" digest digest None None None None None None None
    (Some (mkAssignmentRequest "apply" "example.org" "vpn" "vless" "set_1" "as_1" digest)).
Definition assignmentReport : string := lines [say "operation" "route_assignment.rollback"; say "generation" "rev_7"; say "transaction_id" "route-assignment";
  say "revision_id" "rev_7"; say "candidate_hash" digest; say "artifact_manifest_hash" digest; say "domain" "example.org"; say "route_tag" "vpn";
  say "route_type" "vless"; say "route_set_id" "set_1"; say "assignment_id" "as_1"; say "mapping_hash" digest; say "applied" "true"; say "verified" "true"].
Example assignment_operation_unchecked :
  let r := (Execute executor (fun _ _ (k : log) => (k, mkOutput assignmentReport Succeeded)) lstat noFile assignment []).2 in
  rs_Accepted r = true /\ rs_Operation r = "route_assignment.rollback".
Proof. vm_compute. done. Qed.
(** The same rollback: done through the helper yet refused by the engine's check,
    confirmed when the script is run directly. *)
Example rollback_through_helper :
  let result := (do "rollback" []).2 in sr_OK result = true /\ sr_SemanticState result = "rolled_back" /\ ValidateRollback result (se_Tx sealed) = false.
Proof. vm_compute. done. Qed.
Example rollback_directly :
  let a := mkOpenWrt (ow_helperPath openwrt) (ow_configPath openwrt) (ow_stateDir openwrt) "" in
  ValidateRollback (step a sha256Hex randomHex capability token converse runCombined "rollback" sealed []).2 (se_Tx sealed) = true.
Proof. vm_compute. done. Qed.
End HelperExamples.
