(* ===== verification/Transaction.v ===== *)
(** * The transaction engine

    [internal/api/transaction.go] and [internal/api/recovery.go]: how a validated
    change set is applied, confirmed or rolled back, and how a restart recovers.
    The server's memory, its documents in the store, the rollback capabilities on
    disk and a log of what was asked of the adapter and saved form a [World];
    a handler is a computation [Run] over it that may return early.  Everything
    outside (the clock, the adapter's answers, which calls of the store fail, the
    candidate file, the artifact manifest) is read from an [Env], by the number of
    the call.  Human-readable messages, events for the user interface and the
    locks are left out: every handler below runs under [transactionMu] or on its
    own change set only, and is one step of the model. *)
From Stdlib Require Import ZArith Lia.
From stdpp Require Import base list strings gmap sorting pretty.
From S2P Require Import Prelude Interfaces Json Candidate Adapter.

Open Scope Z_scope.

(** ** Records *)

Record actionFailure := mkFailure { af_Status : Z; af_Code : string }.

Definition conflict (code : string) : actionFailure := mkFailure 409 code.
Definition internalFailure : actionFailure := mkFailure 500 "state_store_failed".

Record ChangeSet := mkChange {
  cs_ID : string;
  cs_State : string;
  cs_BaseVersion : Z;
  cs_Version : Z;
  cs_CandidateVersion : Z;
  cs_CandidateHash : string;
  cs_CandidatePath : string;
  cs_ArtifactManifestHash : string;
  cs_ArtifactsReady : bool;
  cs_ArtifactBlockReason : string;
  cs_ArtifactsSimulation : bool;
  cs_RevisionID : string;
  cs_TransactionID : string;
  cs_AdapterStatus : string;
  cs_CommitPhase : string;
  cs_Noop : bool;
  cs_Operations : list ChangeOp;
  cs_Validation : list Validation;
  cs_Diff : list ChangeOp;
  cs_Steps : list StepResult;
  cs_ManagementVerified : bool;
  cs_DataPlaneVerified : bool;
  cs_UpdatedAt : string;
  cs_ExpiresAt : string
}.

#[export] Instance eta_ChangeSet : Eta ChangeSet := fun c =>
  mkChange (cs_ID c) (cs_State c) (cs_BaseVersion c) (cs_Version c) (cs_CandidateVersion c) (cs_CandidateHash c)
    (cs_CandidatePath c) (cs_ArtifactManifestHash c) (cs_ArtifactsReady c) (cs_ArtifactBlockReason c)
    (cs_ArtifactsSimulation c) (cs_RevisionID c) (cs_TransactionID c) (cs_AdapterStatus c) (cs_CommitPhase c)
    (cs_Noop c) (cs_Operations c) (cs_Validation c) (cs_Diff c) (cs_Steps c) (cs_ManagementVerified c)
    (cs_DataPlaneVerified c) (cs_UpdatedAt c) (cs_ExpiresAt c).
Definition set_cs_State v (c : ChangeSet) : ChangeSet := ltac:(assign c cs_State v).
Definition set_cs_Version v (c : ChangeSet) : ChangeSet := ltac:(assign c cs_Version v).
Definition set_cs_CandidateVersion v (c : ChangeSet) : ChangeSet := ltac:(assign c cs_CandidateVersion v).
Definition set_cs_CandidateHash v (c : ChangeSet) : ChangeSet := ltac:(assign c cs_CandidateHash v).
Definition set_cs_CandidatePath v (c : ChangeSet) : ChangeSet := ltac:(assign c cs_CandidatePath v).
Definition set_cs_ArtifactManifestHash v (c : ChangeSet) : ChangeSet := ltac:(assign c cs_ArtifactManifestHash v).
Definition set_cs_ArtifactsReady v (c : ChangeSet) : ChangeSet := ltac:(assign c cs_ArtifactsReady v).
Definition set_cs_ArtifactBlockReason v (c : ChangeSet) : ChangeSet := ltac:(assign c cs_ArtifactBlockReason v).
Definition set_cs_ArtifactsSimulation v (c : ChangeSet) : ChangeSet := ltac:(assign c cs_ArtifactsSimulation v).
Definition set_cs_RevisionID v (c : ChangeSet) : ChangeSet := ltac:(assign c cs_RevisionID v).
Definition set_cs_TransactionID v (c : ChangeSet) : ChangeSet := ltac:(assign c cs_TransactionID v).
Definition set_cs_AdapterStatus v (c : ChangeSet) : ChangeSet := ltac:(assign c cs_AdapterStatus v).
Definition set_cs_CommitPhase v (c : ChangeSet) : ChangeSet := ltac:(assign c cs_CommitPhase v).
Definition set_cs_Noop v (c : ChangeSet) : ChangeSet := ltac:(assign c cs_Noop v).
Definition set_cs_Operations v (c : ChangeSet) : ChangeSet := ltac:(assign c cs_Operations v).
Definition set_cs_Validation v (c : ChangeSet) : ChangeSet := ltac:(assign c cs_Validation v).
Definition set_cs_Diff v (c : ChangeSet) : ChangeSet := ltac:(assign c cs_Diff v).
Definition set_cs_Steps v (c : ChangeSet) : ChangeSet := ltac:(assign c cs_Steps v).
Definition set_cs_ManagementVerified v (c : ChangeSet) : ChangeSet := ltac:(assign c cs_ManagementVerified v).
Definition set_cs_DataPlaneVerified v (c : ChangeSet) : ChangeSet := ltac:(assign c cs_DataPlaneVerified v).
Definition set_cs_UpdatedAt v (c : ChangeSet) : ChangeSet := ltac:(assign c cs_UpdatedAt v).
Definition set_cs_ExpiresAt v (c : ChangeSet) : ChangeSet := ltac:(assign c cs_ExpiresAt v).

(** The change set [createDraftChange] makes. *)
Definition mkDraft (id : string) (baseVersion : Z) (operations : list ChangeOp) (now : string) : ChangeSet :=
  mkChange id "draft" baseVersion 1 0 "" "" "" false "" false "" "" "" "" false operations [] [] [] false false now "".

Definition addStep (r : StepResult) (c : ChangeSet) : ChangeSet := set_cs_Steps (cs_Steps c ++ [r]) c.
Definition addValidation (v : Validation) (c : ChangeSet) : ChangeSet := set_cs_Validation (cs_Validation c ++ [v]) c.

Record transactionRecord := mkTxRecord {
  tr_Transaction : Transaction;
  tr_State : string;
  tr_CommitPhase : string;
  tr_Steps : list StepResult;
  tr_UpdatedAt : time;
  tr_CompletedAt : option time
}.

Record revisionRecord := mkRevision {
  rv_RevisionID : string;
  rv_Kind : string;
  rv_ChangeID : string;
  rv_TransactionID : string;
  rv_BaseVersion : Z;
  rv_Version : Z;
  rv_CandidateHash : string;
  rv_ArtifactManifestHash : string;
  rv_State : string;
  rv_CreatedAt : time;
  rv_CommittedAt : option time
}.

Record recoveryStatus := mkRecovery {
  rs_Status : string;
  rs_ReasonCode : string;
  rs_Target : RecoveryTarget;
  rs_CommitPhase : string
}.
#[export] Instance recoveryStatus_eq : EqDecision recoveryStatus.
Proof. solve_decision. Defined.
Definition zero_Target : RecoveryTarget := mkTarget "" "" "" "".
Definition zero_Recovery : recoveryStatus := mkRecovery "" "" zero_Target "".

(** ** Predicates *)

Definition isTerminalState (value : string) : bool :=
  containsString ["committed"; "rolled_back"; "failed"; "rollback_failed"; "expired"; "requires_device"] value.

(** The states [activeTransaction] and [recoverTransactions] look for. *)
Definition inFlight (state : string) : bool :=
  containsString ["prepared"; "applying"; "verifying"; "awaiting_confirmation"; "committing"; "rolling_back"] state.

(** [None] for nil. *)
Definition validateTransactionBinding (cs : ChangeSet) (tx : Transaction) : option actionFailure :=
  if (tx_ID tx =s "") || (tx_RevisionID tx =s "") || (tx_ID tx <>s cs_TransactionID cs)
     || (tx_RevisionID tx <>s cs_RevisionID cs) || (tx_ChangeID tx <>s cs_ID cs)
  then Some (conflict "transaction_binding_mismatch")
  else if (tx_RevisionID tx =s "rev-manual") || (tx_CandidateHash tx <>s cs_CandidateHash cs)
     || (tx_CandidatePath tx <>s cs_CandidatePath cs) || (tx_ArtifactManifestHash tx <>s cs_ArtifactManifestHash cs)
     || negb (Bool.eqb (tx_ArtifactsReady tx) (cs_ArtifactsReady cs))
     || (tx_ArtifactBlockReason tx <>s cs_ArtifactBlockReason cs)
     || negb (Bool.eqb (tx_ArtifactsSimulation tx) (cs_ArtifactsSimulation cs))
  then Some (conflict "transaction_binding_mismatch")
  else None.

Definition safePathComponent (value : string) : bool :=
  negb (S.is_empty value) &&
  S.all_bytes (fun c => S.lower_letter c || S.upper_letter c || S.digit c || S.is_byte 95 c || S.is_byte 45 c) value.

Definition recoveryStatusAllowsMutation (st : recoveryStatus) : bool :=
  if rs_Status st =s "ok" then true
  else if rs_Status st =s "not_required" then
    (rs_CommitPhase st =s "baseline_confirmed") && (rt_RevisionID (rs_Target st) <>s "")
    && (rt_CandidateHash (rs_Target st) <>s "")
  else false.

Definition mutationFailure (st : recoveryStatus) : option actionFailure :=
  if recoveryStatusAllowsMutation st then None
  else Some (mkFailure 503 (if rs_Status st =s "recovery_required" then "recovery_required" else "recovery_not_safe")).

Definition failedRecovery (code : string) (target : RecoveryTarget) : recoveryStatus :=
  mkRecovery "error" code target "".
Definition recoveryRequired (code : string) (target : RecoveryTarget) (phase : string) : recoveryStatus :=
  mkRecovery "recovery_required" code target phase.

(** What the adapter is asked for. *)
Inductive operation : Type :=
| Prepare (tx : Transaction)
| ValidateCandidate (tx : Transaction)
| SnapshotCurrent (tx : Transaction)
| ApplyCandidate (tx : Transaction)
| VerifyManagementPath (tx : Transaction)
| VerifyDataPlane (tx : Transaction)
| Commit (tx : Transaction)
| CommitPrepared (tx : Transaction)
| FinalizeCommit (tx : Transaction)
| Rollback (tx : Transaction)
| Reconcile (target : RecoveryTarget)
| Status
| ClearBootGuardForTransaction (tx : Transaction)
| ClearBootGuard
| ClearBootGuardForBaseline (revision hash : string).

(** The optional interface for the boot guard an adapter implements. *)
Inductive guard : Type := NoGuard | UnboundGuard | BoundGuard.

(** What happened, in order. *)
Inductive event : Type :=
| Asked (op : operation) (r : StepResult)
| Saved (id state : string).

(** The manifest of the generated artifacts. *)
Record Manifest := mkManifest {
  mf_DeploymentReady : bool; mf_BlockReason : string; mf_Simulation : bool; mf_Warnings : list string
}.

(** ** State

    [Cfg] is [config.Config], of which the engine only uses the canonical JSON and
    the validity. *)
Section Engine.
Context {Cfg : Type}.

Record candidateRecord := mkCandidate {
  cr_Hash : string;
  cr_ArtifactManifestHash : string;
  cr_ArtifactsReady : bool;
  cr_ArtifactBlockReason : string;
  cr_ArtifactsSimulation : bool;
  cr_Config : Cfg
}.

(** The documents of the store the engine reads and writes. *)
Record Documents := mkDocs {
  dc_active_config : option Cfg;
  dc_active_revision : option string;
  dc_config_version : option Z;
  dc_recovery_status : option recoveryStatus;
  dc_cleanup : option (string * bool);
  dc_revisions : gmap string revisionRecord;
  dc_transactions : gmap string transactionRecord;
  dc_candidates : gmap string candidateRecord;
  dc_changes : gmap string ChangeSet
}.

(** An entry of a batch, by its bucket. *)
Inductive entry : Type :=
| EActiveConfig (c : Cfg)
| EActiveRevision (r : string)
| EConfigVersion (v : Z)
| ERecoveryStatus (st : recoveryStatus)
| ECleanup (transaction : string) (complete : bool)
| ERevision (id : string) (r : revisionRecord)
| ETransaction (id : string) (t : transactionRecord)
| ECandidate (id : string) (c : candidateRecord)
| EChange (id : string) (cs : ChangeSet).

Definition applyEntry (d : Documents) (e : entry) : Documents :=
  let '(mkDocs cfg rev ver rec cl revs txs cands chs) := d in
  match e with
  | EActiveConfig c => mkDocs (Some c) rev ver rec cl revs txs cands chs
  | EActiveRevision r => mkDocs cfg (Some r) ver rec cl revs txs cands chs
  | EConfigVersion v => mkDocs cfg rev (Some v) rec cl revs txs cands chs
  | ERecoveryStatus st => mkDocs cfg rev ver (Some st) cl revs txs cands chs
  | ECleanup t complete => mkDocs cfg rev ver rec (Some (t, complete)) revs txs cands chs
  | ERevision id r => mkDocs cfg rev ver rec cl (<[id := r]> revs) txs cands chs
  | ETransaction id t => mkDocs cfg rev ver rec cl revs (<[id := t]> txs) cands chs
  | ECandidate id c => mkDocs cfg rev ver rec cl revs txs (<[id := c]> cands) chs
  | EChange id cs => mkDocs cfg rev ver rec cl revs txs cands (<[id := cs]> chs)
  end.
Definition applyEntries (entries : list entry) (d : Documents) : Documents := foldl applyEntry d entries.

(** The fields of [Server] the engine uses; [timers] holds when each expiry timer
    is due. *)
Record Server := mkServer {
  sv_changes : gmap string ChangeSet;
  sv_activeConfig : Cfg;
  sv_activeRevision : string;
  sv_configVersion : Z;
  sv_recovery : recoveryStatus;
  sv_timers : gmap string time
}.

Record World := mkWorld {
  w_server : Server;
  w_docs : Documents;
  w_caps : gset string;  (* transactions whose rollback capability is on disk *)
  w_log : list event;
  w_tick : nat
}.

#[export] Instance eta_Server : Eta Server := fun s =>
  mkServer (sv_changes s) (sv_activeConfig s) (sv_activeRevision s) (sv_configVersion s) (sv_recovery s) (sv_timers s).
Definition set_sv_changes v (s : Server) : Server := ltac:(assign s sv_changes v).
Definition set_sv_activeConfig v (s : Server) : Server := ltac:(assign s sv_activeConfig v).
Definition set_sv_activeRevision v (s : Server) : Server := ltac:(assign s sv_activeRevision v).
Definition set_sv_configVersion v (s : Server) : Server := ltac:(assign s sv_configVersion v).
Definition set_sv_recovery v (s : Server) : Server := ltac:(assign s sv_recovery v).
Definition set_sv_timers v (s : Server) : Server := ltac:(assign s sv_timers v).
#[export] Instance eta_World : Eta World := fun w => mkWorld (w_server w) (w_docs w) (w_caps w) (w_log w) (w_tick w).
Definition set_w_server v (w : World) : World := ltac:(assign w w_server v).
Definition set_w_docs v (w : World) : World := ltac:(assign w w_docs v).
Definition set_w_caps v (w : World) : World := ltac:(assign w w_caps v).
Definition set_w_log v (w : World) : World := ltac:(assign w w_log v).
Definition set_w_tick v (w : World) : World := ltac:(assign w w_tick v).
Definition tick (w : World) : World := set_w_tick (S (w_tick w)) w.

(** Everything outside, by the number of the call; and the functions of other
    components. *)
Record Env := mkEnv {
  env_now : nat -> time;
  env_answer : nat -> operation -> StepResult;
  env_save : nat -> option string;  (* the error of a write, if any *)
  env_load : nat -> option string;  (* the error of a read, if any *)
  (* [os.ReadFile] and [json.Unmarshal] of the candidate file; [Ok None] for a
     file that does not decode. *)
  env_candidateFile : nat -> Transaction -> result (option Cfg);
  env_verifyArtifact : nat -> Transaction -> result Manifest;
  (* [ReadCapability] of a capability that is on disk. *)
  env_capability : nat -> Transaction -> bool;
  env_retire : nat -> bool;
  env_cleanup : nat -> bool;
  env_managementProof : nat -> Transaction -> option actionFailure;
  env_adaptive : nat -> Cfg -> bool;  (* [buildAdaptiveRuntime] succeeds *)
  env_assignments : nat -> bool;  (* [reconcileRouteAssignments] succeeds *)
  env_smartDNS : nat -> Cfg -> Cfg -> list Validation;
  (* [json.Marshal] of a configuration and [json.Unmarshal] into one, as
     documents; the text of a document. *)
  env_marshal : Cfg -> result json;
  env_unmarshal : json -> result Cfg;
  env_text : json -> string;
  env_hashBytes : string -> string;
  env_baselineID : string -> string;  (* the revision id of a canonical baseline *)
  (* [Config.Validate], which rewrites the configuration: as it is left behind. *)
  env_validate : Cfg -> result Cfg;
  env_format : time -> string;  (* RFC 3339 *)
  env_parse : string -> option time;
  env_split : bool;  (* the adapter is a [PreparedCommitter] *)
  env_guard : guard;
  env_baselineGuard : bool;  (* and a [BaselineBootGuardClearer] *)
  env_development : bool;
  (* What validation asks for: random hexadecimal text; writing the candidate,
     its capability and its binding; the network diagnostics; the artifacts with
     the hash of their manifest; the hash once adaptive profiles are bound. *)
  env_random : nat -> result string;
  env_join : list string -> string;  (* [filepath.Join] *)
  env_stateDir : string;
  env_rollbackTimeout : Z;
  env_writeCandidate : nat -> Transaction -> bool;
  env_persistCapability : nat -> Transaction -> bool;
  env_diagnostics : nat -> Cfg -> bool;
  env_generate : nat -> Transaction -> Cfg -> result (Manifest * string);
  env_bindAdaptive : nat -> Transaction -> Cfg -> result string;
  env_persistBinding : nat -> Transaction -> bool
}.
(** The canonical text of a configuration. *)
Definition env_canonical (env : Env) (c : Cfg) : result string := j ← env_marshal env c; Ok (env_text env j).

(** ** Computations

    A handler computes a value or returns early with the answer of the request. *)
Definition Outcome : Type := ChangeSet * option actionFailure.
Definition Run (A : Type) : Type := World -> (A + Outcome) * World.

#[export] Instance Run_ret : MRet Run := fun A a w => (inl a, w).
#[export] Instance Run_bind : MBind Run := fun A B f m w =>
  match m w with (inl a, w) => f a w | (inr o, w) => (inr o, w) end.

(** [return cs, failure]. *)
Definition return_ {A} (cs : ChangeSet) (failure : option actionFailure) : Run A := fun w => (inr (cs, failure), w).
(** A call of a function that returns [(ChangeSet, *actionFailure)]. *)
Definition invoke (m : Run Outcome) : Run Outcome := fun w =>
  match m w with (inl o, w) => (inl o, w) | (inr o, w) => (inl o, w) end.

Definition getServer : Run Server := fun w => (inl (w_server w), w).
Definition modifyServer (f : Server -> Server) : Run unit := fun w => (inl tt, set_w_server (f (w_server w)) w).

Context (env : Env).

Definition clock : Run time := fun w => (inl (env_now env (w_tick w)), tick w).
(** One call of an outside function. *)
Definition outside {A} (f : nat -> A) : Run A := fun w => (inl (f (w_tick w)), tick w).

Definition ask (op : operation) : Run StepResult := fun w =>
  let r := env_answer env (w_tick w) op in (inl r, set_w_log (w_log w ++ [Asked op r]) (tick w)).

Definition savedEvents (entries : list entry) : list event :=
  omap (fun e => match e with EChange id cs => Some (Saved id (cs_State cs)) | _ => None end) entries.

(** [SaveBatch] and, for one entry, [SaveJSON]: all or nothing. *)
Definition SaveBatch (entries : list entry) : Run (option string) := fun w =>
  match env_save env (w_tick w) with
  | Some e => (inl (Some e), tick w)
  | None => (inl None, set_w_docs (applyEntries entries (w_docs w))
                         (set_w_log (w_log w ++ savedEvents entries) (tick w)))
  end.
Definition SaveJSON (e : entry) : Run (option string) := SaveBatch [e].

Definition LoadJSON {A} (get : Documents -> option A) : Run (A + store_error) := fun w =>
  match env_load env (w_tick w) with
  | Some e => (inl (inr (StoreFailure e)), tick w)
  | None => (inl (match get (w_docs w) with Some a => inl a | None => inr ErrNotFound end), tick w)
  end.

(** The value, or an early return with the failure. *)
Definition orFail {A} (cs : ChangeSet) (m : Run (A + actionFailure)) : Run A :=
  r ← m; match r with inl a => mret a | inr f => return_ cs (Some f) end.
Definition orNil (cs : ChangeSet) (m : Run (option actionFailure)) : Run unit :=
  r ← m; match r with None => mret tt | Some f => return_ cs (Some f) end.

(** ** The recovery fence *)

(** [acquireMutationLease]. *)
Definition acquireMutationLease (cs : ChangeSet) : Run unit :=
  s ← getServer; orNil cs (mret (mutationFailure (sv_recovery s))).

Definition setRecoveryStatusDuringMutation (st : recoveryStatus) : Run unit :=
  _ ← modifyServer (set_sv_recovery st);
  err ← SaveJSON (ERecoveryStatus st);
  match err with
  | None => mret tt
  | Some _ =>
      modifyServer (set_sv_recovery (mkRecovery "recovery_required" "recovery_status_persist_failed" (rs_Target st)
                                       (rs_CommitPhase st)))
  end.

Definition markRecoveryRequired (target : RecoveryTarget) (code phase : string) : Run unit :=
  setRecoveryStatusDuringMutation (recoveryRequired code target phase).

Definition recovery_required : actionFailure := mkFailure 503 "recovery_required".

(** ** Progress *)

Definition setChange (cs : ChangeSet) : Run unit :=
  modifyServer (fun s => set_sv_changes (<[cs_ID cs := cs]> (sv_changes s)) s).
Definition cancelExpiryLocked (id : string) : Run unit :=
  modifyServer (fun s => set_sv_timers (delete id (sv_timers s)) s).

(** [cs.State = next; cs.Version++; cs.UpdatedAt = ...] *)
Definition stamp (next : string) (now : time) (cs : ChangeSet) : ChangeSet :=
  cs |> set_cs_State next |> set_cs_Version (wrap64 (cs_Version cs + 1)) |> set_cs_UpdatedAt (env_format env now).

Definition progressRecord (cs : ChangeSet) (tx : Transaction) (next : string) (now : time) : transactionRecord :=
  mkTxRecord tx next (cs_CommitPhase cs) (cs_Steps cs) now (if isTerminalState next then Some now else None).

(** The change set as the caller sees it afterwards, and the error. *)
Definition saveProgress (cs : ChangeSet) (tx : Transaction) (next : string) : Run (ChangeSet * option string) :=
  match validateTransactionBinding cs tx with
  | Some f => mret (cs, Some (af_Code f))
  | None =>
      updated ← clock;
      let cs := stamp next updated cs in
      now ← clock;
      err ← SaveBatch [ETransaction (tx_ID tx) (progressRecord cs tx next now); EChange (cs_ID cs) cs];
      match err with
      | Some e => mret (cs, Some e)
      | None => _ ← setChange cs; mret (cs, None)
      end
  end.

(** [if err := s.saveProgress(&cs, tx, next); err != nil { return cs, internalFailure(err) }] *)
Definition progress (cs : ChangeSet) (tx : Transaction) (next : string) : Run ChangeSet :=
  '(cs, err) ← saveProgress cs tx next;
  match err with Some _ => return_ cs (Some internalFailure) | None => mret cs end.

(** ** Loading *)

Definition loadTransaction (cs : ChangeSet) : Run (Transaction + actionFailure) :=
  r ← LoadJSON (fun d => dc_transactions d !! cs_TransactionID cs);
  match r with
  | inr _ => mret (inr internalFailure)
  | inl record =>
      match validateTransactionBinding cs (tr_Transaction record) with
      | Some f => mret (inr f)
      | None => mret (inl (tr_Transaction record))
      end
  end.

(** [capabilityMatches]. *)
Definition capabilityMatches (tx : Transaction) : Run bool := fun w =>
  (inl (bool_decide (tx_ID tx ∈ w_caps w) && env_capability env (w_tick w) tx), tick w).

(** [adapter.RetireCapability]: [true] for success. *)
Definition RetireCapability (tx : Transaction) : Run bool := fun w =>
  if env_retire env (w_tick w) then (inl true, set_w_caps (w_caps w ∖ {[tx_ID tx]}) (tick w)) else (inl false, tick w).

(** The readiness of the artifacts as the manifest, the transaction, the candidate
    and the change set tell it. *)
Definition readinessAgrees (m : Manifest) (cs : ChangeSet) (tx : Transaction) (record : candidateRecord) : bool :=
  Bool.eqb (mf_DeploymentReady m) (tx_ArtifactsReady tx) && Bool.eqb (mf_DeploymentReady m) (cr_ArtifactsReady record)
  && Bool.eqb (mf_DeploymentReady m) (cs_ArtifactsReady cs)
  && (mf_BlockReason m =s tx_ArtifactBlockReason tx) && (mf_BlockReason m =s cr_ArtifactBlockReason record)
  && (mf_BlockReason m =s cs_ArtifactBlockReason cs)
  && Bool.eqb (mf_Simulation m) (tx_ArtifactsSimulation tx) && Bool.eqb (mf_Simulation m) (cr_ArtifactsSimulation record)
  && Bool.eqb (mf_Simulation m) (cs_ArtifactsSimulation cs).

(** [hashBytes] of the canonical form; the error of [Marshal] is dropped. *)
Definition fileHash (c : Cfg) : string :=
  env_hashBytes env (match env_canonical env c with Ok raw => raw | Err _ => "" end).

Definition loadVerifiedCandidate (cs : ChangeSet) (tx : Transaction) : Run (Cfg + actionFailure) :=
  r ← LoadJSON (fun d => dc_candidates d !! cs_ID cs);
  match r with
  | inr _ => mret (inr internalFailure)
  | inl record =>
      match env_canonical env (cr_Config record) with
      | Err _ => mret (inr internalFailure)
      | Ok canonical =>
          let hash := env_hashBytes env canonical in
          if (hash <>s cr_Hash record) || (hash <>s cs_CandidateHash cs) || (hash <>s tx_CandidateHash tx)
          then mret (inr (conflict "candidate_hash_mismatch"))
          else if negb (safePathComponent (tx_RevisionID tx)) || negb (safePathComponent (tx_ID tx))
          then mret (inr (conflict "transaction_path_invalid"))
          else
            file ← outside (fun n => env_candidateFile env n tx);
            match file with
            | Err _ => mret (inr internalFailure)
            | Ok None => mret (inr (conflict "candidate_file_invalid"))
            | Ok (Some fileConfig) =>
                if fileHash fileConfig <>s hash then mret (inr (conflict "candidate_file_hash_mismatch"))
                else match env_validate env fileConfig with
                | Err _ => mret (inr (conflict "candidate_invalid"))
                | Ok candidate =>
                    manifest ← outside (fun n => env_verifyArtifact env n tx);
                    match manifest with
                    | Err _ => mret (inr (conflict "artifact_manifest_mismatch"))
                    | Ok manifest =>
                        if (cr_ArtifactManifestHash record <>s tx_ArtifactManifestHash tx)
                           || (cs_ArtifactManifestHash cs <>s tx_ArtifactManifestHash tx)
                        then mret (inr (conflict "artifact_manifest_mismatch"))
                        else if negb (readinessAgrees manifest cs tx record)
                        then mret (inr (conflict "artifact_readiness_mismatch"))
                        else mret (inl candidate)
                    end
                end
            end
      end
  end.

Definition loadVerifiedTransaction (cs : ChangeSet) : Run (Transaction + actionFailure) :=
  r ← loadTransaction cs;
  match r with
  | inr f => mret (inr f)
  | inl tx =>
      c ← loadVerifiedCandidate cs tx;
      match c with
      | inr f => mret (inr f)
      | inl _ =>
          matches ← capabilityMatches tx;
          if (matches : bool) then mret (inl tx) else mret (inr (conflict "rollback_token_invalid"))
      end
  end.

(** ** Rolling back *)

Definition saveCleanupStatus (tx : Transaction) (complete : bool) : Run unit :=
  _ ← SaveJSON (ECleanup (tx_ID tx) complete); mret tt.

Definition rollbackLocked (cs : ChangeSet) (tx : Transaction) (finalState reason : string) : Run Outcome := invoke (
  cs ← progress cs tx "rolling_back";
  result ← ask (Rollback tx);
  let cs := cs |> addStep result |> set_cs_AdapterStatus (sr_Status result) in
  if ((sr_Operation result <>s "") || negb (sr_ProtocolVersion result =? 0)) && negb (ValidateRollback result tx) then
    '(cs, _) ← saveProgress cs tx "rollback_failed";
    _ ← markRecoveryRequired (targetOf tx) "adapter_rollback_ambiguous" (cs_CommitPhase cs);
    return_ cs (Some recovery_required)
  else if negb (stepOK result) then
    cs ← progress cs tx "rollback_failed";
    return_ cs (Some (mkFailure 500 "rollback_failed"))
  else
    let cs := cs |> set_cs_ManagementVerified false |> set_cs_DataPlaneVerified false
                 |> addValidation (mkValidation "info" reason) in
    '(cs, err) ← saveProgress cs tx finalState;
    match err with
    | Some _ =>
        _ ← markRecoveryRequired (targetOf tx) "rollback_state_persist_failed" (cs_CommitPhase cs);
        return_ cs (Some recovery_required)
    | None =>
        _ ← cancelExpiryLocked (cs_ID cs);
        retired ← RetireCapability tx;
        removed ← outside (env_cleanup env);
        cleaned ← outside (env_cleanup env);
        _ ← saveCleanupStatus tx (retired && removed && cleaned);
        return_ cs None
    end).

Definition rollbackChangeSet (cs : ChangeSet) (expired : bool) : Run Outcome := invoke (
  _ ← acquireMutationLease cs;
  if containsString ["rolled_back"; "expired"] (cs_State cs) then return_ cs None
  else if negb (containsString ["validated"; "prepared"; "applying"; "verifying"; "awaiting_confirmation"; "committing";
                                "failed"; "requires_device"] (cs_State cs))
  then return_ cs (Some (conflict "invalid_transition"))
  else
    tx ← orFail cs (loadTransaction cs);
    matches ← capabilityMatches tx;
    if negb matches then
      cs ← progress cs tx "rollback_failed";
      return_ cs (Some (mkFailure 403 "rollback_capability_invalid"))
    else rollbackLocked cs tx (if expired then "expired" else "rolled_back") "rollback_requested").

(** ** Applying *)

(** The other change in flight; the order of the Go map only decides which one is
    named. *)
Definition otherInFlight (s : Server) (id : string) : bool :=
  any (fun kv => (kv.1 <>s id) && inFlight (cs_State kv.2)) (map_to_list (sv_changes s)).

Definition scheduleExpiry (cs : ChangeSet) : Run unit :=
  match env_parse env (cs_ExpiresAt cs) with
  | None => mret tt
  | Some expires => modifyServer (fun s => set_sv_timers (<[cs_ID cs := expires]> (sv_timers s)) s)
  end.

Definition isBaseline (r : revisionRecord) : bool := rv_Kind r =s "baseline".

Definition validateBaselineRevision (r : revisionRecord) (activeRevision : string) (active : Cfg) : bool :=
  if negb (isBaseline r) || (rv_State r <>s "committed") || negb (rv_Version r =? 1) || negb (rv_BaseVersion r =? 0)
     || (rv_RevisionID r =s "") || (rv_RevisionID r <>s activeRevision) || (rv_ChangeID r <>s "")
     || (rv_TransactionID r <>s "") || (rv_ArtifactManifestHash r <>s "") || (rv_CandidateHash r =s "")
     || T.IsZero (rv_CreatedAt r) || (match rv_CommittedAt r with None => true | Some _ => false end)
  then false
  else match env_canonical env active with
       | Err _ => false
       | Ok canonical => (rv_CandidateHash r =s env_hashBytes env canonical) && (rv_RevisionID r =s env_baselineID env canonical)
       end.

Definition commitNoop (cs : ChangeSet) : Run Outcome :=
  now ← clock;
  let cs := cs |> set_cs_State "committed" |> set_cs_AdapterStatus "NOOP" |> set_cs_ManagementVerified true
               |> set_cs_DataPlaneVerified true |> set_cs_Version (wrap64 (cs_Version cs + 1))
               |> set_cs_UpdatedAt (env_format env now) in
  err ← SaveJSON (EChange (cs_ID cs) cs);
  match err with
  | Some _ => return_ cs (Some internalFailure)
  | None => _ ← setChange cs; return_ cs None
  end.

Definition applyNoopChangeSet (cs : ChangeSet) : Run Outcome := invoke (
  loaded ← (if cs_RevisionID cs =s "" then mret (inr ErrNotFound)
            else LoadJSON (fun d => dc_revisions d !! cs_RevisionID cs));
  match loaded with
  | inr _ => return_ cs (Some (conflict "noop_revision_missing"))
  | inl revision =>
      if rv_State revision <>s "committed" then return_ cs (Some (conflict "noop_revision_missing"))
      else if isBaseline revision then
        s ← getServer;
        if negb (validateBaselineRevision revision (cs_RevisionID cs) (sv_activeConfig s))
        then return_ cs (Some (conflict "noop_baseline_invalid"))
        else commitNoop cs
      else
        status ← ask Status;
        if negb (activeMatches status (rv_TransactionID revision) (rv_RevisionID revision) (rv_CandidateHash revision)
                   (rv_ArtifactManifestHash revision))
        then return_ cs (Some (conflict "noop_deployment_drift"))
        else commitNoop (addStep status cs)
  end).

(** The steps of an apply with the state each is announced by. *)
Definition applySteps (tx : Transaction) : list (string * operation) :=
  [("", Prepare tx); ("prepared", ValidateCandidate tx); ("prepared", SnapshotCurrent tx);
   ("applying", ApplyCandidate tx); ("verifying", VerifyManagementPath tx); ("verifying", VerifyDataPlane tx)].

(** The loop over the steps; [first] for index 0. *)
Fixpoint runSteps (steps : list (string * operation)) (first : bool) (cs : ChangeSet) (tx : Transaction)
    (dataPlaneApplied : bool) : Run ChangeSet :=
  match steps with
  | [] => mret cs
  | (before, op) :: rest =>
      cs ← (if (before <>s "") && (cs_State cs <>s before) then progress cs tx before else mret cs);
      _ ← orNil cs (mret (validateTransactionBinding cs tx));
      result ← ask op;
      let cs := cs |> addStep result |> set_cs_AdapterStatus (sr_Status result) in
      let cs := if first && stepOK result then set_cs_State "prepared" cs else cs in
      cs ← progress cs tx (cs_State cs);
      if negb (stepOK result) then
        if containsString ["SKIPPED"; "UNVERIFIED"] (sr_Status result) then
          let cs := cs |> set_cs_ManagementVerified false |> set_cs_DataPlaneVerified false
                       |> set_cs_AdapterStatus "REQUIRES_DEVICE" in
          if (dataPlaneApplied : bool) then
            o ← rollbackLocked cs tx "requires_device" "verification_requires_device"; return_ o.1 o.2
          else cs ← progress cs tx "requires_device"; return_ cs None
        else
          let finalState :=
            if containsString ["verify_management_path"; "verify_data_plane"] (sr_Step result) then "rolled_back" else "failed" in
          o ← rollbackLocked cs tx finalState "adapter_step_failed"; return_ o.1 o.2
      else if (sr_Step result =s "apply_candidate") && negb (artifactEvidenceMatches result tx) then
        o ← rollbackLocked cs tx "failed" "applied_artifact_binding_mismatch"; return_ o.1 o.2
      else
        let dataPlaneApplied := if sr_Step result =s "apply_candidate" then true else dataPlaneApplied in
        let cs := if sr_Step result =s "verify_management_path"
                  then set_cs_ManagementVerified (sr_ManagementVerified result) cs else cs in
        let cs := if sr_Step result =s "verify_data_plane"
                  then set_cs_DataPlaneVerified (sr_DataPlaneVerified result) cs else cs in
        runSteps rest false cs tx dataPlaneApplied
  end.

Definition applyChangeSet (cs : ChangeSet) : Run Outcome := invoke (
  _ ← acquireMutationLease cs;
  if cs_State cs <>s "validated" then return_ cs (Some (conflict "invalid_transition"))
  else
    s ← getServer;
    if otherInFlight s (cs_ID cs) then return_ cs (Some (conflict "transaction_busy"))
    else if negb (cs_BaseVersion cs =? sv_configVersion s) then return_ cs (Some (conflict "base_version_conflict"))
    else if cs_Noop cs then applyNoopChangeSet cs
    else
      tx ← orFail cs (loadVerifiedTransaction cs);
      candidate ← orFail cs (loadVerifiedCandidate cs tx);
      validations ← outside (fun n => env_smartDNS env n (sv_activeConfig s) candidate);
      if hasValidationError validations then return_ cs (Some (conflict "smart_dns_validation_expired"))
      else
        proof ← outside (fun n => env_managementProof env n tx);
        _ ← orNil cs (mret proof);
        if negb (tx_ArtifactsReady tx) then
          cs ← progress (set_cs_AdapterStatus "REQUIRES_DEVICE" cs) tx "requires_device";
          return_ cs None
        else if tx_ArtifactsSimulation tx && negb (env_development env) then
          cs ← progress (cs |> set_cs_AdapterStatus "REQUIRES_DEVICE"
                            |> addValidation (mkValidation "warning" "simulated_diagnostics_refused")) tx "requires_device";
          return_ cs None
        else
          cs ← runSteps (applySteps tx) true cs tx false;
          if negb (cs_ManagementVerified cs) || negb (cs_DataPlaneVerified cs) then
            rollbackLocked cs tx "rolled_back" "verification_flags_missing"
          else
            cs ← progress (set_cs_AdapterStatus "OK" cs) tx "awaiting_confirmation";
            _ ← scheduleExpiry cs;
            return_ cs None).

(** ** Confirming *)

(** [clearBootGuard]: [None] for nil. *)
Definition clearBootGuard (tx : Transaction) : Run (option actionFailure) :=
  match env_guard env with
  | NoGuard => mret None
  | g =>
      r ← ask (match g with BoundGuard => ClearBootGuardForTransaction tx | _ => ClearBootGuard end);
      mret (if stepOK r then None else Some (mkFailure 503 "boot_guard_clear_failed"))
  end.

Definition cleanupCommittedResources (tx : Transaction) (previous : option revisionRecord) : Run unit :=
  retired ← RetireCapability tx;
  proof ← outside (env_cleanup env);
  current ← outside (env_cleanup env);
  obsolete ←
    (match previous with
     | Some p =>
         if (rv_RevisionID p <>s "") && (rv_TransactionID p <>s "") && (rv_TransactionID p <>s tx_ID tx)
         then outside (env_cleanup env) else mret true
     | None => mret true
     end);
  saveCleanupStatus tx (retired && proof && current && obsolete).

(** The server's memory of the committed configuration. *)
Definition activate (candidate : Cfg) (tx : Transaction) (cs : ChangeSet) (s : Server) : Server :=
  s |> set_sv_activeConfig candidate |> set_sv_activeRevision (tx_RevisionID tx)
    |> set_sv_configVersion (tx_CandidateVersion tx) |> set_sv_changes (<[cs_ID cs := cs]> (sv_changes s)).

Definition revisionOf (cs : ChangeSet) (tx : Transaction) (state : string) (committed : option time) : revisionRecord :=
  mkRevision (tx_RevisionID tx) "" (cs_ID cs) (tx_ID tx) (tx_BaseVersion tx) (tx_CandidateVersion tx)
    (tx_CandidateHash tx) (tx_ArtifactManifestHash tx) state (tx_CreatedAt tx) committed.

(** [cs.Version++; cs.UpdatedAt = now.Format(...)]. *)
Definition touch (now : time) (cs : ChangeSet) : ChangeSet :=
  cs |> set_cs_Version (wrap64 (cs_Version cs + 1)) |> set_cs_UpdatedAt (env_format env now).

(** The entries that make a transaction the active one. *)
Definition activeEntries (candidate : Cfg) (tx : Transaction) (revision : revisionRecord) (record : transactionRecord)
    (cs : ChangeSet) : list entry :=
  [EActiveConfig candidate; EActiveRevision (tx_RevisionID tx); EConfigVersion (tx_CandidateVersion tx);
   ERevision (tx_RevisionID tx) revision; ETransaction (tx_ID tx) record; EChange (cs_ID cs) cs].

(** The split protocol: prepare the adapter, commit the control plane, finalize the
    adapter, complete the control plane. *)
Definition confirmSplit (cs : ChangeSet) (tx : Transaction) (candidate : Cfg) : Run ChangeSet :=
  let target := targetOf tx in
  let fence code cs := _ ← markRecoveryRequired target code (cs_CommitPhase cs); return_ cs (Some recovery_required) in
  prepared ← ask (CommitPrepared tx);
  let cs := cs |> addStep prepared |> set_cs_AdapterStatus (sr_Status prepared) in
  if negb (ValidatePreparedCommit prepared tx) then
    '(cs, _) ← saveProgress (set_cs_CommitPhase "adapter_activation_ambiguous" cs) tx "committing";
    fence "adapter_commit_prepared_ambiguous" cs
  else
    '(cs, err) ← saveProgress (set_cs_CommitPhase "adapter_activated" cs) tx "committing";
    match err with
    | Some _ => fence "adapter_commit_progress_failed" cs
    | None =>
        now ← clock;
        let cs := touch now cs in
        let record := mkTxRecord tx "control_plane_committed" "control_plane_committed" (cs_Steps cs) now None in
        let cs := set_cs_CommitPhase "control_plane_committed" cs in
        err ← SaveBatch (activeEntries candidate tx (revisionOf cs tx "control_plane_committed" None) record cs);
        match err with
        | Some _ => fence "control_plane_commit_persist_failed" cs
        | None =>
            _ ← modifyServer (activate candidate tx cs);
            finalized ← ask (FinalizeCommit tx);
            let cs := cs |> addStep finalized |> set_cs_AdapterStatus (sr_Status finalized) in
            if negb (ValidateFinalizedCommit finalized tx) then
              let cs := set_cs_CommitPhase "finalize_ambiguous" cs in
              now ← clock;
              _ ← SaveJSON (ETransaction (tx_ID tx)
                     (mkTxRecord tx "control_plane_committed" (cs_CommitPhase cs) (cs_Steps cs) now None));
              fence "adapter_finalize_ambiguous" cs
            else
              let cs := set_cs_CommitPhase "adapter_finalized" cs in
              now ← clock;
              let cs := touch now (set_cs_State "committed" cs) in
              let record := mkTxRecord tx "committed" (cs_CommitPhase cs) (cs_Steps cs) now (Some now) in
              err ← SaveBatch [ERevision (tx_RevisionID tx) (revisionOf cs tx "committed" (Some now));
                               ETransaction (tx_ID tx) record; EChange (cs_ID cs) cs];
              match err with
              | Some _ => fence "control_plane_finalize_persist_failed" cs
              | None =>
                  failure ← clearBootGuard tx;
                  match failure with
                  | Some f => _ ← markRecoveryRequired target "boot_guard_clear_failed" (cs_CommitPhase cs); return_ cs (Some f)
                  | None => mret cs
                  end
              end
        end
    end.

(** The protocol of an adapter without prepared commits. *)
Definition confirmLegacy (cs : ChangeSet) (tx : Transaction) (candidate : Cfg) : Run ChangeSet :=
  let target := targetOf tx in
  commit ← ask (Commit tx);
  let cs := cs |> addStep commit |> set_cs_AdapterStatus (sr_Status commit) in
  if ((sr_Operation commit <>s "") || negb (sr_ProtocolVersion commit =? 0)) && negb (ValidateBinding commit "commit" tx) then
    o ← rollbackLocked cs tx "failed" "commit_binding_invalid"; return_ o.1 o.2
  else
    '(cs, err) ← saveProgress cs tx "committing";
    match err with
    | Some _ =>
        _ ← markRecoveryRequired target "legacy_commit_progress_persist_failed" "legacy_commit_progress";
        return_ cs (Some recovery_required)
    | None =>
        if negb (stepOK commit) then
          o ← rollbackLocked cs tx "failed" "commit_failed"; return_ o.1 o.2
        else
          now ← clock;
          let cs := touch now (set_cs_State "committed" cs) in
          let record := mkTxRecord tx "committed" "legacy_committed" (cs_Steps cs) now (Some now) in
          err ← SaveBatch (activeEntries candidate tx (revisionOf cs tx "committed" (Some now)) record cs);
          match err with
          | Some _ =>
              _ ← markRecoveryRequired target "legacy_commit_persist_failed" "legacy_committed";
              return_ cs (Some recovery_required)
          | None =>
              failure ← clearBootGuard tx;
              match failure with
              | Some f => _ ← markRecoveryRequired target "boot_guard_clear_failed" "legacy_committed"; return_ cs (Some f)
              | None => mret cs
              end
          end
    end.

Definition confirmChangeSet (cs : ChangeSet) : Run Outcome := invoke (
  _ ← acquireMutationLease cs;
  if cs_State cs <>s "awaiting_confirmation" then return_ cs (Some (conflict "invalid_transition"))
  else if negb (cs_ManagementVerified cs) || negb (cs_DataPlaneVerified cs)
  then return_ cs (Some (conflict "data_plane_not_verified"))
  else
    s ← getServer;
    previous ← LoadJSON (fun d => dc_revisions d !! sv_activeRevision s);
    tx ← orFail cs (loadVerifiedTransaction cs);
    now ← clock;
    if T.After now (tx_ExpiresAt tx) then
      o ← rollbackLocked cs tx "expired" "confirmation_expired"; return_ o.1 (Some (conflict "transaction_expired"))
    else
      status ← ask Status;
      let cs := addStep status cs in
      if negb (activeMatches status (tx_ID tx) (tx_RevisionID tx) (tx_CandidateHash tx) (tx_ArtifactManifestHash tx))
      then rollbackLocked cs tx "failed" "adapter_revision_mismatch"
      else
        loaded ← loadVerifiedCandidate cs tx;
        match loaded with
        | inr _ => rollbackLocked cs tx "failed" "candidate_recheck_failed"
        | inl candidate =>
            adaptive ← outside (fun n => env_adaptive env n candidate);
            if negb adaptive then rollbackLocked cs tx "failed" "adaptive_runtime_invalid"
            else
              cs ← progress cs tx "committing";
              cs ← (if env_split env then confirmSplit cs tx candidate else confirmLegacy cs tx candidate);
              _ ← modifyServer (activate candidate tx cs);
              _ ← cancelExpiryLocked (cs_ID cs);
              _ ← cleanupCommittedResources tx (match previous with inl p => Some p | inr _ => None end);
              return_ cs None
        end).

(** ** Recovery of interrupted transactions *)

(** On success the change set is committed and active. *)
Definition finalizeRecoveredCommit (cs : ChangeSet) (tx : Transaction) : Run (ChangeSet * option string) :=
  s ← getServer;
  previous ← LoadJSON (fun d => dc_revisions d !! sv_activeRevision s);
  loaded ← loadVerifiedCandidate cs tx;
  match loaded with
  | inr f => mret (cs, Some (af_Code f))
  | inl candidate =>
      now ← clock;
      let cs := set_cs_CommitPhase "adapter_finalized" (touch now (set_cs_State "committed" cs)) in
      let record := mkTxRecord tx "committed" (cs_CommitPhase cs) (cs_Steps cs) now (Some now) in
      err ← SaveBatch (activeEntries candidate tx (revisionOf cs tx "committed" (Some now)) record cs);
      match err with
      | Some e => mret (cs, Some e)
      | None =>
          failure ← clearBootGuard tx;
          match failure with
          | Some f => mret (cs, Some (af_Code f))
          | None =>
              _ ← modifyServer (activate candidate tx cs);
              _ ← cancelExpiryLocked (cs_ID cs);
              _ ← cleanupCommittedResources tx (match previous with inl p => Some p | inr _ => None end);
              mret (cs, None)
          end
      end
  end.

(** What to do with a change that was committing while the adapter reports its
    transaction as the active one: the switch of [recoverTransactions]. *)
Inductive decision : Type :=
| CompleteLegacy      (* committed without phases: complete the control plane *)
| FinalizeAdapter     (* control plane committed: finalize the adapter first *)
| CompleteFinalized   (* both committed *)
| SplitBrain
| StateUnknown
| FallThrough.

Definition controlPlaneCommitted (phase : string) : bool :=
  containsString ["control_plane_committed"; "finalize_ambiguous"] phase.

Definition decide_committing (phase adapterState : string) : decision :=
  if (phase =s "") && (adapterState =s "committed") then CompleteLegacy
  else if controlPlaneCommitted phase && (adapterState =s "adapter_activated") then FinalizeAdapter
  else if controlPlaneCommitted phase && (adapterState =s "committed") then CompleteFinalized
  else if (phase =s "adapter_activated") && (adapterState =s "adapter_activated") then FallThrough
  else if adapterState =s "committed" then SplitBrain
  else if phase =s "control_plane_committed" then StateUnknown
  else FallThrough.

(** [finalizeRecoveredCommit] whose error raises the fence. *)
Definition completeOrFence (cs : ChangeSet) (tx : Transaction) : Run (option string) :=
  '(cs, err) ← finalizeRecoveredCommit (set_cs_CommitPhase "adapter_finalized" cs) tx;
  match err with
  | Some e => _ ← markRecoveryRequired (targetOf tx) "control_plane_finalize_persist_failed" (cs_CommitPhase cs); mret (Some e)
  | None => mret None
  end.

Definition recoverRollback (cs : ChangeSet) (tx : Transaction) : Run (option string) :=
  finalState ← (if cs_State cs =s "awaiting_confirmation"
                then now ← clock; mret (if negb (T.Before now (tx_ExpiresAt tx)) then "expired" else "rolled_back")
                else mret "rolled_back");
  o ← rollbackLocked cs tx finalState "recovery_fail_closed";
  mret (af_Code <$> o.2).

(** After the switch: keep waiting for the confirmation, or roll back. *)
Definition recoverOther (cs : ChangeSet) (tx : Transaction) (matches : bool) (phase : string) : Run (option string) :=
  waiting ← (if (cs_State cs =s "awaiting_confirmation") && matches
             then now ← clock; mret (T.Before now (tx_ExpiresAt tx)) else mret false);
  if (waiting : bool) then _ ← scheduleExpiry cs; mret None
  else if (cs_State cs =s "committing") && controlPlaneCommitted phase then
    _ ← markRecoveryRequired (targetOf tx) "adapter_control_plane_binding_mismatch" phase;
    mret (Some "adapter/control-plane binding mismatch after commit")
  else recoverRollback cs tx.

Definition zero_Change : ChangeSet :=
  mkChange "" "" 0 0 0 "" "" "" false "" false "" "" "" "" false [] [] [] [] false false "" "".

(** The decision on a change with its transaction and record: [None] to go on. *)
Definition recoverLoaded (cs : ChangeSet) (tx : Transaction) (record : transactionRecord) : Run (option string) :=
  let phase := tr_CommitPhase record in
  status ← ask Status;
  let matches := activeMatches status (tx_ID tx) (tx_RevisionID tx) (tx_CandidateHash tx) (tx_ArtifactManifestHash tx) in
  if (cs_State cs =s "committing") && matches then
    match decide_committing phase (evidenceString status "transaction_state") with
    | CompleteLegacy => '(_, err) ← finalizeRecoveredCommit cs tx; mret err
    | FinalizeAdapter =>
        if negb (env_split env) then
          _ ← markRecoveryRequired (targetOf tx) "adapter_finalize_unavailable" phase;
          mret (Some "adapter finalize is unavailable")
        else
          finalized ← ask (FinalizeCommit tx);
          if negb (ValidateFinalizedCommit finalized tx) then
            _ ← markRecoveryRequired (targetOf tx) "adapter_finalize_ambiguous" phase;
            mret (Some "adapter finalize")
          else completeOrFence (addStep finalized cs) tx
    | CompleteFinalized => completeOrFence cs tx
    | SplitBrain =>
        _ ← markRecoveryRequired (targetOf tx) "adapter_control_plane_split_brain" phase;
        mret (Some "adapter/control-plane commit split-brain")
    | StateUnknown =>
        _ ← markRecoveryRequired (targetOf tx) "adapter_control_plane_state_unknown" phase;
        mret (Some "adapter state is unknown after control-plane commit")
    | FallThrough => recoverOther cs tx matches phase
    end
  else recoverOther cs tx matches phase.

(** One iteration of [recoverTransactions]. *)
Definition recoverOne (id : string) : Run (option string) :=
  s ← getServer;
  let cs := default zero_Change (sv_changes s !! id) in
  loaded ← loadTransaction cs;
  match loaded with
  | inr f => mret (Some (af_Code f))
  | inl tx =>
      record ← LoadJSON (fun d => dc_transactions d !! tx_ID tx);
      match record with inr _ => mret (Some "transaction record") | inl record => recoverLoaded cs tx record end
  end.

Fixpoint recoverAll (ids : list string) : Run (option string) :=
  match ids with
  | [] => mret None
  | id :: rest =>
      err ← recoverOne id;
      match err with Some e => mret (Some e) | None => recoverAll rest end
  end.

(** The ids of the changes in flight, sorted. *)
Definition inFlightIDs (s : Server) : list string :=
  gosort (key_slt id) (map fst (List.filter (fun kv => inFlight (cs_State kv.2)) (map_to_list (sv_changes s)))).

Definition recoverTransactions : Run (option string) := s ← getServer; recoverAll (inFlightIDs s).

(** ** Recovery of the committed data plane *)

(** [for attempt := 1; ; attempt++], at most 31 of them. *)
Fixpoint reconcileLoop (attempts : nat) (target : RecoveryTarget) : Run StepResult :=
  r ← ask (Reconcile target);
  let busy := match sr_Evidence r !! "adapter_busy" with Some (EvBool b) => b | _ => false end in
  match attempts with
  | S (S _ as rest) => if stepOK r || negb busy then mret r else reconcileLoop rest target
  | _ => mret r
  end.
Definition reconcileCommittedTarget : RecoveryTarget -> Run StepResult := reconcileLoop 31.

Definition revisionTarget (r : revisionRecord) : RecoveryTarget :=
  mkTarget (rv_TransactionID r) (rv_RevisionID r) (rv_CandidateHash r) (rv_ArtifactManifestHash r).

(** The part of the recovery that handles a baseline. *)
Definition recoverBaseline (revision : revisionRecord) (active : string) (config : Cfg) : Run recoveryStatus :=
  let target := mkTarget "" active (rv_CandidateHash revision) "" in
  if negb (validateBaselineRevision revision active config) then mret (failedRecovery "active_baseline_invalid" target)
  else
    cleared ← (if env_baselineGuard env
               then r ← ask (ClearBootGuardForBaseline active (rv_CandidateHash revision)); mret (stepOK r)
               else mret true);
    mret (if (cleared : bool) then mkRecovery "not_required" "" target "baseline_confirmed"
          else failedRecovery "baseline_boot_guard_clear_failed" target).

(** The checks of the documents of the active revision, up to the reconciliation. *)
Definition verifyCommitted (revision : revisionRecord) (active : string) : Run (option recoveryStatus) :=
  let target := revisionTarget revision in
  let refuse code := mret (Some (failedRecovery code target)) in
  if (rv_State revision <>s "committed") || (rv_RevisionID revision <>s active) || (rv_TransactionID revision =s "")
     || (rv_CandidateHash revision =s "") || (rv_ArtifactManifestHash revision =s "") then refuse "active_revision_invalid"
  else
    record ← LoadJSON (fun d => dc_transactions d !! rv_TransactionID revision);
    match record with
    | inr _ => refuse "active_transaction_load_failed"
    | inl record =>
        let tx := tr_Transaction record in
        if (tr_State record <>s "committed") || negb (bool_decide (targetOf tx = target)) then refuse "active_transaction_mismatch"
        else
          s ← getServer;
          match sv_changes s !! rv_ChangeID revision with
          | None => refuse "active_changeset_mismatch"
          | Some cs =>
              if (cs_State cs <>s "committed") || (cs_TransactionID cs <>s rt_TransactionID target)
                 || (cs_RevisionID cs <>s rt_RevisionID target) then refuse "active_changeset_mismatch"
              else
                loaded ← loadVerifiedCandidate cs tx;
                match loaded with
                | inr _ => refuse "active_candidate_verification_failed"
                | inl candidate =>
                    if (fileHash (sv_activeConfig s) <>s rt_CandidateHash target)
                       || (fileHash candidate <>s rt_CandidateHash target) then refuse "active_config_mismatch"
                    else mret None
                end
          end
    end.

Definition committedStatus : Run recoveryStatus :=
  s ← getServer;
  let active := sv_activeRevision s in
  if active =s "" then
    mret (if 1 <? sv_configVersion s then failedRecovery "active_revision_missing" zero_Target
          else mkRecovery "not_required" "" zero_Target "")
  else
    loaded ← LoadJSON (fun d => dc_revisions d !! active);
    match loaded with
    | inr _ => mret (failedRecovery "active_revision_load_failed" (mkTarget "" active "" ""))
    | inl revision =>
        let target := revisionTarget revision in
        if isBaseline revision then recoverBaseline revision active (sv_activeConfig s)
        else if rv_State revision =s "control_plane_committed" then
          mret (recoveryRequired "active_revision_pending_finalize" target "control_plane_committed")
        else
          refused ← verifyCommitted revision active;
          match refused with
          | Some st => mret st
          | None =>
              reconciled ← reconcileCommittedTarget target;
              if negb (stepOK reconciled) then mret (failedRecovery "adapter_reconcile_failed" target)
              else
                status ← ask Status;
                if negb (activeMatches status (rt_TransactionID target) (rt_RevisionID target) (rt_CandidateHash target)
                           (rt_ArtifactManifestHash target)) || (evidenceString status "transaction_state" <>s "committed")
                then mret (failedRecovery "adapter_recovery_binding_mismatch" target)
                else mret (mkRecovery "ok" "" target "")
          end
    end.

Definition recoverCommittedDataplane : Run unit := st ← committedStatus; setRecoveryStatusDuringMutation st.

(** ** Starting *)

(** [loadPersistedChangeSets]: by the id in the document. *)
Definition loadPersistedChangeSets (d : Documents) : gmap string ChangeSet :=
  list_to_map (rev (map (fun cs => (cs_ID cs, cs))
    (List.filter (fun cs => cs_ID cs <>s "") (map snd (gosort (key_slt fst) (map_to_list (dc_changes d))))))).

(** [n] reads of the store, up to the first that fails. *)
Fixpoint readsSucceed (n : nat) : Run bool :=
  match n with
  | O => mret true
  | S n => e ← outside (env_load env); match e with Some _ => mret false | None => readsSucceed n end
  end.

(** The recovery of the route assignments once the data plane is recovered. *)
Definition recoverAssignments : Run unit :=
  s ← getServer;
  if recoveryStatusAllowsMutation (sv_recovery s) then
    reconciled ← outside (env_assignments env);
    if (reconciled : bool) then mret tt
    else setRecoveryStatusDuringMutation
           (failedRecovery "route_assignment_reconcile_failed" (mkTarget "" (sv_activeRevision s) "" ""))
  else mret tt.

(** The server before its recoveries: what [NewServer] reads of the store.  A
    document is absent or decodes; [active] is the active configuration. *)
Definition newServer (active : Cfg) (d : Documents) : Server :=
  mkServer (loadPersistedChangeSets d) active (default "" (dc_active_revision d)) (default 1 (dc_config_version d)) zero_Recovery ∅.

(** [loadActiveConfig]: the stored configuration as its validation leaves it, or the
    configuration file, [fallback]; [false] for one that is not valid. *)
Definition construct (fallback : Cfg) : Run bool := fun w =>
  match match dc_active_config (w_docs w) with Some c => env_validate env c | None => Ok fallback end with
  | Err _ => (inl false, w)
  | Ok active => (inl true, set_w_server (newServer active (w_docs w)) w)
  end.

(** [buildAdaptiveRuntime] on the current configuration. *)
Definition adaptiveRuntime : Run bool := s ← getServer; outside (fun n => env_adaptive env n (sv_activeConfig s)).

(** [if !ok { return nil, err }] *)
Definition proceed (ok : Run bool) (next : Run bool) : Run bool := b ← ok; if (b : bool) then next else mret false.

(** [NewServer] from the point where the baseline exists and the retention has
    run, on a store whose documents decode, without [DeferRecovery].  [false]
    when the server does not start. *)
Definition start (fallback : Cfg) : Run bool :=
  proceed (readsSucceed 4)  (* changes, config_version, active_config, active_revision *)
 (proceed (construct fallback)
 (proceed adaptiveRuntime
 (proceed (err ← recoverTransactions; mret (match err with None => true | Some _ => false end))
 (proceed adaptiveRuntime
 (_ ← recoverCommittedDataplane; _ ← recoverAssignments; mret true))))).

End Engine.

Arguments Documents : clear implicits.
Arguments World : clear implicits.
Arguments Env : clear implicits.
Arguments Server : clear implicits.
Arguments Run : clear implicits.
Arguments entry : clear implicits.
