(* ===== verification/TransactionProofs.v ===== *)
(** * The transaction engine is safe

    A small program logic for the computations of [Transaction] and, with it, what
    every handler of the engine and a restart keep: memory and disk agree or the
    engine is fenced, and only a confirmation changes what is active. *)
From Stdlib Require Import ZArith Lia.
From stdpp Require Import base list strings gmap sorting.
From S2P Require Import Prelude Interfaces Json Candidate Adapter Transaction.

Open Scope Z_scope.

Section Logic.
Context {Cfg : Type} (env : Env Cfg).

(** ** Weakest preconditions

    [wp m Q E w]: run from [w], [m] computes a value in [Q] or returns early with
    an answer in [E]. *)
Definition wp {A} (m : Run Cfg A) (Q : A -> World Cfg -> Prop) (E : Outcome -> World Cfg -> Prop) (w : World Cfg) : Prop :=
  match m w with (inl a, w') => Q a w' | (inr o, w') => E o w' end.

Lemma wp_mono {A} (m : Run Cfg A) (Q Q' : A -> World Cfg -> Prop) (E E' : Outcome -> World Cfg -> Prop) w :
  wp m Q E w -> (forall a w', Q a w' -> Q' a w') -> (forall o w', E o w' -> E' o w') -> wp m Q' E' w.
Proof. unfold wp. destruct (m w) as [[a|o] w']; auto. Qed.

Lemma wp_answer {A} (m : Run Cfg A) Q E w a w' : wp m Q E w -> m w = (inl a, w') -> Q a w'.
Proof. unfold wp. intros HW HE. by rewrite HE in HW. Qed.
Lemma wp_ret {A} (a : A) Q E w : Q a w -> wp (mret a) Q E w.
Proof. done. Qed.
Lemma wp_return {A} cs f (Q : A -> World Cfg -> Prop) (E : Outcome -> World Cfg -> Prop) w :
  E (cs, f) w -> wp (return_ cs f) Q E w.
Proof. done. Qed.
Lemma wp_bind {A B} (m : Run Cfg A) (f : A -> Run Cfg B) Q E w :
  wp m (fun a w' => wp (f a) Q E w') E w -> wp (m ≫= f) Q E w.
Proof. unfold wp, mbind, Run_bind. destruct (m w) as [[a|o] w']; auto. Qed.
Lemma wp_invoke (m : Run Cfg Outcome) Q E w : wp m Q Q w -> wp (invoke m) Q E w.
Proof. unfold wp, invoke. destruct (m w) as [[a|o] w']; auto. Qed.
Lemma wp_if {A} (b : bool) (m m' : Run Cfg A) Q E w :
  (b = true -> wp m Q E w) -> (b = false -> wp m' Q E w) -> wp (if b then m else m') Q E w.
Proof. destruct b; auto. Qed.

Lemma wp_getServer (Q : Server Cfg -> World Cfg -> Prop) E w : Q (w_server w) w -> wp getServer Q E w.
Proof. done. Qed.
Lemma wp_modifyServer f (Q : unit -> World Cfg -> Prop) E w :
  Q tt (set_w_server (f (w_server w)) w) -> wp (modifyServer f) Q E w.
Proof. done. Qed.

(** The assertions below never look at the tick: every call may advance it. *)
Lemma wp_clock Q E w : (forall t, Q t (tick w)) -> wp (clock env) Q E w.
Proof. intros HQ. apply HQ. Qed.
Lemma wp_clock_at Q E w : Q (env_now env (w_tick w)) (tick w) -> wp (clock env) Q E w.
Proof. done. Qed.
Lemma wp_outside {A} (f : nat -> A) Q E w : (forall a, Q a (tick w)) -> wp (outside f) Q E w.
Proof. intros HQ. apply HQ. Qed.

Lemma wp_outside_at {A} (f : nat -> A) Q E w : Q (f (w_tick w)) (tick w) -> wp (outside f) Q E w.
Proof. done. Qed.

Definition asked (op : operation) (r : StepResult) (w : World Cfg) : World Cfg :=
  set_w_log (w_log w ++ [Asked op r]) (tick w).
Lemma wp_ask op Q E w :
  (forall n, let r := env_answer env n op in Q r (asked op r w)) -> wp (ask env op) Q E w.
Proof. intros HQ. apply HQ. Qed.

Definition wrote (entries : list (entry Cfg)) (w : World Cfg) : World Cfg :=
  set_w_docs (applyEntries entries (w_docs w)) (set_w_log (w_log w ++ savedEvents entries) (tick w)).
Lemma wp_SaveBatch entries Q E w :
  (forall e, Q (Some e) (tick w)) -> Q None (wrote entries w) -> wp (SaveBatch env entries) Q E w.
Proof. intros H1 H2. unfold wp, SaveBatch. destruct (env_save env (w_tick w)); [apply H1|apply H2]. Qed.

Lemma wp_LoadJSON {A} (get : Documents Cfg -> option A) Q E w :
  (forall e, Q (inr e) (tick w)) -> (forall a, get (w_docs w) = Some a -> Q (inl a) (tick w)) -> wp (LoadJSON env get) Q E w.
Proof.
  intros H1 H2. unfold wp, LoadJSON. destruct (env_load env (w_tick w)); [apply H1|].
  destruct (get (w_docs w)) eqn:Eg; [by apply H2|apply H1].
Qed.

Lemma wp_orFail {A} cs (m : Run Cfg (A + actionFailure)) Q E w :
  wp m (fun r w' => match r with inl a => Q a w' | inr f => E (cs, Some f) w' end) E w -> wp (orFail cs m) Q E w.
Proof. intros Hm. apply wp_bind. eapply wp_mono; [exact Hm| |done]. intros [a|f] w'; auto. Qed.
Lemma wp_orNil cs (m : Run Cfg (option actionFailure)) Q E w :
  wp m (fun r w' => match r with None => Q tt w' | Some f => E (cs, Some f) w' end) E w -> wp (orNil cs m) Q E w.
Proof. intros Hm. apply wp_bind. eapply wp_mono; [exact Hm| |done]. intros [f|] w'; auto. Qed.

Lemma wp_acquire cs Q E w :
  (mutationFailure (sv_recovery (w_server w)) = None -> Q tt w) ->
  (forall f, mutationFailure (sv_recovery (w_server w)) = Some f -> E (cs, Some f) w) ->
  wp (acquireMutationLease cs) Q E w.
Proof.
  intros H1 H2. apply wp_bind, wp_getServer, wp_orNil, wp_ret.
  destruct (mutationFailure _); auto.
Qed.

Lemma wp_capabilityMatches tx Q E w : (forall b, Q b (tick w)) -> wp (capabilityMatches env tx) Q E w.
Proof. intros HQ. apply HQ. Qed.
Lemma wp_RetireCapability tx Q E w :
  Q true (set_w_caps (w_caps w ∖ {[tx_ID tx]}) (tick w)) -> Q false (tick w) -> wp (RetireCapability env tx) Q E w.
Proof. intros H1 H2. unfold wp, RetireCapability. by destruct (env_retire env (w_tick w)). Qed.

(** ** The fence *)

Definition fenced (w : World Cfg) : Prop := mutationFailure (sv_recovery (w_server w)) <> None.

(** The world after [setRecoveryStatusDuringMutation st]: the status is in memory
    and perhaps on disk, or replaced by a fence. *)
Definition fenceSet (st : recoveryStatus) (w w' : World Cfg) : Prop :=
  exists rec, (rec = st \/ rs_Status rec = "recovery_required") /\
    w_server w' = set_sv_recovery rec (w_server w) /\
    (w_docs w' = w_docs w \/ w_docs w' = applyEntry (w_docs w) (ERecoveryStatus st)) /\
    w_caps w' = w_caps w /\ w_log w' = w_log w.

Lemma wp_setRecovery st Q E w : (forall w', fenceSet st w w' -> Q tt w') -> wp (setRecoveryStatusDuringMutation env st) Q E w.
Proof.
  intros HQ. apply wp_bind, wp_modifyServer, wp_bind, wp_SaveBatch.
  - intros e. apply wp_modifyServer, HQ.
    exists (mkRecovery "recovery_required" "recovery_status_persist_failed" (rs_Target st) (rs_CommitPhase st)).
    split; [by right|]. split_and!; try done. by left.
  - apply wp_ret, HQ. exists st. split; [by left|]. split_and!; try done; [by right|]. simpl. by rewrite app_nil_r.
Qed.

Definition fenceRaised (w w' : World Cfg) : Prop := exists st, rs_Status st = "recovery_required" /\ fenceSet st w w'.

Lemma wp_markRecoveryRequired target code phase Q E w :
  (forall w', fenceRaised w w' -> Q tt w') -> wp (markRecoveryRequired env target code phase) Q E w.
Proof. intros HQ. apply wp_setRecovery. intros w' Hw'. apply HQ. by exists (recoveryRequired code target phase). Qed.

Lemma fenceRaised_fenced w w' : fenceRaised w w' -> fenced w'.
Proof.
  intros (st & Hst & rec & Hrec & Hs & _). unfold fenced, mutationFailure, recoveryStatusAllowsMutation. rewrite Hs. simpl.
  assert (rs_Status rec = "recovery_required") as -> by (destruct Hrec as [->|]; done). done.
Qed.
(** ** Progress *)

Definition stamped (next : string) (cs cs' : ChangeSet) : Prop :=
  exists v u, cs' = set_cs_UpdatedAt u (set_cs_Version v (set_cs_State next cs)).
Definition recorded (cs : ChangeSet) (tx : Transaction) (next : string) (r : transactionRecord) : Prop :=
  tr_Transaction r = tx /\ tr_State r = next /\ tr_CommitPhase r = cs_CommitPhase cs.
Definition remember (cs : ChangeSet) (w : World Cfg) : World Cfg :=
  set_w_server (set_sv_changes (<[cs_ID cs := cs]> (sv_changes (w_server w))) (w_server w)) w.

Lemma wp_saveProgress cs tx next Q E w :
  validateTransactionBinding cs tx = None ->
  (forall cs' e, stamped next cs cs' -> Q (cs', Some e) (tick (tick (tick w)))) ->
  (forall cs' r, stamped next cs cs' -> recorded cs tx next r ->
     Q (cs', None) (remember cs' (wrote [ETransaction (tx_ID tx) r; EChange (cs_ID cs) cs'] (tick (tick w))))) ->
  wp (saveProgress env cs tx next) Q E w.
Proof.
  intros Hb HF HS. unfold saveProgress. rewrite Hb.
  apply wp_bind, wp_clock. intros t. apply wp_bind, wp_clock. intros t'. apply wp_bind, wp_SaveBatch.
  - intros e. apply wp_ret, HF. by eexists _, _.
  - apply wp_bind, wp_modifyServer, wp_ret.
    exact (HS (stamp env next t cs) (progressRecord (stamp env next t cs) tx next t')
             (ex_intro _ _ (ex_intro _ _ eq_refl)) (conj eq_refl (conj eq_refl eq_refl))).
Qed.

Lemma wp_progress cs tx next Q E w :
  validateTransactionBinding cs tx = None ->
  (forall cs', stamped next cs cs' -> E (cs', Some internalFailure) (tick (tick (tick w)))) ->
  (forall cs' r, stamped next cs cs' -> recorded cs tx next r ->
     Q cs' (remember cs' (wrote [ETransaction (tx_ID tx) r; EChange (cs_ID cs) cs'] (tick (tick w))))) ->
  wp (progress env cs tx next) Q E w.
Proof.
  intros Hb HF HS. apply wp_bind, wp_saveProgress; [done| |].
  - intros cs' e Hst. by apply wp_return, HF.
  - intros cs' r Hst Hr. by apply wp_ret, HS.
Qed.

(** A change set keeps its identity and its binding. *)
Lemma stamped_state next cs cs' : stamped next cs cs' -> cs_State cs' = next.
Proof. by intros (v & u & ->). Qed.
Lemma stamped_id next cs cs' : stamped next cs cs' -> cs_ID cs' = cs_ID cs.
Proof. by intros (v & u & ->). Qed.
Lemma stamped_binding next cs cs' tx :
  stamped next cs cs' -> validateTransactionBinding cs' tx = validateTransactionBinding cs tx.
Proof. by intros (v & u & ->). Qed.

(** ** Loading *)

Lemma wp_loadTransaction cs Q E w :
  (forall f, Q (inr f) (tick w)) ->
  (forall tx record, dc_transactions (w_docs w) !! cs_TransactionID cs = Some record -> tr_Transaction record = tx ->
     validateTransactionBinding cs tx = None -> Q (inl tx) (tick w)) ->
  wp (loadTransaction env cs) Q E w.
Proof.
  intros HF HS. apply wp_bind, wp_LoadJSON.
  - intros e. apply wp_ret, HF.
  - intros record Hrec. destruct (validateTransactionBinding cs (tr_Transaction record)) eqn:Hb; apply wp_ret; [apply HF|].
    by eapply HS.
Qed.

(** What a verified candidate is: what the validation makes of the file with the
    hash of the change set and the transaction. *)
Definition candidateOf (cs : ChangeSet) (tx : Transaction) (c : Cfg) : Prop := exists file,
  fileHash env file = cs_CandidateHash cs /\ fileHash env file = tx_CandidateHash tx /\ env_validate env file = Ok c.

(** Worlds that differ in the number of calls only. *)
Definition sameWorld (w w' : World Cfg) : Prop := exists n, w' = set_w_tick n w.
Lemma sameWorld_refl w : sameWorld w w.
Proof. exists (w_tick w). by destruct w. Qed.
Lemma sameWorld_tick w w' : sameWorld w w' -> sameWorld w (tick w').
Proof. intros [n ->]. by exists (S n). Qed.

(** The world [n] calls later. *)
Definition later (n : nat) (w : World Cfg) : World Cfg := set_w_tick (n + w_tick w)%nat w.
Lemma later_same n w : sameWorld w (later n w).
Proof. by eexists. Qed.

(** Loading makes a fixed number of calls when it succeeds. *)
Lemma wp_loadVerifiedCandidate_at cs tx Q E w :
  (forall f w', sameWorld w w' -> Q (inr f) w') ->
  (forall c, candidateOf cs tx c -> Q (inl c) (later 3 w)) ->
  wp (loadVerifiedCandidate env cs tx) Q E w.
Proof.
  intros HF HS. apply wp_bind, wp_LoadJSON; [intros e; apply wp_ret, HF; by apply sameWorld_tick, sameWorld_refl|].
  intros record _. destruct (env_canonical env (cr_Config record)) as [canonical|e];
    [|apply wp_ret, HF; by apply sameWorld_tick, sameWorld_refl].
  apply wp_if; intros E1; [apply wp_ret, HF; by apply sameWorld_tick, sameWorld_refl|].
  apply wp_if; intros E2; [apply wp_ret, HF; by apply sameWorld_tick, sameWorld_refl|].
  bool_split. str_eq. apply wp_bind, wp_outside. intros [[file|]|e]; [|apply wp_ret, HF; by repeat apply sameWorld_tick; apply sameWorld_refl..].
  apply wp_if; intros E3; [apply wp_ret, HF; by repeat apply sameWorld_tick; apply sameWorld_refl|].
  destruct (env_validate env file) as [candidate|] eqn:E4; [|apply wp_ret, HF; by repeat apply sameWorld_tick; apply sameWorld_refl].
  bool_split. str_eq. apply wp_bind, wp_outside. intros [manifest|e]; [|apply wp_ret, HF; by repeat apply sameWorld_tick; apply sameWorld_refl].
  apply wp_if; intros E5; [apply wp_ret, HF; by repeat apply sameWorld_tick; apply sameWorld_refl|].
  apply wp_if; intros E6; [apply wp_ret, HF; by repeat apply sameWorld_tick; apply sameWorld_refl|].
  apply wp_ret, HS. exists file. split_and!; congruence.
Qed.
Lemma wp_loadVerifiedCandidate cs tx Q E w :
  (forall f w', sameWorld w w' -> Q (inr f) w') ->
  (forall c w', sameWorld w w' -> candidateOf cs tx c -> Q (inl c) w') ->
  wp (loadVerifiedCandidate env cs tx) Q E w.
Proof. intros HF HS. apply wp_loadVerifiedCandidate_at; [done|]. intros c. apply HS, later_same. Qed.

Lemma wp_loadVerifiedTransaction_at cs Q E w :
  (forall f w', sameWorld w w' -> Q (inr f) w') ->
  (forall tx record, dc_transactions (w_docs w) !! cs_TransactionID cs = Some record ->
     tr_Transaction record = tx -> validateTransactionBinding cs tx = None -> Q (inl tx) (later 5 w)) ->
  wp (loadVerifiedTransaction env cs) Q E w.
Proof.
  intros HF HS. apply wp_bind, wp_loadTransaction; [intros f; apply wp_ret, HF; by apply sameWorld_tick, sameWorld_refl|].
  intros tx record Hrec Htx Hb. apply wp_bind, wp_loadVerifiedCandidate_at.
  - intros f w' [n ->]. apply wp_ret, HF. by exists n.
  - intros c _. apply wp_bind, wp_capabilityMatches. intros [|]; apply wp_ret; [by eapply HS|apply HF; by eexists].
Qed.
Lemma wp_loadVerifiedTransaction cs Q E w :
  (forall f w', sameWorld w w' -> Q (inr f) w') ->
  (forall tx record w', sameWorld w w' -> dc_transactions (w_docs w) !! cs_TransactionID cs = Some record ->
     tr_Transaction record = tx -> validateTransactionBinding cs tx = None -> Q (inl tx) w') ->
  wp (loadVerifiedTransaction env cs) Q E w.
Proof. intros HF HS. apply wp_loadVerifiedTransaction_at; [done|]. intros tx record. apply HS, later_same. Qed.
(** ** Memory and disk *)

(** Memory agrees with the disk: on the changes, the active revision, the version,
    and on the active configuration, which is the stored one or what the validation
    makes of it when the server starts. *)
Definition agree (w : World Cfg) : Prop :=
  sv_changes (w_server w) = dc_changes (w_docs w) /\
  sv_activeRevision (w_server w) = default "" (dc_active_revision (w_docs w)) /\
  sv_configVersion (w_server w) = default 1 (dc_config_version (w_docs w)) /\
  (forall c, dc_active_config (w_docs w) = Some c -> sv_activeConfig (w_server w) = c \/ env_validate env c = Ok (sv_activeConfig (w_server w))).

(** Since [w0] only the change [id] was touched, and the active deployment not at
    all. *)
Definition sameActive (w0 w : World Cfg) : Prop :=
  dc_active_config (w_docs w) = dc_active_config (w_docs w0) /\
  dc_active_revision (w_docs w) = dc_active_revision (w_docs w0) /\
  dc_config_version (w_docs w) = dc_config_version (w_docs w0).
Definition onlyChange (id : string) (w0 w : World Cfg) : Prop :=
  (forall i, i <> id -> dc_changes (w_docs w) !! i = dc_changes (w_docs w0) !! i) /\
  (forall i, i <> id -> sv_changes (w_server w) !! i = sv_changes (w_server w0) !! i) /\
  (forall c, dc_changes (w_docs w) !! id = Some c -> dc_changes (w_docs w0) !! id = Some c \/ cs_ID c = id).
Definition coherent (id : string) (w0 w : World Cfg) : Prop := agree w /\ sameActive w0 w /\ onlyChange id w0 w.

Lemma coherent_refl id w : agree w -> coherent id w w.
Proof. intros Ha. split; [done|]. split; [done|]. split; [done|]. split; [done|]. intros c. by left. Qed.

(** What leaves the compared fields alone. *)
Lemma coherent_tick id w0 w n : coherent id w0 w -> coherent id w0 (set_w_tick n w).
Proof. done. Qed.
Lemma coherent_asked id w0 w op r : coherent id w0 w -> coherent id w0 (asked op r w).
Proof. done. Qed.
Lemma coherent_caps id w0 w c : coherent id w0 w -> coherent id w0 (set_w_caps c w).
Proof. done. Qed.
Lemma coherent_timers id w0 w f :
  coherent id w0 w -> coherent id w0 (set_w_server (set_sv_timers (f (w_server w)) (w_server w)) w).
Proof. done. Qed.
Lemma coherent_cleanup id w0 w t b : coherent id w0 w -> coherent id w0 (wrote [ECleanup t b] w).
Proof. destruct w as [s d c l n], d. done. Qed.
Lemma coherent_transaction id w0 w t r : coherent id w0 w -> coherent id w0 (wrote [ETransaction t r] w).
Proof. destruct w as [s d c l n], d. done. Qed.

Lemma coherent_remember id w0 w cs t r :
  coherent id w0 w -> cs_ID cs = id -> coherent id w0 (remember cs (wrote [ETransaction t r; EChange (cs_ID cs) cs] w)).
Proof.
  destruct w as [s d c l n], d. unfold coherent, agree, sameActive, onlyChange. simpl. rewrite ?app_nil_r.
  intros ((-> & A2 & A3 & A4) & (B1 & B2 & B3) & (C1 & C2 & C3)) <-. split_and!; try done.
  - intros i Hi. rewrite lookup_insert_ne by done. auto.
  - intros i Hi. rewrite lookup_insert_ne by done. auto.
  - intros c0. rewrite lookup_insert_eq. intros [= <-]. by right.
Qed.

(** The fence changes neither. *)
Definition strayed (id : string) (w0 w : World Cfg) : Prop := fenced w /\ sameActive w0 w /\ onlyChange id w0 w.
Lemma coherent_fence id w0 w w' : coherent id w0 w -> fenceRaised w w' -> strayed id w0 w'.
Proof.
  intros (Ha & Hs & Ho) Hf. split; [by eapply fenceRaised_fenced|]. destruct Hf as (st & _ & rec & _ & Hsv & Hd & _).
  unfold sameActive, onlyChange in *. rewrite Hsv. simpl.
  assert (HE : dc_active_config (w_docs w') = dc_active_config (w_docs w) /\ dc_active_revision (w_docs w') = dc_active_revision (w_docs w)
    /\ dc_config_version (w_docs w') = dc_config_version (w_docs w) /\ dc_changes (w_docs w') = dc_changes (w_docs w)).
  { destruct Hd as [-> | ->]; [done|]. by destruct (w_docs w). }
  destruct HE as (-> & -> & -> & ->). done.
Qed.

(** The answers of a handler that does not activate anything. *)
Definition settled_for (id : string) (w0 : World Cfg) (o : Outcome) (w : World Cfg) : Prop :=
  coherent id w0 w \/ (strayed id w0 w /\ o.2 <> None).

Lemma wp_saveProgress_coherent id w0 cs tx next Q E w :
  coherent id w0 w -> cs_ID cs = id -> validateTransactionBinding cs tx = None ->
  (forall cs' err w', coherent id w0 w' -> stamped next cs cs' -> w_log w `prefix_of` w_log w' -> Q (cs', err) w') ->
  wp (saveProgress env cs tx next) Q E w.
Proof.
  intros Hw <- Hb HQ. apply wp_saveProgress; [done| |].
  - intros cs' e Hst. by apply HQ.
  - intros cs' r Hst _. apply HQ; [|done|by eexists]. rewrite <- (stamped_id _ _ _ Hst).
    apply coherent_remember; [|done]. by rewrite (stamped_id _ _ _ Hst).
Qed.

Lemma wp_progress_coherent id w0 cs tx next Q E w :
  coherent id w0 w -> cs_ID cs = id -> validateTransactionBinding cs tx = None ->
  (forall cs' w', coherent id w0 w' -> stamped next cs cs' -> w_log w `prefix_of` w_log w' -> Q cs' w') ->
  (forall cs' f w', coherent id w0 w' -> E (cs', Some f) w') ->
  wp (progress env cs tx next) Q E w.
Proof.
  intros Hw Hid Hb HQ HE. apply wp_bind. eapply wp_saveProgress_coherent; [done..|]. intros cs' [e|] w' Hw' Hst Hp.
  - by apply wp_return, HE.
  - by apply wp_ret, HQ.
Qed.

Lemma wp_cleanup_coherent id w0 tx b (Q : unit -> World Cfg -> Prop) E w :
  coherent id w0 w -> (forall w', coherent id w0 w' -> Q tt w') -> wp (saveCleanupStatus env tx b) Q E w.
Proof.
  intros Hw HQ. apply wp_bind, wp_SaveBatch; [intros e|]; apply wp_ret, HQ; [done|by apply coherent_cleanup].
Qed.

Lemma wp_rollbackLocked_coherent id w0 cs tx final reason Q E w :
  coherent id w0 w -> cs_ID cs = id -> validateTransactionBinding cs tx = None ->
  (forall o w', settled_for id w0 o w' -> (o.2 = None -> cs_State o.1 = final) -> Q o w') ->
  wp (rollbackLocked env cs tx final reason) Q E w.
Proof.
  intros Hw Hid Hb HQ. assert (HL : forall cs' f w', coherent id w0 w' -> Q (cs', Some f) w').
  { intros cs' f w' Hw'. apply HQ; [by left|done]. }
  apply wp_invoke, wp_bind. eapply wp_progress_coherent; [done..| |exact HL].
  intros cs1 w1 Hw1 Hst1 _. apply wp_bind, wp_ask. intros n r.
  assert (Hb1 : validateTransactionBinding cs1 tx = None) by (by rewrite (stamped_binding _ _ _ _ Hst1)).
  assert (Hid1 : cs_ID cs1 = id) by (by rewrite (stamped_id _ _ _ Hst1)).
  apply wp_if; intros E1.
  { apply wp_bind. eapply (wp_saveProgress_coherent id w0); [done|exact Hid1|exact Hb1|]. intros cs2 err w2 Hw2 Hst2 _.
    apply wp_bind, wp_markRecoveryRequired. intros w3 Hf. apply wp_return, HQ; [right|done].
    split; [by eapply coherent_fence|done]. }
  apply wp_if; intros E2.
  { apply wp_bind. eapply (wp_progress_coherent id w0); [done|exact Hid1|exact Hb1| |exact HL]. intros cs2 w2 Hw2 _ _.
    by apply wp_return, HL. }
  apply wp_bind. eapply (wp_saveProgress_coherent id w0); [done|exact Hid1|exact Hb1|]. intros cs2 err w2 Hw2 Hst2 _. destruct err.
  { apply wp_bind, wp_markRecoveryRequired. intros w3 Hf. apply wp_return, HQ; [right|done].
    split; [by eapply coherent_fence|done]. }
  apply wp_bind, wp_modifyServer, wp_bind.
  apply wp_RetireCapability; apply wp_bind, wp_outside; intros b; apply wp_bind, wp_outside; intros b';
    apply wp_bind; (eapply (wp_cleanup_coherent id w0); [exact Hw2|]); intros w3 Hw3;
    (apply wp_return, HQ; [by left|intros _; exact (stamped_state _ _ _ Hst2)]).
Qed.
(** ** Handlers keep memory and disk together *)

(** An answer of a called handler is the answer of the caller. *)
Lemma wp_pass (m : Run Cfg Outcome) (Q : ChangeSet -> World Cfg -> Prop) (E : Outcome -> World Cfg -> Prop) w :
  wp m E E w -> wp (o ← m; return_ o.1 o.2) Q E w.
Proof.
  intros Hm. apply wp_bind. eapply wp_mono; [exact Hm| |done]. intros [cs f] w' HE. exact HE.
Qed.

Lemma wp_runSteps_coherent id w0 tx steps : forall first cs applied (Q : ChangeSet -> World Cfg -> Prop) E w,
  coherent id w0 w -> cs_ID cs = id -> validateTransactionBinding cs tx = None ->
  (forall cs' w', coherent id w0 w' -> cs_ID cs' = id -> validateTransactionBinding cs' tx = None -> Q cs' w') ->
  (forall o w', settled_for id w0 o w' -> E o w') ->
  wp (runSteps env steps first cs tx applied) Q E w.
Proof.
  induction steps as [|[before op] rest IH]; intros first cs applied Q E w Hw Hid Hb HQ HE; [by apply wp_ret, HQ|].
  cbn [runSteps]. apply wp_bind.
  apply (wp_mono _ (fun cs' w' => coherent id w0 w' /\ cs_ID cs' = id /\ validateTransactionBinding cs' tx = None) _ E); [| |done].
  { apply wp_if; intros _; [|by apply wp_ret].
    eapply wp_progress_coherent; [done..| |intros; apply HE; by left]. intros cs' w' Hw' Hst _.
    by rewrite (stamped_id _ _ _ Hst), (stamped_binding _ _ _ _ Hst). }
  clear cs w Hw Hid Hb. intros cs w (Hw & Hid & Hb). apply wp_bind, wp_orNil, wp_ret. rewrite Hb.
  apply wp_bind, wp_ask. intros n r. set (cs1 := if first && stepOK r then _ else _).
  assert (Hid1 : cs_ID cs1 = id) by (unfold cs1; by destruct (first && stepOK r)).
  assert (Hb1 : validateTransactionBinding cs1 tx = None) by (unfold cs1; by destruct (first && stepOK r)).
  clearbody cs1. apply wp_bind. eapply (wp_progress_coherent id w0); [done..| |intros; apply HE; by left].
  intros cs2 w2 Hw2 Hst2 _.
  assert (Hid2 : cs_ID cs2 = id) by (by rewrite (stamped_id _ _ _ Hst2)).
  assert (Hb2 : validateTransactionBinding cs2 tx = None) by (by rewrite (stamped_binding _ _ _ _ Hst2)).
  assert (HR : forall cs' final reason, cs_ID cs' = id -> validateTransactionBinding cs' tx = None ->
            wp (o ← rollbackLocked env cs' tx final reason; return_ o.1 o.2) Q E w2).
  { intros cs' final reason Hi Hbb. apply wp_pass. eapply wp_rollbackLocked_coherent; [done..|]. auto. }
  apply wp_if; intros E1.
  - apply wp_if; intros E2; [|by apply HR]. apply wp_if; intros E3; [by apply HR|].
    apply wp_bind. eapply (wp_progress_coherent id w0); [done|exact Hid2|exact Hb2| |intros; apply HE; by left].
    intros cs3 w3 Hw3 _ _. apply wp_return, HE. by left.
  - apply wp_if; intros E2; [by apply HR|]. apply IH; [done| | |done|done].
    + by destruct (sr_Step r =s "verify_management_path"), (sr_Step r =s "verify_data_plane").
    + by destruct (sr_Step r =s "verify_management_path"), (sr_Step r =s "verify_data_plane").
Qed.

Lemma wp_commitNoop_coherent id w0 cs Q E w :
  coherent id w0 w -> cs_ID cs = id -> (forall o w', settled_for id w0 o w' -> Q o w' /\ E o w') ->
  wp (commitNoop env cs) Q E w.
Proof.
  intros Hw Hid HQ. apply wp_bind, wp_clock. intros t. apply wp_bind, wp_SaveBatch.
  - intros e. apply wp_return, HQ. by left.
  - apply wp_bind, wp_modifyServer, wp_return, HQ. left. simpl cs_ID. subst id.
    destruct w as [s d c l n], d. revert Hw. unfold coherent, agree, sameActive, onlyChange. simpl.
    intros ((-> & A2 & A3 & A4) & (B1 & B2 & B3) & (C1 & C2 & C3)). split_and!; try done.
    + intros i Hi. rewrite lookup_insert_ne by done. auto.
    + intros i Hi. rewrite lookup_insert_ne by done. auto.
    + intros c0. rewrite lookup_insert_eq. intros [= <-]. by right.
Qed.

Lemma wp_applyNoop_coherent id w0 cs Q E w :
  coherent id w0 w -> cs_ID cs = id -> (forall o w', settled_for id w0 o w' -> Q o w') ->
  wp (applyNoopChangeSet env cs) Q E w.
Proof.
  intros Hw Hid HQ. apply wp_invoke, wp_bind.
  assert (HE : forall o w', settled_for id w0 o w' -> Q o w' /\ Q o w') by auto.
  apply wp_if; intros _; [apply wp_ret, wp_return, HQ; by left|].
  apply wp_LoadJSON; [intros e; apply wp_return, HQ; by left|]. intros revision _.
  apply wp_if; intros _; [apply wp_return, HQ; by left|]. apply wp_if; intros _.
  - apply wp_bind, wp_getServer. apply wp_if; intros _; [apply wp_return, HQ; by left|].
    by eapply wp_commitNoop_coherent.
  - apply wp_bind, wp_ask. intros n r. apply wp_if; intros _; [apply wp_return, HQ; by left|].
    eapply (wp_commitNoop_coherent id w0); [exact Hw|exact Hid|exact HE].
Qed.

Lemma coherent_same id w0 w w' : coherent id w0 w -> sameWorld w w' -> coherent id w0 w'.
Proof. intros Hw [n ->]. done. Qed.

Lemma wp_apply_coherent cs Q E w :
  agree w -> (forall o w', settled_for (cs_ID cs) w o w' -> Q o w') -> wp (applyChangeSet env cs) Q E w.
Proof.
  intros Ha HQ. apply wp_invoke, wp_bind.
  pose proof (coherent_refl (cs_ID cs) w Ha) as Hw. set (id := cs_ID cs) in *.
  assert (HL : forall f w', coherent id w w' -> Q (cs, f) w') by (intros f w' Hw'; apply HQ; by left).
  apply wp_acquire; [intros _|intros f _; by apply HL].
  apply wp_if; intros _; [by apply wp_return, HL|]. apply wp_bind, wp_getServer.
  apply wp_if; intros _; [by apply wp_return, HL|]. apply wp_if; intros _; [by apply wp_return, HL|].
  apply wp_if; intros _; [by eapply wp_applyNoop_coherent|].
  apply wp_bind, wp_orFail, wp_loadVerifiedTransaction; [intros f w' Hs; eapply HL, coherent_same; eauto|].
  intros tx record w1 Hs1 _ _ Hb. pose proof (coherent_same _ _ _ _ Hw Hs1) as Hw1. clear Hs1.
  apply wp_bind, wp_orFail, wp_loadVerifiedCandidate; [intros f w' Hs; eapply HL, coherent_same; eauto|].
  intros c w2 Hs2 _. pose proof (coherent_same _ _ _ _ Hw1 Hs2) as Hw2. clear Hs2.
  apply wp_bind, wp_outside. intros validations. apply wp_if; intros _; [by apply wp_return, HL|].
  apply wp_bind, wp_outside. intros proof. apply wp_bind, wp_orNil, wp_ret. destruct proof as [f|]; [by apply HL|].
  apply wp_if; intros _.
  { apply wp_bind. eapply (wp_progress_coherent id w); [done|reflexivity|exact Hb| |intros; apply HQ; by left].
    intros cs' w' Hw' _ _. apply wp_return, HQ. by left. }
  apply wp_if; intros _.
  { apply wp_bind. eapply (wp_progress_coherent id w); [done|reflexivity|exact Hb| |intros; apply HQ; by left].
    intros cs' w' Hw' _ _. apply wp_return, HQ. by left. }
  apply wp_bind. eapply (wp_runSteps_coherent id w); [done|reflexivity|done| |exact HQ].
  intros cs' w' Hw' Hid' Hb'. apply wp_if; intros _; [eapply wp_rollbackLocked_coherent; [done..|]; auto|].
  apply wp_bind. eapply (wp_progress_coherent id w); [done|exact Hid'|exact Hb'| |intros; apply HQ; by left].
  intros cs2 w3 Hw3 _ _. apply wp_bind. unfold scheduleExpiry.
  destruct (env_parse env _); [apply wp_modifyServer|apply wp_ret]; apply wp_return, HQ; by left.
Qed.

Lemma wp_rollback_coherent cs expired Q E w :
  agree w -> (forall o w', settled_for (cs_ID cs) w o w' -> Q o w') -> wp (rollbackChangeSet env cs expired) Q E w.
Proof.
  intros Ha HQ. apply wp_invoke, wp_bind.
  pose proof (coherent_refl (cs_ID cs) w Ha) as Hw. set (id := cs_ID cs) in *.
  assert (HL : forall f w', coherent id w w' -> Q (cs, f) w') by (intros f w' Hw'; apply HQ; by left).
  apply wp_acquire; [intros _|intros f _; by apply HL].
  apply wp_if; intros _; [by apply wp_return, HL|]. apply wp_if; intros _; [by apply wp_return, HL|].
  apply wp_bind, wp_orFail, wp_loadTransaction; [intros f; by apply HL|]. intros tx record _ _ Hb.
  apply wp_bind, wp_capabilityMatches. intros b. apply wp_if; intros _.
  - apply wp_bind. eapply (wp_progress_coherent id w); [exact Hw|reflexivity|exact Hb| |intros; apply HQ; by left].
    intros cs' w' Hw' _ _. apply wp_return, HQ. by left.
  - eapply (wp_rollbackLocked_coherent id w); [exact Hw|reflexivity|exact Hb|auto].
Qed.
(** ** Confirming *)

(** An event since [w0]. *)
Definition since (w0 w : World Cfg) (e : event) : Prop := exists l, w_log w = w_log w0 ++ l /\ e ∈ l.
Lemma since_mono w0 w w' e : since w0 w e -> w_log w `prefix_of` w_log w' -> since w0 w' e.
Proof.
  intros (l & Hl & He) [l' Hl']. exists (l ++ l'). rewrite Hl', Hl, <- app_assoc. split; [done|]. apply elem_of_app. by left.
Qed.
Lemma since_asked w0 w op r : w_log w0 `prefix_of` w_log w -> since w0 (asked op r w) (Asked op r).
Proof. intros [l Hl]. exists (l ++ [Asked op r]). simpl. rewrite Hl, <- app_assoc. split; [done|]. apply elem_of_app. right. left. Qed.

(** The deployment the disk holds. *)
Definition active_is (candidate : Cfg) (tx : Transaction) (w : World Cfg) : Prop :=
  dc_active_config (w_docs w) = Some candidate /\ dc_active_revision (w_docs w) = Some (tx_RevisionID tx) /\
  dc_config_version (w_docs w) = Some (tx_CandidateVersion tx).

(** The adapter agreed to commit the transaction. *)
Definition commitAgreed (tx : Transaction) (w0 w : World Cfg) : Prop :=
  if env_split env
  then exists r, since w0 w (Asked (CommitPrepared tx) r) /\ ValidatePreparedCommit r tx = true
  else exists r, since w0 w (Asked (Commit tx) r) /\ stepOK r = true.
Lemma commitAgreed_mono tx w0 w w' : commitAgreed tx w0 w -> w_log w `prefix_of` w_log w' -> commitAgreed tx w0 w'.
Proof.
  unfold commitAgreed. destruct (env_split env); intros (r & Hr & Hv) Hp; exists r; (split; [by eapply since_mono|done]).
Qed.

(** The time a confirmation compares with the expiry: its seventh call, after it
    has read the previous revision, the transaction, the three parts of the
    candidate and the capability. *)
Definition confirmedAt (w0 : World Cfg) : time := env_now env (w_tick (later 6 w0)).

(** What became active is a change set that was awaiting its confirmation with
    both verifications, whose transaction is the stored one and had not expired
    when the confirmation read the clock,
    which the adapter reported as deployed, whose candidate was checked by hash
    and validity, and which the adapter agreed to commit. *)
Definition activation (cs : ChangeSet) (w0 w : World Cfg) : Prop :=
  cs_State cs = "awaiting_confirmation" /\ cs_ManagementVerified cs = true /\ cs_DataPlaneVerified cs = true /\
  exists tx record candidate status,
    dc_transactions (w_docs w0) !! cs_TransactionID cs = Some record /\ tr_Transaction record = tx /\
    validateTransactionBinding cs tx = None /\ confirmedAt w0 <= tx_ExpiresAt tx /\
    since w0 w (Asked Status status) /\
    activeMatches status (tx_ID tx) (tx_RevisionID tx) (tx_CandidateHash tx) (tx_ArtifactManifestHash tx) = true /\
    candidateOf cs tx candidate /\ commitAgreed tx w0 w /\ active_is candidate tx w.

(** What is known when the commit of [tx] begins. *)
Definition ready (cs : ChangeSet) (tx : Transaction) (candidate : Cfg) (w0 w : World Cfg) : Prop :=
  cs_State cs = "awaiting_confirmation" /\ cs_ManagementVerified cs = true /\ cs_DataPlaneVerified cs = true /\
  exists record status,
    dc_transactions (w_docs w0) !! cs_TransactionID cs = Some record /\ tr_Transaction record = tx /\
    validateTransactionBinding cs tx = None /\ confirmedAt w0 <= tx_ExpiresAt tx /\
    since w0 w (Asked Status status) /\
    activeMatches status (tx_ID tx) (tx_RevisionID tx) (tx_CandidateHash tx) (tx_ArtifactManifestHash tx) = true /\
    candidateOf cs tx candidate /\ w_log w0 `prefix_of` w_log w.

Lemma ready_mono cs tx candidate w0 w w' :
  ready cs tx candidate w0 w -> w_log w `prefix_of` w_log w' -> ready cs tx candidate w0 w'.
Proof.
  intros (R1 & R2 & R3 & record & status & R4 & R5 & R6 & R7 & R8 & R9 & R10 & R11) Hp.
  split_and!; try done. exists record, status. split_and!; try done; [by eapply since_mono|by etrans].
Qed.
Lemma ready_activation cs tx candidate w0 w w' :
  ready cs tx candidate w0 w -> w_log w `prefix_of` w_log w' -> commitAgreed tx w0 w' -> active_is candidate tx w' ->
  activation cs w0 w'.
Proof.
  intros HR Hp HC HA. apply (ready_mono _ _ _ _ _ _ HR) in Hp as (R1 & R2 & R3 & record & status & R4 & R5 & R6 & R7 & R8 & R9 & R10 & _).
  split_and!; try done. by exists tx, record, candidate, status.
Qed.

(** The answers of a confirmation of [cs0]. *)
Definition confirm_answer (cs0 : ChangeSet) (w0 : World Cfg) (o : Outcome) (w : World Cfg) : Prop :=
  onlyChange (cs_ID cs0) w0 w /\
  (sameActive w0 w /\ (o.2 = None -> cs_State o.1 <> "committed") \/ activation cs0 w0 w) /\
  (agree w \/ fenced w /\ o.2 <> None).

Lemma confirm_settled cs0 w0 o w :
  settled_for (cs_ID cs0) w0 o w -> (o.2 = None -> cs_State o.1 <> "committed") -> confirm_answer cs0 w0 o w.
Proof.
  intros [(Ha & Hs & Ho)|[(Hf & Hs & Ho) He]] Hc; (split; [done|]); (split; [by left|]); [by left|by right].
Qed.

(** Once active, the memory may lag behind the disk, by exactly [cs]. *)
Definition live (cs0 : ChangeSet) (tx : Transaction) (candidate : Cfg) (w0 w : World Cfg) : Prop :=
  onlyChange (cs_ID cs0) w0 w /\ ready cs0 tx candidate w0 w /\ commitAgreed tx w0 w /\ active_is candidate tx w.
Definition lags (cs : ChangeSet) (w : World Cfg) : Prop :=
  dc_changes (w_docs w) = <[cs_ID cs := cs]> (sv_changes (w_server w)).

Lemma live_activation cs0 tx candidate w0 w : live cs0 tx candidate w0 w -> activation cs0 w0 w.
Proof. intros (_ & HR & HC & HA). by eapply ready_activation. Qed.

Lemma live_fence cs0 tx candidate w0 w w' cs' f :
  live cs0 tx candidate w0 w -> fenceRaised w w' -> confirm_answer cs0 w0 (cs', Some f) w'.
Proof.
  intros (Ho & HR & HC & HA) Hf. pose proof (fenceRaised_fenced _ _ Hf) as Hfen.
  destruct Hf as (st & _ & rec & _ & Hsv & Hdocs & _ & Hlog).
  assert (HE : dc_active_config (w_docs w') = dc_active_config (w_docs w) /\ dc_active_revision (w_docs w') = dc_active_revision (w_docs w)
    /\ dc_config_version (w_docs w') = dc_config_version (w_docs w) /\ dc_changes (w_docs w') = dc_changes (w_docs w)).
  { destruct Hdocs as [-> | ->]; [done|]. by destruct (w_docs w). }
  destruct HE as (E1 & E2 & E3 & E4). split; [|split; [right|by right]].
  - unfold onlyChange in *. by rewrite Hsv, E4.
  - eapply ready_activation; [exact HR|by rewrite Hlog|eapply commitAgreed_mono; [done|by rewrite Hlog]|].
    unfold active_is in *. by rewrite E1, E2, E3.
Qed.

Lemma live_log cs0 tx candidate w0 w w' :
  live cs0 tx candidate w0 w -> w_log w `prefix_of` w_log w' -> onlyChange (cs_ID cs0) w0 w' -> active_is candidate tx w' ->
  live cs0 tx candidate w0 w'.
Proof.
  intros (_ & HR & HC & _) Hp Ho HA. split_and!; [done|by eapply ready_mono|by eapply commitAgreed_mono|done].
Qed.

Lemma activate_agree cs0 cs tx candidate w0 w :
  live cs0 tx candidate w0 w -> lags cs w -> cs_ID cs = cs_ID cs0 ->
  let w' := set_w_server (activate candidate tx cs (w_server w)) w in live cs0 tx candidate w0 w' /\ agree w'.
Proof.
  intros HL Hlag Hid. cbv zeta. pose proof HL as ((C1 & C2 & C3) & _ & _ & HA). split.
  - eapply live_log; [exact HL|done| |exact HA]. unfold onlyChange. simpl. split; [exact C1|]. split; [|exact C3].
    intros i Hi. rewrite lookup_insert_ne by (by rewrite Hid). by apply C2.
  - destruct HA as (A1 & A2 & A3). unfold agree. simpl. rewrite Hlag, A1, A2, A3. split_and!; [done..|]. intros c [= ->]. by left.
Qed.

(** The batch that makes the transaction active, and the one that completes it. *)
Lemma activeEntries_live cs0 cs tx candidate revision record w0 w :
  coherent (cs_ID cs0) w0 w -> ready cs0 tx candidate w0 w -> commitAgreed tx w0 w -> cs_ID cs = cs_ID cs0 ->
  let w' := wrote (activeEntries candidate tx revision record cs) w in live cs0 tx candidate w0 w' /\ lags cs w'.
Proof.
  intros (Ha & Hs & Ho) HR HC Hid. cbv zeta. split; [split_and!|].
  - unfold onlyChange in *. destruct w as [s d c l n], d. simpl in *. rewrite Hid. destruct Ho as (C1 & C2 & C3). split_and!.
    + intros i Hi. rewrite lookup_insert_ne by done. auto.
    + done.
    + intros c0. rewrite lookup_insert_eq. intros [= <-]. by right.
  - eapply ready_mono; [exact HR|]. by eexists.
  - eapply commitAgreed_mono; [exact HC|]. by eexists.
  - unfold active_is. destruct w as [s d c l n], d. done.
  - unfold lags. destruct w as [s d c l n], d. unfold agree in Ha. simpl in *. by destruct Ha as [-> _].
Qed.

Lemma completion_live cs0 cs tx candidate r revision t record w0 w :
  live cs0 tx candidate w0 w -> agree w -> cs_ID cs = cs_ID cs0 ->
  let w' := wrote [ERevision r revision; ETransaction t record; EChange (cs_ID cs) cs] w in
  live cs0 tx candidate w0 w' /\ lags cs w'.
Proof.
  intros HL Ha Hid. cbv zeta. pose proof HL as (Ho & _ & _ & HA). split.
  - eapply live_log; [exact HL|by eexists| |].
    + unfold onlyChange in *. destruct w as [s d c l n], d. simpl in *. rewrite Hid. destruct Ho as (C1 & C2 & C3). split_and!.
      * intros i Hi. rewrite lookup_insert_ne by done. auto.
      * done.
      * intros c0. rewrite lookup_insert_eq. intros [= <-]. by right.
    + unfold active_is in *. destruct w as [s d c l n], d. exact HA.
  - unfold lags. destruct w as [s d c l n], d. unfold agree in Ha. simpl in *. by destruct Ha as [-> _].
Qed.

Lemma wp_clearBootGuard tx (Q : option actionFailure -> World Cfg -> Prop) E w :
  (forall f w', w_server w' = w_server w -> w_docs w' = w_docs w -> w_log w `prefix_of` w_log w' -> Q f w') ->
  wp (clearBootGuard env tx) Q E w.
Proof.
  intros HQ. unfold clearBootGuard.
  destruct (env_guard env); [apply wp_ret; by apply HQ|..]; apply wp_bind, wp_ask; intros n r; apply wp_ret, HQ; try done; by eexists.
Qed.

(** The end of both protocols: the boot guard, and the memory. *)
Lemma wp_guarded cs0 cs tx candidate w0 phase (Q : ChangeSet -> World Cfg -> Prop) (E : Outcome -> World Cfg -> Prop) w :
  live cs0 tx candidate w0 w -> lags cs w ->
  (forall w', live cs0 tx candidate w0 w' -> lags cs w' -> Q cs w') ->
  (forall o w', confirm_answer cs0 w0 o w' -> E o w') ->
  wp (failure ← clearBootGuard env tx;
      match failure with
      | Some f => _ ← markRecoveryRequired env (targetOf tx) "boot_guard_clear_failed" phase; return_ cs (Some f)
      | None => mret cs
      end) Q E w.
Proof.
  intros HL Hlag HQ HE. apply wp_bind, wp_clearBootGuard. intros f w' Hs Hd Hp.
  assert (HL' : live cs0 tx candidate w0 w').
  { pose proof HL as (Ho & _ & _ & HA). eapply live_log; [exact HL|done|..].
    - unfold onlyChange in *. by rewrite Hs, Hd.
    - unfold active_is in *. by rewrite Hd. }
  destruct f as [f|]; [|apply wp_ret, HQ; [done|]; unfold lags in *; by rewrite Hs, Hd].
  apply wp_bind, wp_markRecoveryRequired. intros w2 Hf. apply wp_return, HE. by eapply live_fence.
Qed.

Lemma wp_confirmSplit cs0 cs tx candidate w0 (Q : ChangeSet -> World Cfg -> Prop) (E : Outcome -> World Cfg -> Prop) w :
  env_split env = true -> coherent (cs_ID cs0) w0 w -> ready cs0 tx candidate w0 w -> cs_ID cs = cs_ID cs0 ->
  validateTransactionBinding cs tx = None ->
  (forall cs' w', live cs0 tx candidate w0 w' -> lags cs' w' -> cs_ID cs' = cs_ID cs0 -> cs_State cs' = "committed" -> Q cs' w') ->
  (forall o w', confirm_answer cs0 w0 o w' -> E o w') ->
  wp (confirmSplit env cs tx candidate) Q E w.
Proof.
  intros Hsplit Hw HR Hid Hb HQ HE. apply wp_bind, wp_ask. intros n r.
  assert (HF : forall cs' w1 w2 f, coherent (cs_ID cs0) w0 w1 -> fenceRaised w1 w2 -> E (cs', Some f) w2).
  { intros cs' w1 w2 f Hw1 Hf. apply HE, confirm_settled; [|done]. right. split; [by eapply coherent_fence|done]. }
  pose proof HR as (_ & _ & _ & _ & _ & _ & _ & _ & _ & _ & _ & _ & Hpre).
  apply wp_if; intros Ev; apply wp_bind; (eapply (wp_saveProgress_coherent (cs_ID cs0) w0); [exact Hw|exact Hid|exact Hb|]);
    intros cs1 err w1 Hw1 Hst1 Hp1.
  { apply wp_bind, wp_markRecoveryRequired. intros w2 Hf. apply wp_return. by eapply HF. }
  assert (Hid1 : cs_ID cs1 = cs_ID cs0) by (by rewrite (stamped_id _ _ _ Hst1)).
  destruct err as [e|]; [apply wp_bind, wp_markRecoveryRequired; intros w2 Hf; apply wp_return; by eapply HF|].
  apply wp_bind, wp_clock. intros now. apply wp_bind, wp_SaveBatch.
  { intros e. apply wp_bind, wp_markRecoveryRequired. intros w2 Hf. apply wp_return. by eapply (HF _ (tick (tick w1))). }
  set (cs2 := set_cs_CommitPhase "control_plane_committed" (touch env now cs1)).
  assert (HC : commitAgreed tx w0 w1).
  { unfold commitAgreed. rewrite Hsplit. exists r. apply negb_false_iff in Ev. split; [|done].
    eapply since_mono; [|exact Hp1]. by apply since_asked. }
  assert (HR1 : ready cs0 tx candidate w0 w1) by (eapply ready_mono; [exact HR|]; etrans; [by eexists|exact Hp1]).
  match goal with |- context [activeEntries candidate tx ?rv ?rec cs2] =>
    destruct (activeEntries_live cs0 cs2 tx candidate rv rec w0 (tick w1)) as [HL Hlag]; [exact Hw1|exact HR1|exact HC|exact Hid1|] end.
  apply wp_bind, wp_modifyServer. destruct (activate_agree _ _ _ _ _ _ HL Hlag Hid1) as [HL2 Ha2]. clear HL Hlag.
  match goal with |- wp _ _ _ ?w => set (w2 := w) in * end. clearbody w2.
  apply wp_bind, wp_ask. intros n' r'.
  assert (HL3 : live cs0 tx candidate w0 (asked (FinalizeCommit tx) r' w2)).
  { pose proof HL2 as (Ho & _ & _ & HA). eapply live_log; [exact HL2|by eexists|exact Ho|exact HA]. }
  assert (Ha3 : agree (asked (FinalizeCommit tx) r' w2)) by exact Ha2.
  match goal with |- wp _ _ _ ?w => set (w3 := w) in * end. clearbody w3.
  apply wp_if; intros Ev'.
  - apply wp_bind, wp_clock. intros now'. apply wp_bind.
    assert (HX : forall w', live cs0 tx candidate w0 w' -> wp (
        _ ← markRecoveryRequired env (targetOf tx) "adapter_finalize_ambiguous" "finalize_ambiguous";
        return_ (set_cs_CommitPhase "finalize_ambiguous"
                   (set_cs_AdapterStatus (sr_Status r') (addStep r' cs2))) (Some recovery_required)) Q E w').
    { intros w' HL'. apply wp_bind, wp_markRecoveryRequired. intros w4 Hf. apply wp_return, HE. by eapply live_fence. }
    apply wp_SaveBatch; [intros e; exact (HX (tick (tick w3)) HL3)|]. apply HX.
    pose proof HL3 as (Ho & _ & _ & HA). eapply live_log; [exact HL3|by eexists|..]; by destruct w3 as [s d c l m], d.
  - apply wp_bind, wp_clock. intros now'. apply wp_bind, wp_SaveBatch.
    + intros e. apply wp_bind, wp_markRecoveryRequired. intros w4 Hf. apply wp_return, HE.
      eapply (live_fence cs0 tx candidate w0 (tick (tick w3))); [exact HL3|exact Hf].
    + match goal with |- context [EChange _ ?c] => set (cs3 := c) in * end.
      match goal with |- context [ERevision ?r ?rv] => match goal with |- context [ETransaction ?t ?rec] =>
        destruct (completion_live cs0 cs3 tx candidate r rv t rec w0 (tick w3) HL3 Ha3 Hid1) as [HL4 Hlag4] end end.
      eapply (wp_guarded cs0); [exact HL4|exact Hlag4| |exact HE]. intros w' HL' Hlag'. by apply HQ.
Qed.
Lemma wp_confirmLegacy cs0 cs tx candidate w0 (Q : ChangeSet -> World Cfg -> Prop) (E : Outcome -> World Cfg -> Prop) w :
  env_split env = false -> coherent (cs_ID cs0) w0 w -> ready cs0 tx candidate w0 w -> cs_ID cs = cs_ID cs0 ->
  validateTransactionBinding cs tx = None ->
  (forall cs' w', live cs0 tx candidate w0 w' -> lags cs' w' -> cs_ID cs' = cs_ID cs0 -> cs_State cs' = "committed" -> Q cs' w') ->
  (forall o w', confirm_answer cs0 w0 o w' -> E o w') ->
  wp (confirmLegacy env cs tx candidate) Q E w.
Proof.
  intros Hsplit Hw HR Hid Hb HQ HE. apply wp_bind, wp_ask. intros n r.
  assert (HF : forall cs' w1 w2 f, coherent (cs_ID cs0) w0 w1 -> fenceRaised w1 w2 -> E (cs', Some f) w2).
  { intros cs' w1 w2 f Hw1 Hf. apply HE, confirm_settled; [|done]. right. split; [by eapply coherent_fence|done]. }
  assert (HB : forall cs' reason w', coherent (cs_ID cs0) w0 w' -> cs_ID cs' = cs_ID cs0 -> validateTransactionBinding cs' tx = None ->
            wp (o ← rollbackLocked env cs' tx "failed" reason; return_ o.1 o.2) Q E w').
  { intros cs' reason w' Hw' Hi Hbb. apply wp_pass. eapply wp_rollbackLocked_coherent; [done..|].
    intros o w2 Hset Hst. apply HE, confirm_settled; [done|]. intros Hn. by rewrite (Hst Hn). }
  pose proof HR as (_ & _ & _ & _ & _ & _ & _ & _ & _ & _ & _ & _ & Hpre).
  apply wp_if; intros Ev; [apply HB; [exact Hw|exact Hid|exact Hb]|].
  apply wp_bind. eapply (wp_saveProgress_coherent (cs_ID cs0) w0); [exact Hw|exact Hid|exact Hb|].
  intros cs1 err w1 Hw1 Hst1 Hp1.
  destruct err as [e|]; [apply wp_bind, wp_markRecoveryRequired; intros w2 Hf; apply wp_return; by eapply HF|].
  assert (Hid1 : cs_ID cs1 = cs_ID cs0) by (by rewrite (stamped_id _ _ _ Hst1)).
  apply wp_if; intros Eok; [apply HB; [exact Hw1|exact Hid1|by rewrite (stamped_binding _ _ _ _ Hst1)]|].
  apply wp_bind, wp_clock. intros now. apply wp_bind, wp_SaveBatch.
  { intros e. apply wp_bind, wp_markRecoveryRequired. intros w2 Hf. apply wp_return. by eapply (HF _ (tick (tick w1))). }
  assert (HC : commitAgreed tx w0 w1).
  { unfold commitAgreed. rewrite Hsplit. exists r. apply negb_false_iff in Eok. split; [|done].
    eapply since_mono; [|exact Hp1]. by apply since_asked. }
  assert (HR1 : ready cs0 tx candidate w0 w1) by (eapply ready_mono; [exact HR|]; etrans; [by eexists|exact Hp1]).
  match goal with |- context [activeEntries candidate tx ?rv ?rec ?cs2] =>
    destruct (activeEntries_live cs0 cs2 tx candidate rv rec w0 (tick w1)) as [HL Hlag]; [exact Hw1|exact HR1|exact HC|exact Hid1|] end.
  eapply (wp_guarded cs0); [exact HL|exact Hlag| |exact HE]. intros w' HL' Hlag'. by apply HQ.
Qed.

Lemma live_cleanup cs0 tx candidate w0 t b (Q : unit -> World Cfg -> Prop) E w :
  live cs0 tx candidate w0 w -> agree w -> (forall w', live cs0 tx candidate w0 w' -> agree w' -> Q tt w') ->
  wp (saveCleanupStatus env t b) Q E w.
Proof.
  intros HL Ha HQ. apply wp_bind, wp_SaveBatch; [intros e; by apply wp_ret, HQ|]. apply wp_ret, HQ.
  - pose proof HL as (Ho & _ & _ & HA). eapply live_log; [exact HL|by eexists|..]; by destruct w as [s d c l m], d.
  - by destruct w as [s d c l m], d.
Qed.

Lemma wp_cleanupCommitted cs0 tx candidate w0 previous (Q : unit -> World Cfg -> Prop) E w :
  live cs0 tx candidate w0 w -> agree w -> (forall w', live cs0 tx candidate w0 w' -> agree w' -> Q tt w') ->
  wp (cleanupCommittedResources env tx previous) Q E w.
Proof.
  intros HL Ha HQ. apply wp_bind.
  assert (HX : forall b w', live cs0 tx candidate w0 w' -> agree w' ->
    wp (proof ← outside (env_cleanup env); current ← outside (env_cleanup env);
        obsolete ← (match previous with
                    | Some p => if (rv_RevisionID p <>s "") && (rv_TransactionID p <>s "") && (rv_TransactionID p <>s tx_ID tx)
                                then outside (env_cleanup env) else mret true
                    | None => mret true end);
        saveCleanupStatus env tx (b && proof && current && obsolete)) Q E w').
  { intros b w' HL' Ha'. apply wp_bind, wp_outside. intros b1. apply wp_bind, wp_outside. intros b2. apply wp_bind.
    destruct previous as [p|]; [apply wp_if; intros _; [apply wp_outside; intros b3|apply wp_ret]|apply wp_ret];
      (eapply live_cleanup; [exact HL'|exact Ha'|exact HQ]). }
  apply wp_RetireCapability; apply HX; done.
Qed.

Lemma wp_confirm_coherent cs Q E w :
  agree w -> (forall o w', confirm_answer cs w o w' -> Q o w') -> wp (confirmChangeSet env cs) Q E w.
Proof.
  intros Ha HQ. apply wp_invoke, wp_bind. pose proof (coherent_refl (cs_ID cs) w Ha) as Hw.
  assert (HL : forall f w', coherent (cs_ID cs) w w' -> Q (cs, Some f) w').
  { intros f w' Hw'. apply HQ, confirm_settled; [by left|done]. }
  assert (HB : forall cs' tx final reason w', coherent (cs_ID cs) w w' -> cs_ID cs' = cs_ID cs ->
      validateTransactionBinding cs' tx = None -> final <> "committed" -> wp (rollbackLocked env cs' tx final reason) Q Q w').
  { intros cs' tx final reason w' Hw' Hi Hbb Hfin. eapply wp_rollbackLocked_coherent; [done..|].
    intros o w2 Hset Hst. apply HQ, confirm_settled; [done|]. intros Hn. by rewrite (Hst Hn). }
  apply wp_acquire; [intros _|intros f _; by apply HL].
  apply wp_if; intros E1; [by apply wp_return, HL|]. apply wp_if; intros E2; [by apply wp_return, HL|]. bool_split. str_eq.
  apply wp_bind, wp_getServer, wp_bind.
  apply (wp_mono _ (fun _ w' => w' = tick w) _ Q); [by apply wp_LoadJSON| |done]. intros previous ? ->.
  apply wp_bind, wp_orFail, wp_loadVerifiedTransaction_at; [intros f w' [n ->]; by apply HL|].
  intros tx record Hrec Htx Hb. apply wp_bind, wp_clock_at. apply wp_if; intros E3.
  { apply wp_bind. eapply (wp_rollbackLocked_coherent (cs_ID cs) w); [done|done|done|]. intros o w2 Hset _.
    apply wp_return, HQ, confirm_settled; [|done]. destruct Hset as [Hset|[Hset _]]; [by left|by right]. }
  apply wp_bind, wp_ask. intros n status. apply wp_if; intros E4; [by apply HB|].
  apply wp_bind, wp_loadVerifiedCandidate; [intros f w' [n' ->]; by apply HB|]. intros candidate w2 [n2 ->] Hcand.
  apply wp_bind, wp_outside. intros adaptive. apply wp_if; intros E5; [by apply HB|].
  apply wp_bind. eapply (wp_progress_coherent (cs_ID cs) w); [exact Hw|reflexivity|exact Hb| |intros; apply HQ, confirm_settled; [by left|done]].
  intros cs1 w2 Hw2 Hst2 Hp2.
  assert (Hid1 : cs_ID cs1 = cs_ID cs) by (by rewrite (stamped_id _ _ _ Hst2)).
  assert (Hb1 : validateTransactionBinding cs1 tx = None) by (by rewrite (stamped_binding _ _ _ _ Hst2)).
  assert (HR : ready cs tx candidate w w2).
  { split; [done|]. split; [done|]. split; [done|]. exists record, status. split_and!; try done.
    - unfold T.After in E3. apply Z.ltb_ge in E3. exact E3.
    - eapply since_mono; [|exact Hp2]. by apply (since_asked w w Status status).
    - by apply negb_false_iff.
    - etrans; [|exact Hp2]. by eexists. }
  apply wp_bind.
  apply (wp_mono _ (fun cs' w' => live cs tx candidate w w' /\ lags cs' w' /\ cs_ID cs' = cs_ID cs /\ cs_State cs' = "committed") _ Q);
    [|clear cs1 w2 Hw2 Hst2 Hp2 Hid1 Hb1 HR|done].
  { destruct (env_split env) eqn:Es; [eapply wp_confirmSplit|eapply wp_confirmLegacy]; try done; auto. }
  intros cs1 w2 (Hlive & Hlag & Hid1 & Hst1). apply wp_bind, wp_modifyServer.
  destruct (activate_agree _ _ _ _ _ _ Hlive Hlag Hid1) as [HL2 Ha2]. apply wp_bind, wp_modifyServer, wp_bind.
  eapply (wp_cleanupCommitted cs tx candidate w); [exact HL2|exact Ha2|]. intros w4 HL4 Ha4.
  apply wp_return, HQ. split; [apply HL4|]. split; [right; by eapply live_activation|by left].
Qed.
(** ** Starting *)

(** The documents of the changes are filed under their ids. *)
Definition well_keyed (d : Documents Cfg) : Prop := forall k c, dc_changes d !! k = Some c -> cs_ID c = k /\ k <> "".

Definition solid (w : World Cfg) : Prop := agree w /\ well_keyed (w_docs w).

Lemma well_keyed_change id w w' : well_keyed (w_docs w) -> id <> "" -> onlyChange id w w' -> well_keyed (w_docs w').
Proof.
  intros Hk Hid (C1 & _ & C3) k c Hc. destruct (decide (k = id)) as [->|Hne].
  - destruct (C3 _ Hc) as [Hc'|Hc']; [by apply Hk|done].
  - rewrite C1 in Hc by done. by apply Hk.
Qed.

Lemma activated_agree candidate tx revision record cs w :
  solid w -> cs_ID cs <> "" ->
  let w' := wrote (activeEntries candidate tx revision record cs) w in
  forall w2, w_server w2 = w_server w' -> w_docs w2 = w_docs w' ->
  solid (set_w_server (activate candidate tx cs (w_server w2)) w2).
Proof.
  destruct w as [s d c l n], d. unfold solid, agree, well_keyed. simpl. intros [(Hch & _) Hk] Hid w2 -> ->. simpl. rewrite Hch.
  split; [split_and!; [done..|]; intros ? [= ->]; by left|]. intros k c0 [[<- <-]|[_ Hc]]%lookup_insert_Some; [done|by apply Hk].
Qed.

Lemma wp_cleanup_agree tx previous (Q : unit -> World Cfg -> Prop) E w :
  solid w -> (forall w', solid w' -> Q tt w') -> wp (cleanupCommittedResources env tx previous) Q E w.
Proof.
  intros Ha HQ. apply wp_bind.
  assert (HC : forall b w', solid w' -> wp (saveCleanupStatus env tx b) Q E w').
  { intros b w' Ha'. apply wp_bind, wp_SaveBatch; [intros e|]; apply wp_ret, HQ; [done|]. by destruct w' as [s d c l m], d. }
  apply wp_RetireCapability; apply wp_bind, wp_outside; intros b1; apply wp_bind, wp_outside; intros b2; apply wp_bind;
    (destruct previous as [p|]; [apply wp_if; intros _; [apply wp_outside; intros b3|apply wp_ret]|apply wp_ret]); by apply HC.
Qed.

Lemma wp_finalizeRecovered cs tx (Q : ChangeSet * option string -> World Cfg -> Prop) E w :
  solid w -> cs_ID cs <> "" -> (forall cs' e w', Q (cs', Some e) w') -> (forall cs' w', solid w' -> Q (cs', None) w') ->
  wp (finalizeRecoveredCommit env cs tx) Q E w.
Proof.
  intros Ha Hid HF HQ. apply wp_bind, wp_getServer, wp_bind.
  apply (wp_mono _ (fun _ w' => w' = tick w) _ E); [by apply wp_LoadJSON| |done]. intros previous ? ->.
  apply wp_bind, wp_loadVerifiedCandidate; [intros f w' _; apply wp_ret, HF|]. intros candidate w1 [n ->] _.
  apply wp_bind, wp_clock. intros now. apply wp_bind, wp_SaveBatch; [intros e; apply wp_ret, HF|].
  apply wp_bind, wp_clearBootGuard. intros [f|] w2 Hs Hd _; [apply wp_ret, HF|].
  apply wp_bind, wp_modifyServer, wp_bind, wp_modifyServer, wp_bind, wp_cleanup_agree.
  - refine (activated_agree candidate tx _ _ (set_cs_CommitPhase "adapter_finalized" (touch env now (set_cs_State "committed" cs)))
              (tick (set_w_tick n (tick w))) Ha Hid w2 Hs Hd).
  - intros w' Ha'. by apply wp_ret, HQ.
Qed.

Lemma wp_completeOrFence cs tx (Q : option string -> World Cfg -> Prop) E w :
  solid w -> cs_ID cs <> "" -> (forall e w', Q (Some e) w') -> (forall w', solid w' -> Q None w') -> wp (completeOrFence env cs tx) Q E w.
Proof.
  intros Ha Hid HF HQ. apply wp_bind, wp_finalizeRecovered; [done|done| |].
  - intros cs' e w'. apply wp_bind, wp_markRecoveryRequired. intros w2 _. apply wp_ret, HF.
  - intros cs' w' Ha'. by apply wp_ret, HQ.
Qed.

Lemma wp_recoverRollback cs tx (Q : option string -> World Cfg -> Prop) E w :
  solid w -> cs_ID cs <> "" -> validateTransactionBinding cs tx = None ->
  (forall e w', Q (Some e) w') -> (forall w', solid w' -> Q None w') -> wp (recoverRollback env cs tx) Q E w.
Proof.
  intros Ha Hid Hb HF HQ. apply wp_bind.
  apply (wp_mono _ (fun _ w' => solid w') _ E); [|clear w Ha; intros final w Ha|done].
  { apply wp_if; intros _; [apply wp_bind, wp_clock; intros t|]; by apply wp_ret. }
  apply wp_bind. eapply (wp_rollbackLocked_coherent (cs_ID cs) w); [by apply coherent_refl, Ha|done|done|].
  intros [cs' f] w' Hset _. apply wp_ret. destruct f as [f|]; simpl; [apply HF|]. apply HQ.
  destruct Hset as [(Ha' & _ & Ho)|[_ Hn]]; [|by destruct Hn].
  split; [done|]. eapply well_keyed_change; [apply Ha|exact Hid|exact Ho].
Qed.

Lemma wp_recoverOther cs tx matches phase (Q : option string -> World Cfg -> Prop) E w :
  solid w -> cs_ID cs <> "" -> validateTransactionBinding cs tx = None ->
  (forall e w', Q (Some e) w') -> (forall w', solid w' -> Q None w') -> wp (recoverOther env cs tx matches phase) Q E w.
Proof.
  intros Ha Hid Hb HF HQ. apply wp_bind.
  apply (wp_mono _ (fun _ w' => solid w') _ E); [|clear w Ha; intros waiting w Ha|done].
  { apply wp_if; intros _; [apply wp_bind, wp_clock; intros t|]; by apply wp_ret. }
  apply wp_if; intros _.
  - apply wp_bind. unfold scheduleExpiry. destruct (env_parse env _); [apply wp_modifyServer|apply wp_ret]; by apply wp_ret, HQ.
  - apply wp_if; intros _; [|by apply wp_recoverRollback].
    apply wp_bind, wp_markRecoveryRequired. intros w' _. apply wp_ret, HF.
Qed.

(** The zero change set is bound to no transaction. *)
Lemma unbound_zero tx : validateTransactionBinding zero_Change tx <> None.
Proof.
  unfold validateTransactionBinding. simpl. by destruct (tx_ID tx =s ""), (tx_RevisionID tx =s "").
Qed.

Lemma wp_recoverOne id (Q : option string -> World Cfg -> Prop) E w :
  solid w -> (forall e w', Q (Some e) w') -> (forall w', solid w' -> Q None w') -> wp (recoverOne env id) Q E w.
Proof.
  intros Ha HF HQ. apply wp_bind, wp_getServer, wp_bind, wp_loadTransaction; [intros f; apply wp_ret, HF|].
  intros tx record _ _ Hb. apply wp_bind, wp_LoadJSON; [intros e; apply wp_ret, HF|]. intros record' _.
  apply wp_bind, wp_ask. intros n status.
  assert (Hid : cs_ID (default zero_Change (sv_changes (w_server w) !! id)) <> "").
  { destruct Ha as [(Hch & _) Hk]. rewrite Hch. destruct (dc_changes (w_docs w) !! id) as [cs|] eqn:Ec; simpl.
    - by destruct (Hk _ _ Ec) as [-> ?].
    - exfalso. revert Hb. rewrite Hch, Ec. by apply unbound_zero. }
  assert (HO : wp (recoverOther env (default zero_Change (sv_changes (w_server w) !! id)) tx
                     (activeMatches status (tx_ID tx) (tx_RevisionID tx) (tx_CandidateHash tx) (tx_ArtifactManifestHash tx))
                     (tr_CommitPhase record')) Q E (asked Status status (tick (tick w)))) by (by apply wp_recoverOther).
  apply wp_if; intros _; [|exact HO].
  destruct (decide_committing _ _); [| | | | |exact HO].
  - apply wp_bind, wp_finalizeRecovered; [done|done|intros; apply wp_ret, HF|intros; by apply wp_ret, HQ].
  - apply wp_if; intros _; [apply wp_bind, wp_markRecoveryRequired; intros w' _; apply wp_ret, HF|].
    apply wp_bind, wp_ask. intros n' r.
    apply wp_if; intros _; [apply wp_bind, wp_markRecoveryRequired; intros w' _; apply wp_ret, HF|].
    by apply wp_completeOrFence.
  - by apply wp_completeOrFence.
  - apply wp_bind, wp_markRecoveryRequired; intros w' _; apply wp_ret, HF.
  - apply wp_bind, wp_markRecoveryRequired; intros w' _; apply wp_ret, HF.
Qed.

Lemma wp_recoverAll ids : forall (Q : option string -> World Cfg -> Prop) E w,
  solid w -> (forall e w', Q (Some e) w') -> (forall w', solid w' -> Q None w') -> wp (recoverAll env ids) Q E w.
Proof.
  induction ids as [|id rest IH]; intros Q E w Ha HF HQ; [by apply wp_ret, HQ|].
  apply wp_bind, wp_recoverOne; [done|intros; apply wp_ret, HF|]. intros w' Ha'. by apply IH.
Qed.
(** [m] changes neither the memory nor the documents. *)
Definition observes {A} (m : Run Cfg A) : Prop :=
  forall Q E w, (forall a w', w_server w' = w_server w -> w_docs w' = w_docs w -> Q a w') -> wp m Q E w.

Lemma observes_ret {A} (a : A) : observes (mret a).
Proof. intros Q E w HQ. apply wp_ret. by apply HQ. Qed.
Lemma observes_bind {A B} (m : Run Cfg A) (f : A -> Run Cfg B) : observes m -> (forall a, observes (f a)) -> observes (m ≫= f).
Proof.
  intros Hm Hf Q E w HQ. apply wp_bind, Hm. intros a w' Hs Hd. apply Hf. intros b w2 Hs2 Hd2.
  apply HQ; congruence.
Qed.
Lemma observes_ask op : observes (ask env op).
Proof. intros Q E w HQ. apply wp_ask. intros n. by apply HQ. Qed.
Lemma observes_load {A} (get : Documents Cfg -> option A) : observes (LoadJSON env get).
Proof. intros Q E w HQ. apply wp_LoadJSON; intros; by apply HQ. Qed.
Lemma observes_server : observes (@getServer Cfg).
Proof. intros Q E w HQ. apply wp_getServer. by apply HQ. Qed.
Lemma observes_candidate cs tx : observes (loadVerifiedCandidate env cs tx).
Proof. intros Q E w HQ. apply wp_loadVerifiedCandidate; [intros f w' [n ->]|intros c w' [n ->] _]; by apply HQ. Qed.
Lemma observes_if {A} (b : bool) (m m' : Run Cfg A) : observes m -> observes m' -> observes (if b then m else m').
Proof. by destruct b. Qed.

Lemma observes_reconcile n target : observes (reconcileLoop env n target).
Proof.
  induction n as [|[|n] IH]; simpl; (apply observes_bind; [apply observes_ask|intros r]); [apply observes_ret..|].
  apply observes_if; [apply observes_ret|done].
Qed.

Lemma observes_verify revision active : observes (verifyCommitted env revision active).
Proof.
  unfold verifyCommitted. apply observes_if; [apply observes_ret|].
  apply observes_bind; [apply observes_load|intros [record|e]; [|apply observes_ret]].
  apply observes_if; [apply observes_ret|]. apply observes_bind; [apply observes_server|intros s].
  destruct (sv_changes s !! _) as [cs|]; [|apply observes_ret]. apply observes_if; [apply observes_ret|].
  apply observes_bind; [apply observes_candidate|intros [c|f]; [|apply observes_ret]].
  apply observes_if; apply observes_ret.
Qed.

Lemma observes_committed : observes (committedStatus env).
Proof.
  unfold committedStatus. apply observes_bind; [apply observes_server|intros s]. apply observes_if; [apply observes_ret|].
  apply observes_bind; [apply observes_load|intros [revision|e]; [|apply observes_ret]]. apply observes_if.
  - unfold recoverBaseline. apply observes_if; [apply observes_ret|]. apply observes_bind; [|intros b; apply observes_ret].
    apply observes_if; [apply observes_bind; [apply observes_ask|intros r; apply observes_ret]|apply observes_ret].
  - apply observes_if; [apply observes_ret|]. apply observes_bind; [apply observes_verify|intros [st|]; [apply observes_ret|]].
    apply observes_bind; [apply observes_reconcile|intros r]. apply observes_if; [apply observes_ret|].
    apply observes_bind; [apply observes_ask|intros status]. apply observes_if; apply observes_ret.
Qed.

Lemma agree_fenceSet st w w' : agree w -> fenceSet st w w' -> agree w'.
Proof.
  intros Ha (rec & _ & Hs & Hd & _). unfold agree in *. rewrite Hs. destruct Hd as [-> | ->]; [done|].
  by destruct w as [s d c l m], d.
Qed.

Lemma loadPersisted_same d : well_keyed d -> loadPersistedChangeSets d = dc_changes d.
Proof.
  intros Hk. unfold loadPersistedChangeSets. set (l := gosort _ _).
  assert (Hl : l ≡ₚ map_to_list (dc_changes d)) by apply gosort_perm.
  assert (HE : map (fun cs => (cs_ID cs, cs)) (List.filter (fun cs => cs_ID cs <>s "") (map snd l)) = l).
  { assert (Hin : forall k c, (k, c) ∈ l -> cs_ID c = k /\ k <> "").
    { intros k c Hc. apply Hk. apply elem_of_map_to_list. by rewrite <- Hl. }
    clearbody l. clear Hl. induction l as [|[k c] l IH]; [done|]. simpl.
    destruct (Hin k c) as [<- Hne]; [left|]. apply String.eqb_neq in Hne. rewrite Hne. simpl. f_equal.
    apply IH. intros k' c' Hc'. apply Hin. by right. }
  rewrite HE. rewrite <- (list_to_map_to_list (dc_changes d)) at 1. symmetry. apply list_to_map_proper.
  - apply NoDup_fst_map_to_list.
  - etrans; [symmetry; exact Hl|apply Permutation_rev].
Qed.

Lemma wp_readsSucceed n : forall (Q : bool -> World Cfg -> Prop) E w,
  (forall b w', sameWorld w w' -> Q b w') -> wp (readsSucceed env n) Q E w.
Proof.
  induction n as [|n IH]; intros Q E w HQ; [by apply wp_ret, HQ, sameWorld_refl|].
  apply wp_bind, wp_outside. intros [e|]; [by apply wp_ret, HQ, sameWorld_tick, sameWorld_refl|].
  apply IH. intros b w' [m ->]. apply HQ. by exists m.
Qed.

Lemma wp_setRecovery_solid st (Q : unit -> World Cfg -> Prop) E w :
  solid w -> (forall w', solid w' -> Q tt w') -> wp (setRecoveryStatusDuringMutation env st) Q E w.
Proof.
  intros [Ha Hk] HQ. apply wp_setRecovery. intros w' Hf. apply HQ. split; [by eapply agree_fenceSet|].
  destruct Hf as (rec & _ & _ & [-> | ->] & _); [done|]. by destruct (w_docs w).
Qed.

Lemma wp_recoverAssignments (Q : unit -> World Cfg -> Prop) E w :
  solid w -> (forall w', solid w' -> Q tt w') -> wp (recoverAssignments env) Q E w.
Proof.
  intros Hw HQ. apply wp_bind, wp_getServer. apply wp_if; intros _; [|by apply wp_ret, HQ].
  apply wp_bind, wp_outside. intros b. apply wp_if; intros _; [by apply wp_ret, HQ|].
  by apply (wp_setRecovery_solid _ _ _ (tick w)).
Qed.

(** What [construct] makes of the stored configuration. *)
Definition loadedConfig (active : Cfg) (w : World Cfg) : Prop := forall c, dc_active_config (w_docs w) = Some c -> env_validate env c = Ok active.
Lemma wp_construct fallback (Q : bool -> World Cfg -> Prop) E w :
  Q false w -> (forall active, loadedConfig active w -> Q true (set_w_server (newServer active (w_docs w)) w)) -> wp (construct env fallback) Q E w.
Proof.
  intros HF HT. unfold wp, construct, loadedConfig in *. destruct (dc_active_config (w_docs w)) as [c|].
  - destruct (env_validate env c) as [active|] eqn:E1; [|exact HF]. apply HT. by intros ? [= <-].
  - by apply HT.
Qed.
Lemma solid_newServer active w : loadedConfig active w -> well_keyed (w_docs w) -> solid (set_w_server (newServer active (w_docs w)) w).
Proof.
  intros HL Hk. split; [|exact Hk]. unfold agree. simpl. split_and!; [by apply loadPersisted_same|done|done|]. intros c Hc. right. by apply HL.
Qed.

Lemma wp_proceed (ok next : Run Cfg bool) (Q : bool -> World Cfg -> Prop) E w :
  wp ok (fun b w' => if b then wp next Q E w' else Q false w') E w -> wp (proceed ok next) Q E w.
Proof. intros Hok. apply wp_bind. eapply wp_mono; [exact Hok| |done]. by intros [|] w'. Qed.

Lemma wp_adaptiveRuntime (Q : bool -> World Cfg -> Prop) E w : (forall b, Q b (tick w)) -> wp (adaptiveRuntime env) Q E w.
Proof. intros HQ. by apply wp_bind, wp_getServer, wp_outside. Qed.

Lemma wp_start fallback (Q : bool -> World Cfg -> Prop) E w :
  well_keyed (w_docs w) -> (forall w', Q false w') -> (forall w', solid w' -> Q true w') -> wp (start env fallback) Q E w.
Proof.
  intros Hk HF HQ. apply wp_proceed, wp_readsSucceed. intros [|] w1 [n ->]; [|apply HF].
  set (w1 := set_w_tick n w). apply wp_proceed, wp_construct; [apply HF|]. intros active HL.
  pose proof (solid_newServer active w1 HL Hk) as Hw1.
  apply wp_proceed, wp_adaptiveRuntime. intros [|]; [|apply HF].
  apply wp_proceed, wp_bind, wp_bind, wp_getServer. apply wp_recoverAll; [exact Hw1|intros e w'; apply wp_ret, HF|].
  intros w' [Ha Hk']. apply wp_ret, wp_proceed, wp_adaptiveRuntime. intros [|]; [|apply HF].
  apply wp_bind, wp_bind, observes_committed. intros st w2 Hs Hd.
  apply wp_setRecovery_solid; [split; [unfold agree in *; by rewrite Hs, Hd|by rewrite Hd]|].
  intros w3 Hw3. apply wp_bind, wp_recoverAssignments; [exact Hw3|]. intros w4 Hw4. by apply wp_ret, HQ.
Qed.
End Logic.
