(* ===== verification/Requests.v ===== *)
(** * Requests on change sets

    Drafting and validating a change set ([createDraftChange],
    [validateChangeSet]) and the dispatch of the actions of the HTTP interface
    ([handleChanges], [handleChangeByID]) and of the expiry timers, on top of the
    transaction engine. *)
From Stdlib Require Import ZArith Lia.
From stdpp Require Import base list strings gmap sorting pretty.
From S2P Require Import Prelude Interfaces Json Candidate Adapter Transaction.

Open Scope Z_scope.

Section Requests.
Context {Cfg : Type} (env : Env Cfg).

(** ** Drafts *)

(** The change set, or the reason it was not created: [None] for a failure that
    is no [actionFailure]. *)
Definition createDraftChange (baseVersion : Z) (operations : list ChangeOp)
    : Run Cfg (ChangeSet + option actionFailure) :=
  s ← getServer;
  match mutationFailure (sv_recovery s) with
  | Some f => mret (inr (Some f))
  | None =>
      if negb (baseVersion =? sv_configVersion s) then mret (inr (Some (conflict "base_version_conflict")))
      else
        now ← clock env;
        random ← outside (env_random env);
        match random with
        | Err _ => mret (inr None)
        | Ok randomID =>
            let change := mkDraft ("chg_" +:+ randomID) baseVersion operations (env_format env now) in
            _ ← setChange change;
            err ← SaveJSON env (EChange (cs_ID change) change);
            match err with
            | Some _ => _ ← modifyServer (fun s => set_sv_changes (delete (cs_ID change) (sv_changes s)) s); mret (inr None)
            | None => mret (inl change)
            end
        end
  end.

(** The [POST] of [handleChanges]. *)
Definition handleCreate (title : string) (baseVersion : Z) (operations : list ChangeOp)
    : Run Cfg (ChangeSet + actionFailure) :=
  if S.is_empty (S.TrimSpace title) || (120 <? S.len title) then mret (inr (mkFailure 400 "invalid_title"))
  else match operations with
  | [] => mret (inr (mkFailure 400 "operations_required"))
  | _ =>
      r ← createDraftChange baseVersion operations;
      mret (match r with
            | inl cs => inl cs
            | inr (Some f) => inr f
            | inr None => inr internalFailure
            end)
  end.

(** ** Validation *)

Definition saveChange (cs : ChangeSet) (stateName : string) : Run Cfg (ChangeSet * option string) :=
  now ← clock env;
  let cs := stamp env stateName now cs in
  err ← SaveJSON env (EChange (cs_ID cs) cs);
  match err with Some e => mret (cs, Some e) | None => _ ← setChange cs; mret (cs, None) end.

(** The change set in memory holds the same operations as the copy in hand: what
    [buildCandidate] does to their values is done to both. *)
Definition shareOperations (id : string) (operations : list ChangeOp) : Run Cfg unit :=
  modifyServer (fun s => set_sv_changes (alter (set_cs_Operations operations) id (sv_changes s)) s).

(** A candidate that equals the active configuration: [Some] when the change set
    is a no-op. *)
Definition noopRevision (active : string) (canonical : json) : Run Cfg (option revisionRecord) :=
  if active =s "" then mret None
  else
    loaded ← LoadJSON env (fun d => dc_revisions d !! active);
    mret (match loaded with
          | inl revision =>
              if (rv_State revision =s "committed") && (rv_CandidateHash revision =s env_hashBytes env (env_text env canonical))
              then Some revision else None
          | inr _ => None
          end).

Definition validateNoop (cs : ChangeSet) (currentVersion : Z) (revision : revisionRecord) : Run Cfg Outcome :=
  now ← clock env;
  let cs := cs |> set_cs_State "validated" |> set_cs_Noop true |> set_cs_CandidateVersion currentVersion
               |> set_cs_CandidateHash (rv_CandidateHash revision)
               |> set_cs_ArtifactManifestHash (rv_ArtifactManifestHash revision) |> set_cs_RevisionID (rv_RevisionID revision)
               |> set_cs_TransactionID (rv_TransactionID revision) |> set_cs_Diff [] |> set_cs_AdapterStatus "NOOP_PENDING"
               |> touch env now in
  err ← SaveJSON env (EChange (cs_ID cs) cs);
  match err with Some _ => return_ cs (Some internalFailure) | None => _ ← setChange cs; return_ cs None end.

(** [PersistCapability], and an outside step that retires it again when it fails. *)
Definition PersistCapability (tx : Transaction) : Run Cfg bool := fun w =>
  if env_persistCapability env (w_tick w) tx then (inl true, set_w_caps (w_caps w ∪ {[tx_ID tx]}) (tick w)) else (inl false, tick w).
Definition orRetire {A} (cs : ChangeSet) (tx : Transaction) (failure : actionFailure) (m : nat -> result A) : Run Cfg A :=
  r ← outside m;
  match r with Ok a => mret a | Err _ => _ ← RetireCapability env tx; return_ cs (Some failure) end.
Definition succeeds (ok : bool) : result unit := if ok then Ok tt else Err "failed".

Definition bindArtifacts (hash : string) (manifest : Manifest) (tx : Transaction) : Transaction :=
  bindReadiness hash (mf_DeploymentReady manifest) (mf_BlockReason manifest) (mf_Simulation manifest) tx.

(** The files of a candidate: the transaction bound to its artifacts, and their
    manifest. *)
Definition prepareArtifacts (cs : ChangeSet) (candidate : Cfg) (canonical : json) (candidateVersion : Z)
    : Run Cfg (Transaction * Manifest) :=
  random ← outside (env_random env);
  match random with
  | Err _ => return_ cs (Some internalFailure)
  | Ok randomRevision =>
      let revisionID := "rev_" +:+ pretty candidateVersion +:+ "_" +:+ randomRevision in
      id ← outside (env_random env);
      token ← outside (env_random env);
      now ← clock env;
      match NewTransaction (env_join env) (env_hashBytes env) (env_stateDir env) (env_rollbackTimeout env) id token now
              (cs_ID cs) revisionID (cs_BaseVersion cs) candidateVersion (env_text env canonical) with
      | Err _ => return_ cs (Some internalFailure)
      | Ok tx =>
          written ← outside (fun n => env_writeCandidate env n tx);
          if negb written then return_ cs (Some internalFailure)
          else
            persisted ← PersistCapability tx;
            if negb persisted then return_ cs (Some internalFailure)
            else
              _ ← orRetire cs tx internalFailure (fun n => succeeds (env_diagnostics env n candidate));
              '(manifest, hash) ← orRetire cs tx internalFailure (fun n => env_generate env n tx candidate);
              let tx := bindArtifacts hash manifest tx in
              bound ← orRetire cs tx (mkFailure 422 "adaptive_candidate_invalid") (fun n => env_bindAdaptive env n tx candidate);
              let tx := bindArtifacts bound manifest tx in
              _ ← orRetire cs tx internalFailure (fun n => succeeds (env_persistBinding env n tx));
              mret (tx, manifest)
      end
  end.

(** The change set bound to its transaction. *)
Definition bindChange (tx : Transaction) (manifest : Manifest) (candidateVersion : Z) (changed : list ChangeOp) (now : time)
    (cs : ChangeSet) : ChangeSet :=
  cs |> set_cs_State "validated" |> set_cs_CandidateVersion candidateVersion |> set_cs_CandidateHash (tx_CandidateHash tx)
     |> set_cs_CandidatePath (tx_CandidatePath tx) |> set_cs_ArtifactManifestHash (tx_ArtifactManifestHash tx)
     |> set_cs_ArtifactsReady (mf_DeploymentReady manifest) |> set_cs_ArtifactBlockReason (mf_BlockReason manifest)
     |> set_cs_ArtifactsSimulation (mf_Simulation manifest)
     |> set_cs_Validation (cs_Validation cs
          ++ (if negb (mf_DeploymentReady manifest) then [mkValidation "warning" (mf_BlockReason manifest)] else [])
          ++ map (mkValidation "warning") (mf_Warnings manifest))
     |> set_cs_RevisionID (tx_RevisionID tx) |> set_cs_TransactionID (tx_ID tx)
     |> set_cs_ExpiresAt (env_format env (tx_ExpiresAt tx)) |> set_cs_Diff changed |> set_cs_AdapterStatus "NOT_STARTED"
     |> touch env now.

(** The no-op complaint of an empty difference is only informative. *)
Definition relax (changed : list ChangeOp) (vs : list Validation) : list Validation :=
  match changed with
  | [] => map (fun v => if va_Code v =s "candidate_noop" then mkValidation "info" (va_Code v) else v) vs
  | _ => vs
  end.

Definition built (active : Cfg) (operations : list ChangeOp) : Built Cfg :=
  buildCandidate (env_marshal env) (env_unmarshal env) (env_validate env) active operations.

Definition candidate_invalid : actionFailure := mkFailure 422 "candidate_invalid".

(** The end of the validation: the candidate [typed] has artifacts of its own. *)
Definition validateCandidate (cs : ChangeSet) (typed : Cfg) (canonical : json) (changed : list ChangeOp) (candidateVersion : Z)
    : Run Cfg Outcome :=
  '(tx, manifest) ← prepareArtifacts cs typed canonical candidateVersion;
  now ← clock env;
  let record := mkCandidate (tx_CandidateHash tx) (tx_ArtifactManifestHash tx) (mf_DeploymentReady manifest)
                  (mf_BlockReason manifest) (mf_Simulation manifest) typed in
  let cs := bindChange tx manifest candidateVersion changed now cs in
  now ← clock env;
  err ← SaveBatch env [ECandidate (cs_ID cs) record; ETransaction (tx_ID tx) (mkTxRecord tx (cs_State cs) "" [] now None);
                       ERevision (tx_RevisionID tx) (revisionOf cs tx (cs_State cs) None); EChange (cs_ID cs) cs];
  match err with Some _ => return_ cs (Some internalFailure) | None => _ ← setChange cs; return_ cs None end.

Definition validateChangeSet (cs : ChangeSet) : Run Cfg Outcome := invoke (
  _ ← acquireMutationLease cs;
  if cs_State cs <>s "draft" then return_ cs (Some (conflict "invalid_transition"))
  else
    s ← getServer;
    if negb (cs_BaseVersion cs =? sv_configVersion s) then return_ cs (Some (conflict "base_version_conflict"))
    else
      let b := built (sv_activeConfig s) (cs_Operations cs) in
      _ ← shareOperations (cs_ID cs) (bt_Operations b);
      let cs := set_cs_Operations (bt_Operations b) cs in
      smart ← match bt_Candidate b with
              | Some (typed, _) => outside (fun n => env_smartDNS env n (sv_activeConfig s) typed)
              | None => mret []
              end;
      let cs := set_cs_Validation (relax (bt_Diff b) (bt_Validation b ++ smart)) cs in
      match hasValidationError (cs_Validation cs), bt_Candidate b with
      | true, _ | false, None =>
          '(cs, err) ← saveChange cs "draft";
          return_ cs (Some (match err with Some _ => internalFailure | None => candidate_invalid end))
      | false, Some (typed, canonical) =>
          noop ← match bt_Diff b with [] => noopRevision (sv_activeRevision s) canonical | _ => mret None end;
          match noop with
          | Some revision => validateNoop cs (sv_configVersion s) revision
          | None => validateCandidate cs typed canonical (bt_Diff b) (wrap64 (sv_configVersion s + 1))
          end
      end).

(** ** Actions and timers *)

Inductive action : Type := Validate | Apply | Confirm | RollBack | Delete.

(** [store.Delete("changes", id)]. *)
Definition deleteChange (id : string) : Run Cfg (option string) := fun w =>
  match env_save env (w_tick w) with
  | Some e => (inl (Some e), tick w)
  | None =>
      let '(mkDocs cfg rev ver rec cl revs txs cands chs) := w_docs w in
      (inl None, set_w_docs (mkDocs cfg rev ver rec cl revs txs cands (delete id chs)) (tick w))
  end.

(** The actions of [handleChangeByID] on an installation that does not require a
    management proof; [None] for the success answer. *)
Definition handleAction (id : string) (version : Z) (a : action) : Run Cfg (option actionFailure) :=
  s ← getServer;
  match sv_changes s !! id with
  | None => mret (Some (mkFailure 404 "not_found"))
  | Some cs =>
      if negb (version =? 0) && negb (version =? cs_Version cs) then mret (Some (conflict "change_version_conflict"))
      else match a with
      | Validate => o ← validateChangeSet cs; mret o.2
      | Apply => o ← applyChangeSet env cs; mret o.2
      | Confirm => o ← confirmChangeSet env cs; mret o.2
      | RollBack => o ← rollbackChangeSet env cs false; mret o.2
      | Delete =>
          if negb (containsString ["draft"; "rolled_back"; "expired"; "failed"; "requires_device"] (cs_State cs))
          then mret (Some (conflict "invalid_transition"))
          else match mutationFailure (sv_recovery s) with
          | Some f => mret (Some f)
          | None =>
              _ ← modifyServer (fun s => set_sv_changes (delete id (sv_changes s)) s);
              err ← deleteChange id;
              mret (match err with Some _ => Some internalFailure | None => None end)
          end
      end
  end.

(** The function of the expiry timer of [cs]. *)
Definition expire (cs : ChangeSet) : Run Cfg unit :=
  _ ← cancelExpiryLocked (cs_ID cs);
  s ← getServer;
  match sv_changes s !! cs_ID cs with
  | None => mret tt
  | Some current =>
      if (cs_State current <>s "awaiting_confirmation") || (cs_TransactionID current <>s cs_TransactionID cs)
         || (cs_RevisionID current <>s cs_RevisionID cs) then mret tt
      else _ ← rollbackChangeSet env current true; mret tt
  end.
End Requests.
