(* ===== verification/RequestsProofs.v ===== *)
(** * Every history of requests

    What drafting and validating keep, and the theorems on every history of an
    installation: starts, requests and expiry timers. *)
From Stdlib Require Import ZArith Lia.
From stdpp Require Import base list strings gmap sorting.
From S2P Require Import Prelude Interfaces Json Candidate Adapter Transaction Requests TransactionProofs.

Open Scope Z_scope.

Section Histories.
Context {Cfg : Type} (env : Env Cfg).

(** ** Drafting and validating *)

(** Since [w0], only the operations of the change [id] in memory may differ: what
    happens between [buildCandidate] and the save. *)
Definition editing (id : string) (ops : list ChangeOp) (w0 w : World Cfg) : Prop :=
  w_docs w = w_docs w0 /\
  w_server w = set_sv_changes (alter (set_cs_Operations ops) id (sv_changes (w_server w0))) (w_server w0).

(** [buildCandidate] on the operations of [cs] rewrites none of them. *)
Definition unshared (cs : ChangeSet) (w : World Cfg) : Prop :=
  bt_Operations (built env (sv_activeConfig (w_server w)) (cs_Operations cs)) = cs_Operations cs.

Lemma editing_answer id cs ops w0 w :
  agree env w0 -> sv_changes (w_server w0) !! id = Some cs -> editing id ops w0 w ->
  sameActive w0 w /\ onlyChange id w0 w /\ (ops = cs_Operations cs -> agree env w).
Proof.
  intros Ha Hcs [Hd Hs]. unfold sameActive, onlyChange, agree in *. rewrite Hd, Hs. split_and!; try done; simpl.
  - intros i Hi. by rewrite lookup_alter_ne.
  - intros c. by left.
  - intros ->. destruct Ha as (Hch & A2 & A3 & A4). split_and!; try done. rewrite <- Hch. apply map_eq. intros i.
    destruct (decide (i = id)) as [->|Hi]; [|by rewrite lookup_alter_ne]. rewrite lookup_alter_eq, Hcs. simpl. by destruct cs.
Qed.

(** A saved and remembered change set brings memory and disk together again. *)
Lemma editing_saved id ops w0 w cs entries :
  agree env w0 -> editing id ops w0 w -> cs_ID cs = id ->
  (forall d, let d' := applyEntries entries d in
     dc_active_config d' = dc_active_config d /\ dc_active_revision d' = dc_active_revision d /\
     dc_config_version d' = dc_config_version d /\ dc_changes d' = <[id := cs]> (dc_changes d)) ->
  coherent env id w0 (remember cs (wrote entries w)).
Proof.
  intros Ha [Hd Hs] Hid He. unfold coherent, agree, sameActive, onlyChange, remember, wrote in *. simpl.
  destruct (He (w_docs w)) as (E1 & E2 & E3 & E4). rewrite E1, E2, E3, E4, Hd, Hs, Hid. simpl.
  destruct Ha as (Hch & A2 & A3 & A4). rewrite Hch. split_and!; try done.
  - apply map_eq. intros i. destruct (decide (i = id)) as [->|Hi]; [by rewrite !lookup_insert_eq|].
    by rewrite !lookup_insert_ne, lookup_alter_ne.
  - intros i Hi. by rewrite lookup_insert_ne.
  - intros i Hi. by rewrite lookup_insert_ne, lookup_alter_ne.
  - intros c. rewrite lookup_insert_eq. intros [= <-]. by right.
Qed.

(** An answer of the validation. *)
Definition validate_answer (cs : ChangeSet) (w0 : World Cfg) (o : Outcome) (w : World Cfg) : Prop :=
  sameActive w0 w /\ onlyChange (cs_ID cs) w0 w /\
  (o.2 = None \/ o.2 = Some candidate_invalid \/ unshared cs w0 -> agree env w).

Lemma coherent_validated cs w0 o w : coherent env (cs_ID cs) w0 w -> validate_answer cs w0 o w.
Proof. by intros (Ha & Hs & Ho). Qed.

Section Validating.
Context (cs : ChangeSet) (w0 : World Cfg).
Hypothesis Hagree : agree env w0.
Hypothesis Hcs : sv_changes (w_server w0) !! cs_ID cs = Some cs.
Let ops := bt_Operations (built env (sv_activeConfig (w_server w0)) (cs_Operations cs)).

Lemma failed_answer cs' f w :
  editing (cs_ID cs) ops w0 w -> f <> candidate_invalid -> validate_answer cs w0 (cs', Some f) w.
Proof.
  intros Hw Hf. destruct (editing_answer (cs_ID cs) cs ops w0 w Hagree Hcs Hw) as (H1 & H2 & H3).
  split; [done|]. split; [done|]. simpl. intros [?|[[= ?]|Hu]]; [done..|]. by apply H3.
Qed.

Lemma wp_orRetire {A} cs' tx f (m : nat -> result A) (Q : A -> World Cfg -> Prop) (E : Outcome -> World Cfg -> Prop) w :
  editing (cs_ID cs) ops w0 w -> f <> candidate_invalid ->
  (forall a w', editing (cs_ID cs) ops w0 w' -> Q a w') -> (forall o w', validate_answer cs w0 o w' -> E o w') ->
  wp (orRetire env cs' tx f m) Q E w.
Proof.
  intros Hw Hf HQ HE. apply wp_bind, wp_outside. intros [a|e]; [by apply wp_ret, HQ|].
  apply wp_bind, wp_RetireCapability; by apply wp_return, HE, failed_answer.
Qed.

Lemma wp_prepareArtifacts cs' candidate canonical version (Q : Transaction * Manifest -> World Cfg -> Prop) E w :
  editing (cs_ID cs) ops w0 w ->
  (forall r w', editing (cs_ID cs) ops w0 w' -> Q r w') -> (forall o w', validate_answer cs w0 o w' -> E o w') ->
  wp (prepareArtifacts env cs' candidate canonical version) Q E w.
Proof.
  intros Hw HQ HE.
  assert (HF : forall f w', editing (cs_ID cs) ops w0 w' -> f <> candidate_invalid -> E (cs', Some f) w').
  { intros f w' Hw' Hf. by apply HE, failed_answer. }
  apply wp_bind, wp_outside. intros [r|e]; [|by apply wp_return, HF].
  apply wp_bind, wp_outside. intros id. apply wp_bind, wp_outside. intros token. apply wp_bind, wp_clock. intros now.
  destruct (NewTransaction _ _ _ _ _ _ _ _ _ _ _ _) as [tx|e]; [|by apply wp_return, HF].
  apply wp_bind, wp_outside. intros written. apply wp_if; intros _; [by apply wp_return, HF|].
  apply wp_bind, (wp_mono _ (fun _ w' => editing (cs_ID cs) ops w0 w') _ E); [|clear w Hw; intros persisted w Hw|done].
  { unfold wp, PersistCapability. by destruct (env_persistCapability env _ tx). }
  apply wp_if; intros _; [by apply wp_return, HF|].
  apply wp_bind, wp_orRetire; [done..| |done]. intros _ w1 Hw1.
  apply wp_bind, wp_orRetire; [done..| |done]. intros [manifest hash] w2 Hw2.
  apply wp_bind, wp_orRetire; [done..| |done]. intros bound w3 Hw3.
  apply wp_bind, wp_orRetire; [done..| |done]. intros _ w4 Hw4. by apply wp_ret, HQ.
Qed.

Lemma wp_validateCandidate candidate canonical changed version cs' (Q : Outcome -> World Cfg -> Prop) w :
  editing (cs_ID cs) ops w0 w -> cs_ID cs' = cs_ID cs -> (forall o w', validate_answer cs w0 o w' -> Q o w') ->
  wp (validateCandidate env cs' candidate canonical changed version) Q Q w.
Proof.
  intros Hw Hid HQ. apply wp_bind, wp_prepareArtifacts; [done| |done]. intros [tx manifest] w1 Hw1.
  apply wp_bind, wp_clock. intros now. apply wp_bind, wp_clock. intros now'. apply wp_bind, wp_SaveBatch.
  - intros e. by apply wp_return, HQ, failed_answer.
  - apply wp_bind, wp_modifyServer, wp_return, HQ, coherent_validated.
    apply (editing_saved _ ops); [done|exact Hw1|exact Hid|]. intros d. rewrite <- Hid. by destruct d.
Qed.

Lemma wp_validateNoop version revision cs' (Q : Outcome -> World Cfg -> Prop) w :
  editing (cs_ID cs) ops w0 w -> cs_ID cs' = cs_ID cs -> (forall o w', validate_answer cs w0 o w' -> Q o w') ->
  wp (validateNoop env cs' version revision) Q Q w.
Proof.
  intros Hw Hid HQ. apply wp_bind, wp_clock. intros now. apply wp_bind, wp_SaveBatch.
  - intros e. by apply wp_return, HQ, failed_answer.
  - apply wp_bind, wp_modifyServer, wp_return, HQ, coherent_validated.
    apply (editing_saved _ ops); [done|exact Hw|exact Hid|]. intros d. rewrite <- Hid. by destruct d.
Qed.

Lemma wp_refuseCandidate cs' (Q : Outcome -> World Cfg -> Prop) w :
  editing (cs_ID cs) ops w0 w -> cs_ID cs' = cs_ID cs -> (forall o w', validate_answer cs w0 o w' -> Q o w') ->
  wp ('(cs', err) ← saveChange env cs' "draft";
      return_ cs' (Some (match err with Some _ => internalFailure | None => candidate_invalid end))) Q Q w.
Proof.
  intros Hw Hid HQ. apply wp_bind, wp_bind, wp_clock. intros now. apply wp_bind, wp_SaveBatch.
  - intros e. by apply wp_ret, wp_return, HQ, failed_answer.
  - apply wp_bind, wp_modifyServer, wp_ret, wp_return, HQ, coherent_validated.
    apply (editing_saved _ ops); [done|exact Hw|exact Hid|]. intros d. rewrite <- Hid. by destruct d.
Qed.

Lemma wp_validateChangeSet (Q : Outcome -> World Cfg -> Prop) E :
  (forall o w', validate_answer cs w0 o w' -> Q o w') -> wp (validateChangeSet env cs) Q E w0.
Proof.
  intros HQ. apply wp_invoke, wp_bind.
  assert (HS : forall f, Q (cs, f) w0) by (intros f; by apply HQ, coherent_validated, coherent_refl).
  apply wp_acquire; [intros _|intros f _; apply HS].
  apply wp_if; intros _; [apply wp_return, HS|]. apply wp_bind, wp_getServer.
  apply wp_if; intros _; [apply wp_return, HS|].
  apply wp_bind, wp_modifyServer. fold ops. set (w1 := set_w_server _ w0).
  assert (Hw1 : editing (cs_ID cs) ops w0 w1) by done. clearbody w1.
  apply wp_bind, (wp_mono _ (fun _ w' => editing (cs_ID cs) ops w0 w') _ Q); [|clear w1 Hw1; intros smart w Hw|done].
  { destruct (bt_Candidate _) as [[typed canonical]|]; [by apply wp_outside|by apply wp_ret]. }
  set (cs1 := set_cs_Validation _ _). assert (Hid : cs_ID cs1 = cs_ID cs) by done. clearbody cs1. cbv zeta.
  destruct (hasValidationError (cs_Validation cs1)); [by apply wp_refuseCandidate|].
  destruct (bt_Candidate _) as [[typed canonical]|]; [|by apply wp_refuseCandidate].
  apply wp_bind, (wp_mono _ (fun _ w' => editing (cs_ID cs) ops w0 w') _ Q); [|clear w Hw; intros noop w Hw|done].
  { destruct (bt_Diff _); [|by apply wp_ret]. apply wp_if; intros _; [by apply wp_ret|].
    apply wp_bind, wp_LoadJSON; [intros e|intros a _]; by apply wp_ret. }
  destruct noop as [revision|]; [by apply wp_validateNoop|by apply wp_validateCandidate].
Qed.
End Validating.

(** ** Every history *)

(** What a request that failed may have left in memory only: a deletion that was
    not written, the operations a validation rewrote before an internal failure,
    a draft that was not written and drew the identifier of another change. *)
Definition clean_answer (id : string) (a : action) (w : World Cfg) (r : option actionFailure) : Prop :=
  match a with
  | Delete => r <> Some internalFailure
  | Validate => r = None \/ r = Some candidate_invalid \/
                (forall cs, sv_changes (w_server w) !! id = Some cs -> unshared cs w)
  | _ => True
  end.
Definition fresh_draw (w : World Cfg) : Prop :=
  forall random, env_random env (w_tick (tick w)) = Ok random -> sv_changes (w_server w) !! ("chg_" +:+ random) = None.
Definition clean_creation (r : ChangeSet + actionFailure) (w : World Cfg) : Prop :=
  match r with inl _ => True | inr _ => fresh_draw w end.

(** The worlds a history of the installation reaches: any documents, a start that
    succeeds, then drafts, requests on changes and expiry timers, without the
    unclean failures. *)
Inductive reachable : World Cfg -> Prop :=
| reach_start fallback w w' : well_keyed (w_docs w) -> start env fallback w = (inl true, w') -> reachable w'
| reach_create title version operations w w' r :
    reachable w -> handleCreate env title version operations w = (inl r, w') -> clean_creation r w -> reachable w'
| reach_action id version a w w' r :
    reachable w -> handleAction env id version a w = (inl r, w') -> clean_answer id a w r -> reachable w'
| reach_expire cs w w' : reachable w -> cs_ID cs <> "" -> expire env cs w = (inl tt, w') -> reachable w'.

Definition sane (w : World Cfg) : Prop := (agree env w \/ fenced w) /\ well_keyed (w_docs w).

Lemma fenced_create title version operations w :
  fenced w -> exists f, handleCreate env title version operations w = (inl (inr f), w).
Proof.
  unfold fenced. intros Hf. destruct (mutationFailure (sv_recovery (w_server w))) as [f|] eqn:E; [|done].
  unfold handleCreate. destruct (_ || _); [by eexists|]. destruct operations; [by eexists|]. exists f.
  unfold createDraftChange, mbind, Run_bind, getServer, mret, Run_ret. by rewrite E.
Qed.
Lemma fenced_validate cs w : fenced w -> exists f, validateChangeSet env cs w = (inl (cs, Some f), w).
Proof.
  unfold fenced. intros Hf. destruct (mutationFailure (sv_recovery (w_server w))) as [f|] eqn:E; [|done]. exists f.
  unfold validateChangeSet, invoke, acquireMutationLease, orNil, mbind, Run_bind, getServer, mret, Run_ret. by rewrite E.
Qed.
Lemma fenced_apply cs w : fenced w -> exists f, applyChangeSet env cs w = (inl (cs, Some f), w).
Proof.
  unfold fenced. intros Hf. destruct (mutationFailure (sv_recovery (w_server w))) as [f|] eqn:E; [|done]. exists f.
  unfold applyChangeSet, invoke, acquireMutationLease, orNil, mbind, Run_bind, getServer, mret, Run_ret. by rewrite E.
Qed.
Lemma fenced_confirm cs w : fenced w -> exists f, confirmChangeSet env cs w = (inl (cs, Some f), w).
Proof.
  unfold fenced. intros Hf. destruct (mutationFailure (sv_recovery (w_server w))) as [f|] eqn:E; [|done]. exists f.
  unfold confirmChangeSet, invoke, acquireMutationLease, orNil, mbind, Run_bind, getServer, mret, Run_ret. by rewrite E.
Qed.
Lemma fenced_rollback cs b w : fenced w -> exists f, rollbackChangeSet env cs b w = (inl (cs, Some f), w).
Proof.
  unfold fenced. intros Hf. destruct (mutationFailure (sv_recovery (w_server w))) as [f|] eqn:E; [|done]. exists f.
  unfold rollbackChangeSet, invoke, acquireMutationLease, orNil, mbind, Run_bind, getServer, mret, Run_ret. by rewrite E.
Qed.

Lemma fence_blocked id version a w :
  fenced w -> exists f, handleAction env id version a w = (inl (Some f), w).
Proof.
  intros Hf. unfold handleAction, mbind, Run_bind, getServer. destruct (sv_changes (w_server w) !! id) as [cs|]; [|by eexists].
  destruct (_ && _); [by eexists|]. destruct a.
  - destruct (fenced_validate cs w Hf) as [f ->]. by eexists.
  - destruct (fenced_apply cs w Hf) as [f ->]. by eexists.
  - destruct (fenced_confirm cs w Hf) as [f ->]. by eexists.
  - destruct (fenced_rollback cs false w Hf) as [f ->]. by eexists.
  - destruct (negb _); [by eexists|]. unfold fenced in Hf. destruct (mutationFailure _); [by eexists|done].
Qed.

(** C36: a fenced engine does nothing.  While the recovery status does not allow
    mutations, every request on a change is refused: memory, documents,
    capabilities and the adapter are untouched. *)
Theorem fence_blocks id version a w :
  fenced w -> exists f, handleAction env id version a w = (inl (Some f), w).
Proof. apply fence_blocked. Qed.

Lemma sane_change id w w' :
  well_keyed (w_docs w) -> id <> "" -> onlyChange id w w' -> agree env w' \/ fenced w' -> sane w'.
Proof. intros Hk Hid Ho Ha. split; [done|]. by eapply well_keyed_change. Qed.

(** The answers of the handlers, and deletion. *)
Lemma sane_handled cs w w' o :
  agree env w -> well_keyed (w_docs w) -> cs_ID cs <> "" ->
  (applyChangeSet env cs w = (inl o, w') \/ confirmChangeSet env cs w = (inl o, w') \/
   exists b, rollbackChangeSet env cs b w = (inl o, w')) -> sane w'.
Proof.
  intros Ha Hk Hid HE.
  assert (HS : settled_for env (cs_ID cs) w o w' -> sane w').
  { intros [(Ha' & _ & Ho)|[(Hf & _ & Ho) _]]; (apply (sane_change (cs_ID cs) w); [done..|]); [by left|by right]. }
  destruct HE as [HE|[HE|[b HE]]].
  - apply HS. eapply (wp_answer _ (settled_for env (cs_ID cs) w) (fun _ _ => True)); [|exact HE]. apply wp_apply_coherent; [done|]. auto.
  - assert (HC : confirm_answer env cs w o w').
    { eapply (wp_answer _ (confirm_answer env cs w) (fun _ _ => True)); [|exact HE]. apply wp_confirm_coherent; [done|]. auto. }
    destruct HC as (Ho & _ & Ha'). apply (sane_change (cs_ID cs) w); [done..|]. destruct Ha' as [|[? _]]; [by left|by right].
  - apply HS. eapply (wp_answer _ (settled_for env (cs_ID cs) w) (fun _ _ => True)); [|exact HE]. apply wp_rollback_coherent; [done|]. auto.
Qed.

Lemma sane_deleted id w r w' n :
  agree env w -> well_keyed (w_docs w) ->
  deleteChange env id (set_w_server (set_sv_changes (delete id (sv_changes (w_server w))) (w_server w)) (set_w_tick n w)) = (inl r, w') ->
  r = None -> sane w'.
Proof.
  intros Ha Hk HE ->. unfold deleteChange in HE. destruct (env_save env _); [done|].
  destruct w as [s d c l t], d. simpl in HE. injection HE as <-. unfold agree, well_keyed in *. simpl in *.
  destruct Ha as (-> & A2 & A3 & A4). split; [left; unfold agree; by split_and!|]. unfold well_keyed. simpl. intros k c0. rewrite lookup_delete_Some. intros [_ Hc]. by apply Hk.
Qed.

Lemma sane_validated cs w w' o :
  agree env w -> well_keyed (w_docs w) -> cs_ID cs <> "" -> sv_changes (w_server w) !! cs_ID cs = Some cs ->
  validateChangeSet env cs w = (inl o, w') -> o.2 = None \/ o.2 = Some candidate_invalid \/ unshared cs w -> sane w'.
Proof.
  intros Ha Hk Hid Hcs HE Hc.
  assert (HV : validate_answer cs w o w').
  { eapply (wp_answer _ (validate_answer cs w) (fun _ _ => True)); [|exact HE]. by apply wp_validateChangeSet. }
  destruct HV as (_ & Ho & Hag). apply (sane_change (cs_ID cs) w); [done..|]. left. by apply Hag.
Qed.

Lemma sane_action id version a w w' r :
  agree env w -> well_keyed (w_docs w) -> handleAction env id version a w = (inl r, w') ->
  clean_answer id a w r -> sane w'.
Proof.
  intros Ha Hk HE Hdel. assert (Hsame : sane w) by (split; [by left|done]).
  unfold handleAction, mbind, Run_bind, getServer in HE.
  destruct (sv_changes (w_server w) !! id) as [cs|] eqn:Ec; [|by injection HE as _ <-].
  assert (cs_ID cs = id /\ cs_ID cs <> "") as [Hci Hid].
  { pose proof Ha as (Hch & _). rewrite Hch in Ec. by destruct (Hk _ _ Ec) as [-> ?]. }
  destruct (_ && _); [by injection HE as _ <-|]. destruct a.
  - destruct (validateChangeSet env cs w) as [[o|o] w2] eqn:E; [|done]. injection HE as <- <-.
    apply (sane_validated cs w w2 o); [done..|by rewrite Hci|exact E|].
    destruct Hdel as [?|[?|Hu]]; [by left|by right; left|]. right. right. by apply Hu.
  - destruct (applyChangeSet env cs w) as [[o|o] w2] eqn:E; [|done]. injection HE as _ <-. eapply sane_handled; eauto.
  - destruct (confirmChangeSet env cs w) as [[o|o] w2] eqn:E; [|done]. injection HE as _ <-. eapply sane_handled; eauto.
  - destruct (rollbackChangeSet env cs false w) as [[o|o] w2] eqn:E; [|done]. injection HE as _ <-. eapply sane_handled; eauto.
  - destruct (negb _); [by injection HE as _ <-|]. destruct (mutationFailure _); [by injection HE as _ <-|]. simpl in HE.
    destruct (deleteChange env id _) as [[err|o] w2] eqn:E; [|done]. injection HE as <- <-.
    eapply (sane_deleted id w err _ (w_tick w)); [done|done| |by destruct err; [destruct Hdel|]].
    rewrite <- E. by destruct w.
Qed.


Lemma sane_expire cs w w' : agree env w -> well_keyed (w_docs w) -> expire env cs w = (inl tt, w') -> sane w'.
Proof.
  intros Ha Hk HE. unfold expire, mbind, Run_bind, cancelExpiryLocked, modifyServer, getServer in HE.
  set (w1 := set_w_server _ w) in HE.
  assert (Ha1 : agree env w1) by exact Ha. assert (Hk1 : well_keyed (w_docs w1)) by exact Hk. clearbody w1. clear Ha Hk w.
  assert (Hsame : sane w1) by (split; [by left|done]).
  destruct (sv_changes (w_server w1) !! cs_ID cs) as [current|] eqn:Ec; [|by injection HE as <-].
  assert (Hid : cs_ID current <> "").
  { pose proof Ha1 as (Hch & _). rewrite Hch in Ec. by destruct (Hk1 _ _ Ec) as [-> ?]. }
  destruct (_ || _); [by injection HE as <-|].
  destruct (rollbackChangeSet env current true w1) as [[o|o] w2] eqn:E; [|done]. injection HE as <-. eapply sane_handled; eauto.
Qed.

Lemma sane_expire_fenced cs w w' : fenced w -> well_keyed (w_docs w) -> expire env cs w = (inl tt, w') -> sane w'.
Proof.
  intros Hf Hk HE. unfold expire, mbind, Run_bind, cancelExpiryLocked, modifyServer, getServer in HE.
  set (w1 := set_w_server _ w) in HE.
  assert (Hf1 : fenced w1) by exact Hf. assert (Hk1 : well_keyed (w_docs w1)) by exact Hk. clearbody w1. clear Hf Hk w.
  assert (Hsame : sane w1) by (split; [by right|done]).
  destruct (sv_changes (w_server w1) !! cs_ID cs) as [current|] eqn:Ec; [|by injection HE as <-].
  destruct (_ || _); [by injection HE as <-|].
  destruct (fenced_rollback current true w1 Hf1) as [f E]. rewrite E in HE. by injection HE as <-.
Qed.

Lemma wp_createDraft version operations (Q : ChangeSet + option actionFailure -> World Cfg -> Prop) E w :
  agree env w -> well_keyed (w_docs w) ->
  (forall r w', sameActive w w' ->
     (match r with inl _ => True | inr _ => fresh_draw w end -> agree env w' /\ well_keyed (w_docs w')) -> Q r w') ->
  wp (createDraftChange env version operations) Q E w.
Proof.
  intros Ha Hk HQ. apply wp_bind, wp_getServer.
  destruct (mutationFailure _); [by apply wp_ret, HQ|]. apply wp_if; intros _; [by apply wp_ret, HQ|].
  apply wp_bind, wp_clock. intros now. apply wp_bind, wp_outside_at.
  destruct (env_random env (w_tick (tick w))) as [random|e] eqn:Ed; [|by apply wp_ret, HQ].
  apply wp_bind, wp_modifyServer, wp_bind, wp_SaveBatch.
  - intros e. apply wp_bind, wp_modifyServer, wp_ret, HQ; [done|]. intros Hfresh. specialize (Hfresh random Ed). split; [|done].
    unfold agree in *. simpl. rewrite delete_insert_id by exact Hfresh. by destruct Ha.
  - apply wp_ret. destruct w as [s d c l n], d. unfold agree, well_keyed in *. simpl in *. destruct Ha as (Hch & A2 & A3 & A4).
    apply HQ; [done|]. intros _. unfold agree, well_keyed. simpl. rewrite Hch. split; [done|].
    intros k c0 [[<- <-]|[_ Hc]]%lookup_insert_Some; [done|by apply Hk].
Qed.

Lemma sane_create title version operations w w' r :
  agree env w -> well_keyed (w_docs w) -> handleCreate env title version operations w = (inl r, w') ->
  clean_creation r w -> sane w'.
Proof.
  intros Ha Hk HE Hc. assert (Hsame : sane w) by (split; [by left|done]). unfold handleCreate in HE.
  destruct (_ || _); [by injection HE as _ <-|]. destruct operations as [|op operations]; [by injection HE as _ <-|].
  unfold mbind, Run_bind in HE. destruct (createDraftChange env version (op :: operations) w) as [[x|o] w2] eqn:E; [|done].
  injection HE as <- <-.
  assert (HC : match x with inl _ => True | inr _ => fresh_draw w end -> agree env w2 /\ well_keyed (w_docs w2)).
  { eapply (wp_answer _ (fun r w' => match r with inl _ => True | inr _ => fresh_draw w end ->
              agree env w' /\ well_keyed (w_docs w')) (fun _ _ => True)); [|exact E]. apply wp_createDraft; auto. }
  destruct HC as [HC1 HC2]; [by destruct x as [|[]]|]. by split; [left|].
Qed.

Lemma reachable_sane w : reachable w -> sane w.
Proof.
  induction 1 as [fallback w w' Hk HE|title version operations w w' r _ [Ha Hk] HE Hc|id version a w w' r _ [Ha Hk] HE Hdel
                 |cs w w' _ [Ha Hk] Hid HE].
  - assert (solid env w') as [? ?]; [|split; [by left|done]].
    eapply (wp_answer _ (fun b (w' : World Cfg) => b = true -> solid env w') (fun _ _ => True)); [|exact HE|done].
    by apply wp_start.
  - destruct Ha as [Ha|Hf]; [by eapply sane_create|].
    destruct (fenced_create title version operations w Hf) as [f Hf']. rewrite Hf' in HE. injection HE as _ <-. by split; [right|].
  - destruct Ha as [Ha|Hf].
    + by eapply sane_action.
    + destruct (fence_blocked id version a w Hf) as [f Hf']. rewrite Hf' in HE. injection HE as _ <-. by split; [right|].
  - destruct Ha as [Ha|Hf]; [by eapply sane_expire|].
    by eapply sane_expire_fenced.
Qed.

(** C3: memory and disk agree, or the engine is fenced.  Take a history of starts,
    drafts, requests on changes and expiry timers, whatever the adapter answers and
    whichever reads, writes and files fail, but without three kinds of failure: a
    deletion that ends in an internal failure, a validation that ends in a failure
    other than an invalid candidate after it rewrote operations of the change set,
    and a draft that is refused after it drew the identifier of another change.  In
    every world it reaches, unless the recovery fence is up, the changes, the active
    revision and the version in memory are those on disk, and the active
    configuration in memory is the one on disk or what the validation made of it
    when the server started. *)
Theorem memory_follows_disk w : reachable w -> sane w.
Proof. apply reachable_sane. Qed.


Lemma sameActive_refl (w : World Cfg) : sameActive w w.
Proof. done. Qed.

Lemma settled_active cs (w : World Cfg) o w' : settled_for env (cs_ID cs) w o w' -> sameActive w w'.
Proof. intros [(_ & Hs & _)|[(_ & Hs & _) _]]; exact Hs. Qed.

(** C1: only a verified change becomes active.  In every reachable world, a request
    after which the active configuration, revision or version on disk differs is
    the confirmation of a change that was awaiting it with both verifications,
    for its stored transaction, not expired at the time this confirmation read, which
    the adapter reported as the deployed one and agreed to commit, with a candidate checked by hash and
    validity; and what is active then is that candidate.  A confirmation that
    reports success is always of this kind. *)
Theorem active_only_by_confirmation id version a w w' r :
  reachable w -> handleAction env id version a w = (inl r, w') ->
  (~ sameActive w w' -> a = Confirm /\ exists cs, sv_changes (w_server w) !! id = Some cs /\ activation env cs w w') /\
  (forall cs o, sv_changes (w_server w) !! id = Some cs -> confirmChangeSet env cs w = (inl o, w') ->
     o.2 = None -> cs_State o.1 = "committed" -> activation env cs w w').
Proof.
  intros HR HE. destruct (reachable_sane w HR) as [[Ha|Hf] Hk].
  2: { destruct (fence_blocked id version a w Hf) as [f Hf']. rewrite Hf' in HE. injection HE as _ <-.
       split; [intros Hn; destruct Hn; apply sameActive_refl|]. intros cs o _ Hc Hn.
       destruct (fenced_confirm cs w Hf) as [f' Hf2]. rewrite Hf2 in Hc. by injection Hc as <-. }
  assert (HC : forall cs o, confirmChangeSet env cs w = (inl o, w') -> confirm_answer env cs w o w').
  { intros cs o Hc. eapply (wp_answer _ (confirm_answer env cs w) (fun _ _ => True)); [|exact Hc]. apply wp_confirm_coherent; auto. }
  split.
  2: { intros cs o _ Hc Hn Hst. destruct (HC _ _ Hc) as (_ & [[_ Hbad]|Hact] & _); [by destruct (Hbad Hn)|done]. }
  intros Hn. unfold handleAction, mbind, Run_bind, getServer in HE.
  destruct (sv_changes (w_server w) !! id) as [cs|] eqn:Ec; [|by injection HE as _ <-; destruct Hn; apply sameActive_refl].
  destruct (_ && _); [by injection HE as _ <-; destruct Hn; apply sameActive_refl|]. destruct a.
  - destruct (validateChangeSet env cs w) as [[o|o] w2] eqn:E; [|done]. injection HE as _ <-. destruct Hn.
    assert (Hcs : cs_ID cs = id) by (destruct Ha as (Hch & _); rewrite Hch in Ec; by destruct (Hk _ _ Ec)).
    refine (proj1 (wp_answer _ (validate_answer cs w) (fun _ _ => True) _ _ _ (wp_validateChangeSet cs w Ha _ _ _ _) E)); [by rewrite Hcs|auto].
  - destruct (applyChangeSet env cs w) as [[o|o] w2] eqn:E; [|done]. injection HE as _ <-. destruct Hn. apply (settled_active cs w o).
    eapply (wp_answer _ (settled_for env (cs_ID cs) w) (fun _ _ => True)); [|exact E]. apply wp_apply_coherent; auto.
  - split; [done|]. exists cs. split; [done|].
    destruct (confirmChangeSet env cs w) as [[o|o] w2] eqn:E; [|done]. injection HE as _ <-.
    destruct (HC _ _ E) as (_ & [[Hs _]|Hact] & _); [by destruct Hn|done].
  - destruct (rollbackChangeSet env cs false w) as [[o|o] w2] eqn:E; [|done]. injection HE as _ <-. destruct Hn. apply (settled_active cs w o).
    eapply (wp_answer _ (settled_for env (cs_ID cs) w) (fun _ _ => True)); [|exact E]. apply wp_rollback_coherent; auto.
  - destruct Hn. destruct (negb _); [by injection HE as _ <-|]. destruct (mutationFailure _); [by injection HE as _ <-|]. simpl in HE.
    unfold deleteChange in HE. destruct w as [s d c l t], d. simpl in HE. destruct (env_save env t); by injection HE as _ <-.
Qed.
End Histories.
