(* ===== verification/TransactionSafety.v ===== *)
(** * Applying never strands the data plane

    The order of the adapter's calls in an apply: once the candidate may be on
    the router, the change ends awaiting its confirmation with both verifications,
    or the adapter was asked to roll back, or the store failed and left a state
    that the next start recovers; with what such a start does. *)
From Stdlib Require Import ZArith Lia.
From stdpp Require Import base list strings gmap sorting.
From S2P Require Import Prelude Interfaces Json Candidate Adapter Transaction Requests TransactionProofs RequestsProofs.

Open Scope Z_scope.

Section Strand.
Context {Cfg : Type} (env : Env Cfg).

(** The name an adapter gives to the result of a step. *)
Definition stepName (op : operation) : string :=
  match op with
  | Prepare _ => "prepare"
  | ValidateCandidate _ => "validate_candidate"
  | SnapshotCurrent _ => "snapshot_current"
  | ApplyCandidate _ => "apply_candidate"
  | VerifyManagementPath _ => "verify_management_path"
  | VerifyDataPlane _ => "verify_data_plane"
  | _ => ""
  end.
(** An adapter that names the results of the six steps of [tx] as its interface
    says. *)
Definition names_steps : Prop :=
  forall n tx before op, (before, op) ∈ applySteps tx -> sr_Step (env_answer env n op) = stepName op.

(** Whether an event may have put a candidate on the router: an apply that was
    not skipped. *)
Definition isApply (e : event) : bool := match e with Asked (ApplyCandidate _) _ => true | _ => false end.
Definition touches (e : event) : bool :=
  match e with Asked (ApplyCandidate _) r => negb (containsString ["SKIPPED"; "UNVERIFIED"] (sr_Status r)) | _ => false end.

(** The events between two worlds. *)
Definition events (w w' : World Cfg) (l : list event) : Prop := w_log w' = w_log w ++ l.
Lemma events_refl w : events w w [].
Proof. unfold events. by rewrite app_nil_r. Qed.
Lemma events_trans w1 w2 w3 l l' : events w1 w2 l -> events w2 w3 l' -> events w1 w3 (l ++ l').
Proof. unfold events. intros -> ->. by rewrite <- app_assoc. Qed.

(** Only saves. *)
Definition onlySaves (l : list event) : Prop := Forall (fun e => match e with Saved _ _ => True | _ => False end) l.
Lemma onlySaves_apply l : onlySaves l -> Forall (fun e => isApply e = false) l.
Proof. intros Hl. eapply Forall_impl; [exact Hl|]. by intros []. Qed.

Lemma onlySaves_nil : onlySaves [].
Proof. constructor. Qed.

(** The change on disk, in a state recovery looks for. *)
Definition durable (id : string) (w : World Cfg) : Prop :=
  exists c, dc_changes (w_docs w) !! id = Some c /\ inFlight (cs_State c) = true.
(** The state on disk is the one in hand. *)
Definition current (cs : ChangeSet) (w : World Cfg) : Prop :=
  exists c, dc_changes (w_docs w) !! cs_ID cs = Some c /\ cs_State c = cs_State cs.
Lemma current_durable cs w : current cs w -> inFlight (cs_State cs) = true -> durable (cs_ID cs) w.
Proof. intros (c & Hc & Hs) Hf. exists c. by rewrite Hs. Qed.

(** A save that fails changes nothing; one that succeeds is current. *)
Definition saveFailed (w w' : World Cfg) : Prop := w_docs w' = w_docs w /\ events w w' [].
Definition saveDone (cs : ChangeSet) (w w' : World Cfg) : Prop :=
  dc_changes (w_docs w') !! cs_ID cs = Some cs /\ exists l, events w w' l /\ onlySaves l.
Lemma saveDone_current cs w w' : saveDone cs w w' -> current cs w'.
Proof. intros [Hc _]. by exists cs. Qed.

Lemma wp_saveProgress_safe cs tx next Q E w :
  validateTransactionBinding cs tx = None ->
  (forall cs' e w', stamped next cs cs' -> saveFailed w w' -> Q (cs', Some e) w') ->
  (forall cs' w', stamped next cs cs' -> saveDone cs' w w' -> Q (cs', None) w') ->
  wp (saveProgress env cs tx next) Q E w.
Proof.
  intros Hb HF HS. apply wp_saveProgress; [done| |].
  - intros cs' e Hst. apply HF; [done|]. split; [done|]. exact (events_refl w).
  - intros cs' r Hst _. apply HS; [done|]. split.
    + destruct w as [s d c l n], d. simpl. rewrite (stamped_id _ _ _ Hst). apply lookup_insert_eq.
    + eexists. split; [reflexivity|]. by repeat constructor.
Qed.

Lemma wp_progress_safe cs tx next Q E w :
  validateTransactionBinding cs tx = None ->
  (forall cs' w', stamped next cs cs' -> saveFailed w w' -> E (cs', Some internalFailure) w') ->
  (forall cs' w', stamped next cs cs' -> saveDone cs' w w' -> Q cs' w') ->
  wp (progress env cs tx next) Q E w.
Proof.
  intros Hb HF HS. apply wp_bind, wp_saveProgress_safe; [done| |].
  - intros cs' e w' Hst Hw. apply wp_return. by eapply HF.
  - intros cs' w' Hst Hw. apply wp_ret. by apply HS.
Qed.

(** A rollback is asked for, and nothing is applied after it; or the store failed
    before. *)
Definition rolledBack (l : list event) : Prop :=
  exists l1 l2 tx r, l = l1 ++ Asked (Rollback tx) r :: l2 /\ Forall (fun e => isApply e = false) l2.
Lemma rolledBack_app l l' : rolledBack l' -> rolledBack (l ++ l').
Proof. intros (l1 & l2 & tx & r & -> & H2). exists (l ++ l1), l2, tx, r. by rewrite <- app_assoc. Qed.

Definition rollbackOutcome (w : World Cfg) (o : Outcome) (w' : World Cfg) : Prop :=
  exists l, events w w' l /\ Forall (fun e => isApply e = false) l /\
    (rolledBack l \/ o.2 = Some internalFailure /\ w_docs w' = w_docs w).

Lemma wp_rollbackLocked_safe cs tx final reason Q E w :
  validateTransactionBinding cs tx = None -> (forall o w', rollbackOutcome w o w' -> Q o w') ->
  wp (rollbackLocked env cs tx final reason) Q E w.
Proof.
  intros Hb HQ. apply wp_invoke, wp_bind, wp_progress_safe; [done| |].
  { intros cs' w' _ [Hd He]. apply HQ. exists []. split; [exact He|]. split; [done|]. by right. }
  intros cs1 w1 Hst1 (_ & l1 & He1 & Hl1). apply wp_bind, wp_ask. intros n r.
  assert (Hb1 : validateTransactionBinding cs1 tx = None) by (by rewrite (stamped_binding _ _ _ _ Hst1)).
  (* From here on the rollback is on record; what follows only saves. *)
  assert (HX : forall o w' l, events (asked (Rollback tx) r w1) w' l -> onlySaves l -> Q o w').
  { intros o w' l He Hl. apply HQ. exists (l1 ++ Asked (Rollback tx) r :: l). split_and!.
    - replace (l1 ++ Asked (Rollback tx) r :: l) with ((l1 ++ [Asked (Rollback tx) r]) ++ l) by (by rewrite <- app_assoc).
      eapply events_trans; [|exact He]. eapply events_trans; [exact He1|done].
    - apply Forall_app. split; [by apply onlySaves_apply|]. constructor; [done|by apply onlySaves_apply].
    - left. exists l1, l, tx, r. split; [done|by apply onlySaves_apply]. }
  assert (HF : forall w2 w3 o l, events (asked (Rollback tx) r w1) w2 l -> onlySaves l -> fenceRaised w2 w3 -> Q o w3).
  { intros w2 w3 o l He Hl (st & _ & rec & _ & _ & _ & _ & Hlog). apply (HX o w3 l); [|done]. unfold events in *. by rewrite Hlog. }
  apply wp_if; intros E1.
  { apply wp_bind, wp_saveProgress_safe; [exact Hb1| |].
    - intros cs2 e w2 _ [_ He]. apply wp_bind, wp_markRecoveryRequired. intros w3 Hf. apply wp_return. eapply HF; [exact He|auto using onlySaves_nil|exact Hf].
    - intros cs2 w2 _ (_ & l & He & Hl). apply wp_bind, wp_markRecoveryRequired. intros w3 Hf. apply wp_return. eapply HF; [exact He|auto using onlySaves_nil|exact Hf]. }
  apply wp_if; intros E2.
  { apply wp_bind, wp_progress_safe; [exact Hb1| |].
    - intros cs2 w2 _ [_ He]. eapply HX; [exact He|apply onlySaves_nil].
    - intros cs2 w2 _ (_ & l & He & Hl). apply wp_return. by eapply HX. }
  apply wp_bind, wp_saveProgress_safe; [exact Hb1| |].
  { intros cs2 e w2 _ [_ He]. apply wp_bind, wp_markRecoveryRequired. intros w3 Hf. apply wp_return. eapply HF; [exact He|auto using onlySaves_nil|exact Hf]. }
  intros cs2 w2 _ (_ & l & He & Hl). apply wp_bind, wp_modifyServer, wp_bind.
  apply wp_RetireCapability; apply wp_bind, wp_outside; intros b; apply wp_bind, wp_outside; intros b';
    apply wp_bind, wp_bind, wp_SaveBatch; intros; apply wp_ret, wp_return; (eapply (HX _ _ (l ++ [])); [|by rewrite app_nil_r]);
    (eapply events_trans; [exact He|]); unfold events; simpl; by rewrite ?app_nil_r.
Qed.
(** ** One step *)

Definition untouched (l : list event) : Prop := Forall (fun e => touches e = false) l.
Lemma isApply_untouched l : Forall (fun e => isApply e = false) l -> untouched l.
Proof. intros Hl. eapply Forall_impl; [exact Hl|]. by intros [[] r|]. Qed.
Lemma onlySaves_untouched l : onlySaves l -> untouched l.
Proof. intros Hl. by apply isApply_untouched, onlySaves_apply. Qed.

(** The answers that leave nothing stranded. *)
Definition awaiting (id : string) (tx : Transaction) (o : Outcome) (w : World Cfg) (l : list event) : Prop :=
  o.2 = None /\ cs_State o.1 = "awaiting_confirmation" /\ dc_changes (w_docs w) !! id = Some o.1 /\
  (exists r, Asked (VerifyManagementPath tx) r ∈ l /\ stepOK r = true /\ sr_ManagementVerified r = true) /\
  (exists r, Asked (VerifyDataPlane tx) r ∈ l /\ stepOK r = true /\ sr_DataPlaneVerified r = true).
Definition unstranded (id : string) (w0 : World Cfg) (o : Outcome) (w : World Cfg) : Prop :=
  exists l, events w0 w l /\
    (untouched l \/ (exists tx, awaiting id tx o w l) \/ rolledBack l \/ (o.2 = Some internalFailure /\ durable id w)).

(** The phase of an apply: nothing on the router yet, or a durable state. *)
Definition phase (applied : bool) (id : string) (w : World Cfg) (l : list event) : Prop :=
  if applied then durable id w else untouched l.

Lemma phase_app applied id w w' l l' :
  phase applied id w l -> (applied = true -> durable id w -> durable id w') -> untouched l' -> phase applied id w' (l ++ l').
Proof. destruct applied; simpl; [auto|]. intros H1 _ H2. by apply Forall_app. Qed.

Lemma saveFailed_durable id w w' : saveFailed w w' -> durable id w -> durable id w'.
Proof. intros [Hd _]. unfold durable. by rewrite Hd. Qed.

Lemma unstranded_failed applied id cs w0 w w' l :
  events w0 w l -> phase applied id w l -> saveFailed w w' -> unstranded id w0 (cs, Some internalFailure) w'.
Proof.
  intros He Hp Hf. pose proof Hf as [_ He']. exists l. split.
  - rewrite <- (app_nil_r l). by eapply events_trans.
  - destruct applied; [right; right; right|by left]. split; [done|]. by eapply saveFailed_durable.
Qed.

Lemma unstranded_rollback applied id w0 w l o w' :
  events w0 w l -> phase applied id w l -> rollbackOutcome w o w' -> unstranded id w0 o w'.
Proof.
  intros He Hp (l' & He' & Hl' & Ho). exists (l ++ l'). split; [by eapply events_trans|]. destruct applied; simpl in Hp.
  - destruct Ho as [Ho|[Ho Hd]]; [right; right; left; by apply rolledBack_app|]. right; right; right. split; [done|].
    unfold durable. by rewrite Hd.
  - left. apply Forall_app. split; [done|by apply isApply_untouched].
Qed.

Definition isApplyOp (op : operation) : bool := match op with ApplyCandidate _ => true | _ => false end.

(** The step of an apply that has been announced by [before]. *)
Definition announced (before : string) (cs : ChangeSet) (w : World Cfg) : Prop :=
  before <> "" -> cs_State cs = before /\ current cs w.

Lemma wp_announce applied id w0 l before cs tx (Q : ChangeSet -> World Cfg -> Prop) E w :
  cs_ID cs = id -> validateTransactionBinding cs tx = None -> events w0 w l -> phase applied id w l ->
  (applied = true -> inFlight before = true) -> (before <> "" -> current cs w) ->
  (forall cs' w' l', cs_ID cs' = id -> validateTransactionBinding cs' tx = None -> events w0 w' (l ++ l') -> onlySaves l' ->
     phase applied id w' (l ++ l') -> announced before cs' w' ->
     cs_ManagementVerified cs' = cs_ManagementVerified cs -> cs_DataPlaneVerified cs' = cs_DataPlaneVerified cs -> Q cs' w') ->
  (forall o w', unstranded id w0 o w' -> E o w') ->
  wp (if (before <>s "") && (cs_State cs <>s before) then progress env cs tx before else mret cs) Q E w.
Proof.
  intros Hid Hb He Hp Hfl Hcur HQ HE. apply wp_if; intros Ec.
  - apply wp_progress_safe; [done| |].
    + intros cs' w' _ Hf. apply HE. by eapply unstranded_failed.
    + intros cs' w' Hst Hsv. pose proof Hsv as (_ & l' & He' & Hl').
      assert (Hid' : cs_ID cs' = id) by (by rewrite (stamped_id _ _ _ Hst)).
      apply (HQ cs' w' l'); try done.
      * by rewrite (stamped_binding _ _ _ _ Hst).
      * by eapply events_trans.
      * apply (phase_app _ _ w); [done| |by apply onlySaves_untouched]. intros Ha _. rewrite <- Hid'.
        eapply current_durable; [by eapply saveDone_current|]. rewrite (stamped_state _ _ _ Hst). auto.
      * intros _. split; [by apply (stamped_state _ _ _ Hst)|by eapply saveDone_current].
      * by destruct Hst as (v & u & ->).
      * by destruct Hst as (v & u & ->).
  - apply wp_ret, (HQ cs w []); try done; [by rewrite app_nil_r|by apply onlySaves_nil|by rewrite app_nil_r|].
    intros Hne. split; [|auto]. apply andb_false_iff in Ec as [Ec|Ec]; apply negb_false_iff, String.eqb_eq in Ec; done.
Qed.

(** What the flags of a change set are worth. *)
Definition verifiedBy (tx : Transaction) (cs : ChangeSet) (l : list event) : Prop :=
  (cs_ManagementVerified cs = true ->
   exists r, Asked (VerifyManagementPath tx) r ∈ l /\ stepOK r = true /\ sr_ManagementVerified r = true) /\
  (cs_DataPlaneVerified cs = true ->
   exists r, Asked (VerifyDataPlane tx) r ∈ l /\ stepOK r = true /\ sr_DataPlaneVerified r = true).
Lemma verifiedBy_app tx cs cs' l l' :
  cs_ManagementVerified cs' = cs_ManagementVerified cs -> cs_DataPlaneVerified cs' = cs_DataPlaneVerified cs ->
  verifiedBy tx cs l -> verifiedBy tx cs' (l ++ l').
Proof.
  intros E1 E2 [V1 V2]. unfold verifiedBy. rewrite E1, E2.
  split; intros Hf; [destruct (V1 Hf) as (r & Hr & H)|destruct (V2 Hf) as (r & Hr & H)]; exists r;
    (split; [apply elem_of_app; by left|exact H]).
Qed.

(** What holds between two steps: where the events are, what is on the router. *)
Definition between (applied dpa : bool) (tx : Transaction) (w0 : World Cfg) (cs : ChangeSet) (w : World Cfg) (l : list event) : Prop :=
  validateTransactionBinding cs tx = None /\ events w0 w l /\ phase applied (cs_ID cs) w l /\
  (applied = true -> dpa = true) /\ verifiedBy tx cs l.

Lemma asked_phase applied id before op r cs w l :
  cs_ID cs = id -> phase applied id w l -> (isApplyOp op = true -> inFlight before = true) -> announced before cs w ->
  phase (applied || touches (Asked op r)) id (asked op r w) (l ++ [Asked op r]).
Proof.
  intros Hid Hp Hop Ha. destruct applied; [exact Hp|]. cbn [orb]. destruct (touches (Asked op r)) eqn:Et.
  - destruct op; try done. destruct Ha as [Hs Hc]; [intros ->; by specialize (Hop eq_refl)|]. rewrite <- Hid.
    apply current_durable; [exact Hc|]. rewrite Hs. by apply Hop.
  - apply Forall_app. split; [exact Hp|by repeat constructor].
Qed.

(** The record of the answer [r] of [op], whichever state [cs'] has afterwards. *)
Lemma wp_recordAnswer applied dpa tx w0 l before op r cs cs' (Q : ChangeSet -> World Cfg -> Prop) E w :
  between applied dpa tx w0 cs w l -> (isApplyOp op = true -> inFlight before = true) -> announced before cs w ->
  (applied || touches (Asked op r) = true -> inFlight (cs_State cs') = true) ->
  cs_ID cs' = cs_ID cs -> validateTransactionBinding cs' tx = validateTransactionBinding cs tx ->
  cs_ManagementVerified cs' = cs_ManagementVerified cs -> cs_DataPlaneVerified cs' = cs_DataPlaneVerified cs ->
  (forall cs2 w2 l2, cs_ID cs2 = cs_ID cs -> validateTransactionBinding cs2 tx = None ->
     events w0 w2 l2 -> phase (applied || touches (Asked op r)) (cs_ID cs) w2 l2 -> verifiedBy tx cs2 l2 ->
     Asked op r ∈ l2 -> current cs2 w2 -> Q cs2 w2) ->
  (forall o w', unstranded (cs_ID cs) w0 o w' -> E o w') ->
  wp (progress env cs' tx (cs_State cs')) Q E (asked op r w).
Proof.
  intros (Hb & He & Hp & _ & Hv) Hop Ha Hfl Hid Hbb HM HD HQ HE.
  pose proof (asked_phase applied (cs_ID cs) before op r cs w l eq_refl Hp Hop Ha) as Hp1.
  assert (He1 : events w0 (asked op r w) (l ++ [Asked op r])) by (by eapply events_trans).
  apply wp_progress_safe; [by rewrite Hbb| |].
  - intros cs2 w2 _ Hf. apply HE. by eapply unstranded_failed.
  - intros cs2 w2 Hst Hsv. pose proof (saveDone_current _ _ _ Hsv) as Hcur. destruct Hsv as (_ & l' & He' & Hl').
    assert (Hid2 : cs_ID cs2 = cs_ID cs) by (by rewrite (stamped_id _ _ _ Hst)).
    apply (HQ cs2 w2 ((l ++ [Asked op r]) ++ l')).
    + exact Hid2.
    + by rewrite (stamped_binding _ _ _ _ Hst), Hbb.
    + by eapply events_trans.
    + apply (phase_app _ _ (asked op r w)); [exact Hp1| |by apply onlySaves_untouched]. intros Hap _. rewrite <- Hid2.
      apply current_durable; [exact Hcur|]. rewrite (stamped_state _ _ _ Hst). by apply Hfl.
    + destruct Hst as (v & u & ->). rewrite <- app_assoc. by apply (verifiedBy_app tx cs).
    + apply elem_of_app. left. apply elem_of_app. right. left.
    + exact Hcur.
Qed.

(** ** The run of the steps *)

(** The first step announces nothing and does not apply; the others announce a
    state recovery looks for. *)
Fixpoint stepsOf (tx : Transaction) (first : bool) (steps : list (string * operation)) : Prop :=
  match steps with
  | [] => True
  | (before, op) :: rest =>
      (before, op) ∈ applySteps tx /\
      (if first then before = "" /\ isApplyOp op = false else inFlight before = true) /\ stepsOf tx false rest
  end.
Lemma stepsOf_apply tx : stepsOf tx true (applySteps tx).
Proof. unfold applySteps. repeat split; (try done); set_solver. Qed.

(** An answer's name tells which step it answers. *)
Lemma named_step tx before op n name :
  names_steps -> (before, op) ∈ applySteps tx -> sr_Step (env_answer env n op) = name ->
  (name = "verify_management_path" -> op = VerifyManagementPath tx) /\ (name = "verify_data_plane" -> op = VerifyDataPlane tx).
Proof.
  intros HN Hin <-. rewrite (HN n tx before op Hin). unfold applySteps in Hin.
  repeat (apply elem_of_cons in Hin as [[= -> ->]|Hin]; [by split|]). by apply elem_of_nil in Hin.
Qed.

(** The flags the answer sets. *)
Definition withFlags (r : StepResult) (cs : ChangeSet) : ChangeSet :=
  let cs := if sr_Step r =s "verify_management_path" then set_cs_ManagementVerified (sr_ManagementVerified r) cs else cs in
  if sr_Step r =s "verify_data_plane" then set_cs_DataPlaneVerified (sr_DataPlaneVerified r) cs else cs.
Lemma withFlags_same r cs :
  cs_ID (withFlags r cs) = cs_ID cs /\ cs_State (withFlags r cs) = cs_State cs /\
  forall tx, validateTransactionBinding (withFlags r cs) tx = validateTransactionBinding cs tx.
Proof. unfold withFlags. by destruct (sr_Step r =s "verify_management_path"), (sr_Step r =s "verify_data_plane"). Qed.

Lemma withFlags_verified tx before op n cs l :
  names_steps -> (before, op) ∈ applySteps tx -> stepOK (env_answer env n op) = true -> Asked op (env_answer env n op) ∈ l ->
  verifiedBy tx cs l -> verifiedBy tx (withFlags (env_answer env n op) cs) l.
Proof.
  intros HN Hin Hok Hl [V1 V2]. destruct (named_step tx before op n _ HN Hin eq_refl) as [N1 N2].
  set (r := env_answer env n op) in *. unfold withFlags. split.
  - destruct (sr_Step r =s "verify_management_path") eqn:E1.
    + apply String.eqb_eq in E1. rewrite <- (N1 E1). intros Hf. exists r. split; [done|]. split; [done|].
      by destruct (sr_Step r =s "verify_data_plane").
    + by destruct (sr_Step r =s "verify_data_plane").
  - destruct (sr_Step r =s "verify_data_plane") eqn:E1; [|by destruct (sr_Step r =s "verify_management_path")].
    apply String.eqb_eq in E1. rewrite <- (N2 E1). intros Hf. by exists r.
Qed.

Lemma touches_named tx before op n :
  names_steps -> (before, op) ∈ applySteps tx -> touches (Asked op (env_answer env n op)) = true ->
  (sr_Step (env_answer env n op) =s "apply_candidate") = true /\
  containsString ["SKIPPED"; "UNVERIFIED"] (sr_Status (env_answer env n op)) = false.
Proof.
  intros HN Hin Ht. destruct op; try done. rewrite (HN n tx before _ Hin). split; [done|]. by apply negb_true_iff in Ht.
Qed.

Lemma wp_giveUp applied id w0 tx cs final reason (Q : ChangeSet -> World Cfg -> Prop) (E : Outcome -> World Cfg -> Prop) w l :
  validateTransactionBinding cs tx = None -> events w0 w l -> phase applied id w l ->
  (forall o w', unstranded id w0 o w' -> E o w') -> wp (o ← rollbackLocked env cs tx final reason; return_ o.1 o.2) Q E w.
Proof.
  intros Hb He Hp HE. apply wp_pass, wp_rollbackLocked_safe; [done|]. intros o w' Ho. apply HE. by eapply unstranded_rollback.
Qed.

(** A step that needs a device: nothing was applied and the change is finished. *)
Lemma wp_requiresDevice {A} id w0 tx cs (Q : A -> World Cfg -> Prop) (E : Outcome -> World Cfg -> Prop) w l :
  cs_ID cs = id -> validateTransactionBinding cs tx = None -> events w0 w l -> untouched l ->
  (forall o w', unstranded id w0 o w' -> E o w') ->
  wp (cs ← progress env cs tx "requires_device"; return_ cs None) Q E w.
Proof.
  intros Hid Hb He Hl HE. apply wp_bind, wp_progress_safe; [done| |].
  - intros cs' w' _ Hf. apply HE. by apply (unstranded_failed false id cs' w0 w w' l).
  - intros cs' w' _ (_ & l' & He' & Hl'). apply wp_return, HE. exists (l ++ l'). split; [by eapply events_trans|].
    left. apply Forall_app. split; [done|by apply onlySaves_untouched].
Qed.

Lemma wp_runSteps_safe id w0 tx (E : Outcome -> World Cfg -> Prop) (Q : ChangeSet -> World Cfg -> Prop) steps :
  names_steps -> (forall o w', unstranded id w0 o w' -> E o w') ->
  (forall applied dpa cs w l, cs_ID cs = id -> between applied dpa tx w0 cs w l -> Q cs w) ->
  forall first applied dpa cs w l, stepsOf tx first steps -> cs_ID cs = id -> between applied dpa tx w0 cs w l ->
    (if first then applied = false else current cs w) ->
    wp (runSteps env steps first cs tx dpa) Q E w.
Proof.
  intros HN HE HQ. induction steps as [|[before op] rest IH]; intros first applied dpa cs w l Hst Hid HB Hfirst.
  { apply wp_ret. by eapply HQ. }
  destruct Hst as (Hin & Hfirst' & Hrest). destruct HB as (Hb & He & Hp & Hdpa & Hv).
  assert (Hne : forall b, inFlight b = true -> b <> "") by (intros b Hf ->; discriminate Hf).
  cbn [runSteps]. apply wp_bind. apply (wp_announce applied id w0 l); [exact Hid|exact Hb|exact He|by rewrite <- Hid| | | |exact HE].
  { destruct first; [by rewrite Hfirst|done]. }
  { destruct first; [by destruct Hfirst' as [-> _]|done]. }
  intros cs1 w1 l1 Hid1 Hb1 He1 Hl1 Hp1 Ha1 HM1 HD1.
  assert (HB1 : between applied dpa tx w0 cs1 w1 (l ++ l1)).
  { split_and!; [done..|by rewrite Hid1|done|by apply (verifiedBy_app tx cs)]. }
  apply wp_bind, wp_orNil, wp_ret. rewrite Hb1. apply wp_bind, wp_ask. intros n r.
  set (cs2 := if first && stepOK r then _ else _).
  assert (Hop : isApplyOp op = true -> inFlight before = true).
  { intros Hop. destruct first; [|done]. destruct Hfirst' as [_ Hno]. congruence. }
  assert (Hsame : cs_ID cs2 = cs_ID cs1 /\ validateTransactionBinding cs2 tx = validateTransactionBinding cs1 tx /\
    cs_ManagementVerified cs2 = cs_ManagementVerified cs1 /\ cs_DataPlaneVerified cs2 = cs_DataPlaneVerified cs1).
  { unfold cs2. by destruct (first && stepOK r). }
  assert (Hfl : applied || touches (Asked op r) = true -> inFlight (cs_State cs2) = true).
  { unfold cs2. destruct first.
    - subst applied. destruct Hfirst' as [_ Hno]. by destruct op.
    - intros _. simpl. destruct (Ha1 (Hne _ Hfirst')) as [-> _]. exact Hfirst'. }
  destruct Hsame as (Hid2 & Hb2 & HM2 & HD2). clearbody cs2. rewrite <- Hid1 in HE.
  apply wp_bind. eapply wp_recordAnswer; [exact HB1|exact Hop|exact Ha1|exact Hfl|done..| |exact HE].
  rewrite Hid1 in HE. rewrite Hid1. intros cs3 w3 l3 Hid3 Hb3 He3 Hp3 Hv3 Hask Hcur3.
  assert (Htn : touches (Asked op r) = true -> (sr_Step r =s "apply_candidate") = true /\
    containsString ["SKIPPED"; "UNVERIFIED"] (sr_Status r) = false) by (intros Ht; by apply (touches_named tx before op n)).
  apply wp_if; intros E1.
  - apply wp_if; intros E2; [|by eapply wp_giveUp]. apply wp_if; intros E3; [by eapply wp_giveUp|].
    eapply wp_requiresDevice; [exact Hid3|exact Hb3|exact He3| |exact HE].
    destruct applied; [by rewrite Hdpa in E3|]. destruct (touches (Asked op r)) eqn:Et; [|exact Hp3].
    destruct (Htn eq_refl) as [_ Hno]. congruence.
  - apply wp_if; intros E2; [by eapply wp_giveUp|]. destruct (withFlags_same r cs3) as (Hi & Hs & Hbb).
    apply (IH false (applied || touches (Asked op r)) _ (withFlags r cs3) w3 l3); [exact Hrest|by rewrite Hi| |].
    + split_and!; [by rewrite Hbb|done|by rewrite Hi, Hid3| |].
      * intros Hap. destruct (sr_Step r =s "apply_candidate") eqn:Es; [done|].
        destruct applied; [auto|]. by destruct (Htn Hap) as [? _].
      * apply negb_false_iff in E1. by eapply withFlags_verified.
    + destruct Hcur3 as (c & Hc & Hcs). exists c. by rewrite Hi, Hs.
Qed.

(** ** The apply *)

(** An answer with no apply since. *)
Lemma unstranded_untouched id w0 o w l : events w0 w l -> untouched l -> unstranded id w0 o w.
Proof. intros He Hl. exists l. split; [done|by left]. Qed.

Lemma events_same (w w' : World Cfg) : sameWorld w w' -> events w w' [].
Proof. intros [n ->]. exact (events_refl w). Qed.

Lemma wp_commitNoop_safe id w0 cs l (Q : Outcome -> World Cfg -> Prop) E w :
  events w0 w l -> untouched l -> (forall o w', unstranded id w0 o w' -> Q o w' /\ E o w') -> wp (commitNoop env cs) Q E w.
Proof.
  intros He Hl HQ. apply wp_bind, wp_clock. intros t. apply wp_bind, wp_SaveBatch.
  - intros e. apply wp_return, HQ. by eapply unstranded_untouched.
  - apply wp_bind, wp_modifyServer, wp_return, HQ. eapply unstranded_untouched.
    + eapply events_trans; [exact He|]. done.
    + apply Forall_app. split; [done|by repeat constructor].
Qed.

Lemma wp_applyNoop_safe id cs (Q : Outcome -> World Cfg -> Prop) E w :
  (forall o w', unstranded id w o w' -> Q o w') -> wp (applyNoopChangeSet env cs) Q E w.
Proof.
  intros HQ. apply wp_invoke, wp_bind.
  assert (HN : forall o w', events w w' [] -> Q o w') by (intros o w' He; apply HQ; apply (unstranded_untouched _ _ _ _ []); [exact He|constructor]).
  assert (HE : forall o w', unstranded id w o w' -> Q o w' /\ Q o w') by auto.
  apply wp_if; intros _; [apply wp_ret, wp_return, HN; exact (events_refl w)|].
  apply wp_LoadJSON; [intros e; apply wp_return, HN; exact (events_refl w)|]. intros revision _.
  apply wp_if; intros _; [apply wp_return, HN; exact (events_refl w)|]. apply wp_if; intros _.
  - apply wp_bind, wp_getServer. apply wp_if; intros _; [apply wp_return, HN; exact (events_refl w)|].
    eapply (wp_commitNoop_safe id w); [exact (events_refl w)|constructor|exact HE].
  - apply wp_bind, wp_ask. intros n r. assert (He : events w (asked Status r (tick w)) [Asked Status r]) by reflexivity.
    apply wp_if; intros _.
    + apply wp_return, HQ. eapply unstranded_untouched; [exact He|by repeat constructor].
    + eapply (wp_commitNoop_safe id w); [exact He|by repeat constructor|exact HE].
Qed.

(** The end of an apply: the flags are checked and the change awaits its
    confirmation. *)
Lemma wp_await id w0 tx applied dpa cs (Q E : Outcome -> World Cfg -> Prop) w l :
  cs_ID cs = id -> between applied dpa tx w0 cs w l -> (forall o w', unstranded id w0 o w' -> Q o w' /\ E o w') ->
  wp (if negb (cs_ManagementVerified cs) || negb (cs_DataPlaneVerified cs) then
        rollbackLocked env cs tx "rolled_back" "verification_flags_missing"
      else
        cs ← progress env (set_cs_AdapterStatus "OK" cs) tx "awaiting_confirmation";
        _ ← scheduleExpiry env cs; return_ cs None) Q E w.
Proof.
  intros Hid (Hb & He & Hp & _ & HM & HD) HQ. rewrite Hid in Hp. apply wp_if; intros Ef.
  { apply wp_rollbackLocked_safe; [done|]. intros o w' Ho. apply HQ. by eapply unstranded_rollback. }
  apply orb_false_iff in Ef as [F1 F2]. apply negb_false_iff in F1. apply negb_false_iff in F2.
  apply wp_bind, wp_progress_safe; [done| |].
  - intros cs' w' _ Hf. apply HQ. by eapply unstranded_failed.
  - intros cs' w' Hst (Hc & l' & He' & Hl'). pose proof (stamped_state _ _ _ Hst) as Hs.
    pose proof (stamped_id _ _ _ Hst) as Hi. simpl in Hi. rewrite Hid in Hi. rewrite Hi in Hc.
    assert (HU : forall w2, w_docs w2 = w_docs w' -> w_log w2 = w_log w' -> unstranded id w0 (cs', None) w2).
    { intros w2 Hd Hl. exists (l ++ l'). split; [unfold events in *; by rewrite Hl, He', He, <- app_assoc|].
      right; left. exists tx. split_and!; [done|exact Hs|by rewrite Hd| |].
      - destruct (HM F1) as (r & Hr & H1). exists r. split; [apply elem_of_app; by left|done].
      - destruct (HD F2) as (r & Hr & H1). exists r. split; [apply elem_of_app; by left|done]. }
    apply wp_bind. unfold scheduleExpiry. destruct (env_parse env _); [apply wp_modifyServer|apply wp_ret]; by apply wp_return, HQ, HU.
Qed.

Lemma wp_apply_safe cs (Q : Outcome -> World Cfg -> Prop) E w :
  names_steps -> cs_ManagementVerified cs = false -> cs_DataPlaneVerified cs = false ->
  (forall o w', unstranded (cs_ID cs) w o w' -> Q o w') -> wp (applyChangeSet env cs) Q E w.
Proof.
  intros HN HM HD HQ. apply wp_invoke, wp_bind. set (id := cs_ID cs) in *.
  assert (HU : forall f w', events w w' [] -> Q (cs, f) w') by (intros o w' He; apply HQ; apply (unstranded_untouched _ _ _ _ []); [exact He|constructor]).
  assert (HE : forall o w', unstranded id w o w' -> Q o w' /\ Q o w') by auto.
  apply wp_acquire; [intros _|intros f _; by apply HU, events_refl].
  apply wp_if; intros _; [by apply wp_return, HU, events_refl|]. apply wp_bind, wp_getServer.
  apply wp_if; intros _; [by apply wp_return, HU, events_refl|]. apply wp_if; intros _; [by apply wp_return, HU, events_refl|].
  apply wp_if; intros _; [by eapply wp_applyNoop_safe|].
  apply wp_bind, wp_orFail, wp_loadVerifiedTransaction; [intros f w' Hs; by apply HU, events_same|].
  intros tx record w1 Hs1 _ _ Hb. pose proof (events_same _ _ Hs1) as He1.
  apply wp_bind, wp_orFail, wp_loadVerifiedCandidate.
  { intros f w' Hs. apply HU. apply (events_trans w w1 w' [] []); [done|by apply events_same]. }
  intros c w2 Hs2 _.
  assert (He2 : events w w2 []) by (apply (events_trans w w1 w2 [] []); [done|by apply events_same]).
  apply wp_bind, wp_outside. intros validations. apply wp_if; intros _; [by apply wp_return, HU|].
  apply wp_bind, wp_outside. intros proof. apply wp_bind, wp_orNil, wp_ret. destruct proof as [f|]; [by apply HU|].
  assert (He3 : events w (tick (tick w2)) []) by exact He2.
  apply wp_if; intros _; [eapply (wp_requiresDevice id w); [reflexivity|exact Hb|exact He3|constructor|exact HQ]|].
  apply wp_if; intros _; [eapply (wp_requiresDevice id w); [reflexivity|exact Hb|exact He3|constructor|exact HQ]|].
  assert (HB : between false false tx w cs (tick (tick w2)) []).
  { split_and!; [exact Hb|exact He3|constructor|done|]. split; rewrite ?HM, ?HD; done. }
  apply wp_bind.
  apply (wp_runSteps_safe id w tx Q _ (applySteps tx) HN HQ) with (applied := false) (l := []); [|apply stepsOf_apply|done|exact HB|done].
  intros applied dpa cs' w' l Hid HB'. by eapply wp_await.
Qed.

(** C2: an apply never strands the data plane.  For an adapter that names its
    steps, when an apply of a change with no verification yet is over, whatever
    the adapter answered and whichever writes failed: no candidate was put on the
    router; or the change is on disk awaiting its confirmation, with an accepted
    answer for the management path and one for the data plane; or a rollback was
    asked of the adapter and no apply after it; or the store failed and left the
    change on disk in a state that the next start recovers. *)
Theorem apply_never_strands cs w o w' :
  names_steps -> cs_ManagementVerified cs = false -> cs_DataPlaneVerified cs = false ->
  applyChangeSet env cs w = (inl o, w') -> unstranded (cs_ID cs) w o w'.
Proof.
  intros HN HM HD HE. eapply (wp_answer _ (unstranded (cs_ID cs) w) (fun _ _ => True)); [|exact HE].
  apply wp_apply_safe; [exact HN|exact HM|exact HD|]. by intros o' w2.
Qed.
End Strand.
