(* ===== verification/TransactionRecovery.v ===== *)
(** * Recovery of interrupted transactions

    What a restart does with the changes it finds in flight: it settles each of
    them or does not start, and it never undoes a change whose control plane has
    committed. *)
From Stdlib Require Import ZArith Lia.
From stdpp Require Import base list strings gmap sorting.
From S2P Require Import Prelude Interfaces Json Candidate Adapter Transaction TransactionProofs TransactionSafety.

Open Scope Z_scope.

Section Recovery.
Context {Cfg : Type} (env : Env Cfg).

Lemma wp_and {A} (m : Run Cfg A) Q Q' E E' w :
  wp m Q E w -> wp m Q' E' w -> wp m (fun a w' => Q a w' /\ Q' a w') (fun o w' => E o w' /\ E' o w') w.
Proof. unfold wp. destruct (m w) as [[a|o] w']; auto. Qed.

(** ** The footprint of the recovery of one change *)

(** From [w] to [w'] only the change [id], its timer and its transactions were
    touched, and every event satisfies [ok]. *)
Definition kept (id : string) (ok : event -> Prop) (w w' : World Cfg) : Prop :=
  (forall i, i <> id -> sv_changes (w_server w') !! i = sv_changes (w_server w) !! i) /\
  (forall i, i <> id -> sv_timers (w_server w') !! i = sv_timers (w_server w) !! i) /\
  (forall t r, dc_transactions (w_docs w') !! t = Some r ->
     dc_transactions (w_docs w) !! t = Some r \/ tx_ChangeID (tr_Transaction r) = id) /\
  (exists l, events w w' l /\ Forall ok l).

Lemma events_nil (w w' : World Cfg) : w_log w' = w_log w -> events w w' [].
Proof. intros Hl. unfold events. by rewrite Hl, app_nil_r. Qed.

Lemma kept_refl id ok w : kept id ok w w.
Proof. split_and!; [done..|auto|]. exists []. split; [apply events_refl|done]. Qed.
Lemma kept_trans id ok w1 w2 w3 : kept id ok w1 w2 -> kept id ok w2 w3 -> kept id ok w1 w3.
Proof.
  intros (A1 & A2 & A3 & l & A4 & A5) (B1 & B2 & B3 & l' & B4 & B5). split_and!.
  - intros i Hi. by rewrite B1, A1.
  - intros i Hi. by rewrite B2, A2.
  - intros t r Hr. destruct (B3 t r Hr) as [Hr'|]; [by apply A3|by right].
  - exists (l ++ l'). split; [by eapply events_trans|by apply Forall_app].
Qed.

Section Footprint.
Context (id : string) (ok : event -> Prop).
Hypothesis Hsaved : forall i s, ok (Saved i s).
Hypothesis Hasked : forall op r, (forall tx, op <> Rollback tx) -> ok (Asked op r).

(** [m] keeps to the footprint, and its value is in [P]. *)
Definition keeps {A} (m : Run Cfg A) (P : A -> Prop) : Prop :=
  forall w, wp m (fun a w' => kept id ok w w' /\ P a) (fun _ w' => kept id ok w w') w.

Lemma keeps_ret {A} (a : A) (P : A -> Prop) : P a -> keeps (mret a) P.
Proof. intros HP w. apply wp_ret. split; [apply kept_refl|done]. Qed.
Lemma keeps_return {A} cs f (P : A -> Prop) : keeps (return_ cs f) P.
Proof. intros w. apply wp_return, kept_refl. Qed.
Lemma keeps_bind {A B} (m : Run Cfg A) (f : A -> Run Cfg B) P R : keeps m P -> (forall a, P a -> keeps (f a) R) -> keeps (m ≫= f) R.
Proof.
  intros Hm Hf w. apply wp_bind. eapply wp_mono; [apply Hm| |done]. intros a w1 [H1 HP].
  eapply wp_mono; [by apply Hf| |].
  - intros b w2 [H2 HR]. split; [by eapply kept_trans|done].
  - intros o w2 H2. by eapply kept_trans.
Qed.
Lemma keeps_if {A} (b : bool) (m m' : Run Cfg A) P : keeps m P -> keeps m' P -> keeps (if b then m else m') P.
Proof. by destruct b. Qed.
Lemma keeps_invoke (m : Run Cfg Outcome) : keeps m (fun _ => True) -> keeps (invoke m) (fun _ => True).
Proof. intros Hm w. apply wp_invoke. eapply wp_mono; [apply Hm|by intros a w' [? _]|done]. Qed.

(** A world that differs in nothing the footprint compares. *)
Lemma kept_same w w' :
  sv_changes (w_server w') = sv_changes (w_server w) -> sv_timers (w_server w') = sv_timers (w_server w) ->
  dc_transactions (w_docs w') = dc_transactions (w_docs w) -> w_log w' = w_log w -> kept id ok w w'.
Proof.
  intros E1 E2 E3 E4. unfold kept. rewrite E1, E2, E3. split_and!; [done..|auto|]. exists []. split; [by apply events_nil|done].
Qed.

Lemma keeps_server : keeps getServer (fun _ => True).
Proof. intros w. apply wp_getServer. split; [apply kept_refl|done]. Qed.
Lemma keeps_clock : keeps (clock env) (fun _ => True).
Proof. intros w. apply wp_clock. intros t. split; [by apply kept_same|done]. Qed.
Lemma keeps_outside {A} (f : nat -> A) : keeps (outside f) (fun _ => True).
Proof. intros w. apply wp_outside. intros t. split; [by apply kept_same|done]. Qed.
Lemma keeps_load {A} (get : Documents Cfg -> option A) : keeps (LoadJSON env get) (fun _ => True).
Proof. intros w. apply wp_LoadJSON; intros; (split; [by apply kept_same|done]). Qed.
Lemma keeps_retire tx : keeps (RetireCapability env tx) (fun _ => True).
Proof. intros w. apply wp_RetireCapability; (split; [by apply kept_same|done]). Qed.
Lemma keeps_ask op : (forall r, ok (Asked op r)) -> keeps (ask env op) (fun _ => True).
Proof.
  intros Hop w. apply wp_ask. intros n r. split; [|done]. split_and!; [done..|auto|].
  exists [Asked op r]. split; [done|]. by constructor.
Qed.
Lemma keeps_cancel : keeps (cancelExpiryLocked id) (fun _ => True).
Proof.
  intros w. apply wp_modifyServer. split; [|done]. split_and!; [done| |auto|].
  - intros i Hi. simpl. by rewrite lookup_delete_ne.
  - exists []. split; [by apply events_nil|done].
Qed.
Lemma keeps_change f cs :
  cs_ID cs = id ->
  (forall s : Server Cfg, sv_changes (f s) = <[cs_ID cs := cs]> (sv_changes s) /\ sv_timers (f s) = sv_timers s) ->
  keeps (modifyServer f) (fun _ => True).
Proof.
  intros Hid Hf w. apply wp_modifyServer. split; [|done]. destruct (Hf (w_server w)) as [E1 E2].
  unfold kept. simpl. rewrite E1, E2, Hid. split_and!; [|done|auto|].
  - intros i Hi. by rewrite lookup_insert_ne.
  - exists []. split; [by apply events_nil|done].
Qed.

(** The transactions written are those of the change. *)
Definition ours (e : entry Cfg) : Prop :=
  match e with ETransaction _ r => tx_ChangeID (tr_Transaction r) = id | _ => True end.
Lemma applyEntries_ours entries : forall d, Forall ours entries -> forall t r,
  dc_transactions (applyEntries entries d) !! t = Some r -> dc_transactions d !! t = Some r \/ tx_ChangeID (tr_Transaction r) = id.
Proof.
  induction entries as [|e rest IH]; intros d; [by left|]. intros [He Hrest]%Forall_cons t r Hr.
  destruct (IH _ Hrest t r Hr) as [Hr'|]; [|by right]. destruct d, e; try by left.
  simpl in Hr'. apply lookup_insert_Some in Hr' as [[_ <-]|[_ ?]]; [by right|by left].
Qed.
Lemma keeps_SaveBatch entries : Forall ours entries -> keeps (SaveBatch env entries) (fun _ => True).
Proof.
  intros He w. apply wp_SaveBatch; [intros e; split; [by apply kept_same|done]|]. split; [|done]. split_and!; [done..| |].
  - intros t r. by apply applyEntries_ours.
  - exists (savedEvents entries). split; [done|]. apply Forall_forall. intros e Hin.
    apply list_elem_of_omap in Hin as (x & _ & Hx). destruct x; try done. by injection Hx as <-.
Qed.

Lemma keeps_fence target code p : keeps (markRecoveryRequired env target code p) (fun _ => True).
Proof.
  intros w. apply wp_markRecoveryRequired. intros w' (st & _ & rec & _ & Hs & Hd & _ & Hl). split; [|done].
  apply kept_same; [by rewrite Hs..| |done]. destruct Hd as [-> | ->]; [done|by destruct (w_docs w)].
Qed.

Lemma keeps_saveProgress cs tx next :
  cs_ID cs = id -> tx_ChangeID tx = id -> keeps (saveProgress env cs tx next) (fun r => cs_ID r.1 = id).
Proof.
  intros Hid Htx. unfold saveProgress. destruct (validateTransactionBinding cs tx); [by apply keeps_ret|].
  eapply keeps_bind; [apply keeps_clock|intros t _]. eapply keeps_bind; [apply keeps_clock|intros t' _].
  eapply keeps_bind; [apply keeps_SaveBatch; by repeat constructor|intros [e|] _]; [by apply keeps_ret|].
  eapply keeps_bind; [|intros _ _; by apply keeps_ret]. by apply (keeps_change _ (stamp env next t cs)).
Qed.
Lemma keeps_progress cs tx next :
  cs_ID cs = id -> tx_ChangeID tx = id -> keeps (progress env cs tx next) (fun cs' => cs_ID cs' = id).
Proof.
  intros Hid Htx. eapply keeps_bind; [by apply keeps_saveProgress|]. intros [cs' [e|]] Hcs; [apply keeps_return|by apply keeps_ret].
Qed.
Lemma keeps_cleanup tx b : keeps (saveCleanupStatus env tx b) (fun _ => True).
Proof. eapply keeps_bind; [by apply keeps_SaveBatch; repeat constructor|]. intros e _. by apply keeps_ret. Qed.

Lemma keeps_rollbackLocked cs tx final reason :
  cs_ID cs = id -> tx_ChangeID tx = id -> (forall r, ok (Asked (Rollback tx) r)) ->
  keeps (rollbackLocked env cs tx final reason) (fun _ => True).
Proof.
  intros Hid Htx Hok. apply keeps_invoke.
  eapply keeps_bind; [by apply keeps_progress|intros cs1 H1]. eapply keeps_bind; [by apply keeps_ask|intros r _].
  apply keeps_if.
  { eapply keeps_bind; [by apply keeps_saveProgress|intros [cs2 e] _]. eapply keeps_bind; [apply keeps_fence|intros _ _]. apply keeps_return. }
  apply keeps_if; [eapply keeps_bind; [by apply keeps_progress|intros cs2 _; apply keeps_return]|].
  eapply keeps_bind; [by apply keeps_saveProgress|intros [cs2 [e|]] H2].
  { eapply keeps_bind; [apply keeps_fence|intros _ _]. apply keeps_return. }
  simpl in H2. rewrite H2. eapply keeps_bind; [apply keeps_cancel|intros _ _]. eapply keeps_bind; [apply keeps_retire|intros b1 _].
  eapply keeps_bind; [apply keeps_outside|intros b2 _]. eapply keeps_bind; [apply keeps_outside|intros b3 _].
  eapply keeps_bind; [apply keeps_cleanup|intros _ _]. apply keeps_return.
Qed.

Lemma keeps_loadVerifiedCandidate cs tx : keeps (loadVerifiedCandidate env cs tx) (fun _ => True).
Proof.
  intros w. apply wp_loadVerifiedCandidate; intros ? w' [n ->]; intros; (split; [by apply kept_same|done]).
Qed.
Lemma keeps_loadTransaction cs :
  keeps (loadTransaction env cs) (fun r => match r with inl tx => tx_ChangeID tx = cs_ID cs | inr _ => True end).
Proof.
  intros w. apply wp_loadTransaction; [intros f; split; [by apply kept_same|done]|].
  intros tx record _ _ Hb. split; [by apply kept_same|]. unfold validateTransactionBinding in Hb.
  match type of Hb with (if ?b then _ else _) = _ => destruct b eqn:Eb end; [done|]. bool_split. str_eq. done.
Qed.

Lemma keeps_clearBootGuard tx : keeps (clearBootGuard env tx) (fun _ => True).
Proof.
  unfold clearBootGuard. destruct (env_guard env); [by apply keeps_ret|..];
    (eapply keeps_bind; [by apply keeps_ask; intros r; apply Hasked|intros r _]; by apply keeps_ret).
Qed.
Lemma keeps_cleanupCommitted tx previous : keeps (cleanupCommittedResources env tx previous) (fun _ => True).
Proof.
  eapply keeps_bind; [apply keeps_retire|intros b1 _]. eapply keeps_bind; [apply keeps_outside|intros b2 _].
  eapply keeps_bind; [apply keeps_outside|intros b3 _]. eapply keeps_bind; [|intros b4 _; apply keeps_cleanup].
  destruct previous; [apply keeps_if; [apply keeps_outside|]|]; by apply keeps_ret.
Qed.

Lemma keeps_finalize cs tx :
  cs_ID cs = id -> tx_ChangeID tx = id -> keeps (finalizeRecoveredCommit env cs tx) (fun _ => True).
Proof.
  intros Hid Htx. eapply keeps_bind; [apply keeps_server|intros s _]. eapply keeps_bind; [apply keeps_load|intros previous _].
  eapply keeps_bind; [apply keeps_loadVerifiedCandidate|intros [c|f] _]; [|by apply keeps_ret].
  eapply keeps_bind; [apply keeps_clock|intros now _]. eapply keeps_bind; [apply keeps_SaveBatch; by repeat constructor|].
  intros [e|] _; [by apply keeps_ret|]. eapply keeps_bind; [apply keeps_clearBootGuard|intros [f|] _]; [by apply keeps_ret|].
  set (cs1 := set_cs_CommitPhase _ _). assert (Hid1 : cs_ID cs1 = id) by done. clearbody cs1.
  eapply keeps_bind; [by apply (keeps_change _ cs1)|intros _ _]. rewrite Hid1.
  eapply keeps_bind; [apply keeps_cancel|intros _ _]. eapply keeps_bind; [apply keeps_cleanupCommitted|intros _ _]. by apply keeps_ret.
Qed.

Lemma keeps_completeOrFence cs tx :
  cs_ID cs = id -> tx_ChangeID tx = id -> keeps (completeOrFence env cs tx) (fun _ => True).
Proof.
  intros Hid Htx. eapply keeps_bind; [by apply keeps_finalize|intros [cs1 [e|]] _]; [|by apply keeps_ret].
  eapply keeps_bind; [apply keeps_fence|intros _ _]. by apply keeps_ret.
Qed.

Lemma keeps_schedule cs : cs_ID cs = id -> keeps (scheduleExpiry env cs) (fun _ => True).
Proof.
  intros Hid. unfold scheduleExpiry. destruct (env_parse env (cs_ExpiresAt cs)); [|by apply keeps_ret].
  intros w. apply wp_modifyServer. split; [|done]. split_and!; [done| |auto|].
  - intros i Hi. simpl. by rewrite lookup_insert_ne by congruence.
  - exists []. split; [by apply events_nil|done].
Qed.

(** What is rolled back is not a change whose control plane has committed. *)
Lemma keeps_recoverOther cs tx matches p :
  cs_ID cs = id -> tx_ChangeID tx = id ->
  ((cs_State cs =s "committing") && controlPlaneCommitted p = false -> forall r, ok (Asked (Rollback tx) r)) ->
  keeps (recoverOther env cs tx matches p) (fun _ => True).
Proof.
  intros Hid Htx Hok.
  assert (HC : forall b : bool, keeps (if b then now ← clock env; mret (T.Before now (tx_ExpiresAt tx)) else mret false) (fun _ => True)).
  { intros b. apply keeps_if; [|by apply keeps_ret]. eapply keeps_bind; [apply keeps_clock|intros t _]. by apply keeps_ret. }
  eapply keeps_bind; [apply HC|intros waiting _]. apply keeps_if.
  { eapply keeps_bind; [by apply keeps_schedule|intros _ _]. by apply keeps_ret. }
  destruct (_ && _) eqn:E; [eapply keeps_bind; [apply keeps_fence|intros _ _; by apply keeps_ret]|].
  eapply (keeps_bind _ _ (fun _ => True)).
  { apply keeps_if; [|by apply keeps_ret]. eapply keeps_bind; [apply keeps_clock|intros t _]. by apply keeps_ret. }
  intros final _. eapply keeps_bind; [apply keeps_rollbackLocked; auto|intros o _]. by apply keeps_ret.
Qed.
End Footprint.

(** ** One change *)

(** A rollback of a transaction of [id] whose control plane had not committed. *)
Definition undoes (id : string) (w : World Cfg) (tx : Transaction) : Prop :=
  tx_ChangeID tx = id /\ exists cs record, sv_changes (w_server w) !! id = Some cs /\
    dc_transactions (w_docs w) !! tx_ID tx = Some record /\ tr_Transaction record = tx /\
    (cs_State cs =s "committing") && controlPlaneCommitted (tr_CommitPhase record) = false.
Definition allowed (id : string) (w : World Cfg) (e : event) : Prop :=
  match e with Asked (Rollback tx) _ => undoes id w tx | _ => True end.

Lemma allowed_saved id w i s : allowed id w (Saved i s).
Proof. done. Qed.
Lemma allowed_asked id w op r : (forall tx, op <> Rollback tx) -> allowed id w (Asked op r).
Proof. destruct op; try done. intros H. by destruct (H tx). Qed.

Lemma binding_fields cs tx :
  validateTransactionBinding cs tx = None -> tx_ChangeID tx = cs_ID cs /\ tx_ID tx = cs_TransactionID cs.
Proof.
  intros Hb. unfold validateTransactionBinding in Hb.
  match type of Hb with (if ?b then _ else _) = _ => destruct b eqn:Eb end; [done|]. bool_split. str_eq. done.
Qed.

(** The change [recoverOne] works on, with its transaction and record. *)
Definition recovering (id : string) (w : World Cfg) (cs : ChangeSet) (tx : Transaction) (record : transactionRecord) : Prop :=
  sv_changes (w_server w) !! id = Some cs /\ cs_ID cs = id /\ id <> "" /\ validateTransactionBinding cs tx = None /\
  dc_transactions (w_docs w) !! tx_ID tx = Some record /\ tr_Transaction record = tx.

Lemma wp_recoverLoad id Q E w :
  solid env w -> (forall e w', sameWorld w w' -> Q (Some e) w') ->
  (forall cs tx record w', recovering id w cs tx record -> sameWorld w w' -> wp (recoverLoaded env cs tx record) Q E w') ->
  wp (recoverOne env id) Q E w.
Proof.
  intros [(Hch & _) Hk] HF HQ. apply wp_bind, wp_getServer. cbv zeta. apply wp_bind, wp_loadTransaction.
  { intros f. apply wp_ret, HF, sameWorld_tick, sameWorld_refl. }
  intros tx record Hrec Htx Hb. apply wp_bind, wp_LoadJSON.
  { intros e. apply wp_ret, HF, sameWorld_tick, sameWorld_tick, sameWorld_refl. }
  intros record' Hrec'. destruct (binding_fields _ _ Hb) as [Hc Ht]. cbn [tick set_w_tick w_docs] in Hrec'.
  assert (record' = record) as -> by (rewrite Ht in Hrec'; congruence).
  destruct (sv_changes (w_server w) !! id) as [cs|] eqn:Ec; [|by destruct (unbound_zero tx)]. simpl in *.
  apply HQ; [|apply sameWorld_tick, sameWorld_tick, sameWorld_refl]. rewrite Hch in Ec. destruct (Hk _ _ Ec) as [Hid Hne].
  rewrite <- Hch in Ec. by split_and!.
Qed.

Lemma wp_recoverOne_kept id w :
  solid env w -> wp (recoverOne env id) (fun _ w' => kept id (allowed id w) w w') (fun _ w' => kept id (allowed id w) w w') w.
Proof.
  intros Hw. apply wp_recoverLoad; [done|intros e w' [n ->]; by apply kept_same|].
  intros cs tx record w1 (Hcs & Hid & _ & Hb & Hrec & Htx) [n ->]. destruct (binding_fields _ _ Hb) as [Hc _]. rewrite Hid in Hc.
  assert (HR : (cs_State cs =s "committing") && controlPlaneCommitted (tr_CommitPhase record) = false ->
               forall r, allowed id w (Asked (Rollback tx) r)) by (intros HE r; split; [done|]; by exists cs, record).
  eapply (wp_mono _ (fun _ w' => kept id (allowed id w) (set_w_tick n w) w') _ (fun _ w' => kept id (allowed id w) (set_w_tick n w) w'));
    [|by intros a w' Hw'|by intros a w' Hw'].
  pose proof (allowed_saved id w) as Hsv. pose proof (allowed_asked id w) as Hask.
  enough (HK : keeps id (allowed id w) (recoverLoaded env cs tx record) (fun _ => True)).
  { eapply wp_mono; [apply HK|by intros a w' [? _]|done]. }
  eapply keeps_bind; [by apply keeps_ask|intros status _]. cbv zeta.
  apply keeps_if; [|by apply keeps_recoverOther].
  destruct (decide_committing _ _); [| | | | |by apply keeps_recoverOther].
  - eapply keeps_bind; [by apply keeps_finalize|intros [cs1 err] _; by apply keeps_ret].
  - apply keeps_if; [eapply keeps_bind; [apply keeps_fence|intros _ _; by apply keeps_ret]|].
    eapply keeps_bind; [by apply keeps_ask|intros r _].
    apply keeps_if; [eapply keeps_bind; [apply keeps_fence|intros _ _; by apply keeps_ret]|]. by apply keeps_completeOrFence.
  - by apply keeps_completeOrFence.
  - eapply keeps_bind; [apply keeps_fence|intros _ _; by apply keeps_ret].
  - eapply keeps_bind; [apply keeps_fence|intros _ _; by apply keeps_ret].
Qed.

(** ** Settled changes *)

(** A change that still waits for its confirmation: the adapter reported its
    transaction as the deployed one, its deadline had not passed, and its expiry
    timer is set. *)
Definition waiting (w : World Cfg) (cs : ChangeSet) : Prop :=
  cs_State cs = "awaiting_confirmation" /\
  (forall due, env_parse env (cs_ExpiresAt cs) = Some due -> sv_timers (w_server w) !! cs_ID cs = Some due) /\
  exists tx r n, Asked Status r ∈ w_log w /\ validateTransactionBinding cs tx = None /\
    activeMatches r (tx_ID tx) (tx_RevisionID tx) (tx_CandidateHash tx) (tx_ArtifactManifestHash tx) = true /\
    T.Before (env_now env n) (tx_ExpiresAt tx) = true.
Definition rests (id : string) (w : World Cfg) : Prop :=
  forall cs, sv_changes (w_server w) !! id = Some cs -> inFlight (cs_State cs) = true -> cs_ID cs = id /\ waiting w cs.

Lemma rests_kept id id' ok w w' : id <> id' -> kept id' ok w w' -> rests id w -> rests id w'.
Proof.
  intros Hne (H1 & H2 & _ & l & H4 & _) Hr cs Hcs Hf. rewrite H1 in Hcs by done.
  destruct (Hr cs Hcs Hf) as (Hid & Hst & Ht & tx & r & n & Hin & Hrest). split; [done|]. split; [done|]. split.
  - intros due Hdue. rewrite H2; [by apply Ht|by rewrite Hid].
  - exists tx, r, n. split; [|done]. rewrite H4. apply elem_of_app. by left.
Qed.

(** A change left in a terminal state. *)
Definition ends (id : string) (w : World Cfg) : Prop :=
  exists c, sv_changes (w_server w) !! id = Some c /\ inFlight (cs_State c) = false.
Lemma ends_rests id w : ends id w -> rests id w.
Proof. intros (c & Hc & Hf) cs Hcs Hf'. rewrite Hc in Hcs. injection Hcs as <-. by rewrite Hf in Hf'. Qed.
Lemma ends_server id (w w' : World Cfg) : sv_changes (w_server w') = sv_changes (w_server w) -> ends id w -> ends id w'.
Proof. intros E (c & Hc & Hf). exists c. by rewrite E. Qed.
Lemma ends_remember cs w : inFlight (cs_State cs) = false -> ends (cs_ID cs) (remember cs w).
Proof. intros Hf. exists cs. split; [apply lookup_insert_eq|done]. Qed.

Lemma wp_rollbackLocked_ends cs tx final reason (Q : Outcome -> World Cfg -> Prop) E w :
  validateTransactionBinding cs tx = None -> inFlight final = false ->
  (forall o w', (o.2 = None -> ends (cs_ID cs) w') -> Q o w') ->
  wp (rollbackLocked env cs tx final reason) Q E w.
Proof.
  intros Hb Hf HQ. apply wp_invoke, wp_bind, wp_progress; [done|intros cs' Hst; by apply HQ|].
  intros cs1 r1 Hst1 _. rewrite <- (stamped_binding _ _ _ tx Hst1) in Hb. rewrite <- (stamped_id _ _ _ Hst1) in HQ.
  clear Hst1. apply wp_bind, wp_ask. intros n r. cbv zeta. apply wp_if; intros _.
  { apply wp_bind, wp_saveProgress; [exact Hb| |]; intros; apply wp_bind, wp_markRecoveryRequired; intros w' _; by apply wp_return, HQ. }
  apply wp_if; intros _.
  { apply wp_bind, wp_progress; [exact Hb|intros cs' _; by apply HQ|]. intros cs' r' _ _. by apply wp_return, HQ. }
  apply wp_bind, wp_saveProgress; [exact Hb| |].
  - intros cs2 e _. apply wp_bind, wp_markRecoveryRequired; intros w' _; by apply wp_return, HQ.
  - intros cs2 r2 Hst2 _. apply wp_bind, wp_modifyServer, wp_bind.
    apply stamped_id in Hst2 as Hid2. apply stamped_state in Hst2. simpl in Hid2.
    apply wp_RetireCapability; apply wp_bind, wp_outside; intros b; apply wp_bind, wp_outside; intros b';
      apply wp_bind, wp_bind, wp_SaveBatch; intros; apply wp_ret, wp_return, HQ; intros _;
      (exists cs2; split; [simpl; rewrite <- Hid2; apply lookup_insert_eq|by rewrite Hst2]).
Qed.

Lemma wp_cleanupCommitted_server tx previous (Q : unit -> World Cfg -> Prop) E w :
  (forall w', w_server w' = w_server w -> Q tt w') -> wp (cleanupCommittedResources env tx previous) Q E w.
Proof.
  intros HQ. assert (HC : forall b w', w_server w' = w_server w -> wp (saveCleanupStatus env tx b) Q E w').
  { intros b w' Hs. apply wp_bind, wp_SaveBatch; [intros e|]; apply wp_ret, HQ; done. }
  apply wp_bind.
  apply wp_RetireCapability; apply wp_bind, wp_outside; intros b1; apply wp_bind, wp_outside; intros b2; apply wp_bind;
    (destruct previous as [p|]; [apply wp_if; intros _; [apply wp_outside; intros b3|apply wp_ret]|apply wp_ret]); by apply HC.
Qed.

Lemma wp_finalizeRecovered_ends cs tx (Q : ChangeSet * option string -> World Cfg -> Prop) E w :
  (forall cs' e w', Q (cs', Some e) w') -> (forall cs' w', ends (cs_ID cs) w' -> Q (cs', None) w') ->
  wp (finalizeRecoveredCommit env cs tx) Q E w.
Proof.
  intros HF HQ. apply wp_bind, wp_getServer, wp_bind, wp_LoadJSON; intros previous; intros;
    (apply wp_bind, wp_loadVerifiedCandidate; [intros f w' _; apply wp_ret, HF|intros candidate w1 _ _]);
    (apply wp_bind, wp_clock; intros now; apply wp_bind, wp_SaveBatch; [intros e; apply wp_ret, HF|]);
    (apply wp_bind, wp_clearBootGuard; intros [f|] w2 _ _ _; [apply wp_ret, HF|]);
    apply wp_bind, wp_modifyServer, wp_bind, wp_modifyServer, wp_bind;
    apply wp_cleanupCommitted_server; intros w' Hs; apply wp_ret, HQ;
    (eapply ends_server; [by rewrite Hs|]); (eexists; split; [apply lookup_insert_eq|done]).
Qed.

Lemma wp_completeOrFence_ends cs tx (Q : option string -> World Cfg -> Prop) E w :
  (forall e w', Q (Some e) w') -> (forall w', ends (cs_ID cs) w' -> Q None w') -> wp (completeOrFence env cs tx) Q E w.
Proof.
  intros HF HQ. apply wp_bind, wp_finalizeRecovered_ends.
  - intros cs' e w'. apply wp_bind, wp_markRecoveryRequired. intros w2 _. apply wp_ret, HF.
  - intros cs' w' He. by apply wp_ret, HQ.
Qed.

Lemma wp_recoverRollback_ends cs tx (Q : option string -> World Cfg -> Prop) E w :
  validateTransactionBinding cs tx = None -> (forall e w', Q (Some e) w') -> (forall w', ends (cs_ID cs) w' -> Q None w') ->
  wp (recoverRollback env cs tx) Q E w.
Proof.
  intros Hb HF HQ. apply wp_bind, (wp_mono _ (fun final _ => inFlight final = false) _ E); [|intros final w' Hf|done].
  { apply wp_if; intros _; [apply wp_bind, wp_clock; intros t; apply wp_ret; by destruct (negb _)|by apply wp_ret]. }
  apply wp_bind, wp_rollbackLocked_ends; [done|done|]. intros [cs' [f|]] w2 He; apply wp_ret; [apply HF|]. by apply HQ, He.
Qed.

Lemma wp_recoverOther_rests id cs tx r matches p (Q : option string -> World Cfg -> Prop) E w :
  cs_ID cs = id -> validateTransactionBinding cs tx = None -> sv_changes (w_server w) !! id = Some cs ->
  Asked Status r ∈ w_log w ->
  matches = activeMatches r (tx_ID tx) (tx_RevisionID tx) (tx_CandidateHash tx) (tx_ArtifactManifestHash tx) ->
  (forall e w', Q (Some e) w') -> (forall w', rests id w' -> Q None w') ->
  wp (recoverOther env cs tx matches p) Q E w.
Proof.
  intros Hid Hb Hcs Hlog -> HF HQ. unfold recoverOther. set (mine := activeMatches _ _ _ _ _).
  apply wp_bind, (wp_mono _ (fun waits w' => (exists n, w' = set_w_tick n w) /\
      (waits = true -> cs_State cs = "awaiting_confirmation" /\ mine = true /\ exists n, T.Before (env_now env n) (tx_ExpiresAt tx) = true)) _ E);
    [| |done].
  { apply wp_if; intros Ew; [|apply wp_ret; split; [by exists (w_tick w); destruct w|done]].
    bool_split. str_eq. apply wp_bind. unfold wp. split; [by eexists|]. intros Hbefore. split_and!; [done..|]. by eexists. }
  intros waits w1 [[n ->] Hwait]. apply wp_if; intros Ew.
  - destruct (Hwait Ew) as (Hst & Hm & k & Hk). apply wp_bind.
    assert (HR : forall w', sv_changes (w_server w') = sv_changes (w_server w) -> w_log w' = w_log w ->
      (forall due, env_parse env (cs_ExpiresAt cs) = Some due -> sv_timers (w_server w') !! cs_ID cs = Some due) -> rests id w').
    { intros w' Es El Ht cs' Hcs' _. rewrite Es, Hcs in Hcs'. injection Hcs' as <-. split; [done|]. split; [done|]. split; [done|].
      exists tx, r, k. by rewrite El. }
    unfold scheduleExpiry. destruct (env_parse env (cs_ExpiresAt cs)) as [due|] eqn:Ep.
    + apply wp_modifyServer, wp_ret, HQ, HR; [done..|]. intros due' Hd. simpl. rewrite lookup_insert_eq. congruence.
    + apply wp_ret, wp_ret, HQ, HR; [done..|]. intros due' Hd. congruence.
  - apply wp_if; intros _; [apply wp_bind, wp_markRecoveryRequired; intros w' _; apply wp_ret, HF|].
    apply wp_recoverRollback_ends; [done|done|]. intros w' He. apply HQ, ends_rests. by rewrite <- Hid.
Qed.

Lemma wp_recoverOne_rests id (Q : option string -> World Cfg -> Prop) E w :
  solid env w -> (forall e w', Q (Some e) w') -> (forall w', rests id w' -> Q None w') -> wp (recoverOne env id) Q E w.
Proof.
  intros Hw HF HQ. apply wp_recoverLoad; [done|by intros e w' _|].
  intros cs tx record w1 (Hcs & Hid & _ & Hb & _ & _) [n ->].
  assert (HE : forall w', ends (cs_ID cs) w' -> Q None w') by (intros w' He; apply HQ, ends_rests; by rewrite <- Hid).
  apply wp_bind, wp_ask. intros k r. cbv zeta.
  assert (HO : wp (recoverOther env cs tx (activeMatches r (tx_ID tx) (tx_RevisionID tx) (tx_CandidateHash tx) (tx_ArtifactManifestHash tx))
                     (tr_CommitPhase record)) Q E (asked Status r (set_w_tick n w))).
  { apply (wp_recoverOther_rests id cs tx r); [done..| |done|done|done]. simpl. apply elem_of_app. right. by constructor. }
  apply wp_if; intros _; [|exact HO].
  destruct (decide_committing _ _); [| | | | |exact HO].
  - apply wp_bind, wp_finalizeRecovered_ends; [intros; apply wp_ret, HF|intros cs' w' He; by apply wp_ret, HE].
  - apply wp_if; intros _; [apply wp_bind, wp_markRecoveryRequired; intros w' _; apply wp_ret, HF|].
    apply wp_bind, wp_ask. intros n' r'.
    apply wp_if; intros _; [apply wp_bind, wp_markRecoveryRequired; intros w' _; apply wp_ret, HF|].
    by apply wp_completeOrFence_ends.
  - by apply wp_completeOrFence_ends.
  - apply wp_bind, wp_markRecoveryRequired; intros w' _; apply wp_ret, HF.
  - apply wp_bind, wp_markRecoveryRequired; intros w' _; apply wp_ret, HF.
Qed.
(** ** All of them *)

(** What one iteration gives. *)
Lemma wp_recoverOne_all id (Q : option string -> World Cfg -> Prop) w :
  solid env w -> (forall e w', kept id (allowed id w) w w' -> Q (Some e) w') ->
  (forall w', kept id (allowed id w) w w' -> solid env w' -> rests id w' -> Q None w') ->
  wp (recoverOne env id) Q (fun _ _ => True) w.
Proof.
  intros Hw HF HQ. eapply wp_mono.
  - apply wp_and; [by apply wp_recoverOne_kept|].
    apply wp_and; [apply (wp_recoverOne env id (fun r w' => r = None -> solid env w') (fun _ _ => True))|
                   apply (wp_recoverOne_rests id (fun r w' => r = None -> rests id w') (fun _ _ => True))]; auto; done.
  - intros [e|] w' (Hk & Hs & Hr); [by apply HF|]. by apply HQ; auto.
  - done.
Qed.

Lemma wp_recoverAll_rests ids : forall (Q : option string -> World Cfg -> Prop) w,
  solid env w -> (forall e w', Q (Some e) w') ->
  (forall w', (forall id, id ∈ ids \/ rests id w -> rests id w') ->
     (forall id, id ∉ ids -> sv_changes (w_server w') !! id = sv_changes (w_server w) !! id) -> Q None w') ->
  wp (recoverAll env ids) Q (fun _ _ => True) w.
Proof.
  induction ids as [|id rest IH]; intros Q w Hw HF HQ.
  { apply wp_ret, HQ; [|done]. intros id [Hin|Hr]; [by apply not_elem_of_nil in Hin|done]. }
  apply wp_bind, wp_recoverOne_all; [done|intros; apply wp_ret, HF|]. intros w1 Hk Hw1 Hr.
  apply IH; [done|done|]. intros w2 H2 Hsame. apply HQ.
  - intros i Hi. apply H2. destruct (decide (i = id)) as [->|Hne]; [by right|].
    destruct Hi as [[->|Hin]%elem_of_cons|Hi]; [done|by left|right]. by eapply rests_kept.
  - intros i [Hne Hin]%not_elem_of_cons. rewrite Hsame by done. by apply Hk.
Qed.

(** The same, for what is rolled back. *)
Lemma undoes_kept id id' ok w w' tx : id <> id' -> kept id' ok w w' -> undoes id w' tx -> undoes id w tx.
Proof.
  intros Hne (H1 & _ & H3 & _) (Hc & cs & record & Hcs & Hrec & Htx & Hp). split; [done|]. exists cs, record.
  rewrite H1 in Hcs by done. destruct (H3 _ _ Hrec) as [Hrec'|Hid']; [done|]. destruct Hne. by rewrite <- Hc, <- Htx.
Qed.

Definition undoesOneOf (ids : list string) (w : World Cfg) (e : event) : Prop :=
  match e with Asked (Rollback tx) _ => tx_ChangeID tx ∈ ids /\ undoes (tx_ChangeID tx) w tx | _ => True end.

Lemma wp_recoverAll_undoes ids : forall w, solid env w -> NoDup ids ->
  wp (recoverAll env ids) (fun _ w' => exists l, events w w' l /\ Forall (undoesOneOf ids w) l) (fun _ _ => True) w.
Proof.
  assert (HC : forall id rest w l, Forall (allowed id w) l -> Forall (undoesOneOf (id :: rest) w) l).
  { intros id rest w l Hl. eapply Forall_impl; [exact Hl|]. intros [[] r|i s]; try done. simpl. intros Hu. pose proof Hu as [Hc _].
    rewrite Hc. split; [by constructor|done]. }
  induction ids as [|id rest IH]; intros w Hw Hnd; [apply wp_ret; exists []; split; [apply events_refl|done]|].
  apply NoDup_cons in Hnd as [Hnin Hnd]. apply wp_bind, wp_recoverOne_all; [done| |].
  { intros e w' (_ & _ & _ & l & He & Hl). apply wp_ret. exists l. by auto. }
  intros w1 Hk Hw1 _. pose proof Hk as (_ & _ & _ & l & He & Hl). eapply wp_mono; [by apply IH| |done].
  intros r w2 (l' & He' & Hl'). exists (l ++ l'). split; [by eapply events_trans|]. apply Forall_app. split; [by apply HC|].
  eapply Forall_impl; [exact Hl'|]. intros [[] a|i s]; try done. simpl. intros [Hin Hu].
  split; [by constructor|]. refine (undoes_kept _ id _ _ _ _ _ Hk Hu). intros Heq. by rewrite Heq in Hin.
Qed.

(** ** A restart *)

Definition calm (e : event) : Prop := match e with Asked (Rollback _) _ => False | _ => True end.

Section Tail.
Context (id : string).
Notation calmly m := (keeps id calm m (fun _ => True)).

Lemma calm_saved i s : calm (Saved i s).
Proof. done. Qed.
Lemma calm_asked op r : (forall tx, op <> Rollback tx) -> calm (Asked op r).
Proof. destruct op; try done. intros H. by destruct (H tx). Qed.

Lemma calmly_ask op : (forall tx, op <> Rollback tx) -> calmly (ask env op).
Proof. intros Hop. apply keeps_ask. intros r. by apply calm_asked. Qed.
Lemma calmly_ret {A} (a : A) : calmly (mret a).
Proof. by apply keeps_ret. Qed.

Lemma calmly_reconcile n target : calmly (reconcileLoop env n target).
Proof.
  induction n as [|[|n] IH]; simpl; (eapply keeps_bind; [by apply calmly_ask|intros r _]); [apply calmly_ret..|].
  apply keeps_if; [apply calmly_ret|done].
Qed.

Lemma calmly_verify revision active : calmly (verifyCommitted env revision active).
Proof.
  unfold verifyCommitted. apply keeps_if; [apply calmly_ret|].
  eapply keeps_bind; [apply keeps_load|intros [record|e] _; [|apply calmly_ret]].
  apply keeps_if; [apply calmly_ret|]. eapply keeps_bind; [apply keeps_server|intros s _].
  destruct (sv_changes s !! _) as [cs|]; [|apply calmly_ret]. apply keeps_if; [apply calmly_ret|].
  eapply keeps_bind; [apply keeps_loadVerifiedCandidate|intros [c|f] _; [|apply calmly_ret]].
  apply keeps_if; apply calmly_ret.
Qed.

Lemma calmly_committed : calmly (committedStatus env).
Proof.
  unfold committedStatus. eapply keeps_bind; [apply keeps_server|intros s _]. apply keeps_if; [apply calmly_ret|].
  eapply keeps_bind; [apply keeps_load|intros [revision|e] _; [|apply calmly_ret]]. apply keeps_if.
  - unfold recoverBaseline. apply keeps_if; [apply calmly_ret|]. eapply keeps_bind; [|intros b _; apply calmly_ret].
    apply keeps_if; [eapply keeps_bind; [by apply calmly_ask|intros r _]|]; apply calmly_ret.
  - apply keeps_if; [apply calmly_ret|]. eapply keeps_bind; [apply calmly_verify|intros [st|] _; [apply calmly_ret|]].
    eapply keeps_bind; [apply calmly_reconcile|intros r _]. apply keeps_if; [apply calmly_ret|].
    eapply keeps_bind; [by apply calmly_ask|intros status _]. apply keeps_if; apply calmly_ret.
Qed.

Lemma calmly_setRecovery st : calmly (setRecoveryStatusDuringMutation env st).
Proof.
  intros w. apply wp_setRecovery. intros w' (rec & _ & Hs & Hd & _ & Hl). split; [|done].
  apply kept_same; [by rewrite Hs..| |done]. destruct Hd as [-> | ->]; [done|by destruct (w_docs w)].
Qed.

Lemma calmly_tail : calmly (proceed (adaptiveRuntime env) (_ ← recoverCommittedDataplane env; _ ← recoverAssignments env; mret true)).
Proof.
  eapply keeps_bind; [eapply keeps_bind; [apply keeps_server|intros s _; apply keeps_outside]|intros b _].
  apply keeps_if; [|apply calmly_ret].
  eapply keeps_bind; [eapply keeps_bind; [apply calmly_committed|intros st _; apply calmly_setRecovery]|intros _ _].
  eapply keeps_bind; [|intros _ _; apply calmly_ret].
  eapply keeps_bind; [apply keeps_server|intros s' _]. apply keeps_if; [|apply calmly_ret].
  eapply keeps_bind; [apply keeps_outside|intros r _]. apply keeps_if; [apply calmly_ret|apply calmly_setRecovery].
Qed.
End Tail.

(** The server as the recovery finds it. *)
Definition resumed (w w1 : World Cfg) : Prop :=
  solid env w1 /\ w_docs w1 = w_docs w /\ w_log w1 = w_log w /\ sv_changes (w_server w1) = dc_changes (w_docs w).

Lemma wp_start_recovers fallback id (Q : bool -> World Cfg -> Prop) w :
  well_keyed (w_docs w) -> (forall w', w_log w' = w_log w -> Q false w') ->
  (forall w1, resumed w w1 -> wp (recoverAll env (inFlightIDs (w_server w1)))
     (fun err w2 => match err with Some _ => Q false w2 | None => forall b w3, kept id calm w2 w3 -> Q b w3 end) (fun _ _ => True) w1) ->
  wp (start env fallback) Q (fun _ _ => True) w.
Proof.
  intros Hk HF HR. apply wp_proceed, wp_readsSucceed. intros [|] w1 [n ->]; [|by apply HF].
  apply wp_proceed, wp_construct; [by apply HF|]. intros active HL.
  pose proof (solid_newServer env active (set_w_tick n w) HL Hk) as Hw1.
  apply wp_proceed, wp_adaptiveRuntime. intros [|]; [|by apply HF].
  apply wp_proceed, wp_bind, wp_bind, wp_getServer. eapply wp_mono; [apply HR|intros [e|] w2 H2|done].
  - split; [exact Hw1|]. split_and!; [done..|]. simpl. by apply loadPersisted_same.
  - by apply wp_ret.
  - apply wp_ret. eapply wp_mono; [apply (calmly_tail id)|intros b w3 [H3 _]; by apply H2|done].
Qed.

Lemma inFlightIDs_spec (s : Server Cfg) : NoDup (inFlightIDs s) /\
  forall id, id ∈ inFlightIDs s <-> exists cs, sv_changes s !! id = Some cs /\ inFlight (cs_State cs) = true.
Proof.
  unfold inFlightIDs. pose proof (NoDup_fst_map_to_list (sv_changes s)) as Hnd.
  set (l := map_to_list (sv_changes s)) in *. set (f := fun kv : string * ChangeSet => inFlight (cs_State kv.2)).
  split.
  - rewrite gosort_perm. clearbody l.
    induction l as [|x l IH]; simpl; [constructor|]. apply NoDup_cons in Hnd as [Hx Hnd].
    destruct (f x); [|by apply IH]. simpl. apply NoDup_cons. split; [|by apply IH]. intros Hin. apply Hx.
    apply list_elem_of_fmap in Hin as (y & -> & Hy). apply list_elem_of_fmap. exists y. split; [done|].
    apply list_elem_of_In, filter_In in Hy as [Hy _]. by apply list_elem_of_In.
  - intros id. rewrite gosort_perm. split.
    + intros ([k cs] & -> & Hin)%list_elem_of_fmap. apply list_elem_of_In, filter_In in Hin as [Hin Hf]. exists cs. split; [|exact Hf].
      by apply elem_of_map_to_list, list_elem_of_In.
    + intros (cs & Hcs & Hf). apply list_elem_of_fmap. exists (id, cs). split; [done|]. apply list_elem_of_In, filter_In. split; [|exact Hf].
      by apply list_elem_of_In, elem_of_map_to_list.
Qed.

(** C4: recovery settles every interrupted change.  When the server starts,
    whatever was interrupted before and whichever files and calls fail, each
    change of its memory is either in no state of a deployment or still awaits its
    confirmation, and then the adapter reported its transaction as the deployed
    one, its deadline had not passed and its expiry timer is set. *)
Theorem recovery_settles fallback w w' :
  well_keyed (w_docs w) -> start env fallback w = (inl true, w') ->
  forall id cs, sv_changes (w_server w') !! id = Some cs -> inFlight (cs_State cs) = true -> cs_ID cs = id /\ waiting w' cs.
Proof.
  intros Hk HE id. change (rests id w').
  assert (exists id', id <> id') as [id' Hne] by (destruct (decide (id = "")) as [->|]; [by exists "x"|by exists ""]).
  refine (wp_answer _ (fun b w' => b = true -> rests id w') (fun _ _ => True) w true w' _ HE eq_refl).
  apply (wp_start_recovers fallback id'); [done|done|]. intros w1 (Hw1 & _ & _ & _).
  destruct (inFlightIDs_spec (w_server w1)) as [_ Hids]. apply wp_recoverAll_rests; [done|done|].
  intros w2 H2 Hsame b w3 Hk3 _. eapply rests_kept; [exact Hne|exact Hk3|].
  destruct (decide (id ∈ inFlightIDs (w_server w1))) as [Hin|Hnin]; [by apply H2; left|].
  intros cs Hcs Hf. rewrite (Hsame id Hnin) in Hcs. destruct Hnin. apply Hids. by exists cs.
Qed.
(** C5: recovery never undoes a commit.  Whether the server starts or not, every
    rollback its start asks of the adapter is for the stored transaction of a
    change that was in flight, and not of one that was committing with its
    control plane already committed. *)
Theorem recovery_keeps_commits fallback w w' b :
  well_keyed (w_docs w) -> start env fallback w = (inl b, w') ->
  exists l, events w w' l /\ forall tx r, Asked (Rollback tx) r ∈ l ->
    exists cs record, dc_changes (w_docs w) !! tx_ChangeID tx = Some cs /\ inFlight (cs_State cs) = true /\
      dc_transactions (w_docs w) !! tx_ID tx = Some record /\ tr_Transaction record = tx /\
      ~ (cs_State cs = "committing" /\ controlPlaneCommitted (tr_CommitPhase record) = true).
Proof.
  intros Hk HE.
  refine (wp_answer _ (fun _ w' => exists l, events w w' l /\ forall tx r, Asked (Rollback tx) r ∈ l -> _) (fun _ _ => True) w b w' _ HE).
  apply (wp_start_recovers fallback ""); [done| |].
  { intros w1 Hl. exists []. split; [by apply events_nil|]. intros tx r Hin. by apply not_elem_of_nil in Hin. }
  intros w1 (Hw1 & Hd & Hl & Hch). destruct (inFlightIDs_spec (w_server w1)) as [Hnd Hids].
  assert (HU : forall l tx r, Forall (undoesOneOf (inFlightIDs (w_server w1)) w1) l -> Asked (Rollback tx) r ∈ l ->
    exists cs record, dc_changes (w_docs w) !! tx_ChangeID tx = Some cs /\ inFlight (cs_State cs) = true /\
      dc_transactions (w_docs w) !! tx_ID tx = Some record /\ tr_Transaction record = tx /\
      ~ (cs_State cs = "committing" /\ controlPlaneCommitted (tr_CommitPhase record) = true)).
  { intros l tx r Hf Hin. rewrite Forall_forall in Hf. destruct (Hf _ Hin) as [Hid (_ & cs & record & Hcs & Hrec & Htx & Hp)].
    apply Hids in Hid as (cs' & Hcs' & Hfl). rewrite Hcs in Hcs'. injection Hcs' as <-. rewrite Hd in Hrec. rewrite Hch in Hcs.
    exists cs, record. split_and!; try done. intros [Hst Hc]. by rewrite Hst, Hc in Hp. }
  eapply wp_mono; [by apply wp_recoverAll_undoes| |done].
  intros [e|] w2 (l & He & Hf).
  - exists l. split; [unfold events in *; by rewrite He, Hl|]. intros tx r. by apply HU.
  - intros b' w3 (_ & _ & _ & l' & He' & Hl'). exists (l ++ l'). split; [unfold events in *; by rewrite He', He, Hl, app_assoc|].
    intros tx r [Hin|Hin]%elem_of_app; [by eapply HU|]. rewrite Forall_forall in Hl'. by destruct (Hl' _ Hin).
Qed.
End Recovery.
