(* ===== verification/TransactionExamples.v ===== *)
(** * The transaction engine on concrete histories

    An installation with one validated change, an adapter that answers every
    operation, and the histories at which the theorems on the engine are applied;
    with the runs that show where the engine departs from its intent. *)
From Stdlib Require Import ZArith Lia.
From stdpp Require Import base list strings gmap sorting.
From S2P Require Import Prelude Interfaces Json Candidate Adapter Transaction Requests TransactionProofs RequestsProofs TransactionSafety TransactionRecovery.

Open Scope Z_scope.

(** ** An installation

    A configuration is the mode of its policy, and its own hash. *)
Definition ex_marshal (mode : string) : result json := Ok (JObj [("policy", JObj [("mode", JStr mode)])]).
Definition ex_text (j : json) : string :=
  match j with JObj [(_, JObj [(_, JStr mode)])] => mode | _ => "?" end.
Definition ex_unmarshal (j : json) : result string :=
  match j with JObj [(_, JObj [(_, JStr mode)])] => Ok mode | _ => Err "type" end.
Definition ex_tx : Transaction :=
  mkTransaction "tx1" "rev1" "c1" 1 2 "new" "/candidates/rev1" "m1" true "" false second (10 * minute).
Definition ex_change (state : string) (managed data : bool) : ChangeSet :=
  mkChange "c1" state 1 3 2 "new" "/candidates/rev1" "m1" true "" false "rev1" "tx1" "" "" false [] [] [] [] managed data "" "600".
Definition ex_baseline : revisionRecord :=
  mkRevision "base" "baseline" "" "" 0 1 "old" "" "committed" second (Some second).
Definition ex_docs (cs : ChangeSet) : Documents string :=
  mkDocs (Some "old") (Some "base") (Some 1) None None {["base" := ex_baseline]}
    {["tx1" := mkTxRecord ex_tx (cs_State cs) "" [] second None]}
    {["c1" := mkCandidate "new" "m1" true "" false "new"]} {["c1" := cs]}.
Definition ex_off (docs : Documents string) : World string :=
  mkWorld (mkServer ∅ "" "" 0 zero_Recovery ∅) docs {["tx1"]} [] 0.

(** What an adapter that has deployed [tx1] answers. *)
Definition ex_evidence : gmap string evidence :=
  {["transaction_id" := EvString "tx1"; "revision_id" := EvString "rev1"; "candidate_hash" := EvString "new";
    "artifact_manifest_hash" := EvString "m1"; "active_revision" := EvString "rev1"; "active_transaction" := EvString "tx1";
    "active_candidate_hash" := EvString "new"; "active_artifact_manifest_hash" := EvString "m1";
    "transaction_state" := EvString "committed"; "rollback_capable" := EvBool true; "rollback" := EvBool true]}.
Definition ex_ok (protocol : Z) (operation step semantic : string) (committed : bool) : StepResult :=
  mkStep protocol operation step "OK" true true true "" ex_evidence semantic committed true.
Definition ex_answer (op : operation) : StepResult :=
  match op with
  | CommitPrepared _ => ex_ok 1 "commit-prepared" "" "adapter_activated" false
  | FinalizeCommit _ => ex_ok 1 "finalize-commit" "" "committed" true
  | Rollback _ => ex_ok 1 "rollback" "" "rolled_back" false
  | _ => ex_ok 0 "" (stepName op) "" false
  end.

(** [answer] and the failures of the writes vary between the histories. *)
Definition ex_env_with (answer : nat -> operation -> StepResult) (save : nat -> option string) : Env string :=
  mkEnv (fun n => Z.of_nat n * second) answer save (fun _ => None) (fun _ _ => Ok (Some "new"))
    (fun _ _ => Ok (mkManifest true "" false [])) (fun _ _ => true) (fun _ => true) (fun _ => true) (fun _ _ => None)
    (fun _ _ => true) (fun _ => true) (fun _ _ _ => []) ex_marshal ex_unmarshal ex_text (fun s => s) (fun _ => "base") Ok (fun _ => "now")
    (fun _ => Some (10 * minute)) true BoundGuard true false
    (fun _ => Ok "0a1b") (fun parts => S.Join parts "/") "/state" 600 (fun _ _ => true) (fun _ _ => true) (fun _ _ => true)
    (fun _ _ _ => Ok (mkManifest true "" false [], "m1")) (fun _ _ _ => Ok "m1") (fun _ _ => true).
Definition ex_env : Env string := ex_env_with (fun _ => ex_answer) (fun _ => None).

(** The validated change: started, applied, confirmed. *)
Definition ex_validated : ChangeSet := ex_change "validated" false false.
Definition ex_started : World string := (start ex_env "old" (ex_off (ex_docs ex_validated))).2.
Definition ex_applied : World string := (handleAction ex_env "c1" 3 Apply ex_started).2.
Definition ex_confirmed : World string := (handleAction ex_env "c1" 0 Confirm ex_applied).2.

Lemma pair_fst {A B} (p : A * B) x : p.1 = x -> p = (x, p.2).
Proof. destruct p. by intros <-. Qed.

Lemma ex_keyed cs : cs_ID cs = "c1" -> well_keyed (ex_docs cs).
Proof. intros Hid k c Hc. unfold ex_docs, dc_changes in Hc. apply lookup_singleton_Some in Hc as [<- <-]. by rewrite Hid. Qed.

Lemma ex_reach_started : reachable ex_env ex_started.
Proof.
  apply (reach_start ex_env "old" (ex_off (ex_docs ex_validated))); [by apply ex_keyed|].
  refine (pair_fst (start ex_env "old" (ex_off (ex_docs ex_validated))) _ _). vm_compute. reflexivity.
Qed.
Lemma ex_reach_applied : reachable ex_env ex_applied.
Proof.
  apply (reach_action ex_env "c1" 3 Apply ex_started _ None); [exact ex_reach_started| |done].
  refine (pair_fst (handleAction ex_env "c1" 3 Apply ex_started) _ _). vm_compute. reflexivity.
Qed.
Lemma ex_reach_confirmed : reachable ex_env ex_confirmed.
Proof.
  apply (reach_action ex_env "c1" 0 Confirm ex_applied _ None); [exact ex_reach_applied| |done].
  refine (pair_fst (handleAction ex_env "c1" 0 Confirm ex_applied) _ _). vm_compute. reflexivity.
Qed.

(** The events of the whole history. *)
Example ex_history :
  map (fun e => match e with Asked op r => (stepName op ++ sr_Operation r)%string | Saved _ state => state end) (w_log ex_confirmed) =
    [""; "prepare"; "prepared"; "validate_candidate"; "prepared"; "snapshot_current"; "prepared"; "applying";
     "apply_candidate"; "applying"; "verifying"; "verify_management_path"; "verifying"; "verify_data_plane"; "verifying";
     "awaiting_confirmation"; ""; "committing"; "commit-prepared"; "committing"; "committing"; "finalize-commit"; "committed"; ""].
Proof. vm_compute. reflexivity. Qed.

(** ** The theorems at this history *)

Lemma memory_follows_disk_witness : reachable ex_env ex_confirmed /\ sane ex_env ex_confirmed.
Proof. split; [exact ex_reach_confirmed|]. exact (memory_follows_disk ex_env ex_confirmed ex_reach_confirmed). Defined.

Lemma active_only_by_confirmation_witness :
  dc_active_revision (w_docs ex_applied) = Some "base" /\ dc_active_revision (w_docs ex_confirmed) = Some "rev1" /\
  exists cs, sv_changes (w_server ex_applied) !! "c1" = Some cs /\ activation ex_env cs ex_applied ex_confirmed.
Proof.
  split; [vm_compute; reflexivity|]. split; [vm_compute; reflexivity|].
  refine (proj2 (proj1 (active_only_by_confirmation ex_env "c1" 0 Confirm ex_applied ex_confirmed None ex_reach_applied _) _)).
  - refine (pair_fst (handleAction ex_env "c1" 0 Confirm ex_applied) _ _). vm_compute. reflexivity.
  - intros (_ & H & _). vm_compute in H. discriminate H.
Defined.

Lemma ex_names_steps save : names_steps (ex_env_with (fun _ => ex_answer) save).
Proof.
  intros n tx before op Hin. unfold applySteps in Hin.
  repeat (apply elem_of_cons in Hin as [[= -> ->]|Hin]; [reflexivity|]). by apply elem_of_nil in Hin.
Qed.
Lemma apply_never_strands_witness :
  names_steps ex_env /\ exists o, unstranded "c1" ex_started o (applyChangeSet ex_env ex_validated ex_started).2.
Proof.
  split; [exact (ex_names_steps (fun _ => None))|]. eexists.
  refine (apply_never_strands ex_env ex_validated ex_started _ _ (ex_names_steps (fun _ => None)) eq_refl eq_refl _).
  refine (pair_fst (applyChangeSet ex_env ex_validated ex_started) _ _). vm_compute. reflexivity.
Defined.

(** With the fence up, nothing happens. *)
Definition ex_fenced : World string :=
  set_w_server (set_sv_recovery (recoveryRequired "test" zero_Target "") (w_server ex_applied)) ex_applied.
Lemma fence_blocks_witness :
  fenced ex_fenced /\ exists f, handleAction ex_env "c1" 0 Confirm ex_fenced = (inl (Some f), ex_fenced).
Proof.
  assert (Hf : fenced ex_fenced) by (intros H; vm_compute in H; discriminate H).
  split; [exact Hf|]. exact (fence_blocks ex_env "c1" 0 Confirm ex_fenced Hf).
Defined.

(** ** Departures from the intent *)

(** An apply that fails at its first step and is rolled back ends [failed]; a
    rollback requested on it then finds the capability retired and marks the
    change [rollback_failed], although the data plane is in its former state. *)
Definition ex_refusing (op : operation) : StepResult :=
  match op with
  | ApplyCandidate _ => mkStep 0 "" "apply_candidate" "FAILED" false false false "" ∅ "" false false
  | _ => ex_answer op
  end.
Definition ex_refused : Env string := ex_env_with (fun _ => ex_refusing) (fun _ => None).
Definition ex_failed : World string := (handleAction ex_refused "c1" 3 Apply ex_started).2.
Definition ex_again := handleAction ex_refused "c1" 0 RollBack ex_failed.
Example failed_then_rollback_failed :
  (cs_State <$> sv_changes (w_server ex_failed) !! "c1") = Some "failed" /\
  last (w_log ex_failed) = Some (Saved "c1" "failed") /\
  ex_again.1 = inl (Some (mkFailure 403 "rollback_capability_invalid")) /\
  (cs_State <$> sv_changes (w_server ex_again.2) !! "c1") = Some "rollback_failed".
Proof. vm_compute. repeat split; reflexivity. Qed.

(** A deletion whose write fails removes the change from memory only: a later
    start brings it back. *)
Definition ex_broken : Env string := ex_env_with (fun _ => ex_refusing) (fun _ => Some "disk full").
Definition ex_deleted := handleAction ex_broken "c1" 0 Delete ex_failed.
Example failed_delete_diverges :
  ex_deleted.1 = inl (Some internalFailure) /\
  sv_changes (w_server ex_deleted.2) !! "c1" = None /\
  (cs_State <$> dc_changes (w_docs ex_deleted.2) !! "c1") = Some "failed" /\
  mutationFailure (sv_recovery (w_server ex_deleted.2)) = None.
Proof. vm_compute. repeat split; reflexivity. Qed.

(** Once the retention has dropped the record of the transaction of the active
    revision, which is terminal and ages like any other, a start ends with the
    recovery in error and every change is refused. *)
Definition ex_aged_out : World string :=
  let '(mkDocs cfg rev ver rec cl revs txs cands chs) := w_docs ex_confirmed in
  set_w_docs (mkDocs cfg rev ver rec cl revs (delete "tx1" txs) cands chs) ex_confirmed.
Definition ex_restarted := start ex_env "old" ex_aged_out.
Example aged_out_blocks :
  (start ex_env "old" ex_confirmed).1 = inl true /\
  mutationFailure (sv_recovery (w_server (start ex_env "old" ex_confirmed).2)) = None /\
  ex_restarted.1 = inl true /\
  rs_ReasonCode (sv_recovery (w_server ex_restarted.2)) = "active_transaction_load_failed" /\
  mutationFailure (sv_recovery (w_server ex_restarted.2)) = Some (mkFailure 503 "recovery_not_safe").
Proof. vm_compute. repeat split; reflexivity. Qed.

(** ** Restarts *)

(** A restart while the change awaits its confirmation, and one in the middle of
    its verification, which is rolled back. *)
Definition ex_off_applied : World string := ex_off (w_docs ex_applied).
Definition ex_waiting := start ex_env "old" ex_off_applied.
Definition ex_interrupted : World string := ex_off (ex_docs (ex_change "verifying" true false)).
Definition ex_undone := start ex_env "old" ex_interrupted.

Example ex_restarts :
  (ex_waiting.1, cs_State <$> sv_changes (w_server ex_waiting.2) !! "c1", sv_timers (w_server ex_waiting.2) !! "c1") =
    (inl true, Some "awaiting_confirmation", Some (10 * minute)) /\
  (ex_undone.1, cs_State <$> sv_changes (w_server ex_undone.2) !! "c1", sv_timers (w_server ex_undone.2) !! "c1") =
    (inl true, Some "rolled_back", None).
Proof. vm_compute. split; reflexivity. Qed.

Lemma ex_applied_keyed : well_keyed (w_docs ex_off_applied).
Proof. exact (proj2 (memory_follows_disk ex_env ex_applied ex_reach_applied)). Qed.

Lemma recovery_settles_witness :
  ex_waiting.1 = inl true /\ exists cs, sv_changes (w_server ex_waiting.2) !! "c1" = Some cs /\ waiting ex_env ex_waiting.2 cs.
Proof.
  assert (H1 : ex_waiting.1 = inl true) by (vm_compute; reflexivity). split; [exact H1|].
  assert (H2 : cs_State <$> sv_changes (w_server ex_waiting.2) !! "c1" = Some "awaiting_confirmation") by (vm_compute; reflexivity).
  destruct (sv_changes (w_server ex_waiting.2) !! "c1") as [cs|] eqn:Ec; [|discriminate H2]. injection H2 as Hst.
  exists cs. split; [done|].
  refine (proj2 (recovery_settles ex_env "old" ex_off_applied ex_waiting.2 ex_applied_keyed (pair_fst ex_waiting _ H1) "c1" cs Ec _)).
  rewrite Hst. reflexivity.
Defined.

Lemma recovery_keeps_commits_witness :
  exists l, events ex_interrupted ex_undone.2 l /\ (exists tx r, Asked (Rollback tx) r ∈ l) /\
    forall tx r, Asked (Rollback tx) r ∈ l ->
      exists cs record, dc_changes (w_docs ex_interrupted) !! tx_ChangeID tx = Some cs /\ inFlight (cs_State cs) = true /\
        dc_transactions (w_docs ex_interrupted) !! tx_ID tx = Some record /\ tr_Transaction record = tx /\
        ~ (cs_State cs = "committing" /\ controlPlaneCommitted (tr_CommitPhase record) = true).
Proof.
  assert (H1 : ex_undone.1 = inl true) by (vm_compute; reflexivity).
  destruct (recovery_keeps_commits ex_env "old" ex_interrupted ex_undone.2 true (ex_keyed (ex_change "verifying" true false) eq_refl) (pair_fst ex_undone _ H1)) as (l & He & Hl).
  exists l. split; [done|]. split; [|exact Hl].
  assert (Hlog : (any (fun e => match e with Asked (Rollback _) _ => true | _ => false end) (w_log ex_undone.2)) = true)
    by (vm_compute; reflexivity).
  rewrite He in Hlog. simpl in Hlog. apply any_true in Hlog as (e & Hin & Hb). destruct e as [[] r|]; try discriminate Hb. by exists tx, r.
Defined.
