(* ===== verification/ZapretCatalog.v ===== *)
(** * Zapret profiles and service bundles

    [internal/zapret/catalog.go] and [bundle.go]: the catalog of reviewed
    profiles with the check of their strategies, and the catalog of service
    bundles, which assigns every domain to one bundle.  Behind the definitions, the
    theorems on both catalogs. *)
From Stdlib Require Import ZArith Lia.
From stdpp Require Import base list strings gmap sorting pretty.
From S2P Require Import Prelude Net Config Tspu.
Open Scope Z_scope.

(** ** Patterns *)

Definition MaxProfiles : Z := 16.
Definition MaxStrategyBytes : Z := 16 * 1024.
Definition maxStrategyLines : Z := 64.
Definition MaxBundles : Z := 64.
Definition MaxDomainsPerBundle : Z := 256.
Definition MaxProtocols : Z := 16.

(** [^[a-z0-9][a-z0-9._-]{0,63}$] *)
Definition profileIDPattern (id : string) : bool :=
  match id with
  | EmptyString => false
  | String c rest =>
      (S.lower_letter c || S.digit c) && (S.len rest <=? 63)
      && S.all_bytes (fun c => S.lower_letter c || S.digit c || S.is_byte 46 c || S.is_byte 95 c || S.is_byte 45 c) rest
  end.
(** One or more decimal digits. *)
Definition digits (s : string) : bool := negb (S.is_empty s) && S.all_bytes S.digit s.
(** [^[0-9]+(?:\.[0-9]+){1,2}$] *)
Definition versionPattern (s : string) : bool :=
  let parts := S.Split s S.dot in
  forallb digits parts && ((length parts =? 2)%nat || (length parts =? 3)%nat).
(** [^sha256:[0-9a-f]{64}$] *)
Definition digestPattern (s : string) : bool :=
  S.HasPrefix s "sha256:" && (S.len s =? 71)
  && S.all_bytes (fun c => S.digit c || S.in_range 97 102 c) (String.substring 7 64 s).
(** [^[A-Za-z0-9,+._-]+$] *)
Definition valuePattern (s : string) : bool :=
  negb (S.is_empty s)
  && S.all_bytes (fun c => S.upper_letter c || S.lower_letter c || S.digit c || S.is_byte 44 c || S.is_byte 43 c
                           || S.is_byte 46 c || S.is_byte 95 c || S.is_byte 45 c) s.

Definition allowedOptions : list string :=
  ["--qnum"; "--filter-tcp"; "--filter-udp"; "--hostlist-domains"; "--dpi-desync"; "--dpi-desync-split-pos";
   "--dpi-desync-split-seqovl"; "--dpi-desync-fooling"; "--dpi-desync-repeats"; "--dpi-desync-ttl";
   "--dpi-desync-fakedsplit-pattern"; "--orig-ttl"; "--orig-mod-start"; "--orig-mod-cutoff"].

(** [strconv.ParseUint(s, 10, bits)]. *)
Definition ParseUint (s : string) (bits : Z) : option Z :=
  if digits s && (dec_value 0 s <? 2 ^ bits) then Some (dec_value 0 s) else None.

(** ** Profiles *)

Record Profile := mkProfile {
  pr_ID : string;
  pr_Provider : string;
  pr_ProviderVersion : string;
  pr_BinaryDigest : string;
  pr_RouteType : string;
  pr_IPFamilies : list string;
  pr_Transports : list string;
  pr_Ports : list Z;  (* uint16 *)
  pr_Queue : Z;  (* uint16 *)
  pr_Safety : string;
  pr_StrategyDigest : string;
  pr_Strategy : string
}.
Definition Catalog : Type := gmap string Profile.
Definition Catalog_Lookup (c : Catalog) (id : string) : option Profile := c !! id.

(** [true] for no error. *)
Definition validateSet (values allowed : list string) : bool :=
  forallb (containsString allowed) values && bool_decide (NoDup values).
Definition validatePorts (ports : list Z) : bool := bool_decide (NoDup ports).

(** What the loop over the lines of a strategy has seen. *)
Record Seen := mkSeen { sn_queue : bool; sn_transports : gset string; sn_ports : gset Z }.

(** The ports of one filter option. *)
Fixpoint filterPorts (raw : list string) (ports : gset Z) : result (gset Z) :=
  match raw with
  | [] => Ok ports
  | rawPort :: rest =>
      match ParseUint rawPort 16 with
      | None => Err "invalid filter port"
      | Some parsed => if parsed =? 0 then Err "invalid filter port" else filterPorts rest ({[parsed]} ∪ ports)
      end
  end.

(** [strings.Cut(line, "=")]. *)
Fixpoint Cut (s : string) (sep : Ascii.ascii) : option (string * string) :=
  match s with
  | EmptyString => None
  | String c rest =>
      if Ascii.eqb c sep then Some (EmptyString, rest)
      else match Cut rest sep with Some (key, value) => Some (String c key, value) | None => None end
  end.

(** A byte of [" \t;&|`$\\/@"]. *)
Definition unsafe_byte (c : Ascii.ascii) : bool :=
  any (fun n => S.is_byte n c) [32; 9; 59; 38; 124; 96; 36; 92; 47; 64]%N.

(** A number that the option [key] bounds. *)
Definition boundedOption (value : string) (bits most : Z) : bool :=
  match ParseUint value bits with None => false | Some n => negb (n =? 0) && (n <=? most) end.

(** One line that is no separator. *)
Definition strategyLine (queue : Z) (line : string) (seen : Seen) : result Seen :=
  if S.is_empty line || negb (S.all_bytes (fun c => negb (unsafe_byte c)) line) then Err "unsafe strategy line"
  else match Cut line (Ascii.ascii_of_N 61) with
  | None => Err "unsupported strategy option"
  | Some (key, value) =>
      if negb (containsString allowedOptions key) || negb (valuePattern value) then Err "unsupported strategy option"
      else
        seen ← (if key =s "--qnum" then
                  if sn_queue seen then Err "duplicate queue option"
                  else match ParseUint value 16 with
                       | None => Err "strategy queue does not match profile"
                       | Some parsed => if parsed =? queue then Ok (mkSeen true (sn_transports seen) (sn_ports seen))
                                        else Err "strategy queue does not match profile"
                       end
                else Ok seen);
        seen ← (if (key =s "--filter-tcp") || (key =s "--filter-udp") then
                  ports ← filterPorts (S.Split value (Ascii.ascii_of_N 44)) (sn_ports seen);
                  Ok (mkSeen (sn_queue seen) ({[if key =s "--filter-tcp" then "tcp" else "udp"]} ∪ sn_transports seen) ports)
                else Ok seen);
        if (key =s "--dpi-desync-repeats") && negb (boundedOption value 8 20) then Err "desync repeats must be between 1 and 20"
        else if (key =s "--dpi-desync-split-seqovl") && negb (boundedOption value 16 4096)
        then Err "desync sequence overlap must be between 1 and 4096"
        else Ok seen
  end.

(** The loop over the lines; [before] is the previous line, if any. *)
Fixpoint strategyLines (queue : Z) (before : option string) (lines : list string) (seen : Seen) : result Seen :=
  match lines with
  | [] => Ok seen
  | line :: rest =>
      if line =s "--new" then
        match before, rest with
        | None, _ | _, [] => Err "strategy profile separator is misplaced"
        | Some previous, _ =>
            if previous =s "--new" then Err "strategy profile separator is misplaced"
            else strategyLines queue (Some line) rest seen
        end
      else seen ← strategyLine queue line seen; strategyLines queue (Some line) rest seen
  end.

Definition sameStringSet (actual : gset string) (expected : list string) : bool :=
  (size actual =? length expected)%nat && forallb (fun v => bool_decide (v ∈ actual)) expected.
Definition samePortSet (actual : gset Z) (expected : list Z) : bool :=
  (size actual =? length expected)%nat && forallb (fun v => bool_decide (v ∈ actual)) expected.

Definition newline : Ascii.ascii := Ascii.ascii_of_N 10.

Definition validateStrategy (raw : string) (queue : Z) (transports : list string) (ports : list Z) : result unit :=
  if S.is_empty raw || (MaxStrategyBytes <? S.len raw) || negb (S.all_bytes (fun c => negb (S.is_byte 13 c)) raw)
  then Err "strategy size or line endings are invalid"
  else
    let lines := S.Split (S.TrimSuffix raw (String newline EmptyString)) newline in
    if maxStrategyLines <? Z.of_nat (length lines) then Err "strategy line count is invalid"
    else
      seen ← strategyLines queue None lines (mkSeen false ∅ ∅);
      if negb (sn_queue seen) then Err "strategy queue is missing"
      else if negb (sameStringSet (sn_transports seen) transports) || negb (samePortSet (sn_ports seen) ports)
      then Err "strategy filters do not match profile scope"
      else Ok tt.

Section Catalogs.
(** The hexadecimal SHA-256 of a text, and [idna.Lookup.ToASCII]. *)
Context (sha256 : string -> string) (toASCII : string -> option string).

Definition Digest (raw : string) : string := "sha256:" +:+ sha256 raw.

Definition validateProfile (p : Profile) : result unit :=
  if negb (profileIDPattern (pr_ID p)) then Err "invalid profile ID"
  else if pr_Provider p <>s "nfqws-v1" then Err "unsupported provider"
  else if negb (versionPattern (pr_ProviderVersion p)) then Err "invalid provider version"
  else if negb (digestPattern (pr_BinaryDigest p)) || negb (digestPattern (pr_StrategyDigest p))
  then Err "binary and strategy SHA-256 pins are required"
  else if (pr_RouteType p <>s "zapret") || (pr_Safety p <>s "reviewed") then Err "profile must be a reviewed Zapret route"
  else if (pr_Queue p =? 0) || bool_decide (pr_IPFamilies p = []) || bool_decide (pr_Transports p = [])
     || bool_decide (pr_Ports p = []) then Err "queue, address families, transports and ports are required"
  else if negb (validateSet (pr_IPFamilies p) ["ipv4"; "ipv6"]) then Err "IP family"
  else if negb (validateSet (pr_Transports p) ["tcp"; "udp"]) then Err "transport"
  else if any (Z.eqb 0) (pr_Ports p) then Err "port 0 is not allowed"
  else if negb (validatePorts (pr_Ports p)) then Err "duplicate port"
  else if Digest (pr_Strategy p) <>s pr_StrategyDigest p then Err "strategy digest mismatch"
  else validateStrategy (pr_Strategy p) (pr_Queue p) (pr_Transports p) (pr_Ports p).

(** The loop of [NewCatalog]. *)
Fixpoint addProfiles (profiles : list Profile) (catalog : Catalog) : result Catalog :=
  match profiles with
  | [] => Ok catalog
  | p :: rest =>
      _ ← validateProfile p;
      match catalog !! pr_ID p with
      | Some _ => Err "duplicate Zapret profile"
      | None => addProfiles rest (<[pr_ID p := p]> catalog)
      end
  end.
Definition NewCatalog (profiles : list Profile) : result Catalog :=
  if (Z.of_nat (length profiles) =? 0) then Err "Zapret catalog must contain at least one profile"
  else if MaxProfiles <? Z.of_nat (length profiles) then Err "Zapret catalog exceeds the profiles"
  else addProfiles profiles ∅.

(** ** Service bundles *)

Record Protocol := mkProtocol { pt_Transport : string; pt_Port : Z }.
#[export] Instance Protocol_eq : EqDecision Protocol.
Proof. solve_decision. Defined.

Record BundleSpec := mkSpec {
  bs_ID : string;
  bs_Category : string;
  bs_RequiredDomains : list string;
  bs_OptionalDomains : list string;
  bs_Protocols : list Protocol;
  bs_IPFamilies : list string;
  bs_AllowedProfiles : list string;
  bs_FailureRoute : string;
  bs_DirectFallback : bool
}.
Record BundleCatalog := mkBundles { bc_bundles : gmap string BundleSpec; bc_domainOwners : gmap string string }.

(** The domains, normalised and sorted, with those seen. *)
Fixpoint normalizeEach (values : list string) (seen : gset string) (normalized : list string) : result (list string * gset string) :=
  match values with
  | [] => Ok (gosort S.ltb normalized, seen)
  | value :: rest =>
      match NormalizeDomain toASCII value with
      | None => Err "invalid bundle domain"
      | Some domain =>
          if bool_decide (domain ∈ seen) then Err "duplicate bundle domain"
          else normalizeEach rest ({[domain]} ∪ seen) (normalized ++ [domain])
      end
  end.
Definition normalizeDomains (values : list string) (existing : gset string) : result (list string * gset string) :=
  normalizeEach values existing [].

(** [protocolKey] is injective on the transports and ports that pass: the set of
    keys is a set of protocols. *)
Fixpoint checkProtocols (values : list Protocol) (seen : list Protocol) : bool :=
  match values with
  | [] => true
  | p :: rest =>
      if negb (containsString ["tcp"; "udp"] (pt_Transport p)) || (pt_Port p =? 0) || bool_decide (p ∈ seen) then false
      else checkProtocols rest (p :: seen)
  end.
Definition protocolLess (p q : Protocol) : bool :=
  if pt_Transport p <>s pt_Transport q then S.ltb (pt_Transport p) (pt_Transport q) else pt_Port p <? pt_Port q.
Definition normalizeProtocols (values : list Protocol) : result (list Protocol) :=
  let n := Z.of_nat (length values) in
  if (n =? 0) || (MaxProtocols <? n) then Err "invalid bundle protocol count"
  else if checkProtocols values [] then Ok (gosort protocolLess values) else Err "invalid bundle protocol".

Definition normalizeAllowedValues (values allowed : list string) : result (list string) :=
  if bool_decide (values = []) then Err "list is empty"
  else if validateSet values allowed then Ok (gosort S.ltb values) else Err "invalid or duplicate value".

(** A profile stays within the families and protocols of its bundle. *)
Definition withinScope (p : Profile) (protocols : list Protocol) (families : list string) : bool :=
  forallb (containsString families) (pr_IPFamilies p)
  && forallb (fun t => forallb (fun port => bool_decide (mkProtocol t port ∈ protocols)) (pr_Ports p)) (pr_Transports p).
Fixpoint checkProfiles (ids seen : list string) (profiles : Catalog) (protocols : list Protocol) (families : list string) : bool :=
  match ids with
  | [] => true
  | id :: rest =>
      if containsString seen id then false
      else match Catalog_Lookup profiles id with
           | None => false
           | Some p => withinScope p protocols families && checkProfiles rest (id :: seen) profiles protocols families
           end
  end.
Definition normalizeProfileIDs (values : list string) (profiles : Catalog) (protocols : list Protocol) (families : list string)
    : result (list string) :=
  let n := Z.of_nat (length values) in
  if (n =? 0) || (MaxProfiles <? n) then Err "invalid allowed profile count"
  else if checkProfiles values [] profiles protocols families then Ok (gosort S.ltb values) else Err "invalid allowed profile".

(** The digest of the bundle is left out. *)
Definition normalizeBundle (raw : BundleSpec) (profiles : Catalog) : result BundleSpec :=
  if negb (profileIDPattern (bs_ID raw)) then Err "invalid bundle ID"
  else if bs_Category raw <>s "TSPU_RESTRICTED" then Err "adaptive Zapret bundle must be TSPU_RESTRICTED"
  else if negb (profileIDPattern (bs_FailureRoute raw)) then Err "invalid failure route"
  else if bool_decide (bs_RequiredDomains raw = [])
     || (MaxDomainsPerBundle <? Z.of_nat (length (bs_RequiredDomains raw) + length (bs_OptionalDomains raw)))
  then Err "invalid bundle domain count"
  else
    '(required, seen) ← normalizeDomains (bs_RequiredDomains raw) ∅;
    '(optional, _) ← normalizeDomains (bs_OptionalDomains raw) seen;
    protocols ← normalizeProtocols (bs_Protocols raw);
    families ← normalizeAllowedValues (bs_IPFamilies raw) ["ipv4"; "ipv6"];
    profileIDs ← normalizeProfileIDs (bs_AllowedProfiles raw) profiles (bs_Protocols raw) families;
    Ok (mkSpec (bs_ID raw) (bs_Category raw) required optional protocols families profileIDs (bs_FailureRoute raw)
          (bs_DirectFallback raw)).

(** [""] for no owner. *)
Definition ownerOf (owners : gmap string string) (domain : string) : string := default "" (owners !! domain).
(** The loop of [ownerForDomain] from behind the next dot on. *)
Fixpoint ownerBehind (owners : gmap string string) (s : string) : string * string :=
  match s with
  | EmptyString => ("", "")
  | String c rest =>
      if Ascii.eqb c S.dot then
        if S.is_empty rest then ("", "")
        else if ownerOf owners rest <>s "" then (ownerOf owners rest, rest) else ownerBehind owners rest
      else ownerBehind owners rest
  end.
Definition ownerForDomain (owners : gmap string string) (domain : string) : string * string :=
  if S.is_empty domain then ("", "")
  else if ownerOf owners domain <>s "" then (ownerOf owners domain, domain) else ownerBehind owners domain.

Record domainDeclaration := mkDeclaration { dd_domain : string; dd_bundleID : string }.
Fixpoint countDots (s : string) : Z :=
  match s with EmptyString => 0 | String c rest => (if Ascii.eqb c S.dot then 1 else 0) + countDots rest end.
Definition declarationLess (i j : domainDeclaration) : bool :=
  if negb (countDots (dd_domain i) =? countDots (dd_domain j)) then countDots (dd_domain i) <? countDots (dd_domain j)
  else S.ltb (dd_domain i) (dd_domain j).

(** The two loops of [NewBundleCatalog]. *)
Fixpoint addBundles (specs : list BundleSpec) (profiles : Catalog) (bundles : gmap string BundleSpec)
    (declarations : list domainDeclaration) : result (gmap string BundleSpec * list domainDeclaration) :=
  match specs with
  | [] => Ok (bundles, declarations)
  | raw :: rest =>
      bundle ← normalizeBundle raw profiles;
      match bundles !! bs_ID bundle with
      | Some _ => Err "duplicate service bundle"
      | None =>
          addBundles rest profiles (<[bs_ID bundle := bundle]> bundles)
            (declarations ++ map (fun d => mkDeclaration d (bs_ID bundle)) (bs_RequiredDomains bundle ++ bs_OptionalDomains bundle))
      end
  end.
Fixpoint addOwners (declarations : list domainDeclaration) (owners : gmap string string) : result (gmap string string) :=
  match declarations with
  | [] => Ok owners
  | d :: rest =>
      let '(owner, _) := ownerForDomain owners (dd_domain d) in
      if (owner <>s "") && (owner <>s dd_bundleID d) then Err "domain overlaps bundle"
      else
        let owner := ownerOf owners (dd_domain d) in
        if (owner <>s "") && (owner <>s dd_bundleID d) then Err "domain belongs to both"
        else addOwners rest (<[dd_domain d := dd_bundleID d]> owners)
  end.
(** [sort.Slice] is not stable: equal declarations are of one domain, and all of
    them are checked against the first. *)
Definition NewBundleCatalog (specs : list BundleSpec) (profiles : Catalog) : result BundleCatalog :=
  let n := Z.of_nat (length specs) in
  if n =? 0 then Err "service bundle catalog must not be empty"
  else if MaxBundles <? n then Err "service bundle catalog exceeds the bundles"
  else
    '(bundles, declarations) ← addBundles specs profiles ∅ [];
    owners ← addOwners (gosort declarationLess declarations) ∅;
    Ok (mkBundles bundles owners).

Definition Lookup (c : BundleCatalog) (id : string) : option BundleSpec := bc_bundles c !! id.
Definition LookupDomain (c : BundleCatalog) (domain : string) : option BundleSpec :=
  match NormalizeDomain toASCII domain with
  | None => None
  | Some normalized =>
      let '(owner, _) := ownerForDomain (bc_domainOwners c) normalized in
      if S.is_empty owner then None else Lookup c owner
  end.
End Catalogs.

(** [d] is what follows some dot of [s]; [d] covers [x]. *)
Definition behind (s d : string) : Prop := exists p, s = p +:+ String S.dot d.
Definition under (d x : string) : Prop := d = x \/ behind x d.

Lemma behind_empty d : ~ behind "" d.
Proof. by intros [[|] ?]. Qed.
Lemma behind_dot s d : behind (String S.dot s) d <-> d = s \/ behind s d.
Proof.
  split.
  - intros [[|c p] E]; simpl in E; injection E; [by left|]. intros -> <-. right. by exists p.
  - intros [->|[p ->]]; [by exists ""|]. by exists (String S.dot p).
Qed.
Lemma behind_other c s d : Ascii.eqb c S.dot = false -> behind (String c s) d <-> behind s d.
Proof.
  intros Hc. split.
  - intros [[|c' p] E]; simpl in E; injection E; [|intros -> <-; by exists p].
    intros _ ->. by rewrite Ascii.eqb_refl in Hc.
  - intros [p ->]. by exists (String c p).
Qed.
Lemma behind_trans s d e : behind s d -> behind d e -> behind s e.
Proof. intros [p ->] [q ->]. exists (p +:+ String S.dot q). by rewrite str_app_assoc. Qed.

Lemma countDots_app a b : countDots (a +:+ b) = countDots a + countDots b.
Proof. induction a as [|c a IH]; simpl; [done|]. rewrite IH. lia. Qed.
Lemma countDots_nonneg s : 0 <= countDots s.
Proof. induction s as [|c s IH]; simpl; [lia|]. destr_if; lia. Qed.
Lemma countDots_behind s d : behind s d -> countDots d < countDots s.
Proof. intros [p ->]. rewrite countDots_app. simpl. pose proof (countDots_nonneg p). lia. Qed.

(** ** The walk up the labels *)

(** The nearest owned name behind a dot of [s]. *)
Lemma ownerBehind_spec owners s :
  let '(o, r) := ownerBehind owners s in
  (o = "" /\ forall d, behind s d -> d <> "" -> ownerOf owners d = "") \/
  (o <> "" /\ ownerOf owners r = o /\ behind s r /\
   forall d, behind s d -> d <> "" -> ownerOf owners d <> "" -> under d r).
Proof.
  induction s as [|c s IH]; simpl; [left; split; [done|]; by intros d ?%behind_empty|].
  destruct (Ascii.eqb c S.dot) eqn:Ec.
  - apply Ascii.eqb_eq in Ec as ->. unfold S.is_empty. destruct (s =s "") eqn:Es; str_eq.
    { subst s. left. split; [done|]. intros d [->|?%behind_empty]%behind_dot; done. }
    destruct (ownerOf owners s =s "") eqn:Eo; str_eq; simpl.
    + destruct (ownerBehind owners s) as [o r]. destruct IH as [[-> H]|(Ho & Hr & Hb & H)].
      * left. split; [done|]. intros d [->|Hd]%behind_dot Hne; [done|by apply H].
      * right. split_and!; [done|done|apply behind_dot; by right|].
        intros d [->|Hd]%behind_dot Hne Hown; [done|by apply H].
    + right. split_and!; [done|done|apply behind_dot; by left|].
      intros d [->|Hd]%behind_dot _ _; [by left|by right].
  - destruct (ownerBehind owners s) as [o r]. destruct IH as [[-> H]|(Ho & Hr & Hb & H)].
    + left. split; [done|]. intros d Hd. apply behind_other in Hd; [|done]. by apply H.
    + right. split_and!; [done|done|by apply behind_other|]. intros d Hd. apply behind_other in Hd; [|done]. by apply H.
Qed.

Lemma ownerForDomain_spec owners s : s <> "" ->
  let '(o, r) := ownerForDomain owners s in
  (o = "" /\ forall d, under d s -> d <> "" -> ownerOf owners d = "") \/
  (o <> "" /\ ownerOf owners r = o /\ under r s /\
   forall d, under d s -> d <> "" -> ownerOf owners d <> "" -> under d r).
Proof.
  intros Hs. unfold ownerForDomain, S.is_empty. destruct (s =s "") eqn:Es; str_eq; [done|].
  destruct (ownerOf owners s =s "") eqn:Eo; str_eq; simpl.
  - pose proof (ownerBehind_spec owners s) as H. destruct (ownerBehind owners s) as [o r].
    destruct H as [[-> H]|(Ho & Hr & Hb & H)].
    + left. split; [done|]. intros d [->|Hd] Hne; [done|by apply H].
    + right. split_and!; [done|done|by right|]. intros d [->|Hd] Hne Hown; [done|by apply H].
  - right. split_and!; [done|done|by left|]. intros d [->|Hd] _ _; [by left|by right].
Qed.

(** ** The owners *)

(** Names with the same owner along every chain. *)
Definition aligned (owners : gmap string string) : Prop :=
  (forall d o, owners !! d = Some o -> o <> "" /\ d <> "") /\
  (forall d e o o', owners !! d = Some o -> owners !! e = Some o' -> under d e -> o = o').

Lemma ownerOf_Some owners d : ownerOf owners d <> "" -> owners !! d = Some (ownerOf owners d).
Proof. unfold ownerOf. by destruct (owners !! d). Qed.

Lemma aligned_insert owners d b :
  aligned owners -> d <> "" -> b <> "" -> (forall e o, owners !! e = Some o -> countDots e <= countDots d) ->
  (let '(o, _) := ownerForDomain owners d in o = "" \/ o = b) -> aligned (<[d := b]> owners).
Proof.
  intros [Hne Hal] Hd Hb Hdots Hown. pose proof (ownerForDomain_spec owners d Hd) as Hspec.
  destruct (ownerForDomain owners d) as [o r]. split.
  { intros e o' [[<- <-]|[_ He]]%lookup_insert_Some; [done|by apply (Hne e)]. }
  assert (HC : forall e o', owners !! e = Some o' -> under e d -> o' = b).
  { intros e o' He Hu. destruct (Hne _ _ He) as [Ho' Hen].
    assert (Hoe : ownerOf owners e = o') by (unfold ownerOf; by rewrite He).
    destruct Hspec as [[-> H]|(Ho & Hr & Hur & H)]; [destruct Ho'; rewrite <- Hoe; by apply H|].
    destruct Hown as [->| ->]; [done|].
    rewrite (Hal e r o' (ownerOf owners r)); [done|done|apply ownerOf_Some; by rewrite Hr|]. apply H; [done|done|by rewrite Hoe]. }
  intros x y ox oy Hx Hy Hu. apply lookup_insert_Some in Hx as [[<- <-]|[Hxd Hx]], Hy as [[<- <-]|[Hyd Hy]].
  - done.
  - destruct Hu as [->|Hu]; [done|]. apply countDots_behind in Hu. specialize (Hdots _ _ Hy). lia.
  - by apply (HC x).
  - by apply (Hal x y).
Qed.

(** The declarations are sorted by the number of dots. *)
#[export] Instance StrictWeak_declarationLess : StrictWeak declarationLess.
Proof.
  apply (StrictWeak_ext (then_by (same_z (countDots ∘ dd_domain)) (key_lt (countDots ∘ dd_domain)) (key_slt dd_domain))).
  - intros i j. unfold declarationLess, then_by, same_z, compose. by destruct (_ =? _).
  - apply StrictWeak_then_by; auto with flint.
Qed.
Lemma declarationLess_dots i j : le_of declarationLess i j -> countDots (dd_domain i) <= countDots (dd_domain j).
Proof. unfold le_of, declarationLess. destr_if; lia. Qed.

Definition named (d : domainDeclaration) : Prop := dd_domain d <> "" /\ dd_bundleID d <> "".

Lemma addOwners_aligned ds : forall owners owners',
  aligned owners -> Forall named ds -> StronglySorted (le_of declarationLess) ds ->
  (forall e o d, owners !! e = Some o -> d ∈ ds -> countDots e <= countDots (dd_domain d)) ->
  addOwners ds owners = Ok owners' ->
  aligned owners' /\ (forall d, d ∈ ds -> owners' !! dd_domain d = Some (dd_bundleID d)) /\
  (forall x o, owners !! x = Some o -> owners' !! x = Some o) /\
  (forall x o, owners' !! x = Some o -> owners !! x = Some o \/ mkDeclaration x o ∈ ds).
Proof.
  induction ds as [|d ds IH]; intros owners owners' Ha Hn Hs Hdots HE.
  { injection HE as <-. split_and!; [done| |done|by left]. intros d Hd. by apply not_elem_of_nil in Hd. }
  apply Forall_cons in Hn as [[Hd Hb] Hn]. inversion Hs as [|? ? Hs' Hle]; subst. rewrite Forall_forall in Hle.
  cbn [addOwners] in HE. destruct (ownerForDomain owners (dd_domain d)) as [o r] eqn:Eo.
  destruct ((o <>s "") && (o <>s dd_bundleID d)) eqn:E1; [done|].
  destruct ((ownerOf owners (dd_domain d) <>s "") && _) eqn:E2; [done|].
  assert (Ho : o = "" \/ o = dd_bundleID d).
  { apply andb_false_iff in E1 as [E|E]; apply negb_false_iff in E; str_eq; [by left|by right]. }
  assert (Hkeep : forall x o', owners !! x = Some o' -> <[dd_domain d := dd_bundleID d]> owners !! x = Some o').
  { intros x o' Hx. apply lookup_insert_Some. destruct (decide (dd_domain d = x)) as [<-|]; [left; split; [done|]|by right].
    destruct Ha as [Hne _]. destruct (Hne _ _ Hx) as [Ho' _].
    apply andb_false_iff in E2 as [E|E]; apply negb_false_iff in E; str_eq; unfold ownerOf in E; rewrite Hx in E; done. }
  destruct (IH (<[dd_domain d := dd_bundleID d]> owners) owners') as (I1 & I2 & I3 & I4); [|done|done| |done|].
  - apply aligned_insert; [done..| |by rewrite Eo]. intros e o' He. apply (Hdots e o'); [done|by left].
  - intros e o' d' [[<- <-]|[_ He]]%lookup_insert_Some Hin; [by apply declarationLess_dots, Hle|].
    apply (Hdots e o'); [done|by right].
  - split_and!; [done| | |].
    + intros d' [->|Hin]%elem_of_cons; [apply I3, lookup_insert_eq|by apply I2].
    + intros x o' Hx. by apply I3, Hkeep.
    + intros x o' Hx. destruct (I4 _ _ Hx) as [[[<- <-]|[_ Hx']]%lookup_insert_Some|Hin]; [right|by left|right; by right].
      destruct d. by left.
Qed.

(** ** The catalog *)

Section Bundles.
Context (sha256 : string -> string) (toASCII : string -> option string).

Definition domainsOf (b : BundleSpec) : list string := bs_RequiredDomains b ++ bs_OptionalDomains b.

Lemma NormalizeDomain_nonempty d d' : NormalizeDomain toASCII d = Some d' -> d' <> "".
Proof. intros HE ->. apply NormalizeDomain_labels in HE. simpl in HE. lia. Qed.

Lemma normalizeEach_nonempty values : forall seen acc ds seen',
  Forall (fun d => d <> "") acc -> normalizeEach toASCII values seen acc = Ok (ds, seen') -> Forall (fun d => d <> "") ds.
Proof.
  induction values as [|v values IH]; intros seen acc ds seen' Hacc HE; simpl in HE.
  { injection HE as <- _. by rewrite gosort_perm. }
  destruct (NormalizeDomain toASCII v) as [d|] eqn:Ed; [|done]. case_bool_decide; [done|].
  eapply IH; [|exact HE]. apply Forall_app. split; [done|]. constructor; [|done]. by eapply NormalizeDomain_nonempty.
Qed.

Lemma normalizeBundle_named raw profiles b :
  normalizeBundle toASCII raw profiles = Ok b -> bs_ID b <> "" /\ Forall (fun d => d <> "") (domainsOf b).
Proof.
  unfold normalizeBundle. intros HE. destruct (profileIDPattern (bs_ID raw)) eqn:Ei; [|done]. simpl in HE.
  destruct (_ <>s _); [done|]. destruct (negb _); [done|]. destruct (_ || _); [done|]. unfold mbind, result_bind in HE.
  destruct (normalizeDomains _ _ _) as [[required seen]|] eqn:E1; [|done].
  destruct (normalizeDomains _ _ seen) as [[optional seen']|] eqn:E2; [|done].
  destruct (normalizeProtocols _); [|done]. destruct (normalizeAllowedValues _ _); [|done]. destruct (normalizeProfileIDs _ _ _ _); [|done].
  injection HE as <-. simpl. split; [intros En; by rewrite En in Ei|]. unfold domainsOf. simpl.
  apply normalizeEach_nonempty in E1; [|constructor]. apply normalizeEach_nonempty in E2; [|constructor]. by apply Forall_app.
Qed.

(** The bundles so far and their declarations. *)
Definition filed (bundles : gmap string BundleSpec) (ds : list domainDeclaration) : Prop :=
  (forall k b, bundles !! k = Some b -> bs_ID b = k) /\ Forall named ds /\
  (forall x k, mkDeclaration x k ∈ ds <-> exists b, bundles !! k = Some b /\ x ∈ domainsOf b).

Lemma addBundles_filed specs profiles : forall bundles ds bundles' ds',
  filed bundles ds -> addBundles toASCII specs profiles bundles ds = Ok (bundles', ds') -> filed bundles' ds'.
Proof.
  induction specs as [|raw specs IH]; intros bundles ds bundles' ds' Hf HE; simpl in HE; [by injection HE as <- <-|].
  unfold mbind, result_bind in HE. destruct (normalizeBundle toASCII raw profiles) as [b|] eqn:Eb; [|done].
  destruct (bundles !! bs_ID b) as [b'|] eqn:Eid; [done|]. eapply IH; [|exact HE].
  destruct Hf as (H1 & H2 & H3). apply normalizeBundle_named in Eb as [Hid Hds]. fold (domainsOf b). split_and!.
  - intros k c [[<- <-]|[_ Hc]]%lookup_insert_Some; [done|by apply H1].
  - apply Forall_app. split; [done|]. apply Forall_forall. intros d Hin.
    apply list_elem_of_In, in_map_iff in Hin as (x & <- & Hx%list_elem_of_In). rewrite Forall_forall in Hds. split; [by apply Hds|done].
  - intros x k. rewrite elem_of_app, H3. split.
    + intros [(c & Hc & Hx)|Hin].
      * exists c. split; [|done]. apply lookup_insert_Some. right. split; [intros Ek; rewrite <- Ek, Eid in Hc; done|done].
      * apply list_elem_of_In, in_map_iff in Hin as (y & [= <- <-] & Hy%list_elem_of_In). exists b. split; [apply lookup_insert_eq|done].
    + intros (c & [[<- <-]|[_ Hc]]%lookup_insert_Some & Hx); [right|left; by exists c].
      apply list_elem_of_In, in_map_iff. exists x. split; [done|by apply list_elem_of_In].
Qed.

Lemma NewBundleCatalog_filed specs profiles c :
  NewBundleCatalog toASCII specs profiles = Ok c ->
  aligned (bc_domainOwners c) /\ (forall k b, bc_bundles c !! k = Some b -> bs_ID b = k) /\
  forall x k, bc_domainOwners c !! x = Some k <-> exists b, bc_bundles c !! k = Some b /\ x ∈ domainsOf b.
Proof.
  unfold NewBundleCatalog. intros HE. destruct (_ =? 0); [done|]. destruct (_ <? _); [done|].
  unfold mbind, result_bind in HE. destruct (addBundles _ _ _ _ _) as [[bundles ds]|] eqn:E1; [|done].
  destruct (addOwners _ _) as [owners|] eqn:E2; [|done]. injection HE as <-. simpl.
  assert (Hf : filed bundles ds).
  { eapply addBundles_filed; [|exact E1]. split_and!; [done|constructor|]. intros x k. split; [by intros ?%not_elem_of_nil|by intros (? & ? & ?)]. }
  destruct Hf as (H1 & H2 & H3). apply addOwners_aligned in E2 as (A1 & A2 & _ & A4).
  - split; [done|]. split; [done|]. intros x k. rewrite <- H3. split.
    + intros Hx. destruct (A4 _ _ Hx) as [?|Hin]; [done|]. by rewrite gosort_perm in Hin.
    + intros Hin. apply (A2 (mkDeclaration x k)). by rewrite gosort_perm.
  - split; done.
  - by rewrite gosort_perm.
  - apply gosort_sorted. apply _.
  - done.
Qed.

(** Every domain belongs to one service bundle.  In a catalog that
    [NewBundleCatalog] accepts, a declared domain is never equal to nor under a
    domain another bundle declares, so a host has one owner at most; and
    [LookupDomain] finds the bundle that declares the host or a domain above it
    exactly when there is one. *)
Theorem domain_has_one_bundle specs profiles c :
  NewBundleCatalog toASCII specs profiles = Ok c ->
  (forall k k' b b' d e, bc_bundles c !! k = Some b -> bc_bundles c !! k' = Some b' ->
     d ∈ domainsOf b -> e ∈ domainsOf b' -> under d e -> k = k') /\
  (forall host name b, NormalizeDomain toASCII host = Some name ->
     LookupDomain toASCII c host = Some b <->
     exists d, bc_bundles c !! bs_ID b = Some b /\ d ∈ domainsOf b /\ under d name).
Proof.
  intros HE. destruct (NewBundleCatalog_filed specs profiles c HE) as ([Hne Hal] & Hid & Hown). split.
  - intros k k' b b' d e Hb Hb' Hd He Hu. apply (Hal d e); [|..|done]; apply Hown; eauto.
  - intros host name b Hn. unfold LookupDomain. rewrite Hn. apply NormalizeDomain_nonempty in Hn.
    pose proof (ownerForDomain_spec (bc_domainOwners c) name Hn) as Hspec.
    destruct (ownerForDomain (bc_domainOwners c) name) as [o r]. unfold S.is_empty, Lookup.
    assert (HU : forall d, d ∈ domainsOf b -> bc_bundles c !! bs_ID b = Some b -> ownerOf (bc_domainOwners c) d = bs_ID b /\ bs_ID b <> "" /\ d <> "").
    { intros d Hd Hb. assert (Hx : bc_domainOwners c !! d = Some (bs_ID b)) by (apply Hown; by exists b).
      split; [unfold ownerOf; by rewrite Hx|]. by apply (Hne d). }
    destruct Hspec as [[-> H]|(Ho & Hr & Hur & H)].
    + simpl. split; [done|]. intros (d & Hb & Hd & Hu). destruct (HU d Hd Hb) as (Ho & Hbn & Hdn). destruct Hbn. rewrite <- Ho. by apply H.
    + destruct (o =s "") eqn:Eo; str_eq; [done|]. rewrite <- Hr in Ho. apply ownerOf_Some in Ho as Hor. rewrite Hr in Hor. split.
      * intros Hb. apply Hown in Hor as (b' & Hb' & Hin). rewrite Hb in Hb'. injection Hb' as <-. exists r. by rewrite (Hid _ _ Hb).
      * intros (d & Hb & Hd & Hu). destruct (HU d Hd Hb) as (Hod & Hbn & Hdn).
        assert (Hx : bc_domainOwners c !! d = Some (bs_ID b)) by (apply Hown; by exists b).
        rewrite (Hal d r (bs_ID b) o Hx Hor) in Hb; [|apply H; [done|done|by rewrite Hod]].
        exact Hb.
Qed.
End Bundles.

(** ** A catalog *)

Definition ex_hex : string := "00112233445566778899aabbccddeeff00112233445566778899aabbccddeeff".
Definition ex_lines (lines : list string) : string := S.Join lines (String newline EmptyString) +:+ String newline EmptyString.
Definition ex_strategy : string :=
  ex_lines ["--qnum=200"; "--filter-tcp=80"; "--dpi-desync=fake"; "--new"; "--filter-tcp=443"; "--dpi-desync-repeats=6"].
Definition ex_profile (id strategy : string) : Profile :=
  mkProfile id "nfqws-v1" "72.1" ("sha256:" +:+ ex_hex) "zapret" ["ipv4"] ["tcp"] [80; 443] 200 "reviewed" ("sha256:" +:+ ex_hex) strategy.
Definition ex_profile_list : list Profile := [ex_profile "split" ex_strategy; ex_profile "fake" ex_strategy].
Definition ex_catalog : result Catalog := NewCatalog (fun _ => ex_hex) ex_profile_list.
Definition ex_profiles : Catalog := match ex_catalog with Ok c => c | Err _ => ∅ end.
Definition ex_spec (id : string) (domains : list string) : BundleSpec :=
  mkSpec id "TSPU_RESTRICTED" domains [] [mkProtocol "tcp" 443; mkProtocol "tcp" 80] ["ipv4"] ["split"; "fake"] "drop" false.
Definition ex_specs : list BundleSpec :=
  [ex_spec "video" ["Video.example."; "cdn.video.example"]; ex_spec "chat" ["chat.example"]].
Definition ex_bundles : result BundleCatalog := NewBundleCatalog Some ex_specs ex_profiles.
Definition ex_bundle_catalog : BundleCatalog := match ex_bundles with Ok c => c | Err _ => mkBundles ∅ ∅ end.

Example strategies_checked :
  map (fun lines => is_ok (validateStrategy (ex_lines lines) 200 ["tcp"] [80; 443]))
    [["--qnum=200"; "--filter-tcp=80,443"];           (* one filter for both ports *)
     ["--qnum=201"; "--filter-tcp=80,443"];           (* another queue *)
     ["--qnum=200"; "--filter-tcp=80"];               (* a port is missing *)
     ["--qnum=200"; "--filter-tcp=80,443"; "--new"];  (* a separator at the end *)
     ["--qnum=200"; "--filter-tcp=80,443"; "--dpi-desync-repeats=21"];
     ["--qnum=200"; "--filter-tcp=80,443"; "--user=root"];
     ["--qnum=200"; "--filter-tcp=80,443"; "--dpi-desync=a;b"]] = [true; false; false; false; false; false; false].
Proof. vm_compute. reflexivity. Qed.

Example overlap_rejected :
  is_ok ex_bundles = true /\
  is_ok (NewBundleCatalog Some [ex_spec "video" ["cdn.video.example"]; ex_spec "chat" ["video.example"]] ex_profiles) = false.
Proof. vm_compute. split; reflexivity. Qed.

Lemma domain_has_one_bundle_witness :
  ex_bundles = Ok ex_bundle_catalog /\
  (bs_ID <$> LookupDomain Some ex_bundle_catalog "a.cdn.video.example") = Some "video" /\
  (forall k k' b b' d e, bc_bundles ex_bundle_catalog !! k = Some b -> bc_bundles ex_bundle_catalog !! k' = Some b' ->
     d ∈ domainsOf b -> e ∈ domainsOf b' -> under d e -> k = k').
Proof.
  assert (HE : ex_bundles = Ok ex_bundle_catalog).
  { unfold ex_bundle_catalog. assert (Hk : is_ok ex_bundles = true) by (vm_compute; reflexivity). by destruct ex_bundles. }
  split; [exact HE|]. split; [vm_compute; reflexivity|].
  exact (proj1 (domain_has_one_bundle Some ex_specs ex_profiles ex_bundle_catalog HE)).
Defined.
