(* ===== verification/ZapretRanking.v ===== *)
(** * Ranking of Zapret profiles

    [internal/zapret/ranking.go]: probe observations per decision key and
    profile, the score of a profile (Wilson interval, windows, latencies) and
    their order; the persisted snapshot of the observations. *)
From Stdlib Require Import ZArith Lia.
From stdpp Require Import base list strings gmap sorting pretty.
From S2P Require Import Prelude Float64 ZapretCatalog.

Open Scope Z_scope.

Definition MaxSamplesPerProfile : Z := 256.
Definition MaxRouteCost : Z := 1000.
Definition MaxPersistedObservations : Z := 4096.

Record DecisionKey := mkKey {
  dk_BundleID : string;
  dk_Transport : string;
  dk_Port : Z;
  dk_IPFamily : string;
  dk_NetworkFingerprint : string
}.
#[export] Instance DecisionKey_eq : EqDecision DecisionKey.
Proof. solve_decision. Defined.

Record ProbeObservation := mkObservation {
  po_Key : DecisionKey;
  po_ProfileID : string;
  po_ObservedAt : time;
  po_Success : bool;
  po_SafetyGate : bool;
  po_RequiredChecksPassed : bool;
  po_PathVerified : bool;
  po_HardFailure : bool;
  po_Latency : duration
}.

Record RankingPolicy := mkRankingPolicy {
  rp_WindowDuration : duration;
  rp_Retention : duration;
  rp_MaxSamplesPerProfile : Z;
  rp_MinAttempts : Z;
  rp_MinStableWindows : Z;
  rp_ProductionMinAttempts : Z;
  rp_ProductionSuccessRatio : float64;
  rp_RecentSafetyWindows : Z;
  rp_WilsonZ : float64
}.

Record CandidateScore := mkScore {
  sc_Key : DecisionKey;
  sc_ProfileID : string;
  sc_Attempts : Z;
  sc_Successes : Z;
  sc_SafetyGate : bool;
  sc_RequiredChecksPassed : bool;
  sc_RecentHardFailure : bool;
  sc_WilsonLowerBound : float64;
  sc_WilsonUpperBound : float64;
  sc_SuccessRatio : float64;
  sc_StableWindows : Z;
  sc_FailedWindows : Z;
  sc_FailureStreak : Z;
  sc_MedianLatencyMS : float64;
  sc_P95LatencyMS : float64;
  sc_RouteCost : Z;
  sc_Eligible : bool;
  sc_ProductionReady : bool;
  sc_LatestObservedAt : time
}.

Abbreviation Samples := (gmap string (gmap string (list ProbeObservation))) (only parsing).
Record Ranker := mkRanker {
  rk_bundles : BundleCatalog;
  rk_profiles : Catalog;
  rk_policy : RankingPolicy;
  rk_samples : Samples
}.
Definition with_samples (samples : Samples) (r : Ranker) : Ranker :=
  mkRanker (rk_bundles r) (rk_profiles r) (rk_policy r) samples.

Definition DefaultRankingPolicy : RankingPolicy :=
  mkRankingPolicy (5 * minute) (24 * hour) 128 5 2 10 (F.ratio 95 100) 2 (F.ratio 196 100).

(** [true] for no error. *)
Definition validateRankingPolicy (p : RankingPolicy) : bool :=
  negb ((rp_WindowDuration p <? 30 * second) || (24 * hour <? rp_WindowDuration p))
  && negb ((rp_Retention p <? 2 * rp_WindowDuration p) || (30 * 24 * hour <? rp_Retention p))
  && negb ((rp_MaxSamplesPerProfile p <? 1) || (MaxSamplesPerProfile <? rp_MaxSamplesPerProfile p))
  && negb ((rp_MinAttempts p <? 1) || (rp_MaxSamplesPerProfile p <? rp_MinAttempts p)
           || (rp_ProductionMinAttempts p <? rp_MinAttempts p) || (rp_MaxSamplesPerProfile p <? rp_ProductionMinAttempts p))
  && negb ((rp_MinStableWindows p <? 1) || (32 <? rp_MinStableWindows p)
           || (rp_RecentSafetyWindows p <? 1) || (8 <? rp_RecentSafetyWindows p))
  && negb (F.ltb (rp_ProductionSuccessRatio p) (F.ratio 1 2) || F.ltb F.one (rp_ProductionSuccessRatio p)
           || F.ltb (rp_WilsonZ p) (F.ratio 1 10) || F.ltb (F.of_Z 5) (rp_WilsonZ p)).

Definition NewRanker (bundles : BundleCatalog) (profiles : Catalog) (policy : RankingPolicy) : option Ranker :=
  if validateRankingPolicy policy then Some (mkRanker bundles profiles policy ∅) else None.

(** ** Keys and observations *)

Definition decisionKeyString (k : DecisionKey) : string :=
  dk_BundleID k +:+ "|" +:+ dk_Transport k +:+ "|" +:+ pretty (dk_Port k) +:+ "|" +:+ dk_IPFamily k +:+ "|" +:+
  dk_NetworkFingerprint k.

Definition normalizeDecisionKey (r : Ranker) (k : DecisionKey) : result (DecisionKey * BundleSpec) :=
  match Lookup (rk_bundles r) (dk_BundleID k) with
  | None => Err "unknown service bundle"
  | Some bundle =>
      if negb (digestPattern (dk_NetworkFingerprint k)) then Err "network fingerprint must be a SHA-256 digest"
      else if ((dk_IPFamily k <>s "ipv4") && (dk_IPFamily k <>s "ipv6")) || negb (containsString (bs_IPFamilies bundle) (dk_IPFamily k))
      then Err "decision key IP family is outside bundle scope"
      else if negb (any (fun p => (pt_Transport p =s dk_Transport k) && (pt_Port p =? dk_Port k)) (bs_Protocols bundle))
      then Err "decision key protocol is outside bundle scope"
      else Ok (k, bundle)
  end.

Definition normalizeObservation (r : Ranker) (o : ProbeObservation) : result ProbeObservation :=
  '(key, bundle) ← normalizeDecisionKey r (po_Key o);
  if T.IsZero (po_ObservedAt o) then Err "probe observation time is required"
  else if (po_Latency o <? 0) || (10 * minute <? po_Latency o) then Err "probe latency is outside the bounded range"
  else if po_HardFailure o && po_Success o then Err "hard failure cannot be successful"
  else if po_Success o && (negb (po_SafetyGate o) || negb (po_RequiredChecksPassed o) || negb (po_PathVerified o))
  then Err "successful probe requires safety, required checks and path proof"
  else if negb (containsString (bs_AllowedProfiles bundle) (po_ProfileID o)) then Err "profile is not allowed for bundle"
  else match Catalog_Lookup (rk_profiles r) (po_ProfileID o) with
  | None => Err "profile does not cover the decision key"
  | Some profile =>
      if negb (containsString (pr_Transports profile) (dk_Transport key)) || negb (any (Z.eqb (dk_Port key)) (pr_Ports profile))
         || negb (containsString (pr_IPFamilies profile) (dk_IPFamily key))
      then Err "profile does not cover the decision key"
      else Ok o  (* the key and the time are already in normal form *)
  end.

(** ** Scores *)

Definition wilsonBounds (successes attempts : Z) (z : float64) : float64 * float64 :=
  if attempts =? 0 then (F.zero, F.zero)
  else
    let n := F.of_Z attempts in
    let p := F.div (F.of_Z successes) n in
    let z2 := F.mul z z in
    let center := F.add p (F.div z2 (F.mul (F.of_Z 2) n)) in
    let margin := F.mul z (F.sqrt (F.div (F.add (F.mul p (F.sub F.one p)) (F.div z2 (F.mul (F.of_Z 4) n))) n)) in
    let denominator := F.add F.one (F.div z2 n) in
    (F.max F.zero (F.div (F.sub center margin) denominator), F.min F.one (F.div (F.add center margin) denominator)).

Definition percentile (sorted : list float64) (fraction : float64) : float64 :=
  let n := Z.of_nat (length sorted) in
  if n =? 0 then F.zero
  else
    let index := F.ceil_to_Z (F.mul fraction (F.of_Z n)) - 1 in
    let index := if index <? 0 then 0 else index in
    let index := if n <=? index then n - 1 else index in
    default F.zero (sorted !! Z.to_nat index).

Definition latencyOrder (v : float64) : float64 := if F.leb v F.zero then F.MaxFloat64 else v.

(** The samples that count at [now]. *)
Definition fresh (retention : duration) (now : time) (o : ProbeObservation) : bool :=
  negb (T.After (po_ObservedAt o) now) && negb (T.Before (po_ObservedAt o) (T.Add now (- retention))).

(** The starts of the windows in the order of their first sample. *)
Fixpoint windowStarts (window : duration) (samples : list ProbeObservation) (starts : list time) : list time :=
  match samples with
  | [] => starts
  | o :: rest =>
      let start := T.Truncate (po_ObservedAt o) window in
      windowStarts window rest (if any (Z.eqb start) starts then starts else starts ++ [start])
  end.
(** The windows, latest first, with their samples. *)
Definition windowsOf (window : duration) (samples : list ProbeObservation) : list (list ProbeObservation) :=
  map (fun start => List.filter (fun o => T.Truncate (po_ObservedAt o) window =? start) samples)
    (gosort T.After (windowStarts window samples [])).

(** The number of items up to the first that fails [p]. *)
Fixpoint countWhile {A} (p : A -> bool) (l : list A) : Z :=
  match l with [] => 0 | x :: rest => if p x then 1 + countWhile p rest else 0 end.

Definition allSucceeded (samples : list ProbeObservation) : bool := forallb po_Success samples.
Definition someFailed (samples : list ProbeObservation) : bool := any (fun o => negb (po_Success o)) samples.

Definition latenciesOf (samples : list ProbeObservation) : list float64 :=
  map (fun o => F.div (F.of_Z (po_Latency o)) (F.of_Z millisecond))
    (List.filter (fun o => po_Success o && (0 <? po_Latency o)) samples).

Definition zero_Score (key : DecisionKey) (profileID : string) (routeCost : Z) : CandidateScore :=
  mkScore key profileID 0 0 false false false F.zero F.zero F.zero 0 0 0 F.zero F.zero routeCost false false T.zero.

(** The score of the samples [active] that count. *)
Definition scoreOf (policy : RankingPolicy) (key : DecisionKey) (profileID : string) (routeCost : Z)
    (active : list ProbeObservation) : CandidateScore :=
  let attempts := Z.of_nat (length active) in
  let successes := Z.of_nat (length (List.filter po_Success active)) in
  let ratio := F.div (F.of_Z successes) (F.of_Z attempts) in
  let '(lower, upper) := wilsonBounds successes attempts (rp_WilsonZ policy) in
  let latencies := gosort F.ltb (latenciesOf active) in
  let windows := windowsOf (rp_WindowDuration policy) active in
  let stable := countWhile allSucceeded windows in
  let recentWindows := firstn (Z.to_nat (rp_RecentSafetyWindows policy)) windows in
  let recent := concat recentWindows in
  let hard := any po_HardFailure recent in
  let known := negb (Nat.eqb (length recentWindows) 0) in
  let safety := known && negb (any (fun o => negb (po_SafetyGate o) || po_HardFailure o) recent) in
  let required := known && negb (any (fun o => negb (po_RequiredChecksPassed o) || negb (po_PathVerified o)) recent) in
  let eligible := safety && required && (rp_MinAttempts policy <=? attempts) && (rp_MinStableWindows policy <=? stable) in
  let ready := eligible && negb hard && (rp_ProductionMinAttempts policy <=? attempts)
               && F.leb (rp_ProductionSuccessRatio policy) ratio in
  mkScore key profileID attempts successes safety required hard lower upper ratio stable
    (countWhile someFailed windows) (countWhile (fun o => negb (po_Success o)) (rev active))
    (percentile latencies (F.ratio 1 2)) (percentile latencies (F.ratio 95 100)) routeCost eligible ready
    (match last active with Some o => po_ObservedAt o | None => T.zero end).

(** The samples stored for a key and a profile. *)
Definition samplesAt (samples : Samples) (key profileID : string) : list ProbeObservation :=
  default [] (profiles ← samples !! key; profiles !! profileID).
Definition activeSamples (r : Ranker) (key : DecisionKey) (profileID : string) (now : time) : list ProbeObservation :=
  List.filter (fresh (rp_Retention (rk_policy r)) now) (samplesAt (rk_samples r) (decisionKeyString key) profileID).

Definition scoreLocked (r : Ranker) (key : DecisionKey) (profileID : string) (routeCost : Z) (now : time) : CandidateScore :=
  match activeSamples r key profileID now with
  | [] => zero_Score key profileID routeCost
  | active => scoreOf (rk_policy r) key profileID routeCost active
  end.

(** ** Operations *)

Definition sortedByTime : list ProbeObservation -> list ProbeObservation :=
  gosort (fun x y => T.Before (po_ObservedAt x) (po_ObservedAt y)).
(** The last [n] items. *)
Definition lastSamples {A} (n : Z) (l : list A) : list A :=
  if n <? Z.of_nat (length l) then drop (length l - Z.to_nat n) l else l.

Definition putSamples (key profileID : string) (kept : list ProbeObservation) (samples : Samples) : Samples :=
  <[key := <[profileID := kept]> (default ∅ (samples !! key))]> samples.

Definition Observe (r : Ranker) (observation : ProbeObservation) : Ranker * result CandidateScore :=
  match normalizeObservation r observation with
  | Err e => (r, Err e)
  | Ok o =>
      let key := decisionKeyString (po_Key o) in
      let samples := samplesAt (rk_samples r) key (po_ProfileID o) ++ [o] in
      let cutoff := T.Add (po_ObservedAt o) (- rp_Retention (rk_policy r)) in
      let kept := sortedByTime (List.filter (fun s => negb (T.Before (po_ObservedAt s) cutoff)) samples) in
      let kept := lastSamples (rp_MaxSamplesPerProfile (rk_policy r)) kept in
      let r := with_samples (putSamples key (po_ProfileID o) kept (rk_samples r)) r in
      (r, Ok (scoreLocked r (po_Key o) (po_ProfileID o) 0 (po_ObservedAt o)))
  end.

Definition BetterCandidate (l r : CandidateScore) : bool :=
  if negb (Bool.eqb (sc_Eligible l) (sc_Eligible r)) then sc_Eligible l
  else if negb (Bool.eqb (sc_SafetyGate l) (sc_SafetyGate r)) then sc_SafetyGate l
  else if negb (Bool.eqb (sc_RequiredChecksPassed l) (sc_RequiredChecksPassed r)) then sc_RequiredChecksPassed l
  else if negb (F.eqb (sc_WilsonLowerBound l) (sc_WilsonLowerBound r))
  then F.ltb (sc_WilsonLowerBound r) (sc_WilsonLowerBound l)
  else if negb (F.eqb (sc_SuccessRatio l) (sc_SuccessRatio r)) then F.ltb (sc_SuccessRatio r) (sc_SuccessRatio l)
  else if negb (sc_StableWindows l =? sc_StableWindows r) then sc_StableWindows r <? sc_StableWindows l
  else if negb (sc_FailureStreak l =? sc_FailureStreak r) then sc_FailureStreak l <? sc_FailureStreak r
  else if negb (F.eqb (latencyOrder (sc_MedianLatencyMS l)) (latencyOrder (sc_MedianLatencyMS r)))
  then F.ltb (latencyOrder (sc_MedianLatencyMS l)) (latencyOrder (sc_MedianLatencyMS r))
  else if negb (F.eqb (latencyOrder (sc_P95LatencyMS l)) (latencyOrder (sc_P95LatencyMS r)))
  then F.ltb (latencyOrder (sc_P95LatencyMS l)) (latencyOrder (sc_P95LatencyMS r))
  else if negb (sc_RouteCost l =? sc_RouteCost r) then sc_RouteCost l <? sc_RouteCost r
  else S.ltb (sc_ProfileID l) (sc_ProfileID r).

Definition Rank (r : Ranker) (key : DecisionKey) (routeCosts : gmap string Z) (now : time) : result (list CandidateScore) :=
  '(normalized, bundle) ← normalizeDecisionKey r key;
  if any (fun kv => (kv.2 <? 0) || (MaxRouteCost <? kv.2)) (map_to_list routeCosts) then Err "route cost is out of range"
  else Ok (gosort BetterCandidate
         (map (fun id => scoreLocked r normalized id (default 0 (routeCosts !! id)) now) (bs_AllowedProfiles bundle))).

Definition Ranker_Snapshot (r : Ranker) (key : DecisionKey) (profileID : string) (now : time) : result CandidateScore :=
  '(normalized, bundle) ← normalizeDecisionKey r key;
  if containsString (bs_AllowedProfiles bundle) profileID then Ok (scoreLocked r normalized profileID 0 now)
  else Err "profile is not allowed for bundle".

(** The first loop of [Restore]. *)
Fixpoint restoreSamples (r : Ranker) (observations : list ProbeObservation) (now : time) (restored : Samples) : result Samples :=
  match observations with
  | [] => Ok restored
  | raw :: rest =>
      o ← normalizeObservation r raw;
      if T.After (po_ObservedAt o) now then Err "persisted probe observation is from the future"
      else if T.Before (po_ObservedAt o) (T.Add now (- rp_Retention (rk_policy r))) then restoreSamples r rest now restored
      else
        let key := decisionKeyString (po_Key o) in
        restoreSamples r rest now (putSamples key (po_ProfileID o) (samplesAt restored key (po_ProfileID o) ++ [o]) restored)
  end.

(** Its second loop. *)
Definition bounded (limit : Z) (restored : Samples) : Samples :=
  (fun profiles : gmap string (list ProbeObservation) => (fun l => lastSamples limit (sortedByTime l)) <$> profiles) <$> restored.

(** [None] for no error. *)
Definition Restore (r : Ranker) (observations : list ProbeObservation) (now : time) : Ranker * option string :=
  if T.IsZero now then (r, Some "Zapret ranker and current time are required")
  else if MaxPersistedObservations <? Z.of_nat (length observations) then (r, Some "persisted observation count exceeds the limit")
  else match restoreSamples r observations now ∅ with
  | Err e => (r, Some e)
  | Ok restored =>
      (with_samples (bounded (rp_MaxSamplesPerProfile (rk_policy r)) restored) r, None)
  end.

(** What [Observations] leaves: the samples that count, without empty entries. *)
Definition prune (retention : duration) (now : time) (samples : Samples) : Samples :=
  omap (fun profiles : gmap string (list ProbeObservation) =>
          let kept := omap (fun l => match List.filter (fresh retention now) l with [] => None | l => Some l end) profiles in
          if Nat.eqb (size kept) 0 then None else Some kept) samples.

Definition observationLess (x y : ProbeObservation) : bool :=
  if negb (T.Equal (po_ObservedAt x) (po_ObservedAt y)) then T.Before (po_ObservedAt x) (po_ObservedAt y)
  else S.ltb (decisionKeyString (po_Key x) +:+ "|" +:+ po_ProfileID x) (decisionKeyString (po_Key y) +:+ "|" +:+ po_ProfileID y).

Definition allSamples (samples : Samples) : list ProbeObservation :=
  concat (map (fun kv => concat (map snd (map_to_list kv.2))) (map_to_list samples)).

Definition Observations (r : Ranker) (now : time) : Ranker * result (list ProbeObservation) :=
  if T.IsZero now then (r, Err "Zapret ranker and current time are required")
  else
    let samples := prune (rp_Retention (rk_policy r)) now (rk_samples r) in
    (with_samples samples r, Ok (lastSamples MaxPersistedObservations (gosort observationLess (allSamples samples)))).
