(* ===== verification/ZapretRankingProofs.v ===== *)
(** * Ranking: what eligibility takes, and persistence

    The invariant of the stored observations; an eligible profile has earned it;
    the persisted observations restore the ranking. *)
From Stdlib Require Import ZArith Lia.
From stdpp Require Import base list strings gmap sorting.
From S2P Require Import Prelude Float64 ZapretCatalog ZapretRanking.

Open Scope Z_scope.

(** ** Stable sorting and filters *)

Section Stable.
Context {A : Type} (less : A -> A -> bool) `{SW : StrictWeak A less} (p : A -> bool).

Lemma filter_none x acc :
  less x x = false -> Forall (fun y => less x y = false) acc -> insert_back less x acc = x :: acc.
Proof. intros _ H. destruct acc as [|y acc]; [done|]. simpl. apply Forall_cons in H as [-> _]. done. Qed.

Lemma insert_back_filter x acc :
  StronglySorted (flip (le_of less)) acc ->
  List.filter p (insert_back less x acc) =
    if p x then insert_back less x (List.filter p acc) else List.filter p acc.
Proof.
  induction 1 as [|y acc Hs IH Hall]; simpl; [by destruct (p x)|].
  destruct (less x y) eqn:E.
  - simpl. rewrite IH. destruct (p y), (p x); simpl; by rewrite ?E.
  - (* Nothing behind [y] is passed either. *)
    assert (HF : Forall (fun z => less x z = false) (y :: acc)).
    { constructor; [done|]. eapply Forall_impl; [exact Hall|]. intros z Hz. unfold flip in Hz.
      exact (le_of_trans less z y x Hz E). }
    simpl. destruct (p x); [|done]. rewrite (filter_none x); [done|apply (sw_irrefl less)|].
    rewrite Forall_forall in HF |- *. intros z Hz. apply HF. destruct (p y).
    + apply elem_of_cons in Hz as [->|Hz]; [by left|right]. by apply elem_of_filter_b in Hz as [? _].
    + right. by apply elem_of_filter_b in Hz as [? _].
Qed.

Lemma foldl_insert_filter l : forall acc,
  StronglySorted (flip (le_of less)) acc ->
  List.filter p (foldl (fun a x => insert_back less x a) acc l) =
    foldl (fun a x => insert_back less x a) (List.filter p acc) (List.filter p l).
Proof.
  induction l as [|x l IH]; intros acc Hs; simpl; [done|].
  rewrite IH by (by apply insert_back_sorted). rewrite insert_back_filter by done. by destruct (p x).
Qed.

(** Sorting then selecting is selecting then sorting. *)
Lemma filter_gosort l : List.filter p (gosort less l) = gosort less (List.filter p l).
Proof.
  unfold gosort, reverse. rewrite <- !rev_alt, filter_rev, foldl_insert_filter; [done|constructor].
Qed.

(** A sorted list is left alone. *)
Lemma gosort_sorted_id l : StronglySorted (le_of less) l -> gosort less l = l.
Proof.
  intros Hs. unfold gosort. rewrite <- (reverse_involutive l) at 2. f_equal.
  assert (HG : forall acc, (forall x y, x ∈ acc -> y ∈ l -> le_of less x y) ->
            foldl (fun a x => insert_back less x a) acc l = reverse l ++ acc).
  { induction Hs as [|x l Hs IH Hall]; intros acc Hacc; simpl; [done|].
    rewrite (filter_none x acc); [|apply (sw_irrefl less)|].
    - rewrite IH, reverse_cons, <- app_assoc; [done|].
      intros y z [->|Hy]%elem_of_cons Hz; [rewrite Forall_forall in Hall; by apply Hall|].
      apply Hacc; [done|by right].
    - apply Forall_forall. intros y Hy. apply (Hacc y x); [done|by left]. }
  rewrite HG; [by rewrite app_nil_r|]. intros x y Hx. by apply not_elem_of_nil in Hx.
Qed.

Lemma StronglySorted_filter l : StronglySorted (le_of less) l -> StronglySorted (le_of less) (List.filter p l).
Proof.
  induction 1 as [|x l Hs IH Hall]; simpl; [constructor|]. destruct (p x); [|done]. constructor; [done|].
  rewrite Forall_forall in Hall |- *. intros y Hy. apply elem_of_filter_b in Hy as [Hy _]. by apply Hall.
Qed.
End Stable.

Lemma StronglySorted_drop {A} (R : relation A) n l : StronglySorted R l -> StronglySorted R (drop n l).
Proof. revert l. induction n as [|n IH]; intros l Hs; [done|]. destruct Hs; [constructor|]. by apply IH. Qed.
Lemma lastSamples_incl {A} n (l : list A) x : x ∈ lastSamples n l -> x ∈ l.
Proof. unfold lastSamples. destr_if; [|done]. intros Hx. rewrite <- (take_drop (length l - Z.to_nat n) l). apply elem_of_app. by right. Qed.
Lemma lastSamples_length {A} n (l : list A) : 0 <= n -> Z.of_nat (length (lastSamples n l)) <= n.
Proof. intros Hn. unfold lastSamples. destr_if; [rewrite length_drop|]; lia. Qed.
Lemma lastSamples_sorted {A} (R : relation A) n l : StronglySorted R l -> StronglySorted R (lastSamples n l).
Proof. unfold lastSamples. destr_if; [apply StronglySorted_drop|done]. Qed.
Lemma lastSamples_id {A} n (l : list A) : Z.of_nat (length l) <= n -> lastSamples n l = l.
Proof. unfold lastSamples. destr_if; [lia|done]. Qed.

(** ** The invariant *)

#[export] Instance StrictWeak_time : StrictWeak (fun x y => T.Before (po_ObservedAt x) (po_ObservedAt y)).
Proof. apply (StrictWeak_key_lt po_ObservedAt). Qed.

Definition inOrderOfTime : list ProbeObservation -> Prop :=
  StronglySorted (le_of (fun x y => T.Before (po_ObservedAt x) (po_ObservedAt y))).

(** What a success comes with. *)
Definition proved (o : ProbeObservation) : Prop :=
  po_Success o = true /\ po_SafetyGate o = true /\ po_RequiredChecksPassed o = true /\ po_PathVerified o = true /\
  po_HardFailure o = false.

Record stored (r : Ranker) (key id : string) (o : ProbeObservation) : Prop := {
  st_normal : normalizeObservation r o = Ok o;
  st_key : decisionKeyString (po_Key o) = key;
  st_profile : po_ProfileID o = id
}.
Record sound (r : Ranker) : Prop := {
  so_policy : validateRankingPolicy (rk_policy r) = true;
  so_stored : forall key id, Forall (stored r key id) (samplesAt (rk_samples r) key id);
  so_sorted : forall key id, inOrderOfTime (samplesAt (rk_samples r) key id);
  so_bounded : forall key id, Z.of_nat (length (samplesAt (rk_samples r) key id)) <= rp_MaxSamplesPerProfile (rk_policy r)
}.

Lemma normalize_same r o o' : normalizeObservation r o = Ok o' -> o' = o.
Proof.
  unfold normalizeObservation, mbind, result_bind. destruct (normalizeDecisionKey r (po_Key o)) as [[k b]|]; [|done].
  repeat case_match; intros HE; try done; by injection HE as ->.
Qed.
Lemma normalize_proved r o : normalizeObservation r o = Ok o -> po_Success o = true -> proved o.
Proof.
  unfold normalizeObservation, mbind, result_bind, proved. destruct (normalizeDecisionKey r (po_Key o)) as [[k b]|]; [|done].
  destruct (T.IsZero _); [done|]. destruct (_ || _); [done|]. intros HE Hs. rewrite Hs in HE |- *.
  destruct (po_HardFailure o); [done|]. simpl in HE.
  destruct (po_SafetyGate o), (po_RequiredChecksPassed o), (po_PathVerified o); try done.
Qed.
(** Only the catalogs matter. *)
Lemma normalize_catalogs r r' o :
  rk_bundles r = rk_bundles r' -> rk_profiles r = rk_profiles r' -> normalizeObservation r o = normalizeObservation r' o.
Proof. unfold normalizeObservation, normalizeDecisionKey. by intros -> ->. Qed.

Lemma stored_with samples r key id o : stored (with_samples samples r) key id o <-> stored r key id o.
Proof. split; intros [H1 H2 H3]; split; try done; by rewrite <- H1; apply normalize_catalogs. Qed.

Lemma samplesAt_put key id kept samples key' id' :
  samplesAt (putSamples key id kept samples) key' id' =
    if decide (key' = key /\ id' = id) then kept else samplesAt samples key' id'.
Proof.
  unfold samplesAt, putSamples. destruct (decide (key' = key)) as [->|Hk].
  - rewrite lookup_insert_eq. cbn [mbind option_bind]. destruct (decide (id' = id)) as [->|Hi].
    + rewrite lookup_insert_eq. by rewrite decide_True.
    + rewrite lookup_insert_ne by done. rewrite decide_False by (by intros [_ ?]).
      destruct (samples !! key) as [m|]; simpl; [done|]. by rewrite lookup_empty.
  - rewrite lookup_insert_ne by done. by rewrite decide_False by (by intros [? _]).
Qed.

Lemma policy_max p : validateRankingPolicy p = true -> 1 <= rp_MaxSamplesPerProfile p <= MaxSamplesPerProfile.
Proof. unfold validateRankingPolicy. intros H. bool_split. lia. Qed.

Lemma Observe_sound r o : sound r -> sound (Observe r o).1.
Proof.
  intros [S0 S1 S2 S3]. unfold Observe. destruct (normalizeObservation r o) as [o'|e] eqn:Eo; [|by split].
  pose proof (normalize_same _ _ _ Eo) as ->. simpl. set (kept := lastSamples _ _).
  pose proof (policy_max _ S0) as Hmax.
  split; [done|..]; simpl; intros key id; rewrite ?samplesAt_put; destruct (decide _) as [[-> ->]|_]; try done.
  - apply Forall_forall. intros x Hx. apply stored_with. apply lastSamples_incl in Hx.
    unfold sortedByTime in Hx. rewrite gosort_perm in Hx. apply elem_of_filter_b in Hx as [Hx _].
    apply elem_of_app in Hx as [Hx|Hx]; [specialize (S1 (decisionKeyString (po_Key o)) (po_ProfileID o)); rewrite Forall_forall in S1; by apply S1|].
    apply list_elem_of_singleton in Hx as ->. by split.
  - eapply Forall_impl; [apply S1|]. intros x Hx. by apply stored_with.
  - apply lastSamples_sorted, gosort_sorted. apply _.
  - apply lastSamples_length. lia.
Qed.

(** ** The samples of the other operations *)

Definition mine (key id : string) (o : ProbeObservation) : bool :=
  (decisionKeyString (po_Key o) =s key) && (po_ProfileID o =s id).

Lemma restoreSamples_spec r now obs : forall restored R,
  restoreSamples r obs now restored = Ok R ->
  Forall (fun o => normalizeObservation r o = Ok o) obs /\
  forall key id, samplesAt R key id =
    samplesAt restored key id ++ List.filter (mine key id) (List.filter (fresh (rp_Retention (rk_policy r)) now) obs).
Proof.
  induction obs as [|o obs IH]; intros restored R HE; simpl in HE.
  { injection HE as <-. split; [constructor|]. intros key id. by rewrite app_nil_r. }
  unfold mbind, result_bind in HE. destruct (normalizeObservation r o) as [o'|] eqn:Eo; [|done].
  pose proof (normalize_same _ _ _ Eo) as ->. destruct (T.After _ _) eqn:Ea; [done|].
  cbn [List.filter]. unfold fresh at 1. rewrite Ea. destruct (T.Before _ _) eqn:Eb; simpl.
  - apply IH in HE as [HF HE]. split; [by constructor|done].
  - apply IH in HE as [HF HE]. split; [by constructor|]. intros key id. rewrite HE, samplesAt_put. 
    destruct (decide (key = decisionKeyString (po_Key o) /\ id = po_ProfileID o)) as [[-> ->]|Hne].
    + unfold mine at 2; rewrite !String.eqb_refl. simpl. by rewrite <- app_assoc.
    + destruct (mine key id o) eqn:Em; [unfold mine in Em; bool_split; str_eq; by destruct Hne|done].
Qed.

Lemma samplesAt_bounded n samples key id :
  samplesAt (bounded n samples) key id = lastSamples n (sortedByTime (samplesAt samples key id)).
Proof.
  assert (Hnil : lastSamples n (sortedByTime []) = []).
  { unfold lastSamples. change (sortedByTime []) with (@nil ProbeObservation). by destruct (n <? _). }
  unfold samplesAt, bounded. rewrite lookup_fmap. destruct (samples !! key) as [m|]; simpl.
  - rewrite lookup_fmap. destruct (m !! id) as [l|]; simpl; [done|]. by rewrite Hnil.
  - by rewrite Hnil.
Qed.

Lemma samplesAt_prune retention now samples key id :
  samplesAt (prune retention now samples) key id = List.filter (fresh retention now) (samplesAt samples key id).
Proof.
  unfold samplesAt, prune. rewrite lookup_omap. destruct (samples !! key) as [m|]; cbn [mbind option_bind]; [|done].
  set (kept := omap _ m).
  assert (HK : default [] (kept !! id) = List.filter (fresh retention now) (default [] (m !! id))).
  { unfold kept. rewrite lookup_omap. destruct (m !! id) as [l|]; simpl; [|done]. by destruct (List.filter _ l). }
  rewrite <- HK. destruct (Nat.eqb_spec (size kept) 0) as [E|E]; [|done].
  apply map_size_empty_inv in E. by rewrite E.
Qed.

Lemma Restore_sound r obs now : sound r -> sound (Restore r obs now).1.
Proof.
  intros HS. unfold Restore. destruct (T.IsZero now); [done|]. destruct (_ <? _); [done|].
  destruct (restoreSamples r obs now ∅) as [R|e] eqn:ER; [|done]. simpl. destruct HS as [S0 _ _ _].
  apply restoreSamples_spec in ER as [HF HR]. pose proof (policy_max _ S0) as Hmax.
  split; simpl; [done|..]; intros key id; rewrite ?samplesAt_bounded.
  - apply Forall_forall. intros x Hx. apply stored_with. apply lastSamples_incl in Hx.
    unfold sortedByTime in Hx. rewrite gosort_perm, HR in Hx. apply elem_of_app in Hx as [Hx|Hx]; [by apply not_elem_of_nil in Hx|].
    apply elem_of_filter_b in Hx as [Hx Hm]. apply elem_of_filter_b in Hx as [Hx _]. unfold mine in Hm. bool_split. str_eq.
    rewrite Forall_forall in HF. split; [by apply HF|done..].
  - apply lastSamples_sorted, gosort_sorted. apply _.
  - apply lastSamples_length. lia.
Qed.

Lemma Observations_sound r now : sound r -> sound (Observations r now).1.
Proof.
  intros [S0 S1 S2 S3]. unfold Observations. destruct (T.IsZero now); [by split|]. simpl.
  split; simpl; [done|..]; intros key id; rewrite ?samplesAt_prune.
  - apply Forall_forall. intros x Hx. apply stored_with. apply elem_of_filter_b in Hx as [Hx _].
    specialize (S1 key id). rewrite Forall_forall in S1. by apply S1.
  - apply StronglySorted_filter. apply S2.
  - pose proof (filter_length_le (fresh (rp_Retention (rk_policy r)) now) (samplesAt (rk_samples r) key id)). specialize (S3 key id). lia.
Qed.

(** The rankers a program reaches. *)
Inductive reachable : Ranker -> Prop :=
| reach_new bundles profiles policy r : NewRanker bundles profiles policy = Some r -> reachable r
| reach_observe r o : reachable r -> reachable (Observe r o).1
| reach_restore r obs now : reachable r -> reachable (Restore r obs now).1
| reach_observations r now : reachable r -> reachable (Observations r now).1.

Lemma reachable_sound r : reachable r -> sound r.
Proof.
  induction 1 as [bundles profiles policy r HE|r o _ IH|r obs now _ IH|r now _ IH];
    [|by apply Observe_sound|by apply Restore_sound|by apply Observations_sound].
  unfold NewRanker in HE. destruct (validateRankingPolicy policy) eqn:Ep; [|done]. injection HE as <-. pose proof (policy_max _ Ep).
  split; simpl; [done|intros; constructor..|]. intros key id. unfold samplesAt. rewrite lookup_empty. simpl. lia.
Qed.

(** ** Persistence *)

(** Selecting the block of one key out of a list of blocks. *)
Lemma filter_blocks {X B} (L : list (string * X)) (blk : X -> list B) (p : B -> bool) k res :
  NoDup L.*1 -> (forall k' x, (k', x) ∈ L -> List.filter p (blk x) = if decide (k' = k) then res x else []) ->
  List.filter p (concat (map (fun kv => blk kv.2) L)) =
    match list_to_map (M := gmap string X) L !! k with Some x => res x | None => [] end.
Proof.
  induction L as [|[k' x] L IH]; intros Hnd Hblk; simpl; [by rewrite lookup_empty|].
  apply NoDup_cons in Hnd as [Hk Hnd]. rewrite List.filter_app, IH; [|done|intros; apply Hblk; by right].
  rewrite (Hblk k' x) by left. destruct (decide (k' = k)) as [->|Hne].
  - rewrite lookup_insert_eq. rewrite (not_elem_of_list_to_map_1 _ _ Hk). by rewrite app_nil_r.
  - by rewrite lookup_insert_ne.
Qed.

Lemma filter_all {A} (p : A -> bool) l : Forall (fun x => p x = true) l -> List.filter p l = l.
Proof. induction 1 as [|x l Hx _ IH]; simpl; [done|]. by rewrite Hx, IH. Qed.
Lemma filter_nothing {A} (p : A -> bool) l : Forall (fun x => p x = false) l -> List.filter p l = [].
Proof. induction 1 as [|x l Hx _ IH]; simpl; [done|]. by rewrite Hx. Qed.

Lemma mine_true key id o : mine key id o = true <-> decisionKeyString (po_Key o) = key /\ po_ProfileID o = id.
Proof. unfold mine. rewrite andb_true_iff, !String.eqb_eq. done. Qed.

Lemma mine_allSamples samples key id :
  (forall k i, Forall (fun o => mine k i o = true) (samplesAt samples k i)) ->
  List.filter (mine key id) (allSamples samples) = samplesAt samples key id.
Proof.
  intros Hkeyed. unfold allSamples.
  assert (HB : forall k m, samples !! k = Some m ->
    List.filter (mine key id) (concat (map snd (map_to_list m))) = if decide (k = key) then default [] (m !! id) else []).
  { intros k m Hm.
    assert (HM : forall i l, m !! i = Some l -> Forall (fun o => mine k i o = true) l).
    { intros i l Hl. specialize (Hkeyed k i). unfold samplesAt in Hkeyed. rewrite Hm in Hkeyed. simpl in Hkeyed.
      by rewrite Hl in Hkeyed. }
    rewrite (filter_blocks (map_to_list m) (fun l => l) (mine key id) id (fun l => if decide (k = key) then l else [])).
    - rewrite list_to_map_to_list. destruct (m !! id); simpl; [done|by destruct (decide _)].
    - apply NoDup_fst_map_to_list.
    - intros i l Hl. apply elem_of_map_to_list in Hl. specialize (HM i l Hl).
      destruct (decide (i = id)) as [->|Hi]; [destruct (decide (k = key)) as [->|Hk]; [by apply filter_all|]|];
        (apply filter_nothing; eapply Forall_impl; [exact HM|]; intros o Ho; apply not_true_iff_false; rewrite mine_true in *; naive_solver). }
  rewrite (filter_blocks (map_to_list samples) (fun m => concat (map snd (map_to_list m))) (mine key id) key (fun m => default [] (m !! id))).
  - rewrite list_to_map_to_list. unfold samplesAt. by destruct (samples !! key).
  - apply NoDup_fst_map_to_list.
  - intros k m Hm. apply HB. by apply elem_of_map_to_list.
Qed.

#[export] Instance StrictWeak_observationLess : StrictWeak observationLess.
Proof.
  apply (StrictWeak_ext (then_by (same_z po_ObservedAt) (key_lt po_ObservedAt)
           (key_slt (fun o => decisionKeyString (po_Key o) +:+ "|" +:+ po_ProfileID o)))).
  - intros x y. unfold observationLess, then_by, same_z, T.Equal. by destruct (_ =? _).
  - apply StrictWeak_then_by; auto with flint.
Qed.

Lemma restoreSamples_ok r now obs : forall restored,
  Forall (fun o => normalizeObservation r o = Ok o /\ po_ObservedAt o <= now) obs ->
  exists R, restoreSamples r obs now restored = Ok R.
Proof.
  induction obs as [|o obs IH]; intros restored; [by eexists|]. intros [[Ho Hf] Hobs]%Forall_cons. simpl.
  unfold mbind, result_bind. rewrite Ho. unfold T.After. destruct (now <? po_ObservedAt o) eqn:E; [lia|].
  destruct (T.Before _ _); by apply IH.
Qed.

Lemma elem_allSamples samples o : o ∈ allSamples samples -> exists key id, o ∈ samplesAt samples key id.
Proof.
  unfold allSamples. intros (l & Hl & Ho)%list_elem_of_In%in_concat.
  apply in_map_iff in Hl as ([key m] & <- & Hm%list_elem_of_In). apply in_concat in Ho as (l & Hl & Ho). simpl in Hl.
  apply in_map_iff in Hl as ([id l'] & <- & Hl'%list_elem_of_In). exists key, id. apply elem_of_map_to_list in Hm, Hl'.
  unfold samplesAt. rewrite Hm. simpl. rewrite Hl'. by apply list_elem_of_In.
Qed.

Lemma sound_mine r key id : sound r -> Forall (fun o => mine key id o = true) (samplesAt (rk_samples r) key id).
Proof. intros HS. eapply Forall_impl; [apply (so_stored _ HS)|]. intros o [_ H2 H3]. by apply mine_true. Qed.

Lemma filter_comm {A} (p q : A -> bool) l : List.filter p (List.filter q l) = List.filter q (List.filter p l).
Proof. induction l as [|x l IH]; [done|]. simpl. destruct (p x) eqn:Ep, (q x) eqn:Eq; simpl; by rewrite ?Ep, ?Eq, IH. Qed.

(** The samples [Restore] puts in place of those [Observations] returned. *)
Lemma restored_samples r r0 now later obs r' :
  sound r -> rk_bundles r0 = rk_bundles r -> rk_profiles r0 = rk_profiles r -> rk_policy r0 = rk_policy r ->
  Observations r now = (r', Ok obs) -> Z.of_nat (length (allSamples (rk_samples r'))) <= MaxPersistedObservations ->
  now <= later -> T.IsZero later = false ->
  exists r2, Restore r0 obs later = (r2, None) /\ rk_bundles r2 = rk_bundles r /\ rk_policy r2 = rk_policy r /\
    forall key id, samplesAt (rk_samples r2) key id =
      List.filter (fresh (rp_Retention (rk_policy r)) later) (samplesAt (rk_samples r') key id).
Proof.
  intros HS Eb Ep Eq HO Hlen Hlater Ez. pose proof (Observations_sound r now HS) as HS'. rewrite HO in HS'. simpl in HS'.
  unfold Observations in HO. destruct (T.IsZero now) eqn:Enow; [done|]. injection HO as Hr Hobs.
  rewrite lastSamples_id in Hobs by (rewrite gosort_perm; by rewrite <- Hr in Hlen).
  assert (Hall : Forall (fun o => normalizeObservation r0 o = Ok o /\ po_ObservedAt o <= later) obs).
  { apply Forall_forall. intros o Ho. rewrite <- Hobs, gosort_perm in Ho. apply elem_allSamples in Ho as (key & id & Ho).
    rewrite samplesAt_prune in Ho. apply elem_of_filter_b in Ho as [Ho Hf].
    assert (po_ObservedAt o <= now) by (unfold fresh, T.After in Hf; bool_split; lia). split; [|lia].
    rewrite (normalize_catalogs r0 r) by done. pose proof (so_stored _ HS key id) as Hst. rewrite Forall_forall in Hst. by destruct (Hst _ Ho). }
  destruct (restoreSamples_ok r0 later obs ∅ Hall) as [R HR]. unfold Restore. rewrite Ez.
  rewrite (proj2 (Z.ltb_ge _ _)); [|rewrite <- Hobs, gosort_perm; by rewrite <- Hr in Hlen]. rewrite HR. eexists. split; [done|]. simpl.
  split; [done|]. split; [done|]. intros key id. apply restoreSamples_spec in HR as [_ HR]. rewrite samplesAt_bounded, HR, Eq.
  rewrite <- Hobs, !filter_gosort by apply _. rewrite filter_comm, mine_allSamples by (intros k i; rewrite <- Hr in HS'; by apply (sound_mine _ _ _ HS')).
  replace (rk_samples r') with (prune (rp_Retention (rk_policy r)) now (rk_samples r)) by (by rewrite <- Hr).
  set (l0 := samplesAt (prune _ _ _) key id). set (l := List.filter _ l0).
  assert (Hl : Forall (fun o => mine key id o = true) l).
  { rewrite Forall_forall. intros o Ho. apply elem_of_filter_b in Ho as [Ho _]. rewrite <- Hr in HS'.
    pose proof (sound_mine _ key id HS') as Hm. rewrite Forall_forall in Hm. by apply Hm. }
  assert (Hsorted : inOrderOfTime l) by (rewrite <- Hr in HS'; apply StronglySorted_filter, (so_sorted _ HS')).
  assert (Hb : Z.of_nat (length l) <= rp_MaxSamplesPerProfile (rk_policy r)).
  { rewrite <- Hr in HS'. pose proof (so_bounded _ HS' key id) as Hb. simpl in Hb. fold l0 in Hb.
    pose proof (filter_length_le (fresh (rp_Retention (rk_policy r)) later) l0). fold l in H. lia. }
  change (samplesAt ∅ key id) with (@nil ProbeObservation). simpl.
  rewrite (gosort_ext observationLess (fun x y => T.Before (po_ObservedAt x) (po_ObservedAt y)) l).
  - rewrite !(gosort_sorted_id _ l) by done. unfold sortedByTime. rewrite (gosort_sorted_id _ l) by done. by apply lastSamples_id.
  - rewrite Forall_forall in Hl. intros x y Hx Hy. apply Hl, mine_true in Hx as [Hx1 Hx2]. apply Hl, mine_true in Hy as [Hy1 Hy2].
    unfold observationLess, T.Equal, T.Before. destruct (Z.eqb_spec (po_ObservedAt x) (po_ObservedAt y)) as [E|E]; simpl; [|done].
    rewrite Hx1, Hx2, Hy1, Hy2, ltb_irrefl, E. symmetry. apply Z.ltb_irrefl.
Qed.

(** Later rankings are those of the ranker that was saved. *)
Lemma fresh_later retention now later t o :
  now <= later <= t -> po_ObservedAt o <= now -> fresh retention t o = true -> fresh retention later o = true.
Proof. unfold fresh, T.After, T.Before, T.Add. intros Ht Ho Hf. bool_split. apply andb_true_iff. rewrite !negb_true_iff. lia. Qed.

Lemma Rank_same r r' key costs now :
  rk_bundles r = rk_bundles r' -> rk_policy r = rk_policy r' ->
  (forall id, activeSamples r key id now = activeSamples r' key id now) -> Rank r key costs now = Rank r' key costs now.
Proof.
  intros Eb Ep Hs. unfold Rank, normalizeDecisionKey. rewrite Eb. destruct (Lookup _ _) as [b|]; [|done].
  destruct (negb _); [done|]. destruct (_ || _); [done|]. destruct (negb _); [done|]. unfold mbind, result_bind.
  destruct (any _ _); [done|]. do 2 f_equal. apply map_ext. intros id. unfold scoreLocked. by rewrite Hs, Ep.
Qed.

(** The persisted observations restore the ranking.  For a ranker of any
    history, restoring what [Observations] returned (when no more than the 4096
    it keeps) into a ranker with the same catalogs and policy succeeds, and every
    ranking is afterwards the one of the ranker that was saved: at the time of the
    snapshot the one before it, and at any time the one after it. *)
Theorem observations_restore r r0 now obs r' :
  reachable r -> rk_bundles r0 = rk_bundles r -> rk_profiles r0 = rk_profiles r -> rk_policy r0 = rk_policy r ->
  Observations r now = (r', Ok obs) -> Z.of_nat (length (allSamples (rk_samples r'))) <= MaxPersistedObservations ->
  exists r2, Restore r0 obs now = (r2, None) /\ forall key costs,
    Rank r2 key costs now = Rank r key costs now /\ forall t, Rank r2 key costs t = Rank r' key costs t.
Proof.
  intros HR Eb Ep Eq HO Hlen. apply reachable_sound in HR.
  assert (Ez : T.IsZero now = false) by (unfold Observations in HO; by destruct (T.IsZero now)).
  destruct (restored_samples r r0 now now obs r' HR Eb Ep Eq HO Hlen (Z.le_refl _) Ez) as (r2 & H2 & Eb2 & Ep2 & Hs). exists r2. split; [done|].
  unfold Observations in HO. rewrite Ez in HO. injection HO as <- _. simpl in Hs.
  assert (Hkept : forall key id, samplesAt (rk_samples r2) key id =
    samplesAt (prune (rp_Retention (rk_policy r)) now (rk_samples r)) key id).
  { intros key id. rewrite Hs. apply filter_all, Forall_forall. intros o Ho. rewrite samplesAt_prune in Ho.
    by apply elem_of_filter_b in Ho as [_ ?]. }
  intros key costs. split.
  - apply Rank_same; [done|done|]. intros id. unfold activeSamples. rewrite Hkept, Ep2, samplesAt_prune.
    apply filter_all, Forall_forall. intros o Ho. by apply elem_of_filter_b in Ho as [_ ?].
  - intros t. apply Rank_same; [done|done|]. intros id. unfold activeSamples. by rewrite Hkept, Ep2.
Qed.

(** Restored at any later time, the observations give the later rankings. *)
Lemma restored_rankings r r0 now later obs r' :
  reachable r -> rk_bundles r0 = rk_bundles r -> rk_profiles r0 = rk_profiles r -> rk_policy r0 = rk_policy r ->
  Observations r now = (r', Ok obs) -> Z.of_nat (length (allSamples (rk_samples r'))) <= MaxPersistedObservations ->
  now <= later -> T.IsZero later = false ->
  exists r2, Restore r0 obs later = (r2, None) /\ forall key costs t, later <= t -> Rank r2 key costs t = Rank r' key costs t.
Proof.
  intros HR Eb Ep Eq HO Hlen Hl Ez. apply reachable_sound in HR.
  destruct (restored_samples r r0 now later obs r' HR Eb Ep Eq HO Hlen Hl Ez) as (r2 & H2 & Eb2 & Ep2 & Hs). exists r2. split; [done|].
  unfold Observations in HO. destruct (T.IsZero now); [done|]. injection HO as <- _. simpl in Hs.
  intros key costs t Ht. apply Rank_same; [done|done|]. intros id. unfold activeSamples. rewrite Hs, Ep2. simpl.
  rewrite filter_comm. apply filter_all, Forall_forall. intros o Ho. apply elem_of_filter_b in Ho as [Ho Hf].
  rewrite samplesAt_prune in Ho. apply elem_of_filter_b in Ho as [_ Hn].
  apply (fresh_later _ now later t); [done| |done]. unfold fresh, T.After in Hn. bool_split. lia.
Qed.

(** ** Eligibility *)

#[export] Instance StrictWeak_After : StrictWeak T.After.
Proof. apply (StrictWeak_ext (key_gt id)); [done|]. apply StrictWeak_key_gt. Qed.

Lemma windowStarts_spec window samples : forall starts, NoDup starts ->
  NoDup (windowStarts window samples starts) /\
  forall x, x ∈ windowStarts window samples starts <->
    x ∈ starts \/ exists o, o ∈ samples /\ T.Truncate (po_ObservedAt o) window = x.
Proof.
  induction samples as [|o samples IH]; intros starts Hnd; simpl.
  { split; [done|]. intros x. split; [by left|]. intros [?|(o & Ho & _)]; [done|by apply not_elem_of_nil in Ho]. }
  set (s := T.Truncate (po_ObservedAt o) window).
  assert (HN : NoDup (if any (Z.eqb s) starts then starts else starts ++ [s]) /\
               forall x, x ∈ (if any (Z.eqb s) starts then starts else starts ++ [s]) <-> x ∈ starts \/ x = s).
  { destruct (any (Z.eqb s) starts) eqn:Ea.
    - apply any_true in Ea as (y & Hy & E%Z.eqb_eq). subst y. split; [done|]. intros x. split; [by left|by intros [| ->]].
    - split; [|intros x; rewrite elem_of_app, list_elem_of_singleton; done].
      apply NoDup_app. split; [done|]. split; [|apply NoDup_singleton].
      intros x Hx ->%list_elem_of_singleton. pose proof (proj1 (any_false _ _) Ea s Hx) as E. by rewrite Z.eqb_refl in E. }
  destruct HN as [Hn He]. destruct (IH _ Hn) as [I1 I2]. split; [done|]. intros x. rewrite I2, He. split.
  - intros [[?| ->]|(o' & Ho' & E)]; [by left|right; exists o; split; [by left|done]|right; exists o'; split; [by right|done]].
  - intros [?|(o' & [->|Ho']%elem_of_cons & E)]; [by left; left|by left; right|right; by exists o'].
Qed.

Lemma countWhile_prefix {A} (p : A -> bool) l : forall n,
  Z.of_nat n <= countWhile p l -> Forall (fun x => p x = true) (firstn n l) /\ (n <= length l)%nat.
Proof.
  induction l as [|x l IH]; intros [|n] Hn; cbn [countWhile firstn length] in *;
    [split; [apply Forall_nil_2|lia]|lia|split; [apply Forall_nil_2|lia]|].
  destruct (p x) eqn:E; [|lia]. destruct (IH n) as [H1 H2]; [lia|]. split; [by constructor|lia].
Qed.

(** The latest [n] windows with samples and what came in them. *)
Definition latestWindows (policy : RankingPolicy) (active : list ProbeObservation) (starts : list time) : Prop :=
  NoDup starts /\ Forall (fun s => exists o, o ∈ active /\ T.Truncate (po_ObservedAt o) (rp_WindowDuration policy) = s) starts.

Lemma stable_windows policy active n :
  Z.of_nat n <= countWhile allSucceeded (windowsOf (rp_WindowDuration policy) active) ->
  exists starts, length starts = n /\ latestWindows policy active starts /\
    forall o s, o ∈ active -> s ∈ starts -> s <= T.Truncate (po_ObservedAt o) (rp_WindowDuration policy) -> po_Success o = true.
Proof.
  intros Hn. unfold windowsOf in Hn. set (S := gosort T.After _) in Hn.
  destruct (windowStarts_spec (rp_WindowDuration policy) active [] (NoDup_nil_2)) as [Hnd Hin].
  assert (HS : NoDup S) by (unfold S; by rewrite gosort_perm).
  assert (HSin : forall x, x ∈ S <-> exists o, o ∈ active /\ T.Truncate (po_ObservedAt o) (rp_WindowDuration policy) = x).
  { intros x. unfold S. rewrite gosort_perm, Hin. split; [intros [Hx|?]; [by apply not_elem_of_nil in Hx|done]|by right]. }
  assert (Hsorted : StronglySorted (le_of T.After) S) by (apply gosort_sorted; apply _). clearbody S. clear Hnd Hin.
  apply countWhile_prefix in Hn as [Hf Hlen]. rewrite length_map in Hlen. rewrite firstn_map, Forall_map in Hf.
  exists (firstn n S). split; [apply firstn_length_le; lia|]. split; [split|].
  - rewrite <- (firstn_skipn n S) in HS. by apply NoDup_app in HS as [? _].
  - apply Forall_forall. intros s Hs. apply HSin. rewrite <- (firstn_skipn n S). apply elem_of_app. by left.
  - intros o s Ho Hs Hle. set (so := T.Truncate (po_ObservedAt o) (rp_WindowDuration policy)) in *.
    assert (Hso : so ∈ firstn n S).
    { assert (Hx : so ∈ S) by (apply HSin; by exists o). rewrite <- (firstn_skipn n S) in Hx, Hsorted, HS.
      apply elem_of_app in Hx as [?|Hx]; [done|]. apply StronglySorted_app in Hsorted as (Hbefore & _).
      specialize (Hbefore s so Hs Hx). unfold le_of, T.After in Hbefore. assert (so = s) as -> by lia. done. }
    rewrite Forall_forall in Hf. specialize (Hf so Hso). unfold allSucceeded in Hf. rewrite forallb_forall in Hf.
    apply Hf, filter_In. split; [by apply list_elem_of_In|apply Z.eqb_refl].
Qed.

(** C33: eligibility is earned.  A profile that a ranker of any history calls
    eligible has at least the required number of observations within the
    retention time, and its latest windows, at least the required number of them
    and each with an observation, hold nothing but successes with the safety gate,
    the required checks and the path proof passed and no hard failure.  One it
    calls ready for production has in addition the required number of attempts
    and the required share of successes. *)
Theorem eligible_is_earned r key profileID cost now :
  reachable r -> let s := scoreLocked r key profileID cost now in let policy := rk_policy r in
  let active := activeSamples r key profileID now in
  sc_Eligible s = true ->
  (rp_MinAttempts policy <= Z.of_nat (length active) /\
   exists starts, rp_MinStableWindows policy <= Z.of_nat (length starts) /\ latestWindows policy active starts /\
     forall o start, o ∈ active -> start ∈ starts -> start <= T.Truncate (po_ObservedAt o) (rp_WindowDuration policy) -> proved o) /\
  (sc_ProductionReady s = true ->
   rp_ProductionMinAttempts policy <= Z.of_nat (length active) /\
   F.leb (rp_ProductionSuccessRatio policy)
     (F.div (F.of_Z (Z.of_nat (length (List.filter po_Success active)))) (F.of_Z (Z.of_nat (length active)))) = true).
Proof.
  intros HR s policy active He. apply reachable_sound in HR. subst policy. unfold s, scoreLocked in *. clear s. fold active in He |- *.
  assert (Hst : forall o, o ∈ active -> normalizeObservation r o = Ok o).
  { intros o Ho. apply elem_of_filter_b in Ho as [Ho _]. pose proof (so_stored _ HR (decisionKeyString key) profileID) as Hs.
    rewrite Forall_forall in Hs. by destruct (Hs _ Ho). }
  clearbody active. destruct active as [|o0 rest]; [done|]. set (active := o0 :: rest) in *. clearbody active.
  unfold scoreOf in *. destruct (wilsonBounds _ _ _) as [lower upper]. cbn [sc_Eligible sc_ProductionReady] in *.
  bool_split. split; [split; [lia|]|].
  - destruct (stable_windows (rk_policy r) active (Z.to_nat (rp_MinStableWindows (rk_policy r)))) as (starts & Hl & Hw & Hs).
    { pose proof (so_policy _ HR) as Hp. unfold validateRankingPolicy in Hp. bool_split. lia. }
    exists starts. split; [lia|]. split; [done|]. intros o st Ho Hin Hle. eapply normalize_proved; [by apply Hst|]. by eapply Hs.
  - intros Hready. bool_split. split; [lia|done].
Qed.
