(* ===== verification/ZapretSwitching.v ===== *)
(** * Switching between Zapret profiles

    [internal/zapret/switching.go]: the controller that decides when a service
    bundle changes its profile (hysteresis, cooldown, quarantine, manual pins) and
    the executor that runs a switch step by step and rolls it back. *)
From Stdlib Require Import ZArith Lia.
From stdpp Require Import base list strings gmap sorting.
From S2P Require Import Prelude Float64 ZapretCatalog ZapretRanking.

Open Scope Z_scope.

Definition SwitchHold : string := "HOLD".
Definition SwitchProfile : string := "SWITCH".
Definition SwitchFallback : string := "FALLBACK".
Definition SwitchDrop : string := "DROP".

Definition PinFailClosed : string := "fail_closed".
Definition PinSafeFallback : string := "safe_fallback".
Definition PinHoldLast : string := "hold_last".

Record SwitchingPolicy := mkSwitchingPolicy {
  wp_FailureThreshold : Z;
  wp_FailedWindowThreshold : Z;
  wp_ChallengerStableWindows : Z;
  wp_LatencyImprovement : float64;
  wp_Cooldown : duration;
  wp_Quarantine : duration
}.
Record ManualPin := mkPin { mp_ProfileID : string; mp_Mode : string; mp_AllowedFallbacks : list string }.
Record SwitchState := mkState {
  ss_Key : DecisionKey;
  ss_ActiveProfileID : string;
  ss_LastSwitchAt : time;
  ss_CooldownUntil : time;
  ss_Pin : option ManualPin;
  ss_QuarantinedUntil : gmap string time
}.
Record SwitchDecision := mkDecision {
  sd_Key : DecisionKey;
  sd_Action : string;
  sd_FromProfile : string;
  sd_ToProfile : string;
  sd_Reason : string;
  sd_Emergency : bool;
  sd_EvaluatedAt : time
}.
Record SwitchController := mkController { ct_policy : SwitchingPolicy; ct_states : gmap string SwitchState }.

#[export] Instance eta_SwitchState : Eta SwitchState := fun s =>
  mkState (ss_Key s) (ss_ActiveProfileID s) (ss_LastSwitchAt s) (ss_CooldownUntil s) (ss_Pin s) (ss_QuarantinedUntil s).
Definition set_ss_ActiveProfileID v (s : SwitchState) : SwitchState := ltac:(assign s ss_ActiveProfileID v).
Definition set_ss_LastSwitchAt v (s : SwitchState) : SwitchState := ltac:(assign s ss_LastSwitchAt v).
Definition set_ss_CooldownUntil v (s : SwitchState) : SwitchState := ltac:(assign s ss_CooldownUntil v).
Definition set_ss_Pin v (s : SwitchState) : SwitchState := ltac:(assign s ss_Pin v).
Definition set_ss_QuarantinedUntil v (s : SwitchState) : SwitchState := ltac:(assign s ss_QuarantinedUntil v).

Definition DefaultSwitchingPolicy : SwitchingPolicy :=
  mkSwitchingPolicy 3 2 3 (F.ratio 20 100) (30 * minute) (6 * hour).

(** ** Validation; [true] for no error *)

Definition validateSwitchingPolicy (p : SwitchingPolicy) : bool :=
  negb ((wp_FailureThreshold p <? 1) || (10 <? wp_FailureThreshold p)
        || (wp_FailedWindowThreshold p <? 1) || (10 <? wp_FailedWindowThreshold p)
        || (wp_ChallengerStableWindows p <? 1) || (10 <? wp_ChallengerStableWindows p))
  && negb (F.ltb (wp_LatencyImprovement p) (F.ratio 5 100) || F.ltb (F.ratio 75 100) (wp_LatencyImprovement p)
           || (wp_Cooldown p <? minute) || (24 * hour <? wp_Cooldown p)
           || (wp_Quarantine p <? minute) || (7 * 24 * hour <? wp_Quarantine p)).

Definition NewSwitchController (policy : SwitchingPolicy) : option SwitchController :=
  if validateSwitchingPolicy policy then Some (mkController policy ∅) else None.

Definition validateManualPin (pin : ManualPin) : bool :=
  profileIDPattern (mp_ProfileID pin)
  && containsString [PinFailClosed; PinSafeFallback; PinHoldLast] (mp_Mode pin)
  && forallb (fun id => profileIDPattern id && (id <>s mp_ProfileID pin)) (mp_AllowedFallbacks pin)
  && bool_decide (NoDup (mp_AllowedFallbacks pin))
  && negb ((mp_Mode pin <>s PinSafeFallback) && negb (bool_decide (mp_AllowedFallbacks pin = []))).

(** [!sort.SliceIsSorted]: some element is less than the one before it. *)
Fixpoint sliceIsSorted (l : list CandidateScore) : bool :=
  match l with
  | x :: (y :: _) as rest => negb (BetterCandidate y x) && sliceIsSorted rest
  | _ => true
  end.

Definition validateRankingForKey (key : DecisionKey) (ranking : list CandidateScore) : bool :=
  let n := Z.of_nat (length ranking) in
  negb ((n =? 0) || (MaxProfiles <? n))
  && forallb (fun s => (decisionKeyString (sc_Key s) =s decisionKeyString key) && profileIDPattern (sc_ProfileID s)) ranking
  && bool_decide (NoDup (map sc_ProfileID ranking))
  && sliceIsSorted ranking.

(** ** The states *)

Definition stateLocked (c : SwitchController) (key : DecisionKey) : SwitchState :=
  match ct_states c !! decisionKeyString key with
  | Some s => s
  | None => mkState key "" T.zero T.zero None ∅
  end.
Definition putState (key : DecisionKey) (s : SwitchState) (c : SwitchController) : SwitchController :=
  mkController (ct_policy c) (<[decisionKeyString key := s]> (ct_states c)).

Definition purgeQuarantineLocked (s : SwitchState) (now : time) : SwitchState :=
  set_ss_QuarantinedUntil (filter (fun kv : string * time => T.Before now kv.2 = true) (ss_QuarantinedUntil s)) s.

Definition quarantined (values : gmap string time) (profileID : string) (now : time) : bool :=
  match values !! profileID with Some until => T.Before now until | None => false end.

Definition bestAvailable (ranking : list CandidateScore) (quarantine : gmap string time) (exclude : string) (now : time)
    : option CandidateScore :=
  first (fun s => (sc_ProfileID s <>s exclude) && sc_Eligible s && negb (quarantined quarantine (sc_ProfileID s) now)) ranking.

(** ** Operations of the controller; [None] for an error *)

Definition SetActive (c : SwitchController) (key : DecisionKey) (profileID : string) (now : time) : option SwitchController :=
  if S.is_empty profileID || T.IsZero now then None
  else Some (putState key (stateLocked c key |> set_ss_ActiveProfileID profileID |> set_ss_LastSwitchAt now) c).

Definition SetPin (c : SwitchController) (key : DecisionKey) (pin : ManualPin) : option SwitchController :=
  if validateManualPin pin then Some (putState key (set_ss_Pin (Some pin) (stateLocked c key)) c) else None.
Definition ClearPin (c : SwitchController) (key : DecisionKey) : SwitchController :=
  putState key (set_ss_Pin None (stateLocked c key)) c.

Definition zero_Key : DecisionKey := mkKey "" "" 0 "" "".

(** [score, ok := byID[id]] *)
Definition byID (ranking : list CandidateScore) : gmap string CandidateScore :=
  foldl (fun m s => <[sc_ProfileID s := s]> m) ∅ ranking.

Definition evaluatePinLocked (s : SwitchState) (pin : ManualPin) (ranking : list CandidateScore) (now : time) : SwitchDecision :=
  let hold := mkDecision (ss_Key s) SwitchHold (ss_ActiveProfileID s) "" "manual_pin_held" false now in
  let switch to reason emergency := mkDecision (ss_Key s) SwitchProfile (ss_ActiveProfileID s) to reason emergency now in
  let drop reason := mkDecision (ss_Key s) SwitchDrop (ss_ActiveProfileID s) "" reason true now in
  let pinned := byID ranking !! mp_ProfileID pin in
  let pinnedSafe := match pinned with Some p => sc_SafetyGate p && negb (sc_RecentHardFailure p) | None => false end in
  let pinnedEligible := match pinned with Some p => sc_Eligible p | None => false end in
  if (ss_ActiveProfileID s <>s mp_ProfileID pin) && pinnedEligible && negb (quarantined (ss_QuarantinedUntil s) (mp_ProfileID pin) now)
  then switch (mp_ProfileID pin) "manual_pin_requested" false
  else if (ss_ActiveProfileID s =s mp_ProfileID pin) && pinnedSafe then hold
  else if mp_Mode pin =s PinHoldLast then (if pinnedSafe then hold else drop "pinned_profile_unsafe")
  else if mp_Mode pin =s PinSafeFallback then
    match first (fun x => containsString (mp_AllowedFallbacks pin) (sc_ProfileID x) && sc_Eligible x
                          && negb (quarantined (ss_QuarantinedUntil s) (sc_ProfileID x) now)) ranking with
    | Some x => switch (sc_ProfileID x) "pinned_safe_fallback" true
    | None => drop "pinned_fallback_unavailable"
    end
  else drop "pinned_profile_failed_closed".

(** Is the active profile failing: at once, or by its streak and windows. *)
Definition emergencyOf (current : CandidateScore) : bool := sc_RecentHardFailure current || negb (sc_SafetyGate current).
Definition degraded (p : SwitchingPolicy) (current : CandidateScore) : bool :=
  emergencyOf current || (wp_FailureThreshold p <=? sc_FailureStreak current)
  || (wp_FailedWindowThreshold p <=? sc_FailedWindows current).

(** The challenger is enough of an improvement: the reason to switch. *)
Definition reliabilityBetter (challenger current : CandidateScore) : bool :=
  F.ltb (sc_WilsonUpperBound current) (sc_WilsonLowerBound challenger).
Definition latencyBetter (p : SwitchingPolicy) (challenger current : CandidateScore) : bool :=
  F.leb (sc_WilsonLowerBound challenger) (sc_WilsonUpperBound current)
  && F.leb (sc_WilsonLowerBound current) (sc_WilsonUpperBound challenger)
  && F.ltb F.zero (sc_MedianLatencyMS current) && F.ltb F.zero (sc_MedianLatencyMS challenger)
  && F.leb (sc_MedianLatencyMS challenger) (F.mul (sc_MedianLatencyMS current) (F.sub F.one (wp_LatencyImprovement p))).

(** The decision without a pin, for the purged state. *)
Definition evaluateFree (p : SwitchingPolicy) (key : DecisionKey) (s : SwitchState) (ranking : list CandidateScore) (now : time)
    : SwitchDecision :=
  let from := ss_ActiveProfileID s in
  let hold reason := mkDecision key SwitchHold from "" reason false now in
  let switch to reason emergency := mkDecision key SwitchProfile from to reason emergency now in
  let fallback reason emergency := mkDecision key SwitchFallback from "" reason emergency now in
  match byID ranking !! from, S.is_empty from with
  | None, _ | _, true =>
      match bestAvailable ranking (ss_QuarantinedUntil s) "" now with
      | Some candidate => switch (sc_ProfileID candidate) "no_active_profile" false
      | None => fallback "no_eligible_profile" false
      end
  | Some current, false =>
      let best := bestAvailable ranking (ss_QuarantinedUntil s) from now in
      let emergency := emergencyOf current in
      if degraded p current then
        match best with
        | Some candidate =>
            switch (sc_ProfileID candidate) (if emergency then "active_profile_hard_failure" else "active_profile_degraded") emergency
        | None => fallback "active_profile_failed_without_safe_backup" emergency
        end
      else if T.Before now (ss_CooldownUntil s) then hold "cooldown_active"
      else match best with
      | None => hold "no_stable_challenger"
      | Some challenger =>
          if sc_StableWindows challenger <? wp_ChallengerStableWindows p then hold "no_stable_challenger"
          else if reliabilityBetter challenger current then switch (sc_ProfileID challenger) "challenger_more_reliable" false
          else if latencyBetter p challenger current then switch (sc_ProfileID challenger) "challenger_lower_latency" false
          else hold "challenger_improvement_too_small"
      end
  end.

Definition Evaluate (c : SwitchController) (key : DecisionKey) (ranking : list CandidateScore) (now : time)
    : option (SwitchController * SwitchDecision) :=
  if T.IsZero now || negb (validateRankingForKey key ranking) then None
  else
    let s := purgeQuarantineLocked (stateLocked c key) now in
    Some (putState key s c,
          match ss_Pin s with
          | Some pin => evaluatePinLocked s pin ranking now
          | None => evaluateFree (ct_policy c) key s ranking now
          end).

Definition RecordApplied (c : SwitchController) (d : SwitchDecision) (now : time) : result SwitchController :=
  if (sd_Action d <>s SwitchProfile) || S.is_empty (sd_ToProfile d) || T.IsZero now then Err "completed profile switch is required"
  else
    let s := stateLocked c (sd_Key d) in
    if ss_ActiveProfileID s <>s sd_FromProfile d then Err "active profile changed while switch was running"
    else Ok (putState (sd_Key d) (s |> set_ss_ActiveProfileID (sd_ToProfile d) |> set_ss_LastSwitchAt now
                                    |> set_ss_CooldownUntil (T.Add now (wp_Cooldown (ct_policy c)))) c).

Definition RecordRollback (c : SwitchController) (d : SwitchDecision) (now : time) : option SwitchController :=
  if S.is_empty (sd_ToProfile d) || T.IsZero now then None
  else
    let s := stateLocked c (sd_Key d) in
    Some (putState (sd_Key d)
            (set_ss_QuarantinedUntil (<[sd_ToProfile d := T.Add now (wp_Quarantine (ct_policy c))]> (ss_QuarantinedUntil s)) s) c).

Definition Controller_Snapshot (c : SwitchController) (key : DecisionKey) (now : time) : SwitchController * SwitchState :=
  let s := purgeQuarantineLocked (stateLocked c key) now in (putState key s c, s).

Definition Controller_Restore (c : SwitchController) (s : SwitchState) : option SwitchController :=
  if S.is_empty (dk_BundleID (ss_Key s)) || S.is_empty (ss_ActiveProfileID s) || negb (profileIDPattern (ss_ActiveProfileID s))
     || match ss_Pin s with Some pin => negb (validateManualPin pin) | None => false end
     || any (fun kv => negb (profileIDPattern kv.1) || T.IsZero kv.2) (map_to_list (ss_QuarantinedUntil s))
  then None
  else Some (putState (ss_Key s) s c).

(** ** The executor

    The applier may fail at any step, the context may be cancelled before any, and
    other callers may use the controller while a step runs. *)

Inductive call : Type := Step (name : string) | RollbackCall.
Record Applier := mkApplier {
  ap_cancelled : string -> option string;  (* [ctx.Err()] before the step *)
  ap_run : string -> option string;
  ap_rollback : option string;
  ap_meanwhile : string -> SwitchController -> SwitchController
}.
Record SwitchResult := mkSwitchResult {
  sw_Decision : SwitchDecision;
  sw_Status : string;
  sw_FailedStep : string;
  sw_Reason : string;
  sw_RollbackTried : bool;
  sw_RollbackOK : bool
}.
Definition steps : list string := ["prepare"; "validate"; "snapshot"; "apply"; "verify"; "commit"].

(** The controller, the result and the calls made. *)
Definition Execution : Type := SwitchController * SwitchResult * list call.

Definition failSwitch (c : SwitchController) (d : SwitchDecision) (a : Applier) (step cause : string) (rollback : bool) (now : time)
    (calls : list call) : Execution :=
  if negb rollback then (c, mkSwitchResult d "FAILED" step cause false false, calls)
  else
    let c := default c (RecordRollback c d now) in
    match ap_rollback a with
    | Some err => (c, mkSwitchResult d "ROLLBACK_FAILED" step (cause +:+ "; rollback: " +:+ err) true false, calls ++ [RollbackCall])
    | None => (c, mkSwitchResult d "FAILED" step cause true true, calls ++ [RollbackCall])
    end.

Fixpoint runSwitch (todo : list string) (c : SwitchController) (d : SwitchDecision) (a : Applier) (snapshotComplete : bool) (now : time)
    (calls : list call) : Execution :=
  match todo with
  | [] =>
      match RecordApplied c d now with
      | Err e => failSwitch c d a "record" e true now calls
      | Ok c => (c, mkSwitchResult d "COMMITTED" "" "" false false, calls)
      end
  | name :: rest =>
      match ap_cancelled a name with
      | Some err => failSwitch c d a name err snapshotComplete now calls
      | None =>
          let c := ap_meanwhile a name c in
          let calls := calls ++ [Step name] in
          match ap_run a name with
          | Some err => failSwitch c d a name err snapshotComplete now calls
          | None => runSwitch rest c d a (snapshotComplete || (name =s "snapshot")) now calls
          end
      end
  end.

Definition Execute (c : SwitchController) (d : SwitchDecision) (a : Applier) (now : time) : Execution :=
  if (sd_Action d <>s SwitchProfile) || S.is_empty (sd_ToProfile d) || T.IsZero now
  then (c, mkSwitchResult d "REJECTED" "" "invalid_switch_request" false false, [])
  else
    let '(c, s) := Controller_Snapshot c (sd_Key d) now in
    if ss_ActiveProfileID s <>s sd_FromProfile d
    then (c, mkSwitchResult d "REJECTED" "" "stale_switch_decision" false false, [])
    else runSwitch steps c d a false now [].
