(* ===== verification/ZapretSwitchingProofs.v ===== *)
(** * Switches are safe

    Which profile a switch may choose, what a failed switch leaves behind, and
    that the controller accepts the rankings of the ranker. *)
From Stdlib Require Import ZArith Lia.
From stdpp Require Import base list strings gmap sorting.
From S2P Require Import Prelude Float64 Tspu ZapretCatalog ZapretRanking ZapretSwitching.

Open Scope Z_scope.

(** ** The ranking by profile *)

Lemma byID_spec ranking : forall id s, NoDup (map sc_ProfileID ranking) ->
  byID ranking !! id = Some s <-> s ∈ ranking /\ sc_ProfileID s = id.
Proof.
  intros id s Hnd. unfold byID.
  assert (HG : forall (m : gmap string CandidateScore), (forall x, x ∈ ranking -> m !! sc_ProfileID x = None) ->
    foldl (fun m s => <[sc_ProfileID s := s]> m) m ranking !! id = Some s <->
    (s ∈ ranking /\ sc_ProfileID s = id) \/ m !! id = Some s).
  { induction ranking as [|x ranking IH]; intros m Hm; simpl.
    { split; [by right|]. intros [[Hs _]|?]; [by apply not_elem_of_nil in Hs|done]. }
    simpl in Hnd. apply NoDup_cons in Hnd as [Hx Hnd]. rewrite IH; [|done|].
    - rewrite elem_of_cons, lookup_insert_Some. split.
      + intros [[Hin Hid]|[[Hid ->]|[_ Hs]]]; [left; by split; [right|]|left; by split; [left|]|by right].
      + intros [[[->|Hin] Hid]|Hs]; [right; by left|by left|right; right]. split; [|done].
        intros <-. specialize (Hm x (list_elem_of_here _ _)). by rewrite Hm in Hs.
    - intros y Hy. rewrite lookup_insert_ne; [apply Hm; by right|]. intros E. apply Hx. rewrite E.
      apply list_elem_of_fmap. by exists y. }
  rewrite HG; [|intros; apply lookup_empty]. rewrite lookup_empty. split; [by intros [?|?]|by left].
Qed.

Lemma purge_quarantined s now id :
  quarantined (ss_QuarantinedUntil (purgeQuarantineLocked s now)) id now = quarantined (ss_QuarantinedUntil s) id now.
Proof.
  unfold quarantined, purgeQuarantineLocked. cbn [ss_QuarantinedUntil set_ss_QuarantinedUntil]. set (f := filter _ _).
  destruct (ss_QuarantinedUntil s !! id) as [t|] eqn:Eq.
  - destruct (T.Before now t) eqn:E.
    + assert (f !! id = Some t) as -> by (by apply map_lookup_filter_Some). done.
    + assert (f !! id = None) as ->; [|done]. apply map_lookup_filter_None. right. intros x Hx. rewrite Eq in Hx. injection Hx as <-.
      simpl. by rewrite E.
  - assert (f !! id = None) as ->; [|done]. apply map_lookup_filter_None. by left.
Qed.

Lemma validate_distinct key ranking : validateRankingForKey key ranking = true -> NoDup (map sc_ProfileID ranking).
Proof. unfold validateRankingForKey. intros H. bool_split. by apply bool_decide_eq_true in H1. Qed.

(** ** What a decision may be *)

(** A candidate of the ranking that may be switched to. *)
Definition available (s : SwitchState) (ranking : list CandidateScore) (now : time) (id : string) : Prop :=
  exists x, x ∈ ranking /\ sc_ProfileID x = id /\ sc_Eligible x = true /\ quarantined (ss_QuarantinedUntil s) id now = false.

Lemma bestAvailable_spec ranking q exclude now x :
  bestAvailable ranking q exclude now = Some x ->
  x ∈ ranking /\ sc_ProfileID x <> exclude /\ sc_Eligible x = true /\ quarantined q (sc_ProfileID x) now = false.
Proof. intros H. apply first_Some in H as [Hx H]. bool_split. str_eq. done. Qed.

(** The state and ranking justify leaving the active profile without a pin: it is
    not ranked, or failing, or the cooldown is over and the challenger is stable
    and better. *)
Definition justified (p : SwitchingPolicy) (s : SwitchState) (ranking : list CandidateScore) (now : time) (id : string) : Prop :=
  ss_ActiveProfileID s = "" \/ (forall x, x ∈ ranking -> sc_ProfileID x <> ss_ActiveProfileID s) \/
  exists current, current ∈ ranking /\ sc_ProfileID current = ss_ActiveProfileID s /\
    (degraded p current = true \/
     T.Before now (ss_CooldownUntil s) = false /\ exists challenger, challenger ∈ ranking /\ sc_ProfileID challenger = id /\
       wp_ChallengerStableWindows p <= sc_StableWindows challenger /\
       (reliabilityBetter challenger current = true \/ latencyBetter p challenger current = true)).

Lemma evaluateFree_switch p key s ranking now :
  NoDup (map sc_ProfileID ranking) -> let d := evaluateFree p key s ranking now in
  sd_Action d = SwitchProfile ->
  available s ranking now (sd_ToProfile d) /\ sd_ToProfile d <> ss_ActiveProfileID s /\
  justified p s ranking now (sd_ToProfile d).
Proof.
  intros Hnd d Ha. unfold d, evaluateFree in *. clear d.
  assert (HA : forall x exclude, bestAvailable ranking (ss_QuarantinedUntil s) exclude now = Some x ->
             available s ranking now (sc_ProfileID x) /\ sc_ProfileID x <> exclude /\ x ∈ ranking).
  { intros x exclude H. apply bestAvailable_spec in H as (Hx & Hne & He & Hq). split; [by exists x|done]. }
  destruct (byID ranking !! ss_ActiveProfileID s) as [current|] eqn:Ec.
  - apply byID_spec in Ec as [Hc Hid]; [|done]. unfold S.is_empty in *. destruct (ss_ActiveProfileID s =s "") eqn:Ee; str_eq.
    + rewrite Ee. destruct (bestAvailable ranking (ss_QuarantinedUntil s) "" now) as [x|] eqn:Eb; [|done].
      destruct (HA x "" Eb) as (Hav & Hne & Hx). split; [done|]. split; [done|by left].
    + destruct (degraded p current) eqn:Ed.
      * destruct (bestAvailable _ _ _ _) as [x|] eqn:Eb; [|done]. destruct (HA x _ Eb) as (Hav & Hne & Hx).
        split; [done|]. split; [done|]. right. right. exists current. by auto.
      * destruct (T.Before now (ss_CooldownUntil s)) eqn:Et; [done|].
        destruct (bestAvailable _ _ _ _) as [x|] eqn:Eb; [|done]. destruct (HA x _ Eb) as (Hav & Hne & Hx).
        destruct (sc_StableWindows x <? wp_ChallengerStableWindows p) eqn:Es; [done|].
        destruct (reliabilityBetter x current) eqn:Er; [|destruct (latencyBetter p x current) eqn:El; [|done]];
          (split; [done|]; split; [done|]; right; right; exists current; split_and!; [done|done|]; right; split; [done|];
           exists x; split_and!; [done|done|lia|auto]).
  - destruct (bestAvailable ranking (ss_QuarantinedUntil s) "" now) as [x|] eqn:Eb; [|done].
    destruct (HA x "" Eb) as (Hav & _ & Hx). simpl.
    assert (HN : forall y, y ∈ ranking -> sc_ProfileID y <> ss_ActiveProfileID s).
    { intros y Hy Hid. assert (Hy' : byID ranking !! ss_ActiveProfileID s = Some y) by (by apply byID_spec). by rewrite Ec in Hy'. }
    split; [done|]. split; [by apply HN|by right; left].
Qed.

(** What a pin allows. *)
Definition pinAllows (pin : ManualPin) (id : string) : Prop :=
  id = mp_ProfileID pin \/ mp_Mode pin = PinSafeFallback /\ id ∈ mp_AllowedFallbacks pin.
Definition rankedSafe (ranking : list CandidateScore) (id : string) : Prop :=
  exists x, x ∈ ranking /\ sc_ProfileID x = id /\ sc_SafetyGate x = true /\ sc_RecentHardFailure x = false.

Lemma evaluatePin_decision s pin ranking now :
  NoDup (map sc_ProfileID ranking) -> let d := evaluatePinLocked s pin ranking now in
  (sd_Action d = SwitchProfile /\ available s ranking now (sd_ToProfile d) /\ pinAllows pin (sd_ToProfile d)) \/
  (sd_Action d = SwitchHold /\ rankedSafe ranking (mp_ProfileID pin)) \/ sd_Action d = SwitchDrop.
Proof.
  intros Hnd d. unfold d, evaluatePinLocked. clear d. set (chosen := first _ ranking).
  assert (HF : mp_Mode pin = PinSafeFallback -> forall y, chosen = Some y ->
             available s ranking now (sc_ProfileID y) /\ pinAllows pin (sc_ProfileID y)).
  { intros Hm y Hy. apply first_Some in Hy as [Hy Hp]. bool_split.
    split; [by exists y|right]. split; [done|by apply containsString_true]. }
  clearbody chosen.
  set (safe := match _ with Some p => sc_SafetyGate p && _ | None => false end).
  assert (HS : safe = true -> rankedSafe ranking (mp_ProfileID pin)).
  { unfold safe. destruct (byID ranking !! _) as [x|] eqn:Ex; [|done]. apply byID_spec in Ex as [Hx Hid]; [|done].
    intros H. bool_split. by exists x. }
  clearbody safe. destruct (_ && _ && negb _) eqn:E1.
  { left. bool_split. split; [done|]. split; [|by left]. destruct (byID ranking !! _) as [x|] eqn:Ex; [|done].
    apply byID_spec in Ex as [Hx Hid]; [|done]. by exists x. }
  clear E1. destruct ((ss_ActiveProfileID s =s _) && safe) eqn:E2; [right; left; bool_split; by auto|].
  destruct (mp_Mode pin =s PinHoldLast); [destruct safe; [right; left; by auto|by right; right]|].
  destruct (mp_Mode pin =s PinSafeFallback) eqn:E4; [|by right; right]. str_eq.
  destruct chosen as [y|]; [left|by right; right]. by destruct (HF E4 y eq_refl).
Qed.

(** C31: a switch goes to a safe profile for a reason.  A decision to switch names
    a ranked profile that is eligible and not quarantined.  Without a manual pin
    it leaves the active profile, which is unknown to the ranking, failing, or
    past its cooldown with a stable and better challenger.  With a pin the target
    is the pinned profile or, in the mode for it, one of its fallbacks; nothing
    but a pinned profile that passes the safety gate is held, and no other route
    is fallen back to. *)
Theorem switch_targets_safe c key ranking now c' d :
  Evaluate c key ranking now = Some (c', d) -> let s := stateLocked c key in
  (sd_Action d = SwitchProfile ->
   available s ranking now (sd_ToProfile d) /\
   match ss_Pin s with
   | None => sd_ToProfile d <> ss_ActiveProfileID s /\ justified (ct_policy c) s ranking now (sd_ToProfile d)
   | Some pin => pinAllows pin (sd_ToProfile d)
   end) /\
  (forall pin, ss_Pin s = Some pin ->
   sd_Action d <> SwitchFallback /\ (sd_Action d = SwitchHold -> rankedSafe ranking (mp_ProfileID pin))).
Proof.
  intros HE s. unfold Evaluate in HE. destruct (_ || _) eqn:Ev; [done|]. bool_split. apply validate_distinct in H0 as Hnd.
  injection HE as _ <-. fold s. set (s' := purgeQuarantineLocked s now).
  assert (HQ : forall id, available s' ranking now id <-> available s ranking now id).
  { intros id. unfold available, s'. by rewrite purge_quarantined. }
  change (ss_Pin s') with (ss_Pin s). destruct (ss_Pin s) as [pin|].
  - destruct (evaluatePin_decision s' pin ranking now Hnd) as [(Ha & Hav & Hal)|[[Ha Hs]|Ha]]; rewrite Ha.
    + split; [intros _; by rewrite <- HQ|]. intros ? [= <-]. done.
    + split; [done|]. intros ? [= <-]. done.
    + split; [done|]. intros ? [= <-]. done.
  - split; [|done]. intros Ha. destruct (evaluateFree_switch (ct_policy c) key s' ranking now Hnd Ha) as (H1 & H2 & H3).
    split; [by apply HQ|]. split; [exact H2|exact H3].
Qed.

(** ** Failed switches *)

Lemma RecordRollback_some c d now :
  sd_ToProfile d <> "" -> now <> 0 -> exists c', RecordRollback c d now = Some c' /\
    ct_policy c' = ct_policy c /\ ss_Pin (stateLocked c' (sd_Key d)) = ss_Pin (stateLocked c (sd_Key d)) /\
    ss_QuarantinedUntil (stateLocked c' (sd_Key d)) !! sd_ToProfile d = Some (T.Add now (wp_Quarantine (ct_policy c))).
Proof.
  intros Ht Hn. unfold RecordRollback, S.is_empty, T.IsZero. destruct (sd_ToProfile d =s "") eqn:E; str_eq; [done|].
  rewrite (proj2 (Z.eqb_neq _ _) Hn). simpl. eexists. split; [done|]. split; [done|]. unfold stateLocked. simpl. rewrite lookup_insert_eq.
  split; [done|]. apply lookup_insert_eq.
Qed.

(** The target of [d] is shut out of the controller [c] until [until]. *)
Definition shutOut (c : SwitchController) (d : SwitchDecision) (until : time) : Prop :=
  forall ranking now c' d', now < until -> Evaluate c (sd_Key d) ranking now = Some (c', d') ->
    sd_Action d' = SwitchProfile -> sd_ToProfile d' <> sd_ToProfile d.

Lemma quarantined_shutOut c d until :
  ss_QuarantinedUntil (stateLocked c (sd_Key d)) !! sd_ToProfile d = Some until -> shutOut c d until.
Proof.
  intros Hq ranking now c' d' Hnow HE Ha Heq. unfold Evaluate in HE. destruct (_ || _) eqn:Ev; [done|]. bool_split.
  apply validate_distinct in H0 as Hnd. injection HE as _ <-. set (s := stateLocked c (sd_Key d)) in *.
  set (s' := purgeQuarantineLocked s now) in *.
  assert (HN : ~ available s' ranking now (sd_ToProfile d)).
  { intros (x & _ & _ & _ & Hx). unfold s' in Hx. rewrite purge_quarantined in Hx. unfold quarantined in Hx. rewrite Hq in Hx.
    unfold T.Before in Hx. lia. }
  apply HN. rewrite <- Heq. clear Heq. change (ss_Pin s') with (ss_Pin s) in *. destruct (ss_Pin s) as [pin|].
  - destruct (evaluatePin_decision s' pin ranking now Hnd) as [(_ & Hav & _)|[[Hb _]|Hb]]; [done|rewrite Hb in Ha; discriminate Ha..].
  - by apply evaluateFree_switch.
Qed.

(** The steps ran one after the other without a failure. *)
Definition ranOK (a : Applier) (names : list string) : Prop :=
  Forall (fun name => ap_cancelled a name = None /\ ap_run a name = None) names.

(** An execution that reached [done] of the steps before it ended. *)
Definition outcome (d : SwitchDecision) (a : Applier) (now : time) (quarantine : duration) (e : Execution) : Prop :=
  let '(c, r, calls) := e in
  (sw_Status r = "COMMITTED" /\ calls = map Step steps /\ ranOK a steps /\ sw_RollbackTried r = false /\
   ss_ActiveProfileID (stateLocked c (sd_Key d)) = sd_ToProfile d) \/
  (sw_Status r = "FAILED" /\ sw_RollbackTried r = false /\ RollbackCall ∉ calls /\ ~ ranOK a (firstn 3 steps) /\ Step "apply" ∉ calls) \/
  (containsString ["FAILED"; "ROLLBACK_FAILED"] (sw_Status r) = true /\ sw_RollbackTried r = true /\ ranOK a (firstn 3 steps) /\
   (sw_RollbackOK r = true <-> ap_rollback a = None) /\
   (exists before, calls = before ++ [RollbackCall] /\ RollbackCall ∉ before) /\ shutOut c d (T.Add now quarantine)).

Lemma failSwitch_early d a now q c step cause calls :
  RollbackCall ∉ calls -> ~ ranOK a (firstn 3 steps) -> Step "apply" ∉ calls ->
  outcome d a now q (failSwitch c d a step cause false now calls).
Proof. intros H1 H2 H3. right. left. by split_and!. Qed.

Lemma failSwitch_late d a now c step cause calls :
  sd_ToProfile d <> "" -> now <> 0 -> RollbackCall ∉ calls -> ranOK a (firstn 3 steps) ->
  outcome d a now (wp_Quarantine (ct_policy c)) (failSwitch c d a step cause true now calls).
Proof.
  intros Ht Hn H1 H2. unfold failSwitch. cbn [negb].
  destruct (RecordRollback_some c d now Ht Hn) as (c' & -> & Hp & _ & Hq). cbn [default].
  apply quarantined_shutOut in Hq.
  destruct (ap_rollback a) as [err|] eqn:Er; right; right; (split; [done|]; split; [done|]; split; [done|]; split; [by rewrite ?Er|]);
    (split; [by exists calls|done]).
Qed.

(** A failure before the snapshot is complete, and one after it. *)
Ltac early := apply failSwitch_early;
  [repeat (apply not_elem_of_cons; split; [done|]); apply not_elem_of_nil
  |unfold ranOK; simpl; rewrite !Forall_cons; intuition congruence
  |repeat (apply not_elem_of_cons; split; [done|]); apply not_elem_of_nil].
Ltac late Hq := rewrite <- Hq; apply failSwitch_late;
  [done|done|repeat (apply not_elem_of_cons; split; [done|]); apply not_elem_of_nil
  |unfold ranOK; simpl; rewrite !Forall_cons; split_and!; auto].

Lemma runSwitch_outcome c d a now q :
  sd_Action d = SwitchProfile -> sd_ToProfile d <> "" -> now <> 0 ->
  (forall name c, ct_policy (ap_meanwhile a name c) = ct_policy c) -> wp_Quarantine (ct_policy c) = q ->
  outcome d a now q (runSwitch steps c d a false now []).
Proof.
  intros Ha Ht Hn Hpol Hq. cbn [runSwitch steps].
  destruct (ap_cancelled a "prepare") eqn:C1; [early|]. destruct (ap_run a "prepare") eqn:R1; [early|].
  destruct (ap_cancelled a "validate") eqn:C2; [early|]. destruct (ap_run a "validate") eqn:R2; [early|].
  destruct (ap_cancelled a "snapshot") eqn:C3; [early|]. destruct (ap_run a "snapshot") eqn:R3; [early|].
  change (false || ("prepare" =s "snapshot") || ("validate" =s "snapshot") || ("snapshot" =s "snapshot")) with true.
  set (c1 := ap_meanwhile a "snapshot" _). assert (Hq1 : wp_Quarantine (ct_policy c1) = q) by (unfold c1; by rewrite !Hpol).
  clearbody c1. clear Hq. cbn [app orb].
  destruct (ap_cancelled a "apply") eqn:C4; [late Hq1|]. set (c2 := ap_meanwhile a "apply" c1).
  assert (Hq2 : wp_Quarantine (ct_policy c2) = q) by (unfold c2; by rewrite Hpol). clearbody c2.
  destruct (ap_run a "apply") eqn:R4; [late Hq2|]. destruct (ap_cancelled a "verify") eqn:C5; [late Hq2|].
  set (c3 := ap_meanwhile a "verify" c2). assert (Hq3 : wp_Quarantine (ct_policy c3) = q) by (unfold c3; by rewrite Hpol). clearbody c3.
  destruct (ap_run a "verify") eqn:R5; [late Hq3|]. destruct (ap_cancelled a "commit") eqn:C6; [late Hq3|].
  set (c4 := ap_meanwhile a "commit" c3). assert (Hq4 : wp_Quarantine (ct_policy c4) = q) by (unfold c4; by rewrite Hpol). clearbody c4.
  destruct (ap_run a "commit") eqn:R6; [late Hq4|].
  unfold RecordApplied, S.is_empty, T.IsZero. rewrite Ha, (proj2 (String.eqb_neq _ _) Ht), (proj2 (Z.eqb_neq _ _) Hn). cbn [negb orb].
  change (SwitchProfile <>s SwitchProfile) with false. cbn [orb].
  destruct (ss_ActiveProfileID _ <>s sd_FromProfile d) eqn:Ef; [late Hq4|].
  left. split_and!; [done|done|by unfold ranOK; repeat constructor|done|]. unfold stateLocked. simpl. by rewrite lookup_insert_eq.
Qed.

(** C32: a switch commits entirely or is undone.  Whatever the applier answers,
    whenever the context is cancelled and whatever else happens to the controller
    meanwhile (its policy is fixed), an execution is rejected without a call;
    or all six steps ran and the target is the active profile; or it failed before
    the snapshot was taken, and nothing was applied; or it failed after it, and
    then the rollback was asked for once and last, and until the quarantine ends
    no evaluation chooses the target again. *)
Theorem switch_commits_or_undoes c d a now :
  (forall name c, ct_policy (ap_meanwhile a name c) = ct_policy c) ->
  let e := Execute c d a now in
  (sw_Status e.1.2 = "REJECTED" /\ e.2 = []) \/ outcome d a now (wp_Quarantine (ct_policy c)) e.
Proof.
  intros Hpol e. unfold e, Execute. clear e. destruct (_ || _ || _) eqn:Ev; [by left|]. bool_split.
  unfold S.is_empty, T.IsZero in *. str_eq. cbn [Controller_Snapshot].
  destruct (_ <>s _); [by left|]. right. apply runSwitch_outcome; [done|done|lia|done|done].
Qed.

(** ** The controller accepts the rankings of the ranker *)

(** The insertion sort puts no element before one that is better, whenever the
    order is asymmetric; a ranking has at most [MaxProfiles] = 16 elements, for
    which Go sorts this way. *)
Definition asymmetric {A} (less : A -> A -> bool) : Prop := forall x y, less x y = true -> less y x = false.
Inductive stepwise {A} (less : A -> A -> bool) : list A -> Prop :=
| stepwise_nil : stepwise less []
| stepwise_one x : stepwise less [x]
| stepwise_cons x y l : less x y = false -> stepwise less (y :: l) -> stepwise less (x :: y :: l).

Section Insertion.
Context {A : Type} (less : A -> A -> bool).
Hypothesis Hasym : asymmetric less.

(** [acc] holds the last element first. *)
Lemma insert_back_stepwise x acc : stepwise less acc -> stepwise less (insert_back less x acc).
Proof.
  induction 1 as [|y|y z acc Hyz Hs IH]; simpl; [constructor|destruct (less x y) eqn:E; repeat constructor; auto|].
  destruct (less x y) eqn:E; [|by repeat constructor]. simpl in IH. destruct (less x z) eqn:E2.
  - by constructor.
  - constructor; [by apply Hasym|done].
Qed.
Lemma foldl_insert_stepwise l : forall acc, stepwise less acc -> stepwise less (foldl (fun a x => insert_back less x a) acc l).
Proof. induction l as [|x l IH]; intros acc Hs; simpl; [done|]. by apply IH, insert_back_stepwise. Qed.
End Insertion.

Lemma stepwise_sorted acc : stepwise BetterCandidate acc -> sliceIsSorted (reverse acc) = true.
Proof.
  assert (HS : forall l y x, sliceIsSorted (l ++ [y]) = true -> BetterCandidate x y = false -> sliceIsSorted (l ++ [y; x]) = true).
  { induction l as [|z l IH]; intros y x Hl Hx; simpl in *; [by rewrite Hx|].
    destruct l as [|w l]; simpl in *; bool_split; rewrite ?Hx, ?H; [done|]. simpl. apply (IH y x); [|done]. by rewrite H0. }
  induction 1 as [|x|x y acc Hxy Hs IH]; [done|done|]. rewrite !reverse_cons, <- app_assoc. rewrite reverse_cons in IH.
  by apply HS.
Qed.

Lemma eqb_sym_f x y : F.eqb x y = F.eqb y x.
Proof.
  unfold F.eqb, SpecFloat.SFeqb. destruct (F.is_nan x) eqn:Ex; [destruct x; try done; by destruct y as [[]|[]| |[] ? ?]|].
  destruct (F.is_nan y) eqn:Ey; [destruct y; try done; by destruct x as [[]|[]| |[] ? ?]|].
  rewrite !F_compare_keys by done. rewrite (Z.compare_antisym (f_class x)), (Z.compare_antisym (f_exp x)), (Z.compare_antisym (f_man x)).
  by destruct (f_class x ?= f_class y), (f_exp x ?= f_exp y), (f_man x ?= f_man y).
Qed.
Lemma ltb_asym_f x y : F.ltb x y = true -> F.ltb y x = false.
Proof.
  destruct (F.is_nan x) eqn:Ex; [destruct x; try done; by destruct y as [[]|[]| |[] ? ?]|].
  destruct (F.is_nan y) eqn:Ey; [destruct y; try done; by destruct x as [[]|[]| |[] ? ?]|].
  pose proof (flt_total id x y Ex Ey) as H1. pose proof (flt_total id y x Ey Ex) as H2. unfold key_flt, id in *.
  rewrite H1, H2. apply (sw_asym (total_flt (fun x => x))).
Qed.

Lemma BetterCandidate_asym : asymmetric BetterCandidate.
Proof.
  intros x y. unfold BetterCandidate.
  rewrite (eqb_sym_f (sc_WilsonLowerBound y)), (eqb_sym_f (sc_SuccessRatio y)), (eqb_sym_f (latencyOrder (sc_MedianLatencyMS y))),
    (eqb_sym_f (latencyOrder (sc_P95LatencyMS y))), (Z.eqb_sym (sc_StableWindows y)), (Z.eqb_sym (sc_FailureStreak y)),
    (Z.eqb_sym (sc_RouteCost y)).
  destruct (sc_Eligible x), (sc_Eligible y); simpl; try done; destruct (sc_SafetyGate x), (sc_SafetyGate y); simpl; try done;
    destruct (sc_RequiredChecksPassed x), (sc_RequiredChecksPassed y); simpl; try done;
    (destruct (negb (F.eqb (sc_WilsonLowerBound x) _)); [apply ltb_asym_f|]);
    (destruct (negb (F.eqb (sc_SuccessRatio x) _)); [apply ltb_asym_f|]);
    (destruct (negb (sc_StableWindows x =? _)); [lia|]); (destruct (negb (sc_FailureStreak x =? _)); [lia|]);
    (destruct (negb (F.eqb (latencyOrder (sc_MedianLatencyMS x)) _)); [apply ltb_asym_f|]);
    (destruct (negb (F.eqb (latencyOrder (sc_P95LatencyMS x)) _)); [apply ltb_asym_f|]);
    (destruct (negb (sc_RouteCost x =? _)); [lia|]); apply (sw_asym (key_slt sc_ProfileID)).
Qed.

Lemma gosort_isSorted l : sliceIsSorted (gosort BetterCandidate l) = true.
Proof. apply stepwise_sorted, foldl_insert_stepwise; [exact BetterCandidate_asym|constructor]. Qed.

(** The profiles a bundle allows. *)
Section Accepted.
Context (sha256 : string -> string) (toASCII : string -> option string).

Lemma addProfiles_named ps : forall m m',
  (forall k p, m !! k = Some p -> profileIDPattern k = true) -> addProfiles sha256 ps m = Ok m' ->
  forall k p, m' !! k = Some p -> profileIDPattern k = true.
Proof.
  induction ps as [|p ps IH]; intros m m' Hm HE; simpl in HE; [by injection HE as <-|].
  unfold mbind, result_bind in HE. destruct (validateProfile sha256 p) eqn:Ep; [|done]. destruct (m !! pr_ID p); [done|].
  eapply IH; [|exact HE]. intros k p' [[<- <-]|[_ Hk]]%lookup_insert_Some; [|by eapply Hm].
  unfold validateProfile in Ep. by destruct (profileIDPattern (pr_ID p)).
Qed.
Lemma NewCatalog_named ps profiles id :
  NewCatalog sha256 ps = Ok profiles -> is_Some (Catalog_Lookup profiles id) -> profileIDPattern id = true.
Proof.
  unfold NewCatalog. destruct (_ =? 0); [done|]. destruct (_ <? _); [done|]. intros HE [p Hp].
  eapply (addProfiles_named ps ∅); [|exact HE|exact Hp]. done.
Qed.

Lemma checkProfiles_spec ids profiles protocols families : forall seen,
  checkProfiles ids seen profiles protocols families = true ->
  NoDup ids /\ (forall id, id ∈ ids -> id ∉ seen) /\ Forall (fun id => is_Some (Catalog_Lookup profiles id)) ids.
Proof.
  induction ids as [|id ids IH]; intros seen HE; simpl in HE.
  { split_and!; [constructor|intros id Hin; by apply not_elem_of_nil in Hin|constructor]. }
  destruct (containsString seen id) eqn:Es; [done|]. destruct (Catalog_Lookup profiles id) as [p|] eqn:El; [|done].
  apply andb_true_iff in HE as [_ HE]. apply IH in HE as (H1 & H2 & H3). split_and!.
  - constructor; [intros Hin; by apply (H2 id Hin); left|done].
  - intros x [->|Hx]%elem_of_cons; [|intros Hs; apply (H2 x Hx); by right]. intros Hs. apply containsString_true in Hs. congruence.
  - by constructor.
Qed.

Definition allowedOK (profiles : Catalog) (b : BundleSpec) : Prop :=
  NoDup (bs_AllowedProfiles b) /\ Forall (fun id => is_Some (Catalog_Lookup profiles id)) (bs_AllowedProfiles b) /\
  0 < Z.of_nat (length (bs_AllowedProfiles b)) <= MaxProfiles.

Lemma normalizeBundle_allowed raw profiles b : normalizeBundle toASCII raw profiles = Ok b -> allowedOK profiles b.
Proof.
  unfold normalizeBundle. intros HE. destruct (negb _); [done|]. destruct (_ <>s _); [done|]. destruct (negb _); [done|].
  destruct (_ || _); [done|]. unfold mbind, result_bind in HE.
  destruct (normalizeDomains _ _ _) as [[required seen]|]; [|done]. destruct (normalizeDomains _ _ _) as [[optional seen']|]; [|done].
  destruct (normalizeProtocols _); [|done]. destruct (normalizeAllowedValues _ _) as [families|]; [|done].
  destruct (normalizeProfileIDs _ _ _ _) as [ids|] eqn:Ei; [|done]. injection HE as <-. unfold allowedOK. simpl.
  unfold normalizeProfileIDs in Ei. destruct (_ || _) eqn:En; [done|]. destruct (checkProfiles _ _ _ _ _) eqn:Ec; [|done].
  injection Ei as <-. apply checkProfiles_spec in Ec as (H1 & _ & H3). bool_split.
  assert (length (gosort S.ltb (bs_AllowedProfiles raw)) = length (bs_AllowedProfiles raw)) as -> by (by rewrite gosort_perm).
  split; [by rewrite gosort_perm|]. split; [by rewrite gosort_perm|]. lia.
Qed.

Lemma addBundles_allowed specs profiles : forall m ds m' ds',
  (forall k b, m !! k = Some b -> allowedOK profiles b) -> addBundles toASCII specs profiles m ds = Ok (m', ds') ->
  forall k b, m' !! k = Some b -> allowedOK profiles b.
Proof.
  induction specs as [|raw specs IH]; intros m ds m' ds' Hm HE; simpl in HE; [by injection HE as <- _|].
  unfold mbind, result_bind in HE. destruct (normalizeBundle toASCII raw profiles) as [b|] eqn:Eb; [|done].
  destruct (m !! bs_ID b); [done|]. eapply IH; [|exact HE].
  intros k c [[<- <-]|[_ Hc]]%lookup_insert_Some; [by eapply normalizeBundle_allowed|by eapply Hm].
Qed.
Lemma NewBundleCatalog_allowed specs profiles c k b :
  NewBundleCatalog toASCII specs profiles = Ok c -> bc_bundles c !! k = Some b -> allowedOK profiles b.
Proof.
  unfold NewBundleCatalog. intros HE. destruct (_ =? 0); [done|]. destruct (_ <? _); [done|].
  unfold mbind, result_bind in HE. destruct (addBundles _ _ _ _ _) as [[bundles ds]|] eqn:E1; [|done].
  destruct (addOwners _ _) as [owners|]; [|done]. injection HE as <-. simpl. intros Hk.
  eapply (addBundles_allowed specs profiles ∅); [done|exact E1|exact Hk].
Qed.

Lemma scoreLocked_key r key id cost now : sc_Key (scoreLocked r key id cost now) = key /\ sc_ProfileID (scoreLocked r key id cost now) = id.
Proof. unfold scoreLocked. destruct (activeSamples r key id now); [done|]. unfold scoreOf. by destruct (wilsonBounds _ _ _). Qed.

(** The controller accepts the rankings of the ranker.  With catalogs that
    [NewCatalog] and [NewBundleCatalog] built, a ranking that [Rank] returns holds
    the score of each profile the bundle allows, once, and [Evaluate] never
    rejects it for its key. *)
Theorem rank_accepted ps specs profiles bundles policy samples key costs now scores :
  NewCatalog sha256 ps = Ok profiles -> NewBundleCatalog toASCII specs profiles = Ok bundles ->
  let r := mkRanker bundles profiles policy samples in
  Rank r key costs now = Ok scores ->
  (exists b, Lookup bundles (dk_BundleID key) = Some b /\
     scores ≡ₚ map (fun id => scoreLocked r key id (default 0 (costs !! id)) now) (bs_AllowedProfiles b)) /\
  forall c t, t <> T.zero -> is_Some (Evaluate c key scores t).
Proof.
  intros Hp Hb r HE. unfold Rank, mbind, result_bind in HE. destruct (normalizeDecisionKey r key) as [[k b]|] eqn:En; [|done].
  unfold normalizeDecisionKey in En. simpl rk_bundles in En. destruct (Lookup bundles (dk_BundleID key)) as [b'|] eqn:El; [|done].
  destruct (negb _); [done|]. destruct (_ || _); [done|]. destruct (negb _); [done|]. injection En as <- <-.
  destruct (any _ _); [done|]. injection HE as <-.
  destruct (NewBundleCatalog_allowed specs profiles bundles (dk_BundleID key) b' Hb El) as (Hnd & Hall & Hlen).
  split; [exists b'; split; [done|by rewrite gosort_perm]|]. intros c t Ht. unfold Evaluate, T.IsZero.
  rewrite (proj2 (Z.eqb_neq t 0) Ht). set (scores := map _ _).
  assert (HV : validateRankingForKey key (gosort BetterCandidate scores) = true); [|rewrite HV; by eexists].
  assert (Hids : map sc_ProfileID scores = bs_AllowedProfiles b').
  { unfold scores. rewrite map_map. rewrite <- (map_id (bs_AllowedProfiles b')) at 2. apply map_ext. intros id. apply scoreLocked_key. }
  unfold validateRankingForKey. rewrite gosort_isSorted, andb_true_r. repeat rewrite andb_true_iff. split_and!.
  - assert (length (gosort BetterCandidate scores) = length scores) as -> by (by rewrite gosort_perm).
    unfold scores. rewrite length_map. apply negb_true_iff. lia.
  - apply forallb_forall. intros x Hx. apply list_elem_of_In in Hx. rewrite gosort_perm in Hx.
    assert (Hin : sc_ProfileID x ∈ bs_AllowedProfiles b') by (rewrite <- Hids; apply list_elem_of_fmap; by exists x).
    rewrite Forall_forall in Hall. apply andb_true_iff. split; [|by apply (NewCatalog_named ps profiles _ Hp), Hall].
    apply list_elem_of_fmap in Hx as (id & -> & _). rewrite (proj1 (scoreLocked_key r key id _ now)). apply String.eqb_refl.
  - apply bool_decide_eq_true. assert (HP : map sc_ProfileID (gosort BetterCandidate scores) ≡ₚ map sc_ProfileID scores) by (by rewrite gosort_perm).
    by rewrite HP, Hids.
Qed.
End Accepted.
