(* ===== verification/ZapretScheduler.v ===== *)
(** * The schedule of Zapret probes

    [internal/zapret/scheduler.go]: leases for probes within a daily budget, due
    after an interval with a jitter fixed per profile, and confirmations of a
    degraded profile; with the checkpoint of [internal/api/adaptive_probe.go] that
    carries the budget over a restart.  Every method runs under the scheduler's
    lock and is one step.  Behind the definitions, the bounds on what is leased. *)
From Stdlib Require Import ZArith Lia Sorted.
From stdpp Require Import base list strings gmap sorting pretty.
From S2P Require Import Prelude Float64 ZapretCatalog ZapretRanking ZapretRankingProofs ZapretSwitching ZapretSwitchingProofs.

Open Scope Z_scope.

Record ProbeSchedulePolicy := mkSchedulePolicy {
  pp_ActiveInterval : duration;
  pp_BackupInterval : duration;
  pp_OtherInterval : duration;
  pp_ConfirmationWindow : duration;
  pp_ConfirmationAttempts : Z;
  pp_ProbeDeadline : duration;
  pp_MaxConcurrent : Z;
  pp_MaxDailyProbes : Z;
  pp_JitterFraction : float64
}.
Record ScheduledProbe := mkProbe {
  pb_Token : string;
  pb_Key : DecisionKey;
  pb_ProfileID : string;
  pb_Class : string;
  pb_ScheduledAt : time;
  pb_Deadline : time
}.
Record confirmationState := mkConfirmation { cf_remaining : Z; cf_deadline : time }.
Record ProbeScheduler := mkScheduler {
  sr_policy : ProbeSchedulePolicy;
  sr_lastCompleted : gmap string time;
  sr_inFlight : gmap string ScheduledProbe;
  sr_confirmations : gmap string confirmationState;
  sr_budgetDay : time;
  sr_budgetUsed : Z;
  sr_sequence : Z  (* uint64 *)
}.
Record ProbeSchedulerState := mkSchedulerState {
  pst_LastCompleted : gmap string time;
  pst_BudgetDay : time;
  pst_BudgetUsed : Z
}.

#[export] Instance eta_ProbeScheduler : Eta ProbeScheduler := fun s =>
  mkScheduler (sr_policy s) (sr_lastCompleted s) (sr_inFlight s) (sr_confirmations s) (sr_budgetDay s) (sr_budgetUsed s) (sr_sequence s).
Definition set_sr_lastCompleted v (s : ProbeScheduler) : ProbeScheduler := ltac:(assign s sr_lastCompleted v).
Definition set_sr_inFlight v (s : ProbeScheduler) : ProbeScheduler := ltac:(assign s sr_inFlight v).
Definition set_sr_confirmations v (s : ProbeScheduler) : ProbeScheduler := ltac:(assign s sr_confirmations v).
Definition set_sr_budgetDay v (s : ProbeScheduler) : ProbeScheduler := ltac:(assign s sr_budgetDay v).
Definition set_sr_budgetUsed v (s : ProbeScheduler) : ProbeScheduler := ltac:(assign s sr_budgetUsed v).
Definition set_sr_sequence v (s : ProbeScheduler) : ProbeScheduler := ltac:(assign s sr_sequence v).

Definition DefaultProbeSchedulePolicy : ProbeSchedulePolicy :=
  mkSchedulePolicy (5 * minute) (30 * minute) (6 * hour) (2 * minute) 3 (45 * second) 1 512 (F.ratio 10 100).

(** [true] for no error. *)
Definition validateProbeSchedulePolicy (p : ProbeSchedulePolicy) : bool :=
  negb ((pp_ActiveInterval p <? minute) || (hour <? pp_ActiveInterval p)
        || (pp_BackupInterval p <? pp_ActiveInterval p) || (6 * hour <? pp_BackupInterval p)
        || (pp_OtherInterval p <? pp_BackupInterval p) || (24 * hour <? pp_OtherInterval p))
  && negb ((pp_ConfirmationWindow p <? 30 * second) || (10 * minute <? pp_ConfirmationWindow p)
           || (pp_ConfirmationAttempts p <? 1) || (5 <? pp_ConfirmationAttempts p)
           || (pp_ProbeDeadline p <? 5 * second) || (5 * minute <? pp_ProbeDeadline p))
  && negb ((pp_MaxConcurrent p <? 1) || (4 <? pp_MaxConcurrent p) || (pp_MaxDailyProbes p <? 1) || (4096 <? pp_MaxDailyProbes p)
           || F.ltb (pp_JitterFraction p) F.zero || F.ltb (F.ratio 5 10) (pp_JitterFraction p)).

Definition NewProbeScheduler (policy : ProbeSchedulePolicy) : option ProbeScheduler :=
  if validateProbeSchedulePolicy policy then Some (mkScheduler policy ∅ ∅ ∅ T.zero 0 0) else None.

Definition scheduleKey (key : DecisionKey) (profileID : string) : string := decisionKeyString key +:+ "|" +:+ profileID.

(** ** Intervals *)

(** [hash/fnv]'s 64-bit FNV-1a. *)
Fixpoint fnv64a (h : Z) (s : string) : Z :=
  match s with
  | EmptyString => h
  | String c rest => fnv64a (Z.lxor h (Z.of_N (Ascii.N_of_ascii c)) * 1099511628211 mod 2 ^ 64) rest
  end.

Definition jitteredInterval (p : ProbeSchedulePolicy) (key : string) (interval : duration) : duration :=
  if (interval <=? 0) || F.eqb (pp_JitterFraction p) F.zero then interval
  else
    let unit := F.sub (F.div (F.of_Z (fnv64a 14695981039346656037 key mod 20001)) (F.of_Z 10000)) F.one in
    let factor := F.add F.one (F.mul unit (pp_JitterFraction p)) in
    F.trunc_to_Z (F.mul (F.of_Z interval) factor).

(** ** The state *)

Definition resetBudgetLocked (now : time) (s : ProbeScheduler) : ProbeScheduler :=
  if T.Equal (T.Day now) (sr_budgetDay s) then s
  else s |> set_sr_budgetDay (T.Day now) |> set_sr_budgetUsed 0.

(** The leases whose deadline has come count as completed then.  Two expired
    leases of one profile: Go's map order decides which deadline stays; here it
    is the order of the tokens. *)
Definition expired (now : time) (p : ScheduledProbe) : bool := negb (T.Before now (pb_Deadline p)).
Definition completeAll (probes : list ScheduledProbe) (completed : gmap string time) : gmap string time :=
  foldl (fun m p => <[scheduleKey (pb_Key p) (pb_ProfileID p) := pb_Deadline p]> m) completed probes.
Definition purgeExpiredLocked (now : time) (s : ProbeScheduler) : ProbeScheduler :=
  s |> set_sr_lastCompleted (completeAll (List.filter (expired now) (map snd (map_to_list (sr_inFlight s)))) (sr_lastCompleted s))
    |> set_sr_inFlight (filter (fun kv : string * ScheduledProbe => expired now kv.2 = false) (sr_inFlight s))
    |> set_sr_confirmations (filter (fun kv : string * confirmationState => T.After now (cf_deadline kv.2) = false) (sr_confirmations s)).
Definition settle (now : time) (s : ProbeScheduler) : ProbeScheduler := purgeExpiredLocked now (resetBudgetLocked now s).

(** ** Operations *)

Definition RequestConfirmation (s : ProbeScheduler) (key : DecisionKey) (profileID : string) (now : time) : option ProbeScheduler :=
  if negb (profileIDPattern profileID) || T.IsZero now then None
  else Some (set_sr_confirmations (<[scheduleKey key profileID :=
               mkConfirmation (pp_ConfirmationAttempts (sr_policy s)) (T.Add now (pp_ConfirmationWindow (sr_policy s)))]>
               (sr_confirmations s)) s).

Record dueCandidate := mkDue { dc_profileID : string; dc_class : string; dc_interval : duration; dc_priority : Z }.

Definition confirmationOf (s : ProbeScheduler) (keyProfile : string) : confirmationState :=
  default (mkConfirmation 0 T.zero) (sr_confirmations s !! keyProfile).

Definition dueOf (s : ProbeScheduler) (key : DecisionKey) (activeProfile : string) (now : time) (score : CandidateScore) : dueCandidate :=
  let id := sc_ProfileID score in
  let confirmation := confirmationOf s (scheduleKey key id) in
  if (0 <? cf_remaining confirmation) && negb (T.After now (cf_deadline confirmation)) then mkDue id "confirmation" 0 0
  else if id =s activeProfile then mkDue id "active" (pp_ActiveInterval (sr_policy s)) 1
  else if sc_Eligible score then mkDue id "backup" (pp_BackupInterval (sr_policy s)) 2
  else mkDue id "other" (pp_OtherInterval (sr_policy s)) 3.

Definition dueLess (x y : dueCandidate) : bool :=
  if negb (dc_priority x =? dc_priority y) then dc_priority x <? dc_priority y else S.ltb (dc_profileID x) (dc_profileID y).

Definition lastOf (s : ProbeScheduler) (keyProfile : string) : time := default T.zero (sr_lastCompleted s !! keyProfile).

(** Whether the loop of [Next] takes the candidate. *)
Definition isDue (s : ProbeScheduler) (key : DecisionKey) (now : time) (c : dueCandidate) : bool :=
  let keyProfile := scheduleKey key (dc_profileID c) in
  let last := lastOf s keyProfile in
  negb ((dc_class c <>s "confirmation") && negb (T.IsZero last)
        && T.Before now (T.Add last (jitteredInterval (sr_policy s) keyProfile (dc_interval c)))).

(** One attempt of the confirmation of a profile is used up. *)
Definition useConfirmation (keyProfile : string) (s : ProbeScheduler) : ProbeScheduler :=
  let confirmation := confirmationOf s keyProfile in
  let remaining := cf_remaining confirmation - 1 in
  set_sr_confirmations (if remaining =? 0 then delete keyProfile (sr_confirmations s)
                        else <[keyProfile := mkConfirmation remaining (cf_deadline confirmation)]> (sr_confirmations s)) s.

(** [time.Unix(0, 0)] since the zero time. *)
Definition unixEpoch : time := 62135596800 * second.

Section Scheduler.
Context (sha256 : string -> string).

Definition lease (s : ProbeScheduler) (key : DecisionKey) (now : time) (c : dueCandidate) : ProbeScheduler * ScheduledProbe :=
  let keyProfile := scheduleKey key (dc_profileID c) in
  let sequence := (sr_sequence s + 1) mod 2 ^ 64 in
  let token := Digest sha256 (keyProfile +:+ "|" +:+ pretty (wrap64 (now - unixEpoch)) +:+ "|" +:+ pretty sequence) in
  let probe := mkProbe token key (dc_profileID c) (dc_class c) now (T.Add now (pp_ProbeDeadline (sr_policy s))) in
  let s := s |> set_sr_sequence sequence |> set_sr_inFlight (<[token := probe]> (sr_inFlight s))
             |> set_sr_budgetUsed (sr_budgetUsed s + 1) in
  (if dc_class c =s "confirmation" then useConfirmation keyProfile s else s, probe).

Definition exhausted (s : ProbeScheduler) : bool :=
  (pp_MaxConcurrent (sr_policy s) <=? Z.of_nat (size (sr_inFlight s))) || (pp_MaxDailyProbes (sr_policy s) <=? sr_budgetUsed s).

(** The state after the call and [(probe, true, nil)] as [Ok (Some probe)]. *)
Definition Next (s : ProbeScheduler) (key : DecisionKey) (activeProfile : string) (ranking : list CandidateScore) (now : time)
    : ProbeScheduler * result (option ScheduledProbe) :=
  if T.IsZero now then (s, Err "probe scheduler and current time are required")
  else if negb (validateRankingForKey key ranking) then (s, Err "ranking is invalid")
  else
    let s := settle now s in
    if exhausted s then (s, Ok None)
    else
      let candidates := map (dueOf s key activeProfile now) ranking in
      if negb (S.is_empty activeProfile) && negb (containsString (map sc_ProfileID ranking) activeProfile)
      then (s, Err "active profile is absent from ranking")
      else match first (isDue s key now) (gosort dueLess candidates) with
      | Some c => let '(s, probe) := lease s key now c in (s, Ok (Some probe))
      | None => (s, Ok None)
      end.
End Scheduler.

Definition Complete (s : ProbeScheduler) (token : string) (finishedAt : time) : ProbeScheduler * option string :=
  if S.is_empty token || T.IsZero finishedAt then (s, Some "complete probe lease is required")
  else match sr_inFlight s !! token with
  | None => (s, Some "probe lease is unknown or expired")
  | Some probe =>
      let released at_ := s |> set_sr_inFlight (delete token (sr_inFlight s))
                            |> set_sr_lastCompleted (<[scheduleKey (pb_Key probe) (pb_ProfileID probe) := at_]> (sr_lastCompleted s)) in
      if T.Before finishedAt (pb_ScheduledAt probe) || T.After finishedAt (pb_Deadline probe)
      then (released (pb_Deadline probe), Some "probe completed outside its lease")
      else (released finishedAt, None)
  end.

Definition Cancel (s : ProbeScheduler) (token : string) : ProbeScheduler * option string :=
  if S.is_empty token then (s, Some "cancel probe lease is required")
  else match sr_inFlight s !! token with
  | None => (s, Some "probe lease is unknown or expired")
  | Some _ => (set_sr_inFlight (delete token (sr_inFlight s)) s, None)
  end.

(** The state, [used], [limit] and [inFlight]. *)
Definition Budget (s : ProbeScheduler) (now : time) : ProbeScheduler * (Z * Z * Z) :=
  let s := settle now s in
  (s, (sr_budgetUsed s, pp_MaxDailyProbes (sr_policy s), Z.of_nat (size (sr_inFlight s)))).

Definition Scheduler_Snapshot (s : ProbeScheduler) (now : time) : ProbeScheduler * result ProbeSchedulerState :=
  if T.IsZero now then (s, Err "probe scheduler and current time are required")
  else
    let s := settle now s in
    (s, Ok (mkSchedulerState (sr_lastCompleted s) (sr_budgetDay s) (sr_budgetUsed s))).

Definition Scheduler_Restore (s : ProbeScheduler) (snapshot : ProbeSchedulerState) (now : time) : ProbeScheduler * option string :=
  if T.IsZero now then (s, Some "probe scheduler and current time are required")
  else if (MaxPersistedObservations <? Z.of_nat (size (pst_LastCompleted snapshot))) || (pst_BudgetUsed snapshot <? 0)
     || (pp_MaxDailyProbes (sr_policy s) <? pst_BudgetUsed snapshot)
  then (s, Some "persisted probe scheduler state is outside bounded limits")
  else if any (fun kv => T.After kv.2 now) (map_to_list (pst_LastCompleted snapshot))
  then (s, Some "persisted probe completion is from the future")
  else
    let used := if T.Equal (pst_BudgetDay snapshot) (T.Day now) then pst_BudgetUsed snapshot else 0 in
    (s |> set_sr_lastCompleted (pst_LastCompleted snapshot) |> set_sr_inFlight ∅ |> set_sr_confirmations ∅
       |> set_sr_budgetDay (T.Day now) |> set_sr_budgetUsed used, None).

(** ** The checkpoint of the probe runtime

    [restoreAdaptiveProbeRuntime] and [persistAdaptiveProbeRuntime]: the document
    in the store holds the observations of the ranker and the scheduler's state. *)
Record persistedAdaptiveProbeRuntime := mkPersisted {
  pa_Version : Z;
  pa_CatalogDigest : string;
  pa_Observations : list ProbeObservation;
  pa_Scheduler : ProbeSchedulerState;
  pa_CheckpointedAt : time
}.
Record adaptiveRuntime := mkRuntime {
  ar_ranker : Ranker;
  ar_scheduler : ProbeScheduler;
  ar_catalogDigest : string;
  ar_lastProbeCheckpoint : time
}.
Definition adaptiveProbeCheckpointInterval : duration := 15 * minute.

(** [doc] is the answer of [LoadJSON]: the document, [ErrNotFound] or a failure. *)
Definition restoreAdaptiveProbeRuntime (r : adaptiveRuntime) (doc : result (option persistedAdaptiveProbeRuntime)) (now : time)
    : adaptiveRuntime * option string :=
  match doc with
  | Err e => (r, Some ("load adaptive probe runtime: " +:+ e))
  | Ok None => (r, None)
  | Ok (Some persisted) =>
      if (negb (pa_Version persisted =? 1) && negb (pa_Version persisted =? 2)) || (pa_CatalogDigest persisted <>s ar_catalogDigest r)
      then (r, None)
      else
        match Restore (ar_ranker r) (pa_Observations persisted) now with
        | (ranker, Some e) => (mkRuntime ranker (ar_scheduler r) (ar_catalogDigest r) (ar_lastProbeCheckpoint r), Some ("restore adaptive observations: " +:+ e))
        | (ranker, None) =>
            match Scheduler_Restore (ar_scheduler r) (pa_Scheduler persisted) now with
            | (scheduler, Some e) => (mkRuntime ranker scheduler (ar_catalogDigest r) (ar_lastProbeCheckpoint r), Some ("restore adaptive scheduler: " +:+ e))
            | (scheduler, None) => (mkRuntime ranker scheduler (ar_catalogDigest r) (pa_CheckpointedAt persisted), None)
            end
        end
  end.

(** The runtime, the document saved (if [SaveJSON] was called and succeeded) and
    the error; [saved] is the answer of [SaveJSON]. *)
Definition persistAdaptiveProbeRuntime (r : adaptiveRuntime) (saved : option string) (now : time)
    : adaptiveRuntime * option persistedAdaptiveProbeRuntime * option string :=
  if negb (T.IsZero (ar_lastProbeCheckpoint r)) && T.Before now (T.Add (ar_lastProbeCheckpoint r) adaptiveProbeCheckpointInterval)
  then (r, None, None)
  else
    match Observations (ar_ranker r) now with
    | (ranker, Err e) => (mkRuntime ranker (ar_scheduler r) (ar_catalogDigest r) (ar_lastProbeCheckpoint r), None, Some e)
    | (ranker, Ok observations) =>
        match Scheduler_Snapshot (ar_scheduler r) now with
        | (scheduler, Err e) => (mkRuntime ranker scheduler (ar_catalogDigest r) (ar_lastProbeCheckpoint r), None, Some e)
        | (scheduler, Ok snapshot) =>
            let checkpoint := mkPersisted 2 (ar_catalogDigest r) observations snapshot now in
            match saved with
            | Some e => (mkRuntime ranker scheduler (ar_catalogDigest r) (ar_lastProbeCheckpoint r), None, Some e)
            | None => (mkRuntime ranker scheduler (ar_catalogDigest r) now, Some checkpoint, None)
            end
        end
    end.

(** ** The order of the candidates *)

#[local] Instance StrictWeak_dueLess : StrictWeak dueLess.
Proof.
  eapply (StrictWeak_ext (then_by (same_z dc_priority) (key_lt dc_priority) (key_slt dc_profileID))).
  - intros x y. unfold then_by, same_z, key_lt, key_slt, dueLess. by destruct (_ =? _).
  - auto with flint.
Qed.

(** The first element of a sorted list with a property has no lesser one. *)
Lemma first_sorted_least {A} (less : A -> A -> bool) `{!StrictWeak less} p l x y :
  first p (gosort less l) = Some x -> y ∈ l -> p y = true -> less y x = false.
Proof.
  intros Hf Hy Hp. rewrite <- (gosort_perm less l) in Hy. pose proof (gosort_sorted less l) as Hs.
  induction Hs as [|z rest Hs IH Hz]; [done|]. unfold first in Hf. simpl in Hf.
  destruct (p z) eqn:Ez.
  - injection Hf as <-. apply elem_of_cons in Hy as [->|Hy]; [apply (sw_irrefl less)|].
    rewrite List.Forall_forall in Hz. apply Hz. by apply list_elem_of_In.
  - apply elem_of_cons in Hy as [->|Hy]; [congruence|]. by apply IH.
Qed.

(** ** What a call of [Next] grants *)

Section Grants.
Context (sha256 : string -> string).

Lemma dueOf_profile s key active now score : dc_profileID (dueOf s key active now score) = sc_ProfileID score.
Proof. unfold dueOf. cbv zeta. by repeat destr_if. Qed.

Lemma lease_granted s key now c s' p :
  lease sha256 s key now c = (s', p) ->
  sr_inFlight s' = <[pb_Token p := p]> (sr_inFlight s) /\ sr_budgetUsed s' = sr_budgetUsed s + 1 /\
  sr_budgetDay s' = sr_budgetDay s /\ sr_policy s' = sr_policy s /\ sr_lastCompleted s' = sr_lastCompleted s /\
  pb_Key p = key /\ pb_ProfileID p = dc_profileID c /\ pb_Class p = dc_class c /\ pb_ScheduledAt p = now /\
  pb_Deadline p = now + pp_ProbeDeadline (sr_policy s).
Proof. unfold lease. cbv zeta. intros [= <- <-]. by destr_if. Qed.

(** A call of Next grants a lease exactly when the concurrency and the daily
    budget allow one and some candidate is due, and then for the due candidate
    that comes first: confirmations, the active profile, eligible backups, the
    others, and by name among equals.  The lease runs from the call to the
    deadline of the policy. *)
Theorem next_grants_first_due s key active ranking now s' r :
  Next sha256 s key active ranking now = (s', Ok r) ->
  let s0 := settle now s in
  let due score := isDue s0 key now (dueOf s0 key active now score) in
  match r with
  | None => exhausted s0 = true \/ forall score, score ∈ ranking -> due score = false
  | Some p =>
      exhausted s0 = false /\ sr_inFlight s' = <[pb_Token p := p]> (sr_inFlight s0) /\ sr_budgetUsed s' = sr_budgetUsed s0 + 1 /\
      pb_Key p = key /\ pb_ScheduledAt p = now /\ pb_Deadline p = now + pp_ProbeDeadline (sr_policy s0) /\
      exists score, score ∈ ranking /\ due score = true /\
        let c := dueOf s0 key active now score in
        pb_ProfileID p = sc_ProfileID score /\ pb_Class p = dc_class c /\
        forall other, other ∈ ranking -> due other = true -> dueLess (dueOf s0 key active now other) c = false
  end.
Proof.
  intros HN s0 due. unfold Next in HN. destruct (T.IsZero now); [done|]. destruct (negb _); [done|].
  fold s0 in HN. cbv zeta in HN. destruct (exhausted s0) eqn:Ee; [injection HN as <- <-; by left|].
  destruct (negb _ && negb _); [done|].
  destruct (first (isDue s0 key now) (gosort dueLess (map (dueOf s0 key active now) ranking))) as [c|] eqn:Ef.
  - destruct (lease sha256 s0 key now c) as [s1 p] eqn:El. injection HN as <- <-.
    apply lease_granted in El as (Hi & Hu & _ & _ & _ & Hk & Hid & Hcl & Hat & Hdl).
    split_and!; try done. pose proof (first_Some _ _ _ Ef) as [Hc Hdue].
    rewrite gosort_perm in Hc. apply list_elem_of_fmap in Hc as (score & -> & Hin).
    exists score. split; [done|]. split; [done|]. cbv zeta. split; [by rewrite Hid, dueOf_profile|]. split; [done|].
    intros other Ho Hd. eapply (first_sorted_least dueLess); [exact Ef| |exact Hd].
    apply list_elem_of_fmap. by exists other.
  - injection HN as <- <-. right. intros score Hin. apply (first_None _ _ _ Ef).
    rewrite gosort_perm. apply list_elem_of_fmap. by exists score.
Qed.

(** ** The daily budget *)

(** The probes of a day. *)
Definition onDay (day : time) (probes : list ScheduledProbe) : Z :=
  Z.of_nat (length (List.filter (fun p => T.Day (pb_ScheduledAt p) =? day) probes)).

Definition grants (r : result (option ScheduledProbe)) : list ScheduledProbe :=
  match r with Ok (Some p) => [p] | _ => [] end.

(** The histories of a scheduler: the time of the latest call, the state, the
    checkpoint in the store, the probes granted so far, those granted since the
    checkpoint, and those a restart forgot.  The clock never runs backwards. *)
Inductive history (policy : ProbeSchedulePolicy) :
    time -> ProbeScheduler -> option ProbeSchedulerState -> list ScheduledProbe -> list ScheduledProbe -> list ScheduledProbe -> Prop :=
| history_new now s : T.zero <= now -> NewProbeScheduler policy = Some s -> history policy now s None [] [] []
| history_next t now s saved granted pending lost key active ranking s' r :
    history policy t s saved granted pending lost -> t <= now -> Next sha256 s key active ranking now = (s', r) ->
    history policy now s' saved (grants r ++ granted) (grants r ++ pending) lost
| history_complete t s saved granted pending lost token finishedAt s' err :
    history policy t s saved granted pending lost -> Complete s token finishedAt = (s', err) ->
    history policy t s' saved granted pending lost
| history_cancel t s saved granted pending lost token s' err :
    history policy t s saved granted pending lost -> Cancel s token = (s', err) -> history policy t s' saved granted pending lost
| history_confirm t s saved granted pending lost key id at_ s' :
    history policy t s saved granted pending lost -> RequestConfirmation s key id at_ = Some s' ->
    history policy t s' saved granted pending lost
| history_budget t now s saved granted pending lost s' status :
    history policy t s saved granted pending lost -> t <= now -> Budget s now = (s', status) ->
    history policy now s' saved granted pending lost
| history_checkpoint t now s saved granted pending lost s' st :
    history policy t s saved granted pending lost -> t <= now -> Scheduler_Snapshot s now = (s', Ok st) ->
    history policy now s' (Some st) granted [] lost
| history_restart t now s saved granted pending lost s0 s' :
    history policy t s saved granted pending lost -> t <= now -> NewProbeScheduler policy = Some s0 ->
    match saved with Some st => Scheduler_Restore s0 st now = (s', None) | None => s' = s0 end ->
    history policy now s' saved granted [] (pending ++ lost).

Lemma onDay_app day l l' : onDay day (l ++ l') = onDay day l + onDay day l'.
Proof. unfold onDay. rewrite List.filter_app, length_app. lia. Qed.
Lemma onDay_nil day : onDay day [] = 0.
Proof. done. Qed.
Lemma onDay_one day p : onDay day [p] = if T.Day (pb_ScheduledAt p) =? day then 1 else 0.
Proof. unfold onDay. simpl. by destruct (_ =? _). Qed.
Lemma onDay_pos day l : 0 <= onDay day l.
Proof. unfold onDay. lia. Qed.
Lemma Day_mono t u : t <= u -> T.Day t <= T.Day u.
Proof.
  intros H. unfold T.Day, T.Truncate. assert (24 * hour <=? 0 = false) as -> by done.
  set (d := 24 * hour). assert (0 < d) by (unfold d, hour, minute, second; lia).
  rewrite !Z.mod_eq by lia. pose proof (Z.div_le_mono t u d). nia.
Qed.
Lemma Day_nonneg t : 0 <= t -> 0 <= T.Day t.
Proof. intros H. apply Day_mono in H. assert (T.Day 0 = 0) as E by (vm_compute; reflexivity). lia. Qed.

(** The probes a budget record allows for on a day. *)
Definition covered (most day used d : Z) : Z := if d =? day then used else if d <? day then most else 0.

Lemma covered_mono most day used day' used' d :
  0 <= used <= most -> 0 <= used' -> day < day' \/ day = day' /\ used <= used' -> covered most day used d <= covered most day' used' d.
Proof. unfold covered. intros. repeat destr_if; lia. Qed.

(** A budget record at time [t] that accounts for the [count] of probes. *)
Record accounts (most t day used : Z) (count : Z -> Z) : Prop := {
  acc_day : day <= T.Day t;
  acc_used : 0 <= used <= most;
  acc_count d : count d <= covered most day used d
}.

Lemma accounts_later most t now day used count :
  accounts most t day used count -> t <= now -> accounts most now day used count.
Proof. intros [Hd Hu Hc] Ht. split; [|done|done]. pose proof (Day_mono t now Ht). lia. Qed.

Lemma accounts_reset most t now day used count :
  accounts most t day used count -> t <= now ->
  accounts most now (T.Day now) (if T.Day now =? day then used else 0) count.
Proof.
  intros [Hd Hu Hc] Ht. pose proof (Day_mono t now Ht). split; [lia|destr_if; lia|].
  intros d. etrans; [apply Hc|]. apply covered_mono; repeat destr_if; lia.
Qed.

Lemma accounts_grant most now used count p :
  accounts most now (T.Day now) used count -> used < most -> pb_ScheduledAt p = now ->
  accounts most now (T.Day now) (used + 1) (fun d => onDay d [p] + count d).
Proof.
  intros [Hd Hu Hc] Hm Hp. split; [lia|lia|]. intros d. specialize (Hc d). rewrite onDay_one, Hp. unfold covered in *.
  repeat destr_if; lia.
Qed.

(** The scheduler's invariant, in terms of the policy. *)
Record budgeted (policy : ProbeSchedulePolicy) (t : time) (s : ProbeScheduler) (saved : option ProbeSchedulerState)
    (granted pending lost : list ScheduledProbe) : Prop := {
  bg_policy : sr_policy s = policy;
  bg_valid : 1 <= pp_MaxConcurrent policy /\ 1 <= pp_MaxDailyProbes policy;
  bg_time : 0 <= t;
  bg_inFlight : Z.of_nat (size (sr_inFlight s)) <= pp_MaxConcurrent policy;
  bg_state : accounts (pp_MaxDailyProbes policy) t (sr_budgetDay s) (sr_budgetUsed s) (fun d => onDay d granted - onDay d lost);
  bg_saved : match saved with
             | Some st => accounts (pp_MaxDailyProbes policy) t (pst_BudgetDay st) (pst_BudgetUsed st)
                            (fun d => onDay d granted - onDay d pending - onDay d lost)
             | None => forall d, onDay d granted <= onDay d pending + onDay d lost
             end
}.

Lemma accounts_ext most t day used count count' :
  (forall d, count' d <= count d) -> accounts most t day used count -> accounts most t day used count'.
Proof. intros He [Hd Hu Hc]. split; [done|done|]. intros d. specialize (He d). specialize (Hc d). lia. Qed.

Lemma saved_later policy t now (saved : option ProbeSchedulerState) granted pending lost :
  t <= now ->
  match saved with
  | Some st => accounts (pp_MaxDailyProbes policy) t (pst_BudgetDay st) (pst_BudgetUsed st)
                 (fun d => onDay d granted - onDay d pending - onDay d lost)
  | None => forall d, onDay d granted <= onDay d pending + onDay d lost
  end ->
  match saved with
  | Some st => accounts (pp_MaxDailyProbes policy) now (pst_BudgetDay st) (pst_BudgetUsed st)
                 (fun d => onDay d granted - onDay d pending - onDay d lost)
  | None => forall d, onDay d granted <= onDay d pending + onDay d lost
  end.
Proof. intros Ht. destruct saved; [|done]. intros H. by eapply accounts_later. Qed.

Lemma size_filter_le {A} (P : string * A -> Prop) `{forall x, Decision (P x)} (m : gmap string A) : (size (filter P m) <= size m)%nat.
Proof. rewrite <- !size_dom. apply subseteq_size. apply dom_filter_subseteq. Qed.

Lemma size_insert_le {A} k (x : A) (m : gmap string A) : (size (<[k := x]> m) <= S (size m))%nat.
Proof. rewrite map_size_insert. destruct (m !! k); simpl; lia. Qed.
Lemma size_delete_le {A} k (m : gmap string A) : (size (delete k m) <= size m)%nat.
Proof. destruct (m !! k) as [x|] eqn:E; [rewrite map_size_delete, E; lia|by rewrite delete_id]. Qed.

Lemma settle_fields now s :
  sr_policy (settle now s) = sr_policy s /\ (size (sr_inFlight (settle now s)) <= size (sr_inFlight s))%nat /\
  sr_budgetDay (settle now s) = T.Day now /\
  sr_budgetUsed (settle now s) = if T.Day now =? sr_budgetDay s then sr_budgetUsed s else 0.
Proof.
  unfold settle, purgeExpiredLocked, resetBudgetLocked. cbn [sr_policy sr_inFlight sr_budgetDay sr_budgetUsed set_sr_lastCompleted
    set_sr_inFlight set_sr_confirmations]. unfold T.Equal. destruct (T.Day now =? sr_budgetDay s) eqn:E; simpl.
  - split_and!; [done|apply size_filter_le| |done]. lia.
  - split_and!; [done|apply size_filter_le|done|done].
Qed.

Lemma settle_budgeted policy t now s saved granted pending lost :
  budgeted policy t s saved granted pending lost -> t <= now -> budgeted policy now (settle now s) saved granted pending lost.
Proof.
  intros [Hp Hv H0 Hi Ha Hs] Ht. pose proof (settle_fields now s) as (E1 & E2 & E3 & E4).
  split; [congruence|done|lia|lia| |by eapply saved_later].
  rewrite E3, E4. eapply accounts_reset; [exact Ha|done].
Qed.

Lemma Next_budgeted policy t now s saved granted pending lost key active ranking s' r :
  budgeted policy t s saved granted pending lost -> t <= now -> Next sha256 s key active ranking now = (s', r) ->
  budgeted policy now s' saved (grants r ++ granted) (grants r ++ pending) lost.
Proof.
  intros H Ht HN. unfold Next in HN.
  assert (Hlater : budgeted policy now s saved granted pending lost).
  { destruct H as [Hp Hv H0 Hi Ha Hs]. split; [done|done|lia|done|by eapply accounts_later|by eapply saved_later]. }
  destruct (T.IsZero now); [by injection HN as <- <-|]. destruct (negb _); [by injection HN as <- <-|].
  cbv zeta in HN. apply (settle_budgeted _ _ now) in H; [|done]. pose proof (settle_fields now s) as (_ & _ & Eday & _).
  set (s0 := settle now s) in *. destruct (exhausted s0) eqn:Ee; [by injection HN as <- <-|].
  destruct (negb _ && negb _); [by injection HN as <- <-|].
  destruct (first _ _) as [c|]; [|by injection HN as <- <-].
  destruct (lease sha256 s0 key now c) as [s1 p] eqn:El. injection HN as <- <-.
  apply lease_granted in El as (E1 & E2 & E3 & E4 & _ & _ & _ & _ & Eat & _).
  destruct H as [Hp Hv H0 Hi Ha Hs]. unfold exhausted in Ee. bool_split. rewrite Hp in *.
  change (grants (Ok (Some p)) ++ granted) with ([p] ++ granted). change (grants (Ok (Some p)) ++ pending) with ([p] ++ pending).
  split; [congruence|done|done| | |].
  - rewrite E1. pose proof (size_insert_le (pb_Token p) p (sr_inFlight s0)). lia.
  - rewrite E2, E3, Eday. rewrite Eday in Ha. eapply accounts_ext; [|apply (accounts_grant _ _ _ _ p Ha); [lia|done]].
    intros d. cbv beta. rewrite onDay_app. lia.
  - destruct saved.
    + eapply accounts_ext; [|exact Hs]. intros d. cbv beta. rewrite !onDay_app. lia.
    + intros d. specialize (Hs d). rewrite !onDay_app. lia.
Qed.

(** Operations that touch neither the budget nor add leases. *)
Lemma budgeted_released policy t s saved granted pending lost s' :
  budgeted policy t s saved granted pending lost ->
  sr_policy s' = sr_policy s -> sr_budgetDay s' = sr_budgetDay s -> sr_budgetUsed s' = sr_budgetUsed s ->
  (size (sr_inFlight s') <= size (sr_inFlight s))%nat -> budgeted policy t s' saved granted pending lost.
Proof. intros [Hp Hv H0 Hi Ha Hs] E1 E2 E3 E4. split; [congruence|done|done|lia|by rewrite E2, E3|done]. Qed.

Lemma NewProbeScheduler_fields policy s :
  NewProbeScheduler policy = Some s ->
  s = mkScheduler policy ∅ ∅ ∅ T.zero 0 0 /\ 1 <= pp_MaxConcurrent policy /\ 1 <= pp_MaxDailyProbes policy.
Proof.
  unfold NewProbeScheduler. destruct (validateProbeSchedulePolicy policy) eqn:E; [|done]. intros [= <-].
  split; [done|]. unfold validateProbeSchedulePolicy in E. bool_split. lia.
Qed.

Lemma Restore_fields s st now s' :
  Scheduler_Restore s st now = (s', None) ->
  sr_policy s' = sr_policy s /\ sr_inFlight s' = ∅ /\ sr_budgetDay s' = T.Day now /\
  sr_budgetUsed s' = if T.Day now =? pst_BudgetDay st then pst_BudgetUsed st else 0.
Proof.
  unfold Scheduler_Restore. repeat (destr_if; [done|]). cbv zeta. intros [= <-]. simpl. split_and!; try done.
  unfold T.Equal in *. rewrite Z.eqb_sym. done.
Qed.

Lemma history_budgeted policy t s saved granted pending lost :
  history policy t s saved granted pending lost -> budgeted policy t s saved granted pending lost.
Proof.
  induction 1 as [now s H0 Hn|t now s saved granted pending lost key active ranking s' r _ IH Ht HN
    |t s saved granted pending lost token f s' err _ IH HC|t s saved granted pending lost token s' err _ IH HC
    |t s saved granted pending lost key id at_ s' _ IH HC|t now s saved granted pending lost s' status _ IH Ht HB
    |t now s saved granted pending lost s' st _ IH Ht HS|t now s saved granted pending lost s0 s' _ IH Ht Hn HR].
  - apply NewProbeScheduler_fields in Hn as (-> & Hc & Hm). pose proof (Day_nonneg now H0).
    split; simpl; [done|done|done| | |intros d; by rewrite onDay_nil].
    + rewrite map_size_empty. lia.
    + split; [done|unfold T.zero in *; lia|]. intros d. rewrite !onDay_nil. unfold covered. repeat destr_if; lia.
  - by eapply Next_budgeted.
  - unfold Complete in HC. destr_if; [by injection HC as <- _|]. destruct (sr_inFlight s !! token) as [p|]; [|by injection HC as <- _].
    cbv zeta in HC. eapply budgeted_released; [exact IH|..]; destr_if; injection HC as <- _; simpl; try done; apply size_delete_le.
  - unfold Cancel in HC. destr_if; [by injection HC as <- _|]. destruct (sr_inFlight s !! token) as [p|]; [|by injection HC as <- _].
    injection HC as <- _. eapply budgeted_released; [exact IH|..]; simpl; try done. apply size_delete_le.
  - unfold RequestConfirmation in HC. destr_if; [done|]. injection HC as <-. by eapply budgeted_released.
  - unfold Budget in HB. injection HB as <- _. by eapply settle_budgeted.
  - unfold Scheduler_Snapshot in HS. destr_if; [done|]. injection HS as <- <-.
    apply (settle_budgeted _ _ now) in IH; [|done]. destruct IH as [Hp Hv H0 Hi Ha Hs]. split; try done. simpl.
    eapply accounts_ext; [|exact Ha]. intros d. simpl. rewrite onDay_nil. lia.
  - apply NewProbeScheduler_fields in Hn as (-> & Hc & Hm). destruct IH as [Hp Hv H0 Hi Ha Hs].
    destruct saved as [st|].
    + apply Restore_fields in HR as (E1 & E2 & E3 & E4). simpl in E1.
      split; [done|done|lia|rewrite E2, map_size_empty; lia| |].
      * rewrite E3, E4. eapply accounts_reset; [|exact Ht]. eapply accounts_ext; [|exact Hs].
        intros d. simpl. rewrite onDay_app. lia.
      * eapply accounts_later; [|exact Ht]. eapply accounts_ext; [|exact Hs]. intros d. simpl. rewrite onDay_app, onDay_nil. lia.
    + subst s'. pose proof (Day_nonneg now ltac:(lia)).
      split; simpl; [done|done|lia|rewrite map_size_empty; lia| |intros d; specialize (Hs d); rewrite onDay_app, onDay_nil; lia].
      split; [done|unfold T.zero in *; lia|]. intros d. specialize (Hs d). rewrite onDay_app. unfold covered. repeat destr_if; lia.
Qed.

(** Over every history of a scheduler, restarts included, the probes granted
    on one day exceed the daily budget by at most those that a restart forgot
    because they were granted after the last checkpoint; and no more leases run
    at once than the policy allows. *)
Theorem daily_budget_holds policy t s saved granted pending lost :
  history policy t s saved granted pending lost ->
  Z.of_nat (size (sr_inFlight s)) <= pp_MaxConcurrent policy /\
  forall day, onDay day granted <= pp_MaxDailyProbes policy + onDay day lost.
Proof.
  intros H. apply history_budgeted in H as [Hp Hv H0 Hi [Hd Hu Hc] _]. split; [done|]. intros d. specialize (Hc d).
  unfold covered in Hc. repeat destr_if; lia.
Qed.
End Grants.

(** ** The checkpoint *)

(** No completion later than [now]. *)
Definition pastOnly (now : time) (completed : gmap string time) : Prop := forall k t, completed !! k = Some t -> t <= now.

Lemma any_future_false later completed : pastOnly later completed -> any (fun kv => T.After kv.2 later) (map_to_list completed) = false.
Proof.
  intros H. apply any_false. intros [k t] Hin. apply elem_of_map_to_list in Hin. specialize (H k t Hin). unfold T.After. simpl. lia.
Qed.

Lemma pastOnly_later now later completed : pastOnly now completed -> now <= later -> pastOnly later completed.
Proof. intros H Hl k t Hk. specialize (H k t Hk). lia. Qed.

Lemma Scheduler_Restore_ok s st later :
  T.IsZero later = false -> Z.of_nat (size (pst_LastCompleted st)) <= MaxPersistedObservations ->
  0 <= pst_BudgetUsed st <= pp_MaxDailyProbes (sr_policy s) -> pastOnly later (pst_LastCompleted st) ->
  exists s', Scheduler_Restore s st later = (s', None) /\ sr_lastCompleted s' = pst_LastCompleted st /\ sr_inFlight s' = ∅ /\
    sr_budgetUsed s' = if T.Day later =? pst_BudgetDay st then pst_BudgetUsed st else 0.
Proof.
  intros Ez Hs Hu Hp. unfold Scheduler_Restore. rewrite Ez, any_future_false by done.
  assert ((MaxPersistedObservations <? Z.of_nat (size (pst_LastCompleted st))) || (pst_BudgetUsed st <? 0)
          || (pp_MaxDailyProbes (sr_policy s) <? pst_BudgetUsed st) = false) as -> by lia.
  cbv zeta. eexists. split; [done|]. simpl. unfold T.Equal. rewrite Z.eqb_sym. done.
Qed.

(** The checkpoint survives a restart.  What persistAdaptiveProbeRuntime saves
    of a ranker with any history and a scheduler within its bounds is accepted by
    restoreAdaptiveProbeRuntime at any later time, under the same catalogs and
    policies: from then on every ranking is the one the saved ranker would give,
    the completions are kept, the budget of the day is kept on the same day and
    starts anew on another, and no lease is in flight. *)
Theorem checkpoint_restores r r1 doc r0 now later :
  reachable (ar_ranker r) ->
  persistAdaptiveProbeRuntime r None now = (r1, Some doc, None) ->
  Z.of_nat (length (allSamples (rk_samples (ar_ranker r1)))) <= MaxPersistedObservations ->
  Z.of_nat (size (sr_lastCompleted (ar_scheduler r1))) <= MaxPersistedObservations ->
  pastOnly now (sr_lastCompleted (ar_scheduler r1)) ->
  0 <= sr_budgetUsed (ar_scheduler r1) <= pp_MaxDailyProbes (sr_policy (ar_scheduler r0)) ->
  rk_bundles (ar_ranker r0) = rk_bundles (ar_ranker r) -> rk_profiles (ar_ranker r0) = rk_profiles (ar_ranker r) ->
  rk_policy (ar_ranker r0) = rk_policy (ar_ranker r) -> ar_catalogDigest r0 = ar_catalogDigest r ->
  T.zero < now <= later ->
  exists r2, restoreAdaptiveProbeRuntime r0 (Ok (Some doc)) later = (r2, None) /\
    (forall key costs t, later <= t -> Rank (ar_ranker r2) key costs t = Rank (ar_ranker r1) key costs t) /\
    sr_lastCompleted (ar_scheduler r2) = sr_lastCompleted (ar_scheduler r1) /\ sr_inFlight (ar_scheduler r2) = ∅ /\
    sr_budgetUsed (ar_scheduler r2) = (if T.Day later =? T.Day now then sr_budgetUsed (ar_scheduler r1) else 0) /\
    ar_lastProbeCheckpoint r2 = now.
Proof.
  intros HR HP Hlen Hsize Hpast Hused Eb Ep Eq Ed Ht. unfold T.zero in Ht.
  assert (En : T.IsZero now = false) by (unfold T.IsZero, T.zero; lia).
  assert (El : T.IsZero later = false) by (unfold T.IsZero, T.zero; lia).
  unfold persistAdaptiveProbeRuntime in HP. destruct (_ && _); [done|].
  destruct (Observations (ar_ranker r) now) as [ranker [obs|e]] eqn:EO; [|done].
  destruct (Scheduler_Snapshot (ar_scheduler r) now) as [scheduler [st|e]] eqn:ES; [|done]. injection HP as <- <-.
  cbn [ar_ranker ar_scheduler] in *. unfold Scheduler_Snapshot in ES. rewrite En in ES. cbv zeta in ES.
  destruct (restored_rankings _ (ar_ranker r0) now later obs ranker HR Eb Ep Eq EO Hlen (proj2 Ht) El) as (k2 & HRe & Hrank).
  pose proof (settle_fields now (ar_scheduler r)) as (_ & _ & Eday & _). set (s1 := settle now (ar_scheduler r)) in *.
  assert (scheduler = s1 /\ st = mkSchedulerState (sr_lastCompleted s1) (sr_budgetDay s1) (sr_budgetUsed s1)) as [-> ->] by (split; congruence).
  destruct (Scheduler_Restore_ok (ar_scheduler r0) (mkSchedulerState (sr_lastCompleted s1) (sr_budgetDay s1) (sr_budgetUsed s1)) later
              El Hsize Hused (pastOnly_later _ _ _ Hpast (proj2 Ht))) as (s2 & HSe & E1 & E2 & E3).
  eexists. unfold restoreAdaptiveProbeRuntime. cbn [pa_Version pa_CatalogDigest pa_Observations pa_Scheduler]. rewrite Ed, String.eqb_refl.
  cbn [negb orb andb Z.eqb Pos.eqb]. rewrite HRe, HSe. split; [done|].
  cbn [ar_ranker ar_scheduler ar_lastProbeCheckpoint]. split; [done|]. split; [done|]. split; [done|].
  split; [|done]. rewrite E3. cbn [pst_BudgetDay pst_BudgetUsed]. by rewrite Eday.
Qed.
