(* ===== verification/ZapretExamples.v ===== *)
(** * The Zapret components on concrete histories

    Twelve minutes of probes of two profiles, the switches they lead to, and the
    run that shows where the controller departs from its intent. *)
From Stdlib Require Import ZArith Lia.
From stdpp Require Import base list strings gmap sorting.
From S2P Require Import Prelude Float64 ZapretCatalog.
From S2P Require Import ZapretRanking ZapretRankingProofs ZapretSwitching ZapretSwitchingProofs.
From S2P Require Import ZapretScheduler.

Open Scope Z_scope.

(** ** A ranking

    Twelve probes of each profile, one a minute; the first one of [fake] failed. *)
Definition ex_key : DecisionKey := mkKey "video" "tcp" 443 "ipv4" ("sha256:" +:+ ex_hex).
Definition ex_minute (n : nat) : time := 1000 * hour + Z.of_nat n * minute.
Definition ex_observation (id : string) (success : bool) (n : nat) : ProbeObservation :=
  mkObservation ex_key id (ex_minute n) success success success success false (80 * millisecond + Z.of_nat n).
Definition ex_ranker0 : Ranker := mkRanker ex_bundle_catalog ex_profiles DefaultRankingPolicy ∅.
Definition ex_probes (n : nat) (r : Ranker) : Ranker :=
  foldl (fun r o => (Observe r o).1) r
    (flat_map (fun i => [ex_observation "split" true i; ex_observation "fake" (negb (i =? 0)%nat) i]) (seq 0 n)).
Definition ex_ranker : Ranker := ex_probes 12 ex_ranker0.
Definition ex_now : time := ex_minute 12.

Lemma ex_reach_ranker0 : reachable ex_ranker0.
Proof. apply (reach_new ex_bundle_catalog ex_profiles DefaultRankingPolicy). vm_compute. reflexivity. Qed.
Lemma ex_reach_probes n r : reachable r -> reachable (ex_probes n r).
Proof.
  intros Hr. unfold ex_probes. generalize (flat_map (fun i => [ex_observation "split" true i; ex_observation "fake" (negb (i =? 0)%nat) i]) (seq 0 n)).
  intros l. revert r Hr. induction l as [|o l IH]; intros r Hr; [done|]. by apply IH, reach_observe.
Qed.

Lemma ex_probes_catalogs n r :
  rk_bundles (ex_probes n r) = rk_bundles r /\ rk_profiles (ex_probes n r) = rk_profiles r /\ rk_policy (ex_probes n r) = rk_policy r.
Proof.
  unfold ex_probes. generalize (flat_map (fun i => [ex_observation "split" true i; ex_observation "fake" (negb (i =? 0)%nat) i]) (seq 0 n)).
  intros l. revert r. induction l as [|o l IH]; intros r; [done|]. simpl. destruct (IH (Observe r o).1) as (-> & -> & ->).
  unfold Observe. by destruct (normalizeObservation r o).
Qed.

Example ex_ranking :
  match Rank ex_ranker ex_key ∅ ex_now with
  | Ok scores => map (fun s => (sc_ProfileID s, sc_Attempts s, sc_Successes s, sc_StableWindows s, (sc_Eligible s, sc_ProductionReady s))) scores
  | Err _ => []
  end = [("split", 12, 12, 3, (true, true)); ("fake", 12, 11, 2, (true, false))].
Proof. vm_compute. reflexivity. Qed.

Lemma eligible_is_earned_witness :
  sc_Eligible (scoreLocked ex_ranker ex_key "split" 0 ex_now) = true /\
  rp_MinAttempts DefaultRankingPolicy <= Z.of_nat (length (activeSamples ex_ranker ex_key "split" ex_now)).
Proof.
  assert (He : sc_Eligible (scoreLocked ex_ranker ex_key "split" 0 ex_now) = true) by (vm_compute; reflexivity).
  split; [exact He|].
  assert (Hp : rk_policy ex_ranker = DefaultRankingPolicy) by (vm_compute; reflexivity). rewrite <- Hp.
  exact (proj1 (proj1 (eligible_is_earned ex_ranker ex_key "split" 0 ex_now (ex_reach_probes 12 _ ex_reach_ranker0) He))).
Defined.

Definition ex_saved := Observations ex_ranker ex_now.
Lemma observations_restore_witness :
  exists r2, Restore ex_ranker0 (match ex_saved.2 with Ok obs => obs | Err _ => [] end) ex_now = (r2, None) /\
    Rank r2 ex_key ∅ ex_now = Rank ex_ranker ex_key ∅ ex_now.
Proof.
  destruct (ex_probes_catalogs 12 ex_ranker0) as (Hb & Hp & Hq).
  assert (HO : ex_saved = (ex_saved.1, Ok (match ex_saved.2 with Ok obs => obs | Err _ => [] end)))
    by (apply Ok_default; vm_compute; reflexivity).
  assert (Hl : Z.of_nat (length (allSamples (rk_samples ex_saved.1))) <= MaxPersistedObservations) by (vm_compute; discriminate).
  destruct (observations_restore ex_ranker ex_ranker0 ex_now _ _ (ex_reach_probes 12 _ ex_reach_ranker0)
              (eq_sym Hb) (eq_sym Hp) (eq_sym Hq) HO Hl) as (r2 & H1 & H2).
  exists r2. split; [exact H1|]. exact (proj1 (H2 ex_key ∅)).
Defined.

(** ** Switches *)

Definition scoresOf (r : Ranker) (now : time) : list CandidateScore :=
  match Rank r ex_key ∅ now with Ok l => l | Err _ => [] end.

Lemma rank_accepted_witness :
  map sc_ProfileID (scoresOf ex_ranker ex_now) = ["split"; "fake"] /\
  is_Some (Evaluate (mkController DefaultSwitchingPolicy ∅) ex_key (scoresOf ex_ranker ex_now) ex_now).
Proof.
  split; [vm_compute; reflexivity|].
  assert (Hr : mkRanker ex_bundle_catalog ex_profiles DefaultRankingPolicy (rk_samples ex_ranker) = ex_ranker).
  { destruct (ex_probes_catalogs 12 ex_ranker0) as (Hb & Hp & Hq). unfold ex_ranker in *.
    destruct (ex_probes 12 ex_ranker0) as [b p q s]. simpl in *. by rewrite Hb, Hp, Hq. }
  assert (Hc : ex_catalog = Ok ex_profiles).
  { unfold ex_profiles. assert (Hk : is_ok ex_catalog = true) by (vm_compute; reflexivity). by destruct ex_catalog. }
  assert (Hk : ex_bundles = Ok ex_bundle_catalog) by exact (proj1 domain_has_one_bundle_witness).
  assert (HR : Rank ex_ranker ex_key ∅ ex_now = Ok (scoresOf ex_ranker ex_now)).
  { unfold scoresOf. assert (Hok : is_ok (Rank ex_ranker ex_key ∅ ex_now) = true) by (vm_compute; reflexivity).
    by destruct (Rank ex_ranker ex_key ∅ ex_now). }
  revert HR. generalize (scoresOf ex_ranker ex_now). intros scores HR. rewrite <- Hr in HR.
  pose proof (rank_accepted (fun _ => ex_hex) Some ex_profile_list ex_specs ex_profiles ex_bundle_catalog DefaultRankingPolicy
    (rk_samples ex_ranker) ex_key ∅ ex_now scores Hc Hk HR) as [_ H].
  apply (H (mkController DefaultSwitchingPolicy ∅) ex_now). discriminate.
Defined.

(** A profile "split" that fails and its fallback "fake". *)
Definition ex_score (id : string) (eligible hard : bool) : CandidateScore :=
  mkScore ex_key id 12 12 (negb hard) (negb hard) hard (F.ratio 3 4) F.one F.one 3 0 0 (F.of_Z 80) (F.of_Z 90) 0 eligible eligible ex_now.
Definition ex_failing : list CandidateScore := [ex_score "fake" true false; ex_score "split" false true].
Definition ex_controller (pin : option ManualPin) (active : string) : SwitchController :=
  mkController DefaultSwitchingPolicy {[decisionKeyString ex_key := mkState ex_key active T.zero T.zero pin ∅]}.
Definition decisionOf (o : option (SwitchController * SwitchDecision)) : SwitchDecision :=
  match o with Some (_, d) => d | None => mkDecision zero_Key "" "" "" "" false T.zero end.
Definition ex_decision := Evaluate (ex_controller None "split") ex_key ex_failing ex_now.

Lemma option_pair {A B} (o : option (A * B)) a b :
  is_Some o -> o = Some (match o with Some (a, _) => a | None => a end, match o with Some (_, b) => b | None => b end).
Proof. by intros [[x y] ->]. Qed.

Lemma switch_targets_safe_witness :
  (sd_Action (decisionOf ex_decision), sd_ToProfile (decisionOf ex_decision), sd_Reason (decisionOf ex_decision)) =
    ("SWITCH", "fake", "active_profile_hard_failure") /\
  available (stateLocked (ex_controller None "split") ex_key) ex_failing ex_now "fake".
Proof.
  assert (H1 : (sd_Action (decisionOf ex_decision), sd_ToProfile (decisionOf ex_decision), sd_Reason (decisionOf ex_decision)) =
    ("SWITCH", "fake", "active_profile_hard_failure")) by (vm_compute; reflexivity).
  split; [exact H1|].
  assert (H2 : exists c d, ex_decision = Some (c, d) /\ sd_Action d = SwitchProfile /\ sd_ToProfile d = "fake").
  { destruct ex_decision as [[c d]|]; [|discriminate H1]. exists c, d. injection H1 as Ha Ht _. done. }
  destruct H2 as (c & d & HE & Ha & Ht). rewrite <- Ht.
  exact (proj1 (proj1 (switch_targets_safe (ex_controller None "split") ex_key ex_failing ex_now c d HE) Ha)).
Defined.

(** The same switch fails while it is verified. *)
Definition ex_applier (failing : string) : Applier :=
  mkApplier (fun _ => None) (fun name => if name =s failing then Some "failed" else None) None (fun _ c => c).
Definition ex_execution (failing : string) : Execution :=
  Execute (ex_controller None "split") (decisionOf ex_decision) (ex_applier failing) ex_now.

Example ex_executions :
  map (fun failing => let e := ex_execution failing in (sw_Status e.1.2, sw_RollbackTried e.1.2, length e.2))
    [""; "validate"; "verify"] = [("COMMITTED", false, 6%nat); ("FAILED", false, 2%nat); ("FAILED", true, 6%nat)].
Proof. vm_compute. reflexivity. Qed.

Lemma switch_commits_or_undoes_witness :
  sw_Status (ex_execution "verify").1.2 <> "REJECTED" /\
  outcome (decisionOf ex_decision) (ex_applier "verify") ex_now (6 * hour) (ex_execution "verify").
Proof.
  assert (H1 : sw_Status (ex_execution "verify").1.2 = "FAILED") by (vm_compute; reflexivity). split; [by rewrite H1|].
  destruct (switch_commits_or_undoes (ex_controller None "split") (decisionOf ex_decision) (ex_applier "verify") ex_now (fun _ _ => eq_refl))
    as [[H2 _]|H2]; [|exact H2]. exfalso. unfold ex_execution in H1. rewrite H1 in H2. discriminate H2.
Defined.

(** A pin with a safe fallback, once the fallback is active: the controller asks
    for a switch of the fallback to itself.  [evaluateAdaptiveZapret] runs it as a
    change set without a difference, which never awaits a confirmation, and
    records the failure as a rollback: the working fallback is quarantined, and
    the next decision is to drop the traffic. *)
Definition ex_pin : ManualPin := mkPin "split" PinSafeFallback ["fake"].
Definition ex_pinned : SwitchController := ex_controller (Some ex_pin) "fake".
Example pinned_fallback_switches_to_itself :
  let d := decisionOf (Evaluate ex_pinned ex_key ex_failing ex_now) in
  (sd_Action d, sd_FromProfile d, sd_ToProfile d, sd_Reason d) = ("SWITCH", "fake", "fake", "pinned_safe_fallback") /\
  match RecordRollback ex_pinned d ex_now with
  | Some c => sd_Action (decisionOf (Evaluate c ex_key ex_failing (ex_now + minute)))
  | None => ""
  end = "DROP".
Proof. vm_compute. split; reflexivity. Qed.

(** ** A schedule

    The active profile is probed, the state is checkpointed, its backup is
    probed; a restart forgets the latter probe. *)
Definition ex_fresh : ProbeScheduler := mkScheduler DefaultProbeSchedulePolicy ∅ ∅ ∅ T.zero 0 0.
Definition ex_first := Next (fun s => s) ex_fresh ex_key "split" ex_failing ex_now.
Definition ex_token (r : result (option ScheduledProbe)) : string := match r with Ok (Some p) => pb_Token p | _ => "" end.
Definition ex_completed := Complete ex_first.1 (ex_token ex_first.2) (ex_now + second).
Definition ex_checkpoint := Scheduler_Snapshot ex_completed.1 (ex_now + 2 * second).
Definition ex_persisted : ProbeSchedulerState :=
  match ex_checkpoint.2 with Ok st => st | Err _ => mkSchedulerState ∅ T.zero 0 end.
Definition ex_second := Next (fun s => s) ex_checkpoint.1 ex_key "split" ex_failing (ex_now + minute).
Definition ex_resumed := Scheduler_Restore ex_fresh ex_persisted (ex_now + 2 * minute).
Definition ex_third := Next (fun s => s) ex_resumed.1 ex_key "split" ex_failing (ex_now + 3 * minute).

Example ex_schedule :
  map (fun r : result (option ScheduledProbe) => match r with Ok (Some p) => (pb_ProfileID p, pb_Class p) | _ => ("", "") end) [ex_first.2; ex_second.2; ex_third.2] =
    [("split", "active"); ("fake", "backup"); ("fake", "backup")] /\
  (sr_budgetUsed ex_second.1, sr_budgetUsed ex_third.1, ex_resumed.2) = (2, 2, None).
Proof. split; vm_compute; reflexivity. Qed.

Lemma ex_fresh_new : NewProbeScheduler DefaultProbeSchedulePolicy = Some ex_fresh.
Proof. vm_compute. reflexivity. Qed.
Lemma ex_first_step : Next (fun s => s) ex_fresh ex_key "split" ex_failing ex_now = (ex_first.1, ex_first.2).
Proof. exact (surjective_pairing ex_first). Qed.
Lemma ex_second_step : Next (fun s => s) ex_checkpoint.1 ex_key "split" ex_failing (ex_now + minute) = (ex_second.1, ex_second.2).
Proof. exact (surjective_pairing ex_second). Qed.
Lemma ex_third_step : Next (fun s => s) ex_resumed.1 ex_key "split" ex_failing (ex_now + 3 * minute) = (ex_third.1, ex_third.2).
Proof. exact (surjective_pairing ex_third). Qed.
Lemma ex_restart_step : Scheduler_Restore ex_fresh ex_persisted (ex_now + 2 * minute) = (ex_resumed.1, None).
Proof. apply (pair_snd ex_resumed). vm_compute. reflexivity. Qed.
Lemma ex_schedule_history :
  history (fun s => s) DefaultProbeSchedulePolicy (ex_now + 3 * minute) ex_third.1 (Some ex_persisted)
    (grants ex_third.2 ++ grants ex_second.2 ++ grants ex_first.2 ++ []) (grants ex_third.2 ++ []) (grants ex_second.2 ++ []).
Proof.
  assert (HC : ex_checkpoint = (ex_checkpoint.1, Ok ex_persisted)) by (apply Ok_default; vm_compute; reflexivity).
  assert (Ht : forall a b, a <= b -> ex_now + a <= ex_now + b) by (intros; lia).
  refine (history_next _ _ (ex_now + 2 * minute) _ _ _ _ _ _ _ _ _ _ _ _ (Ht (2 * minute) (3 * minute) _) ex_third_step); [|done].
  rewrite <- (app_nil_r (grants ex_second.2 ++ [])).
  refine (history_restart _ _ (ex_now + minute) _ _ (Some ex_persisted) _ _ _ _ ex_resumed.1 _ (Ht minute (2 * minute) _) ex_fresh_new ex_restart_step); [|done].
  refine (history_next _ _ (ex_now + 2 * second) _ _ _ _ _ _ _ _ _ _ _ _ (Ht (2 * second) minute _) ex_second_step); [|done].
  refine (history_checkpoint _ _ ex_now _ _ _ _ _ _ _ _ _ _ HC); [|vm_compute; discriminate].
  refine (history_complete _ _ _ _ _ _ _ _ _ _ _ _ _ (surjective_pairing ex_completed)).
  refine (history_next _ _ 0 _ ex_fresh _ _ _ _ _ _ _ _ _ _ _ ex_first_step); [|vm_compute; discriminate].
  apply (history_new _ _ 0 ex_fresh); [done|exact ex_fresh_new].
Qed.

Lemma daily_budget_holds_witness :
  onDay (T.Day ex_now) (grants ex_third.2 ++ grants ex_second.2 ++ grants ex_first.2 ++ []) = 3 /\
  forall day, onDay day (grants ex_third.2 ++ grants ex_second.2 ++ grants ex_first.2 ++ []) <= 512 + onDay day (grants ex_second.2 ++ []).
Proof.
  split; [vm_compute; reflexivity|]. exact (proj2 (daily_budget_holds (fun s => s) _ _ _ _ _ _ _ ex_schedule_history)).
Defined.

Lemma ex_token_granted r : ex_token r <> "" -> exists p, r = Ok (Some p).
Proof. destruct r as [[p|]|]; [|done..]. intros _. by exists p. Qed.
Lemma next_grants_first_due_witness :
  ex_token ex_first.2 <> "" /\ exists p, ex_first.2 = Ok (Some p) /\ pb_Deadline p = ex_now + 45 * second.
Proof.
  assert (Ht : ex_token ex_first.2 <> "") by (vm_compute; discriminate). split; [exact Ht|].
  destruct (ex_token_granted _ Ht) as (p & E). exists p. split; [exact E|].
  assert (HN : Next (fun s => s) ex_fresh ex_key "split" ex_failing ex_now = (ex_first.1, Ok (Some p))) by exact (pair_snd ex_first _ E).
  exact (proj1 (proj2 (proj2 (proj2 (proj2 (proj2 (next_grants_first_due (fun s => s) ex_fresh ex_key "split" ex_failing ex_now _ _ HN))))))).
Defined.

(** A checkpoint of the ranker and the scheduler, restored ten minutes later. *)
Definition ex_runtime : adaptiveRuntime := mkRuntime ex_ranker ex_checkpoint.1 "catalog" T.zero.
Definition ex_restarted : adaptiveRuntime := mkRuntime ex_ranker0 ex_fresh "catalog" T.zero.
Definition ex_save_time : time := ex_now + 2 * second.
Definition ex_saving := persistAdaptiveProbeRuntime ex_runtime None ex_save_time.
Definition ex_document : persistedAdaptiveProbeRuntime :=
  default (mkPersisted 0 "" [] ex_persisted T.zero) ex_saving.1.2.

Lemma triple_eta {A B C} (p : A * option B * option C) b :
  (if p.1.2 then true else false) = true -> (if p.2 then false else true) = true -> p = (p.1.1, Some (default b p.1.2), None).
Proof. by destruct p as [[a [x|]] [y|]]. Qed.

Lemma ex_saving_ok : ex_saving = (ex_saving.1.1, Some ex_document, None).
Proof. apply triple_eta; vm_compute; reflexivity. Qed.

Lemma ex_saving_past : pastOnly ex_save_time (sr_lastCompleted (ar_scheduler ex_saving.1.1)).
Proof.
  intros k t Hk. apply elem_of_map_to_list in Hk.
  assert (HF : forallb (fun kv => kv.2 <=? ex_save_time) (map_to_list (sr_lastCompleted (ar_scheduler ex_saving.1.1))) = true) by (vm_compute; reflexivity).
  rewrite forallb_forall in HF. apply list_elem_of_In in Hk. specialize (HF _ Hk). simpl in HF. lia.
Qed.

Lemma checkpoint_restores_witness :
  exists r2, restoreAdaptiveProbeRuntime ex_restarted (Ok (Some ex_document)) (ex_now + 10 * minute) = (r2, None) /\
    sr_budgetUsed (ar_scheduler r2) = 1.
Proof.
  destruct (ex_probes_catalogs 12 ex_ranker0) as (Hb & Hp & Hq).
  assert (Hl : Z.of_nat (length (allSamples (rk_samples (ar_ranker ex_saving.1.1)))) <= MaxPersistedObservations) by (vm_compute; discriminate).
  assert (Hs : Z.of_nat (size (sr_lastCompleted (ar_scheduler ex_saving.1.1))) <= MaxPersistedObservations) by (vm_compute; discriminate).
  assert (Hu : 0 <= sr_budgetUsed (ar_scheduler ex_saving.1.1) <= pp_MaxDailyProbes (sr_policy (ar_scheduler ex_restarted))) by (vm_compute; split; discriminate).
  assert (Ht : T.zero < ex_save_time <= ex_now + 10 * minute) by (vm_compute; split; [reflexivity|discriminate]).
  destruct (checkpoint_restores ex_runtime _ _ ex_restarted ex_save_time _ (ex_reach_probes 12 _ ex_reach_ranker0) ex_saving_ok Hl Hs ex_saving_past
              Hu (eq_sym Hb) (eq_sym Hp) (eq_sym Hq) eq_refl Ht) as (r2 & H1 & _ & _ & _ & H2 & _).
  exists r2. split; [exact H1|]. rewrite H2. vm_compute. reflexivity.
Defined.

(** A start whose clock is behind the last checkpoint, as on a router without a
    battery-backed clock, is refused: the observations are from its future.
    [NewServer] builds the runtime before it recovers interrupted transactions
    and gives up on this error. *)
Example clock_behind_stops_the_start :
  (restoreAdaptiveProbeRuntime ex_restarted (Ok (Some ex_document)) (ex_now - hour)).2 =
    Some "restore adaptive observations: persisted probe observation is from the future".
Proof. vm_compute. reflexivity. Qed.
